(* ===== verification/_CoqProject ===== *)
-Q . S2P
Prelude.v
PyVal.v
Json.v
PyUuid.v
PyTime.v
Base64.v
Url.v
Recovery.v
QueueProtocol.v
RequestQueue.v
RequestQueueSpec.v
EventProtocol.v
Idempotency.v
Webhooks.v
WebhooksSpec.v
Schedules.v
SchedulesSpec.v
Pagination.v
PaginationSpec.v
Listings.v
ListingsSpec.v
RunEvents.v
Permissions.v
Security.v
Identity.v
Access.v
Tenancy.v
TenancySpec.v
TenancyRuns.v
LoginBound.v
TenancyAccess.v
TenancyScenario.v
EgressProtocol.v
EgressPolicies.v
EgressPoliciesSpec.v
EgressScenario.v
KvProtocol.v
KeyValueStore.v
KeyValueSpec.v
KeyValueRefinement.v
DatasetProtocol.v
Datasets.v
DatasetsSpec.v
DatasetsLog.v
ExecutionPlane.v
LeaseProtocol.v
ExecutionSteps.v
ExecutionOps.v
ExecutionSpec.v
CancellationSpec.v
PyEq.v
SandboxJson.v
Canary.v
SandboxEgress.v
WebFetch.v
EgressBroker.v
EgressBrokerSpec.v
QueueWorker.v
SandboxAcquisition.v
KvWorkerProtocol.v
SandboxKv.v
SandboxKvSpec.v
Admission.v
AdmissionSpec.v
RunSchemas.v
RunCreation.v
RunCreationSpec.v
RunCreationEffects.v
RunScenario.v
BrowserPolicy.v
BrowserNavigation.v
BrowserNavigationSpec.v
SandboxDataset.v
SandboxActivation.v
SandboxActivationSpec.v
ActivationScenario.v
WorkerClient.v
WorkerRun.v
WorkerRunSpec.v
SandboxScenario.v
