(* ===== verification/Prelude.v ===== *)
(** * A verified model of the rooz-data-cloud control plane

    The repository runs web-scraping agents for tenants.  The control plane under
    src/apps/api/app keeps tenants' builds, runs, schedules, request queues,
    key-value stores, datasets and webhooks in PostgreSQL, decides who may touch them,
    and hands work to workers under leases.  This library models its services, one file per part, and proves what
    makes them correct.  It is built on stdpp.

    ** Parts and files

    Foundations:
    - Prelude.v (this file): the handler monad [M] (state passing with Python
      exceptions), its weakest preconditions [wp] and their automation ([wp_step],
      [wp_steps], [breflect]), record update notation, row selection and counting on
      tables, unique columns ([unique_by]), audit rows.
    - PyVal.v, PyEq.v, Json.v, PyUuid.v, PyTime.v, Base64.v, Url.v: what the source
      uses of the Python standard library: values, [==] on them, reads of dicts,
      canonical [json.dumps] and [json.loads], strict UTF-8, [uuid.UUID], [datetime]
      ISO texts, base64, URL normalisation.

    Components (file under src/apps/api/app in parentheses):
    - Recovery.v: retry policy (execution_recovery.py).
    - QueueProtocol.v; RequestQueue.v, RequestQueueSpec.v: request queues
      (request_queue_protocol.py, services/request_queues.py,
      services/worker_request_queue.py).
    - EventProtocol.v: event payloads (event_protocol.py).
    - Idempotency.v: the idempotency records of the creating endpoints
      (services/builds_secrets.py, models.py).
    - Webhooks.v, WebhooksSpec.v: events and webhook deliveries (services/events.py,
      services/webhook_deliveries.py, services/webhook_destinations.py).
    - Schedules.v, SchedulesSpec.v: schedules and their dispatcher
      (services/schedules.py); run creation is the interface [RunService].
    - Pagination.v, PaginationSpec.v, Listings.v, ListingsSpec.v: signed cursors
      (core/pagination.py) and the listings that use them (services, api/routes).
    - RunEvents.v: sanitised, numbered run events (services/runs.py).
    - KvProtocol.v, KeyValueStore.v, KeyValueSpec.v, KeyValueRefinement.v: key-value
      stores (kv_mutation_protocol.py, services/key_value_stores.py, core/s3_storage.py).
    - EgressProtocol.v, EgressPolicies.v, EgressPoliciesSpec.v: versioned egress
      policies and their approval (egress_policy_protocol.py,
      services/egress_policies.py, the guards of the tables in migration
      20260822_0022); EgressScenario.v runs them on concrete inputs.
    - DatasetProtocol.v, Datasets.v, DatasetsSpec.v, DatasetsLog.v: datasets
      (dataset_append_protocol.py, services/datasets.py).
    - Permissions.v, Security.v, Identity.v, Access.v, Tenancy.v: the permission matrix
      (core/permissions.py), credentials (core/security.py), users, sessions,
      organisations, memberships, projects and API keys
      (services/identity_tenancy.py), the permission dependencies of all routes
      (api/dependencies.py, api/agent_dependencies.py) and the identity routes
      (api/routes/identity_tenancy.py).  TenancySpec.v shows that every request is a
      sequence of permitted changes; TenancyRuns.v and TenancyAccess.v state the
      theorems, LoginBound.v the bound on guessing, TenancyScenario.v concrete runs.
    - ExecutionPlane.v: workers, leases, builds and runs (services/execution_plane.py,
      the cancel path of services/runs.py, api/internal_dependencies.py,
      services/execution_recovery_sweeper.py).  LeaseProtocol.v is the abstract
      protocol it implements: a transition system [move] over the tables that matter
      with its invariant [inv]; ExecutionSteps.v and ExecutionOps.v prove that every
      operation is a sequence of its steps ([tracks], [evolves]); ExecutionSpec.v
      closes the plane into a system of interleaved transactions and states its
      theorems; CancellationSpec.v is about cancellation.
    - Canary.v, Admission.v, AdmissionSpec.v: the canary settings (core/config.py) and
      the sandbox admission that seals a claim (services/execution_plane.py, the
      capability receipts of services/worker_request_queue.py and
      services/worker_key_value_store.py, kv_worker_protocol.py in
      KvWorkerProtocol.v).  Admission.v gives the instance [admission_sealing] of the
      plane's interface [ClaimSealing].
    - RunSchemas.v, RunCreation.v: the request bodies of runs (run_schemas.py) and
      [create_run] with its policies and live-canary tests (services/runs.py).
      RunCreationSpec.v shows that the runs it creates are the ones the admission
      accepts, RunCreationEffects.v what it writes; RunScenario.v runs it.

    The sandbox worker (file under src/workers/sandbox-runtime in parentheses), which
    repeats the control plane's checks before it acts on a claim:
    - SandboxJson.v: its checks ([must], [the], [only]) and its JSON digests, which use
      [ensure_ascii=True] where the control plane does not.
    - SandboxEgress.v: the egress policy and its targets (egress_policy.py).
    - WebFetch.v: the web-fetch contract (web_fetch_contract.py).
    - EgressBroker.v, EgressBrokerSpec.v: brokered requests with redirects and budgets
      (egress_broker.py); the state [broker] records every exchange.
    - QueueWorker.v: claims, keys and acquisition documents of queue requests
      (queue_worker_protocol.py).
    - SandboxAcquisition.v: what they guarantee, and the HTTP acquisition of a queue
      request, which composes the queue protocol, the contract and the broker ([_run] of
      worker.py).
    - SandboxKv.v, SandboxKvSpec.v: the worker's copy of the key-value protocol
      (kv_protocol.py, kv_worker_protocol.py).
    - SandboxDataset.v: its copy of the dataset protocol (dataset_protocol.py), with the
      proof that the two agree.
    - BrowserPolicy.v, BrowserNavigation.v, BrowserNavigationSpec.v: what a browser may do,
      its navigation plans and their results (browser_policy.py, browser_egress_policy.py,
      browser_navigation_contract.py, browser_navigation_result.py).
    - SandboxActivation.v, SandboxActivationSpec.v: the checks a claim passes before
      anything runs (worker.py up to [_require_canary_activation]).
    - WorkerClient.v: the client of the control plane (rdc_worker_client.py), the
      hierarchy of exceptions, and the effects of a worker: requests, files, containers,
      decryption.  A computation leaves the trace of its effects and their answers.
    - WorkerRun.v, WorkerRunSpec.v: runs and builds from the claim to the
      completion of the lease ([_run], [_queue_browser_acquire], [_upload_artifacts] and
      [_build] of worker.py); the early returns of [_run] are the type [flow].
    SandboxScenario.v runs the broker and the acquisition; ActivationScenario.v activates
    the claim RunScenario.v created and sealed, and the module WorkerScenario of
    SandboxScenario.v executes it.

    Parts interact by calls, as in the source: routes validate (protocol files), then
    run service operations, each one a transaction; schedules create runs through
    [RunService]; the plane appends run events; webhooks are fed by [emit_event].

    ** How the model reads

    A table is a [gmap] from primary key to a row record (or a list in insertion order
    for logs); a service's state is the record of its tables.  An operation is a
    function [M] of that state; [ApiError code name] is the error the handler raises
    and a raised error rolls the transaction back ([transaction]).  The database's
    constraints and triggers (src/apps/api/migrations) that can refuse a write raise
    [IntegrityError] in the inserts and updates.  A failed login commits before it
    raises; it is an outcome of [handle], not an error of the transaction.  The clock is an
    argument and time never goes back; times are microseconds, as Python keeps them.  [uuid4] and tokens
    are drawn from a counter through the parameters [Entropy] and [TokenSource]:
    nothing is assumed of their freshness where the source does not rely on it, a
    collision is the database's refusal; [UniqueUuids] states it where it is relied on.

    Row locks and advisory locks make an operation one atomic step; [SKIP LOCKED] takes the
    set [locked] of rows other transactions hold, any set.  Where the source loads a row
    before it locks it, the lock does not refresh the object, and the write-back ([written])
    puts the changed columns over the row.  These races are modelled where they occur: the
    object a route has loaded is any earlier row for request queues ([stale] objects, a step
    of [reachable] in RequestQueueSpec.v), key-value stores (a request carries the object it
    loaded), datasets ([Load] before an action), webhook destinations ([loaded_from]) and
    schedules ([set_schedule_paused] on a loaded row); a cancellation can come between the
    check of a lease and the operation on it ([concurrently] in ExecutionSpec.v).  Logins and role updates read without a lock:
    requests that overlap are entries [Overlap] of a run in TenancyRuns.v, which decide on
    the tables of an earlier moment.  Theorems that need more say so in their statements:
    [serially_reachable] (request queues: no object is out of date), [serial_update] and
    [serial_login] (no role update, no login overlaps), and the corresponding condition of
    the key-value counters.  Other unlocked reads inside one operation see one moment.

    Parameters, because their code is not under src/: SHA-256, HMAC, the interpreter's
    Unicode tables ([casefold], NFKC, decimal digits), [repr], [ipaddress], object
    storage, encryption, and for the worker's broker the resolver ([Resolver],
    [GlobalAddress]), what origins answer to a history of exchanges ([Origins]),
    [urljoin] and the charset decoders.  What answers the effects of a worker is any
    function of the effect and the trace so far ([Host]), and may raise anything; the text
    of an exception is [ExcText].  Audit rows keep what the code passes, without id and
    creation time.  The plane is proved against two interfaces: [ClaimSealing] for the
    sandbox admission, implemented in Admission.v, and [ArtifactChecks] for the checks
    of built artifacts, which stays a parameter (see below).

    ** What the theorems show

    The properties are numbered C1, C2, ... in their doc comments.
    - Request queues (RequestQueueSpec.v): counters, exact while requests do not overlap;
      and however requests overlap, the life cycle, idempotent enqueues, fenced
      completions, FIFO claims, reclaiming, permanence of results.
    - Execution plane (ExecutionSpec.v, CancellationSpec.v): no work is lost, one active
      lease per work item, lease windows, concurrency limits, stale workers are fenced,
      settled runs are final, cancellations converge.
    - Key-value stores (KeyValueSpec.v, KvProtocol.v): the tables implement a map with
      compare-and-set versions and idempotent mutations, quotas and counters are exact,
      stored values read back as the value that was set.
    - Datasets (DatasetsSpec.v, DatasetsLog.v): each dataset is a gap-free log that
      appends extend by exactly their batch, once per key; exports read back the items
      that the JSONB column preserves.
    - Tenancy: access is isolated by organisation and roles change by authority only, that
      of the tables the update read; every organisation keeps an owner as long as role
      updates do not overlap; sessions and API keys work until they end and never again; the
      number of wrong passwords that are checked is bounded as long as logins do not overlap.
    - Egress (EgressPoliciesSpec.v): revisions are permanent and numbered from 1,
      activation is a compare-and-set that no policy survives unchanged, stored
      revisions validate again.
    - Admission and runs (AdmissionSpec.v, RunCreationSpec.v, RunCreationEffects.v): a
      run that [create_run] accepts with a sealed egress policy or a request queue is
      admitted when a worker claims it; a request repeated under its key changes
      nothing; creation writes one queued run, its event and its audit rows.
    - Sandbox worker (EgressBrokerSpec.v, SandboxAcquisition.v, SandboxKvSpec.v): the broker is confined by its policy whatever the network
      answers and also when it fails, the acquisition of a queue request succeeds when
      the broker answers, the keys of a request's writes identify it, and the worker's
      key-value and dataset validators are equivalent to the control plane's.
    - Activation and browser (SandboxActivationSpec.v, BrowserNavigationSpec.v): whatever
      the control plane sends, an activated claim stays within the worker's settings; a
      navigation plan is run as it was digested, and those the control plane accepts are
      accepted.
    - Runs and builds (WorkerRunSpec.v): in any world, a run does its
      effects in order, a queue request is reported handled only after the writes it asked
      for were acknowledged, the outcome a run returns is the one it reported, and a worker
      builds only the source its claim names.
    - Schedules (SchedulesSpec.v): instants are handled once and, dispatched at most 2^33
      seconds late ([timely_reachable]), never lost.
    - Webhooks, pagination, run events, protocols: see their files.
    Counterexamples are proved by evaluation where the code does not do what it means
    to (findings of the manifest), in the component's file or its scenario file.

    ** Bounds and fuel

    Recursion is structural except in the JSON and URL readers, which recurse on fuel
    bounded by the length of the text, and the cursor client of ListingsSpec.v, whose
    fuel is the number of rows, and the redirect loop of EgressBroker.v, whose fuel is
    the request budget; the theorems give the fuel that is enough.  Widths that
    matter (PostgreSQL bigint versions, sizes) are range checks of the operations.
    [timedelta] arithmetic goes through floats in two places: Recovery.v, exact below 2^33
    seconds, far above the settings' range, and the catch-up of Schedules.v, where the double
    is computed ([total_seconds], [jumps]) and is exact below the same bound.

    ** Not modelled

    - Artifact provenance: the parameter [ArtifactChecks] of the plane.
    - The checks of [create_build] before the rows are written.
    - Of identity: the lists ordered by name (they depend on the collation of the
      database), rate limits, cookies, and the row-level policies (the role the
      deployments connect with owns the tables, so they do not apply).  Invitations are
      not in the source; TenancyRuns.v enrols members from outside.
    - Project secrets, agents and their versions, storage grants, egress health and
      credential canaries, the reads and mutations of key-value stores by workers.
    - The rest of the workers: the main loop with its heartbeats, watchdog and shutdown;
      what the container runtime, the files, the browser and the envelope decryption do
      inside an effect.
    - Runners, transports, metrics, health endpoints, migrations and the verification
      scripts: I/O around the modelled state. *)

From stdpp Require Export prelude gmap strings list sorting.
From Stdlib Require Export ZArith Lia.

#[global] Open Scope Z_scope.

(** ** Functional record update *)

(** [Eta R] is the eta-expansion of a record type; [Updater p] the function
    that applies a change below the projection [p].  Only [Eta] is declared by
    hand: the updaters are derived from it by abstracting the projection. *)
Class Eta (R : Type) := eta_expand : R → R.
Class Updater {R T : Type} (p : R → T) := over : (T → T) → R → R.
Arguments over {R T} p {_} _ _.

Ltac derive_updater :=
  lazymatch goal with
  | |- @Updater ?R ?T ?p =>
      let e := constr:(_ : Eta R) in
      let e := eval hnf in e in
      let e := eval pattern p in e in
      lazymatch e with
      | ?ctx p =>
          let u := constr:(fun (g : T → T) => ctx (fun r => g (p r))) in
          let u := eval cbv beta in u in
          exact u
      end
  end.
#[export] Hint Extern 1 (Updater _) => derive_updater : typeclass_instances.

Declare Scope upd_scope.
#[warnings="-postfix-notation-not-level-1"]
Notation "r <| p ::= g |>" := (over p g r)
  (at level 12, left associativity, p at level 0,
   format "r  <|  p  ::=  g  |>") : upd_scope.
#[warnings="-postfix-notation-not-level-1"]
Notation "r <| p := v |>" := (over p (fun _ => v) r)
  (at level 12, left associativity, p at level 0,
   format "r  <|  p  :=  v  |>") : upd_scope.
#[global] Open Scope upd_scope.

(** ** Identifiers and time *)

(** A UUID is its 128-bit integer: PostgreSQL and Python order UUIDs by it. *)
Abbreviation uuid := N (only parsing).

(** An aware [datetime] is its number of microseconds since the epoch, and
    [timedelta(seconds=n)] is [seconds n]. *)
Abbreviation time := Z (only parsing).
Definition seconds (n : Z) : Z := n * 1000000.

(** The random UUIDs [uuid4()] returns, in the order they are drawn.  Nothing is
    assumed of them: a collision is caught by the primary key. *)
Class Entropy := uuid4 : N → uuid.
(** What theorems that need them distinct say of them: the first [draw_limit] do not repeat,
    and have 128 bits. *)
Class UniqueUuids `{Entropy} := {
  draw_limit : N;
  uuid4_fresh n n' : (n < draw_limit)%N → (n' < draw_limit)%N → uuid4 n = uuid4 n' → n = n';
  uuid4_width n : (n < draw_limit)%N → (uuid4 n < 2 ^ 128)%N }.

(** ** Errors *)

(** What a handler can raise.  [ApiError] keeps the HTTP status and the stable
    error code; its human-readable message is left out. *)
Inductive exn :=
| ApiError (status : Z) (code : string)
| ValueError (reason : string)
| TypeError (reason : string)
| RuntimeError (reason : string)
| OverflowError (reason : string)
| AttributeError (name : string)
| UnicodeEncodeError
| ValidationError
| IntegrityError (constraint : string)
(** An exception class the sandbox worker declares. *)
| Fault (class reason : string).

#[export] Instance exn_eq_dec : EqDecision exn.
Proof. solve_decision. Defined.

Definition not_found : exn := ApiError 404 "RESOURCE_NOT_FOUND".

(** ** The handler monad: state and exceptions *)

(** A computation over the state [S].  The state reached when an exception is
    raised is kept: Python keeps the writes made before a [raise], and it is the
    request boundary ([get_db]) that rolls the database back. *)
Definition M (S A : Type) : Type := S → (exn + A) * S.

#[export] Instance M_ret S : MRet (M S) := λ A a s, (inr a, s).
#[export] Instance M_bind S : MBind (M S) := λ A B k m s,
  match m s with
  | (inr a, s') => k a s'
  | (inl e, s') => (inl e, s')
  end.

Definition raise {S A} (e : exn) : M S A := λ s, (inl e, s).
Definition gets {S A} (f : S → A) : M S A := λ s, (inr (f s), s).
Definition modify {S} (f : S → S) : M S () := λ s, (inr (), f s).
Definition raise_if {S} (b : bool) (e : exn) : M S () :=
  if b then raise e else mret ().
Definition try_catch {S A} (m : M S A) (h : exn → M S A) : M S A := λ s,
  match m s with
  | (inl e, s') => h e s'
  | r => r
  end.
(** [x is None] tests that raise. *)
Definition get_or_raise {S A} (o : option A) (e : exn) : M S A :=
  match o with Some a => mret a | None => raise e end.

(** Functions that raise without a state, and their use in a handler. *)
#[export] Instance sum_bind : MBind (sum exn) := λ A B k m,
  match m with inl e => inl e | inr a => k a end.
#[export] Instance sum_ret : MRet (sum exn) := λ A a, inr a.
Definition lift {S A} (r : exn + A) : M S A := match r with inl e => raise e | inr a => mret a end.

Lemma sum_bind_inr {A B} (m : exn + A) (k : A → exn + B) x : m ≫= k = inr x → ∃ a, m = inr a ∧ k a = inr x.
Proof. destruct m; [done|eauto]. Qed.
Fixpoint for_each {S A} (f : A → M S ()) (l : list A) : M S () :=
  match l with
  | [] => mret ()
  | x :: l => f x ≫= λ _, for_each f l
  end.

Notation "m ;; k" := (m ≫= λ _, k) (at level 100, k at level 200,
  right associativity, only parsing).

(** [wp m Q s]: when [m] returns normally from [s], the result satisfies [Q]. *)
Definition wp {S A} (m : M S A) (Q : A → S → Prop) (s : S) : Prop :=
  ∀ a s', m s = (inr a, s') → Q a s'.

Section wp.
Context {S : Type}.
Implicit Types (s : S).

Lemma wp_ret {A} (a : A) (Q : A → S → Prop) s : Q a s → wp (mret a) Q s.
Proof. intros HQ a' s' [= <- <-]. done. Qed.

Lemma wp_raise {A} e (Q : A → S → Prop) s : wp (raise e) Q s.
Proof. intros a s' [=]. Qed.

Lemma wp_bind {A B} (m : M S A) (k : A → M S B) (Q : B → S → Prop) s :
wp m (λ a, wp (k a) Q) s → wp (m ≫= k) Q s.
Proof.
intros Hm b s'. unfold mbind, M_bind. destruct (m s) as [[e|a] s1] eqn:E; [done|].
intros Hk. exact (Hm a s1 E b s' Hk).
Qed.

Lemma wp_gets {A} (f : S → A) (Q : A → S → Prop) s : Q (f s) s → wp (gets f) Q s.
Proof. intros HQ a s' [= <- <-]. done. Qed.

Lemma wp_modify (f : S → S) (Q : () → S → Prop) s : Q () (f s) → wp (modify f) Q s.
Proof. intros HQ a s' [= <- <-]. done. Qed.

Lemma wp_raise_if b e (Q : () → S → Prop) s :
(b = false → Q () s) → wp (raise_if b e) Q s.
Proof. destruct b; intros HQ; [apply wp_raise|apply wp_ret; auto]. Qed.

Lemma wp_get_or_raise {A} (o : option A) e (Q : A → S → Prop) s :
(∀ a, o = Some a → Q a s) → wp (get_or_raise o e) Q s.
Proof. destruct o; intros HQ; [apply wp_ret; auto|apply wp_raise]. Qed.

Lemma wp_lift {A} (r : exn + A) (Q : A → S → Prop) s : (∀ a, r = inr a → Q a s) → wp (lift r) Q s.
Proof. destruct r; intros HQ; [apply wp_raise|apply wp_ret; auto]. Qed.

Lemma wp_mono {A} (m : M S A) (Q Q' : A → S → Prop) s :
(∀ a s', Q a s' → Q' a s') → wp m Q s → wp m Q' s.
Proof. intros HQ Hm a s' E. apply HQ, Hm, E. Qed.

Lemma wp_conj {A} (m : M S A) (Q Q' : A → S → Prop) s :
wp m Q s → wp m Q' s → wp m (λ a s', Q a s' ∧ Q' a s') s.
Proof. intros H1 H2 a s' E. split; [by apply H1|by apply H2]. Qed.

Lemma wp_for_each {A} (I : S → Prop) (f : A → M S ()) l s :
(∀ x s, I s → wp (f x) (λ _, I) s) → I s → wp (for_each f l) (λ _, I) s.
Proof.
intros Hf. revert s. induction l as [|x l IH]; intros s HI; simpl.
- by apply wp_ret.
- apply wp_bind. eapply wp_mono; [|by apply Hf]. intros [] s' HI'. by apply IH.
Qed.

(** A loop over distinct rows, each of which is [ready] when its turn comes
  because the other iterations leave it alone. *)
Lemma wp_for_each_distinct {A} (I : S → Prop) (ready : A → S → Prop)
  (f : A → M S ()) l s :
NoDup l → I s → (∀ x, x ∈ l → ready x s) →
(∀ x s, I s → ready x s →
  wp (f x) (λ _ s', I s' ∧ ∀ y, y ≠ x → ready y s → ready y s') s) →
wp (for_each f l) (λ _, I) s.
Proof.
intros Hnd HI Hr Hf. revert s HI Hr. induction Hnd as [|x l Hx Hnd IH];
  intros s HI Hr; simpl; [by apply wp_ret|].
apply wp_bind. eapply wp_mono; [|apply Hf; [done|apply Hr; left]].
intros [] s' [HI' Hr']. apply IH; [done|]. intros y Hy.
apply Hr'; [by intros ->|]. apply Hr. by right.
Qed.
End wp.

(** [ends m Q E s]: when [m] returns from [s], the result and the state satisfy [Q]; when it
    raises, the exception and the state it leaves satisfy [E]. *)
Definition ends {S A} (m : M S A) (Q : A → S → Prop) (E : exn → S → Prop) (s : S) : Prop :=
  match m s with (inr a, s') => Q a s' | (inl e, s') => E e s' end.

Section ends.
Context {S : Type}.
Implicit Types (s : S) (E : exn → S → Prop).

Lemma ends_ret {A} (a : A) (Q : A → S → Prop) E s : Q a s → ends (mret a) Q E s.
Proof. done. Qed.
Lemma ends_raise {A} e (Q : A → S → Prop) E s : E e s → ends (raise e) Q E s.
Proof. done. Qed.
Lemma ends_bind {A B} (m : M S A) (k : A → M S B) (Q : B → S → Prop) E s :
ends m (λ a, ends (k a) Q E) E s → ends (m ≫= k) Q E s.
Proof. unfold ends, mbind, M_bind. by destruct (m s) as [[e|a] s']. Qed.
Lemma ends_gets {A} (f : S → A) (Q : A → S → Prop) E s : Q (f s) s → ends (gets f) Q E s.
Proof. done. Qed.
Lemma ends_modify (f : S → S) (Q : () → S → Prop) E s : Q () (f s) → ends (modify f) Q E s.
Proof. done. Qed.
Lemma ends_raise_if b e (Q : () → S → Prop) E s :
(b = true → E e s) → (b = false → Q () s) → ends (raise_if b e) Q E s.
Proof. destruct b; intros He HQ; [by apply He|by apply HQ]. Qed.
Lemma ends_get_or_raise {A} (o : option A) e (Q : A → S → Prop) E s :
(o = None → E e s) → (∀ a, o = Some a → Q a s) → ends (get_or_raise o e) Q E s.
Proof. destruct o; intros He HQ; [by apply HQ|by apply He]. Qed.
Lemma ends_lift {A} (r : exn + A) (Q : A → S → Prop) E s :
(∀ e, r = inl e → E e s) → (∀ a, r = inr a → Q a s) → ends (lift r) Q E s.
Proof. destruct r; intros He HQ; [by apply He|by apply HQ]. Qed.
Lemma ends_mono {A} (m : M S A) (Q Q' : A → S → Prop) E E' s :
ends m Q E s → (∀ a s', Q a s' → Q' a s') → (∀ e s', E e s' → E' e s') → ends m Q' E' s.
Proof. unfold ends. destruct (m s) as [[e|a] s']; auto. Qed.
Lemma ends_try_catch {A} (m : M S A) h (Q : A → S → Prop) E s :
ends m Q (λ e, ends (h e) Q E) s → ends (try_catch m h) Q E s.
Proof. unfold ends, try_catch. by destruct (m s) as [[e|a] s']. Qed.
Lemma ends_inr {A} (m : M S A) (Q : A → S → Prop) E s a s' : ends m Q E s → m s = (inr a, s') → Q a s'.
Proof. unfold ends. intros He Hm. by rewrite Hm in He. Qed.
Lemma ends_inl {A} (m : M S A) (Q : A → S → Prop) E s e s' : ends m Q E s → m s = (inl e, s') → E e s'.
Proof. unfold ends. intros He Hm. by rewrite Hm in He. Qed.
End ends.
(** One step of a proof about all outcomes. *)
Ltac ends_step :=
  lazymatch goal with
  | |- ends (_ ≫= _) _ _ _ => apply ends_bind
  | |- ends (mret _) _ _ _ => apply ends_ret
  | |- ends (raise _) _ _ _ => apply ends_raise
  | |- ends (gets _) _ _ _ => apply ends_gets
  | |- ends (modify _) _ _ _ => apply ends_modify
  | |- ends (raise_if _ _) _ _ _ => apply ends_raise_if; intros ?
  | |- ends (get_or_raise _ _) _ _ _ => apply ends_get_or_raise; [intros ?|intros ? ?]
  | |- ends (lift _) _ _ _ => apply ends_lift; [intros ? ?|intros ? ?]
  | |- ends (try_catch _ _) _ _ _ => apply ends_try_catch
  | |- ends (if ?b then _ else _) _ _ _ => destruct b eqn:?
  end.

(** [frames R m]: whatever [m] ends with, the state it leaves is related to the one it
    started from; for statements that also speak of errors. *)
Definition frames {S A} (R : relation S) (m : M S A) : Prop := ∀ s, R s (m s).2.

Section frames.
Context {S : Type} (R : relation S) `{!PreOrder R}.

Lemma frames_ret {A} (a : A) : frames R (mret a).
Proof. intros s. cbn. reflexivity. Qed.
Lemma frames_raise {A} e : frames R (raise (A:=A) e).
Proof. intros s. cbn. reflexivity. Qed.
Lemma frames_gets {A} (f : S → A) : frames R (gets f).
Proof. intros s. cbn. reflexivity. Qed.
Lemma frames_raise_if b e : frames R (raise_if b e).
Proof. intros s. destruct b; cbn; reflexivity. Qed.
Lemma frames_get_or_raise {A} (o : option A) e : frames R (get_or_raise o e).
Proof. intros s. destruct o; cbn; reflexivity. Qed.
Lemma frames_modify (f : S → S) : (∀ s, R s (f s)) → frames R (modify f).
Proof. intros Hf s. apply Hf. Qed.
Lemma frames_bind {A B} (m : M S A) (k : A → M S B) :
frames R m → (∀ a, frames R (k a)) → frames R (m ≫= k).
Proof.
intros Hm Hk s. unfold mbind, M_bind. specialize (Hm s). destruct (m s) as [[e|a] s']; [done|].
etrans; [exact Hm|apply Hk].
Qed.
Lemma frames_try_catch {A} (m : M S A) h : frames R m → (∀ e, frames R (h e)) → frames R (try_catch m h).
Proof.
intros Hm Hh s. unfold try_catch. specialize (Hm s). destruct (m s) as [[e|a] s']; [|done].
etrans; [exact Hm|apply Hh].
Qed.
End frames.

(** Decomposition of a successful run, for functional statements. *)
Lemma bind_ok {S A B} (m : M S A) (k : A → M S B) s b s' :
  (m ≫= k) s = (inr b, s') ↔ ∃ a s1, m s = (inr a, s1) ∧ k a s1 = (inr b, s').
Proof.
  unfold mbind, M_bind. destruct (m s) as [[e|a] s1]; split.
  - done.
  - intros (?&?&?&?); simplify_eq.
  - eauto.
  - intros (?&?&?&?); by simplify_eq.
Qed.

(** Running a handler step by step, for statements about which result it gives. *)
Section run.
Context {St A B : Type}.
Implicit Types (s : St).

Lemma run_bind (m : M St A) (k : A → M St B) s a s1 :
m s = (inr a, s1) → (m ≫= k) s = k a s1.
Proof. unfold mbind, M_bind. by intros ->. Qed.
Lemma run_bind_raise (m : M St A) (k : A → M St B) s e s1 :
m s = (inl e, s1) → (m ≫= k) s = (inl e, s1).
Proof. unfold mbind, M_bind. by intros ->. Qed.
Lemma run_gets (f : St → A) (k : A → M St B) s : (gets f ≫= k) s = k (f s) s.
Proof. done. Qed.
Lemma run_ret (a : A) (k : A → M St B) s : (mret a ≫= k) s = k a s.
Proof. done. Qed.
Lemma run_modify (f : St → St) (k : () → M St B) s : (modify f ≫= k) s = k () (f s).
Proof. done. Qed.
Lemma run_pass b e (k : () → M St B) s : b = false → (raise_if b e ≫= k) s = k () s.
Proof. by intros ->. Qed.
Lemma run_refuse b e (k : () → M St B) s : b = true → (raise_if b e ≫= k) s = (inl e, s).
Proof. by intros ->. Qed.
Lemma run_some (o : option A) e (k : A → M St B) s a :
o = Some a → (get_or_raise o e ≫= k) s = k a s.
Proof. by intros ->. Qed.
Lemma run_none (o : option A) e (k : A → M St B) s :
o = None → (get_or_raise o e ≫= k) s = (inl e, s).
Proof. by intros ->. Qed.
End run.

(** ** Table aggregates *)

(** Sum of an integer column over a table; counting is summing an indicator. *)
Section sums.
Context {R : Type}.
Implicit Types (m : gmap uuid R) (f : R → Z).

Definition sumZ f m : Z := map_fold (λ _ r acc, f r + acc) 0 m.

Lemma sumZ_empty f : sumZ f ∅ = 0.
Proof. apply map_fold_empty. Qed.

Lemma sumZ_insert_new f m k r : m !! k = None → sumZ f (<[k:=r]> m) = f r + sumZ f m.
Proof.
intros Hk. unfold sumZ. rewrite map_fold_insert_L; [done| |done]. intros; lia.
Qed.

Lemma sumZ_delete f m k r : m !! k = Some r → sumZ f m = f r + sumZ f (delete k m).
Proof.
intros Hk. rewrite <- (insert_delete_id m k r) at 1 by done.
apply sumZ_insert_new, lookup_delete_eq.
Qed.

Lemma sumZ_update f m k r r' :
m !! k = Some r → sumZ f (<[k:=r']> m) = sumZ f m - f r + f r'.
Proof.
intros Hk. rewrite (sumZ_delete f m k r) by done.
rewrite <- insert_delete_eq, sumZ_insert_new by apply lookup_delete_eq. lia.
Qed.

Lemma sumZ_nonneg f m : (∀ k r, m !! k = Some r → 0 ≤ f r) → 0 ≤ sumZ f m.
Proof.
induction m as [|k r m Hk IH] using map_ind; intros Hf.
- by rewrite sumZ_empty.
- rewrite sumZ_insert_new by done.
  assert (0 ≤ f r) by (eapply Hf, lookup_insert_eq).
  assert (0 ≤ sumZ f m); [|lia]. apply IH. intros j r' Hj.
  apply (Hf j). rewrite lookup_insert_ne; [done|congruence].
Qed.

(** A row that satisfies the predicate makes the count positive. *)
Lemma sumZ_ge f m k r :
(∀ k r, m !! k = Some r → 0 ≤ f r) → m !! k = Some r → f r ≤ sumZ f m.
Proof.
intros Hf Hk. rewrite (sumZ_delete f m k r) by done.
assert (0 ≤ sumZ f (delete k m)); [|lia]. apply sumZ_nonneg.
intros j r' [_ Hj]%lookup_delete_Some. by eapply Hf.
Qed.

Lemma sumZ_ext f g m :
(∀ k r, m !! k = Some r → f r = g r) → sumZ f m = sumZ g m.
Proof.
induction m as [|k r m Hk IH] using map_ind; intros Hf.
- by rewrite !sumZ_empty.
- rewrite !sumZ_insert_new by done. f_equal.
  + eapply Hf, lookup_insert_eq.
  + apply IH. intros j r' Hj. apply (Hf j). rewrite lookup_insert_ne; [done|congruence].
Qed.

Lemma sumZ_add f g m : sumZ (λ r, f r + g r) m = sumZ f m + sumZ g m.
Proof.
induction m as [|k r m Hk IH] using map_ind; [by rewrite !sumZ_empty|].
rewrite !sumZ_insert_new, IH by done. lia.
Qed.

Lemma sumZ_const0 m : sumZ (λ _, 0) m = 0.
Proof.
induction m as [|k r m Hk IH] using map_ind; [apply sumZ_empty|]. by rewrite sumZ_insert_new, IH.
Qed.

Definition ind (b : bool) : Z := if b then 1 else 0.
Definition countZ (p : R → bool) m : Z := sumZ (λ r, ind (p r)) m.

Lemma ind_nonneg b : 0 ≤ ind b.
Proof. destruct b; done. Qed.

Lemma countZ_nonneg p m : 0 ≤ countZ p m.
Proof. apply sumZ_nonneg. intros. apply ind_nonneg. Qed.

Lemma countZ_le p q m m' :
(∀ k r', m' !! k = Some r' → q r' = true → ∃ r, m !! k = Some r ∧ p r = true) → countZ q m' ≤ countZ p m.
Proof.
revert m. induction m' as [|k r m' Hk IH] using map_ind; intros m Hm.
- unfold countZ at 1. rewrite sumZ_empty. apply countZ_nonneg.
- unfold countZ at 1. rewrite sumZ_insert_new by done. change (sumZ _ m') with (countZ q m').
  destruct (q r) eqn:Hq; cbn [ind].
  + destruct (Hm k r) as (r0 & Hr0 & Hp); [apply lookup_insert_eq|done|]. unfold countZ at 2.
    rewrite (sumZ_delete _ m k r0) by done. rewrite Hp. cbn [ind]. change (sumZ _ (delete k m)) with (countZ p (delete k m)).
    assert (countZ q m' ≤ countZ p (delete k m)); [|lia]. apply IH. intros k' r' Hk' Hq'.
    assert (k ≠ k') by congruence. destruct (Hm k' r') as (r1 & ? & ?); [by rewrite lookup_insert_ne|done|].
    exists r1. by rewrite lookup_delete_ne.
  + apply IH. intros k' r' Hk' Hq'. apply (Hm k' r'); [|done]. rewrite lookup_insert_ne; [done|congruence].
Qed.

Lemma countZ_pos p m k r : m !! k = Some r → p r = true → 1 ≤ countZ p m.
Proof.
intros Hk Hp. transitivity (ind (p r)); [rewrite Hp; done|].
apply (sumZ_ge (λ r, ind (p r)) m k r); [|done]. intros. apply ind_nonneg.
Qed.
End sums.

(** ** Queries *)

(** [select(R).where(p)]: the matching rows with their primary key. *)
Definition select {R} (p : uuid → R → bool) (m : gmap uuid R) : list (uuid * R) :=
  base.filter (λ kv, p kv.1 kv.2 = true) (map_to_list m).

(** [.order_by(...)]: rows sorted by a decidable total preorder. *)
Definition order_by {A} (R : relation A) `{∀ x y, Decision (R x y)} (l : list A) : list A :=
  merge_sort R l.

Section queries.
Context {R : Type}.
Implicit Types (m : gmap uuid R) (p : uuid → R → bool).

Lemma elem_of_select p m k r :
(k, r) ∈ select p m ↔ m !! k = Some r ∧ p k r = true.
Proof.
unfold select. rewrite list_elem_of_filter, elem_of_map_to_list. simpl. tauto.
Qed.

Lemma select_ext p q m : (∀ k r, p k r = q k r) → select p m = select q m.
Proof. intros Hpq. unfold select. apply list_filter_iff. intros [k r]. cbn. by rewrite Hpq. Qed.

Lemma NoDup_select_fst p m : NoDup (select p m).*1.
Proof.
unfold select. pose proof (NoDup_fst_map_to_list m) as Hnd.
induction (map_to_list m) as [|[k r] l IH]; [constructor|].
apply NoDup_cons in Hnd as [Hk Hnd]. rewrite filter_cons.
case_decide; simpl; [|by apply IH]. constructor; [|by apply IH].
intros ([k' r']&->&[_ Hin]%list_elem_of_filter)%list_elem_of_fmap.
apply Hk. apply list_elem_of_fmap. by exists (k', r').
Qed.

Lemma NoDup_select p m : NoDup (select p m).
Proof. eapply NoDup_fmap_1, NoDup_select_fst. Qed.

Lemma head_select_Some p m k r :
head (select p m) = Some (k, r) → m !! k = Some r ∧ p k r = true.
Proof.
intros Hh. apply elem_of_select. destruct (select p m); [done|].
simpl in Hh. simplify_eq. left.
Qed.

Lemma head_select_None p m :
head (select p m) = None → ∀ k r, m !! k = Some r → p k r = false.
Proof.
intros Hh k r Hk. destruct (p k r) eqn:Hp; [|done].
assert ((k, r) ∈ select p m) as Hin by by apply elem_of_select.
destruct (select p m); [by apply not_elem_of_nil in Hin|done].
Qed.
End queries.

(** A query by a unique key. *)
Lemma head_select_unique {R} (p : uuid → R → bool) (m : gmap uuid R) k r :
  (∀ i j x y, m !! i = Some x → m !! j = Some y → p i x = true → p j y = true → i = j) →
  m !! k = Some r → p k r = true → head (select p m) = Some (k, r).
Proof.
  intros Hu Hk Hp. destruct (head (select p m)) as [[k' r']|] eqn:Hh.
  - apply head_select_Some in Hh as [Hk' Hp']. assert (k' = k) as -> by eauto. congruence.
  - rewrite (head_select_None _ _ Hh k r Hk) in Hp. done.
Qed.

Lemma alter_insert `{Countable K} {A} (f : A → A) (m : gmap K A) k x : m !! k = Some x → alter f k m = <[k:=f x]> m.
Proof.
intros Hk. apply map_eq. intros i. destruct (decide (i = k)) as [->|Hne].
- by rewrite lookup_alter_eq, lookup_insert_eq, Hk.
- by rewrite lookup_alter_ne, lookup_insert_ne.
Qed.

(** [for row in rows: row.x = ...]: a change of every row a query selects. *)
Definition update_where {R} (p : uuid → R → bool) (f : R → R) (m : gmap uuid R) : gmap uuid R :=
  map_imap (λ k r, Some (if p k r then f r else r)) m.

Lemma lookup_update_where {R} p f (m : gmap uuid R) k :
  update_where p f m !! k = (λ r, if p k r then f r else r) <$> m !! k.
Proof. unfold update_where. rewrite map_lookup_imap. by destruct (m !! k). Qed.

Lemma lookup_update_where_Some {R} p f (m : gmap uuid R) k r :
  update_where p f m !! k = Some r ↔ ∃ r0, m !! k = Some r0 ∧ r = (if p k r0 then f r0 else r0).
Proof.
  rewrite lookup_update_where, fmap_Some. naive_solver.
Qed.

(** A query used as a test: [if await session.scalar(select(...))]. *)
Definition exists_row {R} (p : uuid → R → bool) (m : gmap uuid R) : bool :=
  match head (select p m) with Some _ => true | None => false end.

Lemma exists_row_false {R} p (m : gmap uuid R) :
  exists_row p m = false → ∀ k r, m !! k = Some r → p k r = false.
Proof.
  unfold exists_row. destruct (head (select p m)) eqn:E; [done|]. intros _. by apply head_select_None.
Qed.

(** A unique key of a table. *)
Definition unique_by {R K} (key : R → K) (m : gmap uuid R) : Prop :=
  ∀ i j x y, m !! i = Some x → m !! j = Some y → key x = key y → i = j.
Lemma unique_by_empty {R K} (key : R → K) : unique_by key ∅.
Proof. intros i j x y. by rewrite lookup_empty. Qed.
Lemma unique_by_insert {R K} (key : R → K) (m : gmap uuid R) id x :
  unique_by key m → (∀ i y, m !! i = Some y → key y ≠ key x) → unique_by key (<[id := x]> m).
Proof.
  intros Hu Hx i j y z [[<- <-]|[_ Hi]]%lookup_insert_Some [[<- <-]|[_ Hj]]%lookup_insert_Some E; [done|..].
  - by destruct (Hx j z Hj).
  - by destruct (Hx i y Hi).
  - by eapply Hu.
Qed.
Lemma unique_by_update {R K} (key : R → K) (m : gmap uuid R) id x x' :
  unique_by key m → m !! id = Some x → key x' = key x → unique_by key (<[id := x']> m).
Proof.
  intros Hu Hid Hk i j y z [[<- <-]|[Hni Hi]]%lookup_insert_Some [[<- <-]|[Hnj Hj]]%lookup_insert_Some E; [done|..].
  - destruct Hnj. eapply (Hu id j x z); congruence.
  - destruct Hni. eapply (Hu id i x y); congruence.
  - by eapply Hu.
Qed.

Lemma elem_of_order_by {A} (R : relation A) `{∀ x y, Decision (R x y)} l x :
  x ∈ order_by R l ↔ x ∈ l.
Proof. unfold order_by. by rewrite merge_sort_Permutation. Qed.

Lemma head_order_by_le {A} (R : relation A) `{∀ x y, Decision (R x y)}
    `{!Transitive R, !Total R} l x y :
  head (order_by R l) = Some x → y ∈ l → y = x ∨ R x y.
Proof.
  intros Hh Hy. apply (elem_of_order_by R) in Hy.
  pose proof (StronglySorted_merge_sort R l) as Hs. unfold order_by in *.
  destruct (merge_sort R l) as [|z l']; [done|]. simpl in Hh. simplify_eq.
  apply elem_of_cons in Hy as [->|Hy]; [by left|right].
  inversion Hs; subst. by eapply Forall_forall.
Qed.

(** The rows of a query with [order_by] and [limit]. *)
Lemma batch_rows {R} (le : relation (uuid * R)) `{∀ x y, Decision (le x y)}
    (p : uuid → R → bool) (m : gmap uuid R) n :
  let rows := take n (order_by le (select p m)) in
  (∀ k r, (k, r) ∈ rows → m !! k = Some r ∧ p k r = true) ∧ NoDup rows.*1 ∧
  length rows = Nat.min n (length (select p m)).
Proof.
  intros rows. unfold rows. clear rows. split_and!.
  - intros k r [i [Hi _]]%elem_of_take. apply list_elem_of_lookup_2, elem_of_order_by in Hi.
    by apply elem_of_select.
  - rewrite fmap_take. eapply sublist_NoDup; [|apply sublist_take].
    unfold order_by. rewrite merge_sort_Permutation. apply NoDup_select_fst.
  - rewrite length_take. unfold order_by. by rewrite merge_sort_Permutation.
Qed.

(** A limited query returns the least rows. *)
Lemma batch_least {R} (le : relation (uuid * R)) `{∀ x y, Decision (le x y)}
    `{!Transitive le, !Total le} (p : uuid → R → bool) (m : gmap uuid R) n x y :
  let rows := take n (order_by le (select p m)) in
  x ∈ rows → y ∈ select p m → y ∉ rows → le x y.
Proof.
  intros rows Hx Hy Hny. apply (elem_of_order_by le) in Hy.
  pose proof (StronglySorted_merge_sort le (select p m)) as Hs.
  unfold rows, order_by in *. rewrite <- (take_drop n (merge_sort le (select p m))) in Hs, Hy.
  apply elem_of_app in Hy as [Hy|Hy]; [done|]. by eapply StronglySorted_app_1_elem_of.
Qed.

(** Lexicographic (time, id) order, the sort key of most queries. *)
Definition key_le (a b : Z * N) : Prop :=
  a.1 < b.1 ∨ (a.1 = b.1 ∧ (a.2 ≤ b.2)%N).
#[export] Instance key_le_dec a b : Decision (key_le a b).
Proof. unfold key_le. apply _. Defined.
#[export] Instance key_le_trans : Transitive key_le.
Proof. intros [] [] []; unfold key_le; simpl; lia. Qed.
#[export] Instance key_le_total : Total key_le.
Proof. intros [] []; unfold key_le; simpl; lia. Qed.
#[export] Instance key_le_antisymm : AntiSymm (=) key_le.
Proof. intros [] []; unfold key_le; simpl; intros; f_equal; lia. Qed.

(** [key_le] pulled back along the sort key of a row. *)
Definition by_key {A} (key : A → Z * N) : relation A := λ x y, key_le (key x) (key y).
#[export] Instance by_key_dec {A} (key : A → Z * N) x y : Decision (by_key key x y).
Proof. unfold by_key. apply _. Defined.
#[export] Instance by_key_trans {A} (key : A → Z * N) : Transitive (by_key key).
Proof. intros x y z. unfold by_key. apply key_le_trans. Qed.
#[export] Instance by_key_total {A} (key : A → Z * N) : Total (by_key key).
Proof. intros x y. unfold by_key. apply key_le_total. Qed.

(** Lexicographic order on longer sort keys; ids enter as integers. *)
Fixpoint lex_leb (a b : list Z) : bool :=
  match a, b with
  | [], _ => true
  | _ :: _, [] => false
  | x :: a, y :: b => if x =? y then lex_leb a b else x <? y
  end.
Definition by_keys {A} (key : A → list Z) : relation A := λ x y, lex_leb (key x) (key y) = true.
#[export] Instance by_keys_dec {A} (key : A → list Z) x y : Decision (by_keys key x y).
Proof. unfold by_keys. apply _. Defined.
Lemma lex_leb_trans a b c : lex_leb a b = true → lex_leb b c = true → lex_leb a c = true.
Proof.
  revert b c. induction a as [|x a IH]; intros [|y b] [|z c]; try done. simpl.
  destruct (Z.eqb_spec x y) as [->|Hxy], (Z.eqb_spec y z) as [->|Hyz].
  - apply IH.
  - done.
  - by rewrite (proj2 (Z.eqb_neq x z)).
  - rewrite !Z.ltb_lt. intros. rewrite (proj2 (Z.eqb_neq x z)) by lia. apply Z.ltb_lt. lia.
Qed.
Lemma lex_leb_total a b : lex_leb a b = true ∨ lex_leb b a = true.
Proof.
  revert b. induction a as [|x a IH]; intros [|y b]; [by left..|by right|]. simpl.
  rewrite (Z.eqb_sym y x). destruct (Z.eqb_spec x y) as [->|]; [apply IH|].
  rewrite !Z.ltb_lt. lia.
Qed.
Lemma lex_leb_refl a : lex_leb a a = true.
Proof. by destruct (lex_leb_total a a). Qed.
#[export] Instance by_keys_trans {A} (key : A → list Z) : Transitive (by_keys key).
Proof. intros x y z. apply lex_leb_trans. Qed.
#[export] Instance by_keys_total {A} (key : A → list Z) : Total (by_keys key).
Proof. intros x y. apply lex_leb_total. Qed.

(** ** Audit log *)

(** Values of an audit [details] dictionary.  [str(uuid)] and [isoformat()]
    renderings are kept as the value they render. *)
Inductive detail :=
| DNone
| DBool (b : bool)
| DInt (z : Z)
| DStr (s : string)
| DText (s : list N)
| DStrs (l : list string)
| DTexts (l : list (list N))
| DUuid (u : uuid)
| DTime (t : time).

Record audit_event := MkAudit {
  ae_organization_id : option uuid;
  ae_project_id : option uuid;
  ae_actor_type : string;
  ae_actor_id : list N;
  ae_action : string;
  ae_resource_type : string;
  ae_resource_id : option uuid;
  ae_request_id : string;
  ae_details : list (string * detail) }.

(** The UPDATE of a flush writes only the columns whose value differs from the one the
    object was loaded with. *)
Definition written {A} `{EqDecision A} (read new row : A) : A := if decide (new = read) then row else new.
Lemma written_current {A} `{EqDecision A} (read new : A) : written read new read = new.
Proof. unfold written. by destruct (decide (new = read)). Qed.

(** A component whose state carries the audit table. *)
Class HasAudit (S : Type) := {
  audit_log : S → list audit_event;
  audit_push : audit_event → S → S;
  audit_push_log e s : audit_log (audit_push e s) = audit_log s ++ [e] }.

Definition append_audit_event {St} `{HasAudit St} (e : audit_event) : M St () :=
  modify (audit_push e).

(** ** Automation shared by the components *)

(** One step of symbolic execution of a handler. *)
Ltac wp_step :=
  lazymatch goal with
  | |- wp (mret _) _ _ => apply wp_ret
  | |- wp (raise _) _ _ => apply wp_raise
  | |- wp (_ ≫= _) _ _ => apply wp_bind
  | |- wp (gets _) _ _ => apply wp_gets
  | |- wp (modify _) _ _ => apply wp_modify
  | |- wp (append_audit_event _) _ _ => apply wp_modify
  | |- wp (raise_if _ _) _ _ => apply wp_raise_if; intros ?
  | |- wp (get_or_raise _ _) _ _ => apply wp_get_or_raise; intros ? ?
  | |- wp (let _ := _ in _) _ _ => cbv zeta
  | |- wp (match ?x with _ => _ end) _ _ => destruct x eqn:?
  end.
Ltac wp_steps := repeat (wp_step; cbv beta).

Create HintDb rdc discriminated.
#[export] Hint Resolve countZ_nonneg : rdc.

(** Reflect boolean tests of the code into propositions. *)
Ltac breflect :=
  repeat match goal with
  | H : _ && _ = true |- _ => apply andb_prop in H as [? ?]
  | H : _ || _ = false |- _ => apply orb_false_elim in H as [? ?]
  | H : negb _ = true |- _ => apply negb_true_iff in H
  | H : negb _ = false |- _ => apply negb_false_iff in H
  | H : bool_decide _ = true |- _ => apply bool_decide_eq_true in H
  | H : bool_decide _ = false |- _ => apply bool_decide_eq_false in H
  | H : (_ <=? _) = true |- _ => apply Z.leb_le in H
  | H : (_ <=? _) = false |- _ => apply Z.leb_gt in H
  | H : (_ <? _) = true |- _ => apply Z.ltb_lt in H
  | H : (_ <? _) = false |- _ => apply Z.ltb_ge in H
  | H : (_ <=? _)%nat = true |- _ => apply Nat.leb_le in H
  | H : (_ =? _) = true |- _ => apply Z.eqb_eq in H
  | H : (_ =? _) = false |- _ => apply Z.eqb_neq in H
  end.
