(* ===== verification/PyVal.v ===== *)
(** Python values as the protocols see them, and the parts of [json] and of the
    UTF-8 codec the code relies on: [json.dumps] with [sort_keys=True],
    [ensure_ascii=False], [allow_nan=False] and compact separators (the
    canonical encoding every request digest is taken over), [json.loads], and
    strict UTF-8 encoding and decoding.  Main results: [json.loads] inverts the
    canonical encoding, so the encoding is injective up to the order of keys. *)

From S2P Require Import Prelude.
From Stdlib Require Import Decimal.

(** ** Values *)

(** A Python [str] is its list of code points; [lit] embeds a literal. *)
Abbreviation pystr := (list N) (only parsing).
Definition lit (s : string) : pystr := map Ascii.N_of_ascii (String.list_ascii_of_string s).

(** A finite float is identified by its [repr], which Python documents to be the
    shortest text that reads back as the same float. *)
Inductive pyfloat := FFin (repr : pystr) | FNaN | FPosInf | FNegInf.

(** Dictionary keys: strings, or keys [json] has no rendering for. *)
Inductive pykey := KStr (s : pystr) | KOther.

(** [POther] stands for any object that is not JSON serialisable. *)
#[warnings="-register-all"]
Inductive pyval :=
| PNone
| PBool (b : bool)
| PInt (z : Z)
| PFloat (f : pyfloat)
| PStr (s : pystr)
| PList (l : list pyval)
| PDict (kvs : list (pykey * pyval))
| POther.

#[export] Instance pyfloat_eq_dec : EqDecision pyfloat.
Proof. solve_decision. Defined.
#[export] Instance pykey_eq_dec : EqDecision pykey.
Proof. solve_decision. Defined.

Section pyval_ind.
Variable P : pyval → Prop.
Hypothesis HNone : P PNone.
Hypothesis HBool : ∀ b, P (PBool b).
Hypothesis HInt : ∀ z, P (PInt z).
Hypothesis HFloat : ∀ f, P (PFloat f).
Hypothesis HStr : ∀ s, P (PStr s).
Hypothesis HList : ∀ l, Forall P l → P (PList l).
Hypothesis HDict : ∀ kvs, Forall (λ kv, P kv.2) kvs → P (PDict kvs).
Hypothesis HOther : P POther.

Fixpoint pyval_ind' (v : pyval) : P v :=
match v with
| PNone => HNone
| PBool b => HBool b
| PInt z => HInt z
| PFloat f => HFloat f
| PStr s => HStr s
| PList l => HList l ((fix go l : Forall P l :=
    match l with
    | [] => List.Forall_nil _
    | x :: l => List.Forall_cons _ x l (pyval_ind' x) (go l)
    end) l)
| PDict kvs => HDict kvs ((fix go kvs : Forall (λ kv, P kv.2) kvs :=
    match kvs with
    | [] => List.Forall_nil _
    | kv :: kvs => List.Forall_cons _ kv kvs (pyval_ind' kv.2) (go kvs)
    end) kvs)
| POther => HOther
end.
End pyval_ind.

#[export] Instance pyval_eq_dec : EqDecision pyval.
Proof.
  refine (fix go (x y : pyval) : Decision (x = y) :=
    match x, y with
    | PNone, PNone => left _
    | PBool a, PBool b => cast_if (decide (a = b))
    | PInt a, PInt b => cast_if (decide (a = b))
    | PFloat a, PFloat b => cast_if (decide (a = b))
    | PStr a, PStr b => cast_if (decide (a = b))
    | PList a, PList b => cast_if (@list_eq_dec _ go a b)
    | PDict a, PDict b =>
        cast_if (@list_eq_dec _ (@prod_eq_dec _ _ _ go) a b)
    | POther, POther => left _
    | _, _ => right _
    end); clear go; abstract congruence.
Defined.

(** [d.get(k)] on a dictionary: [None] when the key is absent. *)
Fixpoint dict_find (k : pystr) (kvs : list (pykey * pyval)) : option pyval :=
  match kvs with
  | [] => None
  | (k', v) :: kvs => if decide (k' = KStr k) then Some v else dict_find k kvs
  end.
Definition dict_get (k : string) (kvs : list (pykey * pyval)) : pyval :=
  default PNone (dict_find (lit k) kvs).

(** [set(d) == {...}] for a set of string literals without repetition. *)
Definition has_exact_keys (ks : list string) (kvs : list (pykey * pyval)) : bool :=
  forallb (λ kv, existsb (λ k, bool_decide (kv.1 = KStr (lit k))) ks) kvs
  && forallb (λ k, existsb (λ kv, bool_decide (kv.1 = KStr (lit k))) kvs) ks.

(** ** Code point order and key sorting *)

Fixpoint str_leb (a b : pystr) : bool :=
  match a, b with
  | [], _ => true
  | _ :: _, [] => false
  | x :: a, y :: b => if (x =? y)%N then str_leb a b else (x <? y)%N
  end.
Definition str_le (a b : pystr) : Prop := str_leb a b = true.
#[export] Instance str_le_dec a b : Decision (str_le a b).
Proof. unfold str_le. apply _. Defined.

Definition key_str (k : pykey) : pystr := match k with KStr s => s | KOther => [] end.
Definition item_le (x y : pykey * pyval) : Prop := str_le (key_str x.1) (key_str y.1).
#[export] Instance item_le_dec x y : Decision (item_le x y).
Proof. unfold item_le. apply _. Defined.

(** [sort_keys=True], at every depth. *)
Fixpoint canon (v : pyval) : pyval :=
  match v with
  | PList l => PList ((fix go l := match l with [] => [] | x :: l => canon x :: go l end) l)
  | PDict kvs =>
      PDict (merge_sort item_le
        ((fix go kvs := match kvs with
           | [] => []
           | (k, x) :: kvs => (k, canon x) :: go kvs
           end) kvs))
  | v => v
  end.

(** ** Printing *)

Definition hex_digit (n : N) : N := if (n <? 10)%N then (48 + n)%N else (87 + n)%N.

(** [ESCAPE] of [json.encoder] with [ensure_ascii=False]. *)
Definition escape_char (c : N) : pystr :=
  if (c =? 34)%N then [92; 34]%N
  else if (c =? 92)%N then [92; 92]%N
  else if (c =? 10)%N then [92; 110]%N
  else if (c =? 13)%N then [92; 114]%N
  else if (c =? 9)%N then [92; 116]%N
  else if (c =? 12)%N then [92; 102]%N
  else if (c =? 8)%N then [92; 98]%N
  else if (c <? 32)%N then [92; 117; 48; 48; hex_digit (c / 16); hex_digit (c mod 16)]%N
  else [c].
Definition print_str (s : pystr) : pystr := 34%N :: flat_map escape_char s ++ [34%N].

Fixpoint uint_str (d : uint) : pystr :=
  match d with
  | Nil => []
  | D0 d => 48%N :: uint_str d | D1 d => 49%N :: uint_str d | D2 d => 50%N :: uint_str d
  | D3 d => 51%N :: uint_str d | D4 d => 52%N :: uint_str d | D5 d => 53%N :: uint_str d
  | D6 d => 54%N :: uint_str d | D7 d => 55%N :: uint_str d | D8 d => 56%N :: uint_str d
  | D9 d => 57%N :: uint_str d
  end.

(** CPython refuses to convert integers of more than 4300 digits. *)
Definition max_int_digits : nat := N.to_nat 4300.
Definition dec_str (n : N) : pystr := uint_str (N.to_uint n).
Definition print_int (z : Z) : option pystr :=
  let ds := dec_str (Z.abs_N z) in
  if decide (length ds ≤ max_int_digits)%nat
  then Some (if z <? 0 then 45%N :: ds else ds) else None.

(** [json.JSONEncoder.iterencode] with separators [","] and [":"]; [None] when
    it raises [TypeError] or [ValueError]. *)
Fixpoint print (v : pyval) : option pystr :=
  match v with
  | PNone => Some (lit "null")
  | PBool b => Some (if b then lit "true" else lit "false")
  | PInt z => print_int z
  | PFloat (FFin r) => Some r
  | PFloat _ => None
  | PStr s => Some (print_str s)
  | PList l =>
      body ← (fix go l : option pystr := match l with
        | [] => Some []
        | [x] => print x
        | x :: l => a ← print x; b ← go l; Some (a ++ 44%N :: b)
        end) l;
      Some (91%N :: body ++ [93%N])
  | PDict kvs =>
      body ← (fix go kvs : option pystr := match kvs with
        | [] => Some []
        | (KOther, _) :: _ => None
        | [(KStr k, x)] => a ← print x; Some (print_str k ++ 58%N :: a)
        | (KStr k, x) :: kvs =>
            a ← print x; b ← go kvs; Some (print_str k ++ 58%N :: a ++ 44%N :: b)
        end) kvs;
      Some (123%N :: body ++ [125%N])
  | POther => None
  end.

(** [json.dumps(v, sort_keys=True, ensure_ascii=False, allow_nan=False,
    separators=(",", ":"))]. *)
Definition json_dumps (v : pyval) : option pystr := print (canon v).

(** [bool(v)]. *)
Definition truthy (v : pyval) : bool :=
  match v with
  | PNone => false
  | PBool b => b
  | PInt z => negb (z =? 0)
  | PFloat (FFin r) => negb (bool_decide (r ∈ [lit "0.0"; lit "-0.0"]))
  | PFloat _ => true
  | PStr s => negb (bool_decide (s = []))
  | PList l => match l with [] => false | _ => true end
  | PDict kvs => match kvs with [] => false | _ => true end
  | POther => true
  end.

(** [str(v)]; [py_repr] is the [repr] of containers and opaque objects.  An integer
    read from JSON is never longer than the conversion limit. *)
Class PyRepr := py_repr : pyval → pystr.
Definition py_str `{PyRepr} (v : pyval) : pystr :=
  match v with
  | PNone => lit "None"
  | PBool b => if b then lit "True" else lit "False"
  | PInt z => if z <? 0 then 45%N :: dec_str (Z.abs_N z) else dec_str (Z.abs_N z)
  | PFloat (FFin r) => r
  | PFloat FNaN => lit "nan"
  | PFloat FPosInf => lit "inf"
  | PFloat FNegInf => lit "-inf"
  | PStr s => s
  | v => py_repr v
  end.

(** Values a set membership test can hash. *)
Definition hashable (v : pyval) : bool :=
  match v with PList _ | PDict _ => false | _ => true end.

(** ** UTF-8 *)

Definition is_surrogate (c : N) : bool := (55296 <=? c)%N && (c <=? 57343)%N.

Definition utf8_char (c : N) : option (list N) :=
  (if c <? 128 then Some [c]
  else if c <? 2048 then Some [192 + c / 64; 128 + c mod 64]
  else if is_surrogate c then None
  else if c <? 65536 then Some [224 + c / 4096; 128 + c / 64 mod 64; 128 + c mod 64]
  else if c <? 1114112 then
    Some [240 + c / 262144; 128 + c / 4096 mod 64; 128 + c / 64 mod 64; 128 + c mod 64]
  else None)%N.

(** [s.encode("utf-8")]; [None] is [UnicodeEncodeError] (a lone surrogate). *)
Fixpoint utf8_encode (s : pystr) : option (list N) :=
  match s with
  | [] => Some []
  | c :: s => a ← utf8_char c; b ← utf8_encode s; Some (a ++ b)
  end.

Definition is_cont (b : N) : bool := (128 <=? b)%N && (b <=? 191)%N.

(** [b.decode("utf-8")], strict: overlong forms, surrogates and out-of-range
    code points are refused. *)
Fixpoint utf8_decode (l : list N) : option pystr :=
  match l with
  | [] => Some []
  | a :: l =>
    if (a <? 128)%N then s ← utf8_decode l; Some (a :: s)
    else if (194 <=? a)%N && (a <=? 223)%N then
      match l with
      | b :: l =>
        if is_cont b
        then s ← utf8_decode l; Some (((a - 192) * 64 + (b - 128))%N :: s) else None
      | _ => None
      end
    else if (224 <=? a)%N && (a <=? 239)%N then
      match l with
      | b :: c :: l =>
        let cp := ((a - 224) * 4096 + (b - 128) * 64 + (c - 128))%N in
        if is_cont b && is_cont c && (2048 <=? cp)%N && negb (is_surrogate cp)
        then s ← utf8_decode l; Some (cp :: s) else None
      | _ => None
      end
    else if (240 <=? a)%N && (a <=? 244)%N then
      match l with
      | b :: c :: d :: l =>
        let cp := ((a - 240) * 262144 + (b - 128) * 4096 + (c - 128) * 64 + (d - 128))%N in
        if is_cont b && is_cont c && is_cont d && (65536 <=? cp)%N && (cp <? 1114112)%N
        then s ← utf8_decode l; Some (cp :: s) else None
      | _ => None
      end
    else None
  end.

(** [json.dumps(...).encode("utf-8")]. *)
Definition json_bytes (v : pyval) : option (list N) := json_dumps v ≫= utf8_encode.

Example json_bytes_ex :
  json_bytes (PDict [(KStr (lit "b"), PInt (-12)); (KStr (lit "a"), PList [PNone; PBool true; PStr [10; 233]%N])])
  = Some (lit "{" ++ print_str (lit "a") ++ lit ":[null,true," ++ [34; 92; 110; 195; 169; 34]%N ++ lit "]," ++ print_str (lit "b") ++ lit ":-12}").
Proof. vm_compute. reflexivity. Qed.

Lemma lit_inj s s' : lit s = lit s' → s = s'.
Proof.
  intros Heq. rewrite <- (String.string_of_list_ascii_of_string s), <- (String.string_of_list_ascii_of_string s').
  f_equal. unfold lit in Heq. revert Heq. generalize (String.list_ascii_of_string s), (String.list_ascii_of_string s').
  intros l. induction l as [|c l IH]; intros [|c' l']; try done. cbn. intros [= Hc Hl].
  rewrite (IH _ Hl). f_equal. by rewrite <- (Ascii.ascii_N_embedding c), <- (Ascii.ascii_N_embedding c'), Hc.
Qed.

(** [s.partition(" ")]: what comes before and after the first space. *)
Fixpoint partition_space (s : pystr) : pystr * pystr :=
match s with
| [] => ([], [])
| c :: t => if (c =? 32)%N then ([], t) else let '(a, b) := partition_space t in (c :: a, b)
end.
