(* ===== verification/Json.v ===== *)
(** [json.loads] and its relation to the canonical encoding of [PyVal]: reading
    back what [json_dumps] wrote gives the value with its keys sorted, so equal
    encodings come from equal values (up to key order).  Every idempotency
    digest of the protocols is a hash of such an encoding. *)

From S2P Require Import Prelude PyVal.
From Stdlib Require DecimalFacts DecimalN.

(** ** The reader *)

Definition is_ws (c : N) : bool :=
  (c =? 32)%N || (c =? 9)%N || (c =? 10)%N || (c =? 13)%N.
Fixpoint skip_ws (s : pystr) : pystr :=
  match s with
  | [] => []
  | c :: s' => if is_ws c then skip_ws s' else s
  end.

Definition is_digit (c : N) : bool := (48 <=? c)%N && (c <=? 57)%N.
Definition hex_val (c : N) : option N :=
  (if is_digit c then Some (c - 48)
  else if (97 <=? c) && (c <=? 102) then Some (c - 87)
  else if (65 <=? c) && (c <=? 70) then Some (c - 55)
  else None)%N.
Definition hex4 (a b c d : N) : option N :=
  w ← hex_val a; x ← hex_val b; y ← hex_val c; z ← hex_val d;
  Some (((w * 16 + x) * 16 + y) * 16 + z)%N.

Definition unescape (e : N) : option N :=
  (if e =? 34 then Some 34 else if e =? 92 then Some 92 else if e =? 47 then Some 47
  else if e =? 98 then Some 8 else if e =? 102 then Some 12 else if e =? 110 then Some 10
  else if e =? 114 then Some 13 else if e =? 116 then Some 9 else None)%N.

Definition is_high (u : N) : bool := (55296 <=? u)%N && (u <=? 56319)%N.
Definition is_low (u : N) : bool := (56320 <=? u)%N && (u <=? 57343)%N.

(** The body of a string literal, after the opening quote. *)
Fixpoint parse_str (s : pystr) : option (pystr * pystr) :=
  match s with
  | [] => None
  | c :: s1 =>
    if (c =? 34)%N then Some ([], s1)
    else if (c =? 92)%N then
      match s1 with
      | [] => None
      | e :: s2 =>
        if (e =? 117)%N then
          match s2 with
          | a :: b :: d :: f :: s3 =>
            u ← hex4 a b d f;
            match s3 with
            | x :: y :: a' :: b' :: d' :: f' :: s4 =>
              if is_high u && (x =? 92)%N && (y =? 117)%N then
                u' ← hex4 a' b' d' f';
                if is_low u' then
                  '(t, r) ← parse_str s4;
                  Some ((65536 + (u - 55296) * 1024 + (u' - 56320))%N :: t, r)
                else '(t, r) ← parse_str s3; Some (u :: t, r)
              else '(t, r) ← parse_str s3; Some (u :: t, r)
            | _ => '(t, r) ← parse_str s3; Some (u :: t, r)
            end
          | _ => None
          end
        else x ← unescape e; '(t, r) ← parse_str s2; Some (x :: t, r)
      end
    else if (c <? 32)%N then None
    else '(t, r) ← parse_str s1; Some (c :: t, r)
  end.

Definition is_numchar (c : N) : bool :=
  is_digit c || (c =? 43)%N || (c =? 45)%N || (c =? 46)%N || (c =? 69)%N || (c =? 101)%N.
Fixpoint span (p : N → bool) (s : pystr) : pystr * pystr :=
  match s with
  | [] => ([], [])
  | c :: s' => if p c then (let '(a, b) := span p s' in (c :: a, b)) else ([], s)
  end.

Fixpoint str_uint (s : pystr) : option Decimal.uint :=
  match s with
  | [] => Some Decimal.Nil
  | c :: s =>
    d ← str_uint s;
    (if c =? 48 then Some (Decimal.D0 d) else if c =? 49 then Some (Decimal.D1 d)
    else if c =? 50 then Some (Decimal.D2 d) else if c =? 51 then Some (Decimal.D3 d)
    else if c =? 52 then Some (Decimal.D4 d) else if c =? 53 then Some (Decimal.D5 d)
    else if c =? 54 then Some (Decimal.D6 d) else if c =? 55 then Some (Decimal.D7 d)
    else if c =? 56 then Some (Decimal.D8 d) else if c =? 57 then Some (Decimal.D9 d)
    else None)%N
  end.

(** [0|[1-9][0-9]*] *)
Definition nat_token (s : pystr) : option N :=
  match s with
  | [] => None
  | c :: s' =>
    if (c =? 48)%N && negb (bool_decide (s' = [])) then None
    else N.of_uint <$> str_uint s
  end.

Definition digits1 (s : pystr) : option pystr :=
  match span is_digit s with ([], _) => None | (_, r) => Some r end.
(** An optional [[eE][-+]?[0-9]+] up to the end of the token. *)
Definition exp_token (s : pystr) : bool :=
  match s with
  | [] => true
  | c :: s =>
    ((c =? 101)%N || (c =? 69)%N) &&
    bool_decide (digits1 match s with
      | x :: s' => if (x =? 43)%N || (x =? 45)%N then s' else s
      | [] => []
      end = Some [])
  end.
(** An integer part followed by a fraction or an exponent. *)
Definition float_token (s : pystr) : bool :=
  let '(ip, r) := span is_digit s in
  match nat_token ip, r with
  | Some _, c :: r' =>
    if (c =? 46)%N
    then match digits1 r' with Some r'' => exp_token r'' | None => false end
    else exp_token r
  | _, _ => false
  end.
Definition num_body (tok : pystr) : pystr :=
  match tok with c :: b => if (c =? 45)%N then b else tok | [] => [] end.
Definition is_neg (tok : pystr) : bool :=
  match tok with c :: _ => (c =? 45)%N | [] => false end.

Fixpoint strip_prefix (p s : pystr) : option pystr :=
  match p, s with
  | [], _ => Some s
  | x :: p, y :: s => if (x =? y)%N then strip_prefix p s else None
  | _ :: _, [] => None
  end.

(** [dict(pairs)]: a repeated key keeps its first position and its last value. *)
Fixpoint dict_set (k : pykey) (v : pyval) (kvs : list (pykey * pyval)) :=
  match kvs with
  | [] => [(k, v)]
  | (k', v') :: kvs =>
    if decide (k' = k) then (k, v) :: kvs else (k', v') :: dict_set k v kvs
  end.
Definition dict_of (kvs : list (pykey * pyval)) : list (pykey * pyval) :=
  foldl (λ acc kv, dict_set kv.1 kv.2 acc) [] kvs.

(** What [float(text)] returns for a JSON number: the interpreter's conversion. *)
Class PyFloats := float_parse : pystr → pyfloat.

Section reader.
Context `{PyFloats}.

Definition parse_num (tok : pystr) : option pyval :=
match nat_token (num_body tok) with
| Some n =>
if decide (length (num_body tok) ≤ max_int_digits)%nat
then Some (PInt (if is_neg tok then - Z.of_N n else Z.of_N n)) else None
| None => if float_token (num_body tok) then Some (PFloat (float_parse tok)) else None
end.

Definition parse_literal (s : pystr) : option (pyval * pystr) :=
match strip_prefix (lit "null") s with
| Some r => Some (PNone, r)
| None =>
match strip_prefix (lit "true") s with
| Some r => Some (PBool true, r)
| None =>
  match strip_prefix (lit "false") s with
  | Some r => Some (PBool false, r)
  | None =>
    match strip_prefix (lit "NaN") s with
    | Some r => Some (PFloat FNaN, r)
    | None => r ← strip_prefix (lit "Infinity") s; Some (PFloat FPosInf, r)
    end
  end
end
end.

Fixpoint parse_value (fuel : nat) (s : pystr) {struct fuel} : option (pyval * pystr) :=
match fuel, s with
| O, _ | _, [] => None
| S fuel, c :: s1 =>
if (c =? 34)%N then '(t, r) ← parse_str s1; Some (PStr t, r)
else if (c =? 91)%N then
  match skip_ws s1 with
  | c2 :: r =>
    if (c2 =? 93)%N then Some (PList [], r)
    else '(l, r') ← parse_elems fuel (c2 :: r); Some (PList l, r')
  | [] => None
  end
else if (c =? 123)%N then
  match skip_ws s1 with
  | c2 :: r =>
    if (c2 =? 125)%N then Some (PDict [], r)
    else '(kvs, r') ← parse_members fuel (c2 :: r); Some (PDict (dict_of kvs), r')
  | [] => None
  end
else if is_digit c || (c =? 45)%N then
  match strip_prefix (lit "-Infinity") s with
  | Some r => Some (PFloat FNegInf, r)
  | None => let '(tok, r) := span is_numchar s in v ← parse_num tok; Some (v, r)
  end
else parse_literal s
end
with parse_elems (fuel : nat) (s : pystr) {struct fuel} : option (list pyval * pystr) :=
match fuel with
| O => None
| S fuel =>
'(v, r) ← parse_value fuel s;
match skip_ws r with
| c :: r' =>
  if (c =? 44)%N then '(l, r'') ← parse_elems fuel (skip_ws r'); Some (v :: l, r'')
  else if (c =? 93)%N then Some ([v], r') else None
| [] => None
end
end
with parse_members (fuel : nat) (s : pystr) {struct fuel}
: option (list (pykey * pyval) * pystr) :=
match fuel, s with
| S fuel, c :: s1 =>
if (c =? 34)%N then
  '(k, r) ← parse_str s1;
  match skip_ws r with
  | c2 :: r2 =>
    if (c2 =? 58)%N then
      '(v, r3) ← parse_value fuel (skip_ws r2);
      match skip_ws r3 with
      | c3 :: r4 =>
        if (c3 =? 44)%N
        then '(l, r5) ← parse_members fuel (skip_ws r4); Some ((KStr k, v) :: l, r5)
        else if (c3 =? 125)%N then Some ([(KStr k, v)], r4) else None
      | [] => None
      end
    else None
  | [] => None
  end
else None
| _, _ => None
end.

(** [json.loads(s)]; [None] is [JSONDecodeError].  Every nested call consumes a
character, so the fuel never runs out before the text does. *)
Definition json_loads (s : pystr) : option pyval :=
'(v, r) ← parse_value (2 * length s + 2) (skip_ws s);
if decide (skip_ws r = []) then Some v else None.


(** ** Strings *)

Lemma hex_val_digit n : (n < 16)%N → hex_val (hex_digit n) = Some n.
Proof.
intros Hn. unfold hex_digit. destruct (N.ltb_spec n 10); unfold hex_val, is_digit.
- replace (48 <=? 48 + n)%N with true by (symmetry; apply N.leb_le; lia).
replace (48 + n <=? 57)%N with true by (symmetry; apply N.leb_le; lia).
simpl. f_equal. lia.
- replace (87 + n <=? 57)%N with false by (symmetry; apply N.leb_gt; lia).
rewrite andb_false_r.
replace (97 <=? 87 + n)%N with true by (symmetry; apply N.leb_le; lia).
replace (87 + n <=? 102)%N with true by (symmetry; apply N.leb_le; lia).
simpl. f_equal. lia.
Qed.

Lemma hex4_control c : (c < 32)%N →
hex4 48 48 (hex_digit (c / 16)) (hex_digit (c mod 16)) = Some c.
Proof.
intros Hc. unfold hex4.
assert (c / 16 < 16)%N by (apply N.Div0.div_lt_upper_bound; lia).
assert (c mod 16 < 16)%N by (apply N.mod_lt; lia).
rewrite !hex_val_digit by lia. simpl. f_equal.
pose proof (N.div_mod c 16 ltac:(lia)). lia.
Qed.

Lemma parse_str_u a b d f s u t r :
hex4 a b d f = Some u → is_high u = false → parse_str s = Some (t, r) →
parse_str (92 :: 117 :: a :: b :: d :: f :: s)%N = Some (u :: t, r).
Proof.
intros Hh Hu Hs. change (parse_str (92 :: 117 :: a :: b :: d :: f :: s)%N) with
(u ← hex4 a b d f;
  match s with
  | x :: y :: a' :: b' :: d' :: f' :: s4 =>
    if is_high u && (x =? 92)%N && (y =? 117)%N then
      u' ← hex4 a' b' d' f';
      if is_low u' then
        '(t, r) ← parse_str s4;
        Some ((65536 + (u - 55296) * 1024 + (u' - 56320))%N :: t, r)
      else '(t, r) ← parse_str s; Some (u :: t, r)
    else '(t, r) ← parse_str s; Some (u :: t, r)
  | _ => '(t, r) ← parse_str s; Some (u :: t, r)
  end).
rewrite Hh. cbn [mbind option_bind]. rewrite Hu. cbn [andb].
do 6 (destruct s as [|? s]; [by rewrite Hs|]). by rewrite Hs.
Qed.

Lemma parse_str_control u h t x r :
is_high u = false → h = [92; 117; 48; 48; hex_digit (u / 16); hex_digit (u mod 16)]%N →
(u < 32)%N → parse_str t = Some (x, r) → parse_str (h ++ t) = Some (u :: x, r).
Proof.
intros Hu -> Hlt Ht. apply parse_str_u; [by apply hex4_control|done|done].
Qed.

Lemma parse_escape c t x r :
parse_str t = Some (x, r) → parse_str (escape_char c ++ t) = Some (c :: x, r).
Proof.
intros Ht. unfold escape_char.
destruct (N.eqb_spec c 34) as [->|?]; [cbn; by rewrite Ht|].
destruct (N.eqb_spec c 92) as [->|?]; [cbn; by rewrite Ht|].
destruct (N.eqb_spec c 10) as [->|?]; [cbn; by rewrite Ht|].
destruct (N.eqb_spec c 13) as [->|?]; [cbn; by rewrite Ht|].
destruct (N.eqb_spec c 9) as [->|?]; [cbn; by rewrite Ht|].
destruct (N.eqb_spec c 12) as [->|?]; [cbn; by rewrite Ht|].
destruct (N.eqb_spec c 8) as [->|?]; [cbn; by rewrite Ht|].
destruct (N.ltb_spec c 32).
- apply parse_str_control; [|done|done|done].
unfold is_high. apply andb_false_intro1. apply N.leb_gt. lia.
- simpl. rewrite (proj2 (N.eqb_neq c 34)), (proj2 (N.eqb_neq c 92)) by done.
rewrite (proj2 (N.ltb_ge c 32)) by lia. by rewrite Ht.
Qed.

Lemma parse_str_print s rest :
parse_str (flat_map escape_char s ++ 34%N :: rest) = Some (s, rest).
Proof.
induction s as [|c s IH]; [done|]. simpl flat_map.
rewrite <- app_assoc. by apply parse_escape.
Qed.

(** ** Numbers *)

Lemma str_uint_str d : str_uint (uint_str d) = Some d.
Proof. induction d; cbn; rewrite ?IHd; done. Qed.

Lemma uint_str_digits d : Forall (λ c, is_digit c = true) (uint_str d).
Proof. induction d; constructor; done. Qed.

Lemma dec_str_head n : ∃ c t, dec_str n = c :: t ∧ (c = 48%N → t = []).
Proof.
unfold dec_str. assert (Decimal.unorm (N.to_uint n) = N.to_uint n) as Hn.
{ rewrite <- DecimalN.Unsigned.to_of, DecimalN.Unsigned.of_to. done. }
revert Hn. unfold Decimal.unorm. destruct (N.to_uint n) as [|d|d|d|d|d|d|d|d|d|d]; simpl;
[done| |by eexists _, _..].
intros Hn. exists 48%N, (uint_str d). split; [done|]. intros _.
destruct (Decimal.nzhead d) as [|d'|d'|d'|d'|d'|d'|d'|d'|d'|d'] eqn:E; try discriminate Hn.
- injection Hn as <-. done.
- exfalso. by apply (DecimalFacts.nzhead_nonzero d d').
Qed.

Lemma nat_token_dec n : nat_token (dec_str n) = Some n.
Proof.
destruct (dec_str_head n) as (c & t & Hd & Hz). unfold nat_token. rewrite Hd.
destruct (N.eqb_spec c 48) as [->|]; simpl negb.
- rewrite Hz in Hd |- * by done. rewrite bool_decide_eq_true_2 by done. cbn [andb negb].
rewrite <- Hd. unfold dec_str. rewrite str_uint_str. cbn. by rewrite DecimalN.Unsigned.of_to.
- cbn [andb]. rewrite <- Hd. unfold dec_str. rewrite str_uint_str. cbn.
by rewrite DecimalN.Unsigned.of_to.
Qed.

Definition num_stop (rest : pystr) : Prop :=
match rest with [] => True | c :: _ => is_numchar c = false end.

Lemma span_stop p tok rest :
Forall (λ c, p c = true) tok →
match rest with [] => True | c :: _ => p c = false end →
span p (tok ++ rest) = (tok, rest).
Proof.
intros Ht Hr. induction Ht as [|c tok Hc _ IH]; simpl.
- destruct rest; [done|]. simpl. by rewrite Hr.
- by rewrite Hc, IH.
Qed.

Lemma span_app p s : (span p s).1 ++ (span p s).2 = s.
Proof.
induction s as [|c s IH]; [done|]. simpl. destruct (p c); [|done].
destruct (span p s) as [a b]. simpl in *. by rewrite IH.
Qed.

Lemma digit_numchar c : is_digit c = true → is_numchar c = true.
Proof. intros Hc. unfold is_numchar. by rewrite Hc. Qed.

Lemma forallb_numchar r : forallb is_numchar r = true → Forall (λ c, is_numchar c = true) r.
Proof. intros Hr. apply List.Forall_forall. by apply List.forallb_forall. Qed.

Lemma digit_not_minus c : is_digit c = true → (c =? 45)%N = false.
Proof. unfold is_digit. intros [?%N.leb_le ?]%andb_prop. apply N.eqb_neq. lia. Qed.

Lemma str_uint_digits s d : str_uint s = Some d → Forall (λ c, is_digit c = true) s.
Proof.
revert d. induction s as [|c s IH]; intros d; [constructor|]. simpl.
destruct (str_uint s) as [d'|] eqn:E; simpl; [|done]. intros Hd. constructor; [|by eapply IH].
unfold is_digit.
repeat lazymatch type of Hd with
| (if (c =? ?n)%N then _ else _) = _ =>
  destruct (N.eqb_spec c n) as [->|]; [reflexivity|]
end. done.
Qed.

Lemma nat_token_digits s n : nat_token s = Some n → Forall (λ c, is_digit c = true) s ∧ s ≠ [].
Proof.
unfold nat_token. destruct s as [|c s]; [done|]. destruct (_ && _); [done|].
intros (d&Hd&->)%fmap_Some. split; [|done]. by eapply str_uint_digits.
Qed.

Lemma float_token_inv b : float_token b = true →
∃ c ip r, b = ip ++ c :: r ∧ is_digit c = false ∧ ip ≠ [] ∧ Forall (λ c, is_digit c = true) ip.
Proof.
unfold float_token. pose proof (span_app is_digit b) as Hs.
destruct (span is_digit b) as [ip r] eqn:E. simpl in Hs.
destruct (nat_token ip) as [n|] eqn:Hn; [|done]. destruct r as [|c r]; [done|].
intros Hf. apply nat_token_digits in Hn as [Hd Hne].
exists c, ip, r. split_and!; [done| |done|done].
destruct (N.eqb_spec c 46) as [->|]; [done|]. unfold exp_token in Hf.
apply andb_prop in Hf as [Hc _]. apply orb_prop in Hc as [->%N.eqb_eq| ->%N.eqb_eq]; done.
Qed.

Lemma float_token_not_nat b : float_token b = true → nat_token b = None.
Proof.
intros (c & ip & r & -> & Hc & _ & _)%float_token_inv.
destruct (nat_token _) as [n|] eqn:E; [|done].
apply nat_token_digits in E as [Hd _]. apply Forall_app in Hd as [_ Hd].
inversion Hd; congruence.
Qed.

(** The text of a finite float: a JSON number with a fraction or an exponent that
reads back as the float it is the [repr] of. *)
Definition float_ok (r : pystr) : Prop :=
forallb is_numchar r = true ∧ float_token (num_body r) = true ∧ float_parse r = FFin r.

(** The first character of a number decides the branch of [parse_value]. *)
Definition num_head (c : N) : Prop := is_digit c = true ∨ c = 45%N.

Lemma num_head_branch c : num_head c →
(c =? 34)%N = false ∧ (c =? 91)%N = false ∧ (c =? 123)%N = false ∧
is_digit c || (c =? 45)%N = true.
Proof.
intros [Hd| ->]; [|done]. rewrite Hd. unfold is_digit in Hd.
apply andb_prop in Hd as [?%N.leb_le ?%N.leb_le]. rewrite !N.eqb_neq. split_and!; lia || done.
Qed.

Lemma strip_prefix_cons x p y s :
strip_prefix (x :: p) (y :: s) = if (x =? y)%N then strip_prefix p s else None.
Proof. done. Qed.

(** A token whose body starts with a digit is not [-Infinity]. *)
Lemma not_neg_infinity tok rest d b :
num_body tok = d :: b → is_digit d = true →
strip_prefix (lit "-Infinity") (tok ++ rest) = None.
Proof.
intros Hb Hd. destruct tok as [|c tok]; [done|]. simpl in Hb.
change (lit "-Infinity") with (45 :: 73 :: lit "nfinity")%N.
rewrite <- app_comm_cons, strip_prefix_cons, N.eqb_sym.
destruct (N.eqb_spec c 45) as [->|]; [|done]. subst tok.
rewrite <- app_comm_cons, strip_prefix_cons. by destruct (N.eqb_spec 73 d) as [<-|].
Qed.

Lemma parse_value_num fuel tok rest v d b :
Forall (λ c, is_numchar c = true) tok → num_stop rest →
num_body tok = d :: b → is_digit d = true →
parse_num tok = Some v →
parse_value (S fuel) (tok ++ rest) = Some (v, rest).
Proof.
intros Ht Hr Hb Hd Hv. pose proof (not_neg_infinity tok rest d b Hb Hd) as Hi.
pose proof (span_stop is_numchar tok rest Ht Hr) as Hs.
destruct tok as [|c tok]; [done|]. assert (num_head c) as Hc.
{ simpl in Hb. destruct (N.eqb_spec c 45) as [->|]; [by right|]. left. by simplify_eq. }
destruct (num_head_branch c Hc) as (H1 & H2 & H3 & H4).
rewrite <- app_comm_cons in *. cbn [parse_value]. rewrite H1, H2, H3, H4, Hi, Hs, Hv. done.
Qed.

Lemma parse_int fuel z p rest :
print_int z = Some p → num_stop rest →
parse_value (S fuel) (p ++ rest) = Some (PInt z, rest).
Proof.
unfold print_int. case_decide as Hlen; [|done]. intros [= <-] Hr.
set (n := Z.abs_N z) in *. destruct (dec_str_head n) as (d & t & Hd & _).
pose proof (uint_str_digits (N.to_uint n)) as Hds. fold (dec_str n) in Hds.
assert (is_digit d = true) as Hdd by (rewrite Hd in Hds; by inversion Hds).
assert (Forall (λ c, is_numchar c = true) (dec_str n)) as Hnc
by (eapply Forall_impl; [done|]; apply digit_numchar).
assert (num_body (if z <? 0 then 45%N :: dec_str n else dec_str n) = dec_str n) as Hb.
{ destruct (z <? 0); [done|]. unfold num_body. rewrite Hd. by rewrite digit_not_minus. }
eapply parse_value_num; [|done|by rewrite Hb|done|].
- destruct (z <? 0); [by constructor|done].
- unfold parse_num. rewrite Hb, nat_token_dec, decide_True by done. do 2 f_equal.
destruct (Z.ltb_spec z 0); simpl; [lia|]. unfold is_neg. rewrite Hd.
rewrite digit_not_minus by done. lia.
Qed.

Lemma parse_float fuel r rest :
float_ok r → num_stop rest →
parse_value (S fuel) (r ++ rest) = Some (PFloat (FFin r), rest).
Proof.
intros (Hc & Ht & Hp) Hr. destruct (float_token_inv _ Ht) as (c & ip & q & Hb & _ & Hne & Hd).
destruct ip as [|d ip]; [done|]. inversion Hd; subst.
eapply parse_value_num; [by apply forallb_numchar|done|exact Hb|done|].
unfold parse_num. by rewrite float_token_not_nat, Ht, Hp.
Qed.

(** ** Reading back a printed value *)

(** Values the interpreter can hold: dictionary keys are distinct and finite
floats are identified by their [repr]. *)
Fixpoint wf_json (v : pyval) : Prop :=
match v with
| PFloat (FFin r) => float_ok r
| PList l => (fix go l := match l with [] => True | x :: l => wf_json x ∧ go l end) l
| PDict kvs =>
  NoDup kvs.*1 ∧
  (fix go kvs := match kvs with [] => True | kv :: kvs => wf_json kv.2 ∧ go kvs end) kvs
| _ => True
end.

Lemma wf_list l : wf_json (PList l) ↔ Forall wf_json l.
Proof.
induction l as [|x l IH]; [split; [constructor|done]|].
rewrite Forall_cons, <- IH. done.
Qed.
Lemma wf_dict kvs : wf_json (PDict kvs) ↔ NoDup kvs.*1 ∧ Forall (λ kv, wf_json kv.2) kvs.
Proof.
cbn [wf_json]. apply and_iff_compat_l.
induction kvs as [|x l IH]; [split; [constructor|done]|]. by rewrite Forall_cons, <- IH.
Qed.

Fixpoint print_elems (l : list pyval) : option pystr :=
match l with
| [] => Some []
| [x] => print x
| x :: l => a ← print x; b ← print_elems l; Some (a ++ 44%N :: b)
end.
Fixpoint print_members (kvs : list (pykey * pyval)) : option pystr :=
match kvs with
| [] => Some []
| (KOther, _) :: _ => None
| [(KStr k, x)] => a ← print x; Some (print_str k ++ 58%N :: a)
| (KStr k, x) :: kvs =>
  a ← print x; b ← print_members kvs; Some (print_str k ++ 58%N :: a ++ 44%N :: b)
end.
Lemma print_list l : print (PList l) = (b ← print_elems l; Some (91%N :: b ++ [93%N])).
Proof. reflexivity. Qed.
Lemma print_dict l : print (PDict l) = (b ← print_members l; Some (123%N :: b ++ [125%N])).
Proof. reflexivity. Qed.

Lemma print_head v p : wf_json v → print v = Some p →
∃ c t, p = c :: t ∧ is_ws c = false ∧ (c =? 93)%N = false ∧ (c =? 125)%N = false.
Proof.
intros Hwf Hp.
destruct v as [| [] |z|[r| | |]|s|l|kvs|];
try (simpl in Hp; simplify_eq; by eexists _, _).
- simpl in Hp. unfold print_int in Hp. case_decide; simplify_eq.
destruct (dec_str_head (Z.abs_N z)) as (c & t & Hd & _).
destruct (z <? 0); [by eexists _, _|]. exists c, t. split; [done|].
pose proof (uint_str_digits (N.to_uint (Z.abs_N z))) as Hds.
fold (dec_str (Z.abs_N z)) in Hds. rewrite Hd in Hds. inversion Hds as [|?? Hc]; subst.
unfold is_digit in Hc. apply andb_prop in Hc as [?%N.leb_le ?%N.leb_le].
unfold is_ws. rewrite !orb_false_iff, !N.eqb_neq. lia.
- simpl in Hp. simplify_eq. destruct Hwf as (_ & Hf & _).
destruct (float_token_inv _ Hf) as (c & ip & q & Hb & _ & Hne & Hd).
destruct p as [|d p]; [by destruct ip|]. exists d, p. split; [done|]. simpl in Hb.
destruct (N.eqb_spec d 45) as [->|]; [done|].
destruct ip as [|e ip]; [done|]. simplify_eq/=. inversion Hd as [|?? Hc]; subst.
unfold is_digit in Hc. apply andb_prop in Hc as [?%N.leb_le ?%N.leb_le].
unfold is_ws. rewrite !orb_false_iff, !N.eqb_neq. lia.
- rewrite print_list in Hp. destruct (print_elems l); simplify_eq/=. by eexists _, _.
- rewrite print_dict in Hp. destruct (print_members kvs); simplify_eq/=. by eexists _, _.
Qed.

Lemma print_elems_head l b : l ≠ [] → Forall wf_json l → print_elems l = Some b →
∃ c t, b = c :: t ∧ is_ws c = false ∧ (c =? 93)%N = false.
Proof.
intros Hne Hw Hb. destruct l as [|x l]; [done|]. inversion Hw; subst.
assert (∃ q t, print x = Some q ∧ b = q ++ t) as (q & t & Hq & ->).
{ destruct l; simpl in Hb; [by exists b, []; rewrite app_nil_r|].
apply bind_Some in Hb as (q & Hq & (q' & _ & [= <-])%bind_Some). by eexists q, _. }
destruct (print_head x q) as (c & t' & -> & Hc & Hc' & _); [done|done|]. by eexists c, _.
Qed.

Lemma skip_ws_head c t : is_ws c = false → skip_ws (c :: t) = c :: t.
Proof. intros Hc. simpl. by rewrite Hc. Qed.

(** [dict(pairs)] keeps pairs with distinct keys as they are. *)
Lemma dict_set_fresh k v kvs : k ∉ kvs.*1 → dict_set k v kvs = kvs ++ [(k, v)].
Proof.
induction kvs as [|[k' v'] kvs IH]; [done|]. simpl. intros Hk.
apply not_elem_of_cons in Hk as [? ?]. rewrite decide_False by done. by rewrite IH.
Qed.
Lemma dict_of_distinct kvs : NoDup kvs.*1 → dict_of kvs = kvs.
Proof.
unfold dict_of. intros Hnd.
assert (∀ acc, NoDup (acc ++ kvs).*1 →
foldl (λ acc kv, dict_set kv.1 kv.2 acc) acc kvs = acc ++ kvs) as Hg; [|by apply (Hg [])].
clear Hnd. induction kvs as [|[k v] kvs IH]; intros acc Hnd; simpl; [by rewrite app_nil_r|].
rewrite dict_set_fresh, IH, <- app_assoc; simpl; [done| |].
- by rewrite <- app_assoc.
- rewrite fmap_app in Hnd. apply NoDup_app in Hnd as (_ & Hd & _). intros Hk.
apply (Hd k Hk). left.
Qed.

Definition reads (v : pyval) : Prop := ∀ p rest fuel,
wf_json v → print v = Some p → num_stop rest → (2 * length p ≤ fuel)%nat →
parse_value fuel (p ++ rest) = Some (v, rest).

Lemma reads_elems l body rest fuel :
l ≠ [] → Forall reads l → Forall wf_json l → print_elems l = Some body →
(2 * length body + 1 ≤ fuel)%nat →
parse_elems fuel (body ++ 93%N :: rest) = Some (l, rest).
Proof.
intros Hne Hr Hw. revert body fuel. induction l as [|x l IH]; intros body fuel Hb Hf; [done|].
inversion Hr as [|?? Hx Hl]; inversion Hw as [|?? Wx Wl]; subst.
destruct fuel as [|fuel]; [lia|]. destruct l as [|y l].
- simpl in Hb. cbn [parse_elems]. rewrite (Hx body (93%N :: rest) fuel) by (done || lia). done.
- remember (y :: l) as l' eqn:El. assert (l' ≠ []) by (by subst).
assert (print_elems (x :: l') = (a ← print x; b ← print_elems l'; Some (a ++ 44%N :: b)))
  as Heq by by subst. rewrite Heq in Hb. clear Heq El.
destruct (print x) as [a|] eqn:Ea; [|done]. destruct (print_elems l') as [b|] eqn:Eb; [|done].
simpl in Hb. simplify_eq. rewrite length_app in Hf. simpl in Hf.
rewrite <- app_assoc, <- app_comm_cons. cbn [parse_elems].
rewrite (Hx a (44%N :: b ++ 93%N :: rest) fuel) by (done || lia).
cbn [mbind option_bind]. rewrite (skip_ws_head 44) by done. cbn [N.eqb Pos.eqb].
assert (skip_ws (b ++ 93%N :: rest) = b ++ 93%N :: rest) as ->.
{ destruct (print_elems_head l' b) as (c & t & -> & Hc & _); [done..|].
  by rewrite <- app_comm_cons, skip_ws_head. }
rewrite (IH ltac:(done) Hl Wl b fuel) by (done || lia). done.
Qed.

Lemma print_members_head kvs b : kvs ≠ [] → print_members kvs = Some b → ∃ t, b = 34%N :: t.
Proof.
intros Hne Hb. destruct kvs as [|[[k|] x] kvs]; [done| |done].
destruct kvs; simpl in Hb.
- apply bind_Some in Hb as (a & _ & [= <-]). by eexists.
- apply bind_Some in Hb as (a & _ & (q & _ & [= <-])%bind_Some). by eexists.
Qed.

Lemma reads_members kvs body rest fuel :
kvs ≠ [] → Forall (λ kv, reads kv.2) kvs → Forall (λ kv, wf_json kv.2) kvs →
print_members kvs = Some body → (2 * length body + 1 ≤ fuel)%nat →
parse_members fuel (body ++ 125%N :: rest) = Some (kvs, rest).
Proof.
intros Hne Hr Hw. revert body fuel.
induction kvs as [|[k x] kvs IH]; intros body fuel Hb Hf; [done|].
inversion Hr as [|?? Hx Hl]; inversion Hw as [|?? Wx Wl]; subst. simpl in Hx, Wx.
destruct fuel as [|fuel]; [lia|]. destruct k as [k|]; [|done].
assert (∃ a t, print x = Some a ∧ body = print_str k ++ 58%N :: a ++ t ∧
((kvs = [] ∧ t = []) ∨ (kvs ≠ [] ∧ ∃ b, print_members kvs = Some b ∧ t = 44%N :: b)))
as (a & t & Ha & -> & Ht).
{ destruct kvs as [|kv kvs]; simpl in Hb.
- apply bind_Some in Hb as (a & Ha & [= <-]). exists a, []. rewrite app_nil_r. auto.
- apply bind_Some in Hb as (a & Ha & (b & Hb & [= <-])%bind_Some).
  exists a, (44%N :: b). split_and!; [done|done|]. right. split; [done|]. by exists b. }
destruct (print_head x a) as (c & a' & -> & Hc & _); [done|done|].
unfold print_str in *. rewrite !length_app in Hf. cbn [length] in Hf. rewrite !length_app in Hf.
cbn [length] in Hf. cbn [app]. cbn [parse_members]. rewrite <- !app_assoc. cbn [N.eqb Pos.eqb app].
rewrite parse_str_print. cbn [mbind option_bind]. rewrite (skip_ws_head 58) by done.
cbn [N.eqb Pos.eqb app]. rewrite skip_ws_head by done.
rewrite <- app_assoc, app_comm_cons.
rewrite (Hx (c :: a') (t ++ 125%N :: rest) fuel); [|done|done| |simpl; lia].
2: { destruct Ht as [[_ ->]|(_ & b & _ & ->)]; done. }
cbn [mbind option_bind]. destruct Ht as [[-> ->]|(Hkn & b & Eb & ->)]; [done|].
simpl app. rewrite (skip_ws_head 44) by done. cbn [N.eqb Pos.eqb].
destruct (print_members_head kvs b) as [t ->]; [done|done|].
rewrite <- app_comm_cons, (skip_ws_head 34) by done. rewrite app_comm_cons.
simpl in Hf. rewrite (IH ltac:(done) Hl Wl (34%N :: t) fuel) by (done || simpl; lia). done.
Qed.

Lemma reads_all v : reads v.
Proof.
induction v as [|b|z|f|s|l IH|kvs IH|] using pyval_ind'; intros p rest fuel Hw Hp Hr Hf.
- simpl in Hp. simplify_eq. by destruct fuel; [simpl in Hf; lia|].
- simpl in Hp. simplify_eq. by destruct fuel, b; [simpl in Hf; lia..| |].
- destruct fuel as [|fuel].
+ destruct (print_head (PInt z) p) as (? & ? & -> & _); [done..|]. simpl in Hf; lia.
+ by apply parse_int.
- destruct f; [|done..]. simpl in Hp. simplify_eq. destruct fuel as [|fuel].
+ destruct (print_head (PFloat (FFin p)) p) as (? & ? & -> & _); [done..|]. simpl in Hf; lia.
+ by apply parse_float.
- simpl in Hp. simplify_eq. destruct fuel as [|fuel]; [simpl in Hf; lia|].
unfold print_str. rewrite <- app_comm_cons, <- app_assoc. cbn [app parse_value N.eqb Pos.eqb].
by rewrite parse_str_print.
- rewrite print_list in Hp. apply bind_Some in Hp as (b & Hb & [= <-]).
cbn [length] in Hf. rewrite length_app in Hf. cbn [length] in Hf.
destruct fuel as [|fuel]; [lia|]. apply wf_list in Hw. cbn [app parse_value N.eqb Pos.eqb].
rewrite <- app_assoc. cbn [app]. destruct (decide (l = [])) as [->|Hne]; [by simplify_eq/=|].
destruct (print_elems_head l b) as (c & t & -> & Hc & Hc'); [done..|].
rewrite <- app_comm_cons, skip_ws_head, Hc' by done. rewrite app_comm_cons.
rewrite (reads_elems l (c :: t)) by (done || lia). done.
- rewrite print_dict in Hp. apply bind_Some in Hp as (b & Hb & [= <-]).
cbn [length] in Hf. rewrite length_app in Hf. cbn [length] in Hf.
destruct fuel as [|fuel]; [lia|]. apply wf_dict in Hw as [Hnd Hw].
cbn [app parse_value N.eqb Pos.eqb].
rewrite <- app_assoc. cbn [app]. destruct (decide (kvs = [])) as [->|Hne]; [by simplify_eq/=|].
destruct (print_members_head kvs b) as [t ->]; [done..|].
rewrite <- app_comm_cons, skip_ws_head by done. cbn [N.eqb Pos.eqb]. rewrite app_comm_cons.
rewrite (reads_members kvs (34%N :: t)) by (done || lia). simpl.
by rewrite dict_of_distinct.
- done.
Qed.

(** ** Sorting the keys *)

Lemma canon_list l : canon (PList l) = PList (canon <$> l).
Proof. reflexivity. Qed.
Lemma canon_dict kvs :
canon (PDict kvs) = PDict (merge_sort item_le (prod_map id canon <$> kvs)).
Proof.
cbn [canon]. do 2 f_equal. induction kvs as [|[k x] l IH]; [done|]. by rewrite IH.
Qed.

Lemma fst_prod_map {A B C} (f : B → C) (l : list (A * B)) : (prod_map id f <$> l).*1 = l.*1.
Proof. rewrite <- list_fmap_compose. by apply list_fmap_ext. Qed.

Lemma wf_canon v : wf_json v → wf_json (canon v).
Proof.
induction v as [| | | | |l IH|kvs IH|] using pyval_ind'; try done.
- rewrite canon_list, !wf_list, Forall_fmap, !Forall_forall. rewrite Forall_forall in IH.
naive_solver.
- rewrite canon_dict, !wf_dict. intros [Hnd Hw]. split.
+ by rewrite merge_sort_Permutation, fst_prod_map.
+ rewrite merge_sort_Permutation, Forall_fmap. rewrite Forall_forall in IH, Hw |- *.
  naive_solver.
Qed.

Lemma json_loads_dumps v s :
wf_json v → json_dumps v = Some s → json_loads s = Some (canon v).
Proof.
intros Hw Hs. apply wf_canon in Hw. unfold json_loads, json_dumps in *.
destruct (print_head _ _ Hw Hs) as (c & t & -> & Hc & _). rewrite skip_ws_head by done.
rewrite <- (app_nil_r (c :: t)) at 2.
rewrite (reads_all (canon v) (c :: t) []) by (done || lia). done.
Qed.

Lemma json_dumps_inj v w s :
wf_json v → wf_json w → json_dumps v = Some s → json_dumps w = Some s → canon v = canon w.
Proof. intros Hv Hw ?%(json_loads_dumps v) ?%(json_loads_dumps w); [|done..]. congruence. Qed.

End reader.

(** ** The order of keys does not matter *)

Lemma str_leb_refl a : str_leb a a = true.
Proof. induction a as [|x a IH]; [done|]. simpl. by rewrite N.eqb_refl. Qed.
Lemma str_leb_total a b : str_leb a b = true ∨ str_leb b a = true.
Proof.
  revert b. induction a as [|x a IH]; intros [|y b]; [by left..|by right|]. simpl.
  rewrite (N.eqb_sym y x). destruct (N.eqb_spec x y) as [->|]; [apply IH|].
  rewrite !N.ltb_lt. lia.
Qed.
Lemma str_leb_antisymm a b : str_leb a b = true → str_leb b a = true → a = b.
Proof.
  revert b. induction a as [|x a IH]; intros [|y b]; [done..|]. simpl.
  rewrite (N.eqb_sym y x). destruct (N.eqb_spec x y) as [->|].
  - intros. f_equal. by apply IH.
  - rewrite !N.ltb_lt. lia.
Qed.
Lemma str_leb_trans a b c : str_leb a b = true → str_leb b c = true → str_leb a c = true.
Proof.
  revert b c. induction a as [|x a IH]; intros [|y b] [|z c]; try done. simpl.
  destruct (N.eqb_spec x y) as [->|Hxy], (N.eqb_spec y z) as [->|Hyz].
  - apply IH.
  - done.
  - by rewrite (proj2 (N.eqb_neq x z)).
  - rewrite !N.ltb_lt. intros. rewrite (proj2 (N.eqb_neq x z)) by lia. apply N.ltb_lt. lia.
Qed.

#[export] Instance item_le_trans : Transitive item_le.
Proof. intros x y z. apply str_leb_trans. Qed.
#[export] Instance item_le_total : Total item_le.
Proof. intros x y. apply str_leb_total. Qed.

Definition str_keys (kvs : list (pykey * pyval)) : Prop := Forall (λ kv, kv.1 ≠ KOther) kvs.

Lemma NoDup_fst_functional {A B} (l : list (A * B)) a b b' :
  NoDup l.*1 → (a, b) ∈ l → (a, b') ∈ l → b = b'.
Proof.
  intros Hnd [i Hi]%list_elem_of_lookup [j Hj]%list_elem_of_lookup.
  assert (i = j) as ->; [|congruence].
  eapply NoDup_lookup; [exact Hnd| |]; rewrite list_lookup_fmap, ?Hi, ?Hj; done.
Qed.

Lemma merge_sort_items kvs kvs' :
  NoDup kvs.*1 → str_keys kvs → kvs ≡ₚ kvs' → merge_sort item_le kvs = merge_sort item_le kvs'.
Proof.
  intros Hnd Hk Hp. apply (Sorted_unique_strong item_le).
  - intros [k1 v1] [k2 v2]. rewrite !merge_sort_Permutation, <- Hp. intros H1 H2 Hle Hle'.
    unfold str_keys in Hk. rewrite Forall_forall in Hk. pose proof (Hk _ H1) as K1. pose proof (Hk _ H2) as K2.
    destruct k1 as [k1|], k2 as [k2|]; try done.
    assert (k1 = k2) as -> by (by apply str_leb_antisymm).
    f_equal. by eapply NoDup_fst_functional.
  - apply Sorted_merge_sort, _.
  - apply Sorted_merge_sort, _.
  - by rewrite !merge_sort_Permutation.
Qed.

Lemma json_dumps_perm kvs kvs' :
  NoDup kvs.*1 → str_keys kvs → kvs ≡ₚ kvs' → json_dumps (PDict kvs) = json_dumps (PDict kvs').
Proof.
  intros Hnd Hk Hp. unfold json_dumps. rewrite !canon_dict.
  rewrite (merge_sort_items (prod_map id canon <$> kvs) (prod_map id canon <$> kvs')); [done|..].
  - by rewrite fst_prod_map.
  - unfold str_keys. rewrite Forall_fmap. done.
  - by rewrite Hp.
Qed.

(** ** Looking keys up in a canonical dictionary *)

Lemma elem_of_dict_find k v kvs :
  NoDup kvs.*1 → dict_find k kvs = Some v ↔ (KStr k, v) ∈ kvs.
Proof.
  induction kvs as [|[k' v'] l IH]; intros Hnd; simpl.
  - split; [done|]. by intros ?%not_elem_of_nil.
  - apply NoDup_cons in Hnd as [Hk Hnd]. rewrite elem_of_cons. case_decide as Heq.
    + subst k'. split; [intros [= ->]; by left|]. intros [Heq|Hin]; [by simplify_eq|].
      destruct Hk. apply list_elem_of_fmap. by exists (KStr k, v).
    + rewrite IH by done. split; [by right|]. intros [Heq'|?]; [by simplify_eq|done].
Qed.

Lemma dict_find_canon k kvs :
  NoDup kvs.*1 →
  dict_find k (merge_sort item_le (prod_map id canon <$> kvs)) = canon <$> dict_find k kvs.
Proof.
  intros Hnd. apply option_eq. intros v.
  rewrite elem_of_dict_find by (by rewrite merge_sort_Permutation, fst_prod_map).
  rewrite merge_sort_Permutation, list_elem_of_fmap, fmap_Some. split.
  - intros ([k' x] & Heq & Hin). simpl in Heq. injection Heq as <- ->.
    exists x. by rewrite elem_of_dict_find.
  - intros (x & Hx & ->). exists (KStr k, x). by rewrite <- elem_of_dict_find.
Qed.

(** Dictionaries with the same canonical form agree, canonically, on every key. *)
Lemma canon_dict_find kvs kvs' k :
  NoDup kvs.*1 → NoDup kvs'.*1 → canon (PDict kvs) = canon (PDict kvs') →
  canon <$> dict_find k kvs = canon <$> dict_find k kvs'.
Proof.
  rewrite !canon_dict. intros H1 H2 [= Heq]. by rewrite <- !dict_find_canon, Heq.
Qed.

(** ** UTF-8 round trip *)

Lemma add_sub_l k x : (k + x - k)%N = x.
Proof. lia. Qed.
Lemma split64 c : (c / 64 * 64 + c mod 64)%N = c.
Proof. rewrite N.mul_comm. symmetry. apply N.div_mod. done. Qed.
Lemma split4096 c : (c / 4096 * 4096 + c / 64 mod 64 * 64 + c mod 64)%N = c.
Proof.
  rewrite <- (split64 c) at 4. rewrite <- (split64 (c / 64)) at 2.
  rewrite N.Div0.div_div. change (64 * 64)%N with 4096%N. lia.
Qed.
Lemma split262144 c :
  (c / 262144 * 262144 + c / 4096 mod 64 * 4096 + c / 64 mod 64 * 64 + c mod 64)%N = c.
Proof.
  rewrite <- (split4096 c) at 5. rewrite <- (split64 (c / 4096)) at 2.
  rewrite N.Div0.div_div. change (4096 * 64)%N with 262144%N. lia.
Qed.
Lemma div_between c k lo hi : (k ≠ 0 → lo * k ≤ c → c < hi * k → lo ≤ c / k ∧ c / k < hi)%N.
Proof.
  intros Hk Hl Hh. split; [apply N.div_le_lower_bound; lia|].
  apply N.Div0.div_lt_upper_bound; lia.
Qed.

Lemma is_cont_low n : is_cont (128 + n mod 64)%N = true.
Proof.
  unfold is_cont. pose proof (N.mod_lt n 64 ltac:(lia)) as Hn. generalize dependent (n mod 64)%N.
  intros m Hm. apply andb_true_intro. split; apply N.leb_le; lia.
Qed.

(** [utf8_decode] reads one character at a time. *)
Lemma utf8_decode_char c b rest s :
  utf8_char c = Some b → utf8_decode rest = Some s → utf8_decode (b ++ rest) = Some (c :: s).
Proof.
  intros Hc Hs. unfold utf8_char in Hc.
  destruct (N.ltb_spec c 128).
  { simplify_eq. simpl. rewrite (proj2 (N.ltb_lt c 128)) by done. by rewrite Hs. }
  destruct (N.ltb_spec c 2048).
  { simplify_eq. simpl. destruct (div_between c 64 2 32) as [Hl Hh]; [lia..|].
    rewrite is_cont_low, !add_sub_l, split64, Hs. generalize dependent (c / 64)%N. intros q ??.
    rewrite (proj2 (N.ltb_ge (192 + q) 128)), (proj2 (N.leb_le 194 (192 + q))) by lia.
    by rewrite (proj2 (N.leb_le (192 + q) 223)) by lia. }
  destruct (is_surrogate c) eqn:Hsur; [done|].
  destruct (N.ltb_spec c 65536).
  { simplify_eq. simpl. destruct (div_between c 4096 0 16) as [Hl Hh]; [lia..|].
    rewrite !is_cont_low, !add_sub_l, split4096, Hs, Hsur, (proj2 (N.leb_le 2048 c)) by lia.
    generalize dependent (c / 4096)%N. intros q ??.
    rewrite (proj2 (N.ltb_ge (224 + q) 128)), (proj2 (N.leb_gt (224 + q) 223)), andb_false_r by lia.
    by rewrite (proj2 (N.leb_le 224 (224 + q))), (proj2 (N.leb_le (224 + q) 239)) by lia. }
  destruct (N.ltb_spec c 1114112); [|done]. simplify_eq. simpl.
  destruct (div_between c 262144 0 5) as [Hl Hh]; [lia..|].
  rewrite !is_cont_low, !add_sub_l, split262144, Hs.
  rewrite (proj2 (N.leb_le 65536 c)), (proj2 (N.ltb_lt c 1114112)) by lia.
  generalize dependent (c / 262144)%N. intros q ??.
  rewrite (proj2 (N.ltb_ge (240 + q) 128)), (proj2 (N.leb_gt (240 + q) 223)), andb_false_r by lia.
  rewrite (proj2 (N.leb_gt (240 + q) 239)), andb_false_r by lia.
  by rewrite (proj2 (N.leb_le 240 (240 + q))), (proj2 (N.leb_le (240 + q) 244)) by lia.
Qed.

Lemma utf8_decode_encode s b : utf8_encode s = Some b → utf8_decode b = Some s.
Proof.
  revert b. induction s as [|c s IH]; intros b Hb; simpl in Hb; [by simplify_eq|].
  apply bind_Some in Hb as (x & Hx & (y & Hy & [= <-])%bind_Some).
  by apply utf8_decode_char; [|apply IH].
Qed.

Lemma utf8_encode_inj s s' b : utf8_encode s = Some b → utf8_encode s' = Some b → s = s'.
Proof. intros ?%utf8_decode_encode ?%utf8_decode_encode. congruence. Qed.

Lemma json_bytes_inj `{PyFloats} v w b :
  wf_json v → wf_json w → json_bytes v = Some b → json_bytes w = Some b → canon v = canon w.
Proof.
  unfold json_bytes. intros Hv Hw (s & Hs & Hb)%bind_Some (s' & Hs' & Hb')%bind_Some.
  assert (s = s') as <- by (by eapply utf8_encode_inj). by eapply json_dumps_inj.
Qed.

(** What [json.loads(raw.decode("utf-8"))] gives on stored canonical bytes. *)
Lemma json_bytes_roundtrip `{PyFloats} v b :
  wf_json v → json_bytes v = Some b → utf8_decode b ≫= json_loads = Some (canon v).
Proof.
  unfold json_bytes. intros Hv (s & Hs & Hb)%bind_Some.
  rewrite (utf8_decode_encode s b Hb). simpl. by apply json_loads_dumps.
Qed.
