(* ===== verification/PyUuid.v ===== *)
(** The two directions of Python's [uuid.UUID]: [str(u)] and [UUID(s)], the
    latter with everything it accepts ([urn:uuid:] prefixes, braces, hyphens
    anywhere and whatever [int(s, 16)] takes). *)

From S2P Require Import Prelude PyVal.

(** [unicodedata.decimal] on non-ASCII characters, a table of the interpreter. *)
Class UnicodeDecimal := decimal_value : N → option N.

(** ** [str(u)] *)

Fixpoint to_hex (k : nat) (n : N) : pystr :=
  match k with
  | O => []
  | S k => to_hex k (n / 16) ++ [hex_digit (n mod 16)]
  end.

Definition str_of_uuid (u : uuid) : pystr :=
  let h := to_hex 32 u in
  take 8 h ++ 45%N :: take 4 (drop 8 h) ++ 45%N :: take 4 (drop 12 h)
  ++ 45%N :: take 4 (drop 16 h) ++ 45%N :: drop 20 h.

(** ** [UUID(s)] *)

Fixpoint starts_with (p s : pystr) : bool :=
  match p, s with
  | [], _ => true
  | x :: p, y :: s => (x =? y)%N && starts_with p s
  | _ :: _, [] => false
  end.

(** [s.replace(p, "")] for a non-empty [p]; [skip] characters of the current
    occurrence are still to be dropped. *)
Fixpoint remove_all (p : pystr) (skip : nat) (s : pystr) : pystr :=
  match s with
  | [] => []
  | c :: t =>
      match skip with
      | S k => remove_all p k t
      | O => if starts_with p s then remove_all p (length p - 1) t
             else c :: remove_all p 0 t
      end
  end.

Fixpoint lstrip (cs : pystr) (s : pystr) : pystr :=
  match s with
  | [] => []
  | c :: t => if bool_decide (c ∈ cs) then lstrip cs t else s
  end.
Definition strip (cs : pystr) (s : pystr) : pystr := reverse (lstrip cs (reverse (lstrip cs s))).

(** [str.strip()]: the characters [str.isspace] accepts. *)
Definition unicode_ws : pystr :=
  ([9; 10; 11; 12; 13; 28; 29; 30; 31; 32; 133; 160; 5760] ++ ((λ n, 8192 + N.of_nat n) <$> seq 0 11)
   ++ [8232; 8233; 8239; 8287; 12288])%N.
Definition py_strip (s : pystr) : pystr := strip unicode_ws s.

(** [str.isspace] code points. *)
Definition is_space (c : N) : bool :=
  (((9 <=? c) && (c <=? 13)) || ((28 <=? c) && (c <=? 32)) || (c =? 133) || (c =? 160)
   || (c =? 5760) || ((8192 <=? c) && (c <=? 8202)) || (c =? 8232) || (c =? 8233)
   || (c =? 8239) || (c =? 8287) || (c =? 12288))%N.

(** [_PyUnicode_TransformDecimalAndSpaceToASCII]. *)
Definition to_ascii_digit `{UnicodeDecimal} (c : N) : N :=
  if (c <? 128)%N then c
  else if is_space c then 32%N
  else match decimal_value c with Some d => (48 + d)%N | None => 63%N end.

Definition hex_value (c : N) : option N :=
  (if (48 <=? c) && (c <=? 57) then Some (c - 48)
  else if (97 <=? c) && (c <=? 102) then Some (c - 87)
  else if (65 <=? c) && (c <=? 70) then Some (c - 55)
  else None)%N.

(** The digits of [int(s, 16)]; [us] says an underscore may not come next. *)
Fixpoint hex_run (us : bool) (acc : N) (s : pystr) : option (N * pystr) :=
  match s with
  | [] => if us then None else Some (acc, [])
  | c :: t =>
      if (c =? 95)%N then if us then None else hex_run true acc t
      else match hex_value c with
      | Some d => hex_run false (acc * 16 + d)%N t
      | None => if us then None else Some (acc, s)
      end
  end.

Definition ascii_ws : pystr := [9; 10; 11; 12; 13; 32]%N.

(** [int(s, 16)] of text without a minus sign. *)
Definition int_base16 `{UnicodeDecimal} (s : pystr) : option N :=
  let s := lstrip ascii_ws (to_ascii_digit <$> s) in
  let s := match s with c :: t => if (c =? 43)%N then t else s | [] => s end in
  let s := match s with
    | z :: x :: t =>
        if (z =? 48)%N && ((x =? 120)%N || (x =? 88)%N)
        then match t with c :: t' => if (c =? 95)%N then t' else t | [] => t end
        else s
    | _ => s
    end in
  '(n, rest) ← hex_run true 0 s;
  match lstrip ascii_ws rest with [] => Some n | _ => None end.

Definition uuid_of_str `{UnicodeDecimal} (s : pystr) : option uuid :=
  let hex := remove_all (lit "uuid:") 0 (remove_all (lit "urn:") 0 s) in
  let hex := base.filter (λ c, c ≠ 45%N) (strip (lit "{}") hex) in
  if decide (length hex = 32%nat) then int_base16 hex else None.

(** ** Round trip *)

(** Lower-case hexadecimal digits, and those with the hyphens of [str(u)]. *)
Definition hexc (c : N) : Prop := (48 ≤ c ≤ 57 ∨ 97 ≤ c ≤ 102)%N.
Definition uuidc (c : N) : Prop := hexc c ∨ c = 45%N.

Lemma hex_digit_hexc n : (n < 16)%N → hexc (hex_digit n).
Proof. intros. unfold hexc, hex_digit. destruct (N.ltb_spec n 10); lia. Qed.

Lemma hex_value_digit n : (n < 16)%N → hex_value (hex_digit n) = Some n.
Proof.
  intros Hn. unfold hex_digit, hex_value. destruct (N.ltb_spec n 10).
  - rewrite (proj2 (N.leb_le _ _)), (proj2 (N.leb_le _ _)) by lia. simpl. f_equal. lia.
  - rewrite (proj2 (N.leb_gt (87 + n) 57)) by lia. rewrite andb_false_r.
    rewrite (proj2 (N.leb_le _ _)), (proj2 (N.leb_le _ _)) by lia. simpl. f_equal. lia.
Qed.

Lemma length_to_hex k n : length (to_hex k n) = k.
Proof. revert n. induction k as [|k IH]; intros n; [done|]. simpl. rewrite length_app, IH. simpl. lia. Qed.

Lemma to_hex_hexc k n : Forall hexc (to_hex k n).
Proof.
  revert n. induction k as [|k IH]; intros n; simpl; [done|].
  apply Forall_app. split; [apply IH|]. apply Forall_singleton, hex_digit_hexc, N.mod_lt. lia.
Qed.

Lemma hex_run_app us acc s t m :
  Forall hexc s → hex_run us acc s = Some (m, []) → hex_run us acc (s ++ t) = hex_run (if s is [] then us else false) m t.
Proof.
  revert us acc. induction s as [|c s IH]; intros us acc Hs; simpl.
  - destruct us; [done|]. by intros [= ->].
  - inversion_clear Hs as [|? ? Hc Hs']. replace (c =? 95)%N with false
      by (symmetry; apply N.eqb_neq; unfold hexc in Hc; lia).
    destruct (hex_value c) as [d|]; [|destruct us; done]. intros Hrun.
    rewrite (IH _ _ Hs' Hrun). by destruct s.
Qed.

Lemma hex_run_to_hex k n : (n < 16 ^ N.of_nat (S k))%N →
  hex_run true 0 (to_hex (S k) n) = Some (n, []).
Proof.
  revert n. induction k as [|k IH]; intros n Hn.
  - simpl in *. rewrite hex_value_digit by (apply N.mod_lt; lia).
    replace (hex_digit (n mod 16) =? 95)%N with false.
    + rewrite N.mod_small by lia. done.
    + symmetry. apply N.eqb_neq. pose proof (hex_digit_hexc (n mod 16)). unfold hexc in *.
      pose proof (N.mod_lt n 16). lia.
  - change (to_hex (S (S k)) n) with (to_hex (S k) (n / 16) ++ [hex_digit (n mod 16)]).
    assert (n / 16 < 16 ^ N.of_nat (S k))%N as Hd.
    { apply N.Div0.div_lt_upper_bound. rewrite <- N.pow_succ_r'. by rewrite <- Nat2N.inj_succ. }
    rewrite (hex_run_app _ _ _ _ (n / 16)%N (to_hex_hexc _ _) (IH _ Hd)).
    pose proof (length_to_hex (S k) (n / 16)). destruct (to_hex (S k) (n / 16)); [done|].
    simpl. rewrite hex_value_digit by (apply N.mod_lt; lia).
    pose proof (hex_digit_hexc (n mod 16)). pose proof (N.mod_lt n 16).
    replace (hex_digit (n mod 16) =? 95)%N with false
      by (symmetry; apply N.eqb_neq; unfold hexc in *; lia).
    do 2 f_equal. pose proof (N.div_mod' n 16). lia.
Qed.

Lemma remove_all_none p x s : x ∉ s → remove_all (x :: p) 0 s = s.
Proof.
  induction s as [|c s IH]; [done|]. intros Hx.
  apply not_elem_of_cons in Hx as [Hc Hs]. cbn [remove_all starts_with].
  rewrite (proj2 (N.eqb_neq x c)) by done. simpl. by rewrite IH.
Qed.

Lemma lstrip_none cs s : Forall (λ c, c ∉ cs) s → lstrip cs s = s.
Proof. destruct 1 as [|c s Hc]; simpl; [done|]. by rewrite bool_decide_eq_false_2. Qed.

Lemma strip_none cs s : Forall (λ c, c ∉ cs) s → strip cs s = s.
Proof.
  intros Hs. unfold strip. rewrite (lstrip_none cs s Hs), lstrip_none, reverse_involutive; [done|].
  by rewrite Forall_reverse.
Qed.

Lemma str_of_uuid_chars u : Forall uuidc (str_of_uuid u).
Proof.
  assert (Forall uuidc (to_hex 32 u)) as Hf
    by (eapply Forall_impl; [apply to_hex_hexc|by left]).
  unfold str_of_uuid. set (h := to_hex 32 u) in *.
  repeat (apply Forall_app; split; [auto using Forall_take, Forall_drop|];
    apply Forall_cons; split; [by right|]). by apply Forall_drop.
Qed.

Lemma filter_hyphens l : Forall hexc l → base.filter (λ c, c ≠ 45%N) l = l.
Proof.
  induction 1 as [|c l Hc Hl IH]; [done|]. rewrite filter_cons_True, IH; [done|].
  unfold hexc in Hc. lia.
Qed.

Lemma filter_str_of_uuid u : base.filter (λ c, c ≠ 45%N) (str_of_uuid u) = to_hex 32 u.
Proof.
  unfold str_of_uuid. pose proof (to_hex_hexc 32 u) as Hh.
  set (h := to_hex 32 u) in *. cbv zeta.
  rewrite !filter_app, !filter_cons_False, !filter_app, !filter_cons_False, !filter_app,
    !filter_cons_False, !filter_app, !filter_cons_False by (intros []; reflexivity).
  rewrite !filter_hyphens by auto using Forall_take, Forall_drop.
  reflexivity.
Qed.

Lemma uuid_of_str_of_uuid `{UnicodeDecimal} u :
  (u < 2 ^ 128)%N → uuid_of_str (str_of_uuid u) = Some u.
Proof.
  intros Hu. unfold uuid_of_str. pose proof (str_of_uuid_chars u) as Hc.
  assert (∀ x, ¬ uuidc x → x ∉ str_of_uuid u) as Hni.
  { intros x Hx Hin. by eapply Forall_forall in Hc. }
  assert (117%N ∉ str_of_uuid u) as Hu' by (apply Hni; unfold uuidc, hexc; lia).
  rewrite (remove_all_none (lit "rn:") 117%N _ Hu' : remove_all (lit "urn:") _ _ = _).
  rewrite (remove_all_none (lit "uid:") 117%N _ Hu' : remove_all (lit "uuid:") _ _ = _).
  rewrite strip_none; last first.
  { eapply Forall_impl; [exact Hc|]. intros c Hcc Hin.
    change (lit "{}") with [123%N; 125%N] in Hin.
    repeat apply elem_of_cons in Hin as [->|Hin]; [unfold uuidc, hexc in Hcc; lia..|].
    by apply not_elem_of_nil in Hin. }
  rewrite filter_str_of_uuid, length_to_hex. rewrite decide_True by done.
  unfold int_base16. pose proof (to_hex_hexc 32 u) as Hh.
  assert (to_ascii_digit <$> to_hex 32 u = to_hex 32 u) as ->.
  { rewrite <- (list_fmap_id (to_hex 32 u)) at 2. apply list_fmap_ext.
    intros i c Hi. eapply Forall_lookup_1 in Hh; [|exact Hi]. unfold to_ascii_digit.
    rewrite (proj2 (N.ltb_lt _ _)); [done|]. unfold hexc in Hh. lia. }
  rewrite lstrip_none; last first.
  { eapply Forall_impl; [exact Hh|]. intros c Hcc Hin. unfold ascii_ws in Hin.
    repeat apply elem_of_cons in Hin as [->|Hin]; [unfold hexc in Hcc; lia..|].
    by apply not_elem_of_nil in Hin. }
  assert (hex_run true 0 (to_hex 32 u) = Some (u, [])) as Hrun
    by (apply (hex_run_to_hex 31); exact Hu).
  destruct (to_hex 32 u) as [|c l]; [done|]. inversion_clear Hh as [|? ? Hc0 Hl].
  rewrite (proj2 (N.eqb_neq c 43)) by (unfold hexc in Hc0; lia).
  assert (match l with [] => c :: l | x :: t =>
    if (c =? 48)%N && ((x =? 120)%N || (x =? 88)%N)
    then match t with c' :: t' => if (c' =? 95)%N then t' else t | [] => t end else c :: l
    end = c :: l) as ->.
  { destruct l as [|x l]; [done|]. inversion_clear Hl as [|? ? Hx _]. unfold hexc in Hx.
    by rewrite (proj2 (N.eqb_neq x 120)), (proj2 (N.eqb_neq x 88)), andb_false_r by lia. }
  by rewrite Hrun.
Qed.

Lemma to_hex_mod k n m : (n mod 16 ^ N.of_nat k = m mod 16 ^ N.of_nat k)%N → to_hex k n = to_hex k m.
Proof.
  revert n m. induction k as [|k IH]; intros n m; [done|].
  rewrite Nat2N.inj_succ, N.pow_succ_r', !N.Div0.mod_mul_r. intros E. cbn [to_hex].
  pose proof (N.mod_lt n 16 ltac:(done)) as Hn. pose proof (N.mod_lt m 16 ltac:(done)) as Hm.
  assert (Hq : ∀ a b c d : N, (a < 16 → b < 16 → a + 16 * c = b + 16 * d → a = b ∧ c = d)%N) by lia.
  destruct (Hq _ _ _ _ Hn Hm E) as [E1 E2]. by rewrite (IH _ _ E2), E1.
Qed.
(** The text of an identifier is always the text of the identifier it reads back to. *)
Lemma str_of_uuid_parses `{UnicodeDecimal} u : ∃ u', uuid_of_str (str_of_uuid u) = Some u' ∧ str_of_uuid u' = str_of_uuid u.
Proof.
  assert (str_of_uuid (u mod 2 ^ 128) = str_of_uuid u) as E.
  { unfold str_of_uuid. rewrite (to_hex_mod 32 (u mod 2 ^ 128) u); [done|].
    change (16 ^ N.of_nat 32)%N with (2 ^ 128)%N. by rewrite N.Div0.mod_mod. }
  exists (u mod 2 ^ 128)%N. split; [|exact E]. rewrite <- E. apply uuid_of_str_of_uuid. by apply N.mod_lt.
Qed.

Lemma length_str_of_uuid u : length (str_of_uuid u) = 36%nat.
Proof.
  unfold str_of_uuid. pose proof (length_to_hex 32 u). cbv zeta.
  repeat (rewrite length_app || rewrite length_take || rewrite length_drop || cbn [length]). lia.
Qed.

#[global] Arguments str_of_uuid : simpl never.
#[global] Arguments uuid_of_str : simpl never.

Lemma str_of_uuid_inj u u' : (u < 2 ^ 128)%N → (u' < 2 ^ 128)%N → str_of_uuid u = str_of_uuid u' → u = u'.
Proof.
  intros Hu Hu' Heq%(f_equal (@uuid_of_str (λ _, None))). rewrite !uuid_of_str_of_uuid in Heq by done. congruence.
Qed.
