(* ===== verification/PyTime.v ===== *)
(** The parts of [datetime] the code relies on: the proleptic Gregorian calendar,
    the range of [datetime], [isoformat()] on UTC instants and [fromisoformat].
    Main result: [fromisoformat] inverts [isoformat]. *)

From S2P Require Import Prelude PyVal.

(** ** Calendar *)

(** Python's [_is_leap], [_days_before_year] and [_ymd2ord]; ordinals count days
    from 1 January of year 1, which is ordinal 1. *)
Definition is_leap (y : Z) : bool := (y mod 4 =? 0) && (negb (y mod 100 =? 0) || (y mod 400 =? 0)).
Definition days_before_year (year : Z) : Z :=
  let y := year - 1 in y * 365 + y / 4 - y / 100 + y / 400.
Definition days_in_month (leap : bool) (m : nat) : Z :=
  nth m [0; 31; if leap then 29 else 28; 31; 30; 31; 30; 31; 31; 30; 31; 30; 31] 0.
Fixpoint days_before_month (leap : bool) (m : nat) : Z :=
  match m with
  | O | S O => 0
  | S (S _ as p) => days_before_month leap p + days_in_month leap p
  end.
Definition ymd2ord (y : Z) (m : nat) (d : Z) : Z :=
  days_before_year y + days_before_month (is_leap y) m + d.

(** The month and day of a zero-based day of the year. *)
Fixpoint month_search (leap : bool) (fuel m : nat) (n : Z) : nat * Z :=
  match fuel with
  | O => (m, n + 1)
  | S fuel => if n <? days_in_month leap m then (m, n + 1)
              else month_search leap fuel (S m) (n - days_in_month leap m)
  end.
(** Python's [_ord2ymd]. *)
Definition ord2ymd (ordinal : Z) : Z * nat * Z :=
  let n := ordinal - 1 in
  let n400 := n / 146097 in let n := n mod 146097 in
  let n100 := n / 36524 in let n := n mod 36524 in
  let n4 := n / 1461 in let n := n mod 1461 in
  let n1 := n / 365 in let n := n mod 365 in
  let year := n400 * 400 + 1 + n100 * 100 + n4 * 4 + n1 in
  if (n1 =? 4) || (n100 =? 4) then (year - 1, 12%nat, 31)
  else let leap := (n1 =? 3) && (negb (n4 =? 24) || (n100 =? 3)) in
       let '(m, d) := month_search leap 12 1 n in (year, m, d).

(** ** Instants *)

(** [datetime.min] and [datetime.max] in UTC, in microseconds from the epoch. *)
Definition MIN_DATETIME : time := -62135596800000000.
Definition MAX_DATETIME : time := 253402300799999999.
Definition representable (t : time) : bool := (MIN_DATETIME <=? t) && (t <=? MAX_DATETIME).
Definition EPOCH_ORDINAL : Z := 719163.
Definition DAY : Z := 86400000000.

(** [n] in decimal, zero-padded to [k] digits. *)
Fixpoint pad (k : nat) (n : Z) : pystr :=
  match k with
  | O => []
  | S k => pad k (n / 10) ++ [Z.to_N (48 + n mod 10)]
  end.

(** [t.isoformat()] of an aware UTC [datetime]: microseconds only when not zero. *)
Definition isoformat (t : time) : pystr :=
  let '(y, m, d) := ord2ymd (t / DAY + EPOCH_ORDINAL) in
  let r := t mod DAY in
  let us := r mod 1000000 in
  let s := r / 1000000 in
  pad 4 y ++ lit "-" ++ pad 2 (Z.of_nat m) ++ lit "-" ++ pad 2 d ++ lit "T"
  ++ pad 2 (s / 3600) ++ lit ":" ++ pad 2 (s / 60 mod 60) ++ lit ":" ++ pad 2 (s mod 60)
  ++ (if us =? 0 then [] else lit "." ++ pad 6 us) ++ lit "+00:00".

(** ** Parsing *)

Definition is_dec (c : N) : bool := (48 <=? c)%N && (c <=? 57)%N.
(** [k] decimal digits at the front of [s]. *)
Fixpoint digits (k : nat) (acc : Z) (s : pystr) : option (Z * pystr) :=
  match k, s with
  | O, _ => Some (acc, s)
  | S k, c :: s => if is_dec c then digits k (acc * 10 + (Z.of_N c - 48)) s else None
  | S _, [] => None
  end.
Definition sep (c : N) (s : pystr) : option pystr :=
  match s with x :: s => if (x =? c)%N then Some s else None | [] => None end.

(** The forms of [fromisoformat] other than the one [isoformat] prints (other
    offsets, omitted or compact fields, week dates), a table of the interpreter. *)
Class IsoForms := other_iso : pystr → option time.

(** [YYYY-MM-DDTHH:MM:SS[.ffffff]+00:00]. *)
Definition parse_utc (s : pystr) : option time :=
  '(y, s) ← digits 4 0 s; s ← sep 45 s; '(m, s) ← digits 2 0 s; s ← sep 45 s;
  '(d, s) ← digits 2 0 s; s ← sep 84 s; '(hh, s) ← digits 2 0 s; s ← sep 58 s;
  '(mm, s) ← digits 2 0 s; s ← sep 58 s; '(ss, s) ← digits 2 0 s;
  '(us, s) ← match sep 46 s with Some s' => digits 6 0 s' | None => Some (0, s) end;
  if bool_decide (s = lit "+00:00")
     && (1 <=? y) && (1 <=? m) && (m <=? 12) && (1 <=? d)
     && (d <=? days_in_month (is_leap y) (Z.to_nat m))
     && (hh <? 24) && (mm <? 60) && (ss <? 60)
  then Some ((ymd2ord y (Z.to_nat m) d - EPOCH_ORDINAL) * DAY
             + ((hh * 60 + mm) * 60 + ss) * 1000000 + us)
  else None.

Definition fromisoformat `{IsoForms} (s : pystr) : option time :=
  match parse_utc s with Some t => Some t | None => other_iso s end.

(** ** Round trip *)

(** Within a year: the month search inverts [days_before_month]. *)
Definition month_ok (leap : bool) (n : Z) : bool :=
  let '(m, d) := month_search leap 12 1 n in
  (days_before_month leap m + d =? n + 1) && (1 <=? m)%nat && (m <=? 12)%nat
  && (1 <=? d) && (d <=? days_in_month leap m).

Lemma month_ok_all (leap : bool) (n : Z) : 0 ≤ n < (if leap then 366 else 365) → month_ok leap n = true.
Proof.
  intros Hn.
  assert (forallb (λ k, month_ok leap (Z.of_nat k)) (seq 0 (if leap then 366 else 365)%nat) = true) as Hall
    by (destruct leap; vm_compute; reflexivity).
  rewrite forallb_forall in Hall. rewrite <- (Z2Nat.id n) by lia. apply Hall, in_seq.
  destruct leap; lia.
Qed.

(** A year by its position in the 400-, 100- and 4-year cycles. *)
Section cycles.
Context (a b c e : Z) (Hb : 0 ≤ b ≤ 3) (Hc : 0 ≤ c ≤ 24) (He : 0 ≤ e ≤ 3).
#[local] Abbreviation year := (a * 400 + 1 + b * 100 + c * 4 + e).

Lemma days_before_cycle : days_before_year year = 146097 * a + 36524 * b + 1461 * c + 365 * e.
Proof using Hb Hc He.
unfold days_before_year.
replace (a * 400 + 1 + b * 100 + c * 4 + e - 1) with (a * 400 + b * 100 + c * 4 + e) by lia.
rewrite <- (Z.div_unique (a * 400 + b * 100 + c * 4 + e) 4 (a * 100 + b * 25 + c) e),
  <- (Z.div_unique (a * 400 + b * 100 + c * 4 + e) 100 (a * 4 + b) (c * 4 + e)),
  <- (Z.div_unique (a * 400 + b * 100 + c * 4 + e) 400 a (b * 100 + c * 4 + e)) by lia.
lia.
Qed.

Lemma is_leap_cycle : is_leap year = (e =? 3) && (negb (c =? 24) || (b =? 3)).
Proof using Hb Hc He.
unfold is_leap.
assert (((a * 400 + 1 + b * 100 + c * 4 + e) mod 4 =? 0) = (e =? 3)) as ->.
{ rewrite (Z.mod_eq _ 4) by lia. destruct (Z.eqb_spec e 3) as [->|].
  - apply Z.eqb_eq. rewrite <- Z.mod_eq by lia. symmetry.
    apply (Z.mod_unique _ 4 (a * 100 + b * 25 + c + 1)); lia.
  - apply Z.eqb_neq. rewrite <- Z.mod_eq by lia.
    rewrite <- (Z.mod_unique _ 4 (a * 100 + b * 25 + c) (1 + e)) by lia. lia. }
destruct (Z.eqb_spec e 3) as [->|]; [|done]. cbn [andb].
assert (((a * 400 + 1 + b * 100 + c * 4 + 3) mod 100 =? 0) = (c =? 24)) as ->.
{ destruct (Z.eqb_spec c 24) as [->|].
  - apply Z.eqb_eq. symmetry. apply (Z.mod_unique _ 100 (a * 4 + b + 1)); lia.
  - apply Z.eqb_neq. rewrite <- (Z.mod_unique _ 100 (a * 4 + b) (c * 4 + 4)) by lia. lia. }
destruct (Z.eqb_spec c 24) as [->|]; [|done]. cbn [negb orb].
destruct (Z.eqb_spec b 3) as [->|].
- apply Z.eqb_eq. symmetry. apply (Z.mod_unique _ 400 (a + 1)); lia.
- apply Z.eqb_neq. rewrite <- (Z.mod_unique _ 400 a (b * 100 + 100)) by lia. lia.
Qed.
End cycles.

Definition civil_ok (ordinal : Z) (r : Z * nat * Z) : Prop :=
  let '(y, m, d) := r in
  ymd2ord y m d = ordinal ∧ (1 ≤ m ≤ 12)%nat ∧ 1 ≤ d ≤ days_in_month (is_leap y) m ∧
  (1 ≤ ordinal ≤ 3652059 → 1 ≤ y ≤ 9999).

Lemma ord2ymd_ok ordinal : civil_ok ordinal (ord2ymd ordinal).
Proof.
  unfold ord2ymd.
  pose proof (Z.div_mod (ordinal - 1) 146097). pose proof (Z.mod_pos_bound (ordinal - 1) 146097).
  set (a := (ordinal - 1) / 146097) in *. set (n1 := (ordinal - 1) mod 146097) in *.
  pose proof (Z.div_mod n1 36524). pose proof (Z.mod_pos_bound n1 36524).
  set (b := n1 / 36524) in *. set (n2 := n1 mod 36524) in *.
  pose proof (Z.div_mod n2 1461). pose proof (Z.mod_pos_bound n2 1461).
  set (c := n2 / 1461) in *. set (n3 := n2 mod 1461) in *.
  pose proof (Z.div_mod n3 365). pose proof (Z.mod_pos_bound n3 365).
  set (e := n3 / 365) in *. set (n := n3 mod 365) in *.
  assert (0 ≤ b ≤ 4 ∧ (b = 4 → n2 = 0)) as [Hb Hb4] by lia.
  assert (0 ≤ c ≤ 24 ∧ (b ≤ 3 → c = 24 → b = 3 → n3 < 1461)) as [Hc _] by lia.
  assert (0 ≤ e ≤ 4 ∧ (e = 4 → n = 0)) as [He He4] by lia.
  clearbody a n1 b n2 c n3 e n.
  destruct ((e =? 4) || (b =? 4)) eqn:Elast.
  - cbn [civil_ok]. apply orb_prop in Elast as [Ee|Eb]; breflect; subst.
    + assert (b ≤ 3) by lia.
      replace (a * 400 + 1 + b * 100 + c * 4 + 4 - 1) with (a * 400 + 1 + b * 100 + c * 4 + 3) by lia.
      unfold ymd2ord. rewrite days_before_cycle, is_leap_cycle by lia.
      assert (c = 24 → b = 3) by lia.
      assert ((3 =? 3) && (negb (c =? 24) || (b =? 3)) = true) as ->.
      { destruct (Z.eqb_spec c 24) as [->|]; [|done]. rewrite (proj2 (Z.eqb_eq b 3)) by lia. done. }
      change (days_before_month true 12) with 335. change (days_in_month true 12) with 31. split_and!; lia.
    + assert (c = 0 ∧ e = 0 ∧ n = 0) as (-> & -> & ->) by lia.
      replace (a * 400 + 1 + 4 * 100 + 0 * 4 + 0 - 1) with (a * 400 + 1 + 3 * 100 + 24 * 4 + 3) by lia.
      unfold ymd2ord. rewrite days_before_cycle, is_leap_cycle by lia.
      change ((3 =? 3) && (negb (24 =? 24) || (3 =? 3))) with true.
      change (days_before_month true 12) with 335. change (days_in_month true 12) with 31. split_and!; lia.
  - breflect. assert (b ≤ 3 ∧ e ≤ 3) as [Hb3 He3] by lia.
    rewrite <- (is_leap_cycle a b c e) by lia. cbv zeta.
    set (year := a * 400 + 1 + b * 100 + c * 4 + e).
    assert (0 ≤ n < if is_leap year then 366 else 365) as Hn.
    { destruct (is_leap year); lia. }
    pose proof (month_ok_all _ _ Hn) as Hm. unfold month_ok in Hm.
    destruct (month_search (is_leap year) 12 1 n) as [m d]. breflect.
    cbn [civil_ok]. unfold ymd2ord.
    unfold year at 1. rewrite days_before_cycle by lia. split_and!; try lia.
Qed.

Lemma digits_app k j acc s rest n t :
  digits k acc s = Some (n, []) → digits j n rest = t → digits (k + j) acc (s ++ rest) = t.
Proof.
  revert acc s. induction k as [|k IH]; intros acc [|c s]; cbn; try done; [by intros [= ->]|].
  destruct (is_dec c); [|done]. apply IH.
Qed.

Lemma digits_front k acc s rest n :
  digits k acc s = Some (n, []) → digits k acc (s ++ rest) = Some (n, rest).
Proof. intros Hs. rewrite <- (Nat.add_0_r k). by eapply digits_app. Qed.

Lemma digits_pad k n acc : 0 ≤ n < 10 ^ Z.of_nat k → digits k acc (pad k n) = Some (acc * 10 ^ Z.of_nat k + n, []).
Proof.
  revert n acc. induction k as [|k IH]; intros n acc Hn.
  - cbn in *. do 2 f_equal. lia.
  - rewrite Nat2Z.inj_succ, Z.pow_succ_r in Hn |- * by lia.
    pose proof (Z.div_mod n 10). pose proof (Z.mod_pos_bound n 10).
    cbn [pad]. replace (S k) with (k + 1)%nat by lia. eapply digits_app.
    + apply IH. split; [apply Z.div_pos; lia|]. apply Z.div_lt_upper_bound; lia.
    + cbn. unfold is_dec. rewrite (proj2 (N.leb_le _ _)), (proj2 (N.leb_le _ _)) by lia. cbn.
      do 2 f_equal. rewrite Z2N.id by lia. lia.
Qed.

(** A zero-padded field is read back and leaves the rest of the text. *)
Lemma digits_field k n rest :
  0 ≤ n < 10 ^ Z.of_nat k → digits k 0 (pad k n ++ rest) = Some (n, rest).
Proof. intros Hn. apply digits_front. by rewrite digits_pad. Qed.

Lemma sep_eq c rest : sep c ([c] ++ rest) = Some rest.
Proof. cbn. by rewrite N.eqb_refl. Qed.

Lemma parse_utc_isoformat t : representable t = true → parse_utc (isoformat t) = Some t.
Proof.
  unfold representable, MIN_DATETIME, MAX_DATETIME. intros Ht. breflect.
  unfold isoformat. pose proof (ord2ymd_ok (t / DAY + EPOCH_ORDINAL)) as Hc.
  destruct (ord2ymd (t / DAY + EPOCH_ORDINAL)) as [[y m] d]. destruct Hc as (Hord & Hm & Hd & Hy).
  unfold DAY, EPOCH_ORDINAL in *.
  pose proof (Z.div_mod t 86400000000). pose proof (Z.mod_pos_bound t 86400000000).
  set (q := t / 86400000000) in *. set (r := t mod 86400000000) in *.
  assert (1 ≤ y ≤ 9999) as Hy' by (apply Hy; lia).
  pose proof (Z.div_mod r 1000000). pose proof (Z.mod_pos_bound r 1000000).
  set (s := r / 1000000) in *. set (us := r mod 1000000) in *.
  pose proof (Z.div_mod s 60). pose proof (Z.mod_pos_bound s 60).
  pose proof (Z.div_mod (s / 60) 60). pose proof (Z.mod_pos_bound (s / 60) 60).
  assert (s / 3600 = s / 60 / 60) as -> by (rewrite Z.div_div by lia; done).
  set (mi := s / 60) in *. set (ss := s mod 60) in *. set (h := mi / 60) in *.
  set (mm := mi mod 60) in *. clearbody q r s us mi ss h mm.
  assert (d ≤ 31) by (destruct (is_leap y); do 13 (destruct m as [|m]; [cbn in Hd; lia|]); lia).
  unfold parse_utc. change (lit "-") with [45%N]. change (lit "T") with [84%N].
  change (lit ":") with [58%N]. change (lit ".") with [46%N].
  do 5 (rewrite digits_field by (cbn; lia); unfold mbind at 1, option_bind at 1;
        rewrite sep_eq; unfold mbind at 1, option_bind at 1).
  rewrite digits_field by (cbn; lia). unfold mbind at 1, option_bind at 1.
  assert (∀ (k : Z * pystr → option time), option_bind _ _ k
    match sep 46 ((if us =? 0 then [] else [46%N] ++ pad 6 us) ++ lit "+00:00") with
    | Some s' => digits 6 0 s' | None => Some (0, (if us =? 0 then [] else [46%N] ++ pad 6 us) ++ lit "+00:00")
    end = k (us, lit "+00:00")) as Hus.
  { intros k. destruct (Z.eqb_spec us 0) as [->|]; [done|].
    rewrite <- app_assoc, sep_eq, digits_field by (cbn; lia). done. }
  unfold mbind. rewrite Hus. clear Hus. rewrite Nat2Z.id.
  rewrite bool_decide_eq_true_2 by done.
  repeat (match goal with
    | |- context [?x <=? ?z] => rewrite (proj2 (Z.leb_le x z)) by lia
    | |- context [?x <? ?z] => rewrite (proj2 (Z.ltb_lt x z)) by lia end).
  cbn [andb]. f_equal. rewrite Hord. unfold EPOCH_ORDINAL, DAY. lia.
Qed.

Lemma fromisoformat_isoformat `{IsoForms} t :
  representable t = true → fromisoformat (isoformat t) = Some t.
Proof. intros Ht. unfold fromisoformat. by rewrite parse_utc_isoformat. Qed.

Lemma isoformat_inj t t' :
  representable t = true → representable t' = true → isoformat t = isoformat t' → t = t'.
Proof. intros Ht Ht' Heq%(f_equal parse_utc). rewrite !parse_utc_isoformat in Heq by done. congruence. Qed.

(** What [isoformat] prints is ASCII: digits and [-], [T], [:], [.], [+]. *)
Definition isoc (c : N) : Prop := is_dec c = true ∨ c ∈ lit "-T:.+".

Lemma pad_isoc k n : Forall isoc (pad k n).
Proof.
  revert n. induction k as [|k IH]; intros n; cbn; [constructor|]. apply Forall_app. split; [apply IH|].
  apply Forall_singleton. left. pose proof (Z.mod_pos_bound n 10). unfold is_dec.
  rewrite (proj2 (N.leb_le _ _)), (proj2 (N.leb_le _ _)) by lia. done.
Qed.

Lemma isoformat_isoc t : Forall isoc (isoformat t).
Proof.
  unfold isoformat. destruct (ord2ymd _) as [[y m] d]. cbv zeta.
  assert (∀ s, forallb (λ c, is_dec c || bool_decide (c ∈ lit "-T:.+")) s = true → Forall isoc s) as Hl.
  { intros s Hs. apply Forall_forall. intros c Hc. rewrite forallb_forall in Hs.
    apply list_elem_of_In, Hs in Hc. apply orb_prop in Hc as [Hc|Hc]; [by left|right]. by apply bool_decide_eq_true in Hc. }
  repeat (first [apply pad_isoc|apply Hl; reflexivity|apply Forall_app; split]).
  case_match; [constructor|]. apply Forall_app. split; [by apply Hl|apply pad_isoc].
Qed.

Lemma length_pad k n : length (pad k n) = k.
Proof. revert n. induction k as [|k IH]; intros n; cbn; [done|]. rewrite length_app, IH. cbn. lia. Qed.

Lemma length_isoformat t : (25 ≤ length (isoformat t) ≤ 32)%nat.
Proof.
  unfold isoformat. destruct (ord2ymd _) as [[y m] d]. cbv zeta.
  rewrite !length_app, !length_pad. case_match; cbn [length lit map String.list_ascii_of_string]; [lia|].
  rewrite length_app, length_pad. cbn. lia.
Qed.

#[global] Arguments isoformat : simpl never.
#[global] Arguments fromisoformat : simpl never.
