(* ===== verification/Url.v ===== *)
(** HTTPS URL normalisation: the part of [urllib.parse] that
    src/apps/api/app/request_queue_protocol.py uses ([urlsplit], the properties
    of its result, [urlunsplit]) and its [_url].  The Unicode tables of the
    interpreter ([str.lower], NFKC) and [ipaddress.ip_address] are parameters. *)

From S2P Require Import Prelude PyVal PyUuid.

(** What [ipaddress.ip_address] recognises. *)
Inductive ip_kind := IPv4 | IPv6.

Class UrlTables := {
  py_lower : pystr → pystr;
  nfkc : pystr → pystr;
  ip_address : pystr → option ip_kind;
  (** Lower-casing creates no ASCII character but letters, and no white space. *)
  py_lower_ascii s c : c ∈ py_lower s → (c < 128)%N → c ∈ s ∨ (97 ≤ c ≤ 122)%N;
  py_lower_space s c : c ∈ py_lower s → is_space c = true → c ∈ s }.

(** ** [urlsplit] *)

(** [s.partition(c)]: what precedes the first [c], and what follows it. *)
Fixpoint partition (c : N) (s : pystr) : pystr * option pystr :=
  match s with
  | [] => ([], None)
  | x :: s =>
      if (x =? c)%N then ([], Some s)
      else let '(a, b) := partition c s in (x :: a, b)
  end.

(** [s.rpartition(c)]: what precedes the last [c] when there is one, and the rest. *)
Definition rpartition (c : N) (s : pystr) : option pystr * pystr :=
  let '(a, b) := partition c (reverse s) in (reverse <$> b, reverse a).

Fixpoint span_until (stop : pystr) (s : pystr) : pystr * pystr :=
  match s with
  | [] => ([], [])
  | x :: t =>
      if bool_decide (x ∈ stop) then ([], s)
      else let '(a, b) := span_until stop t in (x :: a, b)
  end.

Definition is_alpha (c : N) : bool := (((65 <=? c) && (c <=? 90)) || ((97 <=? c) && (c <=? 122)))%N.
Definition is_ascii_digit (c : N) : bool := ((48 <=? c) && (c <=? 57))%N.
Definition is_scheme_char (c : N) : bool :=
  is_alpha c || is_ascii_digit c || bool_decide (c ∈ lit "+-.").
Definition ascii_lower (c : N) : N := if ((65 <=? c) && (c <=? 90))%N then (c + 32)%N else c.

Record SplitResult := MkSplit {
  sr_scheme : pystr; sr_netloc : pystr; sr_path : pystr; sr_query : pystr; sr_fragment : pystr }.

Definition split_scheme (url : pystr) : pystr * pystr :=
  match url, partition 58 url with
  | c :: _, (s, Some rest) =>
      if is_alpha c && forallb is_scheme_char s then (ascii_lower <$> s, rest) else ([], url)
  | _, _ => ([], url)
  end.

(** [v[a-fA-F0-9]+\..+], the IPvFuture form, after its leading [v]. *)
Definition ip_future (s : pystr) : bool :=
  let '(ds, rest) := partition 46 s in
  negb (bool_decide (ds = [])) && forallb (λ c, bool_decide (is_Some (hex_value c))) ds
  && match rest with
     | Some t => negb (bool_decide (t = [])) && forallb (λ c, negb (c =? 10)%N) t
     | None => false
     end.

Definition check_bracketed_host `{UrlTables} (hostname : pystr) : bool :=
  match hostname with
  | c :: t => if (c =? 118)%N then ip_future t
              else match ip_address hostname with Some IPv6 => true | _ => false end
  | [] => match ip_address hostname with Some IPv6 => true | _ => false end
  end.

Definition check_bracketed_netloc `{UrlTables} (netloc : pystr) : bool :=
  let hostinfo := (rpartition 64 netloc).2 in
  match partition 91 hostinfo with
  | (before, Some bracketed) =>
      let '(hostname, port) := partition 93 bracketed in
      bool_decide (before = [])
      && match default [] port with [] => true | c :: _ => (c =? 58)%N end
      && check_bracketed_host hostname
  | (_, None) => check_bracketed_host (partition 58 hostinfo).1
  end.

(** [_checknetloc]: NFKC normalisation may not create a delimiter. *)
Definition checknetloc `{UrlTables} (netloc : pystr) : bool :=
  if forallb (λ c, c <? 128)%N netloc then true
  else
    let n := base.filter (λ c, c ∉ lit "@:#?") netloc in
    let n2 := nfkc n in
    bool_decide (n = n2) || forallb (λ c, negb (bool_decide (c ∈ lit "/?#@:"))) n2.

Definition c0_or_space (c : N) : bool := (c <=? 32)%N.
Fixpoint lstrip_c0 (s : pystr) : pystr :=
  match s with [] => [] | c :: t => if c0_or_space c then lstrip_c0 t else s end.

Definition urlsplit `{UrlTables} (url : pystr) : option SplitResult :=
  let url := base.filter (λ c, c ∉ [9; 13; 10]%N) (lstrip_c0 url) in
  let '(scheme, url) := split_scheme url in
  let '(netloc, url) :=
    if starts_with (lit "//") url then span_until (lit "/?#") (drop 2 url) else ([], url) in
  let open := bool_decide (91%N ∈ netloc) in
  let close := bool_decide (93%N ∈ netloc) in
  if negb (Bool.eqb open close) then None
  else if open && negb (check_bracketed_netloc netloc) then None
  else
    let '(url, fragment) := partition 35 url in
    let '(path, query) := partition 63 url in
    if checknetloc netloc
    then Some (MkSplit scheme netloc path (default [] query) (default [] fragment))
    else None.

(** [_hostinfo]: the host and the port text of an authority. *)
Definition hostinfo (netloc : pystr) : pystr * option pystr :=
  let hi := (rpartition 64 netloc).2 in
  let '(h, p) :=
    match partition 91 hi with
    | (_, Some bracketed) =>
        let '(h, after) := partition 93 bracketed in
        (h, default [] (partition 58 (default [] after)).2)
    | (_, None) => let '(h, p) := partition 58 hi in (h, default [] p)
    end in
  (h, if bool_decide (p = []) then None else Some p).

Definition hostname_of `{UrlTables} (netloc : pystr) : option pystr :=
  let h := (hostinfo netloc).1 in
  if bool_decide (h = []) then None
  else match partition 37 h with
  | (a, Some zone) => Some (py_lower a ++ 37%N :: zone)
  | (a, None) => Some (py_lower a)
  end.

Definition dec_value (s : pystr) : Z :=
  foldl (λ acc c, acc * 10 + (Z.of_N c - 48)) 0 s.

(** [parsed.port]; [None] when it raises. *)
Definition port_of (netloc : pystr) : option (option Z) :=
  match (hostinfo netloc).2 with
  | None => Some None
  | Some p =>
      if forallb is_ascii_digit p && (dec_value p <=? 65535)
      then Some (Some (dec_value p)) else None
  end.

Definition urlunsplit_https (netloc path query : pystr) : pystr :=
  lit "https:" ++ lit "//" ++ netloc ++ path
  ++ (if bool_decide (query = []) then [] else 63%N :: query).

(** ** [_url] of the queue protocol *)

Definition MAX_URL_LENGTH : Z := 2048.

Definition https_url `{UrlTables} (v : pystr) : option pystr :=
  parsed ← urlsplit v;
  hostname ← hostname_of (sr_netloc parsed);
  port ← port_of (sr_netloc parsed);
  if bool_decide (sr_scheme parsed = lit "https")
     && bool_decide (hostname ≠ [])
     && bool_decide ((rpartition 64 (sr_netloc parsed)).1 = None)
     && bool_decide (port ∈ [None; Some 443])
     && bool_decide (ip_address hostname = None)
     && forallb (λ c, negb (is_space c)) v
  then Some (urlunsplit_https (py_lower (sr_netloc parsed))
         (if bool_decide (sr_path parsed = []) then lit "/" else sr_path parsed)
         (sr_query parsed))
  else None.

Definition queue_url `{UrlTables} (value : pyval) : exn + pystr :=
  match value with
  | PStr v =>
      if (1 <=? Z.of_nat (length v)) && (Z.of_nat (length v) <=? MAX_URL_LENGTH) then
        match https_url v with
        | Some u => inr u
        | None => inl (ValueError
            "Queue URL must be an HTTPS hostname without credentials or IP literals.")
        end
      else inl (ValueError "Queue URL is outside the safe length limit.")
  | _ => inl (ValueError "Queue URL is outside the safe length limit.")
  end.

(** ** Lemmas *)

Lemma partition_spec c s a b : partition c s = (a, b) →
  c ∉ a ∧ s = a ++ (match b with Some t => c :: t | None => [] end).
Proof.
  revert a b. induction s as [|x s IH]; simpl; intros a b H.
  - simplify_eq. split; [apply not_elem_of_nil|done].
  - destruct (N.eqb_spec x c) as [->|Hx]; [simplify_eq; split; [apply not_elem_of_nil|done]|].
    destruct (partition c s) as [a' b'] eqn:E. simplify_eq.
    destruct (IH _ _ eq_refl) as [Ha ->]. split; [|done].
    apply not_elem_of_cons. done.
Qed.

Lemma partition_elem c s a b x : partition c s = (a, b) →
  x ∈ a ∨ x ∈ default [] b → x ∈ s.
Proof.
  intros [_ ->]%partition_spec Hx. destruct b; simpl in Hx; set_solver.
Qed.

Lemma rpartition_None c s : (rpartition c s).1 = None → c ∉ s.
Proof.
  unfold rpartition. destruct (partition c (reverse s)) as [a [b|]] eqn:E; [done|].
  intros _. apply partition_spec in E as [Ha E]. rewrite app_nil_r in E.
  by rewrite <- elem_of_reverse, E.
Qed.

Lemma span_until_spec stop s a b : span_until stop s = (a, b) →
  s = a ++ b ∧ (∀ x, x ∈ a → x ∉ stop) ∧ (match b with [] => True | c :: _ => c ∈ stop end).
Proof.
  revert a b. induction s as [|x s IH]; simpl; intros a b H.
  - simplify_eq. split_and!; [done|set_solver|done].
  - case_bool_decide; [simplify_eq; split_and!; [done|set_solver|done]|].
    destruct (span_until stop s) as [a' b'] eqn:E. simplify_eq.
    destruct (IH _ _ eq_refl) as (-> & Ha & Hb). split_and!; [done| |done]. set_solver.
Qed.

Lemma lstrip_c0_elem s x : x ∈ lstrip_c0 s → x ∈ s.
Proof. induction s as [|c s IH]; simpl; [done|]. destruct (c0_or_space c); set_solver. Qed.

Lemma split_scheme_elem u sc r x : split_scheme u = (sc, r) → x ∈ r → x ∈ u.
Proof.
  unfold split_scheme. destruct u as [|c u]; [by intros [= <- <-]|].
  destruct (partition 58 (c :: u)) as [s [t|]] eqn:E.
  - case_match; intros [= <- <-]; [|done]. intros. eapply partition_elem; [exact E|by right].
  - by intros [= <- <-].
Qed.

Lemma drop_elem {A} n (l : list A) x : x ∈ drop n l → x ∈ l.
Proof. intros. rewrite <- (take_drop n l). set_solver. Qed.

(** The parts of a split URL come from the text and keep clear of the
    delimiters that end them. *)
Lemma urlsplit_spec `{UrlTables} v r : urlsplit v = Some r →
  (∀ x, x ∈ sr_netloc r ∨ x ∈ sr_path r ∨ x ∈ sr_query r → x ∈ v) ∧
  (∀ x, x ∈ sr_netloc r → x ∉ lit "/?#") ∧
  (63%N ∉ sr_path r) ∧ (35%N ∉ sr_path r) ∧ (35%N ∉ sr_query r) ∧
  (sr_netloc r ≠ [] → match sr_path r with [] => True | c :: _ => c = 47%N end).
Proof.
  unfold urlsplit. set (u := base.filter _ (lstrip_c0 v)).
  assert (∀ x, x ∈ u → x ∈ v) as Hu.
  { intros x [_ Hx]%list_elem_of_filter. by apply lstrip_c0_elem. }
  destruct (split_scheme u) as [sc r1] eqn:E1.
  destruct (if starts_with (lit "//") r1 then _ else _) as [nl r2] eqn:E2.
  assert ((∀ x, x ∈ nl ∨ x ∈ r2 → x ∈ r1) ∧ (∀ x, x ∈ nl → x ∉ lit "/?#") ∧
    (nl ≠ [] → match r2 with [] => True | c :: _ => c ∈ lit "/?#" end)) as (Hr & Hnl & Hr2).
  { destruct (starts_with _ r1).
    - apply span_until_spec in E2 as (E2 & Ha & Hb). split_and!; [|done|done].
      intros x Hx. apply (drop_elem 2). rewrite E2. set_solver.
    - simplify_eq. split_and!; [set_solver..|done]. }
  destruct (negb (eqb _ _)); [done|]. destruct (_ && negb (check_bracketed_netloc nl)); [done|].
  destruct (partition 35 r2) as [r3 fr] eqn:E3. destruct (partition 63 r3) as [pa q] eqn:E4.
  destruct (checknetloc nl); [|done]. intros [= <-]; simpl.
  assert (∀ x, x ∈ r1 → x ∈ v) as Hr1 by (intros; eapply Hu, split_scheme_elem; eauto).
  assert (∀ x, x ∈ r3 → x ∈ r2) as H3 by (intros; eapply partition_elem; [exact E3|by left]).
  assert (∀ x, x ∈ pa ∨ x ∈ default [] q → x ∈ r3) as H4
    by (intros; eapply partition_elem; [exact E4|done]).
  pose proof (partition_spec _ _ _ _ E3) as [Hno Er2].
  pose proof (partition_spec _ _ _ _ E4) as [Hno4 Er3].
  split_and!; [naive_solver|done|done|naive_solver|naive_solver|].
  intros Hne. specialize (Hr2 Hne). destruct pa as [|c pa]; [done|].
  rewrite Er2, Er3 in Hr2. simpl in Hr2.
  assert (c ≠ 35%N ∧ c ≠ 63%N) as [??].
  { split; intros ->; [apply Hno, H4|apply Hno4]; set_solver. }
  change (lit "/?#") with [47%N; 63%N; 35%N] in Hr2. set_solver.
Qed.

(** The URL that is stored: an [https] URL whose authority holds no credentials,
    with an absolute path, no fragment and no white space, which fits the
    parts of the text it was made from. *)
Lemma queue_url_shape `{UrlTables} value u : queue_url value = inr u →
  ∃ v netloc path query,
    value = PStr v ∧ 1 ≤ Z.of_nat (length v) ≤ MAX_URL_LENGTH ∧
    u = lit "https://" ++ netloc ++ path ++ query ∧
    (∀ c, c ∈ lit "/?#@" → c ∉ netloc) ∧
    (∃ rest, path = 47%N :: rest) ∧ 63%N ∉ path ∧ 35%N ∉ path ∧ 35%N ∉ query ∧
    (query = [] ∨ ∃ q, query = 63%N :: q) ∧
    (∀ c, c ∈ netloc ++ path ++ query → is_space c = false).
Proof.
  unfold queue_url. destruct value as [| | | |v| | |]; try done.
  destruct (_ && _) eqn:Hlen; [|done]. destruct (https_url v) as [u'|] eqn:Hu; [|done].
  intros [= ->]. unfold https_url in Hu.
  apply bind_Some in Hu as (r & Hr & Hu). apply bind_Some in Hu as (h & Hh & Hu).
  apply bind_Some in Hu as (po & Hpo & Hu).
  destruct (_ && _) eqn:Hg in Hu; [|done]. breflect.
  match goal with H : forallb _ v = true |- _ => rename H into Hsp end.
  match goal with H : (rpartition _ _).1 = None |- _ => rename H into Hat end.
  apply rpartition_None in Hat. rewrite forallb_forall in Hsp.
  assert (∀ x, x ∈ v → is_space x = false) as Hns.
  { intros x Hx%list_elem_of_In%Hsp. by apply negb_true_iff. }
  apply urlsplit_spec in Hr as (Hin & Hdel & H63 & H35p & H35q & Hpath).
  injection Hu as <-.
  exists v, (py_lower (sr_netloc r)),
    (if bool_decide (sr_path r = []) then lit "/" else sr_path r),
    (if bool_decide (sr_query r = []) then [] else 63%N :: sr_query r).
  split_and!; [done|lia|lia|done|..].
  - intros c Hc Hlow. apply py_lower_ascii in Hlow.
    + change (lit "/?#@") with [47%N; 63%N; 35%N; 64%N] in Hc.
      change (lit "/?#") with [47%N; 63%N; 35%N] in Hdel. destruct Hlow as [Hlow|Hlow].
      * apply elem_of_cons in Hc as [->|Hc]; [by apply (Hdel 47%N); [|set_solver]|].
        apply elem_of_cons in Hc as [->|Hc]; [by apply (Hdel 63%N); [|set_solver]|].
        apply elem_of_cons in Hc as [->|Hc]; [by apply (Hdel 35%N); [|set_solver]|].
        by apply list_elem_of_singleton in Hc as ->.
      * repeat apply elem_of_cons in Hc as [->|Hc]; [lia..|]. by apply not_elem_of_nil in Hc.
    + change (lit "/?#@") with [47%N; 63%N; 35%N; 64%N] in Hc.
      repeat apply elem_of_cons in Hc as [->|Hc]; [lia..|]. by apply not_elem_of_nil in Hc.
  - case_bool_decide; [by exists []|]. destruct (sr_path r) as [|c pa]; [done|].
    exists pa. f_equal. apply Hpath. intros Hnil. unfold hostname_of in Hh. by rewrite Hnil in Hh.
  - case_bool_decide; [by vm_compute; set_solver|done].
  - case_bool_decide; [by vm_compute; set_solver|done].
  - case_bool_decide; set_solver.
  - case_bool_decide; [by left|right; eauto].
  - intros c. rewrite !elem_of_app. intros [Hc|[Hc|Hc]].
    + destruct (is_space c) eqn:Hs; [|done]. rewrite <- Hs. apply Hns, Hin. left.
      by eapply py_lower_space.
    + case_bool_decide; [|auto]. change (lit "/") with [47%N] in Hc.
      by apply list_elem_of_singleton in Hc as ->.
    + case_bool_decide; [set_solver|].
      apply elem_of_cons in Hc as [->|Hc]; [done|auto].
Qed.

(** The tables restricted to ASCII letters, with a given reader of addresses: the witnesses
    run the model with them. *)
Definition ascii_url_tables (ip : pystr → option ip_kind) : UrlTables.
Proof.
  refine {| py_lower := fmap ascii_lower; nfkc := id; ip_address := ip |}.
  - intros s c (x & -> & Hx)%list_elem_of_fmap Hc. unfold ascii_lower in *.
    destruct ((65 <=? x) && (x <=? 90))%N eqn:E; [right|by left].
    apply andb_prop in E as [?%N.leb_le ?%N.leb_le]. lia.
  - intros s c (x & -> & Hx)%list_elem_of_fmap Hc. unfold ascii_lower in *.
    destruct ((65 <=? x) && (x <=? 90))%N eqn:E; [|done].
    apply andb_prop in E as [?%N.leb_le ?%N.leb_le]. unfold is_space in Hc.
    repeat (apply orb_prop in Hc as [Hc|Hc]); rewrite ?andb_true_iff, ?N.leb_le, ?N.eqb_eq in Hc; lia.
Defined.
