(* ===== verification/Recovery.v ===== *)
(** The server-owned retry policy for execution recovery
    (src/apps/api/app/execution_recovery.py): execution deadlines, the clamping
    of lease expiries and the exponential retry delay. *)

From S2P Require Import Prelude.

Definition execution_deadline_at (claimed_at : time) (timeout_seconds : Z) : exn + time :=
  if timeout_seconds <? 1 then inl (ValueError "Execution timeout must be positive.")
  else inr (claimed_at + seconds timeout_seconds).

Definition clamp_lease_expiry (proposed claimed_at : time) (max_lifetime_seconds : Z)
    (deadline_at : time) : exn + time :=
  if max_lifetime_seconds <? 1 then
    inl (ValueError "Lease maximum lifetime must be positive.")
  else if deadline_at <=? claimed_at then
    inl (ValueError "Execution deadline must follow lease claim time.")
  else
    let hard_limit := claimed_at + seconds max_lifetime_seconds in
    inr (Z.min (Z.min proposed hard_limit) deadline_at).

Definition retry_delay_seconds (attempt base_seconds max_seconds : Z) : exn + Z :=
  if attempt <? 1 then inl (ValueError "Execution attempts start at one.")
  else if (base_seconds <? 1) || (max_seconds <? base_seconds) then
    inl (ValueError "Execution retry bounds are invalid.")
  else
    let delay := Z.shiftl base_seconds (attempt - 1) in
    inr (Z.min max_seconds delay).

Definition retry_available_at (now : time) (attempt base_seconds max_seconds : Z) : exn + time :=
  match retry_delay_seconds attempt base_seconds max_seconds with
  | inl e => inl e
  | inr d => inr (now + seconds d)
  end.

(** The terminal outcomes a worker reports. *)
Inductive outcome := SUCCEEDED | FAILED | TIMED_OUT | ABORTED | CANCELLED.
#[export] Instance outcome_eq_dec : EqDecision outcome.
Proof. solve_decision. Defined.

Definition execution_retry_allowed (requested : bool) (oc : outcome)
    (attempt max_attempts : Z) (source_available : bool) : bool :=
  requested && source_available
  && bool_decide (oc ∈ [FAILED; TIMED_OUT])
  && (1 <=? attempt) && (attempt <? max_attempts).

(** ** Lemmas *)

Lemma retry_delay_inr attempt base max d :
  retry_delay_seconds attempt base max = inr d →
  1 ≤ attempt ∧ 1 ≤ base ≤ max ∧ d = Z.min max (base * 2 ^ (attempt - 1)).
Proof.
  unfold retry_delay_seconds. intros H.
  destruct (attempt <? 1) eqn:?; [done|].
  destruct ((base <? 1) || (max <? base)) eqn:?; [done|].
  breflect. simplify_eq. rewrite Z.shiftl_mul_pow2 by lia. lia.
Qed.

Lemma retry_delay_ok attempt base max :
  1 ≤ attempt → 1 ≤ base ≤ max →
  retry_delay_seconds attempt base max = inr (Z.min max (base * 2 ^ (attempt - 1))).
Proof.
  intros Ha Hb. unfold retry_delay_seconds.
  rewrite (proj2 (Z.ltb_ge _ _)), (proj2 (Z.ltb_ge _ _)), (proj2 (Z.ltb_ge _ _)) by lia.
  simpl. by rewrite Z.shiftl_mul_pow2 by lia.
Qed.

Lemma retry_delay_bounds attempt base max d :
  retry_delay_seconds attempt base max = inr d → base ≤ d ≤ max.
Proof.
  intros (Ha & Hb & ->)%retry_delay_inr.
  assert (1 ≤ 2 ^ (attempt - 1)) by (apply (Z.pow_le_mono_r 2 0); lia). nia.
Qed.

Lemma clamp_inr p c m d e :
  clamp_lease_expiry p c m d = inr e →
  1 ≤ m ∧ c < d ∧ e = Z.min p (Z.min (c + seconds m) d).
Proof.
  unfold clamp_lease_expiry. intros H.
  destruct (m <? 1) eqn:?; [done|]. destruct (d <=? c) eqn:?; [done|].
  breflect. simplify_eq. lia.
Qed.

(** ** Properties *)

(** The retry delay is total on valid bounds, doubles with each attempt
    until it reaches the cap, never leaves [base, max], and once capped stays
    capped; with invalid bounds it raises. *)
Theorem retry_delay_exponential (attempt base max : Z) :
  (∃ d, retry_delay_seconds attempt base max = inr d ∧ base ≤ d ≤ max ∧
        (attempt = 1 → d = base) ∧
        retry_delay_seconds (attempt + 1) base max = inr (Z.min max (2 * d)))
  ↔ (1 ≤ attempt ∧ 1 ≤ base ≤ max).
Proof.
  split.
  - intros (d & H & _). by apply retry_delay_inr in H as (? & ? & _).
  - intros [Ha Hb]. pose proof (retry_delay_ok _ _ _ Ha Hb) as H.
    eexists. split; [exact H|]. split; [by eapply retry_delay_bounds|]. split.
    + intros ->. rewrite Z.mul_1_r. lia.
    + rewrite retry_delay_ok by lia. f_equal.
      replace (attempt + 1 - 1) with (Z.succ (attempt - 1)) by lia.
      rewrite Z.pow_succ_r by lia. lia.
Qed.

(** The expiry given to a lease is the greatest time that exceeds neither
    the proposal, nor the maximum lifetime, nor the execution deadline; it lies
    after the claim whenever the proposal does, and clamping is idempotent. *)
Theorem clamp_lease_expiry_greatest (p c m d e : Z)
    (H : clamp_lease_expiry p c m d = inr e) :
  e ≤ p ∧ e ≤ c + seconds m ∧ e ≤ d ∧
  (∀ t, t ≤ p → t ≤ c + seconds m → t ≤ d → t ≤ e) ∧
  (c < p → c < e) ∧
  clamp_lease_expiry e c m d = inr e.
Proof.
  pose proof H as (Hm & Hd & He)%clamp_inr.
  assert (0 < seconds m) by (unfold seconds; lia).
  repeat split; try lia.
  unfold clamp_lease_expiry.
  rewrite (proj2 (Z.ltb_ge _ _)), (proj2 (Z.leb_gt _ _)) by lia. cbv zeta. f_equal. lia.
Qed.

Lemma clamp_lease_expiry_greatest_witness :
  clamp_lease_expiry (seconds 90) (seconds 10) 3600 (seconds 70) = inr (seconds 70)
  ∧ seconds 70 ≤ seconds 90.
Proof.
  assert (H : clamp_lease_expiry (seconds 90) (seconds 10) 3600 (seconds 70) = inr (seconds 70))
    by reflexivity.
  split; [exact H|].
  exact (proj1 (clamp_lease_expiry_greatest _ _ _ _ _ H)).
Defined.
