(* ===== verification/QueueProtocol.v ===== *)
(** The enqueue envelope of a request queue
    (src/apps/api/app/request_queue_protocol.py): validation, URL normalisation
    and the two digests the queue is keyed by. *)

From S2P Require Import Prelude PyVal Json PyUuid Url.

(** [hashlib.sha256(b).hexdigest()]. *)
Class Sha256 := sha256_hex : list N → pystr.

Definition SCHEMA_VERSION : string := "rdc.queue-enqueue/v1".
Definition MAX_ENVELOPE_BYTES : Z := 98304.
Definition MAX_USER_DATA_BYTES : Z := 65536.
Definition MAX_DEPTH : Z := 32.

(** [^[A-Za-z0-9][A-Za-z0-9._:-]{0,n}$] under [fullmatch]. *)
Definition is_alnum (c : N) : bool := is_alpha c || is_ascii_digit c.
Definition safe_key (n : nat) (s : pystr) : bool :=
  match s with
  | c :: t =>
      is_alnum c && bool_decide (length t ≤ n)%nat
      && forallb (λ c, is_alnum c || bool_decide (c ∈ lit "._:-")) t
  | [] => false
  end.

(** The dictionary [request] of a validated enqueue, field by field. *)
Record ValidatedQueueEnqueue := MkValidatedEnqueue {
  vq_idempotency_key : pystr;
  vq_url : pystr;
  vq_unique_key : option pystr;
  vq_user_data : pyval;
  vq_request_digest : pystr;
  vq_identity_digest : pystr }.

Definition pfail {A} (message : string) : exn + A := inl (ValueError message).

(** [_json]: JSON-compatible, finite and at most [MAX_DEPTH] deep; the message of
    the first failure otherwise. *)
Fixpoint json_check (v : pyval) (depth : Z) : option string :=
  if MAX_DEPTH <? depth then
    Some "Queue user data exceeds the maximum JSON nesting depth."%string
  else match v with
  | PNone | PBool _ | PInt _ | PStr _ => None
  | PFloat (FFin _) => None
  | PFloat _ => Some "Queue user data cannot contain NaN or Infinity."%string
  | PList l =>
      (fix go l := match l with
       | [] => None
       | x :: l => match json_check x (depth + 1) with Some e => Some e | None => go l end
       end) l
  | PDict kvs =>
      (fix go kvs := match kvs with
       | [] => None
       | (KOther, _) :: _ => Some "Queue user data object keys must be strings."%string
       | (KStr _, x) :: kvs =>
           match json_check x (depth + 1) with Some e => Some e | None => go kvs end
       end) kvs
  | POther => Some "Queue user data must be JSON-compatible."%string
  end.

Definition canonical (v : pyval) : exn + list N :=
  match json_bytes v with
  | Some b => inr b
  | None => pfail "Queue request cannot be canonically encoded."
  end.

Definition opt_str (o : option pystr) : pyval := match o with Some s => PStr s | None => PNone end.

Definition identity_value (url : pystr) (unique_key : option pystr) (user_data : pyval) : pyval :=
  PDict [(KStr (lit "url"), PStr url);
         (KStr (lit "unique_key"), opt_str unique_key);
         (KStr (lit "user_data"), user_data)].

Definition envelope_value (key url : pystr) (unique_key : option pystr) (user_data : pyval) : pyval :=
  PDict [(KStr (lit "schema_version"), PStr (lit SCHEMA_VERSION));
         (KStr (lit "idempotency_key"), PStr key);
         (KStr (lit "url"), PStr url);
         (KStr (lit "unique_key"), opt_str unique_key);
         (KStr (lit "user_data"), user_data)].

Definition check_unique_key (v : pyval) : option (option pystr) :=
  match v with
  | PNone => Some None
  | PStr s => if safe_key 255 s then Some (Some s) else None
  | _ => None
  end.

Definition ensure (b : bool) (message : string) : exn + () :=
  if b then inr () else pfail message.
Section validate.
Context `{UrlTables, Sha256}.

Definition validate_queue_enqueue (value : pyval) : exn + ValidatedQueueEnqueue :=
match value with
| PDict d =>
    ensure (has_exact_keys ["schema_version"; "idempotency_key"; "url"; "unique_key"; "user_data"] d
            && bool_decide (dict_get "schema_version" d = PStr (lit SCHEMA_VERSION)))
      "Queue enqueue request fields or schema version are invalid." ;;
    key ← match dict_get "idempotency_key" d with
          | PStr k => if safe_key 255 k then inr k else pfail "Queue idempotency key is invalid."
          | _ => pfail "Queue idempotency key is invalid."
          end;
    unique_key ← match check_unique_key (dict_get "unique_key" d) with
          | Some u => inr u
          | None => pfail "Queue unique key is invalid."
          end;
    url ← queue_url (dict_get "url" d);
    let user_data := dict_get "user_data" d in
    match json_check user_data 0 with Some e => pfail e | None => inr () end ;;
    ub ← canonical user_data;
    ensure (Z.of_nat (length ub) <=? MAX_USER_DATA_BYTES)
      "Queue user data exceeds the maximum encoded size." ;;
    encoded ← canonical (envelope_value key url unique_key user_data);
    ensure (Z.of_nat (length encoded) <=? MAX_ENVELOPE_BYTES)
      "Queue enqueue envelope exceeds the maximum encoded size." ;;
    ident ← canonical (identity_value url unique_key user_data);
    inr (MkValidatedEnqueue key url unique_key user_data
           (sha256_hex encoded) (sha256_hex ident))
| _ => pfail "Queue enqueue request must be an object."
end.
End validate.

(** ** Lemmas *)

Lemma wf_dict_get `{PyFloats} k d : wf_json (PDict d) → wf_json (dict_get k d).
Proof.
  intros [Hnd Hw]%wf_dict. unfold dict_get. destruct (dict_find (lit k) d) as [v|] eqn:E; [|done].
  apply elem_of_dict_find in E; [|done]. rewrite Forall_forall in Hw. exact (Hw _ E).
Qed.

(** SHA-256 tells two byte strings apart. *)
Definition separates `{Sha256} (x y : list N) : Prop := sha256_hex x = sha256_hex y → x = y.

Lemma canon_opt_str o : canon (opt_str o) = opt_str o.
Proof. by destruct o. Qed.
Lemma opt_str_inj o o' : opt_str o = opt_str o' → o = o'.
Proof. destruct o, o'; simpl; congruence. Qed.
Lemma wf_opt_str `{PyFloats} o : wf_json (opt_str o).
Proof. by destruct o. Qed.

Definition identity_keys : list pykey := [KStr (lit "url"); KStr (lit "unique_key"); KStr (lit "user_data")].
Definition envelope_keys : list pykey := [KStr (lit "schema_version"); KStr (lit "idempotency_key")] ++ identity_keys.
Lemma NoDup_identity_keys : NoDup identity_keys.
Proof. apply (bool_decide_unpack _). vm_compute. exact I. Qed.
Lemma NoDup_envelope_keys : NoDup envelope_keys.
Proof. apply (bool_decide_unpack _). vm_compute. exact I. Qed.

Section digests.
Context `{PyFloats, UrlTables, Sha256}.
Implicit Types (a b : ValidatedQueueEnqueue).

Definition identity_of a : pyval := identity_value (vq_url a) (vq_unique_key a) (vq_user_data a).
Definition envelope_of a : pyval :=
envelope_value (vq_idempotency_key a) (vq_url a) (vq_unique_key a) (vq_user_data a).

Lemma NoDup_identity_of a : NoDup [(KStr (lit "url"), PStr (vq_url a));
(KStr (lit "unique_key"), opt_str (vq_unique_key a)); (KStr (lit "user_data"), vq_user_data a)].*1.
Proof. apply NoDup_identity_keys. Qed.
Lemma NoDup_envelope_of a : NoDup [(KStr (lit "schema_version"), PStr (lit SCHEMA_VERSION));
(KStr (lit "idempotency_key"), PStr (vq_idempotency_key a)); (KStr (lit "url"), PStr (vq_url a));
(KStr (lit "unique_key"), opt_str (vq_unique_key a)); (KStr (lit "user_data"), vq_user_data a)].*1.
Proof. apply NoDup_envelope_keys. Qed.

Lemma wf_identity a : wf_json (vq_user_data a) → wf_json (identity_of a).
Proof.
intros Hw. apply wf_dict. split; [apply NoDup_identity_keys|].
repeat (apply Forall_cons; split; [simpl; auto using wf_opt_str|]). constructor.
Qed.
Lemma wf_envelope a : wf_json (vq_user_data a) → wf_json (envelope_of a).
Proof.
intros Hw. apply wf_dict. split; [apply NoDup_envelope_keys|].
repeat (apply Forall_cons; split; [simpl; auto using wf_opt_str|]). constructor.
Qed.

Lemma canon_identity a b :
canon (identity_of a) = canon (identity_of b) ↔
vq_url a = vq_url b ∧ vq_unique_key a = vq_unique_key b ∧
canon (vq_user_data a) = canon (vq_user_data b).
Proof.
split.
- intros Hc. pose proof (λ k, canon_dict_find _ _ k (NoDup_identity_of a) (NoDup_identity_of b) Hc) as Hk.
  assert (Some (PStr (vq_url a)) = Some (PStr (vq_url b))) as K1 by exact (Hk (lit "url")).
  assert (Some (canon (opt_str (vq_unique_key a))) = Some (canon (opt_str (vq_unique_key b))))
    as K2 by exact (Hk (lit "unique_key")).
  assert (Some (canon (vq_user_data a)) = Some (canon (vq_user_data b))) as K3
    by exact (Hk (lit "user_data")).
  rewrite !canon_opt_str in K2. split_and!; [congruence|apply opt_str_inj; congruence|congruence].
- intros (Hu & Hk & Hd). unfold identity_of, identity_value. rewrite !canon_dict.
  cbn [fmap list_fmap prod_map fst snd]. by rewrite Hu, Hk, Hd.
Qed.

Lemma canon_envelope a b :
canon (envelope_of a) = canon (envelope_of b) ↔
vq_idempotency_key a = vq_idempotency_key b ∧ canon (identity_of a) = canon (identity_of b).
Proof.
rewrite canon_identity. split.
- intros Hc. pose proof (λ k, canon_dict_find _ _ k (NoDup_envelope_of a) (NoDup_envelope_of b) Hc) as Hk.
  assert (Some (PStr (vq_url a)) = Some (PStr (vq_url b))) as K1 by exact (Hk (lit "url")).
  assert (Some (canon (opt_str (vq_unique_key a))) = Some (canon (opt_str (vq_unique_key b))))
    as K2 by exact (Hk (lit "unique_key")).
  assert (Some (canon (vq_user_data a)) = Some (canon (vq_user_data b))) as K3
    by exact (Hk (lit "user_data")).
  assert (Some (PStr (vq_idempotency_key a)) = Some (PStr (vq_idempotency_key b))) as K4
    by exact (Hk (lit "idempotency_key")).
  rewrite !canon_opt_str in K2. split_and!; [congruence..|apply opt_str_inj; congruence|congruence].
- intros (Hi & Hu & Hk & Hd). unfold envelope_of, envelope_value. rewrite !canon_dict.
  cbn [fmap list_fmap prod_map fst snd]. by rewrite Hi, Hu, Hk, Hd.
Qed.

(** What an accepted envelope satisfies. *)
Lemma validate_inv value a : validate_queue_enqueue value = inr a →
∃ d ub eb ib,
  value = PDict d ∧
  safe_key 255 (vq_idempotency_key a) = true ∧
  dict_get "idempotency_key" d = PStr (vq_idempotency_key a) ∧
  check_unique_key (dict_get "unique_key" d) = Some (vq_unique_key a) ∧
  queue_url (dict_get "url" d) = inr (vq_url a) ∧
  vq_user_data a = dict_get "user_data" d ∧ json_check (vq_user_data a) 0 = None ∧
  json_bytes (vq_user_data a) = Some ub ∧ Z.of_nat (length ub) ≤ MAX_USER_DATA_BYTES ∧
  json_bytes (envelope_of a) = Some eb ∧ Z.of_nat (length eb) ≤ MAX_ENVELOPE_BYTES ∧
  json_bytes (identity_of a) = Some ib ∧
  vq_request_digest a = sha256_hex eb ∧ vq_identity_digest a = sha256_hex ib.
Proof.
destruct value as [| | | | | |d|]; try done. unfold validate_queue_enqueue, mbind, sum_bind.
intros Hv. unfold ensure, canonical, pfail in Hv. cbv zeta in Hv.
repeat (case_match; simplify_eq; try done).
breflect. eexists d, _, _, _. split_and!; try done.
Qed.

Lemma json_bytes_iff v w x y : wf_json v → wf_json w →
json_bytes v = Some x → json_bytes w = Some y → separates x y →
sha256_hex x = sha256_hex y ↔ canon v = canon w.
Proof.
intros Hv Hw Hx Hy Hs. split.
- intros <-%Hs. by eapply json_bytes_inj.
- intros Heq. unfold json_bytes, json_dumps in *. rewrite Heq in Hx. congruence.
Qed.

(** The request digest identifies an enqueue request and the identity
  digest identifies its work item.  For two accepted envelopes whose
  encodings SHA-256 tells apart, identity digests agree exactly when the
  normalised URL, the unique key and the user data (up to the order of
  object keys) agree; request digests agree exactly when in addition the
  idempotency keys agree.  So a retry of the same request is recognised and
  an idempotency key reused for other work is detected. *)
Theorem queue_digests_identify (v w : pyval) (a b : ValidatedQueueEnqueue)
  (Hv : wf_json v) (Hw : wf_json w)
  (Ha : validate_queue_enqueue v = inr a) (Hb : validate_queue_enqueue w = inr b)
  (Hid : ∀ x y, json_bytes (identity_of a) = Some x →
                json_bytes (identity_of b) = Some y → separates x y)
  (Henv : ∀ x y, json_bytes (envelope_of a) = Some x →
                 json_bytes (envelope_of b) = Some y → separates x y) :
(vq_identity_digest a = vq_identity_digest b ↔
   vq_url a = vq_url b ∧ vq_unique_key a = vq_unique_key b ∧
   canon (vq_user_data a) = canon (vq_user_data b)) ∧
(vq_request_digest a = vq_request_digest b ↔
   vq_idempotency_key a = vq_idempotency_key b ∧
   vq_identity_digest a = vq_identity_digest b).
Proof.
apply validate_inv in Ha as (da & ua & ea & ia & -> & _ & _ & _ & _ & Ea & _ & _ & _ & He & _ & Hi & Hr & Hd).
apply validate_inv in Hb as (db & ub & eb & ib & -> & _ & _ & _ & _ & Eb & _ & _ & _ & He' & _ & Hi' & Hr' & Hd').
assert (wf_json (vq_user_data a)) as Wa by (rewrite Ea; by apply wf_dict_get).
assert (wf_json (vq_user_data b)) as Wb by (rewrite Eb; by apply wf_dict_get).
rewrite Hr, Hr', Hd, Hd'.
rewrite (json_bytes_iff _ _ _ _ (wf_identity a Wa) (wf_identity b Wb) Hi Hi' (Hid _ _ Hi Hi')).
rewrite (json_bytes_iff _ _ _ _ (wf_envelope a Wa) (wf_envelope b Wb) He He' (Henv _ _ He He')).
split; [apply canon_identity|apply canon_envelope].
Qed.
End digests.

Section acceptance.
Context `{UrlTables, Sha256}.

(** Everything the queue stores for an accepted envelope is within bounds:
  the URL is an absolute [https] URL without credentials, fragment or white
  space, the idempotency key is 1 to 256 safe characters, and the user data
  and the envelope encode to at most 65,536 and 98,304 bytes. *)
Theorem queue_enqueue_bounded (value : pyval) (a : ValidatedQueueEnqueue)
  (Ha : validate_queue_enqueue value = inr a) :
(∃ netloc path query, vq_url a = lit "https://" ++ netloc ++ path ++ query ∧
   (∀ c, c ∈ lit "/?#@" → c ∉ netloc) ∧ (∃ rest, path = 47%N :: rest) ∧
   (∀ c, c ∈ netloc ++ path ++ query → is_space c = false ∧ c ≠ 35%N)) ∧
(1 ≤ length (vq_idempotency_key a) ≤ 256)%nat ∧
json_check (vq_user_data a) 0 = None ∧
(∃ ub, json_bytes (vq_user_data a) = Some ub ∧ Z.of_nat (length ub) ≤ 65536) ∧
(∃ eb, json_bytes (envelope_of a) = Some eb ∧ Z.of_nat (length eb) ≤ 98304 ∧
       vq_request_digest a = sha256_hex eb).
Proof.
apply validate_inv in Ha as
  (d & ub & eb & ib & -> & Hk & _ & _ & Hu & _ & Hj & Hub & Lub & Heb & Leb & _ & Hr & _).
apply queue_url_shape in Hu as
  (v & nl & pa & q & _ & _ & Hurl & Hdel & Hpa & _ & H35p & H35q & _ & Hsp).
split_and!; [|..|done|by exists ub|by exists eb].
- exists nl, pa, q. split_and!; [done..|]. intros c Hc. split; [by apply Hsp|].
  intros ->. rewrite !elem_of_app in Hc. destruct Hc as [Hc|Hc]; [|tauto].
  apply (Hdel 35%N); [|done]. change (lit "/?#@") with [47%N; 63%N; 35%N; 64%N]. set_solver.
- destruct (vq_idempotency_key a); simpl in *; [done|lia].
- unfold safe_key in Hk. destruct (vq_idempotency_key a); [done|].
  breflect. simpl. lia.
Qed.
End acceptance.

(** ** Witnesses *)

Module Concrete.
(** Tables restricted to ASCII text, and a collision-free digest. *)
#[local] Instance ascii_tables : UrlTables := ascii_url_tables (λ _, None).
#[local] Instance plain_digest : Sha256 := λ b, b.
#[local] Instance no_floats : PyFloats := λ r, FFin r.

Definition sample (key url : string) (ud : pyval) : pyval :=
PDict [(KStr (lit "schema_version"), PStr (lit SCHEMA_VERSION));
       (KStr (lit "idempotency_key"), PStr (lit key));
       (KStr (lit "url"), PStr (lit url));
       (KStr (lit "unique_key"), PNone);
       (KStr (lit "user_data"), ud)].
Definition ud1 : pyval := PDict [(KStr (lit "b"), PInt 1); (KStr (lit "a"), PNone)].
Definition ud2 : pyval := PDict [(KStr (lit "a"), PNone); (KStr (lit "b"), PInt 1)].
Definition accepted (v : pyval) : ValidatedQueueEnqueue :=
match validate_queue_enqueue v with
| inr a => a
| inl _ => MkValidatedEnqueue [] [] None PNone [] []
end.

Lemma wf_sample k u ud : wf_json ud → wf_json (sample k u ud).
Proof.
intros. apply wf_dict. split; [apply (bool_decide_unpack _); vm_compute; exact I|].
repeat (apply Forall_cons; split; [done|]). constructor.
Qed.

Lemma queue_digests_identify_witness :
vq_url (accepted (sample "k1" "https://Example.org" ud1)) = lit "https://example.org/" ∧
(vq_identity_digest (accepted (sample "k1" "https://Example.org" ud1)) =
 vq_identity_digest (accepted (sample "k2" "https://example.org/#top" ud2)) ↔
   vq_url (accepted (sample "k1" "https://Example.org" ud1)) =
   vq_url (accepted (sample "k2" "https://example.org/#top" ud2)) ∧
   vq_unique_key (accepted (sample "k1" "https://Example.org" ud1)) =
   vq_unique_key (accepted (sample "k2" "https://example.org/#top" ud2)) ∧
   canon (vq_user_data (accepted (sample "k1" "https://Example.org" ud1))) =
   canon (vq_user_data (accepted (sample "k2" "https://example.org/#top" ud2)))).
Proof.
split; [vm_compute; reflexivity|].
apply (queue_digests_identify (sample "k1" "https://Example.org" ud1)
         (sample "k2" "https://example.org/#top" ud2)).
- apply wf_sample. vm_compute. split; [|done].
  apply (bool_decide_unpack (NoDup _)). vm_compute. exact I.
- apply wf_sample. vm_compute. split; [|done].
  apply (bool_decide_unpack (NoDup _)). vm_compute. exact I.
- vm_compute. reflexivity.
- vm_compute. reflexivity.
- intros x y _ _ Heq. exact Heq.
- intros x y _ _ Heq. exact Heq.
Defined.

Lemma queue_enqueue_bounded_witness :
(1 ≤ length (vq_idempotency_key (accepted (sample "k1" "https://Example.org" ud1))) ≤ 256)%nat.
Proof.
apply (queue_enqueue_bounded (sample "k1" "https://Example.org" ud1)).
vm_compute. reflexivity.
Defined.
End Concrete.
