(* ===== verification/RequestQueue.v ===== *)
(** Request queues: the tables of src/apps/api/app/models.py (RequestQueue,
    RequestQueueRequest, RequestQueueTransition, RequestQueueEnqueueReceipt), the
    operations of services/request_queues.py and the completion handler of
    services/worker_request_queue.py.  The session keeps the queue objects
    it has loaded, which a later lock does not refresh.  RequestQueueSpec.v proves that a
    request is held by one claim at a time and moves only along the life cycle, claims
    are first-in first-out, stale claims are fenced off and enqueueing is idempotent,
    however requests overlap, and that the counters of a queue are exact as long as they
    do not. *)

From S2P Require Import Prelude PyVal PyUuid QueueProtocol.

(** ** Tables *)

Inductive request_status := PENDING | CLAIMED | HANDLED | FAILED.
#[export] Instance request_status_eq_dec : EqDecision request_status.
Proof. solve_decision. Defined.

Record RequestQueue := MkQueue {
  q_organization_id : uuid;
  q_project_id : uuid;
  q_name : pystr;
  q_pending_count : Z;
  q_claimed_count : Z;
  q_handled_count : Z;
  q_failed_count : Z;
  q_created_by_user_id : uuid;
  q_version : Z;
  q_created_at : time;
  q_updated_at : time }.
#[export] Instance eta_queue : Eta RequestQueue := λ q,
  MkQueue (q_organization_id q) (q_project_id q) (q_name q) (q_pending_count q)
    (q_claimed_count q) (q_handled_count q) (q_failed_count q) (q_created_by_user_id q)
    (q_version q) (q_created_at q) (q_updated_at q).

Record RequestQueueRequest := MkRequest {
  r_organization_id : uuid;
  r_project_id : uuid;
  r_queue_id : uuid;
  r_request_url : pystr;
  r_unique_key : option pystr;
  r_identity_digest : pystr;
  r_user_data : pyval;
  r_status : request_status;
  r_attempt_count : Z;
  r_max_attempts : Z;
  r_available_at : time;
  r_claimed_by : option pystr;
  r_claim_token : option uuid;
  r_claim_expires_at : option time;
  r_handled_at : option time;
  r_failure_code : option pystr;
  r_failure_summary : option pystr;
  r_created_by_user_id : uuid;
  r_version : Z;
  r_created_at : time;
  r_updated_at : time }.
#[export] Instance eta_request : Eta RequestQueueRequest := λ r,
  MkRequest (r_organization_id r) (r_project_id r) (r_queue_id r) (r_request_url r)
    (r_unique_key r) (r_identity_digest r) (r_user_data r) (r_status r) (r_attempt_count r)
    (r_max_attempts r) (r_available_at r) (r_claimed_by r) (r_claim_token r)
    (r_claim_expires_at r) (r_handled_at r) (r_failure_code r) (r_failure_summary r)
    (r_created_by_user_id r) (r_version r) (r_created_at r) (r_updated_at r).

Record RequestQueueTransition := MkTransition {
  t_id : uuid;
  t_organization_id : uuid;
  t_project_id : uuid;
  t_queue_id : uuid;
  t_request_id : uuid;
  t_from_status : option request_status;
  t_to_status : request_status;
  t_reason : string;
  t_attempt_count : Z;
  t_details : list (string * detail);
  t_created_at : time }.

Record RequestQueueEnqueueReceipt := MkReceipt {
  e_organization_id : uuid;
  e_project_id : uuid;
  e_queue_id : uuid;
  e_request_id : uuid;
  e_idempotency_key : pystr;
  e_request_digest : pystr;
  e_identity_digest : pystr;
  e_created_by_user_id : uuid;
  e_created_at : time }.

(** The database and the session that works on it.  [loaded] is the identity map:
    the RequestQueue objects the session holds, which a later SELECT of the same
    row does not refresh. *)
Record db := MkDb {
  queues : gmap uuid RequestQueue;
  requests : gmap uuid RequestQueueRequest;
  receipts : gmap uuid RequestQueueEnqueueReceipt;
  transitions : list RequestQueueTransition;
  audits : list audit_event;
  loaded : gmap uuid RequestQueue;
  rng : N }.
#[export] Instance eta_db : Eta db := λ s,
  MkDb (queues s) (requests s) (receipts s) (transitions s) (audits s) (loaded s) (rng s).
#[export] Instance db_audit : HasAudit db := {|
  audit_log := audits;
  audit_push e s := s <| audits ::= λ l, l ++ [e] |>;
  audit_push_log e s := eq_refl |}.

Record EnqueueOutcome := MkOutcome {
  eo_receipt_id : uuid; eo_receipt : RequestQueueEnqueueReceipt; replayed : bool }.

(** The parts of the worker's execution lease the handlers read, and the queue id
    of the capability [_enabled] derives from it (or the error it raises). *)
Record worker_access := MkAccess {
  wa_lease_id : uuid;
  wa_organization_id : uuid;
  wa_project_id : uuid;
  wa_worker_id : uuid;
  wa_capability_queue : exn + pystr }.

Section ops.
Context `{Entropy}.

Definition fresh_uuid : M db uuid := λ s, (inr (uuid4 (rng s)), s <| rng ::= N.succ |>).

(** A primary key is unique: a second row with the same id is refused. *)
Definition insert_queue (q : RequestQueue) : M db uuid :=
id ← fresh_uuid;
taken ← gets (λ s, queues s !! id);
raise_if (bool_decide (is_Some taken)) (IntegrityError "request_queues_pkey") ;;
modify (λ s, s <| queues ::= <[id := q]> |> <| loaded ::= <[id := q]> |>) ;;
mret id.
Definition insert_request (r : RequestQueueRequest) : M db uuid :=
id ← fresh_uuid;
taken ← gets (λ s, requests s !! id);
raise_if (bool_decide (is_Some taken)) (IntegrityError "request_queue_requests_pkey") ;;
modify (λ s, s <| requests ::= <[id := r]> |>) ;;
mret id.
Definition insert_receipt (e : RequestQueueEnqueueReceipt) : M db uuid :=
id ← fresh_uuid;
taken ← gets (λ s, receipts s !! id);
raise_if (bool_decide (is_Some taken)) (IntegrityError "request_queue_enqueue_receipts_pkey") ;;
modify (λ s, s <| receipts ::= <[id := e]> |>) ;;
mret id.
Definition add_transition (now : time) (rid : uuid) (r : RequestQueueRequest)
  (from : option request_status) (to : request_status) (reason : string)
  (attempt : Z) (details : list (string * detail)) : M db () :=
id ← fresh_uuid;
taken ← gets (λ s, existsb (λ t, t_id t =? id)%N (transitions s));
raise_if taken (IntegrityError "request_queue_transitions_pkey") ;;
modify (λ s, s <| transitions ::= λ l, l ++
  [MkTransition id (r_organization_id r) (r_project_id r) (r_queue_id r) rid from to
     reason attempt details now] |>).

(** [session.scalar(select(RequestQueue).where(...))]: the object already in the
  identity map is returned as it is, otherwise the row is loaded. *)
Definition load_queue (qid : uuid) (p : RequestQueue → bool) : M db (option RequestQueue) :=
row ← gets (λ s, queues s !! qid);
obj ← gets (λ s, loaded s !! qid);
match row with
| Some q =>
    if p q then
      match obj with
      | Some o => mret (Some o)
      | None => modify (λ s, s <| loaded ::= <[qid := q]> |>) ;; mret (Some q)
      end
    else mret None
| None => mret None
end.

(** The UPDATE of a flush: only the columns whose value differs from the loaded
  one are written, together with [updated_at]. *)
Definition update_columns (now : time) (old new row : RequestQueue) : RequestQueue :=
MkQueue (q_organization_id row) (q_project_id row) (q_name row)
  (written (q_pending_count old) (q_pending_count new) (q_pending_count row))
  (written (q_claimed_count old) (q_claimed_count new) (q_claimed_count row))
  (written (q_handled_count old) (q_handled_count new) (q_handled_count row))
  (written (q_failed_count old) (q_failed_count new) (q_failed_count row))
  (q_created_by_user_id row) (q_version row) (q_created_at row) now.

(** [ck_request_queues_nonnegative_counts]. *)
Definition counts_nonneg (q : RequestQueue) : bool :=
(0 <=? q_pending_count q) && (0 <=? q_claimed_count q)
&& (0 <=? q_handled_count q) && (0 <=? q_failed_count q).

(** Assign counters of a loaded queue object and flush the change. *)
Definition update_queue (now : time) (qid : uuid) (f : RequestQueue → RequestQueue) : M db () :=
obj ← gets (λ s, loaded s !! qid);
row ← gets (λ s, queues s !! qid);
match obj, row with
| Some o, Some q =>
    let o' := f o <| q_updated_at := now |> in
    let q' := update_columns now o o' q in
    raise_if (negb (counts_nonneg q')) (IntegrityError "ck_request_queues_nonnegative_counts") ;;
    modify (λ s, s <| queues ::= <[qid := q']> |> <| loaded ::= <[qid := o']> |>)
| _, _ => raise (RuntimeError "StaleDataError")
end.

Definition update_request (rid : uuid) (r : RequestQueueRequest) : M db () :=
modify (λ s, s <| requests ::= <[rid := r]> |>).

(** ** services/request_queues.py *)

Definition create_request_queue (now : time) (organization_id project_id user_id : uuid)
  (actor_type : string) (actor_id : pystr) (request_id : string) (name : pystr) : M db uuid :=
existing ← gets (λ s, exists_row (λ _ q, bool_decide (q_project_id q = project_id)
                                      && bool_decide (q_name q = name)) (queues s));
raise_if existing (ApiError 409 "REQUEST_QUEUE_ALREADY_EXISTS") ;;
id ← insert_queue (MkQueue organization_id project_id name 0 0 0 0 user_id 1 now now);
append_audit_event (MkAudit (Some organization_id) (Some project_id) actor_type actor_id
  "request_queue.created" "request_queue" (Some id) request_id [("name"%string, DText name)]) ;;
mret id.

(** [queue] is the object the route loaded; only its id is used for the lock, and
  its counters are the ones that are incremented. *)
Definition enqueue_request (now : time) (queue_id user_id : uuid) (actor_type : string)
  (actor_id : pystr) (request_id : string) (validated : ValidatedQueueEnqueue)
  : M db EnqueueOutcome :=
obj ← gets (λ s, loaded s !! queue_id);
queue ← get_or_raise obj (RuntimeError "queue is not loaded");
existing ← gets (λ s, head (select (λ _ e, bool_decide (e_queue_id e = queue_id)
    && bool_decide (e_idempotency_key e = vq_idempotency_key validated)) (receipts s)));
match existing with
| Some (eid, e) =>
    raise_if (negb (bool_decide (e_request_digest e = vq_request_digest validated)))
      (ApiError 409 "IDEMPOTENCY_KEY_REUSED") ;;
    mret (MkOutcome eid e true)
| None =>
    duplicate ← gets (λ s, exists_row (λ _ r, bool_decide (r_queue_id r = queue_id)
      && bool_decide (r_identity_digest r = vq_identity_digest validated)) (requests s));
    raise_if duplicate (ApiError 409 "REQUEST_QUEUE_DUPLICATE") ;;
    let request := MkRequest (q_organization_id queue) (q_project_id queue) queue_id
      (vq_url validated) (vq_unique_key validated) (vq_identity_digest validated)
      (vq_user_data validated) PENDING 0 3 now None None None None None None user_id 1 now now in
    rid ← insert_request request;
    let receipt := MkReceipt (q_organization_id queue) (q_project_id queue) queue_id rid
      (vq_idempotency_key validated) (vq_request_digest validated)
      (vq_identity_digest validated) user_id now in
    eid ← insert_receipt receipt;
    add_transition now rid request None PENDING "ENQUEUED" 0 [] ;;
    update_queue now queue_id (λ q, q <| q_pending_count ::= Z.succ |>) ;;
    append_audit_event (MkAudit (Some (q_organization_id queue)) (Some (q_project_id queue))
      actor_type actor_id "request_queue.request_enqueued" "request_queue_request" (Some rid)
      request_id [("queue_id"%string, DUuid queue_id); ("receipt_id"%string, DUuid eid);
                  ("request_digest"%string, DText (vq_request_digest validated));
                  ("identity_digest"%string, DText (vq_identity_digest validated))]) ;;
    mret (MkOutcome eid receipt false)
end.

(** The first claimable request in the order of [created_at], then [id].
  [locked] are the rows other transactions hold ([SKIP LOCKED]). *)
Definition claimable (queue_id : uuid) (now : time) (locked : gset uuid)
  (rid : uuid) (r : RequestQueueRequest) : bool :=
bool_decide (r_queue_id r = queue_id) && bool_decide (r_status r = PENDING)
&& (r_available_at r <=? now) && negb (bool_decide (rid ∈ locked)).
Definition request_key (x : uuid * RequestQueueRequest) : Z * N := (r_created_at x.2, x.1).

Definition claim_next_request (now : time) (locked : gset uuid) (queue_id : uuid)
  (worker_id : pystr) (request_id : string) (lease_seconds : Z)
  : M db (option (uuid * RequestQueueRequest)) :=
raise_if (negb ((1 <=? lease_seconds) && (lease_seconds <=? 300)))
  (ValueError "lease_seconds must be between 1 and 300") ;;
queue ← load_queue queue_id (λ _, true);
match queue with
| None => mret None
| Some _ =>
    row ← gets (λ s, head (order_by (by_key request_key)
             (select (claimable queue_id now locked) (requests s))));
    match row with
    | None => mret None
    | Some (rid, r) =>
        token ← fresh_uuid;
        let claim_expires_at := now + seconds lease_seconds in
        let r' := r <| r_status := CLAIMED |> <| r_claimed_by := Some worker_id |>
                    <| r_claim_token := Some token |> <| r_attempt_count ::= Z.succ |>
                    <| r_claim_expires_at := Some claim_expires_at |> <| r_updated_at := now |> in
        update_request rid r' ;;
        update_queue now queue_id (λ q, q <| q_pending_count ::= Z.pred |>
                                          <| q_claimed_count ::= Z.succ |>) ;;
        add_transition now rid r' (Some PENDING) CLAIMED "CLAIMED" (r_attempt_count r')
          [("worker_id"%string, DText worker_id)] ;;
        append_audit_event (MkAudit (Some (r_organization_id r')) (Some (r_project_id r'))
          "worker" worker_id "request_queue.request_claimed" "request_queue_request" (Some rid)
          request_id [("queue_id"%string, DUuid (r_queue_id r'));
                      ("attempt_count"%string, DInt (r_attempt_count r'));
                      ("claim_expires_at"%string, DTime claim_expires_at)]) ;;
        mret (Some (rid, r'))
    end
end.

Definition expired_claim (queue_id : uuid) (now : time) (locked : gset uuid)
  (rid : uuid) (r : RequestQueueRequest) : bool :=
bool_decide (r_queue_id r = queue_id) && bool_decide (r_status r = CLAIMED)
&& match r_claim_expires_at r with Some t => t <? now | None => false end
&& negb (bool_decide (rid ∈ locked)).

Definition detail_opt (o : option pystr) : detail :=
match o with Some s => DText s | None => DNone end.

(** The body of the loop of [reclaim_expired_requests]. *)
Definition reclaim_row (now : time) (queue_id : uuid) (worker_id : pystr) (request_id : string)
  (x : uuid * RequestQueueRequest) : M db () :=
let '(rid, r) := x in
let target := if r_max_attempts r <=? r_attempt_count r then FAILED else PENDING in
let r' := r <| r_status := target |> <| r_claimed_by := None |> <| r_claim_token := None |>
            <| r_claim_expires_at := None |> <| r_updated_at := now |> in
let r' := match target with
  | FAILED => r' <| r_failure_code := Some (lit "LEASE_EXPIRED") |>
                 <| r_failure_summary := Some (lit "Worker lease expired before completion.") |>
  | _ => r'
  end in
update_request rid r' ;;
update_queue now queue_id (λ q,
  let q := q <| q_claimed_count ::= Z.pred |> in
  match target with
  | FAILED => q <| q_failed_count ::= Z.succ |>
  | _ => q <| q_pending_count ::= Z.succ |>
  end) ;;
add_transition now rid r' (Some CLAIMED) target "LEASE_EXPIRED" (r_attempt_count r') [] ;;
append_audit_event (MkAudit (Some (r_organization_id r')) (Some (r_project_id r'))
  "worker" worker_id
  (match target with FAILED => "request_queue.request_failed"
                   | _ => "request_queue.request_reclaimed" end)
  "request_queue_request" (Some rid) request_id
  [("queue_id"%string, DUuid (r_queue_id r')); ("attempt_count"%string, DInt (r_attempt_count r'));
   ("reason"%string, DStr "LEASE_EXPIRED");
   ("expired_worker_id"%string, detail_opt (r_claimed_by r))]).

Definition reclaim_expired_requests (now : time) (locked : gset uuid) (queue_id : uuid)
  (worker_id : pystr) (request_id : string) : M db Z :=
queue ← load_queue queue_id (λ _, true);
match queue with
| None => mret 0
| Some _ =>
    rows ← gets (λ s, select (expired_claim queue_id now locked) (requests s));
    for_each (reclaim_row now queue_id worker_id request_id) rows ;;
    mret (Z.of_nat (length rows))
end.

(** ** services/worker_request_queue.py *)

Definition in_scope (a : worker_access) (q : RequestQueue) : bool :=
bool_decide (q_organization_id q = wa_organization_id a)
&& bool_decide (q_project_id q = wa_project_id a).

Definition protocol_invalid : exn := ApiError 422 "REQUEST_QUEUE_WORKER_PROTOCOL_INVALID".
Definition scope_denied : exn := ApiError 403 "WORKER_REQUEST_QUEUE_SCOPE_DENIED".

Context `{UnicodeDecimal, PyRepr}.

Definition uuid_arg (v : pyval) : option uuid := uuid_of_str (py_str v).

Definition claim_worker_queue_request (now : time) (locked : gset uuid) (a : worker_access)
  (payload : pyval) (request_id : string) (worker_lease_seconds : Z)
  : M db (option (uuid * RequestQueueRequest)) :=
capability_queue ← lift (wa_capability_queue a);
match payload with
| PDict d =>
    raise_if (negb (has_exact_keys ["queue_id"] d)) protocol_invalid ;;
    queue_id ← get_or_raise (uuid_arg (dict_get "queue_id" d)) protocol_invalid;
    raise_if (negb (bool_decide (str_of_uuid queue_id = capability_queue))) scope_denied ;;
    queue ← load_queue queue_id (in_scope a);
    get_or_raise queue not_found ;;
    reclaim_expired_requests now locked queue_id (str_of_uuid (wa_worker_id a)) request_id ;;
    claim_next_request now locked queue_id (str_of_uuid (wa_worker_id a)) request_id
      worker_lease_seconds
| _ => raise protocol_invalid
end.

(** [str(v)[:n] if target == "FAILED" and v else None]. *)
Definition failure_field (n : nat) (target : request_status) (v : pyval) : option pystr :=
if bool_decide (target = FAILED) && truthy v then Some (take n (py_str v)) else None.

(** [payload["status"] not in {"HANDLED", "FAILED"}]: hashing a list or a
  dictionary raises [TypeError]. *)
Definition completion_target (v : pyval) : M db request_status :=
raise_if (negb (hashable v)) (TypeError "unhashable type") ;;
if decide (v = PStr (lit "HANDLED")) then mret HANDLED
else if decide (v = PStr (lit "FAILED")) then mret FAILED
else raise protocol_invalid.

(** The claim the worker presents is the current, unexpired one. *)
Definition claim_current (clock : time) (worker_id : pystr) (token : uuid)
  (r : RequestQueueRequest) : bool :=
bool_decide (r_status r = CLAIMED) && bool_decide (r_claimed_by r = Some worker_id)
&& bool_decide (r_claim_token r = Some token)
&& match r_claim_expires_at r with Some t => clock <? t | None => false end.

(** [now] is the transaction's time, [clock] and [handled_at] the two readings of
  the process clock. *)
Definition complete_worker_queue_request (now clock handled_at : time) (a : worker_access)
  (payload : pyval) (request_id : string) : M db (uuid * RequestQueueRequest) :=
capability_queue ← lift (wa_capability_queue a);
match payload with
| PDict d =>
    raise_if (negb (has_exact_keys ["queue_id"; "request_id"; "claim_token"; "status";
                                    "failure_code"; "failure_summary"] d)) protocol_invalid ;;
    target ← completion_target (dict_get "status" d);
    queue_id ← get_or_raise (uuid_arg (dict_get "queue_id" d)) protocol_invalid;
    rid ← get_or_raise (uuid_arg (dict_get "request_id" d)) protocol_invalid;
    token ← get_or_raise (uuid_arg (dict_get "claim_token" d)) protocol_invalid;
    raise_if (negb (bool_decide (str_of_uuid queue_id = capability_queue))) scope_denied ;;
    queue ← load_queue queue_id (in_scope a);
    get_or_raise queue not_found ;;
    row ← gets (λ s, requests s !! rid);
    r ← get_or_raise row not_found;
    raise_if (negb (bool_decide (r_queue_id r = queue_id)
                    && bool_decide (r_organization_id r = wa_organization_id a)
                    && bool_decide (r_project_id r = wa_project_id a))) not_found ;;
    raise_if (negb (claim_current clock (str_of_uuid (wa_worker_id a)) token r))
      (ApiError 409 "REQUEST_QUEUE_CLAIM_STALE") ;;
    let r' := r <| r_status := target |> <| r_claimed_by := None |> <| r_claim_token := None |>
                <| r_claim_expires_at := None |> <| r_handled_at := Some handled_at |>
                <| r_failure_code := failure_field 80 target (dict_get "failure_code" d) |>
                <| r_failure_summary := failure_field 2000 target (dict_get "failure_summary" d) |>
                <| r_updated_at := now |> in
    update_request rid r' ;;
    update_queue now queue_id (λ q,
      let q := q <| q_claimed_count ::= Z.pred |> in
      match target with
      | HANDLED => q <| q_handled_count ::= Z.succ |>
      | _ => q <| q_failed_count ::= Z.succ |>
      end) ;;
    add_transition now rid r' (Some CLAIMED) target "WORKER_COMPLETED" (r_attempt_count r')
      [("worker_id"%string, DText (str_of_uuid (wa_worker_id a)));
       ("lease_id"%string, DUuid (wa_lease_id a))] ;;
    append_audit_event (MkAudit (Some (r_organization_id r')) (Some (r_project_id r'))
      "worker" (str_of_uuid (wa_worker_id a))
      (match target with HANDLED => "request_queue.request_handled"
                       | _ => "request_queue.request_failed" end)
      "request_queue_request" (Some rid) request_id
      [("queue_id"%string, DUuid (r_queue_id r')); ("lease_id"%string, DUuid (wa_lease_id a));
       ("attempt_count"%string, DInt (r_attempt_count r'));
       ("reason"%string, DStr "WORKER_COMPLETED");
       ("failure_code"%string, detail_opt (r_failure_code r'))]) ;;
    mret (rid, r')
| _ => raise protocol_invalid
end.
End ops.
