(* ===== verification/RequestQueueSpec.v ===== *)
(** Correctness of request queues (RequestQueue.v): the invariant of the tables, its
    preservation by every operation, the life cycle of a request, fencing, order and
    idempotence, and the lost update of a queue loaded before it is locked. *)

From S2P Require Import Prelude PyVal PyUuid QueueProtocol RequestQueue.

(** ** The invariant *)

Definition in_status (qid : uuid) (st : request_status) (r : RequestQueueRequest) : bool :=
  bool_decide (r_queue_id r = qid) && bool_decide (r_status r = st).

Definition counter (st : request_status) (q : RequestQueue) : Z :=
  match st with
  | PENDING => q_pending_count q
  | CLAIMED => q_claimed_count q
  | HANDLED => q_handled_count q
  | FAILED => q_failed_count q
  end.

(** The life cycle of a request. *)
Inductive moves : option request_status → request_status → Prop :=
| moves_enqueue : moves None PENDING
| moves_claim : moves (Some PENDING) CLAIMED
| moves_reclaim : moves (Some CLAIMED) PENDING
| moves_handle : moves (Some CLAIMED) HANDLED
| moves_fail : moves (Some CLAIMED) FAILED.

(** The recorded transitions of one request, oldest first: where they end and how
    many of them are claims. *)
Inductive history : list RequestQueueTransition → option request_status → Z → Prop :=
| history_nil : history [] None 0
| history_snoc l st n t n' :
    history l st n → t_from_status t = st → moves st (t_to_status t) →
    n' = n + ind (bool_decide (t_to_status t = CLAIMED)) →
    history (l ++ [t]) (Some (t_to_status t)) n'.

Definition history_of (rid : uuid) (ts : list RequestQueueTransition) : list RequestQueueTransition :=
  base.filter (λ t, t_request_id t = rid) ts.

(** Claim columns and attempt count per status. *)
Definition shape (r : RequestQueueRequest) : Prop :=
  match r_status r with
  | CLAIMED => is_Some (r_claimed_by r) ∧ is_Some (r_claim_token r) ∧
               is_Some (r_claim_expires_at r) ∧ 1 ≤ r_attempt_count r ≤ r_max_attempts r
  | PENDING => r_claimed_by r = None ∧ r_claim_token r = None ∧ r_claim_expires_at r = None ∧
               0 ≤ r_attempt_count r < r_max_attempts r
  | HANDLED | FAILED =>
      r_claimed_by r = None ∧ r_claim_token r = None ∧ r_claim_expires_at r = None ∧
      1 ≤ r_attempt_count r ≤ r_max_attempts r
  end.

(** [exact] says whether the counters are exact: they are as long as requests on a queue do
    not overlap; everything else holds in any case. *)
Record inv_on (exact : Prop) (Q : gmap uuid RequestQueue) (R : gmap uuid RequestQueueRequest)
    (E : gmap uuid RequestQueueEnqueueReceipt) (T : list RequestQueueTransition) : Prop := MkInv {
  inv_counts qid q st : exact → Q !! qid = Some q → counter st q = countZ (in_status qid st) R;
  inv_tenancy rid r : R !! rid = Some r →
    ∃ q, Q !! r_queue_id r = Some q ∧
      q_organization_id q = r_organization_id r ∧ q_project_id q = r_project_id r;
  inv_shape rid r : R !! rid = Some r → shape r;
  inv_history rid : history (history_of rid T) (r_status <$> R !! rid)
                            (default 0 (r_attempt_count <$> R !! rid));
  inv_names i j q q' : Q !! i = Some q → Q !! j = Some q' →
    q_project_id q = q_project_id q' → q_name q = q_name q' → i = j;
  inv_identity i j r r' : R !! i = Some r → R !! j = Some r' →
    r_queue_id r = r_queue_id r' → r_identity_digest r = r_identity_digest r' → i = j;
  inv_keys i j e e' : E !! i = Some e → E !! j = Some e' →
    e_queue_id e = e_queue_id e' → e_idempotency_key e = e_idempotency_key e' → i = j;
  inv_receipts i e : E !! i = Some e →
    ∃ r, R !! e_request_id e = Some r ∧ r_queue_id r = e_queue_id e ∧
      r_identity_digest r = e_identity_digest e }.

Definition inv (exact : Prop) (s : db) : Prop := inv_on exact (queues s) (requests s) (receipts s) (transitions s).

Definition same_queue (q q' : RequestQueue) : Prop :=
  q_organization_id q' = q_organization_id q ∧ q_project_id q' = q_project_id q ∧
  q_name q' = q_name q.
(** The session's objects are of existing rows, whatever counters they were loaded with;
    and they are up to date when no other transaction changed the rows since ([exact]). *)
Definition coherent_on (exact : Prop) (L Q : gmap uuid RequestQueue) : Prop :=
  ∀ qid o, L !! qid = Some o → ∃ q, Q !! qid = Some q ∧ same_queue o q ∧ (exact → o = q).
Definition coherent (exact : Prop) (s : db) : Prop := coherent_on exact (loaded s) (queues s).

(** ** Pure preservation lemmas *)

Lemma counter_nonneg (exact : Prop) Q R E T qid q st : inv_on exact Q R E T → exact → Q !! qid = Some q → 0 ≤ counter st q.
Proof. intros HI Hx HQ. rewrite (inv_counts _ _ _ _ _ HI _ _ st Hx HQ). apply countZ_nonneg. Qed.

Lemma history_of_snoc rid T t :
  history_of rid (T ++ [t]) =
    if decide (t_request_id t = rid) then history_of rid T ++ [t] else history_of rid T.
Proof.
  unfold history_of. rewrite filter_app, filter_cons, filter_nil.
  case_decide; [done|]. by rewrite app_nil_r.
Qed.

Definition same_request (r r' : RequestQueueRequest) : Prop :=
  r_organization_id r' = r_organization_id r ∧ r_project_id r' = r_project_id r ∧
  r_queue_id r' = r_queue_id r ∧ r_identity_digest r' = r_identity_digest r.

(** A lookup in a table whose row [k] was replaced by one that agrees on [P]. *)
Lemma lookup_replaced {V} (m : gmap uuid V) k v v' j w (P : V → V → Prop) :
  (∀ w, P w w) → m !! k = Some v → P v v' → <[k:=v']> m !! j = Some w →
  ∃ w0, m !! j = Some w0 ∧ P w0 w.
Proof.
  intros HP Hk Hv [[-> ->]|[Hne Hj]]%lookup_insert_Some; eauto.
Qed.

Lemma queue_inv_move (exact : Prop) Q R E T qid rid r r' q q' t :
  inv_on exact Q R E T → r_queue_id r = qid → R !! rid = Some r → Q !! qid = Some q →
  same_request r r' → same_queue q q' →
  moves (Some (r_status r)) (r_status r') → shape r' →
  r_attempt_count r' = r_attempt_count r + ind (bool_decide (r_status r' = CLAIMED)) →
  (exact → ∀ st, counter st q' = counter st q - ind (bool_decide (r_status r = st))
                         + ind (bool_decide (r_status r' = st))) →
  t_request_id t = rid → t_from_status t = Some (r_status r) → t_to_status t = r_status r' →
  inv_on exact (<[qid := q']> Q) (<[rid := r']> R) E (T ++ [t]).
Proof.
  intros HI <- HR HQ HsR HsQ Hm Hsh Hat Hc Htid Htf Htt.
  pose proof (λ j w, lookup_replaced Q (r_queue_id r) q q' j w same_queue
    ltac:(done) HQ HsQ) as LQ.
  pose proof (λ j w, lookup_replaced R rid r r' j w same_request ltac:(done) HR HsR) as LR.
  split.
  - intros qid q0 st Hx Hq0. specialize (Hc Hx). unfold countZ. erewrite (sumZ_update _ _ _ r) by done.
    fold (countZ (in_status qid st) R). unfold in_status at 2 3.
    destruct HsR as (_ & _ & -> & _).
    apply lookup_insert_Some in Hq0 as [[<- <-]|[Hne Hq0]].
    + rewrite Hc, (inv_counts _ _ _ _ _ HI _ _ st Hx HQ), (bool_decide_eq_true_2 (r_queue_id r = r_queue_id r)) by done. simpl. lia.
    + rewrite (inv_counts _ _ _ _ _ HI _ _ st Hx Hq0), (bool_decide_eq_false_2 (r_queue_id r = qid)) by done. simpl. lia.
  - intros j w Hw. destruct (LR _ _ Hw) as (w0 & Hw0 & Ho & Hp & Hqq & _).
    destruct (inv_tenancy _ _ _ _ _ HI _ _ Hw0) as (q0 & Hq0 & Ho' & Hp').
    rewrite Hqq, Ho, Hp. destruct (decide (r_queue_id w0 = r_queue_id r)) as [He|Hne].
    + rewrite He in Hq0 |- *. exists q'. rewrite lookup_insert_eq. simplify_eq.
      destruct HsQ as (? & ? & ?). split_and!; congruence.
    + exists q0. by rewrite lookup_insert_ne by done.
  - intros j w [[-> <-]|[Hne Hw]]%lookup_insert_Some; [done|]. by eapply inv_shape.
  - intros j. rewrite history_of_snoc, Htid. pose proof (inv_history _ _ _ _ _ HI j) as Hh.
    destruct (decide (rid = j)) as [Hj|Hj].
    + subst j. rewrite lookup_insert_eq. simpl. rewrite <- Htt. eapply history_snoc; [exact Hh|..];
        rewrite HR; simpl; [done|by rewrite Htt|by rewrite Htt].
    + by rewrite lookup_insert_ne.
  - intros i j w w' Hi Hj. destruct (LQ _ _ Hi) as (w0 & Hi0 & _ & Hp & Hn).
    destruct (LQ _ _ Hj) as (w0' & Hj0 & _ & Hp' & Hn').
    rewrite Hp, Hp', Hn, Hn'. by eapply inv_names.
  - intros i j w w' Hi Hj. destruct (LR _ _ Hi) as (w0 & Hi0 & _ & _ & Hp & Hn).
    destruct (LR _ _ Hj) as (w0' & Hj0 & _ & _ & Hp' & Hn').
    rewrite Hp, Hp', Hn, Hn'. by eapply inv_identity.
  - apply (inv_keys _ _ _ _ _ HI).
  - intros i e He. destruct (inv_receipts _ _ _ _ _ HI _ _ He) as (w & Hw & Hqq & Hd).
    destruct (decide (e_request_id e = rid)) as [Hj|Hj].
    + rewrite Hj in Hw |- *. exists r'. rewrite lookup_insert_eq. simplify_eq.
      destruct HsR as (_ & _ & ? & ?). split_and!; congruence.
    + exists w. by rewrite lookup_insert_ne.
Qed.

(** The request and queue halves of an enqueue. *)
Lemma inv_new_request (exact : Prop) Q R E T qid rid r q q' t :
  inv_on exact Q R E T → r_queue_id r = qid → R !! rid = None → Q !! qid = Some q →
  q_organization_id q = r_organization_id r → q_project_id q = r_project_id r →
  same_queue q q' → r_status r = PENDING → r_attempt_count r = 0 → shape r →
  (∀ i w, R !! i = Some w → r_queue_id w = r_queue_id r →
          r_identity_digest w ≠ r_identity_digest r) →
  (exact → ∀ st, counter st q' = counter st q + ind (bool_decide (PENDING = st))) →
  t_request_id t = rid → t_from_status t = None → t_to_status t = PENDING →
  inv_on exact (<[qid := q']> Q) (<[rid := r]> R) E (T ++ [t]).
Proof.
  intros HI <- HR HQ Ho Hp HsQ Hst Hat Hsh Huniq Hc Htid Htf Htt.
  pose proof (λ j w, lookup_replaced Q (r_queue_id r) q q' j w same_queue
    ltac:(done) HQ HsQ) as LQ.
  split.
  - intros qid q0 st Hx Hq0. specialize (Hc Hx). unfold countZ. rewrite sumZ_insert_new by done.
    fold (countZ (in_status qid st) R). unfold in_status at 1. rewrite Hst.
    apply lookup_insert_Some in Hq0 as [[<- <-]|[Hne Hq0]].
    + rewrite Hc, (inv_counts _ _ _ _ _ HI _ _ st Hx HQ),
        (bool_decide_eq_true_2 (r_queue_id r = r_queue_id r)) by done. simpl. lia.
    + rewrite (inv_counts _ _ _ _ _ HI _ _ st Hx Hq0),
        (bool_decide_eq_false_2 (r_queue_id r = qid)) by done. simpl. lia.
  - assert (∀ i q0, Q !! i = Some q0 → ∃ q1, <[r_queue_id r:=q']> Q !! i = Some q1 ∧ same_queue q0 q1)
      as Hfw.
    { intros i q0 Hi. destruct (decide (i = r_queue_id r)) as [->|Hne].
      - exists q'. rewrite lookup_insert_eq. by simplify_eq.
      - exists q0. by rewrite lookup_insert_ne. }
    intros j w [[-> <-]|[Hne Hw]]%lookup_insert_Some.
    + destruct (Hfw _ _ HQ) as (q1 & ? & ? & ? & ?). exists q1. split_and!; congruence.
    + destruct (inv_tenancy _ _ _ _ _ HI _ _ Hw) as (q0 & Hq0 & ? & ?).
      destruct (Hfw _ _ Hq0) as (q1 & ? & ? & ? & ?). exists q1. split_and!; congruence.
  - intros j w [[-> <-]|[Hne Hw]]%lookup_insert_Some; [done|]. by eapply inv_shape.
  - intros j. rewrite history_of_snoc, Htid. pose proof (inv_history _ _ _ _ _ HI j) as Hh.
    destruct (decide (rid = j)) as [Hj|Hj]; [|by rewrite lookup_insert_ne].
    subst j. rewrite lookup_insert_eq. simpl. rewrite Hst, <- Htt.
    eapply history_snoc; [exact Hh|..]; rewrite HR; [done|rewrite Htt; constructor|].
    by rewrite Htt, Hat.
  - intros i j w w' Hi Hj. destruct (LQ _ _ Hi) as (w0 & Hi0 & _ & Hp1 & Hn).
    destruct (LQ _ _ Hj) as (w0' & Hj0 & _ & Hp' & Hn').
    rewrite Hp1, Hp', Hn, Hn'. by eapply inv_names.
  - intros i j w w' [[-> <-]|[Hi Hw]]%lookup_insert_Some [[-> <-]|[Hj Hw']]%lookup_insert_Some
      Hq Hd; [done|..|by eapply inv_identity]; exfalso; eapply Huniq; eauto.
  - apply (inv_keys _ _ _ _ _ HI).
  - intros i e He. destruct (inv_receipts _ _ _ _ _ HI _ _ He) as (w & Hw & Hqq & Hd).
    exists w. rewrite lookup_insert_ne; [done|congruence].
Qed.

Lemma inv_new_receipt (exact : Prop) Q R E T eid e r :
  inv_on exact Q R E T → E !! eid = None →
  R !! e_request_id e = Some r → r_queue_id r = e_queue_id e →
  r_identity_digest r = e_identity_digest e →
  (∀ i w, E !! i = Some w → e_queue_id w = e_queue_id e →
          e_idempotency_key w ≠ e_idempotency_key e) →
  inv_on exact Q R (<[eid := e]> E) T.
Proof.
  intros HI HE Hr Hq Hd Huniq. destruct HI. split; auto.
  - intros i j w w' [[-> <-]|[Hi Hw]]%lookup_insert_Some [[-> <-]|[Hj Hw']]%lookup_insert_Some
      Hqq Hk; [done|..|by eauto]; exfalso; eapply Huniq; eauto.
  - intros i w [[-> <-]|[Hi Hw]]%lookup_insert_Some; eauto.
Qed.

Lemma inv_new_queue (exact : Prop) Q R E T qid q :
  inv_on exact Q R E T → Q !! qid = None → (∀ st, counter st q = 0) →
  (∀ i w, Q !! i = Some w → q_project_id w = q_project_id q → q_name w ≠ q_name q) →
  inv_on exact (<[qid := q]> Q) R E T.
Proof.
  intros HI HQ Hc Huniq. pose proof (inv_tenancy _ _ _ _ _ HI) as Hten. destruct HI. split; auto.
  - intros i w st Hx [[-> <-]|[Hi Hw]]%lookup_insert_Some; [|auto].
    rewrite Hc. symmetry. transitivity (countZ (λ _ : RequestQueueRequest, false) R).
    + apply sumZ_ext. intros k r Hr. unfold in_status.
      destruct (Hten _ _ Hr) as (q0 & Hq0 & _). rewrite bool_decide_eq_false_2; [done|congruence].
    + unfold countZ. clear. induction R as [|k r m Hk IH] using map_ind; [done|].
      rewrite sumZ_insert_new by done. rewrite IH. done.
  - intros rid r Hr. destruct (Hten _ _ Hr) as (q0 & Hq0 & ?). exists q0.
    rewrite lookup_insert_ne; [done|congruence].
  - intros i j w w' [[-> <-]|[Hi Hw]]%lookup_insert_Some [[-> <-]|[Hj Hw']]%lookup_insert_Some
      Hp Hn; [done|..|by eauto]; exfalso; eapply Huniq; eauto.
Qed.

(** ** Symbolic execution of the primitives *)

Definition tables_eq (s s' : db) : Prop :=
  queues s' = queues s ∧ requests s' = requests s ∧ receipts s' = receipts s ∧
  transitions s' = transitions s.

(** A session's view: the invariant holds and its objects are up to date. *)
Definition good (exact : Prop) (s : db) : Prop := inv exact s ∧ coherent exact s.

Lemma same_queue_trans q q' q'' : same_queue q q' → same_queue q' q'' → same_queue q q''.
Proof. unfold same_queue. intuition congruence. Qed.

Section exec.
Context `{Entropy}.
Variable exact : Prop.

Lemma wp_fresh (Q : uuid → db → Prop) s :
Q (uuid4 (rng s)) (s <| rng ::= N.succ |>) → wp fresh_uuid Q s.
Proof. by intros HQ a s' [= <- <-]. Qed.

Lemma wp_insert_queue q (Q : uuid → db → Prop) s :
(∀ id, queues s !! id = None →
   Q id (s <| rng ::= N.succ |> <| queues ::= <[id := q]> |> <| loaded ::= <[id := q]> |>)) →
wp (insert_queue q) Q s.
Proof.
intros HQ. unfold insert_queue. wp_step. apply wp_fresh. repeat wp_step.
apply HQ. breflect. by apply eq_None_not_Some.
Qed.

Lemma wp_insert_request r (Q : uuid → db → Prop) s :
(∀ id, requests s !! id = None →
   Q id (MkDb (queues s) (<[id := r]> (requests s)) (receipts s) (transitions s) (audits s)
           (loaded s) (N.succ (rng s)))) →
wp (insert_request r) Q s.
Proof.
intros HQ. unfold insert_request. wp_step. apply wp_fresh. repeat wp_step.
apply HQ. breflect. by apply eq_None_not_Some.
Qed.

Lemma wp_insert_receipt e (Q : uuid → db → Prop) s :
(∀ id, receipts s !! id = None →
   Q id (MkDb (queues s) (requests s) (<[id := e]> (receipts s)) (transitions s) (audits s)
           (loaded s) (N.succ (rng s)))) →
wp (insert_receipt e) Q s.
Proof.
intros HQ. unfold insert_receipt. wp_step. apply wp_fresh. repeat wp_step.
apply HQ. breflect. by apply eq_None_not_Some.
Qed.

Lemma wp_add_transition now rid r from to reason attempt details (Q : () → db → Prop) s :
(∀ id, Q () (MkDb (queues s) (requests s) (receipts s) (transitions s ++
   [MkTransition id (r_organization_id r) (r_project_id r) (r_queue_id r) rid from to
      reason attempt details now]) (audits s) (loaded s) (N.succ (rng s)))) →
wp (add_transition now rid r from to reason attempt details) Q s.
Proof.
intros HQ. unfold add_transition. wp_step. apply wp_fresh. repeat wp_step. apply HQ.
Qed.

Lemma wp_load_queue qid p (Q : option RequestQueue → db → Prop) s :
coherent exact s → ((∀ q, queues s !! qid = Some q → p q = false) → Q None s) →
(∀ q o s', queues s !! qid = Some q → p q = true → tables_eq s s' → coherent exact s' →
           loaded s' !! qid = Some o → Q (Some o) s') →
wp (load_queue qid p) Q s.
Proof.
intros Hco HN HS. unfold load_queue. do 4 wp_step.
destruct (queues s !! qid) as [q|] eqn:Hq; [|by wp_step; apply HN].
destruct (p q) eqn:Hp; [|by wp_step; apply HN; intros; simplify_eq].
destruct (loaded s !! qid) as [o|] eqn:Ho; wp_step.
- by apply (HS q).
- wp_step. wp_step. apply (HS q); [done..| |].
  + intros i o. cbn. intros [[-> <-]|[Hne Hi]]%lookup_insert_Some; [by exists q|auto].
  + cbn. apply lookup_insert_eq.
Qed.

(** Only counters are assigned. *)
Definition counters_only (f : RequestQueue → RequestQueue) : Prop := ∀ o,
f o = MkQueue (q_organization_id o) (q_project_id o) (q_name o) (q_pending_count (f o))
  (q_claimed_count (f o)) (q_handled_count (f o)) (q_failed_count (f o))
  (q_created_by_user_id o) (q_version o) (q_created_at o) (q_updated_at o).

Lemma update_columns_fresh now f o : counters_only f →
update_columns now o (f o <| q_updated_at := now |>) o = f o <| q_updated_at := now |>.
Proof.
intros Hf. specialize (Hf o). destruct (f o), o. cbn in Hf. simplify_eq.
unfold update_columns, written, over. cbn. f_equal; repeat case_decide; congruence.
Qed.

(** The row a flush writes: the object's when the object was current. *)
Lemma update_columns_same now f o q : counters_only f → same_queue o q →
same_queue q (update_columns now o (f o <| q_updated_at := now |>) q) ∧
same_queue (f o <| q_updated_at := now |>) (update_columns now o (f o <| q_updated_at := now |>) q) ∧
(o = q → f o <| q_updated_at := now |> = update_columns now o (f o <| q_updated_at := now |>) q).
Proof.
intros Hf Hs. split_and!; [done| |by intros <-; rewrite update_columns_fresh].
rewrite (Hf o). by unfold same_queue in *.
Qed.
Lemma wp_update_queue now qid f o (Q : () → db → Prop) s :
coherent exact s → counters_only f → loaded s !! qid = Some o →
(∀ q q', queues s !! qid = Some q → same_queue o q → same_queue q q' → (exact → o = q ∧ q' = f o <| q_updated_at := now |>) →
 coherent_on exact (<[qid := f o <| q_updated_at := now |> ]> (loaded s)) (<[qid := q' ]> (queues s)) →
 Q () (MkDb (<[qid := q']> (queues s)) (requests s) (receipts s)
         (transitions s) (audits s) (<[qid := f o <| q_updated_at := now |> ]> (loaded s)) (rng s))) →
wp (update_queue now qid f) Q s.
Proof.
intros Hco Hf Ho HQ. unfold update_queue. do 4 wp_step.
destruct (Hco _ _ Ho) as (q & Hq & Hsame & Hx). rewrite Ho, Hq. cbv zeta.
destruct (update_columns_same now f o q Hf Hsame) as (Hs1 & Hs2 & Hs3).
wp_step. wp_step. wp_step. apply (HQ q); [done..| |].
- intros Hex. split; [by apply Hx|]. symmetry. by apply Hs3, Hx.
- intros i o'. cbn. intros [[-> <-]|[Hne Hi]]%lookup_insert_Some.
  + eexists. rewrite lookup_insert_eq. split_and!; [done|done|]. intros Hex. by apply Hs3, Hx.
  + rewrite lookup_insert_ne by done. by apply Hco.
Qed.
End exec.

(** ** Every operation preserves the invariant *)

Lemma tables_eq_inv exact s s' : tables_eq s s' → inv exact s → inv exact s'.
Proof. unfold inv. by intros (-> & -> & -> & ->). Qed.

Lemma good_intro exact Q R E T A L n :
  inv_on exact Q R E T → coherent_on exact L Q → good exact (MkDb Q R E T A L n).
Proof. done. Qed.

(** What no operation ever undoes: receipts, recorded transitions, the existence of
    queues and requests, and the rows of requests that reached a terminal status. *)
Definition terminal (r : RequestQueueRequest) : Prop := r_status r = HANDLED ∨ r_status r = FAILED.
Record extends (s s' : db) : Prop := MkExtends {
  ext_receipts : receipts s ⊆ receipts s';
  ext_terminal rid r : requests s !! rid = Some r → terminal r → requests s' !! rid = Some r;
  ext_requests rid r : requests s !! rid = Some r →
    ∃ r', requests s' !! rid = Some r' ∧ same_request r r';
  ext_queues qid q : queues s !! qid = Some q → ∃ q', queues s' !! qid = Some q' ∧ same_queue q q';
  ext_transitions : transitions s `prefix_of` transitions s' }.

Lemma tables_eq_extends s s' : tables_eq s s' → extends s s'.
Proof. intros (E1 & E2 & E3 & E4). split; rewrite ?E1, ?E2, ?E3, ?E4; eauto; by eexists. Qed.
(** [extends] looks only at the tables. *)
Lemma queue_extends_tables s1 s1' s2 s2' :
  extends s1 s2 → tables_eq s1 s1' → tables_eq s2 s2' → extends s1' s2'.
Proof.
  intros [A1 A2 A3 A4 A5] (E1 & E2 & E3 & E4) (F1 & F2 & F3 & F4).
  split; rewrite ?E1, ?E2, ?E3, ?E4, ?F1, ?F2, ?F3, ?F4; auto.
Qed.
#[export] Instance extends_refl : Reflexive extends.
Proof. intros s. by apply tables_eq_extends. Qed.
#[export] Instance extends_trans : Transitive extends.
Proof.
  intros s1 s2 s3 [A1 A2 A3 A4 A5] [B1 B2 B3 B4 B5]. split; [by etrans|auto|..|by etrans].
  - intros rid r (r2 & Hr2 & E1)%A3. destruct (B3 _ _ Hr2) as (r3 & Hr3 & E2). exists r3.
    unfold same_request in *. split; [done|]. intuition congruence.
  - intros qid q (q2 & Hq2 & E1)%A4. destruct (B4 _ _ Hq2) as (q3 & Hq3 & E2). exists q3.
    unfold same_queue in *. split; [done|]. intuition congruence.
Qed.

(** A goal that states how each counter changes. *)
Ltac solve_counters :=
  intros []; cbn; repeat case_bool_decide; simplify_eq; unfold ind; lia.

Section preservation.
Context `{Entropy}.
Variable exact : Prop.
Abbreviation good := (good exact).

Lemma create_good now org pid uid at_ aid rq name s :
good s → wp (create_request_queue now org pid uid at_ aid rq name)
  (λ _ s', good s' ∧ extends s s') s.
Proof.
intros [HI Hco]. unfold create_request_queue. do 4 wp_step.
match goal with Hx : _ = false |- _ => pose proof (exists_row_false _ _ Hx) as Hnone end.
wp_step. apply wp_insert_queue. intros id Hid. repeat wp_step. split; [split|].
- apply inv_new_queue; [exact HI|done|by intros []|].
  intros i w Hw Hp Hn. specialize (Hnone _ _ Hw). cbn in Hnone, Hp, Hn.
  rewrite !bool_decide_eq_true_2 in Hnone by done. done.
- intros i o. cbn. intros [[-> <-]|[Hne Hi]]%lookup_insert_Some.
  { eexists. by rewrite lookup_insert_eq. }
  destruct (Hco _ _ Hi) as (q & Hq & ?). exists q. rewrite lookup_insert_ne; [done|congruence].
- split; cbn; [done|auto|by intros i r Hr; exists r| |done].
  intros qid q Hq. exists q. rewrite lookup_insert_ne; [done|congruence].
Qed.

Lemma enqueue_good now qid uid at_ aid rq v s :
good s → wp (enqueue_request now qid uid at_ aid rq v) (λ res s', good s' ∧ extends s s' ∧
  receipts s' !! eo_receipt_id res = Some (eo_receipt res) ∧ e_queue_id (eo_receipt res) = qid ∧
  e_idempotency_key (eo_receipt res) = vq_idempotency_key v ∧
  e_request_digest (eo_receipt res) = vq_request_digest v) s.
Proof.
intros [HI Hco]. unfold enqueue_request. do 2 wp_step. wp_step. wp_step. do 2 wp_step.
rename a into o, H0 into Hq. destruct (Hco _ _ Hq) as (q & HQ & Hsame & _).
destruct (head _) as [[eid e]|] eqn:Hrec.
{ apply head_select_Some in Hrec as [He Hm]. repeat wp_step. breflect. by split_and!. }
pose proof (head_select_None _ _ Hrec) as Hkeys. do 4 wp_step.
pose proof (exists_row_false _ _ H0) as Hdup. cbv zeta.
wp_step. apply wp_insert_request. intros rid Hrid.
wp_step. apply wp_insert_receipt. intros eid Heid.
wp_step. apply wp_add_transition. intros tid.
wp_step. apply (wp_update_queue exact) with (o := o); [exact Hco|by intros []|exact Hq|].
intros q1 q' HQ1 _ Hq' Hx Hco'. cbn in HQ1. simplify_eq. repeat wp_step.
split_and!; [split; [|exact Hco']| |apply lookup_insert_eq|done..]; last first.
{ split; cbn; [by apply insert_subseteq|..|by eexists].
  - intros i r Hr _. rewrite lookup_insert_ne; [done|congruence].
  - intros i r Hr. exists r. rewrite lookup_insert_ne; [done|congruence].
  - intros i q0 Hq0. destruct (decide (i = qid)) as [->|]; [|exists q0; by rewrite lookup_insert_ne].
    eexists. rewrite lookup_insert_eq. split; [done|]. simplify_eq. done. }
eapply inv_new_receipt; cbn; [|exact Heid|apply lookup_insert_eq|done..|].
- destruct Hsame as (Ho & Hp & _). eapply inv_new_request with (q := q); [exact HI|done|exact Hrid|cbn; try done..].
  + intros i w Hw Hqq Hd. specialize (Hdup _ _ Hw). cbn in Hdup.
    rewrite !bool_decide_eq_true_2 in Hdup by done. done.
  + intros [-> ->]%Hx. solve_counters.
- intros i w Hw Hqq Hk. specialize (Hkeys _ _ Hw). cbn in Hkeys.
  rewrite !bool_decide_eq_true_2 in Hkeys by done. done.
Qed.

(** The tail shared by claiming, reclaiming and completing a request: its row, the
  counters of its queue and its history move together. *)
Lemma queue_wp_move {B} now qid rid r r' f o reason attempt details (k : M db B)
  (Q : B → db → Prop) s :
good s → requests s !! rid = Some r → r_queue_id r = qid → loaded s !! qid = Some o →
counters_only f → same_request r r' → moves (Some (r_status r)) (r_status r') → shape r' →
r_attempt_count r' = r_attempt_count r + ind (bool_decide (r_status r' = CLAIMED)) →
(∀ st, counter st (f o) = counter st o - ind (bool_decide (r_status r = st))
                          + ind (bool_decide (r_status r' = st))) →
(∀ s', good s' → loaded s' !! qid = Some (f o <| q_updated_at := now |>) →
       requests s' = <[rid := r']> (requests s) → extends s s' → wp k Q s') →
wp (update_request rid r' ;; update_queue now qid f ;;
    add_transition now rid r' (Some (r_status r)) (r_status r') reason attempt details ;; k) Q s.
Proof.
intros [HI Hco] Hr Hqid Hq Hf Hsame Hm Hsh Hat Hc Hk.
wp_step. unfold update_request. wp_step. wp_step.
apply (wp_update_queue exact) with (o := o); [exact Hco|done|exact Hq|]. intros q q' HQ _ Hq' Hx Hco'.
cbn in HQ. wp_step. apply wp_add_transition. intros tid. apply Hk; [|cbn; apply lookup_insert_eq|done|].
2: { split; cbn; [done|..|by eexists].
  - intros i w Hw Ht. rewrite lookup_insert_ne; [done|]. intros <-. simplify_eq.
    destruct Ht as [Ht|Ht]; rewrite Ht in Hm; inversion Hm.
  - intros i w Hw. destruct (decide (i = rid)) as [->|]; [|exists w; by rewrite lookup_insert_ne].
    exists r'. rewrite lookup_insert_eq. by simplify_eq.
  - intros i q0 Hq0. destruct (decide (i = qid)) as [->|]; [|exists q0; by rewrite lookup_insert_ne].
    eexists. rewrite lookup_insert_eq. split; [done|]. by simplify_eq. }
split; [|exact Hco']. eapply queue_inv_move with (q := q) (r := r); eauto.
intros [-> ->]%Hx. exact Hc.
Qed.

(** What a claim returns and does to the requests table. *)
Definition claim_result now locked qid wid secs (exists_queue : bool)
  (R : gmap uuid RequestQueueRequest) (res : option (uuid * RequestQueueRequest))
  (R' : gmap uuid RequestQueueRequest) : Prop :=
match res with
| None => R' = R ∧
    (exists_queue = true → ∀ i w, R !! i = Some w → claimable qid now locked i w = false)
| Some (rid, r') =>
    R' = <[rid := r']> R ∧
    ∃ r token, R !! rid = Some r ∧ claimable qid now locked rid r = true ∧
      (∀ i w, R !! i = Some w → claimable qid now locked i w = true →
              key_le (request_key (rid, r)) (request_key (i, w))) ∧
      r' = r <| r_status := CLAIMED |> <| r_claimed_by := Some wid |>
             <| r_claim_token := Some token |> <| r_attempt_count ::= Z.succ |>
             <| r_claim_expires_at := Some (now + seconds secs) |> <| r_updated_at := now |>
end.

Lemma claim_head qid now locked (R : gmap uuid RequestQueueRequest) rid r :
head (order_by (by_key request_key) (select (claimable qid now locked) R)) = Some (rid, r) →
R !! rid = Some r ∧ claimable qid now locked rid r = true ∧
∀ i w, R !! i = Some w → claimable qid now locked i w = true →
       key_le (request_key (rid, r)) (request_key (i, w)).
Proof.
intros Hhd.
assert ((rid, r) ∈ select (claimable qid now locked) R) as [Hr Hcl]%elem_of_select.
{ apply (elem_of_order_by (by_key request_key)). destruct (order_by _ _); [done|].
  simpl in Hhd. simplify_eq. left. }
split_and!; [done..|]. intros i w Hi Hc.
destruct (head_order_by_le _ _ _ (i, w) Hhd) as [Heq|Hle]; [by apply elem_of_select| |done].
rewrite Heq. unfold key_le. lia.
Qed.

Lemma claim_next_spec now locked qid wid rq secs s :
good s → wp (claim_next_request now locked qid wid rq secs) (λ res s',
  good s' ∧ extends s s' ∧ claim_result now locked qid wid secs (bool_decide (is_Some (queues s !! qid)))
              (requests s) res (requests s')) s.
Proof.
intros Hg. unfold claim_next_request. do 3 wp_step.
apply (wp_load_queue exact); [apply Hg| |].
{ intros Hno. wp_step. split_and!; [done..|split; [done|]].
  intros [q Hq]%bool_decide_eq_true. by specialize (Hno _ Hq). }
intros q o s' Hq _ Ht Hco' Hl. rewrite bool_decide_eq_true_2 by eauto.
assert (good s') as Hg' by (split; [eapply tables_eq_inv; [done|apply Hg]|done]).
pose proof (tables_eq_extends _ _ Ht) as He.
destruct Ht as (_ & HR & _ & _). rewrite <- HR. clear HR.
do 2 wp_step. destruct (head _) as [[rid r]|] eqn:Hhd; last first.
{ wp_step. split_and!; [done..|split; [done|]]. intros _ i w Hw.
  destruct (claimable qid now locked i w) eqn:Hc; [|done].
  assert ((i, w) ∈ order_by (by_key request_key) (select (claimable qid now locked) (requests s')))
    as Hin by (by apply elem_of_order_by, elem_of_select).
  destruct (order_by _ _); [by apply not_elem_of_nil in Hin|done]. }
pose proof (claim_head _ _ _ _ _ _ Hhd) as (Hr & Hcl & Hfirst).
pose proof Hcl as Hcl'. unfold claimable in Hcl'. breflect.
match goal with Hs : r_status r = PENDING |- _ => rename Hs into Hst end.
pose proof (inv_shape _ _ _ _ _ (proj1 Hg') _ _ Hr) as Hsh. unfold shape in Hsh.
wp_step. apply wp_fresh. cbv zeta.
set (r' := r <| r_status := _ |> <| r_claimed_by := _ |> <| r_claim_token := _ |>
  <| r_attempt_count ::= _ |> <| r_claim_expires_at := _ |> <| r_updated_at := _ |>).
replace (Some PENDING) with (Some (r_status r)) by congruence.
change CLAIMED with (r_status r').
apply queue_wp_move with (o := o); [exact Hg'|exact Hr|done|exact Hl|by intros []|done|..].
- rewrite Hst. constructor.
- rewrite Hst in Hsh. unfold shape, r'; cbn. split_and!; eauto; lia.
- done.
- rewrite Hst. unfold r'. solve_counters.
- intros s2 Hg2 _ HR2 He2. repeat wp_step. split_and!; [exact Hg2| |cbn; rewrite HR2; eauto 10].
  etrans; [exact He|by apply (queue_extends_tables _ _ _ _ He2)].
Qed.

(** One iteration of the reclaim loop. *)
Definition reclaimed (now : time) (r : RequestQueueRequest) : RequestQueueRequest :=
let r' := r <| r_claimed_by := None |> <| r_claim_token := None |>
            <| r_claim_expires_at := None |> <| r_updated_at := now |> in
if r_max_attempts r <=? r_attempt_count r
then r' <| r_status := FAILED |> <| r_failure_code := Some (lit "LEASE_EXPIRED") |>
        <| r_failure_summary := Some (lit "Worker lease expired before completion.") |>
else r' <| r_status := PENDING |>.

Lemma reclaim_row_spec now qid wid rq rid r q s :
good s → requests s !! rid = Some r → r_queue_id r = qid → r_status r = CLAIMED →
loaded s !! qid = Some q →
wp (reclaim_row now qid wid rq (rid, r)) (λ _ s', good s' ∧ extends s s' ∧ is_Some (loaded s' !! qid) ∧
  requests s' = <[rid := reclaimed now r]> (requests s)) s.
Proof.
intros Hg Hr Hqid Hst Hl. unfold reclaim_row, reclaimed.
pose proof (inv_shape _ _ _ _ _ (proj1 Hg) _ _ Hr) as Hsh. unfold shape in Hsh.
rewrite Hst in Hsh. cbv zeta. rewrite <- Hst.
destruct (r_max_attempts r <=? r_attempt_count r) eqn:Hmax; breflect.
all: lazymatch goal with |- wp (update_request _ ?x ;; _) _ _ => set (r' := x) end.
all: [> change FAILED with (r_status r') at 1 | change PENDING with (r_status r') at 1].
all: apply queue_wp_move with (o := q);
  [exact Hg|exact Hr|done|exact Hl|by intros []|done|rewrite Hst; constructor
  |unfold shape, r'; cbn; split_and!; try done; lia|unfold r'; cbn; rewrite bool_decide_eq_false_2 by done; cbn; lia
  |rewrite Hst; unfold r'; solve_counters
  |intros s2 Hg2 Hl2 HR2 He2; repeat wp_step; split_and!; [exact Hg2|by apply (queue_extends_tables _ _ _ _ He2)|by eexists|by cbn]].
Qed.

Lemma reclaim_loop now qid wid rq l s :
good s → is_Some (loaded s !! qid) → NoDup l.*1 →
(∀ rid r, (rid, r) ∈ l →
   requests s !! rid = Some r ∧ r_queue_id r = qid ∧ r_status r = CLAIMED) →
wp (for_each (reclaim_row now qid wid rq) l) (λ _ s', good s' ∧ extends s s' ∧
  ∀ i, requests s' !! i =
    (λ r, if bool_decide (i ∈ l.*1) then reclaimed now r else r) <$> requests s !! i) s.
Proof.
revert s. induction l as [|[rid r] l IH]; intros s Hg [q Hl] Hnd Hready.
- apply wp_ret. split_and!; [done..|]. intros i. cbn. by destruct (_ !! i).
- apply NoDup_cons in Hnd as [Hnot Hnd]. cbn [for_each]. wp_step.
  destruct (Hready rid r) as (Hr & Hq & Hst); [left|].
  eapply wp_mono; [|by eapply reclaim_row_spec]. intros [] s1 (Hg1 & He1 & Hl1 & HR1).
  eapply wp_mono; [|apply IH; [done..|]].
  + intros [] s2 (Hg2 & He2 & HR2). split_and!; [done|by etrans|]. intros i. rewrite HR2, HR1.
    cbn [fmap list_fmap fst]. destruct (decide (i = rid)) as [->|Hne].
    * rewrite lookup_insert_eq, Hr. cbn.
      rewrite bool_decide_eq_false_2, bool_decide_eq_true_2; [done|left|done].
    * rewrite lookup_insert_ne by done. destruct (requests s !! i); [|done]. cbn. f_equal.
      erewrite (bool_decide_ext (i ∈ rid :: l.*1)); [done|]. rewrite elem_of_cons. tauto.
  + intros i w Hi. destruct (Hready i w) as (Hw & ? & ?); [by right|].
    rewrite HR1, lookup_insert_ne; [done|]. intros ->. apply Hnot.
    apply list_elem_of_fmap. by exists (i, w).
Qed.

(** Every expired claim of the queue is given back, or failed for good once its
  attempts are used up; every other request is left as it was. *)
Lemma reclaim_spec now locked qid wid rq s :
good s → wp (reclaim_expired_requests now locked qid wid rq) (λ _ s', good s' ∧ extends s s' ∧
  ∀ i, requests s' !! i =
    (λ r, if expired_claim qid now locked i r then reclaimed now r else r) <$> requests s !! i) s.
Proof.
intros Hg. unfold reclaim_expired_requests. wp_step. apply (wp_load_queue exact); [apply Hg| |].
- intros Hno. wp_step. split_and!; [done..|]. intros i. destruct (requests s !! i) as [r|] eqn:Hi; [|done].
  cbn. f_equal. destruct (expired_claim qid now locked i r) eqn:He; [|done].
  unfold expired_claim in He. breflect. subst.
  destruct (inv_tenancy _ _ _ _ _ (proj1 Hg) _ _ Hi) as (q & Hq & _). by specialize (Hno _ Hq).
- intros q o s' Hq _ Ht Hco' Hl.
  assert (good s') as Hg' by (split; [eapply tables_eq_inv; [done|apply Hg]|done]).
  pose proof (tables_eq_extends _ _ Ht) as He.
  destruct Ht as (_ & HR & _ & _). rewrite <- HR. clear HR. do 3 wp_step.
  eapply wp_mono; [|apply reclaim_loop; [done|by eexists|apply NoDup_select_fst|]].
  + intros [] s2 (Hg2 & He2 & HR2). wp_step. split_and!; [done|by etrans|]. intros i. rewrite HR2.
    destruct (requests s' !! i) as [r|] eqn:Hi; [|done]. cbn. f_equal.
    destruct (expired_claim qid now locked i r) eqn:Hex.
    * rewrite bool_decide_eq_true_2; [done|]. apply list_elem_of_fmap. exists (i, r).
      split; [done|]. by apply elem_of_select.
    * rewrite bool_decide_eq_false_2; [done|].
      intros ([i' r'] & Hii & [Hr' He']%elem_of_select)%list_elem_of_fmap.
      cbn in Hii. subst i'. congruence.
  + intros rid r [Hr Hex]%elem_of_select. unfold expired_claim in Hex. by breflect.
Qed.
End preservation.

(** ** Worker handlers *)

Section worker.
Context `{Entropy, UnicodeDecimal, PyRepr}.
Variable exact : Prop.
Abbreviation good := (good exact).

(** What a completion that is accepted has checked and done. *)
Definition complete_result (clock handled_at : time) (a : worker_access)
  (R : gmap uuid RequestQueueRequest) (res : uuid * RequestQueueRequest)
  (R' : gmap uuid RequestQueueRequest) : Prop :=
let '(rid, r') := res in
R' = <[rid := r']> R ∧
∃ r token, R !! rid = Some r ∧ claim_current clock (str_of_uuid (wa_worker_id a)) token r = true ∧
  r_organization_id r = wa_organization_id a ∧ r_project_id r = wa_project_id a ∧
  wa_capability_queue a = inr (str_of_uuid (r_queue_id r)) ∧
  same_request r r' ∧ (r_status r' = HANDLED ∨ r_status r' = FAILED) ∧
  r_handled_at r' = Some handled_at ∧ r_attempt_count r' = r_attempt_count r.

Lemma completion_target_spec v (Q : request_status → db → Prop) s :
(∀ t, t = HANDLED ∨ t = FAILED → Q t s) → wp (completion_target v) Q s.
Proof. intros HQ. unfold completion_target. repeat wp_step; apply HQ; auto. Qed.

Lemma queue_complete_spec now clock handled_at a payload rq s :
good s → wp (complete_worker_queue_request now clock handled_at a payload rq)
  (λ res s', good s' ∧ extends s s' ∧
     complete_result clock handled_at a (requests s) res (requests s')) s.
Proof.
intros Hg. unfold complete_worker_queue_request, lift. wp_step.
destruct (wa_capability_queue a) as [e|cap] eqn:Hcap; [apply wp_raise|]. wp_step.
destruct payload as [| | | | | |d|]; try apply wp_raise. do 3 wp_step.
apply completion_target_spec. intros target Htarget.
do 2 wp_step. rename a0 into qid. do 2 wp_step. rename a0 into rid.
do 2 wp_step. rename a0 into token. do 2 wp_step. breflect.
wp_step. apply (wp_load_queue exact); [apply Hg|intros _; repeat wp_step; done|].
intros q o s' Hq _ Ht Hco' Hl.
assert (good s') as Hg' by (split; [eapply tables_eq_inv; [done|apply Hg]|done]).
pose proof (tables_eq_extends _ _ Ht) as He.
destruct Ht as (_ & HR & _ & _). rewrite <- HR. clear HR.
do 6 wp_step. rename a1 into r. do 4 wp_step. breflect.
match goal with Hx : requests s' !! rid = Some r |- _ => rename Hx into Hr end.
match goal with Hx : claim_current _ _ _ _ = true |- _ => rename Hx into Hcur end.
pose proof Hcur as Hcur'. unfold claim_current in Hcur'. breflect.
match goal with Hx : r_status r = CLAIMED |- _ => rename Hx into Hst end.
pose proof (inv_shape _ _ _ _ _ (proj1 Hg') _ _ Hr) as Hsh. unfold shape in Hsh.
rewrite Hst in Hsh. cbv zeta.
lazymatch goal with |- wp (update_request _ ?x ;; _) _ _ => set (r' := x) end.
replace (Some CLAIMED) with (Some (r_status r)) by congruence.
assert (r_status r' = target) as Htgt by done.
rewrite <- Htgt in Htarget |- *.
apply (queue_wp_move exact) with (o := o); [exact Hg'|exact Hr|done|exact Hl|..].
- intros []; by destruct Htarget as [-> | ->].
- done.
- rewrite Hst. destruct Htarget as [-> | ->]; constructor.
- unfold shape. destruct Htarget as [-> | ->]; unfold r'; cbn; split_and!; done || lia.
- rewrite bool_decide_eq_false_2; [cbn; lia|]. destruct Htarget as [-> | ->]; done.
- rewrite Hst. destruct Htarget as [-> | ->]; solve_counters.
- intros s2 Hg2 _ HR2 He2. repeat wp_step. split_and!; [exact Hg2|etrans; [exact He|by apply (queue_extends_tables _ _ _ _ He2)]|].
  cbn. split; [done|]. exists r, token. split_and!; try done. congruence.
Qed.

Lemma claim_worker_good now locked a payload rq secs s :
good s → wp (claim_worker_queue_request now locked a payload rq secs)
  (λ _ s', good s' ∧ extends s s') s.
Proof.
intros Hg. unfold claim_worker_queue_request, lift. wp_step.
destruct (wa_capability_queue a) as [e|cap]; [apply wp_raise|]. wp_step.
destruct payload as [| | | | | |d|]; try apply wp_raise. do 2 wp_step.
do 2 wp_step. rename a0 into qid. do 2 wp_step. wp_step.
apply (wp_load_queue exact); [apply Hg|intros _; repeat wp_step; done|].
intros q o s' Hq _ Ht Hco' Hl. do 2 wp_step.
assert (good s') as Hg' by (split; [eapply tables_eq_inv; [done|apply Hg]|done]).
pose proof (tables_eq_extends _ _ Ht) as He.
wp_step. eapply wp_mono; [|by apply (reclaim_spec exact)]. intros n s2 (Hg2 & He2 & _).
eapply wp_mono; [|by apply (claim_next_spec exact)]. intros res s3 (Hg3 & He3 & _).
split; [done|]. etrans; [exact He|]. by etrans.
Qed.
End worker.

(** ** Transactions and reachable states *)

Inductive op :=
| OpCreate (now : time) (organization_id project_id user_id : uuid) (actor_type : string)
    (actor_id : pystr) (request_id : string) (name : pystr)
| OpEnqueue (now : time) (queue_id user_id : uuid) (actor_type : string) (actor_id : pystr)
    (request_id : string) (validated : ValidatedQueueEnqueue)
| OpWorkerClaim (now : time) (locked : gset uuid) (a : worker_access) (payload : pyval)
    (request_id : string) (worker_lease_seconds : Z)
| OpComplete (now clock handled_at : time) (a : worker_access) (payload : pyval)
    (request_id : string)
| OpReclaim (now : time) (locked : gset uuid) (queue_id : uuid) (worker_id : pystr)
    (request_id : string)
| OpClaim (now : time) (locked : gset uuid) (queue_id : uuid) (worker_id : pystr)
    (request_id : string) (lease_seconds : Z).

Definition empty_db : db := MkDb ∅ ∅ ∅ [] [] ∅ 0.

Section reachability.
Context `{Entropy, UnicodeDecimal, PyRepr}.

(** The enqueue route: the queue is loaded for the permission check, then used. *)
Definition enqueue_route now qid uid at_ aid rq v : M db EnqueueOutcome :=
queue ← load_queue qid (λ _, true);
get_or_raise queue not_found ;;
enqueue_request now qid uid at_ aid rq v.

Definition run_op (o : op) : M db () :=
match o with
| OpCreate now org pid uid at_ aid rq name =>
    create_request_queue now org pid uid at_ aid rq name ;; mret ()
| OpEnqueue now qid uid at_ aid rq v => enqueue_route now qid uid at_ aid rq v ;; mret ()
| OpWorkerClaim now locked a payload rq secs =>
    claim_worker_queue_request now locked a payload rq secs ;; mret ()
| OpComplete now clock h a payload rq =>
    complete_worker_queue_request now clock h a payload rq ;; mret ()
| OpReclaim now locked qid wid rq => reclaim_expired_requests now locked qid wid rq ;; mret ()
| OpClaim now locked qid wid rq secs =>
    claim_next_request now locked qid wid rq secs ;; mret ()
end.

(** [get_db]: a fresh session per request, committed when the handler returns and
  rolled back when it raises (drawn random numbers stay drawn).  [objects] are the queues
  the session has loaded when the first lock is granted: the permission check and the
  worker handlers select the queue without a lock, and while they wait for it other
  transactions commit, so the objects can be older than the rows. *)
Definition begin (objects : gmap uuid RequestQueue) (s : db) : db := s <| loaded := objects |>.
Definition transaction {A} (objects : gmap uuid RequestQueue) (m : M db A) (s : db) : db :=
match m (begin objects s) with
| (inr _, s') => s'
| (inl _, s') => s <| rng := rng s' |>
end.
(** Objects of existing queues, with counters of any age. *)
Definition stale (objects : gmap uuid RequestQueue) (s : db) : Prop := coherent_on False objects (queues s).

Definition step_on (exact : Prop) (s s' : db) : Prop :=
∃ o objects, coherent_on exact objects (queues s) ∧ s' = transaction objects (run_op o) s.
(** Requests that overlap in any way, and requests whose objects no other transaction has
  overtaken. *)
Definition step : relation db := step_on False.
Definition serial_step : relation db := step_on True.
Definition reachable (s : db) : Prop := rtc step empty_db s.
Definition serially_reachable (s : db) : Prop := rtc serial_step empty_db s.

Lemma good_begin exact objects s : inv exact s → coherent_on exact objects (queues s) → good exact (begin objects s).
Proof. done. Qed.

Lemma enqueue_route_spec exact now qid uid at_ aid rq v s :
good exact s → wp (enqueue_route now qid uid at_ aid rq v) (λ res s', good exact s' ∧ extends s s' ∧
  receipts s' !! eo_receipt_id res = Some (eo_receipt res) ∧ e_queue_id (eo_receipt res) = qid ∧
  e_idempotency_key (eo_receipt res) = vq_idempotency_key v ∧
  e_request_digest (eo_receipt res) = vq_request_digest v) s.
Proof.
intros Hg. unfold enqueue_route. wp_step.
apply (wp_load_queue exact); [apply Hg|intros _; repeat wp_step; done|].
intros q o s1 Hq _ Ht Hco' Hl. do 2 wp_step.
eapply wp_mono; [|apply (enqueue_good exact); split; [eapply tables_eq_inv; [done|apply Hg]|done]].
intros res s2 (Hg2 & He2 & Hrest). split_and!; [done| |apply Hrest..].
etrans; [by apply tables_eq_extends|done].
Qed.

Lemma queue_run_op_spec exact o s : good exact s → wp (run_op o) (λ _ s', good exact s' ∧ extends s s') s.
Proof.
intros Hg. destruct o; cbn; wp_step.
- eapply wp_mono; [|by apply (create_good exact)]. intros. by wp_step.
- eapply wp_mono; [|by apply (enqueue_route_spec exact)]. intros ? ? (? & ? & _). by wp_step.
- eapply wp_mono; [|by apply (claim_worker_good exact)]. intros. by wp_step.
- eapply wp_mono; [|by apply (queue_complete_spec exact)]. intros ? ? (? & ? & _). by wp_step.
- eapply wp_mono; [|by apply (reclaim_spec exact)]. intros ? ? (? & ? & _). by wp_step.
- eapply wp_mono; [|by apply (claim_next_spec exact)]. intros ? ? (? & ? & _). by wp_step.
Qed.

Lemma queue_step_spec exact s s' : step_on exact s s' → inv exact s → inv exact s' ∧ extends s s'.
Proof.
intros (o & objects & Ho & ->) HI. unfold transaction.
pose proof (queue_run_op_spec exact o (begin objects s) (good_begin _ _ _ HI Ho)) as Hwp.
destruct (run_op o (begin objects s)) as [[e|[]] s1] eqn:E.
- split; [exact HI|]. by apply tables_eq_extends.
- destruct (Hwp _ _ E) as [[HI' _] He]. split; [exact HI'|].
  by apply (queue_extends_tables _ _ _ _ He).
Qed.

Lemma queue_steps_spec exact s s' : rtc (step_on exact) s s' → inv exact s → inv exact s' ∧ extends s s'.
Proof.
induction 1 as [s|s s1 s2 Hst _ IH]; intros HI; [done|].
destruct (queue_step_spec _ _ _ Hst HI) as [HI1 He1]. destruct (IH HI1) as [HI2 He2].
split; [done|by etrans].
Qed.

Lemma queue_inv_empty exact : inv exact empty_db.
Proof.
split; cbn; try (intros *; rewrite ?lookup_empty; done).
intros rid. rewrite lookup_empty. constructor.
Qed.

Lemma queue_reachable_inv s : reachable s → inv False s.
Proof. intros Hr. by destruct (queue_steps_spec _ _ _ Hr (queue_inv_empty _)). Qed.
Lemma queue_serial_inv s : serially_reachable s → inv True s.
Proof. intros Hr. by destruct (queue_steps_spec _ _ _ Hr (queue_inv_empty _)). Qed.
End reachability.

(** ** Properties *)

Section properties.
Context `{Entropy, UnicodeDecimal, PyRepr}.

(** C1: as long as requests on a queue do not overlap (no session works on a queue object
  that another transaction has changed since it was loaded), in every state reachable by
  committed and rolled-back requests the four counters of a queue are exactly the numbers
  of its requests in the four statuses; so none is negative, the database check on them
  never fires, and together they count every request of the queue. *)
Theorem queue_counters_exact (s : db) (qid : uuid) (q : RequestQueue)
  (Hr : serially_reachable s) (Hq : queues s !! qid = Some q) :
(∀ st, counter st q = countZ (in_status qid st) (requests s)) ∧
counts_nonneg q = true ∧
q_pending_count q + q_claimed_count q + q_handled_count q + q_failed_count q
  = countZ (λ r, bool_decide (r_queue_id r = qid)) (requests s).
Proof.
pose proof (queue_serial_inv _ Hr) as HI.
pose proof (λ st, inv_counts _ _ _ _ _ HI _ _ st I Hq) as Hc.
pose proof (λ st, counter_nonneg _ _ _ _ _ _ _ st HI I Hq) as Hn.
split_and!; [exact Hc|..].
- unfold counts_nonneg. pose proof (Hn PENDING). pose proof (Hn CLAIMED).
  pose proof (Hn HANDLED). pose proof (Hn FAILED). cbn in *.
  rewrite !andb_true_iff, !Z.leb_le. lia.
- pose proof (Hc PENDING) as H1'. pose proof (Hc CLAIMED) as H2'.
  pose proof (Hc HANDLED) as H3'. pose proof (Hc FAILED) as H4'. cbn in *.
  rewrite H1', H2', H3', H4'. unfold countZ. rewrite <- !sumZ_add.
  apply sumZ_ext. intros k r _. unfold in_status.
  destruct (bool_decide (r_queue_id r = qid)), (r_status r); reflexivity.
Qed.

(** C2: the recorded transitions of a request form a path of the life cycle
  (enqueue, claim, then give back, handle or fail) that ends in its current
  status; the claim columns are set exactly while it is claimed; and the number
  of claims on record is its attempt count, which never exceeds the maximum. *)
Theorem request_lifecycle (s : db) (rid : uuid) (r : RequestQueueRequest)
  (Hr : reachable s) (Hl : requests s !! rid = Some r) :
history (history_of rid (transitions s)) (Some (r_status r)) (r_attempt_count r) ∧
(r_status r = CLAIMED ↔ is_Some (r_claim_token r)) ∧
(is_Some (r_claim_token r) ↔ is_Some (r_claimed_by r)) ∧
(is_Some (r_claim_token r) ↔ is_Some (r_claim_expires_at r)) ∧
0 ≤ r_attempt_count r ≤ r_max_attempts r ∧
(r_status r = PENDING → r_attempt_count r < r_max_attempts r).
Proof.
pose proof (queue_reachable_inv _ Hr) as HI.
pose proof (inv_history _ _ _ _ _ HI rid) as Hh. rewrite Hl in Hh.
pose proof (inv_shape _ _ _ _ _ HI _ _ Hl) as Hs. unfold shape in Hs.
split; [exact Hh|].
destruct (r_status r), (r_claim_token r), (r_claimed_by r), (r_claim_expires_at r);
  destruct Hs as (Ha & Hb & Hc & Hd); try done; try (by destruct Ha);
  try (by destruct Hb); try (by destruct Hc);
  (split_and!; [split; intros; done || (by eexists) || (by destruct H2)..|lia|lia|done || lia]).
Qed.

(** C5: however old the queue object of its session, a claim hands out the oldest available request.  When a claim returns a
  request, that request was pending and available, none that was claimable
  precedes it in the order of creation, it is now held by this worker under a
  fresh token until the end of the lease, its attempt count went up by one, and
  no other request changed; when a claim returns nothing, nothing was claimable. *)
Theorem claim_is_fifo (s s' : db) objects now locked qid wid rq secs res
  (Hr : reachable s) (Ho : stale objects s)
  (Hrun : claim_next_request now locked qid wid rq secs (begin objects s) = (inr res, s')) :
claim_result now locked qid wid secs (bool_decide (is_Some (queues s !! qid)))
  (requests s) res (requests s').
Proof.
pose proof (claim_next_spec False now locked qid wid rq secs (begin objects s)
  (good_begin _ _ _ (queue_reachable_inv _ Hr) Ho) _ _ Hrun) as (_ & _ & Hres).
exact Hres.
Qed.

(** Reclaiming gives back exactly the expired claims of the queue: those with
  attempts left become pending again, those without fail with LEASE_EXPIRED, and
  every other request is untouched. *)
Theorem reclaim_exactly_expired (s s' : db) objects now locked qid wid rq n
  (Hr : reachable s) (Ho : stale objects s)
  (Hrun : reclaim_expired_requests now locked qid wid rq (begin objects s) = (inr n, s')) :
∀ i, requests s' !! i =
  (λ r, if expired_claim qid now locked i r then reclaimed now r else r) <$> requests s !! i.
Proof.
pose proof (reclaim_spec False now locked qid wid rq (begin objects s)
  (good_begin _ _ _ (queue_reachable_inv _ Hr) Ho) _ _ Hrun) as (_ & _ & Hres).
exact Hres.
Qed.

(** Nothing is undone.  Over any further sequence of operations a handled or
  failed request keeps its row, enqueue receipts keep theirs, and the log of
  transitions only grows. *)
Theorem terminal_and_receipts_permanent (s s' : db)
  (Hr : reachable s) (Hs : rtc step s s') :
(∀ rid r, requests s !! rid = Some r → terminal r → requests s' !! rid = Some r) ∧
receipts s ⊆ receipts s' ∧ transitions s `prefix_of` transitions s'.
Proof.
destruct (queue_steps_spec _ _ _ Hs (queue_reachable_inv _ Hr)) as [_ [He1 He2 _ _ He5]]. done.
Qed.

(** Counters and history are written to their own tables. *)
Lemma update_queue_requests now qid f s s' :
update_queue now qid f s = (inr (), s') → requests s' = requests s.
Proof.
intros Hrun. assert (wp (update_queue now qid f) (λ _ s', requests s' = requests s) s) as Hx;
  [|exact (Hx _ _ Hrun)]. unfold update_queue. repeat wp_step; done.
Qed.
Lemma add_transition_requests now rid r from to reason attempt details s s' :
add_transition now rid r from to reason attempt details s = (inr (), s') →
requests s' = requests s.
Proof.
intros Hrun. assert (wp (add_transition now rid r from to reason attempt details)
  (λ _ s', requests s' = requests s) s) as Hx; [|exact (Hx _ _ Hrun)].
by apply wp_add_transition.
Qed.

(** The receipt a key is looked up by. *)
Lemma find_receipt exact s qid key eid e :
inv exact s → receipts s !! eid = Some e → e_queue_id e = qid → e_idempotency_key e = key →
head (select (λ _ e, bool_decide (e_queue_id e = qid) && bool_decide (e_idempotency_key e = key))
        (receipts s)) = Some (eid, e).
Proof.
intros HI He Hq Hk. destruct (head _) as [[i e']|] eqn:Hh.
- apply head_select_Some in Hh as [Hi Hm]. breflect.
  assert (i = eid) as -> by (eapply (inv_keys _ _ _ _ _ HI); [done..|congruence|congruence]).
  congruence.
- pose proof (head_select_None _ _ Hh _ _ He) as Hf. cbn in Hf.
  rewrite !bool_decide_eq_true_2 in Hf by done. done.
Qed.

(** Loading an existing queue answers an object of it. *)
Lemma load_queue_object p objects s qid q : queues s !! qid = Some q → p q = true →
∃ o s', load_queue qid p (begin objects s) = (inr (Some o), s') ∧ tables_eq s s' ∧ loaded s' !! qid = Some o.
Proof.
intros Hq Hp. unfold load_queue, mbind, M_bind, gets. cbn. rewrite Hq, Hp.
destruct (objects !! qid) as [o|] eqn:Ho; [by exists o, (begin objects s)|].
exists q, (begin (<[qid := q]> objects) s). split_and!; [done..|]. apply lookup_insert_eq.
Qed.

(** C3: enqueueing is idempotent for good, also when sessions overlap.  Once an enqueue was accepted, then
  after any further operations the same idempotency key returns the original
  receipt and changes no table when it comes with the same request digest, and
  is refused with IDEMPOTENCY_KEY_REUSED when it comes with another. *)
Theorem enqueue_idempotent (s s1 s2 : db) objects now qid uid at_ aid rq v res
  objects' now' uid' at' aid' rq' v'
  (Hr : reachable s) (Ho : stale objects s)
  (Hrun : enqueue_route now qid uid at_ aid rq v (begin objects s) = (inr res, s1))
  (Hs : rtc step s1 s2)
  (Hkey : vq_idempotency_key v' = vq_idempotency_key v) :
∃ s3, tables_eq s2 s3 ∧
  enqueue_route now' qid uid' at' aid' rq' v' (begin objects' s2) =
    (if decide (vq_request_digest v' = vq_request_digest v)
     then inr (MkOutcome (eo_receipt_id res) (eo_receipt res) true)
     else inl (ApiError 409 "IDEMPOTENCY_KEY_REUSED"), s3).
Proof.
pose proof (enqueue_route_spec False now qid uid at_ aid rq v (begin objects s)
  (good_begin _ _ _ (queue_reachable_inv _ Hr) Ho) _ _ Hrun) as ([HI1 _] & He1 & Hrec & Hq & Hk & Hd).
destruct (queue_steps_spec _ _ _ Hs HI1) as [HI2 He2].
pose proof (lookup_weaken _ _ _ _ Hrec (ext_receipts _ _ He2)) as Hrec2.
destruct (inv_receipts _ _ _ _ _ HI2 _ _ Hrec2) as (r & Hr2 & Hrq & _).
destruct (inv_tenancy _ _ _ _ _ HI2 _ _ Hr2) as (q & Hq2 & _). rewrite Hrq, Hq in Hq2.
destruct (load_queue_object (λ _, true) objects' s2 qid q Hq2 eq_refl) as (o & s3 & Hload & Ht & Hl).
exists s3. split; [done|]. unfold enqueue_route, enqueue_request.
rewrite (run_bind _ _ _ _ _ Hload), (run_some _ _ _ _ o) by done.
rewrite run_gets, (run_some _ _ _ _ o) by done. rewrite run_gets.
destruct Ht as (_ & _ & -> & _). rewrite (find_receipt False s2 qid (vq_idempotency_key v') _ _ HI2 Hrec2 Hq ltac:(congruence)).
destruct (decide (vq_request_digest v' = vq_request_digest v)) as [Heq|Hne].
- by rewrite run_pass by (rewrite bool_decide_eq_true_2; [done|congruence]).
- by rewrite run_refuse by (rewrite bool_decide_eq_false_2; [done|congruence]).
Qed.

(** C4: a worker that lost its claim cannot complete the request.  A completion
  for a request in the worker's scope is refused with REQUEST_QUEUE_CLAIM_STALE,
  and changes nothing, unless the request is still claimed by that worker under
  the presented token and the claim has not expired; and one that is accepted
  was such a claim and moved just that request to the reported status. *)
Theorem stale_claim_fenced (s : db) objects now clock handled_at a d rq rid r token target q
  (Hr : reachable s)
  (Hkeys : has_exact_keys ["queue_id"; "request_id"; "claim_token"; "status";
                           "failure_code"; "failure_summary"] d = true)
  (Hst : dict_get "status" d = PStr (lit "HANDLED") ∧ target = HANDLED ∨
         dict_get "status" d = PStr (lit "FAILED") ∧ target = FAILED)
  (Hqid : uuid_arg (dict_get "queue_id" d) = Some (r_queue_id r))
  (Hrid : uuid_arg (dict_get "request_id" d) = Some rid)
  (Htok : uuid_arg (dict_get "claim_token" d) = Some token)
  (Hcap : wa_capability_queue a = inr (str_of_uuid (r_queue_id r)))
  (Hl : requests s !! rid = Some r) (Hq : queues s !! r_queue_id r = Some q)
  (Hscope : in_scope a q = true) :
let outcome := complete_worker_queue_request now clock handled_at a (PDict d) rq (begin objects s) in
(claim_current clock (str_of_uuid (wa_worker_id a)) token r = false →
   outcome.1 = inl (ApiError 409 "REQUEST_QUEUE_CLAIM_STALE") ∧ tables_eq s outcome.2) ∧
(∀ res, outcome.1 = inr res →
   claim_current clock (str_of_uuid (wa_worker_id a)) token r = true ∧ res.1 = rid ∧
   r_status res.2 = target ∧ requests outcome.2 = <[rid := res.2]> (requests s)).
Proof.
pose proof (queue_reachable_inv _ Hr) as HI.
destruct (inv_tenancy _ _ _ _ _ HI _ _ Hl) as (q0 & Hq0 & Ho & Hp). simplify_eq.
unfold in_scope in Hscope. breflect.
assert (completion_target (dict_get "status" d) (begin objects s) = (inr target, begin objects s)) as Ht.
{ destruct Hst as [[-> ->]|[-> ->]]; reflexivity. }
destruct (load_queue_object (in_scope a) objects s (r_queue_id r) q Hq) as (o & s1 & Hload & Heq & _).
{ unfold in_scope. by rewrite !bool_decide_eq_true_2 by done. }
intros outcome. subst outcome.
unfold complete_worker_queue_request, lift. rewrite Hcap, run_ret.
rewrite run_pass by (by rewrite Hkeys). rewrite (run_bind _ _ _ _ _ Ht).
rewrite (run_some _ _ _ _ _ Hqid), (run_some _ _ _ _ _ Hrid), (run_some _ _ _ _ _ Htok).
rewrite run_pass by (by rewrite bool_decide_eq_true_2).
rewrite (run_bind _ _ _ _ _ Hload), (run_some _ _ _ _ o) by done.
rewrite run_gets, (run_some _ _ _ _ r) by (destruct Heq as (_ & -> & _); exact Hl).
rewrite run_pass by (by rewrite !bool_decide_eq_true_2 by congruence).
destruct (claim_current _ _ _ r) eqn:Hcur; cbn [negb]; last first.
{ rewrite run_refuse by done. split; [done|]. by intros res. }
rewrite run_pass by done. cbv zeta. split; [done|]. intros res Hok. split; [done|].
lazymatch goal with |- context [update_request _ ?x] => set (r' := x) in * end.
destruct ((update_request rid r' ≫= _) s1) as [out s'] eqn:E. cbn in Hok |- *. subst out.
apply bind_ok in E as ([] & s2 & E1 & E). unfold update_request in E1. injection E1 as <-.
apply bind_ok in E as ([] & s3 & E2 & E). apply bind_ok in E as ([] & s4 & E3 & E).
apply bind_ok in E as ([] & s5 & E4 & E). injection E as <- <-. split_and!; [done..|]. cbn.
injection E4 as <-. cbn.
rewrite (add_transition_requests _ _ _ _ _ _ _ _ _ _ E3), (update_queue_requests _ _ _ _ _ E2).
destruct Heq as (_ & HR & _). cbn. by rewrite HR.
Qed.
End properties.

(** ** Concrete runs *)

Module Scenario.
#[local] Instance counting : Entropy := λ n, (n + 100)%N.
#[local] Instance no_decimals : UnicodeDecimal := λ _, None.
#[local] Instance no_repr : PyRepr := λ _, [].

Definition enq (key ident : string) : ValidatedQueueEnqueue :=
MkValidatedEnqueue (lit key) (lit "https://example.org/") None PNone (lit key) (lit ident).
Definition wid : pystr := str_of_uuid 7.

(** One queue (id 100) with one request (id 101). *)
Definition s_queue : db :=
transaction ∅ (run_op (OpCreate 0 1 2 3 "user" (lit "u") "rq" (lit "default"))) empty_db.
Definition s_enqueued : db :=
transaction ∅ (run_op (OpEnqueue 10 100 3 "user" (lit "u") "rq" (enq "k1" "i1"))) s_queue.
Definition s_claimed : db :=
transaction ∅ (run_op (OpClaim 20 ∅ 100 wid "rq" 60)) s_enqueued.

(** Sessions that have loaded nothing. *)
Lemma nothing_loaded exact s : coherent_on exact ∅ (queues s).
Proof. intros qid o Ho. by rewrite lookup_empty in Ho. Qed.
Lemma queue_step_op exact o s : step_on exact s (transaction ∅ (run_op o) s).
Proof. exists o, ∅. split; [apply nothing_loaded|done]. Qed.
Lemma reach_queue exact : rtc (step_on exact) empty_db s_queue.
Proof. apply rtc_once, queue_step_op. Qed.
Lemma reach_enqueued exact : rtc (step_on exact) empty_db s_enqueued.
Proof. eapply rtc_r; [apply reach_queue|apply queue_step_op]. Qed.
Lemma reach_claimed exact : rtc (step_on exact) empty_db s_claimed.
Proof. eapply rtc_r; [apply reach_enqueued|apply queue_step_op]. Qed.

Definition the_queue (s : db) : RequestQueue :=
default (MkQueue 0 0 [] 0 0 0 0 0 0 0 0) (queues s !! 100%N).
Definition blank_request : RequestQueueRequest :=
MkRequest 0 0 0 [] None [] PNone PENDING 0 0 0 None None None None None None 0 0 0 0.
Definition the_request (s : db) : RequestQueueRequest :=
default blank_request (requests s !! 101%N).

Lemma queue_counters_exact_witness :
q_claimed_count (the_queue s_claimed) = 1 ∧ counts_nonneg (the_queue s_claimed) = true.
Proof.
split; [vm_compute; reflexivity|].
apply (queue_counters_exact s_claimed 100 (the_queue s_claimed) (reach_claimed True)).
vm_compute. reflexivity.
Defined.

Lemma request_lifecycle_witness :
r_status (the_request s_claimed) = CLAIMED ∧
0 ≤ r_attempt_count (the_request s_claimed) ≤ r_max_attempts (the_request s_claimed).
Proof.
split; [vm_compute; reflexivity|].
apply (request_lifecycle s_claimed 101 (the_request s_claimed) (reach_claimed False)).
vm_compute. reflexivity.
Defined.

Definition claim_run := claim_next_request 20 ∅ 100 wid "rq" 60 (begin ∅ s_enqueued).
Definition claimed_row : RequestQueueRequest :=
match claim_run.1 with inr (Some (_, r)) => r | _ => blank_request end.
Lemma claim_is_fifo_witness :
claim_result 20 ∅ 100 wid 60 (bool_decide (is_Some (queues s_enqueued !! 100%N)))
  (requests s_enqueued) (Some (101%N, claimed_row))
  (requests claim_run.2).
Proof.
assert (Hrun : claim_run = (inr (Some (101%N, claimed_row)), claim_run.2))
  by (vm_compute; reflexivity).
exact (claim_is_fifo s_enqueued claim_run.2 ∅ 20 ∅ 100 wid "rq" 60 (Some (101%N, claimed_row))
         (reach_enqueued False) (nothing_loaded _ _) Hrun).
Defined.

Definition reclaim_run := reclaim_expired_requests (seconds 100) ∅ 100 wid "rq" (begin ∅ s_claimed).
Lemma reclaim_exactly_expired_witness :
requests reclaim_run.2 !! 101%N =
  (λ r, if expired_claim 100 (seconds 100) ∅ 101 r then reclaimed (seconds 100) r else r)
    <$> requests s_claimed !! 101%N.
Proof.
assert (Hrun : reclaim_run = (inr 1, reclaim_run.2)) by (vm_compute; reflexivity).
exact (reclaim_exactly_expired s_claimed reclaim_run.2 ∅ (seconds 100) ∅ 100 wid "rq" 1
         (reach_claimed False) (nothing_loaded _ _) Hrun 101%N).
Defined.

Definition completion : list (pykey * pyval) :=
[(KStr (lit "queue_id"), PStr (str_of_uuid 100));
 (KStr (lit "request_id"), PStr (str_of_uuid 101));
 (KStr (lit "claim_token"), PStr (str_of_uuid 104));
 (KStr (lit "status"), PStr (lit "HANDLED"));
 (KStr (lit "failure_code"), PNone); (KStr (lit "failure_summary"), PNone)].
Definition access : worker_access := MkAccess 9 1 2 7 (inr (str_of_uuid 100)).
Definition s_handled : db :=
transaction ∅ (run_op (OpComplete 30 30 31 access (PDict completion) "rq")) s_claimed.

Definition s_later : db :=
transaction ∅ (run_op (OpReclaim (seconds 100) ∅ 100 wid "rq")) s_handled.
Lemma reach_handled : reachable s_handled.
Proof. eapply rtc_r; [apply (reach_claimed False)|apply queue_step_op]. Qed.
Lemma steps_later : rtc step s_handled s_later.
Proof. apply rtc_once, queue_step_op. Qed.
Lemma terminal_and_receipts_permanent_witness :
terminal (the_request s_handled) ∧ requests s_later !! 101%N = Some (the_request s_handled).
Proof.
assert (Hl : requests s_handled !! 101%N = Some (the_request s_handled))
  by (vm_compute; reflexivity).
assert (Ht : terminal (the_request s_handled)) by (left; vm_compute; reflexivity).
exact (conj Ht (proj1 (terminal_and_receipts_permanent s_handled s_later reach_handled steps_later)
  101%N (the_request s_handled) Hl Ht)).
Defined.

Definition enq_run := enqueue_route 10 100 3 "user" (lit "u") "rq" (enq "k1" "i1") (begin ∅ s_queue).
Definition enq_res : EnqueueOutcome :=
match enq_run.1 with inr o => o | _ => MkOutcome 0 (MkReceipt 0 0 0 0 [] [] [] 0 0) false end.
Lemma enqueue_idempotent_witness :
∃ s3, tables_eq s_enqueued s3 ∧
  enqueue_route 50 100 4 "user" (lit "w") "rq2" (enq "k1" "i1") (begin {[ 100%N := the_queue s_queue ]} s_enqueued)
  = (if decide (vq_request_digest (enq "k1" "i1") = vq_request_digest (enq "k1" "i1"))
     then inr (MkOutcome (eo_receipt_id enq_res) (eo_receipt enq_res) true)
     else inl (ApiError 409 "IDEMPOTENCY_KEY_REUSED"), s3).
Proof.
assert (Hrun : enq_run = (inr enq_res, s_enqueued)) by (vm_compute; reflexivity).
exact (enqueue_idempotent s_queue s_enqueued s_enqueued ∅ 10 100 3 "user" (lit "u") "rq"
  (enq "k1" "i1") enq_res {[ 100%N := the_queue s_queue ]} 50 4 "user" (lit "w") "rq2" (enq "k1" "i1") (reach_queue False)
  (nothing_loaded _ _) Hrun (rtc_refl _ _) eq_refl).
Defined.

(** The claim expires at 60 s; a completion at 61 s is refused. *)
Lemma stale_claim_fenced_witness :
(complete_worker_queue_request 30 (seconds 61) (seconds 61) access (PDict completion) "rq"
   (begin ∅ s_claimed)).1 = inl (ApiError 409 "REQUEST_QUEUE_CLAIM_STALE").
Proof.
assert (Hl : requests s_claimed !! 101%N = Some (the_request s_claimed))
  by (vm_compute; reflexivity).
assert (Hq : queues s_claimed !! r_queue_id (the_request s_claimed) = Some (the_queue s_claimed))
  by (vm_compute; reflexivity).
assert (Hqid : uuid_arg (dict_get "queue_id" completion) = Some (r_queue_id (the_request s_claimed)))
  by (vm_compute; reflexivity).
assert (Hcap : wa_capability_queue access = inr (str_of_uuid (r_queue_id (the_request s_claimed))))
  by (vm_compute; reflexivity).
assert (Hrid : uuid_arg (dict_get "request_id" completion) = Some 101%N)
  by (vm_compute; reflexivity).
assert (Htok : uuid_arg (dict_get "claim_token" completion) = Some 104%N)
  by (vm_compute; reflexivity).
assert (Hst : dict_get "status" completion = PStr (lit "HANDLED")) by (vm_compute; reflexivity).
assert (Hsc : in_scope access (the_queue s_claimed) = true) by (vm_compute; reflexivity).
assert (Hcur : claim_current (seconds 61) (str_of_uuid (wa_worker_id access)) 104
  (the_request s_claimed) = false) by (vm_compute; reflexivity).
exact (proj1 (proj1 (stale_claim_fenced s_claimed ∅ 30 (seconds 61) (seconds 61) access completion
  "rq" 101 (the_request s_claimed) 104 HANDLED (the_queue s_claimed) (reach_claimed False)
  eq_refl (or_introl (conj Hst eq_refl)) Hqid Hrid Htok Hcap Hl Hq Hsc) Hcur)).
Defined.

(** ** A queue loaded before it is locked *)

(** Two enqueue requests whose sessions both load the queue before either of them
  locks it: the second works on the object it loaded. *)
Definition concurrent_enqueues : db :=
transaction {[ 100%N := the_queue s_queue ]} (run_op (OpEnqueue 11 100 3 "user" (lit "u") "rq" (enq "k2" "i2")))
  (transaction ∅ (run_op (OpEnqueue 10 100 3 "user" (lit "u") "rq" (enq "k1" "i1"))) s_queue).
Lemma reach_concurrent : reachable concurrent_enqueues.
Proof.
eapply rtc_r; [eapply rtc_r; [apply (reach_queue False)|apply queue_step_op]|]. eexists _, _. split; [|done].
intros i o [<- <-]%lookup_singleton_Some. eexists. split; [vm_compute; reflexivity|done].
Qed.

(** [enqueue_request] locks the row of the queue but increments the counter of
  the object the session loaded earlier.  When two enqueues overlap, both are
  accepted and the queue records one pending request for two; once the first is
  claimed, the check on the counters refuses every further claim, although a
  pending request is available. *)
Example overlapping_enqueues_lose_update :
q_pending_count (the_queue concurrent_enqueues) = 1 ∧
countZ (in_status 100 PENDING) (requests concurrent_enqueues) = 2 ∧
let s1 := transaction ∅ (run_op (OpClaim 20 ∅ 100 wid "rq" 60)) concurrent_enqueues in
countZ (in_status 100 PENDING) (requests s1) = 1 ∧
(claim_next_request 21 ∅ 100 wid "rq" 60 (begin ∅ s1)).1
  = inl (IntegrityError "ck_request_queues_nonnegative_counts").
Proof. repeat split; vm_compute; reflexivity. Qed.
End Scenario.
