(* ===== verification/EventProtocol.v ===== *)
(** Lifecycle-event envelopes (src/apps/api/app/event_protocol.py): the allowlist of
    event types and the strict validation of their payloads. *)

From S2P Require Import Prelude PyVal Json PyUuid QueueProtocol.

Definition EVENT_SCHEMA_VERSION : string := "rdc.event/v1".
Definition MAX_EVENT_PAYLOAD_BYTES : Z := 16384.

Record EventDefinition := MkEventDefinition {
  def_subject_type : string;
  def_payload_keys : list string;
  def_allowed_statuses : list string }.

Definition EVENT_DEFINITIONS (event_type : string) : option EventDefinition :=
  if decide (event_type = "build.created"%string) then
    Some (MkEventDefinition "build" ["agent_id"; "agent_version_id"; "status"] ["QUEUED"])
  else if decide (event_type = "run.created"%string) then
    Some (MkEventDefinition "run" ["agent_id"; "agent_version_id"; "build_id"; "status"]
            ["DRAFT"; "QUEUED"])
  else None.

(** [str.casefold], a table of the interpreter. *)
Class CaseFold := casefold : pystr → pystr.

Fixpoint contains (p s : pystr) : bool :=
  starts_with p s || match s with [] => false | _ :: t => contains p t end.

Definition sensitive_words : list string :=
  ["authorization"; "password"; "secret"; "credential"; "token"; "cookie"; "databaseurl";
   "redisurl"; "s3accesskey"; "s3secretkey"; "objectstoragecredential"].

Definition efail {A} (message : string) : exn + A := inl (ValueError message).
Section validation.
Context `{CaseFold, UnicodeDecimal}.

Definition sensitive_key (key : pystr) : bool :=
let normalized := base.filter (λ c, ((97 ≤ c ∧ c ≤ 122) ∨ (48 ≤ c ∧ c ≤ 57))%N) (casefold key) in
existsb (λ w, contains (lit w) normalized) sensitive_words.

(** [_validate_safe_value]; a string that cannot be encoded raises
  [UnicodeEncodeError], which is no [EventProtocolError]. *)
Fixpoint validate_safe_value (v : pyval) (depth : Z) : exn + () :=
if 8 <? depth then efail "Event payload nesting exceeds the safe bound"
else match v with
| PNone | PBool _ => inr ()
| PInt z => if 9007199254740991 <? Z.abs z
            then efail "Event payload integer exceeds the safe bound" else inr ()
| PStr s =>
    match utf8_encode s with
    | None => inl UnicodeEncodeError
    | Some b => if 2048 <? Z.of_nat (length b)
                then efail "Event payload string exceeds the safe bound" else inr ()
    end
| PList l =>
    if 100 <? Z.of_nat (length l) then efail "Event payload array exceeds the safe bound"
    else (fix go l : exn + () := match l with
          | [] => inr ()
          | x :: l => match validate_safe_value x (depth + 1) with
                      | inl e => inl e | inr _ => go l end
          end) l
| PDict kvs =>
    if 64 <? Z.of_nat (length kvs) then efail "Event payload object exceeds the safe bound"
    else (fix go kvs : exn + () := match kvs with
          | [] => inr ()
          | (KOther, _) :: _ => efail "Event payload keys must be bounded strings"
          | (KStr k, x) :: kvs =>
              if negb ((1 <=? Z.of_nat (length k)) && (Z.of_nat (length k) <=? 64))
              then efail "Event payload keys must be bounded strings"
              else if sensitive_key k then efail "Sensitive event payload keys are prohibited"
              else match validate_safe_value x (depth + 1) with
                   | inl e => inl e | inr _ => go kvs end
          end) kvs
| PFloat _ | POther => efail "Event payload contains an unsupported value type"
end.

Definition check_identifier (v : pyval) : exn + () :=
match v with
| PStr s =>
    match uuid_of_str s with
    | None => efail "Event resource identifier is invalid"
    | Some u => if bool_decide (str_of_uuid u = s) then inr ()
                else efail "Event resource identifier must be canonical"
    end
| _ => efail "Event resource identifiers must be strings"
end.

Fixpoint check_identifiers (keys : list string) (payload : list (pykey * pyval)) : exn + () :=
match keys with
| [] => inr ()
| k :: keys => check_identifier (dict_get k payload) ≫= λ _, check_identifiers keys payload
end.

Definition validate_event_payload `{PyFloats} (event_type subject_type : string)
  (payload : list (pykey * pyval)) : exn + pyval :=
match EVENT_DEFINITIONS event_type with
| None => efail "Event type is not allowlisted"
| Some d =>
    if negb (bool_decide (subject_type = def_subject_type d)) then
      efail "Event subject type does not match the event type"
    else if negb (has_exact_keys (def_payload_keys d) payload) then
      efail "Event payload shape does not match the event type"
    else if negb (existsb (λ st, bool_decide (dict_get "status" payload = PStr (lit st)))
                    (def_allowed_statuses d)) then
      efail "Event status does not match the event type"
    else
      check_identifiers (base.filter (λ k, k ≠ "status"%string) (def_payload_keys d)) payload ≫= λ _,
      validate_safe_value (PDict payload) 0 ≫= λ _,
      match json_bytes (PDict payload) with
      | None => inl UnicodeEncodeError
      | Some encoded =>
          if MAX_EVENT_PAYLOAD_BYTES <? Z.of_nat (length encoded)
          then efail "Event payload exceeds the byte limit"
          else match utf8_decode encoded ≫= json_loads with
               | Some v => inr v
               | None => efail "JSONDecodeError"
               end
      end
end.
End validation.

(** ** Lemmas *)

Section lemmas.
Context `{CaseFold, UnicodeDecimal, PyFloats}.

Lemma check_identifiers_inv keys payload k :
check_identifiers keys payload = inr () → k ∈ keys →
∃ u, dict_get k payload = PStr (str_of_uuid u).
Proof.
induction keys as [|k' keys IH]; [by intros _ ?%not_elem_of_nil|]. cbn.
destruct (check_identifier (dict_get k' payload)) as [e|[]] eqn:E; [done|].
intros Hrest [->|Hin]%elem_of_cons; [|by apply IH].
unfold check_identifier in E. destruct (dict_get k' payload) as [| | | |s| | |]; try done.
destruct (uuid_of_str s) as [u|]; [|done]. case_bool_decide; [|done]. exists u. congruence.
Qed.

(** An accepted event payload is its own canonical JSON form.  The stored value
  is the payload with its keys sorted, its encoding is at most 16,384 bytes, its
  status is one the event type allows, and every resource identifier in it is the
  canonical text of a UUID. *)
Theorem event_payload_canonical (event_type subject_type : string)
  (payload : list (pykey * pyval)) (v : pyval)
  (Hwf : wf_json (PDict payload))
  (Hv : validate_event_payload event_type subject_type payload = inr v) :
v = canon (PDict payload) ∧
(∃ b, json_bytes (PDict payload) = Some b ∧ Z.of_nat (length b) ≤ 16384 ∧
      utf8_decode b ≫= json_loads = Some v) ∧
∃ d, EVENT_DEFINITIONS event_type = Some d ∧ subject_type = def_subject_type d ∧
  has_exact_keys (def_payload_keys d) payload = true ∧
  (∃ st, st ∈ def_allowed_statuses d ∧ dict_get "status" payload = PStr (lit st)) ∧
  ∀ k, k ∈ def_payload_keys d → k ≠ "status"%string →
       ∃ u, dict_get k payload = PStr (str_of_uuid u).
Proof.
unfold validate_event_payload in Hv.
destruct (EVENT_DEFINITIONS event_type) as [d|] eqn:Hd; [|done].
destruct (negb (bool_decide _)) eqn:Hsub; [done|].
destruct (negb (has_exact_keys _ _)) eqn:Hkeys; [done|].
destruct (negb (existsb _ _)) eqn:Hst; [done|]. breflect.
unfold mbind, sum_bind in Hv.
destruct (check_identifiers _ payload) as [e|[]] eqn:Hids; [done|].
destruct (validate_safe_value _ _) as [e|[]]; [done|].
destruct (json_bytes (PDict payload)) as [b|] eqn:Hb; [|done].
destruct (MAX_EVENT_PAYLOAD_BYTES <? _) eqn:Hlen; [done|]. breflect.
pose proof (json_bytes_roundtrip _ _ Hwf Hb) as Hrt. unfold mbind in Hrt. unfold mbind in Hv.
rewrite Hrt in Hv. injection Hv as <-.
split_and!; [done|by exists b|]. exists d. split_and!; [done..| |].
- apply existsb_exists in Hst as (st & Hin & Hs). apply bool_decide_eq_true in Hs.
  exists st. by rewrite list_elem_of_In.
- intros k Hk Hne. eapply check_identifiers_inv; [exact Hids|]. by apply list_elem_of_filter.
Qed.
End lemmas.

Module Concrete.
#[local] Instance ascii_fold : CaseFold := λ s, s.
#[local] Instance no_decimals : UnicodeDecimal := λ _, None.
#[local] Instance plain_floats : PyFloats := λ r, FFin r.
Definition payload : list (pykey * pyval) :=
[(KStr (lit "status"), PStr (lit "QUEUED")); (KStr (lit "agent_version_id"), PStr (str_of_uuid 5));
 (KStr (lit "agent_id"), PStr (str_of_uuid 4))].
Lemma wf_payload : wf_json (PDict payload).
Proof.
apply wf_dict. split; [apply (bool_decide_unpack _); vm_compute; exact I|].
repeat (apply Forall_cons; split; [done|]). constructor.
Qed.
Lemma event_payload_canonical_witness :
validate_event_payload "build.created" "build" payload = inr (canon (PDict payload)) ∧
canon (PDict payload) = canon (PDict payload).
Proof.
assert (Hv : validate_event_payload "build.created" "build" payload = inr (canon (PDict payload)))
  by (vm_compute; reflexivity).
exact (conj Hv (proj1 (event_payload_canonical "build.created" "build" payload
  (canon (PDict payload)) wf_payload Hv))).
Defined.
End Concrete.
