(* ===== verification/Idempotency.v ===== *)
(** Idempotency records (IdempotencyRecord of src/apps/api/app/models.py) and the
    protocol every creating endpoint follows: validate the key, look the scope up,
    replay or refuse, and record the response of a new request.  The response
    snapshot is kept as the value it was rendered from.  [acquire_idempotency_lock]
    serialises requests of one scope, so each runs as one atomic step here. *)

From S2P Require Import Prelude PyVal Json QueueProtocol.

Record IdempotencyRecord (S : Type) := MkIdempotency {
  i_organization_id : uuid;
  i_principal_id : pystr;
  i_endpoint : string;
  i_key_digest : pystr;
  i_request_fingerprint : pystr;
  i_resource_type : string;
  i_resource_id : uuid;
  i_response_status : option Z;
  i_response_snapshot : option S;
  i_created_at : time;
  i_expires_at : time }.
Arguments MkIdempotency {S}.
Arguments i_organization_id {S}. Arguments i_principal_id {S}. Arguments i_endpoint {S}.
Arguments i_key_digest {S}. Arguments i_request_fingerprint {S}. Arguments i_resource_type {S}.
Arguments i_resource_id {S}. Arguments i_response_status {S}. Arguments i_response_snapshot {S}.
Arguments i_created_at {S}. Arguments i_expires_at {S}.

(** [validate_idempotency_key]. *)
Definition valid_idempotency_key (value : pystr) : bool :=
  (8 <=? Z.of_nat (length value)) && (Z.of_nat (length value) <=? 200).

(** [canonical_fingerprint] of src/apps/api/app/core/security.py, on values without
    NaN or infinities; [None] when the text cannot be encoded. *)
Definition canonical_fingerprint `{Sha256} (v : pyval) : option pystr := sha256_hex <$> json_bytes v.

Definition in_scope {S} (org : uuid) (principal : pystr) (endpoint : string) (key : pystr)
    (r : IdempotencyRecord S) : bool :=
  bool_decide (i_organization_id r = org) && bool_decide (i_principal_id r = principal)
  && bool_decide (i_endpoint r = endpoint) && bool_decide (i_key_digest r = key).

(** The outcome of the look-up: a conflict, a replayed response, or a new request. *)
Definition replay_of {S} (org : uuid) (principal : pystr) (endpoint : string)
    (key fingerprint : pystr) (l : list (IdempotencyRecord S)) : exn + option S :=
  match find (in_scope org principal endpoint key) l with
  | None => inr None
  | Some r =>
      if negb (bool_decide (i_request_fingerprint r = fingerprint))
      then inl (ApiError 409 "IDEMPOTENCY_CONFLICT")
      else match i_response_snapshot r with
           | None => inl (ApiError 409 "RESOURCE_CONFLICT")
           | Some x => inr (Some x)
           end
  end.

(** ** Lemmas *)

Lemma in_scope_refl {S} (r : IdempotencyRecord S) :
  in_scope (i_organization_id r) (i_principal_id r) (i_endpoint r) (i_key_digest r) r = true.
Proof. unfold in_scope. by rewrite !bool_decide_eq_true_2. Qed.

(** A scope that was free and was then recorded replays what was recorded, whatever
    is recorded later. *)
Lemma replay_recorded {S} (l l' : list (IdempotencyRecord S)) r x fp :
  find (in_scope (i_organization_id r) (i_principal_id r) (i_endpoint r) (i_key_digest r)) l = None →
  i_response_snapshot r = Some x →
  replay_of (i_organization_id r) (i_principal_id r) (i_endpoint r) (i_key_digest r) fp
    (l ++ r :: l')
  = if decide (i_request_fingerprint r = fp) then inr (Some x)
    else inl (ApiError 409 "IDEMPOTENCY_CONFLICT").
Proof.
  intros Hl Hx. unfold replay_of.
  assert (find (in_scope (i_organization_id r) (i_principal_id r) (i_endpoint r) (i_key_digest r))
            (l ++ r :: l') = Some r) as ->.
  { induction l as [|r0 l IH]; cbn in *; [by rewrite in_scope_refl|].
    destruct (in_scope _ _ _ _ r0); [done|]. by apply IH. }
  destruct (decide _).
  - by rewrite bool_decide_eq_true_2, Hx.
  - by rewrite bool_decide_eq_false_2.
Qed.

Lemma find_app {A} (p : A → bool) l l' x : find p l = Some x → find p (l ++ l') = Some x.
Proof. induction l as [|y l IH]; cbn; [done|]. by destruct (p y). Qed.

(** A replay stays the same whatever is recorded later. *)
Lemma replay_stable {S} org principal endpoint key fp (l l' : list (IdempotencyRecord S)) x :
  l `prefix_of` l' → replay_of org principal endpoint key fp l = inr (Some x) →
  replay_of org principal endpoint key fp l' = inr (Some x).
Proof.
  intros [k ->]. unfold replay_of. destruct (find _ l) as [r|] eqn:E; [|done].
  by rewrite (find_app _ _ k _ E).
Qed.

(** A key in use is refused for a request with another fingerprint. *)
Lemma replay_conflict {S} org principal endpoint key fp fp' (l : list (IdempotencyRecord S)) x :
  replay_of org principal endpoint key fp l = inr (Some x) → fp' ≠ fp →
  replay_of org principal endpoint key fp' l = inl (ApiError 409 "IDEMPOTENCY_CONFLICT").
Proof.
  unfold replay_of. destruct (find _ l) as [r|]; [|done]. case_bool_decide; [|done].
  intros _ Hne. rewrite bool_decide_eq_false_2 by congruence. done.
Qed.

Lemma replay_new {S} org principal endpoint key fp (l : list (IdempotencyRecord S)) rt rid st x c e :
  replay_of org principal endpoint key fp l = inr None →
  replay_of org principal endpoint key fp
    (l ++ [MkIdempotency org principal endpoint key fp rt rid st (Some x) c e]) = inr (Some x).
Proof.
  intros Hr. set (r := MkIdempotency _ _ _ _ _ _ _ _ _ _ _).
  pose proof (replay_recorded l [] r x fp) as Hrec. rewrite decide_True in Hrec by done.
  apply Hrec; [|done]. unfold replay_of in Hr. cbn. destruct (find _ l); [|done].
  repeat case_match; done.
Qed.
