(* ===== verification/Webhooks.v ===== *)
(** Webhook delivery: the tables WebhookDestination, WebhookDeliveryAttempt,
    WebhookDeliveryTransition and Event of src/apps/api/app/models.py, the
    operations of services/webhook_deliveries.py, the life-cycle operations of
    services/webhook_destinations.py and the event emission of services/events.py. *)

From S2P Require Import Prelude PyVal Json PyUuid QueueProtocol EventProtocol Idempotency.

(** ** Tables *)

Inductive destination_status := PENDING_VERIFICATION | ACTIVE | DISABLED.
#[export] Instance destination_status_eq_dec : EqDecision destination_status.
Proof. solve_decision. Defined.

Inductive delivery_status := PENDING | CLAIMED | RETRY_WAIT | SUCCEEDED | DEAD_LETTERED | CANCELLED.
#[export] Instance delivery_status_eq_dec : EqDecision delivery_status.
Proof. solve_decision. Defined.

Record WebhookDestination := MkDestination {
  d_organization_id : uuid;
  d_project_id : uuid;
  d_name : pystr;
  d_endpoint_url : pystr;
  d_endpoint_origin : pystr;
  d_event_types : list string;
  d_status : destination_status;
  d_verified_at : option time;
  d_consecutive_failure_count : Z;
  d_failure_threshold : Z;
  d_disabled_reason : option string;
  d_signing_secret_id : uuid;
  d_signing_secret_version : Z;
  d_created_by_user_id : uuid;
  d_updated_by_user_id : uuid;
  d_version : Z;
  d_created_at : time;
  d_updated_at : time }.
#[export] Instance eta_destination : Eta WebhookDestination := λ d,
  MkDestination (d_organization_id d) (d_project_id d) (d_name d) (d_endpoint_url d)
    (d_endpoint_origin d) (d_event_types d) (d_status d) (d_verified_at d)
    (d_consecutive_failure_count d) (d_failure_threshold d) (d_disabled_reason d)
    (d_signing_secret_id d) (d_signing_secret_version d) (d_created_by_user_id d)
    (d_updated_by_user_id d) (d_version d) (d_created_at d) (d_updated_at d).

Record WebhookDeliveryAttempt := MkDelivery {
  w_organization_id : uuid;
  w_project_id : uuid;
  w_destination_id : uuid;
  w_event_id : uuid;
  w_endpoint_url : pystr;
  w_signing_secret_id : uuid;
  w_signing_secret_version : Z;
  w_status : delivery_status;
  w_attempt_count : Z;
  w_max_attempts : Z;
  w_available_at : time;
  w_claim_token : option uuid;
  w_claim_token_digest : option pystr;
  w_claimed_by : option pystr;
  w_claim_expires_at : option time;
  w_last_error_code : option string;
  w_last_http_status : option Z;
  w_completed_at : option time;
  w_replay_count : Z;
  w_last_replayed_at : option time;
  w_last_replay_key_digest : option pystr;
  w_replay_requested_by_user_id : option uuid;
  w_version : Z;
  w_created_at : time;
  w_updated_at : time }.
#[export] Instance eta_delivery : Eta WebhookDeliveryAttempt := λ w,
  MkDelivery (w_organization_id w) (w_project_id w) (w_destination_id w) (w_event_id w)
    (w_endpoint_url w) (w_signing_secret_id w) (w_signing_secret_version w) (w_status w)
    (w_attempt_count w) (w_max_attempts w) (w_available_at w) (w_claim_token w)
    (w_claim_token_digest w) (w_claimed_by w) (w_claim_expires_at w) (w_last_error_code w)
    (w_last_http_status w) (w_completed_at w) (w_replay_count w) (w_last_replayed_at w)
    (w_last_replay_key_digest w) (w_replay_requested_by_user_id w) (w_version w)
    (w_created_at w) (w_updated_at w).

Record WebhookDeliveryTransition := MkTransition {
  t_id : uuid;
  t_organization_id : uuid;
  t_project_id : uuid;
  t_delivery_id : uuid;
  t_sequence : Z;
  t_from_status : option delivery_status;
  t_to_status : delivery_status;
  t_reason_code : string;
  t_attempt_count : Z;
  t_claim_token : option uuid;
  t_created_at : time }.

Record Event := MkEvent {
  ev_organization_id : uuid;
  ev_project_id : uuid;
  ev_event_type : string;
  ev_schema_version : string;
  ev_subject_type : string;
  ev_subject_id : uuid;
  ev_payload : pyval;
  ev_payload_digest : pystr;
  ev_emitter : string;
  ev_request_id : pystr;
  ev_occurred_at : time;
  ev_created_at : time }.

(** [secrets] keeps the version of each project secret. *)
Record db := MkDb {
  destinations : gmap uuid WebhookDestination;
  deliveries : gmap uuid WebhookDeliveryAttempt;
  events : gmap uuid Event;
  transitions : list WebhookDeliveryTransition;
  secret_versions : gmap uuid Z;
  idempotency : list (IdempotencyRecord (uuid * WebhookDestination));
  audits : list audit_event;
  rng : N }.
#[export] Instance eta_db : Eta db := λ s,
  MkDb (destinations s) (deliveries s) (events s) (transitions s) (secret_versions s)
    (idempotency s) (audits s) (rng s).
#[export] Instance db_audit : HasAudit db := {|
  audit_log := audits;
  audit_push e s := s <| audits ::= λ l, l ++ [e] |>;
  audit_push_log e s := eq_refl |}.

(** [str.isalnum] beyond ASCII, a table of the interpreter. *)
Class UnicodeAlnum := unicode_alnum : N → bool.

(** [secrets.token_hex(32)], in the order the tokens are drawn. *)
Class Tokens := token_hex : N → pystr.

(** [ValidatedWebhookDestination]. *)
Record ValidatedWebhookDestination := MkValidatedDestination {
  vd_endpoint_url : pystr; vd_endpoint_origin : pystr; vd_event_types : list string }.

Section ops.
Context `{Entropy, Tokens, Sha256}.

Definition fresh_uuid : M db uuid := λ s, (inr (uuid4 (rng s)), s <| rng ::= N.succ |>).
Definition fresh_token : M db pystr := λ s, (inr (token_hex (rng s)), s <| rng ::= N.succ |>).

Definition update_delivery (wid : uuid) (w : WebhookDeliveryAttempt) : M db () :=
modify (λ s, s <| deliveries ::= <[wid := w]> |>).
Definition update_destination (did : uuid) (d : WebhookDestination) : M db () :=
modify (λ s, s <| destinations ::= <[did := d]> |>).

(** [select(func.max(sequence))] over the transitions of a delivery; 0 when none. *)
Definition latest_sequence (wid : uuid) (l : list WebhookDeliveryTransition) : Z :=
foldr Z.max 0 (t_sequence <$> base.filter (λ t, t_delivery_id t = wid) l).

Definition append_transition (now : time) (wid : uuid) (w : WebhookDeliveryAttempt)
  (from_status : option delivery_status) (reason_code : string) : M db () :=
latest ← gets (λ s, latest_sequence wid (transitions s));
id ← fresh_uuid;
taken ← gets (λ s, existsb (λ t, t_id t =? id)%N (transitions s));
raise_if taken (IntegrityError "webhook_delivery_transitions_pkey") ;;
modify (λ s, s <| transitions ::= λ l, l ++
  [MkTransition id (w_organization_id w) (w_project_id w) wid (latest + 1) from_status
     (w_status w) reason_code (w_attempt_count w) None now] |>).

Definition insert_delivery (w : WebhookDeliveryAttempt) : M db uuid :=
id ← fresh_uuid;
taken ← gets (λ s, deliveries s !! id);
raise_if (bool_decide (is_Some taken)) (IntegrityError "webhook_delivery_attempts_pkey") ;;
modify (λ s, s <| deliveries ::= <[id := w]> |>) ;;
mret id.

Definition deliverable (st : destination_status) : bool :=
bool_decide (st ∈ [PENDING_VERIFICATION; ACTIVE]).

(** [loaded] is the destination object the session already holds, which the SELECT returns
  instead of the row it finds. *)
Definition enqueue_webhook_delivery (now : time) (loaded : option WebhookDestination)
  (project_id destination_id event_id : uuid) (max_attempts : Z) : M db uuid :=
raise_if (negb ((1 <=? max_attempts) && (max_attempts <=? 8)))
  (ValueError "Webhook max attempts must be between 1 and 8") ;;
existing ← gets (λ s, head (select (λ _ w, bool_decide (w_destination_id w = destination_id)
                              && bool_decide (w_event_id w = event_id)) (deliveries s)));
match existing with
| Some (wid, _) => mret wid
| None =>
    row ← gets (λ s, destinations s !! destination_id);
    erow ← gets (λ s, events s !! event_id);
    match row, erow with
    | Some row, Some e =>
        let d := default row loaded in
        raise_if (negb (bool_decide (d_project_id row = project_id) && deliverable (d_status row)
                        && bool_decide (ev_project_id e = project_id)
                        && bool_decide (ev_event_type e ∈ d_event_types d))) not_found ;;
        let w := MkDelivery (d_organization_id d) project_id destination_id event_id
          (d_endpoint_url d) (d_signing_secret_id d) (d_signing_secret_version d) PENDING
          0 max_attempts now None None None None None None None 0 None None None 1 now now in
        wid ← insert_delivery w;
        append_transition now wid w None "ENQUEUED" ;;
        mret wid
    | _, _ => raise not_found
    end
end.

Definition matching (e : Event) (_ : uuid) (d : WebhookDestination) : bool :=
bool_decide (d_project_id d = ev_project_id e) && bool_decide (d_status d = ACTIVE)
&& bool_decide (ev_event_type e ∈ d_event_types d).

Definition enqueue_matching_webhook_deliveries (now : time) (eid : uuid) (e : Event) : M db () :=
rows ← gets (λ s, select (matching e) (destinations s));
for_each (λ x : uuid * WebhookDestination,
  enqueue_webhook_delivery now None (ev_project_id e) x.1 eid 5 ;; mret ()) rows.

Definition get_webhook_delivery (project_id wid : uuid) : M db WebhookDeliveryAttempt :=
row ← gets (λ s, deliveries s !! wid);
w ← get_or_raise row not_found;
raise_if (negb (bool_decide (w_project_id w = project_id))) not_found ;;
mret w.

(** [.order_by(sequence)]. *)
Definition list_webhook_delivery_transitions (project_id wid : uuid)
  : M db (list WebhookDeliveryTransition) :=
get_webhook_delivery project_id wid ;;
gets (λ s, order_by (by_keys (λ t, [t_sequence t]))
             (base.filter (λ t, t_delivery_id t = wid) (transitions s))).

Definition version_conflict : exn := ApiError 409 "VERSION_CONFLICT".

(** A dead-lettered delivery put back to its first attempt. *)
Definition replayed (now : time) (key_digest : pystr) (user_id : uuid)
  (w : WebhookDeliveryAttempt) : WebhookDeliveryAttempt :=
w <| w_status := PENDING |> <| w_attempt_count := 0 |> <| w_available_at := now |>
  <| w_claim_token := None |> <| w_claim_token_digest := None |>
  <| w_claimed_by := None |> <| w_claim_expires_at := None |>
  <| w_last_error_code := None |> <| w_last_http_status := None |>
  <| w_completed_at := None |> <| w_replay_count ::= Z.succ |>
  <| w_last_replayed_at := Some now |>
  <| w_last_replay_key_digest := Some key_digest |>
  <| w_replay_requested_by_user_id := Some user_id |>
  <| w_updated_at := now |> <| w_version ::= Z.succ |>.
(** A destination disabled by its failures, enabled again. *)
Definition reenabled (now : time) (d : WebhookDestination) : WebhookDestination :=
d <| d_status := match d_verified_at d with Some _ => ACTIVE | None => PENDING_VERIFICATION end |>
  <| d_consecutive_failure_count := 0 |> <| d_disabled_reason := None |>
  <| d_version ::= Z.succ |> <| d_updated_at := now |>.

(** The key's length is checked on the text, its digest taken of the encoding. *)
Definition replay_webhook_delivery (now : time) (project_id delivery_id : uuid)
  (expected_version : Z) (idempotency_key : pystr) (user_id : uuid) (actor_type : string)
  (actor_id : pystr) (request_id : string) : M db WebhookDeliveryAttempt :=
raise_if (negb ((8 <=? Z.of_nat (length idempotency_key))
                && (Z.of_nat (length idempotency_key) <=? 200)))
  (ApiError 400 "INVALID_REQUEST") ;;
encoded ← get_or_raise (utf8_encode idempotency_key) UnicodeEncodeError;
let key_digest := sha256_hex encoded in
w ← get_webhook_delivery project_id delivery_id;
if bool_decide (w_last_replay_key_digest w = Some key_digest) then mret w else
raise_if (negb (w_version w =? expected_version)) version_conflict ;;
raise_if (negb (bool_decide (w_status w = DEAD_LETTERED)))
  (ApiError 409 "WEBHOOK_REPLAY_INVALID") ;;
row ← gets (λ s, destinations s !! w_destination_id w);
d ← get_or_raise row (ApiError 409 "WEBHOOK_REPLAY_CONFIGURATION_CHANGED");
raise_if (negb (bool_decide (d_disabled_reason d ∈ [None; Some "AUTO_FAILURE_THRESHOLD"%string])
                && bool_decide (d_endpoint_url d = w_endpoint_url w)
                && bool_decide (d_signing_secret_id d = w_signing_secret_id w)
                && (d_signing_secret_version d =? w_signing_secret_version w)))
  (ApiError 409 "WEBHOOK_REPLAY_CONFIGURATION_CHANGED") ;;
(if bool_decide (d_status d = DISABLED) then
   update_destination (w_destination_id w)
     (reenabled now d)
 else mret ()) ;;
let w' := replayed now key_digest user_id w in
update_delivery delivery_id w' ;;
append_transition now delivery_id w' (Some (w_status w)) "MANUAL_REPLAY" ;;
append_audit_event (MkAudit (Some (w_organization_id w')) (Some (w_project_id w'))
  actor_type actor_id "webhook.delivery.replayed" "webhook_delivery" (Some delivery_id)
  request_id [("destination_id"%string, DUuid (w_destination_id w'));
              ("replay_count"%string, DInt (w_replay_count w'))]) ;;
mret w'.

(** [[a-z0-9][a-z0-9._-]{0,63}]. *)
Definition lower_alnum (c : N) : bool := (((97 <=? c) && (c <=? 122)) || ((48 <=? c) && (c <=? 57)))%N.
Definition valid_worker_id (s : pystr) : bool :=
match s with
| c :: t => lower_alnum c && bool_decide (length t ≤ 63)%nat
            && forallb (λ c, lower_alnum c || bool_decide (c ∈ lit "._-")) t
| [] => false
end.

(** [_claim_digest]; [None] when the token is not ASCII. *)
Definition claim_digest (token : pystr) : option pystr :=
if forallb (λ c, c <? 128)%N token then Some (sha256_hex token) else None.

(** The WHERE clause of a claim; the inner join drops deliveries whose destination
  is missing. *)
Definition webhook_claimable (project_id : uuid) (now : time) (locked : gset uuid)
  (ds : gmap uuid WebhookDestination) (wid : uuid) (w : WebhookDeliveryAttempt) : bool :=
match ds !! w_destination_id w with
| None => false
| Some d =>
    bool_decide (w_project_id w = project_id)
    && ((bool_decide (w_status w ∈ [PENDING; RETRY_WAIT]) && (w_available_at w <=? now)
         && deliverable (d_status d))
        || (bool_decide (w_status w = CLAIMED)
            && match w_claim_expires_at w with Some t => t <=? now | None => false end))
    && negb (bool_decide (wid ∈ locked))
end.
Definition claim_key (x : uuid * WebhookDeliveryAttempt) : list Z :=
[w_available_at x.2; w_created_at x.2; Z.of_N x.1].

(** One more terminal failure of a destination. *)
Definition count_failure (now : time) (d : WebhookDestination) : WebhookDestination :=
let n := Z.min (d_failure_threshold d) (d_consecutive_failure_count d + 1) in
let d := d <| d_consecutive_failure_count := n |> in
let d := if d_failure_threshold d <=? n
         then d <| d_status := DISABLED |> <| d_disabled_reason := Some "AUTO_FAILURE_THRESHOLD"%string |>
         else d in
d <| d_version ::= Z.succ |> <| d_updated_at := now |>.

(** The tail of a claim: the delivery is leased under a fresh token. *)
Definition take_claim (now : time) (wid : uuid) (w : WebhookDeliveryAttempt)
  (worker_id : pystr) (lease_seconds : Z)
  : M db (option (uuid * WebhookDeliveryAttempt * pystr)) :=
token ← fresh_token;
digest ← get_or_raise (claim_digest token) (ValueError "Webhook claim token is invalid");
let w' := w <| w_status := CLAIMED |> <| w_claim_token := None |>
            <| w_claimed_by := Some worker_id |> <| w_claim_token_digest := Some digest |>
            <| w_claim_expires_at := Some (now + seconds lease_seconds) |>
            <| w_attempt_count ::= Z.succ |> <| w_version ::= Z.succ |> <| w_updated_at := now |> in
update_delivery wid w' ;;
append_transition now wid w' (Some (w_status w)) "CLAIMED" ;;
mret (Some (wid, w', token)).

(** An expired claim: retried while attempts are left, dead-lettered otherwise. *)
Definition expire_claim (now : time) (w : WebhookDeliveryAttempt) : WebhookDeliveryAttempt :=
let st := if w_max_attempts w <=? w_attempt_count w then DEAD_LETTERED else RETRY_WAIT in
w <| w_status := st |> <| w_claim_token := None |>
  <| w_claim_token_digest := None |> <| w_claimed_by := None |>
  <| w_claim_expires_at := None |>
  <| w_last_error_code := Some "CLAIM_EXPIRED"%string |>
  <| w_completed_at := match st with DEAD_LETTERED => Some now | _ => None end |>
  <| w_available_at := now |> <| w_version ::= Z.succ |> <| w_updated_at := now |>.

Definition claim_webhook_delivery (now : time) (locked : gset uuid) (project_id : uuid)
  (worker_id : pystr) (lease_seconds : Z)
  : M db (option (uuid * WebhookDeliveryAttempt * pystr)) :=
raise_if (negb ((15 <=? lease_seconds) && (lease_seconds <=? 120)) || negb (valid_worker_id worker_id))
  (ValueError "Webhook claim parameters are invalid") ;;
row ← gets (λ s, head (order_by (by_keys claim_key)
         (select (webhook_claimable project_id now locked (destinations s)) (deliveries s))));
match row with
| None => mret None
| Some (wid, w) =>
    if bool_decide (w_status w = CLAIMED) then
      let w1 := expire_claim now w in
      update_delivery wid w1 ;;
      append_transition now wid w1 (Some CLAIMED) "CLAIM_EXPIRED" ;;
      match w_status w1 with
      | DEAD_LETTERED =>
          drow ← gets (λ s, destinations s !! w_destination_id w1);
          match drow with
          | Some d =>
              if bool_decide (d_status d = DISABLED) then mret None
              else update_destination (w_destination_id w1) (count_failure now d) ;; mret None
          | None => mret None
          end
      | _ => take_claim now wid w1 worker_id lease_seconds
      end
    else take_claim now wid w worker_id lease_seconds
end.

Definition fenced : exn := ApiError 409 "WEBHOOK_CLAIM_FENCED".
(** [min(3600, 2 ** min(attempt_count, 10) * 5)]. *)
Definition retry_delay (attempt_count : Z) : Z := Z.min 3600 (2 ^ Z.min attempt_count 10 * 5).

(** The claim presented is the current one.  The token is only digested when the
  delivery is claimed, so an unencodable token raises just then. *)
Definition check_claim (now : time) (w : WebhookDeliveryAttempt) (claim_token : pystr) : M db () :=
raise_if (negb (bool_decide (w_status w = CLAIMED))) fenced ;;
digest ← get_or_raise (claim_digest claim_token) (ValueError "Webhook claim token is invalid");
raise_if (negb (bool_decide (w_claim_token_digest w = Some digest))) fenced ;;
raise_if (match w_claim_expires_at w with Some t => t <=? now | None => true end) fenced.

(** The row after a reported outcome, and the reason its transition records. *)
Definition completed (now : time) (succeeded : bool) (http_status : option Z)
  (error_code : option string) (w : WebhookDeliveryAttempt) : WebhookDeliveryAttempt :=
let w1 :=
  if succeeded then w <| w_status := SUCCEEDED |> <| w_completed_at := Some now |>
  else if w_max_attempts w <=? w_attempt_count w then
    w <| w_status := DEAD_LETTERED |> <| w_completed_at := Some now |>
  else
    w <| w_status := RETRY_WAIT |>
      <| w_available_at := now + seconds (retry_delay (w_attempt_count w)) |> in
w1 <| w_last_http_status := http_status |> <| w_last_error_code := error_code |>
   <| w_claim_token := None |> <| w_claimed_by := None |> <| w_claim_expires_at := None |>
   <| w_claim_token_digest := None |> <| w_version ::= Z.succ |> <| w_updated_at := now |>.
Definition completion_reason (succeeded : bool) (w : WebhookDeliveryAttempt) : string :=
if succeeded then "DELIVERED"
else if w_max_attempts w <=? w_attempt_count w then "ATTEMPTS_EXHAUSTED"
else "RETRY_SCHEDULED".
(** A destination a delivery reached. *)
Definition delivered_to (now : time) (d : WebhookDestination) : WebhookDestination :=
d <| d_status := ACTIVE |> <| d_verified_at := Some (default now (d_verified_at d)) |>
  <| d_consecutive_failure_count := 0 |> <| d_disabled_reason := None |>
  <| d_version ::= Z.succ |> <| d_updated_at := now |>.

Definition complete_webhook_delivery (now : time) (delivery_id : uuid) (claim_token : pystr)
  (succeeded : bool) (http_status : option Z) (error_code : option string)
  : M db WebhookDeliveryAttempt :=
row ← gets (λ s, deliveries s !! delivery_id);
w ← get_or_raise row fenced;
check_claim now w claim_token ;;
drow ← gets (λ s, destinations s !! w_destination_id w);
d ← get_or_raise drow fenced;
raise_if (negb (deliverable (d_status d))) fenced ;;
let w' := completed now succeeded http_status error_code w in
let reason := completion_reason succeeded w in
update_delivery delivery_id w' ;;
append_transition now delivery_id w' (Some (w_status w)) reason ;;
(if succeeded then
   update_destination (w_destination_id w) (delivered_to now d)
 else if bool_decide (w_status w' = DEAD_LETTERED) then
   update_destination (w_destination_id w) (count_failure now d)
 else mret ()) ;;
mret w'.

(** ** services/webhook_destinations.py *)

Definition create_endpoint : string := "POST:/api/v1/projects/{project_id}/webhook-destinations".

(** The request after [_validated]; [secret_digest] is the digest of the signing
  secret, whose encrypted form is not part of the state. *)
Definition create_webhook_destination (now : time) (organization_id project_id user_id : uuid)
  (actor_type : string) (actor_id idempotency_key : pystr) (request_id : string)
  (name : pystr) (validated : ValidatedWebhookDestination) (secret_digest : pystr)
  : M db (uuid * WebhookDestination * bool) :=
raise_if (negb (valid_idempotency_key idempotency_key)) (ApiError 400 "INVALID_REQUEST") ;;
encoded ← get_or_raise (utf8_encode idempotency_key) UnicodeEncodeError;
let key_digest := sha256_hex encoded in
fingerprint ← get_or_raise (canonical_fingerprint (PDict
  [(KStr (lit "project_id"), PStr (str_of_uuid project_id));
   (KStr (lit "name"), PStr name);
   (KStr (lit "endpoint_url"), PStr (vd_endpoint_url validated));
   (KStr (lit "event_types"), PList ((λ t, PStr (lit t)) <$> vd_event_types validated));
   (KStr (lit "signing_secret_digest"), PStr secret_digest)])) UnicodeEncodeError;
records ← gets idempotency;
match replay_of organization_id (str_of_uuid user_id) create_endpoint key_digest fingerprint records with
| inl e => raise e
| inr (Some (did, d)) => mret (did, d, true)
| inr None =>
    duplicate ← gets (λ s, exists_row (λ _ d, bool_decide (d_project_id d = project_id)
                                             && bool_decide (d_name d = name)) (destinations s));
    raise_if duplicate (ApiError 409 "WEBHOOK_DESTINATION_ALREADY_EXISTS") ;;
    did ← fresh_uuid;
    secret_id ← fresh_uuid;
    secret ← gets (λ s, secret_versions s !! secret_id);
    raise_if (bool_decide (is_Some secret)) (IntegrityError "project_secrets_pkey") ;;
    taken ← gets (λ s, destinations s !! did);
    raise_if (bool_decide (is_Some taken)) (IntegrityError "webhook_destinations_pkey") ;;
    let d := MkDestination organization_id project_id name (vd_endpoint_url validated)
      (vd_endpoint_origin validated) (vd_event_types validated) PENDING_VERIFICATION None 0 3 None
      secret_id 1 user_id user_id 1 now now in
    modify (λ s, s <| secret_versions ::= <[secret_id := 1]> |> <| destinations ::= <[did := d]> |>) ;;
    modify (λ s, s <| idempotency ::= λ l, l ++
      [MkIdempotency organization_id (str_of_uuid user_id) create_endpoint key_digest fingerprint
         "webhook_destination" did (Some 201) (Some (did, d)) now (now + seconds 86400)] |>) ;;
    append_audit_event (MkAudit (Some organization_id) (Some project_id) actor_type actor_id
      "webhook_destination.created" "webhook_destination" (Some did) request_id
      [("endpoint_origin"%string, DText (d_endpoint_origin d));
       ("event_types"%string, DStrs (d_event_types d));
       ("status"%string, DStr "PENDING_VERIFICATION")]) ;;
    mret (did, d, false)
end.

(** The lock-and-check shared by the three handlers below.  [record] is the object the
  route loaded for the destination [did] before the lock; the locking SELECT finds the row
  but returns that object, so the version compared is the loaded one. *)
Definition lock_destination (did : uuid) (record : WebhookDestination) (expected_version : Z) : M db () :=
row ← gets (λ s, destinations s !! did);
d ← get_or_raise row not_found;
raise_if (negb (bool_decide (d_project_id d = d_project_id record))) not_found ;;
raise_if (negb (d_version record =? expected_version)) version_conflict.

(** [ck_webhook_destinations_*]. *)
Definition destination_checks (d : WebhookDestination) : bool :=
(1 <=? d_failure_threshold d) && (d_failure_threshold d <=? 8)
&& (0 <=? d_consecutive_failure_count d) && (d_consecutive_failure_count d <=? d_failure_threshold d)
&& (negb (bool_decide (d_status d = ACTIVE)) || bool_decide (is_Some (d_verified_at d)))
&& Bool.eqb (bool_decide (d_status d = DISABLED)) (bool_decide (is_Some (d_disabled_reason d)))
&& (1 <=? d_signing_secret_version d) && (1 <=? d_version d).

(** The flush of a loaded object: the columns the handlers assign. *)
Definition flushed (record d row : WebhookDestination) : WebhookDestination :=
row <| d_status := written (d_status record) (d_status d) (d_status row) |>
    <| d_verified_at := written (d_verified_at record) (d_verified_at d) (d_verified_at row) |>
    <| d_consecutive_failure_count :=
         written (d_consecutive_failure_count record) (d_consecutive_failure_count d) (d_consecutive_failure_count row) |>
    <| d_disabled_reason := written (d_disabled_reason record) (d_disabled_reason d) (d_disabled_reason row) |>
    <| d_signing_secret_version :=
         written (d_signing_secret_version record) (d_signing_secret_version d) (d_signing_secret_version row) |>
    <| d_updated_by_user_id := written (d_updated_by_user_id record) (d_updated_by_user_id d) (d_updated_by_user_id row) |>
    <| d_version := written (d_version record) (d_version d) (d_version row) |>
    <| d_updated_at := written (d_updated_at record) (d_updated_at d) (d_updated_at row) |>.
Definition flush_destination (did : uuid) (record d : WebhookDestination) : M db () :=
row ← gets (λ s, destinations s !! did);
row ← get_or_raise row (RuntimeError "StaleDataError");
raise_if (negb (destination_checks (flushed record d row))) (IntegrityError "ck_webhook_destinations") ;;
update_destination did (flushed record d row).

Definition rotate_webhook_signing_secret (now : time) (did : uuid) (d : WebhookDestination) (user_id : uuid)
  (expected_version : Z) (actor_type : string) (actor_id : pystr) (request_id : string)
  : M db WebhookDestination :=
lock_destination did d expected_version ;;
secret ← gets (λ s, secret_versions s !! d_signing_secret_id d);
v ← get_or_raise secret (RuntimeError "Webhook signing secret is unavailable");
let next_secret_version := v + 1 in
modify (λ s, s <| secret_versions ::= <[d_signing_secret_id d := next_secret_version]> |>) ;;
let d' := d <| d_signing_secret_version := next_secret_version |> <| d_version ::= Z.succ |>
            <| d_status := PENDING_VERIFICATION |> <| d_verified_at := None |>
            <| d_consecutive_failure_count := 0 |> <| d_disabled_reason := None |>
            <| d_updated_by_user_id := user_id |> <| d_updated_at := now |> in
flush_destination did d d' ;;
append_audit_event (MkAudit (Some (d_organization_id d')) (Some (d_project_id d')) actor_type
  actor_id "webhook_destination.signing_secret_rotated" "webhook_destination" (Some did)
  request_id [("signing_secret_version"%string, DInt next_secret_version)]) ;;
mret d'.

Definition verify_webhook_destination (now : time) (did : uuid) (d : WebhookDestination) (expected_version : Z)
  (event_id : uuid) (actor_type : string) (actor_id : pystr) (request_id : string) : M db uuid :=
lock_destination did d expected_version ;;
raise_if (negb (bool_decide (d_status d = PENDING_VERIFICATION)))
  (ApiError 409 "WEBHOOK_DESTINATION_NOT_PENDING") ;;
erow ← gets (λ s, events s !! event_id);
e ← get_or_raise erow not_found;
raise_if (negb (bool_decide (ev_project_id e = d_project_id d)
                && bool_decide (ev_event_type e ∈ d_event_types d))) not_found ;;
wid ← enqueue_webhook_delivery now (Some d) (d_project_id d) did event_id 5;
append_audit_event (MkAudit (Some (d_organization_id d)) (Some (d_project_id d)) actor_type
  actor_id "webhook_destination.verification_requested" "webhook_destination" (Some did)
  request_id [("delivery_id"%string, DUuid wid); ("event_id"%string, DUuid event_id)]) ;;
mret wid.

Definition disable_webhook_destination (now : time) (did : uuid) (d : WebhookDestination) (user_id : uuid)
  (expected_version : Z) (actor_type : string) (actor_id : pystr) (request_id : string)
  : M db WebhookDestination :=
lock_destination did d expected_version ;;
let d' := d <| d_status := DISABLED |> <| d_disabled_reason := Some "OPERATOR_DISABLED"%string |>
            <| d_version ::= Z.succ |> <| d_updated_by_user_id := user_id |>
            <| d_updated_at := now |> in
flush_destination did d d' ;;
append_audit_event (MkAudit (Some (d_organization_id d')) (Some (d_project_id d')) actor_type
  actor_id "webhook_destination.disabled" "webhook_destination" (Some did) request_id
  [("status"%string, DStr "DISABLED")]) ;;
mret d'.

(** ** services/events.py *)

Context `{CaseFold, UnicodeDecimal, PyFloats, UnicodeAlnum}.

Definition valid_request_id (r : pystr) : bool :=
(1 <=? Z.of_nat (length r)) && (Z.of_nat (length r) <=? 100)
&& forallb (λ c, (if c <? 128 then is_alnum c else unicode_alnum c)%N
                 || bool_decide (c ∈ lit "._-")) r.

Definition same_event (project_id : uuid) (event_type subject_type : string) (subject_id : uuid)
  (_ : uuid) (e : Event) : bool :=
bool_decide (ev_project_id e = project_id) && bool_decide (ev_event_type e = event_type)
&& bool_decide (ev_subject_type e = subject_type) && bool_decide (ev_subject_id e = subject_id).

Definition envelope_invalid : exn := ApiError 422 "EVENT_ENVELOPE_INVALID".

(** [ON CONFLICT DO NOTHING] returns no row when the subject already has this event;
  without [idempotent] the unique constraint raises. *)
Definition emit_event (now : time) (organization_id project_id : uuid)
  (event_type subject_type : string) (subject_id : uuid) (payload : list (pykey * pyval))
  (request_id : pystr) (idempotent : bool) : M db (uuid * Event) :=
validated ← match validate_event_payload event_type subject_type payload with
  | inr v => mret v
  | inl (ValueError _) => raise envelope_invalid
  | inl e => raise e
  end;
raise_if (negb (valid_request_id request_id)) envelope_invalid ;;
proposed_digest ← get_or_raise (canonical_fingerprint validated) UnicodeEncodeError;
existing ← gets (λ s, head (select (same_event project_id event_type subject_type subject_id) (events s)));
match existing with
| None =>
    let e := MkEvent organization_id project_id event_type EVENT_SCHEMA_VERSION subject_type
      subject_id validated proposed_digest "control-plane" request_id now now in
    eid ← fresh_uuid;
    taken ← gets (λ s, events s !! eid);
    raise_if (bool_decide (is_Some taken)) (IntegrityError "events_pkey") ;;
    modify (λ s, s <| events ::= <[eid := e]> |>) ;;
    enqueue_matching_webhook_deliveries now eid e ;;
    mret (eid, e)
| Some (eid, e) =>
    raise_if (negb idempotent) (IntegrityError "uq_events_project_type_subject") ;;
    raise_if (negb (bool_decide (ev_payload e = validated)))
      (ApiError 409 "EVENT_REPLAY_CONFLICT") ;;
    mret (eid, e)
end.
End ops.
