(* ===== verification/WebhooksSpec.v ===== *)
(** Correctness of webhook delivery (Webhooks.v): the database checks hold in every
    reachable state, deliveries follow their state machine with a gap-free log,
    attempts are bounded, claims are fenced, failing destinations are disabled at
    their threshold, and every event reaches every active matching destination. *)

From S2P Require Import Prelude PyVal Json PyUuid QueueProtocol EventProtocol Idempotency Webhooks.

(** ** The invariant *)

(** [ck_webhook_destinations_*]. *)
Definition destination_ok (d : WebhookDestination) : Prop :=
  1 ≤ d_failure_threshold d ≤ 8 ∧
  0 ≤ d_consecutive_failure_count d ≤ d_failure_threshold d ∧
  (d_status d = ACTIVE → is_Some (d_verified_at d)) ∧
  (d_status d = DISABLED ↔ is_Some (d_disabled_reason d)) ∧
  1 ≤ d_version d.

(** The claim columns and the completion time per status. *)
Definition unclaimed (w : WebhookDeliveryAttempt) : Prop :=
  w_claim_token_digest w = None ∧ w_claimed_by w = None ∧ w_claim_expires_at w = None.
Definition status_shape (w : WebhookDeliveryAttempt) : Prop :=
  match w_status w with
  | CLAIMED => is_Some (w_claim_token_digest w) ∧ is_Some (w_claimed_by w) ∧
               is_Some (w_claim_expires_at w) ∧ 1 ≤ w_attempt_count w ∧ w_completed_at w = None
  | PENDING | RETRY_WAIT => unclaimed w ∧ w_attempt_count w < w_max_attempts w ∧ w_completed_at w = None
  | SUCCEEDED | DEAD_LETTERED => unclaimed w ∧ 1 ≤ w_attempt_count w ∧ is_Some (w_completed_at w)
  | CANCELLED => False
  end.
(** [ck_webhook_delivery_replay]. *)
Definition replay_shape (w : WebhookDeliveryAttempt) : Prop :=
  (w_replay_count w = 0 ∧ w_last_replayed_at w = None ∧ w_last_replay_key_digest w = None ∧
   w_replay_requested_by_user_id w = None) ∨
  (0 < w_replay_count w ∧ is_Some (w_last_replayed_at w) ∧ is_Some (w_last_replay_key_digest w) ∧
   is_Some (w_replay_requested_by_user_id w)).
Definition delivery_ok (w : WebhookDeliveryAttempt) : Prop :=
  1 ≤ w_max_attempts w ≤ 8 ∧ 0 ≤ w_attempt_count w ≤ w_max_attempts w ∧
  w_claim_token w = None ∧ status_shape w ∧ replay_shape w.

(** The state machine of a delivery. *)
Inductive moves : option delivery_status → delivery_status → Prop :=
| moves_enqueue : moves None PENDING
| moves_claim : moves (Some PENDING) CLAIMED
| moves_reclaim : moves (Some RETRY_WAIT) CLAIMED
| moves_retry : moves (Some CLAIMED) RETRY_WAIT
| moves_succeed : moves (Some CLAIMED) SUCCEEDED
| moves_dead : moves (Some CLAIMED) DEAD_LETTERED
| moves_replay : moves (Some DEAD_LETTERED) PENDING.

(** The recorded transitions of one delivery: numbered from 1 without gaps, each
    starting where the previous one ended. *)
Inductive log : list WebhookDeliveryTransition → option delivery_status → Z → Prop :=
| log_nil : log [] None 0
| log_snoc l st a t st' a' :
    log l st a → t_from_status t = st → moves st (t_to_status t) →
    t_sequence t = Z.of_nat (length l) + 1 →
    st' = Some (t_to_status t) → a' = t_attempt_count t → log (l ++ [t]) st' a'.
Definition log_of (wid : uuid) (T : list WebhookDeliveryTransition) : list WebhookDeliveryTransition :=
  base.filter (λ t, t_delivery_id t = wid) T.

Record inv_on (Ds : gmap uuid WebhookDestination) (D : gmap uuid WebhookDeliveryAttempt)
    (E : gmap uuid Event) (T : list WebhookDeliveryTransition) : Prop := MkInv {
  inv_destination did d : Ds !! did = Some d → destination_ok d;
  inv_delivery wid w : D !! wid = Some w → delivery_ok w;
  inv_log wid : log (log_of wid T) (w_status <$> D !! wid)
                    (default 0 (w_attempt_count <$> D !! wid));
  inv_unique i j w w' : D !! i = Some w → D !! j = Some w' →
    w_destination_id w = w_destination_id w' → w_event_id w = w_event_id w' → i = j;
  inv_refs wid w : D !! wid = Some w →
    ∃ d e, Ds !! w_destination_id w = Some d ∧ E !! w_event_id w = Some e ∧
      d_project_id d = w_project_id w ∧ ev_project_id e = w_project_id w ∧
      ev_event_type e ∈ d_event_types d;
  inv_events i j e e' : E !! i = Some e → E !! j = Some e' →
    ev_project_id e = ev_project_id e' → ev_event_type e = ev_event_type e' →
    ev_subject_type e = ev_subject_type e' → ev_subject_id e = ev_subject_id e' → i = j;
  inv_names i j d d' : Ds !! i = Some d → Ds !! j = Some d' →
    d_project_id d = d_project_id d' → d_name d = d_name d' → i = j }.

Definition inv (s : db) : Prop :=
  inv_on (destinations s) (deliveries s) (events s) (transitions s).

(** ** Pure preservation lemmas *)

Lemma log_of_snoc wid T t :
  log_of wid (T ++ [t]) =
    if decide (t_delivery_id t = wid) then log_of wid T ++ [t] else log_of wid T.
Proof.
  unfold log_of. rewrite filter_app, filter_cons, filter_nil.
  case_decide; [done|]. by rewrite app_nil_r.
Qed.

Lemma log_sequences l st a : log l st a →
  t_sequence <$> l = (λ i, Z.of_nat i + 1) <$> seq 0 (length l).
Proof.
  induction 1 as [|l st a t st' a' _ IH _ _ Hs _ _]; [done|].
  by rewrite length_app, Nat.add_1_r, seq_S, !fmap_app, IH; cbn; rewrite Hs.
Qed.

Lemma log_latest l st a : log l st a → foldr Z.max 0 (t_sequence <$> l) = Z.of_nat (length l).
Proof.
  intros Hl. rewrite (log_sequences _ _ _ Hl). generalize (length l). clear. intros n.
  assert (∀ k m, foldr Z.max 0 ((λ i, Z.of_nat i + 1) <$> seq k m)
            = if decide (m = 0%nat) then 0 else Z.of_nat (k + m)) as Hg.
  { intros k m. revert k. induction m as [|m IH]; intros k; [done|]. cbn. rewrite IH.
    repeat case_decide; lia. }
  rewrite Hg. case_decide; lia.
Qed.

Definition same_destination (d d' : WebhookDestination) : Prop :=
  d_project_id d' = d_project_id d ∧ d_event_types d' = d_event_types d ∧ d_name d' = d_name d.
Definition same_delivery (w w' : WebhookDeliveryAttempt) : Prop :=
  w_project_id w' = w_project_id w ∧ w_destination_id w' = w_destination_id w ∧
  w_event_id w' = w_event_id w.

Lemma inv_update_destination Ds D E T did d d' :
  inv_on Ds D E T → Ds !! did = Some d → same_destination d d' → destination_ok d' →
  inv_on (<[did := d']> Ds) D E T.
Proof.
  intros HI Hd (Hp & Ht & Hn) Hok. destruct HI as [H1 H2 H3 H4 H5 H6 H7]. split; auto.
  - intros i x [[-> <-]|[Hne Hx]]%lookup_insert_Some; eauto.
  - intros wid w Hw. destruct (H5 _ _ Hw) as (x & e & Hx & He & ? & ? & ?).
    destruct (decide (w_destination_id w = did)) as [Heq|Hne].
    + exists d', e. rewrite Heq, lookup_insert_eq. rewrite Heq in Hx. simplify_eq.
      split_and!; congruence || by rewrite Ht.
    + exists x, e. by rewrite lookup_insert_ne.
  - intros i j x x' [[-> <-]|[Hi Hx]]%lookup_insert_Some [[-> <-]|[Hj Hx']]%lookup_insert_Some
      E1 E2; [done|eapply (H7 _ _ _ _ Hd Hx'); congruence|eapply (H7 _ _ _ _ Hx Hd); congruence|by eauto].
Qed.

Lemma webhook_inv_move Ds D E T wid w w' t :
  inv_on Ds D E T → D !! wid = Some w → same_delivery w w' → delivery_ok w' →
  moves (Some (w_status w)) (w_status w') →
  t_delivery_id t = wid → t_from_status t = Some (w_status w) → t_to_status t = w_status w' →
  t_attempt_count t = w_attempt_count w' →
  t_sequence t = Z.of_nat (length (log_of wid T)) + 1 →
  inv_on Ds (<[wid := w']> D) E (T ++ [t]).
Proof.
  intros HI Hw (Hp & Hd & He) Hok Hm Htd Htf Htt Hta Hts. destruct HI as [H1 H2 H3 H4 H5 H6 H7].
  split; auto.
  - intros i x [[-> <-]|[Hne Hx]]%lookup_insert_Some; eauto.
  - intros i. rewrite log_of_snoc, Htd. pose proof (H3 i) as Hl.
    destruct (decide (wid = i)) as [->|Hne]; [|by rewrite lookup_insert_ne].
    rewrite lookup_insert_eq. cbn. rewrite Hw in Hl. cbn in Hl.
    eapply log_snoc; [exact Hl|done|by rewrite Htt|done|by rewrite Htt|done].
  - intros i j x x' [[-> <-]|[Hi Hx]]%lookup_insert_Some [[-> <-]|[Hj Hx']]%lookup_insert_Some
      E1 E2; [done|eapply (H4 _ _ _ _ Hw Hx'); congruence|eapply (H4 _ _ _ _ Hx Hw); congruence|by eauto].
  - intros i x [[-> <-]|[Hi Hx]]%lookup_insert_Some; [|by eauto].
    destruct (H5 _ _ Hw) as (d & e & ? & ? & ? & ? & ?). exists d, e.
    rewrite Hd, He, Hp. done.
Qed.

Lemma inv_new_delivery Ds D E T wid w d e t :
  inv_on Ds D E T → D !! wid = None → delivery_ok w → w_status w = PENDING →
  Ds !! w_destination_id w = Some d → E !! w_event_id w = Some e →
  d_project_id d = w_project_id w → ev_project_id e = w_project_id w →
  ev_event_type e ∈ d_event_types d →
  (∀ i x, D !! i = Some x → w_destination_id x = w_destination_id w → w_event_id x ≠ w_event_id w) →
  t_delivery_id t = wid → t_from_status t = None → t_to_status t = PENDING →
  t_attempt_count t = w_attempt_count w →
  t_sequence t = Z.of_nat (length (log_of wid T)) + 1 →
  inv_on Ds (<[wid := w]> D) E (T ++ [t]).
Proof.
  intros HI Hw Hok Hst Hd He Hp Hpe Hty Huniq Htd Htf Htt Hta Hts.
  destruct HI as [H1 H2 H3 H4 H5 H6 H7]. split; auto.
  - intros i x [[-> <-]|[Hne Hx]]%lookup_insert_Some; eauto.
  - intros i. rewrite log_of_snoc, Htd. pose proof (H3 i) as Hl.
    destruct (decide (wid = i)) as [->|Hne]; [|by rewrite lookup_insert_ne].
    rewrite lookup_insert_eq. cbn. rewrite Hw in Hl. cbn in Hl.
    eapply log_snoc; [exact Hl|done|rewrite Htt; constructor|done|by rewrite Htt, Hst|done].
  - intros i j x x' [[-> <-]|[Hi Hx]]%lookup_insert_Some [[-> <-]|[Hj Hx']]%lookup_insert_Some
      E1 E2; [done|..|by eauto]; exfalso; eapply Huniq; eauto.
  - intros i x [[-> <-]|[Hi Hx]]%lookup_insert_Some; [|by eauto]. by exists d, e.
Qed.

(** ** Symbolic execution *)

(** What no operation undoes: events, recorded transitions, delivered deliveries. *)
Record extends (s s' : db) : Prop := MkExtends {
  ext_events : events s ⊆ events s';
  ext_transitions : transitions s `prefix_of` transitions s';
  ext_deliveries wid w : deliveries s !! wid = Some w →
    ∃ w', deliveries s' !! wid = Some w' ∧ same_delivery w w' ∧
          (w_status w = SUCCEEDED → w' = w) ∧ w_version w ≤ w_version w' }.
#[export] Instance extends_refl : Reflexive extends.
Proof. intros s. split; [done..|]. intros wid w Hw. by exists w. Qed.
#[export] Instance extends_trans : Transitive extends.
Proof.
  intros s1 s2 s3 [A1 A2 A3] [B1 B2 B3]. split; [by etrans..|].
  intros wid w (w2 & H2 & (?&?&?) & E2 & V2)%A3. destruct (B3 _ _ H2) as (w3 & H3 & (?&?&?) & E3 & V3).
  exists w3. split_and!; [done| |naive_solver|lia]. unfold same_delivery. split_and!; congruence.
Qed.
Lemma webhook_extends_tables s1 s1' s2 s2' :
  extends s1 s2 → events s1' = events s1 → transitions s1' = transitions s1 →
  deliveries s1' = deliveries s1 → events s2' = events s2 → transitions s2' = transitions s2 →
  deliveries s2' = deliveries s2 → extends s1' s2'.
Proof. intros [A1 A2 A3] E1 E2 E3 F1 F2 F3. split; rewrite ?E1, ?E2, ?E3, ?F1, ?F2, ?F3; auto. Qed.

Section exec.
Context `{Entropy, Tokens, Sha256}.

Lemma wp_append_transition now wid w from reason (Q : () → db → Prop) s :
(∀ id n, Q () (MkDb (destinations s) (deliveries s) (events s) (transitions s ++
   [MkTransition id (w_organization_id w) (w_project_id w) wid
      (latest_sequence wid (transitions s) + 1) from (w_status w) reason (w_attempt_count w) None now])
   (secret_versions s) (idempotency s) (audits s) n)) →
wp (append_transition now wid w from reason) Q s.
Proof.
intros HQ. unfold append_transition. do 3 wp_step.
intros id s1 [= <- <-]. do 4 wp_step. wp_step. apply HQ.
Qed.

Lemma inv_latest s wid : inv s →
latest_sequence wid (transitions s) = Z.of_nat (length (log_of wid (transitions s))).
Proof. intros HI. eapply log_latest, (inv_log _ _ _ _ HI). Qed.

(** A delivery and its log move together. *)
Lemma webhook_wp_move {B} now wid w w' reason (k : M db B) (Q : B → db → Prop) s :
inv s → deliveries s !! wid = Some w → same_delivery w w' → delivery_ok w' →
moves (Some (w_status w)) (w_status w') → w_version w ≤ w_version w' →
(∀ s', inv s' → extends s s' → destinations s' = destinations s →
       deliveries s' = <[wid := w']> (deliveries s) → wp k Q s') →
wp (update_delivery wid w' ;; append_transition now wid w' (Some (w_status w)) reason ;; k) Q s.
Proof.
intros HI Hw Hsame Hok Hm Hv Hk. wp_step. unfold update_delivery. wp_step. wp_step.
apply wp_append_transition. intros id n. apply Hk; [| |done|done].
- eapply webhook_inv_move; eauto. exact (f_equal (λ z, z + 1) (inv_latest s wid HI)).
- split; cbn; [done|by eexists|]. intros i x Hx.
  destruct (decide (i = wid)) as [->|Hne]; [|exists x; by rewrite lookup_insert_ne].
  simplify_eq. exists w'. rewrite lookup_insert_eq. split_and!; [done..| |done].
  intros Hs. rewrite Hs in Hm. inversion Hm.
Qed.

(** A destination is rewritten; deliveries and events stay. *)
Lemma wp_update_destination {B} did d d' (k : M db B) (Q : B → db → Prop) s :
inv s → destinations s !! did = Some d → same_destination d d' → destination_ok d' →
(∀ s', inv s' → extends s s' → destinations s' = <[did := d']> (destinations s) →
       deliveries s' = deliveries s → wp k Q s') →
wp (update_destination did d' ;; k) Q s.
Proof.
intros HI Hd Hsame Hok Hk. wp_step. unfold update_destination. wp_step. apply Hk; [|..|done|done].
- by eapply inv_update_destination.
- by apply (webhook_extends_tables s s s).
Qed.

(** ** Every operation preserves the invariant *)

Definition keeps (s s' : db) : Prop := inv s' ∧ extends s s'.

(** An object of the destination loaded at any time: what rotations, verifications and
  outcomes change may differ from the row. *)
Definition loaded_from (d row : WebhookDestination) : Prop :=
d_organization_id d = d_organization_id row ∧ d_project_id d = d_project_id row ∧ d_name d = d_name row ∧
d_endpoint_url d = d_endpoint_url row ∧ d_endpoint_origin d = d_endpoint_origin row ∧ d_event_types d = d_event_types row ∧
d_failure_threshold d = d_failure_threshold row ∧ d_signing_secret_id d = d_signing_secret_id row ∧
d_created_by_user_id d = d_created_by_user_id row ∧ d_created_at d = d_created_at row.
Definition object_of (o : option WebhookDestination) did s : Prop :=
∀ d row, o = Some d → destinations s !! did = Some row → loaded_from d row.

Lemma enqueue_spec now o pid did eid max s :
inv s → object_of o did s → wp (enqueue_webhook_delivery now o pid did eid max) (λ wid s', keeps s s' ∧
  destinations s' = destinations s ∧ events s' = events s ∧
  ∃ w, deliveries s' !! wid = Some w ∧ w_destination_id w = did ∧ w_event_id w = eid) s.
Proof.
intros HI Ho. unfold enqueue_webhook_delivery. wp_step. wp_step. breflect. do 2 wp_step.
destruct (head _) as [[wid w]|] eqn:Hh.
{ apply head_select_Some in Hh as [Hw Hm]. breflect. wp_step. split_and!; [done..|by exists w]. }
pose proof (head_select_None _ _ Hh) as Hno. do 4 wp_step.
destruct (destinations s !! did) as [row|] eqn:Hd; [|wp_step].
destruct (events s !! eid) as [e|] eqn:He; [|wp_step]. cbv zeta. set (d := default row o).
assert (d_event_types d = d_event_types row) as Het.
{ unfold d. destruct o as [d'|]; [|done]. by destruct (Ho d' row eq_refl Hd) as (_ & _ & _ & _ & _ & ? & _). }
clearbody d. wp_step. wp_step. breflect. rewrite Het in *.
set (w := MkDelivery _ _ _ _ _ _ _ _ _ _ _ _ _ _ _ _ _ _ _ _ _ _ _ _ _).
wp_step. unfold insert_delivery. wp_step. intros wid s1 [= <- <-]. repeat wp_step.
apply wp_append_transition. intros id n. wp_step. breflect.
assert (deliveries s !! uuid4 (rng s) = None) as Hfresh by by apply eq_None_not_Some.
split_and!; [split| | |].
- eapply (inv_new_delivery _ _ _ _ _ w row e); try done.
  + unfold delivery_ok, status_shape, replay_shape, unclaimed. cbn. split_and!; try lia; try done.
    left. done.
  + intros i x Hx H1' H2'. specialize (Hno _ _ Hx). cbn in Hno, H1', H2'.
    rewrite !bool_decide_eq_true_2 in Hno by done. done.
  + exact (f_equal (λ z, z + 1) (inv_latest s _ HI)).
- split; cbn; [done|by eexists|]. intros i x Hx. exists x.
  rewrite lookup_insert_ne; [done|congruence].
- done.
- done.
- exists w. cbn. by rewrite lookup_insert_eq.
Qed.

Lemma count_failure_ok now d :
destination_ok d → d_status d ≠ DISABLED → destination_ok (count_failure now d).
Proof.
unfold destination_ok, count_failure. intros (? & ? & ? & ? & ?) Hne. cbv zeta.
destruct (_ <=? _) eqn:E; cbn; breflect.
- split_and!; try lia; done.
- split_and!; try lia; done.
Qed.

Lemma count_failure_same now d : same_destination d (count_failure now d).
Proof. unfold count_failure, same_destination. cbv zeta. by destruct (_ <=? _). Qed.

Lemma enqueue_loop now pid eid (rows : list (uuid * WebhookDestination)) s :
inv s → wp (for_each (λ x : uuid * WebhookDestination,
    enqueue_webhook_delivery now None pid x.1 eid 5 ;; mret ()) rows) (λ _ s',
  keeps s s' ∧ destinations s' = destinations s ∧
  ∀ x, x ∈ rows → ∃ wid w, deliveries s' !! wid = Some w ∧ w_destination_id w = x.1 ∧
                           w_event_id w = eid) s.
Proof.
revert s. induction rows as [|x rows IH]; intros s HI; cbn [for_each].
- apply wp_ret. split_and!; [done..|]. by intros x ?%not_elem_of_nil.
- wp_step. wp_step. eapply wp_mono; [|by apply enqueue_spec].
  intros wid s1 ([HI1 He1] & Hd1 & _ & w & Hw & Hwd & Hwe). wp_step.
  eapply wp_mono; [|by apply IH]. intros [] s2 ([HI2 He2] & Hd2 & Hall). split_and!.
  + split; [done|by etrans].
  + congruence.
  + intros y [->|Hy]%elem_of_cons; [|by apply Hall].
    destruct (ext_deliveries _ _ He2 _ _ Hw) as (w2 & Hw2 & (? & ? & ?) & _).
    exists wid, w2. split_and!; congruence.
Qed.

Lemma enqueue_matching_spec now eid e s :
inv s → wp (enqueue_matching_webhook_deliveries now eid e) (λ _ s', keeps s s' ∧
  destinations s' = destinations s ∧
  ∀ did d, destinations s !! did = Some d → matching e did d = true →
    ∃ wid w, deliveries s' !! wid = Some w ∧ w_destination_id w = did ∧ w_event_id w = eid) s.
Proof.
intros HI. unfold enqueue_matching_webhook_deliveries. do 2 wp_step.
eapply wp_mono; [|by apply enqueue_loop]. intros [] s' (Hk & Hd & Hall). split_and!; [done..|].
intros did d Hdd Hm. apply (Hall (did, d)). by apply elem_of_select.
Qed.

Lemma delivery_lookup s wid w : inv s → deliveries s !! wid = Some w → delivery_ok w.
Proof. intros HI. apply (inv_delivery _ _ _ _ HI). Qed.

Lemma get_delivery_spec pid wid (Q : WebhookDeliveryAttempt → db → Prop) s :
(∀ w, deliveries s !! wid = Some w → w_project_id w = pid → Q w s) →
wp (get_webhook_delivery pid wid) Q s.
Proof. intros HQ. unfold get_webhook_delivery. repeat wp_step. breflect. by apply HQ. Qed.

(** A conditional rewrite of a destination. *)
Lemma wp_if_update {B} (b : bool) did d d' (k : M db B) (Q : B → db → Prop) s :
inv s → destinations s !! did = Some d → same_destination d d' →
(b = true → destination_ok d') →
(∀ s', inv s' → extends s s' → deliveries s' = deliveries s →
       destinations s' = (if b then <[did := d']> (destinations s) else destinations s) → wp k Q s') →
wp ((if b then update_destination did d' else mret ()) ;; k) Q s.
Proof.
intros HI Hd Hsame Hok Hk. destruct b.
- eapply wp_update_destination; eauto.
- do 2 wp_step. by apply Hk.
Qed.

Lemma replayed_ok now kd uid w :
delivery_ok w → delivery_ok (replayed now kd uid w).
Proof.
intros (? & ? & ? & _ & Hrep). unfold delivery_ok, status_shape, unclaimed, replay_shape, replayed.
cbn. split_and!; try lia; try done. right. split_and!; try done.
unfold replay_shape in Hrep. lia.
Qed.

Lemma reenabled_ok now d : destination_ok d → destination_ok (reenabled now d).
Proof.
unfold destination_ok, reenabled. cbn. intros (? & ? & ? & ? & ?). split_and!; try lia.
- destruct (d_verified_at d); [by eexists|done].
- split; [|by intros []]. by destruct (d_verified_at d).
Qed.

Lemma replay_spec now pid wid ver key uid at_ aid rq s :
inv s → wp (replay_webhook_delivery now pid wid ver key uid at_ aid rq) (λ _, keeps s) s.
Proof.
intros HI. unfold replay_webhook_delivery. do 4 wp_step. cbv zeta. wp_step.
apply get_delivery_spec. intros w Hw Hp.
case_bool_decide; [by wp_step|]. do 4 wp_step. do 5 wp_step. breflect.
match goal with Hx : destinations s !! _ = Some ?x |- _ => rename Hx into Hd, x into d end.
match goal with Hx : w_status w = DEAD_LETTERED |- _ => rename Hx into Hst end.
wp_step. apply (wp_if_update _ _ d); [done..|intros _|].
{ by apply reenabled_ok, (inv_destination _ _ _ _ HI _ _ Hd). }
intros s1 HI1 He1 HD1 _.
apply webhook_wp_move; [done|by rewrite HD1|done|by apply replayed_ok, (delivery_lookup s wid)|..].
- rewrite Hst. constructor.
- cbn. lia.
- intros s2 HI2 He2 _ _. repeat wp_step. split; [exact HI2|].
  etrans; [exact He1|]. by apply (webhook_extends_tables _ _ _ _ He2).
Qed.

(** The row a claim writes. *)
Lemma claimed_ok now digest worker secs w :
delivery_ok w → w_status w = PENDING ∨ w_status w = RETRY_WAIT →
delivery_ok (w <| w_status := CLAIMED |> <| w_claim_token := None |>
            <| w_claimed_by := Some worker |> <| w_claim_token_digest := Some digest |>
            <| w_claim_expires_at := Some (now + seconds secs) |>
            <| w_attempt_count ::= Z.succ |> <| w_version ::= Z.succ |> <| w_updated_at := now |>).
Proof.
unfold delivery_ok, status_shape, unclaimed, replay_shape. cbn.
intros (? & ? & ? & Hs & ?) [Hst|Hst]; rewrite Hst in Hs; split_and!; try lia; try done; try (by eexists); apply Hs.
Qed.

Lemma take_claim_spec now wid w worker secs s :
inv s → deliveries s !! wid = Some w → w_status w = PENDING ∨ w_status w = RETRY_WAIT →
wp (take_claim now wid w worker secs) (λ res s', keeps s s' ∧
  destinations s' = destinations s ∧
  ∃ w' token digest, res = Some (wid, w', token) ∧ claim_digest token = Some digest ∧
    deliveries s' = <[wid := w']> (deliveries s) ∧ same_delivery w w' ∧
    w_status w' = CLAIMED ∧ w_claimed_by w' = Some worker ∧
    w_claim_token_digest w' = Some digest ∧
    w_claim_expires_at w' = Some (now + seconds secs) ∧
    w_attempt_count w' = w_attempt_count w + 1) s.
Proof.
intros HI Hw Hst. unfold take_claim. wp_step. intros token s1 [= <- <-]. do 2 wp_step.
rename a into digest. cbv zeta.
apply webhook_wp_move; [exact HI|exact Hw|done|by apply claimed_ok; [apply (delivery_lookup s wid)|]|..].
- destruct Hst as [-> | ->]; constructor.
- cbn. lia.
- intros s2 HI2 He2 Hd2 HD2. wp_step. split_and!.
  + split; [done|]. by apply (webhook_extends_tables _ _ _ _ He2).
  + exact Hd2.
  + eexists _, _, digest. rewrite HD2. split_and!; try done.
Qed.

Lemma expire_claim_ok now w :
delivery_ok w → w_status w = CLAIMED → delivery_ok (expire_claim now w).
Proof.
unfold delivery_ok, expire_claim, status_shape, unclaimed, replay_shape.
intros (? & ? & ? & Hs & ?) Hst. rewrite Hst in Hs. cbv zeta.
destruct (_ <=? _) eqn:E; breflect; cbn; split_and!; try lia; try done; apply Hs.
Qed.

Lemma expire_claim_status now w :
w_status (expire_claim now w) = DEAD_LETTERED ∨ w_status (expire_claim now w) = RETRY_WAIT.
Proof. unfold expire_claim. cbn. destruct (_ <=? _); auto. Qed.

Lemma completed_ok now ok http err w :
delivery_ok w → w_status w = CLAIMED → delivery_ok (completed now ok http err w).
Proof.
unfold delivery_ok, completed, status_shape, unclaimed, replay_shape.
intros (? & ? & ? & Hs & ?) Hst. rewrite Hst in Hs. cbv zeta.
destruct ok; [|destruct (_ <=? _) eqn:E; breflect]; cbn; split_and!; try lia; try done; apply Hs.
Qed.

Lemma completed_moves now ok http err w :
w_status w = CLAIMED → moves (Some (w_status w)) (w_status (completed now ok http err w)).
Proof.
intros ->. unfold completed. destruct ok; [|destruct (_ <=? _)]; cbn; constructor.
Qed.

Lemma delivered_to_ok now d : destination_ok d → destination_ok (delivered_to now d).
Proof.
unfold destination_ok, delivered_to. cbn. intros (? & ? & ? & ? & ?).
split_and!; try lia; [by eexists|]. split; [done|by intros []].
Qed.

Lemma claim_spec now locked pid worker secs s :
inv s → wp (claim_webhook_delivery now locked pid worker secs) (λ _, keeps s) s.
Proof.
intros HI. unfold claim_webhook_delivery. do 4 wp_step.
destruct (head _) as [[wid w]|] eqn:Hh; [|by wp_step].
assert ((wid, w) ∈ select (webhook_claimable pid now locked (destinations s)) (deliveries s))
  as [Hw Hc]%elem_of_select.
{ apply (elem_of_order_by (by_keys claim_key)). destruct (order_by _ _); [done|].
  simpl in Hh. simplify_eq. left. }
pose proof (delivery_lookup _ _ _ HI Hw) as Hok.
case_bool_decide as Hst.
- cbv zeta. replace (Some CLAIMED) with (Some (w_status w)) by congruence.
  apply webhook_wp_move; [done|done|done|by apply expire_claim_ok|..].
  + rewrite Hst. destruct (expire_claim_status now w) as [-> | ->]; constructor.
  + unfold expire_claim. cbn. lia.
  + intros s1 HI1 He1 Hd1 HD1.
    destruct (expire_claim_status now w) as [Hs1|Hs1]; rewrite Hs1.
    * do 2 wp_step. destruct (destinations s1 !! _) as [d|] eqn:Hd; [|by wp_step].
      case_bool_decide; [by wp_step|]. eapply wp_update_destination; [done|exact Hd|apply count_failure_same|..].
      -- eapply count_failure_ok; [|done]. by apply (inv_destination _ _ _ _ HI1 _ _ Hd).
      -- intros s2 HI2 He2 _ _. wp_step. split; [done|by etrans].
    * eapply wp_mono; [|apply take_claim_spec; [done| |by right]].
      -- intros res s2 ([HI2 He2] & _). split; [done|by etrans].
      -- by rewrite HD1, lookup_insert_eq.
- eapply wp_mono; [|apply take_claim_spec; [done..|]].
  + by intros res s2 (Hk & _).
  + unfold webhook_claimable in Hc. destruct (destinations s !! _); [|done].
    breflect.
    match goal with Hx : _ || _ = true |- _ => apply orb_prop in Hx as [Hx|Hx] end;
      breflect; [set_solver|done].
Qed.

Lemma check_claim_spec now w token (Q : () → db → Prop) s :
(w_status w = CLAIMED → is_Some (claim_digest token) → w_claim_token_digest w = claim_digest token →
 (∃ t, w_claim_expires_at w = Some t ∧ now < t) → Q () s) →
wp (check_claim now w token) Q s.
Proof.
intros HQ. unfold check_claim. repeat wp_step. breflect.
match goal with Hd : claim_digest token = Some ?x |- _ => rewrite Hd in HQ end.
apply HQ; [done|by eexists|done|].
destruct (w_claim_expires_at w) as [t|]; [|done]. breflect. exists t. by split.
Qed.

(** The destination after an outcome was recorded. *)
Definition destination_after (now : time) (ok : bool) (w' : WebhookDeliveryAttempt)
  (d : WebhookDestination) : WebhookDestination :=
if ok then delivered_to now d
else if bool_decide (w_status w' = DEAD_LETTERED) then count_failure now d else d.

(** What an accepted completion checked and did. *)
Definition complete_result (now : time) (wid : uuid) (token : pystr) (ok : bool)
  (http : option Z) (err : option string) (s : db) (w' : WebhookDeliveryAttempt) (s' : db) : Prop :=
∃ w d, deliveries s !! wid = Some w ∧ w_status w = CLAIMED ∧
  is_Some (claim_digest token) ∧ w_claim_token_digest w = claim_digest token ∧
  (∃ t, w_claim_expires_at w = Some t ∧ now < t) ∧
  destinations s !! w_destination_id w = Some d ∧ deliverable (d_status d) = true ∧
  w' = completed now ok http err w ∧ deliveries s' = <[wid := w']> (deliveries s) ∧
  destinations s' = <[w_destination_id w := destination_after now ok w' d]> (destinations s).

Lemma webhook_complete_spec now wid token ok http err s :
inv s → wp (complete_webhook_delivery now wid token ok http err) (λ w' s',
  keeps s s' ∧ complete_result now wid token ok http err s w' s') s.
Proof.
intros HI. unfold complete_webhook_delivery. do 5 wp_step. rename a into w.
apply check_claim_spec. intros Hst Htok Hdig Hexp. do 4 wp_step. rename a into d. do 2 wp_step.
breflect. cbv zeta.
match goal with Hx : deliveries s !! wid = Some w |- _ => rename Hx into Hw end.
match goal with Hx : destinations s !! _ = Some d |- _ => rename Hx into Hd end.
match goal with Hx : deliverable _ = true |- _ => rename Hx into Hdel end.
assert (d_status d ≠ DISABLED) as Hnd by (intros Hx; by rewrite Hx in Hdel).
pose proof (inv_destination _ _ _ _ HI _ _ Hd) as Hdok.
apply webhook_wp_move; [done|done|by unfold completed; destruct ok; [|destruct (_ <=? _)]|..].
- by apply completed_ok; [apply (delivery_lookup s wid)|].
- by apply completed_moves.
- unfold completed; destruct ok; [|destruct (_ <=? _)]; cbn; lia.
- intros s1 HI1 He1 Hd1 HD1. set (w' := completed now ok http err w) in *.
  assert (∀ s2, keeps s s2 → deliveries s2 = deliveries s1 →
    destinations s2 = <[w_destination_id w := destination_after now ok w' d]> (destinations s) →
    keeps s s2 ∧ complete_result now wid token ok http err s w' s2) as Hend.
  { intros s2 Hk HD2 Hd2. split; [done|]. exists w, d. split_and!; try done. congruence. }
  unfold destination_after in Hend. destruct ok; [|case_bool_decide].
  + eapply wp_update_destination; [done|by rewrite Hd1|done|by apply delivered_to_ok|].
    intros s2 HI2 He2 Hd2 HD2. wp_step. apply Hend; [split; [done|by etrans]|done|congruence].
  + eapply wp_update_destination; [done|by rewrite Hd1|apply count_failure_same
      |by apply count_failure_ok|].
    intros s2 HI2 He2 Hd2 HD2. wp_step. apply Hend; [split; [done|by etrans]|done|congruence].
  + do 3 wp_step. apply Hend; [by split|done|]. by rewrite insert_id.
Qed.

Lemma lock_spec did d ver (Q : () → db → Prop) s : Q () s → wp (lock_destination did d ver) Q s.
Proof. intros HQ. unfold lock_destination. repeat wp_step. done. Qed.

(** The database admits only rows that satisfy its checks. *)
Lemma checks_ok d : destination_checks d = true → destination_ok d.
Proof.
unfold destination_checks, destination_ok. intros Hc. rewrite !andb_true_iff in Hc.
destruct Hc as [[[[[[[C1 C2] C3] C4] C5] C6] C7] C8]. rewrite !Z.leb_le in *. split_and!; try lia.
- intros Ha. rewrite bool_decide_eq_true_2 in C5 by done. by apply bool_decide_eq_true in C5.
- apply Bool.eqb_prop in C6. split; intros Hx.
  + rewrite bool_decide_eq_true_2 in C6 by done. symmetry in C6. by apply bool_decide_eq_true in C6.
  + rewrite (bool_decide_eq_true_2 (is_Some _)) in C6 by done. by apply bool_decide_eq_true in C6.
Qed.
Lemma destination_flush_spec did d d' (Q : () → db → Prop) s : inv s →
(∀ s', inv s' → extends s s' → events s' = events s → deliveries s' = deliveries s → Q () s') →
wp (flush_destination did d d') Q s.
Proof.
intros HI HQ. unfold flush_destination, update_destination. repeat wp_step. breflect.
match goal with Hx : destinations s !! did = Some ?x |- _ => rename Hx into Hd end.
apply HQ; [|by apply (webhook_extends_tables s s s)|done|done].
eapply inv_update_destination; [exact HI|exact Hd|done|]. by apply checks_ok.
Qed.

Lemma webhook_keeps_tables s1 s2 s2' :
keeps s1 s2 → destinations s2' = destinations s2 → events s2' = events s2 →
transitions s2' = transitions s2 → deliveries s2' = deliveries s2 → keeps s1 s2'.
Proof.
intros [HI He] E1 E2 E3 E4. split; [unfold inv; by rewrite E1, E2, E3, E4|].
by apply (webhook_extends_tables _ _ _ _ He).
Qed.

Lemma disable_spec now did d uid ver at_ aid rq s :
inv s → wp (disable_webhook_destination now did d uid ver at_ aid rq) (λ _, keeps s) s.
Proof.
intros HI. unfold disable_webhook_destination. wp_step. apply lock_spec. cbv zeta. wp_step.
apply destination_flush_spec; [done|]. intros s1 HI1 He1 _ _. repeat wp_step. by apply (webhook_keeps_tables s s1).
Qed.

Lemma rotate_spec now did d uid ver at_ aid rq s :
inv s → wp (rotate_webhook_signing_secret now did d uid ver at_ aid rq) (λ _, keeps s) s.
Proof.
intros HI. unfold rotate_webhook_signing_secret. wp_step. apply lock_spec.
do 6 wp_step. cbv zeta. wp_step. apply destination_flush_spec; [exact HI|]. intros s1 HI1 He1 _ _. repeat wp_step.
split; [exact HI1|]. by apply (webhook_extends_tables _ _ _ _ He1).
Qed.

Lemma verify_spec now did d ver eid at_ aid rq s :
inv s → object_of (Some d) did s → wp (verify_webhook_destination now did d ver eid at_ aid rq) (λ _, keeps s) s.
Proof.
intros HI Ho. unfold verify_webhook_destination. wp_step. apply lock_spec.
repeat (wp_step; []). eapply wp_mono; [|by apply enqueue_spec].
intros wid s1 (Hk & _). repeat wp_step. by apply (webhook_keeps_tables s s1).
Qed.
End exec.

Lemma inv_new_destination Ds D E T did d :
  inv_on Ds D E T → Ds !! did = None → destination_ok d →
  (∀ i x, Ds !! i = Some x → d_project_id x = d_project_id d → d_name x ≠ d_name d) →
  inv_on (<[did := d]> Ds) D E T.
Proof.
  intros HI Hd Hok Huniq. destruct HI as [H1 H2 H3 H4 H5 H6 H7]. split; auto.
  - intros i x [[-> <-]|[Hne Hx]]%lookup_insert_Some; eauto.
  - intros wid w Hw. destruct (H5 _ _ Hw) as (x & e & Hx & ?). exists x, e.
    rewrite lookup_insert_ne; [done|congruence].
  - intros i j x x' [[-> <-]|[Hi Hx]]%lookup_insert_Some [[-> <-]|[Hj Hx']]%lookup_insert_Some
      E1 E2; [done|..|by eauto]; exfalso; eapply Huniq; eauto.
Qed.

Lemma inv_new_event Ds D E T eid e :
  inv_on Ds D E T → E !! eid = None →
  (∀ i x, E !! i = Some x → same_event (ev_project_id e) (ev_event_type e) (ev_subject_type e)
                                       (ev_subject_id e) i x = false) →
  inv_on Ds D (<[eid := e]> E) T.
Proof.
  intros HI He Huniq. destruct HI as [H1 H2 H3 H4 H5 H6 H7].
  assert (∀ i x, E !! i = Some x → ev_project_id x = ev_project_id e → ev_event_type x = ev_event_type e →
    ev_subject_type x = ev_subject_type e → ev_subject_id x = ev_subject_id e → False) as Hne.
  { intros i x Hx E1 E2 E3 E4. specialize (Huniq _ _ Hx). unfold same_event in Huniq.
    by rewrite !bool_decide_eq_true_2 in Huniq. }
  split; auto.
  - intros wid w Hw. destruct (H5 _ _ Hw) as (d & x & Hd & Hx & ?). exists d, x.
    rewrite lookup_insert_ne; [done|congruence].
  - intros i j x x' [[-> <-]|[Hi Hx]]%lookup_insert_Some [[-> <-]|[Hj Hx']]%lookup_insert_Some
      E1 E2 E3 E4; [done|..|by eauto]; exfalso; eapply Hne; eauto.
Qed.

Section exec2.
Context `{Entropy, Tokens, Sha256, CaseFold, UnicodeDecimal, PyFloats, UnicodeAlnum}.

Lemma webhook_create_spec now org pid uid at_ aid key rq name v sd s :
inv s → wp (create_webhook_destination now org pid uid at_ aid key rq name v sd) (λ _, keeps s) s.
Proof.
intros HI. unfold create_webhook_destination. do 2 wp_step. do 2 wp_step. cbv zeta. do 4 wp_step.
destruct (replay_of _ _ _ _ _ _) as [e|[[did d]|]]; [wp_step|by wp_step|].
do 4 wp_step. match goal with Hx : exists_row _ _ = false |- _ =>
  pose proof (exists_row_false _ _ Hx) as Hnone end.
wp_step. intros did s1 [= <- <-]. wp_step. intros sid s2 [= <- <-]. repeat wp_step. breflect.
split; cbn.
- apply inv_new_destination; [exact HI|by apply eq_None_not_Some| |].
  + unfold destination_ok. cbn. split_and!; try lia; [done|]. split; [done|by intros []].
  + intros i x Hx Hp Hn. specialize (Hnone _ _ Hx). cbn in Hnone, Hp, Hn.
    by rewrite !bool_decide_eq_true_2 in Hnone.
- by apply (webhook_extends_tables s s s).
Qed.

(** What an emission leaves behind: the event, once, and a delivery of it for every
  active destination of the project that subscribes to its type. *)
Lemma emit_spec now org pid ety sty sid payload rq idem s :
inv s → wp (emit_event now org pid ety sty sid payload rq idem) (λ res s', keeps s s' ∧
  events s' !! res.1 = Some res.2 ∧ same_event pid ety sty sid res.1 res.2 = true ∧
  (events s !! res.1 = None → destinations s' = destinations s ∧
     ∀ did d, destinations s !! did = Some d → matching res.2 did d = true →
       ∃ wid w, deliveries s' !! wid = Some w ∧ w_destination_id w = did ∧ w_event_id w = res.1)) s.
Proof.
intros HI. unfold emit_event. wp_step.
destruct (validate_event_payload ety sty payload) as [e|v]; [destruct e; apply wp_raise|].
wp_step. do 4 wp_step. do 2 wp_step.
destruct (head _) as [[eid e]|] eqn:Hh.
- apply head_select_Some in Hh as [He Hsame]. repeat wp_step. split_and!; [done..|]. cbn. intros Hx. congruence.
- pose proof (head_select_None _ _ Hh) as Hno. cbv zeta. wp_step. intros eid s1 [= <- <-].
  repeat (wp_step; []). breflect.
  assert (events s !! uuid4 (rng s) = None) as Hfresh by by apply eq_None_not_Some.
  eapply wp_mono; [|apply enqueue_matching_spec].
  + intros [] s2 ([HI2 He2] & Hd2 & Hall). wp_step.
    assert (extends s s2) as Hes.
    { etrans; [|exact He2]. split; cbn; [by apply insert_subseteq|done|].
      intros wid w Hw. by exists w. }
    split_and!; [by split| |unfold same_event; by rewrite !bool_decide_eq_true_2|].
    * eapply lookup_weaken; [|apply (ext_events _ _ He2)]. cbn. apply lookup_insert_eq.
    * intros _. split; [exact Hd2|exact Hall].
  + eapply inv_new_event; [exact HI|exact Hfresh|exact Hno].
Qed.
End exec2.

(** ** Transactions and reachable states *)

Inductive op :=
| OpCreate (now : time) (org pid uid : uuid) (at_ : string) (aid key : pystr) (rq : string)
    (name : pystr) (v : ValidatedWebhookDestination) (sd : pystr)
| OpRotate (now : time) (did : uuid) (d : WebhookDestination) (uid : uuid) (ver : Z) (at_ : string) (aid : pystr) (rq : string)
| OpVerify (now : time) (did : uuid) (d : WebhookDestination) (ver : Z) (eid : uuid) (at_ : string) (aid : pystr) (rq : string)
| OpDisable (now : time) (did : uuid) (d : WebhookDestination) (uid : uuid) (ver : Z) (at_ : string) (aid : pystr) (rq : string)
| OpEmit (now : time) (org pid : uuid) (ety sty : string) (sid : uuid)
    (payload : list (pykey * pyval)) (rq : pystr) (idem : bool)
| OpEnqueue (now : time) (pid did eid : uuid) (max : Z)
| OpReplay (now : time) (pid wid : uuid) (ver : Z) (key : pystr) (uid : uuid) (at_ : string)
    (aid : pystr) (rq : string)
| OpClaim (now : time) (locked : gset uuid) (pid : uuid) (worker : pystr) (secs : Z)
| OpComplete (now : time) (wid : uuid) (token : pystr) (ok : bool) (http : option Z)
    (err : option string).

Definition empty_db : db := MkDb ∅ ∅ ∅ [] ∅ [] [] 0.

Section reachability.
Context `{Entropy, Tokens, Sha256, CaseFold, UnicodeDecimal, PyFloats, UnicodeAlnum}.

Definition run_op (o : op) : M db () :=
match o with
| OpCreate now org pid uid at_ aid key rq name v sd =>
    create_webhook_destination now org pid uid at_ aid key rq name v sd ;; mret ()
| OpRotate now did d uid ver at_ aid rq =>
    rotate_webhook_signing_secret now did d uid ver at_ aid rq ;; mret ()
| OpVerify now did d ver eid at_ aid rq =>
    verify_webhook_destination now did d ver eid at_ aid rq ;; mret ()
| OpDisable now did d uid ver at_ aid rq =>
    disable_webhook_destination now did d uid ver at_ aid rq ;; mret ()
| OpEmit now org pid ety sty sid payload rq idem =>
    emit_event now org pid ety sty sid payload rq idem ;; mret ()
| OpEnqueue now pid did eid max => enqueue_webhook_delivery now None pid did eid max ;; mret ()
| OpReplay now pid wid ver key uid at_ aid rq =>
    replay_webhook_delivery now pid wid ver key uid at_ aid rq ;; mret ()
| OpClaim now locked pid worker secs => claim_webhook_delivery now locked pid worker secs ;; mret ()
| OpComplete now wid token ok http err =>
    complete_webhook_delivery now wid token ok http err ;; mret ()
end.

Definition transaction {A} (m : M db A) (s : db) : db :=
match m s with
| (inr _, s') => s'
| (inl _, s') => s <| rng := rng s' |>
end.
(** The object a route has loaded before the lock; other transactions may have changed the
  row since. *)
Definition op_loaded (o : op) (s : db) : Prop :=
match o with
| OpRotate _ did d _ _ _ _ _ | OpVerify _ did d _ _ _ _ _ | OpDisable _ did d _ _ _ _ _ => object_of (Some d) did s
| _ => True
end.
Definition step (s s' : db) : Prop := ∃ o, op_loaded o s ∧ s' = transaction (run_op o) s.
Definition reachable (s : db) : Prop := rtc step empty_db s.

Lemma webhook_run_op_spec o s : inv s → op_loaded o s → wp (run_op o) (λ _, keeps s) s.
Proof.
intros HI Ho. destruct o; cbn [run_op]; wp_step; (eapply wp_mono;
  [|first [by apply webhook_create_spec|by apply rotate_spec|by apply verify_spec|by apply disable_spec
          |by apply emit_spec|by apply enqueue_spec|by apply replay_spec|by apply claim_spec
          |by apply webhook_complete_spec]]).
all: intros a s' Hk; wp_step; first [exact Hk|apply Hk].
Qed.

Lemma webhook_step_spec s s' : step s s' → inv s → keeps s s'.
Proof.
intros (o & Ho & ->) HI. unfold transaction. pose proof (webhook_run_op_spec o s HI Ho) as Hwp.
destruct (run_op o s) as [[e|[]] s1] eqn:E; [|exact (Hwp _ _ E)].
by apply (webhook_keeps_tables s s).
Qed.

Lemma webhook_steps_spec s s' : rtc step s s' → inv s → keeps s s'.
Proof.
induction 1 as [s|s s1 s2 Hst _ IH]; intros HI; [done|].
destruct (webhook_step_spec _ _ Hst HI) as [HI1 He1]. destruct (IH HI1) as [HI2 He2].
split; [done|by etrans].
Qed.

Lemma webhook_inv_empty : inv empty_db.
Proof.
split; cbn; try (intros *; rewrite ?lookup_empty; done).
intros wid. rewrite lookup_empty. constructor.
Qed.

Lemma webhook_reachable_inv s : reachable s → inv s.
Proof. intros Hr. by destruct (webhook_steps_spec _ _ Hr webhook_inv_empty). Qed.

(** ** Properties *)

(** C37: the checks the database declares on destinations and deliveries hold in
  every reachable state, however old the destination a route has loaded before it locks
  it; only the flush of such an object can be refused by them, claims, completions and
  replays never are: failure counts
  stay within their threshold, an active destination is verified, one is disabled
  exactly when it has a reason; attempts stay within 1 to 8, claim columns are set
  exactly while a delivery is claimed, no raw claim token is stored, replay columns
  are set exactly when it was replayed, and a delivery has a completion time
  exactly when it is finished. *)
Theorem webhook_checks_hold (s : db) (Hr : reachable s) :
(∀ did d, destinations s !! did = Some d → destination_ok d) ∧
(∀ wid w, deliveries s !! wid = Some w →
   1 ≤ w_max_attempts w ≤ 8 ∧ 0 ≤ w_attempt_count w ≤ w_max_attempts w ∧
   w_claim_token w = None ∧ replay_shape w ∧
   (w_status w = CLAIMED ↔ is_Some (w_claim_token_digest w)) ∧
   (is_Some (w_claim_token_digest w) ↔ is_Some (w_claimed_by w)) ∧
   (is_Some (w_claim_token_digest w) ↔ is_Some (w_claim_expires_at w)) ∧
   (is_Some (w_completed_at w) ↔ w_status w = SUCCEEDED ∨ w_status w = DEAD_LETTERED)).
Proof.
pose proof (webhook_reachable_inv _ Hr) as HI. split; [apply (inv_destination _ _ _ _ HI)|].
intros wid w Hw. destruct (inv_delivery _ _ _ _ HI _ _ Hw) as (O1 & O2 & O3 & O4 & O5).
split; [lia|]. split; [lia|]. split; [done|]. split; [done|]. unfold status_shape, unclaimed in O4.
assert (∀ A, is_Some (@None A) ↔ False) as HN by (intros A; split; [by intros []|done]).
assert (∀ A (x : A), is_Some (Some x) ↔ True) as HS by (intros A x; split; [done|by eexists]).
destruct (w_status w); destruct_and? O4; try done;
  repeat match goal with Hx : _ = None |- _ => rewrite Hx; clear Hx end;
  repeat match goal with Hx : is_Some ?o |- _ => destruct o; [clear Hx|by destruct Hx] end;
  rewrite ?HN, ?HS; naive_solver.
Qed.

(** The log of a delivery is complete and gap-free.  Its transitions are
  numbered 1, 2, 3 and so on, each starts in the status the previous one ended in
  and is a move of the state machine, and the last one records the delivery's
  current status and attempt count. *)
Theorem delivery_log_gap_free (s : db) (wid : uuid) (w : WebhookDeliveryAttempt)
  (Hr : reachable s) (Hw : deliveries s !! wid = Some w) :
log (log_of wid (transitions s)) (Some (w_status w)) (w_attempt_count w) ∧
t_sequence <$> log_of wid (transitions s)
  = (λ i, Z.of_nat i + 1) <$> seq 0 (length (log_of wid (transitions s))).
Proof.
pose proof (inv_log _ _ _ _ (webhook_reachable_inv _ Hr) wid) as Hl. rewrite Hw in Hl.
split; [exact Hl|]. by eapply log_sequences.
Qed.

(** Fan-out.  When an event is emitted for the first time, every active
  destination of its project that subscribes to its type has a delivery of it when
  the emission returns; a repeated emission returns the recorded event and creates
  nothing; and in any state a destination has at most one delivery of an event. *)
Theorem event_fanout (s s' : db) now org pid ety sty sid payload rq idem eid e
  (Hr : reachable s)
  (Hrun : emit_event now org pid ety sty sid payload rq idem s = (inr (eid, e), s')) :
events s' !! eid = Some e ∧
(events s !! eid = None →
   ∀ did d, destinations s !! did = Some d → matching e did d = true →
     ∃ wid w, deliveries s' !! wid = Some w ∧ w_destination_id w = did ∧ w_event_id w = eid) ∧
(∀ i j w w', deliveries s' !! i = Some w → deliveries s' !! j = Some w' →
   w_destination_id w = w_destination_id w' → w_event_id w = w_event_id w' → i = j) ∧
(∀ i e', events s' !! i = Some e' → same_event pid ety sty sid i e' = true → i = eid).
Proof.
pose proof (emit_spec now org pid ety sty sid payload rq idem s (webhook_reachable_inv _ Hr) _ _ Hrun)
  as ([HI' _] & He & Hsame & Hnew). cbn in He, Hsame, Hnew.
split_and!; [done|by intros Hx; apply Hnew|apply (inv_unique _ _ _ _ HI')|].
intros i e' Hi Hs'. unfold same_event in *. breflect.
eapply (inv_events _ _ _ _ HI'); [done..|congruence|congruence|congruence|congruence].
Qed.

(** C38: a completion is accepted only from the holder of the current claim, before
  it expires, for a destination that is not disabled; it then records exactly that
  outcome: success verifies the destination and clears its failures, exhausted
  attempts count one failure and disable it at the threshold, and otherwise the
  delivery is retried. *)
Theorem completion_fenced (s s' : db) now wid token ok http err w'
  (Hr : reachable s)
  (Hrun : complete_webhook_delivery now wid token ok http err s = (inr w', s')) :
complete_result now wid token ok http err s w' s'.
Proof.
by pose proof (webhook_complete_spec now wid token ok http err s (webhook_reachable_inv _ Hr) _ _ Hrun) as [_ Hres].
Qed.

(** A delivered event stays delivered.  Over any further operations a succeeded
  delivery keeps its row, events stay recorded and the transition log only grows. *)
Theorem delivered_is_final (s s' : db) (Hr : reachable s) (Hs : rtc step s s') :
(∀ wid w, deliveries s !! wid = Some w → w_status w = SUCCEEDED → deliveries s' !! wid = Some w) ∧
events s ⊆ events s' ∧ transitions s `prefix_of` transitions s'.
Proof.
destruct (webhook_steps_spec _ _ Hs (webhook_reachable_inv _ Hr)) as [_ [He1 He2 He3]]. split_and!; [|done..].
intros wid w Hw Hst. destruct (He3 _ _ Hw) as (w' & Hw' & _ & Heq & _). by rewrite Hw', Heq.
Qed.
End reachability.

(** The back-off between attempts doubles from 10 seconds and never exceeds an
    hour. *)
Theorem webhook_retry_delay_bounds (n : Z) (Hn : 1 ≤ n) :
  10 ≤ retry_delay n ≤ 3600 ∧ retry_delay (n + 1) = Z.min 3600 (2 * retry_delay n).
Proof.
  unfold retry_delay. assert (n < 10 ∨ 10 ≤ n) as [Hlt|Hge] by lia.
  - rewrite !Z.min_l with (n := n) by lia. rewrite (Z.min_l (n + 1)) by lia.
    rewrite Z.pow_add_r, Z.pow_1_r by lia.
    pose proof (Z.pow_le_mono_r 2 1 n). lia.
  - rewrite !(Z.min_r _ 10) by lia. change (2 ^ 10) with 1024. lia.
Qed.

(** ** Concrete runs *)

Module Scenario.
#[local] Instance counting : Entropy := λ n, (n + 100)%N.
#[local] Instance tokens : Tokens := λ n, lit "token" ++ dec_str n.
#[local] Instance plain_digest : Sha256 := λ b, b.
#[local] Instance ascii_fold : CaseFold := λ s, s.
#[local] Instance no_decimals : UnicodeDecimal := λ _, None.
#[local] Instance plain_floats : PyFloats := λ r, FFin r.
#[local] Instance no_alnum : UnicodeAlnum := λ _, false.

Definition created (sid : N) : op :=
OpEmit 10 1 2 "build.created" "build" sid
  [(KStr (lit "agent_id"), PStr (str_of_uuid 4)); (KStr (lit "agent_version_id"), PStr (str_of_uuid 5));
   (KStr (lit "status"), PStr (lit "QUEUED"))] (lit "req-1") true.
Definition dest : ValidatedWebhookDestination :=
MkValidatedDestination (lit "https://example.org/hook") (lit "https://example.org") ["build.created"%string].

(** Destination 100 (secret 101), event 102, its delivery 103 (transition 104). *)
Definition s1 : db := transaction (run_op
(OpCreate 0 1 2 3 "user" (lit "u") (lit "key-12345") "rq" (lit "hook") dest (lit "d"))) empty_db.
Definition s2 : db := transaction (run_op (created 50)) s1.
Definition blank_destination : WebhookDestination :=
MkDestination 0 0 [] [] [] [] DISABLED None 0 0 None 0 0 0 0 0 0 0.
Definition the_destination (s : db) : WebhookDestination :=
default blank_destination (destinations s !! 100%N).
Definition s3 : db := transaction (run_op (OpVerify 20 100 (the_destination s2) 1 102 "user" (lit "u") "rq")) s2.
Definition s4 : db := transaction (run_op (OpClaim 30 ∅ 2 (lit "w1") 30)) s3.
Definition s5 : db := transaction (run_op (OpComplete 40 103 (lit "token5") true (Some 200) None)) s4.

Lemma webhook_step_op o s : op_loaded o s → step s (transaction (run_op o) s).
Proof. by exists o. Qed.
(** A route that loads the destination as it is. *)
Lemma loaded_now s : object_of (Some (the_destination s)) 100 s.
Proof. intros d row [= <-] Hrow. unfold the_destination. by rewrite Hrow. Qed.
Lemma reach1 : reachable s1.
Proof. by apply rtc_once, webhook_step_op. Qed.
Lemma webhook_reach2 : reachable s2.
Proof. eapply rtc_r; [exact reach1|by apply webhook_step_op]. Qed.
Lemma reach3 : reachable s3.
Proof. eapply rtc_r; [exact webhook_reach2|apply webhook_step_op, loaded_now]. Qed.
Lemma webhook_reach4 : reachable s4.
Proof. eapply rtc_r; [exact reach3|by apply webhook_step_op]. Qed.
Lemma reach5 : reachable s5.
Proof. eapply rtc_r; [exact webhook_reach4|by apply webhook_step_op]. Qed.

Definition blank_delivery : WebhookDeliveryAttempt :=
MkDelivery 0 0 0 0 [] 0 0 PENDING 0 0 0 None None None None None None None 0 None None None 0 0 0.
Definition the_delivery (s : db) : WebhookDeliveryAttempt := default blank_delivery (deliveries s !! 103%N).
Lemma webhook_checks_hold_witness :
destinations s5 !! 100%N = Some (the_destination s5) ∧ destination_ok (the_destination s5).
Proof.
assert (Hd : destinations s5 !! 100%N = Some (the_destination s5)) by (vm_compute; reflexivity).
exact (conj Hd (proj1 (webhook_checks_hold s5 reach5) _ _ Hd)).
Defined.

Lemma delivery_log_gap_free_witness :
log (log_of 103 (transitions s5)) (Some (w_status (the_delivery s5)))
  (w_attempt_count (the_delivery s5)).
Proof.
assert (Hw : deliveries s5 !! 103%N = Some (the_delivery s5)) by (vm_compute; reflexivity).
exact (proj1 (delivery_log_gap_free s5 103 (the_delivery s5) reach5 Hw)).
Defined.

(** With the destination verified, a second event is delivered to it. *)
Definition emit_run := emit_event 50 1 2 "build.created" "build" 51
[(KStr (lit "agent_id"), PStr (str_of_uuid 4)); (KStr (lit "agent_version_id"), PStr (str_of_uuid 5));
 (KStr (lit "status"), PStr (lit "QUEUED"))] (lit "req-2") true s5.
Definition emitted : Event :=
match emit_run.1 with
| inr (_, e) => e
| inl _ => MkEvent 0 0 "" "" "" 0 PNone [] "" [] 0 0
end.
Lemma event_fanout_witness :
∃ wid w, deliveries emit_run.2 !! wid = Some w ∧ w_destination_id w = 100%N ∧ w_event_id w = 108%N.
Proof.
assert (Hrun : emit_run = (inr (108%N, emitted), emit_run.2)) by (vm_compute; reflexivity).
assert (Hnew : events s5 !! 108%N = None) by (vm_compute; reflexivity).
assert (Hd : destinations s5 !! 100%N = Some (the_destination s5)) by (vm_compute; reflexivity).
assert (Hm : matching emitted 100 (the_destination s5) = true) by (vm_compute; reflexivity).
exact (proj1 (proj2 (event_fanout s5 emit_run.2 50 1 2 "build.created" "build" 51
  [(KStr (lit "agent_id"), PStr (str_of_uuid 4)); (KStr (lit "agent_version_id"), PStr (str_of_uuid 5));
   (KStr (lit "status"), PStr (lit "QUEUED"))] (lit "req-2") true 108 emitted reach5 Hrun))
  Hnew 100%N (the_destination s5) Hd Hm).
Defined.

Definition complete_run := complete_webhook_delivery 40 103 (lit "token5") false (Some 500) None s4.
Definition completed_row : WebhookDeliveryAttempt :=
match complete_run.1 with inr w => w | inl _ => blank_delivery end.
Lemma completion_fenced_witness :
w_status completed_row = RETRY_WAIT ∧
complete_result 40 103 (lit "token5") false (Some 500) None s4 completed_row complete_run.2.
Proof.
split; [vm_compute; reflexivity|].
assert (Hrun : complete_run = (inr completed_row, complete_run.2)) by (vm_compute; reflexivity).
exact (completion_fenced s4 complete_run.2 40 103 (lit "token5") false (Some 500) None completed_row
  webhook_reach4 Hrun).
Defined.

Lemma steps56 : rtc step s5 (transaction (run_op (created 52)) s5).
Proof. by apply rtc_once, webhook_step_op. Qed.
Lemma delivered_is_final_witness :
deliveries (transaction (run_op (created 52)) s5) !! 103%N = Some (the_delivery s5).
Proof.
assert (Hw : deliveries s5 !! 103%N = Some (the_delivery s5)) by (vm_compute; reflexivity).
assert (Hs : w_status (the_delivery s5) = SUCCEEDED) by (vm_compute; reflexivity).
exact (proj1 (delivered_is_final s5 _ reach5 steps56) 103%N (the_delivery s5) Hw Hs).
Defined.

Lemma webhook_retry_delay_bounds_witness : 10 ≤ retry_delay 3 ≤ 3600.
Proof. apply (webhook_retry_delay_bounds 3). lia. Defined.

(** The destination is disabled while its delivery is claimed. *)
Definition s_disabled : db :=
transaction (run_op (OpDisable 40 100 (the_destination s4) 3 1 "user" (lit "u") "rq")) s4.

(** A delivery whose claim expired is handed out again even though its
  destination was disabled in the meantime; a fresh claim requires the destination
  to be pending verification or active, and the completion of the new claim is then
  refused, so the attempt is spent for nothing. *)
Example expired_claim_ignores_disabled :
d_status (the_destination s_disabled) = DISABLED ∧
(∃ w token, (claim_webhook_delivery (seconds 100) ∅ 2 (lit "w2") 30 s_disabled).1
              = inr (Some (103%N, w, token)) ∧ w_status w = CLAIMED ∧ w_attempt_count w = 2 ∧
   (complete_webhook_delivery (seconds 101) 103 token true (Some 200) None
      (claim_webhook_delivery (seconds 100) ∅ 2 (lit "w2") 30 s_disabled).2).1
     = inl (ApiError 409 "WEBHOOK_CLAIM_FENCED")).
Proof.
split; [vm_compute; reflexivity|]. eexists _, _. split_and!; vm_compute; reflexivity.
Qed.
End Scenario.
