(* ===== verification/Schedules.v ===== *)
(** Schedules (src/apps/api/app/services/schedules.py with schedule_schemas.py):
    creating, pausing and resuming a schedule, and the dispatcher that turns due
    schedules into runs.  Run creation is reached through the interface
    [RunService]; its tables are the state [RS]. *)

From S2P Require Import Prelude PyVal Json PyUuid PyTime Url QueueProtocol Idempotency.

Inductive schedule_status := ACTIVE | PAUSED | COMPLETED.
#[export] Instance schedule_status_eq_dec : EqDecision schedule_status.
Proof. solve_decision. Defined.

Inductive cadence := ONCE | INTERVAL.
#[export] Instance cadence_eq_dec : EqDecision cadence.
Proof. solve_decision. Defined.

Inductive missed_policy := SKIP | FIRE_ONCE.
#[export] Instance missed_policy_eq_dec : EqDecision missed_policy.
Proof. solve_decision. Defined.

Inductive trigger_outcome := FIRED | SKIPPED | FAILED.
#[export] Instance trigger_outcome_eq_dec : EqDecision trigger_outcome.
Proof. solve_decision. Defined.

Record Schedule := MkSchedule {
  sc_organization_id : uuid;
  sc_project_id : uuid;
  sc_agent_id : uuid;
  sc_agent_version_id : uuid;
  sc_build_id : uuid;
  sc_name : pystr;
  sc_status : schedule_status;
  sc_cadence_kind : cadence;
  sc_starts_at : time;
  sc_interval_seconds : option Z;
  sc_missed_run_policy : missed_policy;
  sc_misfire_grace_seconds : Z;
  sc_run_payload : pyval;
  sc_next_fire_at : option time;
  sc_last_triggered_at : option time;
  sc_fired_count : Z;
  sc_skipped_count : Z;
  sc_failed_count : Z;
  sc_created_by_user_id : uuid;
  sc_created_at : time;
  sc_updated_at : time;
  sc_version : Z }.
#[export] Instance eta_schedule : Eta Schedule := λ r,
  MkSchedule (sc_organization_id r) (sc_project_id r) (sc_agent_id r) (sc_agent_version_id r)
    (sc_build_id r) (sc_name r) (sc_status r) (sc_cadence_kind r) (sc_starts_at r)
    (sc_interval_seconds r) (sc_missed_run_policy r) (sc_misfire_grace_seconds r)
    (sc_run_payload r) (sc_next_fire_at r) (sc_last_triggered_at r) (sc_fired_count r)
    (sc_skipped_count r) (sc_failed_count r) (sc_created_by_user_id r) (sc_created_at r)
    (sc_updated_at r) (sc_version r).

Record ScheduleTrigger := MkTrigger {
  tg_organization_id : uuid;
  tg_project_id : uuid;
  tg_schedule_id : uuid;
  tg_run_id : option uuid;
  tg_scheduled_for : time;
  tg_observed_at : time;
  tg_outcome : trigger_outcome;
  tg_reason : string;
  tg_error_code : option string;
  tg_created_at : time }.

(** The columns of agent versions and builds that scheduling reads. *)
Record AgentVersion := MkVersion {
  av_organization_id : uuid; av_project_id : uuid; av_agent_id : uuid }.
Record Build := MkBuild {
  bd_organization_id : uuid; bd_project_id : uuid; bd_agent_id : uuid;
  bd_agent_version_id : uuid; bd_status : string; bd_artifact_digest : option pystr }.

(** ** schedule_schemas.py *)

(** A request [datetime]: without a timezone, or the UTC instant it denotes. *)
Inductive datetime_input := Naive | Aware (t : time).

Record CreateScheduleRequest := MkScheduleRequest {
  sr_name : pystr;
  sr_cadence_kind : cadence;
  sr_starts_at : datetime_input;
  sr_interval_seconds : option Z;
  sr_missed_run_policy : missed_policy;
  sr_misfire_grace_seconds : Z;
  sr_run_build_id : uuid;
  (** [payload.run.model_dump(mode="json")] *)
  sr_run : pyval }.

Definition schedule_name (s : pystr) : bool :=
  match s with
  | c :: t => is_alnum c && bool_decide (length t ≤ 127)%nat
              && forallb (λ c, is_alnum c || bool_decide (c ∈ lit "._-")) t
  | [] => false
  end.

(** The field constraints, [require_timezone] and [validate_cadence]. *)
Definition valid_schedule_request (p : CreateScheduleRequest) : bool :=
  schedule_name (sr_name p)
  && match sr_interval_seconds p with Some n => (60 <=? n) && (n <=? 31536000) | None => true end
  && ((60 <=? sr_misfire_grace_seconds p) && (sr_misfire_grace_seconds p <=? 86400))
  && match sr_starts_at p with Aware _ => true | Naive => false end
  && match sr_cadence_kind p, sr_interval_seconds p with
     | ONCE, None | INTERVAL, Some _ => true
     | _, _ => false
     end.

(** ** What scheduling uses of other components *)

(** [payload.model_dump(mode="json")] of pydantic. *)
Class ScheduleDump := schedule_dump : CreateScheduleRequest → pyval.

(** [CreateRunRequest.model_validate] ([None] is a [ValidationError]) and
    [create_run] of services/runs.py, which returns the id of the run. *)
Class RunService (RS : Type) := {
  run_request : Type;
  model_validate : pyval → option run_request;
  create_run (version_id : uuid) (version : AgentVersion) (user_id : uuid) (idempotency_key : pystr)
    (payload : run_request) (request_id actor_type : string) (actor_id : pystr) : M RS uuid }.

Record db (RS : Type) := MkDb {
  schedules : gmap uuid Schedule;
  triggers : gmap uuid ScheduleTrigger;
  versions : gmap uuid AgentVersion;
  builds : gmap uuid Build;
  idempotency : list (IdempotencyRecord (uuid * Schedule));
  runs : RS;
  audits : list audit_event;
  rng : N }.
Arguments MkDb {RS}. Arguments schedules {RS}. Arguments triggers {RS}. Arguments versions {RS}.
Arguments builds {RS}. Arguments idempotency {RS}. Arguments runs {RS}. Arguments audits {RS}.
Arguments rng {RS}.
#[export] Instance eta_db RS : Eta (db RS) := λ s,
  MkDb (schedules s) (triggers s) (versions s) (builds s) (idempotency s) (runs s) (audits s) (rng s).
#[export] Instance db_audit RS : HasAudit (db RS) := {|
  audit_log := audits;
  audit_push e s := s <| audits ::= λ l, l ++ [e] |>;
  audit_push_log e s := eq_refl |}.

(** ** services/schedules.py *)

Record ScheduleDispatchResult := MkDispatch {
  dr_acquired : bool; dr_examined : Z; dr_fired : Z; dr_skipped : Z; dr_failed : Z }.

Definition create_endpoint : string := "POST:/api/v1/agent-versions/{version_id}/schedules".

Section ops.
Context {RS : Type} `{!RunService RS, Entropy, Sha256, ScheduleDump}.
Abbreviation M := (Prelude.M (db RS)).

Definition fresh_uuid : M uuid := λ s, (inr (uuid4 (rng s)), s <| rng ::= N.succ |>).

Definition update_schedule (id : uuid) (r : Schedule) : M () :=
modify (λ s, s <| schedules ::= <[id := r]> |>).

Definition insert_schedule (r : Schedule) : M uuid :=
id ← fresh_uuid;
taken ← gets (λ s, schedules s !! id);
raise_if (bool_decide (is_Some taken)) (IntegrityError "schedules_pkey") ;;
update_schedule id r ;;
mret id.

Definition same_instant (id : uuid) (t : time) (_ : uuid) (g : ScheduleTrigger) : bool :=
bool_decide (tg_schedule_id g = id) && (tg_scheduled_for g =? t).

Definition insert_trigger (g : ScheduleTrigger) : M uuid :=
id ← fresh_uuid;
taken ← gets (λ s, triggers s !! id);
raise_if (bool_decide (is_Some taken)) (IntegrityError "schedule_triggers_pkey") ;;
duplicate ← gets (λ s, exists_row (same_instant (tg_schedule_id g) (tg_scheduled_for g)) (triggers s));
raise_if duplicate (IntegrityError "uq_schedule_triggers_schedule_instant") ;;
modify (λ s, s <| triggers ::= <[id := g]> |>) ;;
mret id.

(** A [datetime] result outside its range raises. *)
Definition in_range (t : time) : M time :=
raise_if (negb (representable t)) (OverflowError "date value out of range") ;; mret t.

Definition scheduled_build (version_id : uuid) (v : AgentVersion) (b : Build) : bool :=
bool_decide (bd_organization_id b = av_organization_id v)
&& bool_decide (bd_project_id b = av_project_id v)
&& bool_decide (bd_agent_id b = av_agent_id v)
&& bool_decide (bd_agent_version_id b = version_id).

(** The row of a new schedule. *)
Definition new_schedule (now starts_at : time) (version_id : uuid) (v : AgentVersion)
  (user_id : uuid) (p : CreateScheduleRequest) : Schedule :=
MkSchedule (av_organization_id v) (av_project_id v) (av_agent_id v) version_id (sr_run_build_id p)
  (sr_name p) ACTIVE (sr_cadence_kind p) starts_at (sr_interval_seconds p)
  (sr_missed_run_policy p) (sr_misfire_grace_seconds p) (sr_run p) (Some starts_at) None
  0 0 0 user_id now now 1.

(** The tail of [create_schedule]: a new schedule is stored, recorded and audited. *)
Definition record_schedule (now : time) (r : Schedule) (user_id : uuid) (actor_type : string)
  (actor_id : pystr) (key_digest fingerprint : pystr) (request_id : string)
  : M (uuid * Schedule) :=
id ← insert_schedule r;
modify (λ s, s <| idempotency ::= λ l, l ++
  [MkIdempotency (sc_organization_id r) (str_of_uuid user_id) create_endpoint key_digest
     fingerprint "schedule" id (Some 201) (Some (id, r)) now (now + seconds 86400)] |>) ;;
append_audit_event (MkAudit (Some (sc_organization_id r)) (Some (sc_project_id r)) actor_type
  actor_id "schedule.created" "schedule" (Some id) request_id
  [("agent_version_id"%string, DUuid (sc_agent_version_id r));
   ("build_id"%string, DUuid (sc_build_id r));
   ("cadence_kind"%string, DStr (match sc_cadence_kind r with ONCE => "ONCE" | INTERVAL => "INTERVAL" end));
   ("missed_run_policy"%string,
      DStr (match sc_missed_run_policy r with SKIP => "SKIP" | FIRE_ONCE => "FIRE_ONCE" end))]) ;;
mret (id, r).

(** [create_schedule], after the body was validated ([valid_schedule_request]) and
  the route loaded the agent version. *)
Definition create_schedule (now : time) (version_id : uuid) (v : AgentVersion) (user_id : uuid)
  (actor_type : string) (actor_id idempotency_key : pystr) (request_id : string)
  (p : CreateScheduleRequest) : M (uuid * Schedule) :=
raise_if (negb (valid_schedule_request p)) ValidationError ;;
raise_if (negb (valid_idempotency_key idempotency_key)) (ApiError 400 "INVALID_REQUEST") ;;
row ← gets (λ s, builds s !! sr_run_build_id p);
b ← get_or_raise row not_found;
raise_if (negb (scheduled_build version_id v b)) not_found ;;
raise_if (negb (bool_decide (bd_status b = "SUCCEEDED"%string))
          || bool_decide (bd_artifact_digest b = None)) (ApiError 409 "BUILD_NOT_READY") ;;
encoded ← get_or_raise (utf8_encode idempotency_key) UnicodeEncodeError;
let key_digest := sha256_hex encoded in
fingerprint ← get_or_raise (canonical_fingerprint (PDict
  [(KStr (lit "agent_version_id"), PStr (str_of_uuid version_id));
   (KStr (lit "schedule"), schedule_dump p)])) UnicodeEncodeError;
records ← gets idempotency;
match replay_of (av_organization_id v) (str_of_uuid user_id) create_endpoint key_digest
        fingerprint records with
| inl e => raise e
| inr (Some snapshot) => mret snapshot
| inr None =>
    duplicate ← gets (λ s, exists_row (λ _ r, bool_decide (sc_project_id r = av_project_id v)
                                             && bool_decide (sc_name r = sr_name p)) (schedules s));
    raise_if duplicate (ApiError 409 "SCHEDULE_ALREADY_EXISTS") ;;
    starts_at ← match sr_starts_at p with
                | Aware t => in_range t
                | Naive => raise (ValueError "Schedule starts_at must include a timezone offset.")
                end;
    record_schedule now (new_schedule now starts_at version_id v user_id p) user_id actor_type
      actor_id key_digest fingerprint request_id
end.

(** [r] is the object the permission check loaded before the lock: the locking SELECT finds
  the row but returns that object, and the flush writes the columns that differ from it. *)
Definition set_schedule_paused (now : time) (schedule_id : uuid) (r : Schedule) (paused : bool)
  (actor_type : string) (actor_id : pystr) (request_id : string) : M Schedule :=
row ← gets (λ s, schedules s !! schedule_id);
row ← get_or_raise row not_found;
raise_if (bool_decide (sc_status r = COMPLETED)) (ApiError 409 "SCHEDULE_COMPLETED") ;;
let target := if paused then PAUSED else ACTIVE in
if bool_decide (sc_status r = target) then mret r else
let row := row <| sc_status := written (sc_status r) target (sc_status row) |>
               <| sc_updated_at := written (sc_updated_at r) now (sc_updated_at row) |>
               <| sc_version := written (sc_version r) (Z.succ (sc_version r)) (sc_version row) |> in
update_schedule schedule_id row ;;
let r := r <| sc_status := target |> <| sc_updated_at := now |> <| sc_version ::= Z.succ |> in
append_audit_event (MkAudit (Some (sc_organization_id r)) (Some (sc_project_id r)) actor_type
  actor_id (if paused then "schedule.paused" else "schedule.resumed") "schedule"
  (Some schedule_id) request_id [("version"%string, DInt (sc_version r))]) ;;
mret r.

(** [n / d] rounded to the nearest integer, ties to even. *)
Definition round_half_even (n d : Z) : Z :=
let q := n / d in
let rest := 2 * (n mod d) in
if rest <? d then q else if d <? rest then q + 1 else if Z.even q then q else q + 1.
(** [timedelta.total_seconds()] of [us] microseconds: the nearest double, [m / 2 ^ e] as
  [(m, e)].  From one second up [m] has the 53 bits of a double; below a second a double
  is finer, but the quotient by a whole number of seconds is 0 either way. *)
Definition total_seconds (us : Z) : Z * Z :=
let e := Z.max 0 (52 - Z.log2 (us / 1000000)) in (round_half_even (us * 2 ^ e) 1000000, e).
(** [int(elapsed // interval_seconds) + 1]: the floor of the quotient of the double, which
  [//] computes exactly for operands of this size. *)
Definition jumps (elapsed interval_seconds : Z) : Z :=
let '(m, e) := total_seconds elapsed in m / (interval_seconds * 2 ^ e) + 1.
Definition next_instant (scheduled_for now : time) (interval_seconds : Z) : time :=
let elapsed := Z.max 0 (now - scheduled_for) in
scheduled_for + seconds (jumps elapsed interval_seconds * interval_seconds).

Definition advance_schedule (r : Schedule) (scheduled_for now : time) : M Schedule :=
match sc_cadence_kind r with
| ONCE => mret (r <| sc_status := COMPLETED |> <| sc_next_fire_at := None |>)
| INTERVAL =>
    n ← get_or_raise (sc_interval_seconds r) (RuntimeError "Recurring schedule is missing its interval");
    t ← in_range (next_instant scheduled_for now n);
    mret (r <| sc_next_fire_at := Some t |>)
end.

(** [f"schedule:{record.id}:{scheduled_for.isoformat()}"]. *)
Definition run_key (schedule_id : uuid) (scheduled_for : time) : pystr :=
lit "schedule:" ++ str_of_uuid schedule_id ++ lit ":" ++ isoformat scheduled_for.

Definition in_runs {A} (m : Prelude.M RS A) : M A := λ s,
let '(r, rs) := m (runs s) in (r, s <| runs := rs |>).

(** The [try] block: the id of the created run, or the code of the rejection. *)
Definition attempt_run (schedule_id : uuid) (r : Schedule) (scheduled_for : time)
  (request_id : string) : M (string + uuid) :=
try_catch
  (row ← gets (λ s, versions s !! sc_agent_version_id r);
   v ← get_or_raise row (ApiError 409 "SCHEDULE_VERSION_UNAVAILABLE");
   raise_if (negb (bool_decide (av_organization_id v = sc_organization_id r)))
     (ApiError 409 "SCHEDULE_VERSION_UNAVAILABLE") ;;
   payload ← get_or_raise (model_validate (sc_run_payload r)) ValidationError;
   run_id ← in_runs (create_run (sc_agent_version_id r) v (sc_created_by_user_id r)
     (run_key schedule_id scheduled_for) payload request_id "system" (lit "schedule-dispatcher"));
   mret (inr run_id))
  (λ e, match e with
        | ApiError _ code => mret (inl code)
        | ValidationError => mret (inl "SCHEDULE_RUN_PAYLOAD_INVALID"%string)
        | _ => raise e
        end).

(** What is decided for a due instant. *)
Record decision := MkDecision {
dc_outcome : trigger_outcome; dc_reason : string;
dc_error_code : option string; dc_run_id : option uuid }.

Definition decide_trigger (schedule_id : uuid) (r : Schedule) (scheduled_for now : time)
  (request_id : string) : M decision :=
earliest ← in_range (now - seconds (sc_misfire_grace_seconds r));
let missed := scheduled_for <? earliest in
if missed && bool_decide (sc_missed_run_policy r = SKIP)
then mret (MkDecision SKIPPED "MISSED_WINDOW" None None)
else
  result ← attempt_run schedule_id r scheduled_for request_id;
  mret match result with
       | inl code => MkDecision FAILED "RUN_CREATION_REJECTED" (Some code) None
       | inr run_id => MkDecision FIRED (if missed then "MISSED_FIRE_ONCE" else "DUE") None (Some run_id)
       end.

(** [record.<outcome>_count += 1]. *)
Definition counted (o : trigger_outcome) (r : Schedule) : Schedule :=
match o with
| FIRED => r <| sc_fired_count ::= Z.succ |>
| SKIPPED => r <| sc_skipped_count ::= Z.succ |>
| FAILED => r <| sc_failed_count ::= Z.succ |>
end.

Definition trigger_action (o : trigger_outcome) : string :=
match o with
| FIRED => "schedule.trigger_fired"
| SKIPPED => "schedule.trigger_skipped"
| FAILED => "schedule.trigger_failed"
end.

(** One iteration of the dispatch loop. *)
Definition dispatch_row (now : time) (request_id : string) (x : uuid * Schedule)
  : M (option trigger_outcome) :=
let '(id, r) := x in
match sc_next_fire_at r with
| None => mret None
| Some scheduled_for =>
    existing ← gets (λ s, exists_row (same_instant id scheduled_for) (triggers s));
    r ← advance_schedule r scheduled_for now;
    let r := r <| sc_last_triggered_at := Some now |> <| sc_updated_at := now |>
               <| sc_version ::= Z.succ |> in
    if existing : bool then update_schedule id r ;; mret None else
    d ← decide_trigger id r scheduled_for now request_id;
    let r := counted (dc_outcome d) r in
    update_schedule id r ;;
    tid ← insert_trigger (MkTrigger (sc_organization_id r) (sc_project_id r) id (dc_run_id d)
            scheduled_for now (dc_outcome d) (dc_reason d) (dc_error_code d) now);
    append_audit_event (MkAudit (Some (sc_organization_id r)) (Some (sc_project_id r)) "system"
      (lit "schedule-dispatcher") (trigger_action (dc_outcome d)) "schedule_trigger" (Some tid)
      request_id
      [("schedule_id"%string, DUuid id); ("scheduled_for"%string, DTime scheduled_for);
       ("run_id"%string, match dc_run_id d with Some u => DUuid u | None => DNone end);
       ("reason"%string, DStr (dc_reason d));
       ("error_code"%string, match dc_error_code d with Some c => DStr c | None => DNone end)]) ;;
    mret (Some (dc_outcome d))
end.

Definition tally (o : option trigger_outcome) (t : Z * Z * Z) : Z * Z * Z :=
let '(fired, skipped, failed) := t in
match o with
| Some FIRED => (fired + 1, skipped, failed)
| Some SKIPPED => (fired, skipped + 1, failed)
| Some FAILED => (fired, skipped, failed + 1)
| None => t
end.

Fixpoint dispatch_rows (now : time) (request_id : string) (rows : list (uuid * Schedule))
  (t : Z * Z * Z) : M (Z * Z * Z) :=
match rows with
| [] => mret t
| x :: rows => o ← dispatch_row now request_id x; dispatch_rows now request_id rows (tally o t)
end.

Definition due (now : time) (locked : gset uuid) (id : uuid) (r : Schedule) : bool :=
bool_decide (sc_status r = ACTIVE)
&& match sc_next_fire_at r with Some t => t <=? now | None => false end
&& bool_decide (id ∉ locked).

(** [.order_by(Schedule.next_fire_at, Schedule.id)]; selected rows have an instant. *)
Definition due_key (x : uuid * Schedule) : Z * N := (default 0 (sc_next_fire_at x.2), x.1).

(** [acquired]: the outcome of [pg_try_advisory_xact_lock]; [locked]: the rows other
  transactions hold. *)
Definition dispatch_due_schedules (acquired : bool) (locked : gset uuid) (now : time)
  (batch_size : Z) (request_id : string) : M ScheduleDispatchResult :=
raise_if (negb ((1 <=? batch_size) && (batch_size <=? 500)))
  (ValueError "Schedule dispatch batch size must be between 1 and 500.") ;;
if negb acquired then mret (MkDispatch false 0 0 0 0) else
rows ← gets (λ s, take (Z.to_nat batch_size)
                    (order_by (by_key due_key) (select (due now locked) (schedules s))));
'(fired, skipped, failed) ← dispatch_rows now request_id rows (0, 0, 0);
mret (MkDispatch true (Z.of_nat (length rows)) fired skipped failed).
End ops.
