(* ===== verification/SchedulesSpec.v ===== *)
(** Properties of schedules: the instants of a schedule are never fired twice and
    never lost, the counters and the recorded outcomes are exact, a definition is
    immutable, and the dispatcher takes the earliest due schedules first. *)

From S2P Require Import Prelude PyVal Json PyUuid PyTime Url QueueProtocol Idempotency Schedules.

(** ** The instants of a schedule *)

(** The abstract specification of a cadence: one instant, or one every interval. *)
Definition occurrence (r : Schedule) (t : time) : Prop :=
  match sc_interval_seconds r with
  | None => t = sc_starts_at r
  | Some n => ∃ k, 0 ≤ k ∧ t = sc_starts_at r + seconds (k * n)
  end.

(** *** The division of delays *)

(** Rounding stays between integers. *)
Lemma round_ge n d k : 0 < d → k * d ≤ n → k ≤ round_half_even n d.
Proof.
  intros Hd Hk. assert (k ≤ n / d) by (apply Z.div_le_lower_bound; lia). unfold round_half_even. cbv zeta.
  repeat case_match; lia.
Qed.
Lemma round_lt n d k : 0 < d → 2 * n < (2 * k - 1) * d → round_half_even n d < k.
Proof.
  intros Hd Hk. pose proof (Z.div_mod n d). pose proof (Z.mod_pos_bound n d).
  unfold round_half_even. cbv zeta. set (q := n / d) in *. set (r := n mod d) in *.
  assert (q < k ∧ (q = k - 1 → 2 * r < d)) as [Hq Hr] by (split; nia).
  destruct (Z.ltb_spec (2 * r) d); [done|]. repeat case_match; nia.
Qed.

(** Up to [horizon] seconds of delay (272 years) a double is finer than a microsecond. *)
Definition horizon : time := seconds (2 ^ 33).
Definition on_time (t now : time) : Prop := now - t < horizon.

Lemma jumps_spec e n : 0 ≤ e → 0 < n →
  e < seconds (jumps e n * n) ∧ (e < horizon → jumps e n = e / seconds n + 1).
Proof.
  intros He Hn. unfold jumps, total_seconds, seconds, horizon, seconds. set (k := Z.max 0 (52 - Z.log2 (e / 1000000))).
  assert (0 ≤ k) as Hk by lia. pose proof (Z.pow_pos_nonneg 2 k ltac:(lia) Hk) as Hpow.
  assert (e < 2 ^ 33 * 1000000 → 2 ^ 20 ≤ 2 ^ k) as Hfine.
  { intros Hh. apply Z.pow_le_mono_r; [lia|]. assert (e / 1000000 < 2 ^ 33) as Hs by (apply Z.div_lt_upper_bound; lia).
    assert (Z.log2 (e / 1000000) ≤ 32); [|lia]. pose proof (Z.div_pos e 1000000).
    destruct (Z.le_gt_cases (e / 1000000) 0) as [Hz|Hz]; [by rewrite Z.log2_nonpos|]. apply Z.log2_lt_pow2 in Hs; lia. }
  clearbody k. set (p := 2 ^ k) in *. set (m := round_half_even (e * p) 1000000).
  set (q := e / (n * 1000000)). pose proof (Z.div_mod e (n * 1000000)) as Hdm.
  pose proof (Z.mod_pos_bound e (n * 1000000)) as Hmod. fold q in Hdm. set (r := e mod (n * 1000000)) in *.
  assert (0 < n * 1000000) as Hw by lia. specialize (Hdm ltac:(lia)). specialize (Hmod Hw).
  assert (0 < n * p) as Hnp by nia.
  assert (q * (n * p) ≤ m) as Hlow by (apply round_ge; [done|]; rewrite Hdm; nia).
  assert (q ≤ m / (n * p)) as Hq by (apply Z.div_le_lower_bound; lia).
  split; [nia|]. intros Hh. specialize (Hfine Hh). f_equal.
  assert (m < (q + 1) * (n * p)) as Hup by (apply round_lt; [done|]; rewrite Hdm; nia).
  assert (m / (n * p) < q + 1) by (apply Z.div_lt_upper_bound; lia). lia.
Qed.

(** [t] is an instant of the grid [t0 + k * n], [k >= 1], after [now]; and the first one
    when the delay is within the horizon. *)
Lemma next_instant_spec t0 now n :
  0 < n →
  let t := next_instant t0 now n in
  now < t ∧ t0 < t ∧ (∃ k, 1 ≤ k ∧ t = t0 + seconds (k * n)) ∧
  (on_time t0 now → ∀ j, 1 ≤ j → t0 + seconds (j * n) < t → t0 + seconds (j * n) ≤ now).
Proof.
  intros Hn t. unfold t, next_instant. clear t. set (e := Z.max 0 (now - t0)).
  destruct (jumps_spec e n) as [Hlt Heq]; [lia|done|]. unfold seconds, horizon, on_time in *. set (k := jumps e n) in *.
  assert (1 ≤ k) by nia. split_and!; [lia|nia|by exists k|]. intros Ht j Hj Hjk.
  specialize (Heq ltac:(unfold horizon, seconds in *; lia)).
  pose proof (Z.div_mod e (n * 1000000)). pose proof (Z.mod_pos_bound e (n * 1000000)).
  assert (j ≤ e / (n * 1000000)) by nia. assert (0 < j * n) by nia.
  assert (j * n * 1000000 ≤ e) by nia. lia.
Qed.

(** ** Invariant *)

Definition count_of (o : trigger_outcome) (r : Schedule) : Z :=
  match o with FIRED => sc_fired_count r | SKIPPED => sc_skipped_count r | FAILED => sc_failed_count r end.
Definition is_trigger (id : uuid) (o : trigger_outcome) (g : ScheduleTrigger) : bool :=
  bool_decide (tg_schedule_id g = id) && bool_decide (tg_outcome g = o).

(** The checks the database declares on schedules. *)
Definition schedule_ok (r : Schedule) : Prop :=
  60 ≤ sc_misfire_grace_seconds r ≤ 86400 ∧
  match sc_cadence_kind r, sc_interval_seconds r with
  | ONCE, None => True
  | INTERVAL, Some n => 60 ≤ n ≤ 31536000
  | _, _ => False
  end ∧
  (sc_status r = COMPLETED → sc_cadence_kind r = ONCE) ∧
  (sc_status r = COMPLETED → sc_next_fire_at r = None) ∧
  (∀ t, sc_next_fire_at r = Some t → occurrence r t ∧ representable t = true).

(** Skipping is for missed instants under the [SKIP] policy only. *)
Definition outcome_ok (r : Schedule) (g : ScheduleTrigger) : Prop :=
  let missed := tg_scheduled_for g <? tg_observed_at g - seconds (sc_misfire_grace_seconds r) in
  match tg_outcome g with
  | SKIPPED => missed = true ∧ sc_missed_run_policy r = SKIP ∧ tg_reason g = "MISSED_WINDOW"%string
      ∧ tg_run_id g = None ∧ tg_error_code g = None
  | FAILED => (missed = true → sc_missed_run_policy r = FIRE_ONCE) ∧
      tg_reason g = "RUN_CREATION_REJECTED"%string ∧ tg_run_id g = None ∧ is_Some (tg_error_code g)
  | FIRED => (missed = true → sc_missed_run_policy r = FIRE_ONCE) ∧
      tg_reason g = (if missed then "MISSED_FIRE_ONCE" else "DUE")%string ∧ is_Some (tg_run_id g)
      ∧ tg_error_code g = None
  end.

Definition trigger_ok (r : Schedule) (g : ScheduleTrigger) : Prop :=
  occurrence r (tg_scheduled_for g) ∧ tg_scheduled_for g ≤ tg_observed_at g ∧ outcome_ok r g ∧
  tg_organization_id g = sc_organization_id r ∧ tg_project_id g = sc_project_id r.

Definition covered (T : gmap uuid ScheduleTrigger) (id : uuid) (t : time) : Prop :=
  ∃ tid g, T !! tid = Some g ∧ tg_schedule_id g = id ∧ tg_scheduled_for g ≤ t ≤ tg_observed_at g.

(** [timely]: no schedule was dispatched later than the horizon. *)
Record inv_on (timely : Prop) (S : gmap uuid Schedule) (T : gmap uuid ScheduleTrigger) : Prop := {
  inv_ok : ∀ id r, S !! id = Some r → schedule_ok r;
  inv_names : ∀ i j r r', S !! i = Some r → S !! j = Some r' →
    sc_project_id r = sc_project_id r' → sc_name r = sc_name r' → i = j;
  inv_trigger : ∀ tid g, T !! tid = Some g → ∃ r, S !! tg_schedule_id g = Some r ∧ trigger_ok r g ∧
    ∀ t, sc_next_fire_at r = Some t → tg_scheduled_for g < t;
  inv_once : ∀ i j g g', T !! i = Some g → T !! j = Some g' →
    tg_schedule_id g = tg_schedule_id g' → tg_scheduled_for g = tg_scheduled_for g' → i = j;
  inv_counts : ∀ id r o, S !! id = Some r → count_of o r = countZ (is_trigger id o) T;
  inv_cover : timely → ∀ id r t, S !! id = Some r → occurrence r t →
    (∀ n, sc_next_fire_at r = Some n → t < n) → covered T id t }.

Definition inv {RS} (timely : Prop) (s : db RS) : Prop := inv_on timely (schedules s) (triggers s).

(** What no operation changes of a schedule. *)
Record same_definition (r r' : Schedule) : Prop := {
  sd_organization : sc_organization_id r' = sc_organization_id r;
  sd_project : sc_project_id r' = sc_project_id r;
  sd_agent : sc_agent_id r' = sc_agent_id r;
  sd_version : sc_agent_version_id r' = sc_agent_version_id r;
  sd_build : sc_build_id r' = sc_build_id r;
  sd_name : sc_name r' = sc_name r;
  sd_cadence : sc_cadence_kind r' = sc_cadence_kind r;
  sd_starts : sc_starts_at r' = sc_starts_at r;
  sd_interval : sc_interval_seconds r' = sc_interval_seconds r;
  sd_policy : sc_missed_run_policy r' = sc_missed_run_policy r;
  sd_grace : sc_misfire_grace_seconds r' = sc_misfire_grace_seconds r;
  sd_payload : sc_run_payload r' = sc_run_payload r;
  sd_user : sc_created_by_user_id r' = sc_created_by_user_id r;
  sd_created : sc_created_at r' = sc_created_at r }.

#[export] Instance same_definition_preorder : PreOrder same_definition.
Proof. split; [by intros r|]. intros r1 r2 r3 [] []. split; congruence. Qed.

Lemma same_definition_occurrence r r' t : same_definition r r' → occurrence r' t ↔ occurrence r t.
Proof. intros Hs. unfold occurrence. by rewrite (sd_starts _ _ Hs), (sd_interval _ _ Hs). Qed.

Lemma same_definition_trigger r r' g : same_definition r r' → trigger_ok r g → trigger_ok r' g.
Proof.
  intros Hs. unfold trigger_ok, outcome_ok. rewrite (same_definition_occurrence r r') by done.
  by rewrite (sd_organization _ _ Hs), (sd_project _ _ Hs), (sd_policy _ _ Hs), (sd_grace _ _ Hs).
Qed.

(** ** Preservation, table by table *)

Section tables.
Context (timely : Prop) (S : gmap uuid Schedule) (T : gmap uuid ScheduleTrigger) (HI : inv_on timely S T).

Lemma names_update id r r' : S !! id = Some r → same_definition r r' →
∀ i j a b, <[id:=r']> S !! i = Some a → <[id:=r']> S !! j = Some b →
  sc_project_id a = sc_project_id b → sc_name a = sc_name b → i = j.
Proof using HI.
intros Hr Hs i j a b Ha Hb Hp Hn.
assert (∀ k c, <[id:=r']> S !! k = Some c → ∃ c0, S !! k = Some c0 ∧
  sc_project_id c0 = sc_project_id c ∧ sc_name c0 = sc_name c) as Hold.
{ intros k c [(<- & <-)|(_ & Hk)]%lookup_insert_Some; [|by exists c].
  exists r. by rewrite (sd_project _ _ Hs), (sd_name _ _ Hs). }
destruct (Hold _ _ Ha) as (a0 & Ha0 & Ep & En), (Hold _ _ Hb) as (b0 & Hb0 & Ep' & En').
eapply (inv_names _ _ _ HI); [done..|congruence|congruence].
Qed.

Lemma inv_new_schedule id r :
S !! id = None → schedule_ok r → sc_next_fire_at r = Some (sc_starts_at r) →
(∀ o, count_of o r = 0) →
(∀ j r', S !! j = Some r' → sc_project_id r' = sc_project_id r → sc_name r' = sc_name r → False) →
inv_on timely (<[id:=r]> S) T.
Proof using HI.
intros Hid Hok Hnext Hcnt Hname.
assert (∀ tid g, T !! tid = Some g → tg_schedule_id g ≠ id) as Hno.
{ intros tid g Hg ->%eq_sym. destruct (inv_trigger _ _ _ HI _ _ Hg) as (r0 & Hr0 & _). congruence. }
split.
- intros i a [(_ & <-)|(_ & Ha)]%lookup_insert_Some; [done|by eapply (inv_ok _ _ _ HI)].
- intros i j a b Ha Hb Hp Hn. apply lookup_insert_Some in Ha as [(<- & <-)|(_ & Ha)],
    Hb as [(<- & <-)|(_ & Hb)]; [done|by destruct (Hname _ _ Hb)|by destruct (Hname _ _ Ha)|].
  by eapply (inv_names _ _ _ HI).
- intros tid g Hg. destruct (inv_trigger _ _ _ HI _ _ Hg) as (r0 & Hr0 & Hrest). exists r0.
  rewrite lookup_insert_ne by (apply not_eq_sym; by eapply Hno). done.
- apply (inv_once _ _ _ HI).
- intros i a o [(<- & <-)|(_ & Ha)]%lookup_insert_Some; [|by apply (inv_counts _ _ _ HI)].
  rewrite Hcnt. unfold countZ. rewrite (sumZ_ext _ (λ _, 0)), sumZ_const0; [done|].
  intros tid g Hg. unfold is_trigger. by rewrite bool_decide_eq_false_2 by (by eapply Hno).
- intros Ht i a t [(<- & <-)|(_ & Ha)]%lookup_insert_Some Hocc Hlt; [|by eapply (inv_cover _ _ _ HI Ht)].
  exfalso. specialize (Hlt _ Hnext). destruct Hok as (_ & Hci & _). unfold occurrence, seconds in Hocc.
  destruct (sc_cadence_kind r), (sc_interval_seconds r) as [n|]; try done; [lia|].
  destruct Hocc as (k & Hk & ->). nia.
Qed.

Lemma inv_same_schedule id r r' :
S !! id = Some r → same_definition r r' → schedule_ok r' →
sc_next_fire_at r' = sc_next_fire_at r → (∀ o, count_of o r' = count_of o r) →
inv_on timely (<[id:=r']> S) T.
Proof using HI.
intros Hr Hs Hok Hnext Hcnt. split.
- intros i a [(_ & <-)|(_ & Ha)]%lookup_insert_Some; [done|by eapply (inv_ok _ _ _ HI)].
- by eapply names_update.
- intros tid g Hg. destruct (inv_trigger _ _ _ HI _ _ Hg) as (r0 & Hr0 & Htr & Hlt).
  destruct (decide (tg_schedule_id g = id)) as [Heq|Hne].
  + rewrite Heq in *. simplify_eq. exists r'. rewrite lookup_insert_eq, Hnext.
    split_and!; [done|by eapply same_definition_trigger|done].
  + exists r0. by rewrite lookup_insert_ne by done.
- apply (inv_once _ _ _ HI).
- intros i a o [(<- & <-)|(_ & Ha)]%lookup_insert_Some; [|by apply (inv_counts _ _ _ HI)].
  rewrite Hcnt. by apply (inv_counts _ _ _ HI).
- intros Ht i a t [(<- & <-)|(_ & Ha)]%lookup_insert_Some; [|by eapply (inv_cover _ _ _ HI Ht)].
  rewrite (same_definition_occurrence r r'), Hnext by done. by eapply (inv_cover _ _ _ HI Ht).
Qed.

(** An instant is triggered. *)
Lemma inv_fire id r r' t now tid g :
S !! id = Some r → sc_next_fire_at r = Some t → same_definition r r' → schedule_ok r' →
(∀ n, sc_next_fire_at r' = Some n → t < n) →
(timely → ∀ u, occurrence r u → (∀ n, sc_next_fire_at r' = Some n → u < n) → t ≤ u → u ≤ now) →
T !! tid = None → tg_schedule_id g = id → tg_scheduled_for g = t → tg_observed_at g = now →
trigger_ok r g →
(∀ o, count_of o r' = count_of o r + ind (bool_decide (tg_outcome g = o))) →
inv_on timely (<[id:=r']> S) (<[tid:=g]> T).
Proof using HI.
intros Hr Hnext Hs Hok Hlt Hcov Htid Hgid Hgt Hgnow Htr Hcnt. split.
- intros i a [(_ & <-)|(_ & Ha)]%lookup_insert_Some; [done|by eapply (inv_ok _ _ _ HI)].
- by eapply names_update.
- intros k g0 [(<- & <-)|(_ & Hg)]%lookup_insert_Some.
  + exists r'. rewrite Hgid, lookup_insert_eq, Hgt.
    split_and!; [done|by eapply same_definition_trigger|done].
  + destruct (inv_trigger _ _ _ HI _ _ Hg) as (r0 & Hr0 & Htr0 & Hlt0).
    destruct (decide (tg_schedule_id g0 = id)) as [Heq|Hne].
    * rewrite Heq in *. simplify_eq. exists r'. rewrite lookup_insert_eq.
      split_and!; [done|by eapply same_definition_trigger|].
      intros n Hn. specialize (Hlt _ Hn). specialize (Hlt0 _ Hnext). lia.
    * exists r0. by rewrite lookup_insert_ne by done.
- assert (∀ k g0, T !! k = Some g0 → tg_schedule_id g0 = id → tg_scheduled_for g0 ≠ t) as Hno.
  { intros k g0 Hg Hid Hsf. destruct (inv_trigger _ _ _ HI _ _ Hg) as (r0 & Hr0 & _ & Hlt0).
    rewrite Hid in Hr0. simplify_eq. specialize (Hlt0 _ Hnext). lia. }
  intros i j a b Ha Hb Hsi Hsf. apply lookup_insert_Some in Ha as [(<- & <-)|(_ & Ha)],
    Hb as [(<- & <-)|(_ & Hb)]; [done| | |by eapply (inv_once _ _ _ HI)].
  + destruct (Hno _ _ Hb); congruence.
  + destruct (Hno _ _ Ha); congruence.
- intros i a o Ha. unfold countZ. rewrite sumZ_insert_new by done. fold (countZ (is_trigger i o) T).
  unfold is_trigger at 1. rewrite Hgid.
  apply lookup_insert_Some in Ha as [(<- & <-)|(Hne & Ha)].
  + rewrite (bool_decide_eq_true_2 (id = id)) by done. cbn [andb].
    rewrite Hcnt, (inv_counts _ _ _ HI _ _ o Hr). lia.
  + rewrite (bool_decide_eq_false_2 (id = i)) by done. cbn [andb ind].
    by apply (inv_counts _ _ _ HI).
- intros Ht i a u Ha Hocc Hlt'.
  assert (covered T i u ∨ i = id ∧ t ≤ u ≤ now) as [(k & g0 & Hg & Hrest)|(-> & Hu)].
  { apply lookup_insert_Some in Ha as [(<- & <-)|(_ & Ha)]; [|left; by eapply (inv_cover _ _ _ HI Ht)].
    apply (same_definition_occurrence r r') in Hocc; [|done].
    destruct (Z.lt_ge_cases u t); [left|right].
    - eapply (inv_cover _ _ _ HI Ht); [done..|]. intros n Hn. by simplify_eq.
    - split; [done|]. split; [done|]. by apply Hcov. }
  + exists k, g0. split; [|done]. rewrite lookup_insert_ne; [done|]. congruence.
  + exists tid, g. rewrite lookup_insert_eq, Hgid, Hgt, Hgnow. done.
Qed.
End tables.

(** ** The operations *)

Section exec.
Context {RS : Type} `{!RunService RS, Entropy, Sha256, ScheduleDump}.
Implicit Types (s : db RS).

(** Equality of the scheduling tables. *)
Definition same_tables s s' : Prop :=
schedules s' = schedules s ∧ triggers s' = triggers s ∧ idempotency s' = idempotency s.

Lemma wp_attempt_run id r t rq s :
wp (attempt_run id r t rq) (λ _, same_tables s) s.
Proof.
intros a s'. unfold attempt_run, try_catch.
match goal with |- context [match ?m s with _ => _ end] =>
  assert (∀ x s1, m s = (x, s1) → same_tables s s1) as Hf end.
{ intros x s1. unfold mbind, M_bind, gets. cbn [fst snd].
  destruct (versions s !! _) as [v|]; cbn; [|by intros [= <- <-]].
  destruct (negb _); cbn; [by intros [= <- <-]|].
  destruct (model_validate _) as [p|]; cbn; [|by intros [= <- <-]].
  unfold in_runs. destruct (create_run _ _ _ _ _ _ _ _ _) as [[e|u] rs]; by intros [= <- <-]. }
match goal with |- context [match ?m s with _ => _ end] =>
  destruct (m s) as [[e|x] s1] eqn:E end; specialize (Hf _ _ eq_refl).
- destruct e; intros [= <- <-]; done.
- by intros [= <- <-].
Qed.

(** What the dispatcher decides for an instant is what the policy says. *)
Lemma wp_decide id r t now rq s :
wp (decide_trigger id r t now rq) (λ d s', same_tables s s' ∧
  ∀ org pid, org = sc_organization_id r → pid = sc_project_id r →
  outcome_ok r (MkTrigger org pid id (dc_run_id d) t now (dc_outcome d) (dc_reason d)
                  (dc_error_code d) now)) s.
Proof.
unfold decide_trigger, in_range, outcome_ok. do 4 wp_step. cbv zeta. cbn.
set (missed := t <? _). wp_step.
- wp_step. split; [done|]. intros. breflect. done.
- wp_step. eapply wp_mono; [|apply wp_attempt_run]. intros res s' Hf. wp_step. split; [done|].
  intros _ _ _ _. assert (missed = true → sc_missed_run_policy r = FIRE_ONCE) as Hp.
  { intros Hm. rewrite Hm in Heqb. cbn in Heqb. breflect. by destruct (sc_missed_run_policy r). }
  destruct res; cbn; split_and!; try done; by eexists.
Qed.

(** The row after its instant [t] was handled at [now], counters aside. *)
Record advanced (now t : time) (r r' : Schedule) : Prop := {
adv_definition : same_definition r r';
adv_ok : schedule_ok r';
adv_later : ∀ n, sc_next_fire_at r' = Some n → t < n ∧ now < n;
adv_cover : on_time t now → ∀ u, occurrence r u → (∀ n, sc_next_fire_at r' = Some n → u < n) → t ≤ u → u ≤ now;
adv_last : sc_last_triggered_at r' = Some now;
adv_status : sc_status r' = match sc_cadence_kind r with ONCE => COMPLETED | INTERVAL => ACTIVE end;
adv_version : sc_version r' = sc_version r + 1 }.

Definition touched (now : time) (r : Schedule) : Schedule :=
r <| sc_last_triggered_at := Some now |> <| sc_updated_at := now |> <| sc_version ::= Z.succ |>.

Lemma wp_advance r t now s :
schedule_ok r → sc_status r = ACTIVE → sc_next_fire_at r = Some t → t ≤ now →
wp (advance_schedule r t now) (λ r1 s', s' = s ∧ advanced now t r (touched now r1) ∧
  ∀ o, count_of o r1 = count_of o r) s.
Proof.
intros (Hg & Hci & Hc1 & Hc2 & Hn) Hst Hnext Hle. destruct (Hn _ Hnext) as [Hocc Hrep].
unfold advance_schedule. destruct (sc_cadence_kind r) eqn:Hk.
- wp_step. destruct (sc_interval_seconds r) as [n|] eqn:Hiv; [done|].
  unfold occurrence in Hocc. rewrite Hiv in Hocc.
  split_and!; [done| |by intros []]. split; cbn; try done.
  + unfold schedule_ok. cbn. rewrite Hk, Hiv. split_and!; try done; try lia.
  + intros _ u Hu _ _. unfold occurrence in Hu. rewrite Hiv in Hu. lia.
  + by rewrite Hk.
- destruct (sc_interval_seconds r) as [n|] eqn:Hiv; [|done]. do 2 wp_step. simplify_eq.
  unfold in_range. do 4 wp_step. breflect. rename H2 into Hrep'.
  destruct (next_instant_spec t now a) as (Hlt1 & Hlt2 & (j & Hj & Heq) & Hleast); [lia|].
  wp_step. split_and!; [done| |by intros []].
  unfold occurrence in Hocc. rewrite Hiv in Hocc. destruct Hocc as (k & Hk0 & Ht).
  split; cbn; try done.
  + unfold schedule_ok. cbn. rewrite Hk, Hiv, Hst. split_and!; try done; try lia.
    intros x [= <-]. split; [|done]. unfold occurrence. cbn. rewrite Hiv.
    exists (k + j). split; [lia|]. rewrite Heq, Ht. unfold seconds. ring.
  + intros x [= <-]. done.
  + intros Hot u Hu Hlt Htu. specialize (Hlt _ eq_refl). unfold occurrence in Hu. rewrite Hiv in Hu.
    destruct Hu as (i & Hi & ->). destruct (decide (i = k)) as [->|Hne]; [lia|].
    assert (k < i) as Hki. { unfold seconds in *. nia. }
    assert (sc_starts_at r + seconds (i * a) = t + seconds ((i - k) * a)) as Heq'
      by (rewrite Ht; unfold seconds; ring).
    rewrite Heq' in *. apply Hleast; [done|lia|lia].
  + by rewrite Hk.
Qed.

Lemma wp_insert_trigger g s (Q : uuid → db RS → Prop) :
(∀ tid s', triggers s !! tid = None → schedules s' = schedules s →
   triggers s' = <[tid:=g]> (triggers s) → idempotency s' = idempotency s → Q tid s') →
wp (insert_trigger g) Q s.
Proof.
intros HQ. unfold insert_trigger, fresh_uuid. wp_step. intros tid s1 [= <- <-].
wp_steps. apply HQ; cbn; try done. breflect. cbn in *. by apply eq_None_not_Some.
Qed.

(** The effect of handling the due instant of one schedule. *)
Inductive handled (now : time) (id : uuid) (r : Schedule) (o : option trigger_outcome) s s' : Prop :=
| Handled (t : time) (r' : Schedule) (tid : uuid) (g : ScheduleTrigger) :
  sc_next_fire_at r = Some t → o = Some (tg_outcome g) →
  schedules s' = <[id:=r']> (schedules s) → triggers s' = <[tid:=g]> (triggers s) →
  triggers s !! tid = None → idempotency s' = idempotency s → advanced now t r r' →
  tg_schedule_id g = id ∧ tg_scheduled_for g = t ∧ tg_observed_at g = now →
  handled now id r o s s'.

Lemma counted_advanced now t r r' o : advanced now t r r' → advanced now t r (counted o r').
Proof.
intros [Hd Hok Hl Hc Hla Hs Hv]. destruct Hd. destruct o; split; try done.
Qed.

Lemma counted_count o o' r : count_of o' (counted o r) = count_of o' r + ind (bool_decide (o = o')).
Proof. case_bool_decide; destruct o, o'; cbn; try done; lia. Qed.

Definition due_on_time (timely : Prop) (now : time) (r : Schedule) : Prop :=
timely → ∀ t, sc_next_fire_at r = Some t → on_time t now.

Lemma dispatch_row_spec timely now rq id r s :
inv timely s → schedules s !! id = Some r → due now ∅ id r = true → due_on_time timely now r →
wp (dispatch_row now rq (id, r)) (λ o s', inv timely s' ∧ handled now id r o s s') s.
Proof.
intros HI Hr Hdue Hot. unfold due in Hdue. breflect.
destruct (sc_next_fire_at r) as [t|] eqn:Hnext; [|done]. breflect.
pose proof (inv_ok _ _ _ HI _ _ Hr) as Hok.
unfold dispatch_row. rewrite Hnext. wp_step. wp_step.
assert (exists_row (same_instant id t) (triggers s) = false) as ->.
{ unfold exists_row. destruct (head (select _ _)) as [[tid g]|] eqn:Eh; [|done].
  apply head_select_Some in Eh as [Hg Hsame]. unfold same_instant in Hsame. breflect.
  destruct (inv_trigger _ _ _ HI _ _ Hg) as (r0 & Hr0 & _ & Hlt). simplify_eq.
  specialize (Hlt _ Hnext). lia. }
wp_step. eapply wp_mono; [|by apply wp_advance]. intros r1 ? (-> & Hadv & Hcnt). cbv zeta.
fold (touched now r1). wp_step. eapply wp_mono; [|apply wp_decide].
intros d s1 [(Es1 & Et1 & Ei1) Hout]. unfold update_schedule. do 3 wp_step.
apply wp_insert_trigger. intros tid s2 Htid Es2 Et2 Ei2. wp_step. wp_step. wp_step.
cbn in Htid, Es2, Et2, Ei2. rewrite Es1 in Es2. rewrite Et1 in Et2, Htid. rewrite Ei1 in Ei2.
set (g := MkTrigger _ _ _ _ _ _ _ _ _ _) in *.
apply (counted_advanced _ _ _ _ (dc_outcome d)) in Hadv as Hadv'.
pose proof (adv_definition _ _ _ _ Hadv) as Hdef.
pose proof (adv_definition _ _ _ _ Hadv') as Hdef'.
assert (trigger_ok r g) as Htr.
{ destruct Hok as (_ & _ & _ & _ & Hn). destruct (Hn _ Hnext) as [Hocc _].
  split_and!; [exact Hocc|done| |exact (sd_organization _ _ Hdef')|exact (sd_project _ _ Hdef')].
  specialize (Hout (tg_organization_id g) (tg_project_id g)). unfold outcome_ok in *.
  rewrite (sd_policy _ _ Hdef), (sd_grace _ _ Hdef) in Hout. apply Hout; by destruct (dc_outcome d). }
split.
- unfold inv. cbn. rewrite Es2, Et2. eapply inv_fire; try done.
  + apply Hadv'.
  + intros n Hn. by apply (adv_later _ _ _ _ Hadv').
  + intros Ht. apply (adv_cover _ _ _ _ Hadv'). by apply Hot.
  + intros o. rewrite counted_count. unfold g. cbn [tg_outcome]. rewrite <- (Hcnt o). by destruct o.
- eapply (Handled now id r _ s _ t _ tid g); cbn; try done.
Qed.

(** The whole batch. *)
Record dispatched (now : time) (rows : list (uuid * Schedule)) s s' : Prop := {
ds_kept : ∀ id, id ∉ rows.*1 → schedules s' !! id = schedules s !! id;
ds_triggers : triggers s ⊆ triggers s';
ds_size : size (triggers s') = (size (triggers s) + length rows)%nat;
ds_idempotency : idempotency s' = idempotency s;
ds_handled : ∀ id r, (id, r) ∈ rows → ∃ t r' tid g, sc_next_fire_at r = Some t ∧
  schedules s' !! id = Some r' ∧ advanced now t r r' ∧
  triggers s !! tid = None ∧ triggers s' !! tid = Some g ∧
  tg_schedule_id g = id ∧ tg_scheduled_for g = t ∧ tg_observed_at g = now }.

Definition total (t : Z * Z * Z) : Z := let '(a, b, c) := t in a + b + c.

Lemma dispatch_rows_spec timely now rq rows t0 s :
inv timely s → NoDup rows.*1 →
(∀ id r, (id, r) ∈ rows → schedules s !! id = Some r ∧ due now ∅ id r = true ∧ due_on_time timely now r) →
wp (dispatch_rows now rq rows t0) (λ t s', inv timely s' ∧ dispatched now rows s s' ∧
  total t = total t0 + Z.of_nat (length rows)) s.
Proof.
revert t0 s. induction rows as [|[id r] rows IH]; intros t0 s HI Hnd Hrows; cbn [dispatch_rows].
- wp_step. split_and!; [done| |cbn; lia]. split; cbn; try done; try lia.
  all: by intros id r ?%not_elem_of_nil.
- apply NoDup_cons in Hnd as [Hid Hnd]. destruct (Hrows id r) as (Hr & Hdue & Hot); [left|].
  wp_step. eapply wp_mono; [|by apply (dispatch_row_spec timely)]. intros o s1 [HI1 Hh].
  destruct Hh as [t r' tid g Hnext Ho Es Et Htid Ei Hadv Hg].
  eapply wp_mono; [|apply IH; [done|done|]].
  + intros t' s2 (HI2 & [Hk2 Ht2 Hsz2 Hi2 Hh2] & Htot). split_and!; [done| |]; last first.
    { rewrite Htot, Ho. destruct t0 as [[a b] c], (tg_outcome g); cbn; lia. }
    split.
    * intros i Hi. cbn in Hi. apply not_elem_of_cons in Hi as [Hne Hi].
      rewrite Hk2, Es, lookup_insert_ne by done. done.
    * etrans; [|exact Ht2]. rewrite Et. by apply insert_subseteq.
    * rewrite Hsz2, Et, map_size_insert_None by done. cbn. lia.
    * congruence.
    * intros i a [[= -> ->]|Hin]%elem_of_cons.
      { exists t, r', tid, g. split_and!; [done| |done|done| |apply Hg|apply Hg|apply Hg].
        - rewrite Hk2, Es by done. apply lookup_insert_eq.
        - eapply lookup_weaken; [|exact Ht2]. rewrite Et. apply lookup_insert_eq. }
      { destruct (Hh2 _ _ Hin) as (t1 & r1 & k1 & g1 & E1 & E2 & E3 & E4 & E5).
        exists t1, r1, k1, g1. split_and!; [done..| |apply E5|apply E5|apply E5|apply E5].
        rewrite Et in E4. by apply lookup_insert_None in E4 as [? _]. }
  + intros i a Hin. destruct (Hrows i a) as (Hi & Hd); [by right|]. split; [|done].
    rewrite Es, lookup_insert_ne; [done|]. intros <-. apply Hid, list_elem_of_fmap. by exists (id, a).
Qed.

(** What every operation keeps: definitions and triggers are never changed, the next
  instant never moves back, and a schedule without one never gets one. *)
Record extends s s' : Prop := {
ext_schedules : ∀ id r, schedules s !! id = Some r → ∃ r', schedules s' !! id = Some r' ∧
  same_definition r r' ∧ (sc_next_fire_at r = None → sc_next_fire_at r' = None) ∧
  (∀ t t', sc_next_fire_at r = Some t → sc_next_fire_at r' = Some t' → t ≤ t');
ext_triggers : triggers s ⊆ triggers s';
ext_idempotency : idempotency s `prefix_of` idempotency s' }.
Definition keeps (timely : Prop) s s' : Prop := inv timely s' ∧ extends s s'.

#[export] Instance extends_refl : Reflexive extends.
Proof. intros s. split; [|done|done]. intros id r Hr. exists r. split_and!; [done..|]. intros. simplify_eq. done. Qed.

#[export] Instance extends_trans : Transitive extends.
Proof.
intros s1 s2 s3 [A1 A2 A3] [B1 B2 B3]. split; [|by etrans|by etrans].
intros id r Hr. destruct (A1 _ _ Hr) as (r2 & Hr2 & Hd2 & Hc2 & Hm2).
destruct (B1 _ _ Hr2) as (r3 & Hr3 & Hd3 & Hc3 & Hm3). exists r3.
split_and!; [done|by etrans|auto|].
intros t t3 Ht Ht3. destruct (sc_next_fire_at r2) as [t2|] eqn:E2.
- etrans; [by apply Hm2|by apply Hm3].
- rewrite Hc3 in Ht3 by done. done.
Qed.

Lemma schedule_keeps_tables timely s s1 s2 : keeps timely s s1 → same_tables s1 s2 → keeps timely s s2.
Proof.
intros [HI [A B C]] (E1 & E2 & E3). unfold keeps, inv. rewrite E1, E2. split; [done|].
split; by rewrite ?E1, ?E2, ?E3.
Qed.

Lemma keeps_refl timely s s' : inv timely s → same_tables s s' → keeps timely s s'.
Proof. intros HI. by apply schedule_keeps_tables. Qed.

Lemma set_paused_spec timely now id r paused at_ aid rq s :
inv timely s → wp (set_schedule_paused now id r paused at_ aid rq) (λ _, keeps timely s) s.
Proof.
intros HI. unfold set_schedule_paused, update_schedule. do 6 wp_step. breflect.
match goal with Hx : schedules s !! id = Some ?x |- _ => rename Hx into Hr, x into row end.
pose proof (inv_ok _ _ _ HI _ _ Hr) as (Hg & Hci & Hc1 & Hc2 & Hn). cbv zeta.
wp_step; [by wp_step; apply keeps_refl|]. do 5 wp_step. breflect.
set (target := if paused then PAUSED else ACTIVE) in *.
assert (written (sc_status r) target (sc_status row) = target ∧ target ≠ COMPLETED) as [-> Hne].
{ split; [|by destruct paused]. unfold written. rewrite decide_False; [done|congruence]. }
split.
- unfold inv. cbn. eapply inv_same_schedule; [done..| | |by intros []].
  + unfold schedule_ok. cbn. split_and!; try done; lia.
  + done.
- split; cbn; [|done|done]. intros i r0 Hi.
  destruct (decide (i = id)) as [->|Hni].
  + simplify_eq. eexists. rewrite lookup_insert_eq. split_and!; [done|done|done|].
    cbn. intros. by simplify_eq.
  + exists r0. rewrite lookup_insert_ne by done. split_and!; [done..|]. intros. by simplify_eq.
Qed.

Lemma dispatched_extends now locked rows s s' : (∀ id r, (id, r) ∈ rows → schedules s !! id = Some r ∧ due now locked id r = true) →
dispatched now rows s s' → extends s s'.
Proof.
intros Hrows [Hk Ht _ Hi Hh]. split; [|done|by rewrite Hi].
intros id r Hr. destruct (decide (id ∈ rows.*1)) as [Hin|Hni].
- apply list_elem_of_fmap in Hin as ([id' r0] & -> & Hin). cbn in *.
  destruct (Hrows _ _ Hin) as [Hr0 Hdue]. simplify_eq.
  destruct (Hh _ _ Hin) as (t & r' & _ & _ & Hnext & Hr' & Hadv & _). exists r'.
  split_and!; [done|apply Hadv| |].
  + congruence.
  + intros u u' Hu Hu'. simplify_eq. apply (adv_later _ _ _ _ Hadv) in Hu' as [? _]. lia.
- exists r. rewrite Hk by done. split_and!; [done..|]. intros. by simplify_eq.
Qed.

(** Every active schedule is dispatched within the horizon. *)
Definition all_on_time (now : time) s : Prop := ∀ id r t,
schedules s !! id = Some r → sc_status r = ACTIVE → sc_next_fire_at r = Some t → on_time t now.

Lemma dispatch_spec timely acquired locked now batch rq s :
inv timely s → (timely → all_on_time now s) →
wp (dispatch_due_schedules acquired locked now batch rq) (λ d s', keeps timely s s' ∧
  (acquired = true → dispatched now (take (Z.to_nat batch)
     (order_by (by_key due_key) (select (due now locked) (schedules s)))) s s' ∧
   dr_examined d = Z.min batch (Z.of_nat (length (select (due now locked) (schedules s)))) ∧
   dr_fired d + dr_skipped d + dr_failed d = dr_examined d)) s.
Proof.
intros HI Hot. unfold dispatch_due_schedules. do 2 wp_step. breflect. wp_step.
{ wp_step. split; [by apply keeps_refl|]. by destruct acquired. }
do 2 wp_step. set (rows := take _ _). wp_step.
destruct (batch_rows (by_key due_key) (due now locked) (schedules s) (Z.to_nat batch))
  as (Hsub & Hnd & Hlen). fold rows in Hsub, Hnd, Hlen.
eapply wp_mono; [|apply (dispatch_rows_spec timely now rq rows); [done|done|]].
- intros [[f k] x] s' (HI' & Hd & Htot). wp_step. split.
  + split; [done|]. exact (dispatched_extends now locked rows s s' Hsub Hd).
  + intros _. split; [done|]. cbn in *. lia.
- intros id r Hin. destruct (Hsub _ _ Hin) as [Hr Hdue]. split; [done|].
  unfold due in *. rewrite !andb_true_iff, !bool_decide_eq_true in *.
  destruct Hdue as [[? ?] _]. split_and!; [done..|set_solver|]. intros Ht t Hnext. by eapply Hot.
Qed.

(** The fingerprint of a creation request. *)
Definition request_fingerprint (version_id : uuid) (p : CreateScheduleRequest) : option pystr :=
canonical_fingerprint (PDict
  [(KStr (lit "agent_version_id"), PStr (str_of_uuid version_id));
   (KStr (lit "schedule"), schedule_dump p)]).

(** The recorded answer to a creation request. *)
Definition recorded (version_id : uuid) (v : AgentVersion) (user_id : uuid) (key : pystr)
  (p : CreateScheduleRequest) (l : list (IdempotencyRecord (uuid * Schedule)))
  (x : exn + option (uuid * Schedule)) : Prop :=
∃ encoded fp, utf8_encode key = Some encoded ∧ request_fingerprint version_id p = Some fp ∧
  replay_of (av_organization_id v) (str_of_uuid user_id) create_endpoint (sha256_hex encoded) fp l = x.

Lemma new_schedule_ok now t vid v uid p :
valid_schedule_request p = true → representable t = true →
schedule_ok (new_schedule now t vid v uid p).
Proof.
intros Hv Ht. unfold valid_schedule_request in Hv. breflect. unfold schedule_ok. cbn.
split_and!; try done; try lia.
- destruct (sr_cadence_kind p), (sr_interval_seconds p); breflect; done.
- intros u [= <-]. split; [|done]. unfold occurrence. cbn. destruct (sr_interval_seconds p) as [n|]; [|done].
  exists 0. split; [done|]. unfold seconds. lia.
Qed.

Lemma record_schedule_spec timely now r uid at_ aid kd fp rq s :
inv timely s → schedule_ok r → sc_next_fire_at r = Some (sc_starts_at r) → (∀ o, count_of o r = 0) →
(∀ j r', schedules s !! j = Some r' → sc_project_id r' = sc_project_id r → sc_name r' = sc_name r → False) →
replay_of (sc_organization_id r) (str_of_uuid uid) create_endpoint kd fp (idempotency s) = inr None →
wp (record_schedule now r uid at_ aid kd fp rq) (λ x s', keeps timely s s' ∧
  replay_of (sc_organization_id r) (str_of_uuid uid) create_endpoint kd fp (idempotency s')
    = inr (Some x)) s.
Proof.
intros HI Hok Hnext Hcnt Hname Hrep. unfold record_schedule, insert_schedule, fresh_uuid, update_schedule.
do 2 wp_step. intros id s1 [= <- <-]. wp_steps. breflect. cbn in *.
assert (schedules s !! uuid4 (rng s) = None) as Hid by (by apply eq_None_not_Some).
split; [|by apply replay_new]. split.
- unfold inv. cbn. by apply inv_new_schedule.
- split; cbn; [|done|by eexists]. intros i r0 Hr0. exists r0.
  rewrite lookup_insert_ne by congruence. split_and!; [done..|]. intros. by simplify_eq.
Qed.

Lemma schedule_create_spec timely now vid v uid at_ aid key rq p s :
inv timely s → wp (create_schedule now vid v uid at_ aid key rq p) (λ x s', keeps timely s s' ∧
  recorded vid v uid key p (idempotency s') (inr (Some x))) s.
Proof.
intros HI. unfold create_schedule, recorded, request_fingerprint. do 18 wp_step.
breflect. destruct (replay_of _ _ _ _ _ _) as [e|[x|]] eqn:Hrep; [apply wp_raise| |].
{ wp_step. split; [by apply keeps_refl|]. eauto. }
do 4 wp_step. breflect. wp_step. destruct (sr_starts_at p) as [|t] eqn:Hst; [apply wp_raise|].
unfold in_range. do 3 wp_step. breflect.
eapply wp_mono; [|apply record_schedule_spec; [done|by apply new_schedule_ok|done|by intros []| |exact Hrep]].
- intros x s' [Hk Hr]. split; [done|]. eauto.
- intros j r' Hj Hp Hn. eapply exists_row_false in Hj; [|done]. cbn in Hj, Hp, Hn.
  by rewrite Hp, Hn, !bool_decide_eq_true_2 in Hj.
Qed.
End exec.

(** ** Transactions and reachable states *)

(** An operation of the component, or a change of the tables other components own. *)
Inductive op (RS : Type) :=
| OpCreate (now : time) (vid : uuid) (v : AgentVersion) (uid : uuid) (at_ : string) (aid key : pystr)
    (rq : string) (p : CreateScheduleRequest)
| OpSetPaused (now : time) (id : uuid) (r : Schedule) (paused : bool) (at_ : string) (aid : pystr) (rq : string)
| OpDispatch (acquired : bool) (locked : gset uuid) (now : time) (batch : Z) (rq : string)
| OpOthers (versions' : gmap uuid AgentVersion) (builds' : gmap uuid Build) (runs' : RS).
Arguments OpCreate {RS}. Arguments OpSetPaused {RS}. Arguments OpDispatch {RS}. Arguments OpOthers {RS}.

Section reachability.
Context {RS : Type} `{!RunService RS, Entropy, Sha256, ScheduleDump} (runs0 : RS).
Implicit Types (s : db RS).

Definition empty_db : db RS := MkDb ∅ ∅ ∅ ∅ [] runs0 [] 0.

Definition run_op (o : op RS) : M (db RS) () :=
match o with
| OpCreate now vid v uid at_ aid key rq p => create_schedule now vid v uid at_ aid key rq p ;; mret ()
| OpSetPaused now id r paused at_ aid rq => set_schedule_paused now id r paused at_ aid rq ;; mret ()
| OpDispatch acquired locked now batch rq =>
    dispatch_due_schedules acquired locked now batch rq ;; mret ()
| OpOthers versions' builds' runs' =>
    modify (λ s, s <| versions := versions' |> <| builds := builds' |> <| runs := runs' |>)
end.

Definition transaction {A} (m : M (db RS) A) s : db RS :=
match m s with
| (inr _, s') => s'
| (inl _, s') => s <| rng := rng s' |>
end.
(** The object a route has loaded is of the schedule, but may be older than the row. *)
Definition op_loaded (o : op RS) s : Prop :=
match o with
| OpSetPaused _ id r _ _ _ _ => ∀ row, schedules s !! id = Some row → same_definition r row
| _ => True
end.
(** Dispatches come within the horizon. *)
Definition op_on_time (o : op RS) s : Prop := match o with OpDispatch _ _ now _ _ => all_on_time now s | _ => True end.
Definition step_on (timely : Prop) s s' : Prop :=
∃ o, op_loaded o s ∧ (timely → op_on_time o s) ∧ s' = transaction (run_op o) s.
Definition step : relation (db RS) := step_on False.
Definition reachable s : Prop := rtc step empty_db s.
Definition timely_reachable s : Prop := rtc (step_on True) empty_db s.

Lemma schedule_run_op_spec timely o s : inv timely s → (timely → op_on_time o s) → wp (run_op o) (λ _, keeps timely s) s.
Proof.
intros HI Hot. destruct o; cbn [run_op]; wp_step.
- eapply wp_mono; [|by apply schedule_create_spec]. intros x s' [Hk _]. by wp_step.
- eapply wp_mono; [|by apply set_paused_spec]. intros x s' Hk. by wp_step.
- eapply wp_mono; [|by apply dispatch_spec]. intros x s' [Hk _]. by wp_step.
- by apply keeps_refl.
Qed.

Lemma schedule_step_spec timely s s' : step_on timely s s' → inv timely s → keeps timely s s'.
Proof.
intros (o & _ & Hot & ->) HI. unfold transaction. pose proof (schedule_run_op_spec timely o s HI Hot) as Hwp.
destruct (run_op o s) as [[e|[]] s1] eqn:E; [|exact (Hwp _ _ E)]. by apply keeps_refl.
Qed.

Lemma schedule_steps_spec timely s s' : rtc (step_on timely) s s' → inv timely s → keeps timely s s'.
Proof.
induction 1 as [s|s s1 s2 Hst _ IH]; intros HI; [by apply keeps_refl|].
destruct (schedule_step_spec _ _ _ Hst HI) as [HI1 He1]. destruct (IH HI1) as [HI2 He2].
split; [done|by etrans].
Qed.

Lemma schedule_inv timely s : rtc (step_on timely) empty_db s → inv timely s.
Proof.
intros Hr. assert (inv timely empty_db) as HI0; [|by destruct (schedule_steps_spec _ _ _ Hr HI0)].
split; cbn; try intros _; intros *; rewrite lookup_empty; done.
Qed.
Lemma schedule_reachable_inv s : reachable s → inv False s.
Proof. apply schedule_inv. Qed.

(** ** Properties *)

(** C39: no instant of a schedule is handled twice and, as long as no schedule is
  dispatched more than 2^33 seconds (272 years) late, none is lost, however pauses and
  dispatches overlap.  Two triggers of
  a schedule for the same instant are the same row; every trigger is for an instant
  of the schedule's cadence, recorded at or after it; and every instant of the
  cadence that lies before the next one (all of them, once a one-time schedule is
  completed) is covered by a trigger recorded at or after it, whose own instant is
  that one or an earlier one of the same catch-up. *)
Theorem instants_once_and_never_lost (s : db RS) (Hr : timely_reachable s) :
(∀ i j g g', triggers s !! i = Some g → triggers s !! j = Some g' →
   tg_schedule_id g = tg_schedule_id g' → tg_scheduled_for g = tg_scheduled_for g' → i = j) ∧
(∀ i g, triggers s !! i = Some g → ∃ r, schedules s !! tg_schedule_id g = Some r ∧
   occurrence r (tg_scheduled_for g) ∧ tg_scheduled_for g ≤ tg_observed_at g) ∧
(∀ id r t, schedules s !! id = Some r → occurrence r t →
   (∀ n, sc_next_fire_at r = Some n → t < n) →
   ∃ i g, triggers s !! i = Some g ∧ tg_schedule_id g = id ∧
          tg_scheduled_for g ≤ t ≤ tg_observed_at g).
Proof.
pose proof (schedule_inv _ _ Hr) as HI. split_and!.
- apply (inv_once _ _ _ HI).
- intros i g Hg. destruct (inv_trigger _ _ _ HI _ _ Hg) as (r & Hr' & (Ho & Hle & _) & _). by exists r.
- by apply (inv_cover _ _ _ HI).
Qed.

(** The fired, skipped and failed counters of a schedule are the numbers of its
  triggers with that outcome, and together count all of them. *)
Theorem schedule_counters_exact (s : db RS) (id : uuid) (r : Schedule)
  (Hr : reachable s) (Hs : schedules s !! id = Some r) :
sc_fired_count r = countZ (is_trigger id FIRED) (triggers s) ∧
sc_skipped_count r = countZ (is_trigger id SKIPPED) (triggers s) ∧
sc_failed_count r = countZ (is_trigger id FAILED) (triggers s) ∧
sc_fired_count r + sc_skipped_count r + sc_failed_count r
  = countZ (λ g, bool_decide (tg_schedule_id g = id)) (triggers s).
Proof.
pose proof (schedule_reachable_inv _ Hr) as HI. pose proof (λ o, inv_counts _ _ _ HI _ _ o Hs) as Hc.
pose proof (Hc FIRED) as H1'. pose proof (Hc SKIPPED) as H2'. pose proof (Hc FAILED) as H3'. cbn in *.
split_and!; [done..|]. rewrite H1', H2', H3'. unfold countZ. rewrite <- !sumZ_add.
apply sumZ_ext. intros _ g _. unfold is_trigger. destruct (bool_decide _), (tg_outcome g); done.
Qed.

(** The checks the database declares hold in every reachable state, and every
  recorded outcome is the one the policy prescribes: an instant is skipped exactly
  under the SKIP policy when it was missed by more than the grace period; a fired
  trigger names its run, a failed one the error; schedule names are unique in a
  project; completed means a one-time schedule with no next instant. *)
Theorem schedule_checks_hold (s : db RS) (Hr : reachable s) :
(∀ id r, schedules s !! id = Some r → schedule_ok r) ∧
(∀ i g r, triggers s !! i = Some g → schedules s !! tg_schedule_id g = Some r → outcome_ok r g) ∧
(∀ i j r r', schedules s !! i = Some r → schedules s !! j = Some r' →
   sc_project_id r = sc_project_id r' → sc_name r = sc_name r' → i = j).
Proof.
pose proof (schedule_reachable_inv _ Hr) as HI. split_and!; [apply (inv_ok _ _ _ HI)| |apply (inv_names _ _ _ HI)].
intros i g r Hg Hs. destruct (inv_trigger _ _ _ HI _ _ Hg) as (r0 & Hr0 & (_ & _ & Ho & _) & _).
by simplify_eq.
Qed.

(** Over any further operations a schedule keeps its definition, its next instant
  never moves back, one without a next instant never gets one, and recorded triggers
  are permanent. *)
Theorem schedule_definition_immutable (s s' : db RS) (Hr : reachable s) (Hs : rtc step s s') :
(∀ id r, schedules s !! id = Some r → ∃ r', schedules s' !! id = Some r' ∧ same_definition r r' ∧
   (sc_next_fire_at r = None → sc_next_fire_at r' = None) ∧
   (∀ t t', sc_next_fire_at r = Some t → sc_next_fire_at r' = Some t' → t ≤ t')) ∧
triggers s ⊆ triggers s'.
Proof. destruct (schedule_steps_spec _ _ _ Hs (schedule_reachable_inv _ Hr)) as [_ [Hd Ht _]]. done. Qed.

(** What a dispatch does.  It examines the due schedules nobody else holds, up to
  the batch size, earliest instant first; each examined one gets exactly one new
  trigger for its due instant and moves to an instant after now (or is completed);
  no other schedule changes; and the three tallies add up to the examined ones. *)
Theorem dispatch_batch (s s' : db RS) (locked : gset uuid) (now : time) (batch : Z) (rq : string)
  (d : ScheduleDispatchResult) (Hr : reachable s)
  (Hrun : dispatch_due_schedules true locked now batch rq s = (inr d, s')) :
∃ rows, (∀ id r, (id, r) ∈ rows → schedules s !! id = Some r ∧ due now locked id r = true) ∧
  Z.of_nat (length rows) = Z.min batch (Z.of_nat (length (select (due now locked) (schedules s)))) ∧
  (∀ id r id' r', (id, r) ∈ rows → schedules s !! id' = Some r' → due now locked id' r' = true →
     (id', r') ∉ rows → by_key due_key (id, r) (id', r')) ∧
  dispatched now rows s s' ∧ dr_examined d = Z.of_nat (length rows) ∧
  dr_fired d + dr_skipped d + dr_failed d = dr_examined d.
Proof.
destruct (dispatch_spec False _ _ _ _ _ _ (schedule_reachable_inv _ Hr) ltac:(done) _ _ Hrun) as [_ Hd].
destruct (Hd eq_refl) as (Hdis & Hex & Htot).
pose proof (batch_rows (by_key due_key) (due now locked) (schedules s) (Z.to_nat batch)) as (Hsub & _ & Hlen).
assert (1 ≤ batch) as Hb.
{ unfold dispatch_due_schedules in Hrun. apply bind_ok in Hrun as ([] & s1 & Hb & _).
  unfold raise_if in Hb. destruct (negb _) eqn:Eb in Hb; [done|]. breflect. done. }
eexists. split; [exact Hsub|]. split; [|split; [|split; [exact Hdis|]]].
- rewrite Hlen. lia.
- intros id r id' r' Hin Hs' Hdue Hni.
  apply (batch_least (by_key due_key) (due now locked) (schedules s) (Z.to_nat batch)); [done| |done].
  by apply elem_of_select.
- split; [|done]. rewrite Hex, Hlen. lia.
Qed.

(** The build a request names can be scheduled. *)
Definition build_ready (s : db RS) (version_id : uuid) (v : AgentVersion) (p : CreateScheduleRequest) : Prop :=
∃ b, builds s !! sr_run_build_id p = Some b ∧ scheduled_build version_id v b = true ∧
  bd_status b = "SUCCEEDED"%string ∧ bd_artifact_digest b ≠ None.

Lemma create_looks_up now vid v uid at_ aid key rq p s x :
valid_schedule_request p = true → valid_idempotency_key key = true → build_ready s vid v p →
recorded vid v uid key p (idempotency s) x → x ≠ inr None →
create_schedule now vid v uid at_ aid key rq p s
= (match x with inl e => inl e | inr (Some y) => inr y | inr None => inl not_found end, s).
Proof.
intros Hv Hk (b & Hb & Hsb & Hst & Hd) (enc & fp & Henc & Hfp & Hrep) Hx. unfold create_schedule.
rewrite run_pass by (by rewrite Hv). rewrite run_pass by (by rewrite Hk).
rewrite run_gets. erewrite run_some by exact Hb. rewrite run_pass by (by rewrite Hsb).
rewrite run_pass by (by rewrite bool_decide_eq_true_2, bool_decide_eq_false_2).
erewrite run_some by exact Henc. cbv zeta. erewrite run_some by exact Hfp.
rewrite run_gets, Hrep. by destruct x as [e|[y|]].
Qed.

Lemma create_checks now vid v uid at_ aid key rq p s x s' :
create_schedule now vid v uid at_ aid key rq p s = (inr x, s') →
valid_schedule_request p = true ∧ valid_idempotency_key key = true.
Proof.
intros Hrun. unfold create_schedule in Hrun. apply bind_ok in Hrun as ([] & s1 & Hv & Hrun).
apply bind_ok in Hrun as ([] & s2 & Hk & _). unfold raise_if in Hv, Hk.
destruct (valid_schedule_request p), (valid_idempotency_key key); done.
Qed.

(** Creating a schedule is idempotent.  After an accepted creation and any
  further operations, repeating it under the same key returns the original answer
  and changes no table; the same key with a different request (another fingerprint)
  is refused as a conflict, also without any change. *)
Theorem create_schedule_idempotent (s1 s2 s3 : db RS) now now' vid v uid at_ aid key rq p x p'
  (Hr : reachable s1)
  (Hrun : create_schedule now vid v uid at_ aid key rq p s1 = (inr x, s2))
  (Hs : rtc step s2 s3) (Hb : build_ready s3 vid v p)
  (Hv' : valid_schedule_request p' = true) (Hb' : build_ready s3 vid v p')
  (Hp' : ∀ fp, request_fingerprint vid p = Some fp →
         ∃ fp', request_fingerprint vid p' = Some fp' ∧ fp' ≠ fp) :
create_schedule now' vid v uid at_ aid key rq p s3 = (inr x, s3) ∧
create_schedule now' vid v uid at_ aid key rq p' s3 = (inl (ApiError 409 "IDEMPOTENCY_CONFLICT"), s3).
Proof.
destruct (schedule_create_spec _ _ _ _ _ _ _ _ _ _ _ (schedule_reachable_inv _ Hr) _ _ Hrun)
  as [[HI2 _] (enc & fp & Henc & Hfp & Hrep)].
destruct (create_checks _ _ _ _ _ _ _ _ _ _ _ _ Hrun) as [Hv Hk].
pose proof (ext_idempotency _ _ (proj2 (schedule_steps_spec _ _ _ Hs HI2))) as Hpre.
eapply replay_stable in Hrep; [|exact Hpre]. destruct (Hp' _ Hfp) as (fp' & Hfp' & Hne). split.
- eapply (create_looks_up _ _ _ _ _ _ _ _ _ _ (inr (Some x))); [done..| |done]. by exists enc, fp.
- eapply (create_looks_up _ _ _ _ _ _ _ _ _ _ (inl _)); [done..| |done]. exists enc, fp'.
  split_and!; [done..|]. by eapply replay_conflict.
Qed.
End reachability.

(** The next instant of an interval schedule is the first one of its grid after both the
    instant just handled and the present, as long as the delay is within the horizon, so
    missed instants are caught up by one trigger and never by a burst. *)
Theorem next_instant_least (scheduled_for now n : Z) (Hn : 0 < n) (Hot : on_time scheduled_for now) :
  Z.max now scheduled_for < next_instant scheduled_for now n ∧
  (next_instant scheduled_for now n - scheduled_for) mod seconds n = 0 ∧
  ∀ t, Z.max now scheduled_for < t → (t - scheduled_for) mod seconds n = 0 →
       next_instant scheduled_for now n ≤ t.
Proof.
  destruct (next_instant_spec scheduled_for now n Hn) as (H1 & H2 & (k & Hk & Heq) & Hl). specialize (Hl Hot).
  assert (0 < seconds n) by (unfold seconds; lia). split_and!; [lia| |].
  - rewrite Heq. replace (scheduled_for + seconds (k * n) - scheduled_for) with (k * seconds n)
      by (unfold seconds; ring). apply Z_mod_mult.
  - intros t Ht Hm. apply Z.mod_divide in Hm as [j Hj]; [|lia].
    assert (t = scheduled_for + seconds (j * n)) as -> by (unfold seconds in *; lia).
    destruct (Z.le_gt_cases (next_instant scheduled_for now n) (scheduled_for + seconds (j * n))) as [|Hgt]; [done|].
    exfalso. assert (1 ≤ j) by (unfold seconds in *; nia). specialize (Hl j). lia.
Qed.
Lemma next_instant_least_witness : Z.max 250 100 < next_instant 100 250 60.
Proof. exact (proj1 (next_instant_least 100 250 60 ltac:(lia) ltac:(done))). Defined.
(** Beyond it the rounding of the delay can skip an instant: a schedule of every hour since
    0001-01-01 dispatched a microsecond before 12:00 on 2026-09-01 is next due at 13:00. *)
Example late_instant_is_skipped :
  isoformat (next_instant MIN_DATETIME (default 0 (parse_utc (lit "2026-09-01T11:59:59.999999+00:00"))) 3600) = lit "2026-09-01T13:00:00+00:00".
Proof. vm_compute. reflexivity. Qed.

(** The idempotency key a trigger presents to run creation names its schedule and
    its instant and nothing else, and is one run creation accepts, so two triggers
    never share a run and repeating one instant can only replay its run. *)
Theorem run_key_identifies (id id' : uuid) (t t' : time)
    (Hi : (id < 2 ^ 128)%N) (Hi' : (id' < 2 ^ 128)%N)
    (Ht : representable t = true) (Ht' : representable t' = true) :
  (run_key id t = run_key id' t' ↔ id = id' ∧ t = t') ∧ valid_idempotency_key (run_key id t) = true.
Proof.
  unfold run_key. split.
  - split; [|by intros [-> ->]]. intros Heq. apply app_inj_1 in Heq as [_ Heq]; [|done].
    apply app_inj_1 in Heq as [Hu Heq]; [|by rewrite !length_str_of_uuid].
    apply app_inj_1 in Heq as [_ Heq]; [|done]. split; [|by apply isoformat_inj].
    pose proof (@uuid_of_str_of_uuid (λ _, None) id Hi) as E1.
    rewrite Hu, (@uuid_of_str_of_uuid (λ _, None) id' Hi') in E1. congruence.
  - unfold valid_idempotency_key. rewrite !length_app, length_str_of_uuid.
    pose proof (length_isoformat t). cbn [length lit map String.list_ascii_of_string].
    apply andb_true_iff. split; apply Z.leb_le; lia.
Qed.

(** ** Concrete runs *)

Module Scenario.
#[local] Instance counting : Entropy := λ n, (n + 100)%N.
#[local] Instance plain_digest : Sha256 := λ b, b.
#[local] Instance dump_name : ScheduleDump := λ p, PStr (sr_name p).
(** A run service that keeps the keys it was given and refuses after two runs. *)
#[local] Instance two_runs : RunService (list pystr) := {|
run_request := ();
model_validate v := match v with PDict _ => Some () | _ => None end;
create_run _ _ _ key _ _ _ _ := λ l,
  if (length l <? 2)%nat then (inr (N.of_nat (length l) + 900)%N, l ++ [key])
  else (inl (ApiError 429 "RUN_LIMIT_REACHED"), l) |}.

Definition version : AgentVersion := MkVersion 1 2 3.
Definition build : Build := MkBuild 1 2 3 4 "SUCCEEDED" (Some (lit "sha")).
Definition hour : Z := 3600.
Definition request (name : string) (policy : missed_policy) : CreateScheduleRequest :=
MkScheduleRequest (lit name) INTERVAL (Aware (seconds 1000)) (Some hour) policy 60 5 (PDict []).

(** Schedules 100 (fires once when late) and 101 (skips), then three dispatches. *)
Definition after (s : db (list pystr)) (o : op (list pystr)) : db (list pystr) := transaction (run_op o) s.
Definition s0 := after (empty_db []) (OpOthers {[4%N := version]} {[5%N := build]} []).
Definition s1 := after s0 (OpCreate 0 4 version 7 "user" (lit "u") (lit "key-00001") "rq" (request "late" FIRE_ONCE)).
Definition s2 := after s1 (OpCreate 0 4 version 7 "user" (lit "u") (lit "key-00002") "rq" (request "skip" SKIP)).
Definition s3 := after s2 (OpDispatch true ∅ (seconds 1030) 10 "rq").
Definition s4 := after s3 (OpDispatch true ∅ (seconds 20000) 10 "rq").

Lemma reach_after timely s o : op_loaded o s → (timely → op_on_time o s) →
rtc (step_on timely) (empty_db []) s → rtc (step_on timely) (empty_db []) (after s o).
Proof. intros Hl Ho Hr. eapply rtc_r; [exact Hr|]. by exists o. Qed.
Lemma schedule_reach2 timely : rtc (step_on timely) (empty_db []) s2.
Proof. do 3 (apply reach_after; [done|done|]). apply rtc_refl. Qed.
(** All instants are within the horizon of a late time. *)
Definition all_late (now : time) (s : db (list pystr)) : bool :=
forallb (λ x, match sc_next_fire_at x.2 with Some t => now - t <? horizon | None => true end) (map_to_list (schedules s)).
Lemma all_late_on_time now s : all_late now s = true → all_on_time now s.
Proof.
intros Hl id r t Hr _ Ht. unfold all_late in Hl. rewrite forallb_forall in Hl. specialize (Hl (id, r)).
rewrite <- list_elem_of_In, elem_of_map_to_list in Hl. specialize (Hl Hr). cbn in Hl. rewrite Ht in Hl. by apply Z.ltb_lt in Hl.
Qed.
Lemma schedule_reach4 timely : rtc (step_on timely) (empty_db []) s4.
Proof. do 2 (apply reach_after; [done|intros _; apply all_late_on_time; vm_compute; reflexivity|]). apply schedule_reach2. Qed.

Definition blank : Schedule := MkSchedule 0 0 0 0 0 [] PAUSED ONCE 0 None SKIP 0 PNone None None 0 0 0 0 0 0 0.
Definition row (s : db (list pystr)) (id : N) : Schedule := default blank (schedules s !! id).

Lemma instants_once_and_never_lost_witness :
∃ i g, triggers s4 !! i = Some g ∧ tg_schedule_id g = 101%N ∧
       tg_scheduled_for g ≤ seconds 8200 ≤ tg_observed_at g.
Proof.
assert (Hr : schedules s4 !! 101%N = Some (row s4 101)) by (vm_compute; reflexivity).
assert (Ho : occurrence (row s4 101) (seconds 8200)).
{ change (∃ k, 0 ≤ k ∧ seconds 8200 = seconds 1000 + seconds (k * 3600)). exists 2. split; [lia|reflexivity]. }
assert (Hn : ∀ n, sc_next_fire_at (row s4 101) = Some n → seconds 8200 < n).
{ intros n Hn. vm_compute in Hn. injection Hn as <-. vm_compute. reflexivity. }
exact (proj2 (proj2 (instants_once_and_never_lost [] s4 (schedule_reach4 _))) 101%N (row s4 101) (seconds 8200) Hr Ho Hn).
Defined.

Lemma schedule_counters_exact_witness :
sc_skipped_count (row s4 101) = 1 ∧ countZ (is_trigger 101 SKIPPED) (triggers s4) = 1.
Proof.
assert (Hc : sc_skipped_count (row s4 101) = 1) by (vm_compute; reflexivity).
assert (Hr : schedules s4 !! 101%N = Some (row s4 101)) by (vm_compute; reflexivity).
refine (conj Hc _). rewrite <- Hc. symmetry.
exact (proj1 (proj2 (schedule_counters_exact [] s4 101 (row s4 101) (schedule_reach4 _) Hr))).
Defined.

Lemma schedule_checks_hold_witness : schedule_ok (row s4 100).
Proof.
assert (Hr : schedules s4 !! 100%N = Some (row s4 100)) by (vm_compute; reflexivity).
exact (proj1 (schedule_checks_hold [] s4 (schedule_reach4 _)) _ _ Hr).
Defined.

Lemma steps24 : rtc step s2 s4.
Proof.
eapply rtc_l; [by exists (OpDispatch true ∅ (seconds 1030) 10 "rq")|].
apply rtc_once. by exists (OpDispatch true ∅ (seconds 20000) 10 "rq").
Qed.
Lemma schedule_definition_immutable_witness :
∃ r', schedules s4 !! 100%N = Some r' ∧ same_definition (row s2 100) r'.
Proof.
assert (Hr : schedules s2 !! 100%N = Some (row s2 100)) by (vm_compute; reflexivity).
destruct (proj1 (schedule_definition_immutable [] s2 s4 (schedule_reach2 _) steps24) _ _ Hr) as (r' & Hr' & Hd & _).
exact (ex_intro _ r' (conj Hr' Hd)).
Defined.

Definition batch1 := dispatch_due_schedules true ∅ (seconds 1030) 1 "rq" s2.
Lemma dispatch_batch_witness :
∃ rows : list (uuid * Schedule), Z.of_nat (length rows) = 1 ∧ dispatched (seconds 1030) rows s2 batch1.2.
Proof.
assert (Hrun : batch1 = (inr (MkDispatch true 1 1 0 0), batch1.2)) by (vm_compute; reflexivity).
destruct (dispatch_batch [] s2 batch1.2 ∅ (seconds 1030) 1 "rq" (MkDispatch true 1 1 0 0) (schedule_reach2 _) Hrun)
  as (rows & _ & _ & _ & Hd & Hx & _).
exact (ex_intro _ rows (conj (eq_sym Hx) Hd)).
Defined.

Definition creation := create_schedule 0 4 version 7 "user" (lit "u") (lit "key-00003") "rq" (request "more" SKIP) s2.
Definition answer : uuid * Schedule := match creation.1 with inr x => x | inl _ => (0%N, blank) end.
Lemma ready name policy : build_ready creation.2 4 version (request name policy).
Proof. exists build. split_and!; [vm_compute; reflexivity..|done]. Qed.
Lemma create_schedule_idempotent_witness :
create_schedule 9 4 version 7 "user" (lit "u") (lit "key-00003") "rq" (request "more" SKIP) creation.2
  = (inr answer, creation.2) ∧
create_schedule 9 4 version 7 "user" (lit "u") (lit "key-00003") "rq" (request "other" SKIP) creation.2
  = (inl (ApiError 409 "IDEMPOTENCY_CONFLICT"), creation.2).
Proof.
assert (Hrun : creation = (inr answer, creation.2)) by (vm_compute; reflexivity).
assert (Hv : valid_schedule_request (request "other" SKIP) = true) by (vm_compute; reflexivity).
assert (Hp : ∀ fp, request_fingerprint 4 (request "more" SKIP) = Some fp →
  ∃ fp', request_fingerprint 4 (request "other" SKIP) = Some fp' ∧ fp' ≠ fp).
{ intros fp Hfp. eexists. split; [vm_compute; reflexivity|]. vm_compute in Hfp. injection Hfp as <-. discriminate. }
exact (create_schedule_idempotent [] s2 creation.2 creation.2 0 9 4 version 7 "user" (lit "u")
  (lit "key-00003") "rq" (request "more" SKIP) answer (request "other" SKIP) (schedule_reach2 _) Hrun
  (rtc_refl _ _) (ready "more" SKIP) Hv (ready "other" SKIP) Hp).
Defined.

Lemma run_key_identifies_witness :
run_key 5 0 = run_key 6 0 ↔ 5%N = 6%N ∧ 0 = 0.
Proof.
assert (H5 : (5 < 2 ^ 128)%N) by (vm_compute; reflexivity).
assert (H6 : (6 < 2 ^ 128)%N) by (vm_compute; reflexivity).
assert (H0 : representable 0 = true) by (vm_compute; reflexivity).
exact (proj1 (run_key_identifies 5 6 0 0 H5 H6 H0 H0)).
Defined.
End Scenario.
