(* ===== verification/Pagination.v ===== *)
(** Pagination cursors (src/apps/api/app/core/pagination.py): the signed, canonical
    base64 texts that carry the position of the last row of a page, bound to the
    listing they were issued for. *)

From S2P Require Import Prelude PyVal Json PyUuid PyTime Base64.

(** [hmac.new(key, payload, hashlib.sha256).digest()], 32 bytes whatever is hashed. *)
Class HmacSha256 := {
  hmac_sha256 : list N → list N → list N;
  hmac_length key m : length (hmac_sha256 key m) = 32%nat;
  hmac_bytes key m : Forall is_byte (hmac_sha256 key m) }.

(** [settings.cursor_signing_key.encode()]. *)
Class CursorKey := cursor_signing_key : list N.

(** ** JSON in ASCII *)

Definition hex4_str (n : N) : pystr :=
  [hex_digit (n / 4096 mod 16); hex_digit (n / 256 mod 16); hex_digit (n / 16 mod 16); hex_digit (n mod 16)]%N.
(** What [ensure_ascii=True] escapes beyond [ensure_ascii=False]: such characters
    occur in string literals only. *)
Definition ascii_escape (c : N) : pystr :=
  if (c <? 127)%N then [c]
  else if (c <? 65536)%N then lit "\u" ++ hex4_str c
  else lit "\u" ++ hex4_str (55296 + (c - 65536) / 1024) ++ lit "\u" ++ hex4_str (56320 + (c - 65536) mod 1024).

(** [json.dumps(v, sort_keys=True, separators=(",", ":")).encode()]. *)
Definition json_ascii (v : pyval) : option (list N) := flat_map ascii_escape <$> json_dumps v.

(** ** Signing and opening *)

Definition invalid_cursor : exn := ApiError 400 "INVALID_CURSOR".
Definition MAX_CURSOR : nat := 512.

Section codec.
Context `{HmacSha256, CursorKey, PyFloats, UnicodeDecimal, PyRepr, IsoForms}.

Definition sign_cursor (payload : list N) : pystr :=
  b64_encode (payload ++ hmac_sha256 cursor_signing_key payload).

(** [_encode_queue_cursor]. *)
Definition encode_queue_cursor (payload_data : list (pykey * pyval)) : exn + pystr :=
  match json_ascii (PDict payload_data) with
  | Some payload => inr (sign_cursor payload)
  | None => inl (ValueError "Out of range")
  end.

(** The checks every decoder starts with: the payload and whether its signature is
    right; [None] stands for the exceptions that end as an invalid cursor.  A character
    outside ASCII never survives the comparison with the canonical encoding. *)
Definition open_cursor (value : pystr) : option (list N * bool) :=
  if bool_decide (value = []) || bool_decide (MAX_CURSOR < length value)%nat then None
  else
    decoded ← urlsafe_b64decode (value ++ b64_padding (length value));
    if negb (bool_decide (b64_encode decoded = value)) then None
    else if bool_decide (length decoded ≤ 32)%nat then None
    else
      let payload := take (length decoded - 32) decoded in
      let supplied := drop (length decoded - 32) decoded in
      Some (payload, bool_decide (supplied = hmac_sha256 cursor_signing_key payload)).

(** [_decode_queue_cursor]: the payload is parsed before its signature is compared. *)
Definition decode_queue_cursor (value : pystr) : exn + list (pykey * pyval) :=
  match open_cursor value with
  | Some (payload, signed) =>
      match utf8_decode payload ≫= json_loads with
      | Some (PDict data) => if signed then inr data else inl invalid_cursor
      | _ => inl invalid_cursor
      end
  | None => inl invalid_cursor
  end.

(** ** Bound positions *)

(** [actual == expected] for the values a cursor is bound to: [None], a string, or
    the version 1, which also equals [True] and [1.0]. *)
Definition equals (expected actual : pyval) : bool :=
  match expected, actual with
  | PNone, PNone => true
  | PStr a, PStr b => bool_decide (a = b)
  | PInt 1, PInt z => z =? 1
  | PInt 1, PBool b => b
  | PInt 1, PFloat (FFin r) => bool_decide (r = lit "1.0")
  | _, _ => false
  end.

Definition opt_uuid (u : option uuid) : pyval :=
  match u with Some u => PStr (str_of_uuid u) | None => PNone end.
Definition opt_text (s : option pystr) : pyval :=
  match s with Some s => PStr s | None => PNone end.

(** The position of a page in time order: [CursorPosition] and its variants. *)
Record CursorPosition := MkPosition { cp_created_at : time; cp_resource_id : uuid }.

Definition position_of (at_ : string) (data : list (pykey * pyval)) : option CursorPosition :=
  created ← dict_find (lit at_) data;
  id ← dict_find (lit "id") data;
  created_at ← fromisoformat (py_str created);
  resource_id ← uuid_of_str (py_str id);
  Some (MkPosition created_at resource_id).

(** [encode_*_cursor] of a listing: its fixed fields and the position. *)
Definition encode_bound (fields : list (string * pyval)) (at_ : string) (p : CursorPosition) : exn + pystr :=
  encode_queue_cursor
    ((KStr (lit at_), PStr (isoformat (cp_created_at p)))
     :: (KStr (lit "id"), PStr (str_of_uuid (cp_resource_id p)))
     :: ((λ f : string * pyval, (KStr (lit f.1), f.2)) <$> fields)).

(** [decode_*_cursor]: [set(data)] is exactly the fields written, and each fixed
    field has its expected value. *)
Definition decode_bound (fields : list (string * pyval)) (at_ : string) (value : option pystr)
    : exn + option CursorPosition :=
  match value with
  | None => inr None
  | Some value =>
      match decode_queue_cursor value with
      | inl e => inl e
      | inr data =>
          if negb (has_exact_keys (at_ :: "id"%string :: fields.*1) data)
             || negb (forallb (λ f, equals f.2 (dict_get f.1 data)) fields)
          then inl invalid_cursor
          else match position_of at_ data with
               | Some p => inr (Some p)
               | None => inl invalid_cursor
               end
      end
  end.

(** ** The listings *)

Definition queue_request_fields (queue_id : uuid) (status : option pystr) : list (string * pyval) :=
  [("kind"%string, PStr (lit "queue-requests")); ("queue_id"%string, PStr (str_of_uuid queue_id));
   ("status"%string, opt_text status); ("v"%string, PInt 1)].
Definition encode_queue_request_cursor queue_id status := encode_bound (queue_request_fields queue_id status) "created_at".
Definition decode_queue_request_cursor value queue_id status := decode_bound (queue_request_fields queue_id status) "created_at" value.

Definition request_queue_list_fields (project_id : uuid) : list (string * pyval) :=
  [("kind"%string, PStr (lit "request-queue-list")); ("project_id"%string, PStr (str_of_uuid project_id));
   ("v"%string, PInt 1)].
Definition encode_request_queue_list_cursor project_id := encode_bound (request_queue_list_fields project_id) "created_at".
Definition decode_request_queue_list_cursor value project_id := decode_bound (request_queue_list_fields project_id) "created_at" value.

Definition queue_transition_fields (queue_id : uuid) (request_id : option uuid) : list (string * pyval) :=
  [("kind"%string, PStr (lit "queue-transitions")); ("queue_id"%string, PStr (str_of_uuid queue_id));
   ("request_id"%string, opt_uuid request_id); ("v"%string, PInt 1)].
Definition encode_queue_transition_cursor queue_id request_id := encode_bound (queue_transition_fields queue_id request_id) "created_at".
Definition decode_queue_transition_cursor value queue_id request_id := decode_bound (queue_transition_fields queue_id request_id) "created_at" value.

Definition schedule_list_fields (project_id : uuid) (status : option pystr) : list (string * pyval) :=
  [("kind"%string, PStr (lit "schedule-list")); ("project_id"%string, PStr (str_of_uuid project_id));
   ("status"%string, opt_text status); ("v"%string, PInt 1)].
Definition encode_schedule_list_cursor project_id status := encode_bound (schedule_list_fields project_id status) "created_at".
Definition decode_schedule_list_cursor value project_id status := decode_bound (schedule_list_fields project_id status) "created_at" value.

Definition egress_policy_list_fields (project_id : uuid) (status : option pystr) : list (string * pyval) :=
  [("kind"%string, PStr (lit "egress-policy-list")); ("project_id"%string, PStr (str_of_uuid project_id));
   ("status"%string, opt_text status); ("v"%string, PInt 1)].
Definition encode_egress_policy_list_cursor project_id status := encode_bound (egress_policy_list_fields project_id status) "created_at".
Definition decode_egress_policy_list_cursor value project_id status := decode_bound (egress_policy_list_fields project_id status) "created_at" value.

Definition schedule_trigger_fields (schedule_id : uuid) (outcome : option pystr) : list (string * pyval) :=
  [("kind"%string, PStr (lit "schedule-triggers")); ("outcome"%string, opt_text outcome);
   ("schedule_id"%string, PStr (str_of_uuid schedule_id)); ("v"%string, PInt 1)].
Definition encode_schedule_trigger_cursor schedule_id outcome := encode_bound (schedule_trigger_fields schedule_id outcome) "created_at".
Definition decode_schedule_trigger_cursor value schedule_id outcome := decode_bound (schedule_trigger_fields schedule_id outcome) "created_at" value.

Definition event_fields (project_id : uuid) (event_type : option pystr) : list (string * pyval) :=
  [("event_type"%string, opt_text event_type); ("kind"%string, PStr (lit "project-events"));
   ("project_id"%string, PStr (str_of_uuid project_id)); ("v"%string, PInt 1)].
Definition encode_event_cursor project_id event_type := encode_bound (event_fields project_id event_type) "occurred_at".
Definition decode_event_cursor value project_id event_type := decode_bound (event_fields project_id event_type) "occurred_at" value.

(** ** Cursors of their own shape *)

(** A number read from a cursor: an [int] that is not a [bool], at least 1. *)
Definition positive (v : pyval) : option Z :=
  match v with PInt z => if 1 <=? z then Some z else None | _ => None end.

Definition encode_egress_policy_revision_cursor (policy_id : uuid) (revision_number : Z) : exn + pystr :=
  encode_queue_cursor [(KStr (lit "kind"), PStr (lit "egress-policy-revisions"));
    (KStr (lit "policy_id"), PStr (str_of_uuid policy_id));
    (KStr (lit "revision_number"), PInt revision_number); (KStr (lit "v"), PInt 1)].
Definition decode_egress_policy_revision_cursor (value : option pystr) (policy_id : uuid) : exn + option Z :=
  match value with
  | None => inr None
  | Some value =>
      match decode_queue_cursor value with
      | inl e => inl e
      | inr data =>
          if negb (has_exact_keys ["kind"; "policy_id"; "revision_number"; "v"]%string data)
             || negb (equals (PInt 1) (dict_get "v" data))
             || negb (equals (PStr (lit "egress-policy-revisions")) (dict_get "kind" data))
             || negb (equals (PStr (str_of_uuid policy_id)) (dict_get "policy_id" data))
          then inl invalid_cursor
          else match positive (dict_get "revision_number" data) with
               | Some z => inr (Some z)
               | None => inl invalid_cursor
               end
      end
  end.

(** The older decoders compare the signature first and parse after it. *)
Definition open_signed (value : pystr) : option pyval :=
  '(payload, signed) ← open_cursor value;
  if signed : bool then utf8_decode payload ≫= json_loads else None.

Definition encode_cursor (p : CursorPosition) : exn + pystr :=
  encode_queue_cursor [(KStr (lit "created_at"), PStr (isoformat (cp_created_at p)));
    (KStr (lit "id"), PStr (str_of_uuid (cp_resource_id p))); (KStr (lit "v"), PInt 1)].
(** [data.get] of a signed payload that is not an object is an [AttributeError],
    which the handler does not catch. *)
Definition decode_cursor (value : option pystr) : exn + option CursorPosition :=
  match value with
  | None => inr None
  | Some value =>
      match open_signed value with
      | None => inl invalid_cursor
      | Some (PDict data) =>
          if negb (equals (PInt 1) (dict_get "v" data)) then inl invalid_cursor
          else match position_of "created_at" data with
               | Some p => inr (Some p)
               | None => inl invalid_cursor
               end
      | Some _ => inl (AttributeError "get")
      end
  end.

Definition encode_dataset_item_cursor (dataset_id : uuid) (sequence : Z) : exn + pystr :=
  if sequence <? 1 then inl (ValueError "Dataset item cursor sequence must be positive")
  else encode_queue_cursor [(KStr (lit "dataset_id"), PStr (str_of_uuid dataset_id));
    (KStr (lit "kind"), PStr (lit "dataset-items")); (KStr (lit "sequence"), PInt sequence);
    (KStr (lit "v"), PInt 1)].
Definition decode_dataset_item_cursor (value : option pystr) (dataset_id : uuid) : exn + option Z :=
  match value with
  | None => inr None
  | Some value =>
      match open_signed value with
      | Some (PDict data) =>
          match dict_find (lit "sequence") data with
          | None => inl invalid_cursor
          | Some raw =>
              if negb (equals (PInt 1) (dict_get "v" data))
                 || negb (equals (PStr (lit "dataset-items")) (dict_get "kind" data))
                 || negb (equals (PStr (str_of_uuid dataset_id)) (dict_get "dataset_id" data))
              then inl invalid_cursor
              else match positive raw with
                   | Some z => inr (Some z)
                   | None => inl invalid_cursor
                   end
          end
      | _ => inl invalid_cursor
      end
  end.

Definition encode_key_value_record_cursor (store_id : uuid) (key : pystr) : exn + pystr :=
  encode_queue_cursor [(KStr (lit "kind"), PStr (lit "key-value-records")); (KStr (lit "key"), PStr key);
    (KStr (lit "store_id"), PStr (str_of_uuid store_id)); (KStr (lit "v"), PInt 1)].
Definition decode_key_value_record_cursor (value : option pystr) (store_id : uuid) : exn + option pystr :=
  match value with
  | None => inr None
  | Some value =>
      match open_signed value with
      | Some (PDict data) =>
          match dict_find (lit "key") data with
          | None => inl invalid_cursor
          | Some raw =>
              if negb (equals (PInt 1) (dict_get "v" data))
                 || negb (equals (PStr (lit "key-value-records")) (dict_get "kind" data))
                 || negb (equals (PStr (str_of_uuid store_id)) (dict_get "store_id" data))
              then inl invalid_cursor
              else match raw with
                   | PStr (c :: key) => inr (Some (c :: key))
                   | _ => inl invalid_cursor
                   end
          end
      | _ => inl invalid_cursor
      end
  end.
End codec.

Definition normalize_limit (limit : Z) : exn + Z :=
  if negb ((1 <=? limit) && (limit <=? 200)) then inl (ApiError 422 "VALIDATION_FAILED") else inr limit.

(** ** Keyset pages *)

(** The [or_] / [and_] condition: strictly before the cursor, newest first. *)
Definition before (cursor : option CursorPosition) (at_ : time) (id : uuid) : bool :=
  match cursor with
  | None => true
  | Some c => (at_ <? cp_created_at c) || ((at_ =? cp_created_at c) && (id <? cp_resource_id c)%N)
  end.

(** [.order_by(R.created_at.desc(), R.id.desc())]. *)
Definition newest_first {R} (at_ : R → time) : relation (uuid * R) := λ x y,
  key_le (at_ y.2, y.1) (at_ x.2, x.1).
#[export] Instance newest_first_dec {R} (at_ : R → time) x y : Decision (newest_first at_ x y).
Proof. unfold newest_first. apply _. Defined.

(** The query every listing makes: filter, resume at the cursor, newest first, one
    row more than the page; [rows[:limit], len(rows) > limit]. *)
Definition keyset_page {R} (p : uuid → R → bool) (at_ : R → time) (table : gmap uuid R)
    (cursor : option CursorPosition) (limit : Z) : list (uuid * R) * bool :=
  let rows := take (Z.to_nat limit + 1)
    (order_by (newest_first at_) (select (λ id r, p id r && before cursor (at_ r) id) table)) in
  (take (Z.to_nat limit) rows, bool_decide (Z.to_nat limit < length rows)%nat).

(** The cursor the route issues: the last row of the page, when there are more. *)
Definition next_cursor {R} (at_ : R → time) (page : list (uuid * R) * bool) : option CursorPosition :=
  if page.2 then (λ x : uuid * R, MkPosition (at_ x.2) x.1) <$> last page.1 else None.
