(* ===== verification/PaginationSpec.v ===== *)
(** Properties of pagination: among the listings that bind their cursors, a cursor is
    accepted exactly by the one it was issued for and gives back the position it was issued
    at; nothing unsigned is ever accepted; and following the cursors enumerates a listing completely and in order. *)

From S2P Require Import Prelude PyVal Json PyUuid PyTime Base64 Pagination.

(** Membership in an explicit list. *)
Ltac member := first [left | right; member].

(** ** JSON objects of plain fields *)

(** Characters that JSON prints as they are. *)
Definition plain (c : N) : Prop := (32 ≤ c ≤ 126 ∧ c ≠ 34 ∧ c ≠ 92)%N.
Definition printable (c : N) : Prop := (32 ≤ c ≤ 126)%N.

Lemma plain_printable s : Forall plain s → Forall printable s.
Proof. intros Hs. eapply Forall_impl; [exact Hs|]. intros c [? _]. done. Qed.

Lemma print_plain s : Forall plain s → print_str s = 34%N :: s ++ [34%N].
Proof.
  intros Hs. unfold print_str. do 2 f_equal. induction Hs as [|c s Hc _ IH]; [done|]. cbn.
  rewrite IH. unfold plain in Hc. unfold escape_char.
  repeat match goal with |- context [(c =? ?x)%N] => rewrite (proj2 (N.eqb_neq c x)) by lia end.
  by rewrite (proj2 (N.ltb_ge c 32)) by lia.
Qed.

(** A scalar field with its printed text. *)
Inductive prints : pyval → pystr → Prop :=
| prints_none : prints PNone (lit "null")
| prints_str s : Forall plain s → prints (PStr s) (34%N :: s ++ [34%N])
| prints_int z ds : print_int z = Some ds → prints (PInt z) ds.

Lemma prints_ok `{PyFloats} v p : prints v p → print v = Some p ∧ canon v = v ∧ wf_json v ∧ Forall printable p.
Proof.
  destruct 1 as [|s Hs|z ds Hz]; split_and!; try done.
  - repeat constructor; done.
  - cbn. by rewrite print_plain.
  - apply Forall_cons. split; [done|]. apply Forall_app. split; [by apply plain_printable|].
    by apply Forall_singleton.
  - unfold print_int in Hz. case_decide; [|done]. simplify_eq.
    assert (Forall printable (dec_str (Z.abs_N z))) as Hd.
    { eapply Forall_impl; [apply uint_str_digits|]. intros c Hc. unfold is_digit in Hc.
      apply andb_prop in Hc as [H1%N.leb_le H2%N.leb_le]. unfold printable. lia. }
    case_match; [|done]. by apply Forall_cons.
Qed.

(** An object member and the room it takes with its comma. *)
Inductive plain_item : pykey * pyval → nat → Prop :=
| PlainItem k v p : Forall plain k → prints v p → plain_item (KStr k, v) (length k + length p + 4).

Lemma print_members_plain `{PyFloats} l ns :
  Forall2 plain_item l ns →
  ∃ b, print_members l = Some b ∧ Forall printable b ∧ (length b ≤ sum_list ns)%nat.
Proof.
  induction 1 as [|x n l ns Hx Hl IH]; [by exists []|]. destruct IH as (b & Hb & Hpb & Hlen).
  destruct Hx as [k v p Hk Hp]. destruct (prints_ok _ _ Hp) as (Hv & _ & _ & Hpp).
  assert (Forall printable (34%N :: k ++ [34%N])) as Hkk.
  { apply Forall_cons. split; [done|]. apply Forall_app. split; [by apply plain_printable|]. by apply Forall_singleton. }
  destruct l as [|y l].
  - exists (print_str k ++ 58%N :: p). split_and!.
    + change (print_members [(KStr k, v)]) with (a ← print v; Some (print_str k ++ 58%N :: a)). by rewrite Hv.
    + rewrite print_plain by done. apply Forall_app. split; [done|]. by apply Forall_cons.
    + rewrite print_plain by done. rewrite !length_app. cbn. rewrite length_app. cbn. lia.
  - exists (print_str k ++ 58%N :: p ++ 44%N :: b). split_and!.
    + change (print_members ((KStr k, v) :: y :: l)) with
        (a ← print v; b ← print_members (y :: l); Some (print_str k ++ 58%N :: a ++ 44%N :: b)).
      by rewrite Hv, Hb.
    + rewrite print_plain by done. apply Forall_app. split; [done|].
      apply Forall_cons. split; [done|]. apply Forall_app. split; [done|]. by apply Forall_cons.
    + rewrite print_plain by done. rewrite !length_app. cbn. rewrite !length_app. cbn in *. lia.
Qed.

(** Printing a plain object: pure ASCII within the sum of its fields, read back as
    the object with its keys sorted. *)
Lemma json_ascii_plain `{PyFloats} kvs ns :
  NoDup kvs.*1 → Forall2 plain_item kvs ns →
  ∃ b, json_ascii (PDict kvs) = Some b ∧ Forall printable b ∧ (length b ≤ sum_list ns + 2)%nat ∧
       utf8_decode b ≫= json_loads = Some (PDict (merge_sort item_le kvs)).
Proof.
  intros Hnd Hp.
  assert (prod_map id canon <$> kvs = kvs) as Hcan.
  { clear Hnd. induction Hp as [|x n l ns Hx Hl IH]; [done|]. cbn. rewrite IH. f_equal.
    destruct Hx as [k v p Hk Hv]. cbn. by destruct (prints_ok _ _ Hv) as (_ & -> & _). }
  assert (wf_json (PDict kvs)) as Hwf.
  { apply wf_dict. split; [done|]. clear Hnd Hcan. induction Hp as [|x n l ns Hx Hl IH]; constructor; [|done].
    destruct Hx as [k v p Hk Hv]. by destruct (prints_ok _ _ Hv) as (_ & _ & ? & _). }
  assert (∃ ms, Forall2 plain_item (merge_sort item_le kvs) ms ∧ sum_list ms = sum_list ns) as (ms & Hms & Hsum).
  { pose proof (merge_sort_Permutation item_le kvs) as Hperm. clear Hnd Hcan Hwf.
    symmetry in Hperm. revert ns Hp. induction Hperm as [|x l l' _ IH|x y l|l1 l2 l3 _ IH1 _ IH2]; intros ns Hp.
    - by exists ns.
    - inversion Hp as [|? n ? ns' Hx Hl]; subst. destruct (IH _ Hl) as (ms & Hms & Hs).
      exists (n :: ms). split; [by constructor|]. cbn. lia.
    - inversion Hp as [|? n ? ns' Hx Hl]; subst. inversion Hl as [|? n' ? ns'' Hy Hl']; subst.
      exists (n' :: n :: ns''). split; [by repeat constructor|]. cbn. lia.
    - destruct (IH1 _ Hp) as (ms & Hms & Hs). destruct (IH2 _ Hms) as (ms' & Hms' & Hs').
      exists ms'. split; [done|]. congruence. }
  destruct (print_members_plain _ _ Hms) as (b & Hb & Hpb & Hlen).
  assert (json_dumps (PDict kvs) = Some (123%N :: b ++ [125%N])) as Hd.
  { unfold json_dumps. rewrite canon_dict, Hcan, print_dict, Hb. done. }
  assert (Forall printable (123%N :: b ++ [125%N])) as Hpr.
  { apply Forall_cons. split; [done|]. apply Forall_app. split; [done|]. by apply Forall_singleton. }
  exists (123%N :: b ++ [125%N]). split_and!; [|done| |].
  - unfold json_ascii. rewrite Hd. cbn [fmap option_fmap option_map]. f_equal.
    generalize dependent (123%N :: b ++ [125%N]). intros s _ Hs. induction Hs as [|c s Hc _ IH]; [done|].
    cbn. rewrite IH. unfold ascii_escape, printable in *. by rewrite (proj2 (N.ltb_lt c 127)) by lia.
  - cbn. rewrite length_app. cbn. lia.
  - assert (utf8_encode (123%N :: b ++ [125%N]) = Some (123%N :: b ++ [125%N])) as Henc.
    { generalize dependent (123%N :: b ++ [125%N]). intros s _ Hs. induction Hs as [|c s Hc _ IH]; [done|].
      cbn. rewrite IH. unfold utf8_char, printable in *. by rewrite (proj2 (N.ltb_lt c 128)) by lia. }
    rewrite (utf8_decode_encode _ _ Henc). cbn [mbind option_bind].
    rewrite (json_loads_dumps _ _ Hwf Hd), canon_dict, Hcan. done.
Qed.

(** ** Signing *)

Section codec.
Context `{HmacSha256, CursorKey, PyFloats, UnicodeDecimal, PyRepr, IsoForms}.

Lemma printable_bytes s : Forall printable s → Forall is_byte s.
Proof. intros Hs. eapply Forall_impl; [exact Hs|]. unfold printable, is_byte. intros; lia. Qed.

Lemma length_sign payload :
  Z.of_nat (length (sign_cursor payload)) = (4 * (Z.of_nat (length payload) + 32) + 2) / 3.
Proof. unfold sign_cursor. rewrite length_b64_encode, length_app, hmac_length. f_equal. lia. Qed.

Lemma open_sign payload :
  Forall is_byte payload → (1 ≤ length payload ≤ 352)%nat →
  open_cursor (sign_cursor payload) = Some (payload, true) ∧ (length (sign_cursor payload) ≤ 512)%nat.
Proof.
  intros Hb Hlen. pose proof (length_sign payload) as Hl.
  assert (1 ≤ Z.of_nat (length (sign_cursor payload)) ≤ 512) as Hb'.
  { rewrite Hl. div_mod_lia. }
  split; [|lia]. unfold open_cursor.
  rewrite bool_decide_eq_false_2 by (intros Heq; rewrite Heq in Hb'; cbn in Hb'; lia).
  rewrite bool_decide_eq_false_2 by (unfold MAX_CURSOR; lia). cbn [orb].
  unfold sign_cursor. rewrite b64_decode_encode by (apply Forall_app; split; [done|apply hmac_bytes]).
  cbn [mbind option_bind]. rewrite bool_decide_eq_true_2 by done. cbn [negb].
  rewrite bool_decide_eq_false_2 by (rewrite length_app, hmac_length; lia).
  rewrite length_app, hmac_length. replace (length payload + 32 - 32)%nat with (length payload) by lia.
  cbv zeta. rewrite take_app_length, drop_app_length, bool_decide_eq_true_2 by done. done.
Qed.

(** What opens as signed is the canonical text of a payload and its signature. *)
Lemma open_signed_inv value payload :
  open_cursor value = Some (payload, true) → value = sign_cursor payload ∧ (length value ≤ 512)%nat.
Proof.
  unfold open_cursor. destruct (bool_decide (value = []) || bool_decide _) eqn:E0; [done|].
  apply orb_false_elim in E0 as [_ E0]. apply bool_decide_eq_false in E0.
  destruct (urlsafe_b64decode _) as [decoded|]; [|done]. cbn [mbind option_bind].
  destruct (negb _) eqn:E1; [done|]. destruct (bool_decide (length decoded ≤ 32)%nat); [done|]. breflect.
  cbv zeta. intros [= <- Hs]. breflect. split; [|unfold MAX_CURSOR in E0; lia].
  unfold sign_cursor. rewrite <- Hs, take_drop. done.
Qed.

(** A plain object goes through a cursor unchanged, keys sorted. *)
Lemma queue_cursor_roundtrip kvs ns :
  NoDup kvs.*1 → Forall2 plain_item kvs ns → (sum_list ns ≤ 350)%nat →
  ∃ c, encode_queue_cursor kvs = inr c ∧ (length c ≤ 512)%nat ∧
    decode_queue_cursor c = inr (merge_sort item_le kvs) ∧
    open_signed c = Some (PDict (merge_sort item_le kvs)).
Proof.
  intros Hnd Hp Hs. destruct (json_ascii_plain _ _ Hnd Hp) as (b & Hb & Hpr & Hlen & Hrd).
  assert (1 ≤ length b)%nat as Hpos.
  { unfold json_ascii in Hb. apply fmap_Some in Hb as (t & Ht & ->).
    unfold json_dumps in Ht. rewrite canon_dict, print_dict in Ht.
    apply bind_Some in Ht as (x & _ & [= <-]). cbn. lia. }
  destruct (open_sign b) as [Ho Hl]; [by apply printable_bytes|lia|].
  exists (sign_cursor b). unfold encode_queue_cursor. rewrite Hb. split_and!; [done..| |].
  - unfold decode_queue_cursor. by rewrite Ho, Hrd.
  - unfold open_signed. rewrite Ho. done.
Qed.

(** Looking a field up in the sorted object. *)
Lemma dict_find_sorted k kvs : NoDup kvs.*1 → dict_find k (merge_sort item_le kvs) = dict_find k kvs.
Proof.
  intros Hnd. apply option_eq. intros v.
  rewrite !elem_of_dict_find by (by rewrite ?merge_sort_Permutation). by rewrite merge_sort_Permutation.
Qed.

Lemma has_exact_keys_perm ks kvs kvs' : kvs ≡ₚ kvs' → has_exact_keys ks kvs = has_exact_keys ks kvs'.
Proof.
  intros Hp. apply eq_true_iff_eq. unfold has_exact_keys.
  rewrite !andb_true_iff, !forallb_forall. setoid_rewrite existsb_exists.
  setoid_rewrite <- list_elem_of_In. setoid_rewrite Hp. done.
Qed.

Lemma has_exact_keys_refl (fields : list (string * pyval)) :
  has_exact_keys fields.*1 ((λ f : string * pyval, (KStr (lit f.1), f.2)) <$> fields) = true.
Proof.
  unfold has_exact_keys. apply andb_true_iff. split; apply forallb_forall; intros x Hx%list_elem_of_In;
    apply existsb_exists; setoid_rewrite <- list_elem_of_In.
  - apply list_elem_of_fmap in Hx as (f & -> & Hf). exists f.1. split; [|by apply bool_decide_eq_true_2].
    apply list_elem_of_fmap. by exists f.
  - apply list_elem_of_fmap in Hx as (f & -> & Hf). exists (KStr (lit f.1), f.2).
    split; [|by apply bool_decide_eq_true_2]. apply list_elem_of_fmap. by exists f.
Qed.

(** ** The fields of the listings are plain *)

Definition plainb (c : N) : bool := (32 <=? c)%N && (c <=? 126)%N && negb (c =? 34)%N && negb (c =? 92)%N.
Lemma plain_lit s : forallb plainb (lit s) = true → Forall plain (lit s).
Proof.
  intros Hs. apply Forall_forall. intros c Hc. rewrite forallb_forall in Hs.
  apply list_elem_of_In, Hs in Hc. unfold plainb in Hc. rewrite !andb_true_iff, !negb_true_iff in Hc.
  destruct Hc as [[[H1'%N.leb_le H2'%N.leb_le] H3'%N.eqb_neq] H4'%N.eqb_neq]. done.
Qed.

Lemma plain_uuid u : Forall plain (str_of_uuid u).
Proof.
  eapply Forall_impl; [apply str_of_uuid_chars|]. unfold uuidc, hexc, plain. intros c Hc. lia.
Qed.

Lemma plain_iso t : Forall plain (isoformat t).
Proof.
  eapply Forall_impl; [apply isoformat_isoc|]. intros c [Hc|Hc].
  - unfold is_dec in Hc. apply andb_prop in Hc as [H1'%N.leb_le H2'%N.leb_le]. unfold plain. lia.
  - assert (Forall plain (lit "-T:.+")) as Hp by (by apply plain_lit). by eapply Forall_forall in Hp.
Qed.

Definition key_item (f : string * pyval) : pykey * pyval := (KStr (lit f.1), f.2).

(** A field of a listing, within [n] characters. *)
Definition field_ok (f : string * pyval) (n : nat) : Prop :=
  ∃ m, plain_item (key_item f) m ∧ (m ≤ n)%nat ∧ equals f.2 f.2 = true.

Lemma field_str k s n :
  forallb plainb (lit k) = true → Forall plain s → (length (lit k) + length s + 6 ≤ n)%nat →
  field_ok (k, PStr s) n.
Proof.
  intros Hk Hs Hn. eexists. split_and!; [constructor; [by apply plain_lit|by constructor]| |].
  - cbn [length fst]. rewrite length_app. cbn [length]. lia.
  - cbn. by apply bool_decide_eq_true_2.
Qed.
Lemma field_none k n : forallb plainb (lit k) = true → (length (lit k) + 8 ≤ n)%nat → field_ok (k, PNone) n.
Proof.
  intros Hk Hn. eexists. split_and!; [constructor; [by apply plain_lit|constructor]| |done].
  cbn [fst]. change (length (lit "null")) with 4%nat. lia.
Qed.
Lemma field_version : field_ok ("v"%string, PInt 1) 6.
Proof. eexists. split_and!; [constructor; [by apply plain_lit|by constructor]|cbn; lia|done]. Qed.
Lemma field_uuid k u n :
  forallb plainb (lit k) = true → (length (lit k) + 42 ≤ n)%nat → field_ok (k, PStr (str_of_uuid u)) n.
Proof. intros Hk Hn. apply field_str; [done|apply plain_uuid|]. rewrite length_str_of_uuid. lia. Qed.

(** A filter the routes can produce: a short plain word. *)
Definition filter_ok (o : option pystr) : Prop :=
  match o with Some s => Forall plain s ∧ (length s ≤ 80)%nat | None => True end.
Lemma field_filter k o n :
  forallb plainb (lit k) = true → filter_ok o → (length (lit k) + 86 ≤ n)%nat → field_ok (k, opt_text o) n.
Proof.
  intros Hk Ho Hn. destruct o as [s|]; [destruct Ho; apply field_str|apply field_none]; try done; lia.
Qed.
Lemma field_opt_uuid k o n :
  forallb plainb (lit k) = true → (length (lit k) + 86 ≤ n)%nat → field_ok (k, opt_uuid o) n.
Proof. intros Hk Hn. destruct o; [apply field_uuid|apply field_none]; try done; lia. Qed.

Definition fields_ok (fields : list (string * pyval)) : Prop :=
  ∃ ns, Forall2 field_ok fields ns ∧ (sum_list ns ≤ 240)%nat.

Lemma fields_equal fields ns f : Forall2 field_ok fields ns → f ∈ fields → equals f.2 f.2 = true.
Proof.
  intros Hns Hf. induction Hns as [|g n l ns (m & _ & _ & He) _ IH]; [by apply not_elem_of_nil in Hf|].
  apply elem_of_cons in Hf as [->|Hf]; [done|by apply IH].
Qed.

Definition position_ok (p : CursorPosition) : Prop :=
  representable (cp_created_at p) = true ∧ (cp_resource_id p < 2 ^ 128)%N.

(** Everything a bound cursor carries. *)
Definition all_fields (fields : list (string * pyval)) (at_ : string) (p : CursorPosition) :=
  (at_, PStr (isoformat (cp_created_at p)))
  :: ("id"%string, PStr (str_of_uuid (cp_resource_id p))) :: fields.

Definition distinct (names : list string) : Prop := NoDup (lit <$> names).

Lemma key_item_NoDup (l : list (string * pyval)) : distinct l.*1 → NoDup (key_item <$> l).*1.
Proof.
  unfold distinct. intros Hnd. replace ((key_item <$> l).*1) with (KStr <$> (lit <$> l.*1)).
  - apply NoDup_fmap_2; [|done]. by intros ? ? [= ->].
  - rewrite <- !list_fmap_compose. done.
Qed.

Lemma all_fields_plain fields at_ p :
  fields_ok fields → at_ = "created_at"%string ∨ at_ = "occurred_at"%string →
  ∃ ms, Forall2 plain_item (key_item <$> all_fields fields at_ p) ms ∧ (sum_list ms ≤ 350)%nat.
Proof.
  intros (ns & Hns & Hsum) Hat.
  assert (∃ ms, Forall2 plain_item (key_item <$> fields) ms ∧ (sum_list ms ≤ sum_list ns)%nat)
    as (ms & Hms & Hle).
  { clear -Hns. induction Hns as [|f n l ns (m & Hm & Hle & _) _ (ms & Hms & Hs)]; [by exists []|].
    exists (m :: ms). split; [by constructor|]. cbn. lia. }
  destruct (field_str at_ (isoformat (cp_created_at p)) 49) as (m1 & Hm1 & Hl1 & _).
  { by destruct Hat as [->| ->]. } { apply plain_iso. }
  { pose proof (length_isoformat (cp_created_at p)). destruct Hat as [->| ->]; cbn; lia. }
  destruct (field_uuid "id" (cp_resource_id p) 44) as (m2 & Hm2 & Hl2 & _); [done|cbn; lia|].
  exists (m1 :: m2 :: ms). split; [by repeat constructor|]. cbn. lia.
Qed.

(** The value of a field in the object a cursor decodes to. *)
Lemma field_value f l : distinct l.*1 → f ∈ l → dict_find (lit f.1) (merge_sort item_le (key_item <$> l)) = Some f.2.
Proof.
  intros Hnd%key_item_NoDup Hf. rewrite dict_find_sorted by done. apply elem_of_dict_find; [done|].
  apply list_elem_of_fmap. by exists f.
Qed.

Lemma position_of_fields at_ p l :
  distinct l.*1 → position_ok p → (at_, PStr (isoformat (cp_created_at p))) ∈ l →
  ("id"%string, PStr (str_of_uuid (cp_resource_id p))) ∈ l →
  position_of at_ (merge_sort item_le (key_item <$> l)) = Some p.
Proof.
  intros Hnd [Ht Hid] Hx Hy. unfold position_of.
  rewrite (field_value (_, _) l Hnd Hx : dict_find (lit at_) _ = _).
  rewrite (field_value (_, _) l Hnd Hy : dict_find (lit "id") _ = _). cbn [mbind option_bind py_str snd].
  rewrite fromisoformat_isoformat, uuid_of_str_of_uuid by done. by destruct p.
Qed.

Lemma bound_roundtrip fields at_ p :
  fields_ok fields → at_ = "created_at"%string ∨ at_ = "occurred_at"%string →
  distinct (at_ :: "id"%string :: fields.*1) → position_ok p →
  ∃ c, encode_bound fields at_ p = inr c ∧ (length c ≤ 512)%nat ∧
    decode_bound fields at_ (Some c) = inr (Some p) ∧
    ∀ fields' at' r f v, decode_bound fields' at' (Some c) = inr r → f ∈ fields' →
      (f.1, v) ∈ fields → equals f.2 v = true.
Proof.
  intros Hok Hat Hnd Hp. set (l := all_fields fields at_ p).
  assert (distinct l.*1) as Hnd' by done.
  destruct (all_fields_plain fields at_ p Hok Hat) as (ms & Hms & Hsz).
  destruct (queue_cursor_roundtrip _ _ (key_item_NoDup _ Hnd') Hms Hsz) as (c & Hc & Hlen & Hdec & _).
  fold l in Hdec. exists c. split_and!; [exact Hc|done| |].
  - unfold decode_bound. rewrite Hdec.
    rewrite (has_exact_keys_perm _ _ (key_item <$> l)) by apply merge_sort_Permutation.
    rewrite (has_exact_keys_refl l : has_exact_keys (at_ :: "id"%string :: fields.*1) (key_item <$> l) = true).
    assert (forallb (λ f, equals f.2 (dict_get f.1 (merge_sort item_le (key_item <$> l)))) fields = true) as ->.
    { apply forallb_forall. intros f Hf%list_elem_of_In. unfold dict_get.
      rewrite field_value by (done || (right; by right)). destruct Hok as (ns & Hns & _). by eapply fields_equal. }
    cbn [negb orb]. rewrite (position_of_fields at_ p l); [done..|left|right; left].
  - intros fields' at' r f v Hr Hf Hv. unfold decode_bound in Hr. rewrite Hdec in Hr.
    destruct (_ || _) eqn:E in Hr; [done|]. apply orb_false_elim in E as [_ E].
    apply negb_false_iff in E. rewrite forallb_forall in E. apply list_elem_of_In, E in Hf.
    unfold dict_get in Hf.
    by rewrite (field_value (f.1, v) l Hnd' ltac:(right; by right) : dict_find (lit f.1) _ = _) in Hf.
Qed.

(** Every error of a decoder is the invalid cursor. *)
Lemma decode_bound_error fields at_ v e : decode_bound fields at_ v = inl e → e = invalid_cursor.
Proof.
  unfold decode_bound, decode_queue_cursor. destruct v as [v|]; [|done].
  destruct (open_cursor v) as [[payload signed]|]; [|congruence].
  destruct (utf8_decode payload ≫= json_loads) as [[]|]; try congruence.
  destruct signed; [|congruence]. case_match; [congruence|]. case_match; congruence.
Qed.

(** ** The listings *)

(** The listings a cursor can be issued for, with their filters. *)
Inductive listing :=
| QueueRequests (queue_id : uuid) (status : option pystr)
| RequestQueues (project_id : uuid)
| QueueTransitions (queue_id : uuid) (request_id : option uuid)
| ScheduleList (project_id : uuid) (status : option pystr)
| EgressPolicies (project_id : uuid) (status : option pystr)
| ScheduleTriggers (schedule_id : uuid) (outcome : option pystr)
| ProjectEvents (project_id : uuid) (event_type : option pystr).

Definition encode_listing (l : listing) : CursorPosition → exn + pystr :=
  match l with
  | QueueRequests q st => encode_queue_request_cursor q st
  | RequestQueues p => encode_request_queue_list_cursor p
  | QueueTransitions q r => encode_queue_transition_cursor q r
  | ScheduleList p st => encode_schedule_list_cursor p st
  | EgressPolicies p st => encode_egress_policy_list_cursor p st
  | ScheduleTriggers s o => encode_schedule_trigger_cursor s o
  | ProjectEvents p t => encode_event_cursor p t
  end.
Definition decode_listing (l : listing) (value : option pystr) : exn + option CursorPosition :=
  match l with
  | QueueRequests q st => decode_queue_request_cursor value q st
  | RequestQueues p => decode_request_queue_list_cursor value p
  | QueueTransitions q r => decode_queue_transition_cursor value q r
  | ScheduleList p st => decode_schedule_list_cursor value p st
  | EgressPolicies p st => decode_egress_policy_list_cursor value p st
  | ScheduleTriggers s o => decode_schedule_trigger_cursor value s o
  | ProjectEvents p t => decode_event_cursor value p t
  end.

Definition listing_ok (l : listing) : Prop :=
  match l with
  | QueueRequests q st => (q < 2 ^ 128)%N ∧ filter_ok st
  | RequestQueues p => (p < 2 ^ 128)%N
  | QueueTransitions q r => (q < 2 ^ 128)%N ∧ (∀ u, r = Some u → (u < 2 ^ 128)%N)
  | ScheduleList p st | EgressPolicies p st => (p < 2 ^ 128)%N ∧ filter_ok st
  | ScheduleTriggers s o => (s < 2 ^ 128)%N ∧ filter_ok o
  | ProjectEvents p t => (p < 2 ^ 128)%N ∧ filter_ok t
  end.

Definition fields_of (l : listing) : list (string * pyval) :=
  match l with
  | QueueRequests q st => queue_request_fields q st
  | RequestQueues p => request_queue_list_fields p
  | QueueTransitions q r => queue_transition_fields q r
  | ScheduleList p st => schedule_list_fields p st
  | EgressPolicies p st => egress_policy_list_fields p st
  | ScheduleTriggers s o => schedule_trigger_fields s o
  | ProjectEvents p t => event_fields p t
  end.
Definition at_of (l : listing) : string :=
  match l with ProjectEvents _ _ => "occurred_at" | _ => "created_at" end.

Lemma encode_listing_bound l p : encode_listing l p = encode_bound (fields_of l) (at_of l) p.
Proof. by destruct l. Qed.
Lemma decode_listing_bound l v : decode_listing l v = decode_bound (fields_of l) (at_of l) v.
Proof. by destruct l. Qed.

Lemma kind_field k : forallb plainb (lit k) = true → (length (lit k) ≤ 24)%nat →
  field_ok ("kind"%string, PStr (lit k)) 40.
Proof. intros Hk Hl. apply field_str; [done|by apply plain_lit|cbn; lia]. Qed.

Lemma listing_fields_ok l : listing_ok l → fields_ok (fields_of l).
Proof.
  intros Hl. unfold fields_ok.
  destruct l; cbn in Hl; destruct_and? Hl;
    [exists [40; 60; 96; 6]%nat|exists [40; 60; 6]%nat|exists [40; 60; 96; 6]%nat|exists [40; 60; 96; 6]%nat
    |exists [40; 60; 96; 6]%nat|exists [40; 96; 60; 6]%nat|exists [96; 40; 60; 6]%nat];
    (split; [|cbn; lia]); repeat (apply Forall2_cons; split); try apply Forall2_nil_2; try done;
    first [exact field_version|apply kind_field; [done|cbn; lia]|apply field_uuid; [done|cbn; lia]
          |apply field_filter; [done|done|cbn; lia]|apply field_opt_uuid; [done|cbn; lia]].
Qed.

Lemma listing_distinct l : distinct (at_of l :: "id"%string :: (fields_of l).*1).
Proof. destruct l; apply (bool_decide_unpack _); vm_compute; exact I. Qed.

(** The value of a field identifies what it was made from. *)
Lemma equals_uuid u u' : (u < 2 ^ 128)%N → (u' < 2 ^ 128)%N →
  equals (PStr (str_of_uuid u)) (PStr (str_of_uuid u')) = true → u = u'.
Proof. cbn. intros Hu Hu' Heq. breflect. by apply str_of_uuid_inj. Qed.
Lemma equals_text o o' : equals (opt_text o) (opt_text o') = true → o = o'.
Proof. destruct o, o'; cbn; try done. intros Heq. breflect. by f_equal. Qed.
Lemma equals_opt_uuid o o' :
  (∀ u, o = Some u → (u < 2 ^ 128)%N) → (∀ u, o' = Some u → (u < 2 ^ 128)%N) →
  equals (opt_uuid o) (opt_uuid o') = true → o = o'.
Proof.
  destruct o as [u|], o' as [u'|]; try done. intros Hu Hu' Heq%equals_uuid; [congruence|by apply Hu|by apply Hu'].
Qed.

Definition kind_of (l : listing) : string :=
  match l with
  | QueueRequests _ _ => "queue-requests" | RequestQueues _ => "request-queue-list"
  | QueueTransitions _ _ => "queue-transitions" | ScheduleList _ _ => "schedule-list"
  | EgressPolicies _ _ => "egress-policy-list" | ScheduleTriggers _ _ => "schedule-triggers"
  | ProjectEvents _ _ => "project-events"
  end.

Lemma listing_fields_inj l l' :
  listing_ok l → listing_ok l' →
  (∀ k v v', (k, v') ∈ fields_of l' → (k, v) ∈ fields_of l → equals v' v = true) → l' = l.
Proof.
  intros Hl Hl' Heq.
  assert (kind_of l' = kind_of l) as Hk.
  { apply lit_inj. apply (bool_decide_eq_true_1 (lit (kind_of l') = lit (kind_of l))).
    apply (Heq "kind"%string (PStr (lit (kind_of l))) (PStr (lit (kind_of l')))); [destruct l'|destruct l]; member. }
  destruct l, l'; cbn in Hk; try discriminate Hk; cbn in Hl, Hl'; f_equal;
    first [apply equals_uuid; [tauto..|]|apply equals_text|apply equals_opt_uuid; [tauto..|]|idtac];
    first [apply (Heq "queue_id"%string); member|apply (Heq "project_id"%string); member
          |apply (Heq "schedule_id"%string); member|apply (Heq "status"%string); member
          |apply (Heq "request_id"%string); member|apply (Heq "outcome"%string); member
          |apply (Heq "event_type"%string); member].
Qed.
Lemma listing_roundtrip l p : listing_ok l → position_ok p →
  ∃ c, encode_listing l p = inr c ∧ (length c ≤ 512)%nat ∧
    decode_listing l (Some c) = inr (Some p) ∧
    ∀ l' r, listing_ok l' → decode_listing l' (Some c) = inr r → l' = l.
Proof.
  intros Hl Hp. destruct (bound_roundtrip (fields_of l) (at_of l) p) as (c & Hc & Hlen & Hdec & Hinj);
    [by apply listing_fields_ok|destruct l; auto|apply listing_distinct|done|].
  exists c. rewrite encode_listing_bound, decode_listing_bound. split_and!; [done..|].
  intros l' r Hl' Hr. rewrite decode_listing_bound in Hr. apply listing_fields_inj; [done..|].
  intros k v v' Hv' Hv. exact (Hinj _ _ _ (k, v') v Hr Hv' Hv).
Qed.

Lemma cursor_roundtrip l p : listing_ok l → position_ok p →
  ∃ c, encode_listing l p = inr c ∧ decode_listing l (Some c) = inr (Some p).
Proof. intros Hl Hp. destruct (listing_roundtrip l p Hl Hp) as (c & Hc & _ & Hd & _). by exists c. Qed.

End codec.

(** ** Following the cursors *)

Section pages.
Context {R : Type} (p : uuid → R → bool) (at_ : R → time) (table : gmap uuid R) (limit : Z).
Hypothesis Hlimit : 1 ≤ limit.

(** The pages a client sees that starts without a cursor and follows the ones it gets. *)
Fixpoint follow (fuel : nat) (cursor : option CursorPosition) : option (list (list (uuid * R))) :=
  match fuel with
  | O => None
  | S fuel =>
      let page := keyset_page p at_ table cursor limit in
      match next_cursor at_ page with
      | None => Some [page.1]
      | Some c => cons page.1 <$> follow fuel (Some c)
      end
  end.

#[local] Abbreviation everything := (order_by (newest_first at_) (select p table)).

#[export] Instance newest_first_trans : Transitive (newest_first (R:=R) at_).
Proof. intros x y z. unfold newest_first. intros. by etrans. Qed.
#[export] Instance newest_first_total : Total (newest_first (R:=R) at_).
Proof. intros x y. unfold newest_first. apply key_le_total. Qed.

Lemma before_spec x id r :
  before (Some (MkPosition (at_ x.2) x.1)) (at_ r) id = true ↔ ¬ newest_first at_ (id, r) x.
Proof.
  unfold before, newest_first, key_le. cbn. rewrite orb_true_iff, andb_true_iff, Z.ltb_lt, Z.eqb_eq, N.ltb_lt. lia.
Qed.

(** Rows are told apart by their key. *)
Lemma same_key (x y : uuid * R) :
  x ∈ map_to_list table → y ∈ map_to_list table →
  newest_first at_ x y → newest_first at_ y x → x = y.
Proof.
  destruct x as [i r], y as [j r']. rewrite !elem_of_map_to_list. unfold newest_first, key_le. cbn.
  intros Hx Hy H1 H2. assert (i = j) as -> by lia. congruence.
Qed.

(** Resuming after the [i]-th row gives the rest of the listing. *)
Lemma resume i x :
  everything !! i = Some x →
  order_by (newest_first at_) (select (λ id r, p id r && before (Some (MkPosition (at_ x.2) x.1)) (at_ r) id) table)
  = drop (S i) everything.
Proof.
  intros Hi. set (q := λ id r, p id r && _).
  pose proof (StronglySorted_merge_sort (newest_first at_) (select p table)) as Hs.
  fold everything in Hs. rewrite <- (take_drop_middle _ _ _ Hi) in Hs.
  assert (∀ y, y ∈ everything → y ∈ map_to_list table) as Htab.
  { intros [k r] [Hy _]%elem_of_order_by%elem_of_select. by apply elem_of_map_to_list. }
  assert (∀ y, y ∈ drop (S i) everything → newest_first at_ x y) as Hafter.
  { intros y Hy. apply StronglySorted_app in Hs as (_ & _ & Hs). inversion Hs as [|? ? _ Hf]; subst.
    by eapply Forall_forall. }
  assert (∀ y, y ∈ take i everything → newest_first at_ y x) as Hbefore.
  { intros y Hy. eapply StronglySorted_app_1_elem_of; [exact Hs|done|left]. }
  assert (NoDup everything) as Hnd by (unfold order_by; rewrite merge_sort_Permutation; apply NoDup_select).
  rewrite <- (take_drop_middle _ _ _ Hi) in Hnd.
  apply NoDup_app in Hnd as (_ & _ & Hnd). apply NoDup_cons in Hnd as [Hx Hnd].
  apply (StronglySorted_unique_strong (newest_first at_)).
  - intros y z Hy Hz. apply same_key.
    + apply elem_of_order_by in Hy. destruct y as [k r]. apply elem_of_select in Hy as [Hy _].
      by apply elem_of_map_to_list.
    + apply Htab. rewrite <- (take_drop (S i)). apply elem_of_app. by right.
  - apply StronglySorted_merge_sort; apply _.
  - apply StronglySorted_app in Hs as (_ & _ & Hs). by inversion Hs.
  - unfold order_by at 1. rewrite merge_sort_Permutation. apply NoDup_Permutation; [apply NoDup_select|done|].
    intros [k r]. rewrite elem_of_select. unfold q. rewrite andb_true_iff, before_spec. split.
    + intros (Hk & Hp & Hb). assert ((k, r) ∈ everything) as Hin by (by apply elem_of_order_by, elem_of_select).
      rewrite <- (take_drop_middle _ _ _ Hi) in Hin. apply elem_of_app in Hin as [Hin|Hin].
      * destruct Hb. by apply Hbefore.
      * apply elem_of_cons in Hin as [<-|Hin]; [|done]. destruct Hb. by right.
    + intros Hin. assert ((k, r) ∈ everything) as Hin'.
      { rewrite <- (take_drop (S i)). apply elem_of_app. by right. }
      apply elem_of_order_by, elem_of_select in Hin' as [Hk Hp]. split_and!; [done..|].
      intros Hle. assert ((k, r) = x) as <-; [|done].
      apply same_key; [by apply elem_of_map_to_list| |done|by apply Hafter].
      apply Htab. by eapply list_elem_of_lookup_2.
Qed.

(** A page from the [i]-th row on. *)
Lemma page_from cursor i :
  order_by (newest_first at_) (select (λ id r, p id r && before cursor (at_ r) id) table) = drop i everything →
  keyset_page p at_ table cursor limit
  = (take (Z.to_nat limit) (drop i everything), bool_decide (Z.to_nat limit < length (drop i everything))%nat).
Proof using Hlimit.
  intros Hd. unfold keyset_page. rewrite Hd, take_take, Nat.min_l by lia. f_equal.
  apply bool_decide_ext. rewrite length_take. lia.
Qed.

Lemma follow_from fuel cursor i :
  order_by (newest_first at_) (select (λ id r, p id r && before cursor (at_ r) id) table) = drop i everything →
  (length (drop i everything) < fuel)%nat →
  ∃ pages, follow fuel cursor = Some pages ∧ concat pages = drop i everything ∧
    Forall (λ pg, (length pg ≤ Z.to_nat limit)%nat) pages ∧
    (∀ k pg, pages !! k = Some pg → (S k < length pages)%nat → length pg = Z.to_nat limit).
Proof using Hlimit.
  revert cursor i. induction fuel as [|fuel IH]; intros cursor i Hd Hf; [lia|]. cbn [follow].
  rewrite (page_from _ _ Hd). set (rest := drop i everything) in *. unfold next_cursor. cbn [fst snd].
  case_bool_decide as Hmore.
  - assert (length (take (Z.to_nat limit) rest) = Z.to_nat limit) as Hlen by (rewrite length_take; lia).
    destruct (last (take (Z.to_nat limit) rest)) as [x|] eqn:Hl; last first.
    { apply last_None in Hl. rewrite Hl in Hlen. cbn in Hlen. lia. }
    cbn [fmap option_fmap option_map].
    rewrite last_lookup, Hlen in Hl. rewrite lookup_take_lt in Hl by lia.
    unfold rest in Hl. rewrite lookup_drop in Hl.
    destruct (IH _ _ (resume _ _ Hl)) as (pages & Hp & Hc & Hall & Hfull).
    { rewrite length_drop. unfold rest in *. rewrite length_drop in *. lia. }
    rewrite Hp. exists (take (Z.to_nat limit) rest :: pages). split_and!.
    + done.
    + cbn [concat]. rewrite Hc. transitivity (take (Z.to_nat limit) rest ++ drop (Z.to_nat limit) rest);
        [|apply take_drop]. f_equal. unfold rest. rewrite drop_drop. f_equal. lia.
    + constructor; [lia|done].
    + intros [|k] pg Hk Hlt; cbn in *; [by simplify_eq|]. apply (Hfull k); [done|lia].
  - exists [take (Z.to_nat limit) rest]. assert (take (Z.to_nat limit) rest = rest) as -> by (apply take_ge; lia).
    split_and!; [done|cbn; by rewrite app_nil_r| |].
    + constructor; [lia|done].
    + intros [|k] pg Hk Hlt; cbn in *; lia.
Qed.
End pages.

(** ** Properties *)

Section properties.
Context `{HmacSha256, CursorKey, PyFloats, UnicodeDecimal, PyRepr, IsoForms}.

(** The cursor of a bound listing ([listing]) is, among the bound listings, good for exactly
    the one it was issued for.  Every position can be encoded, within the length the decoder
    accepts; the same listing with the same filter reads the position back unchanged; any
    other bound listing, resource or filter refuses it as an invalid cursor.  The listings
    whose cursors hold a position only ([decode_cursor]) check no kind: they accept any
    signed cursor with a creation instant and an id. *)
Theorem cursor_bound_to_listing (l l' : listing) (p : CursorPosition)
    (Hl : listing_ok l) (Hl' : listing_ok l') (Hp : position_ok p) :
  ∃ c, encode_listing l p = inr c ∧ (length c ≤ 512)%nat ∧
    decode_listing l (Some c) = inr (Some p) ∧
    (l' ≠ l → decode_listing l' (Some c) = inl invalid_cursor).
Proof.
  destruct (listing_roundtrip l p Hl Hp) as (c & Hc & Hlen & Hdec & Hinj). exists c. split_and!; [done..|].
  intros Hne. destruct (decode_listing l' (Some c)) as [e|r] eqn:E.
  - f_equal. rewrite decode_listing_bound in E. by eapply decode_bound_error.
  - destruct Hne. by eapply Hinj.
Qed.

(** A text that is the canonical encoding of a payload and its signature. *)
Definition authentic (value : pystr) : Prop :=
  (length value ≤ 512)%nat ∧ ∃ payload, value = sign_cursor payload.

Lemma decode_queue_signed value data : decode_queue_cursor value = inr data → authentic value.
Proof.
  unfold decode_queue_cursor. destruct (open_cursor value) as [[payload signed]|] eqn:E; [|done].
  destruct (utf8_decode payload ≫= json_loads) as [[]|]; try done. destruct signed; [|done].
  apply open_signed_inv in E as [-> ?]. intros _. split; [done|]. by exists payload.
Qed.
Lemma open_signed_authentic value v : open_signed value = Some v → authentic value.
Proof.
  unfold open_signed. destruct (open_cursor value) as [[payload []]|] eqn:E; [|done..].
  apply open_signed_inv in E as [-> ?]. intros _. split; [done|]. by exists payload.
Qed.

(** Nothing unsigned is accepted.  Whatever text a client presents, when any
    decoder takes it for a position it is exactly the canonical base64 text, of at most
    512 characters, of some payload followed by the server's own signature of it; a
    text with another encoding of the same bytes, or a changed byte, is refused. *)
Theorem cursor_authentic (value : pystr) :
  (∀ l p, decode_listing l (Some value) = inr (Some p) → authentic value) ∧
  (∀ p, decode_cursor (Some value) = inr (Some p) → authentic value) ∧
  (∀ u n, decode_dataset_item_cursor (Some value) u = inr (Some n) → authentic value) ∧
  (∀ u n, decode_egress_policy_revision_cursor (Some value) u = inr (Some n) → authentic value) ∧
  (∀ u k, decode_key_value_record_cursor (Some value) u = inr (Some k) → authentic value).
Proof.
  split_and!.
  - intros l p. rewrite decode_listing_bound. unfold decode_bound.
    destruct (decode_queue_cursor value) as [e|d] eqn:E; [done|]. intros _. by eapply decode_queue_signed.
  - intros p. unfold decode_cursor. destruct (open_signed value) eqn:E; [|done]. intros _.
    by eapply open_signed_authentic.
  - intros u n. unfold decode_dataset_item_cursor. destruct (open_signed value) eqn:E; [|done]. intros _.
    by eapply open_signed_authentic.
  - intros u n. unfold decode_egress_policy_revision_cursor.
    destruct (decode_queue_cursor value) as [e|d] eqn:E; [done|]. intros _. by eapply decode_queue_signed.
  - intros u k. unfold decode_key_value_record_cursor. destruct (open_signed value) eqn:E; [|done]. intros _.
    by eapply open_signed_authentic.
Qed.

(** The item of an integer field. *)
Lemma int_item k n m : forallb plainb (lit k) = true → (length (dec_str (Z.to_N n)) ≤ 19)%nat → 0 ≤ n →
  (length (lit k) + 23 ≤ m)%nat → ∃ i, plain_item (key_item (k, PInt n)) i ∧ (i ≤ m)%nat.
Proof.
  intros Hk Hd Hn Hm. eexists. split; [constructor; [by apply plain_lit|apply prints_int]|].
  - unfold print_int. rewrite (proj2 (Z.ltb_ge n 0)) by lia.
    replace (Z.abs_N n) with (Z.to_N n) by lia. rewrite decide_True; [done|].
    transitivity 19%nat; [done|]. unfold max_int_digits. lia.
  - cbn [fst]. lia.
Qed.

(** Fields that print within a bound go through a signed cursor. *)
Lemma scalar_roundtrip (l : list (string * pyval)) (ms : list nat) :
  distinct l.*1 → Forall2 (λ f m, ∃ i, plain_item (key_item f) i ∧ (i ≤ m)%nat) l ms → (sum_list ms ≤ 350)%nat →
  ∃ c, encode_queue_cursor (key_item <$> l) = inr c ∧ (length c ≤ 512)%nat ∧
    decode_queue_cursor c = inr (merge_sort item_le (key_item <$> l)) ∧
    open_signed c = Some (PDict (merge_sort item_le (key_item <$> l))).
Proof.
  intros Hnd Hl Hs.
  assert (∃ ns, Forall2 plain_item (key_item <$> l) ns ∧ (sum_list ns ≤ sum_list ms)%nat) as (ns & Hns & Hle).
  { clear -Hl. induction Hl as [|f m l ms (i & Hi & Him) _ (ns & Hns & Hs)]; [by exists []|].
    exists (i :: ns). split; [by constructor|]. cbn. lia. }
  eapply queue_cursor_roundtrip; [by apply key_item_NoDup|done|lia].
Qed.

Lemma field_item f n : field_ok f n → ∃ i, plain_item (key_item f) i ∧ (i ≤ n)%nat.
Proof. intros (m & Hm & Hl & _). by exists m. Qed.

Lemma get_value k v l : distinct l.*1 → (k, v) ∈ l → dict_get k (merge_sort item_le (key_item <$> l)) = v.
Proof. intros Hnd Hin. unfold dict_get. by rewrite (field_value (k, v) l Hnd Hin : dict_find (lit k) _ = _). Qed.
Lemma find_value k v l : distinct l.*1 → (k, v) ∈ l →
  dict_find (lit k) (merge_sort item_le (key_item <$> l)) = Some v.
Proof. intros Hnd Hin. exact (field_value (k, v) l Hnd Hin). Qed.
Lemma equals_str s : equals (PStr s) (PStr s) = true.
Proof. by apply bool_decide_eq_true_2. Qed.
Lemma positive_int n : 1 ≤ n → positive (PInt n) = Some n.
Proof. intros Hn. unfold positive. by rewrite (proj2 (Z.leb_le 1 n)). Qed.

Ltac solve_distinct := apply (bool_decide_unpack _); vm_compute; exact I.
Ltac solve_items :=
  repeat (apply Forall2_cons; split); try apply Forall2_nil_2; try done;
  first [apply field_item; exact field_version|apply field_item, kind_field; [done|cbn; lia]
        |apply field_item, field_uuid; [done|cbn; lia]|apply int_item; [done|done|lia|cbn; lia]|idtac].

Lemma plain_cursor_roundtrip p : position_ok p →
  ∃ c, encode_cursor p = inr c ∧ (length c ≤ 512)%nat ∧ decode_cursor (Some c) = inr (Some p).
Proof.
  intros Hp.
  set (l := all_fields [("v"%string, PInt 1)] "created_at" p).
  assert (distinct l.*1) as Hnd by solve_distinct.
  destruct (scalar_roundtrip l [49; 44; 6]%nat Hnd) as (c & Hc & Hlen & _ & Ho); [|cbn; lia|].
  { repeat (apply Forall2_cons; split); [| | |constructor]; apply field_item; [| |exact field_version].
    - apply field_str; [done|apply plain_iso|]. pose proof (length_isoformat (cp_created_at p)). cbn. lia.
    - apply field_uuid; [done|cbn; lia]. }
  exists c. split_and!; [exact Hc|done|]. unfold decode_cursor. rewrite Ho.
  rewrite (get_value "v" (PInt 1) l Hnd) by member. cbn [equals negb Z.eqb Pos.eqb].
  rewrite (position_of_fields "created_at" p l Hnd Hp); [done|member|member].
Qed.

Lemma item_cursor_roundtrip u n : 1 ≤ n → (length (dec_str (Z.to_N n)) ≤ 19)%nat →
  ∃ c, encode_dataset_item_cursor u n = inr c ∧ (length c ≤ 512)%nat ∧
        decode_dataset_item_cursor (Some c) u = inr (Some n).
Proof.
  intros Hn Hd.
  set (l := [("dataset_id"%string, PStr (str_of_uuid u)); ("kind"%string, PStr (lit "dataset-items"));
             ("sequence"%string, PInt n); ("v"%string, PInt 1)]).
  assert (distinct l.*1) as Hnd by solve_distinct.
  destruct (scalar_roundtrip l [60; 40; 40; 6]%nat Hnd) as (c & Hc & Hlen & _ & Ho); [solve_items|cbn; lia|].
  exists c. unfold encode_dataset_item_cursor. rewrite (proj2 (Z.ltb_ge n 1)) by lia.
  split_and!; [exact Hc|done|]. unfold decode_dataset_item_cursor. rewrite Ho.
  rewrite (find_value "sequence" (PInt n) l Hnd), (get_value "v" (PInt 1) l Hnd),
    (get_value "kind" (PStr (lit "dataset-items")) l Hnd),
    (get_value "dataset_id" (PStr (str_of_uuid u)) l Hnd) by member.
  rewrite !equals_str. cbn [equals negb orb Z.eqb Pos.eqb]. by rewrite positive_int.
Qed.

Lemma revision_cursor_roundtrip u n : 1 ≤ n → (length (dec_str (Z.to_N n)) ≤ 19)%nat →
  ∃ c, encode_egress_policy_revision_cursor u n = inr c ∧ (length c ≤ 512)%nat ∧
        decode_egress_policy_revision_cursor (Some c) u = inr (Some n).
Proof.
  intros Hn Hd.
  set (l := [("kind"%string, PStr (lit "egress-policy-revisions")); ("policy_id"%string, PStr (str_of_uuid u));
             ("revision_number"%string, PInt n); ("v"%string, PInt 1)]).
  assert (distinct l.*1) as Hnd by solve_distinct.
  destruct (scalar_roundtrip l [40; 60; 40; 6]%nat Hnd) as (c & Hc & Hlen & Hdec & _); [solve_items|cbn; lia|].
  exists c. split_and!; [exact Hc|done|]. unfold decode_egress_policy_revision_cursor. rewrite Hdec.
  rewrite (has_exact_keys_perm _ _ (key_item <$> l)) by apply merge_sort_Permutation.
  rewrite (has_exact_keys_refl l : has_exact_keys ["kind"; "policy_id"; "revision_number"; "v"]%string (key_item <$> l) = true).
  rewrite (get_value "v" (PInt 1) l Hnd), (get_value "kind" (PStr (lit "egress-policy-revisions")) l Hnd),
    (get_value "policy_id" (PStr (str_of_uuid u)) l Hnd), (get_value "revision_number" (PInt n) l Hnd) by member.
  rewrite !equals_str. cbn [equals negb orb Z.eqb Pos.eqb]. by rewrite positive_int.
Qed.

Lemma key_cursor_roundtrip u key : Forall plain key → (1 ≤ length key ≤ 256)%nat →
  ∃ c, encode_key_value_record_cursor u key = inr c ∧ (length c ≤ 512)%nat ∧
        decode_key_value_record_cursor (Some c) u = inr (Some key).
Proof.
  intros Hk Hkl.
  set (l := [("kind"%string, PStr (lit "key-value-records")); ("key"%string, PStr key);
             ("store_id"%string, PStr (str_of_uuid u)); ("v"%string, PInt 1)]).
  assert (distinct l.*1) as Hnd by solve_distinct.
  destruct (scalar_roundtrip l [27; 265; 50; 6]%nat Hnd) as (c & Hc & Hlen & _ & Ho); [|cbn; lia|].
  { repeat (apply Forall2_cons; split); [| | | |constructor]; apply field_item; [| | |exact field_version].
    - apply field_str; [done|by apply plain_lit|cbn; lia].
    - apply field_str; [done|done|cbn; lia].
    - apply field_uuid; [done|cbn; lia]. }
  exists c. split_and!; [exact Hc|done|]. unfold decode_key_value_record_cursor. rewrite Ho.
  rewrite (find_value "key" (PStr key) l Hnd), (get_value "v" (PInt 1) l Hnd),
    (get_value "kind" (PStr (lit "key-value-records")) l Hnd),
    (get_value "store_id" (PStr (str_of_uuid u)) l Hnd) by member.
  rewrite !equals_str. cbn [equals negb orb Z.eqb Pos.eqb]. destruct key; [cbn in Hkl; lia|done].
Qed.

(** The cursors with a shape of their own are read back unchanged too: the plain
    position, the sequence number of a dataset item, the number of a policy revision
    (both up to 19 digits) and the key of a record (up to 256 plain characters), each
    within the length the decoder accepts. *)
Theorem cursor_scalar_roundtrip (p : CursorPosition) (u : uuid) (n : Z) (key : pystr)
    (Hp : position_ok p) (Hn : 1 ≤ n)
    (Hd : (length (dec_str (Z.to_N n)) ≤ 19)%nat)
    (Hk : Forall plain key) (Hkl : (1 ≤ length key ≤ 256)%nat) :
  (∃ c, encode_cursor p = inr c ∧ (length c ≤ 512)%nat ∧ decode_cursor (Some c) = inr (Some p)) ∧
  (∃ c, encode_dataset_item_cursor u n = inr c ∧ (length c ≤ 512)%nat ∧
        decode_dataset_item_cursor (Some c) u = inr (Some n)) ∧
  (∃ c, encode_egress_policy_revision_cursor u n = inr c ∧ (length c ≤ 512)%nat ∧
        decode_egress_policy_revision_cursor (Some c) u = inr (Some n)) ∧
  (∃ c, encode_key_value_record_cursor u key = inr c ∧ (length c ≤ 512)%nat ∧
        decode_key_value_record_cursor (Some c) u = inr (Some key)).
Proof.
  split_and!; [by apply plain_cursor_roundtrip|by apply item_cursor_roundtrip
    |by apply revision_cursor_roundtrip|by apply key_cursor_roundtrip].
Qed.
End properties.
