(* ===== verification/Listings.v ===== *)
(** The listings of the API: the keyset queries of the services and the routes that
    read a cursor, run the query and issue the next cursor. *)

From S2P Require Import Prelude PyVal Json PyUuid PyTime Url QueueProtocol EventProtocol.
From S2P Require Import Idempotency Base64 Pagination PaginationSpec RequestQueue Webhooks.
From S2P Require Import Schedules.
(** A table kept as the list of its rows, by primary key. *)
Definition by_id {R} (id : R → uuid) (l : list R) : gmap uuid R := list_to_map ((λ r, (id r, r)) <$> l).

(** An optional filter on a column. *)
Definition wanted {A} `{EqDecision A} (filter : option A) (a : A) : bool :=
  match filter with Some x => bool_decide (a = x) | None => true end.

(** ** Service queries *)

Definition list_schedules {RS} (s : Schedules.db RS) (project_id : uuid) (status : option schedule_status)
    (cursor : option CursorPosition) (limit : Z) : list (uuid * Schedule) * bool :=
  keyset_page (λ _ r, bool_decide (sc_project_id r = project_id) && wanted status (sc_status r))
    sc_created_at (schedules s) cursor limit.

Definition list_schedule_triggers {RS} (s : Schedules.db RS) (schedule_id : uuid)
    (outcome : option trigger_outcome) (cursor : option CursorPosition) (limit : Z)
    : list (uuid * ScheduleTrigger) * bool :=
  keyset_page (λ _ g, bool_decide (tg_schedule_id g = schedule_id) && wanted outcome (tg_outcome g))
    tg_created_at (triggers s) cursor limit.

Definition list_request_queues (s : RequestQueue.db) (project_id : uuid)
    (cursor : option CursorPosition) (limit : Z) : list (uuid * RequestQueue) * bool :=
  keyset_page (λ _ q, bool_decide (q_project_id q = project_id)) q_created_at (queues s) cursor limit.

Definition list_queue_transitions (s : RequestQueue.db) (queue_id : uuid) (request_id : option uuid)
    (cursor : option CursorPosition) (limit : Z) : list (uuid * RequestQueueTransition) * bool :=
  keyset_page (λ _ t, bool_decide (RequestQueue.t_queue_id t = queue_id)
                      && wanted request_id (RequestQueue.t_request_id t))
    RequestQueue.t_created_at (by_id RequestQueue.t_id (RequestQueue.transitions s)) cursor limit.

Definition list_webhook_deliveries (s : Webhooks.db) (project_id : uuid) (status : option delivery_status)
    (destination_id : option uuid) (cursor : option CursorPosition) (limit : Z)
    : list (uuid * WebhookDeliveryAttempt) * bool :=
  keyset_page (λ _ w, bool_decide (w_project_id w = project_id) && wanted status (w_status w)
                      && wanted destination_id (w_destination_id w))
    w_created_at (deliveries s) cursor limit.

Definition list_webhook_destinations (s : Webhooks.db) (project_id : uuid)
    (cursor : option CursorPosition) (limit : Z) : list (uuid * WebhookDestination) * bool :=
  keyset_page (λ _ d, bool_decide (d_project_id d = project_id)) d_created_at (destinations s) cursor limit.

Definition list_events (s : Webhooks.db) (project_id : uuid) (event_type : option string)
    (cursor : option CursorPosition) (limit : Z) : exn + list (uuid * Event) * bool :=
  if negb ((1 <=? limit) && (limit <=? 100))
  then inl (ValueError "Event page size must be between 1 and 100")
  else if match event_type with
          | Some t => match EVENT_DEFINITIONS t with Some _ => false | None => true end
          | None => false
          end
  then inl (ApiError 422 "EVENT_TYPE_INVALID")
  else inr (keyset_page (λ _ e, bool_decide (ev_project_id e = project_id) && wanted event_type (ev_event_type e))
              ev_occurred_at (events s) cursor limit).

(** ** Routes *)

Section routes.
Context `{HmacSha256, CursorKey, PyFloats, UnicodeDecimal, PyRepr, IsoForms}.

(** [if has_more and rows: next_cursor = encode_*_cursor(final ...)]. *)
Definition issue {R} (encode : CursorPosition → exn + pystr) (at_ : R → time)
    (page : list (uuid * R) * bool) : exn + (list (uuid * R) * option pystr) :=
  match next_cursor at_ page with
  | None => inr (page.1, None)
  | Some p => match encode p with inl e => inl e | inr c => inr (page.1, Some c) end
  end.

Definition schedule_status_text (st : schedule_status) : pystr :=
  lit match st with Schedules.ACTIVE => "ACTIVE" | PAUSED => "PAUSED" | COMPLETED => "COMPLETED" end.
Definition outcome_text (o : trigger_outcome) : pystr :=
  lit match o with FIRED => "FIRED" | SKIPPED => "SKIPPED" | Schedules.FAILED => "FAILED" end.
Definition request_status_text (st : request_status) : pystr :=
  lit match st with
      | RequestQueue.PENDING => "PENDING" | RequestQueue.CLAIMED => "CLAIMED"
      | HANDLED => "HANDLED" | RequestQueue.FAILED => "FAILED"
      end.
Definition delivery_status_text (st : delivery_status) : pystr :=
  lit match st with
      | Webhooks.PENDING => "PENDING" | Webhooks.CLAIMED => "CLAIMED" | RETRY_WAIT => "RETRY_WAIT"
      | SUCCEEDED => "SUCCEEDED" | DEAD_LETTERED => "DEAD_LETTERED" | CANCELLED => "CANCELLED"
      end.

Definition list_project_schedules {RS} (s : Schedules.db RS) (project_id : uuid) (cursor : option pystr)
    (limit : Z) (status : option schedule_status) : exn + (list (uuid * Schedule) * option pystr) :=
  match normalize_limit limit with
  | inl e => inl e
  | inr normalized =>
      match decode_schedule_list_cursor cursor project_id (schedule_status_text <$> status) with
      | inl e => inl e
      | inr position =>
          issue (encode_schedule_list_cursor project_id (schedule_status_text <$> status)) sc_created_at
            (list_schedules s project_id status position normalized)
      end
  end.

Definition list_triggers {RS} (s : Schedules.db RS) (schedule_id : uuid) (cursor : option pystr)
    (limit : Z) (outcome : option trigger_outcome) : exn + (list (uuid * ScheduleTrigger) * option pystr) :=
  match normalize_limit limit with
  | inl e => inl e
  | inr normalized =>
      match decode_schedule_trigger_cursor cursor schedule_id (outcome_text <$> outcome) with
      | inl e => inl e
      | inr position =>
          issue (encode_schedule_trigger_cursor schedule_id (outcome_text <$> outcome)) tg_created_at
            (list_schedule_triggers s schedule_id outcome position normalized)
      end
  end.

Definition list_queues (s : RequestQueue.db) (project_id : uuid) (cursor : option pystr) (limit : Z)
    : exn + (list (uuid * RequestQueue) * option pystr) :=
  match normalize_limit limit with
  | inl e => inl e
  | inr normalized =>
      match decode_request_queue_list_cursor cursor project_id with
      | inl e => inl e
      | inr position =>
          issue (encode_request_queue_list_cursor project_id) q_created_at
            (list_request_queues s project_id position normalized)
      end
  end.

(** Here the cursor is read before the limit is checked. *)
Definition list_requests (s : RequestQueue.db) (queue_id : uuid) (cursor : option pystr) (limit : Z)
    (state : option request_status) : exn + (list (uuid * RequestQueueRequest) * option pystr) :=
  match decode_queue_request_cursor cursor queue_id (request_status_text <$> state) with
  | inl e => inl e
  | inr position =>
      match normalize_limit limit with
      | inl e => inl e
      | inr normalized =>
          issue (encode_queue_request_cursor queue_id (request_status_text <$> state)) r_created_at
            (keyset_page (λ _ r, bool_decide (r_queue_id r = queue_id) && wanted state (r_status r))
               r_created_at (requests s) position normalized)
      end
  end.

Definition list_transitions (s : RequestQueue.db) (queue_id : uuid) (cursor : option pystr) (limit : Z)
    (queue_request_id : option uuid) : exn + (list (uuid * RequestQueueTransition) * option pystr) :=
  match normalize_limit limit with
  | inl e => inl e
  | inr normalized =>
      match decode_queue_transition_cursor cursor queue_id queue_request_id with
      | inl e => inl e
      | inr position =>
          issue (encode_queue_transition_cursor queue_id queue_request_id) RequestQueue.t_created_at
            (list_queue_transitions s queue_id queue_request_id position normalized)
      end
  end.

(** [Query(ge=1, le=100)]. *)
Definition limit_100 (limit : Z) : exn + Z :=
  if negb ((1 <=? limit) && (limit <=? 100)) then inl ValidationError else inr limit.

Definition list_project_events (s : Webhooks.db) (project_id : uuid) (cursor : option pystr) (limit : Z)
    (event_type : option string) : exn + (list (uuid * Event) * option pystr) :=
  match limit_100 limit with
  | inl e => inl e
  | inr limit =>
      match decode_event_cursor cursor project_id (lit <$> event_type) with
      | inl e => inl e
      | inr position =>
          match list_events s project_id event_type position limit with
          | inl e => inl e
          | inr page => issue (encode_event_cursor project_id (lit <$> event_type)) ev_occurred_at page
          end
      end
  end.

(** [_cursor_kind]. *)
Definition cursor_kind (status : option delivery_status) (destination_id : option uuid) : pystr :=
  lit "webhook-deliveries:" ++ default (lit "*") (delivery_status_text <$> status) ++ lit ":"
  ++ default (lit "*") (str_of_uuid <$> destination_id).

Definition list_deliveries (s : Webhooks.db) (project_id : uuid) (cursor : option pystr) (limit : Z)
    (status : option delivery_status) (destination_id : option uuid)
    : exn + (list (uuid * WebhookDeliveryAttempt) * option pystr) :=
  match limit_100 limit with
  | inl e => inl e
  | inr limit =>
      let kind := cursor_kind status destination_id in
      match decode_event_cursor cursor project_id (Some kind) with
      | inl e => inl e
      | inr position =>
          issue (encode_event_cursor project_id (Some kind)) w_created_at
            (list_webhook_deliveries s project_id status destination_id position limit)
      end
  end.

Definition list_destinations (s : Webhooks.db) (project_id : uuid) (cursor : option pystr) (limit : Z)
    : exn + (list (uuid * WebhookDestination) * option pystr) :=
  match limit_100 limit with
  | inl e => inl e
  | inr limit =>
      match decode_event_cursor cursor project_id (Some (lit "webhook-destinations")) with
      | inl e => inl e
      | inr position =>
          issue (encode_event_cursor project_id (Some (lit "webhook-destinations"))) d_created_at
            (list_webhook_destinations s project_id position limit)
      end
  end.
End routes.
