(* ===== verification/ListingsSpec.v ===== *)
(** A client that follows the cursors of a listing, while the table does not change, sees
    every row once, in order. *)

From S2P Require Import Prelude PyVal Json PyUuid PyTime Url QueueProtocol EventProtocol.
From S2P Require Import Idempotency Base64 Pagination PaginationSpec RequestQueue Webhooks.
From S2P Require Import Schedules Listings.
(** ** Browsing *)

(** Requests to a listing route until it issues no further cursor. *)
Fixpoint browse {R} (route : option pystr → exn + (list (uuid * R) * option pystr)) (fuel : nat)
    (cursor : option pystr) : option (list (list (uuid * R))) :=
  match fuel with
  | O => None
  | S fuel =>
      match route cursor with
      | inl _ => None
      | inr (rows, None) => Some [rows]
      | inr (rows, Some c) => cons rows <$> browse route fuel (Some c)
      end
  end.

(** The rows a primary key and a timestamp column can hold. *)
Definition rows_ok {R} (at_ : R → time) (table : gmap uuid R) : Prop :=
  ∀ id r, table !! id = Some r → position_ok (MkPosition (at_ r) id).

(** The pages are those of the whole listing, newest first, all but the last full. *)
Definition enumerates {R} (p : uuid → R → bool) (at_ : R → time) (table : gmap uuid R) (limit : Z)
    (route : option pystr → exn + (list (uuid * R) * option pystr)) : Prop :=
  ∃ pages, browse route (S (length (select p table))) None = Some pages ∧
    concat pages = order_by (newest_first at_) (select p table) ∧
    Forall (λ pg, (length pg ≤ Z.to_nat limit)%nat) pages ∧
    (∀ k pg, pages !! k = Some pg → (S k < length pages)%nat → length pg = Z.to_nat limit).

Section browsing.
Context `{HmacSha256, CursorKey, PyFloats, UnicodeDecimal, PyRepr, IsoForms}.

(** A route that resumes at the position its cursor holds and issues the next one. *)
Definition keyset_route {R} (l : listing) (p : uuid → R → bool) (at_ : R → time) (table : gmap uuid R)
    (limit : Z) (route : option pystr → exn + (list (uuid * R) * option pystr)) : Prop :=
  ∀ cursor pos, decode_listing l cursor = inr pos →
    route cursor = issue (encode_listing l) at_ (keyset_page p at_ table pos limit).

Lemma decode_none l : decode_listing l None = inr None.
Proof. by destruct l. Qed.

Lemma page_rows {R} (p : uuid → R → bool) at_ table pos limit x :
  x ∈ (keyset_page p at_ table pos limit).1 → table !! x.1 = Some x.2.
Proof.
  unfold keyset_page. cbn. intros Hx. rewrite take_take in Hx. apply elem_of_take in Hx as (i & Hi & _).
  apply list_elem_of_lookup_2, elem_of_order_by in Hi. destruct x as [k r].
  by apply elem_of_select in Hi as [Hi _].
Qed.

Lemma browse_follow {R} l (p : uuid → R → bool) at_ table limit route fuel cursor pos :
  listing_ok l → rows_ok at_ table → keyset_route l p at_ table limit route →
  decode_listing l cursor = inr pos →
  browse route fuel cursor = follow p at_ table limit fuel pos.
Proof.
  intros Hl Hrows Hroute. revert cursor pos. induction fuel as [|fuel IH]; intros cursor pos Hc; [done|].
  cbn [browse follow]. rewrite (Hroute _ _ Hc). unfold issue.
  destruct (next_cursor at_ (keyset_page p at_ table pos limit)) as [q|] eqn:Hq; [|done].
  assert (position_ok q) as Hpos.
  { unfold next_cursor in Hq. case_match; [|done]. apply fmap_Some in Hq as (x & Hx & ->).
    apply Hrows. eapply page_rows. apply last_Some in Hx as [l0 Hx]. rewrite Hx. apply elem_of_app. right. left. }
  destruct (cursor_roundtrip l q Hl Hpos) as (c & -> & Hdec). by rewrite (IH _ _ Hdec).
Qed.

Lemma keyset_enumerates {R} l (p : uuid → R → bool) at_ table limit route :
  1 ≤ limit → listing_ok l → rows_ok at_ table → keyset_route l p at_ table limit route →
  enumerates p at_ table limit route.
Proof.
  intros Hlim Hl Hrows Hroute.
  destruct (follow_from p at_ table limit Hlim (S (length (select p table))) None 0) as (pages & Hf & Hrest).
  - rewrite drop_0. f_equal. apply select_ext. intros id r. cbn. by rewrite andb_true_r.
  - rewrite drop_0. unfold order_by. rewrite merge_sort_Permutation. lia.
  - exists pages. rewrite drop_0 in Hrest. split; [|done].
    rewrite (browse_follow l p at_ table limit _ _ _ None) by (done || apply decode_none). done.
Qed.

Lemma word_filter s : forallb plainb (lit s) && (length (lit s) <=? 80)%nat = true → filter_ok (Some (lit s)).
Proof. intros [Hp Hl]%andb_prop. split; [by apply plain_lit|by apply Nat.leb_le]. Qed.
Lemma schedule_status_filter st : filter_ok (schedule_status_text <$> st).
Proof. destruct st as [[]|]; [by apply word_filter..|done]. Qed.
Lemma outcome_filter o : filter_ok (outcome_text <$> o).
Proof. destruct o as [[]|]; [by apply word_filter..|done]. Qed.
Lemma request_status_filter st : filter_ok (request_status_text <$> st).
Proof. destruct st as [[]|]; [by apply word_filter..|done]. Qed.
Lemma event_type_filter t d : EVENT_DEFINITIONS t = Some d → filter_ok (Some (lit t)).
Proof.
  unfold EVENT_DEFINITIONS. repeat case_match; try done; subst; intros _; by apply word_filter.
Qed.
Lemma cursor_kind_filter st did : filter_ok (Some (cursor_kind st did)).
Proof.
  unfold cursor_kind, filter_ok. split.
  - repeat (apply Forall_app; split); [by apply plain_lit| |by apply plain_lit|].
    + destruct st as [[]|]; by apply plain_lit.
    + destruct did; [apply plain_uuid|by apply plain_lit].
  - assert (length (default (lit "*") (delivery_status_text <$> st)) ≤ 13)%nat
      by (destruct st as [[]|]; apply Nat.leb_le; reflexivity).
    assert (length (default (lit "*") (str_of_uuid <$> did)) ≤ 36)%nat.
    { destruct did as [u|]; [|apply Nat.leb_le; reflexivity].
      change (length (str_of_uuid u) ≤ 36)%nat. rewrite length_str_of_uuid. lia. }
    rewrite !length_app. change (length (lit "webhook-deliveries:")) with 19%nat.
    change (length (lit ":")) with 1%nat. lia.
Qed.

Lemma limit_200 limit : 1 ≤ limit ≤ 200 → normalize_limit limit = inr limit.
Proof. intros Hl. unfold normalize_limit. by rewrite !(proj2 (Z.leb_le _ _)) by lia. Qed.
Lemma limit_in limit : 1 ≤ limit ≤ 100 → limit_100 limit = inr limit.
Proof. intros Hl. unfold limit_100. by rewrite !(proj2 (Z.leb_le _ _)) by lia. Qed.

(** C40: following the cursors enumerates a listing.  For the eight listings of schedules,
    schedule triggers, request queues, queue requests, queue transitions, webhook
    deliveries, webhook destinations and events, a client that starts without a cursor and
    follows each cursor it is given, with the same filter and the same page size, while the
    table does not change, is answered without error, stops, and has then seen every
    matching row exactly once, newest first, in pages that are all full but the last.  Page
    sizes are those the routes accept: up to 200, and up to 100 for the last three. *)
Theorem listings_enumerate {RS} (sc : Schedules.db RS) (rq : RequestQueue.db) (wh : Webhooks.db)
    (owner : uuid) (limit : Z) (st : option schedule_status) (oc : option trigger_outcome)
    (rs : option request_status) (req : option uuid) (ds : option delivery_status)
    (did : option uuid) (et : option string)
    (Hlimit : 1 ≤ limit ≤ 200) (Howner : (owner < 2 ^ 128)%N)
    (Hreq : ∀ u, req = Some u → (u < 2 ^ 128)%N)
    (Het : match et with Some t => is_Some (EVENT_DEFINITIONS t) | None => True end)
    (Hrows1 : rows_ok sc_created_at (schedules sc)) (Hrows2 : rows_ok tg_created_at (triggers sc))
    (Hrows3 : rows_ok q_created_at (queues rq)) (Hrows4 : rows_ok r_created_at (requests rq))
    (Hrows5 : rows_ok RequestQueue.t_created_at (by_id RequestQueue.t_id (RequestQueue.transitions rq)))
    (Hrows6 : rows_ok w_created_at (deliveries wh)) (Hrows7 : rows_ok d_created_at (destinations wh))
    (Hrows8 : rows_ok ev_occurred_at (events wh)) :
  enumerates (λ _ r, bool_decide (sc_project_id r = owner) && wanted st (sc_status r)) sc_created_at
    (schedules sc) limit (λ c, list_project_schedules sc owner c limit st) ∧
  enumerates (λ _ g, bool_decide (tg_schedule_id g = owner) && wanted oc (tg_outcome g)) tg_created_at
    (triggers sc) limit (λ c, list_triggers sc owner c limit oc) ∧
  enumerates (λ _ q, bool_decide (q_project_id q = owner)) q_created_at
    (queues rq) limit (λ c, list_queues rq owner c limit) ∧
  enumerates (λ _ r, bool_decide (r_queue_id r = owner) && wanted rs (r_status r)) r_created_at
    (requests rq) limit (λ c, list_requests rq owner c limit rs) ∧
  enumerates (λ _ t, bool_decide (RequestQueue.t_queue_id t = owner) && wanted req (RequestQueue.t_request_id t))
    RequestQueue.t_created_at (by_id RequestQueue.t_id (RequestQueue.transitions rq)) limit
    (λ c, list_transitions rq owner c limit req) ∧
  (limit ≤ 100 →
  enumerates (λ _ w, bool_decide (w_project_id w = owner) && wanted ds (w_status w)
                     && wanted did (w_destination_id w)) w_created_at
    (deliveries wh) limit (λ c, list_deliveries wh owner c limit ds did) ∧
  enumerates (λ _ d, bool_decide (d_project_id d = owner)) d_created_at
    (destinations wh) limit (λ c, list_destinations wh owner c limit) ∧
  enumerates (λ _ e, bool_decide (ev_project_id e = owner) && wanted et (ev_event_type e)) ev_occurred_at
    (events wh) limit (λ c, list_project_events wh owner c limit et)).
Proof.
  pose proof (limit_200 limit Hlimit) as Hn. split_and!; [..|intros Hmax; destruct Hlimit as [Hmin _]; pose proof (limit_in limit (conj Hmin Hmax)) as Hq; split_and!].
  - apply (keyset_enumerates (ScheduleList owner (schedule_status_text <$> st))); [lia| |done|].
    { split; [done|apply schedule_status_filter]. }
    intros c pos Hc. cbn [decode_listing] in Hc. unfold list_project_schedules. by rewrite Hn, Hc.
  - apply (keyset_enumerates (ScheduleTriggers owner (outcome_text <$> oc))); [lia| |done|].
    { split; [done|apply outcome_filter]. }
    intros c pos Hc. cbn [decode_listing] in Hc. unfold list_triggers. by rewrite Hn, Hc.
  - apply (keyset_enumerates (RequestQueues owner)); [lia|done|done|].
    intros c pos Hc. cbn [decode_listing] in Hc. unfold list_queues. by rewrite Hn, Hc.
  - apply (keyset_enumerates (QueueRequests owner (request_status_text <$> rs))); [lia| |done|].
    { split; [done|apply request_status_filter]. }
    intros c pos Hc. cbn [decode_listing] in Hc. unfold list_requests. by rewrite Hc, Hn.
  - apply (keyset_enumerates (QueueTransitions owner req)); [lia|done|done|].
    intros c pos Hc. cbn [decode_listing] in Hc. unfold list_transitions. by rewrite Hn, Hc.
  - apply (keyset_enumerates (ProjectEvents owner (Some (cursor_kind ds did)))); [lia| |done|].
    { split; [done|apply cursor_kind_filter]. }
    intros c pos Hc. cbn [decode_listing] in Hc. unfold list_deliveries. rewrite Hq. cbv zeta. by rewrite Hc.
  - apply (keyset_enumerates (ProjectEvents owner (Some (lit "webhook-destinations")))); [lia| |done|].
    { split; [done|by apply word_filter]. }
    intros c pos Hc. cbn [decode_listing] in Hc. unfold list_destinations. by rewrite Hq, Hc.
  - apply (keyset_enumerates (ProjectEvents owner (lit <$> et))); [lia| |done|].
    { split; [done|]. destruct et as [t|]; [|done]. destruct Het as [d Hd]. by eapply event_type_filter. }
    intros c pos Hc. cbn [decode_listing] in Hc. unfold list_project_events, list_events. rewrite Hq, Hc.
    rewrite !(proj2 (Z.leb_le _ _)) by lia. cbn [negb andb].
    destruct et as [t|]; [|done]. destruct Het as [d ->]. done.
Qed.
End browsing.

(** ** A concrete listing *)

Module Concrete.
#[local] Instance stub_hmac : HmacSha256.
Proof.
  refine {| hmac_sha256 key m := take 32 (((λ b, b mod 256)%N <$> m) ++ repeat 0%N 32) |}.
  - intros key m. rewrite length_take, length_app, repeat_length. lia.
  - intros key m. apply Forall_take, Forall_app. split.
    + apply Forall_fmap, Forall_forall. intros b _. unfold is_byte. cbn. apply N.mod_lt. done.
    + apply Forall_forall. intros b Hb%list_elem_of_In%repeat_spec. subst. done.
Defined.
#[local] Instance stub_key : CursorKey := [1%N].
#[local] Instance plain_floats : PyFloats := λ r, FFin r.
#[local] Instance no_decimals : UnicodeDecimal := λ _, None.
#[local] Instance no_repr : PyRepr := λ _, [].
#[local] Instance no_forms : IsoForms := λ _, None.

Definition queue (created : time) : RequestQueue := MkQueue 1 7 (lit "q") 0 0 0 0 3 1 created created.
Definition rq : RequestQueue.db :=
  RequestQueue.MkDb {[1%N := queue 10; 2%N := queue 20; 3%N := queue 20]} ∅ ∅ [] [] ∅ 0.
Definition sc : Schedules.db () := Schedules.MkDb ∅ ∅ ∅ ∅ [] () [] 0.
Definition wh : Webhooks.db := Webhooks.MkDb ∅ ∅ ∅ [] ∅ [] [] 0.

Lemma rows_empty {R} (at_ : R → time) : rows_ok at_ ∅.
Proof. intros id r. by rewrite lookup_empty. Qed.
Lemma rows_rq : rows_ok q_created_at (queues rq).
Proof.
  intros id q Hq. cbn in Hq. repeat (apply lookup_insert_Some in Hq as [[<- <-]|[_ Hq]];
    [split; vm_compute; reflexivity|]). apply lookup_singleton_Some in Hq as [<- <-].
  split; vm_compute; reflexivity.
Qed.
Lemma listings_enumerate_witness :
  ∃ pages, browse (λ c, list_queues rq 7 c 1) 4 None = Some pages ∧
    concat pages = [(3%N, queue 20); (2%N, queue 20); (1%N, queue 10)].
Proof.
  assert (Hl : 1 ≤ 1 ≤ 200) by lia. assert (Ho : (7 < 2 ^ 128)%N) by (vm_compute; reflexivity).
  assert (Hr : ∀ u : N, None = Some u → (u < 2 ^ 128)%N) by discriminate.
  destruct (proj1 (proj2 (proj2 (listings_enumerate sc rq wh 7 1 None None None None None None None
    Hl Ho Hr I (rows_empty _) (rows_empty _) rows_rq (rows_empty _) (rows_empty _) (rows_empty _)
    (rows_empty _) (rows_empty _))))) as (pages & Hp & Hc & _).
  exact (ex_intro _ pages (conj Hp Hc)).
Defined.

Lemma cursor_bound_to_listing_witness :
  decode_listing (RequestQueues 8) (Some (sign_cursor [])) = inl invalid_cursor ∧
  ∃ c, encode_listing (RequestQueues 7) (MkPosition 10 1) = inr c ∧
       decode_listing (RequestQueues 8) (Some c) = inl invalid_cursor.
Proof.
  assert (Hl : listing_ok (RequestQueues 7)) by (vm_compute; reflexivity).
  assert (Hl' : listing_ok (RequestQueues 8)) by (vm_compute; reflexivity).
  assert (Hp : position_ok (MkPosition 10 1)) by (split; vm_compute; reflexivity).
  assert (Hne : RequestQueues 8 ≠ RequestQueues 7) by discriminate.
  split; [vm_compute; reflexivity|].
  destruct (cursor_bound_to_listing (RequestQueues 7) (RequestQueues 8) (MkPosition 10 1) Hl Hl' Hp)
    as (c & Hc & _ & _ & Hr).
  exact (ex_intro _ c (conj Hc (Hr Hne))).
Defined.

(** The listings that bind nothing into their cursors (agents, versions, runs, builds,
    datasets, storage, execution, key-value stores) accept the cursor of any bound listing
    ordered by creation. *)
Example unbound_listings_accept_bound_cursors :
  match encode_listing (RequestQueues 7) (MkPosition 10 1) with
  | inr c => decode_cursor (Some c) = inr (Some (MkPosition 10 1))
  | inl _ => False
  end.
Proof. vm_compute. reflexivity. Qed.

Lemma cursor_scalar_roundtrip_witness :
  ∃ c, encode_key_value_record_cursor 9 (lit "page:1") = inr c ∧
       decode_key_value_record_cursor (Some c) 9 = inr (Some (lit "page:1")).
Proof.
  assert (Hp : position_ok (MkPosition 10 1)) by (split; vm_compute; reflexivity).
  assert (Hn : 1 ≤ 5) by lia. assert (Hd : (length (dec_str 5) ≤ 19)%nat) by (vm_compute; lia).
  assert (Hk : Forall plain (lit "page:1")) by (by apply plain_lit).
  assert (Hkl : (1 ≤ length (lit "page:1") ≤ 256)%nat) by (vm_compute; lia).
  destruct (proj2 (proj2 (proj2 (cursor_scalar_roundtrip (MkPosition 10 1) 9 5 (lit "page:1") Hp Hn Hd Hk Hkl))))
    as (c & Hc & _ & Hdec).
  exact (ex_intro _ c (conj Hc Hdec)).
Defined.

Lemma cursor_authentic_witness :
  ∃ c, encode_listing (RequestQueues 7) (MkPosition 10 1) = inr c ∧ authentic c.
Proof.
  assert (Hl : listing_ok (RequestQueues 7)) by (vm_compute; reflexivity).
  assert (Hp : position_ok (MkPosition 10 1)) by (split; vm_compute; reflexivity).
  destruct (cursor_roundtrip (RequestQueues 7) (MkPosition 10 1) Hl Hp) as (c & Hc & Hd).
  exact (ex_intro _ c (conj Hc (proj1 (cursor_authentic c) _ _ Hd))).
Defined.
End Concrete.
