(* ===== verification/RunEvents.v ===== *)
(** Run events (src/apps/api/app/services/runs.py): the sanitising of event payloads
    and the per-run event log [append_run_event] extends. *)

From S2P Require Import Prelude PyVal Json PyUuid Pagination EventProtocol.

Definition PERSISTED_EVENT_TYPES : list string :=
  ["run.status"; "run.log"; "run.metric"; "run.warning"; "run.completed"; "run.failed"].
Definition SENSITIVE_KEY_PARTS : list string :=
  ["authorization"; "cookie"; "credential"; "password"; "secret"; "token"; "api_key"; "apikey"].
Definition MAX_RUN_EVENT_BYTES : nat := N.to_nat 65536.
(** The bound of the slice [value[:1000]]. *)
Definition MAX_EVENT_LIST : nat := N.to_nat 1000.
Definition MAX_EVENT_STRING_LENGTH : nat := N.to_nat 16384.

(** ** [ANSI_ESCAPE.sub("", value)] *)

Definition in_class (lo hi c : N) : bool := (lo <=? c)%N && (c <=? hi)%N.

(** The length of the longest prefix in a class, and what follows it. *)
Fixpoint class_run (lo hi : N) (s : pystr) : nat * pystr :=
  match s with
  | c :: t => if in_class lo hi c then let '(n, r) := class_run lo hi t in (S n, r) else (O, s)
  | [] => (O, [])
  end.

(** What follows the escape character in a match of the pattern: its length. *)
Definition ansi_match (s : pystr) : option nat :=
  match s with
  | [] => None
  | c :: t =>
      if in_class 64 90 c || in_class 92 95 c then Some 1%nat
      else if (c =? 91)%N then
        let '(n, t) := class_run 48 63 t in
        let '(m, t) := class_run 32 47 t in
        match t with
        | f :: _ => if in_class 64 126 f then Some (2 + n + m)%nat else None
        | [] => None
        end
      else None
  end.

Fixpoint ansi_sub (skip : nat) (s : pystr) : pystr :=
  match s with
  | [] => []
  | c :: t =>
      match skip with
      | S skip => ansi_sub skip t
      | O => if (c =? 27)%N
             then match ansi_match t with Some n => ansi_sub n t | None => c :: ansi_sub O t end
             else c :: ansi_sub O t
      end
  end.

(** [character in "\n\r\t" or ord(character) >= 32]. *)
Definition printable (c : N) : bool := bool_decide (c ∈ [10; 13; 9]%N) || (32 <=? c)%N.

Definition clean_string (s : pystr) : pystr :=
  take MAX_EVENT_STRING_LENGTH (base.filter (λ c, printable c = true) (ansi_sub 0 s)).

(** ** [_sanitize_value] and [sanitize_event_payload] *)

Section sanitize.
Context `{CaseFold, PyRepr}.

Definition redacted_key (key_hint : pystr) : bool :=
existsb (λ part, contains (lit part) (casefold key_hint)) SENSITIVE_KEY_PARTS.

(** [str(key)]. *)
Definition key_text (k : pykey) : pystr := match k with KStr s => s | KOther => py_repr POther end.

Fixpoint sanitize_value (key_hint : pystr) (v : pyval) : pyval :=
if redacted_key key_hint then PStr (lit "[REDACTED]") else
match v with
| PStr s => PStr (clean_string s)
| PDict kvs =>
    PDict (dict_of ((fix go kvs := match kvs with
      | [] => []
      | (k, x) :: kvs => (KStr (take 128 (key_text k)), sanitize_value (key_text k) x) :: go kvs
      end) kvs))
| PList l =>
    PList ((fix go n l := match n, l with
      | S n, x :: l => sanitize_value [] x :: go n l
      | _, _ => []
      end) MAX_EVENT_LIST l)
| POther => PStr (take MAX_EVENT_STRING_LENGTH (py_str v))
| v => v
end.

Definition sanitize_event_payload (payload : list (pykey * pyval)) : exn + pyval :=
let sanitized := sanitize_value [] (PDict payload) in
match print sanitized with
| None => inl (ApiError 422 "RUN_EVENT_INVALID")
| Some text =>
    if bool_decide (MAX_RUN_EVENT_BYTES < length (flat_map ascii_escape text))%nat
    then inl (ApiError 413 "RUN_EVENT_TOO_LARGE")
    else inr sanitized
end.
End sanitize.

(** ** The event log *)

(** [created_at], a further reading of the clock, and the primary key are left out. *)
Record RunEvent := MkRunEvent {
  re_organization_id : uuid;
  re_project_id : uuid;
  re_run_id : uuid;
  re_sequence : Z;
  re_event_type : string;
  re_payload : pyval }.

(** [select(func.max(RunEvent.sequence))] for a run; 0 when it has none. *)
Definition last_sequence (run_id : uuid) (l : list RunEvent) : Z :=
  foldr (λ e m, if decide (re_run_id e = run_id) then Z.max (re_sequence e) m else m) 0 l.

(** [append_run_event] after its advisory lock: the log with the new event. *)
Definition append_run_event `{CaseFold, PyRepr} (organization_id project_id run_id : uuid)
    (event_type : string) (payload : list (pykey * pyval)) (l : list RunEvent) : exn + list RunEvent :=
  if negb (bool_decide (event_type ∈ PERSISTED_EVENT_TYPES))
  then inl (ApiError 422 "RUN_EVENT_INVALID")
  else match sanitize_event_payload payload with
       | inl e => inl e
       | inr p => inr (l ++ [MkRunEvent organization_id project_id run_id
                               (last_sequence run_id l + 1) event_type p])
       end.

(** ** Lemmas: the log *)

Definition run_log (run_id : uuid) (l : list RunEvent) : list RunEvent :=
  base.filter (λ e, re_run_id e = run_id) l.

(** The events of every run are numbered 1, 2, 3, ... in the order they were appended. *)
Definition gap_free (l : list RunEvent) : Prop :=
  ∀ run_id, re_sequence <$> run_log run_id l = seqZ 1 (Z.of_nat (length (run_log run_id l))).

Lemma last_sequence_app run_id l l' :
  last_sequence run_id (l ++ l') = Z.max (last_sequence run_id l) (last_sequence run_id l').
Proof.
  assert (∀ l, 0 ≤ last_sequence run_id l) as Hpos.
  { intros k. induction k as [|e k IH]; [done|]. change (last_sequence run_id (e :: k)) with
      (if decide (re_run_id e = run_id) then Z.max (re_sequence e) (last_sequence run_id k)
       else last_sequence run_id k). case_decide; lia. }
  induction l as [|e l IH]; [specialize (Hpos l'); change (last_sequence run_id []) with 0; cbn [app]; lia|].
  unfold last_sequence in *. cbn [app foldr]. case_decide; lia.
Qed.

Lemma last_sequence_gap_free run_id l :
  gap_free l → last_sequence run_id l = Z.of_nat (length (run_log run_id l)).
Proof.
  intros Hg. specialize (Hg run_id). transitivity (last_sequence run_id (run_log run_id l)).
  { clear Hg. unfold run_log. induction l as [|e l IH]; [done|]. rewrite filter_cons.
    unfold last_sequence in *. cbn [foldr].
    case_decide as He; cbn [foldr]; [rewrite decide_True by done; f_equal|]; exact IH. }
  assert (Forall (λ e, re_run_id e = run_id) (run_log run_id l)) as Hall.
  { apply Forall_forall. intros e [? _]%list_elem_of_filter. done. }
  revert Hall Hg. generalize (run_log run_id l) as k. induction k as [|e k IH] using rev_ind; [done|].
  intros [Hall He]%Forall_app Hg. rewrite Forall_singleton in He. rewrite length_app in *. cbn in *.
  rewrite fmap_app, Nat2Z.inj_add, seqZ_app in Hg by lia. apply app_inj_2 in Hg as [Hg1 Hg2]; [|done].
  cbn in Hg2. injection Hg2 as Hseq. rewrite last_sequence_app, IH by done. cbn.
  rewrite decide_True by done. lia.
Qed.

Lemma gap_free_append l e :
  gap_free l → re_sequence e = last_sequence (re_run_id e) l + 1 → gap_free (l ++ [e]).
Proof.
  intros Hg He run_id. unfold run_log. rewrite filter_app, filter_cons, filter_nil.
  case_decide as Hr; [|rewrite app_nil_r; apply Hg].
  rewrite fmap_app, length_app, Nat2Z.inj_add, seqZ_app by lia. f_equal; [apply Hg|]. cbn.
  rewrite He, Hr, last_sequence_gap_free by done. by rewrite Z.add_comm.
Qed.

Section log.
Context `{CaseFold, PyRepr}.

Lemma append_run_event_inv org pid rid ty p l l' :
append_run_event org pid rid ty p l = inr l' →
∃ q, l' = l ++ [MkRunEvent org pid rid (last_sequence rid l + 1) ty q].
Proof.
unfold append_run_event. destruct (negb _); [done|]. destruct (sanitize_event_payload p) as [|q]; [done|].
intros [= <-]. by exists q.
Qed.

Lemma append_run_event_gap_free org pid rid ty p l l' :
gap_free l → append_run_event org pid rid ty p l = inr l' → gap_free l'.
Proof. intros Hg [q ->]%append_run_event_inv. by apply gap_free_append. Qed.
End log.

(** ** Lemmas: sanitising *)

Lemma elem_of_dict_set k v kvs x : x ∈ dict_set k v kvs → x = (k, v) ∨ x ∈ kvs.
Proof.
  induction kvs as [|[k' v'] kvs IH]; cbn; [rewrite list_elem_of_singleton; by left|].
  case_decide; rewrite !elem_of_cons; naive_solver.
Qed.

Lemma dict_set_keys k v kvs : NoDup kvs.*1 → NoDup (dict_set k v kvs).*1.
Proof.
  induction kvs as [|[k' v'] kvs IH]; cbn; [intros _; apply NoDup_singleton|].
  intros [Hk Hnd]%NoDup_cons. case_decide as E; cbn; [by subst; constructor|].
  constructor; [|by apply IH]. intros ([k1 v1] & Ek & [[= -> ->]|Hin]%elem_of_dict_set)%list_elem_of_fmap.
  - by cbn in Ek.
  - apply Hk, list_elem_of_fmap. by exists (k1, v1).
Qed.

Lemma dict_of_spec kvs : NoDup (dict_of kvs).*1 ∧ ∀ x, x ∈ dict_of kvs → x ∈ kvs.
Proof.
  assert (∀ l acc, NoDup acc.*1 → NoDup (foldl (λ acc kv, dict_set kv.1 kv.2 acc) acc l).*1 ∧
    ∀ x, x ∈ foldl (λ acc kv, dict_set kv.1 kv.2 acc) acc l → x ∈ acc ∨ x ∈ l) as Hg.
  { induction l as [|[k v] l IH]; cbn; intros acc Hacc; [by split; [|left]|].
    destruct (IH (dict_set k v acc)) as [H1 H2]; [by apply dict_set_keys|]. split; [done|].
    intros x [Hx|Hx]%H2; [|right; by right]. apply elem_of_dict_set in Hx as [->|Hx]; [right|by left]. left. }
  destruct (Hg kvs []) as [H1 H2]; [constructor|]. split; [done|].
  intros x [Hx|Hx]%H2; [by apply not_elem_of_nil in Hx|done].
Qed.

Lemma starts_with_app p s t : starts_with p s = true → starts_with p (s ++ t) = true.
Proof.
  revert s. induction p as [|a p IH]; intros [|b s]; try done. cbn.
  destruct (a =? b)%N; [apply IH|done].
Qed.

Lemma contains_app p s t : contains p s = true → contains p (s ++ t) = true.
Proof.
  induction s as [|a s IH]; cbn [contains app].
  - rewrite orb_false_r. intros Hp. destruct p; [|done]. by destruct t.
  - intros [Hp|Hp]%orb_prop; apply orb_true_intro; [left; by apply (starts_with_app _ (a :: s))|right; auto].
Qed.

(** What [json.loads] and the request models produce. *)
Fixpoint json_only (v : pyval) : Prop :=
  match v with
  | PList l => (fix go l := match l with [] => True | x :: l => json_only x ∧ go l end) l
  | PDict kvs => (fix go kvs := match kvs with [] => True | (_, x) :: kvs => json_only x ∧ go kvs end) kvs
  | POther => False
  | _ => True
  end.

Section sanitized.
Context `{CaseFold, PyRepr}.

(** What is stored of an event payload. *)
Inductive clean : pyval → Prop :=
| clean_none : clean PNone
| clean_bool b : clean (PBool b)
| clean_int z : clean (PInt z)
| clean_float f : clean (PFloat f)
| clean_str s : (length s ≤ MAX_EVENT_STRING_LENGTH)%nat → Forall (λ c, printable c = true) s → clean (PStr s)
| clean_list l : (length l ≤ MAX_EVENT_LIST)%nat → (∀ x, x ∈ l → clean x) → clean (PList l)
| clean_dict kvs : NoDup kvs.*1 →
    (∀ k x, (k, x) ∈ kvs → clean x ∧ ∃ t, k = KStr t ∧ (length t ≤ 128)%nat ∧
      (redacted_key t = true → x = PStr (lit "[REDACTED]"))) →
    clean (PDict kvs).

Lemma sanitize_dict hint kvs :
redacted_key hint = false →
sanitize_value hint (PDict kvs) = PDict (dict_of
  ((λ kv, (KStr (take 128 (key_text kv.1)), sanitize_value (key_text kv.1) kv.2)) <$> kvs)).
Proof.
intros Hh. cbn [sanitize_value]. rewrite Hh. do 2 f_equal.
induction kvs as [|[k x] kvs IH]; cbn; [done|]. by f_equal.
Qed.

Lemma sanitize_list hint l :
redacted_key hint = false → sanitize_value hint (PList l) = PList (sanitize_value [] <$> take MAX_EVENT_LIST l).
Proof.
intros Hh. cbn [sanitize_value]. rewrite Hh. f_equal. generalize MAX_EVENT_LIST as n.
induction l as [|x l IH]; intros [|n]; cbn; try done. f_equal. apply IH.
Qed.

Lemma json_only_list l x : json_only (PList l) → x ∈ l → json_only x.
Proof.
induction l as [|y l IH]; [by intros _ ?%not_elem_of_nil|].
intros [Hy Hl] [->|Hx]%elem_of_cons; [done|by apply IH].
Qed.
Lemma json_only_dict kvs kv : json_only (PDict kvs) → kv ∈ kvs → json_only kv.2.
Proof.
induction kvs as [|[k y] kvs IH]; [by intros _ ?%not_elem_of_nil|].
intros [Hy Hl] [->|Hx]%elem_of_cons; [done|by apply IH].
Qed.

Lemma clean_redacted : clean (PStr (lit "[REDACTED]")).
Proof.
constructor; [apply Nat.leb_le; by vm_compute|]. by repeat constructor.
Qed.

Context (fold_app : ∀ a b, casefold (a ++ b) = casefold a ++ casefold b).

Lemma redacted_prefix n k : redacted_key (take n k) = true → redacted_key k = true.
Proof using fold_app.
unfold redacted_key. rewrite !existsb_exists. intros (p & Hp & Hc). exists p. split; [done|].
rewrite <- (take_drop n k), fold_app. by apply contains_app.
Qed.

Lemma sanitize_redacted k x : redacted_key k = true → sanitize_value k x = PStr (lit "[REDACTED]").
Proof. intros Hk. destruct x; cbn [sanitize_value]; by rewrite Hk. Qed.

Lemma sanitize_clean v hint : json_only v → clean (sanitize_value hint v).
Proof using fold_app.
destruct (redacted_key hint) eqn:Hh.
{ intros _. rewrite sanitize_redacted by done. apply clean_redacted. }
revert hint Hh. induction v as [| | | |s|l IH|kvs IH|] using pyval_ind'; intros hint Hh Hj;
  try (cbn [sanitize_value]; rewrite Hh; by constructor).
- cbn [sanitize_value]. rewrite Hh. constructor; unfold clean_string.
  + rewrite length_take. lia.
  + apply Forall_take, Forall_forall. by intros c [? _]%list_elem_of_filter.
- rewrite sanitize_list by done. constructor; [rewrite length_fmap, length_take; lia|].
  intros y (x & -> & Hx)%list_elem_of_fmap. apply elem_of_take in Hx as (i & Hi & _).
  apply list_elem_of_lookup_2 in Hi. destruct (redacted_key []) eqn:Hn.
  { rewrite sanitize_redacted by done. apply clean_redacted. }
  rewrite Forall_forall in IH. apply IH; [done..|]. by eapply json_only_list.
- rewrite sanitize_dict by done. destruct (dict_of_spec ((λ kv, (KStr (take 128 (key_text kv.1)),
    sanitize_value (key_text kv.1) kv.2)) <$> kvs)) as [Hnd Hin]. constructor; [done|].
  intros k y Hy. apply Hin, list_elem_of_fmap in Hy as ([k0 x] & [= -> ->] & Hx). cbn [fst snd].
  split.
  + destruct (redacted_key (key_text k0)) eqn:Hn.
    { rewrite sanitize_redacted by done. apply clean_redacted. }
    rewrite Forall_forall in IH. apply (IH (k0, x)); [done..|]. by apply (json_only_dict kvs (k0, x)).
  + exists (take 128 (key_text k0)). split_and!; [done|rewrite length_take; lia|].
    intros Hr%redacted_prefix. by apply sanitize_redacted.
Qed.

(** What is stored of an event payload is bounded and redacted: string values hold no
  control character below the space but line feed, carriage return and tab, and are bounded
  like lists and keys; keys are distinct strings (they are cut, not cleaned: one may hold
  any character); the value of every key that names a credential is redacted, and
  the rendering fits in 64 KiB; and the event is appended under the next number of
  its run, so that the numbers of a run's events stay 1, 2, 3, ... *)
Theorem run_event_safe (org pid rid : uuid) (ty : string) (p : list (pykey * pyval))
  (l l' : list RunEvent) (Hj : json_only (PDict p)) (Hg : gap_free l)
  (Ha : append_run_event org pid rid ty p l = inr l') :
∃ e text, l' = l ++ [e] ∧ re_run_id e = rid ∧ re_event_type e = ty ∧ ty ∈ PERSISTED_EVENT_TYPES ∧
  re_sequence e = Z.of_nat (length (run_log rid l')) ∧ gap_free l' ∧
  clean (re_payload e) ∧ print (re_payload e) = Some text ∧
  (length (flat_map ascii_escape text) ≤ MAX_RUN_EVENT_BYTES)%nat.
Proof using fold_app.
pose proof (append_run_event_gap_free _ _ _ _ _ _ _ Hg Ha) as Hg'.
unfold append_run_event in Ha. destruct (bool_decide (ty ∈ _)) eqn:Hty; [|done]. cbn [negb] in Ha.
unfold sanitize_event_payload in Ha. cbv zeta in Ha.
destruct (print _) as [text|] eqn:Hp in Ha; [|done].
destruct (bool_decide (MAX_RUN_EVENT_BYTES < _)%nat) eqn:Hlen in Ha; [done|]. injection Ha as <-. breflect.
eexists _, text. split_and!; [reflexivity|done|done|done| |done| |exact Hp|lia].
- cbn [re_sequence]. rewrite last_sequence_gap_free by done. unfold run_log.
  rewrite filter_app, filter_cons_True, filter_nil, length_app by done. cbn. lia.
- exact (sanitize_clean (PDict p) [] Hj).
Qed.
End sanitized.

(** A log line with a colour escape and a token. *)
Module EventScenario.
#[local] Instance fold : CaseFold := map (λ c, if ((65 <=? c) && (c <=? 90))%N then (c + 32)%N else c).
#[local] Instance repr : PyRepr := λ _, lit "object".
Definition line : list (pykey * pyval) :=
  [(KStr (lit "message"), PStr ([27; 91; 51; 49; 109]%N ++ lit "boot"));
   (KStr (lit "Session-Token"), PInt 7)].
Definition stored : list RunEvent :=
  [MkRunEvent 1 2 3 1 "run.log"
     (PDict [(KStr (lit "message"), PStr (lit "boot"));
             (KStr (lit "Session-Token"), PStr (lit "[REDACTED]"))])].

Lemma run_event_safe_witness :
  append_run_event 1 2 3 "run.log" line [] = inr stored ∧ gap_free stored.
Proof.
  assert (Ha : append_run_event 1 2 3 "run.log" line [] = inr stored) by (vm_compute; reflexivity).
  split; [exact Ha|].
  destruct (run_event_safe (λ a b, map_app _ a b) 1 2 3 "run.log" line [] stored
    (conj I (conj I I)) (λ _, eq_refl) Ha) as (e & t & _ & _ & _ & _ & _ & Hg & _). exact Hg.
Defined.
(** A key is not cleaned: its terminal escape is stored. *)
Example key_escape_stored :
  append_run_event 1 2 3 "run.log" [(KStr ([27; 91; 51; 49; 109]%N ++ lit "k"), PNone)] [] =
  inr [MkRunEvent 1 2 3 1 "run.log" (PDict [(KStr ([27; 91; 51; 49; 109]%N ++ lit "k"), PNone)])].
Proof. vm_compute. reflexivity. Qed.
End EventScenario.
