(* ===== verification/Permissions.v ===== *)
(** The permission matrix (src/apps/api/app/core/permissions.py): what each role may do, and
    the scopes an API key can be given.  Main results: the order of the roles, and that a
    list of valid scopes is normalised to the sorted list of its distinct members. *)

From S2P Require Import Prelude PyVal Json.

Definition PERMISSIONS : list string := [
  "organization.read"; "organization.update"; "membership.read"; "membership.invite";
  "membership.update_role"; "membership.remove"; "project.create"; "project.read"; "project.update";
  "project.delete"; "agent.create"; "agent.read"; "agent.update"; "agent.version_create"; "build.create";
  "build.read"; "run.create"; "run.read"; "run.cancel"; "execution.read"; "storage.read"; "storage.upload";
  "storage.download"; "dataset.create"; "dataset.read"; "dataset.write"; "dataset.export"; "kv.create";
  "kv.read"; "kv.write"; "kv.delete"; "queue.create"; "queue.read"; "queue.enqueue"; "egress.create";
  "egress.read"; "egress.update"; "schedule.create"; "schedule.read"; "schedule.update";
  "secret.read_metadata"; "secret.create"; "secret.replace"; "secret.delete"; "api_key.create";
  "api_key.read_metadata"; "api_key.revoke"; "audit.read"; "event.read"; "diagnostic.read"; "webhook.create";
  "webhook.read"; "webhook.update"]%string.

Definition role_permissions (role : string) : list string :=
  if decide (role = "owner"%string) then PERMISSIONS
  else if decide (role = "administrator"%string) then base.filter (λ p, p ≠ "organization.delete"%string) PERMISSIONS
  else if decide (role = "developer"%string) then [
    "organization.read"; "membership.read"; "project.create"; "project.read"; "project.update";
    "agent.create"; "agent.read"; "agent.update"; "agent.version_create"; "build.create"; "build.read";
    "run.create"; "run.read"; "run.cancel"; "execution.read"; "storage.read"; "storage.upload";
    "storage.download"; "dataset.create"; "dataset.read"; "dataset.write"; "dataset.export"; "kv.create";
    "kv.read"; "kv.write"; "kv.delete"; "queue.create"; "queue.read"; "queue.enqueue"; "egress.create";
    "egress.read"; "egress.update"; "schedule.create"; "schedule.read"; "schedule.update";
    "secret.read_metadata"; "secret.create"; "secret.replace"; "secret.delete"; "api_key.create";
    "api_key.read_metadata"; "api_key.revoke"; "event.read"; "diagnostic.read"; "webhook.create";
    "webhook.read"; "webhook.update"]%string
  else if decide (role = "analyst"%string) then [
    "organization.read"; "membership.read"; "project.read"; "agent.read"; "build.read"; "run.read";
    "execution.read"; "storage.read"; "storage.download"; "dataset.read"; "dataset.export"; "kv.read";
    "queue.read"; "egress.read"; "schedule.read"; "api_key.read_metadata"; "event.read"; "diagnostic.read";
    "webhook.read"]%string
  else if decide (role = "operator"%string) then [
    "organization.read"; "membership.read"; "project.read"; "agent.read"; "build.read"; "run.create";
    "run.read"; "run.cancel"; "execution.read"; "storage.read"; "storage.download"; "dataset.read";
    "dataset.export"; "kv.read"; "queue.read"; "schedule.read"; "egress.read"; "event.read";
    "diagnostic.read"; "webhook.read"; "webhook.update"]%string
  else if decide (role = "viewer"%string) then [
    "organization.read"; "project.read"; "agent.read"; "build.read"; "run.read"; "execution.read";
    "storage.read"; "storage.download"; "dataset.read"; "dataset.export"; "kv.read"; "queue.read";
    "schedule.read"; "egress.read"; "event.read"; "diagnostic.read"; "webhook.read"]%string
  else if decide (role = "billing_manager"%string) then [
    "organization.read"]%string
  else [].

Definition role_has_permission (role permission : string) : bool := bool_decide (permission ∈ role_permissions role).

(** [payload.role] of a membership update. *)
Definition ROLES : list string :=
  ["owner"; "administrator"; "developer"; "analyst"; "operator"; "viewer"; "billing_manager"]%string.

(** Scopes arrive as text; they are sorted by code point. *)
Definition scope_le (a b : pystr) : Prop := str_leb a b = true.
#[export] Instance scope_le_dec a b : Decision (scope_le a b).
Proof. unfold scope_le. apply _. Defined.
Definition known_scope (s : pystr) : bool := bool_decide (s ∈ lit <$> PERMISSIONS).
Definition validate_scopes (scopes : list pystr) : exn + list pystr :=
  let normalized := merge_sort scope_le (remove_dups scopes) in
  if forallb known_scope normalized then inr normalized else inl (ValueError "Unknown API-key scopes").

(** ** The order of the roles *)

Definition role_leb (r r' : string) : bool := forallb (λ p, role_has_permission r' p) (role_permissions r).
Lemma role_leb_sound r r' p : role_leb r r' = true → role_has_permission r p = true → role_has_permission r' p = true.
Proof.
  unfold role_leb. rewrite forallb_forall. intros Hle Hp%bool_decide_eq_true. apply Hle. by apply list_elem_of_In.
Qed.

(** The roles are ordered, and an administrator has every permission of an owner: the one
    it is denied, organization.delete, is not a permission. *)
Lemma role_order :
  Forall (λ r, role_leb r "owner" = true) ROLES ∧ role_leb "owner" "administrator" = true ∧
  role_leb "billing_manager" "viewer" = true ∧ role_leb "viewer" "analyst" = true ∧
  role_leb "viewer" "operator" = true ∧ role_leb "analyst" "developer" = true ∧ role_leb "operator" "developer" = true.
Proof. split_and!; [by repeat constructor|reflexivity..]. Qed.

(** An unknown role has no permission. *)
Lemma unknown_role r p : r ∉ ROLES → role_has_permission r p = false.
Proof.
  intros Hr. unfold role_has_permission, role_permissions, ROLES in *. rewrite !not_elem_of_cons in Hr.
  destruct Hr as (? & ? & ? & ? & ? & ? & ? & _). rewrite !decide_False by done. by apply bool_decide_eq_false_2, not_elem_of_nil.
Qed.

#[export] Instance scope_le_trans : Transitive scope_le.
Proof. intros a b c. apply str_leb_trans. Qed.
#[export] Instance scope_le_total : Total scope_le.
Proof. intros a b. apply str_leb_total. Qed.

(** Valid scopes are the distinct ones of the request, sorted; nothing is added. *)
Lemma validate_scopes_inv scopes l : validate_scopes scopes = inr l →
  (∀ s, s ∈ l ↔ s ∈ scopes) ∧ NoDup l ∧ StronglySorted scope_le l ∧ Forall (λ s, known_scope s = true) l.
Proof.
  unfold validate_scopes. destruct (forallb known_scope _) eqn:E; [|done]. intros [= <-]. split_and!.
  - intros s. rewrite merge_sort_Permutation. apply elem_of_remove_dups.
  - rewrite merge_sort_Permutation. apply NoDup_remove_dups.
  - apply (StronglySorted_merge_sort scope_le).
  - rewrite forallb_forall in E. apply Forall_forall. intros s Hs. apply E. by apply list_elem_of_In.
Qed.
Lemma validate_scopes_ok scopes : Forall (λ s, known_scope s = true) scopes →
  ∃ l, validate_scopes scopes = inr l.
Proof.
  intros Hf. unfold validate_scopes. rewrite (proj2 (forallb_forall _ _)); [eauto|].
  intros s Hs%list_elem_of_In. rewrite merge_sort_Permutation, elem_of_remove_dups in Hs. by rewrite Forall_forall in Hf; apply Hf.
Qed.
