(* ===== verification/Security.v ===== *)
(** Credentials (src/apps/api/app/core/security.py): digests of secrets, CSRF tokens bound to
    a session, and API keys derived from the request that issues them.  Main results: the
    derived CSRF token of a session verifies, and the text an API key is derived from
    identifies the environment, organisation, principal and idempotency key. *)

From S2P Require Import Prelude PyVal PyUuid Base64 QueueProtocol Pagination.

(** argon2: hashing draws a salt. *)
Class PasswordHasher := {
  hash_password : N → pystr → pystr;
  verify_password : pystr → pystr → bool;
  needs_password_rehash : pystr → bool }.

(** [secrets.token_urlsafe(32)]. *)
Class SessionTokens := new_session_token : N → pystr.

Definition encode (s : pystr) : exn + list N :=
  match utf8_encode s with Some b => inr b | None => inl UnicodeEncodeError end.

(** [uuid.bytes]: big-endian. *)
Definition uuid_bytes (u : uuid) : list N := (λ i, (u / 2 ^ (8 * N.of_nat i)) mod 256)%N <$> reverse (seq 0 16).

(** [base64.b32encode] of five bytes, in lower case. *)
Definition b32_char (n : N) : N := (if n <? 26 then 97 + n else 24 + n)%N.
Definition b32_encode (five : list N) : pystr :=
  let n := foldl (λ acc b, acc * 256 + b)%N 0%N five in
  (λ i, b32_char ((n / 32 ^ N.of_nat i) mod 32)) <$> reverse (seq 0 8).

Record IssuedApiKey := MkIssuedApiKey {
  ik_raw_token : pystr;
  ik_public_prefix : pystr;
  ik_last_four : pystr }.

Definition is_expired (value : option time) (now : time) : bool :=
  match value with Some t => t <=? now | None => false end.

Section credentials.
Context `{HmacSha256, Sha256}.

(** The pepper is already encoded. *)
Definition secret_digest (value : pystr) (pepper : list N) : exn + list N :=
b ← encode value; inr (hmac_sha256 pepper b).

Definition derive_csrf_token (session_id : uuid) (session_token_digest pepper : list N) : pystr :=
b64_encode (hmac_sha256 pepper (uuid_bytes session_id ++ session_token_digest)).

(** [hmac.compare_digest] of two strings raises unless both are ASCII. *)
Definition verify_csrf_token (supplied_token : pystr) (session_id : uuid)
  (session_token_digest expected_digest pepper : list N) : exn + bool :=
if forallb (λ c, c <? 128)%N supplied_token then
  if negb (bool_decide (supplied_token = derive_csrf_token session_id session_token_digest pepper)) then inr false
  else d ← secret_digest supplied_token pepper; inr (bool_decide (d = expected_digest))
else inl (TypeError "comparing strings with non-ASCII characters is not supported").

Definition api_key_scope (environment : pystr) (organization_id principal_id : uuid) (idempotency_key : pystr) : pystr :=
environment ++ 58%N :: str_of_uuid organization_id ++ 58%N :: str_of_uuid principal_id ++ 58%N :: idempotency_key.

Definition derive_api_key (environment : pystr) (organization_id principal_id : uuid) (idempotency_key : pystr)
  (issuance_secret : list N) : exn + IssuedApiKey :=
scope ← encode (api_key_scope environment organization_id principal_id idempotency_key);
let prefix_digest := hmac_sha256 issuance_secret (lit "prefix:" ++ scope) in
let secret_digest_bytes := hmac_sha256 issuance_secret (lit "secret:" ++ scope) in
let public_prefix := b32_encode (take 5 prefix_digest) in
let secret_part := b64_encode secret_digest_bytes in
inr (MkIssuedApiKey (lit "rdc_" ++ environment ++ 95%N :: public_prefix ++ 95%N :: secret_part)
       public_prefix (drop (length secret_part - 4) secret_part)).

(** [privacy_hash] of services/identity_tenancy.py. *)
Definition privacy_hash (value : pystr) : exn + pystr := b ← encode value; inr (sha256_hex b).
End credentials.

(** ** Lemmas *)

Lemma encode_ascii s : Forall (λ c, (c < 128)%N) s → encode s = inr s.
Proof.
  intros Hs. unfold encode. assert (utf8_encode s = Some s) as ->; [|done].
  induction Hs as [|c s Hc _ IH]; [done|]. simpl. unfold utf8_char. rewrite (proj2 (N.ltb_lt c 128)) by done. cbn. by rewrite IH.
Qed.

(** Text before a separator it does not contain. *)
Lemma app_sep_inj {A} (c : A) x x' y y' : c ∉ x → c ∉ x' → x ++ c :: y = x' ++ c :: y' → x = x' ∧ y = y'.
Proof.
  revert x'. induction x as [|a x IH]; intros [|a' x']; simpl.
  - by intros _ _ [= ->].
  - intros _ Hx' [= -> _]. set_solver.
  - intros Hx _ [= -> _]. set_solver.
  - rewrite !not_elem_of_cons. intros [_ Hx] [_ Hx'] [= -> Heq]. destruct (IH x' Hx Hx' Heq) as [-> ->]. done.
Qed.

Section lemmas.
Context `{HmacSha256}.

Lemma csrf_digest id d pepper :
secret_digest (derive_csrf_token id d pepper) pepper = inr (hmac_sha256 pepper (derive_csrf_token id d pepper)).
Proof. unfold secret_digest. rewrite encode_ascii; [done|]. apply b64_encode_ascii, hmac_bytes. Qed.

(** A supplied token passes exactly when it is the one derived for the session and its
  digest the recorded one; only a token that is not ASCII raises. *)
Lemma verify_csrf_token_spec t id d expected pepper :
verify_csrf_token t id d expected pepper =
  (if decide (Forall (λ c, (c < 128)%N) t) then
     inr (bool_decide (t = derive_csrf_token id d pepper ∧ expected = hmac_sha256 pepper t))
   else inl (TypeError "comparing strings with non-ASCII characters is not supported")).
Proof.
unfold verify_csrf_token. destruct (forallb _ t) eqn:Ea.
- rewrite forallb_forall in Ea. assert (Forall (λ c, (c < 128)%N) t) as Hf
    by (apply Forall_forall; intros c Hc; apply N.ltb_lt, Ea; by apply list_elem_of_In).
  rewrite decide_True by done. case_bool_decide as Et; cbn.
  + unfold secret_digest. rewrite encode_ascii by done. cbn. f_equal. apply bool_decide_ext. naive_solver.
  + f_equal. symmetry. apply bool_decide_eq_false_2. naive_solver.
- rewrite decide_False; [done|]. intros Hf. rewrite <- not_true_iff_false, forallb_forall in Ea. apply Ea.
  intros c Hc%list_elem_of_In. rewrite Forall_forall in Hf. by apply N.ltb_lt, Hf.
Qed.

Lemma utf8_encode_app s s' : utf8_encode (s ++ s') = (a ← utf8_encode s; b ← utf8_encode s'; Some (a ++ b)).
Proof.
induction s as [|c s IH]; cbn; [by destruct (utf8_encode s')|]. rewrite IH. destruct (utf8_char c); [|done]. cbn.
destruct (utf8_encode s); [|done]. cbn. destruct (utf8_encode s'); [|done]. cbn. by rewrite app_assoc.
Qed.
(** Whether a key can be derived does not depend on the environment. *)
Lemma derive_api_key_env env env' o p k secret ik : derive_api_key env o p k secret = inr ik → is_Some (utf8_encode env') →
∃ ik', derive_api_key env' o p k secret = inr ik'.
Proof.
unfold derive_api_key, encode, api_key_scope. rewrite !utf8_encode_app. intros Hd [b ->]. cbn.
destruct (utf8_encode env); [|done]. cbn in Hd. destruct (utf8_encode _); [|done]. cbn. eauto.
Qed.

Lemma api_key_scope_inj env env' o o' p p' k k' :
(o < 2 ^ 128)%N → (o' < 2 ^ 128)%N → (p < 2 ^ 128)%N → (p' < 2 ^ 128)%N → 58%N ∉ env → 58%N ∉ env' →
api_key_scope env o p k = api_key_scope env' o' p' k' → env = env' ∧ o = o' ∧ p = p' ∧ k = k'.
Proof.
intros Ho Ho' Hp Hp' He He' Heq. unfold api_key_scope in Heq. apply app_sep_inj in Heq as [-> Heq]; [|done..].
apply app_inj_1 in Heq as [->%str_of_uuid_inj Heq]; [|done..|by rewrite !length_str_of_uuid].
apply (f_equal tail) in Heq. cbn [tail] in Heq.
apply app_inj_1 in Heq as [->%str_of_uuid_inj Heq]; [|done..|by rewrite !length_str_of_uuid].
apply (f_equal tail) in Heq. cbn [tail] in Heq. by rewrite Heq.
Qed.
End lemmas.
