(* ===== verification/Identity.v ===== *)
(** Identity and tenancy: the tables User, Session, Organization, OrganizationMembership,
    Project and ApiKey of src/apps/api/app/models.py and the operations of
    services/identity_tenancy.py.

    The row-level policies of the migrations are not modelled: the database role of the
    deployments owns the tables, so they do not apply.  The membership condition inside the
    organisation resolvers is part of Access.v. *)

From S2P Require Import Prelude PyVal Json PyUuid PyTime QueueProtocol EventProtocol Idempotency.
From S2P Require Import Pagination Security Permissions.

(** ** Tables *)

Record User := MkUser {
  us_email_normalized : pystr;
  us_email_display : pystr;
  us_password_hash : pystr;
  us_display_name : pystr;
  us_status : string;
  us_failed_login_count : Z;
  us_locked_until : option time }.
#[export] Instance eta_user : Eta User := λ u,
  MkUser (us_email_normalized u) (us_email_display u) (us_password_hash u) (us_display_name u) (us_status u)
    (us_failed_login_count u) (us_locked_until u).

Record Session := MkSession {
  se_user_id : uuid;
  se_token_digest : list N;
  se_csrf_token_digest : list N;
  se_created_at : time;
  se_last_seen_at : time;
  se_idle_expires_at : time;
  se_absolute_expires_at : time;
  se_revoked_at : option time;
  se_revoke_reason : option string;
  se_user_agent_hash : option pystr;
  se_ip_prefix_hash : option pystr }.
#[export] Instance eta_session : Eta Session := λ r,
  MkSession (se_user_id r) (se_token_digest r) (se_csrf_token_digest r) (se_created_at r) (se_last_seen_at r)
    (se_idle_expires_at r) (se_absolute_expires_at r) (se_revoked_at r) (se_revoke_reason r)
    (se_user_agent_hash r) (se_ip_prefix_hash r).

Record Organization := MkOrganization {
  og_name : pystr;
  og_slug : pystr;
  og_status : string;
  og_created_by_user_id : uuid }.

Record OrganizationMembership := MkMembership {
  mb_organization_id : uuid;
  mb_user_id : uuid;
  mb_role : string;
  mb_status : string;
  mb_joined_at : time;
  mb_updated_at : time;
  mb_version : Z }.
#[export] Instance eta_membership : Eta OrganizationMembership := λ m,
  MkMembership (mb_organization_id m) (mb_user_id m) (mb_role m) (mb_status m) (mb_joined_at m) (mb_updated_at m)
    (mb_version m).

Record Project := MkProject {
  pj_organization_id : uuid;
  pj_name : pystr;
  pj_slug : pystr;
  pj_description : option pystr;
  pj_status : string;
  pj_max_active_leases : Z;
  pj_created_by_user_id : uuid;
  pj_deleted_at : option time }.

Record ApiKey := MkApiKey {
  ak_organization_id : uuid;
  ak_name : pystr;
  ak_public_prefix : pystr;
  ak_last_four : pystr;
  ak_token_digest : list N;
  ak_scopes : list pystr;
  ak_environment : pystr;
  ak_created_by_user_id : uuid;
  ak_created_at : time;
  ak_expires_at : option time;
  ak_revoked_at : option time;
  ak_revoke_reason : option string;
  ak_last_used_at : option time }.
#[export] Instance eta_api_key : Eta ApiKey := λ k,
  MkApiKey (ak_organization_id k) (ak_name k) (ak_public_prefix k) (ak_last_four k) (ak_token_digest k) (ak_scopes k)
    (ak_environment k) (ak_created_by_user_id k) (ak_created_at k) (ak_expires_at k) (ak_revoked_at k)
    (ak_revoke_reason k) (ak_last_used_at k).

Record db := MkDb {
  users : gmap uuid User;
  sessions : gmap uuid Session;
  organizations : gmap uuid Organization;
  memberships : gmap uuid OrganizationMembership;
  projects : gmap uuid Project;
  api_keys : gmap uuid ApiKey;
  idempotency : list (IdempotencyRecord ());
  audits : list audit_event;
  rng : N }.
#[export] Instance eta_db : Eta db := λ s,
  MkDb (users s) (sessions s) (organizations s) (memberships s) (projects s) (api_keys s) (idempotency s)
    (audits s) (rng s).
#[export] Instance db_audit : HasAudit db := {|
  audit_log := audits;
  audit_push e s := s <| audits ::= λ l, l ++ [e] |>;
  audit_push_log e s := eq_refl |}.

(** ** Settings and requests *)

Class IdentitySettings := {
  session_token_pepper : list N;
  csrf_token_pepper : list N;
  api_key_pepper : list N;
  api_key_issuance_secret : list N;
  session_idle_minutes : Z;
  session_absolute_hours : Z;
  project_default_max_active_leases : Z;
  allowed_origins : list pystr }.

Record RegisterRequest := MkRegister {
  rq_email : pystr; rq_password : pystr; rq_display_name : pystr;
  rq_organization_name : pystr; rq_organization_slug : pystr }.
Record CreateApiKeyRequest := MkCreateApiKey {
  ck_name : pystr; ck_scopes : list pystr;
  (** The instant, and the text [isoformat()] gives it. *)
  ck_expires_at : option (time * pystr);
  ck_environment : pystr }.

Record IssuedSession := MkIssued {
  is_raw_token : pystr; is_csrf_token : pystr; is_session_id : uuid; is_session : Session; is_user_id : uuid }.

Definition minutes (n : Z) : Z := seconds (60 * n).
Definition hours (n : Z) : Z := seconds (3600 * n).


Section ops.
Context `{Entropy, Sha256, HmacSha256, CaseFold, PasswordHasher, SessionTokens, IdentitySettings}.
Abbreviation M := (Prelude.M db).

Definition fresh_uuid : M uuid := λ s, (inr (uuid4 (rng s)), s <| rng ::= N.succ |>).
Definition fresh_token : M pystr := λ s, (inr (new_session_token (rng s)), s <| rng ::= N.succ |>).
Definition fresh_hash (password : pystr) : M pystr :=
λ s, (inr (hash_password (rng s) password), s <| rng ::= N.succ |>).

(** The scalar of a query: the first matching row. *)
Definition first_user (p : uuid → User → bool) : M (option (uuid * User)) := gets (λ s, head (select p (users s))).

Definition normalize_email (value : pystr) : pystr := casefold (py_strip value).
Definition with_email (email : pystr) (_ : uuid) (u : User) : bool := bool_decide (us_email_normalized u = email).
Definition with_slug (slug : pystr) (_ : uuid) (o : Organization) : bool := bool_decide (og_slug o = slug).

(** ** Inserts, with the unique constraints of the tables *)

Definition insert_user (u : User) : M uuid :=
id ← fresh_uuid;
s ← gets (λ s, s);
raise_if (bool_decide (is_Some (users s !! id))) (IntegrityError "pk_users") ;;
raise_if (exists_row (with_email (us_email_normalized u)) (users s)) (IntegrityError "uq_users_email_normalized") ;;
modify (λ s, s <| users ::= <[id := u]> |>) ;;
mret id.

Definition insert_organization (o : Organization) : M uuid :=
id ← fresh_uuid;
s ← gets (λ s, s);
raise_if (bool_decide (is_Some (organizations s !! id))) (IntegrityError "pk_organizations") ;;
raise_if (exists_row (with_slug (og_slug o)) (organizations s)) (IntegrityError "uq_organizations_slug") ;;
modify (λ s, s <| organizations ::= <[id := o]> |>) ;;
mret id.

Definition member_of (org user : uuid) (_ : uuid) (m : OrganizationMembership) : bool :=
bool_decide (mb_organization_id m = org) && bool_decide (mb_user_id m = user).
Definition insert_membership (m : OrganizationMembership) : M () :=
id ← fresh_uuid;
s ← gets (λ s, s);
raise_if (bool_decide (is_Some (memberships s !! id))) (IntegrityError "pk_organization_memberships") ;;
raise_if (exists_row (member_of (mb_organization_id m) (mb_user_id m)) (memberships s))
  (IntegrityError "uq_organization_memberships_organization_user") ;;
modify (λ s, s <| memberships ::= <[id := m]> |>).

Definition with_token (digest : list N) (_ : uuid) (r : Session) : bool := bool_decide (se_token_digest r = digest).
Definition insert_session (r : Session) : M uuid :=
id ← fresh_uuid;
s ← gets (λ s, s);
raise_if (bool_decide (is_Some (sessions s !! id))) (IntegrityError "pk_sessions") ;;
raise_if (exists_row (with_token (se_token_digest r)) (sessions s)) (IntegrityError "uq_sessions_token_digest") ;;
modify (λ s, s <| sessions ::= <[id := r]> |>) ;;
mret id.

Definition project_slug (org : uuid) (slug : pystr) (_ : uuid) (p : Project) : bool :=
bool_decide (pj_organization_id p = org) && bool_decide (pj_slug p = slug).
Definition insert_project (p : Project) : M uuid :=
id ← fresh_uuid;
s ← gets (λ s, s);
raise_if (bool_decide (is_Some (projects s !! id))) (IntegrityError "pk_projects") ;;
raise_if (exists_row (project_slug (pj_organization_id p) (pj_slug p)) (projects s))
  (IntegrityError "uq_projects_organization_slug") ;;
modify (λ s, s <| projects ::= <[id := p]> |>) ;;
mret id.

Definition key_with_digest (digest : list N) (_ : uuid) (k : ApiKey) : bool := bool_decide (ak_token_digest k = digest).
Definition key_with_prefix (org : uuid) (prefix : pystr) (_ : uuid) (k : ApiKey) : bool :=
bool_decide (ak_organization_id k = org) && bool_decide (ak_public_prefix k = prefix).
Definition insert_api_key (k : ApiKey) : M uuid :=
id ← fresh_uuid;
s ← gets (λ s, s);
raise_if (bool_decide (is_Some (api_keys s !! id))) (IntegrityError "pk_api_keys") ;;
raise_if (exists_row (key_with_prefix (ak_organization_id k) (ak_public_prefix k)) (api_keys s))
  (IntegrityError "uq_api_keys_organization_prefix") ;;
raise_if (exists_row (key_with_digest (ak_token_digest k)) (api_keys s)) (IntegrityError "uq_api_keys_token_digest") ;;
modify (λ s, s <| api_keys ::= <[id := k]> |>) ;;
mret id.

(** ** Sessions *)

Definition hash_opt (value : option pystr) : M (option pystr) :=
match value with
| Some ((_ :: _) as v) => h ← lift (privacy_hash v); mret (Some h)
| _ => mret None
end.

Definition issue_session (user_id : uuid) (user_agent client_ip : option pystr) (now : time) : M IssuedSession :=
raw_token ← fresh_token;
token_digest ← lift (secret_digest raw_token session_token_pepper);
user_agent_hash ← hash_opt user_agent;
ip_prefix_hash ← hash_opt client_ip;
let record := MkSession user_id token_digest [] now now (now + minutes session_idle_minutes)
  (now + hours session_absolute_hours) None None user_agent_hash ip_prefix_hash in
id ← insert_session record;
let csrf_token := derive_csrf_token id token_digest csrf_token_pepper in
csrf_digest ← lift (secret_digest csrf_token csrf_token_pepper);
let record := record <| se_csrf_token_digest := csrf_digest |> in
modify (λ s, s <| sessions ::= <[id := record]> |>) ;;
mret (MkIssued raw_token csrf_token id record user_id).

Definition owner_of (org user : uuid) (now : time) : OrganizationMembership :=
MkMembership org user "owner" "ACTIVE" now now 1.

Definition register (payload : RegisterRequest) (request_id : string) (user_agent client_ip : option pystr) (now : time)
  : M IssuedSession :=
let normalized_email := normalize_email (rq_email payload) in
existing ← first_user (with_email normalized_email);
raise_if (bool_decide (is_Some existing)) (ApiError 409 "RESOURCE_CONFLICT") ;;
existing_org ← gets (λ s, exists_row (with_slug (rq_organization_slug payload)) (organizations s));
raise_if existing_org (ApiError 409 "RESOURCE_CONFLICT") ;;
password_hash ← fresh_hash (rq_password payload);
uid ← insert_user (MkUser normalized_email (rq_email payload) password_hash (py_strip (rq_display_name payload))
  "ACTIVE" 0 None);
org ← insert_organization (MkOrganization (py_strip (rq_organization_name payload)) (rq_organization_slug payload)
  "ACTIVE" uid);
insert_membership (owner_of org uid now) ;;
append_audit_event (MkAudit (Some org) None "user" (str_of_uuid uid) "organization.created" "organization" (Some org)
  request_id [("initial_owner"%string, DBool true)]) ;;
issue_session uid user_agent client_ip now.

(** What an attempt writes over the row, from the values [u] it read. *)
Definition MAX_FAILED_LOGINS : Z := 10.
Definition failed_login (u : User) (now : time) (row : User) : User :=
let count := us_failed_login_count u + 1 in
let row := row <| us_failed_login_count := count |> in
if MAX_FAILED_LOGINS <=? count
then row <| us_locked_until := written (us_locked_until u) (Some (now + minutes 15)) (us_locked_until row) |>
else row.
Definition succeeded_login (u : User) (new_hash : option pystr) (row : User) : User :=
row <| us_password_hash := match new_hash with
                           | Some h => written (us_password_hash u) h (us_password_hash row)
                           | None => us_password_hash row
                           end |>
    <| us_failed_login_count := written (us_failed_login_count u) 0 (us_failed_login_count row) |>
    <| us_locked_until := written (us_locked_until u) None (us_locked_until row) |>.

(** Whether an attempt gets as far as checking the password. *)
Definition password_checked (u : User) (now : time) : bool :=
bool_decide (us_status u = "ACTIVE"%string)
&& match us_locked_until u with None => true | Some t => t <=? now end.

(** An attempt on the user row it read; a failure is committed before the error is
  raised, so it is an outcome here and not an error of the transaction. *)
Definition login_user (uid : uuid) (u : User) (password : pystr) (request_id : string)
  (user_agent client_ip : option pystr) (now : time) : M (exn + IssuedSession) :=
if negb (password_checked u now && verify_password (us_password_hash u) password) then
  modify (λ s, s <| users ::= alter (failed_login u now) uid |>) ;;
  mret (inl (ApiError 401 "CREDENTIAL_INVALID"))
else
  new_hash ← (if needs_password_rehash (us_password_hash u)
              then h ← fresh_hash password; mret (Some h) else mret None);
  modify (λ s, s <| users ::= alter (succeeded_login u new_hash) uid |>) ;;
  issued ← issue_session uid user_agent client_ip now;
  append_audit_event (MkAudit None None "user" (str_of_uuid uid) "auth.login_succeeded" "session"
    (Some (is_session_id issued)) request_id []) ;;
  mret (inr issued).

Definition login (email password : pystr) (request_id : string) (user_agent client_ip : option pystr) (now : time)
  : M (exn + IssuedSession) :=
user ← first_user (with_email (normalize_email email));
'(uid, u) ← get_or_raise user (ApiError 401 "CREDENTIAL_INVALID");
login_user uid u password request_id user_agent client_ip now.

Definition revoke_session (sid : uuid) (record : Session) (request_id : string) (now : time) : M () :=
modify (λ s, s <| sessions ::= alter (λ r : Session, r <| se_revoked_at := Some now |>
  <| se_revoke_reason := Some "logout"%string |>) sid |>) ;;
append_audit_event (MkAudit None None "user" (str_of_uuid (se_user_id record)) "auth.logout" "session" (Some sid)
  request_id []).

(** ** Organisations and projects *)

Definition create_organization (user_id : uuid) (name slug : pystr) (request_id : string) (now : time)
  : M (uuid * Organization) :=
existing ← gets (λ s, exists_row (with_slug slug) (organizations s));
raise_if existing (ApiError 409 "RESOURCE_CONFLICT") ;;
let organization := MkOrganization (py_strip name) slug "ACTIVE" user_id in
org ← insert_organization organization;
insert_membership (owner_of org user_id now) ;;
append_audit_event (MkAudit (Some org) None "user" (str_of_uuid user_id) "organization.created" "organization"
  (Some org) request_id []) ;;
mret (org, organization).

Definition live_slug (org : uuid) (slug : pystr) (id : uuid) (p : Project) : bool :=
project_slug org slug id p && bool_decide (pj_deleted_at p = None).
Definition create_project (organization_id user_id : uuid) (name slug : pystr) (description : option pystr)
  (request_id : string) : M (uuid * Project) :=
existing ← gets (λ s, exists_row (live_slug organization_id slug) (projects s));
raise_if existing (ApiError 409 "RESOURCE_CONFLICT") ;;
let project := MkProject organization_id (py_strip name) slug description "ACTIVE" project_default_max_active_leases
  user_id None in
id ← insert_project project;
append_audit_event (MkAudit (Some organization_id) (Some id) "user" (str_of_uuid user_id) "project.created" "project"
  (Some id) request_id [("max_active_leases"%string, DInt project_default_max_active_leases)]) ;;
mret (id, project).

(** ** Memberships *)

Definition active_in (org : uuid) (_ : uuid) (m : OrganizationMembership) : bool :=
bool_decide (mb_organization_id m = org) && bool_decide (mb_status m = "ACTIVE"%string).
Definition active_owner (org : uuid) (id : uuid) (m : OrganizationMembership) : bool :=
active_in org id m && bool_decide (mb_role m = "owner"%string).
Definition by_joined : relation (uuid * OrganizationMembership) := by_keys (λ p, [mb_joined_at p.2]).
Definition list_memberships (organization_id : uuid) : M (list (uuid * OrganizationMembership)) :=
gets (λ s, order_by by_joined (select (active_in organization_id) (memberships s))).

(** What the update reads: the membership, and the number of owners when an owner is
  demoted. *)
Definition read_role_update (organization_id membership_id : uuid) (role : string) (expected_version : Z)
  : M OrganizationMembership :=
s ← gets (λ s, s);
m ← get_or_raise (m ← memberships s !! membership_id; if active_in organization_id membership_id m then Some m else None)
      not_found;
raise_if (negb (mb_version m =? expected_version)) (ApiError 409 "VERSION_CONFLICT") ;;
raise_if (bool_decide (mb_role m = "owner"%string) && negb (bool_decide (role = "owner"%string))
          && (length (select (active_owner organization_id) (memberships s)) <=? 1)%nat)
  (ApiError 409 "RESOURCE_CONFLICT") ;;
mret m.
(** What it writes over the row. *)
Definition write_role (m : OrganizationMembership) (role : string) (now : time) (row : OrganizationMembership)
  : OrganizationMembership :=
row <| mb_role := written (mb_role m) role (mb_role row) |> <| mb_version := mb_version m + 1 |>
    <| mb_updated_at := written (mb_updated_at m) now (mb_updated_at row) |>.
Definition apply_role_update (organization_id membership_id actor_user_id : uuid) (role : string) (request_id : string)
  (now : time) (m : OrganizationMembership) : M OrganizationMembership :=
modify (λ s, s <| memberships ::= alter (write_role m role now) membership_id |>) ;;
append_audit_event (MkAudit (Some organization_id) None "user" (str_of_uuid actor_user_id) "membership.role_updated"
  "organization_membership" (Some membership_id) request_id
  [("previous_role"%string, DStr (mb_role m)); ("new_role"%string, DStr role)]) ;;
mret (write_role m role now m).
Definition update_membership_role (organization_id membership_id actor_user_id : uuid) (role : string)
  (expected_version : Z) (request_id : string) (now : time) : M OrganizationMembership :=
m ← read_role_update organization_id membership_id role expected_version;
apply_role_update organization_id membership_id actor_user_id role request_id now m.

(** ** API keys *)

Definition by_created : relation (uuid * ApiKey) := by_keys (λ p, [- ak_created_at p.2]).
Definition list_api_keys (organization_id : uuid) : M (list (uuid * ApiKey)) :=
gets (λ s, order_by by_created (select (λ _ k, bool_decide (ak_organization_id k = organization_id)) (api_keys s))).

Definition API_KEY_ENDPOINT : string := "POST:/api/v1/organizations/{organization_id}/api-keys".
Definition api_key_request (payload : CreateApiKeyRequest) (scopes : list pystr) : pyval :=
PDict [(KStr (lit "name"), PStr (ck_name payload)); (KStr (lit "scopes"), PList (PStr <$> scopes));
       (KStr (lit "expires_at"), match ck_expires_at payload with Some (_, text) => PStr text | None => PNone end);
       (KStr (lit "environment"), PStr (ck_environment payload))].

Definition create_api_key (organization_id user_id : uuid) (payload : CreateApiKeyRequest) (idempotency_key : pystr)
  (request_id : string) (now : time) : M (uuid * ApiKey * pystr) :=
raise_if (negb (valid_idempotency_key idempotency_key)) (ApiError 400 "INVALID_REQUEST") ;;
scopes ← match validate_scopes (ck_scopes payload) with
         | inr l => mret l
         | inl _ => raise (ApiError 422 "VALIDATION_FAILED")
         end;
fingerprint ← get_or_raise (canonical_fingerprint (api_key_request payload scopes)) UnicodeEncodeError;
key ← lift (encode idempotency_key);
let key_digest := sha256_hex key in
existing ← gets (λ s, find (in_scope organization_id (str_of_uuid user_id) API_KEY_ENDPOINT key_digest) (idempotency s));
issued ← lift (derive_api_key (ck_environment payload) organization_id user_id idempotency_key api_key_issuance_secret);
match existing with
| Some r =>
    raise_if (negb (bool_decide (i_request_fingerprint r = fingerprint))) (ApiError 409 "IDEMPOTENCY_CONFLICT") ;;
    found ← gets (λ s, api_keys s !! i_resource_id r);
    k ← get_or_raise (k ← found; if bool_decide (ak_organization_id k = organization_id) then Some k else None)
          (ApiError 409 "RESOURCE_CONFLICT");
    mret (i_resource_id r, k, ik_raw_token issued)
| None =>
    token_digest ← lift (secret_digest (ik_raw_token issued) api_key_pepper);
    let record := MkApiKey organization_id (py_strip (ck_name payload)) (ik_public_prefix issued) (ik_last_four issued)
      token_digest scopes (ck_environment payload) user_id now (fst <$> ck_expires_at payload) None None None in
    id ← insert_api_key record;
    modify (λ s, s <| idempotency ::= λ l, l ++ [MkIdempotency organization_id (str_of_uuid user_id) API_KEY_ENDPOINT
      key_digest fingerprint "api_key" id None None now (now + hours 24)] |>) ;;
    append_audit_event (MkAudit (Some organization_id) None "user" (str_of_uuid user_id) "api_key.created" "api_key"
      (Some id) request_id [("scopes"%string, DTexts scopes); ("environment"%string, DText (ck_environment payload))]) ;;
    mret (id, record, ik_raw_token issued)
end.

Definition revoke_api_key (organization_id api_key_id actor_user_id : uuid) (request_id : string) (now : time) : M () :=
found ← gets (λ s, api_keys s !! api_key_id);
k ← get_or_raise (k ← found; if bool_decide (ak_organization_id k = organization_id) then Some k else None) not_found;
match ak_revoked_at k with
| None =>
    modify (λ s, s <| api_keys ::= alter (λ k : ApiKey, k <| ak_revoked_at := Some now |>
      <| ak_revoke_reason := Some "user_revoked"%string |>) api_key_id |>) ;;
    append_audit_event (MkAudit (Some organization_id) None "user" (str_of_uuid actor_user_id) "api_key.revoked" "api_key"
      (Some api_key_id) request_id [])
| Some _ => mret ()
end.
End ops.
