(* ===== verification/Access.v ===== *)
(** Who a request acts as and what it may touch: src/apps/api/app/api/dependencies.py and
    api/agent_dependencies.py, with the routes of api/routes/identity_tenancy.py that use
    them.  Rate limits (Redis) and the cookie headers of the responses are left out. *)

From S2P Require Import Prelude PyVal Json PyUuid PyTime QueueProtocol EventProtocol Idempotency.
From S2P Require Import Pagination Security Permissions Identity.

(** ** Authentication *)

Inductive principal := SessionAuth (sid : uuid) (record : Session) | ApiKeyAuth (kid : uuid) (key : ApiKey).
Record AuthContext := MkAuth { cx_user_id : uuid; cx_principal : principal }.

(** The credentials a request carries. *)
Record credentials := MkCredentials {
  cr_authorization : option pystr;
  cr_session_cookie : option pystr;
  cr_csrf : option pystr;
  cr_origin : option pystr }.

(** The tables a resource dependency guards. *)
Inductive resource_kind :=
| PROJECT | AGENT | AGENT_VERSION | PROJECT_SECRET | BUILD | RUN | DATASET | KEY_VALUE_STORE | REQUEST_QUEUE
| EGRESS_POLICY | SCHEDULE | STORAGE_OBJECT.
#[export] Instance resource_kind_eq_dec : EqDecision resource_kind.
Proof. solve_decision. Defined.
(** The columns of a resource row that decide about access. *)
Record owned := MkOwned { ow_organization_id : uuid; ow_deleted_at : option time }.

(** Tables with soft deletion. *)
Definition soft_deleted (k : resource_kind) : bool :=
  match k with PROJECT | AGENT | STORAGE_OBJECT => true | _ => false end.

Section access.
Context `{Entropy, Sha256, HmacSha256, CaseFold, PasswordHasher, SessionTokens, IdentitySettings}.
Abbreviation M := (Prelude.M db).

Definition auth_required : exn := ApiError 401 "AUTH_REQUIRED".
Definition credential_invalid : exn := ApiError 401 "CREDENTIAL_INVALID".

Definition active_user (uid : uuid) (e : exn) : M () :=
u ← gets (λ s, users s !! uid);
u ← get_or_raise u e;
raise_if (negb (bool_decide (us_status u = "ACTIVE"%string))) e.

Definition resolve_api_key (authorization : pystr) (now : time) : M AuthContext :=
let '(scheme, token) := partition_space authorization in
raise_if (negb (bool_decide (casefold scheme = lit "bearer")) || bool_decide (token = [])) auth_required ;;
token_hash ← lift (secret_digest token api_key_pepper);
found ← gets (λ s, head (select (key_with_digest token_hash) (api_keys s)));
'(kid, k) ← get_or_raise found credential_invalid;
raise_if (bool_decide (is_Some (ak_revoked_at k)) || is_expired (ak_expires_at k) now) credential_invalid ;;
active_user (ak_created_by_user_id k) credential_invalid ;;
let k := k <| ak_last_used_at := Some now |> in
modify (λ s, s <| api_keys ::= <[kid := k]> |>) ;;
mret (MkAuth (ak_created_by_user_id k) (ApiKeyAuth kid k)).

Definition resolve_session (cookie : pystr) (now : time) : M AuthContext :=
token_hash ← lift (secret_digest cookie session_token_pepper);
found ← gets (λ s, head (select (with_token token_hash) (sessions s)));
'(sid, record) ← get_or_raise found auth_required;
raise_if (bool_decide (is_Some (se_revoked_at record))) auth_required ;;
if (se_idle_expires_at record <=? now) || (se_absolute_expires_at record <=? now) then
  modify (λ s, s <| sessions ::= <[sid := record <| se_revoked_at := Some now |>
    <| se_revoke_reason := Some "expired"%string |>]> |>) ;;
  raise (ApiError 401 "SESSION_EXPIRED")
else
  active_user (se_user_id record) auth_required ;;
  let record := if se_last_seen_at record <=? now - minutes 5
    then record <| se_last_seen_at := now |>
                <| se_idle_expires_at := Z.min (now + minutes session_idle_minutes) (se_absolute_expires_at record) |>
    else record in
  modify (λ s, s <| sessions ::= <[sid := record]> |>) ;;
  mret (MkAuth (se_user_id record) (SessionAuth sid record)).

Definition resolve_auth_context (c : credentials) (now : time) : M AuthContext :=
match cr_authorization c with
| Some ((_ :: _) as authorization) => resolve_api_key authorization now
| _ =>
    match cr_session_cookie c with
    | Some ((_ :: _) as cookie) => resolve_session cookie now
    | _ => raise auth_required
    end
end.

Definition require_session_auth (x : AuthContext) : M () :=
match cx_principal x with
| SessionAuth _ _ => mret ()
| ApiKeyAuth _ _ => raise (ApiError 403 "PERMISSION_DENIED")
end.

Definition csrf_invalid : exn := ApiError 400 "AUTH_CSRF_INVALID".
Definition require_csrf (c : credentials) (x : AuthContext) : M () :=
match cx_principal x with
| ApiKeyAuth _ _ => mret ()
| SessionAuth sid record =>
    match cr_csrf c with
    | Some ((_ :: _) as token) =>
        valid ← lift (verify_csrf_token token sid (se_token_digest record) (se_csrf_token_digest record) csrf_token_pepper);
        raise_if (negb valid) csrf_invalid
    | _ => raise csrf_invalid
    end
end.

Definition require_allowed_origin (c : credentials) : M () :=
match cr_origin c with
| Some origin => raise_if (negb (bool_decide (origin ∈ allowed_origins))) (ApiError 403 "PERMISSION_DENIED")
| None => mret ()
end.

(** ** Authorisation *)

(** The active membership of a user in an organisation. *)
Definition active_member (org user : uuid) (id : uuid) (m : OrganizationMembership) : bool :=
member_of org user id m && bool_decide (mb_status m = "ACTIVE"%string).
Definition membership_of (org user : uuid) : M (option (uuid * OrganizationMembership)) :=
gets (λ s, head (select (active_member org user) (memberships s))).

(** [_authorize_organization]; [require_organization_permission] does the same for the
  organisation of the path. *)
Definition authorize_organization (x : AuthContext) (organization_id : uuid) (permission : string) : M () :=
match cx_principal x with
| ApiKeyAuth _ k =>
    raise_if (negb (bool_decide (ak_organization_id k = organization_id))
              || negb (bool_decide (lit permission ∈ ak_scopes k))) not_found
| SessionAuth _ _ =>
    m ← membership_of organization_id (cx_user_id x);
    '(_, m) ← get_or_raise m not_found;
    raise_if (negb (role_has_permission (mb_role m) permission)) (ApiError 403 "PERMISSION_DENIED")
end.
Definition require_organization_permission (permission : string) (organization_id : uuid) (x : AuthContext) : M () :=
authorize_organization x organization_id permission.

(** The rows of the tables the other components keep. *)
Context (resources : resource_kind → gmap uuid owned).
Definition resource_row (k : resource_kind) (id : uuid) (s : db) : option owned :=
match k with
| PROJECT => (λ p, MkOwned (pj_organization_id p) (pj_deleted_at p)) <$> projects s !! id
| _ => resources k !! id
end.
Definition present (k : resource_kind) (o : owned) : bool :=
negb (soft_deleted k) || bool_decide (ow_deleted_at o = None).

(** [_resolved_organization_id]: the SQL function of the resource answers for members
  only. *)
Definition resolved_organization_id (k : resource_kind) (id : uuid) (x : AuthContext) : M uuid :=
s ← gets (λ s, s);
org ← get_or_raise (o ← resource_row k id s;
                    if present k o && exists_row (active_member (ow_organization_id o) (cx_user_id x)) (memberships s)
                    then Some (ow_organization_id o) else None) not_found;
mret org.

Definition require_resource_permission (k : resource_kind) (permission : string) (id : uuid) (x : AuthContext) : M owned :=
organization_id ← resolved_organization_id k id x;
authorize_organization x organization_id permission ;;
row ← gets (resource_row k id);
get_or_raise (o ← row; if bool_decide (ow_organization_id o = organization_id) && present k o then Some o else None)
  not_found.

Definition require_project_permission := require_resource_permission PROJECT.
Definition require_agent_permission := require_resource_permission AGENT.
Definition require_agent_version_permission := require_resource_permission AGENT_VERSION.
Definition require_project_secret_permission := require_resource_permission PROJECT_SECRET.
Definition require_build_permission := require_resource_permission BUILD.
Definition require_run_permission := require_resource_permission RUN.
Definition require_dataset_permission := require_resource_permission DATASET.
Definition require_key_value_store_permission := require_resource_permission KEY_VALUE_STORE.
Definition require_request_queue_permission := require_resource_permission REQUEST_QUEUE.
Definition require_egress_policy_permission := require_resource_permission EGRESS_POLICY.
Definition require_schedule_permission := require_resource_permission SCHEDULE.
Definition require_storage_object_permission := require_resource_permission STORAGE_OBJECT.
End access.
