(* ===== verification/Tenancy.v ===== *)
(** The routes of src/apps/api/app/api/routes/identity_tenancy.py, each as the chain of its
    dependencies and its service call, and the transaction a request runs in ([get_db] of
    core/database.py): an error rolls everything back, except that a failed login has
    committed before it is raised.  A login or a role update that overlaps other requests is
    served on the rows it read before they committed.  Any other route is an access to a
    resource followed by its own service, which the other components model. *)

From S2P Require Import Prelude PyVal PyUuid QueueProtocol EventProtocol Idempotency.
From S2P Require Import Pagination Security Permissions Identity Access.

Inductive request :=
| Register (payload : RegisterRequest)
| Login (email password : pystr)
| Logout
| CreateOrganization (name slug : pystr)
| CreateProject (org : uuid) (name slug : pystr) (description : option pystr)
| ListMemberships (org : uuid)
| UpdateRole (org membership : uuid) (role : string) (expected_version : Z)
| ListApiKeys (org : uuid)
| CreateApiKey (org : uuid) (payload : CreateApiKeyRequest) (idempotency_key : option pystr)
| RevokeApiKey (org api_key : uuid)
| AccessOrganization (org : uuid) (permission : string)
| AccessResource (k : resource_kind) (id : uuid) (permission : string).

Inductive response :=
| SignedIn (i : IssuedSession)
| Done
| OrganizationCreated (id : uuid) (o : Organization)
| ProjectCreated (id : uuid) (p : Project)
| Memberships (l : list (uuid * OrganizationMembership))
| RoleUpdated (m : OrganizationMembership)
| ApiKeys (l : list (uuid * ApiKey))
| ApiKeyCreated (id : uuid) (k : ApiKey) (token : pystr)
| Granted (x : AuthContext) (o : owned).

(** What comes with a request. *)
Record envelope := MkEnvelope {
  en_credentials : credentials;
  en_request_id : string;
  en_user_agent : option pystr;
  en_client_ip : option pystr }.

Section routes.
Context `{Entropy, Sha256, HmacSha256, CaseFold, PasswordHasher, SessionTokens, IdentitySettings}.
Context (resources : resource_kind → gmap uuid owned).
Abbreviation M := (Prelude.M db).

(** The dependencies of the organisation routes that write. *)
Definition write_access (c : credentials) (permission : string) (org : uuid) (now : time) : M AuthContext :=
x ← resolve_auth_context c now;
require_csrf c x ;;
require_organization_permission permission org x ;;
mret x.
Definition read_access (c : credentials) (permission : string) (org : uuid) (now : time) : M AuthContext :=
x ← resolve_auth_context c now;
require_organization_permission permission org x ;;
mret x.

Definition register_route (e : envelope) (payload : RegisterRequest) (now : time) : M response :=
require_allowed_origin (en_credentials e) ;;
i ← register payload (en_request_id e) (en_user_agent e) (en_client_ip e) now;
mret (SignedIn i).
Definition login_route (e : envelope) (email password : pystr) (now : time) : M (exn + response) :=
require_allowed_origin (en_credentials e) ;;
r ← login email password (en_request_id e) (en_user_agent e) (en_client_ip e) now;
mret match r with inl x => inl x | inr i => inr (SignedIn i) end.
Definition logout_route (e : envelope) (now : time) : M response :=
x ← resolve_auth_context (en_credentials e) now;
require_csrf (en_credentials e) x ;;
match cx_principal x with
| SessionAuth sid record => revoke_session sid record (en_request_id e) now
| ApiKeyAuth _ _ => mret ()
end ;;
mret Done.
Definition create_organization_route (e : envelope) (name slug : pystr) (now : time) : M response :=
x ← resolve_auth_context (en_credentials e) now;
require_csrf (en_credentials e) x ;;
require_session_auth x ;;
'(id, o) ← create_organization (cx_user_id x) name slug (en_request_id e) now;
mret (OrganizationCreated id o).
Definition create_project_route (e : envelope) (org : uuid) (name slug : pystr) (description : option pystr) (now : time)
  : M response :=
x ← write_access (en_credentials e) "project.create" org now;
'(id, p) ← create_project org (cx_user_id x) name slug description (en_request_id e);
mret (ProjectCreated id p).
Definition memberships_route (e : envelope) (org : uuid) (now : time) : M response :=
read_access (en_credentials e) "membership.read" org now ;;
l ← list_memberships org;
mret (Memberships l).
Definition update_membership_route (e : envelope) (org membership : uuid) (role : string) (expected_version : Z) (now : time)
  : M response :=
x ← write_access (en_credentials e) "membership.update_role" org now;
m ← update_membership_role org membership (cx_user_id x) role expected_version (en_request_id e) now;
mret (RoleUpdated m).
Definition api_keys_route (e : envelope) (org : uuid) (now : time) : M response :=
read_access (en_credentials e) "api_key.read_metadata" org now ;;
l ← list_api_keys org;
mret (ApiKeys l).
Definition create_api_key_route (e : envelope) (org : uuid) (payload : CreateApiKeyRequest) (idempotency_key : option pystr)
  (now : time) : M response :=
x ← write_access (en_credentials e) "api_key.create" org now;
key ← get_or_raise idempotency_key (ApiError 400 "INVALID_REQUEST");
'(id, k, token) ← create_api_key org (cx_user_id x) payload key (en_request_id e) now;
mret (ApiKeyCreated id k token).
Definition revoke_api_key_route (e : envelope) (org api_key : uuid) (now : time) : M response :=
x ← write_access (en_credentials e) "api_key.revoke" org now;
revoke_api_key org api_key (cx_user_id x) (en_request_id e) now ;;
mret Done.

(** The dependencies of the routes of the other components. *)
Definition access_organization (e : envelope) (org : uuid) (permission : string) (now : time) : M response :=
x ← read_access (en_credentials e) permission org now;
mret (Granted x (MkOwned org None)).
Definition access_resource (e : envelope) (k : resource_kind) (id : uuid) (permission : string) (now : time) : M response :=
x ← resolve_auth_context (en_credentials e) now;
o ← require_resource_permission resources k permission id x;
mret (Granted x o).

(** ** Requests as transactions *)

(** The inner sum is an error raised after a commit. *)
Definition handle (e : envelope) (r : request) (now : time) : M (exn + response) :=
match r with
| Login email password => login_route e email password now
| _ =>
    a ← match r with
        | Register payload => register_route e payload now
        | CreateOrganization name slug => create_organization_route e name slug now
        | CreateProject org name slug description => create_project_route e org name slug description now
        | ListMemberships org => memberships_route e org now
        | UpdateRole org membership role version => update_membership_route e org membership role version now
        | ListApiKeys org => api_keys_route e org now
        | CreateApiKey org payload key => create_api_key_route e org payload key now
        | RevokeApiKey org api_key => revoke_api_key_route e org api_key now
        | AccessOrganization org permission => access_organization e org permission now
        | AccessResource k id permission => access_resource e k id permission now
        | _ => logout_route e now
        end;
    mret (inr a)
end.

Definition transaction (m : M (exn + response)) (s : db) : (exn + response) * db :=
match m s with
| (inl x, s') => (inl x, s <| rng := rng s' |>)
| (inr a, s') => (a, s')
end.
Definition serve (e : envelope) (r : request) (now : time) : db → (exn + response) * db := transaction (handle e r now).

(** ** Requests that overlap *)

(** The login and the role update read a row without locking it, decide on what they read
  and write it back by its id.  When other requests commit in between, the decision is
  made on the tables as they were ([seen]) and the write goes over the tables as they are.
  The touch of the requester's own session or key is not part of the overlapping update:
  it writes other columns, like an access that is served before it. *)
Definition observed {A} (seen : db) (m : M A) : M A := λ s, ((m seen).1, s).
Definition overlapping_login (seen : db) (e : envelope) (email password : pystr) (now : time) : M (exn + response) :=
user ← observed seen (require_allowed_origin (en_credentials e) ;; first_user (with_email (normalize_email email)));
'(uid, u) ← get_or_raise user (ApiError 401 "CREDENTIAL_INVALID");
r ← login_user uid u password (en_request_id e) (en_user_agent e) (en_client_ip e) now;
mret match r with inl x => inl x | inr i => inr (SignedIn i) end.
Definition overlapping_update (seen : db) (e : envelope) (org membership : uuid) (role : string) (expected_version : Z)
  (now : time) : M response :=
'(x, m) ← observed seen
  (x ← write_access (en_credentials e) "membership.update_role" org now;
   m ← read_role_update org membership role expected_version;
   mret (x, m));
m ← apply_role_update org membership (cx_user_id x) role (en_request_id e) now m;
mret (RoleUpdated m).
Definition serve_overlapping (seen : db) (e : envelope) (r : request) (now : time) : db → (exn + response) * db :=
match r with
| Login email password => transaction (overlapping_login seen e email password now)
| UpdateRole org membership role version =>
    transaction (a ← overlapping_update seen e org membership role version now; mret (inr a))
| _ => serve e r now
end.
End routes.
