(* ===== verification/TenancySpec.v ===== *)
(** Correctness of identity and tenancy (Identity.v, Access.v, Tenancy.v): every request is
    a sequence of permitted changes of the tables ([change]), from which the invariants
    follow; access is granted to members with a role that allows it, or to keys of the
    organisation with the scope; credentials work until they end, and then never again; the
    number of passwords that can be tried is bounded. *)

From S2P Require Import Prelude PyVal PyUuid QueueProtocol EventProtocol Idempotency.
From S2P Require Import Pagination Security Permissions Identity Access Tenancy.

(** ** What the tables keep *)

Section changes.
Context `{HmacSha256, IdentitySettings}.
Implicit Types (s : db) (u : User) (r : Session) (m : OrganizationMembership) (k : ApiKey) (now t : time).

(** Nothing but the audit log and the random source differs. *)
Record quiet s s' : Prop := {
qt_users : users s' = users s;
qt_sessions : sessions s' = sessions s;
qt_organizations : organizations s' = organizations s;
qt_memberships : memberships s' = memberships s;
qt_projects : projects s' = projects s;
qt_api_keys : api_keys s' = api_keys s;
qt_idempotency : idempotency s' = idempotency s }.

(** The row of a session over time: an idle deadline that has passed is not moved. *)
Record same_session now r r' : Prop := {
ss_user : se_user_id r' = se_user_id r;
ss_token : se_token_digest r' = se_token_digest r;
ss_csrf : se_csrf_token_digest r' = se_csrf_token_digest r;
ss_absolute : se_absolute_expires_at r' = se_absolute_expires_at r;
ss_revoked : is_Some (se_revoked_at r) → is_Some (se_revoked_at r');
ss_idle : se_idle_expires_at r ≤ now → se_idle_expires_at r' = se_idle_expires_at r }.

(** The row of a key: only its revocation and its last use change. *)
Record same_key k k' : Prop := {
sk_organization : ak_organization_id k' = ak_organization_id k;
sk_digest : ak_token_digest k' = ak_token_digest k;
sk_prefix : ak_public_prefix k' = ak_public_prefix k;
sk_scopes : ak_scopes k' = ak_scopes k;
sk_creator : ak_created_by_user_id k' = ak_created_by_user_id k;
sk_expires : ak_expires_at k' = ak_expires_at k;
sk_revoked : is_Some (ak_revoked_at k) → ak_revoked_at k' = ak_revoked_at k }.

Record same_user u u' : Prop := {
su_email : us_email_normalized u' = us_email_normalized u;
su_status : us_status u' = us_status u }.

Definition session_ok (sid : uuid) r : Prop :=
se_csrf_token_digest r = hmac_sha256 csrf_token_pepper (derive_csrf_token sid (se_token_digest r) csrf_token_pepper).
Definition scopes_ok k : Prop := StronglySorted scope_le (ak_scopes k) ∧ NoDup (ak_scopes k) ∧
Forall (λ p, known_scope p = true) (ak_scopes k).

Definition is_owner m : Prop := mb_status m = "ACTIVE"%string ∧ mb_role m = "owner"%string.
(** More than one active owner, when an owner is about to lose the role. *)
Definition demotable s m (role : string) : Prop :=
mb_role m = "owner"%string → role = "owner"%string ∨
(1 < length (select (active_owner (mb_organization_id m)) (memberships s)))%nat.

(** The changes the operations make, one at a time. *)
Inductive change now s s' : Prop :=
| ch_quiet : quiet s s' → change now s s'
| ch_user id u : users s !! id = None → exists_row (with_email (us_email_normalized u)) (users s) = false →
  quiet (s <| users ::= <[id := u]> |>) s' → change now s s'
| ch_login id f : (∀ u, users s !! id = Some u → same_user u (f u)) →
  quiet (s <| users ::= alter f id |>) s' → change now s s'
| ch_session id r : sessions s !! id = None → exists_row (with_token (se_token_digest r)) (sessions s) = false →
  session_ok id r → quiet (s <| sessions ::= <[id := r]> |>) s' → change now s s'
| ch_session_row id r r' : sessions s !! id = Some r → same_session now r r' →
  quiet (s <| sessions ::= <[id := r']> |>) s' → change now s s'
| ch_organization id mid user o : organizations s !! id = None → exists_row (with_slug (og_slug o)) (organizations s) = false →
  memberships s !! mid = None → exists_row (member_of id user) (memberships s) = false →
  quiet (s <| organizations ::= <[id := o]> |> <| memberships ::= <[mid := owner_of id user now]> |>) s' → change now s s'
| ch_project id p : projects s !! id = None →
  exists_row (project_slug (pj_organization_id p) (pj_slug p)) (projects s) = false →
  quiet (s <| projects ::= <[id := p]> |>) s' → change now s s'
| ch_role id m role : memberships s !! id = Some m → mb_status m = "ACTIVE"%string → role ∈ ROLES → demotable s m role →
  quiet (s <| memberships ::= alter (write_role m role now) id |>) s' → change now s s'
| ch_key id k rc : api_keys s !! id = None → scopes_ok k →
  exists_row (key_with_digest (ak_token_digest k)) (api_keys s) = false →
  i_organization_id rc = ak_organization_id k → i_resource_id rc = id →
  quiet (s <| api_keys ::= <[id := k]> |> <| idempotency ::= λ l, l ++ [rc] |>) s' → change now s s'
| ch_key_row id k k' : api_keys s !! id = Some k → same_key k k' →
  quiet (s <| api_keys ::= <[id := k']> |>) s' → change now s s'.

(** ** The invariant *)

Record ten_inv s : Prop := {
tn_email : unique_by us_email_normalized (users s);
tn_session : ∀ i r, sessions s !! i = Some r → session_ok i r;
tn_token : unique_by se_token_digest (sessions s);
tn_slug : unique_by og_slug (organizations s);
tn_member : ∀ i m, memberships s !! i = Some m →
  is_Some (organizations s !! mb_organization_id m) ∧ mb_role m ∈ ROLES;
tn_member_unique : unique_by (λ m, (mb_organization_id m, mb_user_id m)) (memberships s);
tn_project : unique_by (λ p, (pj_organization_id p, pj_slug p)) (projects s);
tn_key : ∀ i k, api_keys s !! i = Some k → scopes_ok k;
tn_key_digest : unique_by ak_token_digest (api_keys s);
tn_record : ∀ rc, rc ∈ idempotency s → ∃ k, api_keys s !! i_resource_id rc = Some k ∧
  ak_organization_id k = i_organization_id rc }.

(** Every organisation has an active owner. *)
Definition all_owned s : Prop := ∀ org, is_Some (organizations s !! org) →
∃ i m, memberships s !! i = Some m ∧ mb_organization_id m = org ∧ is_owner m.

(** What holds of later states. *)
Record later now s s' : Prop := {
lt_user : ∀ i u, users s !! i = Some u → ∃ u', users s' !! i = Some u' ∧ same_user u u';
lt_session : ∀ i r, sessions s !! i = Some r → ∃ r', sessions s' !! i = Some r' ∧ same_session now r r';
lt_organization : organizations s ⊆ organizations s';
lt_member : ∀ i m, memberships s !! i = Some m → ∃ m', memberships s' !! i = Some m' ∧
  mb_organization_id m' = mb_organization_id m ∧ mb_user_id m' = mb_user_id m ∧ mb_status m' = mb_status m;
lt_key : ∀ i k, api_keys s !! i = Some k → ∃ k', api_keys s' !! i = Some k' ∧ same_key k k';
lt_record : idempotency s `prefix_of` idempotency s' }.

Lemma same_session_refl now r : same_session now r r.
Proof. by constructor. Qed.
Lemma same_session_trans now now' r1 r2 r3 : now ≤ now' → same_session now r1 r2 → same_session now' r2 r3 →
same_session now r1 r3.
Proof.
intros Hle [U T C A R I] [U' T' C' A' R' I']. constructor; [congruence..|auto|].
intros Hi. rewrite I', I; [done|done|]. rewrite I by done. lia.
Qed.
#[local] Instance same_key_preorder : PreOrder same_key.
Proof.
split; [by constructor|]. intros k1 k2 k3 [] []. constructor; try congruence.
intros Hr. rewrite sk_revoked1, sk_revoked0; [done|done|]. by rewrite sk_revoked0.
Qed.
#[local] Instance same_user_preorder : PreOrder same_user.
Proof. split; [by constructor|]. intros u1 u2 u3 [] []. constructor; congruence. Qed.

Lemma later_refl now s : later now s s.
Proof. constructor; eauto using same_session_refl. - intros. eexists. split; [done|reflexivity]. - intros. eexists. split; [done|reflexivity]. Qed.
Lemma later_trans now now' s1 s2 s3 : now ≤ now' → later now s1 s2 → later now' s2 s3 → later now s1 s3.
Proof.
intros Hle [U S O M K R] [U' S' O' M' K' R']. constructor.
- intros i u Hu. destruct (U _ _ Hu) as (u2 & Hu2 & ?). destruct (U' _ _ Hu2) as (u3 & ? & ?). exists u3. split; [done|by etrans].
- intros i r Hr. destruct (S _ _ Hr) as (r2 & Hr2 & ?). destruct (S' _ _ Hr2) as (r3 & ? & ?). exists r3.
  split; [done|by eapply same_session_trans].
- by etrans.
- intros i m Hm. destruct (M _ _ Hm) as (m2 & Hm2 & ? & ? & ?). destruct (M' _ _ Hm2) as (m3 & ? & ? & ? & ?).
  exists m3. split_and!; [done|congruence..].
- intros i k Hk. destruct (K _ _ Hk) as (k2 & Hk2 & ?). destruct (K' _ _ Hk2) as (k3 & ? & ?). exists k3. split; [done|by etrans].
- by etrans.
Qed.

Lemma quiet_inv s s' : quiet s s' → ten_inv s → ten_inv s'.
Proof. intros [] []. constructor; rewrite ?qt_users0, ?qt_sessions0, ?qt_organizations0, ?qt_memberships0, ?qt_projects0, ?qt_api_keys0, ?qt_idempotency0; done. Qed.
Lemma quiet_later now s s1 s' : quiet s1 s' → later now s s1 → later now s s'.
Proof. intros [] []. constructor; rewrite ?qt_users0, ?qt_sessions0, ?qt_organizations0, ?qt_memberships0, ?qt_projects0, ?qt_api_keys0, ?qt_idempotency0; done. Qed.
Lemma quiet_owned s s' : quiet s s' → all_owned s → all_owned s'.
Proof. intros []. unfold all_owned. by rewrite qt_organizations0, qt_memberships0. Qed.
Lemma quiet_refl s : quiet s s.
Proof. done. Qed.

(** ** Every change keeps the invariant *)

Lemma no_email s email : exists_row (with_email email) (users s) = false →
∀ i u, users s !! i = Some u → us_email_normalized u ≠ email.
Proof. intros He i u Hu. pose proof (exists_row_false _ _ He _ _ Hu) as Hf. unfold with_email in Hf. by breflect. Qed.
Lemma no_token s d : exists_row (with_token d) (sessions s) = false → ∀ i r, sessions s !! i = Some r → se_token_digest r ≠ d.
Proof. intros He i u Hu. pose proof (exists_row_false _ _ He _ _ Hu) as Hf. unfold with_token in Hf. by breflect. Qed.
Lemma no_slug s slug : exists_row (with_slug slug) (organizations s) = false →
∀ i o, organizations s !! i = Some o → og_slug o ≠ slug.
Proof. intros He i u Hu. pose proof (exists_row_false _ _ He _ _ Hu) as Hf. unfold with_slug in Hf. by breflect. Qed.
Lemma no_member s org user : exists_row (member_of org user) (memberships s) = false →
∀ i m, memberships s !! i = Some m → (mb_organization_id m, mb_user_id m) ≠ (org, user).
Proof.
intros He i u Hu [= <- <-]. pose proof (exists_row_false _ _ He _ _ Hu) as Hf. unfold member_of in Hf.
by rewrite !bool_decide_eq_true_2 in Hf.
Qed.
Lemma no_project s org slug : exists_row (project_slug org slug) (projects s) = false →
∀ i p, projects s !! i = Some p → (pj_organization_id p, pj_slug p) ≠ (org, slug).
Proof.
intros He i u Hu [= <- <-]. pose proof (exists_row_false _ _ He _ _ Hu) as Hf. unfold project_slug in Hf.
by rewrite !bool_decide_eq_true_2 in Hf.
Qed.
Lemma no_digest s d : exists_row (key_with_digest d) (api_keys s) = false →
∀ i k, api_keys s !! i = Some k → ak_token_digest k ≠ d.
Proof. intros He i u Hu. pose proof (exists_row_false _ _ He _ _ Hu) as Hf. unfold key_with_digest in Hf. by breflect. Qed.

(** An owner that is not the one demoted. *)
Lemma other_owner s m id role : memberships s !! id = Some m → demotable s m role → mb_status m = "ACTIVE"%string →
∀ i m', memberships s !! i = Some m' → mb_organization_id m' = mb_organization_id m → is_owner m' →
∃ j n, memberships s !! j = Some n ∧ mb_organization_id n = mb_organization_id m ∧ is_owner n ∧ (j = id → role = "owner"%string).
Proof.
intros Hm Hd Hst i m' Hi Ho [Hs Hr]. destruct (decide (i = id)) as [->|Hne]; [|by exists i, m'].
assert (m' = m) as -> by congruence. destruct (Hd Hr) as [->|Hlen]; [by exists id, m|].
pose proof (NoDup_select (active_owner (mb_organization_id m)) (memberships s)) as Hnd.
pose proof (λ x, elem_of_select (active_owner (mb_organization_id m)) (memberships s) x.1 x.2) as Hin.
destruct (select _ _) as [|[a x] [|[b y] l]]; [simpl in Hlen; lia..|]. apply NoDup_cons in Hnd as [Hnx _].
assert (∃ p : uuid * OrganizationMembership, p ∈ (a, x) :: (b, y) :: l ∧ p.1 ≠ id) as ([j n] & Hp & Hj).
{ destruct (decide (a = id)) as [->|]; [|exists (a, x); split; [left|done]].
  exists (b, y). split; [right; left|]. cbn. intros ->. apply Hnx.
  destruct (Hin (id, x)) as [Hx _], (Hin (id, y)) as [Hy _]. destruct Hx as [Hx _]; [left|]. destruct Hy as [Hy _]; [right; left|].
  cbn in Hx, Hy. rewrite Hx in Hy. injection Hy as ->. left. }
destruct (Hin (j, n)) as [Hn _]. destruct (Hn Hp) as [Hl Ha]. cbn in *. unfold active_owner, active_in in Ha. breflect.
exists j, n. split_and!; try done.
Qed.

Lemma write_role_row m role now : write_role m role now m = m <| mb_role := role |> <| mb_version := mb_version m + 1 |> <| mb_updated_at := now |>.
Proof. unfold write_role, written. by repeat case_decide; subst. Qed.

(** A membership gets another role, over whatever row was read. *)
Lemma role_inv s id m0 role now : ten_inv s → role ∈ ROLES → ten_inv (s <| memberships ::= alter (write_role m0 role now) id |>).
Proof.
intros Hinv Hrole. destruct (memberships s !! id) as [m|] eqn:Hm.
- constructor; cbn; rewrite ?(alter_insert _ _ _ _ Hm); try apply Hinv.
  + intros i x [[<- <-]|[_ Hi]]%lookup_insert_Some; [|by eapply tn_member].
    destruct (tn_member _ Hinv _ _ Hm) as [? Hr]. split; [done|]. cbn. unfold written. by case_decide.
  + eapply unique_by_update; [apply Hinv|exact Hm|done].
- constructor; cbn; rewrite ?(alter_id' _ _ _ Hm); apply Hinv.
Qed.
Lemma role_owned s id m role now : all_owned s → memberships s !! id = Some m → mb_status m = "ACTIVE"%string →
demotable s m role → all_owned (s <| memberships ::= alter (write_role m role now) id |>).
Proof.
intros Hown Hm Hst Hdem org Horg. destruct (Hown _ Horg) as (i & m' & Hi & Eo & How). cbn.
rewrite (alter_insert _ _ _ _ Hm), write_role_row. destruct (decide (org = mb_organization_id m)) as [->|Hne].
- destruct (other_owner s m id role Hm Hdem Hst i m' Hi Eo How) as (j & n & Hj & Ej & Hn & Hid).
  destruct (decide (j = id)) as [->|Hji]; [|exists j, n; by rewrite lookup_insert_ne].
  eexists id, _. rewrite lookup_insert_eq. split; [done|]. cbn. split; [done|]. split; [done|]. cbn. auto.
- exists i, m'. rewrite lookup_insert_ne; [done|]. intros <-. rewrite Hm in Hi. injection Hi as <-. by destruct Hne.
Qed.

(** A new organisation with its owner. *)
Lemma organization_inv s id mid user o now : ten_inv s → organizations s !! id = None →
exists_row (with_slug (og_slug o)) (organizations s) = false → memberships s !! mid = None →
exists_row (member_of id user) (memberships s) = false →
ten_inv (s <| organizations ::= <[id := o]> |> <| memberships ::= <[mid := owner_of id user now]> |>).
Proof.
intros Hinv Hid Hslug Hmid Hmem. constructor; cbn; try apply Hinv.
- apply unique_by_insert; [apply Hinv|by apply no_slug].
- intros i m [[<- <-]|[_ Hi]]%lookup_insert_Some.
  + cbn. rewrite lookup_insert_eq. split; [done|]. unfold ROLES. by left.
  + destruct (tn_member _ Hinv _ _ Hi) as [Hsome Hr]. split; [|done].
    destruct (decide (mb_organization_id m = id)) as [->|]; [rewrite lookup_insert_eq; eauto|by rewrite lookup_insert_ne].
- apply unique_by_insert; [apply Hinv|by apply no_member].
Qed.
Lemma organization_owned s id mid user o now : all_owned s → memberships s !! mid = None →
all_owned (s <| organizations ::= <[id := o]> |> <| memberships ::= <[mid := owner_of id user now]> |>).
Proof.
intros Hown Hmid org Horg. cbn in *. destruct (decide (org = id)) as [->|Hne].
- exists mid, (owner_of id user now). by rewrite lookup_insert_eq.
- rewrite lookup_insert_ne in Horg by done. destruct (Hown _ Horg) as (i & m & Hi & Ho & How).
  exists i, m. rewrite lookup_insert_ne; [done|]. intros ->. congruence.
Qed.

Lemma change_owned now s s' : change now s s' → all_owned s → all_owned s'.
Proof.
intros Hch Hown. destruct Hch as [Hq|id u Hid He Hq|id f Hf Hq|id r Hid He Hok Hq|id r r' Hr Hs Hq|id mid user o Hid He Hmid Hm Hq
  |id p Hid He Hq|id m role Hm Hst Hrole Hd Hq|id k rc Hid Hok He Ho Hrid Hq|id k k' Hk Hs Hq];
  (eapply quiet_owned; [exact Hq|]); clear Hq; try exact Hown; [by apply organization_owned|by apply role_owned].
Qed.

Lemma change_inv now s s' : change now s s' → ten_inv s → ten_inv s'.
Proof.
intros Hch Hinv. destruct Hch as [Hq|id u Hid He Hq|id f Hf Hq|id r Hid He Hok Hq|id r r' Hr Hs Hq|id mid user o Hid He Hmid Hm Hq
  |id p Hid He Hq|id m role Hm Hst Hrole Hd Hq|id k rc Hid Hok He Ho Hrid Hq|id k k' Hk Hs Hq];
  (eapply quiet_inv; [exact Hq|]); clear Hq.
- done.
- constructor; cbn; try apply Hinv. apply unique_by_insert; [apply Hinv|by apply no_email].
- destruct (users s !! id) as [u|] eqn:Hu.
  + constructor; cbn; rewrite ?(alter_insert _ _ _ _ Hu); try apply Hinv. eapply unique_by_update; [apply Hinv|exact Hu|by apply Hf].
  + constructor; cbn; rewrite ?alter_id' by done; apply Hinv.
- constructor; cbn; try apply Hinv; [|apply unique_by_insert; [apply Hinv|by apply no_token]].
  intros i x [[<- <-]|[_ Hi]]%lookup_insert_Some; [done|by eapply tn_session].
- constructor; cbn; try apply Hinv; [|eapply unique_by_update; [apply Hinv|exact Hr|by apply (ss_token now)]].
  intros i x [[<- <-]|[_ Hi]]%lookup_insert_Some; [|by eapply tn_session].
  unfold session_ok. rewrite (ss_csrf _ _ _ Hs), (ss_token _ _ _ Hs). by apply (tn_session _ Hinv).
- by apply organization_inv.
- constructor; cbn; try apply Hinv. apply unique_by_insert; [apply Hinv|by apply no_project].
- by apply role_inv.
- constructor; cbn; try apply Hinv.
  + intros i x [[<- <-]|[_ Hi]]%lookup_insert_Some; [done|by eapply tn_key].
  + apply unique_by_insert; [apply Hinv|by apply no_digest].
  + intros rc' [Hrc|Hrc%list_elem_of_singleton]%elem_of_app; [|subst rc'].
    * destruct (tn_record _ Hinv _ Hrc) as (k0 & Hk0 & Eo). exists k0. rewrite lookup_insert_ne; [done|]. congruence.
    * exists k. by rewrite Hrid, lookup_insert_eq.
- constructor; cbn; try apply Hinv.
  + intros i x [[<- <-]|[_ Hi]]%lookup_insert_Some; [|by eapply tn_key].
    unfold scopes_ok. rewrite (sk_scopes _ _ Hs). by apply (tn_key _ Hinv _ _ Hk).
  + eapply unique_by_update; [apply Hinv|exact Hk|by apply sk_digest].
  + intros rc Hrc. destruct (tn_record _ Hinv _ Hrc) as (k0 & Hk0 & Eo). destruct (decide (i_resource_id rc = id)) as [E|].
    * exists k'. rewrite E, lookup_insert_eq. split; [done|]. rewrite (sk_organization _ _ Hs). congruence.
    * exists k0. by rewrite lookup_insert_ne.
Qed.

Lemma role_later now s id m0 role t : later t s (s <| memberships ::= alter (write_role m0 role now) id |>).
Proof.
destruct (later_refl t s). constructor; cbn; try done. intros i x Hi. destruct (decide (i = id)) as [->|Hne].
- eexists. rewrite lookup_alter_eq, Hi. by split.
- exists x. by rewrite lookup_alter_ne by done.
Qed.
Lemma change_later now s s' : change now s s' → later now s s'.
Proof.
assert (Hkeep : ∀ i r, sessions s !! i = Some r → ∃ r', sessions s !! i = Some r' ∧ same_session now r r')
  by eauto using same_session_refl.
pose proof (later_refl now s) as Hrefl.
intros [Hq|id u Hid He Hq|id f Hf Hq|id r Hid He Hok Hq|id r r' Hr Hs Hq|id mid user o Hid He Hmid Hm Hq
  |id p Hid He Hq|id m role Hm Hst Hrole Hd Hq|id k rc Hid Hok He Ho Hrid Hq|id k k' Hk Hs Hq];
  (eapply quiet_later; [exact Hq|]); clear Hq; [done|..]; constructor; cbn; try apply Hrefl.
- intros i x Hi. exists x. rewrite lookup_insert_ne by congruence. by split.
- intros i x Hi. destruct (decide (i = id)) as [->|Hne].
  + exists (f x). rewrite lookup_alter_eq, Hi. split; [done|by apply Hf].
  + exists x. rewrite lookup_alter_ne by done. by split.
- intros i x Hi. exists x. rewrite lookup_insert_ne by congruence. split; [done|apply same_session_refl].
- intros i x Hi. destruct (decide (i = id)) as [->|Hne].
  + exists r'. rewrite lookup_insert_eq. split; [done|]. congruence.
  + exists x. rewrite lookup_insert_ne by done. split; [done|apply same_session_refl].
- by apply insert_subseteq.
- intros i x Hi. exists x. rewrite lookup_insert_ne by congruence. done.
- intros i x Hi. destruct (decide (i = id)) as [->|Hne].
  + eexists. rewrite lookup_alter_eq, Hi. split; [done|]. done.
  + exists x. by rewrite lookup_alter_ne by done.
- intros i x Hi. exists x. rewrite lookup_insert_ne by congruence. by split.
- by apply prefix_app_r.
- intros i x Hi. destruct (decide (i = id)) as [->|Hne].
  + exists k'. rewrite lookup_insert_eq. split; [done|]. congruence.
  + exists x. rewrite lookup_insert_ne by done. by split.
Qed.

Definition changes now := rtc (change now).
Lemma changes_inv now s s' : changes now s s' → ten_inv s → ten_inv s'.
Proof. induction 1; eauto using change_inv. Qed.
Lemma changes_owned now s s' : changes now s s' → all_owned s → all_owned s'.
Proof. induction 1; [done|]. eauto using change_owned. Qed.
Lemma changes_later now s s' : changes now s s' → later now s s'.
Proof. induction 1; [apply later_refl|]. eapply later_trans; [|by apply change_later|done]. done. Qed.
End changes.

(** ** Every operation is a sequence of changes *)

Section operations.
Context `{Entropy, Sha256, HmacSha256, CaseFold, PasswordHasher, SessionTokens, IdentitySettings}.
Implicit Types (s : db).

Lemma quiet_change now s s' : quiet s s' → changes now s s'.
Proof. intros. by apply rtc_once, ch_quiet. Qed.

Lemma insert_user_spec u s : wp (insert_user u) (λ id s', users s !! id = None ∧
  exists_row (with_email (us_email_normalized u)) (users s) = false ∧ quiet (s <| users ::= <[id := u]> |>) s') s.
Proof. unfold insert_user. apply wp_bind. intros id s1 [= <- <-]. wp_steps. breflect. split_and!; [by apply eq_None_not_Some|done|done]. Qed.
Lemma insert_organization_spec o s : wp (insert_organization o) (λ id s', organizations s !! id = None ∧
  exists_row (with_slug (og_slug o)) (organizations s) = false ∧ quiet (s <| organizations ::= <[id := o]> |>) s') s.
Proof. unfold insert_organization. apply wp_bind. intros id s1 [= <- <-]. wp_steps. breflect. split_and!; [by apply eq_None_not_Some|done|done]. Qed.
Lemma insert_membership_spec m s : wp (insert_membership m) (λ _ s', ∃ id, memberships s !! id = None ∧
  exists_row (member_of (mb_organization_id m) (mb_user_id m)) (memberships s) = false ∧
  quiet (s <| memberships ::= <[id := m]> |>) s') s.
Proof. unfold insert_membership. apply wp_bind. intros id s1 [= <- <-]. wp_steps. breflect. eexists. split_and!; [by apply eq_None_not_Some|done|done]. Qed.
Lemma insert_session_spec r s : wp (insert_session r) (λ id s', sessions s !! id = None ∧
  exists_row (with_token (se_token_digest r)) (sessions s) = false ∧ quiet (s <| sessions ::= <[id := r]> |>) s') s.
Proof. unfold insert_session. apply wp_bind. intros id s1 [= <- <-]. wp_steps. breflect. split_and!; [by apply eq_None_not_Some|done|done]. Qed.
Lemma insert_project_spec p s : wp (insert_project p) (λ id s', projects s !! id = None ∧
  exists_row (project_slug (pj_organization_id p) (pj_slug p)) (projects s) = false ∧
  quiet (s <| projects ::= <[id := p]> |>) s') s.
Proof. unfold insert_project. apply wp_bind. intros id s1 [= <- <-]. wp_steps. breflect. split_and!; [by apply eq_None_not_Some|done|done]. Qed.
Lemma insert_api_key_spec k s : wp (insert_api_key k) (λ id s', api_keys s !! id = None ∧
  exists_row (key_with_digest (ak_token_digest k)) (api_keys s) = false ∧
  quiet (s <| api_keys ::= <[id := k]> |>) s') s.
Proof. unfold insert_api_key. apply wp_bind. intros id s1 [= <- <-]. wp_steps. breflect. split_and!; [by apply eq_None_not_Some|done|done]. Qed.

Lemma hash_opt_same v s : wp (hash_opt v) (λ _ s', s' = s) s.
Proof. unfold hash_opt. destruct v as [[|c v]|]; [by apply wp_ret| |by apply wp_ret]. apply wp_bind, wp_lift. intros a _. by apply wp_ret. Qed.

(** What a sign-in leaves behind. *)
Record issued_ok (now : time) (uid : uuid) (i : IssuedSession) : Prop := {
io_token : secret_digest (is_raw_token i) session_token_pepper = inr (se_token_digest (is_session i));
io_csrf : is_csrf_token i = derive_csrf_token (is_session_id i) (se_token_digest (is_session i)) csrf_token_pepper;
io_session : session_ok (is_session_id i) (is_session i);
io_user : se_user_id (is_session i) = uid ∧ is_user_id i = uid;
io_open : se_revoked_at (is_session i) = None;
io_seen : se_last_seen_at (is_session i) = now;
io_idle : se_idle_expires_at (is_session i) = now + minutes session_idle_minutes;
io_absolute : se_absolute_expires_at (is_session i) = now + hours session_absolute_hours }.

Lemma issue_session_spec uid ua ip now s : wp (issue_session uid ua ip now) (λ i s',
  sessions s !! is_session_id i = None ∧ exists_row (with_token (se_token_digest (is_session i))) (sessions s) = false ∧
  issued_ok now uid i ∧ quiet (s <| sessions ::= <[is_session_id i := is_session i]> |>) s') s.
Proof.
unfold issue_session. apply wp_bind. intros token s1 [= <- <-]. apply wp_bind, wp_lift. intros d Hd.
apply wp_bind. eapply wp_mono; [|apply hash_opt_same]. intros ua' ? ->.
apply wp_bind. eapply wp_mono; [|apply hash_opt_same]. intros ip' ? ->.
cbv zeta. apply wp_bind. eapply wp_mono; [|apply insert_session_spec]. intros id s2 (Hid & He & Hq). cbn in Hid, He.
apply wp_bind, wp_lift. intros csrf Hcsrf. rewrite csrf_digest in Hcsrf. injection Hcsrf as <-. wp_steps. cbn.
split_and!; [done|done|by constructor|]. destruct Hq. constructor; cbn in *; try congruence.
rewrite qt_sessions0. by rewrite insert_insert_eq.
Qed.
Lemma issue_session_changes uid ua ip now s : wp (issue_session uid ua ip now) (λ i s', changes now s s' ∧
  issued_ok now uid i ∧ sessions s' !! is_session_id i = Some (is_session i) ∧ users s' = users s) s.
Proof.
eapply wp_mono; [|apply issue_session_spec]. intros i s' (Hid & He & Hi & Hq). split_and!; [|done| |by apply (qt_users _ _ Hq)].
- by eapply rtc_once, (ch_session _ _ _ _ _ Hid He (io_session _ _ _ Hi)).
- by rewrite (qt_sessions _ _ Hq); cbn; rewrite lookup_insert_eq.
Qed.

#[local] Instance changes_preorder now : PreOrder (changes now).
Proof. unfold changes. apply _. Qed.

(** An organisation row and the membership of its owner. *)
Lemma organization_change now s s1 s2 id mid user o : organizations s !! id = None →
exists_row (with_slug (og_slug o)) (organizations s) = false → quiet (s <| organizations ::= <[id := o]> |>) s1 →
memberships s1 !! mid = None → exists_row (member_of id user) (memberships s1) = false →
quiet (s1 <| memberships ::= <[mid := owner_of id user now]> |>) s2 → changes now s s2.
Proof.
intros Hid He [] Hmid Hm []. cbn in *. rewrite qt_memberships0 in Hmid, Hm.
eapply rtc_once, (ch_organization _ _ _ id mid user o); [done..|]. constructor; cbn in *; congruence.
Qed.

Lemma register_changes payload rq ua ip now s : wp (register payload rq ua ip now) (λ i s', changes now s s' ∧
  ∃ uid, users s !! uid = None ∧ issued_ok now uid i ∧ sessions s' !! is_session_id i = Some (is_session i) ∧
  is_Some (users s' !! uid)) s.
Proof.
unfold register, first_user. wp_steps. intros h s1 [= <- <-]. set (u := MkUser _ _ _ _ _ _ _). apply wp_bind.
eapply wp_mono; [|apply insert_user_spec]. intros uid s2 (Hu & Heu & Hq2). apply wp_bind.
eapply wp_mono; [|apply insert_organization_spec]. intros org s3 (Ho & Heo & Hq3). apply wp_bind.
eapply wp_mono; [|apply insert_membership_spec]. intros [] s4 (mid & Hm & Hem & Hq4). wp_steps.
eapply wp_mono; [|apply issue_session_changes]. intros i s5 (Hch & Hi & Hs & Hus). cbn in Hus. split.
- etrans; [eapply rtc_once, (ch_user _ s _ uid u Hu Heu); destruct Hq2; by constructor|].
  etrans; [by eapply (organization_change now s2 s3 s4 org mid uid)|].
  etrans; [|exact Hch]. by apply quiet_change.
- exists uid. split_and!; try done. rewrite Hus, (qt_users _ _ Hq4). cbn. rewrite (qt_users _ _ Hq3). cbn.
  rewrite (qt_users _ _ Hq2). cbn. by rewrite lookup_insert_eq.
Qed.

Lemma create_organization_changes uid name slug rq now s : wp (create_organization uid name slug rq now) (λ _ s', changes now s s') s.
Proof.
unfold create_organization. wp_steps. eapply wp_mono; [|apply insert_organization_spec]. intros org s3 (Ho & Heo & Hq3). apply wp_bind.
eapply wp_mono; [|apply insert_membership_spec]. intros [] s4 (mid & Hm & Hem & Hq4). wp_steps.
etrans; [by eapply (organization_change now s s3 s4 org mid uid)|]. by apply quiet_change.
Qed.
Lemma create_project_changes org uid name slug d rq now s : wp (create_project org uid name slug d rq) (λ _ s', changes now s s') s.
Proof.
unfold create_project. wp_steps. eapply wp_mono; [|apply insert_project_spec]. intros id s3 (Ho & Heo & Hq3). wp_steps.
etrans; [by eapply rtc_once, (ch_project _ _ _ _ _ Ho Heo)|]. by apply quiet_change.
Qed.

Lemma failed_same u now row : same_user row (failed_login u now row).
Proof. unfold failed_login. destruct (_ <=? _); by constructor. Qed.
Lemma succeeded_same u h row : same_user row (succeeded_login u h row).
Proof. by constructor. Qed.

(** A login is refused after counting the failure, or signs in. *)
Lemma login_user_changes uid u pw rq ua ip now s : wp (login_user uid u pw rq ua ip now) (λ r s', changes now s s' ∧
  match r with
  | inl e => e = ApiError 401 "CREDENTIAL_INVALID" ∧ users s' = alter (failed_login u now) uid (users s) ∧
      (password_checked u now && verify_password (us_password_hash u) pw) = false
  | inr i => issued_ok now uid i ∧ sessions s' !! is_session_id i = Some (is_session i) ∧
      (password_checked u now && verify_password (us_password_hash u) pw) = true ∧
      ∃ h, users s' = alter (succeeded_login u h) uid (users s)
  end) s.
Proof.
unfold login_user. destruct (password_checked u now && verify_password (us_password_hash u) pw) eqn:E; cbn [negb].
- apply wp_bind. eapply (wp_mono _ (λ _ s', quiet s s')).
  + intros h s1 Hq. wp_steps. eapply wp_mono; [|apply issue_session_changes]. intros i s2 (Hch & Hi & Hs & Hus). wp_steps. split.
    * etrans; [by apply quiet_change|]. etrans; [eapply rtc_once, (ch_login _ s1 _ uid (succeeded_login u h))|].
      -- intros u' _. apply succeeded_same.
      -- apply quiet_refl.
      -- etrans; [exact Hch|]. by apply quiet_change.
    * split_and!; [done..|]. exists h. cbn. rewrite Hus. cbn. by rewrite (qt_users _ _ Hq).
  + destruct (needs_password_rehash _); [|by apply wp_ret]. apply wp_bind. intros h s1 [= <- <-]. by apply wp_ret.
- wp_steps. split; [|done]. eapply rtc_once, (ch_login _ s _ uid (failed_login u now)); [|apply quiet_refl]. intros u' _. apply failed_same.
Qed.
Lemma login_changes email pw rq ua ip now s : wp (login email pw rq ua ip now) (λ r s', changes now s s' ∧
  ∃ uid u, users s !! uid = Some u ∧ us_email_normalized u = normalize_email email ∧
  match r with
  | inl e => e = ApiError 401 "CREDENTIAL_INVALID" ∧ users s' = alter (failed_login u now) uid (users s) ∧
      (password_checked u now && verify_password (us_password_hash u) pw) = false
  | inr i => issued_ok now uid i ∧ sessions s' !! is_session_id i = Some (is_session i) ∧
      (password_checked u now && verify_password (us_password_hash u) pw) = true ∧
      ∃ h, users s' = alter (succeeded_login u h) uid (users s)
  end) s.
Proof.
unfold login, first_user. wp_steps. eapply wp_mono; [|apply login_user_changes]. intros r s' [Hch Hr]. split; [done|].
match goal with H : head _ = Some _ |- _ => apply head_select_Some in H as [Hu He] end. unfold with_email in He. breflect.
eexists _, _. split_and!; try done.
Qed.

(** ** Roles and keys *)

Definition valid_request (r : request) : Prop :=
match r with
| UpdateRole _ _ role _ => role ∈ ROLES
| CreateApiKey _ payload _ => ck_environment payload ∈ [lit "live"; lit "test"]
| _ => True
end.

Lemma read_role_spec org mid role v s : wp (read_role_update org mid role v) (λ m s', s' = s ∧ memberships s !! mid = Some m ∧
  mb_organization_id m = org ∧ mb_status m = "ACTIVE"%string ∧ mb_version m = v ∧ demotable s m role) s.
Proof.
unfold read_role_update. wp_steps. breflect.
match goal with H : (_ ≫= _) = Some _ |- _ => apply bind_Some in H as (m & Hm & Ha) end.
destruct (active_in org mid m) eqn:Eact; [|done]. injection Ha as <-. unfold active_in in Eact. breflect.
split_and!; try done. intros Hown. destruct (decide (role = "owner"%string)) as [|Hne]; [by left|right].
rewrite (bool_decide_eq_true_2 _ Hown), (bool_decide_eq_false_2 _ Hne) in *. cbn in *.
match goal with H : (_ <=? _)%nat = false |- _ => apply Nat.leb_gt in H end. by subst org.
Qed.
Lemma update_role_changes org mid actor role v rq now s : role ∈ ROLES →
wp (update_membership_role org mid actor role v rq now) (λ m' s', changes now s s' ∧
  ∃ m, memberships s !! mid = Some m ∧ mb_organization_id m = org ∧ mb_version m = v ∧ demotable s m role ∧
    m' = write_role m role now m ∧ memberships s' = <[mid := m']> (memberships s)) s.
Proof.
intros Hrole. unfold update_membership_role. wp_steps. eapply wp_mono; [|apply read_role_spec].
intros m s1 (-> & Hm & Eo & Est & Ev & Hd). unfold apply_role_update. wp_steps. split.
- etrans; [by eapply rtc_once, (ch_role _ s _ mid m role); [..|apply quiet_refl]|]. by apply quiet_change.
- exists m. split_and!; try done. cbn. apply map_eq. intros i.
  destruct (decide (i = mid)) as [->|]; [by rewrite lookup_alter_eq, Hm, lookup_insert_eq|by rewrite lookup_alter_ne, lookup_insert_ne].
Qed.

(** The record an accepted creation leaves. *)
Definition key_scope (org user : uuid) (digest : pystr) (rc : IdempotencyRecord ()) : bool :=
in_scope org (str_of_uuid user) API_KEY_ENDPOINT digest rc.
Record created_key (org user : uuid) (payload : CreateApiKeyRequest) (idem : pystr) (rc : IdempotencyRecord ())
  (id : uuid) (k : ApiKey) (token : pystr) : Prop := {
ck_valid : ∃ scopes, validate_scopes (ck_scopes payload) = inr scopes ∧ ak_scopes k = scopes ∧
  canonical_fingerprint (api_key_request payload scopes) = Some (i_request_fingerprint rc);
ck_digest : secret_digest token api_key_pepper = inr (ak_token_digest k);
ck_token : ∃ ik, derive_api_key (ck_environment payload) org user idem api_key_issuance_secret = inr ik ∧ token = ik_raw_token ik;
ck_row : ak_organization_id k = org ∧ ak_created_by_user_id k = user ∧ ak_expires_at k = fst <$> ck_expires_at payload ∧
  ak_revoked_at k = None;
ck_key : ∃ b, encode idem = inr b ∧ key_scope org user (sha256_hex b) rc = true;
ck_resource : i_resource_id rc = id;
ck_length : valid_idempotency_key idem = true }.

Lemma create_api_key_changes org user payload idem rq now s : wp (create_api_key org user payload idem rq now) (λ a s',
  changes now s s' ∧ ((s' = s ∧ ∃ k, api_keys s !! a.1.1 = Some k ∧ a.1.2 = k ∧ ak_organization_id k = org) ∨
   ∃ rc, created_key org user payload idem rc a.1.1 a.1.2 a.2 ∧
     (∀ b, encode idem = inr b → find (key_scope org user (sha256_hex b)) (idempotency s) = None) ∧
     idempotency s' = idempotency s ++ [rc] ∧ api_keys s' !! a.1.1 = Some a.1.2)) s.
Proof.
unfold create_api_key. apply wp_bind, wp_raise_if. intros Hvalid. apply wp_bind.
destruct (validate_scopes (ck_scopes payload)) as [e|scopes] eqn:Hsc; [apply wp_raise|]. apply wp_ret.
apply wp_bind, wp_get_or_raise. intros fp Hfp. apply wp_bind, wp_lift. intros kb Hkb. apply wp_bind, wp_gets. apply wp_bind, wp_lift.
intros issued Hissued. destruct (find _ (idempotency s)) as [r|] eqn:Efind.
- wp_steps. split; [reflexivity|left]. split; [done|].
  match goal with H : (_ ≫= _) = Some _ |- _ => apply bind_Some in H as (k & Hk & Ho) end.
  case_bool_decide; [|done]. injection Ho as <-. by exists k.
- apply wp_bind, wp_lift. intros d Hd. cbv zeta. set (k := MkApiKey _ _ _ _ _ _ _ _ _ _ _ _ _). apply wp_bind.
  eapply wp_mono; [|apply insert_api_key_spec]. intros id s1 (Hid & He & Hq). wp_steps. cbn [fst snd].
  match goal with |- context [_ ++ [?x]] => set (rc := x) end. split.
  + etrans; [|by apply quiet_change]. eapply rtc_once, (ch_key _ s _ id k rc); try done.
    * apply validate_scopes_inv in Hsc as (_ & Hnd & Hsort & Hall). by split_and!.
    * destruct Hq. constructor; cbn in *; congruence.
  + right. exists rc. split.
    * constructor; cbn; try done; [by exists scopes|by exists issued| |by apply negb_false_iff].
      exists kb. split; [done|]. unfold key_scope, in_scope. cbn. by rewrite !bool_decide_eq_true_2.
    * split_and!.
      -- intros b Hb. rewrite Hkb in Hb. injection Hb as <-. exact Efind.
      -- cbn. by rewrite (qt_idempotency _ _ Hq).
      -- cbn. rewrite (qt_api_keys _ _ Hq). cbn. by rewrite lookup_insert_eq.
Qed.

Lemma revoke_api_key_changes org kid actor rq now s : wp (revoke_api_key org kid actor rq now) (λ _ s', changes now s s' ∧
  memberships s' = memberships s ∧ users s' = users s ∧
  ∃ k, api_keys s' !! kid = Some k ∧ is_Some (ak_revoked_at k)) s.
Proof.
unfold revoke_api_key. wp_steps.
all: match goal with H : (_ ≫= _) = Some _ |- _ => apply bind_Some in H as (k & Hk & Ho) end; case_bool_decide; [|done]; injection Ho as <-.
- split_and!; try done. exists k. by rewrite Hk.
- split_and!; try done.
  + etrans; [|by apply quiet_change]. eapply rtc_once, (ch_key_row _ s _ kid k); [exact Hk| |].
    2: { constructor; cbn; try done. apply map_eq. intros i. destruct (decide (i = kid)) as [->|];
         [by rewrite lookup_alter_eq, Hk, lookup_insert_eq|by rewrite lookup_alter_ne, lookup_insert_ne]. }
    constructor; try done. cbn. by intros [? ?]; congruence.
  + cbn. eexists. rewrite lookup_alter_eq, Hk. by split.
Qed.

(** ** Credentials *)

Definition user_active s (uid : uuid) : Prop := ∃ u, users s !! uid = Some u ∧ us_status u = "ACTIVE"%string.
Definition bearer (c : credentials) (token : pystr) : Prop := ∃ a scheme, cr_authorization c = Some a ∧
partition_space a = (scheme, token) ∧ casefold scheme = lit "bearer" ∧ token ≠ [].
Definition session_open (now : time) (r : Session) : Prop :=
se_revoked_at r = None ∧ now < se_idle_expires_at r ∧ now < se_absolute_expires_at r.
Definition key_open (now : time) (k : ApiKey) : Prop :=
ak_revoked_at k = None ∧ match ak_expires_at k with Some t => now < t | None => True end.

(** Whom the credentials of a request stand for. *)
Definition authentic s (now : time) (c : credentials) (x : AuthContext) : Prop :=
user_active s (cx_user_id x) ∧
match cx_principal x with
| ApiKeyAuth kid k' => ∃ k token, api_keys s !! kid = Some k ∧ same_key k k' ∧ key_open now k ∧
    cx_user_id x = ak_created_by_user_id k ∧ bearer c token ∧ secret_digest token api_key_pepper = inr (ak_token_digest k)
| SessionAuth sid r' => ∃ r cookie, sessions s !! sid = Some r ∧ same_session now r r' ∧ session_open now r ∧
    cx_user_id x = se_user_id r ∧ cr_session_cookie c = Some cookie ∧
    secret_digest cookie session_token_pepper = inr (se_token_digest r)
end.

(** Only the row of the credential is touched. *)
Record touches s s' (x : AuthContext) : Prop := {
to_users : users s' = users s;
to_memberships : memberships s' = memberships s;
to_organizations : organizations s' = organizations s;
to_projects : projects s' = projects s;
to_idempotency : idempotency s' = idempotency s;
to_row : match cx_principal x with
  | ApiKeyAuth kid k' => sessions s' = sessions s ∧ api_keys s' = <[kid := k']> (api_keys s)
  | SessionAuth sid r' => api_keys s' = api_keys s ∧ sessions s' = <[sid := r']> (sessions s)
  end }.

Lemma active_user_spec uid e s : wp (active_user uid e) (λ _ s', s' = s ∧ user_active s uid) s.
Proof. unfold active_user. wp_steps. breflect. split; [done|]. eexists. by split. Qed.

Lemma resolve_api_key_spec c a now s : cr_authorization c = Some a →
wp (resolve_api_key a now) (λ x s', changes now s s' ∧ authentic s now c x ∧ touches s s' x) s.
Proof.
intros Ha. unfold resolve_api_key. destruct (partition_space a) as [scheme token] eqn:Ep. apply wp_bind, wp_raise_if. intros Hs.
apply orb_false_elim in Hs as [Hs Ht]. breflect. apply wp_bind, wp_lift. intros d Hd. wp_steps.
match goal with H : head _ = Some _ |- _ => apply head_select_Some in H as [Hk Hdig] end.
match goal with H : _ || _ = false |- _ => apply orb_false_elim in H as [Hrev Hexp] end.
unfold key_with_digest in Hdig. breflect. subst d.
eapply wp_mono; [|apply active_user_spec]. intros [] s1 (-> & Hact). wp_steps.
match goal with H : api_keys s !! ?i = Some ?k0 |- _ => rename k0 into k; rename i into kid end.
assert (Hrn : ak_revoked_at k = None) by by apply eq_None_not_Some.
split_and!.
- eapply rtc_once, (ch_key_row _ s _ kid k); [exact Hk| |apply quiet_refl]. by constructor.
- split; [exact Hact|]. cbn. exists k, token. split; [done|]. split; [by constructor|]. split.
  + split; [done|]. unfold is_expired in Hexp. destruct (ak_expires_at k); [|done]. by breflect.
  + split; [done|]. split; [by exists a, scheme|done].
- by constructor.
Qed.

Lemma resolve_session_spec c cookie now s : cr_session_cookie c = Some cookie →
wp (resolve_session cookie now) (λ x s', changes now s s' ∧ authentic s now c x ∧ touches s s' x) s.
Proof.
intros Hc. unfold resolve_session. apply wp_bind, wp_lift. intros d Hd. apply wp_bind, wp_gets. apply wp_bind, wp_get_or_raise.
intros [sid r] Hh. apply head_select_Some in Hh as [Hr Hdig]. unfold with_token in Hdig. breflect. subst d.
apply wp_bind, wp_raise_if. intros Hrev. destruct (_ || _) eqn:Eexp; [apply wp_bind, wp_modify, wp_raise|].
apply orb_false_elim in Eexp as [Hi Habs]. breflect.
apply wp_bind. eapply wp_mono; [|apply active_user_spec]. intros [] s1 (-> & Hact). cbv zeta. apply wp_bind, wp_modify, wp_ret.
set (r' := if _ : bool then _ else r).
assert (Hsame : same_session now r r') by (unfold r'; destruct (_ <=? _); [constructor; cbn; done || lia|apply same_session_refl]).
assert (se_revoked_at r = None) by by apply eq_None_not_Some.
split_and!.
- by eapply rtc_once, (ch_session_row _ s _ sid r); [..|apply quiet_refl].
- pose proof (ss_user _ _ _ Hsame) as Hus. split; cbn; rewrite Hus; [exact Hact|]. exists r, cookie. by split_and!.
- by constructor.
Qed.

Lemma resolve_spec c now s : wp (resolve_auth_context c now) (λ x s', changes now s s' ∧ authentic s now c x ∧ touches s s' x) s.
Proof.
unfold resolve_auth_context.
assert (Hcookie : wp match cr_session_cookie c with Some ((_ :: _) as cookie) => resolve_session cookie now | _ => raise auth_required end
  (λ x s', changes now s s' ∧ authentic s now c x ∧ touches s s' x) s).
{ destruct (cr_session_cookie c) as [[|b m]|] eqn:Ec; [apply wp_raise| |apply wp_raise]. apply resolve_session_spec. exact Ec. }
destruct (cr_authorization c) as [[|a l]|] eqn:Ea; [exact Hcookie| |exact Hcookie]. apply resolve_api_key_spec. exact Ea.
Qed.

Lemma require_csrf_same c x s : wp (require_csrf c x) (λ _ s', s' = s) s.
Proof.
unfold require_csrf. destruct (cx_principal x); [|by apply wp_ret]. destruct (cr_csrf c) as [[|a l]|]; [apply wp_raise| |apply wp_raise].
apply wp_bind, wp_lift. intros v _. by apply wp_raise_if.
Qed.

(** What allows a caller to act in an organisation. *)
Definition authorized s (x : AuthContext) (org : uuid) (permission : string) : Prop :=
match cx_principal x with
| ApiKeyAuth _ k => ak_organization_id k = org ∧ lit permission ∈ ak_scopes k
| SessionAuth _ _ => ∃ mid m, memberships s !! mid = Some m ∧ mb_organization_id m = org ∧ mb_user_id m = cx_user_id x ∧
    mb_status m = "ACTIVE"%string ∧ role_has_permission (mb_role m) permission = true
end.
Lemma authorize_spec x org perm s : wp (authorize_organization x org perm) (λ _ s', s' = s ∧ authorized s x org perm) s.
Proof.
unfold authorize_organization, authorized. destruct (cx_principal x) as [sid r|kid k].
- unfold membership_of. wp_steps.
  match goal with H : head _ = Some _ |- _ => apply head_select_Some in H as [Hm Ha] end.
  unfold active_member, member_of in Ha. breflect. split; [done|]. eexists _, _. by split_and!.
- wp_steps. match goal with H : _ || _ = false |- _ => apply orb_false_elim in H as [? ?] end. by breflect.
Qed.

Lemma read_access_spec c perm org now s : wp (read_access c perm org now) (λ x s', changes now s s' ∧ authentic s now c x ∧
  touches s s' x ∧ authorized s x org perm) s.
Proof.
unfold read_access, require_organization_permission. apply wp_bind. eapply wp_mono; [|apply resolve_spec].
intros x s1 (Hch & Hau & Ht). apply wp_bind. eapply wp_mono; [|apply authorize_spec]. intros [] s2 (-> & Haz). apply wp_ret.
split_and!; try done. unfold authorized in *. by rewrite (to_memberships _ _ _ Ht) in Haz.
Qed.
Lemma write_access_spec c perm org now s : wp (write_access c perm org now) (λ x s', changes now s s' ∧ authentic s now c x ∧
  touches s s' x ∧ authorized s x org perm) s.
Proof.
unfold write_access, require_organization_permission. apply wp_bind. eapply wp_mono; [|apply resolve_spec].
intros x s1 (Hch & Hau & Ht). apply wp_bind. eapply wp_mono; [|apply require_csrf_same]. intros [] ? ->.
apply wp_bind. eapply wp_mono; [|apply authorize_spec]. intros [] s2 (-> & Haz). apply wp_ret.
split_and!; try done. unfold authorized in *. by rewrite (to_memberships _ _ _ Ht) in Haz.
Qed.

(** ** Requests *)

Section requests.
Context (resources : resource_kind → gmap uuid owned).

Implicit Types (e : envelope) (c : credentials) (x : AuthContext).
Ltac chain := etrans; [eassumption|].

Lemma register_route_changes e payload now s : wp (register_route e payload now) (λ _ s', changes now s s') s.
Proof.
unfold register_route, require_allowed_origin. destruct (cr_origin _); wp_steps;
  (eapply wp_mono; [|apply register_changes]); intros i s' [Hch _]; by wp_steps.
Qed.
Lemma logout_route_changes e now s : wp (logout_route e now) (λ _ s', changes now s s') s.
Proof.
unfold logout_route. apply wp_bind. eapply wp_mono; [|apply resolve_spec]. intros x s1 (Hch & Hau & Ht).
apply wp_bind. eapply wp_mono; [|apply require_csrf_same]. intros [] ? ->.
apply wp_bind. destruct (cx_principal x) as [sid r'|kid k'] eqn:Ex; [|by wp_steps]. unfold revoke_session. wp_steps. chain.
pose proof (to_row _ _ _ Ht) as Hrow. rewrite Ex in Hrow. destruct Hrow as [_ Hse].
etrans; [|by apply quiet_change]. eapply rtc_once, (ch_session_row _ s1 _ sid r'
  (r' <| se_revoked_at := Some now |> <| se_revoke_reason := Some "logout"%string |>));
  [by rewrite Hse, lookup_insert_eq|by constructor|].
constructor; cbn; try done. apply map_eq. intros i. destruct (decide (i = sid)) as [->|];
  [by rewrite lookup_alter_eq, Hse, !lookup_insert_eq|by rewrite lookup_alter_ne, lookup_insert_ne].
Qed.
Lemma create_organization_route_changes e name slug now s :
wp (create_organization_route e name slug now) (λ _ s', changes now s s') s.
Proof.
unfold create_organization_route. apply wp_bind. eapply wp_mono; [|apply resolve_spec]. intros x s1 (Hch & _).
apply wp_bind. eapply wp_mono; [|apply require_csrf_same]. intros [] ? ->. unfold require_session_auth.
wp_steps; eapply wp_mono; [|apply create_organization_changes]. intros [] s2 Hch2. wp_steps. by chain.
Qed.

(** The organisation routes that write: access first, then the service. *)
Lemma write_route {A} e perm org now (k : AuthContext → Prelude.M db A) (Q : A → db → Prop) s :
(∀ x s1, changes now s s1 → authentic s now (en_credentials e) x → touches s s1 x → authorized s x org perm →
   wp (k x) (λ a s', changes now s1 s' ∧ Q a s') s1) →
wp (write_access (en_credentials e) perm org now ≫= k) (λ a s', changes now s s' ∧ Q a s') s.
Proof.
intros Hk. apply wp_bind. eapply wp_mono; [|apply write_access_spec]. intros x s1 (Hch & Hau & Ht & Haz).
eapply wp_mono; [|by apply Hk]. intros a s' [Hch' HQ]. split; [by chain|done].
Qed.
Lemma read_route {A} e perm org now (k : AuthContext → Prelude.M db A) (Q : A → db → Prop) s :
(∀ x s1, changes now s s1 → authentic s now (en_credentials e) x → touches s s1 x → authorized s x org perm →
   wp (k x) (λ a s', changes now s1 s' ∧ Q a s') s1) →
wp (read_access (en_credentials e) perm org now ≫= k) (λ a s', changes now s s' ∧ Q a s') s.
Proof.
intros Hk. apply wp_bind. eapply wp_mono; [|apply read_access_spec]. intros x s1 (Hch & Hau & Ht & Haz).
eapply wp_mono; [|by apply Hk]. intros a s' [Hch' HQ]. split; [by chain|done].
Qed.

(** Access to a resource. *)
Lemma access_resource_spec e k id perm now s : wp (access_resource resources e k id perm now) (λ a s', changes now s s' ∧
  ∃ x o, a = Granted x o ∧ authentic s now (en_credentials e) x ∧ touches s s' x ∧ resource_row resources k id s = Some o ∧
    present k o = true ∧ authorized s x (ow_organization_id o) perm ∧
    exists_row (active_member (ow_organization_id o) (cx_user_id x)) (memberships s) = true) s.
Proof.
unfold access_resource. apply wp_bind. eapply wp_mono; [|apply resolve_spec]. intros x s1 (Hch & Hau & Ht). apply wp_bind.
assert (Erow : resource_row resources k id s1 = resource_row resources k id s).
{ unfold resource_row. by rewrite (to_projects _ _ _ Ht). }
unfold require_resource_permission, resolved_organization_id. wp_steps.
match goal with H : (_ ≫= _) = Some _ |- _ => apply bind_Some in H as (o & Ho & Hif) end.
destruct (present k o && _) eqn:Ep; [|done]. injection Hif as <-. apply andb_prop in Ep as [Ep Em].
eapply wp_mono; [|apply authorize_spec]. intros [] ? [-> Haz]. wp_steps.
match goal with H : (_ ≫= _) = Some _ |- _ => rewrite Ho in H; cbn in H; rewrite bool_decide_eq_true_2, Ep in H by done; injection H as <- end.
split; [done|]. exists x, o. unfold authorized in *. rewrite (to_memberships _ _ _ Ht) in *. rewrite <- Erow. by split_and!.
Qed.

Lemma handle_changes e r now s : valid_request r → wp (handle resources e r now) (λ _ s', changes now s s') s.
Proof.
intros Hr. unfold handle. destruct r as [payload|email pw| |name slug|org name slug d|org|org mid role v|org|org payload idem|org kid|org perm|k id perm].
2: { unfold login_route, require_allowed_origin. destruct (cr_origin _); wp_steps;
  (eapply wp_mono; [|apply login_changes]); intros i s' [Hch _]; by wp_steps. }
all: apply wp_bind; eapply (wp_mono _ (λ _ s', changes now s s' ∧ True)); [by intros a s' [? _]; apply wp_ret|].
- eapply wp_mono; [|apply register_route_changes]. done.
- eapply wp_mono; [|apply logout_route_changes]. done.
- eapply wp_mono; [|apply create_organization_route_changes]. done.
- apply write_route. intros x s1 _ _ _ _. apply wp_bind. eapply wp_mono; [|apply create_project_changes].
  intros [] s2 Hch. by wp_steps.
- apply read_route. intros x s1 _ _ _ _. unfold list_memberships. by wp_steps.
- apply write_route. intros x s1 _ _ _ _. apply wp_bind. eapply wp_mono; [|by apply update_role_changes]. intros m s2 [Hch _]. by wp_steps.
- apply read_route. intros x s1 _ _ _ _. unfold list_api_keys. by wp_steps.
- apply write_route. intros x s1 _ _ _ _. wp_steps. eapply wp_mono; [|apply create_api_key_changes]. intros [[] ?] s2 [Hch _]. by wp_steps.
- apply write_route. intros x s1 _ _ _ _. apply wp_bind. eapply wp_mono; [|apply revoke_api_key_changes]. intros [] s2 [Hch _]. by wp_steps.
- apply read_route. intros x s1 _ _ _ _. by wp_steps.
- eapply wp_mono; [|apply access_resource_spec]. by intros a s' [? _].
Qed.

Lemma serve_changes e r now s : valid_request r → changes now s (serve resources e r now s).2.
Proof.
intros Hr. unfold serve, transaction. pose proof (handle_changes e r now s Hr) as Hh. destruct (handle resources e r now s) as [[x|a] s'] eqn:E.
- by apply quiet_change.
- by apply (Hh a).
Qed.
End requests.
End operations.
