(* ===== verification/TenancyRuns.v ===== *)
(** Runs of the identity routes: what each request can touch, and what holds after any
    sequence of requests, failed or not. *)

From S2P Require Import Prelude PyVal PyUuid QueueProtocol EventProtocol Idempotency.
From S2P Require Import Pagination Security Permissions Identity Access Tenancy TenancySpec.

Section footprint.
Context `{Entropy, Sha256, HmacSha256, CaseFold, PasswordHasher, SessionTokens, IdentitySettings}.
Implicit Types (s : db).

(** A new account: nobody has tried its password. *)
Definition untried (u : User) : Prop := us_failed_login_count u = 0 ∧ us_locked_until u = None.
Lemma untried_new email display hash name status : untried (MkUser email display hash name status 0 None).
Proof. done. Qed.

(** A relation between the tables before and after that only a login and a role update can
  break. *)
Section keep.
Context (R : relation db) `{!PreOrder R}.
Context (R_quiet : ∀ s s', quiet s s' → R s s')
  (R_user : ∀ s id u, users s !! id = None → untried u → R s (s <| users ::= <[id := u]> |>))
  (R_member : ∀ s id m, memberships s !! id = None → R s (s <| memberships ::= <[id := m]> |>))
  (R_session : ∀ s f, R s (s <| sessions ::= f |>)) (R_organization : ∀ s f, R s (s <| organizations ::= f |>))
  (R_project : ∀ s f, R s (s <| projects ::= f |>)) (R_key : ∀ s f, R s (s <| api_keys ::= f |>))
  (R_record : ∀ s f, R s (s <| idempotency ::= f |>)).
Definition holds {A} (m : Prelude.M db A) : Prop := ∀ s, wp m (λ _ s', R s s') s.

Lemma holds_ret {A} (a : A) : holds (mret a).
Proof. intros s. by apply wp_ret. Qed.
Lemma holds_raise {A} e : holds (raise (A:=A) e).
Proof. intros s. apply wp_raise. Qed.
Lemma holds_gets {A} (f : db → A) : holds (gets f).
Proof. intros s. by apply wp_gets. Qed.
Lemma holds_raise_if b e : holds (raise_if b e).
Proof. intros s. apply wp_raise_if. by intros. Qed.
Lemma holds_get_or_raise {A} (o : option A) e : holds (get_or_raise o e).
Proof. intros s. apply wp_get_or_raise. by intros. Qed.
Lemma holds_lift {A} (r : exn + A) : holds (lift r).
Proof. intros s. apply wp_lift. by intros. Qed.
Lemma holds_bind {A B} (m : Prelude.M db A) (k : A → Prelude.M db B) : holds m → (∀ a, holds (k a)) → holds (m ≫= k).
Proof.
intros Hm Hk s. apply wp_bind. eapply wp_mono; [|apply Hm]. intros a s1 Hs1. eapply wp_mono; [|apply Hk].
intros b s2 Hs2. etrans; [exact Hs1|exact Hs2].
Qed.
Lemma holds_modify f : (∀ s, R s (f s)) → holds (modify f).
Proof. intros Hf s. apply wp_modify, Hf. Qed.
Lemma holds_audit e : holds (append_audit_event e).
Proof. apply holds_modify. intros s. by apply R_quiet. Qed.
Lemma holds_draw {A} (m : Prelude.M db A) : (∀ s, quiet s (m s).2) → holds m.
Proof. intros Hm s a s' E. apply R_quiet. specialize (Hm s). by rewrite E in Hm. Qed.

Lemma holds_insert {A} (m : Prelude.M db A) : (∀ s, wp m (λ _ s', ∃ s1, R s s1 ∧ quiet s1 s') s) → holds m.
Proof. intros Hm s. eapply wp_mono; [|apply Hm]. intros a s' (s1 & Hr & Hq). etrans; [exact Hr|by apply R_quiet]. Qed.
Lemma holds_insert_user u : untried u → holds (insert_user u).
Proof. intros Hu. apply holds_insert. intros s. eapply wp_mono; [|apply insert_user_spec]. intros id s' (? & _ & ?). eexists. by split; [apply R_user|]. Qed.
Lemma holds_insert_organization o : holds (insert_organization o).
Proof. apply holds_insert. intros s. eapply wp_mono; [|apply insert_organization_spec]. intros id s' (? & _ & ?). eexists. by split; [apply R_organization|]. Qed.
Lemma holds_insert_membership m : holds (insert_membership m).
Proof. apply holds_insert. intros s. eapply wp_mono; [|apply insert_membership_spec]. intros [] s' (id & ? & _ & ?). eexists. by split; [apply R_member|]. Qed.
Lemma holds_insert_session r : holds (insert_session r).
Proof. apply holds_insert. intros s. eapply wp_mono; [|apply insert_session_spec]. intros id s' (? & _ & ?). eexists. by split; [apply R_session|]. Qed.
Lemma holds_insert_project p : holds (insert_project p).
Proof. apply holds_insert. intros s. eapply wp_mono; [|apply insert_project_spec]. intros id s' (? & _ & ?). eexists. by split; [apply R_project|]. Qed.
Lemma holds_insert_api_key k : holds (insert_api_key k).
Proof. apply holds_insert. intros s. eapply wp_mono; [|apply insert_api_key_spec]. intros id s' (? & _ & ?). eexists. by split; [apply R_key|]. Qed.

Ltac keep_step :=
  lazymatch goal with
  | |- holds (_ ≫= _) => apply holds_bind; [|intros ?]
  | |- holds (mret _) => apply holds_ret
  | |- holds (raise _) => apply holds_raise
  | |- holds (gets _) => apply holds_gets
  | |- holds (raise_if _ _) => apply holds_raise_if
  | |- holds (get_or_raise _ _) => apply holds_get_or_raise
  | |- holds (lift _) => apply holds_lift
  | |- holds (append_audit_event _) => apply holds_audit
  | |- holds (modify _) => apply holds_modify; intros ?; first [apply R_session|apply R_key|apply R_record]
  | |- holds (λ _, _) => apply holds_draw; done
  | |- holds (let _ := _ in _) => cbv zeta
  | |- holds (match ?x with _ => _ end) => destruct x
  end.
Ltac keep := repeat keep_step;
  auto using untried_new, holds_insert_user, holds_insert_organization, holds_insert_membership, holds_insert_session,
    holds_insert_project, holds_insert_api_key.

Lemma holds_issue uid ua ip now : holds (issue_session uid ua ip now).
Proof. unfold issue_session, hash_opt, fresh_token. keep. Qed.
Lemma holds_resolve c now : holds (resolve_auth_context c now).
Proof. unfold resolve_auth_context, resolve_api_key, resolve_session, active_user. keep. Qed.
Lemma holds_csrf c x : holds (require_csrf c x).
Proof. unfold require_csrf. keep. Qed.
Lemma holds_authorize x org perm : holds (authorize_organization x org perm).
Proof. unfold authorize_organization, membership_of. keep. Qed.
Lemma holds_organization x org perm : holds (require_organization_permission perm org x).
Proof. apply holds_authorize. Qed.
Lemma holds_hash v : holds (hash_opt v).
Proof. unfold hash_opt. keep. Qed.
Lemma holds_read c perm org now : holds (read_access c perm org now).
Proof. unfold read_access. keep; [apply holds_resolve|apply holds_authorize]. Qed.
Lemma holds_write c perm org now : holds (write_access c perm org now).
Proof. unfold write_access. keep; [apply holds_resolve|apply holds_csrf|apply holds_authorize]. Qed.
Lemma holds_origin c : holds (require_allowed_origin c).
Proof. unfold require_allowed_origin. keep. Qed.

Lemma holds_other resources e r now : (∀ email pw, r ≠ Login email pw) → (∀ org mid role v, r ≠ UpdateRole org mid role v) →
holds (handle resources e r now).
Proof.
intros Hl Hu. unfold handle. destruct r; try (by destruct (Hl _ _ eq_refl)); try (by destruct (Hu _ _ _ _ eq_refl)); keep;
  unfold register_route, logout_route, create_organization_route, create_project_route, memberships_route, api_keys_route,
    create_api_key_route, revoke_api_key_route, access_organization, access_resource, require_session_auth,
    register, first_user, fresh_hash, revoke_session, create_organization, create_project, list_memberships, list_api_keys,
    create_api_key, revoke_api_key, require_resource_permission, resolved_organization_id; keep;
  auto using holds_issue, holds_hash, holds_organization, holds_resolve, holds_csrf, holds_authorize, holds_read, holds_write, holds_origin.
Qed.
Lemma holds_login_route e email pw now : (∀ uid u password, holds (login_user uid u password (en_request_id e) (en_user_agent e) (en_client_ip e) now)) →
holds (login_route e email pw now).
Proof. intros Hl. unfold login_route, login, first_user. keep; auto using holds_origin. Qed.
Lemma holds_update_route e org mid role v now :
(∀ m actor, holds (apply_role_update org mid actor role (en_request_id e) now m)) →
holds (update_membership_route e org mid role v now).
Proof. intros Ha. unfold update_membership_route, update_membership_role, read_role_update. keep;
  auto using holds_write. Qed.
End keep.

(** ** What a request can touch *)

Context (resources : resource_kind → gmap uuid owned).
Implicit Types (e : envelope) (r : request) (now t : time).

(** The user rows stay and new ones are untried. *)
Definition users_kept s s' : Prop := users s ⊆ users s' ∧
∀ i u, users s' !! i = Some u → users s !! i = Some u ∨ untried u.
Definition members_kept s s' : Prop := memberships s ⊆ memberships s'.
#[local] Instance users_kept_preorder : PreOrder users_kept.
Proof.
split; [intros s; split; [reflexivity|by left]|]. intros s1 s2 s3 [H12 N12] [H23 N23].
split; [by etrans|]. intros i u Hu. destruct (N23 _ _ Hu); [by apply N12|by right].
Qed.
#[local] Instance members_kept_preorder : PreOrder members_kept.
Proof. split; [intros s|intros s1 s2 s3]; unfold members_kept; [reflexivity|apply transitivity]. Qed.

Lemma quiet_users s s' : quiet s s' → users_kept s s'.
Proof. intros []. unfold users_kept. rewrite qt_users. split; [done|by left]. Qed.
Lemma quiet_members s s' : quiet s s' → members_kept s s'.
Proof. intros []. unfold members_kept. by rewrite qt_memberships. Qed.

Lemma same_users s s' : users s' = users s → users_kept s s'.
Proof. intros E. unfold users_kept. rewrite E. split; [done|by left]. Qed.
Lemma new_user s id u : users s !! id = None → untried u → users_kept s (s <| users ::= <[id := u]> |>).
Proof.
intros Hid Hu. split; cbn; [by apply insert_subseteq|]. intros i v [[_ <-]|[_ Hi]]%lookup_insert_Some; [by right|by left].
Qed.
Lemma new_member s id m : memberships s !! id = None → members_kept s (s <| memberships ::= <[id := m]> |>).
Proof. intros Hid. unfold members_kept. cbn. by apply insert_subseteq. Qed.

(** Only a login changes a user row. *)
Lemma other_users e r now s : (∀ email pw, r ≠ Login email pw) → wp (handle resources e r now) (λ _ s', users_kept s s') s.
Proof.
intros Hl.
assert ((∃ org mid role v, r = UpdateRole org mid role v) ∨ ∀ org mid role v, r ≠ UpdateRole org mid role v)
  as [(org & mid & role & v & ->)|Hne] by (destruct r; naive_solver).
- unfold handle. apply wp_bind. eapply wp_mono; [|apply (holds_update_route users_kept)]; auto using quiet_users, new_user; try (intros; by apply same_users).
  + intros m s' Hk. by apply wp_ret.
  + intros m actor. unfold apply_role_update. intros s0. wp_steps. by apply same_users.
- apply (holds_other users_kept); auto using quiet_users, new_user; intros; by apply same_users.
Qed.
Lemma login_user_members uid u pw rq ua ip now s : wp (login_user uid u pw rq ua ip now) (λ _ s', members_kept s s') s.
Proof.
unfold login_user. destruct (negb _); [wp_steps; unfold members_kept; reflexivity|]. apply wp_bind.
eapply (wp_mono _ (λ _ s', quiet s s')).
- intros h s1 Hq. wp_steps. eapply wp_mono; [|apply issue_session_spec]. intros i s2 (_ & _ & _ & Hq2). wp_steps.
  unfold members_kept. cbn. by rewrite (qt_memberships _ _ Hq2); cbn; rewrite (qt_memberships _ _ Hq).
- destruct (needs_password_rehash _); [|by apply wp_ret]. apply wp_bind. intros h s1 [= <- <-]. by apply wp_ret.
Qed.
(** Only a role update changes a membership. *)
Lemma other_members e r now s : (∀ org mid role v, r ≠ UpdateRole org mid role v) →
wp (handle resources e r now) (λ _ s', members_kept s s') s.
Proof.
intros Hne. assert ((∃ email pw, r = Login email pw) ∨ ∀ email pw, r ≠ Login email pw)
  as [(email & pw & ->)|Hl] by (destruct r; naive_solver).
- apply (holds_login_route members_kept); auto using quiet_members, new_member; try (intros; unfold members_kept; reflexivity).
  intros uid u password s0. apply login_user_members.
- apply (holds_other members_kept); auto using quiet_members, new_member; intros; unfold members_kept; reflexivity.
Qed.

(** ** Runs *)

(** Requests, at times that do not go back.  A request is served at once ([Serve]), or it
  overlaps others ([Overlap]): it read the tables [seen], which an earlier moment of the run
  had, and writes now.  The application has no operation that adds a member to an
  organisation yet (its invitations are planned): a member is enrolled in the table
  directly, within the constraints of the table. *)
Inductive entry :=
| Serve (e : envelope) (r : request) (now : time)
| Overlap (seen : db) (e : envelope) (r : request) (now : time)
| Enrol (id : uuid) (m : OrganizationMembership) (now : time).
Definition n_time (n : entry) : time := match n with Serve _ _ now | Overlap _ _ _ now | Enrol _ _ now => now end.
Definition valid_entry (n : entry) : Prop :=
match n with Serve _ r _ | Overlap _ _ r _ => valid_request r | Enrol _ _ _ => True end.
Definition enrolled (id : uuid) (m : OrganizationMembership) s : db :=
if bool_decide (memberships s !! id = None) && negb (exists_row (member_of (mb_organization_id m) (mb_user_id m)) (memberships s))
  && bool_decide (is_Some (organizations s !! mb_organization_id m)) && bool_decide (is_Some (users s !! mb_user_id m))
  && bool_decide (mb_role m ∈ ROLES)
then s <| memberships ::= <[id := m]> |> else s.
Definition outcome (n : entry) s : (exn + response) * db :=
match n with
| Serve e r now => serve resources e r now s
| Overlap seen e r now => serve_overlapping resources seen e r now s
| Enrol id m _ => (inr Done, enrolled id m s)
end.
Definition answer (n : entry) s : exn + response := (outcome n s).1.
Definition after (n : entry) s : db := (outcome n s).2.
(** The tables a request read before it wrote. *)
Definition read_from (n : entry) s : db := match n with Overlap seen _ _ _ => seen | _ => s end.

(** A run from [s], which the tables [past] precede. *)
Inductive run (past : list db) t s : list entry → time → db → Prop :=
| run_nil : run past t s [] t s
| run_cons n tr t' s' : t ≤ n_time n → valid_entry n → read_from n s ∈ s :: past →
    run (s :: past) (n_time n) (after n s) tr t' s' → run past t s (n :: tr) t' s'.
Definition empty : db := MkDb ∅ ∅ ∅ ∅ ∅ ∅ [] [] 0.
(** The tables a run leaves behind it. *)
Fixpoint passed (past : list db) s (tr : list entry) : list db :=
match tr with [] => past | n :: tr => passed (s :: past) (after n s) tr end.
Definition reachable (past : list db) t s : Prop := ∃ t0 tr, run [] t0 empty tr t s ∧ past = passed [] empty tr.

(** No role update, no login overlaps another request. *)
Definition serial_update (n : entry) : Prop := match n with Overlap _ _ (UpdateRole _ _ _ _) _ => False | _ => True end.
Definition serial_login (n : entry) : Prop := match n with Overlap _ _ (Login _ _) _ => False | _ => True end.

Lemma run_app past t s tr1 t1 s1 tr2 t2 s2 : run past t s tr1 t1 s1 → run (passed past s tr1) t1 s1 tr2 t2 s2 →
run past t s (tr1 ++ tr2) t2 s2 ∧ passed past s (tr1 ++ tr2) = passed (passed past s tr1) s1 tr2.
Proof.
induction 1 as [past t s|past t s n tr t' s' ??? _ IH]; intros Hr2; cbn; [done|]. destruct (IH Hr2). split; [by econstructor|done].
Qed.
Lemma run_time past t s tr t' s' : run past t s tr t' s' → t ≤ t'.
Proof. induction 1; lia. Qed.
Lemma run_serve past t s e r now tr t' s' : t ≤ now → valid_request r → run (s :: past) now (after (Serve e r now) s) tr t' s' →
run past t s (Serve e r now :: tr) t' s'.
Proof. intros. apply run_cons; [done..|by left|done]. Qed.
Lemma reachable_run past t s tr t' s' : reachable past t s → run past t s tr t' s' → reachable (passed past s tr) t' s'.
Proof.
intros (t0 & tr0 & Hrun & ->) Hrun'. destruct (run_app _ _ _ _ _ _ _ _ _ Hrun Hrun') as [? E]. exists t0, (tr0 ++ tr). by rewrite E.
Qed.

Lemma empty_inv : ten_inv empty.
Proof.
constructor; cbn; try apply unique_by_empty.
- intros i r. by rewrite lookup_empty.
- intros i m. by rewrite lookup_empty.
- intros i k. by rewrite lookup_empty.
- intros rc Hrc. by apply not_elem_of_nil in Hrc.
Qed.

Lemma later_weaken t now s s' : t ≤ now → later now s s' → later t s s'.
Proof.
intros Hle [U S O M K R]. constructor; try done. intros i r Hr. destruct (S i r Hr) as (r' & Hr' & []). exists r'.
split; [done|]. constructor; try done. intros Hi. apply ss_idle. lia.
Qed.
Lemma enrolled_inv id m s : ten_inv s → ten_inv (enrolled id m s).
Proof.
intros Hinv. unfold enrolled. destruct (_ && _ && _ && _ && _) eqn:E; [|done]. breflect. constructor; cbn; try apply Hinv.
- intros i x [[_ <-]|[_ Hi]]%lookup_insert_Some; [done|by apply (tn_member _ Hinv i)].
- apply unique_by_insert; [apply Hinv|by apply no_member].
Qed.
Lemma enrolled_owned id m s : all_owned s → all_owned (enrolled id m s).
Proof.
intros Hown. unfold enrolled. destruct (_ && _ && _ && _ && _) eqn:E; [|done]. breflect. intros org Horg. cbn in *.
destruct (Hown _ Horg) as (i & x & Hi & Ho). exists i, x. rewrite lookup_insert_ne; [done|]. intros ->. congruence.
Qed.
Lemma enrolled_later t id m s : later t s (enrolled id m s).
Proof.
unfold enrolled. destruct (_ && _ && _ && _ && _) eqn:E; [|apply later_refl]. breflect. destruct (later_refl t s). constructor; cbn; try done.
intros i x Hi. exists x. rewrite lookup_insert_ne; [done|]. intros ->. congruence.
Qed.
Lemma origin_same c s : wp (require_allowed_origin c) (λ _ s', s' = s) s.
Proof. unfold require_allowed_origin. destruct (cr_origin c); [by apply wp_raise_if|by apply wp_ret]. Qed.
Lemma transaction_wp (m : Prelude.M db (exn + response)) (Q : db → Prop) s :
(∀ s', quiet s s' → Q s') → wp m (λ _ s', Q s') s → Q (transaction m s).2.
Proof.
intros Hq Hm. unfold transaction. destruct (m s) as [[x|a] s'] eqn:E; cbn; [by apply Hq|by apply (Hm a)].
Qed.
(** A request that overlaps is its own operation when nothing came in between. *)
Lemma overlapping_login_now e email pw now s : overlapping_login s e email pw now s = login_route e email pw now s.
Proof.
unfold overlapping_login, login_route, login, observed, mbind, M_bind. cbn.
destruct (require_allowed_origin (en_credentials e) s) as [[x|[]] s1] eqn:E; cbn.
- unfold require_allowed_origin, raise_if in E. destruct (cr_origin _); [|done]. destruct (negb _); [by injection E as <- <-|done].
- apply origin_same in E as ->. by destruct (get_or_raise _ _ s) as [[x|[uid u]] s2].
Qed.

Lemma observed_spec {A} seen (m : Prelude.M db A) s : wp (observed seen m) (λ a s', s' = s ∧ ∃ s1, m seen = (inr a, s1)) s.
Proof. intros a s' [= Ha <-]. split; [done|]. exists (m seen).2. destruct (m seen). by cbn in Ha; subst. Qed.
(** What an overlapping login and an overlapping update do. *)
Lemma overlapping_login_members seen e email pw now s : wp (overlapping_login seen e email pw now) (λ _ s', members_kept s s') s.
Proof.
unfold overlapping_login. apply wp_bind. eapply wp_mono; [|apply observed_spec]. intros o s1 [-> _]. wp_steps.
eapply wp_mono; [|apply login_user_members]. intros [x|i] s1 Hk; by apply wp_ret.
Qed.
Lemma overlapping_login_spec seen e email pw now s : wp (overlapping_login seen e email pw now) (λ a s', changes now s s' ∧
∃ uid u, users seen !! uid = Some u ∧
(users s' = alter (failed_login u now) uid (users s) ∨
 ∃ h i, users s' = alter (succeeded_login u h) uid (users s) ∧ a = inr (SignedIn i) ∧ is_user_id i = uid)) s.
Proof.
unfold overlapping_login. apply wp_bind. eapply wp_mono; [|apply observed_spec]. intros o s1 [-> [s2 E]].
apply bind_ok in E as ([] & s3 & Eo & E). apply origin_same in Eo as ->. injection E as <- _.
apply wp_bind, wp_get_or_raise. intros [uid u] [Hu _]%head_select_Some. apply wp_bind.
eapply wp_mono; [|apply login_user_changes]. intros o s1 [Hch Ho]. destruct o as [x|i]; apply wp_ret; (split; [done|]); exists uid, u; (split; [done|]).
- left. by destruct Ho as (_ & ? & _).
- right. destruct Ho as ([] & _ & _ & h & Hh). exists h, i. split_and!; try done. by destruct io_user.
Qed.
Lemma overlapping_update_spec seen e org mid role v now s :
wp (overlapping_update seen e org mid role v now) (λ _ s', ∃ x m0, authentic seen now (en_credentials e) x ∧
  authorized seen x org "membership.update_role" ∧ memberships seen !! mid = Some m0 ∧ mb_organization_id m0 = org ∧ mb_version m0 = v ∧
  quiet (s <| memberships ::= alter (write_role m0 role now) mid |>) s') s.
Proof.
unfold overlapping_update. apply wp_bind. eapply wp_mono; [|apply observed_spec]. intros [x m0] s1 [-> [s2 E]].
apply bind_ok in E as (x' & s3 & Ew & E). destruct (write_access_spec _ _ _ _ _ _ _ Ew) as (_ & Hau & Ht & Haz).
apply bind_ok in E as (m' & s4 & Er & E). injection E as -> -> _.
destruct (read_role_spec _ _ _ _ _ _ _ Er) as (_ & Hm & Ho & _ & Hv & _). rewrite (to_memberships _ _ _ Ht) in Hm.
unfold apply_role_update. wp_steps. by exists x, m0.
Qed.

Lemma after_inv n s : valid_entry n → ten_inv s → ten_inv (after n s) ∧ later (n_time n) s (after n s).
Proof.
assert (Hserve : ∀ e r now, valid_request r → ten_inv s → ten_inv (serve resources e r now s).2 ∧ later now s (serve resources e r now s).2).
{ intros e r now Hv. pose proof (serve_changes resources e r now s Hv) as Hch. by split; [eapply changes_inv|apply changes_later]. }
unfold after, outcome. destruct n as [e r now|seen e r now|id m now]; intros Hv Hinv; cbn [n_time];
  [by apply Hserve| |by split; [apply enrolled_inv|apply enrolled_later]].
destruct r; try by apply Hserve.
- apply (transaction_wp _ (λ s', ten_inv s' ∧ later now s s')).
  + intros s' Hq. split; [by eapply quiet_inv|by eapply quiet_later, later_refl].
  + eapply wp_mono; [|apply overlapping_login_spec]. intros a s' [Hch _]. by split; [eapply changes_inv|apply changes_later].
- apply (transaction_wp _ (λ s', ten_inv s' ∧ later now s s')).
  + intros s' Hq. split; [by eapply quiet_inv|by eapply quiet_later, later_refl].
  + apply wp_bind. eapply wp_mono; [|apply overlapping_update_spec]. intros a s' (x & m0 & _ & _ & _ & _ & _ & Hq). apply wp_ret.
    split; [by eapply quiet_inv, role_inv|eapply quiet_later; [exact Hq|apply role_later]].
Qed.
Lemma run_keeps past t s tr t' s' : run past t s tr t' s' → ten_inv s → ten_inv s' ∧ later t s s'.
Proof.
induction 1 as [past t s|past t s n tr t' s' Hle Hv _ _ IH]; intros Hinv; [split; [done|apply later_refl]|].
destruct (after_inv n s Hv Hinv) as [Hinv1 Hl1].
destruct (IH Hinv1) as [Hinv' Hl]. split; [done|]. eapply later_trans; [exact Hle| |exact Hl]. by eapply later_weaken.
Qed.
Lemma reachable_tenancy past t s : reachable past t s → ten_inv s.
Proof. intros (t0 & tr & Hrun & _). by apply (run_keeps _ _ _ _ _ _ Hrun), empty_inv. Qed.
Lemma after_owned n s : valid_entry n → serial_update n → all_owned s → all_owned (after n s).
Proof.
assert (Hserve : ∀ e r now, valid_request r → all_owned s → all_owned (serve resources e r now s).2).
{ intros e r now Hv. eapply changes_owned. by apply (serve_changes resources e r now). }
unfold after, outcome. destruct n as [e r now|seen e r now|id m now]; intros Hv Hser Hown; [by apply Hserve| |by apply enrolled_owned].
destruct r; try done; try by apply Hserve. apply (transaction_wp _ all_owned); [intros s' Hq; by eapply quiet_owned|].
eapply wp_mono; [|apply overlapping_login_spec]. intros a s' [Hch _]. by eapply changes_owned.
Qed.
Lemma run_owned past t s tr t' s' : run past t s tr t' s' → Forall serial_update tr → all_owned s → all_owned s'.
Proof. induction 1; [done|]. intros [? ?]%Forall_cons ?. auto using after_owned. Qed.

(** The tables a run leaves behind are earlier ones. *)
Lemma run_passed past t s tr t' s' : run past t s tr t' s' → ten_inv s → (∀ s0, s0 ∈ past → ∃ t0, t0 ≤ t ∧ later t0 s0 s) →
∀ s0, s0 ∈ passed past s tr → ∃ t0, t0 ≤ t' ∧ later t0 s0 s'.
Proof.
induction 1 as [past t s|past t s n tr t' s' Hle Hv _ _ IH]; intros Hinv Hpast; [done|].
destruct (after_inv n s Hv Hinv) as [Hinv1 Hl1]. apply IH; [done|]. intros s0 [->|Hs0]%elem_of_cons.
- exists t. split; [done|]. by eapply later_weaken.
- destruct (Hpast _ Hs0) as (t0 & Ht0 & Hl0). exists t0. split; [lia|]. eapply later_trans; [|exact Hl0|exact Hl1]. lia.
Qed.
Lemma reachable_passed past t s s0 : reachable past t s → s0 ∈ s :: past → ∃ t0, later t0 s0 s.
Proof.
intros (t0 & tr & Hrun & ->) [->|Hs0]%elem_of_cons; [exists t; apply later_refl|].
destruct (run_passed _ _ _ _ _ _ Hrun empty_inv) with s0 as (t1 & _ & ?); [by intros ? ?%not_elem_of_nil|done|by exists t1].
Qed.

(** The one change of a membership. *)
Definition role_update (n : entry) e org mid role v now : Prop :=
n = Serve e (UpdateRole org mid role v) now ∨ ∃ seen, n = Overlap seen e (UpdateRole org mid role v) now.
Definition role_changed n s s' : Prop :=
∃ e org mid role v now x m0, role_update n e org mid role v now ∧
  authentic (read_from n s) now (en_credentials e) x ∧ authorized (read_from n s) x org "membership.update_role" ∧
  memberships (read_from n s) !! mid = Some m0 ∧ mb_organization_id m0 = org ∧ mb_version m0 = v ∧
  memberships s' = alter (write_role m0 role now) mid (memberships s).
Lemma served_update e org mid role v now s : role ∈ ROLES →
wp (handle resources e (UpdateRole org mid role v) now) (λ _ s', role_changed (Serve e (UpdateRole org mid role v) now) s s') s.
Proof.
intros Hrole. unfold handle. apply wp_bind. eapply (wp_mono _ (λ _ s', changes now s s' ∧ role_changed _ s s')); [by intros a s' [_ ?]; apply wp_ret|].
apply write_route. intros x s1 _ Hau Ht Haz. apply wp_bind. eapply wp_mono; [|by apply update_role_changes].
intros m1 s2 (Hch & m & Hm & Ho & Hv & _ & -> & Hmem). wp_steps. split; [done|]. rewrite (to_memberships _ _ _ Ht) in Hm, Hmem.
exists e, org, mid, role, v, now, x, m. split_and!; try done; [by left|]. by rewrite (alter_insert _ _ _ _ Hm).
Qed.
Lemma overlapped_update seen e org mid role v now s :
wp (a ← overlapping_update seen e org mid role v now; mret (inr a : exn + response))
  (λ _ s', role_changed (Overlap seen e (UpdateRole org mid role v) now) s s') s.
Proof.
apply wp_bind. eapply wp_mono; [|apply overlapping_update_spec]. intros a s' (x & m0 & Hau & Haz & Hm0 & Ho & Hv & Hq). apply wp_ret.
exists e, org, mid, role, v, now, x, m0. split_and!; try done; [by right; exists seen|apply (qt_memberships _ _ Hq)].
Qed.
Lemma after_members n s : valid_entry n → members_kept s (after n s) ∨ role_changed n s (after n s).
Proof.
assert (Hrest : ∀ e r now, (∀ org mid role v, r ≠ UpdateRole org mid role v) → members_kept s (serve resources e r now s).2).
{ intros e r now Hno. apply (transaction_wp _ (members_kept s)); [intros s'; apply quiet_members|by apply other_members]. }
assert (Hone : ∀ m, wp m (λ _ s', role_changed n s s') s → members_kept s (transaction m s).2 ∨ role_changed n s (transaction m s).2).
{ intros m Hm. apply (transaction_wp _ (λ s', members_kept s s' ∨ role_changed n s s')); [intros s' Hq; left; by apply quiet_members|].
  eapply wp_mono; [|exact Hm]. by right. }
unfold after, outcome. destruct n as [e r now|seen e r now|id m now]; intros Hv.
- destruct r; try (left; apply Hrest; done). by apply Hone, served_update.
- destruct r; try (left; apply Hrest; done); [left|apply Hone, overlapped_update].
  apply (transaction_wp _ (members_kept s)); [intros s'; apply quiet_members|apply overlapping_login_members].
- left. cbn. unfold enrolled. destruct (_ && _ && _ && _ && _) eqn:E; [|unfold members_kept; reflexivity]. breflect.
  by apply new_member.
Qed.

(** ** Theorems *)

(** C33: no organisation is ever without an owner, unless role updates overlap: as long as
  every role update is served at once, between other requests, every organisation has an
  active member with the role owner, whatever the updates ask for.  Whether or not requests
  overlap, users, slugs, memberships, session tokens and key digests stay unique, and every
  member has one of the seven roles in an organisation that exists. *)
Theorem final_owner_kept t0 tr t s (Hrun : run [] t0 empty tr t s) :
(Forall serial_update tr → ∀ org, is_Some (organizations s !! org) → ∃ i m, memberships s !! i = Some m ∧
   mb_organization_id m = org ∧ mb_status m = "ACTIVE"%string ∧ mb_role m = "owner"%string) ∧
(∀ i m, memberships s !! i = Some m → is_Some (organizations s !! mb_organization_id m) ∧ mb_role m ∈ ROLES) ∧
unique_by us_email_normalized (users s) ∧ unique_by og_slug (organizations s) ∧
unique_by (λ m, (mb_organization_id m, mb_user_id m)) (memberships s) ∧
unique_by se_token_digest (sessions s) ∧ unique_by ak_token_digest (api_keys s).
Proof.
destruct (run_keeps _ _ _ _ _ _ Hrun empty_inv) as [Hinv _]. split; [|split; [|split_and!; apply Hinv]].
- intros Hser org Horg. destruct (run_owned _ _ _ _ _ _ Hrun Hser) with org as (i & m & Hi & Eo & Hst & Hr);
    [|done|by exists i, m]. intros o [x Hx]. cbn in Hx. by rewrite lookup_empty in Hx.
- intros i m Hi. by destruct (tn_member _ Hinv _ _ Hi).
Qed.

(** C32: roles change only by authority: a membership is changed by nothing but an update of
  that membership, in its organisation, by a caller whose credentials are valid and who
  holds membership.update_role there; its role becomes the requested one, and its
  organisation and user stay.  The authority and the version are those of the tables the
  update read: the present ones when it is served at once, and earlier ones of the run when
  it overlaps other requests, so that of updates that overlap more than one can pass with
  the same version. *)
Theorem roles_change_by_authority past t s n mid m m' (Hs : reachable past t s) (Hv : valid_entry n) (Hn : read_from n s ∈ s :: past)
  (Hm : memberships s !! mid = Some m) (Hm' : memberships (after n s) !! mid = Some m') (Hne : m' ≠ m) :
∃ e role v now x m0, role_update n e (mb_organization_id m) mid role v now ∧
  m' = write_role m0 role now m ∧ memberships (read_from n s) !! mid = Some m0 ∧ mb_version m0 = v ∧
  authentic (read_from n s) now (en_credentials e) x ∧ authorized (read_from n s) x (mb_organization_id m) "membership.update_role".
Proof.
destruct (after_members n s Hv) as [Hk|(e & org & mid' & role & v & now & x & m0 & Hreq & Hau & Haz & Hm0 & Ho & Hver & Hmem)].
- pose proof (lookup_weaken _ _ _ _ Hm Hk) as Hm2. congruence.
- rewrite Hmem in Hm'. apply lookup_alter_Some in Hm' as [(-> & w & Hw & ->)|[_ Hm']]; [|congruence].
  rewrite Hm in Hw. injection Hw as <-. destruct (reachable_passed _ _ _ _ Hs Hn) as [t0 Hl].
  destruct (lt_member _ _ _ Hl _ _ Hm0) as (m1 & Hm1 & Eo & _). rewrite Hm in Hm1. injection Hm1 as <-.
  exists e, role, v, now, x, m0. rewrite Eo, Ho. by split_and!.
Qed.
End footprint.
