(* ===== verification/LoginBound.v ===== *)
(** How fast the password of an account can be guessed: ten wrong passwords, then one for
    every quarter of an hour, as long as nobody signs in.  The proof keeps a budget of wrong
    passwords for each account, and shows that no request raises it. *)

From S2P Require Import Prelude PyVal PyUuid PyTime QueueProtocol EventProtocol Idempotency.
From S2P Require Import Pagination Security Permissions Identity Access Tenancy TenancySpec TenancyRuns.

Section bound.
Context `{Entropy, Sha256, HmacSha256, CaseFold, PasswordHasher, SessionTokens, IdentitySettings}.
Context (resources : resource_kind → gmap uuid owned).
Implicit Types (s : db) (e : envelope) (r : request) (n : entry) (u : User) (now t : time).
Abbreviation serve := (serve resources).
Abbreviation run := (run resources).
Abbreviation reachable := (reachable resources).
Abbreviation answer := (answer resources).
Abbreviation after := (after resources).
Abbreviation passed := (passed resources).

(** A wrong password that is checked against the account, as the request read it. *)
Definition wrong_guess (uid : uuid) n s : bool :=
match n with
| Serve e (Login email password) now | Overlap _ e (Login email password) now =>
    match require_allowed_origin (en_credentials e) s, head (select (with_email (normalize_email email)) (users (read_from n s))) with
    | (inr _, _), Some (i, u) => bool_decide (i = uid) && password_checked u now && negb (verify_password (us_password_hash u) password)
    | _, _ => false
    end
| _ => false
end.
Fixpoint wrong_guesses (uid : uuid) (tr : list entry) s : Z :=
match tr with
| [] => 0
| n :: tr => (if wrong_guess uid n s then 1 else 0) + wrong_guesses uid tr (after n s)
end.
(** Somebody signs in to the account. *)
Fixpoint signed_in (uid : uuid) (tr : list entry) s : bool :=
match tr with
| [] => false
| n :: tr => match answer n s with inr (SignedIn i) => bool_decide (is_user_id i = uid) | _ => false end
             || signed_in uid tr (after n s)
end.

(** ** The budget of an account *)

Definition lock_time : Z := minutes 15.
Definition unlocked_at u t : time := match us_locked_until u with Some l => Z.max t l | None => t end.
(** The wrong passwords that can be checked from [t] to [T]. *)
Definition budget u t (T : time) : Z :=
if unlocked_at u t <=? T
then Z.max 1 (MAX_FAILED_LOGINS - us_failed_login_count u) + (T - unlocked_at u t) / lock_time
else 0.
Record login_ok t u : Prop := {
lo_count : 0 ≤ us_failed_login_count u;
lo_lock : match us_locked_until u with Some l => l ≤ t + lock_time | None => True end }.

Lemma lock_pos : 0 < lock_time.
Proof. done. Qed.
Lemma budget_nonneg u t T : 0 ≤ budget u t T.
Proof.
unfold budget. destruct (_ <=? T) eqn:E; [|done]. apply Z.leb_le in E. pose proof (Z.div_pos (T - unlocked_at u t) lock_time).
pose proof lock_pos. lia.
Qed.
(** The budget shrinks when time passes, when failures are counted and when the lock is
  extended. *)
Lemma budget_mono u u' t t' T : unlocked_at u t ≤ unlocked_at u' t' → us_failed_login_count u ≤ us_failed_login_count u' →
budget u' t' T ≤ budget u t T.
Proof.
intros Hu Hc. unfold budget. destruct (unlocked_at u' t' <=? T) eqn:E.
- apply Z.leb_le in E. rewrite (proj2 (Z.leb_le _ _)) by lia.
  pose proof (Z.div_le_mono (T - unlocked_at u' t') (T - unlocked_at u t) lock_time lock_pos). lia.
- apply budget_nonneg.
Qed.
Lemma budget_start u t T : login_ok t u → t ≤ T → budget u t T ≤ MAX_FAILED_LOGINS + (T - t) / lock_time.
Proof.
intros [Hc _] HT. unfold budget, MAX_FAILED_LOGINS.
pose proof (Z.div_pos (T - t) lock_time ltac:(lia) lock_pos). destruct (_ <=? T) eqn:E; [|lia].
assert (t ≤ unlocked_at u t) by (unfold unlocked_at; destruct (us_locked_until u); lia).
pose proof (Z.div_le_mono (T - unlocked_at u t) (T - t) lock_time lock_pos). lia.
Qed.
Lemma login_ok_later t t' u : t ≤ t' → login_ok t u → login_ok t' u.
Proof. intros Hle [Hc Hl]. constructor; [done|]. destruct (us_locked_until u); [lia|done]. Qed.
Lemma untried_ok t u : untried u → login_ok t u.
Proof. intros [Hc Hl]. constructor; [lia|by rewrite Hl]. Qed.

(** A failure: the row counts it, and locks the account from the tenth. *)
Lemma failed_row u now : failed_login u now u = u <| us_failed_login_count := us_failed_login_count u + 1 |>
  <| us_locked_until := if MAX_FAILED_LOGINS <=? us_failed_login_count u + 1 then Some (now + lock_time) else us_locked_until u |>.
Proof. unfold failed_login, written. destruct u. cbn. destruct (_ <=? _); cbn; [by case_decide as E; [rewrite <- E|]|done]. Qed.
Lemma failed_ok t now u row : t ≤ now → login_ok t u → login_ok t row → login_ok now (failed_login u now row).
Proof.
intros Hle [Hc Hl] [Hcr Hlr]. unfold failed_login, written. destruct (_ <=? _); constructor; cbn; try lia.
- unfold lock_time in *. case_decide; [|lia]. destruct (us_locked_until row); [lia|done].
- destruct (us_locked_until row); [lia|done].
Qed.
Lemma succeeded_ok t u h row : login_ok t row → login_ok t (succeeded_login u h row).
Proof. intros [Hc Hl]. unfold succeeded_login, written. constructor; cbn; by case_decide. Qed.
Lemma failed_budget t now u T : t ≤ now → now ≤ T → login_ok t u →
budget (failed_login u now u) now T + (if password_checked u now then 1 else 0) ≤ budget u t T.
Proof.
intros Hle HT [Hc Hl]. destruct (password_checked u now) eqn:Hp.
- unfold password_checked in Hp. apply andb_prop in Hp as [_ Hp].
  assert (Hun : unlocked_at u t ≤ now) by (unfold unlocked_at; destruct (us_locked_until u); breflect; lia).
  assert (Hle2 : (T - now) / lock_time ≤ (T - unlocked_at u t) / lock_time) by (apply Z.div_le_mono; [apply lock_pos|lia]).
  rewrite failed_row. unfold budget at 2. rewrite (proj2 (Z.leb_le (unlocked_at u t) T)) by lia.
  set (t0 := unlocked_at u t) in *. clearbody t0.
  destruct (MAX_FAILED_LOGINS <=? us_failed_login_count u + 1) eqn:Em; [apply Z.leb_le in Em|apply Z.leb_gt in Em]; unfold budget, unlocked_at; cbn.
  + rewrite (Z.max_r now) by (pose proof lock_pos; lia). destruct (now + lock_time <=? T) eqn:E.
    * assert ((T - (now + lock_time)) / lock_time = (T - now) / lock_time - 1) as ->.
      { rewrite Z.sub_add_distr. replace (T - now - lock_time) with (T - now + (-1) * lock_time) by lia.
        rewrite Z.div_add by (pose proof lock_pos; lia). lia. }
      unfold MAX_FAILED_LOGINS in *. lia.
    * pose proof (Z.div_pos (T - now) lock_time ltac:(lia) lock_pos). lia.
  + assert (match us_locked_until u with Some l => Z.max now l | None => now end = now) as ->.
    { destruct (us_locked_until u); [|done]. breflect. lia. }
    rewrite (proj2 (Z.leb_le now T)) by done. unfold MAX_FAILED_LOGINS in *. lia.
- rewrite Z.add_0_r. apply budget_mono; rewrite failed_row; cbn; [|lia].
  unfold unlocked_at. cbn. destruct (_ <=? _); destruct (us_locked_until u); lia.
Qed.
Lemma time_budget t now u T : t ≤ now → budget u now T ≤ budget u t T.
Proof. intros Hle. apply budget_mono; [|done]. unfold unlocked_at. destruct (us_locked_until u); lia. Qed.

(** ** What a request does to the accounts *)

Lemma wrong_guess_spec uid n s : serial_login n → wrong_guess uid n s = true →
∃ u, users s !! uid = Some u ∧ password_checked u (n_time n) = true ∧
  users (after n s) = alter (failed_login u (n_time n)) uid (users s).
Proof.
unfold wrong_guess, TenancyRuns.after, outcome, Tenancy.serve, transaction. destruct n as [e r now|seen e r now|]; [| |done]; intros Hser; cbn [n_time].
2: { destruct r; done. }
destruct r as [|email pw| | | | | | | | | |]; try done. cbn [read_from].
destruct (require_allowed_origin (en_credentials e) s) as [[ex|[]] s1] eqn:Eo; [done|].
pose proof (origin_same _ _ _ _ Eo) as ->.
destruct (head _) as [[i u]|] eqn:Eh; [|done]. intros [[->%bool_decide_eq_true Hc]%andb_prop Hv%negb_true_iff]%andb_prop.
pose proof (head_select_Some _ _ _ _ Eh) as [Hu _]. exists u. split_and!; [done|done|].
assert (Hlogin : login_user uid u pw (en_request_id e) (en_user_agent e) (en_client_ip e) now s =
  (inr (inl (ApiError 401 "CREDENTIAL_INVALID")), s <| users ::= alter (failed_login u now) uid |>)).
{ unfold login_user. rewrite Hv, andb_false_r. by cbn [negb]; rewrite run_modify. }
assert (Hroute : login_route e email pw now s =
  (inr (inl (ApiError 401 "CREDENTIAL_INVALID")), s <| users ::= alter (failed_login u now) uid |>)).
{ unfold login_route. rewrite (run_bind _ _ _ _ _ Eo). unfold login, first_user.
  erewrite run_bind; [|rewrite run_gets, (run_some _ _ _ _ _ Eh); exact Hlogin]. done. }
unfold handle. by rewrite Hroute.
Qed.

(** The login of a request writes over a row it read. *)
Definition user_change n s : Prop :=
users_kept s (after n s) ∨
∃ uid u, users (read_from n s) !! uid = Some u ∧ (serial_login n → read_from n s = s) ∧
 (users (after n s) = alter (failed_login u (n_time n)) uid (users s) ∨
  ∃ h i, users (after n s) = alter (succeeded_login u h) uid (users s) ∧ answer n s = inr (SignedIn i) ∧ is_user_id i = uid).
Lemma login_step (m : Prelude.M db (exn + response)) n s :
outcome resources n s = transaction m s → (serial_login n → read_from n s = s) →
wp m (λ a s', changes (n_time n) s s' ∧ ∃ uid u, users (read_from n s) !! uid = Some u ∧
  (users s' = alter (failed_login u (n_time n)) uid (users s) ∨
   ∃ h i, users s' = alter (succeeded_login u h) uid (users s) ∧ a = inr (SignedIn i) ∧ is_user_id i = uid)) s → user_change n s.
Proof.
intros Ho Hread Hm. unfold user_change, TenancyRuns.after, TenancyRuns.answer. rewrite Ho. unfold transaction.
destruct (m s) as [[x|a] s'] eqn:E; cbn; [left; by apply same_users|right].
destruct (Hm _ _ E) as (_ & uid & u & Hu & Hc). by exists uid, u.
Qed.
Lemma step_users n s : user_change n s.
Proof.
assert (Hrest : ∀ e r now, (∀ email pw, r ≠ Login email pw) → users_kept s (serve e r now s).2).
{ intros e r now Hno. apply (transaction_wp _ (users_kept s)); [intros s'; apply quiet_users|by apply other_users]. }
destruct n as [e r now|seen e r now|id m now].
- destruct r as [|email pw| | | | | | | | | |]; try (left; apply Hrest; done). apply (login_step (login_route e email pw now)); [done..|].
  intros a s'. rewrite <- overlapping_login_now. apply overlapping_login_spec.
- destruct r as [|email pw| | | | | | | | | |]; try (left; apply Hrest; done).
  + apply (login_step (overlapping_login seen e email pw now)); [done..|]. apply overlapping_login_spec.
  + left. apply (transaction_wp _ (users_kept s)); [intros s'; apply quiet_users|]. apply wp_bind.
    eapply wp_mono; [|apply overlapping_update_spec]. intros a s' (x & m0 & _ & _ & _ & _ & _ & Hq). apply wp_ret.
    apply same_users. by rewrite (qt_users _ _ Hq).
- left. apply same_users. cbn. unfold enrolled. by destruct (_ && _).
Qed.

Definition users_ok t s : Prop := ∀ i u, users s !! i = Some u → login_ok t u.
Lemma users_ok_later t t' s : t ≤ t' → users_ok t s → users_ok t' s.
Proof. intros Hle Hok i u Hu. by eapply login_ok_later, Hok. Qed.
Lemma step_ok t n s : t ≤ n_time n → users_ok t s → serial_login n ∨ users_ok t (read_from n s) → users_ok (n_time n) (after n s).
Proof.
intros Hle Hok Hread i v Hv. destruct (step_users n s) as [[_ Hn]|(uid & u & Hu & Hsame & [Ha|(h & j & Ha & _)])].
- destruct (Hn _ _ Hv) as [Hs|Hs]; [by eapply login_ok_later, Hok|by apply untried_ok].
- rewrite Ha in Hv. apply lookup_alter_Some in Hv as [(<- & w & Hw & ->)|[_ Hw]]; [|by eapply login_ok_later, Hok].
  eapply failed_ok; [done| |by eapply Hok]. destruct Hread as [Hser|Hread]; [rewrite (Hsame Hser) in Hu; by eapply Hok|by eapply Hread].
- rewrite Ha in Hv. apply lookup_alter_Some in Hv as [(<- & w & Hw & ->)|[_ Hw]]; [|by eapply login_ok_later, Hok].
  apply succeeded_ok. by eapply login_ok_later, Hok.
Qed.
Lemma step_budget t n s uid u T : t ≤ n_time n → n_time n ≤ T → serial_login n → users_ok t s → users s !! uid = Some u →
(match answer n s with inr (SignedIn i) => bool_decide (is_user_id i = uid) | _ => false end) = false →
∃ u', users (after n s) !! uid = Some u' ∧
  budget u' (n_time n) T + (if wrong_guess uid n s then 1 else 0) ≤ budget u t T.
Proof.
intros Hle HT Hser Hok Hu Hno. destruct (wrong_guess uid n s) eqn:Eg.
- destruct (wrong_guess_spec _ _ _ Hser Eg) as (u0 & Hu0 & Hc & Ha). rewrite Hu in Hu0. injection Hu0 as <-.
  eexists. rewrite Ha, lookup_alter_eq, Hu. split; [done|].
  pose proof (failed_budget t (n_time n) u T Hle HT (Hok _ _ Hu)) as Hf. by rewrite Hc in Hf.
- setoid_rewrite Z.add_0_r. destruct (step_users n s) as [[Hk _]|(i & v & Hv & Hsame & [Ha|(h & j & Ha & Hans & Hid)])]; [|rewrite (Hsame Hser) in Hv..].
  + exists u. split; [by eapply lookup_weaken|]. by apply time_budget.
  + rewrite Ha. destruct (decide (i = uid)) as [->|Hne].
    * rewrite Hu in Hv. injection Hv as <-. eexists. rewrite lookup_alter_eq, Hu. split; [done|].
      pose proof (failed_budget t (n_time n) u T Hle HT (Hok _ _ Hu)) as Hf. destruct (password_checked _ _); lia.
    * exists u. rewrite lookup_alter_ne by done. split; [done|]. by apply time_budget.
  + rewrite Hans in Hno. breflect. rewrite Ha, lookup_alter_ne by congruence. exists u. split; [done|]. by apply time_budget.
Qed.

Lemma run_ok past t s tr t' s' : run past t s tr t' s' → (∀ s0, s0 ∈ s :: past → users_ok t s0) →
∀ s0, s0 ∈ s' :: passed past s tr → users_ok t' s0.
Proof.
induction 1 as [past t s|past t s n tr t' s' Hle Hv Hread _ IH]; intros Hok; [done|]. apply IH.
intros s0 [->|Hs0]%elem_of_cons; [|by eapply users_ok_later, Hok].
apply (step_ok t); [done|apply Hok; left|right; by apply Hok].
Qed.
Lemma run_budget past t s tr t' s' uid u : run past t s tr t' s' → Forall serial_login tr → users_ok t s →
users s !! uid = Some u → signed_in uid tr s = false → wrong_guesses uid tr s ≤ budget u t t'.
Proof.
intros Hrun. revert u. induction Hrun as [past t s|past t s n tr t' s' Hle Hv Hread Hrun IH]; intros u Hser Hok Hu Hno; cbn in *; [apply budget_nonneg|].
apply Forall_cons in Hser as [Hn Hser].
apply orb_false_elim in Hno as [Hno Hno']. pose proof (run_time _ _ _ _ _ _ _ Hrun) as HT.
destruct (step_budget t n s uid u t' Hle HT Hn Hok Hu Hno) as (u' & Hu' & Hb).
assert (Hok' : users_ok (n_time n) (after n s)) by (apply (step_ok t); [done..|by left]).
pose proof (IH u' Hser Hok' Hu' Hno'). lia.
Qed.
Lemma reachable_ok past t s : reachable past t s → users_ok t s.
Proof.
intros (t0 & tr & Hrun & ->). eapply run_ok; [exact Hrun| |left]. intros s0 [->|?%not_elem_of_nil]%elem_of_cons; [|done].
intros i u. cbn. by rewrite lookup_empty.
Qed.

(** C35: a password cannot be guessed quickly by logins that do not overlap.  From any
  reachable state, and as long as nobody signs in to the account and every login is served
  at once, between other requests, at most ten wrong passwords are checked against it, and
  one more for every quarter of an hour, whoever sends the requests and in whatever number. *)
Theorem password_guesses_bounded past t s tr t' s' uid (Hs : reachable past t s) (Hrun : run past t s tr t' s')
  (Hser : Forall serial_login tr) (Hu : is_Some (users s !! uid)) (Hno : signed_in uid tr s = false) :
wrong_guesses uid tr s ≤ MAX_FAILED_LOGINS + (t' - t) / minutes 15.
Proof.
destruct Hu as [u Hu]. pose proof (reachable_ok _ _ _ Hs) as Hok. pose proof (run_time _ _ _ _ _ _ _ Hrun) as HT.
etrans; [by eapply run_budget|]. apply budget_start; [by eapply Hok|done].
Qed.
End bound.
