(* ===== verification/TenancyAccess.v ===== *)
(** What credentials give: the resources a caller reaches, the life of a session, and the
    life of an API key. *)

From S2P Require Import Prelude PyVal PyUuid QueueProtocol EventProtocol Idempotency.
From S2P Require Import Base64 Pagination Security Permissions Identity Access Tenancy TenancySpec TenancyRuns.

Section access.
Context `{Entropy, Sha256, HmacSha256, CaseFold, PasswordHasher, SessionTokens, IdentitySettings}.
Context (resources : resource_kind → gmap uuid owned).
Implicit Types (s : db) (e : envelope) (c : credentials) (x : AuthContext) (now t : time).
Abbreviation serve := (serve resources).
Abbreviation run := (run resources).
Abbreviation reachable := (reachable resources).
Abbreviation passed := (passed resources).

(** ** Resources *)

(** A resource whose organisation the user is no active member of. *)
Definition hidden s (k : resource_kind) (user id : uuid) : Prop := ∀ o, resource_row resources k id s = Some o →
present k o = true → exists_row (active_member (ow_organization_id o) user) (memberships s) = false.

Lemma hidden_not_found s k x id perm : hidden s k (cx_user_id x) id →
require_resource_permission resources k perm id x s = (inl not_found, s).
Proof.
intros Hh. unfold require_resource_permission, resolved_organization_id. apply run_bind_raise. rewrite run_gets.
apply run_none. destruct (resource_row resources k id s) as [o|] eqn:Eo; [|done]. cbn.
destruct (present k o) eqn:Ep; [|done]. by rewrite (Hh o Eo Ep).
Qed.

(** C31: access is isolated by organisation.  Whoever is granted a resource has a valid
  credential, is an active member of the organisation the resource belongs to, and holds
  the permission there by role, or by a key of that organisation with the scope.  To anyone
  who is no member, a resource answers exactly as one that does not exist. *)
Theorem access_isolated e k id perm now s :
(∀ a s', serve e (AccessResource k id perm) now s = (inr a, s') → ∃ x o, a = Granted x o ∧
   authentic s now (en_credentials e) x ∧ resource_row resources k id s = Some o ∧ present k o = true ∧
   authorized s x (ow_organization_id o) perm ∧
   ∃ i m, memberships s !! i = Some m ∧ mb_organization_id m = ow_organization_id o ∧ mb_user_id m = cx_user_id x ∧
     mb_status m = "ACTIVE"%string) ∧
(∀ absent, resource_row resources k absent s = None →
   (∀ x s1, resolve_auth_context (en_credentials e) now s = (inr x, s1) → hidden s k (cx_user_id x) id) →
   serve e (AccessResource k id perm) now s = serve e (AccessResource k absent perm) now s).
Proof.
split.
- intros a s'. unfold Tenancy.serve, transaction. destruct (handle resources e _ now s) as [[ex|b] s1] eqn:E; [done|]. intros [= -> <-].
  apply bind_ok in E as (b & s2 & E & [= <- <-]).
  destruct (access_resource_spec resources e k id perm now s _ _ E) as (_ & x & o & -> & Hau & _ & Ho & Hp & Haz & Hm).
  exists x, o. split_and!; try done. unfold exists_row in Hm. destruct (head _) as [[i m]|] eqn:Eh; [|done].
  apply head_select_Some in Eh as [Hi Ha]. unfold active_member, member_of in Ha. breflect. by exists i, m.
- intros absent Habs Hhid. unfold Tenancy.serve, transaction, handle, access_resource.
  destruct (resolve_auth_context (en_credentials e) now s) as [[ex|x] s1] eqn:E.
  + by rewrite !(run_bind_raise _ _ _ _ _ (run_bind_raise _ _ _ _ _ E)).
  + pose proof (resolve_spec _ _ _ _ _ E) as (_ & _ & Ht).
    assert (Hrow : ∀ i, resource_row resources k i s1 = resource_row resources k i s)
      by (intros i; unfold resource_row; by rewrite (to_projects _ _ _ Ht)).
    assert (Hgo : ∀ i, hidden s k (cx_user_id x) i → require_resource_permission resources k perm i x s1 = (inl not_found, s1)).
    { intros i Hi. apply hidden_not_found. intros o. rewrite Hrow, (to_memberships _ _ _ Ht). apply Hi. }
    rewrite !(run_bind_raise _ _ s not_found s1); [done|..]; rewrite (run_bind _ _ _ _ _ E); apply run_bind_raise, Hgo;
      [by intros o; rewrite Habs|by eapply Hhid].
Qed.

(** ** Sessions *)

Definition cookie_only (cookie csrf : pystr) : credentials := MkCredentials None (Some cookie) (Some csrf) None.


Lemma run_lift {A B} (v : exn + A) (k : A → Prelude.M db B) s a : v = inr a → (lift v ≫= k) s = k a s.
Proof. by intros ->. Qed.
Lemma active_user_run uid ex s : user_active s uid → active_user uid ex s = (inr (), s).
Proof.
intros (u & Hu & Hst). unfold active_user. rewrite run_gets, (run_some _ _ _ _ _ Hu). unfold raise_if.
by rewrite bool_decide_eq_true_2.
Qed.

(** An open session is accepted. *)
Lemma open_session_accepted s sid r c cookie now : ten_inv s → sessions s !! sid = Some r →
cr_authorization c = None → cr_session_cookie c = Some cookie → cookie ≠ [] →
secret_digest cookie session_token_pepper = inr (se_token_digest r) →
session_open now r → user_active s (se_user_id r) →
∃ r' s', resolve_auth_context c now s = (inr (MkAuth (se_user_id r) (SessionAuth sid r')), s') ∧ same_session now r r'.
Proof.
intros Hinv Hr Ha Hc Hne Hd (Hrev & Hidle & Habs) Hact. unfold resolve_auth_context. rewrite Ha, Hc.
destruct cookie as [|b cookie]; [done|]. unfold resolve_session. rewrite (run_lift _ _ _ _ Hd), run_gets.
erewrite run_some; [|apply (head_select_unique _ _ sid r); [|done|unfold with_token; by rewrite bool_decide_eq_true_2]].
2: { unfold with_token. intros i j y z Hy Hz E1 E2. breflect. apply (tn_token _ Hinv i j y z Hy Hz). congruence. }
cbv beta iota. rewrite run_pass by (rewrite Hrev; by apply bool_decide_eq_false_2, is_Some_None).
rewrite (proj2 (Z.leb_gt _ _) Hidle), (proj2 (Z.leb_gt _ _) Habs). cbn [orb].
rewrite (run_bind _ _ _ _ _ (active_user_run _ _ _ Hact)). cbv zeta. rewrite run_modify.
eexists _, _. split; [|].
- set (r' := if _ : bool then _ else r) at 1 2. assert (se_user_id r = se_user_id r') as -> by (unfold r'; by destruct (_ <=? _)). reflexivity.
- destruct (_ <=? _); [constructor; cbn; done || lia|apply same_session_refl].
Qed.

(** And only an open session is. *)
Lemma accepted_session_open s sid r c cookie now x s' : ten_inv s → sessions s !! sid = Some r →
cr_authorization c = None → cr_session_cookie c = Some cookie →
secret_digest cookie session_token_pepper = inr (se_token_digest r) →
resolve_auth_context c now s = (inr x, s') →
session_open now r ∧ user_active s (se_user_id r) ∧ cx_user_id x = se_user_id r ∧
∃ r', cx_principal x = SessionAuth sid r' ∧ same_session now r r'.
Proof.
intros Hinv Hr Ha Hc Hd Hrun. destruct (resolve_spec _ _ _ _ _ Hrun) as (_ & [Hact Hau] & _).
destruct (cx_principal x) as [sid' r'|kid k'].
- destruct Hau as (r0 & cookie' & Hr0 & Hsame & Hopen & Hu & Hc' & Hd'). rewrite Hc in Hc'. injection Hc' as <-.
  rewrite Hd in Hd'. injection Hd' as Hd'. assert (sid' = sid) as -> by by eapply (tn_token _ Hinv).
  rewrite Hr in Hr0. injection Hr0 as <-. rewrite Hu in Hact. split_and!; try apply Hopen; try done. by exists r'.
- destruct Hau as (k & token & _ & _ & _ & _ & (a & scheme & Ha' & _) & _). congruence.
Qed.

(** The CSRF token of a session passes its check. *)
Lemma csrf_accepted s c x sid r r' now cookie csrf : session_ok sid r → same_session now r r' → cx_principal x = SessionAuth sid r' →
csrf = derive_csrf_token sid (se_token_digest r) csrf_token_pepper → cr_csrf c = Some csrf →
cr_session_cookie c = Some cookie → require_csrf c x s = (inr (), s).
Proof.
intros Hok Hsame Hx -> Hcs _. unfold require_csrf. rewrite Hx, Hcs.
pose proof (csrf_digest sid (se_token_digest r) csrf_token_pepper) as Hdig.
assert (Hne : derive_csrf_token sid (se_token_digest r) csrf_token_pepper ≠ []).
{ intros E. pose proof (length_b64_encode (hmac_sha256 csrf_token_pepper (uuid_bytes sid ++ se_token_digest r))) as Hl.
  rewrite hmac_length in Hl. unfold derive_csrf_token in E. rewrite E in Hl. vm_compute in Hl. discriminate Hl. }
destruct (derive_csrf_token _ _ _) as [|b l] eqn:Et; [done|]. rewrite <- Et in *.
rewrite (ss_token _ _ _ Hsame), (ss_csrf _ _ _ Hsame), Hok.
rewrite (run_lift _ _ _ true); [done|]. rewrite verify_csrf_token_spec, decide_True by (apply b64_encode_ascii, hmac_bytes).
by rewrite bool_decide_eq_true_2.
Qed.

Lemma sign_in_spec e r now s i s' : serve e r now s = (inr (SignedIn i), s') →
issued_ok now (is_user_id i) i ∧ sessions s' !! is_session_id i = Some (is_session i).
Proof.
unfold Tenancy.serve, transaction. destruct (handle resources e r now s) as [[ex|b] s1] eqn:E; [done|]. intros [= -> <-].
assert (Hw : ∀ m : Prelude.M db (exn + response), m s = (inr (inr (SignedIn i)), s1) →
  wp m (λ a s2, ∀ j, a = inr (SignedIn j) → ∃ uid, issued_ok now uid j ∧ sessions s2 !! is_session_id j = Some (is_session j)) s →
  issued_ok now (is_user_id i) i ∧ sessions s1 !! is_session_id i = Some (is_session i)).
{ intros m Hm Hwp. destruct (Hwp _ _ Hm i eq_refl) as (uid & Hi & Hse). destruct (io_user _ _ _ Hi) as [_ ->]. done. }
destruct r; cbn [handle] in E.
2: { apply (Hw _ E). unfold login_route, require_allowed_origin. destruct (cr_origin _); wp_steps;
  (eapply wp_mono; [|apply login_changes]); intros [ex|o] s2 (_ & uid & u & _ & _ & Ho); wp_steps; intros j; try done;
  intros [= <-]; exists uid; by destruct Ho as (? & ? & _). }
1: { apply (Hw _ E). unfold register_route, require_allowed_origin. apply wp_bind. destruct (cr_origin _); wp_steps;
  (eapply wp_mono; [|apply register_changes]); intros o s2 (_ & uid & _ & ? & ? & _); wp_steps; intros j [= <-]; by exists uid. }
all: apply bind_ok in E as (b & s2 & E & [= -> <-]); unfold logout_route, create_organization_route, create_project_route, memberships_route,
  update_membership_route, api_keys_route, create_api_key_route, revoke_api_key_route, access_organization, access_resource in E;
  repeat (apply bind_ok in E as (? & ? & _ & E)); try done.
all: repeat case_match; try done; by apply bind_ok in E as (? & ? & _ & E).
Qed.

(** C34: a sign-in can be used until it ends.  The cookie and the CSRF token that a
  registration or a login returns are accepted, for that user, in any later state, exactly
  while the session is not revoked, has neither been idle too long nor reached its absolute
  end, fixed at the sign-in, and the user is active. *)
Theorem session_roundtrip past e r now t0 s i s' tr t1 s1 c t (Hs : reachable past t0 s) (Hle : t0 ≤ now) (Hv : valid_request r)
  (Hserve : serve e r now s = (inr (SignedIn i), s')) (Hrun : run (s :: past) now s' tr t1 s1) (Ht : t1 ≤ t)
  (Hauth : cr_authorization c = None) (Hcookie : cr_session_cookie c = Some (is_raw_token i))
  (Hcsrf : cr_csrf c = Some (is_csrf_token i)) (Htoken : is_raw_token i ≠ []) :
∃ row, sessions s1 !! is_session_id i = Some row ∧
se_absolute_expires_at row = now + hours session_absolute_hours ∧
((session_open t row ∧ user_active s1 (is_user_id i)) ↔
 ∃ x s2, resolve_auth_context c t s1 = (inr x, s2) ∧ require_csrf c x s2 = (inr (), s2) ∧ cx_user_id x = is_user_id i).
Proof.
destruct (sign_in_spec _ _ _ _ _ _ Hserve) as [Hi Hse].
assert (Hinv' : ten_inv s').
{ pose proof (serve_changes resources e r now s Hv) as Hch. rewrite Hserve in Hch. eapply changes_inv; [exact Hch|by eapply reachable_tenancy]. }
destruct (run_keeps resources _ _ _ _ _ _ Hrun Hinv') as [Hinv1 Hl]. destruct (lt_session _ _ _ Hl _ _ Hse) as (row & Hrow & Hsame).
pose proof (io_token _ _ _ Hi) as Hd. rewrite <- (ss_token _ _ _ Hsame) in Hd. destruct (io_user _ _ _ Hi) as [Hu _].
rewrite <- (ss_user _ _ _ Hsame) in Hu.
exists row. split; [done|]. split; [by rewrite (ss_absolute _ _ _ Hsame), (io_absolute _ _ _ Hi)|]. split.
- intros [Hopen Hact]. rewrite <- Hu in Hact.
  destruct (open_session_accepted s1 _ row c _ t Hinv1 Hrow Hauth Hcookie Htoken Hd Hopen Hact) as (r' & s2 & Hrun2 & Hsame2).
  eexists _, s2. split; [exact Hrun2|]. split; [|exact Hu].
  eapply (csrf_accepted s2 c _ _ row r' t); [by apply (tn_session _ Hinv1)|exact Hsame2|done| |exact Hcsrf|exact Hcookie].
  by rewrite (ss_token _ _ _ Hsame), (io_csrf _ _ _ Hi).
- intros (x & s2 & Hrun2 & _). destruct (accepted_session_open s1 _ row c _ t x s2 Hinv1 Hrow Hauth Hcookie Hd Hrun2) as (? & ? & _).
  by rewrite <- Hu.
Qed.

(** A session that has ended stays ended: once it is revoked, idle for too long or past
  its absolute end, no later request is accepted with its cookie, whatever happens in
  between. *)
Theorem session_end_final past t s sid r tr t' s' c cookie now x s2 (Hs : reachable past t s) (Hr : sessions s !! sid = Some r)
  (Hend : session_open t r → False) (Hrun : run past t s tr t' s') (Hnow : t' ≤ now)
  (Hauth : cr_authorization c = None) (Hcookie : cr_session_cookie c = Some cookie)
  (Hd : secret_digest cookie session_token_pepper = inr (se_token_digest r)) :
resolve_auth_context c now s' ≠ (inr x, s2).
Proof.
intros Hres. pose proof (reachable_tenancy _ _ _ _ Hs) as Hinv. destruct (run_keeps resources _ _ _ _ _ _ Hrun Hinv) as [Hinv' Hl].
destruct (lt_session _ _ _ Hl _ _ Hr) as (r' & Hr' & Hsame). rewrite <- (ss_token _ _ _ Hsame) in Hd.
destruct (accepted_session_open s' sid r' c cookie now x s2 Hinv' Hr' Hauth Hcookie Hd Hres) as ((Hrev & Hidle & Habs) & _).
pose proof (run_time _ _ _ _ _ _ _ Hrun) as Hle. apply Hend. rewrite (ss_absolute _ _ _ Hsame) in Habs. split_and!; [|destruct (Z.lt_ge_cases t (se_idle_expires_at r)) as [?|Hi]; [done|]|lia].
- apply eq_None_not_Some. intros Hsome. apply (ss_revoked _ _ _ Hsame) in Hsome. rewrite Hrev in Hsome. by apply is_Some_None in Hsome.
- rewrite (ss_idle _ _ _ Hsame Hi) in Hidle. lia.
Qed.

(** ** API keys *)

(** An open key of an active user is accepted; the caller then acts as that key. *)
Lemma open_key_accepted s kid k c scheme token now : ten_inv s → api_keys s !! kid = Some k →
cr_authorization c = Some (scheme ++ 32%N :: token) → partition_space (scheme ++ 32%N :: token) = (scheme, token) →
casefold scheme = lit "bearer" → token ≠ [] → secret_digest token api_key_pepper = inr (ak_token_digest k) →
key_open now k → user_active s (ak_created_by_user_id k) →
∃ k' s', resolve_auth_context c now s = (inr (MkAuth (ak_created_by_user_id k) (ApiKeyAuth kid k')), s') ∧ same_key k k'.
Proof.
intros Hinv Hk Ha Hp Hs Hne Hd [Hrev Hexp] Hact. unfold resolve_auth_context. rewrite Ha.
assert (Hr : resolve_api_key (scheme ++ 32%N :: token) now s =
  (inr (MkAuth (ak_created_by_user_id k) (ApiKeyAuth kid (k <| ak_last_used_at := Some now |>))),
   s <| api_keys ::= <[kid := k <| ak_last_used_at := Some now |>]> |>)).
{ unfold resolve_api_key. rewrite Hp, Hs, bool_decide_eq_true_2, bool_decide_eq_false_2 by done. cbn [negb orb].
  rewrite run_pass by done. rewrite (run_lift _ _ _ _ Hd), run_gets.
  erewrite run_some; [|apply (head_select_unique _ _ kid k); [|done|unfold key_with_digest; by rewrite bool_decide_eq_true_2]].
  2: { unfold key_with_digest. intros i j y z Hy Hz E1 E2. breflect. apply (tn_key_digest _ Hinv i j y z Hy Hz). congruence. }
  cbv beta iota. rewrite run_pass.
  2: { rewrite Hrev. apply orb_false_intro; [by apply bool_decide_eq_false_2, is_Some_None|].
       unfold is_expired. destruct (ak_expires_at k); [|done]. by apply Z.leb_gt. }
  by rewrite (run_bind _ _ _ _ _ (active_user_run _ _ _ Hact)). }
eexists _, _. split; [|shelve]. destruct scheme; cbn; exact Hr. Unshelve. by constructor.
Qed.
Lemma resolve_api_key_principal a now s : wp (resolve_api_key a now) (λ x _, ∃ kid k, cx_principal x = ApiKeyAuth kid k) s.
Proof.
unfold resolve_api_key. destruct (partition_space a) as [scheme token]. apply wp_bind, wp_raise_if. intros _.
apply wp_bind, wp_lift. intros d _. wp_steps. eapply wp_mono; [|apply active_user_spec]. intros [] s1 _. wp_steps. eauto.
Qed.
Lemma accepted_key_open s kid k c token now x s' : ten_inv s → api_keys s !! kid = Some k →
bearer c token → secret_digest token api_key_pepper = inr (ak_token_digest k) →
resolve_auth_context c now s = (inr x, s') →
key_open now k ∧ user_active s (ak_created_by_user_id k) ∧ cx_user_id x = ak_created_by_user_id k ∧
∃ k', cx_principal x = ApiKeyAuth kid k' ∧ same_key k k'.
Proof.
intros Hinv Hk (a & scheme & Ha & Hp & Hs & Hne) Hd Hrun.
destruct a as [|b a]; [injection Hp as <- <-; done|].
unfold resolve_auth_context in Hrun. rewrite Ha in Hrun.
destruct (resolve_api_key_spec c _ _ _ Ha _ _ Hrun) as (_ & [Hact Hau] & _).
destruct (resolve_api_key_principal _ _ _ _ _ Hrun) as (kid' & k' & Ex). rewrite Ex in Hau |- *.
destruct Hau as (k0 & token' & Hk0 & Hsame & Hopen & Hu & (a' & scheme' & Ha' & Hp' & _) & Hd').
rewrite Ha in Ha'. injection Ha' as <-. rewrite Hp in Hp'. injection Hp' as <- <-. rewrite Hd in Hd'. injection Hd' as Hd'.
assert (kid' = kid) as -> by by eapply (tn_key_digest _ Hinv). rewrite Hk in Hk0. injection Hk0 as <-. rewrite Hu in Hact.
split_and!; try apply Hopen; try done. by exists k'.
Qed.

Lemma find_snoc {A} (p : A → bool) l a : find p (l ++ [a]) = match find p l with Some b => Some b | None => if p a then Some a else None end.
Proof. induction l as [|b l IH]; cbn; [done|]. by destruct (p b). Qed.

(** What the route leaves behind when it creates a key. *)
Lemma key_created_spec e org payload idem now s id k token s' : valid_request (CreateApiKey org payload idem) →
serve e (CreateApiKey org payload idem) now s = (inr (ApiKeyCreated id k token), s') → api_keys s !! id = None →
∃ key x rc l, idem = Some key ∧ authentic s now (en_credentials e) x ∧ authorized s x org "api_key.create" ∧
  created_key org (cx_user_id x) payload key rc id k token ∧ api_keys s' !! id = Some k ∧ idempotency s' = l ++ [rc] ∧
  ∀ b, encode key = inr b → find (key_scope org (cx_user_id x) (sha256_hex b)) l = None.
Proof.
intros Hv. unfold Tenancy.serve, transaction. destruct (handle resources e _ now s) as [[ex|a] s1] eqn:E; [done|]. intros [= -> <-] Hfresh.
apply bind_ok in E as (a & s2 & E & [= -> <-]).
assert (Hw : wp (create_api_key_route e org payload idem now) (λ a s', changes now s s' ∧ ∀ id k token, a = ApiKeyCreated id k token →
  api_keys s !! id = None → ∃ key x rc l, idem = Some key ∧ authentic s now (en_credentials e) x ∧ authorized s x org "api_key.create" ∧
  created_key org (cx_user_id x) payload key rc id k token ∧ api_keys s' !! id = Some k ∧ idempotency s' = l ++ [rc] ∧
  ∀ b, encode key = inr b → find (key_scope org (cx_user_id x) (sha256_hex b)) l = None) s).
{ apply write_route. intros x s3 _ Hau Ht Haz. apply wp_bind, wp_get_or_raise. intros key ->.
  apply wp_bind. eapply wp_mono; [|apply create_api_key_changes]. intros [[id0 k0] t0] s4 [Hch Hc]. wp_steps. split; [done|].
  intros id1 k1 t1 [= <- <- <-] Hnone. cbn in Hc. destruct Hc as [(-> & k1 & Hk1 & _)|(rc & Hck & Hfind & Hid & Hk)].
  - exfalso. pose proof (to_row _ _ _ Ht) as Hrow. destruct Hau as [_ Hau]. destruct (cx_principal x) as [sid r'|kid k'].
    + destruct Hrow as [Hrow _]. congruence.
    + destruct Hrow as [_ Hrow]. rewrite Hrow in Hk1. destruct Hau as (k2 & _ & Hk2 & _).
      apply lookup_insert_Some in Hk1 as [[<- _]|[_ Hk1]]; congruence.
  - exists key, x, rc, (idempotency s3). by split_and!. }
by apply (Hw _ _ E).
Qed.

Lemma derived_token_nonempty env org user idem secret ik : derive_api_key env org user idem secret = inr ik → ik_raw_token ik ≠ [].
Proof. unfold derive_api_key. destruct (encode _); [done|]. by intros [= <-]. Qed.

(** An API key can be used until it ends.  The token that the creation of a key returns
  is accepted as a bearer token, in any later state, exactly while the key is not revoked
  and not past its expiry and its creator is active; the caller then acts as the creator
  with that key, whose organisation is the one it was created in and whose scopes are those
  requested.  A key that is revoked or expired is never accepted again. *)
Theorem api_key_roundtrip past e org payload idem now t0 s id k token s' tr t1 s1 c t (Hs : reachable past t0 s) (Hle : t0 ≤ now)
  (Hv : valid_request (CreateApiKey org payload idem))
  (Hserve : serve e (CreateApiKey org payload idem) now s = (inr (ApiKeyCreated id k token), s')) (Hfresh : api_keys s !! id = None)
  (Hrun : run (s :: past) now s' tr t1 s1) (Ht : t1 ≤ t) (Hc : cr_authorization c = Some (lit "bearer " ++ token))
  (Hcase : casefold (lit "bearer") = lit "bearer") :
∃ row, api_keys s1 !! id = Some row ∧ ak_organization_id row = org ∧ ak_expires_at row = fst <$> ck_expires_at payload ∧
(∀ scope, scope ∈ ak_scopes row ↔ scope ∈ ck_scopes payload) ∧
((key_open t row ∧ user_active s1 (ak_created_by_user_id row)) ↔ ∃ x s2, resolve_auth_context c t s1 = (inr x, s2)) ∧
(∀ x s2, resolve_auth_context c t s1 = (inr x, s2) → cx_user_id x = ak_created_by_user_id row ∧
   ∃ row', cx_principal x = ApiKeyAuth id row' ∧ same_key row row') ∧
∀ tr' t' s3 now' x s4, (key_open t1 row → False) → run (passed (s :: past) s' tr) t1 s1 tr' t' s3 → t' ≤ now' → resolve_auth_context c now' s3 ≠ (inr x, s4).
Proof.
destruct (key_created_spec _ _ _ _ _ _ _ _ _ _ Hv Hserve Hfresh) as (key & x0 & rc & l & _ & _ & _ & Hck & Hk & _).
assert (Hinv' : ten_inv s').
{ pose proof (serve_changes resources e _ now s Hv) as Hch. rewrite Hserve in Hch. eapply changes_inv; [exact Hch|by eapply reachable_tenancy]. }
destruct (run_keeps resources _ _ _ _ _ _ Hrun Hinv') as [Hinv1 Hl]. destruct (lt_key _ _ _ Hl _ _ Hk) as (row & Hrow & Hsame).
destruct (ck_row _ _ _ _ _ _ _ _ Hck) as (Ho & _ & Hexp & _). pose proof (ck_digest _ _ _ _ _ _ _ _ Hck) as Hd.
destruct (ck_valid _ _ _ _ _ _ _ _ Hck) as (scopes & Hsc & Escopes & _). destruct (ck_token _ _ _ _ _ _ _ _ Hck) as (ik & Hik & Etok).
assert (Hne : token ≠ []) by (rewrite Etok; by eapply derived_token_nonempty).
rewrite <- (sk_digest _ _ Hsame) in Hd.
assert (Hb : bearer c token) by (by exists (lit "bearer " ++ token), (lit "bearer")).
exists row. split; [done|]. split; [by rewrite (sk_organization _ _ Hsame)|]. split; [by rewrite (sk_expires _ _ Hsame)|].
split; [by rewrite (sk_scopes _ _ Hsame), Escopes; apply validate_scopes_inv|]. split_and!.
- split.
  + intros [Hopen Hact]. destruct (open_key_accepted s1 id row c (lit "bearer") token t Hinv1 Hrow Hc eq_refl Hcase Hne Hd Hopen Hact)
      as (k' & s2 & Hr & _). eauto.
  + intros (x & s2 & Hr). by destruct (accepted_key_open s1 id row c token t x s2 Hinv1 Hrow Hb Hd Hr) as (? & ? & _).
- intros x s2 Hr. by destruct (accepted_key_open s1 id row c token t x s2 Hinv1 Hrow Hb Hd Hr) as (_ & _ & ?).
- intros tr' t' s3 now' x s4 Hend Hrun' Hnow Hr. destruct (run_keeps resources _ _ _ _ _ _ Hrun' Hinv1) as [Hinv3 Hl3].
  destruct (lt_key _ _ _ Hl3 _ _ Hrow) as (row3 & Hrow3 & Hsame3). rewrite <- (sk_digest _ _ Hsame3) in Hd.
  destruct (accepted_key_open s3 id row3 c token now' x s4 Hinv3 Hrow3 Hb Hd Hr) as ([Hrev Hex] & _).
  pose proof (run_time _ _ _ _ _ _ _ Hrun') as Hle'. apply Hend. split.
  + apply eq_None_not_Some. intros Hsome. rewrite (sk_revoked _ _ Hsame3 Hsome) in Hrev. rewrite Hrev in Hsome. by apply is_Some_None in Hsome.
  + rewrite (sk_expires _ _ Hsame3) in Hex. destruct (ak_expires_at row); [lia|done].
Qed.

(** Creating a key is idempotent: after a key was created, the same request repeated at
  any later time, under the same idempotency key and user, answers with the same key and
  the same token and changes nothing; a request with another fingerprint is refused as a
  conflict. *)
Theorem api_key_replayed past e org payload idem now t0 s id k token s' tr t1 s1 payload' scopes' fp' rq t (Hs : reachable past t0 s) (Hle : t0 ≤ now)
  (Hv : valid_request (CreateApiKey org payload (Some idem)))
  (Hserve : serve e (CreateApiKey org payload (Some idem)) now s = (inr (ApiKeyCreated id k token), s')) (Hfresh : api_keys s !! id = None)
  (Hrun : run (s :: past) now s' tr t1 s1) (Hv' : valid_request (CreateApiKey org payload' (Some idem)))
  (Hsc : validate_scopes (ck_scopes payload') = inr scopes')
  (Hfp : canonical_fingerprint (api_key_request payload' scopes') = Some fp') :
∃ x row, authentic s now (en_credentials e) x ∧ api_keys s1 !! id = Some row ∧ same_key k row ∧
create_api_key org (cx_user_id x) payload idem rq t s1 = (inr (id, row, token), s1) ∧
((∀ scopes, validate_scopes (ck_scopes payload) = inr scopes → canonical_fingerprint (api_key_request payload scopes) ≠ Some fp') →
 create_api_key org (cx_user_id x) payload' idem rq t s1 = (inl (ApiError 409 "IDEMPOTENCY_CONFLICT"), s1)).
Proof.
destruct (key_created_spec _ _ _ _ _ _ _ _ _ _ Hv Hserve Hfresh) as (key & x & rc & l & [= <-] & Hau & _ & Hck & Hk & Hrec & Hfind).
assert (Hinv' : ten_inv s').
{ pose proof (serve_changes resources e _ now s Hv) as Hch. rewrite Hserve in Hch. eapply changes_inv; [exact Hch|by eapply reachable_tenancy]. }
destruct (run_keeps resources _ _ _ _ _ _ Hrun Hinv') as [Hinv1 Hl]. destruct (lt_key _ _ _ Hl _ _ Hk) as (row & Hrow & Hsame).
destruct (ck_row _ _ _ _ _ _ _ _ Hck) as (Ho & _). destruct (ck_valid _ _ _ _ _ _ _ _ Hck) as (scopes & Hsc0 & Escopes & Hfp0).
destruct (ck_token _ _ _ _ _ _ _ _ Hck) as (ik & Hik & Etok). destruct (ck_key _ _ _ _ _ _ _ _ Hck) as (b & Hb & Hscope).
assert (Hf : find (key_scope org (cx_user_id x) (sha256_hex b)) (idempotency s1) = Some rc).
{ destruct (lt_record _ _ _ Hl) as [l' ->]. apply find_app. rewrite Hrec.
  by rewrite find_snoc, (Hfind _ Hb), Hscope. }
exists x, row. split; [done|]. split; [done|]. split; [done|].
assert (Hgo : ∀ p sc f i, validate_scopes (ck_scopes p) = inr sc → canonical_fingerprint (api_key_request p sc) = Some f →
  derive_api_key (ck_environment p) org (cx_user_id x) idem api_key_issuance_secret = inr i →
  create_api_key org (cx_user_id x) p idem rq t s1 = if decide (i_request_fingerprint rc = f) then (inr (id, row, ik_raw_token i), s1)
    else (inl (ApiError 409 "IDEMPOTENCY_CONFLICT"), s1)).
{ intros p sc f i Hp Hf' Hi. unfold create_api_key. rewrite run_pass by (by apply negb_false_iff, (ck_length _ _ _ _ _ _ _ _ Hck)).
  rewrite Hp, run_ret, (run_some _ _ _ _ _ Hf'), (run_lift _ _ _ _ Hb). cbv zeta.
  change (find (in_scope org (str_of_uuid (cx_user_id x)) API_KEY_ENDPOINT (sha256_hex b)) (idempotency s1) = Some rc) in Hf.
  rewrite run_gets, Hf, (run_lift _ _ _ _ Hi). case_decide as Ef.
  - rewrite run_pass by (by rewrite bool_decide_eq_true_2). rewrite run_gets, (ck_resource _ _ _ _ _ _ _ _ Hck), Hrow.
    erewrite run_some; [done|]. cbn. by rewrite bool_decide_eq_true_2 by (by rewrite (sk_organization _ _ Hsame)).
  - by rewrite run_refuse by (by rewrite bool_decide_eq_false_2). }
split.
- rewrite (Hgo payload scopes _ ik Hsc0 Hfp0 Hik), decide_True by done. by rewrite Etok.
- intros Hdiff. destruct (derive_api_key_env _ (ck_environment payload') _ _ _ _ _ Hik) as [i Ei].
  { cbn in Hv'. rewrite !elem_of_cons, elem_of_nil in Hv'. destruct Hv' as [->|[->|[]]]; eauto. }
  rewrite (Hgo payload' scopes' fp' i Hsc Hfp Ei), decide_False; [done|]. intros <-. by apply (Hdiff scopes).
Qed.
End access.
