(* ===== verification/TenancyScenario.v ===== *)
(** Concrete runs of the identity routes: the hypotheses of the theorems of TenancyRuns.v,
    TenancyAccess.v and LoginBound.v hold in them, and what they show beside the theorems:
    updates that overlap, keys wider than their creator's role, a header that is not ASCII. *)

From S2P Require Import Prelude PyVal PyUuid PyTime QueueProtocol EventProtocol Idempotency Base64.
From S2P Require Import Pagination Security Permissions Identity Access Tenancy TenancySpec TenancyRuns.
From S2P Require Import TenancyAccess LoginBound.

Module TenancyScenario.
#[local] Instance counting : Entropy := λ n, n.
#[local] Instance plain_digest : Sha256 := λ b, b.
#[local] Instance no_fold : CaseFold := λ s, s.
#[local] Instance plain_passwords : PasswordHasher := {|
  hash_password _ p := p; verify_password h p := bool_decide (h = p); needs_password_rehash _ := false |}.
#[local] Instance counted_tokens : SessionTokens := λ n, lit "t" ++ dec_str n.
#[local] Instance settings : IdentitySettings := {|
  session_token_pepper := []; csrf_token_pepper := []; api_key_pepper := []; api_key_issuance_secret := [];
  session_idle_minutes := 60; session_absolute_hours := 24; project_default_max_active_leases := 2; allowed_origins := [] |}.
(** The end of the message, so that texts with a common beginning differ. *)
#[local] Instance stub_hmac : HmacSha256.
Proof.
  refine {| hmac_sha256 key m := take 32 (((λ b, b mod 256)%N <$> reverse m) ++ repeat 0%N 32) |}.
  - intros key m. rewrite length_take, length_app, repeat_length. lia.
  - intros key m. apply Forall_take, Forall_app. split.
    + apply Forall_fmap, Forall_forall. intros b _. unfold is_byte. cbn. apply N.mod_lt. done.
    + apply Forall_forall. intros b Hb%list_elem_of_In%repeat_spec. subst. done.
Defined.
Definition no_resources : resource_kind → gmap uuid owned := λ _, ∅.

Definition anonymous : envelope := MkEnvelope (MkCredentials None None None None) "rq" None None.
Definition signed (i : IssuedSession) : envelope :=
MkEnvelope (MkCredentials None (Some (is_raw_token i)) (Some (is_csrf_token i)) None) "rq" None None.
Definition register_as (email org : string) : request :=
Register (MkRegister (lit email) (lit "password") (lit "somebody") (lit org) (lit org)).

Abbreviation after := (after no_resources).
Abbreviation answer := (answer no_resources).
Abbreviation reachable := (reachable no_resources).
Abbreviation run := (run no_resources).
Abbreviation passed := (passed no_resources).

Definition signed_in_as (n : entry) (s : db) : IssuedSession :=
match answer n s with
| inr (SignedIn i) => i
| _ => MkIssued [] [] 0%N (MkSession 0%N [] [] 0 0 0 0 None None None None) 0%N
end.

(** Alice (user 1, organisation 2, membership 3) and Bob (user 7, organisation 8). *)
Definition alice_joins : entry := Serve anonymous (register_as "alice" "acme") (seconds 0).
Definition s_alice : db := after alice_joins empty.
Definition bob_joins : entry := Serve anonymous (register_as "bob" "bobs") (seconds 1).
Definition s_both : db := after bob_joins s_alice.
Definition alice : IssuedSession := signed_in_as alice_joins empty.
Definition bob : IssuedSession := signed_in_as bob_joins s_alice.

(** Bob is enrolled as a developer of Alice's organisation. *)
Definition bob_enrolled : entry := Enrol 100%N (MkMembership 2 7 "developer" "ACTIVE" 0 0 1) (seconds 2).
Definition s_team : db := after bob_enrolled s_both.
Definition team_run : list entry := [alice_joins; bob_joins; bob_enrolled].

Definition promote : request := UpdateRole 2 100 "owner" 1.
Definition s_owners : db := after (Serve (signed alice) promote (seconds 3)) s_team.
Definition key_request : CreateApiKeyRequest := MkCreateApiKey (lit "ci") [lit "run.read"] (Some (seconds 5000, lit "later")) (lit "test").
Definition create_key : request := CreateApiKey 2 key_request (Some (lit "key-1234")).
Definition key_created : entry := Serve (signed alice) create_key (seconds 4).
Definition s_key : db := after key_created s_team.
Definition issued_key : pystr := match answer key_created s_team with inr (ApiKeyCreated _ _ token) => token | _ => [] end.

Ltac served := repeat (apply run_cons; [vm_compute; discriminate|first [exact I|by left|by right; left]|left|]); apply run_nil.
Lemma run_team : run [] 0 empty team_run (seconds 2) s_team.
Proof. served. Qed.
Definition team_past : list db := passed [] empty team_run.
Lemma reach_team : reachable team_past (seconds 2) s_team.
Proof. exists 0, team_run. split; [exact run_team|done]. Qed.
Lemma promote_valid : valid_request promote.
Proof. by left. Qed.
Lemma key_valid : valid_request create_key.
Proof. cbn. right. left. Qed.

(** ** Witnesses *)

Lemma final_owner_kept_witness : ∃ i m, memberships s_team !! i = Some m ∧ mb_organization_id m = 2%N ∧
mb_status m = "ACTIVE"%string ∧ mb_role m = "owner"%string.
Proof.
refine (proj1 (final_owner_kept no_resources 0 team_run (seconds 2) s_team run_team) _ 2%N _); [repeat constructor|vm_compute; eauto].
Defined.

Lemma roles_change_by_authority_witness :
∃ role x m0, promote = UpdateRole 2 100 role (mb_version m0) ∧ memberships s_team !! 100%N = Some m0 ∧
authentic s_team (seconds 3) (en_credentials (signed alice)) x ∧ authorized s_team x 2 "membership.update_role".
Proof.
destruct (roles_change_by_authority no_resources team_past (seconds 2) s_team (Serve (signed alice) promote (seconds 3)) 100%N
  (MkMembership 2 7 "developer" "ACTIVE" 0 0 1) (MkMembership 2 7 "owner" "ACTIVE" 0 (seconds 3) 2) reach_team promote_valid)
  as (e & role & v & now & x & m0 & [Hn|[? Hn]] & _ & Hm0 & Hv & ? & ?);
  [left|vm_compute; reflexivity..|discriminate|injection Hn as <- <- <- <-|discriminate Hn].
exists "owner"%string, x, m0. rewrite Hv. by split_and!.
Defined.

Lemma reach_empty : reachable [] 0 empty.
Proof. exists 0, []. split; [apply run_nil|done]. Qed.
Lemma run_joined : run [empty] 0 s_alice [bob_joins; bob_enrolled] (seconds 2) s_team.
Proof. served. Qed.
Definition cookie_of (i : IssuedSession) : credentials := en_credentials (signed i).
Lemma session_roundtrip_witness :
∃ row, sessions s_team !! 5%N = Some row ∧ se_absolute_expires_at row = 0 + hours 24 ∧
((session_open (seconds 3) row ∧ user_active s_team 1) ↔
 ∃ x s2, resolve_auth_context (cookie_of alice) (seconds 3) s_team = (inr x, s2) ∧
   require_csrf (cookie_of alice) x s2 = (inr (), s2) ∧ cx_user_id x = 1%N).
Proof.
refine (session_roundtrip no_resources [] anonymous (register_as "alice" "acme") 0 0 empty alice s_alice [bob_joins; bob_enrolled]
  (seconds 2) s_team (cookie_of alice) (seconds 3) reach_empty _ I _ run_joined _ _ _ _ _); try (vm_compute; congruence || reflexivity).
Defined.

(** A project of Alice's organisation, before Bob is enrolled in it. *)
Definition s_project : db := after (Serve (signed alice) (CreateProject 2 (lit "crawler") (lit "crawler") None) (seconds 2)) s_both.
Lemma access_isolated_witness :
(∃ p, projects s_project !! 12%N = Some p ∧ pj_deleted_at p = None) ∧
serve no_resources (signed bob) (AccessResource PROJECT 12 "project.read") (seconds 3) s_project =
serve no_resources (signed bob) (AccessResource PROJECT 999 "project.read") (seconds 3) s_project.
Proof.
split; [eexists; split; vm_compute; reflexivity|].
refine (proj2 (access_isolated no_resources (signed bob) PROJECT 12 "project.read" (seconds 3) s_project) 999%N _ _); [reflexivity|].
intros x s1 Hr. vm_compute in Hr. injection Hr as <- <-. intros o Ho _. vm_compute in Ho. injection Ho as <-. vm_compute. reflexivity.
Defined.

(** Alice signs out. *)
Definition s_out : db := after (Serve (signed alice) Logout (seconds 3)) s_team.
Lemma reach_out : reachable (s_team :: team_past) (seconds 3) s_out.
Proof. apply (reachable_run _ _ _ _ [Serve (signed alice) Logout (seconds 3)] _ _ reach_team). served. Qed.
Definition ended : Session := (is_session alice) <| se_revoked_at := Some (seconds 3) |> <| se_revoke_reason := Some "logout"%string |>.
Lemma session_end_final_witness :
resolve_auth_context (cookie_of alice) (seconds 4) s_out ≠ (inr (MkAuth 1 (SessionAuth 5 ended)), s_out).
Proof.
refine (session_end_final no_resources (s_team :: team_past) (seconds 3) s_out 5%N ended [] (seconds 3) s_out (cookie_of alice) (is_raw_token alice)
  (seconds 4) (MkAuth 1 (SessionAuth 5 ended)) s_out reach_out _ _ _ _ _ _ _); try (vm_compute; congruence || reflexivity).
- intros [Hrev _]. vm_compute in Hrev. discriminate Hrev.
- apply run_nil.
Defined.

Definition bearer_of (token : pystr) : credentials := MkCredentials (Some (lit "bearer " ++ token)) None None None.
Definition created : ApiKey := default (MkApiKey 0 [] [] [] [] [] [] 0 0 None None None None) (api_keys s_key !! 12%N).
Lemma key_answer : serve no_resources (signed alice) create_key (seconds 4) s_team = (inr (ApiKeyCreated 12 created issued_key), s_key).
Proof. apply injective_projections; [vm_compute; reflexivity|reflexivity]. Qed.
Lemma api_key_roundtrip_witness :
∃ row, api_keys s_key !! 12%N = Some row ∧ ak_organization_id row = 2%N ∧ ak_expires_at row = Some (seconds 5000) ∧
((key_open (seconds 5) row ∧ user_active s_key (ak_created_by_user_id row)) ↔
  ∃ x s2, resolve_auth_context (bearer_of issued_key) (seconds 5) s_key = (inr x, s2)).
Proof.
destruct (api_key_roundtrip no_resources team_past (signed alice) 2 key_request (Some (lit "key-1234")) (seconds 4) (seconds 2) s_team 12 created
  issued_key s_key [] (seconds 4) s_key (bearer_of issued_key) (seconds 5) reach_team) as (row & ? & ? & ? & _ & ? & _);
  [vm_compute; discriminate|exact key_valid|exact key_answer|vm_compute; reflexivity|apply run_nil|vm_compute; discriminate|
   exact eq_refl|exact eq_refl|].
exists row. split; [assumption|]. split; [assumption|]. split; assumption.
Defined.
Lemma api_key_replayed_witness :
∃ x row, authentic s_team (seconds 4) (cookie_of alice) x ∧ api_keys s_key !! 12%N = Some row ∧ same_key created row ∧
create_api_key 2 (cx_user_id x) key_request (lit "key-1234") "rq" (seconds 9) s_key = (inr (12%N, row, issued_key), s_key).
Proof.
destruct (api_key_replayed no_resources team_past (signed alice) 2 key_request (lit "key-1234") (seconds 4) (seconds 2) s_team 12 created
  issued_key s_key [] (seconds 4) s_key key_request [lit "run.read"]
  (default [] (canonical_fingerprint (api_key_request key_request [lit "run.read"]))) "rq" (seconds 9) reach_team)
  as (x & row & ? & ? & ? & ? & _);
  [vm_compute; discriminate|exact key_valid|exact key_answer|vm_compute; reflexivity|apply run_nil|exact key_valid|
   vm_compute; reflexivity|vm_compute; reflexivity|].
exists x, row. split; [assumption|]. split; [assumption|]. split; assumption.
Defined.

(** Eleven wrong passwords within a second: ten are checked, then the account is locked. *)
Definition wrong : entry := Serve anonymous (Login (lit "bob") (lit "guess")) (seconds 3).
Lemma password_guesses_bounded_witness :
wrong_guesses no_resources 7 (repeat wrong 11) s_team = 10 ∧
wrong_guesses no_resources 7 (repeat wrong 11) s_team ≤ MAX_FAILED_LOGINS + (seconds 3 - seconds 2) / minutes 15.
Proof.
split; [vm_compute; reflexivity|].
refine (password_guesses_bounded no_resources team_past (seconds 2) s_team (repeat wrong 11) (seconds 3) _ 7 reach_team _ _ _ _).
- served.
- repeat constructor.
- vm_compute. eauto.
- vm_compute. reflexivity.
Defined.

(** ** What overlapping requests and wide keys do *)

(** Bob becomes an owner too; then two demotions overlap: each reads two owners and demotes
  the other one, and the organisation is left without an owner.  The count is not protected
  by a lock. *)
Definition demote (mid : uuid) (v : Z) : request := UpdateRole 2 mid "viewer" v.
Definition race_run : list entry :=
  team_run ++ [Serve (signed alice) promote (seconds 3); Overlap s_owners (signed bob) (demote 3 1) (seconds 5);
               Overlap s_owners (signed alice) (demote 100 2) (seconds 5)].
Definition final (tr : list entry) : db := fold_left (λ s n, after n s) tr empty.
Lemma run_race : run [] 0 empty race_run (seconds 5) (final race_run).
Proof.
refine (proj1 (run_app no_resources _ _ _ _ _ _ _ _ _ run_team _)).
apply run_cons; [vm_compute; discriminate|by left|left|].
apply run_cons; [vm_compute; discriminate|by do 5 right; left|left|].
apply run_cons; [vm_compute; discriminate|by do 5 right; left|right; left|]. apply run_nil.
Qed.
Example final_owner_race :
length (select (active_owner 2) (memberships s_owners)) = 2%nat ∧
run [] 0 empty race_run (seconds 5) (final race_run) ∧ select (active_owner 2) (memberships (final race_run)) = [].
Proof. split; [vm_compute; reflexivity|]. split; [exact run_race|vm_compute; reflexivity]. Qed.

(** Two updates of one membership that overlap both pass with the version it had. *)
Example overlapping_updates_both_pass :
let first := Serve (signed alice) promote (seconds 3) in
let second := Overlap s_team (signed alice) (UpdateRole 2 100 "viewer" 1) (seconds 3) in
match answer first s_team, answer second (after first s_team) with
| inr (RoleUpdated m), inr (RoleUpdated m') => mb_version m = 2 ∧ mb_version m' = 2
| _, _ => False
end.
Proof. vm_compute. by split. Qed.

(** Failures that overlap are counted once, since the count written is the one read plus
  one: more passwords are checked than the bound allows. *)
Lemma run_repeated past seen e r now s k : valid_request r → seen ∈ s :: past →
run past now s (repeat (Overlap seen e r now) k) now (fold_left (λ s n, after n s) (repeat (Overlap seen e r now) k) s).
Proof.
intros Hr. revert past s. induction k as [|k IH]; intros past s Hs; cbn [repeat fold_left]; [apply run_nil|].
apply run_cons; [cbn; lia|exact Hr|exact Hs|]. apply IH. by right.
Qed.
Definition overlapping_wrong : entry := Overlap s_team anonymous (Login (lit "bob") (lit "guess")) (seconds 3).
Definition guesses : list entry := wrong :: repeat overlapping_wrong 19.
Example overlapping_failures_miscounted :
run team_past (seconds 2) s_team guesses (seconds 3) (fold_left (λ s n, after n s) guesses s_team) ∧
wrong_guesses no_resources 7 guesses s_team = 20 ∧
us_failed_login_count <$> users (fold_left (λ s n, after n s) guesses s_team) !! 7%N = Some 1.
Proof.
split; [|split; vm_compute; reflexivity].
apply run_cons; [vm_compute; discriminate|exact I|left|]. apply run_repeated; [exact I|right; left].
Qed.

(** Bob, a developer, may not change roles; with a key he creates himself, he does: the scopes
  of a key are not limited to what its creator may do. *)
Definition wide_key : request :=
CreateApiKey 2 (MkCreateApiKey (lit "ci") [lit "membership.update_role"] None (lit "test")) (Some (lit "key-1234")).
Definition with_key (n : entry) (s : db) : envelope :=
MkEnvelope (bearer_of match answer n s with inr (ApiKeyCreated _ _ token) => token | _ => [] end) "rq" None None.
Example developer_key_exceeds_role :
answer (Serve (signed bob) promote (seconds 3)) s_team = inl (ApiError 403 "PERMISSION_DENIED") ∧
let create := Serve (signed bob) wide_key (seconds 3) in
let s := after (Serve (with_key create s_team) promote (seconds 4)) (after create s_team) in
mb_role <$> memberships s !! 100%N = Some "owner"%string.
Proof. vm_compute. by split. Qed.

(** A CSRF header that is not ASCII raises instead of being refused. *)
Example csrf_header_not_ascii :
answer (Serve (MkEnvelope (MkCredentials None (Some (is_raw_token alice)) (Some [233%N]) None) "rq" None None) Logout (seconds 3)) s_team
  = inl (TypeError "comparing strings with non-ASCII characters is not supported").
Proof. vm_compute. reflexivity. Qed.
End TenancyScenario.
