(* ===== verification/EgressProtocol.v ===== *)
(** Egress policies as values: src/apps/api/app/egress_policy_protocol.py, and the guard the
    database puts on stored revisions (migration 0022).  Main results: the shape of an
    accepted hostname; the order of hosts and methods does not matter; a stored policy
    validates again to itself. *)

From S2P Require Import Prelude PyVal Json PyUuid QueueProtocol Idempotency EventProtocol Url.

(** [str.encode("idna")] outside ASCII (nameprep and punycode): its result is ASCII, and it
    has no capital letter when the text has none. *)
Class Idna := {
  idna_other : pystr → option pystr;
  idna_other_ascii s t : Forall (λ c, ascii_lower c = c) s → idna_other s = Some t → Forall (λ c, (c < 128)%N ∧ ascii_lower c = c) t }.
(** [str.upper]; on ASCII text it maps the letters. *)
Definition ascii_upper (c : N) : N := if ((97 <=? c) && (c <=? 122))%N then (c - 32)%N else c.
Class UpperCase := {
  upper : pystr → pystr;
  upper_ascii s : Forall (λ c, (c < 128)%N) s → upper s = ascii_upper <$> s }.
(** What the proofs use of the interpreter's tables: case folding leaves no capital
    letter and only maps the letters of ASCII text, and an address has the form of one. *)
Definition split_on (c : N) (s : pystr) : list pystr :=
  foldr (λ x acc, if (x =? c)%N then [] :: acc
                  else match acc with l :: acc => (x :: l) :: acc | [] => [[x]] end) [[]] s.
Definition numeric (l : pystr) : bool := negb (bool_decide (l = [])) && forallb is_ascii_digit l.
(** [(^|\.)[0-9]+(\.[0-9]+){3}$]: the last four labels are numbers. *)
Definition dotted_quad (host : pystr) : bool :=
  let labels := split_on 46 host in (4 <=? length labels)%nat && forallb numeric (drop (length labels - 4) labels).
Class HostTables `{CaseFold, UrlTables} := {
  casefold_lower s : Forall (λ c, ascii_lower c = c) (casefold s);
  casefold_ascii s : Forall (λ c, (c < 128)%N) s → casefold s = ascii_lower <$> s;
  ip_address_form s : is_Some (ip_address s) → dotted_quad s = true ∨ 58%N ∈ s }.

Definition rstrip (cs s : pystr) : pystr := reverse (lstrip cs (reverse s)).
Definition ends_with (suffix s : pystr) : bool := starts_with (reverse suffix) (reverse s).

(** The dots of [encodings.idna] in ASCII text. *)
Definition idna_encode `{Idna} (s : pystr) : option pystr :=
  if forallb (λ c, c <? 128)%N s then
    let labels := split_on 46 s in
    if bool_decide (s = [])
       || (forallb (λ l, (0 <? length l) && (length l <? 64))%nat (take (length labels - 1) labels)
           && (length (List.last labels []) <? 64)%nat)
    then Some s else None
  else idna_other s.

Definition is_alnum (c : N) : bool := is_alpha c || is_ascii_digit c.
Definition label_ok (l : pystr) : bool :=
  negb (bool_decide (l = [])) && (length l <=? 63)%nat
  && negb (starts_with (lit "-") l) && negb (ends_with (lit "-") l)
  && forallb (λ c, is_alnum c || (c =? 45)%N) l.
Definition FORBIDDEN_SUFFIXES : list pystr :=
  lit <$> [".example"; ".internal"; ".invalid"; ".local"; ".localhost"; ".test"]%string.
Definition ALLOWED_METHODS : list pystr := [lit "GET"; lit "HEAD"].

Record EgressLimits := MkLimits {
  el_max_requests : Z;
  el_max_response_bytes : Z;
  el_max_total_bytes : Z;
  el_max_redirects : Z;
  el_connect_timeout_seconds : Z;
  el_request_timeout_seconds : Z }.
#[export] Instance limits_eq_dec : EqDecision EgressLimits.
Proof. solve_decision. Defined.
Record ValidatedEgressPolicy := MkValidated {
  vp_allowed_hosts : list pystr;
  vp_allowed_methods : list pystr;
  vp_limits : EgressLimits;
  vp_policy_digest : pystr }.

(** [sorted] of a set of texts. *)
#[export] Instance str_le_dec : RelDecision str_le.
Proof. intros a b. unfold str_le. apply _. Defined.
Definition sorted_set (l : list pystr) : list pystr := merge_sort str_le (remove_dups l).

Section protocol.
Context `{CaseFold, UrlTables, Idna, UpperCase, Sha256}.

Definition normalize_hostname (value : pystr) : exn + pystr :=
let candidate := casefold (rstrip (lit ".") (py_strip value)) in
if bool_decide (candidate = []) || (253 <? length candidate)%nat || contains (lit "://") candidate
   || bool_decide (47%N ∈ candidate) || bool_decide (64%N ∈ candidate) || bool_decide (42%N ∈ candidate)
then inl (ValueError "Allowed hosts must be exact HTTPS hostnames.")
else if bool_decide (is_Some (ip_address (strip (lit "[]") candidate)))
then inl (ValueError "IP literals are not allowed in egress policies.")
else match idna_encode candidate with
| None => inl (ValueError "Allowed host is not a valid hostname.")
| Some ascii_host =>
    let labels := split_on 46 ascii_host in
    if (length labels <? 2)%nat || negb (forallb label_ok labels)
    then inl (ValueError "Allowed host is not a valid public hostname.")
    else if bool_decide (ascii_host = lit "localhost") || existsb (λ suffix, ends_with suffix ascii_host) FORBIDDEN_SUFFIXES
    then inl (ValueError "Special-use hostnames are not allowed.")
    else inr ascii_host
end.

Fixpoint normalize_all (hosts : list pystr) : exn + list pystr :=
match hosts with
| [] => inr []
| h :: t =>
    match normalize_hostname h with
    | inl e => inl e
    | inr h => match normalize_all t with inl e => inl e | inr t => inr (h :: t) end
    end
end.

Definition canonical_policy (hosts methods : list pystr) (l : EgressLimits) : pyval :=
PDict [(KStr (lit "allowed_hosts"), PList (PStr <$> hosts)); (KStr (lit "allowed_methods"), PList (PStr <$> methods));
       (KStr (lit "connect_timeout_seconds"), PInt (el_connect_timeout_seconds l));
       (KStr (lit "max_redirects"), PInt (el_max_redirects l)); (KStr (lit "max_requests"), PInt (el_max_requests l));
       (KStr (lit "max_response_bytes"), PInt (el_max_response_bytes l));
       (KStr (lit "max_total_bytes"), PInt (el_max_total_bytes l));
       (KStr (lit "request_timeout_seconds"), PInt (el_request_timeout_seconds l));
       (KStr (lit "schema_version"), PStr (lit "rdc.egress-policy/v1"))].

Definition validate_egress_policy (allowed_hosts allowed_methods : list pystr) (l : EgressLimits)
  : exn + ValidatedEgressPolicy :=
match normalize_all allowed_hosts with
| inl e => inl e
| inr normalized =>
    let hosts := sorted_set normalized in
    let methods := sorted_set (upper <$> allowed_methods) in
    if bool_decide (hosts = []) || negb (length hosts =? length allowed_hosts)%nat
    then inl (ValueError "Allowed hosts must be unique and non-empty.")
    else if bool_decide (methods = []) || negb (length methods =? length allowed_methods)%nat
            || negb (forallb (λ m, bool_decide (m ∈ ALLOWED_METHODS)) methods)
    then inl (ValueError "Allowed methods must be unique GET or HEAD values.")
    else if el_max_total_bytes l <? el_max_response_bytes l
    then inl (ValueError "max_total_bytes must be at least max_response_bytes.")
    else match canonical_fingerprint (canonical_policy hosts methods l) with
         | Some digest => inr (MkValidated hosts methods l digest)
         | None => inl UnicodeEncodeError
         end
end.
End protocol.

(** ** The guard of the table *)

Definition lower_alnum (c : N) : bool := (((97 <=? c) && (c <=? 122)) || is_ascii_digit c)%N.
Definition canonical_label (l : pystr) : bool :=
  match l with
  | [] => false
  | c :: _ => (length l <=? 63)%nat && lower_alnum c && lower_alnum (List.last l 0%N)
              && forallb (λ c, lower_alnum c || (c =? 45)%N) l
  end.
(** [control.enforce_egress_policy_revision_values] on one host. *)
Definition canonical_host (host : pystr) : bool :=
  let labels := split_on 46 host in
  (length host <=? 253)%nat && (2 <=? length labels)%nat && forallb canonical_label labels
  && negb (dotted_quad host)
  && negb (existsb (λ suffix, ends_with suffix host) FORBIDDEN_SUFFIXES).
Definition canonical_methods (methods : list pystr) : bool :=
  bool_decide (methods ∈ [[lit "GET"]; [lit "HEAD"]; [lit "GET"; lit "HEAD"]]).
Definition in_range (l : EgressLimits) : bool :=
  ((1 <=? el_max_requests l) && (el_max_requests l <=? 64))
  && ((65536 <=? el_max_response_bytes l) && (el_max_response_bytes l <=? 8388608))
  && ((65536 <=? el_max_total_bytes l) && (el_max_total_bytes l <=? 33554432))
  && (el_max_response_bytes l <=? el_max_total_bytes l)
  && ((0 <=? el_max_redirects l) && (el_max_redirects l <=? 5))
  && ((1 <=? el_connect_timeout_seconds l) && (el_connect_timeout_seconds l <=? 10))
  && ((1 <=? el_request_timeout_seconds l) && (el_request_timeout_seconds l <=? 30)).
Definition revision_guard (hosts methods : list pystr) (l : EgressLimits) : bool :=
  forallb canonical_host hosts && bool_decide (NoDup hosts)
  && ((1 <=? length hosts) && (length hosts <=? 64))%nat
  && canonical_methods methods && in_range l.

(** ** Lemmas on text *)

Lemma split_on_nonempty c s : split_on c s ≠ [].
Proof. induction s as [|x s IH]; cbn; [done|]. destruct (x =? c)%N; [done|]. by destruct (foldr _ _ s). Qed.
Lemma split_on_cons c x s : split_on c (x :: s) =
  if (x =? c)%N then [] :: split_on c s else match split_on c s with l :: acc => (x :: l) :: acc | [] => [[x]] end.
Proof. done. Qed.
Lemma elem_of_split c s x : x ∈ s → x ≠ c → ∃ l, l ∈ split_on c s ∧ x ∈ l.
Proof.
induction s as [|y s IH]; [intros Hx; by apply not_elem_of_nil in Hx|]. intros [->|Hx]%elem_of_cons Hne; rewrite split_on_cons.
- rewrite (proj2 (N.eqb_neq _ _) Hne). pose proof (split_on_nonempty c s). destruct (split_on c s) as [|l acc]; [done|].
  exists (y :: l). split; left.
- destruct (IH Hx Hne) as (l & Hl & Hxl). destruct (y =? c)%N; [exists l; split; [by right|done]|].
  destruct (split_on c s) as [|l' acc]; [by apply not_elem_of_nil in Hl|].
  apply elem_of_cons in Hl as [->|Hl]; [exists (y :: l'); split; [left|by right]|exists l; split; [by right|done]].
Qed.
Lemma split_single c s l : split_on c s = [l] → s = l.
Proof.
revert l. induction s as [|y s IH]; intros l; [by intros [= <-]|]. rewrite split_on_cons. destruct (y =? c)%N.
- intros [= _ Hs]. by apply split_on_nonempty in Hs.
- pose proof (split_on_nonempty c s). destruct (split_on c s) as [|l' acc]; [done|]. intros [= <- ->]. by rewrite (IH l').
Qed.
(** A text ends with its last label. *)
Lemma split_last c s : ∃ p, s = p ++ List.last (split_on c s) [].
Proof.
induction s as [|y s [p IH]]; [by exists []|]. rewrite split_on_cons. pose proof (split_on_nonempty c s) as Hne. destruct (y =? c)%N.
- exists (y :: p). cbn [app]. f_equal. by destruct (split_on c s).
- destruct (split_on c s) as [|l [|l' acc]] eqn:E; [done| |].
  + exists []. cbn. by rewrite (split_single _ _ _ E).
  + exists (y :: p). cbn [app]. f_equal. exact IH.
Qed.
Lemma take_elem {A} n (l : list A) x : x ∈ take n l → x ∈ l.
Proof. intros Hx. rewrite <- (take_drop n l). apply elem_of_app. by left. Qed.
Lemma elem_of_last {A} (l : list A) d : l ≠ [] → List.last l d ∈ l.
Proof. induction l as [|x [|y l] IH]; [done|by left|]. intros _. right. by apply IH. Qed.

Lemma lstrip_id cs s : match s with [] => True | c :: _ => c ∉ cs end → lstrip cs s = s.
Proof. destruct s as [|c s]; [done|]. intros Hc. cbn. by rewrite bool_decide_eq_false_2. Qed.
Lemma strip_id cs s : Forall (λ c, c ∉ cs) s → strip cs s = s.
Proof.
intros Hs. unfold strip. rewrite (lstrip_id cs s) by (destruct Hs; done). rewrite lstrip_id; [apply reverse_involutive|].
apply Forall_reverse in Hs. by destruct Hs.
Qed.
Lemma rstrip_id cs p l d : l ≠ [] → List.last l d ∉ cs → rstrip cs (p ++ l) = p ++ l.
Proof.
intros Hne Hl. unfold rstrip. rewrite lstrip_id; [apply reverse_involutive|].
destruct (exists_last Hne) as (l' & x & ->). rewrite List.last_last in Hl. by rewrite app_assoc, reverse_snoc.
Qed.
Lemma contains_first p x s : x ∉ s → contains (x :: p) s = false.
Proof.
induction s as [|y s IH]; cbn; [done|]. intros [Hy Hs]%not_elem_of_cons. rewrite IH, orb_false_r by done.
destruct (N.eqb_spec x y); [by subst|done].
Qed.
Lemma map_id_Forall {A} (f : A → A) l : Forall (λ x, f x = x) l → f <$> l = l.
Proof. induction 1 as [|x l E _ IH]; [done|]. cbn. by rewrite E, IH. Qed.

Lemma elem_of_sorted_set l x : x ∈ sorted_set l ↔ x ∈ l.
Proof. unfold sorted_set. rewrite merge_sort_Permutation. apply elem_of_remove_dups. Qed.
Lemma NoDup_sorted_set l : NoDup (sorted_set l).
Proof. unfold sorted_set. rewrite merge_sort_Permutation. apply NoDup_remove_dups. Qed.
#[export] Instance str_le_trans : Transitive str_le.
Proof. intros a b c. apply str_leb_trans. Qed.
#[export] Instance str_le_total : Total str_le.
Proof. intros a b. apply str_leb_total. Qed.
#[export] Instance str_le_antisym : AntiSymm (=) str_le.
Proof. intros a b. apply str_leb_antisymm. Qed.
Lemma Sorted_sorted_set l : StronglySorted str_le (sorted_set l).
Proof. apply (StronglySorted_merge_sort str_le). Qed.
(** The sorted list of a set is determined by its members. *)
Lemma sorted_set_ext l l' : (∀ x, x ∈ l ↔ x ∈ l') → sorted_set l = sorted_set l'.
Proof.
intros Hx. apply (StronglySorted_unique str_le); [apply Sorted_sorted_set..|].
apply NoDup_Permutation; [apply NoDup_sorted_set..|]. intros x. by rewrite !elem_of_sorted_set.
Qed.
Lemma sorted_set_idemp l : sorted_set (sorted_set l) = sorted_set l.
Proof. apply sorted_set_ext, elem_of_sorted_set. Qed.

(** ** Hostnames *)

Section hosts.
Context `{CaseFold, UrlTables, Idna, UpperCase, Sha256, !HostTables}.
Implicit Types (h : pystr).

(** What is accepted has at least two labels, of letters, digits and inner hyphens, at most
  63 characters each, and no special-use suffix. *)
Lemma normalize_hostname_shape v h : normalize_hostname v = inr h →
(2 ≤ length (split_on 46 h))%nat ∧ Forall (λ l, label_ok l = true) (split_on 46 h) ∧
Forall (λ suffix, ends_with suffix h = false) FORBIDDEN_SUFFIXES.
Proof.
unfold normalize_hostname. destruct (_ || _ || _ || _ || _ || _); [done|]. case_bool_decide; [done|].
destruct (idna_encode _) as [a|]; [|done]. destruct (_ || _) eqn:El; [done|]. destruct (_ || existsb _ _) eqn:Es; [done|]. intros [= <-].
apply orb_false_elim in El as [Hn Hl]. apply orb_false_elim in Es as [_ Hs]. breflect. split_and!.
- by apply Nat.ltb_ge.
- apply Forall_forall. intros x Hx%list_elem_of_In. rewrite forallb_forall in Hl. by apply Hl.
- apply Forall_forall. intros x Hx%list_elem_of_In. destruct (ends_with x a) eqn:E; [|done].
  rewrite <- Hs. symmetry. apply existsb_exists. eauto.
Qed.

Definition host_char (c : N) : bool := lower_alnum c || (c =? 45)%N || (c =? 46)%N.
Lemma canonical_label_chars x : canonical_label x = true → x ≠ [] ∧ (length x ≤ 63)%nat ∧ lower_alnum (List.hd 0%N x) = true ∧
lower_alnum (List.last x 0%N) = true ∧ ∀ c, c ∈ x → lower_alnum c || (c =? 45)%N = true.
Proof.
unfold canonical_label. destruct x as [|c x]; [done|]. intros Hc. breflect. split_and!; try done.
match goal with H : forallb _ _ = true |- _ => rewrite forallb_forall in H; intros d Hd; apply H; by apply list_elem_of_In end.
Qed.
Lemma canonical_host_chars h : canonical_host h = true → Forall (λ c, host_char c = true) h.
Proof.
unfold canonical_host. intros Hc. breflect. apply Forall_forall. intros c Hin. unfold host_char.
destruct (decide (c = 46%N)) as [->|Hne]; [done|]. destruct (elem_of_split 46 h c Hin Hne) as (x & Hx & Hcx).
match goal with H : forallb canonical_label _ = true |- _ => rewrite forallb_forall in H; pose proof (H x (proj1 (list_elem_of_In _ _) Hx)) as Hl end.
destruct (canonical_label_chars x Hl) as (_ & _ & _ & _ & Hch). by rewrite (Hch c Hcx).
Qed.
Lemma canonical_label_ok x : canonical_label x = true → label_ok x = true.
Proof.
intros (Hne & Hlen & Hhd & Hla & Hch)%canonical_label_chars. unfold label_ok, ends_with.
assert (Hhy : lower_alnum 45 = false) by done. repeat (apply andb_true_intro; split).
- by rewrite bool_decide_eq_false_2.
- by apply Nat.leb_le.
- destruct x as [|c x]; [done|]. cbn [List.hd] in Hhd. change (lit "-") with [45%N]. cbn [starts_with].
  destruct (N.eqb_spec 45 c) as [<-|]; [congruence|done].
- destruct (exists_last Hne) as (y & c & ->). rewrite List.last_last in Hla. rewrite reverse_snoc.
  change (reverse (lit "-")) with [45%N]. cbn [starts_with]. destruct (N.eqb_spec 45 c) as [<-|]; [congruence|done].
- apply forallb_forall. intros c Hc. specialize (Hch c (proj2 (list_elem_of_In _ _) Hc)).
  unfold lower_alnum, is_alnum, is_alpha in *. destruct (is_ascii_digit c), (c =? 45)%N; cbn in *; rewrite ?orb_true_r; try done.
  rewrite !orb_false_r in *. by rewrite Hch, orb_true_r.
Qed.
Lemma Forall_host_char (P : N → Prop) h : Forall (λ c, host_char c = true) h →
(∀ c, host_char c = true → P c) → Forall P h.
Proof. intros Hh HP. eapply Forall_impl; [exact Hh|exact HP]. Qed.
Lemma host_char_lower c : host_char c = true → (c < 128)%N ∧ ascii_lower c = c ∧ c ∉ unicode_ws ∧ c ∉ lit "[]:/@*".
Proof.
intros Hc. assert (Hin : c ∈ [45; 46]%N ∨ (97 ≤ c ≤ 122)%N ∨ (48 ≤ c ≤ 57)%N).
{ unfold host_char, lower_alnum, is_ascii_digit in Hc. repeat (apply orb_prop in Hc as [Hc|Hc]); breflect; rewrite ?N.leb_le, ?N.eqb_eq in *; subst;
  [right; left; lia|right; right; lia|left; by left|left; right; left]. }
assert (Hall : Forall (λ c, (c < 128)%N ∧ ascii_lower c = c ∧ c ∉ unicode_ws ∧ c ∉ lit "[]:/@*")
  ([45; 46] ++ ((λ n, 97 + N.of_nat n) <$> seq 0 26) ++ ((λ n, 48 + N.of_nat n) <$> seq 0 10))%N).
{ apply (bool_decide_unpack _). vm_compute. exact I. }
rewrite Forall_forall in Hall. apply Hall. rewrite !elem_of_app, !list_elem_of_fmap.
destruct Hin as [Hin|[Hin|Hin]]; [by left|right; left|right; right].
- exists (N.to_nat (c - 97)). split; [lia|]. apply elem_of_seq. lia.
- exists (N.to_nat (c - 48)). split; [lia|]. apply elem_of_seq. lia.
Qed.

Lemma canonical_folds h : canonical_host h = true → casefold (rstrip (lit ".") (py_strip h)) = h.
Proof.
intros Hc. pose proof (Forall_host_char _ _ (canonical_host_chars _ Hc) host_char_lower) as Hl. unfold canonical_host in Hc. breflect.
match goal with H : forallb canonical_label _ = true |- _ => rewrite forallb_forall in H; rename H into Hlab end.
destruct (canonical_label_chars (List.last (split_on 46 h) [])) as (Hlne & _ & _ & Hlx & _);
  [by apply Hlab, list_elem_of_In, elem_of_last, split_on_nonempty|].
unfold py_strip. rewrite strip_id by (eapply Forall_impl; [exact Hl|]; naive_solver).
destruct (split_last 46 h) as [p Hp].
assert (rstrip (lit ".") h = h) as ->.
{ rewrite Hp. apply (rstrip_id _ _ _ 0%N Hlne). change (lit ".") with [46%N]. intros Hdot%list_elem_of_singleton. rewrite Hdot in Hlx. done. }
rewrite casefold_ascii by (eapply Forall_impl; [exact Hl|]; naive_solver).
apply map_id_Forall. eapply Forall_impl; [exact Hl|]. naive_solver.
Qed.
Lemma canonical_idna h : canonical_host h = true → h ≠ [] → idna_encode h = Some h.
Proof.
intros Hc Hne. pose proof (Forall_host_char _ _ (canonical_host_chars _ Hc) host_char_lower) as Hl. unfold canonical_host in Hc. breflect.
match goal with H : forallb canonical_label _ = true |- _ => rewrite forallb_forall in H; rename H into Hlab end.
assert (Hlen : ∀ x, x ∈ split_on 46 h → (0 < length x ≤ 63)%nat).
{ intros x Hx. destruct (canonical_label_chars x) as (Hx0 & Hx63 & _); [by apply Hlab, list_elem_of_In|]. destruct x; [done|]. cbn in *. lia. }
unfold idna_encode. rewrite (proj2 (forallb_forall _ h)).
2: { intros c Hin%list_elem_of_In. rewrite Forall_forall in Hl. by apply N.ltb_lt, (Hl c Hin). }
rewrite (bool_decide_eq_false_2 (h = [])) by done. cbn [orb].
rewrite (proj2 (forallb_forall _ _)), (proj2 (Nat.ltb_lt _ _)); [done| |].
- pose proof (Hlen _ (elem_of_last _ [] (split_on_nonempty 46 h))). lia.
- intros x Hx%list_elem_of_In%take_elem. specialize (Hlen x Hx). apply andb_true_intro. rewrite !Nat.ltb_lt. lia.
Qed.

(** A host the table accepts is its own normal form. *)
Lemma normalize_canonical h : canonical_host h = true → normalize_hostname h = inr h.
Proof.
intros Hc. pose proof (Forall_host_char _ _ (canonical_host_chars _ Hc) host_char_lower) as Hl.
pose proof (canonical_folds _ Hc) as Hfold. pose proof (canonical_idna _ Hc) as Hid. unfold canonical_host in Hc. breflect.
match goal with H : forallb canonical_label _ = true |- _ => rewrite forallb_forall in H; rename H into Hlab end.
assert (Hn : (2 ≤ length (split_on 46 h))%nat) by done.
assert (Hne : h ≠ []) by (intros ->; cbn in Hn; lia).
assert (Hno : ∀ c, c ∈ lit "[]:/@*" → c ∉ h).
{ intros c Hc' Hin. rewrite Forall_forall in Hl. by apply (Hl c Hin). }
unfold normalize_hostname. rewrite Hfold.
rewrite (bool_decide_eq_false_2 (h = [])), (bool_decide_eq_false_2 (47%N ∈ h)), (bool_decide_eq_false_2 (64%N ∈ h)),
  (bool_decide_eq_false_2 (42%N ∈ h)) by (done || (apply Hno; vm_compute; set_solver)).
change (lit "://") with (58 :: [47; 47])%N. rewrite contains_first by (apply Hno; vm_compute; set_solver).
rewrite (proj2 (Nat.ltb_ge 253 (length h))) by done. cbn [orb]. rewrite strip_id.
2: { apply Forall_forall. intros c Hin Hb. apply (Hno c); [|done]. change (lit "[]:/@*") with (lit "[]" ++ lit ":/@*"). set_solver. }
rewrite bool_decide_eq_false_2.
2: { intros Hip. apply ip_address_form in Hip as [Hq|Hc58]; [congruence|]. by apply (Hno 58%N); [vm_compute; set_solver|]. }
rewrite Hid by done. rewrite (proj2 (Nat.ltb_ge (length (split_on 46 h)) 2)) by done. rewrite (proj2 (forallb_forall _ _)).
2: { intros x Hx. by apply canonical_label_ok, Hlab. }
cbn [negb orb]. rewrite bool_decide_eq_false_2.
2: { intros ->. vm_compute in Hn. lia. }
cbn [orb]. by match goal with H : existsb _ _ = false |- _ => rewrite H end.
Qed.

(** ** Policies *)

Lemma normalize_all_spec hosts res : normalize_all hosts = inr res ↔ Forall2 (λ v h, normalize_hostname v = inr h) hosts res.
Proof.
split.
- revert res. induction hosts as [|v hosts IH]; cbn; intros res; [by intros [= <-]|].
  destruct (normalize_hostname v) eqn:Ev; [done|]. destruct (normalize_all hosts); [done|]. intros [= <-]. constructor; auto.
- induction 1 as [|v h hosts res Hv _ IH]; cbn; [done|]. by rewrite Hv, IH.
Qed.

(** What is accepted: sorted, distinct hosts in normal form, sorted distinct methods among
  GET and HEAD, and the digest of both with the limits. *)
Record accepted (hosts methods : list pystr) (lim : EgressLimits) (v : ValidatedEgressPolicy) : Prop := {
ap_hosts : ∃ normalized, normalize_all hosts = inr normalized ∧ vp_allowed_hosts v = sorted_set normalized;
ap_host_count : length (vp_allowed_hosts v) = length hosts;
ap_host_some : vp_allowed_hosts v ≠ [];
ap_methods : vp_allowed_methods v = sorted_set (upper <$> methods);
ap_method_count : length (vp_allowed_methods v) = length methods;
ap_method_some : vp_allowed_methods v ≠ [];
ap_method_known : Forall (λ m, m ∈ ALLOWED_METHODS) (vp_allowed_methods v);
ap_limits : vp_limits v = lim;
ap_total : el_max_response_bytes lim ≤ el_max_total_bytes lim;
ap_digest : canonical_fingerprint (canonical_policy (vp_allowed_hosts v) (vp_allowed_methods v) lim) = Some (vp_policy_digest v) }.
Lemma validate_accepted hosts methods lim v : validate_egress_policy hosts methods lim = inr v ↔ accepted hosts methods lim v.
Proof.
unfold validate_egress_policy. split.
- destruct (normalize_all hosts) as [e|normalized] eqn:En; [done|]. destruct (_ || _) eqn:Eh; [done|]. destruct (_ || _ || _) eqn:Em; [done|].
  destruct (_ <? _) eqn:Et; [done|]. destruct (canonical_fingerprint _) eqn:Ef; [|done]. intros [= <-]. breflect.
  rewrite ?Nat.eqb_eq in *. constructor; cbn; eauto.
  apply Forall_forall. intros m Hm%list_elem_of_In.
  match goal with H : forallb _ _ = true |- _ => rewrite forallb_forall in H; specialize (H m Hm) end. by breflect.
- intros [(normalized & En & Eh) Hhc Hhs Em Hmc Hms Hmk El Ht Ed]. rewrite En. cbv zeta. rewrite <- Eh, <- Em.
  rewrite (bool_decide_eq_false_2 _ Hhs), Hhc, Nat.eqb_refl. cbn [negb orb].
  rewrite (bool_decide_eq_false_2 _ Hms), Hmc, Nat.eqb_refl. cbn [negb orb]. rewrite (proj2 (forallb_forall _ _)).
  2: { intros m Hm%list_elem_of_In. rewrite Forall_forall in Hmk. by apply bool_decide_eq_true_2, Hmk. }
  cbn [negb]. rewrite (proj2 (Z.ltb_ge _ _)) by done. rewrite Ed. destruct v; cbn in *. by subst.
Qed.

Lemma accepted_sorted hosts methods lim v : accepted hosts methods lim v →
StronglySorted str_le (vp_allowed_hosts v) ∧ NoDup (vp_allowed_hosts v) ∧
StronglySorted str_le (vp_allowed_methods v) ∧ NoDup (vp_allowed_methods v).
Proof.
intros [(n & _ & ->) _ _ -> _ _ _ _ _ _]. split_and!; [apply Sorted_sorted_set|apply NoDup_sorted_set|apply Sorted_sorted_set|apply NoDup_sorted_set].
Qed.

(** A policy that passed the guard of the table validates to itself, with its digest. *)
Lemma accepted_again hosts methods lim v : accepted hosts methods lim v →
revision_guard (vp_allowed_hosts v) (vp_allowed_methods v) lim = true →
accepted (vp_allowed_hosts v) (vp_allowed_methods v) lim v.
Proof.
intros [(n & En & Eh) Hhc Hhs Em Hmc Hms Hmk El Ht Ed] Hg. unfold revision_guard in Hg. breflect. constructor; try done.
- exists (vp_allowed_hosts v). split; [|rewrite Eh; by rewrite sorted_set_idemp].
  apply normalize_all_spec. apply Forall2_same_length_lookup_2; [done|]. intros i x y Hx Hy. rewrite Hx in Hy. injection Hy as <-.
  apply normalize_canonical. match goal with H : forallb canonical_host _ = true |- _ => rewrite forallb_forall in H; apply H end.
  apply list_elem_of_In. by eapply list_elem_of_lookup_2.
- assert (upper <$> vp_allowed_methods v = vp_allowed_methods v) as ->; [|rewrite Em; by rewrite sorted_set_idemp].
  apply map_id_Forall. eapply Forall_impl; [exact Hmk|]. intros m Hm. unfold ALLOWED_METHODS in Hm.
  rewrite !elem_of_cons, elem_of_nil in Hm. destruct Hm as [->|[->|[]]]; rewrite upper_ascii; try done;
    apply (bool_decide_unpack _); vm_compute; exact I.
Qed.

(** The order and the spelling of hosts and methods do not matter. *)
Lemma validate_set hosts hosts' methods methods' lim v v' : accepted hosts methods lim v → accepted hosts' methods' lim v' →
(∀ n n' h, normalize_all hosts = inr n → normalize_all hosts' = inr n' → h ∈ n ↔ h ∈ n') →
(∀ m, m ∈ upper <$> methods ↔ m ∈ upper <$> methods') → v = v'.
Proof.
intros [(n & En & Eh) _ _ Em _ _ _ El _ Ed] [(n' & En' & Eh') _ _ Em' _ _ _ El' _ Ed'] Hh Hm. destruct v, v'; cbn in *.
assert (Ehs : sorted_set n = sorted_set n') by (apply sorted_set_ext; intros h; by apply Hh). rewrite Ehs in Eh.
rewrite (sorted_set_ext _ _ Hm) in Em. subst. rewrite Ed in Ed'. by injection Ed' as ->.
Qed.
End hosts.
