(* ===== verification/EgressPolicies.v ===== *)
(** Egress policies (src/apps/api/app/services/egress_policies.py, the tables EgressPolicy
    and EgressPolicyRevision of models.py): named policies of a project, whose immutable
    revisions are numbered, and of which one revision is active.

    The routes load the policy with the permission check, and the service locks the row
    afterwards; the session keeps the object it has loaded, so the operations take that
    object besides the row.  The constraints and triggers of migration 0022 are the checks
    of the inserts and updates; the check on the form of a digest always holds and is left
    out. *)

From S2P Require Import Prelude PyVal Json PyUuid PyTime QueueProtocol EventProtocol Idempotency.
From S2P Require Import Url Pagination EgressProtocol.

(** ** Tables *)

Record EgressPolicy := MkPolicy {
  gp_organization_id : uuid;
  gp_project_id : uuid;
  gp_name : pystr;
  gp_status : string;
  gp_active_revision_id : option uuid;
  gp_activated_at : option time;
  gp_disabled_at : option time;
  gp_created_by_user_id : uuid;
  gp_created_at : time;
  gp_updated_at : time;
  gp_version : Z }.
#[export] Instance eta_policy : Eta EgressPolicy := λ p,
  MkPolicy (gp_organization_id p) (gp_project_id p) (gp_name p) (gp_status p) (gp_active_revision_id p)
    (gp_activated_at p) (gp_disabled_at p) (gp_created_by_user_id p) (gp_created_at p) (gp_updated_at p)
    (gp_version p).

Record EgressPolicyRevision := MkRevision {
  gr_organization_id : uuid;
  gr_project_id : uuid;
  gr_policy_id : uuid;
  gr_revision_number : Z;
  gr_allowed_hosts : list pystr;
  gr_allowed_methods : list pystr;
  gr_limits : EgressLimits;
  gr_credential_secret_id : option uuid;
  gr_policy_digest : pystr;
  gr_created_by_user_id : uuid;
  gr_created_at : time }.

(** The tenant columns of the tables of other components. *)
Record tenant := MkTenant { tn_organization_id : uuid; tn_project_id : uuid }.
#[export] Instance tenant_eq_dec : EqDecision tenant.
Proof. solve_decision. Defined.
Record project_scope := MkProjectScope { ps_organization_id : uuid; ps_deleted_at : option time }.

Definition snapshot : Type := (uuid * EgressPolicy) * (uuid * EgressPolicyRevision).

Record db := MkDb {
  policies : gmap uuid EgressPolicy;
  revisions : gmap uuid EgressPolicyRevision;
  (** [ProjectSecret] and [Project]. *)
  secrets : gmap uuid tenant;
  projects : gmap uuid project_scope;
  idempotency : list (IdempotencyRecord snapshot);
  audits : list audit_event;
  rng : N }.
#[export] Instance eta_db : Eta db := λ s,
  MkDb (policies s) (revisions s) (secrets s) (projects s) (idempotency s) (audits s) (rng s).
#[export] Instance db_audit : HasAudit db := {|
  audit_log := audits;
  audit_push e s := s <| audits ::= λ l, l ++ [e] |>;
  audit_push_log e s := eq_refl |}.

(** ** Requests *)

Record EgressPolicySpec := MkSpec {
  es_allowed_hosts : list pystr;
  es_allowed_methods : list pystr;
  es_limits : EgressLimits;
  es_credential_secret_id : option uuid }.
Record CreateEgressPolicyRequest := MkCreatePolicy { cp_name : pystr; cp_spec : EgressPolicySpec }.

(** The actor columns of the audit rows. *)
Record actor := MkActor { at_user_id : uuid; at_type : string; at_id : pystr; at_request_id : string }.

Section ops.
Context `{Entropy, Sha256, CaseFold, UrlTables, Idna, UpperCase}.
Abbreviation M := (Prelude.M db).

Definition fresh_uuid : M uuid := λ s, (inr (uuid4 (rng s)), s <| rng ::= N.succ |>).

Definition validated (spec : EgressPolicySpec) : M ValidatedEgressPolicy :=
match validate_egress_policy (es_allowed_hosts spec) (es_allowed_methods spec) (es_limits spec) with
| inr v => mret v
| inl (ValueError _) => raise (ApiError 422 "EGRESS_POLICY_INVALID")
| inl e => raise e
end.

Definition validate_credential (credential_secret_id : option uuid) (scope : tenant) : M () :=
match credential_secret_id with
| None => mret ()
| Some sid =>
    found ← gets (λ s, secrets s !! sid);
    raise_if (negb (bool_decide (found = Some scope))) not_found
end.

Definition new_revision (pid : uuid) (p : EgressPolicy) (revision_number : Z) (user_id : uuid)
  (v : ValidatedEgressPolicy) (credential_secret_id : option uuid) (now : time) : EgressPolicyRevision :=
MkRevision (gp_organization_id p) (gp_project_id p) pid revision_number (vp_allowed_hosts v) (vp_allowed_methods v)
  (vp_limits v) credential_secret_id (vp_policy_digest v) user_id now.

Definition same_policy_name (project_id : uuid) (name : pystr) (_ : uuid) (p : EgressPolicy) : bool :=
bool_decide (gp_project_id p = project_id) && bool_decide (gp_name p = name).

(** [enforce_egress_policy_owner]. *)
Definition owner_ok (p : EgressPolicy) (s : db) : bool :=
match projects s !! gp_project_id p with
| Some pr => bool_decide (ps_organization_id pr = gp_organization_id p) && bool_decide (ps_deleted_at pr = None)
| None => false
end.
(** [enforce_egress_policy_active_revision]. *)
Definition active_revision_ok (pid : uuid) (p : EgressPolicy) (s : db) : bool :=
match gp_active_revision_id p with
| None => true
| Some rid =>
    match revisions s !! rid with
    | Some r => bool_decide (gr_policy_id r = pid) && bool_decide (gr_organization_id r = gp_organization_id p)
                && bool_decide (gr_project_id r = gp_project_id p)
    | None => false
    end
end.
(** [ck_egress_policies_active_revision]. *)
Definition active_ok (p : EgressPolicy) : bool :=
negb (bool_decide (gp_status p = "ACTIVE"%string))
|| (bool_decide (is_Some (gp_active_revision_id p)) && bool_decide (is_Some (gp_activated_at p))).
Definition write_policy (pid : uuid) (p : EgressPolicy) : M () :=
s ← gets (λ s, s);
raise_if (negb (owner_ok p s)) (IntegrityError "egress_policies_owner_guard") ;;
raise_if (negb (active_revision_ok pid p s)) (IntegrityError "egress_policies_active_revision_guard") ;;
raise_if (negb (active_ok p) || (gp_version p <? 1)) (IntegrityError "ck_egress_policies") ;;
modify (λ s, s <| policies ::= <[pid := p]> |>).

Definition insert_policy (p : EgressPolicy) : M uuid :=
pid ← fresh_uuid;
s ← gets (λ s, s);
raise_if (bool_decide (is_Some (policies s !! pid))) (IntegrityError "egress_policies_pkey") ;;
raise_if (exists_row (same_policy_name (gp_project_id p) (gp_name p)) (policies s))
  (IntegrityError "uq_egress_policies_project_name") ;;
write_policy pid p ;;
mret pid.

Definition of_policy (pid : uuid) (_ : uuid) (r : EgressPolicyRevision) : bool := bool_decide (gr_policy_id r = pid).
Definition numbered (pid : uuid) (n : Z) (id : uuid) (r : EgressPolicyRevision) : bool :=
of_policy pid id r && bool_decide (gr_revision_number r = n).
(** [enforce_egress_policy_revision_tenancy] and [enforce_egress_policy_revision_values]. *)
Definition revision_tenancy_ok (r : EgressPolicyRevision) (s : db) : bool :=
match policies s !! gr_policy_id r with
| Some p => bool_decide (gp_organization_id p = gr_organization_id r) && bool_decide (gp_project_id p = gr_project_id r)
| None => false
end
&& match gr_credential_secret_id r with
   | None => true
   | Some sid => bool_decide (secrets s !! sid = Some (MkTenant (gr_organization_id r) (gr_project_id r)))
   end.
Definition insert_revision (r : EgressPolicyRevision) : M uuid :=
rid ← fresh_uuid;
s ← gets (λ s, s);
raise_if (bool_decide (is_Some (revisions s !! rid))) (IntegrityError "egress_policy_revisions_pkey") ;;
raise_if (exists_row (numbered (gr_policy_id r) (gr_revision_number r)) (revisions s))
  (IntegrityError "uq_egress_policy_revision_number") ;;
raise_if (negb (revision_tenancy_ok r s)) (IntegrityError "egress_policy_revisions_tenancy_guard") ;;
raise_if (negb (revision_guard (gr_allowed_hosts r) (gr_allowed_methods r) (gr_limits r)) || (gr_revision_number r <? 1))
  (IntegrityError "egress_policy_revisions_value_guard") ;;
modify (λ s, s <| revisions ::= <[rid := r]> |>) ;;
mret rid.

Definition CREATE_ENDPOINT : string := "POST:/api/v1/projects/{project_id}/egress-policies".
Definition create_request (project_id : uuid) (name digest : pystr) (credential : option uuid) : pyval :=
PDict [(KStr (lit "project_id"), PStr (str_of_uuid project_id)); (KStr (lit "name"), PStr name);
       (KStr (lit "policy_digest"), PStr digest);
       (KStr (lit "credential_secret_id"), match credential with Some c => PStr (str_of_uuid c) | None => PNone end)].

Definition create_egress_policy (project_id organization_id : uuid) (a : actor) (idempotency_key : pystr)
  (payload : CreateEgressPolicyRequest) (now : time) : M (snapshot * bool) :=
raise_if (negb (valid_idempotency_key idempotency_key)) (ApiError 400 "INVALID_REQUEST") ;;
v ← validated (cp_spec payload);
let scope := MkTenant organization_id project_id in
let credential := es_credential_secret_id (cp_spec payload) in
validate_credential credential scope ;;
key ← get_or_raise (utf8_encode idempotency_key) UnicodeEncodeError;
let key_digest := sha256_hex key in
fingerprint ← get_or_raise (canonical_fingerprint (create_request project_id (cp_name payload) (vp_policy_digest v) credential))
  UnicodeEncodeError;
records ← gets idempotency;
existing ← match replay_of organization_id (str_of_uuid (at_user_id a)) CREATE_ENDPOINT key_digest fingerprint records with
           | inl e => raise e
           | inr x => mret x
           end;
match existing with
| Some x => mret (x, true)
| None =>
    duplicate ← gets (λ s, exists_row (same_policy_name project_id (cp_name payload)) (policies s));
    raise_if duplicate (ApiError 409 "EGRESS_POLICY_ALREADY_EXISTS") ;;
    let policy := MkPolicy organization_id project_id (cp_name payload) "DRAFT" None None None (at_user_id a) now now 1 in
    pid ← insert_policy policy;
    let revision := new_revision pid policy 1 (at_user_id a) v credential now in
    rid ← insert_revision revision;
    let x := ((pid, policy), (rid, revision)) in
    modify (λ s, s <| idempotency ::= λ l, l ++ [MkIdempotency organization_id (str_of_uuid (at_user_id a)) CREATE_ENDPOINT
      key_digest fingerprint "egress_policy" pid (Some 201) (Some x) now (now + seconds (24 * 3600))] |>) ;;
    append_audit_event (MkAudit (Some organization_id) (Some project_id) (at_type a) (at_id a) "egress_policy.created"
      "egress_policy" (Some pid) (at_request_id a)
      [("policy_digest"%string, DText (gr_policy_digest revision));
       ("credential_configured"%string, DBool (bool_decide (is_Some credential)))]) ;;
    mret (x, false)
end.

(** The flush of a policy object: the columns whose value differs from the one loaded. *)
Definition flush_policy (loaded p row : EgressPolicy) : EgressPolicy :=
row <| gp_status := written (gp_status loaded) (gp_status p) (gp_status row) |>
    <| gp_active_revision_id := written (gp_active_revision_id loaded) (gp_active_revision_id p) (gp_active_revision_id row) |>
    <| gp_activated_at := written (gp_activated_at loaded) (gp_activated_at p) (gp_activated_at row) |>
    <| gp_disabled_at := written (gp_disabled_at loaded) (gp_disabled_at p) (gp_disabled_at row) |>
    <| gp_version := written (gp_version loaded) (gp_version p) (gp_version row) |>
    <| gp_updated_at := written (gp_updated_at loaded) (gp_updated_at p) (gp_updated_at row) |>.

(** [select(...).with_for_update()] and the comparison of the version, which is that of the
  loaded object. *)
Definition lock_policy (pid : uuid) (loaded : EgressPolicy) (expected_version : Z) : M EgressPolicy :=
row ← gets (λ s, policies s !! pid);
row ← get_or_raise row not_found;
raise_if (negb (gp_version loaded =? expected_version)) (ApiError 409 "VERSION_CONFLICT") ;;
mret row.
(** [func.max(...)], zero when there is none. *)
Definition latest_revision (pid : uuid) (s : db) : Z :=
foldr Z.max 0 ((λ x, gr_revision_number x.2) <$> select (of_policy pid) (revisions s)).

Definition create_egress_policy_revision (pid : uuid) (loaded : EgressPolicy) (a : actor) (expected_version : Z)
  (spec : EgressPolicySpec) (now : time) : M (uuid * EgressPolicyRevision) :=
v ← validated spec;
row ← lock_policy pid loaded expected_version;
validate_credential (es_credential_secret_id spec) (MkTenant (gp_organization_id loaded) (gp_project_id loaded)) ;;
latest ← gets (latest_revision pid);
let revision := new_revision pid loaded (latest + 1) (at_user_id a) v (es_credential_secret_id spec) now in
rid ← insert_revision revision;
let p := loaded <| gp_version := gp_version loaded + 1 |> <| gp_updated_at := now |> in
write_policy pid (flush_policy loaded p row) ;;
append_audit_event (MkAudit (Some (gp_organization_id loaded)) (Some (gp_project_id loaded)) (at_type a) (at_id a)
  "egress_policy.revision_created" "egress_policy_revision" (Some rid) (at_request_id a)
  [("policy_id"%string, DUuid pid); ("revision_number"%string, DInt (gr_revision_number revision));
   ("policy_digest"%string, DText (gr_policy_digest revision));
   ("credential_configured"%string, DBool (bool_decide (is_Some (gr_credential_secret_id revision))))]) ;;
mret (rid, revision).

Definition activate_egress_policy (pid : uuid) (loaded : EgressPolicy) (revision_id : uuid) (expected_version : Z)
  (a : actor) (now : time) : M EgressPolicy :=
row ← lock_policy pid loaded expected_version;
found ← gets (λ s, revisions s !! revision_id);
revision ← get_or_raise (r ← found;
  if bool_decide (gr_policy_id r = pid) && bool_decide (gr_organization_id r = gp_organization_id loaded)
     && bool_decide (gr_project_id r = gp_project_id loaded) then Some r else None) not_found;
let p := loaded <| gp_active_revision_id := Some revision_id |> <| gp_status := "ACTIVE"%string |>
  <| gp_activated_at := Some now |> <| gp_disabled_at := None |> <| gp_version := gp_version loaded + 1 |>
  <| gp_updated_at := now |> in
write_policy pid (flush_policy loaded p row) ;;
append_audit_event (MkAudit (Some (gp_organization_id loaded)) (Some (gp_project_id loaded)) (at_type a) (at_id a)
  "egress_policy.activated" "egress_policy" (Some pid) (at_request_id a)
  [("revision_id"%string, DUuid revision_id); ("policy_digest"%string, DText (gr_policy_digest revision))]) ;;
mret p.

Definition disable_egress_policy (pid : uuid) (loaded : EgressPolicy) (expected_version : Z) (a : actor) (now : time)
  : M EgressPolicy :=
row ← lock_policy pid loaded expected_version;
let p := loaded <| gp_status := "DISABLED"%string |> <| gp_disabled_at := Some now |>
  <| gp_version := gp_version loaded + 1 |> <| gp_updated_at := now |> in
write_policy pid (flush_policy loaded p row) ;;
append_audit_event (MkAudit (Some (gp_organization_id loaded)) (Some (gp_project_id loaded)) (at_type a) (at_id a)
  "egress_policy.disabled" "egress_policy" (Some pid) (at_request_id a)
  [("active_revision_id"%string, match gp_active_revision_id p with Some r => DUuid r | None => DNone end)]) ;;
mret p.
End ops.

(** ** Listings *)

Definition list_egress_policies (s : db) (project_id : uuid) (status : option string) (cursor : option CursorPosition)
  (limit : Z) : list (uuid * EgressPolicy) * bool :=
keyset_page (λ _ p, bool_decide (gp_project_id p = project_id)
                    && match status with Some st => bool_decide (gp_status p = st) | None => true end)
  gp_created_at (policies s) cursor limit.
(** [order_by(revision_number.desc()).limit(limit + 1)]. *)
Definition by_revision : relation (uuid * EgressPolicyRevision) := by_keys (λ x, [- gr_revision_number x.2]).
Definition list_egress_policy_revisions (s : db) (policy_id : uuid) (cursor : option Z) (limit : Z)
  : list (uuid * EgressPolicyRevision) * bool :=
let rows := take (Z.to_nat (limit + 1)) (order_by by_revision (select (λ id r, of_policy policy_id id r
  && match cursor with Some n => gr_revision_number r <? n | None => true end) (revisions s))) in
(take (Z.to_nat limit) rows, limit <? Z.of_nat (length rows)).
