(* ===== verification/EgressPoliciesSpec.v ===== *)
(** Correctness of egress policies.  The operations run in any order, on any object their
    session may have loaded: revisions are numbered without gaps, never change and always
    validate again; the active revision belongs to its policy; creation is idempotent. *)

From S2P Require Import Prelude PyVal Json PyUuid QueueProtocol EventProtocol Idempotency.
From S2P Require Import Url Pagination EgressProtocol EgressPolicies.

(** Requests, and what other components do to their tables: projects are deleted, secrets
  come and go, except those a revision refers to. *)
Inductive op :=
| Create (project_id organization_id : uuid) (a : actor) (key : pystr) (payload : CreateEgressPolicyRequest)
| Revise (pid : uuid) (loaded : EgressPolicy) (a : actor) (expected_version : Z) (spec : EgressPolicySpec)
| Activate (pid : uuid) (loaded : EgressPolicy) (revision_id : uuid) (expected_version : Z) (a : actor)
| Disable (pid : uuid) (loaded : EgressPolicy) (expected_version : Z) (a : actor).

Section spec.
Context `{Entropy, Sha256, CaseFold, UrlTables, Idna, UpperCase}.
Implicit Types (s : db) (p : EgressPolicy) (r : EgressPolicyRevision) (now : time).

Definition run_op (o : op) now : Prelude.M db () :=
match o with
| Create project org a key payload => create_egress_policy project org a key payload now ;; mret ()
| Revise pid loaded a v spec => create_egress_policy_revision pid loaded a v spec now ;; mret ()
| Activate pid loaded rid v a => activate_egress_policy pid loaded rid v a now ;; mret ()
| Disable pid loaded v a => disable_egress_policy pid loaded v a now ;; mret ()
end.
Definition keeps_credentials s (secrets' : gmap uuid tenant) : Prop :=
∀ i r sid, revisions s !! i = Some r → gr_credential_secret_id r = Some sid → secrets' !! sid = secrets s !! sid.
Definition transaction {A} (m : Prelude.M db A) s : db :=
match m s with
| (inr _, s') => s'
| (inl _, s') => s <| rng := rng s' |>
end.
Inductive step s : db → Prop :=
| step_op o now : step s (transaction (run_op o now) s)
| step_other projects' secrets' : keeps_credentials s secrets' → step s (s <| projects := projects' |> <| secrets := secrets' |>).
Definition init : db := MkDb ∅ ∅ ∅ ∅ [] [] 0.
Definition reachable s : Prop := rtc step init s.

(** ** The invariant *)

(** The policy a revision stores was accepted and passed the guard of the table. *)
Definition validated_row r : ValidatedEgressPolicy :=
MkValidated (gr_allowed_hosts r) (gr_allowed_methods r) (gr_limits r) (gr_policy_digest r).
Definition row_ok r : Prop :=
(∃ hosts methods, accepted hosts methods (gr_limits r) (validated_row r)) ∧
revision_guard (gr_allowed_hosts r) (gr_allowed_methods r) (gr_limits r) = true.
Definition same_policy p p' : Prop :=
gp_organization_id p' = gp_organization_id p ∧ gp_project_id p' = gp_project_id p ∧ gp_name p' = gp_name p ∧
gp_created_by_user_id p' = gp_created_by_user_id p ∧ gp_created_at p' = gp_created_at p.

Record egress_inv s : Prop := {
ei_name : unique_by (λ p, (gp_project_id p, gp_name p)) (policies s);
ei_policy : ∀ i p, policies s !! i = Some p → active_revision_ok i p s = true ∧ active_ok p = true ∧ 1 ≤ gp_version p;
ei_revision : ∀ i r, revisions s !! i = Some r → row_ok r ∧ revision_tenancy_ok r s = true ∧ 1 ≤ gr_revision_number r;
ei_number : unique_by (λ r, (gr_policy_id r, gr_revision_number r)) (revisions s);
ei_below : ∀ i r n, revisions s !! i = Some r → 1 ≤ n ≤ gr_revision_number r →
  ∃ j r', revisions s !! j = Some r' ∧ gr_policy_id r' = gr_policy_id r ∧ gr_revision_number r' = n;
ei_record : ∀ rc x, rc ∈ idempotency s → i_response_snapshot rc = Some x →
  revisions s !! x.2.1 = Some x.2.2 ∧ ∃ p, policies s !! x.1.1 = Some p ∧ same_policy x.1.2 p }.

Record grows s s' : Prop := {
gw_revisions : revisions s ⊆ revisions s';
gw_policy : ∀ i p, policies s !! i = Some p → ∃ p', policies s' !! i = Some p' ∧ same_policy p p';
gw_records : idempotency s `prefix_of` idempotency s' }.
#[local] Instance same_policy_preorder : PreOrder same_policy.
Proof. split; [by intros p|]. intros p q r (? & ? & ? & ? & ?) (? & ? & ? & ? & ?). split_and!; congruence. Qed.
#[local] Instance grows_preorder : PreOrder grows.
Proof.
split; [intros s; split; [done| |done]; intros i p Hp; by exists p|]. intros s1 s2 s3 [R12 P12 I12] [R23 P23 I23].
split; [by etrans| |by etrans]. intros i p Hp. destruct (P12 _ _ Hp) as (p2 & Hp2 & ?). destruct (P23 _ _ Hp2) as (p3 & Hp3 & ?).
exists p3. split; [done|by etrans].
Qed.

(** ** Writes *)

Lemma tenancy_grows s s' r : (∀ i p, policies s !! i = Some p → ∃ p', policies s' !! i = Some p' ∧ same_policy p p') →
secrets s' = secrets s → revision_tenancy_ok r s = true → revision_tenancy_ok r s' = true.
Proof.
unfold revision_tenancy_ok. intros Hp ->. destruct (policies s !! gr_policy_id r) as [p|] eqn:E; [|done].
destruct (Hp _ _ E) as (p' & -> & Ho & Hpr & _). by rewrite Ho, Hpr.
Qed.
Lemma active_grows s s' i p : revisions s ⊆ revisions s' → active_revision_ok i p s = true → active_revision_ok i p s' = true.
Proof.
unfold active_revision_ok. intros Hr. destruct (gp_active_revision_id p) as [rid|]; [|done].
destruct (revisions s !! rid) as [r|] eqn:E; [|done]. by rewrite (lookup_weaken _ _ _ _ E Hr).
Qed.

(** A policy row is written: a new one, or one that keeps its columns. *)
Definition writes s (pid : uuid) p : Prop :=
match policies s !! pid with
| Some row => same_policy row p
| None => exists_row (same_policy_name (gp_project_id p) (gp_name p)) (policies s) = false
end.
Lemma write_policy_spec pid p s : egress_inv s → writes s pid p →
wp (write_policy pid p) (λ _ s', s' = s <| policies ::= <[pid := p]> |> ∧ egress_inv s' ∧ grows s s') s.
Proof.
intros Hinv Hw. unfold write_policy. wp_steps. breflect. split; [done|].
assert (Hp : ∀ i q, policies s !! i = Some q → ∃ q', <[pid := p]> (policies s) !! i = Some q' ∧ same_policy q q').
{ intros i q Hq. destruct (decide (i = pid)) as [->|Hne]; [|exists q; by rewrite lookup_insert_ne].
  exists p. rewrite lookup_insert_eq. split; [done|]. unfold writes in Hw. by rewrite Hq in Hw. }
split; [|by constructor]. constructor; cbn; try apply Hinv.
- unfold writes in Hw. destruct (policies s !! pid) as [row|] eqn:E.
  + destruct Hw as (_ & Hpr & Hn & _). eapply unique_by_update; [apply Hinv|exact E|by rewrite Hpr, Hn].
  + apply unique_by_insert; [apply Hinv|]. intros i q Hq [= Epr En]. pose proof (exists_row_false _ _ Hw _ _ Hq) as Hf.
    unfold same_policy_name in Hf. by rewrite !bool_decide_eq_true_2 in Hf.
- intros i q [[<- <-]|[_ Hq]]%lookup_insert_Some; [by split_and!|by apply (ei_policy _ Hinv)].
- intros i r Hr. destruct (ei_revision _ Hinv _ _ Hr) as (? & Ht & ?). split_and!; [done| |done]. by eapply (tenancy_grows s).
- intros rc x Hrc Hx. destruct (ei_record _ Hinv _ _ Hrc Hx) as (? & q & Hq & ?). split; [done|].
  destruct (Hp _ _ Hq) as (q' & ? & ?). exists q'. split; [done|by etrans].
Qed.

Lemma latest_revision_ge pid s : 0 ≤ latest_revision pid s.
Proof. unfold latest_revision. induction (_ <$> _); cbn; lia. Qed.
Lemma latest_revision_le pid s i r : revisions s !! i = Some r → gr_policy_id r = pid → gr_revision_number r ≤ latest_revision pid s.
Proof.
intros Hr Hp. unfold latest_revision.
assert (Hin : gr_revision_number r ∈ (λ x : uuid * EgressPolicyRevision, gr_revision_number x.2) <$> select (of_policy pid) (revisions s)).
{ apply list_elem_of_fmap. exists (i, r). split; [done|]. apply elem_of_select. split; [done|]. unfold of_policy. by apply bool_decide_eq_true_2. }
induction (_ <$> _) as [|z l IH]; [by apply not_elem_of_nil in Hin|]. cbn. apply elem_of_cons in Hin as [<-|Hin]; [lia|]. specialize (IH Hin). lia.
Qed.
Lemma latest_revision_in pid s : latest_revision pid s = 0 ∨
∃ i r, revisions s !! i = Some r ∧ gr_policy_id r = pid ∧ gr_revision_number r = latest_revision pid s.
Proof.
unfold latest_revision. assert (Hsub : ∀ x, x ∈ select (of_policy pid) (revisions s) → revisions s !! x.1 = Some x.2 ∧ gr_policy_id x.2 = pid).
{ intros [i r] [Hx Hp]%elem_of_select. unfold of_policy in Hp. by breflect. }
induction (select _ _) as [|[i r] l IH]; [by left|]. cbn.
destruct IH as [->|(j & q & Hj & Hq & Hn)]; [intros x Hx; apply Hsub; by right| |].
- destruct (Hsub (i, r)) as [? ?]; [left|]. destruct (Z.max_spec (gr_revision_number r) 0) as [[_ ->]|[_ ->]]; [by left|right; by exists i, r].
- right. rewrite <- Hn. destruct (Hsub (i, r)) as [? ?]; [left|].
  destruct (Z.max_spec (gr_revision_number r) (gr_revision_number q)) as [[_ ->]|[_ ->]]; [by exists j, q|by exists i, r].
Qed.

(** The next revision of a policy. *)
Lemma insert_revision_spec r s : egress_inv s → (∃ hosts methods, accepted hosts methods (gr_limits r) (validated_row r)) →
gr_revision_number r = latest_revision (gr_policy_id r) s + 1 →
wp (insert_revision r) (λ rid s', revisions s !! rid = None ∧ egress_inv s' ∧ grows s s' ∧
  policies s' = policies s ∧ idempotency s' = idempotency s ∧ revisions s' = <[rid := r]> (revisions s)) s.
Proof.
intros Hinv Hacc Hn. unfold insert_revision. apply wp_bind. intros rid s1 [= <- <-]. wp_steps. breflect.
set (rid := uuid4 (rng s)) in *.
assert (Hnew : revisions s !! rid = None) by by apply eq_None_not_Some.
assert (Hsub : revisions s ⊆ <[rid := r]> (revisions s)) by by apply insert_subseteq.
split_and!; try done; [|constructor; cbn; [done| |done]; intros i p Hp; by exists p].
constructor; cbn; try apply Hinv.
- intros i p Hp. destruct (ei_policy _ Hinv _ _ Hp) as (? & ? & ?). split_and!; try done. by eapply (active_grows s).
- intros i q [[_ <-]|[_ Hq]]%lookup_insert_Some; [split_and!; [by split|done|lia]|by apply (ei_revision _ Hinv i)].
- apply unique_by_insert; [apply Hinv|]. intros i q Hq [= Ep En].
  pose proof (exists_row_false _ _ ltac:(eassumption) _ _ Hq) as Hf. unfold numbered, of_policy in Hf. by rewrite !bool_decide_eq_true_2 in Hf.
- intros i q n [[<- <-]|[_ Hq]]%lookup_insert_Some Hle.
  + destruct (decide (n = gr_revision_number r)) as [->|Hne]; [exists rid, r; by rewrite lookup_insert_eq|].
    destruct (latest_revision_in (gr_policy_id r) s) as [H0'|(j & q & Hj & Hp & Hq)]; [lia|].
    destruct (ei_below _ Hinv j q n Hj) as (k & q' & Hk & ? & ?); [lia|]. exists k, q'.
    rewrite (lookup_weaken _ _ _ _ Hk Hsub). split_and!; congruence.
  + destruct (ei_below _ Hinv i q n Hq Hle) as (k & q' & Hk & ? & ?). exists k, q'. by rewrite (lookup_weaken _ _ _ _ Hk Hsub).
- intros rc x Hrc Hx. destruct (ei_record _ Hinv _ _ Hrc Hx) as (Hr & ?). split; [|done]. by eapply lookup_weaken.
Qed.


(** ** Operations *)

Lemma egress_frame s s' : policies s' = policies s → revisions s' = revisions s → secrets s' = secrets s →
idempotency s' = idempotency s → egress_inv s → egress_inv s'.
Proof. destruct s, s'; cbn. intros -> -> -> -> []. by constructor. Qed.
Lemma grows_frame s s' : policies s' = policies s → revisions s' = revisions s → idempotency s' = idempotency s → grows s s'.
Proof. intros Hp Hr Hi. constructor; [by rewrite Hr| |by rewrite Hi]. intros i p ?. exists p. by rewrite Hp. Qed.

Lemma insert_policy_spec p s : egress_inv s →
wp (insert_policy p) (λ pid s', policies s' = <[pid := p]> (policies s) ∧ revisions s' = revisions s ∧
  idempotency s' = idempotency s ∧ policies s !! pid = None ∧ egress_inv s' ∧ grows s s') s.
Proof.
intros Hinv. unfold insert_policy. apply wp_bind. intros pid s1 [= <- <-]. wp_steps. breflect.
assert (Hnew : policies s !! uuid4 (rng s) = None) by by apply eq_None_not_Some.
eapply wp_mono; [|apply write_policy_spec; [by apply (egress_frame s)|unfold writes; cbn; by rewrite Hnew]].
intros [] s' (-> & Hinv' & Hg). apply wp_ret. cbn. split_and!; try done. by etrans; [|exact Hg]; apply grows_frame.
Qed.
Lemma validated_spec spec s :
wp (validated spec) (λ v s', s' = s ∧ accepted (es_allowed_hosts spec) (es_allowed_methods spec) (es_limits spec) v) s.
Proof.
unfold validated. destruct (validate_egress_policy _ _ _) as [e|v] eqn:E; [destruct e; apply wp_raise|].
apply wp_ret. split; [done|]. by apply validate_accepted.
Qed.
Lemma validate_credential_spec c scope s : wp (validate_credential c scope)
(λ _ s', s' = s ∧ ∀ sid, c = Some sid → secrets s !! sid = Some scope) s.
Proof. unfold validate_credential. destruct c as [sid|]; wp_steps; [|done]. breflect. split; [done|]. by intros ? [= <-]. Qed.
Lemma new_revision_accepted pid p n uid v c now hosts methods lim : accepted hosts methods lim v →
∃ hosts methods, accepted hosts methods (gr_limits (new_revision pid p n uid v c now))
  (validated_row (new_revision pid p n uid v c now)).
Proof.
intros Ha. exists hosts, methods. unfold new_revision, validated_row. destruct v as [h m l d]. cbn.
pose proof (ap_limits _ _ _ _ Ha) as E. cbn in E. by subst.
Qed.

(** What a creation returns: what an earlier one of the key returned, or new rows. *)
Lemma create_policy_spec project org a key payload now s : egress_inv s →
wp (create_egress_policy project org a key payload now) (λ x s', egress_inv s' ∧ grows s s' ∧
  ∃ v encoded fp, validate_egress_policy (es_allowed_hosts (cp_spec payload)) (es_allowed_methods (cp_spec payload))
    (es_limits (cp_spec payload)) = inr v ∧ valid_idempotency_key key = true ∧ utf8_encode key = Some encoded ∧
    canonical_fingerprint (create_request project (cp_name payload) (vp_policy_digest v)
      (es_credential_secret_id (cp_spec payload))) = Some fp ∧
    replay_of org (str_of_uuid (at_user_id a)) CREATE_ENDPOINT (sha256_hex encoded) fp (idempotency s') = inr (Some x.1) ∧
    (x.2 = true → s' = s) ∧
    (x.2 = false → x.1 = ((x.1.1.1, MkPolicy org project (cp_name payload) "DRAFT" None None None (at_user_id a) now now 1),
        (x.1.2.1, new_revision x.1.1.1 x.1.1.2 1 (at_user_id a) v (es_credential_secret_id (cp_spec payload)) now)) ∧
      policies s' = <[x.1.1.1 := x.1.1.2]> (policies s) ∧ revisions s' = <[x.1.2.1 := x.1.2.2]> (revisions s))) s.
Proof.
intros Hinv. unfold create_egress_policy. apply wp_bind, wp_raise_if. intros Hkey. breflect.
apply wp_bind. eapply wp_mono; [|apply validated_spec]. intros v ? (-> & Hv).
apply wp_bind. eapply wp_mono; [|apply validate_credential_spec]. intros [] ? (-> & Hc).
apply wp_bind, wp_get_or_raise. intros encoded He. apply wp_bind, wp_get_or_raise. intros fp Hfp. apply wp_bind, wp_gets, wp_bind.
destruct (replay_of _ _ _ _ _ _) as [e|[x|]] eqn:Er; [apply wp_raise|apply wp_ret, wp_ret|apply wp_ret].
{ split; [done|]. split; [done|]. exists v, encoded, fp. split_and!; try done. by apply validate_accepted. }
apply wp_bind, wp_gets, wp_bind, wp_raise_if. intros _. cbv zeta. apply wp_bind. eapply wp_mono; [|by apply insert_policy_spec].
intros pid s1 (Ep & Erev & Ei & Hnew & Hinv1 & Hg1). apply wp_bind. eapply wp_mono.
2: { apply insert_revision_spec; [done|by eapply new_revision_accepted|]. cbn.
  destruct (latest_revision_in pid s1) as [->|(i & r & Hr & Hpid & _)]; [done|].
  destruct (ei_revision _ Hinv1 _ _ Hr) as (_ & Ht & _). rewrite Erev in Hr.
  destruct (ei_revision _ Hinv _ _ Hr) as (_ & Ht' & _). unfold revision_tenancy_ok in Ht'. by rewrite Hpid, Hnew in Ht'. }
intros rid s2 (Hnr & Hinv2 & Hg2 & Ep2 & Ei2 & Er2). wp_steps. cbn. split; [|split].
- destruct Hinv2. constructor; cbn; try done. intros rc x [Hrc|Hrc%list_elem_of_singleton]%elem_of_app Hx; [by eauto|subst rc].
  cbn in Hx. injection Hx as <-. cbn. rewrite Er2, Ep2, Ep, !lookup_insert_eq. split; [done|]. by eexists.
- etrans; [exact Hg1|]. etrans; [exact Hg2|]. constructor; cbn; [done| |by eexists]. intros i p ?. by exists p.
- exists v, encoded, fp. split_and!; try done; [by apply validate_accepted| |].
  + rewrite Ei2, Ei. by apply replay_new.
  + intros _. by rewrite Ep2, Ep, Er2, Erev.
Qed.

(** The locked row and the flush of the loaded object keep the columns of the row. *)
Lemma flush_same loaded p row : same_policy row (flush_policy loaded p row).
Proof. by unfold flush_policy, same_policy. Qed.
Lemma lock_policy_spec pid loaded v s : wp (lock_policy pid loaded v)
(λ row s', s' = s ∧ policies s !! pid = Some row ∧ gp_version loaded = v) s.
Proof. unfold lock_policy. wp_steps. breflect. by split_and!. Qed.
Lemma flush_spec pid loaded p row s : egress_inv s → policies s !! pid = Some row →
wp (write_policy pid (flush_policy loaded p row)) (λ _ s', s' = s <| policies ::= <[pid := flush_policy loaded p row]> |> ∧
  egress_inv s' ∧ grows s s') s.
Proof. intros Hinv Hrow. apply write_policy_spec; [done|]. unfold writes. rewrite Hrow. apply flush_same. Qed.

Lemma revise_policy_spec pid loaded a v spec now s : egress_inv s →
wp (create_egress_policy_revision pid loaded a v spec now) (λ x s', egress_inv s' ∧ grows s s' ∧
  revisions s' !! x.1 = Some x.2 ∧ gr_revision_number x.2 = latest_revision pid s + 1) s.
Proof.
intros Hinv. unfold create_egress_policy_revision. apply wp_bind. eapply wp_mono; [|apply validated_spec]. intros w ? (-> & Hw).
apply wp_bind. eapply wp_mono; [|apply lock_policy_spec]. intros row ? (-> & Hrow & _).
apply wp_bind. eapply wp_mono; [|apply validate_credential_spec]. intros [] ? (-> & _). apply wp_bind, wp_gets. cbv zeta.
apply wp_bind. eapply wp_mono; [|apply insert_revision_spec; [done|by eapply new_revision_accepted|done]].
intros rid s1 (_ & Hinv1 & Hg1 & Ep & _ & Er). apply wp_bind. eapply wp_mono; [|apply flush_spec; [done|by rewrite Ep]].
intros [] s2 (-> & Hinv2 & Hg2). wp_steps. split_and!; [by refine (egress_frame _ _ _ _ _ _ Hinv2)|etrans; [exact Hg1|by etrans; [exact Hg2|apply grows_frame]]| |done].
cbn. rewrite Er. apply lookup_insert_eq.
Qed.
Lemma activate_policy_spec pid loaded rid v a now s : egress_inv s →
wp (activate_egress_policy pid loaded rid v a now) (λ _ s', egress_inv s' ∧ grows s s') s.
Proof.
intros Hinv. unfold activate_egress_policy. apply wp_bind. eapply wp_mono; [|apply lock_policy_spec]. intros row ? (-> & Hrow & _).
apply wp_bind, wp_gets, wp_bind, wp_get_or_raise. intros r _. cbv zeta. apply wp_bind.
eapply wp_mono; [|by apply flush_spec]. intros [] s1 (-> & Hinv1 & Hg1). wp_steps.
split; [by refine (egress_frame _ _ _ _ _ _ Hinv1)|by etrans; [exact Hg1|apply grows_frame]].
Qed.
Lemma disable_policy_spec pid loaded v a now s : egress_inv s →
wp (disable_egress_policy pid loaded v a now) (λ _ s', egress_inv s' ∧ grows s s') s.
Proof.
intros Hinv. unfold disable_egress_policy. apply wp_bind. eapply wp_mono; [|apply lock_policy_spec]. intros row ? (-> & Hrow & _).
cbv zeta. apply wp_bind. eapply wp_mono; [|by apply flush_spec]. intros [] s1 (-> & Hinv1 & Hg1). wp_steps.
split; [by refine (egress_frame _ _ _ _ _ _ Hinv1)|by etrans; [exact Hg1|apply grows_frame]].
Qed.

Lemma egress_step s s' : step s s' → egress_inv s → egress_inv s' ∧ grows s s'.
Proof.
intros [o now|projects' secrets' Hk] Hinv.
- assert (Hwp : wp (run_op o now) (λ _ s', egress_inv s' ∧ grows s s') s).
  { destruct o; cbn [run_op]; apply wp_bind.
    - eapply wp_mono; [|by apply create_policy_spec]. intros x s1 (? & ? & _). by apply wp_ret.
    - eapply wp_mono; [|by apply revise_policy_spec]. intros x s1 (? & ? & _). by apply wp_ret.
    - eapply wp_mono; [|by apply activate_policy_spec]. intros x s1 ?. by apply wp_ret.
    - eapply wp_mono; [|by apply disable_policy_spec]. intros x s1 ?. by apply wp_ret. }
  unfold transaction. destruct (run_op o now s) as [[e|[]] s1] eqn:E; [|by apply (Hwp () s1)].
  split; [by refine (egress_frame _ _ _ _ _ _ Hinv)|by apply grows_frame].
- split; [|by apply grows_frame]. destruct Hinv. constructor; cbn; try done. intros i r Hr.
  destruct (ei_revision0 _ _ Hr) as (? & Ht & ?). split_and!; [done| |done]. unfold revision_tenancy_ok in *. cbn.
  destruct (gr_credential_secret_id r) as [sid|] eqn:Es; [|done]. by rewrite (Hk i r sid Hr Es).
Qed.
Lemma egress_steps s s' : rtc step s s' → egress_inv s → egress_inv s' ∧ grows s s'.
Proof.
induction 1 as [s|s1 s2 s3 Hst _ IH]; intros Hinv; [done|]. destruct (egress_step _ _ Hst Hinv) as [Hi2 G12].
destruct (IH Hi2) as [? ?]. split; [done|by etrans].
Qed.
Lemma egress_init : egress_inv init.
Proof.
constructor; cbn; try (intros *; rewrite ?lookup_empty; done); try apply unique_by_empty.
intros rc x Hin. by apply not_elem_of_nil in Hin.
Qed.
Lemma egress_reachable s : reachable s → egress_inv s.
Proof. intros Hr. apply (egress_steps _ _ Hr egress_init). Qed.


(** ** Theorems *)

(** C16: The revisions of an egress policy are an append-only, gap-free history, whatever
  requests run, even on stale objects: no later request changes or removes a stored
  revision; the revisions of a policy carry the numbers from 1 to the latest, each exactly
  once; a policy with status ACTIVE points to a revision of its own and of its tenant. *)
Theorem revisions_are_permanent s s' : reachable s → rtc step s s' →
(∀ i r, revisions s !! i = Some r → revisions s' !! i = Some r) ∧
(∀ pid n, 1 ≤ n ≤ latest_revision pid s' →
  ∃ i r, (revisions s' !! i = Some r ∧ gr_policy_id r = pid ∧ gr_revision_number r = n) ∧
    ∀ j q, revisions s' !! j = Some q → gr_policy_id q = pid → gr_revision_number q = n → j = i) ∧
(∀ i r, revisions s' !! i = Some r → 1 ≤ gr_revision_number r ≤ latest_revision (gr_policy_id r) s') ∧
(∀ i p, policies s' !! i = Some p → gp_status p = "ACTIVE"%string →
  ∃ rid r, gp_active_revision_id p = Some rid ∧ revisions s' !! rid = Some r ∧ gr_policy_id r = i ∧
    gr_organization_id r = gp_organization_id p ∧ gr_project_id r = gp_project_id p).
Proof.
intros Hr Hs. destruct (egress_steps _ _ Hs (egress_reachable _ Hr)) as [Hinv Hg]. split_and!.
- intros i r Hi. eapply lookup_weaken; [exact Hi|apply Hg].
- intros pid n Hn. destruct (latest_revision_in pid s') as [H0'|(i & r & Hi & Hp & Hl)]; [lia|].
  destruct (ei_below _ Hinv i r n Hi) as (j & q & Hj & Hq & Hnq); [lia|]. exists j, q. split; [split_and!; congruence|].
  intros k q' Hk Hq' Hn'. eapply (ei_number _ Hinv); [done..|]. congruence.
- intros i r Hi. destruct (ei_revision _ Hinv _ _ Hi) as (_ & _ & ?). split; [done|]. by eapply latest_revision_le.
- intros i p Hi Hst. destruct (ei_policy _ Hinv _ _ Hi) as (Ha & Hok & _). unfold active_ok in Hok. rewrite Hst in Hok. cbn in Hok.
  breflect. unfold active_revision_ok in Ha. destruct (gp_active_revision_id p) as [rid|]; [|by destruct (is_Some_None (A := uuid))].
  destruct (revisions s' !! rid) as [r|] eqn:E; [|done]. breflect. by exists rid, r.
Qed.

(** Every stored revision is what validation makes of itself: its hosts, methods and
  limits validate again, to themselves and to the digest stored beside them.  Binding a
  run to a stored revision therefore never fails its checks of the revision. *)
Theorem stored_revisions_validate `{!HostTables} s i r : reachable s → revisions s !! i = Some r →
validate_egress_policy (gr_allowed_hosts r) (gr_allowed_methods r) (gr_limits r) = inr (validated_row r) ∧
(1 ≤ length (gr_allowed_hosts r) ≤ 64)%nat ∧ el_max_response_bytes (gr_limits r) ≤ el_max_total_bytes (gr_limits r) ∧
NoDup (gr_allowed_hosts r) ∧ Forall (λ m, m ∈ ALLOWED_METHODS) (gr_allowed_methods r).
Proof.
intros Hr Hi. destruct (ei_revision _ (egress_reachable _ Hr) _ _ Hi) as (((hosts & methods & Ha) & Hg) & _ & _).
pose proof (accepted_again _ _ _ _ Ha Hg) as Hag. split; [by apply validate_accepted|].
unfold revision_guard in Hg. breflect. split_and!; [done|done|apply (ap_total _ _ _ _ Ha)|done|apply (ap_method_known _ _ _ _ Ha)].
Qed.

(** Creating an egress policy is idempotent: after a creation that returned new rows,
  repeating the request with its key, at any later time and after any other requests,
  returns the same policy and revision and changes nothing. *)
Theorem policy_creation_replays s s' s'' project org a key payload now now' x : reachable s →
create_egress_policy project org a key payload now s = (inr (x, false), s') → rtc step s' s'' →
create_egress_policy project org a key payload now' s'' = (inr (x, true), s'').
Proof.
intros Hr Hc Hs. destruct (create_policy_spec project org a key payload now s (egress_reachable _ Hr) _ _ Hc)
  as (Hinv & Hg & v & encoded & fp & Hv & Hkey & He & Hfp & Hrep & _ & Hnew).
destruct (Hnew eq_refl) as (Hx & _ & Hrev). cbn [fst snd] in Hx, Hrev, Hrep.
destruct (egress_steps _ _ Hs Hinv) as [Hinv2 Hg2]. apply (replay_stable _ _ _ _ _ _ _ _ (gw_records _ _ Hg2)) in Hrep.
assert (Hi : revisions s'' !! x.2.1 = Some x.2.2).
{ eapply lookup_weaken; [|apply Hg2]. rewrite Hrev. apply lookup_insert_eq. }
destruct (ei_revision _ Hinv2 _ _ Hi) as (_ & Ht & _). unfold revision_tenancy_ok in Ht.
pose proof (f_equal (λ x, x.1.2) Hx) as Hp. cbn in Hp. rewrite Hx in Ht. cbn in Ht. rewrite Hp in Ht. cbn in Ht.
unfold create_egress_policy. rewrite run_pass by by rewrite Hkey.
erewrite run_bind by (unfold validated; rewrite Hv; reflexivity).
erewrite run_bind.
2: { unfold validate_credential. destruct (es_credential_secret_id _) as [sid|]; [|reflexivity]. rewrite run_gets.
  apply andb_prop in Ht as [_ Ht]. apply bool_decide_eq_true in Ht. rewrite Ht, bool_decide_eq_true_2 by done. reflexivity. }
rewrite (run_some _ _ _ _ _ He). cbv beta zeta. rewrite (run_some _ _ _ _ _ Hfp), run_gets.
unfold snapshot in *. by rewrite Hrep.
Qed.


(** On an object that is current, a flush writes the new values. *)
Lemma flush_current p p' : same_policy p p' → flush_policy p p' p = p'.
Proof.
intros (Ho & Hp & Hn & Hu & Hc). unfold flush_policy, written. destruct p, p'; cbn in *. subst.
repeat (case_decide; [subst|]); done.
Qed.

End spec.
