(* ===== verification/EgressScenario.v ===== *)
(** Concrete runs of egress policies: the hypotheses of the theorems of EgressPoliciesSpec.v
    hold in them, and two behaviours the theorems leave room for: requests that overlap on
    one policy, and a host that validation accepts and the table refuses. *)

From S2P Require Import Prelude PyVal Json PyUuid PyTime QueueProtocol EventProtocol Idempotency.
From S2P Require Import Url Pagination EgressProtocol EgressPolicies EgressPoliciesSpec.

Module EgressScenario.
#[local] Instance counting : Entropy := λ n, (n + 100)%N.
#[local] Instance plain_digest : Sha256 := λ b, b.
#[local] Instance fold_ascii : CaseFold := fmap ascii_lower.
Definition decimal (l : pystr) : N := fold_left (λ n c, n * 10 + (c - 48))%N l 0%N.
#[local] Instance tables : UrlTables := ascii_url_tables (λ s,
if (length (split_on 46 s) =? 4)%nat && forallb (λ l, numeric l && (decimal l <=? 255)%N) (split_on 46 s)
then Some IPv4 else None).
#[local] Instance no_idna : Idna.
Proof. by refine {| idna_other _ := None |}. Defined.
#[local] Instance upper_letters : UpperCase.
Proof. by refine {| upper := fmap ascii_upper |}. Defined.
#[local] Instance host_tables : HostTables.
Proof.
split.
- intros s. apply Forall_fmap, Forall_forall. intros c _. cbn. unfold ascii_lower.
  destruct ((65 <=? c) && (c <=? 90))%N eqn:E; [|by rewrite E]. apply andb_prop in E as [?%N.leb_le ?%N.leb_le].
  replace ((65 <=? c + 32) && (c + 32 <=? 90))%N with false; [done|]. symmetry. apply andb_false_iff. right. apply N.leb_gt. lia.
- done.
- intros s [k Hk]. cbn in Hk. left. unfold dotted_quad.
destruct (length (split_on 46 s) =? 4)%nat eqn:El; [|done]. apply Nat.eqb_eq in El. rewrite El. cbn [Nat.sub drop andb Nat.leb].
destruct (forallb _ _) eqn:Ef; [|done]. rewrite forallb_forall in Ef. apply forallb_forall. intros l Hl. specialize (Ef l Hl). by breflect.
Defined.

Definition alice : actor := MkActor 7 "user" (str_of_uuid 7) "rq".
Definition limits : EgressLimits := MkLimits 10 65536 131072 2 5 10.
Definition to_host (host : string) : EgressPolicySpec := MkSpec [lit host] [lit "get"] limits None.
Definition payload : CreateEgressPolicyRequest := MkCreatePolicy (lit "web") (to_host "Example.COM.").
(** Project 2 of organisation 1. *)
Definition s0 : db := init <| projects := {[2%N := MkProjectScope 1 None]} |> <| secrets := ∅ |>.
Definition create : op := Create 2 1 alice (lit "some-key") payload.
Definition s1 : db := transaction (run_op create 5) s0.
Definition made : snapshot := match create_egress_policy 2 1 alice (lit "some-key") payload 5 s0 with
| (inr (x, _), _) => x
| _ => ((0%N, MkPolicy 0 0 [] "" None None None 0 0 0 0), (0%N, MkRevision 0 0 0 0 [] [] limits None [] 0 0))
end.
Definition policy : EgressPolicy := made.1.2.
Lemma reachable_s0 : reachable s0.
Proof. eapply rtc_once, (step_other init). intros i r sid Hr. cbn in Hr. by rewrite lookup_empty in Hr. Qed.
Lemma reachable_s1 : reachable s1.
Proof. eapply rtc_r; [apply reachable_s0|]. apply (step_op _ create 5). Qed.

Lemma revisions_are_permanent_witness :
revisions s1 !! 101%N = Some made.2.2 ∧
(∀ i r, revisions s1 !! i = Some r → revisions s1 !! i = Some r).
Proof. split; [vm_compute; reflexivity|]. exact (proj1 (revisions_are_permanent s1 s1 reachable_s1 (rtc_refl _ _))). Defined.
Lemma stored_revisions_validate_witness :
gr_allowed_hosts made.2.2 = [lit "example.com"] ∧
validate_egress_policy (gr_allowed_hosts made.2.2) (gr_allowed_methods made.2.2) (gr_limits made.2.2) = inr (validated_row made.2.2).
Proof.
split; [vm_compute; reflexivity|]. apply (stored_revisions_validate s1 101%N made.2.2 reachable_s1). vm_compute. reflexivity.
Defined.
Lemma policy_creation_replays_witness :
create_egress_policy 2 1 alice (lit "some-key") payload 9 s1 = (inr (made, true), s1).
Proof.
apply (policy_creation_replays s0 s1 s1 2 1 alice (lit "some-key") payload 5 9 made reachable_s0); [vm_compute; reflexivity|apply rtc_refl].
Defined.

(** Two requests load version 1; one activates, the other disables.  Both succeed, and the
  row is DISABLED at version 2, while the first response says ACTIVE at version 2. *)
Definition s2 : db := transaction (run_op (Activate 100 policy 101 1 alice) 6) s1.
Definition s3 : db := transaction (run_op (Disable 100 policy 1 alice) 7) s2.
Example overlapping_updates_both_succeed :
(λ p, (gp_status p, gp_version p)) <$> policies s2 !! 100%N = Some ("ACTIVE"%string, 2) ∧
(disable_egress_policy 100 policy 1 alice 7 s2).1
  = inr (policy <| gp_status := "DISABLED"%string |> <| gp_disabled_at := Some 7 |> <| gp_version := 2 |> <| gp_updated_at := 7 |>) ∧
(λ p, (gp_status p, gp_version p)) <$> policies s3 !! 100%N = Some ("DISABLED"%string, 2).
Proof. vm_compute. by split_and!. Qed.

(** [999.1.1.1] is no IP address, so validation accepts it; the trigger of the table takes
  it for one, and the request fails with an internal error. *)
Example table_refuses_validated_host :
normalize_hostname (lit "999.1.1.1") = inr (lit "999.1.1.1") ∧
(create_egress_policy 2 1 alice (lit "some-key") (MkCreatePolicy (lit "web") (to_host "999.1.1.1")) 5 s0).1
  = inl (IntegrityError "egress_policy_revisions_value_guard").
Proof. vm_compute. by split. Qed.
End EgressScenario.
