(* ===== verification/KvProtocol.v ===== *)
(** Key-value mutations (src/apps/api/app/kv_mutation_protocol.py and
    kv_worker_protocol.py): validation, canonical values and the request digest.
    Main results: a digest identifies a mutation, the stored bytes read back as the
    value that was sent, and validation is idempotent. *)

From S2P Require Import Prelude PyVal Json PyUuid Base64 Url QueueProtocol.

(** ** Standard base64 *)

(** [base64.b64encode]: the digits of [b64_char] with [+] and [/] for [-] and [_]. *)
Definition std_char (c : N) : N := if (c =? 45)%N then 43%N else if (c =? 95)%N then 47%N else c.
Definition b64encode (l : list N) : pystr :=
  let digits := b64_encode l in map std_char digits ++ b64_padding (length digits).

Definition std_digit (c : N) : bool := is_alnum c || (c =? 43)%N || (c =? 47)%N.

(** [base64.b64decode(raw, validate=True)]: digits, then at most two pads, in groups
    of four characters. *)
Definition b64decode_strict (s : pystr) : option (list N) :=
  let pads := (length s - length (lstrip [61%N] (reverse s)))%nat in
  let body := take (length s - pads) s in
  if (length s mod 4 =? 0)%nat && (pads <=? 2)%nat && forallb std_digit body then a2b 0 0 0 s else None.

(** ** Mutations *)

Definition KV_SCHEMA_VERSION : string := "rdc.kv-write/v1".
Definition MAX_VALUE_BYTES : Z := 1048576.
Definition MAX_KV_ENVELOPE_BYTES : Z := 1572864.
Definition MAX_KV_DEPTH : Z := 32.
Definition MAX_EXPECTED_VERSION : Z := 9223372036854775807.

Inductive kv_encoding := EJson | EUtf8 | EBase64.
#[export] Instance kv_encoding_eq_dec : EqDecision kv_encoding.
Proof. solve_decision. Defined.
Definition encoding_text (e : kv_encoding) : string :=
  match e with EJson => "json" | EUtf8 => "utf8" | EBase64 => "base64" end.

(** [_CONTENT_ENCODINGS]. *)
Definition content_type_of (e : kv_encoding) : string :=
  match e with
  | EJson => "application/json"
  | EUtf8 => "text/plain; charset=utf-8"
  | EBase64 => "application/octet-stream"
  end.
Definition content_encoding (t : pystr) : option kv_encoding :=
  if bool_decide (t = lit (content_type_of EJson)) then Some EJson
  else if bool_decide (t = lit (content_type_of EUtf8)) then Some EUtf8
  else if bool_decide (t = lit (content_type_of EBase64)) then Some EBase64
  else None.

Inductive kv_operation := SET | DELETE.
#[export] Instance kv_operation_eq_dec : EqDecision kv_operation.
Proof. solve_decision. Defined.
Definition operation_text (o : kv_operation) : string := match o with SET => "set" | DELETE => "delete" end.

Record ValidatedKVMutation := MkKVMutation {
  vm_request : pyval;
  vm_idempotency_key : pystr;
  vm_request_digest : pystr;
  vm_operation : kv_operation;
  vm_key : pystr;
  vm_expected_version : option Z;
  vm_encoding : option kv_encoding;
  vm_value_sha256 : option pystr;
  vm_decoded_bytes : Z;
  vm_value_bytes : option (list N) }.

(** [_validate_json_value]: the message of the first failure. *)
Fixpoint kv_json_check (v : pyval) (depth : Z) : option string :=
  if MAX_KV_DEPTH <? depth then Some "KV JSON value exceeds the maximum nesting depth."%string
  else match v with
  | PNone | PBool _ | PInt _ | PStr _ => None
  | PFloat (FFin _) => None
  | PFloat _ => Some "KV JSON values cannot contain NaN or Infinity."%string
  | PList l =>
      (fix go l := match l with
       | [] => None
       | x :: l => match kv_json_check x (depth + 1) with Some e => Some e | None => go l end
       end) l
  | PDict kvs =>
      (fix go kvs := match kvs with
       | [] => None
       | (KOther, _) :: _ => Some "KV JSON object keys must be strings."%string
       | (KStr _, x) :: kvs =>
           match kv_json_check x (depth + 1) with Some e => Some e | None => go kvs end
       end) kvs
  | POther => Some "KV JSON values must contain JSON-compatible values only."%string
  end.

Definition canonical_json_bytes (v : pyval) : exn + list N :=
  match json_bytes v with
  | Some b => inr b
  | None => pfail "KV mutation cannot be canonically JSON encoded."
  end.

Definition expected_version (v : pyval) : exn + option Z :=
  match v with
  | PNone => inr None
  | PInt z => if (0 <=? z) && (z <=? MAX_EXPECTED_VERSION) then inr (Some z)
              else pfail "KV expected_version is invalid."
  | _ => pfail "KV expected_version is invalid."
  end.

(** The bytes of a value under an encoding.  [value.encode("utf-8")] stands outside
    any handler: a lone surrogate raises [UnicodeEncodeError] itself. *)
Definition value_bytes (e : kv_encoding) (v : pyval) : exn + list N :=
  match e with
  | EJson =>
      match kv_json_check v 0 with
      | Some m => pfail m
      | None => canonical_json_bytes v
      end
  | EUtf8 =>
      match v with
      | PStr s => match utf8_encode s with Some b => inr b | None => inl UnicodeEncodeError end
      | _ => pfail "KV UTF-8 value must be a string."
      end
  | EBase64 =>
      match v with
      | PStr s =>
          match b64decode_strict s with
          | Some b => if bool_decide (s = b64encode b) then inr b
                      else pfail "KV binary value is not canonical base64."
          | None => pfail "KV binary value is not canonical base64."
          end
      | _ => pfail "KV base64 value must be a string."
      end
  end.

Definition decoded_set_value (content_type encoding value : pyval) : exn + kv_encoding * list N :=
  e ← match content_type with
      | PStr t => match content_encoding t with
                  | Some e => inr e | None => pfail "KV content_type is unsupported." end
      | _ => pfail "KV content_type is unsupported."
      end;
  ensure (bool_decide (encoding = PStr (lit (encoding_text e)))) "KV content_type and encoding do not match." ;;
  b ← value_bytes e value;
  ensure (Z.of_nat (length b) <=? MAX_VALUE_BYTES) "KV value exceeds the maximum decoded size." ;;
  inr (e, b).
Arguments value_bytes : simpl never.

Definition opt_version (o : option Z) : pyval := match o with Some z => PInt z | None => PNone end.

(** The normalised request. *)
Definition common_fields (idempotency_key : pystr) (op : kv_operation) (key : pystr) (expected : option Z)
    : list (pykey * pyval) :=
  [(KStr (lit "schema_version"), PStr (lit KV_SCHEMA_VERSION));
   (KStr (lit "idempotency_key"), PStr idempotency_key);
   (KStr (lit "operation"), PStr (lit (operation_text op)));
   (KStr (lit "key"), PStr key);
   (KStr (lit "expected_version"), opt_version expected)].
Definition set_fields (e : kv_encoding) (value : pyval) : list (pykey * pyval) :=
  [(KStr (lit "content_type"), PStr (lit (content_type_of e)));
   (KStr (lit "encoding"), PStr (lit (encoding_text e)));
   (KStr (lit "value"), value)].

Arguments common_fields : simpl never.
Arguments set_fields : simpl never.

Definition operation_of (v : pyval) : exn + kv_operation :=
  if bool_decide (v = PStr (lit "set")) then inr SET
  else if bool_decide (v = PStr (lit "delete")) then inr DELETE
  else pfail "KV operation is unsupported.".

Definition expected_fields (op : kv_operation) : list string :=
  ["schema_version"; "idempotency_key"; "operation"; "key"; "expected_version"]%string
  ++ match op with SET => ["content_type"; "encoding"; "value"]%string | DELETE => [] end.

Section validate.
Context `{Sha256}.

Definition finish_mutation (request : list (pykey * pyval)) (idempotency_key : pystr) (op : kv_operation)
  (key : pystr) (expected : option Z) (payload : option (kv_encoding * list N)) : exn + ValidatedKVMutation :=
encoded ← canonical_json_bytes (PDict request);
ensure (Z.of_nat (length encoded) <=? MAX_KV_ENVELOPE_BYTES)
  "KV mutation envelope exceeds the maximum encoded size." ;;
inr (MkKVMutation (PDict request) idempotency_key (sha256_hex encoded) op key expected
       (fst <$> payload) (sha256_hex ∘ snd <$> payload)
       (default 0 (Z.of_nat ∘ length ∘ snd <$> payload)) (snd <$> payload)).

Definition validate_kv_mutation (value : pyval) : exn + ValidatedKVMutation :=
match value with
| PDict d =>
    op ← operation_of (dict_get "operation" d);
    ensure (has_exact_keys (expected_fields op) d) "KV mutation request fields are invalid." ;;
    ensure (bool_decide (dict_get "schema_version" d = PStr (lit KV_SCHEMA_VERSION)))
      "KV mutation schema version is unsupported." ;;
    idempotency_key ← match dict_get "idempotency_key" d with
      | PStr k => if safe_key 127 k then inr k else pfail "KV mutation idempotency key is invalid."
      | _ => pfail "KV mutation idempotency key is invalid."
      end;
    key ← match dict_get "key" d with
      | PStr k => if safe_key 255 k then inr k else pfail "KV logical key is invalid."
      | _ => pfail "KV logical key is invalid."
      end;
    expected ← expected_version (dict_get "expected_version" d);
    match op with
    | SET =>
        p ← decoded_set_value (dict_get "content_type" d) (dict_get "encoding" d) (dict_get "value" d);
        finish_mutation (common_fields idempotency_key op key expected ++ set_fields p.1 (dict_get "value" d))
          idempotency_key op key expected (Some p)
    | DELETE =>
        finish_mutation (common_fields idempotency_key op key expected) idempotency_key op key expected None
    end
| _ => pfail "KV mutation request must be an object."
end.
End validate.

(** What reading stored bytes under their encoding gives: [json.loads] of the decoded
    text, the text, or its base64 form; [None] when it raises. *)
Definition decode_value `{PyFloats} (e : kv_encoding) (raw : list N) : option pyval :=
  match e with
  | EJson => utf8_decode raw ≫= json_loads
  | EUtf8 => PStr <$> utf8_decode raw
  | EBase64 => Some (PStr (b64encode raw))
  end.

(** ** Lemmas: base64 *)

Lemma std_char_value c : b64_value (std_char c) = b64_value c ∧ (std_char c =? 61)%N = (c =? 61)%N.
Proof.
  unfold std_char. destruct (N.eqb_spec c 45) as [->|]; [done|].
  destruct (N.eqb_spec c 95) as [->|]; done.
Qed.

Lemma a2b_std s quad pads left t : a2b quad pads left (map std_char s ++ t) = a2b quad pads left (s ++ t).
Proof.
  revert quad pads left. induction s as [|c s IH]; intros quad pads left; [done|].
  cbn [map app a2b]. destruct (std_char_value c) as [-> ->].
  destruct (c =? 61)%N; [by destruct (_ && _)|]. destruct (b64_value c); [|done].
  destruct quad as [|[|[|quad]]]; by rewrite ?IH.
Qed.

Lemma std_digit_char n : (n < 64)%N → std_digit (std_char (b64_char n)) = true.
Proof.
  intros Hn.
  assert (forallb (λ k, std_digit (std_char (b64_char (N.of_nat k)))) (seq 0 64) = true) as Hall
    by (vm_compute; reflexivity).
  rewrite forallb_forall in Hall. specialize (Hall (N.to_nat n)). rewrite N2Nat.id in Hall.
  apply Hall, in_seq. lia.
Qed.

Lemma b64_digits l : Forall is_byte l → forallb std_digit (map std_char (b64_encode l)) = true.
Proof.
  induction l as [|a|a b|a b c l IH] using bytes_ind; intros Hl; [done|..];
    repeat (apply Forall_cons in Hl as [? Hl]); unfold is_byte in *; cbn [b64_encode map forallb];
    rewrite !std_digit_char by div_mod_lia; [done..|]. cbn [andb]. by apply IH.
Qed.

Lemma b64_length l : (length (b64_encode l) mod 4 ≠ 1)%nat.
Proof.
  induction l as [|a|a b|a b c l IH] using bytes_ind; [done..|]. rewrite length_b64_encode_step.
  replace (4 + length (b64_encode l))%nat with (length (b64_encode l) + 1 * 4)%nat by lia.
  by rewrite Nat.Div0.mod_add.
Qed.

Lemma b64_padding_total n : ((n + length (b64_padding n)) mod 4 = 0)%nat ∧
  (n mod 4 ≠ 1 → length (b64_padding n) ≤ 2)%nat.
Proof.
  unfold b64_padding. rewrite repeat_length. rewrite Nat.Div0.add_mod.
  pose proof (Nat.mod_upper_bound n 4 ltac:(lia)).
  destruct (n mod 4)%nat as [|[|[|[|?]]]]; simpl; lia.
Qed.

Lemma lstrip_pads k s : (∀ c, c ∈ s → c ≠ 61%N) → lstrip [61%N] (repeat 61%N k ++ s) = s.
Proof.
  intros Hs. induction k as [|k IH]; [|done]. simpl. destruct s as [|c s]; [done|]. simpl.
  rewrite bool_decide_eq_false_2; [done|]. rewrite list_elem_of_singleton. apply Hs. left.
Qed.

(** Every byte string has a base64 form that is accepted and read back. *)
Lemma b64decode_encode_strict b : Forall is_byte b → b64decode_strict (b64encode b) = Some b.
Proof.
  intros Hb. unfold b64decode_strict, b64encode. set (D := map std_char (b64_encode b)).
  assert (HD : forallb std_digit D = true) by (by apply b64_digits).
  assert (HlenD : length D = length (b64_encode b)) by apply length_map.
  destruct (b64_padding_total (length (b64_encode b))) as [Ht Hp]. specialize (Hp (b64_length b)).
  set (P := b64_padding (length (b64_encode b))) in *.
  assert (Hl : length (lstrip [61%N] (reverse (D ++ P))) = length D).
  { rewrite reverse_app. replace (reverse P) with P.
    2:{ unfold P, b64_padding, reverse. rewrite <- rev_alt. symmetry. apply rev_repeat. }
    unfold P, b64_padding. rewrite lstrip_pads; [apply length_reverse|].
    intros c Hc ->. rewrite elem_of_reverse in Hc. apply list_elem_of_In in Hc.
    rewrite forallb_forall in HD. by specialize (HD _ Hc). }
  rewrite Hl, length_app, HlenD, Ht. cbn [Nat.eqb andb].
  replace (length (b64_encode b) + length P - length (b64_encode b))%nat with (length P) by lia.
  rewrite (proj2 (Nat.leb_le _ 2)) by done. cbn [andb].
  replace (length (b64_encode b) + length P - length P)%nat with (length D) by lia.
  rewrite take_app_length, HD. unfold D. rewrite a2b_std. by apply b64_decode_encode.
Qed.

(** ** Lemmas: accepted mutations *)

Definition common_keys : list pykey := (λ k, KStr (lit k)) <$> expected_fields DELETE.
Definition set_keys : list pykey := (λ k, KStr (lit k)) <$> expected_fields SET.
Lemma NoDup_common_keys : NoDup common_keys.
Proof. apply (bool_decide_unpack _). vm_compute. exact I. Qed.
Lemma NoDup_set_keys : NoDup set_keys.
Proof. apply (bool_decide_unpack _). vm_compute. exact I. Qed.

Definition vm_value (a : ValidatedKVMutation) : pyval :=
  match vm_request a with PDict d => dict_get "value" d | _ => PNone end.

Section accepted.
Context `{PyFloats, Sha256}.
Implicit Types (a b : ValidatedKVMutation).

(** What an accepted mutation satisfies. *)
Record accepted_mutation (d : list (pykey * pyval)) a : Prop := {
am_operation : operation_of (dict_get "operation" d) = inr (vm_operation a);
am_schema : dict_get "schema_version" d = PStr (lit KV_SCHEMA_VERSION);
am_fields : has_exact_keys (expected_fields (vm_operation a)) d = true;
am_idempotency : dict_get "idempotency_key" d = PStr (vm_idempotency_key a);
am_idempotency_safe : safe_key 127 (vm_idempotency_key a) = true;
am_key : dict_get "key" d = PStr (vm_key a);
am_key_safe : safe_key 255 (vm_key a) = true;
am_expected : expected_version (dict_get "expected_version" d) = inr (vm_expected_version a);
am_payload :
  match vm_operation a with
  | SET => ∃ e x, vm_encoding a = Some e ∧ vm_value_bytes a = Some x ∧
      decoded_set_value (dict_get "content_type" d) (dict_get "encoding" d) (dict_get "value" d) = inr (e, x) ∧
      vm_value_sha256 a = Some (sha256_hex x) ∧ vm_decoded_bytes a = Z.of_nat (length x) ∧
      vm_request a = PDict (common_fields (vm_idempotency_key a) SET (vm_key a) (vm_expected_version a)
                              ++ set_fields e (dict_get "value" d))
  | DELETE => vm_encoding a = None ∧ vm_value_bytes a = None ∧ vm_value_sha256 a = None ∧
      vm_decoded_bytes a = 0 ∧
      vm_request a = PDict (common_fields (vm_idempotency_key a) DELETE (vm_key a) (vm_expected_version a))
  end;
am_digest : ∃ eb, json_bytes (vm_request a) = Some eb ∧ Z.of_nat (length eb) ≤ MAX_KV_ENVELOPE_BYTES ∧
  vm_request_digest a = sha256_hex eb }.

Lemma finish_inv request ik op key ex p a : finish_mutation request ik op key ex p = inr a →
∃ eb, json_bytes (PDict request) = Some eb ∧ Z.of_nat (length eb) ≤ MAX_KV_ENVELOPE_BYTES ∧
  a = MkKVMutation (PDict request) ik (sha256_hex eb) op key ex (fst <$> p) (sha256_hex ∘ snd <$> p)
        (default 0 (Z.of_nat ∘ length ∘ snd <$> p)) (snd <$> p).
Proof.
unfold finish_mutation, canonical_json_bytes, ensure, pfail, mbind, sum_bind. intros Hf.
repeat (case_match; simplify_eq; try done). breflect. by eexists.
Qed.

Lemma kv_validate_inv value a : validate_kv_mutation value = inr a → ∃ d, value = PDict d ∧ accepted_mutation d a.
Proof.
destruct value as [| | | | | |d|]; try done. unfold validate_kv_mutation, mbind, sum_bind. intros Hv.
exists d. split; [done|]. revert Hv.
destruct (operation_of (dict_get "operation" d)) as [|op] eqn:Eop; [done|]. unfold ensure at 1 2, pfail.
destruct (has_exact_keys (expected_fields op) d) eqn:Ef; [|done].
destruct (bool_decide (dict_get "schema_version" d = PStr (lit KV_SCHEMA_VERSION))) eqn:Es; [|done].
apply bool_decide_eq_true in Es. cbv beta iota.
destruct (dict_get "idempotency_key" d) as [| | | |ik| | |] eqn:Ei; try done.
destruct (safe_key 127 ik) eqn:Hik; [|done].
destruct (dict_get "key" d) as [| | | |k| | |] eqn:Ek; try done. destruct (safe_key 255 k) eqn:Hk; [|done].
destruct (expected_version (dict_get "expected_version" d)) as [|ex] eqn:Ee; [done|].
destruct op.
- destruct (decoded_set_value _ _ _) as [|[e x]] eqn:Ed; [done|]. intros (eb & Hj & Hl & ->)%finish_inv.
  constructor; try done; [|by exists eb]. by exists e, x.
- intros (eb & Hj & Hl & ->)%finish_inv. constructor; try done. by exists eb.
Qed.

Lemma content_encoding_type e : content_encoding (lit (content_type_of e)) = Some e.
Proof. by destruct e. Qed.
Lemma content_encoding_inv t e : content_encoding t = Some e → t = lit (content_type_of e).
Proof. unfold content_encoding. repeat case_bool_decide; congruence. Qed.
Lemma encoding_text_inj e e' : PStr (lit (encoding_text e)) = PStr (lit (encoding_text e')) → e = e'.
Proof. destruct e, e'; vm_compute; congruence. Qed.

Lemma decoded_inv t enc v e x : decoded_set_value t enc v = inr (e, x) →
t = PStr (lit (content_type_of e)) ∧ enc = PStr (lit (encoding_text e)) ∧ value_bytes e v = inr x ∧
Z.of_nat (length x) ≤ MAX_VALUE_BYTES.
Proof.
unfold decoded_set_value, mbind, sum_bind, ensure, pfail. intros Hd.
destruct t as [| | | |t| | |]; try done. destruct (content_encoding t) eqn:Et; [|done].
repeat (case_match; simplify_eq; try done). breflect. apply content_encoding_inv in Et as ->. done.
Qed.

(** The stored bytes are a faithful image of the value: they depend on its canonical
  form only, determine it, and read back as it. *)
Lemma value_bytes_canon e v w x : wf_json v → wf_json w → value_bytes e v = inr x → value_bytes e w = inr x →
canon v = canon w.
Proof.
intros Hv Hw. unfold value_bytes, canonical_json_bytes, pfail. destruct e.
- destruct (kv_json_check v 0), (kv_json_check w 0); try done.
  destruct (json_bytes v) eqn:E; [|done]. destruct (json_bytes w) eqn:E'; [|done]. intros [= ->] [= ->].
  by eapply json_bytes_inj.
- destruct v, w; try done. destruct (utf8_encode s) eqn:E; [|done]. destruct (utf8_encode s0) eqn:E'; [|done].
  intros [= ->] [= ->]. simpl. f_equal. by eapply utf8_encode_inj.
- destruct v, w; try done. repeat (case_match; try done). breflect. intros [= ->] [= ->]. simpl. congruence.
Qed.

Lemma value_bytes_same e v w x y : value_bytes e v = inr x → value_bytes e w = inr y → canon v = canon w → x = y.
Proof.
unfold value_bytes, canonical_json_bytes, json_bytes, json_dumps, pfail. destruct e.
- intros Hv Hw Heq. rewrite Heq in Hv. repeat (case_match; simplify_eq; try done).
- destruct v, w; try done. intros Hv Hw [= ->]. congruence.
- destruct v, w; try done. intros Hv Hw [= ->]. congruence.
Qed.

Lemma value_read_back e v x : wf_json v → value_bytes e v = inr x → decode_value e x = Some (canon v).
Proof.
intros Hw. unfold value_bytes, canonical_json_bytes, decode_value, pfail. destruct e.
- destruct (kv_json_check v 0); [done|]. destruct (json_bytes v) eqn:E; [|done]. intros [= <-].
  by apply json_bytes_roundtrip.
- destruct v; try done. destruct (utf8_encode s) eqn:E; [|done]. intros [= <-].
  by rewrite (utf8_decode_encode _ _ E).
- destruct v; try done. repeat (case_match; try done). breflect. intros [= <-]. simpl. congruence.
Qed.

Lemma canon_opt_version o : canon (opt_version o) = opt_version o.
Proof. by destruct o. Qed.
Lemma opt_version_inj o o' : opt_version o = opt_version o' → o = o'.
Proof. destruct o, o'; simpl; congruence. Qed.
Lemma operation_text_inj o o' : PStr (lit (operation_text o)) = PStr (lit (operation_text o')) → o = o'.
Proof. destruct o, o'; vm_compute; congruence. Qed.

Lemma field_encoding ik op k ex e v ik' op' k' ex' e' v' :
canon <$> dict_find (lit "encoding") (common_fields ik op k ex ++ set_fields e v) =
canon <$> dict_find (lit "encoding") (common_fields ik' op' k' ex' ++ set_fields e' v') → e = e'.
Proof.
intros E. apply encoding_text_inj.
change (Some (PStr (lit (encoding_text e))) = Some (PStr (lit (encoding_text e')))) in E. by apply (inj Some) in E.
Qed.

(** The fields of a normalised request, and what they say about it. *)
Definition fields_of a : list (pykey * pyval) :=
common_fields (vm_idempotency_key a) (vm_operation a) (vm_key a) (vm_expected_version a)
++ match vm_encoding a with Some e => set_fields e (vm_value a) | None => [] end.

Lemma accepted_request d a : accepted_mutation d a → vm_request a = PDict (fields_of a) ∧ NoDup (fields_of a).*1 ∧
match vm_operation a with
| SET => ∃ e x, vm_encoding a = Some e ∧ vm_value_bytes a = Some x ∧ vm_value a = dict_get "value" d ∧
    value_bytes e (vm_value a) = inr x
| DELETE => vm_encoding a = None ∧ vm_value_bytes a = None
end.
Proof.
intros Ha. pose proof (am_payload _ _ Ha) as Hp. unfold fields_of, vm_value. destruct (vm_operation a).
- destruct Hp as (e & x & He & Hx & (_ & _ & Hb & _)%decoded_inv & _ & _ & ->). rewrite He.
  assert (Hv : dict_get "value" (common_fields (vm_idempotency_key a) SET (vm_key a) (vm_expected_version a)
    ++ set_fields e (dict_get "value" d)) = dict_get "value" d) by reflexivity.
  rewrite Hv. split; [done|]. split; [apply NoDup_set_keys|]. by exists e, x.
- destruct Hp as (-> & -> & _ & _ & ->). split; [done|]. split; [apply NoDup_common_keys|done].
Qed.

Lemma wf_request d a : wf_json (PDict d) → accepted_mutation d a → wf_json (vm_request a) ∧ wf_json (vm_value a).
Proof.
intros Hw Ha. destruct (accepted_request _ _ Ha) as (Hr & Hnd & Hp).
assert (Hv : wf_json (vm_value a)).
{ destruct (vm_operation a); [destruct Hp as (e & x & _ & _ & -> & _); by apply wf_dict_get|].
  unfold vm_value. rewrite Hr. unfold fields_of. destruct Hp as [-> _]. rewrite app_nil_r.
  change (dict_get "value" _) with PNone. done. }
split; [|done]. rewrite Hr. apply wf_dict. split; [done|]. unfold fields_of, common_fields, set_fields.
destruct (vm_encoding a), (vm_expected_version a); repeat (apply Forall_cons; split; [done|]); constructor.
Qed.

Lemma canon_request d d' a b : wf_json (PDict d) → wf_json (PDict d') →
accepted_mutation d a → accepted_mutation d' b →
canon (vm_request a) = canon (vm_request b) ↔
vm_idempotency_key a = vm_idempotency_key b ∧ vm_operation a = vm_operation b ∧ vm_key a = vm_key b ∧
vm_expected_version a = vm_expected_version b ∧ vm_encoding a = vm_encoding b ∧
vm_value_bytes a = vm_value_bytes b.
Proof.
intros Hw Hw' Ha Hb. destruct (wf_request _ _ Hw Ha) as [_ Hva], (wf_request _ _ Hw' Hb) as [_ Hvb].
destruct (accepted_request _ _ Ha) as (Hra & Hna & Hpa), (accepted_request _ _ Hb) as (Hrb & Hnb & Hpb).
rewrite Hra, Hrb. split.
- intros Hc. pose proof (λ k, canon_dict_find _ _ (lit k) Hna Hnb Hc) as Hk.
  assert (vm_idempotency_key a = vm_idempotency_key b) as Ei.
  { assert (Some (PStr (vm_idempotency_key a)) = Some (PStr (vm_idempotency_key b))) by exact (Hk "idempotency_key"%string).
    congruence. }
  assert (vm_key a = vm_key b) as Ek.
  { assert (Some (PStr (vm_key a)) = Some (PStr (vm_key b))) by exact (Hk "key"%string). congruence. }
  assert (vm_operation a = vm_operation b) as Eo.
  { apply operation_text_inj. pose proof (Hk "operation"%string) as E. cbn in E. by apply (inj Some) in E. }
  assert (vm_expected_version a = vm_expected_version b) as Ee.
  { apply opt_version_inj. pose proof (Hk "expected_version"%string) as E.
    change (Some (canon (opt_version (vm_expected_version a))) = Some (canon (opt_version (vm_expected_version b)))) in E.
    rewrite !canon_opt_version in E. by apply (inj Some) in E. }
  split_and!; [done..| |]; rewrite <- Eo in Hpb; destruct (vm_operation a).
  + destruct Hpa as (e & x & Hea & _), Hpb as (e' & x' & Heb & _). rewrite Hea, Heb. f_equal.
    pose proof (Hk "encoding"%string) as E. unfold fields_of in E. rewrite Hea, Heb in E. by apply field_encoding in E.
  + destruct Hpa as [-> _], Hpb as [-> _]. done.
  + destruct Hpa as (e & x & Hea & -> & _ & Hxa), Hpb as (e' & x' & Heb & -> & _ & Hxb).
    pose proof (Hk "encoding"%string) as E. pose proof (Hk "value"%string) as V.
    unfold fields_of in E, V. rewrite Hea, Heb in E, V.
    apply field_encoding in E as <-. f_equal.
    apply (value_bytes_same e _ _ _ _ Hxa Hxb).
    change (Some (canon (vm_value a)) = Some (canon (vm_value b))) in V. by apply (inj Some) in V.
  + destruct Hpa as [_ ->], Hpb as [_ ->]. done.
- intros (Ei & Eo & Ek & Ee & Ec & Ex). unfold fields_of. rewrite Ei, Eo, Ek, Ee, Ec, !canon_dict. do 2 f_equal.
  rewrite !fmap_app. f_equal. rewrite <- Eo in Hpb. destruct (vm_operation a).
  + destruct Hpa as (e & x & Hea & Hxa' & _ & Hxa), Hpb as (e' & x' & Heb & Hxb' & _ & Hxb). rewrite Heb.
    assert (e = e') as <- by congruence. assert (x = x') as <- by congruence. unfold set_fields. cbn.
    by rewrite (value_bytes_canon e _ _ _ Hva Hvb Hxa Hxb).
  + by destruct Hpb as [-> _].
Qed.

Lemma expected_version_opt v o : expected_version v = inr o → v = opt_version o ∧ expected_version (opt_version o) = inr o.
Proof.
unfold expected_version, pfail. destruct v; try done; [by intros [= <-]|].
destruct (_ && _) eqn:E; [|done]. intros [= <-]. simpl. by rewrite E.
Qed.

Lemma operation_of_text op : operation_of (PStr (lit (operation_text op))) = inr op.
Proof. by destruct op. Qed.

(** The request digest identifies a key-value mutation: for two accepted requests whose
  encodings SHA-256 tells apart, the digests agree exactly when idempotency key,
  operation, key, expected version, encoding and the stored bytes agree.  So a retry is
  recognised, however its object keys were ordered, and an idempotency key reused for
  another mutation is detected. *)
Theorem kv_digests_identify v w a b (Hv : wf_json v) (Hw : wf_json w)
  (Ha : validate_kv_mutation v = inr a) (Hb : validate_kv_mutation w = inr b)
  (Hsep : ∀ x y, json_bytes (vm_request a) = Some x → json_bytes (vm_request b) = Some y → separates x y) :
vm_request_digest a = vm_request_digest b ↔
vm_idempotency_key a = vm_idempotency_key b ∧ vm_operation a = vm_operation b ∧ vm_key a = vm_key b ∧
vm_expected_version a = vm_expected_version b ∧ vm_encoding a = vm_encoding b ∧
vm_value_bytes a = vm_value_bytes b.
Proof.
apply kv_validate_inv in Ha as (d & -> & Ha). apply kv_validate_inv in Hb as (d' & -> & Hb).
destruct (am_digest _ _ Ha) as (x & Ex & _ & ->), (am_digest _ _ Hb) as (y & Ey & _ & ->).
rewrite (json_bytes_iff _ _ _ _ (proj1 (wf_request _ _ Hv Ha)) (proj1 (wf_request _ _ Hw Hb)) Ex Ey (Hsep _ _ Ex Ey)).
exact (canon_request _ _ a b Hv Hw Ha Hb).
Qed.

(** What a mutation stores is what was sent: the bytes of an accepted value are within
  the size limit, and reading them back under the accepted encoding gives the value,
  its object keys sorted. *)
Theorem kv_value_roundtrip v a e x (Hv : wf_json v) (Ha : validate_kv_mutation v = inr a)
  (He : vm_encoding a = Some e) (Hx : vm_value_bytes a = Some x) :
∃ d, v = PDict d ∧ decode_value e x = Some (canon (dict_get "value" d)) ∧
vm_decoded_bytes a = Z.of_nat (length x) ∧ Z.of_nat (length x) ≤ MAX_VALUE_BYTES ∧
vm_value_sha256 a = Some (sha256_hex x).
Proof.
apply kv_validate_inv in Ha as (d & -> & Ha). exists d. split; [done|].
pose proof (am_payload _ _ Ha) as Hp. destruct (vm_operation a); [|by destruct Hp as [? _]; simplify_eq].
destruct Hp as (e' & x' & He' & Hx' & (_ & _ & Hb & Hl)%decoded_inv & Hs & Hn & _). simplify_eq.
split_and!; [|done..]. apply value_read_back; [by apply wf_dict_get|done].
Qed.

(** Validating the fields of a normalised request. *)
Lemma validate_common ik op k ex rest :
has_exact_keys (expected_fields op) (common_fields ik op k ex ++ rest) = true →
safe_key 127 ik = true → safe_key 255 k = true → expected_version (opt_version ex) = inr ex →
validate_kv_mutation (PDict (common_fields ik op k ex ++ rest)) =
match op with
| SET =>
    p ← decoded_set_value (dict_get "content_type" rest) (dict_get "encoding" rest) (dict_get "value" rest);
    finish_mutation (common_fields ik op k ex ++ set_fields p.1 (dict_get "value" rest)) ik op k ex (Some p)
| DELETE => finish_mutation (common_fields ik op k ex) ik op k ex None
end.
Proof.
intros Hf Hi Hk Hex. unfold validate_kv_mutation.
change (dict_get "operation" _) with (PStr (lit (operation_text op))).
rewrite operation_of_text. cbn [mbind sum_bind]. unfold ensure. rewrite Hf. cbn [mbind sum_bind].
change (dict_get "schema_version" _) with (PStr (lit KV_SCHEMA_VERSION)). rewrite bool_decide_eq_true_2 by done.
change (dict_get "idempotency_key" _) with (PStr ik). change (dict_get "key" _) with (PStr k).
cbn [mbind sum_bind]. rewrite Hi. cbn [mbind sum_bind]. rewrite Hk. cbn [mbind sum_bind].
change (dict_get "expected_version" _) with (opt_version ex). rewrite Hex. cbn [mbind sum_bind].
change (dict_get "content_type" (_ ++ _)) with (dict_get "content_type" rest).
change (dict_get "encoding" (_ ++ _)) with (dict_get "encoding" rest).
by change (dict_get "value" (_ ++ _)) with (dict_get "value" rest).
Qed.

(** A normalised request is accepted again, with the same outcome: the worker route
  validates twice. *)
Lemma kv_revalidates v a : validate_kv_mutation v = inr a → validate_kv_mutation (vm_request a) = inr a.
Proof.
intros (d & -> & Ha)%kv_validate_inv. destruct (am_digest _ _ Ha) as (eb & Ej & Hl & Hd).
pose proof (am_payload _ _ Ha) as Hp. destruct (expected_version_opt _ _ (am_expected _ _ Ha)) as [_ Hex].
pose proof (am_idempotency_safe _ _ Ha) as Hi. pose proof (am_key_safe _ _ Ha) as Hk.
destruct a as [rq ik dg op k ex en sh n bs].
cbn [vm_request vm_idempotency_key vm_request_digest vm_operation vm_key vm_expected_version vm_encoding
  vm_value_sha256 vm_decoded_bytes vm_value_bytes] in *. destruct op.
- destruct Hp as (e & x & -> & -> & Hdec & -> & -> & ->).
  apply decoded_inv in Hdec as (_ & _ & Hb & Hlen). rewrite validate_common by done.
  set (val := dict_get "value" d) in *. change (dict_get "content_type" _) with (PStr (lit (content_type_of e))).
  change (dict_get "encoding" _) with (PStr (lit (encoding_text e))).
  change (dict_get "value" (set_fields e val)) with val.
  unfold decoded_set_value, ensure. rewrite content_encoding_type. cbn [mbind sum_bind].
  rewrite bool_decide_eq_true_2 by done. cbn [mbind sum_bind]. rewrite Hb. cbn [mbind sum_bind].
  rewrite (proj2 (Z.leb_le _ _) Hlen). cbn [mbind sum_bind fst]. unfold finish_mutation, canonical_json_bytes, ensure.
  rewrite Ej. cbn [mbind sum_bind]. rewrite (proj2 (Z.leb_le _ _) Hl). by rewrite Hd.
- destruct Hp as (-> & -> & -> & -> & ->).
  rewrite <- (app_nil_r (common_fields ik DELETE k ex)). rewrite validate_common by done.
  unfold finish_mutation, canonical_json_bytes, ensure. rewrite Ej. cbn [mbind sum_bind].
  rewrite (proj2 (Z.leb_le _ _) Hl). rewrite app_nil_r. by rewrite Hd.
Qed.
End accepted.

(** ** Witnesses *)

Module KvConcrete.
#[local] Instance plain_digest : Sha256 := λ b, b.
#[local] Instance no_floats : PyFloats := λ r, FFin r.

Definition sample (idem key : string) (value : pyval) : pyval :=
PDict [(KStr (lit "value"), value); (KStr (lit "schema_version"), PStr (lit KV_SCHEMA_VERSION));
       (KStr (lit "idempotency_key"), PStr (lit idem)); (KStr (lit "operation"), PStr (lit "set"));
       (KStr (lit "key"), PStr (lit key)); (KStr (lit "expected_version"), PNone);
       (KStr (lit "content_type"), PStr (lit "application/json")); (KStr (lit "encoding"), PStr (lit "json"))].
Definition value1 : pyval := PDict [(KStr (lit "b"), PInt 1); (KStr (lit "a"), PNone)].
Definition value2 : pyval := PDict [(KStr (lit "a"), PNone); (KStr (lit "b"), PInt 1)].
Definition accepted (v : pyval) : ValidatedKVMutation :=
match validate_kv_mutation v with
| inr a => a
| inl _ => MkKVMutation PNone [] [] DELETE [] None None None 0 None
end.

Lemma wf_sample_value i k v : wf_json v → wf_json (sample i k v).
Proof.
intros. apply wf_dict. split; [apply (bool_decide_unpack _); vm_compute; exact I|].
repeat (apply Forall_cons; split; [done|]). constructor.
Qed.

Lemma wf_values : wf_json value1 ∧ wf_json value2.
Proof. split; (split; [apply (bool_decide_unpack (NoDup _)); vm_compute; exact I|done]). Qed.

Lemma kv_digests_identify_witness :
vm_request_digest (accepted (sample "k1" "a" value1)) = vm_request_digest (accepted (sample "k1" "a" value2)) ∧
vm_request_digest (accepted (sample "k1" "a" value1)) ≠ vm_request_digest (accepted (sample "k1" "b" value1)).
Proof.
split.
- apply (kv_digests_identify (sample "k1" "a" value1) (sample "k1" "a" value2));
    [apply wf_sample_value, wf_values..|vm_compute; reflexivity|vm_compute; reflexivity| |vm_compute; repeat split].
  intros x y _ _ Heq. exact Heq.
- intros Heq. apply (kv_digests_identify (sample "k1" "a" value1) (sample "k1" "b" value1)) in Heq;
    [|apply wf_sample_value, wf_values..|vm_compute; reflexivity|vm_compute; reflexivity|intros x y _ _ E; exact E].
  destruct Heq as (_ & _ & Hk & _). vm_compute in Hk. discriminate Hk.
Defined.

Lemma kv_value_roundtrip_witness :
∃ x, vm_value_bytes (accepted (sample "k1" "a" value1)) = Some x ∧ decode_value EJson x = Some value2.
Proof.
eexists. split; [vm_compute; reflexivity|].
destruct (kv_value_roundtrip (sample "k1" "a" value1) (accepted (sample "k1" "a" value1)) EJson
            (lit "{" ++ print_str (lit "a") ++ lit ":null," ++ print_str (lit "b") ++ lit ":1}"))
  as (d & Hd & Hr & _).
- apply wf_sample_value, wf_values.
- vm_compute. reflexivity.
- vm_compute. reflexivity.
- vm_compute. reflexivity.
- injection Hd as <-. exact Hr.
Defined.

(** A text value with a lone surrogate is not refused but raises. *)
Example surrogate_value_raises :
value_bytes EUtf8 (PStr [55296%N]) = inl UnicodeEncodeError.
Proof. reflexivity. Qed.
End KvConcrete.
