(* ===== verification/KeyValueStore.v ===== *)
(** Key-value stores: the tables KeyValueStore, KeyValueRecord,
    KeyValueRecordVersion and KeyValueMutationReceipt of src/apps/api/app/models.py,
    the operations of services/key_value_stores.py with the object storage they write
    values to, and the worker routes of services/worker_key_value_store.py.

    [created_at] and [updated_at] columns are left out except the one stores are listed
    by.  The store object a route loads before it takes the lock is an argument of the
    mutation: the locking SELECT gives that object back as it was loaded. *)

From S2P Require Import Prelude PyVal Json PyUuid Base64 QueueProtocol Pagination KvProtocol.

(** ** Tables *)

Inductive kv_scope := PROJECT | RUN.
#[export] Instance kv_scope_eq_dec : EqDecision kv_scope.
Proof. solve_decision. Defined.

Record KeyValueStore := MkStore {
  st_organization_id : uuid;
  st_project_id : uuid;
  st_scope : kv_scope;
  st_run_id : option uuid;
  st_agent_id : option uuid;
  st_agent_version_id : option uuid;
  st_name : pystr;
  st_record_count : Z;
  st_total_bytes : Z;
  st_created_by_user_id : uuid;
  st_version : Z;
  st_created_at : time }.
#[export] Instance eta_store : Eta KeyValueStore := λ r,
  MkStore (st_organization_id r) (st_project_id r) (st_scope r) (st_run_id r) (st_agent_id r)
    (st_agent_version_id r) (st_name r) (st_record_count r) (st_total_bytes r)
    (st_created_by_user_id r) (st_version r) (st_created_at r).

Record KeyValueRecord := MkRecord {
  kr_organization_id : uuid;
  kr_project_id : uuid;
  kr_store_id : uuid;
  kr_key : pystr;
  kr_current_version : Z;
  kr_deleted : bool;
  kr_current_size_bytes : Z;
  kr_created_by_user_id : uuid;
  kr_version : Z }.
#[export] Instance eta_record : Eta KeyValueRecord := λ r,
  MkRecord (kr_organization_id r) (kr_project_id r) (kr_store_id r) (kr_key r) (kr_current_version r)
    (kr_deleted r) (kr_current_size_bytes r) (kr_created_by_user_id r) (kr_version r).

Record KeyValueRecordVersion := MkVersion {
  rv_organization_id : uuid;
  rv_project_id : uuid;
  rv_store_id : uuid;
  rv_record_id : uuid;
  rv_version : Z;
  rv_operation : kv_operation;
  rv_tombstone : bool;
  rv_content_type : option string;
  rv_encoding : option kv_encoding;
  rv_object_key : option pystr;
  rv_value_sha256 : option pystr;
  rv_size_bytes : Z;
  rv_created_by_user_id : uuid }.

Record KeyValueMutationReceipt := MkKvReceipt {
  kx_organization_id : uuid;
  kx_project_id : uuid;
  kx_store_id : uuid;
  kx_record_id : uuid;
  kx_record_version_id : uuid;
  kx_idempotency_key : pystr;
  kx_request_digest : pystr;
  kx_operation : kv_operation;
  kx_key : pystr;
  kx_expected_version : option Z;
  kx_result_version : Z;
  kx_value_sha256 : option pystr;
  kx_size_bytes : Z;
  kx_created_by_user_id : uuid }.

(** The tables and the bucket of the object storage. *)
Record db := MkDb {
  stores : gmap uuid KeyValueStore;
  records : gmap uuid KeyValueRecord;
  versions : gmap uuid KeyValueRecordVersion;
  receipts : gmap uuid KeyValueMutationReceipt;
  objects : gmap pystr (list N);
  audits : list audit_event;
  rng : N }.
#[export] Instance eta_db : Eta db := λ s,
  MkDb (stores s) (records s) (versions s) (receipts s) (objects s) (audits s) (rng s).
#[export] Instance db_audit : HasAudit db := {|
  audit_log := audits;
  audit_push e s := s <| audits ::= λ l, l ++ [e] |>;
  audit_push_log e s := eq_refl |}.

Record KeyValueMutationOutcome := MkKvOutcome {
  ko_receipt_id : uuid; ko_receipt : KeyValueMutationReceipt; ko_replayed : bool }.

Definition MAX_KV_RECORDS : Z := 10000.
Definition MAX_KV_STORE_BYTES : Z := 268435456.

(** Requests to the object storage can fail: [storage_fault n] tells how the [n]-th
    request ends, if not normally, and whether it took effect all the same.  A
    [StorageBackendError] is reported with its code; other errors of the client library
    pass through. *)
Inductive storage_error := BackendError (code : string) | ClientFailure (reason : string).
Definition storage_exn (e : storage_error) : exn :=
  match e with BackendError code => ApiError 503 code | ClientFailure reason => RuntimeError reason end.
Class ObjectStorage := storage_fault : N → option (storage_error * bool).

Section ops.
Context `{Entropy, Sha256, PyFloats, ObjectStorage}.
Abbreviation M := (Prelude.M db).

Definition fresh_uuid : M uuid := λ s, (inr (uuid4 (rng s)), s <| rng ::= N.succ |>).

(** ** Object storage (core/s3_storage.py) *)

Definition storage_request (effect : M ()) : M () :=
n ← gets rng; modify (λ s, s <| rng ::= N.succ |>) ;;
match storage_fault n with
| Some (e, applied) => (if applied : bool then effect else mret ()) ;; raise (storage_exn e)
| None => effect
end.
Definition write_object (key : pystr) (content : list N) (digest : pystr) : M () :=
storage_request (raise_if (negb (bool_decide (sha256_hex content = digest)))
                   (ApiError 503 "STORAGE_DIGEST_MISMATCH") ;;
                 modify (λ s, s <| objects ::= <[key := content]> |>)).
(** With the [suppress(StorageBackendError)] of the callers. *)
Definition delete_object (key : pystr) : M () :=
try_catch (storage_request (modify (λ s, s <| objects ::= delete key |>)))
  (λ e, match e with ApiError _ _ => mret () | e => raise e end).
Definition read_object (key : pystr) (max_bytes : Z) : M (list N) :=
storage_request (mret ()) ;;
row ← gets (λ s, objects s !! key);
raw ← get_or_raise row (ApiError 503 "STORAGE_UNAVAILABLE");
raise_if (max_bytes <? Z.of_nat (length raw)) (ApiError 503 "STORAGE_OBJECT_TOO_LARGE") ;;
mret raw.

(** ** Stores *)

Definition same_name (scope : kv_scope) (project_id : uuid) (run_id : option uuid) (name : pystr)
  (_ : uuid) (st : KeyValueStore) : bool :=
bool_decide (st_scope st = scope) && bool_decide (st_name st = name)
&& match scope with
   | PROJECT => bool_decide (st_project_id st = project_id)
   | RUN => bool_decide (st_run_id st = run_id)
   end.
Definition ensure_store_name_available (scope : kv_scope) (project_id : uuid) (run_id : option uuid)
  (name : pystr) : M () :=
taken ← gets (λ s, exists_row (same_name scope project_id run_id name) (stores s));
raise_if taken (ApiError 409 "KEY_VALUE_STORE_ALREADY_EXISTS").

Definition insert_store (st : KeyValueStore) : M uuid :=
id ← fresh_uuid;
taken ← gets (λ s, stores s !! id);
raise_if (bool_decide (is_Some taken)) (IntegrityError "key_value_stores_pkey") ;;
modify (λ s, s <| stores ::= <[id := st]> |>) ;;
mret id.

Definition create_project_key_value_store (organization_id project_id user_id : uuid) (actor_type : string)
  (actor_id : pystr) (request_id : string) (name : pystr) (now : time) : M uuid :=
ensure_store_name_available PROJECT project_id None name ;;
id ← insert_store (MkStore organization_id project_id PROJECT None None None name 0 0 user_id 1 now);
append_audit_event (MkAudit (Some organization_id) (Some project_id) actor_type actor_id "kv_store.created"
  "key_value_store" (Some id) request_id [("scope"%string, DStr "PROJECT"); ("name"%string, DText name)]) ;;
mret id.

(** The run a store belongs to, as far as the store records it. *)
Record run_scope := MkRunScope {
  rs_organization_id : uuid; rs_project_id : uuid; rs_run_id : uuid; rs_agent_id : uuid;
  rs_agent_version_id : uuid; rs_requested_by_user_id : uuid }.

Definition create_run_key_value_store (run : run_scope) (user_id : uuid) (actor_type : string)
  (actor_id : pystr) (request_id : string) (name : pystr) (now : time) : M uuid :=
ensure_store_name_available RUN (rs_project_id run) (Some (rs_run_id run)) name ;;
id ← insert_store (MkStore (rs_organization_id run) (rs_project_id run) RUN (Some (rs_run_id run))
  (Some (rs_agent_id run)) (Some (rs_agent_version_id run)) name 0 0 user_id 1 now);
append_audit_event (MkAudit (Some (rs_organization_id run)) (Some (rs_project_id run)) actor_type actor_id
  "kv_store.created" "key_value_store" (Some id) request_id
  [("scope"%string, DStr "RUN"); ("run_id"%string, DUuid (rs_run_id run));
   ("agent_id"%string, DUuid (rs_agent_id run)); ("agent_version_id"%string, DUuid (rs_agent_version_id run));
   ("name"%string, DText name)]) ;;
mret id.

(** ** Mutations *)

Definition version_conflict : exn := ApiError 409 "KV_VERSION_CONFLICT".

(** [current] is the version of the record, if there is one. *)
Definition enforce_expected_version (expected current : option Z) : bool :=
match expected with
| None => true
| Some 0 => bool_decide (current = None)
| Some v => bool_decide (current = Some v)
end.

Definition uuid_hex (u : uuid) : pystr := to_hex 32 u.
Definition server_object_key (organization_id store_id record_id version_id : uuid) : pystr :=
lit "kv/" ++ uuid_hex organization_id ++ lit "/" ++ uuid_hex store_id ++ lit "/" ++ uuid_hex record_id
++ lit "/" ++ uuid_hex version_id.
Arguments server_object_key : simpl never.

Definition record_of (sid : uuid) (key : pystr) (_ : uuid) (r : KeyValueRecord) : bool :=
bool_decide (kr_store_id r = sid) && bool_decide (kr_key r = key).
Definition receipt_of (sid : uuid) (key : pystr) (_ : uuid) (x : KeyValueMutationReceipt) : bool :=
bool_decide (kx_store_id x = sid) && bool_decide (kx_idempotency_key x = key).

(** The row and size counters the store will have. *)
Definition projected_usage (st : KeyValueStore) (current : option KeyValueRecord) (v : ValidatedKVMutation)
  : exn + Z * Z :=
match vm_operation v with
| SET =>
    let live := match current with Some r => negb (kr_deleted r) | None => false end in
    let previous := match current with Some r => if kr_deleted r then 0 else kr_current_size_bytes r | None => 0 end in
    let count := if live : bool then st_record_count st else st_record_count st + 1 in
    let bytes := st_total_bytes st - previous + vm_decoded_bytes v in
    if MAX_KV_RECORDS <? count then inl (ApiError 413 "KV_RECORD_QUOTA_EXCEEDED")
    else if MAX_KV_STORE_BYTES <? bytes then inl (ApiError 413 "KV_BYTE_QUOTA_EXCEEDED")
    else inr (count, bytes)
| DELETE =>
    match current with
    | Some r => inr (st_record_count st - 1, st_total_bytes st - kr_current_size_bytes r)
    | None => inl (RuntimeError "DELETE mutation lost its locked record.")
    end
end.


(** The UPDATE of a flush, from the object [st] as it was loaded. *)
Definition used_row (st : KeyValueStore) (usage : Z * Z) (row : KeyValueStore) : KeyValueStore :=
row <| st_record_count := written (st_record_count st) usage.1 (st_record_count row) |>
    <| st_total_bytes := written (st_total_bytes st) usage.2 (st_total_bytes row) |>
    <| st_version := st_version st + 1 |>.
Definition update_usage (sid : uuid) (st : KeyValueStore) (usage : Z * Z) : M () :=
row ← gets (λ s, stores s !! sid);
row ← get_or_raise row (RuntimeError "StaleDataError");
let row' := used_row st usage row in
raise_if (negb ((0 <=? st_record_count row') && (st_record_count row' <=? MAX_KV_RECORDS)))
  (IntegrityError "ck_key_value_stores_record_quota") ;;
raise_if (negb ((0 <=? st_total_bytes row') && (st_total_bytes row' <=? MAX_KV_STORE_BYTES)))
  (IntegrityError "ck_key_value_stores_byte_quota") ;;
modify (λ s, s <| stores ::= <[sid := row']> |>).

Definition put_record (rid : uuid) (current : option KeyValueRecord) (r : KeyValueRecord) : M () :=
s ← gets (λ s, s);
raise_if (bool_decide (current = None) && bool_decide (is_Some (records s !! rid)))
  (IntegrityError "key_value_records_pkey") ;;
modify (λ s, s <| records ::= <[rid := r]> |>).
Definition insert_version (vid : uuid) (v : KeyValueRecordVersion) : M () :=
s ← gets (λ s, s);
raise_if (bool_decide (is_Some (versions s !! vid))) (IntegrityError "key_value_record_versions_pkey") ;;
raise_if (exists_row (λ _ v', bool_decide (rv_record_id v' = rv_record_id v) && (rv_version v' =? rv_version v))
            (versions s)) (IntegrityError "uq_key_value_record_versions_record_version") ;;
raise_if (exists_row (λ _ v', bool_decide (rv_object_key v ≠ None) && bool_decide (rv_object_key v' = rv_object_key v))
            (versions s)) (IntegrityError "uq_key_value_record_versions_object_key") ;;
modify (λ s, s <| versions ::= <[vid := v]> |>).
Definition insert_receipt (x : KeyValueMutationReceipt) : M uuid :=
id ← fresh_uuid;
s ← gets (λ s, s);
raise_if (bool_decide (is_Some (receipts s !! id))) (IntegrityError "key_value_mutation_receipts_pkey") ;;
raise_if (exists_row (λ _ x', bool_decide (kx_record_version_id x' = kx_record_version_id x)) (receipts s))
  (IntegrityError "uq_key_value_mutation_receipts_record_version") ;;
modify (λ s, s <| receipts ::= <[id := x]> |>) ;;
mret id.

Definition opt_text (o : option pystr) : detail := match o with Some t => DText t | None => DNone end.

(** The rows of a new version. *)
Definition next_version (current : option KeyValueRecord) : Z :=
match current with Some r => kr_current_version r + 1 | None => 1 end.
Definition tombstone (v : ValidatedKVMutation) : bool := bool_decide (vm_operation v = DELETE).
Definition record_row (sid : uuid) (st : KeyValueStore) (user_id : uuid) (v : ValidatedKVMutation)
  (current : option KeyValueRecord) : KeyValueRecord :=
match current with
| None => MkRecord (st_organization_id st) (st_project_id st) sid (vm_key v) (next_version current) (tombstone v)
            (vm_decoded_bytes v) user_id 1
| Some r => r <| kr_current_version := next_version current |> <| kr_deleted := tombstone v |>
              <| kr_current_size_bytes := vm_decoded_bytes v |> <| kr_version ::= Z.succ |>
end.
Definition version_row (sid : uuid) (st : KeyValueStore) (user_id : uuid) (v : ValidatedKVMutation) (rid : uuid)
  (current : option KeyValueRecord) (object_key : option pystr) : KeyValueRecordVersion :=
MkVersion (st_organization_id st) (st_project_id st) sid rid (next_version current) (vm_operation v) (tombstone v)
  (content_type_of <$> vm_encoding v) (vm_encoding v) object_key (vm_value_sha256 v) (vm_decoded_bytes v) user_id.
Definition receipt_row (sid : uuid) (st : KeyValueStore) (user_id : uuid) (v : ValidatedKVMutation) (rid vid : uuid)
  (current : option KeyValueRecord) : KeyValueMutationReceipt :=
MkKvReceipt (st_organization_id st) (st_project_id st) sid rid vid (vm_idempotency_key v) (vm_request_digest v)
  (vm_operation v) (vm_key v) (vm_expected_version v) (next_version current) (vm_value_sha256 v)
  (vm_decoded_bytes v) user_id.

(** The [try] block after the upload. *)
Definition record_mutation (sid : uuid) (st : KeyValueStore) (user_id : uuid) (actor_type : string)
  (actor_id : pystr) (request_id : string) (v : ValidatedKVMutation) (rid vid : uuid)
  (current : option KeyValueRecord) (object_key : option pystr) (usage : Z * Z) : M KeyValueMutationOutcome :=
put_record rid current (record_row sid st user_id v current) ;;
insert_version vid (version_row sid st user_id v rid current object_key) ;;
let receipt := receipt_row sid st user_id v rid vid current in
xid ← insert_receipt receipt;
update_usage sid st usage ;;
append_audit_event (MkAudit (Some (st_organization_id st)) (Some (st_project_id st)) actor_type actor_id
  (match vm_operation v with SET => "kv_record.set" | DELETE => "kv_record.deleted" end) "key_value_record"
  (Some rid) request_id
  [("store_id"%string, DUuid sid); ("record_version_id"%string, DUuid vid);
   ("result_version"%string, DInt (next_version current)); ("request_digest"%string, DText (vm_request_digest v));
   ("value_sha256"%string, opt_text (vm_value_sha256 v)); ("size_bytes"%string, DInt (vm_decoded_bytes v))]) ;;
mret (MkKvOutcome xid receipt false).

(** The write of a new version: its identifiers, the upload, the rows; an uploaded
  object is removed again when the rows are refused. *)
Definition write_version (sid : uuid) (st : KeyValueStore) (user_id : uuid) (actor_type : string)
  (actor_id : pystr) (request_id : string) (v : ValidatedKVMutation)
  (current : option (uuid * KeyValueRecord)) : M KeyValueMutationOutcome :=
rid ← match current with Some (rid, _) => mret rid | None => fresh_uuid end;
vid ← fresh_uuid;
match vm_operation v with
| SET =>
    content ← get_or_raise (vm_value_bytes v) (RuntimeError "Validated SET mutation is missing value lineage.");
    usage ← lift (projected_usage st (snd <$> current) v);
    let object_key := server_object_key (st_organization_id st) sid rid vid in
    write_object object_key content (default [] (vm_value_sha256 v)) ;;
    try_catch
      (record_mutation sid st user_id actor_type actor_id request_id v rid vid (snd <$> current)
         (Some object_key) usage)
      (λ e, delete_object object_key ;; raise e)
| DELETE =>
    usage ← lift (projected_usage st (snd <$> current) v);
    record_mutation sid st user_id actor_type actor_id request_id v rid vid (snd <$> current) None usage
end.

(** [obj] is the store object the caller loaded. *)
Definition mutate_key_value_record (sid : uuid) (obj : KeyValueStore) (user_id : uuid) (actor_type : string)
  (actor_id : pystr) (request_id : string) (payload : pyval) (required_operation : kv_operation)
  : M KeyValueMutationOutcome :=
v ← match validate_kv_mutation payload with
    | inr v => mret v
    | inl (ValueError _) => raise (ApiError 422 "KV_MUTATION_INVALID")
    | inl e => raise e
    end;
raise_if (negb (bool_decide (vm_operation v = required_operation))) (ApiError 422 "KV_OPERATION_MISMATCH") ;;
row ← gets (λ s, stores s !! sid);
raise_if (negb match row with
               | Some st => bool_decide (st_organization_id st = st_organization_id obj)
                            && bool_decide (st_project_id st = st_project_id obj)
               | None => false
               end) not_found ;;
existing ← gets (λ s, head (select (receipt_of sid (vm_idempotency_key v)) (receipts s)));
match existing with
| Some (xid, x) =>
    raise_if (negb (bool_decide (kx_request_digest x = vm_request_digest v)))
      (ApiError 409 "KV_IDEMPOTENCY_CONFLICT") ;;
    mret (MkKvOutcome xid x true)
| None =>
    current ← gets (λ s, head (select (record_of sid (vm_key v)) (records s)));
    raise_if (negb (enforce_expected_version (vm_expected_version v) (kr_current_version ∘ snd <$> current)))
      version_conflict ;;
    match vm_operation v, current with
    | DELETE, None => raise (ApiError 404 "KV_RECORD_NOT_FOUND")
    | DELETE, Some (_, r) => raise_if (kr_deleted r) (ApiError 409 "KV_RECORD_ALREADY_DELETED")
    | SET, _ => mret ()
    end ;;
    write_version sid obj user_id actor_type actor_id request_id v current
end.

(** ** Reads *)

Record KeyValueRecordSummary := MkKvSummary {
  ks_key : pystr; ks_version : Z; ks_content_type : string; ks_encoding : kv_encoding;
  ks_value_sha256 : pystr; ks_size_bytes : Z; ks_value : pyval }.

Definition live_record (sid : uuid) (key : pystr) (rid : uuid) (r : KeyValueRecord) : bool :=
record_of sid key rid r && negb (kr_deleted r).
Definition get_key_value_record (sid : uuid) (key : pystr) : M (uuid * KeyValueRecord) :=
row ← gets (λ s, head (select (live_record sid key) (records s)));
get_or_raise row (ApiError 404 "KV_RECORD_NOT_FOUND").

Definition current_version_of (rid : uuid) (r : KeyValueRecord) (_ : uuid) (v : KeyValueRecordVersion) : bool :=
bool_decide (rv_record_id v = rid) && (rv_version v =? kr_current_version r) && negb (rv_tombstone v).

(** The columns of a version that holds a value. *)
Definition value_lineage (v : KeyValueRecordVersion) : option (pystr * string * kv_encoding * pystr) :=
match rv_object_key v, rv_content_type v, rv_encoding v, rv_value_sha256 v with
| Some k, Some t, Some e, Some d => Some (k, t, e, d)
| _, _, _, _ => None
end.

Definition key_value_record_summary (rid : uuid) (r : KeyValueRecord) : M KeyValueRecordSummary :=
row ← gets (λ s, head (select (current_version_of rid r) (versions s)));
'(v, (object_key, content_type, encoding, digest)) ←
  get_or_raise (x ← row; l ← value_lineage x.2; Some (x.2, l)) (ApiError 500 "KV_STORAGE_LINEAGE_INVALID");
raw ← read_object object_key (rv_size_bytes v);
raise_if (negb (Z.of_nat (length raw) =? rv_size_bytes v) || negb (bool_decide (sha256_hex raw = digest)))
  (ApiError 500 "KV_STORAGE_INTEGRITY_FAILED") ;;
value ← get_or_raise (decode_value encoding raw) (ApiError 500 "KV_STORAGE_DECODE_FAILED");
mret (MkKvSummary (kr_key r) (kr_current_version r) content_type encoding digest (rv_size_bytes v) value).

(** ** The routes (api/routes/key_value_stores.py) *)

(** The permission dependency loads the store. *)
Definition load_store (sid : uuid) : M KeyValueStore :=
row ← gets (λ s, stores s !! sid); get_or_raise row not_found.

Definition set_key_value_record_route (sid user_id : uuid) (actor_type : string) (actor_id : pystr)
  (request_id : string) (payload : pyval) : M KeyValueMutationOutcome :=
obj ← load_store sid;
mutate_key_value_record sid obj user_id actor_type actor_id request_id payload SET.
Definition delete_key_value_record_route (sid user_id : uuid) (actor_type : string) (actor_id : pystr)
  (request_id : string) (payload : pyval) : M KeyValueMutationOutcome :=
obj ← load_store sid;
mutate_key_value_record sid obj user_id actor_type actor_id request_id payload DELETE.
Definition get_key_value_record_route (sid : uuid) (key : pystr) : M KeyValueRecordSummary :=
load_store sid ;;
'(rid, r) ← get_key_value_record sid key;
key_value_record_summary rid r.
End ops.
