(* ===== verification/KeyValueSpec.v ===== *)
(** Correctness of key-value stores (KeyValueStore.v): the tables and the object storage
    implement, per store, a map with compare-and-set versions and idempotent mutations
    ([kv_map]), whatever the storage does and however stale the store objects of
    overlapping requests are; the usage counters of a store are exact when requests on
    it do not overlap. *)

From S2P Require Import Prelude PyVal Json PyUuid Base64 QueueProtocol Pagination KvProtocol.
From S2P Require Import KeyValueStore.

(** ** The abstract map *)

(** A key that was ever set has a version and a content, [None] once deleted. *)
Record cell := MkCell { c_version : Z; c_content : option (kv_encoding * list N) }.
(** The cells, and the digest and resulting version of every accepted mutation. *)
Record kv_map := MkKvMap { km_cells : gmap pystr cell; km_log : gmap pystr (pystr * Z) }.
#[export] Instance kv_map_inhabited : Inhabited kv_map := populate (MkKvMap ∅ ∅).

Definition content_sent (v : ValidatedKVMutation) : option (kv_encoding * list N) :=
  e ← vm_encoding v; x ← vm_value_bytes v; Some (e, x).

Definition idempotency_conflict : exn := ApiError 409 "KV_IDEMPOTENCY_CONFLICT".
Definition record_not_found : exn := ApiError 404 "KV_RECORD_NOT_FOUND".
Definition already_deleted : exn := ApiError 409 "KV_RECORD_ALREADY_DELETED".

(** A precondition is the version the key must have, 0 for a key that was never set. *)
Definition precondition (expected : option Z) (current : option cell) : bool :=
  match expected with None => true | Some n => n =? default 0 (c_version <$> current) end.

(** Compare-and-set: the new version, whether it was a replay, and the map. *)
Definition map_mutate (v : ValidatedKVMutation) (m : kv_map) : exn + (Z * bool * kv_map) :=
  match km_log m !! vm_idempotency_key v with
  | Some (digest, n) =>
      if bool_decide (digest = vm_request_digest v) then inr (n, true, m) else inl idempotency_conflict
  | None =>
      let current := km_cells m !! vm_key v in
      if negb (precondition (vm_expected_version v) current) then inl version_conflict
      else
        match vm_operation v, current with
        | DELETE, None => inl record_not_found
        | DELETE, Some (MkCell _ None) => inl already_deleted
        | _, _ =>
            let n := default 0 (c_version <$> current) + 1 in
            inr (n, false,
                 MkKvMap (<[vm_key v := MkCell n (content_sent v)]> (km_cells m))
                   (<[vm_idempotency_key v := (vm_request_digest v, n)]> (km_log m)))
        end
  end.

Definition map_read (key : pystr) (m : kv_map) : option (Z * kv_encoding * list N) :=
  c ← km_cells m !! key; x ← c_content c; Some (c_version c, x.1, x.2).

Section spec.
Context `{Entropy, Sha256, PyFloats, ObjectStorage}.
Implicit Types (s : db) (v : ValidatedKVMutation) (m : kv_map).

(** ** What the tables hold *)

Definition content_of s (x : KeyValueRecordVersion) : option (kv_encoding * list N) :=
match rv_encoding x, rv_object_key x with Some e, Some k => pair e <$> objects s !! k | _, _ => None end.

Definition holds s (sid : uuid) (key : pystr) (c : cell) : Prop := ∃ rid r vid x,
records s !! rid = Some r ∧ kr_store_id r = sid ∧ kr_key r = key ∧
versions s !! vid = Some x ∧ rv_record_id x = rid ∧ rv_version x = kr_current_version r ∧
c = MkCell (kr_current_version r) (content_of s x).

Definition logged s (sid : uuid) (key : pystr) (digest : pystr) (n : Z) : Prop := ∃ xid x,
receipts s !! xid = Some x ∧ kx_store_id x = sid ∧ kx_idempotency_key x = key ∧
digest = kx_request_digest x ∧ n = kx_result_version x.

Record implements s (sid : uuid) m : Prop := {
im_cells : ∀ key c, km_cells m !! key = Some c ↔ holds s sid key c;
im_log : ∀ key d n, km_log m !! key = Some (d, n) ↔ logged s sid key d n }.

(** ** Invariant *)

(** The check constraint on versions, and the object of a value: under its own key, of
  the recorded size and digest, decodable. *)
Record version_ok s (vid : uuid) (x : KeyValueRecordVersion) : Prop := {
vo_shape : match rv_operation x with
  | SET => rv_tombstone x = false ∧ ∃ e raw value,
      rv_encoding x = Some e ∧ rv_content_type x = Some (content_type_of e) ∧
      rv_object_key x = Some (server_object_key (rv_organization_id x) (rv_store_id x) (rv_record_id x) vid) ∧
      objects s !! server_object_key (rv_organization_id x) (rv_store_id x) (rv_record_id x) vid = Some raw ∧
      rv_value_sha256 x = Some (sha256_hex raw) ∧ rv_size_bytes x = Z.of_nat (length raw) ∧
      decode_value e raw = Some value
  | DELETE => rv_tombstone x = true ∧ rv_encoding x = None ∧ rv_content_type x = None ∧
      rv_object_key x = None ∧ rv_value_sha256 x = None ∧ rv_size_bytes x = 0
  end;
vo_drawn : ∃ n, (n < rng s)%N ∧ vid = uuid4 n }.

Record kv_inv s : Prop := {
ki_key : ∀ i j r r', records s !! i = Some r → records s !! j = Some r' →
  kr_store_id r = kr_store_id r' → kr_key r = kr_key r' → i = j;
ki_record : ∀ rid r, records s !! rid = Some r →
  1 ≤ kr_current_version r ∧ is_Some (stores s !! kr_store_id r) ∧
  ∀ n, 1 ≤ n ≤ kr_current_version r → ∃ vid x, versions s !! vid = Some x ∧ rv_record_id x = rid ∧ rv_version x = n;
ki_version : ∀ vid x, versions s !! vid = Some x → version_ok s vid x ∧ ∃ r,
  records s !! rv_record_id x = Some r ∧ rv_store_id x = kr_store_id r ∧
  1 ≤ rv_version x ≤ kr_current_version r ∧
  (rv_version x = kr_current_version r →
     rv_tombstone x = kr_deleted r ∧ rv_size_bytes x = kr_current_size_bytes r);
ki_unique : ∀ i j x y, versions s !! i = Some x → versions s !! j = Some y →
  rv_record_id x = rv_record_id y → rv_version x = rv_version y → i = j;
ki_receipt : ∀ xid x, receipts s !! xid = Some x → ∃ y r,
  versions s !! kx_record_version_id x = Some y ∧ rv_record_id y = kx_record_id x ∧
  rv_version y = kx_result_version x ∧ rv_operation y = kx_operation x ∧
  rv_value_sha256 y = kx_value_sha256 x ∧ rv_size_bytes y = kx_size_bytes x ∧
  records s !! kx_record_id x = Some r ∧ kr_key r = kx_key x ∧ kr_store_id r = kx_store_id x;
ki_receipt_key : ∀ i j x y, receipts s !! i = Some x → receipts s !! j = Some y →
  kx_store_id x = kx_store_id y → kx_idempotency_key x = kx_idempotency_key y → i = j;
ki_drawn : (∀ i, is_Some (records s !! i) → ∃ n, (n < rng s)%N ∧ i = uuid4 n) ∧
  (∀ i, is_Some (receipts s !! i) → ∃ n, (n < rng s)%N ∧ i = uuid4 n) ∧
  (∀ i, is_Some (stores s !! i) → ∃ n, (n < rng s)%N ∧ i = uuid4 n) }.

(** ** Object keys *)

Context `{!UniqueUuids}.

Lemma uuid_hex_inj u u' : (u < 2 ^ 128)%N → (u' < 2 ^ 128)%N → uuid_hex u = uuid_hex u' → u = u'.
Proof.
intros Hu Hu' Heq. pose proof (hex_run_to_hex 31 u Hu) as E. pose proof (hex_run_to_hex 31 u' Hu') as E'.
unfold uuid_hex in Heq. rewrite Heq in E. congruence.
Qed.

(** Object keys tell versions apart. *)
Lemma object_key_version o st r n o' st' r' n' : (n < draw_limit)%N → (n' < draw_limit)%N →
server_object_key o st r (uuid4 n) = server_object_key o' st' r' (uuid4 n') → n = n'.
Proof.
intros Hn Hn'. unfold server_object_key. rewrite !app_assoc. intros [_ E]%app_inj_2; [|by unfold uuid_hex; rewrite !length_to_hex].
apply uuid4_fresh; [done..|]. apply uuid_hex_inj; [by apply uuid4_width..|done].
Qed.

(** ** What survives a rollback *)

(** Identifiers drawn stay drawn, and the objects of versions below [n0] stay as they are,
  whatever the outcome. *)
Definition kept (n0 n1 : N) s s' : Prop := (n0 ≤ n1)%N → (n1 ≤ rng s)%N → (rng s ≤ rng s')%N ∧
((rng s' ≤ draw_limit)%N → ∀ n o st r, (n < n0)%N →
  objects s' !! server_object_key o st r (uuid4 n) = objects s !! server_object_key o st r (uuid4 n)).

#[local] Instance kept_preorder n0 n1 : PreOrder (kept n0 n1).
Proof.
split.
- intros s. done.
- intros s1 s2 s3 H12 H23 Hle Hn. destruct (H12 Hle Hn) as [Hn2 E12]. destruct (H23 Hle) as [Hn3 E23]; [lia|].
  split; [lia|]. intros. rewrite E23, E12; try done; lia.
Qed.

Lemma kept_modify n0 n1 (f : db → db) :
(∀ s, rng (f s) = rng s ∧ objects (f s) = objects s) → frames (kept n0 n1) (modify f).
Proof. intros Hf. apply frames_modify. intros s Hle Hn. cbn. destruct (Hf s) as [-> ->]. done. Qed.
Lemma kept_fresh n0 n1 : frames (kept n0 n1) fresh_uuid.
Proof. intros s Hle Hn. cbn. split; [lia|done]. Qed.
(** What runs after a draw may count on the identifier drawn. *)
Lemma kept_fresh_bind {A} n0 n1 (k : uuid → Prelude.M db A) :
(∀ n, (n0 ≤ n)%N → frames (kept n0 (N.succ n)) (k (uuid4 n))) → frames (kept n0 n1) (fresh_uuid ≫= k).
Proof.
intros Hk s Hle Hn. unfold mbind, M_bind, fresh_uuid.
destruct (Hk (rng s) ltac:(lia) (s <| rng ::= N.succ |>)) as [Hr Ho]; [lia|cbn; lia|]. cbn in Hr. split; [lia|exact Ho].
Qed.
Lemma kept_append n0 n1 e : frames (kept n0 n1) (append_audit_event (St:=db) e).
Proof. by apply kept_modify. Qed.

Ltac kept_step :=
lazymatch goal with
| |- frames ?R (mret _) => apply (frames_ret R)
| |- frames ?R (raise _) => apply (frames_raise R)
| |- frames ?R (gets _) => apply (frames_gets R)
| |- frames ?R (raise_if _ _) => apply (frames_raise_if R)
| |- frames ?R (get_or_raise _ _) => apply (frames_get_or_raise R)
| |- frames ?R fresh_uuid => apply kept_fresh
| |- frames ?R (append_audit_event _) => apply kept_append
| |- frames ?R (modify _) => apply kept_modify; done
| |- frames _ (fresh_uuid ≫= _) => apply kept_fresh_bind; intros ? ?
| |- frames ?R (_ ≫= _) => apply (frames_bind R); [|intros ?]
| |- frames ?R (match ?x with _ => _ end) => destruct x
end.
Ltac kept_steps := repeat (cbv zeta beta; kept_step).

Lemma kept_storage n0 n1 (m : Prelude.M db ()) : frames (kept n0 n1) m → frames (kept n0 n1) (storage_request m).
Proof.
intros Hm. unfold storage_request. apply (frames_bind (kept n0 n1)); [apply (frames_gets (kept n0 n1))|]. intros n. apply (frames_bind (kept n0 n1)).
- apply (frames_modify (kept n0 n1)). intros s Hle Hn. cbn. split; [lia|done].
- intros _. destruct (storage_fault n) as [[e []]|]; kept_steps; done.
Qed.
Lemma kept_objects (n0 n1 n : N) (o st r : uuid) (f : gmap pystr (list N) → gmap pystr (list N)) : (n0 ≤ n < n1)%N →
(∀ (ob : gmap pystr (list N)) k, k ≠ server_object_key o st r (uuid4 n) → f ob !! k = ob !! k) →
frames (kept n0 n1) (modify (λ s, s <| objects ::= f |>)).
Proof.
intros Hn Hf. apply (frames_modify (kept n0 n1)). intros s Hle Hs. cbn. split; [done|]. intros Hlim n' o' st' r' Hlt. apply Hf.
intros ?%object_key_version; lia.
Qed.
Lemma kept_write n0 n1 n o st r content digest : (n0 ≤ n < n1)%N →
frames (kept n0 n1) (write_object (server_object_key o st r (uuid4 n)) content digest).
Proof.
intros Hn. apply kept_storage, (frames_bind (kept n0 n1)); [apply (frames_raise_if (kept n0 n1))|]. intros _. apply (kept_objects _ _ n o st r); [done|].
intros. by rewrite lookup_insert_ne.
Qed.
Lemma kept_delete n0 n1 n o st r : (n0 ≤ n < n1)%N → frames (kept n0 n1) (delete_object (server_object_key o st r (uuid4 n))).
Proof.
intros Hn. apply (frames_try_catch (kept n0 n1)); [|intros []; kept_steps]. apply kept_storage, (kept_objects _ _ n o st r); [done|].
intros. by rewrite lookup_delete_ne.
Qed.

Lemma kept_mutate n0 n1 sid obj user at_ aid rq payload op :
frames (kept n0 n1) (mutate_key_value_record sid obj user at_ aid rq payload op).
Proof.
assert (Hrec : ∀ n1 v rid vid current ok usage,
  frames (kept n0 n1) (record_mutation sid obj user at_ aid rq v rid vid current ok usage)).
{ intros. unfold record_mutation, put_record, insert_version, insert_receipt, update_usage. kept_steps. }
unfold mutate_key_value_record. kept_steps; unfold write_version; kept_steps; try apply Hrec;
  try (unfold lift; kept_steps); try (apply kept_write; lia).
all: apply frames_try_catch; [apply _|apply Hrec|intros e; kept_steps; apply kept_delete; lia].
Qed.

Lemma kept_create_project n0 n1 o p user at_ aid rq name now :
frames (kept n0 n1) (create_project_key_value_store o p user at_ aid rq name now).
Proof. unfold create_project_key_value_store, ensure_store_name_available, insert_store. kept_steps. Qed.
Lemma kept_create_run n0 n1 run user at_ aid rq name now :
frames (kept n0 n1) (create_run_key_value_store run user at_ aid rq name now).
Proof. unfold create_run_key_value_store, ensure_store_name_available, insert_store. kept_steps. Qed.
Lemma kept_get n0 n1 sid key : frames (kept n0 n1) (get_key_value_record_route sid key).
Proof.
unfold get_key_value_record_route, load_store, get_key_value_record, key_value_record_summary, read_object.
kept_steps; apply kept_storage, (frames_ret (kept n0 n1)).
Qed.

(** ** The effect of an accepted mutation *)

(** An identifier drawn between [s] and [s']. *)
Definition drawn s s' (i : uuid) : Prop := ∃ n, (rng s ≤ n < rng s')%N ∧ i = uuid4 n.

Definition object_of (sid : uuid) (obj : KeyValueStore) (rid vid : uuid) v : option pystr :=
match vm_operation v with
| SET => Some (server_object_key (st_organization_id obj) sid rid vid)
| DELETE => None
end.

Record written s (sid : uuid) (obj : KeyValueStore) (user : uuid) v (current : option (uuid * KeyValueRecord))
  (o : KeyValueMutationOutcome) s' (rid vid xid : uuid) (usage : Z * Z) (row : KeyValueStore) : Prop := {
wr_rng : (rng s ≤ rng s' ≤ rng s + 4)%N;
wr_rid : match current with Some (i, _) => rid = i | None => drawn s s' rid ∧ records s !! rid = None end;
wr_vid : drawn s s' vid; wr_xid : drawn s s' xid; wr_vid_new : versions s !! vid = None;
wr_xid_new : receipts s !! xid = None;
wr_outcome : o = MkKvOutcome xid (receipt_row sid obj user v rid vid (snd <$> current)) false;
wr_records : records s' = <[rid := record_row sid obj user v (snd <$> current)]> (records s);
wr_versions : versions s' =
  <[vid := version_row sid obj user v rid (snd <$> current) (object_of sid obj rid vid v)]> (versions s);
wr_receipts : receipts s' = <[xid := receipt_row sid obj user v rid vid (snd <$> current)]> (receipts s);
wr_usage : projected_usage obj (snd <$> current) v = inr usage;
wr_row : stores s !! sid = Some row;
wr_quota : 0 ≤ st_record_count (used_row obj usage row) ≤ MAX_KV_RECORDS ∧
  0 ≤ st_total_bytes (used_row obj usage row) ≤ MAX_KV_STORE_BYTES;
wr_stores : stores s' = <[sid := used_row obj usage row]> (stores s);
wr_objects : objects s' = match vm_value_bytes v with
  | Some x => <[server_object_key (st_organization_id obj) sid rid vid := x]> (objects s)
  | None => objects s
  end }.
#[local] Arguments wr_rng {_ _ _ _ _ _ _ _ _ _ _ _ _} _.
#[local] Arguments wr_rid {_ _ _ _ _ _ _ _ _ _ _ _ _} _.
#[local] Arguments wr_vid {_ _ _ _ _ _ _ _ _ _ _ _ _} _.
#[local] Arguments wr_xid {_ _ _ _ _ _ _ _ _ _ _ _ _} _.
#[local] Arguments wr_vid_new {_ _ _ _ _ _ _ _ _ _ _ _ _} _.
#[local] Arguments wr_xid_new {_ _ _ _ _ _ _ _ _ _ _ _ _} _.
#[local] Arguments wr_outcome {_ _ _ _ _ _ _ _ _ _ _ _ _} _.
#[local] Arguments wr_records {_ _ _ _ _ _ _ _ _ _ _ _ _} _.
#[local] Arguments wr_versions {_ _ _ _ _ _ _ _ _ _ _ _ _} _.
#[local] Arguments wr_receipts {_ _ _ _ _ _ _ _ _ _ _ _ _} _.
#[local] Arguments wr_usage {_ _ _ _ _ _ _ _ _ _ _ _ _} _.
#[local] Arguments wr_row {_ _ _ _ _ _ _ _ _ _ _ _ _} _.
#[local] Arguments wr_quota {_ _ _ _ _ _ _ _ _ _ _ _ _} _.
#[local] Arguments wr_stores {_ _ _ _ _ _ _ _ _ _ _ _ _} _.
#[local] Arguments wr_objects {_ _ _ _ _ _ _ _ _ _ _ _ _} _.

Lemma wp_storage (m : Prelude.M db ()) (Q : () → db → Prop) s :
wp m Q (s <| rng ::= N.succ |>) → wp (storage_request m) Q s.
Proof.
intros Hm. unfold storage_request. apply wp_bind, wp_gets, wp_bind, wp_modify.
destruct (storage_fault (rng s)) as [[e b]|]; [|exact Hm]. intros a s'. unfold mbind, M_bind.
by destruct ((if b then m else mret ()) _) as [[] ?].
Qed.
Lemma wp_write k content digest (Q : () → db → Prop) s :
(sha256_hex content = digest → Q () (s <| rng ::= N.succ |> <| objects ::= <[k := content]> |>)) →
wp (write_object k content digest) Q s.
Proof. intros HQ. apply wp_storage. wp_steps. breflect. apply HQ. done. Qed.

Lemma wp_draw (Q : uuid → db → Prop) s : Q (uuid4 (rng s)) (s <| rng ::= N.succ |>) → wp fresh_uuid Q s.
Proof. intros HQ a s' [= <- <-]. done. Qed.

Lemma record_mutation_written sid obj user at_ aid rq v rid vid cur ok usage s :
wp (record_mutation sid obj user at_ aid rq v rid vid cur ok usage) (λ o s', ∃ xid row,
  rng s' = N.succ (rng s) ∧ xid = uuid4 (rng s) ∧ receipts s !! xid = None ∧ versions s !! vid = None ∧
  (cur = None → records s !! rid = None) ∧
  o = MkKvOutcome xid (receipt_row sid obj user v rid vid cur) false ∧
  records s' = <[rid := record_row sid obj user v cur]> (records s) ∧
  versions s' = <[vid := version_row sid obj user v rid cur ok]> (versions s) ∧
  receipts s' = <[xid := receipt_row sid obj user v rid vid cur]> (receipts s) ∧
  stores s !! sid = Some row ∧ stores s' = <[sid := used_row obj usage row]> (stores s) ∧ objects s' = objects s ∧
  0 ≤ st_record_count (used_row obj usage row) ≤ MAX_KV_RECORDS ∧
  0 ≤ st_total_bytes (used_row obj usage row) ≤ MAX_KV_STORE_BYTES) s.
Proof.
unfold record_mutation, put_record, insert_version, insert_receipt, update_usage. wp_steps.
apply wp_draw. wp_steps. breflect. eexists _, _.
split_and!; try reflexivity; try done; try (by apply eq_None_not_Some); [|lia..].
intros ->. rewrite (bool_decide_eq_true_2 (None = None)) in * by done. cbn in *. breflect.
by apply eq_None_not_Some.
Qed.

Lemma write_version_written sid obj user at_ aid rq v current s :
(vm_operation v = DELETE → vm_value_bytes v = None) →
wp (write_version sid obj user at_ aid rq v current)
  (λ o s', ∃ rid vid xid usage row, written s sid obj user v current o s' rid vid xid usage row) s.
Proof.
intros Hdel. unfold write_version. apply wp_bind.
apply (wp_mono _ (λ rid s1, records s1 = records s ∧ versions s1 = versions s ∧ receipts s1 = receipts s ∧
  stores s1 = stores s ∧ objects s1 = objects s ∧ (rng s ≤ rng s1 ≤ rng s + 1)%N ∧
  match current with Some (i, _) => rid = i | None => rid = uuid4 (rng s) ∧ (rng s < rng s1)%N end)).
2:{ destruct current as [[i r]|]; [apply wp_ret; split_and!; try done; lia|]. apply wp_draw. cbn. split_and!; try done; lia. }
intros rid s1 (Er & Ev & Ex & Es & Eo & Hn & Hrid). apply wp_bind, wp_draw. cbv beta.
assert (Hfin : ∀ s2 ok usage o s', records s2 = records s → versions s2 = versions s → receipts s2 = receipts s →
  stores s2 = stores s → (rng s1 < rng s2 ≤ rng s1 + 2)%N → ok = object_of sid obj rid (uuid4 (rng s1)) v →
  objects s2 = match vm_value_bytes v with
    | Some x => <[server_object_key (st_organization_id obj) sid rid (uuid4 (rng s1)) := x]> (objects s)
    | None => objects s end →
  projected_usage obj (snd <$> current) v = inr usage →
  record_mutation sid obj user at_ aid rq v rid (uuid4 (rng s1)) (snd <$> current) ok usage s2 = (inr o, s') →
  ∃ rid vid xid usage row, written s sid obj user v current o s' rid vid xid usage row).
{ intros s2 ok usage o s' Er2 Ev2 Ex2 Es2 Hn2 -> Eo2 Hu Hrun.
  apply record_mutation_written in Hrun as (xid & row & Erng & -> & Hx & Hv & Hr & -> & Er' & Ev' & Ex' & Hrow & Es' & Eo' & Hq).
  rewrite Er2, Ev2, Ex2, Es2 in *.
  exists rid, (uuid4 (rng s1)), (uuid4 (rng s2)), usage, row. constructor; try done.
  - lia.
  - destruct current as [[i r]|]; [done|]. destruct Hrid as [-> ?]. split; [|by apply Hr].
    eexists. split; [|done]. lia.
  - eexists. split; [|done]. lia.
  - eexists. split; [|done]. lia.
  - by rewrite Eo'. }
destruct (vm_operation v) eqn:Eop.
- unfold lift. wp_steps. apply wp_write. intros _. intros o s' Hrun.
  unfold try_catch in Hrun.
  destruct (record_mutation _ _ _ _ _ _ _ _ _ _ _ _ _) as [[e|o'] s3] eqn:Er3 in Hrun.
  + exfalso. revert Hrun. unfold mbind, M_bind. destruct (delete_object _ _) as [[] ?]; done.
  + injection Hrun as -> ->. eapply Hfin in Er3; [exact Er3|cbn; try done..].
    * lia.
    * unfold object_of. by rewrite Eop.
    * case_match; congruence.
- unfold lift. wp_steps. intros o s' Hrun. eapply Hfin in Hrun; [exact Hrun|cbn; try done..].
  + lia.
  + unfold object_of. by rewrite Eop.
  + by rewrite Hdel.
Qed.
(** What validation promises of a mutation. *)
Definition sound_mutation v : Prop :=
match vm_operation v with
| SET => ∃ e x value, vm_encoding v = Some e ∧ vm_value_bytes v = Some x ∧ vm_value_sha256 v = Some (sha256_hex x) ∧
    vm_decoded_bytes v = Z.of_nat (length x) ∧ decode_value e x = Some value
| DELETE => vm_encoding v = None ∧ vm_value_bytes v = None ∧ vm_value_sha256 v = None ∧ vm_decoded_bytes v = 0
end.
Lemma validated_sound payload v : wf_json payload → validate_kv_mutation payload = inr v → sound_mutation v.
Proof.
intros Hw (d & -> & Ha)%kv_validate_inv. pose proof (am_payload _ _ Ha) as Hp. unfold sound_mutation.
destruct (vm_operation v).
- destruct Hp as (e & x & ? & ? & (_ & _ & Hb & _)%decoded_inv & ? & ? & _).
  exists e, x, (canon (dict_get "value" d)). split_and!; try done. apply value_read_back; [by apply wf_dict_get|done].
- by destruct Hp as (? & ? & ? & ? & _).
Qed.

(** The checks before a write. *)
Record accepting s (sid : uuid) v (current : option (uuid * KeyValueRecord)) : Prop := {
ac_new : head (select (receipt_of sid (vm_idempotency_key v)) (receipts s)) = None;
ac_current : head (select (record_of sid (vm_key v)) (records s)) = current;
ac_expected : enforce_expected_version (vm_expected_version v) (kr_current_version ∘ snd <$> current) = true;
ac_delete : vm_operation v = DELETE → ∃ i r, current = Some (i, r) ∧ kr_deleted r = false }.

Lemma mutate_outcome sid obj user at_ aid rq payload op s :
wp (mutate_key_value_record sid obj user at_ aid rq payload op) (λ o s', ∃ v,
  validate_kv_mutation payload = inr v ∧ vm_operation v = op ∧ is_Some (stores s !! sid) ∧
  ((∃ xid x, head (select (receipt_of sid (vm_idempotency_key v)) (receipts s)) = Some (xid, x) ∧
      kx_request_digest x = vm_request_digest v ∧ o = MkKvOutcome xid x true ∧ s' = s) ∨
   (∃ current rid vid xid usage row, accepting s sid v current ∧
      written s sid obj user v current o s' rid vid xid usage row))) s.
Proof.
unfold mutate_key_value_record. apply wp_bind.
destruct (validate_kv_mutation payload) as [[]|v] eqn:Ev; try apply wp_raise. apply wp_ret.
assert (Hdel : vm_operation v = DELETE → vm_value_bytes v = None).
{ intros Eop. apply kv_validate_inv in Ev as (d & -> & Ha). pose proof (am_payload _ _ Ha) as Hp. rewrite Eop in Hp. apply Hp. }
pose proof (λ current s, write_version_written sid obj user at_ aid rq v current s Hdel) as Hwv. clear Hdel.
wp_steps; breflect; destruct (stores s !! sid) eqn:Est; try done.
- exists v. split_and!; [done..|]. left. eauto 10.
- eapply wp_mono; [|apply Hwv]. intros o s' (rid & vid & xid & usage & row & Hw). exists v.
  split_and!; [done|congruence|done|]. right. do 6 eexists. split; [|exact Hw]. constructor; congruence.
- eapply wp_mono; [|apply Hwv]. intros o s' (rid & vid & xid & usage & row & Hw). exists v.
  split_and!; [done|congruence|done|]. right. do 6 eexists. split; [|exact Hw]. constructor; [done..|]. intros _. eauto.
Qed.

(** ** The invariant is kept *)

(** Facts about the row a query by key finds. *)
Lemma current_Some s sid v i r : head (select (record_of sid (vm_key v)) (records s)) = Some (i, r) →
records s !! i = Some r ∧ kr_store_id r = sid ∧ kr_key r = vm_key v.
Proof. intros (? & Hr)%head_select_Some. unfold record_of in Hr. breflect. done. Qed.
Lemma current_None s sid v : head (select (record_of sid (vm_key v)) (records s)) = None →
∀ i r, records s !! i = Some r → kr_store_id r = sid → kr_key r ≠ vm_key v.
Proof.
intros Hh i r Hi Hs Hk. pose proof (head_select_None _ _ Hh i r Hi) as Hr. unfold record_of in Hr.
rewrite !bool_decide_eq_true_2 in Hr by done. done.
Qed.
Lemma receipt_None s sid v : head (select (receipt_of sid (vm_idempotency_key v)) (receipts s)) = None →
∀ i x, receipts s !! i = Some x → kx_store_id x = sid → kx_idempotency_key x ≠ vm_idempotency_key v.
Proof.
intros Hh i r Hi Hs Hk. pose proof (head_select_None _ _ Hh i r Hi) as Hr. unfold receipt_of in Hr.
rewrite !bool_decide_eq_true_2 in Hr by done. done.
Qed.

Lemma record_row_fields sid obj user v i r s : head (select (record_of sid (vm_key v)) (records s)) = Some (i, r) →
let r' := record_row sid obj user v (Some r) in kr_store_id r' = sid ∧ kr_key r' = vm_key v.
Proof. intros (_ & <- & <-)%current_Some. done. Qed.
Lemma record_row_version sid obj user v cur : kr_current_version (record_row sid obj user v cur) = next_version cur ∧
kr_deleted (record_row sid obj user v cur) = tombstone v ∧
kr_current_size_bytes (record_row sid obj user v cur) = vm_decoded_bytes v.
Proof. by destruct cur. Qed.

(** What a transaction leaves alone. *)
Definition unharmed s s' : Prop := (rng s ≤ rng s')%N ∧ ∀ n o st r, (n < rng s)%N →
objects s' !! server_object_key o st r (uuid4 n) = objects s !! server_object_key o st r (uuid4 n).
Lemma kept_unharmed s s' : kept (rng s) (rng s) s s' → (rng s' ≤ draw_limit)%N → unharmed s s'.
Proof. intros Hk Hlim. destruct (Hk (N.le_refl _) (N.le_refl _)). split; auto. Qed.

Lemma version_ok_kept s s' i x : unharmed s s' → version_ok s i x → version_ok s' i x.
Proof.
intros [Hrng Hob] [Hs (n & Hn & ->)]. split; [|exists n; split; [lia|done]].
destruct (rv_operation x); [|done]. destruct Hs as (? & e & raw & value & ? & ? & ? & Ho & ?).
split; [done|]. exists e, raw, value. by rewrite Hob.
Qed.
Lemma content_kept s s' i x : unharmed s s' → version_ok s i x → content_of s' x = content_of s x.
Proof.
intros [Hrng Hob] [Hs (n & Hn & ->)]. unfold content_of.
destruct (rv_operation x); [|by destruct Hs as (_ & -> & _)].
destruct Hs as (_ & e & raw & value & -> & _ & -> & _). by rewrite Hob.
Qed.

Section step.
Context {s sid obj user v current o s' rid vid xid usage row} (Hinv : kv_inv s) (Hv : sound_mutation v)
  (Ha : accepting s sid v current) (Hw : written s sid obj user v current o s' rid vid xid usage row).

Notation r' := (record_row sid obj user v (snd <$> current)).
Notation x' := (version_row sid obj user v rid (snd <$> current) (object_of sid obj rid vid v)).

Lemma row_of_key : kr_store_id r' = sid ∧ kr_key r' = vm_key v.
Proof.
pose proof (ac_current _ _ _ _ Ha). destruct current as [[i r]|]; [|done]. by eapply record_row_fields.
Qed.
Lemma next_positive : 1 ≤ next_version (snd <$> current).
Proof.
pose proof (ac_current _ _ _ _ Ha) as Hc. destruct current as [[i r]|]; simpl; [|lia].
apply current_Some in Hc as (Hr & _). pose proof (ki_record _ Hinv _ _ Hr). lia.
Qed.
(** The record before the write. *)
Lemma old_record r : records s !! rid = Some r → current = Some (rid, r) ∧ kr_store_id r = sid ∧ kr_key r = vm_key v.
Proof.
intros Hr. pose proof (ac_current _ _ _ _ Ha) as Hc. pose proof (wr_rid Hw) as Hi.
destruct current as [[i r0]|]; [subst i|destruct Hi; congruence]. apply current_Some in Hc as (? & ? & ?).
by simplify_eq.
Qed.
Lemma no_record : current = None → records s !! rid = None.
Proof. intros ->. by destruct (wr_rid Hw). Qed.
(** Versions of the record written are below the next one. *)
Lemma old_versions i y : versions s !! i = Some y → rv_record_id y = rid → 1 ≤ rv_version y < next_version (snd <$> current).
Proof.
intros Hy Er. destruct (ki_version _ Hinv _ _ Hy) as (_ & r & Hr & _ & Hn & _). rewrite Er in Hr.
apply old_record in Hr as (-> & _). simpl. lia.
Qed.
Context (Hlim : (rng s' ≤ draw_limit)%N).
Lemma written_unharmed : unharmed s s'.
Proof.
split; [apply (wr_rng Hw)|]. intros n o' st' r Hn.
rewrite (wr_objects Hw). destruct (vm_value_bytes v); [|done].
destruct (wr_vid Hw) as (n' & Hn' & ->). rewrite lookup_insert_ne; [done|]. intros ?%object_key_version; lia.
Qed.
Lemma other_key j r : records s !! j = Some r → kr_store_id r = sid → kr_key r = vm_key v → j = rid.
Proof.
intros Hj Hs Hk. pose proof (ac_current _ _ _ _ Ha) as Hc. pose proof (wr_rid Hw) as Hi.
destruct current as [[i r0]|].
- subst i. apply current_Some in Hc as (Hr0 & Hs0 & Hk0). apply (ki_key _ Hinv _ _ _ _ Hj Hr0); congruence.
- by destruct (current_None _ _ _ Hc _ _ Hj Hs).
Qed.

Lemma step_key i j a b : records s' !! i = Some a → records s' !! j = Some b →
kr_store_id a = kr_store_id b → kr_key a = kr_key b → i = j.
Proof.
rewrite (wr_records Hw). destruct row_of_key as [Hs Hk].
intros [[<- <-]|[Hi Hai]]%lookup_insert_Some [[<- <-]|[Hj Hbj]]%lookup_insert_Some Es Ek; [done|..].
- symmetry. apply (other_key _ _ Hbj); congruence.
- apply (other_key _ _ Hai); congruence.
- by apply (ki_key _ Hinv _ _ _ _ Hai Hbj).
Qed.

Lemma step_record i r : records s' !! i = Some r →
1 ≤ kr_current_version r ∧ is_Some (stores s' !! kr_store_id r) ∧
∀ n, 1 ≤ n ≤ kr_current_version r → ∃ j x, versions s' !! j = Some x ∧ rv_record_id x = i ∧ rv_version x = n.
Proof.
rewrite (wr_records Hw), (wr_stores Hw),
  (wr_versions Hw). pose proof (wr_vid_new Hw) as Hnew.
assert (Hold : ∀ j x, versions s !! j = Some x → <[vid:=x']> (versions s) !! j = Some x)
  by (intros; rewrite lookup_insert_ne; [done|congruence]).
intros [[<- <-]|[Hi Hr]]%lookup_insert_Some.
- destruct (record_row_version sid obj user v (snd <$> current)) as [-> _]. destruct row_of_key as [-> _].
  split; [apply next_positive|]. split; [rewrite lookup_insert_eq; eauto|]. intros n Hn.
  destruct (decide (n = next_version (snd <$> current))) as [->|Hne].
  + exists vid. eexists. rewrite lookup_insert_eq. done.
  + pose proof (ac_current _ _ _ _ Ha) as Hc. pose proof (wr_rid Hw) as Hid.
    destruct current as [[i r]|]; simpl in *; [|lia]. subst i. apply current_Some in Hc as (Hr & _).
    destruct (ki_record _ Hinv _ _ Hr) as (_ & _ & Hall). destruct (Hall n) as (j & x & Hx & ?); [lia|]. eauto.
- destruct (ki_record _ Hinv _ _ Hr) as (? & ? & Hall). split; [done|]. split.
  + destruct (decide (kr_store_id r = sid)) as [->|]; [rewrite lookup_insert_eq; eauto|by rewrite lookup_insert_ne].
  + intros n Hn. destruct (Hall n Hn) as (j & x & ? & ?). eauto.
Qed.

Lemma new_version_ok : version_ok s' vid x'.
Proof.
destruct (wr_vid Hw) as (n & Hn & Evid). split; [|exists n; split; [lia|done]].
unfold sound_mutation in Hv. unfold version_row, object_of, tombstone. cbn. destruct (vm_operation v); cbn.
- destruct Hv as (e & raw & value & -> & Hb & -> & -> & Hd). split; [done|]. exists e, raw, value.
  rewrite (wr_objects Hw), Hb, lookup_insert_eq. done.
- destruct Hv as (-> & _ & -> & ->). done.
Qed.

Lemma step_version i x : versions s' !! i = Some x → version_ok s' i x ∧ ∃ r,
records s' !! rv_record_id x = Some r ∧ rv_store_id x = kr_store_id r ∧
1 ≤ rv_version x ≤ kr_current_version r ∧
(rv_version x = kr_current_version r → rv_tombstone x = kr_deleted r ∧ rv_size_bytes x = kr_current_size_bytes r).
Proof.
rewrite (wr_versions Hw), (wr_records Hw).
pose proof next_positive. destruct row_of_key as [Hs Hk].
destruct (record_row_version sid obj user v (snd <$> current)) as (En & Ed & Eb).
intros [[<- <-]|[Hi Hx]]%lookup_insert_Some.
- split; [apply new_version_ok|]. exists r'. rewrite lookup_insert_eq, En, Ed, Eb, Hs.
  split; [done|]. split; [done|]. split; [cbn; lia|done].
- destruct (ki_version _ Hinv _ _ Hx) as (Hok & r & Hr & Es & Hn & Hcur). split; [by apply (version_ok_kept s), Hok; apply written_unharmed|].
  destruct (decide (rv_record_id x = rid)) as [Ei|Hne].
  + pose proof (old_versions _ _ Hx Ei). rewrite Ei in *. destruct (old_record _ Hr) as (_ & Ers & _). exists r'.
    rewrite lookup_insert_eq, En, Ed, Eb, Hs. split; [done|]. split; [congruence|]. split; lia.
  + exists r. by rewrite lookup_insert_ne.
Qed.

Lemma step_unique i j x y : versions s' !! i = Some x → versions s' !! j = Some y →
rv_record_id x = rv_record_id y → rv_version x = rv_version y → i = j.
Proof.
rewrite (wr_versions Hw).
intros [[<- <-]|[Hi Hx]]%lookup_insert_Some [[<- <-]|[Hj Hy]]%lookup_insert_Some Er En; [done|..].
- pose proof (old_versions _ _ Hy (eq_sym Er)). cbn in En. lia.
- pose proof (old_versions _ _ Hx Er). cbn in En. lia.
- by apply (ki_unique _ Hinv _ _ _ _ Hx Hy).
Qed.

Lemma step_receipt i x : receipts s' !! i = Some x → ∃ y r,
versions s' !! kx_record_version_id x = Some y ∧ rv_record_id y = kx_record_id x ∧
rv_version y = kx_result_version x ∧ rv_operation y = kx_operation x ∧
rv_value_sha256 y = kx_value_sha256 x ∧ rv_size_bytes y = kx_size_bytes x ∧
records s' !! kx_record_id x = Some r ∧ kr_key r = kx_key x ∧ kr_store_id r = kx_store_id x.
Proof.
rewrite (wr_receipts Hw), (wr_versions Hw),
  (wr_records Hw). pose proof (wr_vid_new Hw).
destruct row_of_key as [Hs Hk]. intros [[<- <-]|[Hi Hx]]%lookup_insert_Some.
- exists x', r'. cbn. rewrite !lookup_insert_eq. done.
- destruct (ki_receipt _ Hinv _ _ Hx) as (y & r & Hy & ? & ? & ? & ? & ? & Hr & ? & ?). exists y.
  rewrite (lookup_insert_ne _ vid) by congruence. destruct (decide (kx_record_id x = rid)) as [Ei|Hne].
  + rewrite Ei in *. destruct (old_record _ Hr) as (_ & ? & ?). exists r'. rewrite lookup_insert_eq.
    split_and!; try done; congruence.
  + exists r. by rewrite lookup_insert_ne.
Qed.

Lemma step_receipt_key i j x y : receipts s' !! i = Some x → receipts s' !! j = Some y →
kx_store_id x = kx_store_id y → kx_idempotency_key x = kx_idempotency_key y → i = j.
Proof.
rewrite (wr_receipts Hw). pose proof (receipt_None _ _ _ (ac_new _ _ _ _ Ha)) as Hno.
intros [[<- <-]|[Hi Hx]]%lookup_insert_Some [[<- <-]|[Hj Hy]]%lookup_insert_Some Es Ek; [done|..].
- by destruct (Hno _ _ Hy (eq_sym Es)).
- by destruct (Hno _ _ Hx Es).
- by apply (ki_receipt_key _ Hinv _ _ _ _ Hx Hy).
Qed.

Lemma step_drawn : (∀ i, is_Some (records s' !! i) → ∃ n, (n < rng s')%N ∧ i = uuid4 n) ∧
(∀ i, is_Some (receipts s' !! i) → ∃ n, (n < rng s')%N ∧ i = uuid4 n) ∧
(∀ i, is_Some (stores s' !! i) → ∃ n, (n < rng s')%N ∧ i = uuid4 n).
Proof.
destruct (ki_drawn _ Hinv) as (Hr & Hx & Hs). pose proof (wr_rng Hw).
rewrite (wr_records Hw), (wr_receipts Hw),
  (wr_stores Hw).
assert (Hold : ∀ i, (∃ n, (n < rng s)%N ∧ i = uuid4 n) → ∃ n, (n < rng s')%N ∧ i = uuid4 n)
  by (intros i (n & ? & ->); exists n; split; [lia|done]).
assert (Hnew : ∀ i, drawn s s' i → ∃ n, (n < rng s')%N ∧ i = uuid4 n)
  by (intros i (n & ? & ->); exists n; split; [lia|done]).
split_and!; intros i [a [[<- _]|[_ Ha']]%lookup_insert_Some]; try (apply Hold; by eauto).
- pose proof (wr_rid Hw) as Hid. pose proof (ac_current _ _ _ _ Ha) as Hc.
  destruct current as [[i r]|]; [|apply Hnew, (proj1 Hid)]. subst i. apply current_Some in Hc as [? _]. apply Hold, Hr. eauto.
- apply Hnew, (wr_xid Hw).
- apply Hold, Hs. rewrite (wr_row Hw). eauto.
Qed.

Lemma written_inv : kv_inv s'.
Proof.
constructor; [exact step_key|exact step_record|exact step_version|exact step_unique|exact step_receipt
  |exact step_receipt_key|exact step_drawn].
Qed.
End step.

(** A rolled back transaction leaves its objects and the identifiers it drew. *)
Definition rollback s s' : db := s <| objects := objects s' |> <| rng := rng s' |>.

(** Stores come and rows stay. *)
Record only_stores s s' : Prop := {
os_records : records s' = records s; os_versions : versions s' = versions s; os_receipts : receipts s' = receipts s;
os_kept : (rng s' ≤ draw_limit)%N → unharmed s s';
os_rng : (rng s ≤ rng s')%N;
os_stores : ∀ i, is_Some (stores s !! i) → is_Some (stores s' !! i);
os_drawn : ∀ i, is_Some (stores s' !! i) → is_Some (stores s !! i) ∨ ∃ n, (n < rng s')%N ∧ i = uuid4 n }.

Lemma only_stores_inv s s' : only_stores s s' → (rng s' ≤ draw_limit)%N → kv_inv s → kv_inv s'.
Proof.
intros [Er Ev Ex Hk Hrng Hs Hd] Hlim Hinv. specialize (Hk Hlim).
constructor; rewrite ?Er, ?Ev, ?Ex; try apply Hinv.
- intros i r Hr. destruct (ki_record _ Hinv _ _ Hr) as (? & ? & ?). auto.
- intros i x Hx. destruct (ki_version _ Hinv _ _ Hx) as [Hok Hr]. split; [by apply (version_ok_kept s)|done].
- destruct (ki_drawn _ Hinv) as (Hr & Hx & Hst).
  assert (Hold : ∀ i, (∃ n, (n < rng s)%N ∧ i = uuid4 n) → ∃ n, (n < rng s')%N ∧ i = uuid4 n)
    by (intros i (n & ? & ->); exists n; split; [lia|done]).
  split_and!; intros i Hi; auto. destruct (Hd i Hi); auto.
Qed.

Lemma rollback_only_stores s s' : kept (rng s) (rng s) s s' → only_stores s (rollback s s').
Proof. intros Hk. destruct (Hk (N.le_refl _) (N.le_refl _)). constructor; try done; cbn; auto. intros ?. split; auto. Qed.

Definition with_store (id : uuid) (st : KeyValueStore) s : db :=
s <| rng ::= N.succ |> <| stores ::= <[id := st]> |>.
Lemma wp_insert_store st (Q : uuid → db → Prop) s :
(stores s !! uuid4 (rng s) = None → Q (uuid4 (rng s)) (with_store (uuid4 (rng s)) st s)) → wp (insert_store st) Q s.
Proof.
intros HQ. unfold insert_store. wp_steps. apply wp_draw. wp_steps. breflect. apply HQ. by apply eq_None_not_Some.
Qed.

Lemma with_store_only st s : only_stores s (with_store (uuid4 (rng s)) st s).
Proof.
constructor; try done; cbn; [|lia|..].
- intros _. split; [cbn; lia|done].
- intros i [x Hi]. destruct (decide (i = uuid4 (rng s))) as [->|]; [rewrite lookup_insert_eq|rewrite lookup_insert_ne]; eauto.
- intros i [x [[<- _]|[_ Hi]]%lookup_insert_Some]; [|eauto]. right. exists (rng s). split; [lia|done].
Qed.

(** ** The tables implement the map *)

Lemma holds_current s sid key c i r : kv_inv s → head (select (record_of sid key) (records s)) = Some (i, r) →
holds s sid key c ↔ ∃ vid x, versions s !! vid = Some x ∧ rv_record_id x = i ∧ rv_version x = kr_current_version r ∧
  c = MkCell (kr_current_version r) (content_of s x).
Proof.
intros Hinv (Hr & Hk)%head_select_Some. unfold record_of in Hk. breflect. split.
- intros (i' & r0 & vid & x & Hr0 & Es & Ek & Hx & Ei & En & ->).
  assert (i' = i) as -> by (apply (ki_key _ Hinv _ _ _ _ Hr0 Hr); congruence). simplify_eq. eauto 10.
- intros (vid & x & ? & ? & ? & ->). exists i, r, vid, x. done.
Qed.

(** The current version of a record. *)
Lemma current_version s i r : kv_inv s → records s !! i = Some r → ∃ vid x,
versions s !! vid = Some x ∧ rv_record_id x = i ∧ rv_version x = kr_current_version r ∧ version_ok s vid x ∧
rv_tombstone x = kr_deleted r ∧ rv_size_bytes x = kr_current_size_bytes r ∧ rv_store_id x = kr_store_id r.
Proof.
intros Hinv Hr. destruct (ki_record _ Hinv _ _ Hr) as (Hpos & _ & Hall).
destruct (Hall (kr_current_version r)) as (vid & x & Hx & Ei & En); [lia|].
destruct (ki_version _ Hinv _ _ Hx) as (Hok & r0 & Hr0 & Es & _ & Hcur). rewrite Ei in Hr0. simplify_eq.
destruct (Hcur En). eauto 10.
Qed.

Lemma content_tombstone s i x : version_ok s i x → content_of s x = None ↔ rv_tombstone x = true.
Proof.
intros [Hs _]. unfold content_of. destruct (rv_operation x).
- destruct Hs as (-> & e & raw & value & -> & _ & -> & -> & _). done.
- destruct Hs as (-> & -> & _). done.
Qed.

Lemma cell_of s sid m key : kv_inv s → implements s sid m →
match head (select (record_of sid key) (records s)) with
| None => km_cells m !! key = None
| Some (i, r) => ∃ vid x, versions s !! vid = Some x ∧ rv_record_id x = i ∧ rv_version x = kr_current_version r ∧
    km_cells m !! key = Some (MkCell (kr_current_version r) (content_of s x)) ∧
    (content_of s x = None ↔ kr_deleted r = true)
end.
Proof.
intros Hinv Him. destruct (head (select (record_of sid key) (records s))) as [[i r]|] eqn:Eh.
- pose proof Eh as (Hr & _)%head_select_Some. destruct (current_version _ _ _ Hinv Hr) as (vid & x & Hx & Ei & En & Hok & Et & _).
  exists vid, x. split_and!; try done; [|rewrite <- Et; by apply content_tombstone with vid].
  apply (im_cells _ _ _ Him). apply (holds_current _ _ _ _ _ _ Hinv Eh). eauto 10.
- apply eq_None_not_Some. intros [c Hc]. apply (im_cells _ _ _ Him) in Hc as (i & r & _ & _ & Hr & Es & Ek & _).
  pose proof (head_select_None _ _ Eh _ _ Hr) as Hf. unfold record_of in Hf. by rewrite !bool_decide_eq_true_2 in Hf.
Qed.

Lemma log_of s sid m key : kv_inv s → implements s sid m →
km_log m !! key = (λ p, (kx_request_digest p.2, kx_result_version p.2)) <$> head (select (receipt_of sid key) (receipts s)).
Proof.
intros Hinv Him. destruct (head (select (receipt_of sid key) (receipts s))) as [[i x]|] eqn:Eh; cbn.
- apply (im_log _ _ _ Him). apply head_select_Some in Eh as (Hx & Hk). unfold receipt_of in Hk. breflect.
  exists i, x. done.
- apply eq_None_not_Some. intros [[d n] Hc]. apply (im_log _ _ _ Him) in Hc as (i & x & Hx & Es & Ek & _).
  pose proof (head_select_None _ _ Eh _ _ Hx) as Hf. unfold receipt_of in Hf. by rewrite !bool_decide_eq_true_2 in Hf.
Qed.

Lemma implements_kept s s' sid m : only_stores s s' → (rng s' ≤ draw_limit)%N → kv_inv s → implements s sid m → implements s' sid m.
Proof.
intros [Er Ev Ex Hk _ _ _] Hlim Hinv [Hc Hl]. specialize (Hk Hlim). constructor.
- intros key c. rewrite Hc. unfold holds. rewrite Er, Ev. do 4 (f_equiv; intros ?).
  split; intros (? & ? & ? & Hx & ? & ? & ->); split_and!; try done; f_equal; [symmetry|];
    destruct (ki_version _ Hinv _ _ Hx) as [Hok _]; by eapply content_kept.
- intros key d n. rewrite Hl. unfold logged. by rewrite Ex.
Qed.

Section written.
Context {s sid obj user v current o s' rid vid xid usage row} (Hinv : kv_inv s) (Hv : sound_mutation v)
  (Ha : accepting s sid v current) (Hw : written s sid obj user v current o s' rid vid xid usage row)
  (Hlim : (rng s' ≤ draw_limit)%N).

Notation new_cell := (MkCell (next_version (snd <$> current)) (content_sent v)).

Lemma content_written : content_of s' (version_row sid obj user v rid (snd <$> current) (object_of sid obj rid vid v)) = content_sent v.
Proof.
unfold content_of, content_sent, version_row, object_of, sound_mutation in *. cbn [rv_encoding rv_object_key].
rewrite (wr_objects Hw). destruct (vm_operation v).
- destruct Hv as (e & x & value & -> & -> & _). cbn. by rewrite lookup_insert_eq.
- by destruct Hv as (-> & -> & _).
Qed.

Lemma holds_written sid0 key c : holds s' sid0 key c ↔
(sid0 = sid ∧ key = vm_key v ∧ c = new_cell) ∨ (¬ (sid0 = sid ∧ key = vm_key v) ∧ holds s sid0 key c).
Proof.
destruct (row_of_key Ha Hw) as [Hs Hk]. destruct (record_row_version sid obj user v (snd <$> current)) as [En _].
pose proof (written_unharmed Hw Hlim) as Hkept. unfold holds.
rewrite (wr_records Hw), (wr_versions Hw). split.
- intros (i & r & j & x & [[<- <-]|[Hi Hr]]%lookup_insert_Some & <- & <- & Hx & Ei & Ev & ->).
  + left. split; [done|]. split; [done|]. rewrite En in *.
    apply lookup_insert_Some in Hx as [[<- <-]|[_ Hx]]; [by rewrite content_written|].
    pose proof (old_versions Hinv Ha Hw _ _ Hx Ei). lia.
  + right. split; [intros [Es Ek]; by destruct Hi; symmetry; apply (other_key Hinv Ha Hw _ _ Hr)|].
    apply lookup_insert_Some in Hx as [[<- <-]|[_ Hx]]; [by destruct Hi|].
    exists i, r, j, x. split_and!; try done. f_equal. destruct (ki_version _ Hinv _ _ Hx) as [Hok _]. by eapply content_kept.
- intros [(-> & -> & ->)|(Hne & i & r & j & x & Hr & Es & Ek & Hx & Ei & Ev & ->)].
  + eexists rid, _, vid, _. rewrite !lookup_insert_eq. split_and!; try done. by rewrite En, content_written.
  + assert (i ≠ rid) as Hi. { intros ->. destruct (old_record Ha Hw _ Hr) as (_ & ? & ?). apply Hne. split; congruence. }
    assert (j ≠ vid) as Hj by (intros ->; by rewrite (wr_vid_new Hw) in Hx).
    exists i, r, j, x. rewrite !lookup_insert_ne by done. split_and!; try done. f_equal.
    destruct (ki_version _ Hinv _ _ Hx) as [Hok _]. symmetry. by eapply content_kept.
Qed.

Lemma logged_written sid0 key d n : logged s' sid0 key d n ↔
(sid0 = sid ∧ key = vm_idempotency_key v ∧ d = vm_request_digest v ∧ n = next_version (snd <$> current)) ∨
(¬ (sid0 = sid ∧ key = vm_idempotency_key v) ∧ logged s sid0 key d n).
Proof.
pose proof (receipt_None _ _ _ (ac_new _ _ _ _ Ha)) as Hno. unfold logged. rewrite (wr_receipts Hw). split.
- intros (i & x & [[<- <-]|[Hi Hx]]%lookup_insert_Some & <- & <- & -> & ->); [by left|right].
  split; [|eauto 10]. intros [Es Ek]. by destruct (Hno _ _ Hx Es).
- intros [(-> & -> & -> & ->)|(Hne & i & x & Hx & Es & Ek & -> & ->)].
  + eexists xid, _. by rewrite lookup_insert_eq.
  + exists i, x. rewrite lookup_insert_ne; [done|]. intros <-. by rewrite (wr_xid_new Hw) in Hx.
Qed.

Lemma implements_written m : implements s sid m → implements s' sid
(MkKvMap (<[vm_key v := new_cell]> (km_cells m))
   (<[vm_idempotency_key v := (vm_request_digest v, next_version (snd <$> current))]> (km_log m))).
Proof.
intros [Hc Hl]. constructor; cbn.
- intros key c. rewrite holds_written, lookup_insert_Some, Hc. naive_solver.
- intros key d n. rewrite logged_written, lookup_insert_Some, Hl. naive_solver.
Qed.
Lemma implements_other sid0 m : sid0 ≠ sid → implements s sid0 m → implements s' sid0 m.
Proof.
intros Hne [Hc Hl]. constructor.
- intros key c. rewrite holds_written, Hc. naive_solver.
- intros key d n. rewrite logged_written, Hl. naive_solver.
Qed.
End written.
End spec.
#[export] Existing Instance kept_preorder.
