(* ===== verification/KeyValueRefinement.v ===== *)
(** Key-value stores as a system of transactions: every run of the routes is a run of the
    compare-and-set map ([kv_map]), history is permanent, reads return what was written
    or the error of the storage, and the usage counters are exact as long as requests on
    a store do not overlap. *)

From S2P Require Import Prelude PyVal Json PyUuid Base64 QueueProtocol Pagination KvProtocol.
From S2P Require Import KeyValueStore KeyValueSpec.

(** ** Transactions *)

Record caller := MkCaller { cl_user : uuid; cl_actor_type : string; cl_actor_id : pystr; cl_request_id : string }.
Inductive request :=
| CreateProject (organization_id project_id : uuid) (name : pystr) (now : time)
| CreateRun (run : run_scope) (name : pystr) (now : time)
| Mutate (sid : uuid) (obj : KeyValueStore) (payload : pyval) (op : kv_operation)
| Get (sid : uuid) (key : pystr).
Inductive response := Created (id : uuid) | Mutated (o : KeyValueMutationOutcome) | Found (x : KeyValueRecordSummary).

(** No other request on the store ran since its object was loaded. *)
Definition serial (s : db) (r : request) : Prop :=
  match r with Mutate sid obj _ _ => stores s !! sid = Some obj | _ => True end.

Definition init : db := MkDb ∅ ∅ ∅ ∅ ∅ [] 0.
Definition empty_map : kv_map := MkKvMap ∅ ∅.

Section system.
Context `{Entropy, Sha256, PyFloats, ObjectStorage}.
Implicit Types (s : db) (v : ValidatedKVMutation) (m : kv_map) (r : request).

(** Payloads are parsed JSON. *)
Definition wf_request r : Prop := match r with Mutate _ _ payload _ => wf_json payload | _ => True end.

Definition serve (c : caller) (r : request) : Prelude.M db response :=
match r with
| CreateProject o p name now =>
    id ← create_project_key_value_store o p (cl_user c) (cl_actor_type c) (cl_actor_id c) (cl_request_id c) name now;
    mret (Created id)
| CreateRun run name now =>
    id ← create_run_key_value_store run (cl_user c) (cl_actor_type c) (cl_actor_id c) (cl_request_id c) name now;
    mret (Created id)
| Mutate sid obj payload op =>
    o ← mutate_key_value_record sid obj (cl_user c) (cl_actor_type c) (cl_actor_id c) (cl_request_id c) payload op;
    mret (Mutated o)
| Get sid key => x ← get_key_value_record_route sid key; mret (Found x)
end.

(** A request that raises, or whose commit fails, is rolled back; what it did to the
  object storage stays. *)
Definition transact (commit : bool) (c : caller) (r : request) s : (exn + response) * db :=
match serve c r s with
| (inr a, s') => if commit then (inr a, s') else (inl (RuntimeError "commit"), rollback s s')
| (inl e, s') => (inl e, rollback s s')
end.

Inductive kv_step s r : exn + response → db → Prop :=
| kv_step_transact c commit : wf_request r → kv_step s r (transact commit c r s).1 (transact commit c r s).2.
(** Runs whose requests are [allowed]: any, or [serial] ones. *)
Inductive kv_run (allowed : db → request → Prop) s : list (request * (exn + response)) → db → Prop :=
| kv_done : kv_run allowed s [] s
| kv_next tr s1 r a s2 : kv_run allowed s tr s1 → allowed s1 r → kv_step s1 r a s2 →
    kv_run allowed s (tr ++ [(r, a)]) s2.
Definition any s r : Prop := True.

(** The same history on the map of one store. *)
Inductive map_step (sid : uuid) m : request → exn + response → kv_map → Prop :=
| map_refused r e : map_step sid m r (inl e) m
| map_mutated obj payload op v o m' :
    validate_kv_mutation payload = inr v → vm_operation v = op →
    map_mutate v m = inr (kx_result_version (ko_receipt o), ko_replayed o, m') →
    map_step sid m (Mutate sid obj payload op) (inr (Mutated o)) m'
| map_found key x raw :
    map_read key m = Some (ks_version x, ks_encoding x, raw) →
    decode_value (ks_encoding x) raw = Some (ks_value x) →
    map_step sid m (Get sid key) (inr (Found x)) m
| map_created r id : map_step sid m r (inr (Created id)) m
| map_elsewhere_mutated sid' obj payload op a : sid' ≠ sid → map_step sid m (Mutate sid' obj payload op) (inr a) m
| map_elsewhere_read sid' key a : sid' ≠ sid → map_step sid m (Get sid' key) (inr a) m.
Inductive map_run (sid : uuid) m : list (request * (exn + response)) → kv_map → Prop :=
| map_done : map_run sid m [] m
| map_next tr m1 r a m2 : map_run sid m tr m1 → map_step sid m1 r a m2 → map_run sid m (tr ++ [(r, a)]) m2.

Context `{!UniqueUuids}.

(** ** Requests *)

Lemma kept_serve n0 n1 c r : frames (kept n0 n1) (serve c r).
Proof.
destruct r; (apply (frames_bind (kept n0 n1)); [|intros; apply (frames_ret (kept n0 n1))]);
  auto using kept_create_project, kept_create_run, kept_mutate, kept_get.
Qed.

(** A create route adds one empty store. *)
Lemma created_row c r s id s' : serve c r s = (inr (Created id), s') → only_stores s s' ∧ ∃ st,
stores s !! id = None ∧ stores s' = <[id := st]> (stores s) ∧ st_record_count st = 0 ∧ st_total_bytes st = 0.
Proof.
assert (Hadd : ∀ st s1, stores s1 = <[uuid4 (rng s) := st]> (stores s) → stores s !! uuid4 (rng s) = None → st_record_count st = 0 → st_total_bytes st = 0 →
  records s1 = records s → versions s1 = versions s → receipts s1 = receipts s → objects s1 = objects s →
  rng s1 = N.succ (rng s) → only_stores s s1 ∧ ∃ st,
  stores s !! uuid4 (rng s) = None ∧ stores s1 = <[uuid4 (rng s) := st]> (stores s) ∧ st_record_count st = 0 ∧
  st_total_bytes st = 0).
{ intros st [] Es Hn H1' H2' Er Ev Ex Eo En. cbn in *. subst. split; [|by eexists].
  destruct (with_store_only st s) as [_ _ _ Hk Hr Hs Hd]. constructor; [done..|exact Hk|exact Hr|exact Hs|exact Hd]. }
assert (Hw : wp (serve c r) (λ a s', ∀ id, a = Created id → only_stores s s' ∧ ∃ st,
  stores s !! id = None ∧ stores s' = <[id := st]> (stores s) ∧ st_record_count st = 0 ∧ st_total_bytes st = 0) s).
{ destruct r; simpl.
  - unfold create_project_key_value_store, ensure_store_name_available. wp_steps. apply wp_insert_store. intros Hn. wp_steps.
    intros ? [= <-]. eapply Hadd; [reflexivity|done..].
  - unfold create_run_key_value_store, ensure_store_name_available. wp_steps. apply wp_insert_store. intros Hn. wp_steps.
    intros ? [= <-]. eapply Hadd; [reflexivity|done..].
  - apply wp_bind. intros a s1 _. apply wp_ret. intros ? [=].
  - apply wp_bind. intros a s1 _. apply wp_ret. intros ? [=]. }
intros E. by eapply Hw.
Qed.
Lemma created_only c r s id s' : serve c r s = (inr (Created id), s') → only_stores s s'.
Proof. by intros [Ho _]%created_row. Qed.

Lemma kv_step_cases s r a s' : kv_step s r a s' → wf_request r ∧ (rng s ≤ rng s')%N ∧
((∃ e s1, a = inl e ∧ s' = rollback s s1 ∧ only_stores s s') ∨ (∃ c b, a = inr b ∧ serve c r s = (inr b, s'))).
Proof.
intros [c commit Hwf]. split; [done|]. unfold transact. pose proof (kept_serve (rng s) (rng s) c r s) as Hk.
destruct (serve c r s) as [[e|b] s1] eqn:E; cbn in Hk |- *; (split; [destruct commit; apply (Hk (N.le_refl _) (N.le_refl _))|]).
- left. do 2 eexists. split_and!; [done..|]. by apply rollback_only_stores.
- destruct commit; cbn; [right; eauto|]. left. do 2 eexists. split_and!; [done..|]. by apply rollback_only_stores.
Qed.

(** ** Reads *)

Lemma head_live s sid key : kv_inv s → head (select (live_record sid key) (records s)) =
match head (select (record_of sid key) (records s)) with
| Some (i, r) => if kr_deleted r then None else Some (i, r)
| None => None
end.
Proof.
intros Hinv.
assert (Hu : ∀ i j x y, records s !! i = Some x → records s !! j = Some y →
  record_of sid key i x = true → record_of sid key j y = true → i = j).
{ unfold record_of. intros i j x y Hx Hy Ex Ey. breflect. apply (ki_key _ Hinv _ _ _ _ Hx Hy); congruence. }
assert (Hl : ∀ i x, live_record sid key i x = true → record_of sid key i x = true ∧ kr_deleted x = false)
  by (unfold live_record; intros; breflect; done).
assert (Hnone : (∀ i x, records s !! i = Some x → record_of sid key i x = true → kr_deleted x = true) →
  head (select (live_record sid key) (records s)) = None).
{ intros Hd. destruct (head (select (live_record sid key) (records s))) as [[i x]|] eqn:E; [|done].
  apply head_select_Some in E as (Hx & [Hr Hlive]%Hl). specialize (Hd _ _ Hx Hr). congruence. }
destruct (head (select (record_of sid key) (records s))) as [[i r]|] eqn:E.
- apply head_select_Some in E as (Hr & Ek). destruct (kr_deleted r) eqn:Ed.
  + apply Hnone. intros j x Hx Ex. assert (i = j) as <- by (by eapply Hu). congruence.
  + apply head_select_unique; [|done|unfold live_record; by rewrite Ek, Ed].
    intros ???? Hx Hy [? _]%Hl [? _]%Hl. by eapply Hu.
- apply Hnone. intros j x Hx Ex. by rewrite (head_select_None _ _ E _ _ Hx) in Ex.
Qed.

Lemma head_current_version s i (r : KeyValueRecord) vid x : kv_inv s → versions s !! vid = Some x → rv_record_id x = i →
rv_version x = kr_current_version r → rv_tombstone x = false →
head (select (current_version_of i r) (versions s)) = Some (vid, x).
Proof.
intros Hinv Hx Ei En Et. apply head_select_unique; [|done|].
- unfold current_version_of. intros a b y z Hy Hz Ey Ez. breflect. apply (ki_unique _ Hinv _ _ _ _ Hy Hz); congruence.
- unfold current_version_of. rewrite bool_decide_eq_true_2, (proj2 (Z.eqb_eq _ _)), Et by done. done.
Qed.

(** What the read route returns, in terms of the map. *)
Definition read_result s (key : pystr) m : exn + KeyValueRecordSummary :=
match map_read key m with
| None => inl record_not_found
| Some (n, e, raw) =>
    match storage_fault (rng s), decode_value e raw with
    | Some (err, _), _ => inl (storage_exn err)
    | None, Some value => inr (MkKvSummary key n (content_type_of e) e (sha256_hex raw) (Z.of_nat (length raw)) value)
    | None, None => inl (ApiError 500 "KV_STORAGE_DECODE_FAILED")
    end
end.

Lemma load_run s sid st : stores s !! sid = Some st → load_store sid s = (inr st, s).
Proof. intros Hst. unfold load_store. by rewrite run_gets, Hst. Qed.

Lemma read_object_run s k n raw : objects s !! k = Some raw → n = Z.of_nat (length raw) →
read_object k n s = (match storage_fault (rng s) with Some (e, _) => inl (storage_exn e) | None => inr raw end,
  s <| rng ::= N.succ |>).
Proof.
intros Hk ->. unfold read_object, storage_request. unfold mbind, M_bind. cbn.
destruct (storage_fault (rng s)) as [[e []]|]; [done..|]. cbn. rewrite Hk. cbn. by rewrite Z.ltb_irrefl.
Qed.

(** The current version of a live record holds a value. *)
Lemma live_lineage s vid x : version_ok s vid x → rv_tombstone x = false → ∃ e raw value k,
value_lineage x = Some (k, content_type_of e, e, sha256_hex raw) ∧ objects s !! k = Some raw ∧
content_of s x = Some (e, raw) ∧ rv_size_bytes x = Z.of_nat (length raw) ∧ decode_value e raw = Some value.
Proof.
intros [Hs _] Ht. unfold content_of, value_lineage. destruct (rv_operation x); [|destruct Hs; congruence].
destruct Hs as (_ & e & raw & value & -> & -> & -> & Ho & -> & -> & Hd). exists e, raw, value. eexists.
split_and!; [reflexivity|exact Ho|by rewrite Ho|done..].
Qed.

Lemma summary_run s i (r : KeyValueRecord) vid x e raw value k : kv_inv s → versions s !! vid = Some x →
rv_record_id x = i → rv_version x = kr_current_version r → rv_tombstone x = false →
value_lineage x = Some (k, content_type_of e, e, sha256_hex raw) → objects s !! k = Some raw →
rv_size_bytes x = Z.of_nat (length raw) → decode_value e raw = Some value →
(key_value_record_summary i r s).1 = match storage_fault (rng s) with
| Some (err, _) => inl (storage_exn err)
| None => inr (MkKvSummary (kr_key r) (kr_current_version r) (content_type_of e) e (sha256_hex raw)
                 (Z.of_nat (length raw)) value)
end.
Proof.
intros Hinv Hx Ei En Et El Ho Eb Ed. unfold key_value_record_summary.
rewrite run_gets, (head_current_version _ _ _ vid x) by done.
rewrite (run_some _ _ _ _ (x, (k, content_type_of e, e, sha256_hex raw))) by (cbn; by rewrite El).
cbv beta iota. unfold mbind at 1, M_bind at 1. rewrite (read_object_run _ _ _ _ Ho Eb).
destruct (storage_fault (rng s)) as [[err ap]|]; [done|]. cbv beta iota.
rewrite run_pass by (rewrite Eb, Z.eqb_refl, bool_decide_eq_true_2 by done; done).
by rewrite (run_some _ _ _ _ value), Eb.
Qed.

Lemma get_run s sid key m st : kv_inv s → implements s sid m → stores s !! sid = Some st →
(get_key_value_record_route sid key s).1 = read_result s key m ∧
(∀ n e raw, map_read key m = Some (n, e, raw) → is_Some (decode_value e raw)).
Proof.
intros Hinv Him Hst. unfold get_key_value_record_route. rewrite (run_bind _ _ _ st s) by by apply load_run.
unfold get_key_value_record, mbind at 1, M_bind at 1. rewrite run_gets, (head_live _ _ _ Hinv).
unfold read_result, map_read. pose proof (cell_of _ _ _ key Hinv Him) as Hc.
destruct (head (select (record_of sid key) (records s))) as [[i r]|] eqn:Eh; [|rewrite Hc; done].
destruct Hc as (vid & x & Hx & Ei & En & -> & Hd). pose proof (ki_version _ Hinv _ _ Hx) as (Hok & _).
pose proof (content_tombstone _ _ _ Hok) as Ht. cbn [mbind option_bind c_content c_version].
destruct (kr_deleted r) eqn:Edel.
- rewrite (proj2 Hd) by done. done.
- assert (rv_tombstone x = false) as Etomb.
  { destruct (rv_tombstone x); [|done]. symmetry. apply Hd, Ht. done. }
  destruct (live_lineage _ _ _ Hok Etomb) as (e & raw & value & k & El & Ho & -> & Eb & Ed). cbn.
  apply head_select_Some in Eh as (_ & Ek). unfold record_of in Ek. breflect. subst key.
  rewrite (summary_run _ _ _ _ _ _ _ _ _ Hinv Hx Ei En Etomb El Ho Eb Ed), Ed. split; [done|]. intros ??? [= <- <- <-]. eauto.
Qed.

(** A read draws from the storage and changes nothing. *)
Definition draws s s' : Prop := s' = s <| rng := rng s' |> ∧ (rng s ≤ rng s')%N.
#[local] Instance draws_preorder : PreOrder draws.
Proof.
split.
- intros []. split; done.
- intros s1 s2 s3 [E12 H12] [E23 H23]. split; [|lia]. rewrite E23, E12. done.
Qed.
Lemma get_draws sid key : frames draws (get_key_value_record_route sid key).
Proof.
assert (Hread : ∀ k n, frames draws (read_object k n)).
{ intros k n. unfold read_object, storage_request.
  repeat (apply (frames_bind draws); [|intros ?]); try apply (frames_gets draws); try apply (frames_get_or_raise draws);
    try apply (frames_raise_if draws); try apply (frames_ret draws).
  - apply (frames_modify draws). intros s. split; [done|]. cbn. lia.
  - destruct (storage_fault a) as [[e []]|]; repeat (apply (frames_bind draws); [|intros ?]);
      try apply (frames_ret draws); apply (frames_raise draws). }
unfold get_key_value_record_route, load_store, get_key_value_record, key_value_record_summary.
repeat first [apply Hread | apply (frames_bind draws); [|intros ?] | apply (frames_gets draws)
  | apply (frames_get_or_raise draws) | apply (frames_raise_if draws) | apply (frames_ret draws)
  | match goal with |- frames _ (match ?x with _ => _ end) => destruct x end].
Qed.

(** ** Mutations *)

(** The decision of the map, read off the tables. *)
Definition map_after v m (n : Z) : kv_map :=
MkKvMap (<[vm_key v := MkCell n (content_sent v)]> (km_cells m))
  (<[vm_idempotency_key v := (vm_request_digest v, n)]> (km_log m)).

Lemma enforce_precondition expected (c : option cell) : (∀ x, c = Some x → 1 ≤ c_version x) →
precondition expected c = enforce_expected_version expected (c_version <$> c).
Proof.
intros Hc. unfold precondition, enforce_expected_version. destruct expected as [n|]; [|done].
destruct c as [x|]; cbn; [specialize (Hc x eq_refl)|].
- destruct n as [|n|n]; [apply Z.eqb_neq; lia|..];
    (case_bool_decide as E; [injection E as ->; apply Z.eqb_refl|apply Z.eqb_neq; congruence]).
- by destruct n.
Qed.

Lemma map_mutate_decides s sid m v : kv_inv s → implements s sid m →
map_mutate v m =
match head (select (receipt_of sid (vm_idempotency_key v)) (receipts s)) with
| Some (_, x) => if bool_decide (kx_request_digest x = vm_request_digest v) then inr (kx_result_version x, true, m)
                 else inl idempotency_conflict
| None =>
    let current := head (select (record_of sid (vm_key v)) (records s)) in
    let accepted := inr (next_version (snd <$> current), false, map_after v m (next_version (snd <$> current))) in
    if negb (enforce_expected_version (vm_expected_version v) (kr_current_version ∘ snd <$> current)) then inl version_conflict
    else match vm_operation v, current with
    | DELETE, None => inl record_not_found
    | DELETE, Some (_, x) => if kr_deleted x then inl already_deleted else accepted
    | SET, _ => accepted
    end
end.
Proof.
intros Hinv Him. unfold map_mutate. rewrite (log_of _ _ _ _ Hinv Him).
destruct (head (select (receipt_of sid _) (receipts s))) as [[i x]|]; cbn; [done|].
pose proof (cell_of _ _ _ (vm_key v) Hinv Him) as Hc.
destruct (head (select (record_of sid (vm_key v)) (records s))) as [[i x]|] eqn:Eh.
- destruct Hc as (vid & y & _ & _ & _ & -> & Hd). apply head_select_Some in Eh as (Hx & _).
  destruct (ki_record _ Hinv _ _ Hx) as (Hpos & _). rewrite enforce_precondition by (by intros ? [= <-]). cbn.
  destruct (enforce_expected_version _ _); cbn; [|done].
  destruct (vm_operation v); [done|]. destruct (content_of s y), (kr_deleted x); try done; exfalso; naive_solver.
- rewrite Hc, enforce_precondition by done. cbn. destruct (enforce_expected_version _ _); cbn; [|done]. by destruct (vm_operation v).
Qed.

Lemma served_inv c r b s s' : (rng s' ≤ draw_limit)%N → kv_inv s → wf_request r → serve c r s = (inr b, s') →
kv_inv s' ∧ ∀ sid m, implements s sid m → ∃ m', map_step sid m r (inr b) m' ∧ implements s' sid m'.
Proof.
intros Hlim Hinv Hwf E.
assert (Hcreated : only_stores s s' → (∀ sid m, implements s sid m → map_step sid m r (inr b) m) →
  kv_inv s' ∧ ∀ sid m, implements s sid m → ∃ m', map_step sid m r (inr b) m' ∧ implements s' sid m').
{ intros Ho Hm. split; [by apply (only_stores_inv s)|]. intros sid m Him. exists m. split; [auto|by apply (implements_kept s)]. }
destruct r as [| |sid obj payload op|sid key]; cbn in E.
- apply bind_ok in E as (id & s1 & E & [= <- <-]). apply Hcreated; [|intros; constructor].
  apply (created_only c (CreateProject organization_id project_id name now) s id). cbn. by rewrite (run_bind _ _ _ _ _ E).
- apply bind_ok in E as (id & s1 & E & [= <- <-]). apply Hcreated; [|intros; constructor].
  apply (created_only c (CreateRun run name now) s id). cbn. by rewrite (run_bind _ _ _ _ _ E).
- apply bind_ok in E as (o & s1 & E & [= <- <-]).
  apply mutate_outcome in E as (v & Ev & Eop & _ & [(xid & x & Hx & Ed & -> & ->)|(current & rid & vid & xid & usage & row & Ha & Hw)]).
  + split; [done|]. intros sid0 m Him. exists m. split; [|done].
    destruct (decide (sid0 = sid)) as [->|]; [|by apply map_elsewhere_mutated]. econstructor; [done..|].
    by rewrite (map_mutate_decides _ _ _ _ Hinv Him), Hx, bool_decide_eq_true_2.
  + pose proof (validated_sound _ _ Hwf Ev) as Hv. split; [by apply (written_inv Hinv Hv Ha Hw Hlim)|].
    intros sid0 m Him. destruct (decide (sid0 = sid)) as [->|].
    * eexists. split; [|by eapply implements_written]. econstructor; [done..|].
      rewrite (map_mutate_decides _ _ _ _ Hinv Him), (ac_new _ _ _ _ Ha), (ac_current _ _ _ _ Ha). cbv zeta.
      rewrite (ac_expected _ _ _ _ Ha), (wr_outcome _ _ _ _ _ _ _ _ _ _ _ _ _ Hw). cbn. pose proof (ac_delete _ _ _ _ Ha) as Hdel.
      destruct (vm_operation v); [done|]. by destruct Hdel as (i & x & -> & ->).
    * exists m. split; [by apply map_elsewhere_mutated|]. by eapply implements_other.
- apply bind_ok in E as (x & s1 & E & [= <- <-]).
  pose proof (get_draws sid key s) as [Es Hn]. rewrite E in Es, Hn. cbn in Es, Hn.
  assert (Ho : only_stores s s1).
  { rewrite Es. by constructor; try done; cbn; auto. }
  split; [by apply (only_stores_inv s)|]. intros sid0 m Him. exists m. split; [|by apply (implements_kept s)].
  destruct (decide (sid0 = sid)) as [->|]; [|by apply map_elsewhere_read].
  pose proof E as (st & s2 & Est & _)%bind_ok. unfold load_store in Est.
  apply bind_ok in Est as (row & s3 & [= <- <-] & Est). destruct (stores s !! sid) as [st'|] eqn:Hst; [|done].
  destruct (get_run _ _ key _ _ Hinv Him Hst) as [Er _]. rewrite E in Er. cbn in Er.
  unfold read_result in Er. repeat case_match; try done. injection Er as ->. econstructor; done.
Qed.

(** ** Runs *)

Lemma empty_holds sid : implements init sid empty_map.
Proof.
constructor.
- intros key c. cbn. rewrite lookup_empty. split; [done|]. intros (i & r & _ & _ & Hr & _). cbn in Hr. by rewrite lookup_empty in Hr.
- intros key d n. cbn. rewrite lookup_empty. split; [done|]. intros (i & r & Hr & _). cbn in Hr. by rewrite lookup_empty in Hr.
Qed.
Lemma init_inv : kv_inv init.
Proof. constructor; cbn; try (intros *; by rewrite lookup_empty). split_and!; intros i [? Hi]; by rewrite lookup_empty in Hi. Qed.

Lemma step_simulates s r a s' : (rng s' ≤ draw_limit)%N → kv_inv s → kv_step s r a s' →
kv_inv s' ∧ ∀ sid m, implements s sid m → ∃ m', map_step sid m r a m' ∧ implements s' sid m'.
Proof.
intros Hlim Hinv Hst. apply kv_step_cases in Hst as (Hwf & Hrng & [(e & s1 & -> & _ & Ho)|(c & b & -> & E)]); [|by eapply served_inv].
split; [by apply (only_stores_inv s)|]. intros sid m Him. exists m. split; [constructor|by apply (implements_kept s)].
Qed.

Lemma run_rng allowed s tr s' : kv_run allowed s tr s' → (rng s ≤ rng s')%N.
Proof.
induction 1 as [|tr s1 r a s2 _ IH _ Hst]; [lia|]. apply kv_step_cases in Hst as (_ & Hrng & _). lia.
Qed.

Lemma run_simulates allowed s tr s' : kv_run allowed s tr s' → (rng s' ≤ draw_limit)%N → kv_inv s →
kv_inv s' ∧ ∀ sid m, implements s sid m → ∃ m', map_run sid m tr m' ∧ implements s' sid m'.
Proof.
induction 1 as [|tr s1 r a s2 Hrun IH _ Hst]; intros Hlim Hinv.
- split; [done|]. intros sid m Him. exists m. split; [constructor|done].
- pose proof Hst as (_ & Hrng & _)%kv_step_cases.
  destruct (IH ltac:(lia) Hinv) as [Hinv1 Hsim]. destruct (step_simulates _ _ _ _ Hlim Hinv1 Hst) as [Hinv2 Hstep].
  split; [done|]. intros sid m Him. destruct (Hsim _ _ Him) as (m1 & ? & Him1).
  destruct (Hstep _ _ Him1) as (m2 & ? & ?). exists m2. split; [by econstructor|done].
Qed.

(** C28: every run of the key-value routes, with any faults of the object storage, any failed
  commits and store objects loaded at any earlier time, is a run of a compare-and-set
  map with idempotent mutations: each store starts empty and its tables implement the
  state of the map after every request. *)
Theorem kv_refines_cas_map tr s sid (Hrun : kv_run any init tr s) (Hlim : (rng s ≤ draw_limit)%N) :
∃ m, map_run sid empty_map tr m ∧ implements s sid m.
Proof.
destruct (run_simulates _ _ _ _ Hrun Hlim init_inv) as [_ Hsim]. exact (Hsim _ _ (empty_holds sid)).
Qed.

(** A read of a store is decided by the map it implements: 404 when the key has no live
  value, and otherwise the version, encoding and value last accepted, or the error of the
  object storage - never a lost, truncated or undecodable value. *)
Theorem kv_reads_exact tr s sid m st key (Hrun : kv_run any init tr s) (Hlim : (rng s ≤ draw_limit)%N) (Hm : implements s sid m)
  (Hst : stores s !! sid = Some st) :
(get_key_value_record_route sid key s).1 = read_result s key m ∧
(∀ n e raw, map_read key m = Some (n, e, raw) → is_Some (decode_value e raw)).
Proof.
destruct (run_simulates _ _ _ _ Hrun Hlim init_inv) as [Hinv _]. exact (get_run _ _ _ _ _ Hinv Hm Hst).
Qed.

(** ** History *)

(** Nothing recorded is changed or forgotten. *)
Record extends s s' : Prop := {
ex_versions : versions s ⊆ versions s';
ex_receipts : receipts s ⊆ receipts s';
ex_content : ∀ i x, versions s !! i = Some x → content_of s' x = content_of s x }.
#[local] Instance extends_preorder : PreOrder extends.
Proof.
split; [by constructor|]. intros s1 s2 s3 [V12 R12 C12] [V23 R23 C23]. constructor; [by etrans|by etrans|].
intros i x Hx. rewrite (C23 i x); [by eapply C12|]. by eapply lookup_weaken.
Qed.

Lemma only_stores_extends s s' : (rng s' ≤ draw_limit)%N → kv_inv s → only_stores s s' → extends s s'.
Proof.
intros Hlim Hinv [Er Ev Ex Hk _ _ _]. specialize (Hk Hlim). constructor; [by rewrite Ev|by rewrite Ex|]. intros i x Hx.
destruct (ki_version _ Hinv _ _ Hx) as [Hok _]. by eapply content_kept.
Qed.

Lemma step_extends s r a s' : (rng s' ≤ draw_limit)%N → kv_inv s → kv_step s r a s' → extends s s'.
Proof.
intros Hlim Hinv Hst. apply kv_step_cases in Hst as (Hwf & Hrng & [(e & s1 & -> & _ & Ho)|(c & b & -> & E)]); [by apply only_stores_extends|].
destruct r as [| |sid obj payload op|sid key]; cbn in E.
- pose proof E as (id & s1 & _ & [= <- _])%bind_ok. eapply only_stores_extends, (created_only c (CreateProject _ _ _ _)); [done..|exact E].
- pose proof E as (id & s1 & _ & [= <- _])%bind_ok. eapply only_stores_extends, (created_only c (CreateRun _ _ _)); [done..|exact E].
- apply bind_ok in E as (o & s1 & E & [= <- <-]).
  apply mutate_outcome in E as (v & Ev & Eop & _ & [(xid & x & _ & _ & _ & ->)|(cur & rid & vid & xid & us & row & Ha & Hw)]);
    [reflexivity|]. pose proof Hw as [_ _ _ _ Hvn Hxn _ _ Ev' Ex' _ _ _ _ _]. constructor.
  + rewrite Ev'. by apply insert_subseteq.
  + rewrite Ex'. by apply insert_subseteq.
  + intros i x Hx. destruct (ki_version _ Hinv _ _ Hx) as [Hok _]. by eapply content_kept; [eapply written_unharmed|].
- apply bind_ok in E as (x & s1 & E & [= <- <-]). pose proof (get_draws sid key s) as [Es _]. rewrite E in Es. cbn in Es.
  rewrite Es. by constructor.
Qed.

(** History is permanent: once a version or a receipt is recorded, no later request, failed
  or not, changes or removes it, and the object of a version keeps its content. *)
Theorem kv_history_permanent tr s tr' s' i x (Hrun : kv_run any init tr s) (Hlater : kv_run any s tr' s')
  (Hlim : (rng s' ≤ draw_limit)%N)
  (Hx : versions s !! i = Some x) :
versions s' !! i = Some x ∧ content_of s' x = content_of s x ∧ receipts s ⊆ receipts s'.
Proof.
pose proof (run_rng _ _ _ _ Hlater). destruct (run_simulates _ _ _ _ Hrun ltac:(lia) init_inv) as [Hinv _].
assert (Hext : kv_inv s' ∧ extends s s').
{ clear Hx. induction Hlater as [|tr' s1 r a s2 Hrest IH _ Hst]; [done|]. pose proof Hst as (_ & Hrng & _)%kv_step_cases.
  pose proof (run_rng _ _ _ _ Hrest). destruct IH as [Hinv1 IH]; [lia..|].
  split; [by destruct (step_simulates _ _ _ _ Hlim Hinv1 Hst)|]. etrans; [exact IH|]. by eapply step_extends. }
destruct Hext as [_ [Hv Hr Hc]]. split_and!; [by eapply lookup_weaken|by eapply Hc|done].
Qed.

(** ** Counters *)

Definition live_in (sid : uuid) (x : KeyValueRecord) : bool :=
bool_decide (kr_store_id x = sid) && negb (kr_deleted x).
Definition live_bytes (sid : uuid) (x : KeyValueRecord) : Z := if live_in sid x then kr_current_size_bytes x else 0.
Definition counted s (sid : uuid) (st : KeyValueStore) : Prop :=
st_record_count st = countZ (live_in sid) (records s) ∧ st_total_bytes st = sumZ (live_bytes sid) (records s).
Definition counters_exact s : Prop := ∀ sid st, stores s !! sid = Some st → counted s sid st ∧
0 ≤ st_record_count st ≤ MAX_KV_RECORDS ∧ 0 ≤ st_total_bytes st ≤ MAX_KV_STORE_BYTES.

(** What a write adds to the counters of a store. *)
Lemma usage_counts s sid (obj : KeyValueStore) user v current rid o s' vid xid usage row :
accepting s sid v current → written s sid obj user v current o s' rid vid xid usage row → counted s sid obj →
counted s' sid (obj <| st_record_count := usage.1 |> <| st_total_bytes := usage.2 |>).
Proof.
intros Ha Hw [Hn Hb]. pose proof Hw as [_ Hrid _ _ _ _ _ Er _ _ Hu _ _ _ _]. destruct (row_of_key Ha Hw) as [Hs _].
destruct (record_row_version sid obj user v (snd <$> current)) as (_ & Ed & Eb).
assert (El : live_in sid (record_row sid obj user v (snd <$> current)) = negb (tombstone v)).
{ unfold live_in. rewrite Hs, Ed, bool_decide_eq_true_2; done. }
assert (Elb : live_bytes sid (record_row sid obj user v (snd <$> current)) =
  if tombstone v then 0 else vm_decoded_bytes v).
{ unfold live_bytes. rewrite El, Eb. by destruct (tombstone v). }
unfold counted, countZ. rewrite Er. cbn. unfold projected_usage in Hu. pose proof (ac_current _ _ _ _ Ha) as Hc.
pose proof (ac_delete _ _ _ _ Ha) as Hdel. unfold tombstone in *.
destruct current as [[i x]|]; cbn [fmap option_fmap option_map snd] in *.
- subst i. apply current_Some in Hc as (Hx & Es & _). rewrite !(sumZ_update _ _ _ x) by done. rewrite El, Elb.
  change (sumZ (λ x, ind (live_in sid x)) (records s)) with (countZ (live_in sid) (records s)). rewrite <- Hn, <- Hb.
  unfold live_bytes, live_in. rewrite bool_decide_eq_true_2 by done.
  destruct (vm_operation v); cbn in *.
  + destruct (kr_deleted x); cbn in *; repeat case_match; simplify_eq/=; lia.
  + destruct Hdel as (? & ? & [= <- <-] & ->); [done|]. cbn. simplify_eq/=. lia.
- destruct Hrid as [_ Hnone]. rewrite !sumZ_insert_new by done. rewrite El, Elb.
  change (sumZ (λ x, ind (live_in sid x)) (records s)) with (countZ (live_in sid) (records s)). rewrite <- Hn, <- Hb.
  destruct (vm_operation v); cbn in *; repeat case_match; simplify_eq/=; lia.
Qed.

(** Writes to another store do not count. *)
Lemma other_counts s sid sid0 (obj : KeyValueStore) user v current rid o s' vid xid usage row st : sid0 ≠ sid →
accepting s sid v current → written s sid obj user v current o s' rid vid xid usage row →
counted s sid0 st → counted s' sid0 st.
Proof.
intros Hne Ha Hw [Hn Hb]. pose proof Hw as [_ Hrid _ _ _ _ _ Er _ _ _ _ _ _ _]. destruct (row_of_key Ha Hw) as [Hs _].
assert (Hf : ∀ x, kr_store_id x = sid → live_in sid0 x = false).
{ intros x Ex. unfold live_in. rewrite bool_decide_eq_false_2 by congruence. done. }
assert (Hz : ∀ f : KeyValueRecord → Z, (∀ x, kr_store_id x = sid → f x = 0) → sumZ f (records s') = sumZ f (records s)).
{ intros f Hf0. rewrite Er. pose proof (ac_current _ _ _ _ Ha) as Hc. destruct current as [[i x]|].
  - subst i. apply current_Some in Hc as (Hx & Es & _). rewrite (sumZ_update _ _ _ x), !Hf0 by done. lia.
  - destruct Hrid as [_ Hnone]. rewrite sumZ_insert_new, Hf0 by done. lia. }
split; [rewrite Hn|rewrite Hb]; symmetry; apply Hz; intros x Ex; unfold live_bytes; by rewrite Hf.
Qed.


Lemma step_counters s r a s' : kv_inv s → counters_exact s → serial s r → kv_step s r a s' → counters_exact s'.
Proof.
intros Hinv Hc Hser Hst. apply kv_step_cases in Hst as (Hwf & Hrng & [(e & s1 & -> & -> & _)|(c & b & -> & E)]); [exact Hc|].
assert (Hcreate : ∀ id, serve c r s = (inr (Created id), s') → counters_exact s').
{ intros id ([Er _ _ _ _ _ _] & st & Hnone & Es & Hn & Hb)%created_row sid st0. rewrite Es. unfold counted. rewrite Er.
  intros [[<- <-]|[_ Hst0]]%lookup_insert_Some; [|by apply Hc].
  assert (Hz : ∀ x, (∃ i, records s !! i = Some x) → live_in id x = false).
  { intros x (i & Hx). unfold live_in. destruct (ki_record _ Hinv _ _ Hx) as (_ & [? Hx'] & _).
    rewrite bool_decide_eq_false_2; [done|]. intros Eid. rewrite Eid in Hx'. congruence. }
  assert (Hz0 : ∀ f : KeyValueRecord → Z, (∀ x, live_in id x = false → f x = 0) → sumZ f (records s) = 0).
  { intros f Hf. rewrite (sumZ_ext f (λ _, 0)); [apply sumZ_const0|]. intros i x Hx. apply Hf, Hz. eauto. }
  rewrite Hn, Hb. unfold countZ. rewrite !Hz0; [unfold MAX_KV_RECORDS, MAX_KV_STORE_BYTES; lia|..];
    intros x Hx; unfold live_bytes; by rewrite Hx. }
destruct r as [| |sid obj payload op|sid key].
- pose proof E as (id & s1 & _ & [= <- _])%bind_ok. eauto.
- pose proof E as (id & s1 & _ & [= <- _])%bind_ok. eauto.
- cbn in E, Hser. apply bind_ok in E as (o & s1 & E & [= <- <-]).
  apply mutate_outcome in E as (v & Ev & Eop & _ & [(xid & x & _ & _ & _ & ->)|(cur & rid & vid & xid & us & row & Ha & Hw)]);
    [done|]. pose proof Hw as [_ _ _ _ _ _ _ _ _ _ _ Hrow Hq Es _]. rewrite Hser in Hrow. injection Hrow as <-.
  intros sid0 st0. rewrite Es. intros [[<- <-]|[Hne Hst0]]%lookup_insert_Some.
  + split; [|done]. destruct (Hc _ _ Hser) as [Hcount _]. pose proof (usage_counts _ _ _ _ _ _ _ _ _ _ _ _ _ Ha Hw Hcount) as Hu.
    destruct Hu as [Hu1 Hu2]. split; cbn; rewrite written_current; [exact Hu1|exact Hu2].
  + destruct (Hc _ _ Hst0) as [Hcount Hbound]. split; [|done]. by eapply other_counts.
- cbn in E. apply bind_ok in E as (x & s1 & E & [= <- <-]). pose proof (get_draws sid key s) as [Es _]. rewrite E in Es. cbn in Es.
  rewrite Es. exact Hc.
Qed.

Lemma serial_counters tr s : kv_run serial init tr s → (rng s ≤ draw_limit)%N → kv_inv s ∧ counters_exact s.
Proof.
induction 1 as [|tr s1 r a s2 _ IH Hser Hst]; intros Hlim.
- split; [apply init_inv|]. intros sid st Hst. cbn in Hst. by rewrite lookup_empty in Hst.
- pose proof Hst as (_ & Hrng & _)%kv_step_cases. destruct IH as [Hinv IH]; [lia|].
  split; [by destruct (step_simulates _ _ _ _ Hlim Hinv Hst)|]. by eapply step_counters.
Qed.

(** C30: as long as requests on a store do not overlap, the usage counters of every store equal
  the number and the total size of its live records, and stay within the quotas. *)
Theorem kv_counters_exact tr s sid st (Hrun : kv_run serial init tr s) (Hlim : (rng s ≤ draw_limit)%N) (Hst : stores s !! sid = Some st) :
st_record_count st = countZ (live_in sid) (records s) ∧ st_total_bytes st = sumZ (live_bytes sid) (records s) ∧
0 ≤ st_record_count st ≤ MAX_KV_RECORDS ∧ 0 ≤ st_total_bytes st ≤ MAX_KV_STORE_BYTES.
Proof.
destruct (serial_counters _ _ Hrun Hlim) as [_ Hc]. destruct (Hc _ _ Hst) as [[? ?] [? ?]]. done.
Qed.

(** ** Mutations succeed *)

(** Nothing collides with identifiers not yet drawn. *)
Lemma fresh_rows s n : kv_inv s → (rng s ≤ n)%N → (n < draw_limit)%N →
records s !! uuid4 n = None ∧ versions s !! uuid4 n = None ∧ receipts s !! uuid4 n = None ∧
(∀ i y, versions s !! i = Some y → ∀ o st rid, rv_object_key y ≠ Some (server_object_key o st rid (uuid4 n))) ∧
(∀ i x, receipts s !! i = Some x → kx_record_version_id x ≠ uuid4 n) ∧
(∀ i y, versions s !! i = Some y → rv_record_id y ≠ uuid4 n).
Proof.
intros Hinv Hn Hlim. destruct (ki_drawn _ Hinv) as (Hr & Hx & _).
assert (Hfresh : ∀ i, (∃ n', (n' < rng s)%N ∧ i = uuid4 n') → i ≠ uuid4 n)
  by (intros i (n' & ? & ->) ?%uuid4_fresh; lia).
assert (Hv : versions s !! uuid4 n = None).
{ apply eq_None_not_Some. intros [y Hy]. destruct (ki_version _ Hinv _ _ Hy) as ([_ Hd] & _). by destruct (Hfresh _ Hd). }
split_and!; [apply eq_None_not_Some; intros Hs; by destruct (Hfresh _ (Hr _ Hs))|exact Hv
  |apply eq_None_not_Some; intros Hs; by destruct (Hfresh _ (Hx _ Hs))|..].
- intros i y Hy o st rid. destruct (ki_version _ Hinv _ _ Hy) as ([Hs (n' & Hn' & ->)] & _).
  destruct (rv_operation y); [|by destruct Hs as (_ & _ & _ & -> & _)].
  destruct Hs as (_ & e & raw & value & _ & _ & -> & _). intros E%(inj Some)%object_key_version; lia.
- intros i x Hx0 E. destruct (ki_receipt _ Hinv _ _ Hx0) as (y & r & Hy & _). rewrite E in Hy. congruence.
- intros i y Hy E. destruct (ki_version _ Hinv _ _ Hy) as (_ & r & Hr0 & _). rewrite E in Hr0.
  by destruct (Hfresh (uuid4 n)); [apply Hr; eauto|].
Qed.

Lemma exists_row_absent {R} (p : uuid → R → bool) (t : gmap uuid R) :
(∀ i x, t !! i = Some x → p i x = false) → exists_row p t = false.
Proof.
intros Hp. unfold exists_row. destruct (head (select p t)) as [[i x]|] eqn:E; [|done].
apply head_select_Some in E as [Hx Ht]. rewrite (Hp _ _ Hx) in Ht. done.
Qed.

Lemma usage_bounds s sid st v current us : kv_inv s → counters_exact s → stores s !! sid = Some st → sound_mutation v →
head (select (record_of sid (vm_key v)) (records s)) = current →
(vm_operation v = DELETE → ∃ i x, current = Some (i, x) ∧ kr_deleted x = false) →
projected_usage st (snd <$> current) v = inr us →
0 ≤ us.1 ≤ MAX_KV_RECORDS ∧ 0 ≤ us.2 ≤ MAX_KV_STORE_BYTES.
Proof.
intros Hinv Hc Hst Hv Hcur Hdel Hu. destruct (Hc _ _ Hst) as ([En Eb] & Hnb & Hbb).
assert (Hsize : ∀ i x, records s !! i = Some x → 0 ≤ kr_current_size_bytes x).
{ intros i x Hx. destruct (current_version _ _ _ Hinv Hx) as (vid & y & _ & _ & _ & [Hs _] & _ & <- & _).
  destruct (rv_operation y); [|destruct Hs as (_ & _ & _ & _ & _ & ->); lia].
  destruct Hs as (_ & e & raw & value & _ & _ & _ & _ & _ & -> & _). lia. }
assert (Hlive : ∀ i x, records s !! i = Some x → kr_store_id x = sid → kr_deleted x = false →
  1 ≤ st_record_count st ∧ kr_current_size_bytes x ≤ st_total_bytes st).
{ intros i x Hx Es Ed. assert (live_in sid x = true) as Hl by (unfold live_in; rewrite bool_decide_eq_true_2, Ed by done; done).
  rewrite En, Eb. split; [by eapply countZ_pos|]. pose proof (sumZ_ge (live_bytes sid) (records s) i x) as Hge.
  unfold live_bytes in Hge at 2. rewrite Hl in Hge. apply Hge; [|done]. intros j y Hy. unfold live_bytes.
  destruct (live_in sid y); [by eapply Hsize|lia]. }
unfold projected_usage in Hu. unfold sound_mutation in Hv.
destruct current as [[i x]|]; cbn [fmap option_fmap option_map snd] in *.
- apply current_Some in Hcur as (Hx & Es & _). pose proof (Hsize _ _ Hx). specialize (Hlive _ _ Hx Es).
  destruct (vm_operation v).
  + destruct Hv as (? & ? & ? & _ & _ & _ & Hlen & _).
    destruct (kr_deleted x); [|destruct Hlive; [done|]]; cbn in Hu; repeat case_match; simplify_eq/=; breflect; lia.
  + destruct Hdel as (? & ? & [= <- <-] & Ed); [done|]. destruct Hlive; [done|]. simplify_eq/=. lia.
- destruct (vm_operation v); [|done]. destruct Hv as (? & ? & ? & _ & _ & _ & Hlen & _).
  repeat case_match; simplify_eq/=; breflect; lia.
Qed.

Lemma put_record_runs s rid cur (x : KeyValueRecord) : (cur = None → records s !! rid = None) →
put_record rid cur x s = (inr (), s <| records ::= <[rid := x]> |>).
Proof. intros Hc. unfold put_record. rewrite run_gets, run_pass; [done|]. destruct cur; [done|]. by rewrite Hc. Qed.

Lemma insert_version_runs s vid y : versions s !! vid = None →
(∀ i z, versions s !! i = Some z → rv_record_id z = rv_record_id y → rv_version z ≠ rv_version y) →
(∀ i z, versions s !! i = Some z → rv_object_key y ≠ None → rv_object_key z ≠ rv_object_key y) →
insert_version vid y s = (inr (), s <| versions ::= <[vid := y]> |>).
Proof.
intros Hv Hn Hk. unfold insert_version. rewrite run_gets, Hv, run_pass, !run_pass; [done|..|done].
- apply exists_row_absent. intros i z Hz. apply andb_false_iff.
  destruct (decide (rv_object_key y = None)) as [E|]; [left|right]; apply bool_decide_eq_false; [by intros ?|by eapply Hk].
- apply exists_row_absent. intros i z Hz. apply andb_false_iff.
  destruct (decide (rv_record_id z = rv_record_id y)) as [E|]; [right; apply Z.eqb_neq; by eapply Hn|left; by apply bool_decide_eq_false].
Qed.

Lemma insert_receipt_runs s x : receipts s !! uuid4 (rng s) = None →
(∀ i z, receipts s !! i = Some z → kx_record_version_id z ≠ kx_record_version_id x) →
insert_receipt x s = (inr (uuid4 (rng s)), s <| rng ::= N.succ |> <| receipts ::= <[uuid4 (rng s) := x]> |>).
Proof.
intros Hx Hv. unfold insert_receipt.
rewrite (run_bind fresh_uuid _ _ (uuid4 (rng s)) (s <| rng ::= N.succ |>)), run_gets by done. cbn [receipts over].
rewrite run_pass, run_pass; [done| |]; [|by rewrite bool_decide_eq_false_2; [|rewrite Hx; intros [? ?]]].
apply exists_row_absent. intros i z Hz. apply bool_decide_eq_false. by eapply Hv.
Qed.

Lemma update_usage_runs s sid st us : stores s !! sid = Some st →
0 ≤ us.1 ≤ MAX_KV_RECORDS → 0 ≤ us.2 ≤ MAX_KV_STORE_BYTES →
update_usage sid st us s = (inr (), s <| stores ::= <[sid := used_row st us st]> |>).
Proof.
intros Hst Hn Hb. unfold update_usage. rewrite run_gets, Hst, (run_some _ _ _ _ st) by done. cbv zeta.
rewrite !run_pass; [done|..]; apply negb_false_iff, andb_true_iff; cbn; rewrite written_current, !Z.leb_le; lia.
Qed.

Lemma record_mutation_runs s s1 sid st user at_ aid rq v rid n cur us : kv_inv s →
records s1 = records s → versions s1 = versions s → receipts s1 = receipts s → stores s1 = stores s →
(rng s ≤ n < rng s1)%N → (rng s1 < draw_limit)%N → stores s !! sid = Some st →
match cur with Some x => records s !! rid = Some x | None => ∃ n', (rng s ≤ n' < draw_limit)%N ∧ rid = uuid4 n' end →
0 ≤ us.1 ≤ MAX_KV_RECORDS → 0 ≤ us.2 ≤ MAX_KV_STORE_BYTES →
∃ o s', record_mutation sid st user at_ aid rq v rid (uuid4 n) cur (object_of sid st rid (uuid4 n) v) us s1 = (inr o, s').
Proof.
intros Hinv Er Ev Ex Es Hn Hlim Hst Hcur Hq1 Hq2.
destruct (fresh_rows s n Hinv) as (_ & Hvn & _ & Hkn & Hxn & _); [lia..|].
destruct (fresh_rows s (rng s1) Hinv) as (_ & _ & Hx1 & _); [lia..|].
unfold record_mutation. eexists _, _. erewrite run_bind; [|apply put_record_runs].
2:{ intros ->. destruct Hcur as (n' & Hn' & ->). rewrite Er. apply fresh_rows; [done|lia..]. }
erewrite run_bind; [|apply insert_version_runs].
2:{ cbn. by rewrite Ev. }
2:{ cbn. rewrite Ev. intros i z Hz E Enext. destruct (ki_version _ Hinv _ _ Hz) as (_ & x & Hx & _ & Hle & _).
    rewrite E in Hx. destruct cur as [x0|]; simpl in Enext; [simplify_eq; lia|].
    destruct Hcur as (n' & Hn' & ->). destruct (fresh_rows s n' Hinv) as (Hnone & _); [lia..|]. congruence. }
2:{ cbn. rewrite Ev. unfold object_of. destruct (vm_operation v); [|done]. intros i z Hz _. by eapply Hkn. }
cbv zeta. erewrite run_bind; [|apply insert_receipt_runs].
2:{ cbn. by rewrite Ex. }
2:{ cbn. rewrite Ex. intros i z Hz. by eapply Hxn. }
erewrite run_bind; [|apply (update_usage_runs _ sid st us); [cbn; by rewrite Es|done..]].
reflexivity.
Qed.

(** No fault of the object storage. *)
Definition quiet : Prop := ∀ n, storage_fault n = None.
Lemma write_object_runs s k content : quiet → write_object k content (sha256_hex content) s =
(inr (), s <| rng ::= N.succ |> <| objects ::= <[k := content]> |>).
Proof.
intros Hq. unfold write_object, storage_request. rewrite run_gets, run_modify, Hq, run_pass; [done|].
by rewrite bool_decide_eq_true_2.
Qed.

Lemma write_version_runs s sid st user at_ aid rq v current us : quiet → (rng s + 4 ≤ draw_limit)%N → kv_inv s → counters_exact s →
stores s !! sid = Some st → sound_mutation v → head (select (record_of sid (vm_key v)) (records s)) = current →
(vm_operation v = DELETE → ∃ i x, current = Some (i, x) ∧ kr_deleted x = false) →
projected_usage st (snd <$> current) v = inr us →
∃ o s', write_version sid st user at_ aid rq v current s = (inr o, s').
Proof.
intros Hq Hlim Hinv Hc Hst Hv Hcur Hdel Hu. pose proof (usage_bounds _ _ _ _ _ _ Hinv Hc Hst Hv Hcur Hdel Hu) as [Hq1 Hq2].
set (rid := match current with Some (i, _) => i | None => uuid4 (rng s) end).
set (s0 := match current with Some _ => s | None => s <| rng ::= N.succ |> end).
assert (Hrow : match snd <$> current with Some x => records s !! rid = Some x | None => ∃ n', (rng s ≤ n' < draw_limit)%N ∧ rid = uuid4 n' end).
{ unfold rid. destruct current as [[i x]|]; cbn; [by apply current_Some in Hcur as [? _]|]. exists (rng s). split; [lia|done]. }
assert (Hs0 : (rng s ≤ rng s0 ≤ rng s + 1)%N ∧ records s0 = records s ∧ versions s0 = versions s ∧ receipts s0 = receipts s ∧
  stores s0 = stores s) by (unfold s0; destruct current; cbn; split_and!; try done; lia).
destruct Hs0 as (Hn0 & Er & Ev & Ex & Es). unfold write_version. unfold sound_mutation in Hv.
rewrite (run_bind _ _ _ rid s0) by (unfold rid, s0; by destruct current as [[]|]).
rewrite (run_bind fresh_uuid _ _ (uuid4 (rng s0)) (s0 <| rng ::= N.succ |>)) by done.
destruct (vm_operation v) eqn:Eop.
- destruct Hv as (e & x & value & _ & Hx & Hsha & _). rewrite (run_some _ _ _ _ x) by done. rewrite Hu. unfold lift at 1.
  rewrite run_ret. cbv zeta. rewrite Hsha. cbn [default]. erewrite run_bind; [|by apply write_object_runs].
  match goal with |- ∃ o s', try_catch (record_mutation _ _ _ _ _ _ _ _ _ _ (Some ?k) _) _ ?t = _ =>
    edestruct (record_mutation_runs s t sid st user at_ aid rq v rid (rng s0) (snd <$> current) us) as (o & s' & Hrun);
      try done; [cbn; lia..|]; unfold object_of in Hrun; rewrite Eop in Hrun end.
  exists o, s'. unfold try_catch. by rewrite Hrun.
- rewrite Hu. unfold lift. rewrite run_ret.
  edestruct (record_mutation_runs s (s0 <| rng ::= N.succ |>) sid st user at_ aid rq v rid (rng s0) (snd <$> current) us)
    as (o & s' & Hrun); try done; [cbn; lia..|]. unfold object_of in Hrun. rewrite Eop in Hrun. eauto.
Qed.

Lemma write_version_refused s sid st user at_ aid rq v current e : sound_mutation v →
projected_usage st (snd <$> current) v = inl e → (write_version sid st user at_ aid rq v current s).1 = inl e.
Proof.
intros Hv Hu. unfold write_version, sound_mutation in *. unfold mbind at 1, M_bind at 1.
destruct current as [[i x]|]; cbn [mret M_ret fresh_uuid];
  (rewrite (run_bind fresh_uuid _ _ _ _ eq_refl); destruct (vm_operation v);
    [destruct Hv as (? & content & ? & _ & Hx & _); rewrite (run_some _ _ _ _ content) by done|]; by rewrite Hu).
Qed.

(** A valid mutation through the route, with the store object just loaded. *)
Definition try_mutation c sid st payload v s : (exn + KeyValueMutationOutcome) * db :=
mutate_key_value_record sid st (cl_user c) (cl_actor_type c) (cl_actor_id c) (cl_request_id c) payload (vm_operation v) s.
Lemma mutate_runs c s sid st payload v : stores s !! sid = Some st → validate_kv_mutation payload = inr v →
try_mutation c sid st payload v s =
match head (select (receipt_of sid (vm_idempotency_key v)) (receipts s)) with
| Some (xid, x) => if bool_decide (kx_request_digest x = vm_request_digest v) then (inr (MkKvOutcome xid x true), s)
                   else (inl idempotency_conflict, s)
| None =>
    let current := head (select (record_of sid (vm_key v)) (records s)) in
    let write := write_version sid st (cl_user c) (cl_actor_type c) (cl_actor_id c) (cl_request_id c) v current s in
    if negb (enforce_expected_version (vm_expected_version v) (kr_current_version ∘ snd <$> current)) then (inl version_conflict, s)
    else match vm_operation v, current with
    | DELETE, None => (inl record_not_found, s)
    | DELETE, Some (_, x) => if kr_deleted x then (inl already_deleted, s) else write
    | SET, _ => write
    end
end.
Proof.
intros Hst Hv. unfold try_mutation, mutate_key_value_record. rewrite Hv, run_ret, run_pass by by rewrite bool_decide_eq_true_2.
rewrite run_gets, Hst, run_pass by by rewrite !bool_decide_eq_true_2. rewrite run_gets.
destruct (head (select (receipt_of sid (vm_idempotency_key v)) (receipts s))) as [[xid x]|].
- destruct (bool_decide (kx_request_digest x = vm_request_digest v)); [by rewrite run_pass|by rewrite run_refuse].
- rewrite run_gets. cbv zeta. destruct (negb (enforce_expected_version _ _)); [by rewrite run_refuse|].
  rewrite run_pass by done. destruct (vm_operation v); [done|].
  destruct (head (select (record_of sid (vm_key v)) (records s))) as [[i x]|]; [|done].
  destruct (kr_deleted x); [by rewrite run_refuse|by rewrite run_pass].
Qed.

Lemma transact_mutation c sid st payload v s : transact true c (Mutate sid st payload (vm_operation v)) s =
match try_mutation c sid st payload v s with
| (inr o, s') => (inr (Mutated o), s')
| (inl e, s') => (inl e, rollback s s')
end.
Proof.
unfold transact, serve, try_mutation, mbind, M_bind. by destruct (mutate_key_value_record _ _ _ _ _ _ _ _ s) as [[e|o] s'].
Qed.

Lemma write_decided c s sid st payload v m current : quiet → (rng s + 4 ≤ draw_limit)%N → kv_inv s → counters_exact s → implements s sid m →
stores s !! sid = Some st → sound_mutation v → accepting s sid v current →
try_mutation c sid st payload v s = write_version sid st (cl_user c) (cl_actor_type c) (cl_actor_id c) (cl_request_id c) v current s →
let t := transact true c (Mutate sid st payload (vm_operation v)) s in
match projected_usage st (snd <$> current) v with
| inl e => t.1 = inl e
| inr _ => ∃ o, t.1 = inr (Mutated o) ∧ ko_replayed o = false ∧
    kx_result_version (ko_receipt o) = next_version (snd <$> current) ∧
    implements t.2 sid (map_after v m (next_version (snd <$> current)))
end.
Proof.
intros Hq Hlim Hinv Hc Hm Hst Hs Ha E. cbv zeta. rewrite transact_mutation, E.
destruct (projected_usage st (snd <$> current) v) as [e|us] eqn:Hu.
- pose proof (write_version_refused s sid st (cl_user c) (cl_actor_type c) (cl_actor_id c) (cl_request_id c) v current e Hs Hu) as He.
  destruct (write_version _ _ _ _ _ _ _ _ s) as [r s']. cbn in He. by subst r.
- edestruct (write_version_runs s sid st (cl_user c) (cl_actor_type c) (cl_actor_id c) (cl_request_id c) v current us)
    as (o & s' & Hrun); try done; [apply Ha|apply Ha|]. rewrite Hrun.
  apply write_version_written in Hrun as (rid & vid & xid & us' & row & Hw).
  + exists o. split; [done|]. rewrite (wr_outcome _ _ _ _ _ _ _ _ _ _ _ _ _ Hw). split_and!; [done..|].
    eapply implements_written; try done. pose proof (wr_rng _ _ _ _ _ _ _ _ _ _ _ _ _ Hw). cbn. lia.
  + intros Eop. unfold sound_mutation in Hs. rewrite Eop in Hs. apply Hs.
Qed.

(** C29: a mutation is decided by the map the store implements: with the storage working, the
  current store object and exact counters, an expected version that does not match, a
  reused key or a missing record is refused with the error of the map, a retry returns the
  version it got the first time, and every other mutation succeeds - unless it exceeds a
  quota - with the version of the map, whose next state the store then implements. *)
Theorem kv_mutations_decided tr s sid st m c payload v (Hrun : kv_run serial init tr s) (Hm : implements s sid m)
  (Hst : stores s !! sid = Some st) (Hwf : wf_json payload) (Hv : validate_kv_mutation payload = inr v) (Hq : quiet)
  (Hroom : (rng s + 4 ≤ draw_limit)%N) :
let t := transact true c (Mutate sid st payload (vm_operation v)) s in
match map_mutate v m with
| inl e => t.1 = inl e
| inr (n, true, _) => ∃ o, t.1 = inr (Mutated o) ∧ ko_replayed o = true ∧ kx_result_version (ko_receipt o) = n
| inr (n, false, m') =>
    match projected_usage st (snd <$> head (select (record_of sid (vm_key v)) (records s))) v with
    | inl e => t.1 = inl e
    | inr _ => ∃ o, t.1 = inr (Mutated o) ∧ ko_replayed o = false ∧ kx_result_version (ko_receipt o) = n ∧
                 implements t.2 sid m'
    end
end.
Proof.
destruct (serial_counters _ _ Hrun) as [Hinv Hc]; [lia|].
pose proof (validated_sound _ _ Hwf Hv) as Hs. pose proof (map_mutate_decides _ _ _ v Hinv Hm) as Hdec.
pose proof (mutate_runs c s sid st payload v Hst Hv) as Hmr. cbv zeta in *. rewrite Hdec.
destruct (head (select (receipt_of sid (vm_idempotency_key v)) (receipts s))) as [[xid x]|] eqn:Ex.
{ rewrite transact_mutation, Hmr. case_bool_decide; [by eexists|done]. }
destruct (enforce_expected_version (vm_expected_version v) _) eqn:Ee; [|by rewrite transact_mutation, Hmr].
assert (Hw := λ Hdel, write_decided c s sid st payload v m _ Hq Hroom Hinv Hc Hm Hst Hs (Build_accepting _ _ _ _ Ex eq_refl Ee Hdel)).
cbn [negb] in Hmr |- *. destruct (vm_operation v) eqn:Eop; [by apply Hw|].
destruct (head (select (record_of sid (vm_key v)) (records s))) as [[i x]|] eqn:Eh.
- destruct (kr_deleted x) eqn:Ed; [by rewrite <- Eop, transact_mutation, Hmr|]. apply Hw; [eauto|done].
- by rewrite <- Eop, transact_mutation, Hmr.
Qed.
End system.

(** ** Witnesses *)

Module KvScenario.
#[local] Existing Instance KvConcrete.plain_digest.
#[local] Existing Instance KvConcrete.no_floats.
#[local] Instance counting : Entropy := λ n, n.
#[local] Instance no_fault : ObjectStorage := λ _, None.
#[local] Program Instance counting_unique : UniqueUuids := {| draw_limit := 2 ^ 128 |}.
Solve All Obligations with done.

Definition me : caller := MkCaller 7 "user" (lit "7") "req".
Definition send (r : request) (s : db) : db := (transact true me r s).2.
Definition answer (r : request) (s : db) : exn + response := (transact true me r s).1.

Lemma run_next allowed s tr s1 r : kv_run allowed s tr s1 → allowed s1 r → wf_request r →
kv_run allowed s (tr ++ [(r, answer r s1)]) (send r s1).
Proof. intros Hrun Ha Hwf. eapply kv_next; [exact Hrun|exact Ha|by constructor]. Qed.

Definition created : request := CreateProject 1 2 (lit "store") 0.
Definition after_create : db := send created init.
Definition loaded (s : db) : KeyValueStore := default (MkStore 0 0 PROJECT None None None [] 0 0 0 0 0) (stores s !! 0%N).
Definition put (s : db) (idem key : string) : request :=
Mutate 0 (loaded s) (KvConcrete.sample idem key KvConcrete.value1) SET.
Definition first : request := put after_create "k1" "a".
Definition after_first : db := send first after_create.

Lemma run_first allowed : allowed init created → allowed after_create first →
kv_run allowed init [(created, answer created init); (first, answer first after_create)] after_first.
Proof.
intros Hc Hf. apply (run_next _ _ [(created, answer created init)]); [|exact Hf|apply KvConcrete.wf_sample_value, KvConcrete.wf_values].
apply (run_next _ _ []); [constructor|exact Hc|exact I].
Qed.
Lemma first_serial : kv_run serial init [(created, answer created init); (first, answer first after_create)] after_first.
Proof. apply run_first; [exact I|]. vm_compute. reflexivity. Qed.

Definition bytes1 : list N := lit "{" ++ print_str (lit "a") ++ lit ":null," ++ print_str (lit "b") ++ lit ":1}".

Lemma first_any : kv_run any init [(created, answer created init); (first, answer first after_create)] after_first.
Proof. by apply run_first. Qed.
Lemma few_draws : (rng after_first ≤ draw_limit)%N.
Proof. vm_compute. discriminate. Qed.

Lemma kv_refines_cas_map_witness : ∃ m,
map_run 0 empty_map [(created, answer created init); (first, answer first after_create)] m ∧
implements after_first 0 m.
Proof. exact (kv_refines_cas_map _ after_first 0 first_any few_draws). Defined.

Lemma kv_reads_exact_witness : ∃ m x, implements after_first 0 m ∧
read_result after_first (lit "a") m = inr x ∧ ks_version x = 1 ∧ ks_value x = KvConcrete.value2.
Proof.
destruct (run_simulates _ _ _ _ first_any few_draws init_inv) as [_ Hsim].
destruct (Hsim 0%N empty_map (empty_holds 0)) as (m & _ & Hm). exists m.
destruct (kv_reads_exact _ after_first 0 m (loaded after_first) (lit "a") first_any few_draws Hm) as [<- _];
  [vm_compute; reflexivity|].
eexists. split; [exact Hm|]. vm_compute. repeat split.
Defined.

Definition second : request := put after_first "k2" "b".
Definition after_second : db := send second after_first.
Lemma second_later : kv_run any after_first [(second, answer second after_first)] after_second.
Proof. apply (run_next _ _ []); [constructor|exact I|apply KvConcrete.wf_sample_value, KvConcrete.wf_values]. Qed.
Lemma kv_history_permanent_witness : ∃ x, versions after_first !! 2%N = Some x ∧ versions after_second !! 2%N = Some x.
Proof.
assert (Hx : is_Some (versions after_first !! 2%N)) by (vm_compute; eexists; reflexivity).
destruct Hx as [x Hx]. exists x. split; [exact Hx|].
assert (Hlim : (rng after_second ≤ draw_limit)%N) by (vm_compute; discriminate).
exact (proj1 (kv_history_permanent _ _ _ _ _ _ first_any second_later Hlim Hx)).
Defined.

Lemma created_empty : implements after_create 0 empty_map.
Proof.
apply (implements_kept init); [|vm_compute; discriminate|apply init_inv|apply empty_holds].
apply (created_only me created _ 0). vm_compute. reflexivity.
Qed.
Lemma kv_mutations_decided_witness : ∃ o, answer first after_create = inr (Mutated o) ∧ ko_replayed o = false ∧
kx_result_version (ko_receipt o) = 1.
Proof.
pose (payload := KvConcrete.sample "k1" "a" KvConcrete.value1).
assert (Hrun : kv_run serial init [(created, answer created init)] after_create)
  by (apply (run_next _ _ []); [constructor|exact I|exact I]).
assert (Hst : stores after_create !! 0%N = Some (loaded after_create)) by (vm_compute; reflexivity).
assert (Hv : validate_kv_mutation payload = inr (KvConcrete.accepted payload)) by (vm_compute; reflexivity).
pose proof (kv_mutations_decided _ after_create 0 _ empty_map me payload _ Hrun created_empty Hst
  (KvConcrete.wf_sample_value _ _ _ (proj1 KvConcrete.wf_values)) Hv (λ _, eq_refl)) as Hd.
assert (Hm : ∃ m', map_mutate (KvConcrete.accepted payload) empty_map = inr (1, false, m')) by (eexists; vm_compute; reflexivity).
assert (Hu : ∃ us, projected_usage (loaded after_create)
  (snd <$> head (select (record_of 0 (vm_key (KvConcrete.accepted payload))) (records after_create)))
  (KvConcrete.accepted payload) = inr us) by (eexists; vm_compute; reflexivity).
destruct Hm as [m' Hm], Hu as [us Hu]. cbv zeta in Hd. rewrite Hm, Hu in Hd.
destruct Hd as (o & Ho & Hr & Hn & _); [vm_compute; discriminate|]. exists o. split; [exact Ho|]. split; assumption.
Defined.

Lemma kv_counters_exact_witness :
stores after_first !! 0%N ≠ None ∧ countZ (live_in 0) (records after_first) = 1.
Proof.
split; [vm_compute; discriminate|].
destruct (kv_counters_exact _ after_first 0 (loaded after_first) first_serial few_draws) as (<- & _); vm_compute; reflexivity.
Defined.

(** Two requests that loaded the store before either took the lock: the second stores the
  counters it computed from the values it loaded, and one live record is not counted. *)
Definition overlapping : request := put after_create "k2" "b".
Example overlapping_writes_miscount :
let s := send overlapping after_first in
countZ (live_in 0) (records s) = 2 ∧ st_record_count (loaded s) = 1.
Proof. vm_compute. split; reflexivity. Qed.
End KvScenario.
