(* ===== verification/DatasetProtocol.v ===== *)
(** Dataset appends (src/apps/api/app/dataset_append_protocol.py): validation of a batch,
    its canonical items and its digest.  Main results: a digest identifies a batch, and a
    canonical item is one line of text. *)

From S2P Require Import Prelude PyVal Json PyUuid Url QueueProtocol.

Definition DS_SCHEMA_VERSION : string := "rdc.dataset-append/v1".
Definition MAX_ITEMS : Z := 100.
Definition MAX_ITEM_BYTES : Z := 65536.
Definition MAX_BATCH_BYTES : Z := 262144.
Definition MAX_ITEM_DEPTH : Z := 32.

Record ValidatedDatasetAppend := MkDatasetAppend {
  va_idempotency_key : pystr;
  va_items : list pyval;
  va_request_digest : pystr;
  va_encoded_bytes : Z }.
Definition va_item_count (a : ValidatedDatasetAppend) : Z := Z.of_nat (length (va_items a)).

(** [_validate_json_value]: the message of the first failure. *)
Fixpoint item_check (v : pyval) (depth : Z) : option string :=
  if MAX_ITEM_DEPTH <? depth then Some "Dataset item exceeds the maximum JSON nesting depth."%string
  else match v with
  | PNone | PBool _ | PInt _ | PStr _ => None
  | PFloat (FFin _) => None
  | PFloat _ => Some "Dataset items cannot contain NaN or Infinity."%string
  | PList l =>
      (fix go l := match l with
       | [] => None
       | x :: l => match item_check x (depth + 1) with Some e => Some e | None => go l end
       end) l
  | PDict kvs =>
      (fix go kvs := match kvs with
       | [] => None
       | (KOther, _) :: _ => Some "Dataset object keys must be strings."%string
       | (KStr _, x) :: kvs =>
           match item_check x (depth + 1) with Some e => Some e | None => go kvs end
       end) kvs
  | POther => Some "Dataset items must contain JSON-compatible values only."%string
  end.

Definition canonical_json_bytes (v : pyval) : exn + list N :=
  match json_bytes v with
  | Some b => inr b
  | None => pfail "Dataset request cannot be canonically encoded."
  end.

(** The members of an item: the first failure. *)
Fixpoint members_check (kvs : list (pykey * pyval)) : option string :=
  match kvs with
  | [] => None
  | (KOther, _) :: _ => Some "Dataset object keys must be strings."%string
  | (KStr _, x) :: kvs => match item_check x 1 with Some e => Some e | None => members_check kvs end
  end.
Definition normalize_item (v : pyval) : exn + pyval :=
  match v with
  | PDict kvs =>
      match members_check kvs with Some e => pfail e | None => inr () end ;;
      b ← canonical_json_bytes (PDict kvs);
      ensure (Z.of_nat (length b) <=? MAX_ITEM_BYTES) "Dataset item exceeds the maximum encoded size." ;;
      inr (PDict kvs)
  | _ => pfail "Each Dataset item must be a JSON object."
  end.
Fixpoint normalize_items (l : list pyval) : exn + list pyval :=
  match l with
  | [] => inr []
  | v :: l => w ← normalize_item v; rest ← normalize_items l; inr (w :: rest)
  end.

(** The normalised request. *)
Definition batch_fields (idempotency_key : pystr) (items : list pyval) : list (pykey * pyval) :=
  [(KStr (lit "schema_version"), PStr (lit DS_SCHEMA_VERSION));
   (KStr (lit "idempotency_key"), PStr idempotency_key);
   (KStr (lit "items"), PList items)].
Definition batch_value (idempotency_key : pystr) (items : list pyval) : pyval :=
  PDict (batch_fields idempotency_key items).
Arguments batch_value : simpl never.

Section validate.
Context `{Sha256}.

Definition validate_dataset_append (value : pyval) : exn + ValidatedDatasetAppend :=
match value with
| PDict d =>
    ensure (has_exact_keys ["schema_version"; "idempotency_key"; "items"] d)
      "Dataset append request fields are invalid." ;;
    ensure (bool_decide (dict_get "schema_version" d = PStr (lit DS_SCHEMA_VERSION)))
      "Dataset append schema version is unsupported." ;;
    key ← match dict_get "idempotency_key" d with
          | PStr k => if safe_key 127 k then inr k else pfail "Dataset append idempotency key is invalid."
          | _ => pfail "Dataset append idempotency key is invalid."
          end;
    raw ← match dict_get "items" d with
          | PList l => if (1 <=? Z.of_nat (length l)) && (Z.of_nat (length l) <=? MAX_ITEMS) then inr l
                       else pfail "Dataset append item count is outside the safe limit."
          | _ => pfail "Dataset append item count is outside the safe limit."
          end;
    items ← normalize_items raw;
    encoded ← canonical_json_bytes (batch_value key items);
    ensure (Z.of_nat (length encoded) <=? MAX_BATCH_BYTES)
      "Dataset append batch exceeds the maximum encoded size." ;;
    inr (MkDatasetAppend key items (sha256_hex encoded) (Z.of_nat (length encoded)))
| _ => pfail "Dataset append request must be an object."
end.
End validate.

(** ** Accepted batches *)

Section accepted.
Context `{PyFloats, Sha256}.
Implicit Types a b : ValidatedDatasetAppend.

(** An item an accepted batch can hold. *)
Definition good_item (v : pyval) : Prop := (∃ kvs, v = PDict kvs) ∧
∃ x, json_bytes v = Some x ∧ Z.of_nat (length x) ≤ MAX_ITEM_BYTES.

Lemma normalize_items_inv l items : normalize_items l = inr items → items = l ∧ Forall good_item items.
Proof.
revert items. induction l as [|v l IH]; intros items; simpl; [by intros [= <-]|].
unfold mbind, sum_bind, normalize_item. destruct v as [| | | | | |kvs|]; try done.
unfold canonical_json_bytes, ensure, pfail, mbind, sum_bind.
destruct (members_check kvs); [done|]. destruct (json_bytes (PDict kvs)) as [x|] eqn:Ej; [|done].
destruct (Z.of_nat (length x) <=? MAX_ITEM_BYTES) eqn:El; [|done].
destruct (normalize_items l) as [|rest]; [done|]. intros [= <-]. breflect. destruct (IH rest eq_refl) as [-> Hr].
split; [done|]. constructor; [|done]. split; [by eexists|]. by exists x.
Qed.

Record accepted_append (d : list (pykey * pyval)) a : Prop := {
aa_key : dict_get "idempotency_key" d = PStr (va_idempotency_key a);
aa_safe : safe_key 127 (va_idempotency_key a) = true;
aa_items : dict_get "items" d = PList (va_items a);
aa_count : 1 ≤ va_item_count a ≤ MAX_ITEMS;
aa_good : Forall good_item (va_items a);
aa_digest : ∃ eb, json_bytes (batch_value (va_idempotency_key a) (va_items a)) = Some eb ∧
  Z.of_nat (length eb) ≤ MAX_BATCH_BYTES ∧ va_request_digest a = sha256_hex eb ∧ va_encoded_bytes a = Z.of_nat (length eb) }.

Lemma append_validate_inv value a : validate_dataset_append value = inr a → ∃ d, value = PDict d ∧ accepted_append d a.
Proof.
destruct value as [| | | | | |d|]; try done. unfold validate_dataset_append, mbind, sum_bind, ensure, pfail. intros Hv.
exists d. split; [done|]. revert Hv.
destruct (has_exact_keys _ d); [|done]. destruct (bool_decide (dict_get "schema_version" d = _)); [|done].
destruct (dict_get "idempotency_key" d) as [| | | |k| | |] eqn:Ek; try done. destruct (safe_key 127 k) eqn:Hk; [|done].
destruct (dict_get "items" d) as [| | | | |l| |] eqn:El; try done.
destruct ((1 <=? Z.of_nat (length l)) && (Z.of_nat (length l) <=? MAX_ITEMS)) eqn:Ec; [|done].
destruct (normalize_items l) as [|items] eqn:Ei; [done|]. unfold canonical_json_bytes, pfail.
destruct (json_bytes (batch_value k items)) as [eb|] eqn:Ej; [|done].
destruct (Z.of_nat (length eb) <=? MAX_BATCH_BYTES) eqn:Eb; [|done]. intros [= <-]. breflect.
apply normalize_items_inv in Ei as [-> Hg]. constructor; cbn; try done; by exists eb.
Qed.

Lemma batch_keys k l : NoDup (batch_fields k l).*1.
Proof. change (NoDup [KStr (lit "schema_version"); KStr (lit "idempotency_key"); KStr (lit "items")]). apply (bool_decide_unpack _). vm_compute. exact I. Qed.

Lemma wf_batch d a : wf_json (PDict d) → accepted_append d a →
wf_json (batch_value (va_idempotency_key a) (va_items a)) ∧ Forall wf_json (va_items a).
Proof.
intros Hw Ha. assert (wf_json (PList (va_items a))) as Hl by (rewrite <- (aa_items _ _ Ha); by apply wf_dict_get).
split; [|by apply wf_list]. apply wf_dict. split; [apply batch_keys|].
repeat (apply Forall_cons; split; [done|]). constructor.
Qed.

Lemma canon_batch k l k' l' : canon (batch_value k l) = canon (batch_value k' l') ↔ k = k' ∧ canon <$> l = canon <$> l'.
Proof.
split.
- intros Hc. pose proof (λ x, canon_dict_find _ _ (lit x) (batch_keys k l) (batch_keys k' l') Hc) as Hk. split.
  + pose proof (Hk "idempotency_key"%string) as E.
    change (Some (PStr k) = Some (PStr k')) in E. congruence.
  + pose proof (Hk "items"%string) as E. change (Some (canon (PList l)) = Some (canon (PList l'))) in E.
    apply (inj Some) in E. rewrite !canon_list in E. congruence.
- intros [-> E]. unfold batch_value, batch_fields. rewrite !canon_dict. do 2 f_equal. cbn -[canon]. by rewrite !canon_list, E.
Qed.

(** The digest of a batch identifies it: for two accepted batches whose encodings SHA-256
  tells apart, the digests agree exactly when the idempotency keys and the items, up to
  the order of object keys, agree. *)
Lemma append_digests_identify v w a b : wf_json v → wf_json w →
validate_dataset_append v = inr a → validate_dataset_append w = inr b →
(∀ x y, json_bytes (batch_value (va_idempotency_key a) (va_items a)) = Some x →
        json_bytes (batch_value (va_idempotency_key b) (va_items b)) = Some y → separates x y) →
va_request_digest a = va_request_digest b ↔
va_idempotency_key a = va_idempotency_key b ∧ canon <$> va_items a = canon <$> va_items b.
Proof.
intros Hv Hw (d & -> & Ha)%append_validate_inv (d' & -> & Hb)%append_validate_inv Hsep.
destruct (aa_digest _ _ Ha) as (x & Ex & _ & -> & _), (aa_digest _ _ Hb) as (y & Ey & _ & -> & _).
rewrite (json_bytes_iff _ _ _ _ (proj1 (wf_batch _ _ Hv Ha)) (proj1 (wf_batch _ _ Hw Hb)) Ex Ey (Hsep _ _ Ex Ey)).
apply canon_batch.
Qed.
End accepted.

(** ** One item, one line *)

Section lines.
Context `{PyFloats}.

(** Every character of the text of a value is printable: no line break. *)
Definition printable (s : list N) : Prop := Forall (λ c, (32 ≤ c)%N) s.

Lemma printable_escape c : printable (escape_char c).
Proof.
unfold escape_char, printable. do 7 (case_match; [by repeat constructor|]).
destruct (N.ltb_spec c 32); [|by constructor].
assert (∀ n, (32 ≤ hex_digit n)%N) as Hh by (intros n; unfold hex_digit; destruct (n <? 10)%N; lia).
repeat constructor; auto; lia.
Qed.
Lemma printable_str s : printable (print_str s).
Proof.
unfold print_str, printable. constructor; [lia|]. apply Forall_app. split; [|constructor; [lia|constructor]].
induction s as [|c s IH]; simpl; [constructor|]. apply Forall_app. split; [apply printable_escape|done].
Qed.

Lemma printable_app s t : printable s → printable t → printable (s ++ t).
Proof. intros. by apply Forall_app. Qed.
Lemma printable_lit s : forallb (λ c, (32 <=? c)%N) s = true → printable s.
Proof. intros Hs. rewrite forallb_forall in Hs. apply Forall_forall. intros c Hc. apply N.leb_le, Hs. by apply list_elem_of_In. Qed.

Lemma printable_num s : Forall (λ c, is_numchar c = true) s → printable s.
Proof.
intros Hs. eapply Forall_impl; [exact Hs|]. intros c Hc. unfold is_numchar, is_digit in Hc.
repeat (apply orb_prop in Hc as [Hc|Hc]); try apply andb_prop in Hc as [Hc _]; rewrite ?N.eqb_eq, ?N.leb_le in Hc; lia.
Qed.

Lemma printable_print v p : wf_json v → print v = Some p → printable p.
Proof.
revert p. induction v as [|b|z|f|s|l IH|kvs IH|] using pyval_ind'; intros p Hw Hp.
- injection Hp as <-. by apply printable_lit.
- injection Hp as <-. destruct b; by apply printable_lit.
- simpl in Hp. unfold print_int in Hp. case_decide; [|done]. injection Hp as <-.
  assert (printable (dec_str (Z.abs_N z))) as Hd.
  { apply printable_num. eapply Forall_impl; [apply uint_str_digits|]. intros c. apply digit_numchar. }
  destruct (z <? 0); [constructor; [lia|done]|done].
- destruct f as [r| | |]; try done. injection Hp as ->. destruct Hw as (Hr & _). by apply printable_num, forallb_numchar.
- injection Hp as <-. apply printable_str.
- rewrite print_list in Hp. apply bind_Some in Hp as (b & Hb & [= <-]). apply wf_list in Hw.
  constructor; [lia|]. apply printable_app; [|by apply printable_lit]. revert b Hb.
  induction l as [|x l IHl]; intros b Hb; [injection Hb as <-; constructor|].
  apply Forall_cons in IH as [IHx IH], Hw as [Wx Hw].
  destruct l as [|y l]; [exact (IHx _ Wx Hb)|]. simpl in Hb. apply bind_Some in Hb as (xb & Hx & (lb & Hl & [= <-])%bind_Some).
  apply printable_app; [exact (IHx _ Wx Hx)|]. constructor; [lia|]. by apply IHl.
- rewrite print_dict in Hp. apply bind_Some in Hp as (b & Hb & [= <-]). apply wf_dict in Hw as [_ Hw].
  constructor; [lia|]. apply printable_app; [|by apply printable_lit]. revert b Hb.
  induction kvs as [|[[k|] x] l IHl]; intros b Hb; [injection Hb as <-; constructor| |by destruct l].
  apply Forall_cons in IH as [IHx IH], Hw as [Wx Hw]. cbn [snd] in *. destruct l as [|y l].
  + simpl in Hb. apply bind_Some in Hb as (xb & Hx & [= <-]).
    apply (printable_app (print_str k)); [apply printable_str|]. constructor; [lia|]. exact (IHx _ Wx Hx).
  + simpl in Hb. apply bind_Some in Hb as (xb & Hx & (lb & Hl & [= <-])%bind_Some).
    apply (printable_app (print_str k)); [apply printable_str|]. constructor; [lia|].
    apply (printable_app xb); [exact (IHx _ Wx Hx)|]. constructor; [lia|]. by apply IHl.
- done.
Qed.

Lemma printable_utf8 s b : utf8_encode s = Some b → printable s → printable b.
Proof.
revert b. induction s as [|c s IH]; intros b Hb Hs; [injection Hb as <-; constructor|]. inversion_clear Hs.
simpl in Hb. apply bind_Some in Hb as (x & Hx & (y & Hy & [= <-])%bind_Some). apply printable_app; [|by apply IH].
unfold utf8_char in Hx. unfold printable. repeat case_match; simplify_eq; 
  repeat (apply Forall_cons; split; [try match goal with |- (_ <= _ + ?n)%N => generalize n; intros end; lia|]); constructor.
Qed.

(** The canonical encoding of an item has no line break: one item, one line. *)
Lemma canonical_one_line v b : wf_json v → json_bytes v = Some b → (10%N ∉ b) ∧ b ≠ [].
Proof.
unfold json_bytes. intros Hw (s & Hs & Hb)%bind_Some. pose proof (printable_print _ _ (wf_canon _ Hw) Hs) as Hp.
split.
- intros Hin. pose proof (printable_utf8 _ _ Hb Hp) as Hpb. unfold printable in Hpb. rewrite Forall_forall in Hpb.
  specialize (Hpb _ Hin). lia.
- intros ->. assert (s = []) as ->.
  { destruct s as [|c s]; [done|]. simpl in Hb. apply bind_Some in Hb as (x & Hx & (y & Hy & E)%bind_Some).
    injection E as E. apply app_eq_nil in E as [-> ->]. unfold utf8_char in Hx. repeat case_match; done. }
  destruct (print_head (canon v) []) as (? & ? & ? & _); [by apply wf_canon|done|done].
Qed.
End lines.
