(* ===== verification/Datasets.v ===== *)
(** Datasets: the tables Dataset, DatasetAppendReceipt and DatasetItem of
    src/apps/api/app/models.py and the operations of services/datasets.py, with the part
    of append_worker_dataset_items (services/execution_plane.py) that follows the
    authorisation of the worker.

    A request uses the dataset object its session loaded before it took the lock, so the
    system ([sys]) keeps the objects loaded by open sessions beside the tables. *)

From S2P Require Import Prelude PyVal Json PyUuid QueueProtocol DatasetProtocol.

(** ** Tables *)

Record Dataset := MkDataset {
  da_organization_id : uuid;
  da_project_id : uuid;
  da_run_id : uuid;
  da_agent_id : uuid;
  da_agent_version_id : uuid;
  da_name : pystr;
  da_item_count : Z;
  da_total_bytes : Z;
  da_next_sequence : Z;
  da_created_by_user_id : uuid;
  da_version : Z;
  da_created_at : time }.
#[export] Instance eta_dataset : Eta Dataset := λ r,
  MkDataset (da_organization_id r) (da_project_id r) (da_run_id r) (da_agent_id r) (da_agent_version_id r)
    (da_name r) (da_item_count r) (da_total_bytes r) (da_next_sequence r) (da_created_by_user_id r)
    (da_version r) (da_created_at r).

Record DatasetAppendReceipt := MkAppendReceipt {
  ar_organization_id : uuid;
  ar_project_id : uuid;
  ar_dataset_id : uuid;
  ar_run_id : uuid;
  ar_idempotency_key : pystr;
  ar_request_digest : pystr;
  ar_first_sequence : Z;
  ar_item_count : Z;
  ar_total_bytes : Z;
  ar_created_by_user_id : uuid }.

Record DatasetItem := MkItem {
  di_organization_id : uuid;
  di_project_id : uuid;
  di_dataset_id : uuid;
  di_append_receipt_id : uuid;
  di_run_id : uuid;
  di_sequence : Z;
  di_item_json : pyval;
  di_size_bytes : Z;
  di_sha256_digest : pystr }.

Record db := MkDb {
  datasets : gmap uuid Dataset;
  receipts : gmap uuid DatasetAppendReceipt;
  items : gmap uuid DatasetItem;
  audits : list audit_event;
  rng : N }.
#[export] Instance eta_db : Eta db := λ s, MkDb (datasets s) (receipts s) (items s) (audits s) (rng s).
#[export] Instance db_audit : HasAudit db := {|
  audit_log := audits;
  audit_push e s := s <| audits ::= λ l, l ++ [e] |>;
  audit_push_log e s := eq_refl |}.

Record DatasetAppendOutcome := MkAppendOutcome {
  ao_receipt_id : uuid; ao_receipt : DatasetAppendReceipt; ao_replayed : bool }.
Record DatasetExportOutcome := MkExport {
  ex_content : list N; ex_sha256_digest : pystr; ex_item_count : Z }.

Definition MAX_DATASET_ITEMS : Z := 100000.
Definition MAX_DATASET_BYTES : Z := 268435456.
Definition MAX_DATASET_EXPORT_ITEMS : Z := 10000.
Definition MAX_DATASET_EXPORT_BYTES : Z := 16777216.

(** What a JSONB column gives back for a value stored in it; [None] when the database
    refuses the value. *)
Class JsonColumn := jsonb : pyval → option pyval.

Section ops.
Context `{Entropy, Sha256, JsonColumn}.
Abbreviation M := (Prelude.M db).

Definition fresh_uuid : M uuid := λ s, (inr (uuid4 (rng s)), s <| rng ::= N.succ |>).

(** ** Creation *)

(** The run a dataset belongs to, as far as the dataset records it. *)
Record run_scope := MkRunScope {
  rs_organization_id : uuid; rs_project_id : uuid; rs_run_id : uuid; rs_agent_id : uuid;
  rs_agent_version_id : uuid; rs_requested_by_user_id : uuid }.

Definition named (run_id : uuid) (name : pystr) (_ : uuid) (d : Dataset) : bool :=
bool_decide (da_run_id d = run_id) && bool_decide (da_name d = name).

Definition insert_dataset (d : Dataset) : M uuid :=
id ← fresh_uuid;
s ← gets (λ s, s);
raise_if (bool_decide (is_Some (datasets s !! id))) (IntegrityError "datasets_pkey") ;;
raise_if (exists_row (named (da_run_id d) (da_name d)) (datasets s)) (IntegrityError "uq_datasets_run_name") ;;
modify (λ s, s <| datasets ::= <[id := d]> |>) ;;
mret id.

Definition create_dataset (run : run_scope) (user_id : uuid) (actor_type : string) (actor_id : pystr)
  (request_id : string) (name : pystr) (now : time) : M (uuid * Dataset) :=
taken ← gets (λ s, exists_row (named (rs_run_id run) name) (datasets s));
raise_if taken (ApiError 409 "DATASET_ALREADY_EXISTS") ;;
let record := MkDataset (rs_organization_id run) (rs_project_id run) (rs_run_id run) (rs_agent_id run)
  (rs_agent_version_id run) name 0 0 1 user_id 1 now in
id ← insert_dataset record;
append_audit_event (MkAudit (Some (rs_organization_id run)) (Some (rs_project_id run)) actor_type actor_id
  "dataset.created" "dataset" (Some id) request_id
  [("run_id"%string, DUuid (rs_run_id run)); ("agent_id"%string, DUuid (rs_agent_id run));
   ("agent_version_id"%string, DUuid (rs_agent_version_id run)); ("name"%string, DText name)]) ;;
mret (id, record).

(** ** Appends *)

Definition append_of (did : uuid) (key : pystr) (_ : uuid) (x : DatasetAppendReceipt) : bool :=
bool_decide (ar_dataset_id x = did) && bool_decide (ar_idempotency_key x = key).

Definition insert_receipt (x : DatasetAppendReceipt) : M uuid :=
id ← fresh_uuid;
s ← gets (λ s, s);
raise_if (bool_decide (is_Some (receipts s !! id))) (IntegrityError "dataset_append_receipts_pkey") ;;
raise_if (exists_row (append_of (ar_dataset_id x) (ar_idempotency_key x)) (receipts s))
  (IntegrityError "uq_dataset_append_receipts_dataset_key") ;;
raise_if (negb ((1 <=? ar_first_sequence x) && (1 <=? ar_item_count x) && (ar_item_count x <=? 100)
                && (1 <=? ar_total_bytes x) && (ar_total_bytes x <=? 262144)))
  (IntegrityError "ck_dataset_append_receipts") ;;
modify (λ s, s <| receipts ::= <[id := x]> |>) ;;
mret id.

Definition at_sequence (did : uuid) (n : Z) (_ : uuid) (i : DatasetItem) : bool :=
bool_decide (di_dataset_id i = did) && (di_sequence i =? n).
Definition insert_item (i : DatasetItem) : M () :=
id ← fresh_uuid;
stored ← get_or_raise (jsonb (di_item_json i)) (RuntimeError "DataError");
s ← gets (λ s, s);
raise_if (bool_decide (is_Some (items s !! id))) (IntegrityError "dataset_items_pkey") ;;
raise_if (exists_row (at_sequence (di_dataset_id i) (di_sequence i)) (items s))
  (IntegrityError "uq_dataset_items_dataset_sequence") ;;
raise_if (negb ((1 <=? di_sequence i) && (1 <=? di_size_bytes i) && (di_size_bytes i <=? 65536)))
  (IntegrityError "ck_dataset_items") ;;
modify (λ s, s <| items ::= <[id := MkItem (di_organization_id i) (di_project_id i) (di_dataset_id i)
  (di_append_receipt_id i) (di_run_id i) (di_sequence i) stored (di_size_bytes i) (di_sha256_digest i)]> |>).

Definition item_row (did : uuid) (d : Dataset) (rid : uuid) (sequence : Z) (item : pyval) (encoded : list N)
  : DatasetItem :=
MkItem (da_organization_id d) (da_project_id d) did rid (da_run_id d) sequence item
  (Z.of_nat (length encoded)) (sha256_hex encoded).
Fixpoint insert_items (did : uuid) (d : Dataset) (rid : uuid) (sequence : Z) (l : list (pyval * list N)) : M () :=
match l with
| [] => mret ()
| (item, encoded) :: l =>
    insert_item (item_row did d rid sequence item encoded) ;;
    insert_items did d rid (sequence + 1) l
end.

(** The UPDATE of a flush, from the object [d] as it was loaded. *)
Definition appended_row (d row : Dataset) (count bytes : Z) : Dataset :=
row <| da_item_count := written (da_item_count d) (da_item_count d + count) (da_item_count row) |>
    <| da_total_bytes := written (da_total_bytes d) (da_total_bytes d + bytes) (da_total_bytes row) |>
    <| da_next_sequence := written (da_next_sequence d) (da_next_sequence d + count) (da_next_sequence row) |>
    <| da_version := da_version d + 1 |>.
Definition update_dataset (did : uuid) (d : Dataset) (count bytes : Z) : M () :=
row ← gets (λ s, datasets s !! did);
row ← get_or_raise row (RuntimeError "StaleDataError");
let row' := appended_row d row count bytes in
raise_if (negb ((0 <=? da_item_count row') && (da_item_count row' <=? 100000))) (IntegrityError "ck_datasets_item_quota") ;;
raise_if (negb ((0 <=? da_total_bytes row') && (da_total_bytes row' <=? 268435456))) (IntegrityError "ck_datasets_byte_quota") ;;
modify (λ s, s <| datasets ::= <[did := row']> |>).

Fixpoint encode_items (l : list pyval) : M (list (pyval * list N)) :=
match l with
| [] => mret []
| v :: l =>
    b ← match canonical_json_bytes v with inr b => mret b | inl e => raise e end;
    rest ← encode_items l;
    mret ((v, b) :: rest)
end.
Definition encoded_bytes (l : list (pyval * list N)) : Z :=
foldr (λ p n, Z.of_nat (length p.2) + n) 0 l.

Definition record_append (did : uuid) (d : Dataset) (user_id : uuid) (actor_type : string) (actor_id : pystr)
  (request_id : string) (a : ValidatedDatasetAppend) (payloads : list (pyval * list N)) : M DatasetAppendOutcome :=
let item_bytes := encoded_bytes payloads in
raise_if (MAX_DATASET_ITEMS <? da_item_count d + va_item_count a) (ApiError 413 "DATASET_ITEM_QUOTA_EXCEEDED") ;;
raise_if (MAX_DATASET_BYTES <? da_total_bytes d + item_bytes) (ApiError 413 "DATASET_BYTE_QUOTA_EXCEEDED") ;;
let receipt := MkAppendReceipt (da_organization_id d) (da_project_id d) did (da_run_id d) (va_idempotency_key a)
  (va_request_digest a) (da_next_sequence d) (va_item_count a) item_bytes user_id in
rid ← insert_receipt receipt;
insert_items did d rid (da_next_sequence d) payloads ;;
update_dataset did d (va_item_count a) item_bytes ;;
append_audit_event (MkAudit (Some (da_organization_id d)) (Some (da_project_id d)) actor_type actor_id
  "dataset.items_appended" "dataset" (Some did) request_id
  [("append_receipt_id"%string, DUuid rid); ("request_digest"%string, DText (va_request_digest a));
   ("first_sequence"%string, DInt (da_next_sequence d)); ("item_count"%string, DInt (va_item_count a));
   ("total_bytes"%string, DInt item_bytes)]) ;;
mret (MkAppendOutcome rid receipt false).

(** [d] is the dataset object the caller loaded. *)
Definition append_dataset_items (did : uuid) (d : Dataset) (user_id : uuid) (actor_type : string) (actor_id : pystr)
  (request_id : string) (payload : pyval) : M DatasetAppendOutcome :=
a ← match validate_dataset_append payload with inr a => mret a | inl e => raise e end;
row ← gets (λ s, datasets s !! did);
raise_if (negb match row with
               | Some r => bool_decide (da_organization_id r = da_organization_id d)
                           && bool_decide (da_project_id r = da_project_id d)
               | None => false
               end) not_found ;;
existing ← gets (λ s, head (select (append_of did (va_idempotency_key a)) (receipts s)));
match existing with
| Some (xid, x) =>
    raise_if (negb (bool_decide (ar_request_digest x = va_request_digest a)))
      (ApiError 409 "DATASET_IDEMPOTENCY_CONFLICT") ;;
    mret (MkAppendOutcome xid x true)
| None =>
    payloads ← encode_items (va_items a);
    record_append did d user_id actor_type actor_id request_id a payloads
end.

(** ** Reads *)

Definition of_dataset (did : uuid) (after : option Z) (_ : uuid) (i : DatasetItem) : bool :=
bool_decide (di_dataset_id i = did) && match after with Some n => n <? di_sequence i | None => true end.
Definition by_sequence : relation (uuid * DatasetItem) := by_keys (λ p, [di_sequence p.2]).

(** A page of at most [limit] items, and whether more follow. *)
Definition list_dataset_items (did : uuid) (after_sequence : option Z) (limit : nat)
  : M (list (uuid * DatasetItem) * bool) :=
rows ← gets (λ s, take (S limit) (order_by by_sequence (select (of_dataset did after_sequence) (items s))));
mret (take limit rows, (limit <? length rows)%nat).

(** The lines of an export: numbered without a gap from 1. *)
Fixpoint export_lines (expected : Z) (rows : list (uuid * DatasetItem)) : M (list N) :=
match rows with
| [] => mret []
| (_, i) :: rows =>
    raise_if (negb (di_sequence i =? expected)) (ApiError 409 "DATASET_EXPORT_SEQUENCE_GAP") ;;
    line ← match canonical_json_bytes (di_item_json i) with inr b => mret b | inl e => raise e end;
    rest ← export_lines (expected + 1) rows;
    mret (line ++ [10%N] ++ rest)
end.

Definition export_dataset_jsonl (did : uuid) (d : Dataset) (actor_type : string) (actor_id : pystr)
  (request_id : string) : M DatasetExportOutcome :=
raise_if (MAX_DATASET_EXPORT_ITEMS <? da_item_count d) (ApiError 413 "DATASET_EXPORT_ITEM_LIMIT_EXCEEDED") ;;
raise_if (MAX_DATASET_EXPORT_BYTES <? da_total_bytes d + da_item_count d)
  (ApiError 413 "DATASET_EXPORT_BYTE_LIMIT_EXCEEDED") ;;
rows ← gets (λ s, take (S (Z.to_nat MAX_DATASET_EXPORT_ITEMS))
                    (order_by by_sequence (select (of_dataset did None) (items s))));
raise_if (negb (Z.of_nat (length rows) =? da_item_count d)) (ApiError 409 "DATASET_EXPORT_INCOMPLETE") ;;
content ← export_lines 1 rows;
raise_if (MAX_DATASET_EXPORT_BYTES <? Z.of_nat (length content)) (ApiError 413 "DATASET_EXPORT_BYTE_LIMIT_EXCEEDED") ;;
append_audit_event (MkAudit (Some (da_organization_id d)) (Some (da_project_id d)) actor_type actor_id
  "dataset.exported" "dataset" (Some did) request_id
  [("run_id"%string, DUuid (da_run_id d)); ("agent_version_id"%string, DUuid (da_agent_version_id d));
   ("format"%string, DStr "jsonl"); ("item_count"%string, DInt (Z.of_nat (length rows)));
   ("size_bytes"%string, DInt (Z.of_nat (length content))); ("sha256_digest"%string, DText (sha256_hex content))]) ;;
mret (MkExport content (sha256_hex content) (Z.of_nat (length rows))).

(** ** Loading *)

Definition load_dataset (did : uuid) : M (uuid * Dataset) :=
row ← gets (λ s, datasets s !! did);
d ← get_or_raise row not_found;
mret (did, d).

(** The worker's dataset is the one named default of its run; it is created by the first
  append. *)
Definition default_dataset (run : run_scope) (did : uuid) (d : Dataset) : bool :=
bool_decide (da_organization_id d = rs_organization_id run) && bool_decide (da_project_id d = rs_project_id run)
&& named (rs_run_id run) (lit "default") did d.
Definition load_worker_dataset (run : run_scope) : M (option (uuid * Dataset)) :=
gets (λ s, head (select (default_dataset run) (datasets s))).
Definition append_for_worker (run : run_scope) (worker_id : uuid) (request_id : string) (payload : pyval) (now : time)
  (loaded : option (uuid * Dataset)) : M DatasetAppendOutcome :=
'(did, d) ← match loaded with
            | Some p => mret p
            | None => create_dataset run (rs_requested_by_user_id run) "worker" (str_of_uuid worker_id) request_id
                        (lit "default") now
            end;
append_dataset_items did d (rs_requested_by_user_id run) "worker" (str_of_uuid worker_id) request_id payload.
End ops.
