(* ===== verification/DatasetsSpec.v ===== *)
(** Correctness of datasets (Datasets.v): every dataset is a gap-free, append-only log whose
    counters are exact, however the loads and appends of different sessions interleave;
    appends are idempotent, and an export is the log, one canonical line per item. *)

From S2P Require Import Prelude PyVal Json PyUuid QueueProtocol DatasetProtocol.
From S2P Require Import Datasets.

(** ** Sessions *)

Record caller := MkCaller { cl_user : uuid; cl_actor_type : string; cl_actor_id : pystr; cl_request_id : string }.

(** The tables, and what open sessions have loaded: a dataset, or for a worker that no
    dataset is there yet. *)
Record sys := MkSys { tables : db; loaded : gmap N (option (uuid * Dataset)) }.
#[export] Instance eta_sys : Eta sys := λ x, MkSys (tables x) (loaded x).

Inductive action :=
| Create (run : run_scope) (name : pystr) (now : time)
| Load (k : N) (did : uuid)
| LoadWorker (k : N) (run : run_scope)
| Append (k : N) (payload : pyval)
| AppendWorker (k : N) (run : run_scope) (worker_id : uuid) (payload : pyval) (now : time)
| Export (k : N).
Inductive response := Created (id : uuid) | Loaded | Appended (o : DatasetAppendOutcome) | Exported (e : DatasetExportOutcome).

Definition init : sys := MkSys (MkDb ∅ ∅ ∅ [] 0) ∅.

Section spec.
Context `{Entropy, Sha256, PyFloats, JsonColumn}.
Implicit Types (s : db).

(** An error, or a failed commit, rolls the tables back; identifiers stay drawn. *)
Definition transact {A} (commit : bool) (m : Prelude.M db A) s : (exn + A) * db :=
match m s with
| (inr a, s') => if commit then (inr a, s') else (inl (RuntimeError "commit"), s <| rng := rng s' |>)
| (inl e, s') => (inl e, s <| rng := rng s' |>)
end.

Definition reply {A} (f : A → response) (r : (exn + A) * db) (x : sys) : (exn + response) * sys :=
(match r.1 with inr a => inr (f a) | inl e => inl e end, x <| tables := r.2 |>).

Definition act (commit : bool) (c : caller) (a : action) (x : sys) : (exn + response) * sys :=
match a with
| Create run name now =>
    reply (λ p, Created p.1) (transact commit
      (create_dataset run (cl_user c) (cl_actor_type c) (cl_actor_id c) (cl_request_id c) name now) (tables x)) x
| Load k did =>
    match load_dataset did (tables x) with
    | (inr p, _) => (inr Loaded, x <| loaded ::= <[k := Some p]> |>)
    | (inl e, _) => (inl e, x)
    end
| LoadWorker k run =>
    match load_worker_dataset run (tables x) with
    | (inr o, _) => (inr Loaded, x <| loaded ::= <[k := o]> |>)
    | (inl e, _) => (inl e, x)
    end
| Append k payload =>
    match loaded x !! k with
    | Some (Some (did, d)) =>
        reply Appended (transact commit
          (append_dataset_items did d (cl_user c) (cl_actor_type c) (cl_actor_id c) (cl_request_id c) payload) (tables x))
          (x <| loaded ::= delete k |>)
    | _ => (inl not_found, x)
    end
| AppendWorker k run worker_id payload now =>
    match loaded x !! k with
    | Some o =>
        reply Appended (transact commit (append_for_worker run worker_id (cl_request_id c) payload now o) (tables x))
          (x <| loaded ::= delete k |>)
    | None => (inl not_found, x)
    end
| Export k =>
    match loaded x !! k with
    | Some (Some (did, d)) =>
        reply Exported (transact commit
          (export_dataset_jsonl did d (cl_actor_type c) (cl_actor_id c) (cl_request_id c)) (tables x))
          (x <| loaded ::= delete k |>)
    | _ => (inl not_found, x)
    end
end.

(** Payloads are parsed JSON; the items of a run can be restricted further. *)
Context (admissible : pyval → Prop).
Definition allowed_payload (payload : pyval) : Prop := wf_json payload ∧
∀ a, validate_dataset_append payload = inr a → Forall admissible (va_items a).
Definition allowed (a : action) : Prop :=
match a with Append _ p | AppendWorker _ _ _ p _ => allowed_payload p | _ => True end.

Inductive step (x : sys) : sys → Prop :=
| step_act commit c a : allowed a → step x (act commit c a x).2.
Definition reachable (x : sys) : Prop := rtc step init x.

(** ** The log of a dataset *)

Definition item_at s (did : uuid) (n : Z) : option DatasetItem := snd <$> head (select (at_sequence did n) (items s)).
Definition bytes_in (did : uuid) (i : DatasetItem) : Z := if bool_decide (di_dataset_id i = did) then di_size_bytes i else 0.

(** Exactly the sequence numbers up to [n] are taken. *)
Record log_ok s (did : uuid) (n : Z) : Prop := {
lo_range : ∀ i r, items s !! i = Some r → di_dataset_id r = did → 1 ≤ di_sequence r ≤ n;
lo_all : ∀ m, 1 ≤ m ≤ n → ∃ i r, items s !! i = Some r ∧ di_dataset_id r = did ∧ di_sequence r = m }.

(** An item row holds what was appended: its stored form, size and digest. *)
Definition item_ok (i : DatasetItem) : Prop := ∃ v b,
admissible v ∧ wf_json v ∧ jsonb v = Some (di_item_json i) ∧ json_bytes v = Some b ∧
di_size_bytes i = Z.of_nat (length b) ∧ di_sha256_digest i = sha256_hex b.

Record ds_inv s : Prop := {
dv_dataset : ∀ did d, datasets s !! did = Some d → log_ok s did (da_item_count d) ∧
  0 ≤ da_item_count d ≤ MAX_DATASET_ITEMS ∧ da_next_sequence d = da_item_count d + 1 ∧
  da_total_bytes d = sumZ (bytes_in did) (items s) ∧ da_total_bytes d ≤ MAX_DATASET_BYTES;
dv_name : ∀ i j d d', datasets s !! i = Some d → datasets s !! j = Some d' →
  da_run_id d = da_run_id d' → da_name d = da_name d' → i = j;
dv_item : ∀ i r, items s !! i = Some r → item_ok r ∧ is_Some (datasets s !! di_dataset_id r) ∧
  ∃ y, receipts s !! di_append_receipt_id r = Some y ∧ ar_dataset_id y = di_dataset_id r ∧
    ar_first_sequence y ≤ di_sequence r < ar_first_sequence y + ar_item_count y;
dv_sequence : ∀ i j r r', items s !! i = Some r → items s !! j = Some r' →
  di_dataset_id r = di_dataset_id r' → di_sequence r = di_sequence r' → i = j;
dv_receipt : ∀ i y, receipts s !! i = Some y → ∃ d, datasets s !! ar_dataset_id y = Some d ∧
  1 ≤ ar_first_sequence y ∧ 1 ≤ ar_item_count y ∧ ar_first_sequence y + ar_item_count y ≤ da_next_sequence d;
dv_receipt_key : ∀ i j y z, receipts s !! i = Some y → receipts s !! j = Some z →
  ar_dataset_id y = ar_dataset_id z → ar_idempotency_key y = ar_idempotency_key z → i = j }.

(** A loaded object is the row, or the row before later appends. *)
Definition stale (d row : Dataset) : Prop :=
da_organization_id d = da_organization_id row ∧ da_project_id d = da_project_id row ∧ da_run_id d = da_run_id row ∧
1 ≤ da_next_sequence d ≤ da_next_sequence row ∧ (da_next_sequence d = da_next_sequence row → d = row).
Definition loaded_ok (x : sys) : Prop := ∀ k did d, loaded x !! k = Some (Some (did, d)) →
∃ row, datasets (tables x) !! did = Some row ∧ stale d row.

(** ** Single inserts *)

Lemma item_at_Some s did n i r : ds_inv s → items s !! i = Some r → di_dataset_id r = did → di_sequence r = n →
item_at s did n = Some r.
Proof.
intros Hinv Hi <- <-. unfold item_at. rewrite (head_select_unique _ _ i r); [done| |done|].
- unfold at_sequence. intros a b y z Hy Hz Ey Ez. breflect. apply (dv_sequence _ Hinv _ _ _ _ Hy Hz); congruence.
- unfold at_sequence. by rewrite bool_decide_eq_true_2, Z.eqb_refl.
Qed.
Lemma item_at_inv s did n r : item_at s did n = Some r → ∃ i, items s !! i = Some r ∧ di_dataset_id r = did ∧ di_sequence r = n.
Proof.
unfold item_at. intros ([i r'] & Hh & [= ->])%fmap_Some. apply head_select_Some in Hh as [Hi Hs].
unfold at_sequence in Hs. breflect. eauto.
Qed.

Lemma taken_refused did d rid n l s i r : items s !! i = Some r → di_dataset_id r = did → di_sequence r = n → l ≠ [] →
wp (insert_items did d rid n l) (λ _ _, False) s.
Proof.
intros Hi Ed En Hl. destruct l as [|[v b] l]; [done|]. cbn [insert_items]. apply wp_bind.
assert (Hex : ∀ t, items t = items s → exists_row (at_sequence did n) (items t) = true).
{ intros t ->. unfold exists_row. destruct (head (select (at_sequence did n) (items s))) eqn:Eh; [done|].
  pose proof (head_select_None _ _ Eh _ _ Hi) as Hf. unfold at_sequence in Hf. rewrite Ed, En in Hf.
  rewrite bool_decide_eq_true_2, Z.eqb_refl in Hf by done. done. }
unfold insert_item. apply wp_bind. intros id s1 [= <- <-]. wp_steps.
exfalso. cbn in *. rewrite Hex in * by done. done.
Qed.

(** ** A batch of inserts *)

Definition with_json (r : DatasetItem) (w : pyval) : DatasetItem :=
MkItem (di_organization_id r) (di_project_id r) (di_dataset_id r) (di_append_receipt_id r) (di_run_id r)
  (di_sequence r) w (di_size_bytes r) (di_sha256_digest r).
(** The rows a batch is stored as, from sequence number [n] on. *)
Fixpoint stored_rows (did : uuid) (d : Dataset) (rid : uuid) (n : Z) (l : list (pyval * list N)) : option (list DatasetItem) :=
match l with
| [] => Some []
| (v, b) :: l => w ← jsonb v; rest ← stored_rows did d rid (n + 1) l; Some (with_json (item_row did d rid n v b) w :: rest)
end.
Definition row_bytes (rows : list DatasetItem) : Z := foldr (λ r n, di_size_bytes r + n) 0 rows.

Implicit Types (m : gmap uuid DatasetItem).
Definition sequences_unique m : Prop := ∀ i j r r', m !! i = Some r → m !! j = Some r' →
di_dataset_id r = di_dataset_id r' → di_sequence r = di_sequence r' → i = j.

Record extended m m' (did : uuid) (n : Z) (rows : list DatasetItem) : Prop := {
xt_old : m ⊆ m';
xt_new : ∀ i r, m' !! i = Some r → m !! i = Some r ∨ ∃ j : nat, rows !! j = Some r;
xt_rows : ∀ (j : nat) r, rows !! j = Some r → (∃ i, m' !! i = Some r) ∧ di_dataset_id r = did ∧ di_sequence r = n + Z.of_nat j;
xt_free : ∀ i r, m !! i = Some r → di_dataset_id r = did → n ≤ di_sequence r < n + Z.of_nat (length rows) → False;
xt_sum : ∀ did', sumZ (bytes_in did') m' =
  sumZ (bytes_in did') m + (if bool_decide (did = did') then row_bytes rows else 0);
xt_unique : sequences_unique m → sequences_unique m' }.

Lemma extended_nil m did n : extended m m did n [].
Proof.
constructor; try done; cbn.
- auto.
- intros; lia.
- intros did'. destruct (bool_decide (did = did')); lia.
Qed.

Lemma extended_cons m m1 m2 did n r rows :
extended m m1 did n [r] → extended m1 m2 did (n + 1) rows → extended m m2 did n (r :: rows).
Proof.
intros [Ho Hn Hr Hf Hs Hu] [Ho' Hn' Hr' Hf' Hs' Hu']. constructor.
- by etrans.
- intros i x Hi. apply Hn' in Hi as [[Hi|(j & Hj)]%Hn|(j & Hj)]; [by left| |right; by exists (S j)].
  right. exists 0%nat. destruct j; [done|by destruct j].
- intros [|j] x Hj.
  + destruct (Hr 0%nat x Hj) as ((i & Hi) & ? & ?). split; [|done]. exists i. by eapply lookup_weaken.
  + destruct (Hr' j x Hj) as (? & ? & ->). split_and!; [done..|lia].
- intros i x Hi Edx Hrange. destruct (decide (di_sequence x = n)) as [E|E].
  + apply (Hf i x Hi Edx). simpl. lia.
  + apply (Hf' i x); [by eapply lookup_weaken|done|]. simpl in Hrange. lia.
- intros did'. rewrite Hs', Hs. destruct (bool_decide (did = did')); simpl; lia.
- auto.
Qed.

Lemma extended_insert m id r : m !! id = None → (∀ i x, m !! i = Some x → at_sequence (di_dataset_id r) (di_sequence r) i x = false) →
extended m (<[id := r]> m) (di_dataset_id r) (di_sequence r) [r].
Proof.
intros Hid Hfree.
assert (Hno : ∀ i x, m !! i = Some x → di_dataset_id x = di_dataset_id r → di_sequence x ≠ di_sequence r).
{ intros i x Hi E E'. specialize (Hfree i x Hi). unfold at_sequence in Hfree. rewrite E, E' in Hfree.
  by rewrite bool_decide_eq_true_2, Z.eqb_refl in Hfree. }
constructor.
- by apply insert_subseteq.
- intros i x [[<- <-]|[_ Hi]]%lookup_insert_Some; [right; by exists 0%nat|by left].
- intros [|j] x Hj; [injection Hj as <-|by destruct j]. split; [exists id; apply lookup_insert_eq|]. split; [done|lia].
- intros i x Hi Ed Hn. apply (Hno i x Hi Ed). cbn in Hn. lia.
- intros did'. rewrite sumZ_insert_new by done. unfold bytes_in at 1. cbn. destruct (bool_decide (di_dataset_id r = did')); lia.
- intros Hu i j x y. cbn. intros [[<- <-]|[_ Hi]]%lookup_insert_Some [[<- <-]|[_ Hj]]%lookup_insert_Some Ed En; [done|..].
  + by destruct (Hno j y Hj).
  + by destruct (Hno i x Hi).
  + by eapply Hu.
Qed.

Lemma insert_item_extends r s : wp (insert_item r) (λ _ s', ∃ w, jsonb (di_item_json r) = Some w ∧
  datasets s' = datasets s ∧ receipts s' = receipts s ∧ rng s' = N.succ (rng s) ∧
  extended (items s) (items s') (di_dataset_id r) (di_sequence r) [with_json r w]) s.
Proof.
unfold insert_item. apply wp_bind. intros id s1 [= <- <-]. wp_steps. breflect. eexists. split_and!; [done..|].
apply (extended_insert (items s) (uuid4 (rng s)) (with_json r _)); [by apply eq_None_not_Some|]. by apply exists_row_false.
Qed.

Lemma insert_items_extend did d rid l : ∀ n s, wp (insert_items did d rid n l) (λ _ s', ∃ rows,
  stored_rows did d rid n l = Some rows ∧ datasets s' = datasets s ∧ receipts s' = receipts s ∧
  (rng s' = rng s + N.of_nat (length l))%N ∧ extended (items s) (items s') did n rows) s.
Proof.
induction l as [|[v b] l IH]; intros n s.
- apply wp_ret. exists []. split_and!; [done..|cbn; lia|apply extended_nil].
- cbn [insert_items]. apply wp_bind. eapply wp_mono; [|apply insert_item_extends]. intros [] s1 (w & Hw & Ed & Er & En & Hx).
  eapply wp_mono; [|apply IH]. intros [] s2 (rows & Hrows & Ed' & Er' & En' & Hx'). cbn [stored_rows]. cbn in Hw. rewrite Hw. cbn.
  rewrite Hrows. eexists. split_and!; [done|congruence..|cbn [length]; lia|]. by eapply extended_cons.
Qed.

Lemma stored_rows_lookup did d rid l rows : ∀ n (j : nat) r, stored_rows did d rid n l = Some rows → rows !! j = Some r →
∃ v b w, l !! j = Some (v, b) ∧ jsonb v = Some w ∧ r = with_json (item_row did d rid (n + Z.of_nat j) v b) w.
Proof.
revert rows. induction l as [|[v b] l IH]; intros rows n j r; cbn [stored_rows]; [by intros [= <-]|].
intros (w & Hw & (rest & Hrest & [= <-])%bind_Some)%bind_Some Hj. destruct j as [|j].
- injection Hj as <-. exists v, b, w. by rewrite Z.add_0_r.
- destruct (IH _ _ _ _ Hrest Hj) as (v' & b' & w' & ? & ? & ->). exists v', b', w'. split_and!; [done..|].
  do 2 f_equal. lia.
Qed.
Lemma stored_rows_length did d rid l rows n : stored_rows did d rid n l = Some rows →
length rows = length l ∧ row_bytes rows = encoded_bytes l.
Proof.
revert rows n. induction l as [|[v b] l IH]; intros rows n; cbn [stored_rows]; [by intros [= <-]|].
intros (w & Hw & (rest & Hrest & [= <-])%bind_Some)%bind_Some. destruct (IH _ _ Hrest) as [El Eb]. unfold row_bytes, encoded_bytes in *. cbn. by rewrite El, Eb.
Qed.

(** ** Appends *)

Lemma encode_items_spec l s : wp (encode_items l) (λ ps s', s' = s ∧ ps.*1 = l ∧
  Forall (λ p, json_bytes p.1 = Some p.2) ps) s.
Proof.
induction l as [|v l IH]; cbn [encode_items]; [by apply wp_ret|]. unfold canonical_json_bytes.
destruct (json_bytes v) as [b|] eqn:Eb; [|apply wp_bind, wp_raise]. apply wp_bind, wp_ret, wp_bind.
eapply wp_mono; [|exact IH]. intros ps s' (-> & <- & Hps). apply wp_ret. split_and!; [done..|]. by constructor.
Qed.

Definition receipt_for (did : uuid) (d : Dataset) (user : uuid) (a : ValidatedDatasetAppend) (bytes : Z) : DatasetAppendReceipt :=
MkAppendReceipt (da_organization_id d) (da_project_id d) did (da_run_id d) (va_idempotency_key a)
  (va_request_digest a) (da_next_sequence d) (va_item_count a) bytes user.

Record appended s s' (did : uuid) (d : Dataset) (user : uuid) (a : ValidatedDatasetAppend) (o : DatasetAppendOutcome)
  (payloads : list (pyval * list N)) (xid : uuid) (rows : list DatasetItem) (row : Dataset) : Prop := {
ap_new : head (select (append_of did (va_idempotency_key a)) (receipts s)) = None;
ap_items : payloads.*1 = va_items a;
ap_encoded : Forall (λ p, json_bytes p.1 = Some p.2) payloads;
ap_xid : receipts s !! xid = None;
ap_outcome : o = MkAppendOutcome xid (receipt_for did d user a (encoded_bytes payloads)) false;
ap_receipts : receipts s' = <[xid := receipt_for did d user a (encoded_bytes payloads)]> (receipts s);
ap_rows : stored_rows did d xid (da_next_sequence d) payloads = Some rows;
ap_extended : extended (items s) (items s') did (da_next_sequence d) rows;
ap_row : datasets s !! did = Some row;
ap_quota : da_item_count d + va_item_count a ≤ MAX_DATASET_ITEMS ∧ da_total_bytes d + encoded_bytes payloads ≤ MAX_DATASET_BYTES;
ap_datasets : datasets s' = <[did := appended_row d row (va_item_count a) (encoded_bytes payloads)]> (datasets s) }.

Lemma record_append_spec did d user at_ aid rq a payloads s :
head (select (append_of did (va_idempotency_key a)) (receipts s)) = None →
payloads.*1 = va_items a → Forall (λ p, json_bytes p.1 = Some p.2) payloads →
wp (record_append did d user at_ aid rq a payloads) (λ o s', ∃ xid rows row,
  appended s s' did d user a o payloads xid rows row) s.
Proof.
intros Hno Hit Hen. unfold record_append, insert_receipt. wp_steps. intros id s1 [= <- <-]. wp_steps.
eapply wp_mono; [|apply insert_items_extend]. intros [] s2 (rows & Hrows & Ed & Er & En & Hx). cbn in Ed, Er, Hx.
unfold update_dataset. wp_steps. breflect. rewrite Ed in *. eexists _, rows, _. constructor; try done; cbn.
- by apply eq_None_not_Some.
- by rewrite Ed.
Qed.

Lemma append_outcome did d user at_ aid rq payload s :
wp (append_dataset_items did d user at_ aid rq payload) (λ o s', ∃ a, validate_dataset_append payload = inr a ∧
  ((∃ xid y, head (select (append_of did (va_idempotency_key a)) (receipts s)) = Some (xid, y) ∧
      ar_request_digest y = va_request_digest a ∧ o = MkAppendOutcome xid y true ∧ s' = s) ∨
   (∃ payloads xid rows row, appended s s' did d user a o payloads xid rows row))) s.
Proof.
unfold append_dataset_items. apply wp_bind. destruct (validate_dataset_append payload) as [e|a] eqn:Ea; [apply wp_raise|].
apply wp_ret. wp_steps; breflect.
- exists a. split; [done|]. left. eauto 10.
- eapply wp_mono; [|apply encode_items_spec]. intros ps s' (-> & Hit & Hen).
  eapply wp_mono; [|by apply record_append_spec]. intros o s2 (xid & rows & row & Hap). exists a. split; [done|]. right. eauto.
Qed.


Lemma stale_refl d : 1 ≤ da_next_sequence d → stale d d.
Proof. intros. repeat split; done || lia. Qed.

(** What the items of a batch are known to be. *)
Definition good_batch (a : ValidatedDatasetAppend) : Prop :=
1 ≤ va_item_count a ∧ Forall (λ v, wf_json v ∧ admissible v) (va_items a).
Lemma allowed_batch payload a : allowed_payload payload → validate_dataset_append payload = inr a → good_batch a.
Proof.
intros [Hw Had] Ha. pose proof (Had _ Ha) as Hall. apply append_validate_inv in Ha as (d & -> & Ha).
split; [apply (aa_count _ _ Ha)|]. apply Forall_and. split; [|done]. by apply (wf_batch d a).
Qed.

Section append.
Context {s s' did d user a o payloads xid rows row} (Hinv : ds_inv s) (Hg : good_batch a)
  (Hap : appended s s' did d user a o payloads xid rows row) (Hst : stale d row).

Lemma batch_length : Z.of_nat (length rows) = va_item_count a ∧ 1 ≤ va_item_count a ∧ row_bytes rows = encoded_bytes payloads.
Proof.
destruct (stored_rows_length _ _ _ _ _ _ (ap_rows _ _ _ _ _ _ _ _ _ _ _ Hap)) as [El ->].
split; [|by destruct Hg]. unfold va_item_count. rewrite <- (ap_items _ _ _ _ _ _ _ _ _ _ _ Hap), length_fmap. lia.
Qed.

(** Only an append on the current row gets through. *)
Lemma appended_current : d = row.
Proof.
destruct Hst as (_ & _ & _ & Hn & Heq). destruct (decide (da_next_sequence d = da_next_sequence row)) as [|Hne]; [auto|].
destruct (dv_dataset _ Hinv _ _ (ap_row _ _ _ _ _ _ _ _ _ _ _ Hap)) as (Hlog & _ & Hnext & _).
destruct (lo_all _ _ _ Hlog (da_next_sequence d)) as (i & r & Hr & Ed & En); [lia|].
destruct batch_length as (Hl & Hc & _). destruct (xt_free _ _ _ _ _ (ap_extended _ _ _ _ _ _ _ _ _ _ _ Hap) i r Hr Ed). lia.
Qed.

Notation row' := (appended_row row row (va_item_count a) (encoded_bytes payloads)).
Lemma row_fields : da_item_count row' = da_item_count row + va_item_count a ∧
da_total_bytes row' = da_total_bytes row + encoded_bytes payloads ∧
da_next_sequence row' = da_next_sequence row + va_item_count a ∧ da_run_id row' = da_run_id row ∧ da_name row' = da_name row.
Proof. unfold appended_row. cbn. by rewrite !written_current. Qed.

Lemma appended_datasets : datasets s' = <[did := row']> (datasets s).
Proof. rewrite (ap_datasets _ _ _ _ _ _ _ _ _ _ _ Hap). by rewrite appended_current. Qed.

Lemma new_rows (j : nat) r : rows !! j = Some r → ∃ v b w, payloads !! j = Some (v, b) ∧ json_bytes v = Some b ∧ jsonb v = Some w ∧
wf_json v ∧ admissible v ∧ r = with_json (item_row did row xid (da_next_sequence row + Z.of_nat j) v b) w.
Proof.
intros Hj. destruct (stored_rows_lookup _ _ _ _ _ _ _ _ (ap_rows _ _ _ _ _ _ _ _ _ _ _ Hap) Hj) as (v & b & w & Hp & Hw & ->).
exists v, b, w. pose proof (ap_encoded _ _ _ _ _ _ _ _ _ _ _ Hap) as Hen. rewrite Forall_forall in Hen.
pose proof (Hen _ (list_elem_of_lookup_2 _ _ _ Hp)) as Hb. destruct Hg as [_ Hgood].
rewrite <- (ap_items _ _ _ _ _ _ _ _ _ _ _ Hap), Forall_fmap, Forall_forall in Hgood.
destruct (Hgood _ (list_elem_of_lookup_2 _ _ _ Hp)). split_and!; try done. by rewrite appended_current.
Qed.

Lemma appended_log : log_ok s' did (da_item_count row').
Proof.
destruct (dv_dataset _ Hinv _ _ (ap_row _ _ _ _ _ _ _ _ _ _ _ Hap)) as ([Hr Hall] & Hc & Hnext & _).
destruct row_fields as (-> & _). destruct batch_length as (Hl & Hpos & _).
pose proof (ap_extended _ _ _ _ _ _ _ _ _ _ _ Hap) as [Hold Hnew Hrows _ _ _]. rewrite appended_current in *. split.
- intros i r Hi Ed. destruct (Hnew i r Hi) as [Hi'|(j & Hj)].
  + specialize (Hr i r Hi' Ed). lia.
  + destruct (Hrows j r Hj) as (_ & _ & ->). apply lookup_lt_Some in Hj. lia.
- intros m Hm. destruct (decide (m ≤ da_item_count row)) as [Hle|Hgt].
  + destruct (Hall m) as (i & r & Hi & ? & ?); [lia|]. exists i, r. split; [by eapply lookup_weaken|done].
  + destruct (lookup_lt_is_Some_2 rows (Z.to_nat (m - da_next_sequence row))) as [r Hj]; [lia|].
    destruct (Hrows _ _ Hj) as ((i & Hi) & Ed & En). exists i, r. split_and!; [done..|]. lia.
Qed.

Lemma other_log did' n : did' ≠ did → log_ok s did' n → log_ok s' did' n.
Proof.
intros Hne [Hr Hall]. pose proof (ap_extended _ _ _ _ _ _ _ _ _ _ _ Hap) as [Hold Hnew Hrows _ _ _]. split.
- intros i r Hi Ed. destruct (Hnew i r Hi) as [Hi'|(j & Hj)]; [eauto|]. destruct (Hrows j r Hj) as (_ & E & _). congruence.
- intros m Hm. destruct (Hall m Hm) as (i & r & Hi & ? & ?). exists i, r. split; [by eapply lookup_weaken|done].
Qed.

Lemma appended_inv : ds_inv s'.
Proof.
pose proof (ap_extended _ _ _ _ _ _ _ _ _ _ _ Hap) as [Hold Hnew Hrows _ Hsum Huniq].
pose proof (ap_row _ _ _ _ _ _ _ _ _ _ _ Hap) as Hrow. destruct row_fields as (Ec & Eb & En & Erun & Ename).
destruct batch_length as (Hl & Hpos & Hbytes). destruct (ap_quota _ _ _ _ _ _ _ _ _ _ _ Hap) as [Hq1 Hq2].
pose proof (ap_receipts _ _ _ _ _ _ _ _ _ _ _ Hap) as Ercpt. pose proof appended_datasets as Eds.
destruct (dv_dataset _ Hinv _ _ Hrow) as (_ & Hcount & Hnext & Htot & _).
pose proof appended_current as Hd. rewrite Hd in Hrows, Hq1, Hq2, Ercpt.
assert (Hds : ∀ i, is_Some (datasets s !! i) → is_Some (datasets s' !! i)).
{ intros i [x Hi]. rewrite Eds. destruct (decide (i = did)) as [->|]; [rewrite lookup_insert_eq|rewrite lookup_insert_ne]; eauto. }
constructor.
- intros did' d'. rewrite Eds. intros [[<- <-]|[Hne Hd']]%lookup_insert_Some.
  + split; [apply appended_log|]. rewrite Ec, Eb, En, Hsum, bool_decide_eq_true_2, Hbytes, <- Htot by done. lia.
  + destruct (dv_dataset _ Hinv _ _ Hd') as (Hlog & ? & ? & Ht & ?). split; [by apply other_log|].
    rewrite Hsum, bool_decide_eq_false_2, <- Ht by done. lia.
- intros i j x y. rewrite Eds. intros [[<- <-]|[Hi Hx]]%lookup_insert_Some [[<- <-]|[Hj Hy]]%lookup_insert_Some E1 E2; [done|..].
  + by apply (dv_name _ Hinv _ _ _ _ Hrow Hy).
  + by apply (dv_name _ Hinv _ _ _ _ Hx Hrow).
  + by apply (dv_name _ Hinv _ _ _ _ Hx Hy).
- intros i r Hi. destruct (Hnew i r Hi) as [Hi'|(j & Hj)].
  + destruct (dv_item _ Hinv _ _ Hi') as (Hok & Hd' & y & Hy & ? & ?). split_and!; [done|auto|].
    exists y. rewrite Ercpt, lookup_insert_ne; [done|]. intros E. rewrite <- E in Hy. by rewrite (ap_xid _ _ _ _ _ _ _ _ _ _ _ Hap) in Hy.
  + destruct (new_rows j r Hj) as (v & b & w & Hp & Hb & Hw & Hwf & Had & ->). split_and!.
    * by exists v, b.
    * apply Hds. cbn. eauto.
    * eexists. rewrite Ercpt. cbn. rewrite lookup_insert_eq. split; [reflexivity|]. split; [done|]. apply lookup_lt_Some in Hj. cbn. lia.
- apply Huniq. exact (dv_sequence _ Hinv).
- intros i y. rewrite Ercpt, Eds. intros [[<- <-]|[Hi Hy]]%lookup_insert_Some.
  + exists row'. cbn [receipt_for ar_dataset_id ar_first_sequence ar_item_count]. rewrite lookup_insert_eq, En. split_and!; [done|lia..].
  + destruct (dv_receipt _ Hinv _ _ Hy) as (d' & Hd' & ? & ? & ?). destruct (decide (ar_dataset_id y = did)) as [E|Hne].
    * exists row'. rewrite E, lookup_insert_eq, En. rewrite E, Hrow in Hd'. injection Hd' as <-. split_and!; [done|lia..].
    * exists d'. by rewrite lookup_insert_ne.
- intros i j y z. rewrite Ercpt.
  assert (Hno : ∀ k t, receipts s !! k = Some t → ar_dataset_id t = did → ar_idempotency_key t ≠ va_idempotency_key a).
  { intros k t Ht E1 E2. pose proof (head_select_None _ _ (ap_new _ _ _ _ _ _ _ _ _ _ _ Hap) _ _ Ht) as Hf.
    unfold append_of in Hf. by rewrite !bool_decide_eq_true_2 in Hf. }
  intros [[<- <-]|[Hi Hy]]%lookup_insert_Some [[<- <-]|[Hj Hz]]%lookup_insert_Some E1 E2; [done|..].
  + by destruct (Hno _ _ Hz (eq_sym E1)).
  + by destruct (Hno _ _ Hy E1).
  + by apply (dv_receipt_key _ Hinv _ _ _ _ Hy Hz).
Qed.

Lemma appended_stale did' d' row0 : datasets s !! did' = Some row0 → stale d' row0 →
∃ row1, datasets s' !! did' = Some row1 ∧ stale d' row1.
Proof.
intros Hr Hs. rewrite appended_datasets. destruct (decide (did' = did)) as [->|Hne]; [|exists row0; by rewrite lookup_insert_ne].
rewrite (ap_row _ _ _ _ _ _ _ _ _ _ _ Hap) in Hr. injection Hr as <-. exists row'. rewrite lookup_insert_eq. split; [done|].
destruct Hs as (? & ? & ? & ? & _). destruct row_fields as (_ & _ & En & _). destruct batch_length as (_ & ? & _).
repeat split; try done; lia.
Qed.
End append.

(** ** Every action keeps the invariant *)

(** Rows stay; a loaded object stays the row or an earlier state of it. *)
Record grows s s' : Prop := {
gr_items : items s ⊆ items s';
gr_receipts : receipts s ⊆ receipts s';
gr_stale : ∀ did d row, datasets s !! did = Some row → stale d row → ∃ row', datasets s' !! did = Some row' ∧ stale d row' }.
#[local] Instance grows_preorder : PreOrder grows.
Proof.
split; [intros s; constructor; eauto|]. intros s1 s2 s3 [I12 R12 S12] [I23 R23 S23]. constructor; [by etrans..|].
intros did d row Hr Hs. destruct (S12 _ _ _ Hr Hs) as (row' & Hr' & Hs'). eauto.
Qed.

Lemma same_rows_inv s s' : datasets s' = datasets s → items s' = items s → receipts s' = receipts s → ds_inv s → ds_inv s'.
Proof.
intros Ed Ei Er Hinv. constructor; rewrite ?Ed, ?Ei, ?Er; try apply Hinv.
intros did d Hd. destruct (dv_dataset _ Hinv _ _ Hd) as ([Hr Hall] & Hrest).
split; [split; rewrite Ei; [exact Hr|exact Hall]|exact Hrest].
Qed.
Lemma same_rows_grows s s' : datasets s' = datasets s → items s' = items s → receipts s' = receipts s → grows s s'.
Proof. intros Ed Ei Er. constructor; rewrite ?Ed, ?Ei, ?Er; eauto. Qed.

Lemma create_dataset_spec run user at_ aid rq name now s : ds_inv s →
wp (create_dataset run user at_ aid rq name now) (λ p s', ds_inv s' ∧ grows s s' ∧
  datasets s' !! p.1 = Some p.2 ∧ da_next_sequence p.2 = 1 ∧ items s' = items s ∧ receipts s' = receipts s) s.
Proof.
intros Hinv. unfold create_dataset, insert_dataset. wp_steps. intros id s1 [= <- <-]. wp_steps. breflect.
set (d := MkDataset _ _ _ _ _ _ _ _ _ _ _ _). set (id := uuid4 (rng s)) in *.
assert (Hnone : datasets s !! id = None) by by apply eq_None_not_Some.
assert (Hname : ∀ j y, datasets s !! j = Some y → da_run_id y = rs_run_id run → da_name y ≠ name).
{ intros j y Hy E1 E2. pose proof (exists_row_false _ _ ltac:(eassumption) _ _ Hy) as Hf. unfold named in Hf.
  by rewrite !bool_decide_eq_true_2 in Hf. }
assert (Hempty : ∀ i r, items s !! i = Some r → di_dataset_id r ≠ id).
{ intros i r Hi E. destruct (dv_item _ Hinv _ _ Hi) as (_ & [y Hy] & _). rewrite E in Hy. congruence. }
split_and!; [|constructor; cbn; try done|cbn; by rewrite lookup_insert_eq|done..].
- constructor; cbn; try apply Hinv.
  + intros did d'. intros [[<- <-]|[_ Hd']]%lookup_insert_Some.
    * split; [split; cbn; [intros i r Hi E; by destruct (Hempty _ _ Hi)|lia]|]. cbn.
      rewrite (sumZ_ext _ (λ _, 0)), sumZ_const0; [unfold MAX_DATASET_ITEMS, MAX_DATASET_BYTES; lia|].
      intros i r Hi. unfold bytes_in. rewrite bool_decide_eq_false_2; [done|by eapply Hempty].
    * destruct (dv_dataset _ Hinv _ _ Hd') as ([Hr Hall] & Hrest). split; [split; [exact Hr|exact Hall]|exact Hrest].
  + intros i j x y [[<- <-]|[Hi Hx]]%lookup_insert_Some [[<- <-]|[Hj Hy]]%lookup_insert_Some E1 E2; [done|..].
    * by destruct (Hname _ _ Hy (eq_sym E1)).
    * by destruct (Hname _ _ Hx E1).
    * by apply (dv_name _ Hinv _ _ _ _ Hx Hy).
  + intros i r Hi. destruct (dv_item _ Hinv _ _ Hi) as (Hok & [y Hy] & Hrest). split; [done|]. split; [|done].
    exists y. rewrite lookup_insert_ne; [done|]. intros E. rewrite <- E in Hy. congruence.
  + intros i y Hy. destruct (dv_receipt _ Hinv _ _ Hy) as (d' & Hd' & Hrest). exists d'. rewrite lookup_insert_ne; [done|].
    intros E. rewrite <- E in Hd'. congruence.
- intros did d' row Hr Hs. exists row. split; [|done]. rewrite lookup_insert_ne; [done|]. intros <-. congruence.
Qed.

Lemma append_spec did d row user at_ aid rq payload s : ds_inv s → datasets s !! did = Some row → stale d row →
allowed_payload payload →
wp (append_dataset_items did d user at_ aid rq payload) (λ _ s', ds_inv s' ∧ grows s s') s.
Proof.
intros Hinv Hrow Hst Hpay o s' Hrun.
apply append_outcome in Hrun as (a & Ha & [(xid & y & _ & _ & _ & ->)|(ps & xid & rows & row' & Hap)]); [done|].
pose proof (allowed_batch _ _ Hpay Ha) as Hg. pose proof (ap_row _ _ _ _ _ _ _ _ _ _ _ Hap) as Hrow'.
rewrite Hrow in Hrow'. injection Hrow' as <-. split; [by apply (appended_inv Hinv Hg Hap Hst)|]. constructor.
- apply (xt_old _ _ _ _ _ (ap_extended _ _ _ _ _ _ _ _ _ _ _ Hap)).
- rewrite (ap_receipts _ _ _ _ _ _ _ _ _ _ _ Hap). apply insert_subseteq, (ap_xid _ _ _ _ _ _ _ _ _ _ _ Hap).
- intros did' d' row0. by apply (appended_stale Hinv Hg Hap Hst).
Qed.

Lemma worker_spec run wid rq payload now o s : ds_inv s → allowed_payload payload →
(∀ did d, o = Some (did, d) → ∃ row, datasets s !! did = Some row ∧ stale d row) →
wp (append_for_worker run wid rq payload now o) (λ _ s', ds_inv s' ∧ grows s s') s.
Proof.
intros Hinv Hpay Ho. unfold append_for_worker. destruct o as [[did d]|].
- destruct (Ho did d eq_refl) as (row & Hrow & Hst). apply wp_bind, wp_ret. by apply (append_spec did d row).
- apply wp_bind. eapply wp_mono; [|by apply create_dataset_spec]. intros [did d] s1 (Hinv1 & Hg & Hrow & Hn & _).
  cbn [fst snd] in *. eapply wp_mono; [|eapply append_spec; try done; apply stale_refl; lia].
  intros o s2 [? ?]. split; [done|by etrans].
Qed.

Lemma export_lines_pure n rows s : (export_lines n rows s).2 = s.
Proof.
revert n. induction rows as [|[i r] rows IH]; intros n; [done|]. cbn [export_lines].
unfold raise_if. destruct (negb _); [done|]. unfold mbind, M_bind. cbn. unfold canonical_json_bytes.
destruct (json_bytes (di_item_json r)); [|done]. cbn. specialize (IH (n + 1)). destruct (export_lines (n + 1) rows s) as [[] ?]; done.
Qed.
Lemma export_same did d at_ aid rq s : wp (export_dataset_jsonl did d at_ aid rq) (λ _ s',
  datasets s' = datasets s ∧ items s' = items s ∧ receipts s' = receipts s) s.
Proof.
unfold export_dataset_jsonl. wp_steps. intros content s1 E. wp_steps.
match type of E with export_lines ?n ?rows s = _ => pose proof (export_lines_pure n rows s) as Hp; rewrite E in Hp; cbn in Hp; subst s1 end.
done.
Qed.

Lemma load_found did s row : datasets s !! did = Some row → load_dataset did s = (inr (did, row), s).
Proof. intros Hr. unfold load_dataset. by rewrite run_gets, (run_some _ _ _ _ _ Hr). Qed.
Lemma load_missing did s : datasets s !! did = None → load_dataset did s = (inl not_found, s).
Proof. intros Hr. unfold load_dataset. by rewrite run_gets, (run_none _ _ _ _ Hr). Qed.

Definition sys_inv (x : sys) : Prop := ds_inv (tables x) ∧ loaded_ok x.
Lemma ds_init_inv : sys_inv init.
Proof. split; [|by intros k did d Hk]. constructor; cbn; intros *; by rewrite lookup_empty. Qed.

Lemma loaded_grows (x : sys) s' l : loaded_ok x → grows (tables x) s' → (∀ k o, l !! k = Some o → loaded x !! k = Some o) →
loaded_ok (MkSys s' l).
Proof.
intros Hl [_ _ Hg] Hsub k did d Hk. cbn in *. destruct (Hl k did d (Hsub _ _ Hk)) as (row & Hr & Hs). eauto.
Qed.

(** A transaction that succeeds or is rolled back. *)
Lemma transact_cases {A} commit (m : Prelude.M db A) (Q : db → Prop) s : Q (s <| rng := rng (m s).2 |>) →
wp m (λ _, Q) s → Q (transact commit m s).2.
Proof.
intros Hroll Hm. unfold transact. destruct (m s) as [[e|a] s'] eqn:E; [done|]. destruct commit; [by eapply Hm|done].
Qed.

Lemma ds_step_inv x y : step x y → sys_inv x → sys_inv y ∧ grows (tables x) (tables y).
Proof.
intros [commit c a Ha] [Hinv Hl].
assert (Hroll : ∀ n, ds_inv (tables x <| rng := n |>) ∧ grows (tables x) (tables x <| rng := n |>))
  by (intros n; split; [by apply (same_rows_inv (tables x))|by apply same_rows_grows]).
assert (Hdone : ∀ s' l, ds_inv s' ∧ grows (tables x) s' → (∀ k o, l !! k = Some o → loaded x !! k = Some o) →
  sys_inv (MkSys s' l) ∧ grows (tables x) (tables (MkSys s' l))).
{ intros s' l [Hi Hg] Hsub. split; [|done]. split; [done|by apply (loaded_grows x)]. }
assert (Hdel : ∀ k (k' : N) o, delete k (loaded x) !! k' = Some o → loaded x !! k' = Some o)
  by (intros k k' o [_ Hk]%lookup_delete_Some; exact Hk).
destruct a as [run name now|k did|k run|k payload|k run wid payload now|k]; cbn [act].
- apply (Hdone _ (loaded x)); [|done]. apply (transact_cases commit _ (λ s, ds_inv s ∧ grows (tables x) s)); [apply Hroll|].
  eapply wp_mono; [|by apply create_dataset_spec]. by intros p s' (? & ? & _).
- destruct (datasets (tables x) !! did) as [row|] eqn:Hrow; [|by rewrite (load_missing _ _ Hrow)].
  rewrite (load_found _ _ _ Hrow). split; [|done]. split; [done|]. intros k' did' d'. cbn.
  intros [[<- [= <- <-]]|[_ Hk]]%lookup_insert_Some; [|by eapply Hl].
  exists row. split; [done|]. apply stale_refl. destruct (dv_dataset _ Hinv _ _ Hrow) as (_ & ? & ? & _). lia.
- cbn. split; [|done]. split; [done|]. intros k' did' d'. cbn. intros [[<- Hh]|[_ Hk]]%lookup_insert_Some; [|by eapply Hl].
  apply head_select_Some in Hh as (Hrow & _). exists d'. split; [done|]. apply stale_refl.
  destruct (dv_dataset _ Hinv _ _ Hrow) as (_ & ? & ? & _). lia.
- destruct (loaded x !! k) as [[[did d]|]|] eqn:Hk; [|done..]. destruct (Hl _ _ _ Hk) as (row & Hrow & Hst).
  apply (Hdone _ (delete k (loaded x))); [|apply Hdel].
  apply (transact_cases commit _ (λ s, ds_inv s ∧ grows (tables x) s)); [apply Hroll|]. by apply (append_spec did d row).
- destruct (loaded x !! k) as [o|] eqn:Hk; [|done]. apply (Hdone _ (delete k (loaded x))); [|apply Hdel].
  apply (transact_cases commit _ (λ s, ds_inv s ∧ grows (tables x) s)); [apply Hroll|].
  apply worker_spec; [done|done|]. intros did d ->. by eapply Hl.
- destruct (loaded x !! k) as [[[did d]|]|] eqn:Hk; [|done..]. apply (Hdone _ (delete k (loaded x))); [|apply Hdel].
  apply (transact_cases commit _ (λ s, ds_inv s ∧ grows (tables x) s)); [apply Hroll|].
  eapply wp_mono; [|apply export_same]. intros e s' (? & ? & ?). split; [by apply (same_rows_inv (tables x))|by apply same_rows_grows].
Qed.

Lemma ds_steps_inv x y : rtc step x y → sys_inv x → sys_inv y ∧ grows (tables x) (tables y).
Proof.
induction 1 as [x|x y z Hs _ IH]; intros Hx; [done|]. destruct (ds_step_inv _ _ Hs Hx) as [Hy Hg].
destruct (IH Hy) as [Hz Hg']. split; [done|by etrans].
Qed.
Lemma reachable_inv x : reachable x → sys_inv x.
Proof. intros Hx. apply (ds_steps_inv _ _ Hx ds_init_inv). Qed.

(** Every dataset is a gap-free log with exact counters, however loads and appends of
  different sessions interleave and whichever commits fail: its items are numbered 1 to
  item_count, one each, next_sequence follows, total_bytes is the sum of their sizes, the
  quotas hold, and every item lies in the range of the append receipt it names. *)
Theorem dataset_log_gap_free x did d (Hx : reachable x) (Hd : datasets (tables x) !! did = Some d) :
0 ≤ da_item_count d ≤ MAX_DATASET_ITEMS ∧ da_next_sequence d = da_item_count d + 1 ∧
da_total_bytes d = sumZ (bytes_in did) (items (tables x)) ∧ da_total_bytes d ≤ MAX_DATASET_BYTES ∧
(∀ n, 1 ≤ n ≤ da_item_count d → is_Some (item_at (tables x) did n)) ∧
(∀ i r, items (tables x) !! i = Some r → di_dataset_id r = did →
   1 ≤ di_sequence r ≤ da_item_count d ∧ item_at (tables x) did (di_sequence r) = Some r ∧
   ∃ y, receipts (tables x) !! di_append_receipt_id r = Some y ∧ ar_dataset_id y = did ∧
     ar_first_sequence y ≤ di_sequence r < ar_first_sequence y + ar_item_count y).
Proof.
destruct (reachable_inv _ Hx) as [Hinv _]. destruct (dv_dataset _ Hinv _ _ Hd) as ([Hr Hall] & Hc & Hn & Ht & Hb).
split_and!; try done; try lia.
- intros n Hn'. destruct (Hall n Hn') as (i & r & Hi & Ed & En). exists r. by eapply item_at_Some.
- intros i r Hi Ed. split; [by eapply Hr|]. split; [by eapply item_at_Some|].
  destruct (dv_item _ Hinv _ _ Hi) as (_ & _ & y & Hy & Ey & Hrange). exists y. split_and!; try done; congruence || lia.
Qed.
End spec.
