(* ===== verification/DatasetsLog.v ===== *)
(** Datasets refine append-only logs: the rows of a dataset, read in sequence, form a list
    that an append extends by exactly its batch and nothing else ever changes; a repeated
    idempotency key replays or conflicts; an export is the list, one canonical line per item,
    and reading its lines back gives the items. *)

From S2P Require Import Prelude PyVal Json PyUuid QueueProtocol DatasetProtocol.
From S2P Require Import Datasets DatasetsSpec.

(** ** Reading numbered rows *)

Section numbered.
Context {A : Type}.
Implicit Types (f : Z → option A) (l : list A).

Lemma omap_seqZ f l : ∀ a n, Z.of_nat (length l) = n →
(∀ (j : nat) r, l !! j = Some r → f (a + Z.of_nat j) = Some r) → omap f (seqZ a n) = l.
Proof.
induction l as [|x l IH]; intros a n Hn Hf; cbn in Hn; [by rewrite <- Hn|].
rewrite seqZ_cons by lia. cbn. pose proof (Hf 0%nat x eq_refl) as H0. rewrite Z.add_0_r in H0. rewrite H0. f_equal.
apply IH; [lia|]. intros j r Hj. rewrite <- (Hf (S j) r Hj). f_equal. lia.
Qed.

Lemma omap_seqZ_total f a n : 0 ≤ n → (∀ m, a ≤ m < a + n → is_Some (f m)) →
Z.of_nat (length (omap f (seqZ a n))) = n ∧
∀ (j : nat) r, omap f (seqZ a n) !! j = Some r → f (a + Z.of_nat j) = Some r.
Proof.
intros Hn. revert a. pattern n. apply natlike_ind; [by intros a _| |done]. clear n Hn.
intros n Hn IH a Hall. rewrite seqZ_cons by lia. cbn. destruct (Hall a) as [x Hx]; [lia|]. rewrite Hx.
replace (Z.pred (Z.succ n)) with n by lia.
destruct (IH (Z.succ a)) as [Hl Hj]; [intros m Hm; apply Hall; lia|]. split; [cbn; lia|].
intros [|j] r Hr; [injection Hr as <-; by rewrite Z.add_0_r|]. rewrite <- (Hj j r Hr). f_equal. lia.
Qed.
End numbered.

(** A list sorted by its distinct numbers, which are those from 1 to [n], counts up. *)
Lemma sorted_numbers (l : list Z) n : StronglySorted Z.le l → NoDup l → (∀ z, z ∈ l ↔ 1 ≤ z ≤ n) → l = seqZ 1 n.
Proof.
intros Hs Hnd Hin. apply (StronglySorted_unique Z.le); [done| |].
- clear. remember 1 as a eqn:E. clear E. destruct (decide (n ≤ 0)); [rewrite seqZ_nil by done; constructor|].
  revert a. assert (Hn : 0 ≤ n) by lia. clear - Hn. pattern n. apply natlike_ind; [intros; rewrite seqZ_nil; [constructor|lia]| |done].
  intros m Hm IH a. rewrite seqZ_cons by lia. replace (Z.pred (Z.succ m)) with m by lia. constructor; [apply IH|].
  apply Forall_seqZ. intros k Hk. cbn. lia.
- apply NoDup_Permutation; [done|apply NoDup_seqZ|]. intros z. rewrite Hin, elem_of_seqZ. lia.
Qed.

Lemma Forall2_exists_r {A B} (l : list A) (P : A → B → Prop) : Forall (λ a, ∃ b, P a b) l → ∃ bs, Forall2 P l bs.
Proof. induction 1 as [|a l [b Hb] _ [bs IH]]; [by exists []|]. exists (b :: bs). by constructor. Qed.

Definition total (l : list Z) : Z := foldr Z.add 0 l.
#[export] Instance total_perm : Proper ((≡ₚ) ==> eq) total.
Proof. induction 1; unfold total in *; cbn; lia. Qed.

Lemma sumZ_select {R} (p : uuid → R → bool) (f g : R → Z) (m : gmap uuid R) :
(∀ k r, m !! k = Some r → f r = if p k r then g r else 0) → sumZ f m = total ((λ x, g x.2) <$> select p m).
Proof.
intros Hf. unfold sumZ, select. rewrite map_fold_foldr.
assert (∀ k r, (k, r) ∈ map_to_list m → f r = if p k r then g r else 0) as Hl
  by (intros k r Hin; by apply Hf, elem_of_map_to_list).
clear Hf. induction (map_to_list m) as [|[k r] l IH]; [done|]. cbn [foldr uncurry]. rewrite IH by (intros; apply Hl; by apply elem_of_cons; right).
rewrite filter_cons, (Hl k r) by (apply elem_of_cons; by left). cbn [fst snd].
destruct (p k r); [rewrite decide_True by done|rewrite decide_False by done]; done.
Qed.

(** ** Reading lines *)

(** The lines of a JSON Lines file. *)
Fixpoint jsonl (s : list N) : list (list N) :=
match s with
| [] => []
| c :: s =>
    if decide (c = 10%N) then [] :: jsonl s
    else match jsonl s with [] => [[c]] | l :: ls => (c :: l) :: ls end
end.
Lemma jsonl_line b s : 10%N ∉ b → jsonl (b ++ [10%N] ++ s) = b :: jsonl s.
Proof.
induction b as [|c b IH]; intros Hb; [done|]. apply not_elem_of_cons in Hb as [Hc Hb].
change ((c :: b) ++ [10%N] ++ s) with (c :: (b ++ [10%N] ++ s)). cbn [jsonl]. rewrite decide_False, IH by done. done.
Qed.
Definition lines_of (bs : list (list N)) : list N := foldr (λ b s, b ++ [10%N] ++ s) [] bs.
Lemma jsonl_lines bs : Forall (λ b, 10%N ∉ b) bs → jsonl (lines_of bs) = bs.
Proof. induction 1 as [|b bs Hb _ IH]; [done|]. change (lines_of (b :: bs)) with (b ++ [10%N] ++ lines_of bs). by rewrite jsonl_line, IH. Qed.
Lemma lines_of_length bs : Z.of_nat (length (lines_of bs)) = total ((λ b, Z.of_nat (length b)) <$> bs) + Z.of_nat (length bs).
Proof. induction bs as [|b bs IH]; [done|]. change (lines_of (b :: bs)) with (b ++ [10%N] ++ lines_of bs). rewrite !length_app, !Nat2Z.inj_add, IH. unfold total. cbn. lia. Qed.

(** ** The log of a dataset *)

Section spec.
Context `{Entropy, Sha256, PyFloats, JsonColumn} (admissible : pyval → Prop).
Implicit Types (s : db) (x y z : sys) (l : list DatasetItem).
Notation reachable := (reachable admissible).
Notation step := (step admissible).
Notation ds_inv := (ds_inv admissible).

Definition log s (did : uuid) : list DatasetItem :=
match datasets s !! did with
| Some d => omap (item_at s did) (seqZ 1 (da_item_count d))
| None => []
end.

Definition numbered s (did : uuid) (l : list DatasetItem) : Prop :=
∀ (j : nat) r, l !! j = Some r → ∃ i, items s !! i = Some r ∧ di_dataset_id r = did ∧ di_sequence r = 1 + Z.of_nat j.

Lemma log_is s did d l : ds_inv s → datasets s !! did = Some d → Z.of_nat (length l) = da_item_count d →
numbered s did l → log s did = l.
Proof.
intros Hinv Hd Hl Hn. unfold log. rewrite Hd. apply omap_seqZ; [done|]. intros j r Hj.
destruct (Hn j r Hj) as (i & Hi & Ed & En). by apply (item_at_Some admissible s did _ i).
Qed.

Lemma log_numbered s did d : ds_inv s → datasets s !! did = Some d →
Z.of_nat (length (log s did)) = da_item_count d ∧ numbered s did (log s did).
Proof.
intros Hinv Hd. destruct (dv_dataset _ _ Hinv _ _ Hd) as ([Hr Hall] & Hc & _). unfold log. rewrite Hd.
destruct (omap_seqZ_total (item_at s did) 1 (da_item_count d)) as [El Hj].
- lia.
- intros m Hm. destruct (Hall m) as (i & r & Hi & Ed & En); [lia|]. exists r. by apply (item_at_Some admissible s did _ i).
- split; [done|]. intros j r Hr'. apply Hj, item_at_inv in Hr'. done.
Qed.

Lemma log_grows s s' did : ds_inv s → ds_inv s' → grows s s' → is_Some (datasets s !! did) →
log s did `prefix_of` log s' did.
Proof.
intros Hinv Hinv' [Hi _ Hst] [d Hd].
destruct (dv_dataset _ _ Hinv _ _ Hd) as (_ & Hc & Hnext & _).
destruct (Hst did d d Hd) as (d' & Hd' & _ & _ & _ & Hle & _); [apply stale_refl; lia|].
destruct (dv_dataset _ _ Hinv' _ _ Hd') as (_ & _ & Hnext' & _).
destruct (log_numbered _ _ _ Hinv Hd) as [El Hn], (log_numbered _ _ _ Hinv' Hd') as [El' Hn'].
exists (drop (length (log s did)) (log s' did)). apply (log_is _ _ d'); [done|done| |].
- rewrite length_app, length_drop. lia.
- intros j r. rewrite lookup_app. destruct (log s did !! j) as [r'|] eqn:Ej.
  + intros [= <-]. destruct (Hn _ _ Ej) as (i & Hr & ? & ?). exists i. split; [by eapply lookup_weaken|done].
  + apply lookup_ge_None in Ej. rewrite lookup_drop. intros Hr. destruct (Hn' _ _ Hr) as (i & ? & ? & En). exists i.
    split_and!; [done..|]. rewrite En. lia.
Qed.

(** ** Appends *)

Section appended.
Context {s s' did d user a o payloads xid rows row} (Hinv : ds_inv s) (Hg : good_batch admissible a)
  (Hap : appended s s' did d user a o payloads xid rows row) (Hst : stale d row).

Lemma appended_own_log : log s' did = log s did ++ rows.
Proof.
pose proof (appended_inv admissible Hinv Hg Hap Hst) as Hinv'. pose proof (ap_row _ _ _ _ _ _ _ _ _ _ _ Hap) as Hrow.
pose proof (appended_datasets admissible Hinv Hg Hap Hst) as Eds. pose proof (ap_extended _ _ _ _ _ _ _ _ _ _ _ Hap) as Hx.
destruct (log_numbered _ _ _ Hinv Hrow) as [El Hn]. destruct (batch_length admissible Hg Hap) as (Hl & Hpos & _).
destruct (dv_dataset _ _ Hinv _ _ Hrow) as (_ & _ & Hnext & _).
pose proof (appended_current admissible Hinv Hg Hap Hst) as Hcur.
eapply log_is; [done|by rewrite Eds, lookup_insert_eq| |].
- rewrite length_app. destruct (row_fields (a := a) (payloads := payloads) (row := row)) as (-> & _). lia.
- intros j r [Hj|[Hge Hj]]%lookup_app_Some.
  + destruct (Hn _ _ Hj) as (i & Hi & ? & ?). exists i. split; [|done]. eapply lookup_weaken; [done|apply (xt_old _ _ _ _ _ Hx)].
  + destruct (xt_rows _ _ _ _ _ Hx _ _ Hj) as ((i & Hi) & ? & En). exists i. split_and!; [done..|]. rewrite En, Hcur. lia.
Qed.

Lemma appended_other_log did' : did' ≠ did → log s' did' = log s did'.
Proof.
intros Hne. pose proof (appended_inv admissible Hinv Hg Hap Hst) as Hinv'.
pose proof (appended_datasets admissible Hinv Hg Hap Hst) as Eds.
destruct (datasets s !! did') as [d'|] eqn:Hd'.
- destruct (log_numbered _ _ _ Hinv Hd') as [El Hn]. apply (log_is _ _ d'); [done|by rewrite Eds, lookup_insert_ne|done|].
  intros j r Hj. destruct (Hn _ _ Hj) as (i & Hi & ? & ?). exists i. split; [|done].
  eapply lookup_weaken; [done|apply (xt_old _ _ _ _ _ (ap_extended _ _ _ _ _ _ _ _ _ _ _ Hap))].
- unfold log. by rewrite Eds, lookup_insert_ne, Hd'.
Qed.

Lemma appended_rows_stored : Forall2 (λ v r, jsonb v = Some (di_item_json r) ∧ di_append_receipt_id r = xid ∧
  ∃ b, json_bytes v = Some b ∧ di_size_bytes r = Z.of_nat (length b) ∧ di_sha256_digest r = sha256_hex b) payloads.*1 rows.
Proof.
destruct (stored_rows_length _ _ _ _ _ _ (ap_rows _ _ _ _ _ _ _ _ _ _ _ Hap)) as [El _]. apply Forall2_same_length_lookup.
split; [by rewrite length_fmap|]. intros j v r (p & -> & Hp)%list_lookup_fmap_Some Hr.
destruct (new_rows admissible Hinv Hg Hap Hst j r Hr) as (v & b & w & Hp' & Hb & Hw & _ & _ & ->).
rewrite Hp in Hp'. injection Hp' as ->. split_and!; [done..|by exists b].
Qed.
End appended.

Lemma append_receipt_kept did d user at_ aid rq payload a s o s' : validate_dataset_append payload = inr a →
append_dataset_items did d user at_ aid rq payload s = (inr o, s') →
receipts s' !! ao_receipt_id o = Some (ao_receipt o) ∧ ar_dataset_id (ao_receipt o) = did ∧
ar_idempotency_key (ao_receipt o) = va_idempotency_key a ∧ ar_request_digest (ao_receipt o) = va_request_digest a.
Proof.
intros Ha Hrun. destruct (append_outcome _ _ _ _ _ _ _ _ _ _ Hrun) as (b & Hb & Hcase). rewrite Ha in Hb. injection Hb as <-.
destruct Hcase as [(xid & y & Hh & Ed & -> & ->)|(ps & xid & rows & row & Hap)].
- apply head_select_Some in Hh as [Hy Hs]. unfold append_of in Hs. breflect. by split_and!.
- rewrite (ap_outcome _ _ _ _ _ _ _ _ _ _ _ Hap), (ap_receipts _ _ _ _ _ _ _ _ _ _ _ Hap). cbn. by rewrite lookup_insert_eq.
Qed.

(** C36: an append made by a session, however old the dataset object it holds, is a replay
  that changes nothing or extends the log of its dataset by exactly its batch: one row per
  item, in order, numbered from where the log ended, each with the stored form, the size
  and the digest of its item.  No other log changes, and the receipt is stored. *)
Theorem dataset_append_extends_log x k did d user at_ aid rq payload o s' (Hx : reachable x)
  (Hk : loaded x !! k = Some (Some (did, d))) (Hp : allowed_payload admissible payload)
  (Hrun : append_dataset_items did d user at_ aid rq payload (tables x) = (inr o, s')) :
∃ a, validate_dataset_append payload = inr a ∧ receipts s' !! ao_receipt_id o = Some (ao_receipt o) ∧
ar_dataset_id (ao_receipt o) = did ∧ ar_idempotency_key (ao_receipt o) = va_idempotency_key a ∧
ar_request_digest (ao_receipt o) = va_request_digest a ∧
if ao_replayed o then s' = tables x
else datasets (tables x) !! did = Some d ∧
  ar_first_sequence (ao_receipt o) = Z.of_nat (length (log (tables x) did)) + 1 ∧
  (∃ rows, log s' did = log (tables x) did ++ rows ∧
     Forall2 (λ v r, jsonb v = Some (di_item_json r) ∧ di_append_receipt_id r = ao_receipt_id o ∧
       ∃ b, json_bytes v = Some b ∧ di_size_bytes r = Z.of_nat (length b) ∧ di_sha256_digest r = sha256_hex b)
       (va_items a) rows) ∧
  ∀ did', did' ≠ did → log s' did' = log (tables x) did'.
Proof.
destruct (reachable_inv _ _ Hx) as [Hinv Hl]. destruct (Hl _ _ _ Hk) as (row & Hrow & Hst).
destruct (append_outcome _ _ _ _ _ _ _ _ _ _ Hrun) as (a & Ha & [(xid & y & Hh & Ed & -> & ->)|(ps & xid & rows & row' & Hap)]).
- apply head_select_Some in Hh as [Hy Hs]. unfold append_of in Hs. breflect. exists a. by split_and!.
- pose proof (allowed_batch _ _ _ Hp Ha) as Hg. pose proof (ap_row _ _ _ _ _ _ _ _ _ _ _ Hap) as Hrow'.
  rewrite Hrow in Hrow'. injection Hrow' as <-. pose proof (appended_current _ Hinv Hg Hap Hst) as Hcur.
  destruct (log_numbered _ _ _ Hinv Hrow) as [El _]. destruct (dv_dataset _ _ Hinv _ _ Hrow) as (_ & _ & Hnext & _).
  exists a. rewrite (ap_outcome _ _ _ _ _ _ _ _ _ _ _ Hap), (ap_receipts _ _ _ _ _ _ _ _ _ _ _ Hap). cbn.
  rewrite lookup_insert_eq. split_and!; try done; [congruence|rewrite Hcur; lia| |by apply (appended_other_log Hinv Hg Hap Hst)].
  exists rows. split; [by apply (appended_own_log Hinv Hg Hap Hst)|].
  rewrite <- (ap_items _ _ _ _ _ _ _ _ _ _ _ Hap). by apply (appended_rows_stored Hinv Hg Hap Hst).
Qed.

(** Nothing that happens later removes or changes what was appended: along every
  further run of the system the log of a dataset only grows at its end, and an append
  receipt stays as it is. *)
Theorem dataset_log_append_only x y did (Hx : reachable x) (Hxy : rtc step x y) (Hd : is_Some (datasets (tables x) !! did)) :
log (tables x) did `prefix_of` log (tables y) did ∧ receipts (tables x) ⊆ receipts (tables y).
Proof.
destruct (reachable_inv _ _ Hx) as [Hinv Hl]. destruct (ds_steps_inv _ _ _ Hxy (conj Hinv Hl)) as [[Hinv' _] Hg].
split; [by apply log_grows|by apply gr_receipts].
Qed.

Lemma transact_true {A} (m : Prelude.M db A) s b s' : transact true m s = (inr b, s') → m s = (inr b, s').
Proof. unfold transact. by destruct (m s) as [[] ?]. Qed.
Lemma roll_back s : s <| rng := rng s |> = s.
Proof. by destruct s. Qed.

(** A request whose key is taken: replay or conflict. *)
Lemma append_again did d user at_ aid rq payload a s row id (y : DatasetAppendReceipt) : ds_inv s → datasets s !! did = Some row → stale d row →
validate_dataset_append payload = inr a → receipts s !! id = Some y → ar_dataset_id y = did →
ar_idempotency_key y = va_idempotency_key a →
append_dataset_items did d user at_ aid rq payload s =
  (if decide (ar_request_digest y = va_request_digest a) then inr (MkAppendOutcome id y true)
   else inl (ApiError 409 "DATASET_IDEMPOTENCY_CONFLICT"), s).
Proof.
intros Hinv Hrow (Eo & Ep & _) Ha Hy Ed Ek. unfold append_dataset_items. rewrite Ha, run_ret, run_gets, Hrow.
rewrite run_pass by (by rewrite Eo, Ep, !bool_decide_eq_true_2). rewrite run_gets.
rewrite (head_select_unique _ _ id y); [| |done|unfold append_of; by rewrite !bool_decide_eq_true_2].
- case_decide as E; [by rewrite run_pass by (by rewrite bool_decide_eq_true_2)|].
  by rewrite run_refuse by (by rewrite bool_decide_eq_false_2).
- unfold append_of. intros i j y1 y2 Hy1 Hy2 E1 E2. breflect. apply (dv_receipt_key _ _ Hinv _ _ _ _ Hy1 Hy2); congruence.
Qed.

(** Once an append has been answered, the same idempotency key is decided for good:
  whatever happens in between, a later append on the dataset with that key answers with the
  same receipt when the request digest is the same, and 409 when it is another; it writes
  nothing. *)
Theorem dataset_append_idempotent x y z c c' k k' did d d' payload payload' a a' o (Hx : reachable x)
  (Hk : loaded x !! k = Some (Some (did, d))) (Hp : allowed_payload admissible payload)
  (Hact : act true c (Append k payload) x = (inr (Appended o), y)) (Hyz : rtc step y z)
  (Hk' : loaded z !! k' = Some (Some (did, d'))) (Ha : validate_dataset_append payload = inr a)
  (Ha' : validate_dataset_append payload' = inr a') (Hkey : va_idempotency_key a' = va_idempotency_key a) :
act true c' (Append k' payload') z =
  (if decide (va_request_digest a = va_request_digest a')
   then inr (Appended (MkAppendOutcome (ao_receipt_id o) (ao_receipt o) true))
   else inl (ApiError 409 "DATASET_IDEMPOTENCY_CONFLICT"), z <| loaded ::= delete k' |>).
Proof.
assert (Hy : reachable y).
{ eapply rtc_r; [exact Hx|]. pose proof (step_act admissible x true c (Append k payload) Hp) as Hs. by rewrite Hact in Hs. }
destruct (reachable_inv _ _ Hx) as [Hinv Hl]. pose proof (reachable_inv _ _ Hy) as Hyi.
destruct (ds_steps_inv _ _ _ Hyz Hyi) as [[Hinv' Hl'] Hg]. destruct (Hl _ _ _ Hk) as (row & Hrow & Hst).
destruct (Hl' _ _ _ Hk') as (row' & Hrow' & Hst').
cbn [act] in Hact. rewrite Hk in Hact.
match type of Hact with reply _ ?r _ = _ => destruct r as [[e|o'] s'] eqn:E end; [done|].
unfold reply in Hact. cbn in Hact. injection Hact as -> <-.
apply transact_true in E. destruct (append_receipt_kept _ _ _ _ _ _ _ _ _ _ _ Ha E) as (Hr & Ed & Ek & Eg).
pose proof (lookup_weaken _ _ _ _ Hr (gr_receipts _ _ Hg)) as Hr'.
cbn [act]. rewrite Hk'. unfold transact. rewrite (append_again _ _ _ _ _ _ _ _ _ _ _ _ Hinv' Hrow' Hst' Ha' Hr' Ed) by congruence.
rewrite Eg. unfold reply. case_decide; cbn; [by destruct z|]. rewrite roll_back. by destruct z.
Qed.

(** ** Exports *)

Definition export_rows s (did : uuid) : list (uuid * DatasetItem) := order_by by_sequence (select (of_dataset did None) (items s)).

(** The rows an export reads are the log. *)
Lemma export_rows_log s did d : ds_inv s → datasets s !! did = Some d → (export_rows s did).*2 = log s did.
Proof.
intros Hinv Hd. destruct (dv_dataset _ _ Hinv _ _ Hd) as ([Hr Hall] & Hc & _).
assert (Hin : ∀ i r, (i, r) ∈ export_rows s did ↔ items s !! i = Some r ∧ di_dataset_id r = did).
{ intros i r. unfold export_rows. rewrite elem_of_order_by, elem_of_select. unfold of_dataset. rewrite andb_true_r, bool_decide_eq_true. done. }
assert (Hnum : (di_sequence ∘ snd) <$> export_rows s did = seqZ 1 (da_item_count d)).
{ apply sorted_numbers.
  - eapply (StronglySorted_fmap _ by_sequence); [|apply (StronglySorted_merge_sort by_sequence)].
    intros p q. unfold by_sequence, by_keys. cbn. destruct (Z.eqb_spec (di_sequence p.2) (di_sequence q.2)); [lia|].
    intros ?%Z.ltb_lt. lia.
  - apply NoDup_fmap_2_strong; [|unfold export_rows, order_by; rewrite merge_sort_Permutation; apply NoDup_select].
    intros [i r] [j r'] [Hi Ei]%Hin [Hj Ej]%Hin E. cbn in E. assert (i = j) as <- by (apply (dv_sequence _ _ Hinv i j r r' Hi Hj); congruence).
    congruence.
  - intros n. split.
    + intros ([i r] & -> & [Hi Ed]%Hin)%list_elem_of_fmap. by apply (Hr i r).
    + intros Hn. destruct (Hall n Hn) as (i & r & Hi & Ed & En). apply list_elem_of_fmap. exists (i, r). split; [done|]. by apply Hin. }
symmetry. apply (log_is _ _ d); [done|done| |].
- rewrite length_fmap. apply (f_equal length) in Hnum. rewrite length_fmap, length_seqZ in Hnum. rewrite Hnum. lia.
- intros j r ([i r'] & -> & Hj)%list_lookup_fmap_Some. exists i. apply (f_equal (.!! j)) in Hnum.
  rewrite list_lookup_fmap, Hj in Hnum. cbn in Hnum. symmetry in Hnum. apply lookup_seqZ in Hnum as [Hn _].
  pose proof (list_elem_of_lookup_2 _ _ _ Hj) as [Hi Ed]%Hin. split_and!; [done..|]. cbn. lia.
Qed.

Lemma export_lines_run rows bs s : ∀ n, Forall2 (λ p b, json_bytes (di_item_json p.2) = Some b) rows bs →
(∀ (j : nat) p, rows !! j = Some p → di_sequence p.2 = n + Z.of_nat j) →
export_lines n rows s = (inr (lines_of bs), s).
Proof.
intros n Hf. revert n. induction Hf as [|[i r] b rows bs Hb _ IH]; intros n Hn; [done|]. cbn [export_lines].
rewrite run_pass by (pose proof (Hn 0%nat _ eq_refl) as E; cbn in E; rewrite E; apply negb_false_iff, Z.eqb_eq; lia).
unfold canonical_json_bytes. cbn in Hb. rewrite Hb, run_ret. erewrite run_bind; [done|]. apply IH.
intros j p Hj. rewrite (Hn (S j) p Hj). lia.
Qed.

(** Items the column gives back up to the order of object keys.  PostgreSQL does not give
  back every number as it was written: 1e16 comes back as 10000000000000000. *)
Definition preserved (v : pyval) : Prop := ∀ w, jsonb v = Some w → wf_json w ∧ canon w = canon v.
Definition preserved_items : Prop := ∀ v, admissible v → wf_json v → preserved v.

Lemma item_line r : preserved_items → item_ok admissible r → ∃ b, json_bytes (di_item_json r) = Some b ∧ 10%N ∉ b ∧
di_size_bytes r = Z.of_nat (length b) ∧ di_sha256_digest r = sha256_hex b ∧
utf8_decode b ≫= json_loads = Some (canon (di_item_json r)).
Proof.
intros Hf (v & b & Hv & Hw & Hj & Hb & Hs & Hd). destruct (Hf _ Hv Hw _ Hj) as [Hw' Hc]. exists b.
assert (json_bytes (di_item_json r) = Some b) as Hb' by (unfold json_bytes, json_dumps in *; by rewrite Hc).
split_and!; [done|by apply (canonical_one_line _ _ Hw' Hb')|done..|by apply json_bytes_roundtrip].
Qed.

Definition line_of (r : DatasetItem) (line : list N) : Prop := json_bytes (di_item_json r) = Some line ∧
di_size_bytes r = Z.of_nat (length line) ∧ di_sha256_digest r = sha256_hex line ∧ 10%N ∉ line ∧
utf8_decode line ≫= json_loads = Some (canon (di_item_json r)).

Lemma log_lines s did d : preserved_items → ds_inv s → datasets s !! did = Some d → ∃ bs,
Forall2 line_of (log s did) bs ∧ Z.of_nat (length (lines_of bs)) = da_total_bytes d + da_item_count d.
Proof.
intros Hf Hinv Hd. destruct (log_numbered _ _ _ Hinv Hd) as [El Hn].
assert (∃ bs, Forall2 line_of (log s did) bs) as [bs Hbs].
{ apply (Forall2_exists_r (log s did) line_of). apply Forall_lookup. intros j r Hj. destruct (Hn _ _ Hj) as (i & Hi & _).
  destruct (dv_item _ _ Hinv _ _ Hi) as (Hok & _). destruct (item_line r Hf Hok) as (b & ? & ? & ? & ? & ?). by exists b. }
exists bs. split; [done|]. rewrite lines_of_length.
destruct (dv_dataset _ _ Hinv _ _ Hd) as (_ & _ & _ & -> & _). rewrite <- El, (Forall2_length _ _ _ Hbs). f_equal.
rewrite (sumZ_select (of_dataset did None) (bytes_in did) di_size_bytes).
- transitivity (total (di_size_bytes <$> log s did)).
  + clear - Hbs. induction Hbs as [|r b l bs (_ & Hs & _) _ IH]; [done|]. unfold total in *. cbn. by rewrite IH, Hs.
  + rewrite <- (export_rows_log _ _ _ Hinv Hd), <- list_fmap_compose. unfold export_rows, order_by.
    by rewrite merge_sort_Permutation.
- intros i r _. unfold bytes_in, of_dataset. by rewrite andb_true_r.
Qed.

Lemma export_rows_lines s did d bs : ds_inv s → datasets s !! did = Some d → Forall2 line_of (log s did) bs →
export_lines 1 (export_rows s did) s = (inr (lines_of bs), s).
Proof.
intros Hinv Hd Hbs. pose proof (export_rows_log _ _ _ Hinv Hd) as Hrows. destruct (log_numbered _ _ _ Hinv Hd) as [_ Hn].
rewrite <- Hrows in Hbs. apply export_lines_run.
- apply (Forall2_fmap_l snd) in Hbs. eapply Forall2_impl; [exact Hbs|]. by intros p b (? & _).
- intros j p Hj. destruct (Hn j p.2) as (i & _ & _ & En); [|exact En]. by rewrite <- Hrows, list_lookup_fmap, Hj.
Qed.

(** When every item appended is one the column preserves, an export by a session whose
  dataset object is current is the log: within the two
  limits it succeeds, its size is total_bytes plus one line break per item, and splitting
  it into lines and reading each as JSON gives back, in order, the item of each row up to
  key order; each line hashes to the digest recorded at the append. *)
Theorem dataset_export_roundtrip x c k did d (Hx : reachable x) (Hf : preserved_items)
  (Hk : loaded x !! k = Some (Some (did, d))) (Hd : datasets (tables x) !! did = Some d)
  (Hi : da_item_count d ≤ MAX_DATASET_EXPORT_ITEMS) (Hb : da_total_bytes d + da_item_count d ≤ MAX_DATASET_EXPORT_BYTES) :
∃ e y, act true c (Export k) x = (inr (Exported e), y) ∧
log (tables y) did = log (tables x) did ∧
ex_item_count e = da_item_count d ∧ Z.of_nat (length (ex_content e)) = da_total_bytes d + da_item_count d ∧
ex_sha256_digest e = sha256_hex (ex_content e) ∧
Forall2 (λ r line, di_sha256_digest r = sha256_hex line ∧ utf8_decode line ≫= json_loads = Some (canon (di_item_json r)))
  (log (tables x) did) (jsonl (ex_content e)).
Proof.
destruct (reachable_inv _ _ Hx) as [Hinv _]. destruct (log_lines _ _ _ Hf Hinv Hd) as (bs & Hbs & Hlen).
destruct (log_numbered _ _ _ Hinv Hd) as [El Hn]. pose proof (export_rows_log _ _ _ Hinv Hd) as Hrows.
assert (Hjl : jsonl (lines_of bs) = bs).
{ apply jsonl_lines. clear - Hbs. induction Hbs as [|r b l bs (_ & _ & _ & ? & _) _ IH]; by constructor. }
assert (Htake : take (S (Z.to_nat MAX_DATASET_EXPORT_ITEMS)) (export_rows (tables x) did) = export_rows (tables x) did)
  by (apply take_ge; rewrite <- (length_fmap snd), Hrows; lia).
assert (Hcount : Z.of_nat (length (export_rows (tables x) did)) = da_item_count d)
  by (by rewrite <- (length_fmap snd), Hrows).
eexists (MkExport (lines_of bs) _ _), _. split.
- cbn [act]. rewrite Hk. unfold transact. unfold export_dataset_jsonl.
  rewrite run_pass by (by apply Z.ltb_ge). rewrite run_pass by (by apply Z.ltb_ge). rewrite run_gets.
  change (order_by by_sequence (select (of_dataset did None) (items (tables x)))) with (export_rows (tables x) did).
  rewrite Htake, run_pass by (apply negb_false_iff; by apply Z.eqb_eq).
  rewrite (run_bind _ _ _ _ _ (export_rows_lines _ _ _ _ Hinv Hd Hbs)). rewrite run_pass by (apply Z.ltb_ge; lia).
  erewrite run_bind by reflexivity. reflexivity.
- cbn. split_and!; [done..|]. rewrite Hjl. eapply Forall2_impl; [exact Hbs|]. by intros r b (_ & _ & ? & _ & ?).
Qed.
End spec.

(** ** A run *)

Module DatasetScenario.
#[local] Instance plain_digest : Sha256 := λ b, b.
#[local] Instance no_floats : PyFloats := λ r, FFin r.
#[local] Instance counting : Entropy := λ n, n.
#[local] Instance same_json : JsonColumn := Some.
Definition all_items : pyval → Prop := λ _, True.

Definition me : caller := MkCaller 7 "user" (lit "7") "req".
Definition do (a : action) (x : sys) : sys := (act true me a x).2.
Definition item (n : Z) : pyval := PDict [(KStr (lit "b"), PInt n); (KStr (lit "a"), PNone)].
Definition batch (key : string) (ns : list Z) : pyval :=
PDict [(KStr (lit "schema_version"), PStr (lit DS_SCHEMA_VERSION)); (KStr (lit "idempotency_key"), PStr (lit key));
       (KStr (lit "items"), PList (item <$> ns))].

Lemma batch_allowed key ns : allowed_payload all_items (batch key ns).
Proof.
split; [|by intros a _; apply Forall_true].
apply wf_dict. split; [apply (bool_decide_unpack _); vm_compute; exact I|].
repeat (apply Forall_cons; split; [done|]). apply Forall_cons. split; [|constructor]. apply wf_list.
apply Forall_fmap, Forall_true. intros n. apply wf_dict. split; [apply (bool_decide_unpack _); vm_compute; exact I|].
repeat (apply Forall_cons; split; [done|]). constructor.
Qed.

Lemma do_step a x : allowed all_items a → step all_items x (do a x).
Proof. intros. by apply step_act. Qed.

Definition created : sys := do (Create (MkRunScope 1 2 3 4 5 6) (lit "out") 0) init.
(** Two sessions load the empty dataset. *)
Definition open_ : sys := do (Load 2 0) (do (Load 1 0) created).
Definition first : sys := do (Append 1 (batch "k1" [1; 2])) open_.
Definition reopened : sys := do (Load 4 0) (do (Load 3 0) first).
Definition row (x : sys) : Dataset := default (MkDataset 0 0 0 0 0 [] 0 0 0 0 0 0) (datasets (tables x) !! 0%N).

Lemma open_reachable : reachable all_items open_.
Proof. do 3 (eapply rtc_r; [|by apply do_step]). constructor. Qed.
Lemma first_reachable : reachable all_items first.
Proof. eapply rtc_r; [apply open_reachable|apply do_step, batch_allowed]. Qed.
Lemma first_reopened : rtc (step all_items) first reopened.
Proof. do 2 (eapply rtc_r; [|by apply do_step]). constructor. Qed.
Lemma reopened_reachable : reachable all_items reopened.
Proof. eapply rtc_trans; [apply first_reachable|apply first_reopened]. Qed.
Lemma same_preserved : preserved_items all_items.
Proof. intros v _ Hw w [= <-]. done. Qed.

Lemma dataset_log_gap_free_witness :
da_item_count (row first) = 2 ∧ is_Some (item_at (tables first) 0 2).
Proof.
split; [vm_compute; reflexivity|].
destruct (dataset_log_gap_free all_items first 0 (row first) first_reachable) as (_ & _ & _ & _ & Hall & _);
  [vm_compute; reflexivity|]. apply Hall. vm_compute. split; discriminate.
Defined.

Lemma dataset_append_extends_log_witness : ∃ o s',
append_dataset_items 0 (row open_) 7 "user" (lit "7") "req" (batch "k1" [1; 2]) (tables open_) = (inr o, s') ∧
ao_replayed o = false ∧ ∃ rows, log s' 0 = rows ∧ length rows = 2%nat.
Proof.
eexists _, _. split; [vm_compute; reflexivity|].
destruct (dataset_append_extends_log all_items open_ 1 0 (row open_) 7 "user" (lit "7") "req" (batch "k1" [1; 2]) _ _
  open_reachable ltac:(vm_compute; reflexivity) (batch_allowed _ _) ltac:(vm_compute; reflexivity))
  as (a & Ha & _ & _ & _ & _ & Hcase).
split; [reflexivity|]. cbv [ao_replayed] in Hcase. destruct Hcase as (_ & _ & (rows & Hl & Hf) & _). exists rows. split; [exact Hl|].
pose proof (Forall2_length _ _ _ Hf) as El. vm_compute in Ha. injection Ha as <-. symmetry. exact El.
Defined.

Lemma dataset_log_append_only_witness : log (tables first) 0 `prefix_of` log (tables reopened) 0.
Proof.
refine (proj1 (dataset_log_append_only all_items first reopened 0 first_reachable first_reopened _)).
exists (row first). vm_compute. reflexivity.
Defined.

Definition appended_first : DatasetAppendOutcome :=
match (act true me (Append 1 (batch "k1" [1; 2])) open_).1 with
| inr (Appended o) => o
| _ => MkAppendOutcome 0 (MkAppendReceipt 0 0 0 0 [] [] 0 0 0 0) true
end.
Definition validated (p : pyval) : ValidatedDatasetAppend :=
match validate_dataset_append p with inr a => a | inl _ => MkDatasetAppend [] [] [] 0 end.
Lemma dataset_append_idempotent_witness :
(act true me (Append 3 (batch "k1" [1; 2])) reopened).1 = inr (Appended (MkAppendOutcome (ao_receipt_id appended_first) (ao_receipt appended_first) true)) ∧
(act true me (Append 3 (batch "k1" [3])) reopened).1 = inl (ApiError 409 "DATASET_IDEMPOTENCY_CONFLICT").
Proof.
split.
- rewrite (dataset_append_idempotent all_items open_ first reopened me me 1 3 0 (row open_) (row reopened)
    (batch "k1" [1; 2]) (batch "k1" [1; 2]) (validated (batch "k1" [1; 2])) (validated (batch "k1" [1; 2])) appended_first
    open_reachable ltac:(vm_compute; reflexivity) (batch_allowed _ _) ltac:(vm_compute; reflexivity) first_reopened
    ltac:(vm_compute; reflexivity) ltac:(vm_compute; reflexivity) ltac:(vm_compute; reflexivity) eq_refl).
  vm_compute. reflexivity.
- rewrite (dataset_append_idempotent all_items open_ first reopened me me 1 3 0 (row open_) (row reopened)
    (batch "k1" [1; 2]) (batch "k1" [3]) (validated (batch "k1" [1; 2])) (validated (batch "k1" [3])) appended_first
    open_reachable ltac:(vm_compute; reflexivity) (batch_allowed _ _) ltac:(vm_compute; reflexivity) first_reopened
    ltac:(vm_compute; reflexivity) ltac:(vm_compute; reflexivity) ltac:(vm_compute; reflexivity) ltac:(vm_compute; reflexivity)).
  vm_compute. reflexivity.
Defined.

Lemma dataset_export_roundtrip_witness : ∃ e, (act true me (Export 3) reopened).1 = inr (Exported e) ∧ ex_item_count e = 2 ∧
length (jsonl (ex_content e)) = 2%nat.
Proof.
destruct (dataset_export_roundtrip all_items reopened me 3 0 (row reopened) reopened_reachable same_preserved
  ltac:(vm_compute; reflexivity) ltac:(vm_compute; reflexivity)) as (e & y & Hact & _ & Hc & _ & _ & Hf);
  [vm_compute; discriminate|vm_compute; discriminate|].
exists e. rewrite Hact. split; [reflexivity|]. split; [rewrite Hc; vm_compute; reflexivity|].
rewrite <- (Forall2_length _ _ _ Hf). vm_compute. reflexivity.
Defined.

(** The lock of an append does not refresh the object the session already holds: of two
  sessions that loaded the dataset before either appended, the second writes the sequence
  numbers the first has taken and fails on the unique constraint, not with an API error. *)
Example overlapping_append_fails :
(act true me (Append 2 (batch "k2" [3])) first).1 = inl (IntegrityError "uq_dataset_items_dataset_sequence").
Proof. vm_compute. reflexivity. Qed.
End DatasetScenario.

(** A column that changes the text of a number, as PostgreSQL does with 1e+16: the export is
  not the size the appends counted, and its line has not the digest that was recorded. *)
Module NumericScenario.
#[local] Instance plain_digest : Sha256 := λ b, b.
#[local] Instance floats : PyFloats := λ r, FFin r.
#[local] Instance counting : Entropy := λ n, n.
#[local] Instance numeric : JsonColumn := λ v,
  match v with PDict [(k, PFloat _)] => Some (PDict [(k, PInt (10 ^ 16))]) | _ => Some v end.
Definition me : caller := MkCaller 7 "user" (lit "7") "req".
Definition do (a : action) (x : sys) : sys := (act true me a x).2.
Definition big : pyval := PDict [(KStr (lit "a"), PFloat (FFin (lit "1e+16")))].
Definition batch : pyval :=
PDict [(KStr (lit "schema_version"), PStr (lit DS_SCHEMA_VERSION)); (KStr (lit "idempotency_key"), PStr (lit "k1"));
       (KStr (lit "items"), PList [big])].
Definition appended : sys := do (Load 3 0) (do (Append 1 batch) (do (Load 1 0) (do (Create (MkRunScope 1 2 3 4 5 6) (lit "out") 0) init))).
Example export_differs_from_what_was_appended :
match (act true me (Export 3) appended).1, datasets (tables appended) !! 0%N with
| inr (Exported e), Some d =>
    ex_item_count e = da_item_count d ∧ Z.of_nat (length (ex_content e)) ≠ da_total_bytes d + da_item_count d ∧
    Forall (λ line, Forall (λ r, di_sha256_digest r ≠ sha256_hex line) (log (tables appended) 0)) (jsonl (ex_content e))
| _, _ => False
end.
Proof. vm_compute. split; [reflexivity|]. split; [discriminate|]. repeat constructor; discriminate. Qed.
End NumericScenario.
