(* ===== verification/ExecutionPlane.v ===== *)
(** The execution plane (src/apps/api/app/services/execution_plane.py, the cancel
    path of services/runs.py, api/internal_dependencies.py and
    services/execution_recovery_sweeper.py): workers claim builds and runs under
    leases, renew and complete them; expired leases are reaped and retried, and
    cancelled runs converge.

    Rows keep the columns the operations read or write; [created_at] and columns
    no operation of the plane looks at are left out.  [locked] is the set of rows
    other transactions hold, which the queries with SKIP LOCKED pass over. *)

From S2P Require Import Prelude PyVal Json PyUuid PyTime QueueProtocol Idempotency Pagination.
From S2P Require Import EventProtocol RunEvents Recovery.
(** ** Statuses *)

Inductive work_kind := BUILD | RUN_START | RUN_CANCEL.
#[export] Instance work_kind_eq_dec : EqDecision work_kind.
Proof. solve_decision. Defined.

Module BuildStatus.
Inductive t := QUEUED | STARTING | RUNNING | SUCCEEDED | FAILED | TIMED_OUT | CANCELLED.
End BuildStatus.
#[export] Instance build_status_eq_dec : EqDecision BuildStatus.t.
Proof. solve_decision. Defined.

Module RunStatus.
Inductive t := DRAFT | READY | QUEUED | STARTING | RUNNING | PAUSING | PAUSED | TIMING_OUT
| ABORTING | SUCCEEDED | PARTIALLY_SUCCEEDED | FAILED | TIMED_OUT | ABORTED.
End RunStatus.
#[export] Instance run_status_eq_dec : EqDecision RunStatus.t.
Proof. solve_decision. Defined.
Definition run_status_text (x : RunStatus.t) : string :=
  match x with
  | RunStatus.DRAFT => "DRAFT" | RunStatus.READY => "READY" | RunStatus.QUEUED => "QUEUED"
  | RunStatus.STARTING => "STARTING" | RunStatus.RUNNING => "RUNNING" | RunStatus.PAUSING => "PAUSING"
  | RunStatus.PAUSED => "PAUSED" | RunStatus.TIMING_OUT => "TIMING_OUT" | RunStatus.ABORTING => "ABORTING"
  | RunStatus.SUCCEEDED => "SUCCEEDED" | RunStatus.PARTIALLY_SUCCEEDED => "PARTIALLY_SUCCEEDED"
  | RunStatus.FAILED => "FAILED" | RunStatus.TIMED_OUT => "TIMED_OUT" | RunStatus.ABORTED => "ABORTED"
  end.
Definition RUN_TERMINAL_STATUSES : list RunStatus.t :=
  [RunStatus.SUCCEEDED; RunStatus.PARTIALLY_SUCCEEDED; RunStatus.FAILED; RunStatus.TIMED_OUT;
   RunStatus.ABORTED].
Definition RUN_CANCELLABLE_ACTIVE_STATUSES : list RunStatus.t :=
  [RunStatus.STARTING; RunStatus.RUNNING; RunStatus.PAUSING; RunStatus.PAUSED; RunStatus.TIMING_OUT].

Module LeaseStatus.
Inductive t := ACTIVE | COMPLETED | FAILED | EXPIRED | CANCELLED.
End LeaseStatus.
#[export] Instance lease_status_eq_dec : EqDecision LeaseStatus.t.
Proof. solve_decision. Defined.

Module SourceStatus.
Inductive t := PENDING | CLAIMED | DELIVERED | FAILED | CANCELLED.
End SourceStatus.
#[export] Instance source_status_eq_dec : EqDecision SourceStatus.t.
Proof. solve_decision. Defined.

Inductive run_command := START | CANCEL.
#[export] Instance run_command_eq_dec : EqDecision run_command.
Proof. solve_decision. Defined.

Module GrantStatus.
Inductive t := ISSUED | CONSUMED | EXPIRED | REVOKED.
End GrantStatus.
#[export] Instance grant_status_eq_dec : EqDecision GrantStatus.t.
Proof. solve_decision. Defined.

Module WorkerStatus.
Inductive t := ACTIVE | DRAINING | REVOKED.
End WorkerStatus.
#[export] Instance worker_status_eq_dec : EqDecision WorkerStatus.t.
Proof. solve_decision. Defined.

(** ** Rows *)

Record Project := MkProject {
  pr_status : string; pr_deleted_at : option time; pr_max_active_leases : Z }.

Record AgentVersion := MkAgentVersion { av_manifest : list (pykey * pyval) }.

Record StorageObject := MkStorageObject {
  so_organization_id : uuid; so_project_id : uuid; so_status : string; so_scan_status : string;
  so_deleted_at : option time; so_sha256_digest : pystr; so_size_bytes : Z; so_media_type : pystr }.

Record Build := MkBuild {
  b_organization_id : uuid;
  b_project_id : uuid;
  b_agent_id : uuid;
  b_agent_version_id : uuid;
  b_manifest_digest : pystr;
  b_source_object_id : option uuid;
  b_status : BuildStatus.t;
  b_started_at : option time;
  b_completed_at : option time;
  b_artifact_digest : option pystr;
  b_error_code : option string;
  b_error_message : option pystr;
  b_updated_at : time;
  b_version : Z }.
#[export] Instance eta_build : Eta Build := λ r,
  MkBuild (b_organization_id r) (b_project_id r) (b_agent_id r) (b_agent_version_id r)
    (b_manifest_digest r) (b_source_object_id r) (b_status r) (b_started_at r) (b_completed_at r)
    (b_artifact_digest r) (b_error_code r) (b_error_message r) (b_updated_at r) (b_version r).

Record Run := MkRun {
  rn_organization_id : uuid;
  rn_project_id : uuid;
  rn_agent_id : uuid;
  rn_agent_version_id : uuid;
  rn_build_id : uuid;
  rn_status : RunStatus.t;
  rn_input_reference : list (pykey * pyval);
  rn_runtime_configuration : list (pykey * pyval);
  rn_requested_by_user_id : uuid;
  rn_queued_at : time;
  rn_started_at : option time;
  rn_finished_at : option time;
  rn_cancel_requested_at : option time;
  rn_cancel_deadline_at : option time;
  rn_failure_code : option string;
  rn_failure_summary : option pystr;
  rn_updated_at : time;
  rn_version : Z }.
#[export] Instance eta_run : Eta Run := λ r,
  MkRun (rn_organization_id r) (rn_project_id r) (rn_agent_id r) (rn_agent_version_id r)
    (rn_build_id r) (rn_status r) (rn_input_reference r) (rn_runtime_configuration r)
    (rn_requested_by_user_id r) (rn_queued_at r) (rn_started_at r) (rn_finished_at r)
    (rn_cancel_requested_at r) (rn_cancel_deadline_at r) (rn_failure_code r) (rn_failure_summary r)
    (rn_updated_at r) (rn_version r).

(** A row of [BuildDispatchOutbox] (its target a build, no command) or of
    [RunCommandOutbox] (its target a run); the tables share every other column. *)
Record Outbox := MkOutbox {
  ob_organization_id : uuid;
  ob_project_id : uuid;
  ob_target_id : uuid;
  ob_command : option run_command;
  ob_topic : string;
  ob_payload : list (pykey * pyval);
  ob_status : SourceStatus.t;
  ob_attempts : Z;
  ob_available_at : time;
  ob_claimed_at : option time;
  ob_delivered_at : option time;
  ob_last_error_code : option string;
  ob_updated_at : time }.
#[export] Instance eta_outbox : Eta Outbox := λ r,
  MkOutbox (ob_organization_id r) (ob_project_id r) (ob_target_id r) (ob_command r) (ob_topic r)
    (ob_payload r) (ob_status r) (ob_attempts r) (ob_available_at r) (ob_claimed_at r)
    (ob_delivered_at r) (ob_last_error_code r) (ob_updated_at r).

Record WorkerIdentity := MkWorker {
  wk_name : pystr;
  wk_public_prefix : pystr;
  wk_token_digest : list N;
  wk_capabilities : list string;
  wk_max_concurrency : Z;
  wk_status : WorkerStatus.t;
  wk_protocol_version : string;
  wk_software_version : pystr;
  wk_metadata : list (pykey * pyval);
  wk_sandbox_profile : option string;
  wk_sandbox_attestation_digest : option pystr;
  wk_sandbox_execution_enabled : bool;
  wk_sandbox_attested_at : option time;
  wk_registered_at : time;
  wk_last_seen_at : option time;
  wk_last_lost_at : option time;
  wk_last_recovered_at : option time;
  wk_last_cleanup_at : option time;
  wk_cleanup_generation : Z;
  wk_expires_at : option time;
  wk_revoked_at : option time }.
#[export] Instance eta_worker : Eta WorkerIdentity := λ r,
  MkWorker (wk_name r) (wk_public_prefix r) (wk_token_digest r) (wk_capabilities r)
    (wk_max_concurrency r) (wk_status r) (wk_protocol_version r) (wk_software_version r)
    (wk_metadata r) (wk_sandbox_profile r) (wk_sandbox_attestation_digest r)
    (wk_sandbox_execution_enabled r) (wk_sandbox_attested_at r) (wk_registered_at r)
    (wk_last_seen_at r) (wk_last_lost_at r) (wk_last_recovered_at r) (wk_last_cleanup_at r)
    (wk_cleanup_generation r) (wk_expires_at r) (wk_revoked_at r).

Record ExecutionLease := MkLease {
  l_worker_id : uuid;
  l_organization_id : uuid;
  l_project_id : uuid;
  l_work_kind : work_kind;
  l_source_outbox_id : uuid;
  l_source_topic : string;
  l_build_id : option uuid;
  l_run_id : option uuid;
  l_token_digest : list N;
  l_payload_digest : pystr;
  l_payload_snapshot : list (pykey * pyval);
  l_status : LeaseStatus.t;
  l_attempt : Z;
  l_claimed_at : time;
  l_expires_at : time;
  l_deadline_at : time;
  l_last_renewed_at : option time;
  l_completed_at : option time;
  l_failure_code : option string;
  l_failure_summary : option pystr;
  l_updated_at : time }.
#[export] Instance eta_lease : Eta ExecutionLease := λ r,
  MkLease (l_worker_id r) (l_organization_id r) (l_project_id r) (l_work_kind r)
    (l_source_outbox_id r) (l_source_topic r) (l_build_id r) (l_run_id r) (l_token_digest r)
    (l_payload_digest r) (l_payload_snapshot r) (l_status r) (l_attempt r) (l_claimed_at r)
    (l_expires_at r) (l_deadline_at r) (l_last_renewed_at r) (l_completed_at r)
    (l_failure_code r) (l_failure_summary r) (l_updated_at r).

Record SecretInjectionGrant := MkGrant {
  g_worker_id : uuid; g_lease_id : uuid; g_run_id : uuid; g_request_fingerprint : pystr;
  g_status : GrantStatus.t; g_issued_at : time; g_expires_at : time; g_envelope : pyval }.
#[export] Instance eta_grant : Eta SecretInjectionGrant := λ r,
  MkGrant (g_worker_id r) (g_lease_id r) (g_run_id r) (g_request_fingerprint r) (g_status r)
    (g_issued_at r) (g_expires_at r) (g_envelope r).

Record ExecutionArtifact := MkArtifact {
  ar_organization_id : uuid; ar_build_id : option uuid; ar_kind : string;
  ar_digest_algorithm : string; ar_digest : pystr; ar_object_key : pystr; ar_media_type : pystr;
  ar_size_bytes : Z; ar_status : string; ar_scan_status : string; ar_provenance : list (pykey * pyval) }.

Record EgressPolicy := MkPolicy {
  ep_organization_id : uuid; ep_project_id : uuid; ep_status : string; ep_active_revision_id : option uuid }.
Record EgressPolicyRevision := MkRevision {
  er_policy_id : uuid; er_organization_id : uuid; er_project_id : uuid; er_revision_number : Z;
  er_policy_digest : pystr; er_credential_secret_id : option uuid }.

(** ** Settings, randomness and the parts of the system the plane calls *)

(** The settings of core/config.py the plane reads; [canary_worker] is
    [sandbox_canary_worker_name.strip()], the peppers are already encoded. *)
Class Settings := {
  worker_lease_seconds : Z;
  worker_lease_max_seconds : Z;
  worker_max_attempts : Z;
  worker_retry_base_seconds : Z;
  worker_retry_max_seconds : Z;
  worker_cancel_convergence_seconds : Z;
  worker_secret_envelope_seconds : Z;
  worker_registration_max_concurrency : Z;
  worker_lost_after_seconds : Z;
  sandbox_max_build_seconds : Z;
  sandbox_max_run_seconds : Z;
  sandbox_max_memory_mb : Z;
  sandbox_max_cpu_millis : Z;
  sandbox_max_pids : Z;
  sandbox_max_ephemeral_disk_mb : Z;
  sandbox_execution_enabled : bool;
  sandbox_activation_mode : string;
  sandbox_required_profile : string;
  canary_worker : pystr;
  worker_token_pepper : list N;
  lease_token_pepper : list N }.

(** The bounds [Settings] validates at startup. *)
Definition valid_worker_settings `{Settings} : bool :=
  (15 <=? worker_lease_seconds) && (worker_lease_seconds <=? worker_lease_max_seconds)
  && ((1 <=? worker_max_attempts) && (worker_max_attempts <=? 20))
  && ((1 <=? worker_retry_base_seconds) && (worker_retry_base_seconds <=? 60))
  && ((worker_retry_base_seconds <=? worker_retry_max_seconds) && (worker_retry_max_seconds <=? 3600))
  && ((30 <=? worker_cancel_convergence_seconds) && (worker_cancel_convergence_seconds <=? 3600))
  && ((15 <=? worker_secret_envelope_seconds) && (worker_secret_envelope_seconds <=? 300))
  && ((1 <=? worker_registration_max_concurrency) && (worker_registration_max_concurrency <=? 16))
  && ((15 <=? worker_lost_after_seconds) && (worker_lost_after_seconds <=? 300))
  && ((30 <=? sandbox_max_build_seconds) && (sandbox_max_build_seconds <=? 3600))
  && ((1 <=? sandbox_max_run_seconds) && (sandbox_max_run_seconds <=? 86400)).

(** [secrets]: the public prefix of a worker token and [token_urlsafe(32)]. *)
Class TokenSource := { token_prefix : N → pystr; token_urlsafe : N → pystr }.

(** The activation receipt of a claim: the fields the plane reads and its dump. *)
Record Activation := MkActivation {
  ac_mode : string; ac_agent_version_id : uuid; ac_dump : pyval }.

(** The sandbox admission of a claim: [_sandbox_claim_policy], [_canary_activation]
    and the three capability receipts, which read the worker, the payload and the
    settings only. *)
Class ClaimSealing := {
  sandbox_claim_policy : WorkerIdentity → list (pykey * pyval) → exn + option pyval;
  canary_activation : WorkerIdentity → list (pykey * pyval) → option pyval → exn + option Activation;
  dataset_append_capability : WorkerIdentity → list (pykey * pyval) → option Activation → exn + pyval;
  key_value_store_capability : WorkerIdentity → list (pykey * pyval) → option Activation → exn + pyval;
  request_queue_capability : WorkerIdentity → list (pykey * pyval) → option Activation → exn + pyval;
  (** [_bound_egress_policy] accepts the binding of an input reference. *)
  bound_egress_policy : list (pykey * pyval) → bool }.

Record ArtifactRegistration := MkRegistration {
  rg_kind : string; rg_digest_algorithm : string; rg_digest : pystr; rg_object_key : pystr;
  rg_media_type : pystr; rg_size_bytes : Z; rg_status : string; rg_scan_status : string;
  rg_provenance : list (pykey * pyval) }.

(** What [_register_artifact] checks before it looks at the table: the activation
    provenance, the object key, the size, and the object storage. *)
Class ArtifactChecks := verify_artifact :
  uuid → ExecutionLease → WorkerIdentity → ArtifactRegistration → exn + ().

(** ** State *)

Record db := MkDb {
  workers : gmap uuid WorkerIdentity;
  projects : gmap uuid Project;
  versions : gmap uuid AgentVersion;
  objects : gmap uuid StorageObject;
  policies : gmap uuid EgressPolicy;
  revisions : gmap uuid EgressPolicyRevision;
  builds : gmap uuid Build;
  build_outbox : gmap uuid Outbox;
  runs : gmap uuid Run;
  run_commands : gmap uuid Outbox;
  run_events : list RunEvent;
  leases : gmap uuid ExecutionLease;
  grants : gmap uuid SecretInjectionGrant;
  artifacts : gmap uuid ExecutionArtifact;
  idempotency : list (IdempotencyRecord (uuid * Run));
  audits : list audit_event;
  rng : N }.
#[export] Instance eta_db : Eta db := λ s,
  MkDb (workers s) (projects s) (versions s) (objects s) (policies s) (revisions s) (builds s)
    (build_outbox s) (runs s) (run_commands s) (run_events s) (leases s) (grants s) (artifacts s)
    (idempotency s) (audits s) (rng s).
#[export] Instance db_audit : HasAudit db := {|
  audit_log := audits;
  audit_push e s := s <| audits ::= λ l, l ++ [e] |>;
  audit_push_log e s := eq_refl |}.

(** The outbox a lease of a kind works from. *)
Definition sources (k : work_kind) (s : db) : gmap uuid Outbox :=
  match k with BUILD => build_outbox s | _ => run_commands s end.
Definition put_source (k : work_kind) (id : uuid) (o : Outbox) (s : db) : db :=
  match k with
  | BUILD => s <| build_outbox ::= <[id := o]> |>
  | _ => s <| run_commands ::= <[id := o]> |>
  end.

Definition state_conflict : exn := ApiError 409 "WORK_ITEM_STATE_CONFLICT".
Definition credential_invalid : exn := ApiError 401 "INTERNAL_CREDENTIAL_INVALID".
Definition lease_invalid : exn := ApiError 401 "LEASE_CREDENTIAL_INVALID".

Definition opt_detail_time (t : option time) : detail := match t with Some t => DTime t | None => DNone end.
Definition opt_detail_uuid (u : option uuid) : detail := match u with Some u => DUuid u | None => DNone end.
Definition kind_text (k : work_kind) : string :=
  match k with BUILD => "BUILD" | RUN_START => "RUN_START" | RUN_CANCEL => "RUN_CANCEL" end.
Definition status_value (x : RunStatus.t) : pyval := PStr (lit (run_status_text x)).

Section ops.
Context `{Entropy, Sha256, CaseFold, PyRepr, IsoForms, Settings, HmacSha256, TokenSource}.
Context `{UnicodeDecimal, ClaimSealing, ArtifactChecks}.
Abbreviation M := (Prelude.M db).

Definition fresh_uuid : M uuid := λ s, (inr (uuid4 (rng s)), s <| rng ::= N.succ |>).
Definition fresh_token : M pystr := λ s, (inr (token_urlsafe (rng s)), s <| rng ::= N.succ |>).
Definition fresh_prefix : M pystr := λ s, (inr (token_prefix (rng s)), s <| rng ::= N.succ |>).

Definition update_lease (id : uuid) (l : ExecutionLease) : M () :=
modify (λ s, s <| leases ::= <[id := l]> |>).
Definition update_build (id : uuid) (b : Build) : M () := modify (λ s, s <| builds ::= <[id := b]> |>).
Definition update_run (id : uuid) (r : Run) : M () := modify (λ s, s <| runs ::= <[id := r]> |>).
Definition update_worker (id : uuid) (w : WorkerIdentity) : M () :=
modify (λ s, s <| workers ::= <[id := w]> |>).
Definition update_source (k : work_kind) (id : uuid) (o : Outbox) : M () := modify (put_source k id o).

(** [secret_digest]. *)
Definition secret_digest (value : pystr) (pepper : list N) : M (list N) :=
encoded ← get_or_raise (utf8_encode value) UnicodeEncodeError;
mret (hmac_sha256 pepper encoded).

(** [append_run_event(session, run=run, ...)]. *)
Definition log_event (run_id : uuid) (r : Run) (event_type : string)
  (payload : list (pykey * pyval)) : M () :=
log ← gets run_events;
log' ← lift (append_run_event (rn_organization_id r) (rn_project_id r) run_id event_type payload log);
modify (λ s, s <| run_events := log' |>).

Definition log_status (run_id : uuid) (r : Run) (previous : RunStatus.t) : M () :=
log_event run_id r "run.status"
  [(KStr (lit "previous_status"), status_value previous);
   (KStr (lit "status"), status_value (rn_status r))].

Definition system_audit (organization_id project_id : option uuid) (actor_type : string) (actor_id : pystr)
  (action resource_type : string) (resource_id : option uuid) (request_id : string)
  (details : list (string * detail)) : M () :=
append_audit_event (MkAudit organization_id project_id actor_type actor_id action resource_type
  resource_id request_id details).

(** ** Cancellation *)

Definition fenced_lease (now : time) (l : ExecutionLease) : ExecutionLease :=
l <| l_status := LeaseStatus.CANCELLED |> <| l_completed_at := Some now |>
  <| l_failure_code := Some "RUN_CANCELLED"%string |>
  <| l_failure_summary := Some (lit "The Run cancellation was converged.") |> <| l_updated_at := now |>.
Definition fenced_command (now : time) (o : Outbox) : Outbox :=
o <| ob_status := SourceStatus.CANCELLED |>
  <| ob_last_error_code := Some "RUN_CANCELLATION_CONVERGED"%string |> <| ob_updated_at := now |>.

(** The active leases of a run the fence cancels. *)
Definition fences (locked : gset uuid) (run_id : uuid) (preserve : option uuid) (lid : uuid)
  (l : ExecutionLease) : bool :=
bool_decide (l_run_id l = Some run_id) && bool_decide (l_status l = LeaseStatus.ACTIVE)
&& bool_decide (lid ∉ locked) && negb (bool_decide (preserve = Some lid)).

Definition revoke (g : SecretInjectionGrant) : SecretInjectionGrant := g <| g_status := GrantStatus.REVOKED |>.

Definition fence_cancelled_run_leases (locked : gset uuid) (run_id : uuid) (now : time)
  (preserve_lease_id preserve_source_id : option uuid) : M Z :=
rows ← gets (λ s, select (fences locked run_id preserve_lease_id) (leases s));
let cancelled_ids := rows.*1 in
modify (λ s, s <| leases ::= update_where (fences locked run_id preserve_lease_id) (fenced_lease now) |>) ;;
modify (λ s, s <| grants ::= update_where (λ _ g, bool_decide (g_lease_id g ∈ cancelled_ids)
                    && bool_decide (g_status g = GrantStatus.ISSUED)) revoke |>) ;;
modify (λ s, s <| run_commands ::= update_where (λ id o, bool_decide (ob_target_id o = run_id)
                    && bool_decide (ob_status o ∈ [SourceStatus.PENDING; SourceStatus.CLAIMED])
                    && negb (bool_decide (preserve_source_id = Some id))) (fenced_command now) |>) ;;
mret (Z.of_nat (length cancelled_ids)).

(** The run a convergence ends. *)
Definition aborted_run (now : time) (r : Run) : Run :=
r <| rn_status := RunStatus.ABORTED |>
  <| rn_finished_at := Some (default now (rn_finished_at r)) |>
  <| rn_failure_code := None |> <| rn_failure_summary := None |>
  <| rn_updated_at := now |> <| rn_version ::= Z.succ |>.

Definition converge_cancelled_run (locked : gset uuid) (run_id : uuid) (now : time) (request_id : string)
  (reason : string) : M bool :=
fenced_lease_count ← fence_cancelled_run_leases locked run_id now None None;
row ← gets (λ s, runs s !! run_id);
match row with
| None => mret false
| Some r =>
    if bool_decide (rn_cancel_requested_at r = None) then mret false
    else if bool_decide (rn_status r = RunStatus.ABORTED) then mret true
    else if negb (bool_decide (rn_status r = RunStatus.ABORTING)) then mret false
    else
      let previous := rn_status r in
      let r := aborted_run now r in
      update_run run_id r ;;
      log_status run_id r previous ;;
      log_event run_id r "run.completed"
        [(KStr (lit "status"), status_value RunStatus.ABORTED); (KStr (lit "reason"), PStr (lit reason))] ;;
      system_audit (Some (rn_organization_id r)) (Some (rn_project_id r)) "system"
        (lit "cancellation-reaper") "run.cancellation_converged" "run" (Some run_id) request_id
        [("previous_status"%string, DStr (run_status_text previous)); ("reason"%string, DStr reason);
         ("fenced_lease_count"%string, DInt fenced_lease_count);
         ("cancel_deadline_at"%string, opt_detail_time (rn_cancel_deadline_at r))] ;;
      mret true
end.

Definition overdue (now : time) (locked : gset uuid) (id : uuid) (r : Run) : bool :=
bool_decide (rn_status r = RunStatus.ABORTING) && bool_decide (rn_cancel_requested_at r ≠ None)
&& match rn_cancel_deadline_at r with Some t => t <=? now | None => false end
&& bool_decide (id ∉ locked).
Definition overdue_key (x : uuid * Run) : Z * N := (default 0 (rn_cancel_deadline_at x.2), x.1).

(** [for run_id in run_ids: ...], counting the convergences. *)
Fixpoint converge_runs (locked : gset uuid) (now : time) (request_id : string) (ids : list uuid)
  (converged : Z) : M Z :=
match ids with
| [] => mret converged
| id :: ids =>
    b ← converge_cancelled_run locked id now request_id "CANCEL_DEADLINE_EXCEEDED";
    converge_runs locked now request_id ids (if b : bool then converged + 1 else converged)
end.

Definition reap_overdue_cancellations (locked : gset uuid) (now : time) (request_id : string)
  (batch_size : Z) : M Z :=
raise_if (negb ((1 <=? batch_size) && (batch_size <=? 500)))
  (ValueError "Cancellation recovery batch size must be between 1 and 500.") ;;
ids ← gets (λ s, (take (Z.to_nat batch_size)
         (order_by (by_key overdue_key) (select (overdue now locked) (runs s)))).*1);
converge_runs locked now request_id ids 0.

(** ** Recovery of expired leases *)

(** What becomes of the work item of a lost lease. *)
Definition requeued (retry : bool) (next : option time) (now : time) (failure_code : string) (o : Outbox)
  : Outbox :=
o <| ob_status := if retry then SourceStatus.PENDING else SourceStatus.FAILED |>
  <| ob_available_at := default now next |> <| ob_last_error_code := Some failure_code |>
  <| ob_updated_at := now |>.

Definition lost_summary (what : string) (deadline_exceeded : bool) (failure_code : string) : pystr :=
if deadline_exceeded then lit ("The " ++ what ++ " execution deadline was exceeded.")
else if bool_decide (failure_code = "WORKER_LOST"%string) then lit "The execution worker was lost."
else lit "The execution lease expired.".

Definition lost_build (retry deadline_exceeded : bool) (now : time) (failure_code : string) (b : Build)
  : Build :=
b <| b_status := if retry then BuildStatus.QUEUED
                 else if deadline_exceeded then BuildStatus.TIMED_OUT else BuildStatus.FAILED |>
  <| b_error_code := if retry then None else Some failure_code |>
  <| b_error_message := if retry then None else Some (lost_summary "Build" deadline_exceeded failure_code) |>
  <| b_completed_at := if retry then None else Some now |>
  <| b_updated_at := now |> <| b_version ::= Z.succ |>.

Definition lost_run (k : work_kind) (retry deadline_exceeded : bool) (now : time) (failure_code : string)
  (r : Run) : Run :=
let r := if bool_decide (k = RUN_START) then
           r <| rn_status := if retry then RunStatus.QUEUED
                             else if deadline_exceeded then RunStatus.TIMED_OUT else RunStatus.FAILED |>
             <| rn_failure_code := if retry then None else Some failure_code |>
             <| rn_failure_summary := if retry then None
                                      else Some (lost_summary "Run" deadline_exceeded failure_code) |>
             <| rn_finished_at := if retry then None else Some now |>
         else if retry then r
         else
           r <| rn_status := RunStatus.FAILED |>
             <| rn_failure_code := Some (if deadline_exceeded then "CANCEL_DEADLINE_EXCEEDED"
                                         else "CANCEL_LEASE_EXPIRED")%string |>
             <| rn_failure_summary := Some (lit (if deadline_exceeded
                  then "The cancellation deadline was exceeded." else "The cancellation lease expired.")) |>
             <| rn_finished_at := Some now |> in
r <| rn_updated_at := now |> <| rn_version ::= Z.succ |>.

(** [retry_available_at(...) if retry else None]. *)
Definition next_attempt (retry : bool) (now : time) (attempt : Z) : M (option time) :=
if retry then
  t ← lift (retry_available_at now attempt worker_retry_base_seconds worker_retry_max_seconds);
  mret (Some t)
else mret None.

(** The source of a lease, with its id. *)
Definition source_for_lease (l : ExecutionLease) : M (option Outbox) :=
gets (λ s, sources (l_work_kind l) s !! l_source_outbox_id l).

Definition requeue (l : ExecutionLease) (source : option Outbox) (retry : bool) (next : option time)
  (now : time) (failure_code : string) : M () :=
match source with
| Some o => update_source (l_work_kind l) (l_source_outbox_id l) (requeued retry next now failure_code o)
| None => mret ()
end.

Definition find_build (id : option uuid) : M (option Build) := gets (λ s, id ≫= λ i, builds s !! i).
Definition find_run (id : option uuid) : M (option (uuid * Run)) :=
gets (λ s, id ≫= λ i, r ← runs s !! i; Some (i, r)).

Definition reset_expired_build (l : ExecutionLease) (now : time) (deadline_exceeded : bool)
  (failure_code : string) : M (option time) :=
source ← source_for_lease l;
build ← find_build (l_build_id l);
let retry := execution_retry_allowed (negb deadline_exceeded) FAILED (l_attempt l) worker_max_attempts
               (bool_decide (is_Some source)) in
next ← next_attempt retry now (l_attempt l);
requeue l source retry next now failure_code ;;
match l_build_id l, build with
| Some bid, Some b => update_build bid (lost_build retry deadline_exceeded now failure_code b)
| _, _ => mret ()
end ;;
mret next.

(** The part for runs, after the convergence was tried: the source as it is now. *)
Definition reset_expired_run (l : ExecutionLease) (run : option uuid) (now : time)
  (deadline_exceeded : bool) (failure_code : string) : M (option time) :=
source ← source_for_lease l;
let retry := execution_retry_allowed (negb deadline_exceeded) FAILED (l_attempt l) worker_max_attempts
               (bool_decide (is_Some source)) in
next ← next_attempt retry now (l_attempt l);
requeue l source retry next now failure_code ;;
row ← find_run run;
match row with
| None => mret next
| Some (rid, r) =>
    let previous := rn_status r in
    let r := lost_run (l_work_kind l) retry deadline_exceeded now failure_code r in
    update_run rid r ;;
    (if bool_decide (rn_status r = previous) then mret () else log_status rid r previous) ;;
    mret next
end.

Definition reset_expired_source (locked : gset uuid) (l : ExecutionLease) (now : time)
  (deadline_exceeded : bool) (failure_code : string) (request_id : string) : M (option time * bool) :=
if bool_decide (l_work_kind l = BUILD) then
  next ← reset_expired_build l now deadline_exceeded failure_code;
  mret (next, false)
else
  run ← find_run (l_run_id l);
  converged ← match run with
              | Some (rid, r) =>
                  if bool_decide (rn_cancel_requested_at r = None) then mret false
                  else converge_cancelled_run locked rid now request_id
                         (if bool_decide (l_work_kind l = RUN_START) then "RUN_START_LEASE_LOST"
                          else "RUN_CANCEL_LEASE_LOST")
              | None => mret false
              end;
  if converged : bool then mret (None, true)
  else
    next ← reset_expired_run l (fst <$> run) now deadline_exceeded failure_code;
    mret (next, false).

Definition worker_lost (failure_code : string) : bool := bool_decide (failure_code = "WORKER_LOST"%string).

(** The code a lost lease is closed with. *)
Definition expiry_code (current : time) (l : ExecutionLease) : string :=
if l_deadline_at l <=? current then "WORKLOAD_DEADLINE_EXCEEDED"
else if bool_decide (l_failure_code l = Some "WORKER_LOST"%string) then "WORKER_LOST"
else "LEASE_EXPIRED".

Definition expired_lease (current : time) (failure_code : string) (l : ExecutionLease) : ExecutionLease :=
let deadline_exceeded := l_deadline_at l <=? current in
l <| l_status := if deadline_exceeded then LeaseStatus.FAILED else LeaseStatus.EXPIRED |>
  <| l_completed_at := Some current |> <| l_failure_code := Some failure_code |>
  <| l_failure_summary := Some (if deadline_exceeded then lit "The workload execution deadline was exceeded."
       else if worker_lost failure_code then lit "The execution worker heartbeat was lost."
       else lit "The worker did not renew the lease.") |>
  <| l_updated_at := current |>.

(** Grants a lease still holds when it ends. *)
Definition held (lid : uuid) (_ : uuid) (g : SecretInjectionGrant) : bool :=
bool_decide (g_lease_id g = lid) && bool_decide (g_status g = GrantStatus.ISSUED).

(** One iteration of the loop.  The lease is read from the table each time: rows are
  shared objects of the session, which an earlier iteration may have fenced. *)
Definition reap_row (locked : gset uuid) (current : time) (request_id : string) (lid : uuid) : M () :=
row ← gets (λ s, leases s !! lid);
match row with
| None => mret ()
| Some l =>
    let deadline_exceeded := l_deadline_at l <=? current in
    let failure_code := expiry_code current l in
    '(next_attempt_at, cancellation_converged) ←
      reset_expired_source locked l current deadline_exceeded failure_code request_id;
    if cancellation_converged : bool then
      system_audit (Some (l_organization_id l)) (Some (l_project_id l)) "system"
        (lit "cancellation-reaper") "execution.lease.cancellation_converged" "execution_lease" (Some lid)
        request_id
        [("work_kind"%string, DStr (kind_text (l_work_kind l))); ("attempt"%string, DInt (l_attempt l));
         ("worker_id"%string, DUuid (l_worker_id l)); ("retry_scheduled"%string, DBool false)]
    else
      modify (λ s, s <| grants ::= update_where (held lid) (λ g, g <| g_status := GrantStatus.EXPIRED |>) |>) ;;
      modify (λ s, s <| leases ::= alter (expired_lease current failure_code) lid |>) ;;
      system_audit (Some (l_organization_id l)) (Some (l_project_id l)) "system"
        (lit (if worker_lost failure_code then "worker-loss-reaper" else "lease-reaper"))
        (if deadline_exceeded then "execution.lease.deadline_exceeded"
         else if worker_lost failure_code then "execution.lease.worker_lost" else "execution.lease.expired")
        "execution_lease" (Some lid) request_id
        [("work_kind"%string, DStr (kind_text (l_work_kind l))); ("attempt"%string, DInt (l_attempt l));
         ("worker_id"%string, DUuid (l_worker_id l)); ("deadline_at"%string, DTime (l_deadline_at l));
         ("deadline_exceeded"%string, DBool deadline_exceeded);
         ("worker_lost"%string, DBool (worker_lost failure_code));
         ("retry_scheduled"%string, DBool (bool_decide (is_Some next_attempt_at)));
         ("next_attempt_at"%string, opt_detail_time next_attempt_at)]
end.

Definition expired (current : time) (locked : gset uuid) (id : uuid) (l : ExecutionLease) : bool :=
bool_decide (l_status l = LeaseStatus.ACTIVE)
&& ((l_expires_at l <=? current) || (l_deadline_at l <=? current)) && bool_decide (id ∉ locked).

(** The query orders by [expires_at] only; ties are broken by id here. *)
Definition expiry_key (x : uuid * ExecutionLease) : Z * N := (l_expires_at x.2, x.1).

Definition reap_expired_leases (locked : gset uuid) (current : time) (request_id : string)
  (batch_size : Z) (reap_cancellations : bool) : M Z :=
raise_if (negb ((1 <=? batch_size) && (batch_size <=? 500)))
  (ValueError "Lease recovery batch size must be between 1 and 500.") ;;
ids ← gets (λ s, (take (Z.to_nat batch_size)
         (order_by (by_key expiry_key) (select (expired current locked) (leases s)))).*1);
for_each (reap_row locked current request_id) ids ;;
(if reap_cancellations : bool
 then reap_overdue_cancellations locked current request_id batch_size ;; mret () else mret ()) ;;
mret (Z.of_nat (length ids)).

(** ** api/internal_dependencies.py *)

Definition is_prefix_char (c : N) : bool := in_class 97 122 c || in_class 50 55 c.

(** [WORKER_TOKEN_PATTERN.fullmatch]: the public prefix of a worker token. *)
Definition worker_token_prefix (token : pystr) : option pystr :=
rest ← strip_prefix (lit "rdc_worker_") token;
let prefix := take 8 rest in
match drop 8 rest with
| 95%N :: body =>
    if (length prefix =? 8)%nat && forallb is_prefix_char prefix && negb (bool_decide (body = []))
       && forallb (λ c, negb (c =? 10)%N) body
    then Some prefix else None
| _ => None
end.

Definition worker_usable (now : time) (w : WorkerIdentity) : bool :=
bool_decide (wk_status w ∈ [WorkerStatus.ACTIVE; WorkerStatus.DRAINING])
&& bool_decide (wk_revoked_at w = None)
&& match wk_expires_at w with Some t => now <? t | None => true end.

Definition resolve_worker_context (now : time) (authorization : option pystr)
  : M (uuid * WorkerIdentity) :=
header ← get_or_raise authorization (ApiError 401 "INTERNAL_AUTH_REQUIRED");
let '(scheme, token) := partition_space header in
raise_if (negb (bool_decide (casefold scheme = lit "bearer"))) credential_invalid ;;
prefix ← get_or_raise (worker_token_prefix token) credential_invalid;
rows ← gets (λ s, select (λ _ w, bool_decide (wk_public_prefix w = prefix)) (workers s));
'(wid, w) ← get_or_raise (head rows) credential_invalid;
raise_if (negb (worker_usable now w)) credential_invalid ;;
supplied ← secret_digest token worker_token_pepper;
raise_if (negb (bool_decide (wk_token_digest w = supplied))) credential_invalid ;;
let w := w <| wk_last_seen_at := Some now |> in
update_worker wid w ;;
mret (wid, w).

(** The lease is held: active, unexpired, before its deadline. *)
Definition live (now : time) (l : ExecutionLease) : bool :=
bool_decide (l_status l = LeaseStatus.ACTIVE) && (now <? l_expires_at l) && (now <? l_deadline_at l).

Definition require_lease_access (now : time) (lease_id : uuid) (lease_token : option pystr)
  (worker_id : uuid) : M ExecutionLease :=
token ← get_or_raise lease_token lease_invalid;
raise_if (bool_decide (token = [])) lease_invalid ;;
row ← gets (λ s, leases s !! lease_id);
supplied ← secret_digest token lease_token_pepper;
l ← get_or_raise row lease_invalid;
raise_if (negb (bool_decide (l_worker_id l = worker_id))) lease_invalid ;;
raise_if (negb (live now l && bool_decide (l_token_digest l = supplied))) lease_invalid ;;
run ← find_run (l_run_id l);
raise_if (bool_decide (l_work_kind l = RUN_START)
          && match run with
             | Some (_, r) => bool_decide (rn_cancel_requested_at r ≠ None)
             | None => false
             end) lease_invalid ;;
mret l.

(** ** Claiming work *)

Definition project_slot (k : work_kind) : bool := bool_decide (k ∈ [BUILD; RUN_START]).

(** The live leases of a project that take one of its slots, and those of a worker. *)
Definition holds_slot (now : time) (project_id : uuid) (l : ExecutionLease) : bool :=
bool_decide (l_project_id l = project_id) && project_slot (l_work_kind l) && live now l.
Definition active_project_leases (now : time) (project_id : uuid) (s : db) : Z :=
countZ (holds_slot now project_id) (leases s).
Definition active_worker_lease_count (now : time) (worker_id : uuid) (s : db) : Z :=
countZ (λ l, bool_decide (l_worker_id l = worker_id) && live now l) (leases s).

Definition project_enabled (p : Project) : bool :=
bool_decide (pr_status p = "ACTIVE"%string) && bool_decide (pr_deleted_at p = None).

(** [active_project_leases < project_limit]; the comparison with NULL is not true. *)
Definition below_project_limit (now : time) (project_id : uuid) (s : db) : bool :=
match projects s !! project_id with
| Some p => project_enabled p && (active_project_leases now project_id s <? pr_max_active_leases p)
| None => false
end.

Definition claimable (k : work_kind) (now : time) (locked : gset uuid) (s : db) (id : uuid) (o : Outbox)
  : bool :=
bool_decide (ob_status o = SourceStatus.PENDING) && (ob_available_at o <=? now)
&& match k with
   | BUILD => below_project_limit now (ob_project_id o) s
   | RUN_START => bool_decide (ob_command o = Some START) && below_project_limit now (ob_project_id o) s
   | RUN_CANCEL => bool_decide (ob_command o = Some CANCEL)
   end
&& bool_decide (id ∉ locked).
Definition source_key (x : uuid * Outbox) : Z * N := (ob_available_at x.2, x.1).

Definition select_source (k : work_kind) (now : time) (locked : gset uuid) : M (option (uuid * Outbox)) :=
gets (λ s, head (order_by (by_key source_key) (select (claimable k now locked s) (sources k s)))).

(** [isinstance(raw, int) and not isinstance(raw, bool) and raw >= 1]. *)
Definition execution_timeout_seconds (k : work_kind) (payload : list (pykey * pyval)) : exn + Z :=
let '(raw_timeout, ceiling) :=
  match k with
  | BUILD => (default (PInt sandbox_max_build_seconds) (dict_find (lit "timeout_seconds") payload),
              sandbox_max_build_seconds)
  | RUN_START => (match dict_get "runtime" payload with
                  | PDict runtime => dict_get "timeout_seconds" runtime
                  | _ => PNone
                  end, sandbox_max_run_seconds)
  | RUN_CANCEL => (PInt worker_lease_max_seconds, worker_lease_max_seconds)
  end in
match raw_timeout with
| PInt n => if n <? 1 then inl (ApiError 409 "WORK_ITEM_DEADLINE_INVALID") else inr (Z.min n ceiling)
| _ => inl (ApiError 409 "WORK_ITEM_DEADLINE_INVALID")
end.

(** A naive timestamp is not parsed by [fromisoformat] of PyTime: both are refused. *)
Definition cancellation_deadline_from_source (payload : list (pykey * pyval)) : exn + time :=
match dict_get "cancel_deadline_at" payload with
| PStr raw => match fromisoformat raw with
              | Some t => inr t
              | None => inl (ApiError 409 "WORK_ITEM_DEADLINE_INVALID")
              end
| _ => inl (ApiError 409 "WORK_ITEM_DEADLINE_INVALID")
end.

Definition lock_project_admission (project_id : uuid) (k : work_kind) (now : time) : M (Project * Z) :=
row ← gets (λ s, projects s !! project_id);
p ← get_or_raise row (ApiError 409 "PROJECT_EXECUTION_DISABLED");
raise_if (negb (project_enabled p)) (ApiError 409 "PROJECT_EXECUTION_DISABLED") ;;
active ← gets (active_project_leases now project_id);
raise_if (project_slot k && (pr_max_active_leases p <=? active)) (ApiError 409 "PROJECT_CONCURRENCY_LIMIT") ;;
mret (p, active).

(** The checks of a receipt against the bound policy and its revision. *)
Definition receipt_uuid (key : string) (receipt : pyval) : option uuid :=
match receipt with
| PDict d => v ← dict_find (lit key) d; uuid_of_str (py_str v)
| _ => None
end.

(** [receipt.get("revision_number") == n] for an integer column. *)
Definition equals_int (v : pyval) (n : Z) : bool :=
match v with
| PInt z => z =? n
| PBool b => (if b then 1 else 0) =? n
| _ => false
end.
(** [receipt.get("credential_configured") == b]. *)
Definition equals_bool (v : pyval) (b : bool) : bool :=
match v with
| PBool c => Bool.eqb c b
| PInt z => z =? (if b then 1 else 0)
| _ => false
end.

Definition egress_binding_current (s : db) (r : Run) (policy_id revision_id : uuid)
  (receipt : list (pykey * pyval)) : bool :=
match policies s !! policy_id, revisions s !! revision_id with
| Some p, Some v =>
    bool_decide (ep_organization_id p = rn_organization_id r)
    && bool_decide (ep_project_id p = rn_project_id r)
    && bool_decide (er_policy_id v = policy_id)
    && bool_decide (er_organization_id v = rn_organization_id r)
    && bool_decide (er_project_id v = rn_project_id r)
    && bool_decide (ep_status p = "ACTIVE"%string)
    && bool_decide (ep_active_revision_id p = Some revision_id)
    && equals_int (dict_get "revision_number" receipt) (er_revision_number v)
    && bool_decide (dict_get "policy_digest" receipt = PStr (er_policy_digest v))
    && equals_bool (dict_get "credential_configured" receipt)
         (bool_decide (er_credential_secret_id v ≠ None))
| _, _ => false
end.

Definition binding_revoked : string := "EGRESS_POLICY_BINDING_REVOKED".

(** The refusal of [_bound_run_egress_policy_is_current]. *)
Definition refuse_binding (sid : uuid) (o : Outbox) (rid : uuid) (r : Run) (now : time) (request_id : string)
  (details : list (string * detail)) : M () :=
update_source RUN_START sid
  (o <| ob_status := SourceStatus.FAILED |> <| ob_attempts ::= Z.succ |> <| ob_claimed_at := Some now |>
     <| ob_last_error_code := Some binding_revoked |> <| ob_updated_at := now |>) ;;
let previous := rn_status r in
let r := r <| rn_status := RunStatus.FAILED |> <| rn_failure_code := Some binding_revoked |>
           <| rn_failure_summary :=
                Some (lit "The bound egress policy is no longer active at execution admission.") |>
           <| rn_finished_at := Some now |> <| rn_updated_at := now |> <| rn_version ::= Z.succ |> in
update_run rid r ;;
log_status rid r previous ;;
log_event rid r "run.failed"
  [(KStr (lit "failure_code"), PStr (lit binding_revoked)); (KStr (lit "retryable"), PBool false)] ;;
system_audit (Some (rn_organization_id r)) (Some (rn_project_id r)) "system" (lit "execution-admission")
  "run.egress_policy_binding_revoked" "run" (Some rid) request_id details.

Definition bound_run_egress_policy_is_current (sid : uuid) (o : Outbox) (now : time) (request_id : string)
  : M bool :=
row ← gets (λ s, runs s !! ob_target_id o);
match row with
| None => mret true
| Some r =>
    let receipt := dict_get "project_egress_policy_receipt" (rn_input_reference r) in
    let stored := dict_get "project_egress_policy" (rn_input_reference r) in
    if bool_decide (receipt = PNone) && bool_decide (stored = PNone) then mret true
    else
      let ids := if bound_egress_policy (rn_input_reference r)
                 then (p ← receipt_uuid "policy_id" receipt; v ← receipt_uuid "revision_id" receipt; Some (p, v))
                 else None in
      let '(policy_id, revision_id) := default (0%N, 0%N) ids in
      s ← gets id;
      if bool_decide (is_Some ids)
         && egress_binding_current s r policy_id revision_id (match receipt with PDict d => d | _ => [] end)
      then mret true
      else
        let policy := p ← policies s !! policy_id;
                      if bool_decide (ep_organization_id p = rn_organization_id r)
                         && bool_decide (ep_project_id p = rn_project_id r) then Some p else None in
        refuse_binding sid o (ob_target_id o) r now request_id
          [("policy_id"%string, if (policy_id =? 0)%N then DNone else DUuid policy_id);
           ("revision_id"%string, if (revision_id =? 0)%N then DNone else DUuid revision_id);
           ("binding_integrity_valid"%string, DBool (bool_decide (is_Some ids)));
           ("policy_active"%string, DBool match policy with
              Some p => bool_decide (ep_status p = "ACTIVE"%string) | None => false end);
           ("same_revision_selected"%string, DBool match policy with
              Some p => bool_decide (ep_active_revision_id p = Some revision_id) | None => false end)] ;;
        mret false
end.

Definition text_value (u : uuid) : pyval := PStr (str_of_uuid u).
Definition time_value (t : option time) : pyval :=
match t with Some t => PStr (isoformat t) | None => PNone end.

(** [_build_claim_payload]: the build and the payload of its claim. *)
Definition build_claim_payload (build_id : uuid) : M (list (pykey * pyval) * Build) :=
row ← gets (λ s, builds s !! build_id);
b ← get_or_raise row state_conflict;
raise_if (negb (bool_decide (b_status b = BuildStatus.QUEUED))) state_conflict ;;
vrow ← gets (λ s, versions s !! b_agent_version_id b);
v ← get_or_raise vrow state_conflict;
oid ← get_or_raise (b_source_object_id b) (ApiError 409 "SOURCE_OBJECT_UNAVAILABLE");
orow ← gets (λ s, objects s !! oid);
so ← get_or_raise orow (ApiError 409 "SOURCE_OBJECT_UNAVAILABLE");
raise_if (negb (bool_decide (so_organization_id so = b_organization_id b)
                && bool_decide (so_project_id so = b_project_id b)
                && bool_decide (so_status so = "AVAILABLE"%string)
                && bool_decide (so_scan_status so = "PASSED"%string)
                && bool_decide (so_deleted_at so = None))) (ApiError 409 "SOURCE_OBJECT_UNAVAILABLE") ;;
mret ([(KStr (lit "schema_version"), PStr (lit "1")); (KStr (lit "work_kind"), PStr (lit "BUILD"));
       (KStr (lit "build_id"), text_value build_id);
       (KStr (lit "organization_id"), text_value (b_organization_id b));
       (KStr (lit "project_id"), text_value (b_project_id b));
       (KStr (lit "agent_id"), text_value (b_agent_id b));
       (KStr (lit "agent_version_id"), text_value (b_agent_version_id b));
       (KStr (lit "manifest_digest"), PStr (b_manifest_digest b));
       (KStr (lit "manifest"), PDict (av_manifest v));
       (KStr (lit "source"), PDict
          [(KStr (lit "kind"), PStr (lit "object_storage")); (KStr (lit "object_id"), text_value oid);
           (KStr (lit "sha256_digest"), PStr (so_sha256_digest so));
           (KStr (lit "size_bytes"), PInt (so_size_bytes so));
           (KStr (lit "media_type"), PStr (so_media_type so));
           (KStr (lit "download_grant_path"), PStr (lit "/internal/v1/leases/{lease_id}/source-download"));
           (KStr (lit "available"), PBool true)]);
       (KStr (lit "execution_enabled"), PBool false)], b).

Definition run_image (build_id : uuid) (_ : uuid) (a : ExecutionArtifact) : bool :=
bool_decide (ar_build_id a = Some build_id) && bool_decide (ar_kind a = "CONTAINER_IMAGE"%string)
&& bool_decide (ar_status a = "AVAILABLE"%string) && bool_decide (ar_scan_status a = "PASSED"%string).

Definition artifact_value (a : option (uuid * ExecutionArtifact)) : pyval :=
match a with
| None => PNone
| Some (id, a) => PDict
    [(KStr (lit "id"), text_value id);
     (KStr (lit "digest"), PStr (lit (ar_digest_algorithm a) ++ lit ":" ++ ar_digest a));
     (KStr (lit "object_key"), PStr (ar_object_key a)); (KStr (lit "media_type"), PStr (ar_media_type a));
     (KStr (lit "size_bytes"), PInt (ar_size_bytes a)); (KStr (lit "provenance"), PDict (ar_provenance a));
     (KStr (lit "download_grant_path"), PStr (lit "/internal/v1/leases/{lease_id}/artifact-download"))]
end.

(** [_run_claim_payload]. *)
Definition run_claim_payload (run_id : uuid) (k : work_kind) : M (list (pykey * pyval) * Run) :=
row ← gets (λ s, runs s !! run_id);
r ← get_or_raise row state_conflict;
vrow ← gets (λ s, versions s !! rn_agent_version_id r);
v ← get_or_raise vrow state_conflict;
artifact ← gets (λ s, head (select (run_image (rn_build_id r)) (artifacts s)));
mret ([(KStr (lit "schema_version"), PStr (lit "1")); (KStr (lit "work_kind"), PStr (lit (kind_text k)));
       (KStr (lit "run_id"), text_value run_id);
       (KStr (lit "organization_id"), text_value (rn_organization_id r));
       (KStr (lit "project_id"), text_value (rn_project_id r));
       (KStr (lit "agent_id"), text_value (rn_agent_id r));
       (KStr (lit "agent_version_id"), text_value (rn_agent_version_id r));
       (KStr (lit "build_id"), text_value (rn_build_id r));
       (KStr (lit "manifest"), PDict (av_manifest v));
       (KStr (lit "input_reference"), PDict (rn_input_reference r));
       (KStr (lit "runtime"), PDict (rn_runtime_configuration r));
       (KStr (lit "cancel_requested_at"), time_value (rn_cancel_requested_at r));
       (KStr (lit "cancel_deadline_at"), time_value (rn_cancel_deadline_at r));
       (KStr (lit "artifact"), artifact_value artifact);
       (KStr (lit "execution_enabled"), PBool false)], r).

(** The constraints of the lease table a new row is checked against. *)
Definition lease_target_exists (l : ExecutionLease) (s : db) : bool :=
match l_work_kind l, l_build_id l, l_run_id l with
| BUILD, Some b, None => match builds s !! b with
    | Some b => bool_decide (b_organization_id b = l_organization_id l)
                && bool_decide (b_project_id b = l_project_id l)
    | None => false end
| RUN_START, None, Some r | RUN_CANCEL, None, Some r => match runs s !! r with
    | Some r => bool_decide (rn_organization_id r = l_organization_id l)
                && bool_decide (rn_project_id r = l_project_id l)
    | None => false end
| _, _, _ => false
end.
Definition same_source (l : ExecutionLease) (_ : uuid) (l' : ExecutionLease) : bool :=
bool_decide (l_work_kind l' = l_work_kind l) && bool_decide (l_source_outbox_id l' = l_source_outbox_id l).

Definition insert_lease (l : ExecutionLease) : M uuid :=
id ← fresh_uuid;
s ← gets (λ s, s);
raise_if (bool_decide (is_Some (leases s !! id))) (IntegrityError "execution_leases_pkey") ;;
raise_if (negb (lease_target_exists l s)) (IntegrityError "execution_leases_tenancy_guard") ;;
raise_if (negb ((1 <=? l_attempt l) && (l_attempt l <=? 20))) (IntegrityError "ck_execution_leases_attempt") ;;
raise_if (negb (l_claimed_at l <? l_expires_at l)) (IntegrityError "ck_execution_leases_expiry") ;;
raise_if (negb ((l_claimed_at l <? l_deadline_at l) && (l_expires_at l <=? l_deadline_at l)))
  (IntegrityError "ck_execution_leases_deadline") ;;
raise_if (exists_row (λ _ l', bool_decide (l_token_digest l' = l_token_digest l)) (leases s))
  (IntegrityError "uq_execution_leases_token_digest") ;;
raise_if (exists_row (λ i l', same_source l i l' && (l_attempt l' =? l_attempt l)) (leases s))
  (IntegrityError "uq_execution_leases_source_attempt") ;;
raise_if (exists_row (λ i l', same_source l i l' && bool_decide (l_status l' = LeaseStatus.ACTIVE)) (leases s))
  (IntegrityError "uq_execution_leases_active_source") ;;
update_lease id l ;;
mret id.

(** Starting the target of a claim. *)
Definition start_build (bid : uuid) (b : Build) (now : time) : M () :=
update_build bid (b <| b_status := BuildStatus.STARTING |>
  <| b_started_at := Some (default now (b_started_at b)) |> <| b_updated_at := now |> <| b_version ::= Z.succ |>).
Definition start_run (rid : uuid) (r : Run) (now : time) : M () :=
let previous := rn_status r in
raise_if (negb (bool_decide (previous = RunStatus.QUEUED))) state_conflict ;;
let r := r <| rn_status := RunStatus.STARTING |> <| rn_started_at := Some (default now (rn_started_at r)) |>
           <| rn_updated_at := now |> <| rn_version ::= Z.succ |> in
update_run rid r ;;
log_status rid r previous.

(** The target of a claim is started, and the payload describes it. *)
Definition start_target (k : work_kind) (target : uuid) (now : time) : M (list (pykey * pyval)) :=
match k with
| BUILD =>
    '(payload, b) ← build_claim_payload target;
    start_build target b now ;; mret payload
| RUN_START =>
    '(payload, r) ← run_claim_payload target k;
    start_run target r now ;; mret payload
| RUN_CANCEL =>
    '(payload, r) ← run_claim_payload target k;
    raise_if (negb (bool_decide (rn_status r = RunStatus.ABORTING))) state_conflict ;; mret payload
end.

Definition opt_value (v : option pyval) : pyval := default PNone v.
Definition put (key : string) (v : pyval) (d : list (pykey * pyval)) := dict_set (KStr (lit key)) v d.

(** What the worker is told about its admission. *)
Definition admission_value (k : work_kind) (active_worker : Z) (w : WorkerIdentity) (active_project : Z)
  (p : Project) : pyval :=
PDict [(KStr (lit "worker_active_before_claim"), PInt active_worker);
       (KStr (lit "worker_max_concurrency"), PInt (wk_max_concurrency w));
       (KStr (lit "project_active_before_claim"), PInt active_project);
       (KStr (lit "project_max_active_leases"), PInt (pr_max_active_leases p));
       (KStr (lit "project_slot_consumed"), PBool (project_slot k))].

(** The claim payload with its sandbox policy, admission and capability receipts. *)
Definition seal_payload (k : work_kind) (w : WorkerIdentity) (payload : list (pykey * pyval))
  (deadline_at : time) (admission : pyval) : M (list (pykey * pyval) * option Activation * bool) :=
policy ← lift (sandbox_claim_policy w payload);
activation ← lift (canary_activation w payload policy);
let execution_enabled := bool_decide (is_Some policy) && bool_decide (is_Some activation) in
let payload := put "execution_enabled" (PBool execution_enabled) payload in
let payload := put "sandbox" (if execution_enabled then opt_value policy else PNone) payload in
let payload := put "activation" (opt_value (ac_dump <$> activation)) payload in
let payload := put "deadline_at" (PStr (isoformat deadline_at)) payload in
let payload := put "admission" admission payload in
dataset ← lift (dataset_append_capability w payload activation);
let payload := put "dataset_append_capability" dataset payload in
store ← lift (key_value_store_capability w payload activation);
let payload := put "key_value_store_capability" store payload in
queue ← lift (request_queue_capability w payload activation);
let payload := put "request_queue_capability" queue payload in
mret (payload, activation, execution_enabled).

(** What a worker receives: the lease, its raw token and its payload. *)
Record LeaseClaim := MkClaim {
  lc_id : uuid; lc_lease : ExecutionLease; lc_lease_token : pystr; lc_payload : list (pykey * pyval) }.

Definition claim_deadline (k : work_kind) (now : time) (o : Outbox) : exn + time :=
match execution_timeout_seconds k (ob_payload o) with
| inl e => inl e
| inr timeout =>
    match execution_deadline_at now timeout with
    | inl e => inl e
    | inr deadline =>
        if bool_decide (k = RUN_CANCEL) then
          match cancellation_deadline_from_source (ob_payload o) with
          | inl e => inl e
          | inr t => inr (Z.min deadline t)
          end
        else inr deadline
    end
end.

Definition claimed_source (now : time) (o : Outbox) : Outbox :=
o <| ob_status := SourceStatus.CLAIMED |> <| ob_attempts ::= Z.succ |>
  <| ob_claimed_at := Some now |> <| ob_updated_at := now |>.

(** The lease row of a claim, its payload still empty. *)
Definition new_lease (wid : uuid) (k : work_kind) (sid : uuid) (o : Outbox) (digest : list N)
  (payload_digest : pystr) (now expires_at deadline_at : time) : ExecutionLease :=
MkLease wid (ob_organization_id o) (ob_project_id o) k sid (ob_topic o)
  (if bool_decide (k = BUILD) then Some (ob_target_id o) else None)
  (if bool_decide (k = BUILD) then None else Some (ob_target_id o))
  digest payload_digest [] LeaseStatus.ACTIVE (ob_attempts o) now expires_at deadline_at
  None None None None now.

(** The body of the loop of [claim_work] once a source was selected and admitted. *)
Definition claim_source (wid : uuid) (w : WorkerIdentity) (k : work_kind) (sid : uuid) (o : Outbox)
  (active_worker : Z) (p : Project) (active_project : Z) (now : time) (request_id : string)
  : M LeaseClaim :=
let o := claimed_source now o in
update_source k sid o ;;
secret ← fresh_token;
let raw_token := lit "rdc_lease_" ++ secret in
digest ← secret_digest raw_token lease_token_pepper;
deadline_at ← lift (claim_deadline k now o);
raise_if (deadline_at <=? now) (ApiError 409 "WORK_ITEM_DEADLINE_EXPIRED") ;;
expires_at ← lift (clamp_lease_expiry (now + seconds worker_lease_seconds) now worker_lease_max_seconds
                     deadline_at);
empty_digest ← get_or_raise (canonical_fingerprint (PDict [])) UnicodeEncodeError;
lid ← insert_lease (new_lease wid k sid o digest empty_digest now expires_at deadline_at);
payload ← start_target k (ob_target_id o) now;
'(payload, activation, execution_enabled) ←
  seal_payload k w payload deadline_at (admission_value k active_worker w active_project p);
payload_digest ← get_or_raise (canonical_fingerprint (PDict payload)) UnicodeEncodeError;
let l := new_lease wid k sid o digest payload_digest now expires_at deadline_at
           <| l_payload_snapshot := payload |> in
update_lease lid l ;;
system_audit (Some (ob_organization_id o)) (Some (ob_project_id o)) "worker" (str_of_uuid wid)
  "execution.lease.claimed" "execution_lease" (Some lid) request_id
  [("work_kind"%string, DStr (kind_text k)); ("attempt"%string, DInt (l_attempt l));
   ("source_topic"%string, DStr (l_source_topic l)); ("deadline_at"%string, DTime deadline_at);
   ("worker_active_before_claim"%string, DInt active_worker);
   ("worker_max_concurrency"%string, DInt (wk_max_concurrency w));
   ("project_active_before_claim"%string, DInt active_project);
   ("project_max_active_leases"%string, DInt (pr_max_active_leases p));
   ("project_slot_consumed"%string, DBool (project_slot k));
   ("execution_enabled"%string, DBool execution_enabled);
   ("sandbox_attestation_digest"%string, match wk_sandbox_attestation_digest w with
      Some d => DText d | None => DNone end);
   ("activation_mode"%string, DStr match activation with Some a => ac_mode a | None => "disabled" end);
   ("activation_agent_version_id"%string, opt_detail_uuid (ac_agent_version_id <$> activation))] ;;
mret (MkClaim lid l raw_token payload).

Fixpoint claim_kinds (locked : gset uuid) (wid : uuid) (w : WorkerIdentity) (active_worker : Z)
  (now : time) (request_id : string) (kinds : list work_kind) : M (option LeaseClaim) :=
match kinds with
| [] => mret None
| k :: kinds =>
    row ← select_source k now locked;
    match row with
    | None => claim_kinds locked wid w active_worker now request_id kinds
    | Some (sid, o) =>
        current ← (if bool_decide (k = RUN_START)
                   then bound_run_egress_policy_is_current sid o now request_id else mret true);
        if negb current then mret None else
        '(p, active_project) ← lock_project_admission (ob_project_id o) k now;
        claim ← claim_source wid w k sid o active_worker p active_project now request_id;
        mret (Some claim)
    end
end.

Definition recovery_pending (w : WorkerIdentity) : bool :=
match wk_last_lost_at w with
| None => false
| Some lost => match wk_last_recovered_at w with None => true | Some t => t <? lost end
end.

(** [claim_work]; the body was validated to name one to three distinct kinds. *)
Definition claim_work (locked : gset uuid) (wid : uuid) (kinds : list work_kind) (now : time)
  (request_id : string) : M (option LeaseClaim) :=
reap_expired_leases locked now request_id 100 true ;;
row ← gets (λ s, workers s !! wid);
w ← get_or_raise row credential_invalid;
raise_if (recovery_pending w) (ApiError 409 "WORKER_RECOVERY_REQUIRED") ;;
raise_if (negb (bool_decide (wk_status w = WorkerStatus.ACTIVE))) (ApiError 409 "WORKER_DRAINING") ;;
raise_if (existsb (λ k, negb (bool_decide (kind_text k ∈ wk_capabilities w))) kinds)
  (ApiError 403 "WORKER_CAPABILITY_DENIED") ;;
active_worker ← gets (active_worker_lease_count now wid);
raise_if (wk_max_concurrency w <=? active_worker) (ApiError 409 "WORKER_CONCURRENCY_LIMIT") ;;
claim_kinds locked wid w active_worker now request_id kinds.

(** ** Operations under a lease *)

Definition renew_lease (lid : uuid) (l : ExecutionLease) (wid : uuid) (extend_seconds : Z) (now : time)
  (request_id : string) : M ExecutionLease :=
let requested := Z.max now (l_expires_at l) + seconds extend_seconds in
extended_until ← lift (clamp_lease_expiry requested (l_claimed_at l) worker_lease_max_seconds
                         (l_deadline_at l));
raise_if (extended_until <=? now)
  (ApiError 409 (if l_deadline_at l <=? now then "WORKLOAD_DEADLINE_EXCEEDED" else "LEASE_MAXIMUM_REACHED")) ;;
let l := l <| l_expires_at := extended_until |> <| l_last_renewed_at := Some now |> <| l_updated_at := now |> in
update_lease lid l ;;
system_audit (Some (l_organization_id l)) (Some (l_project_id l)) "worker" (str_of_uuid wid)
  "execution.lease.renewed" "execution_lease" (Some lid) request_id
  [("expires_at"%string, DTime (l_expires_at l)); ("deadline_at"%string, DTime (l_deadline_at l))] ;;
mret l.

Inductive reported_status := R_STARTING | R_RUNNING | R_ABORTING.
#[local] Instance reported_status_eq_dec : EqDecision reported_status.
Proof. solve_decision. Defined.
Definition reported_build (x : reported_status) : option BuildStatus.t :=
match x with
| R_STARTING => Some BuildStatus.STARTING | R_RUNNING => Some BuildStatus.RUNNING | R_ABORTING => None
end.
Definition reported_run (k : work_kind) (x : reported_status) : option RunStatus.t :=
match k, x with
| RUN_START, R_STARTING => Some RunStatus.STARTING
| RUN_START, R_RUNNING => Some RunStatus.RUNNING
| RUN_CANCEL, R_ABORTING => Some RunStatus.ABORTING
| _, _ => None
end.
Definition reported_text (x : reported_status) : string :=
match x with R_STARTING => "STARTING" | R_RUNNING => "RUNNING" | R_ABORTING => "ABORTING" end.

Definition update_lease_status (lid : uuid) (l : ExecutionLease) (wid : uuid) (status : reported_status)
  (message : option pystr) (now : time) (request_id : string) : M ExecutionLease :=
(if bool_decide (l_work_kind l = BUILD) then
   st ← get_or_raise (reported_build status) state_conflict;
   row ← find_build (l_build_id l);
   b ← get_or_raise row not_found;
   bid ← get_or_raise (l_build_id l) not_found;
   update_build bid (b <| b_status := st |> <| b_started_at := Some (default now (b_started_at b)) |>
     <| b_updated_at := now |> <| b_version ::= Z.succ |>)
 else
   row ← find_run (l_run_id l);
   '(rid, r) ← get_or_raise row not_found;
   raise_if (bool_decide (l_work_kind l = RUN_START) && bool_decide (rn_cancel_requested_at r ≠ None))
     (ApiError 409 "RUN_CANCELLATION_PENDING") ;;
   st ← get_or_raise (reported_run (l_work_kind l) status) state_conflict;
   let previous := rn_status r in
   let r := r <| rn_status := st |> <| rn_started_at := Some (default now (rn_started_at r)) |>
              <| rn_updated_at := now |> <| rn_version ::= Z.succ |> in
   update_run rid r ;;
   if bool_decide (previous = rn_status r) then mret ()
   else log_event rid r "run.status"
          [(KStr (lit "previous_status"), status_value previous);
           (KStr (lit "status"), status_value (rn_status r));
           (KStr (lit "message"), match message with Some m => PStr m | None => PNone end)]) ;;
let l := l <| l_last_renewed_at := Some now |> in
update_lease lid l ;;
system_audit (Some (l_organization_id l)) (Some (l_project_id l)) "worker" (str_of_uuid wid)
  "execution.work.status_updated" "execution_lease" (Some lid) request_id
  [("status"%string, DStr (reported_text status))] ;;
mret l.

(** [append_worker_events]; each payload is sanitised twice, as in the code.  The body
  was validated to name [run.log], [run.metric] and [run.warning] only. *)
Definition append_worker_events (l : ExecutionLease) (wid : uuid) (w : WorkerIdentity)
  (events : list (string * list (pykey * pyval))) (request_id : string) : M Z :=
raise_if (negb (bool_decide (l_work_kind l = RUN_START)) || bool_decide (l_run_id l = None)) state_conflict ;;
raise_if (negb (bool_decide ("EVENT_INGEST"%string ∈ wk_capabilities w)))
  (ApiError 403 "WORKER_CAPABILITY_DENIED") ;;
row ← find_run (l_run_id l);
'(rid, r) ← get_or_raise row not_found;
for_each (λ e, clean ← lift (sanitize_event_payload e.2);
               log_event rid r e.1 (match clean with PDict d => d | _ => [] end)) events ;;
system_audit (Some (l_organization_id l)) (Some (l_project_id l)) "worker" (str_of_uuid wid)
  "execution.run_events.appended" "run" (Some rid) request_id
  [("count"%string, DInt (Z.of_nat (length events)));
   ("event_types"%string, DStrs (base.filter (λ t, t ∈ events.*1) ["run.log"; "run.metric"; "run.warning"]%string))] ;;
mret (Z.of_nat (length events)).

(** [_register_artifact]. *)
Definition register_artifact (lid : uuid) (l : ExecutionLease) (w : WorkerIdentity)
  (p : ArtifactRegistration) : M (uuid * ExecutionArtifact) :=
lift (verify_artifact lid l w p) ;;
rows ← gets (λ s, select (λ _ a, bool_decide (ar_organization_id a = l_organization_id l)
                   && bool_decide (ar_digest_algorithm a = rg_digest_algorithm p)
                   && bool_decide (ar_digest a = rg_digest p)
                   && bool_decide (ar_kind a = rg_kind p)) (artifacts s));
match head rows with
| Some (id, a) =>
    raise_if (negb (bool_decide (ar_object_key a = rg_object_key p))
              || negb (ar_size_bytes a =? rg_size_bytes p)
              || negb (bool_decide (ar_media_type a = rg_media_type p))
              || (match dict_get "activation" (l_payload_snapshot l) with PDict _ => true | _ => false end
                  && negb (bool_decide (canon (PDict (ar_provenance a)) = canon (PDict (rg_provenance p))))))
      (ApiError 409 "ARTIFACT_DIGEST_CONFLICT") ;;
    mret (id, a)
| None =>
    id ← fresh_uuid;
    taken ← gets (λ s, artifacts s !! id);
    raise_if (bool_decide (is_Some taken)) (ApiError 409 "ARTIFACT_DIGEST_CONFLICT") ;;
    let a := MkArtifact (l_organization_id l) (l_build_id l) (rg_kind p) (rg_digest_algorithm p)
               (rg_digest p) (rg_object_key p) (rg_media_type p) (rg_size_bytes p) (rg_status p)
               (rg_scan_status p) (rg_provenance p) in
    modify (λ s, s <| artifacts ::= <[id := a]> |>) ;;
    mret (id, a)
end.

Fixpoint register_artifacts (lid : uuid) (l : ExecutionLease) (w : WorkerIdentity)
  (ps : list ArtifactRegistration) : M (list (uuid * ExecutionArtifact)) :=
match ps with
| [] => mret []
| p :: ps =>
    a ← register_artifact lid l w p;
    rest ← register_artifacts lid l w ps;
    mret (a :: rest)
end.

(** The validated body of a completion; [cq_artifacts] is [artifact] or [artifacts]. *)
Record CompleteLeaseRequest := MkComplete {
  cq_outcome : outcome; cq_retryable : bool; cq_error_code : option string;
  cq_error_summary : option pystr; cq_artifacts : list ArtifactRegistration }.

Definition outcome_text (o : outcome) : string :=
match o with
| SUCCEEDED => "SUCCEEDED" | FAILED => "FAILED" | TIMED_OUT => "TIMED_OUT"
| ABORTED => "ABORTED" | CANCELLED => "CANCELLED"
end.

(** [payload.error_code or default]; the pattern of the code excludes "". *)
Definition error_or (q : CompleteLeaseRequest) (d : string) : option string :=
Some (default d (cq_error_code q)).

Definition reset_retry_target (l : ExecutionLease) (now : time) : M () :=
if bool_decide (l_work_kind l = BUILD) then
  row ← find_build (l_build_id l);
  match l_build_id l, row with
  | Some bid, Some b =>
      update_build bid (b <| b_status := BuildStatus.QUEUED |> <| b_error_code := None |>
        <| b_error_message := None |> <| b_completed_at := None |> <| b_updated_at := now |>
        <| b_version ::= Z.succ |>)
  | _, _ => mret ()
  end
else
  row ← find_run (l_run_id l);
  match row with
  | None => mret ()
  | Some (rid, r) =>
      if bool_decide (l_work_kind l = RUN_START) then
        let previous := rn_status r in
        let r := r <| rn_status := RunStatus.QUEUED |> <| rn_failure_code := None |>
                   <| rn_failure_summary := None |> <| rn_finished_at := None |> <| rn_updated_at := now |>
                   <| rn_version ::= Z.succ |> in
        update_run rid r ;; log_status rid r previous
      else mret ()
  end.

(** The outcome of a build. *)
Definition finished_build (q : CompleteLeaseRequest) (image : option (uuid * ExecutionArtifact)) (now : time)
  (b : Build) : exn + Build :=
match (match cq_outcome q with
       | SUCCEEDED =>
           match image with
           | Some (_, a) =>
               if bool_decide (ar_status a = "AVAILABLE"%string) && bool_decide (ar_scan_status a = "PASSED"%string)
               then inr (b <| b_status := BuildStatus.SUCCEEDED |>
                           <| b_artifact_digest := Some (lit (ar_digest_algorithm a) ++ lit ":" ++ ar_digest a) |>
                           <| b_error_code := None |> <| b_error_message := None |>)
               else inl (ApiError 422 "ARTIFACT_REQUIRED")
           | None => inl (ApiError 422 "ARTIFACT_REQUIRED")
           end
       | TIMED_OUT => inr (b <| b_status := BuildStatus.TIMED_OUT |>
                             <| b_error_code := error_or q "BUILD_TIMED_OUT" |>
                             <| b_error_message := cq_error_summary q |>)
       | ABORTED | CANCELLED => inr (b <| b_status := BuildStatus.CANCELLED |>
                                       <| b_error_code := cq_error_code q |>
                                       <| b_error_message := cq_error_summary q |>)
       | FAILED => inr (b <| b_status := BuildStatus.FAILED |> <| b_error_code := error_or q "BUILD_FAILED" |>
                          <| b_error_message := cq_error_summary q |>)
       end) with
| inl e => inl e
| inr b => inr (b <| b_completed_at := Some now |> <| b_updated_at := now |> <| b_version ::= Z.succ |>)
end.

(** The outcome of a run, or of its cancellation. *)
Definition finished_run (k : work_kind) (q : CompleteLeaseRequest) (now : time) (r : Run) : Run :=
let r :=
  match k, cq_outcome q with
  | RUN_CANCEL, (ABORTED | SUCCEEDED) =>
      r <| rn_status := RunStatus.ABORTED |> <| rn_failure_code := None |> <| rn_failure_summary := None |>
  | RUN_CANCEL, _ =>
      r <| rn_status := RunStatus.FAILED |> <| rn_failure_code := error_or q "CANCEL_FAILED" |>
        <| rn_failure_summary := cq_error_summary q |>
  | _, SUCCEEDED =>
      r <| rn_status := RunStatus.SUCCEEDED |> <| rn_failure_code := None |> <| rn_failure_summary := None |>
  | _, TIMED_OUT =>
      r <| rn_status := RunStatus.TIMED_OUT |> <| rn_failure_code := error_or q "RUN_TIMED_OUT" |>
        <| rn_failure_summary := cq_error_summary q |>
  | _, (ABORTED | CANCELLED) =>
      r <| rn_status := RunStatus.ABORTED |> <| rn_failure_code := cq_error_code q |>
        <| rn_failure_summary := cq_error_summary q |>
  | _, FAILED =>
      r <| rn_status := RunStatus.FAILED |> <| rn_failure_code := error_or q "RUN_FAILED" |>
        <| rn_failure_summary := cq_error_summary q |>
  end in
r <| rn_finished_at := Some now |> <| rn_updated_at := now |> <| rn_version ::= Z.succ |>.

Definition run_succeeded (r : Run) : bool :=
bool_decide (rn_status r ∈ [RunStatus.SUCCEEDED; RunStatus.ABORTED]).

Definition closed_lease (ok : bool) (code : option string) (summary : option pystr) (now : time)
  (l : ExecutionLease) : ExecutionLease :=
l <| l_status := if ok then LeaseStatus.COMPLETED else LeaseStatus.FAILED |>
  <| l_completed_at := Some now |> <| l_failure_code := code |> <| l_failure_summary := summary |>.

Definition settle_source (l : ExecutionLease) (ok : bool) (code : option string) (now : time) : M () :=
source ← source_for_lease l;
match source with
| Some o => update_source (l_work_kind l) (l_source_outbox_id l)
    (o <| ob_status := if ok then SourceStatus.DELIVERED else SourceStatus.FAILED |>
       <| ob_delivered_at := Some now |> <| ob_last_error_code := code |> <| ob_updated_at := now |>)
| None => mret ()
end.

(** The lease after each way of completing: the branches of [complete_lease]. *)
Definition complete_retry (lid : uuid) (l : ExecutionLease) (q : CompleteLeaseRequest) (next : time)
  (now : time) : M ExecutionLease :=
let l := closed_lease false (error_or q "WORKER_RETRYABLE_FAILURE") (cq_error_summary q) now l in
source ← source_for_lease l;
match source with
| Some o => update_source (l_work_kind l) (l_source_outbox_id l)
    (o <| ob_status := SourceStatus.PENDING |> <| ob_available_at := next |>
       <| ob_last_error_code := l_failure_code l |> <| ob_updated_at := now |>)
| None => mret ()
end ;;
reset_retry_target l now ;;
mret l.

Definition complete_build (lid : uuid) (l : ExecutionLease) (q : CompleteLeaseRequest)
  (image : option (uuid * ExecutionArtifact)) (now : time) : M ExecutionLease :=
row ← find_build (l_build_id l);
b ← get_or_raise row not_found;
bid ← get_or_raise (l_build_id l) not_found;
b ← lift (finished_build q image now b);
update_build bid b ;;
let ok := bool_decide (cq_outcome q = SUCCEEDED) in
settle_source l ok (b_error_code b) now ;;
mret (closed_lease ok (b_error_code b) (b_error_message b) now l).

Definition confirm_cancellation (locked : gset uuid) (lid : uuid) (l : ExecutionLease) (wid rid : uuid)
  (r : Run) (now : time) (request_id : string) : M () :=
source ← source_for_lease l;
n ← fence_cancelled_run_leases locked rid now (Some lid)
      (if bool_decide (is_Some source) then Some (l_source_outbox_id l) else None);
system_audit (Some (rn_organization_id r)) (Some (rn_project_id r)) "worker" (str_of_uuid wid)
  "run.cancellation_converged" "run" (Some rid) request_id
  [("previous_status"%string, DStr (run_status_text (rn_status r)));
   ("reason"%string, DStr "WORKER_CONFIRMED"); ("fenced_lease_count"%string, DInt n);
   ("cancel_deadline_at"%string, opt_detail_time (rn_cancel_deadline_at r))].

Definition opt_string (o : option string) : pyval := match o with Some x => PStr (lit x) | None => PNone end.

Definition complete_run (locked : gset uuid) (lid : uuid) (l : ExecutionLease) (wid : uuid)
  (q : CompleteLeaseRequest) (now : time) (request_id : string) : M ExecutionLease :=
row ← find_run (l_run_id l);
'(rid, r) ← get_or_raise row not_found;
let previous := rn_status r in
(if bool_decide (l_work_kind l = RUN_CANCEL) && bool_decide (cq_outcome q ∈ [ABORTED; SUCCEEDED])
 then confirm_cancellation locked lid l wid rid r now request_id else mret ()) ;;
let r := finished_run (l_work_kind l) q now r in
update_run rid r ;;
log_status rid r previous ;;
log_event rid r (if run_succeeded r then "run.completed" else "run.failed")
  [(KStr (lit "status"), status_value (rn_status r));
   (KStr (lit "failure_code"), opt_string (rn_failure_code r));
   (KStr (lit "failure_summary"), opt_text (rn_failure_summary r))] ;;
settle_source l (run_succeeded r) (rn_failure_code r) now ;;
mret (closed_lease (run_succeeded r) (rn_failure_code r) (rn_failure_summary r) now l).

(** The tail: the lease is stored, its grants are revoked and the completion audited. *)
Definition close_lease (lid : uuid) (l : ExecutionLease) (wid : uuid) (q : CompleteLeaseRequest)
  (retry : bool) (next : option time) (image : option (uuid * ExecutionArtifact)) (now : time)
  (request_id : string) : M ExecutionLease :=
let l := l <| l_updated_at := now |> in
update_lease lid l ;;
modify (λ s, s <| grants ::= update_where (held lid) revoke |>) ;;
system_audit (Some (l_organization_id l)) (Some (l_project_id l)) "worker" (str_of_uuid wid)
  "execution.lease.completed" "execution_lease" (Some lid) request_id
  [("work_kind"%string, DStr (kind_text (l_work_kind l))); ("outcome"%string, DStr (outcome_text (cq_outcome q)));
   ("retryable"%string, DBool retry); ("next_attempt_at"%string, opt_detail_time next);
   ("artifact_id"%string, opt_detail_uuid (fst <$> image))] ;;
mret l.

Definition complete_lease (locked : gset uuid) (lid : uuid) (l : ExecutionLease) (wid : uuid)
  (w : WorkerIdentity) (q : CompleteLeaseRequest) (now : time) (request_id : string) : M ExecutionLease :=
run ← find_run (if bool_decide (l_work_kind l = RUN_START) then l_run_id l else None);
converged ← match run with
            | Some (rid, r) =>
                if bool_decide (rn_cancel_requested_at r = None) then mret false
                else converge_cancelled_run locked rid now request_id "LATE_RUN_START_COMPLETION"
            | None => mret false
            end;
if converged : bool then
  system_audit (Some (l_organization_id l)) (Some (l_project_id l)) "worker" (str_of_uuid wid)
    "execution.lease.cancellation_converged" "execution_lease" (Some lid) request_id
    [("work_kind"%string, DStr (kind_text (l_work_kind l))); ("attempt"%string, DInt (l_attempt l));
     ("reported_outcome"%string, DStr (outcome_text (cq_outcome q)));
     ("retry_scheduled"%string, DBool false)] ;;
  row ← gets (λ s, leases s !! lid);
  mret (default l row)
else
  source ← source_for_lease l;
  let retry := execution_retry_allowed (cq_retryable q) (cq_outcome q) (l_attempt l) worker_max_attempts
                 (bool_decide (is_Some source)) in
  registered ← register_artifacts lid l w (cq_artifacts q);
  let image := head (base.filter (λ a, ar_kind a.2 = "CONTAINER_IMAGE"%string) registered) in
  next ← next_attempt retry now (l_attempt l);
  l ← match next with
      | Some t => complete_retry lid l q t now
      | None => if bool_decide (l_work_kind l = BUILD) then complete_build lid l q image now
                else complete_run locked lid l wid q now request_id
      end;
  close_lease lid l wid q retry next image now request_id.

(** ** Cancelling a run (services/runs.py) *)

Definition set_cancel (now : time) (status : RunStatus.t) (r : Run) : Run :=
r <| rn_cancel_requested_at := Some now |>
  <| rn_cancel_deadline_at := Some (now + seconds worker_cancel_convergence_seconds) |>
  <| rn_status := status |> <| rn_version ::= Z.succ |> <| rn_updated_at := now |>.

Definition is_command (rid : uuid) (c : run_command) (_ : uuid) (o : Outbox) : bool :=
bool_decide (ob_target_id o = rid) && bool_decide (ob_command o = Some c).

Definition cancel_command (now : time) (rid : uuid) (r : Run) : Outbox :=
MkOutbox (rn_organization_id r) (rn_project_id r) rid (Some CANCEL) "rdc.run.cancel.requested.v1"
  [(KStr (lit "schema_version"), PStr (lit "1")); (KStr (lit "run_id"), text_value rid);
   (KStr (lit "organization_id"), text_value (rn_organization_id r));
   (KStr (lit "project_id"), text_value (rn_project_id r));
   (KStr (lit "cancel_deadline_at"), time_value (rn_cancel_deadline_at r))]
  SourceStatus.PENDING 0 now None None None now.

(** Inserting a command: [uq_run_command_outbox_run_command]. *)
Definition insert_command (o : Outbox) : M uuid :=
id ← fresh_uuid;
taken ← gets (λ s, run_commands s !! id);
raise_if (bool_decide (is_Some taken)) (IntegrityError "run_command_outbox_pkey") ;;
duplicate ← gets (λ s, exists_row (λ _ o', bool_decide (ob_target_id o' = ob_target_id o)
                                    && bool_decide (ob_command o' = ob_command o)) (run_commands s));
raise_if duplicate (IntegrityError "uq_run_command_outbox_run_command") ;;
update_source RUN_START id o ;;
mret id.

Definition ensure_cancel_command (now : time) (rid : uuid) (r : Run) : M () :=
existing ← gets (λ s, exists_row (is_command rid CANCEL) (run_commands s));
if existing : bool then mret () else insert_command (cancel_command now rid r) ;; mret ().

(** The trigger [run_cancellation_immutable]: a cancellation is requested once. *)
Definition first_cancellation (r : Run) : M () :=
raise_if (bool_decide (rn_cancel_requested_at r ≠ None)) (IntegrityError "run_cancellation_immutable").

Definition cancel_transition (now : time) (rid : uuid) (r : Run) : M Run :=
if bool_decide (rn_status r ∈ RUN_TERMINAL_STATUSES) then mret r
else if bool_decide (rn_status r ∈ [RunStatus.DRAFT; RunStatus.READY; RunStatus.QUEUED]) then
  first_cancellation r ;;
  let r' := set_cancel now RunStatus.ABORTED r <| rn_finished_at := Some now |> in
  update_run rid r' ;;
  modify (λ s, s <| run_commands ::= update_where (λ id o, is_command rid START id o
                      && bool_decide (ob_status o = SourceStatus.PENDING))
                      (λ o, o <| ob_status := SourceStatus.CANCELLED |> <| ob_updated_at := now |>) |>) ;;
  log_status rid r' (rn_status r) ;;
  log_event rid r' "run.completed" [(KStr (lit "status"), status_value RunStatus.ABORTED)] ;;
  mret r'
else if bool_decide (rn_status r ∈ RUN_CANCELLABLE_ACTIVE_STATUSES) then
  first_cancellation r ;;
  let r' := set_cancel now RunStatus.ABORTING r in
  update_run rid r' ;;
  ensure_cancel_command now rid r' ;;
  log_status rid r' (rn_status r) ;;
  mret r'
else if bool_decide (rn_status r = RunStatus.ABORTING) then
  ensure_cancel_command now rid r ;; mret r
else raise (ApiError 409 "RUN_STATE_CONFLICT").

Definition cancel_endpoint : string := "POST:/api/v1/runs/{run_id}/cancel".

(** [organization_id] and [project_id] are those of the run the route loaded; the
  snapshot of the response is kept as the row it renders. *)
Definition cancel_run (rid organization_id project_id user_id : uuid) (idempotency_key : pystr) (now : time)
  (request_id : string) : M (uuid * Run) :=
raise_if (negb (valid_idempotency_key idempotency_key)) (ApiError 400 "INVALID_REQUEST") ;;
fingerprint ← get_or_raise (canonical_fingerprint (PDict [(KStr (lit "run_id"), text_value rid)]))
                UnicodeEncodeError;
encoded ← get_or_raise (utf8_encode idempotency_key) UnicodeEncodeError;
let key_digest := sha256_hex encoded in
records ← gets idempotency;
match replay_of organization_id (str_of_uuid user_id) cancel_endpoint key_digest fingerprint records with
| inl e => raise e
| inr (Some snapshot) => mret snapshot
| inr None =>
    row ← gets (λ s, runs s !! rid);
    r ← get_or_raise row not_found;
    raise_if (negb (bool_decide (rn_organization_id r = organization_id)
                    && bool_decide (rn_project_id r = project_id))) not_found ;;
    r' ← cancel_transition now rid r;
    modify (λ s, s <| idempotency ::= λ l, l ++
      [MkIdempotency organization_id (str_of_uuid user_id) cancel_endpoint key_digest fingerprint
         "run" rid (Some 202) (Some (rid, r')) now (now + seconds 86400)] |>) ;;
    system_audit (Some (rn_organization_id r')) (Some (rn_project_id r')) "user" (str_of_uuid user_id)
      "run.cancel_requested" "run" (Some rid) request_id
      [("previous_status"%string, DStr (run_status_text (rn_status r)));
       ("resulting_status"%string, DStr (run_status_text (rn_status r')));
       ("cancel_deadline_at"%string, opt_detail_time (rn_cancel_deadline_at r'))] ;;
    mret (rid, r')
end.

(** ** Queueing work *)

(** The build row of [create_build]. *)
Definition new_build (organization_id project_id agent_id agent_version_id : uuid) (manifest_digest : pystr)
  (source_object_id : uuid) (now : time) : Build :=
MkBuild organization_id project_id agent_id agent_version_id manifest_digest (Some source_object_id)
  BuildStatus.QUEUED None None None None None now 1.

(** The tail of [create_build]: the build and its outbox row; [timeout_seconds] and
  [source] are what it computed from the manifest and the source archive. *)
Definition queue_build (organization_id project_id agent_id agent_version_id : uuid) (manifest_digest : pystr)
  (source_object_id : uuid) (source : StorageObject) (timeout_seconds : Z) (now : time) : M uuid :=
bid ← fresh_uuid;
taken ← gets (λ s, builds s !! bid);
raise_if (bool_decide (is_Some taken)) (IntegrityError "builds_pkey") ;;
update_build bid (new_build organization_id project_id agent_id agent_version_id manifest_digest
  source_object_id now) ;;
oid ← fresh_uuid;
taken ← gets (λ s, build_outbox s !! oid);
raise_if (bool_decide (is_Some taken)) (IntegrityError "build_dispatch_outbox_pkey") ;;
update_source BUILD oid (MkOutbox organization_id project_id bid None "rdc.build.requested.v1"
  [(KStr (lit "schema_version"), PStr (lit "1")); (KStr (lit "build_id"), text_value bid);
   (KStr (lit "organization_id"), text_value organization_id);
   (KStr (lit "project_id"), text_value project_id); (KStr (lit "agent_id"), text_value agent_id);
   (KStr (lit "agent_version_id"), text_value agent_version_id);
   (KStr (lit "manifest_digest"), PStr manifest_digest);
   (KStr (lit "timeout_seconds"), PInt timeout_seconds);
   (KStr (lit "source_object_id"), text_value source_object_id);
   (KStr (lit "source_sha256_digest"), PStr (so_sha256_digest source));
   (KStr (lit "source_size_bytes"), PInt (so_size_bytes source))]
  SourceStatus.PENDING 0 now None None None now) ;;
mret bid.

(** The tail of [create_run]: the run, its START command unless it only records an
  intent, and its first event. *)
Definition queue_run (organization_id project_id agent_id agent_version_id build_id user_id : uuid)
  (input_reference runtime : list (pykey * pyval)) (receipt_only : bool) (now : time) : M uuid :=
rid ← fresh_uuid;
taken ← gets (λ s, runs s !! rid);
raise_if (bool_decide (is_Some taken)) (IntegrityError "runs_pkey") ;;
let initial_status := if receipt_only then RunStatus.DRAFT else RunStatus.QUEUED in
let r := MkRun organization_id project_id agent_id agent_version_id build_id initial_status input_reference
           runtime user_id now None None None None None None now 1 in
update_run rid r ;;
(if receipt_only then mret ()
 else insert_command (MkOutbox organization_id project_id rid (Some START) "rdc.run.requested.v1"
        [(KStr (lit "schema_version"), PStr (lit "1")); (KStr (lit "run_id"), text_value rid);
         (KStr (lit "organization_id"), text_value organization_id);
         (KStr (lit "project_id"), text_value project_id); (KStr (lit "agent_id"), text_value agent_id);
         (KStr (lit "agent_version_id"), text_value agent_version_id);
         (KStr (lit "build_id"), text_value build_id); (KStr (lit "runtime"), PDict runtime)]
        SourceStatus.PENDING 0 now None None None now) ;; mret ()) ;;
log_event rid r "run.status"
  [(KStr (lit "previous_status"), PNone); (KStr (lit "status"), status_value initial_status)] ;;
mret rid.

(** ** Secret grants *)

(** What [issue_secret_envelope] and [issue_egress_credential_envelope] compute besides
  the grants table: [gq_fingerprint] is what the checks of the request (declared names,
  policy binding, public key) returned, [gq_envelope] what the sealing of the secrets
  returned, [gq_expired_code] the code of a stale replay, [gq_action] and [gq_details]
  what the two audit rows differ in. *)
Record GrantRequest := MkGrantRequest {
gq_fingerprint : exn + pystr; gq_envelope : exn + pyval; gq_expired_code : string; gq_action : string;
gq_details : list (string * detail) }.

(** The two operations over the grants table: replay or store a grant under the
  fingerprint of the request. *)
Definition issue_grant (lid : uuid) (l : ExecutionLease) (wid : uuid) (w : WorkerIdentity)
  (q : GrantRequest) (now : time) (request_id : string) : M (uuid * SecretInjectionGrant) :=
raise_if (negb (bool_decide (l_work_kind l = RUN_START)) || bool_decide (l_run_id l = None)) state_conflict ;;
raise_if (negb (bool_decide ("SECRET_ENVELOPE"%string ∈ wk_capabilities w)))
  (ApiError 403 "WORKER_CAPABILITY_DENIED") ;;
row ← find_run (l_run_id l);
'(rid, r) ← get_or_raise row not_found;
fingerprint ← lift (gq_fingerprint q);
rows ← gets (λ s, select (λ _ g, bool_decide (g_lease_id g = lid)
                                && bool_decide (g_request_fingerprint g = fingerprint)) (grants s));
match head rows with
| Some (gid, g) =>
    raise_if ((g_expires_at g <=? now) || negb (bool_decide (g_status g = GrantStatus.ISSUED)))
      (ApiError 409 (gq_expired_code q)) ;;
    mret (gid, g)
| None =>
    e ← lift (gq_envelope q);
    let g := MkGrant wid lid rid fingerprint GrantStatus.ISSUED now
               (Z.min (l_expires_at l) (now + seconds worker_secret_envelope_seconds)) e in
    gid ← fresh_uuid;
    taken ← gets (λ s, grants s !! gid);
    raise_if (bool_decide (is_Some taken)) (IntegrityError "secret_injection_grants_pkey") ;;
    modify (λ s, s <| grants ::= <[gid := g]> |>) ;;
    system_audit (Some (l_organization_id l)) (Some (l_project_id l)) "worker" (str_of_uuid wid)
      (gq_action q) "secret_injection_grant" (Some gid) request_id
      (("run_id"%string, DUuid rid) :: gq_details q ++ [("expires_at"%string, DTime (g_expires_at g))]) ;;
    mret (gid, g)
end.

(** ** Workers *)

Record SandboxAttestation := MkAttestation {
  at_schema_version : string; at_max_memory_mb : Z; at_max_cpu_millis : Z; at_max_pids : Z;
  at_max_ephemeral_disk_mb : Z; at_max_build_seconds : Z; at_max_run_seconds : Z;
  (** [model_dump(mode="json")] *)
  at_dump : pyval }.

Definition sandbox_attestation_allowed (a : SandboxAttestation) : bool :=
bool_decide (at_schema_version a = sandbox_required_profile)
&& (at_max_memory_mb a <=? sandbox_max_memory_mb) && (at_max_cpu_millis a <=? sandbox_max_cpu_millis)
&& (at_max_pids a <=? sandbox_max_pids)
&& (at_max_ephemeral_disk_mb a <=? sandbox_max_ephemeral_disk_mb)
&& (at_max_build_seconds a <=? sandbox_max_build_seconds)
&& (at_max_run_seconds a <=? sandbox_max_run_seconds).

Definition apply_sandbox_attestation (w : WorkerIdentity) (a : option SandboxAttestation) (now : time)
  : exn + WorkerIdentity :=
match a with
| None => inr w
| Some a =>
    match canonical_fingerprint (at_dump a) with
    | None => inl UnicodeEncodeError
    | Some digest =>
        inr (w <| wk_sandbox_profile := Some (at_schema_version a) |>
               <| wk_sandbox_attestation_digest := Some digest |>
               <| wk_sandbox_attested_at := Some now |>
               <| wk_sandbox_execution_enabled :=
                    sandbox_execution_enabled && bool_decide (sandbox_activation_mode = "canary"%string)
                    && bool_decide (wk_name w = canary_worker) && (wk_max_concurrency w =? 1)
                    && sandbox_attestation_allowed a |>
               <| wk_metadata ::= put "sandbox" (at_dump a) |>)
    end
end.

(** The validated body of a registration; [sorted] capabilities are kept in the
  order of the literals. *)
Record RegisterWorkerRequest := MkRegister {
  rw_name : pystr; rw_capabilities : list string; rw_max_concurrency : Z; rw_protocol_version : string;
  rw_software_version : pystr; rw_sandbox : option SandboxAttestation; rw_metadata : list (pykey * pyval) }.

Definition worker_capabilities : list string :=
["BUILD"; "DATASET_APPEND"; "EVENT_INGEST"; "KV_ACCESS"; "REQUEST_QUEUE_ACCESS"; "RUN_CANCEL"; "RUN_START";
 "SECRET_ENVELOPE"].

Definition register_worker (p : RegisterWorkerRequest) (now : time) (request_id : string)
  : M (uuid * WorkerIdentity * pystr) :=
existing ← gets (λ s, exists_row (λ _ w, bool_decide (wk_name w = rw_name p)) (workers s));
raise_if existing (ApiError 409 "WORKER_NAME_CONFLICT") ;;
prefix ← fresh_prefix;
secret ← fresh_token;
let raw_token := lit "rdc_worker_" ++ prefix ++ lit "_" ++ secret in
digest ← secret_digest raw_token worker_token_pepper;
let w := MkWorker (rw_name p) prefix digest (base.filter (λ c, c ∈ rw_capabilities p) worker_capabilities)
           (Z.min (rw_max_concurrency p) worker_registration_max_concurrency) WorkerStatus.ACTIVE
           (rw_protocol_version p) (rw_software_version p) (rw_metadata p) None None false None now (Some now)
           None None None 0 None None in
w ← lift (apply_sandbox_attestation w (rw_sandbox p) now);
wid ← fresh_uuid;
s ← gets (λ s, s);
raise_if (bool_decide (is_Some (workers s !! wid))) (IntegrityError "worker_identities_pkey") ;;
raise_if (exists_row (λ _ w', bool_decide (wk_public_prefix w' = prefix)) (workers s))
  (IntegrityError "worker_identities_public_prefix_key") ;;
raise_if (exists_row (λ _ w', bool_decide (wk_token_digest w' = digest)) (workers s))
  (IntegrityError "worker_identities_token_digest_key") ;;
update_worker wid w ;;
system_audit None None "system" (lit "worker-bootstrap") "worker.registered" "worker" (Some wid) request_id
  [("name"%string, DText (wk_name w)); ("capabilities"%string, DStrs (wk_capabilities w));
   ("protocol_version"%string, DStr (wk_protocol_version w));
   ("requested_max_concurrency"%string, DInt (rw_max_concurrency p));
   ("effective_max_concurrency"%string, DInt (wk_max_concurrency w))] ;;
mret (wid, w, raw_token).

Record WorkerRecoveryReport := MkRecovery {
  rr_startup_id : uuid; rr_containers_removed : Z; rr_directories_removed : Z }.
Record WorkerHeartbeatRequest := MkHeartbeat {
  hb_draining : bool; hb_software_version : pystr; hb_active_lease_count : Z;
  hb_sandbox : option SandboxAttestation; hb_recovery : option WorkerRecoveryReport;
  hb_metadata : list (pykey * pyval) }.

(** [{**old, **new, "active_lease_count": n}]. *)
Definition merged_metadata (old new : list (pykey * pyval)) (n : Z) : list (pykey * pyval) :=
put "active_lease_count" (PInt n) (foldl (λ acc kv, dict_set kv.1 kv.2 acc) old new).

Definition recovered_worker (now : time) (q : WorkerRecoveryReport) (w : WorkerIdentity) : WorkerIdentity :=
w <| wk_last_cleanup_at := Some now |> <| wk_cleanup_generation ::= Z.succ |>
  <| wk_metadata ::= λ m, put "workspace_directories_removed" (PInt (rr_directories_removed q))
       (put "managed_containers_removed" (PInt (rr_containers_removed q))
          (put "recovery_startup_id" (text_value (rr_startup_id q)) m)) |>.

Definition heartbeat_worker (locked : gset uuid) (wid : uuid) (p : WorkerHeartbeatRequest) (now : time)
  (request_id : string) : M WorkerIdentity :=
row ← gets (λ s, workers s !! wid);
w ← get_or_raise row credential_invalid;
raise_if (bool_decide (wk_status w = WorkerStatus.REVOKED) || bool_decide (wk_revoked_at w ≠ None))
  credential_invalid ;;
let pending := recovery_pending w in
raise_if (pending && bool_decide (hb_recovery p = None)) (ApiError 409 "WORKER_RECOVERY_REQUIRED") ;;
let previous_startup_id := dict_get "recovery_startup_id" (wk_metadata w) in
let w := w <| wk_status := if hb_draining p then WorkerStatus.DRAINING else WorkerStatus.ACTIVE |>
           <| wk_software_version := hb_software_version p |> <| wk_last_seen_at := Some now |>
           <| wk_metadata ::= λ m, merged_metadata m (hb_metadata p) (hb_active_lease_count p) |> in
w ← lift (apply_sandbox_attestation w (hb_sandbox p) now);
let replayed q := bool_decide (text_value (rr_startup_id q) = previous_startup_id) in
raise_if (pending && match hb_recovery p with Some q => replayed q | None => false end)
  (ApiError 409 "WORKER_RECOVERY_REPORT_REPLAYED") ;;
w ← match hb_recovery p with
    | Some q =>
        if replayed q then mret w
        else
          let w := recovered_worker now q w in
          if pending then
            system_audit None None "worker" (str_of_uuid wid) "worker.recovered" "worker" (Some wid) request_id
              [("cleanup_generation"%string, DInt (wk_cleanup_generation w));
               ("managed_containers_removed"%string, DInt (rr_containers_removed q));
               ("workspace_directories_removed"%string, DInt (rr_directories_removed q))] ;;
            mret (w <| wk_last_recovered_at := Some now |>)
          else mret w
    | None => mret w
    end;
let w := if sandbox_execution_enabled then w else w <| wk_sandbox_execution_enabled := false |> in
update_worker wid w ;;
reap_expired_leases locked now request_id 100 true ;;
mret w.

(** ** services/execution_recovery_sweeper.py *)

Definition lost_candidate (now lost_before : time) (locked : gset uuid) (s : db) (id : uuid)
  (w : WorkerIdentity) : bool :=
bool_decide (wk_status w = WorkerStatus.ACTIVE) && bool_decide (wk_revoked_at w = None)
&& match wk_last_seen_at w with Some t => t <=? lost_before | None => false end
&& match wk_last_lost_at w with
   | None => true
   | Some lost => match wk_last_recovered_at w with Some t => lost <=? t | None => false end
   end
&& exists_row (λ _ l, bool_decide (l_worker_id l = id) && live now l) (leases s)
&& bool_decide (id ∉ locked).
Definition lost_key (x : uuid * WorkerIdentity) : Z * N := (default 0 (wk_last_seen_at x.2), x.1).

Definition lost_lease (now : time) (l : ExecutionLease) : ExecutionLease :=
l <| l_expires_at := Z.min (l_expires_at l) now |> <| l_failure_code := Some "WORKER_LOST"%string |>
  <| l_failure_summary := Some (lit "The execution worker heartbeat was lost.") |> <| l_updated_at := now |>.
Definition of_worker (now : time) (wid : uuid) (_ : uuid) (l : ExecutionLease) : bool :=
bool_decide (l_worker_id l = wid) && live now l.

(** One worker: marked lost, its live leases end now. *)
Definition lose_worker (now : time) (lost_after_seconds : Z) (request_id : string) (wid : uuid) : M Z :=
modify (λ s, s <| workers ::= alter (λ w, w <| wk_last_lost_at := Some now |>
                                             <| wk_sandbox_execution_enabled := false |>) wid |>) ;;
rows ← gets (λ s, select (of_worker now wid) (leases s));
raise_if (existsb (λ x, now <=? l_claimed_at x.2) rows) (IntegrityError "ck_execution_leases_expiry") ;;
modify (λ s, s <| leases ::= update_where (of_worker now wid) (lost_lease now) |>) ;;
system_audit None None "system" (lit "worker-loss-detector") "worker.lost" "worker" (Some wid) request_id
  [("leases_fenced"%string, DInt (Z.of_nat (length rows)));
   ("lost_after_seconds"%string, DInt lost_after_seconds)] ;;
mret (Z.of_nat (length rows)).

Fixpoint lose_workers (now : time) (lost_after_seconds : Z) (request_id : string) (ids : list uuid) (n : Z)
  : M Z :=
match ids with
| [] => mret n
| id :: ids =>
    k ← lose_worker now lost_after_seconds request_id id;
    lose_workers now lost_after_seconds request_id ids (n + k)
end.

Definition detect_lost_workers (locked : gset uuid) (now : time) (lost_after_seconds batch_size : Z)
  (request_id : string) : M (Z * Z) :=
raise_if (negb ((15 <=? lost_after_seconds) && (lost_after_seconds <=? 300)))
  (ValueError "Worker loss detection must be between 15 and 300 seconds.") ;;
raise_if (negb ((1 <=? batch_size) && (batch_size <=? 500)))
  (ValueError "Worker loss batch size must be between 1 and 500.") ;;
ids ← gets (λ s, (take (Z.to_nat (Z.max 1 (batch_size / 16))) (order_by (by_key lost_key)
         (select (lost_candidate now (now - seconds lost_after_seconds) locked s) (workers s)))).*1);
n ← lose_workers now lost_after_seconds request_id ids 0;
mret (Z.of_nat (length ids), n).

Record ExecutionRecoverySweepResult := MkSweep {
  sw_acquired : bool; sw_leases_reaped : Z; sw_cancellations_converged : Z; sw_workers_lost : Z;
  sw_worker_leases_fenced : Z }.

(** The sweep; the singleton row of its own bookkeeping is not kept. *)
Definition run_execution_recovery_sweep (acquired : bool) (locked : gset uuid) (now : time)
  (batch_size : Z) (request_id : string) : M ExecutionRecoverySweepResult :=
raise_if (negb ((1 <=? batch_size) && (batch_size <=? 500)))
  (ValueError "Execution recovery batch size must be between 1 and 500.") ;;
if negb acquired then mret (MkSweep false 0 0 0 0) else
'(workers_lost, fenced) ← detect_lost_workers locked now worker_lost_after_seconds batch_size request_id;
reaped ← reap_expired_leases locked now request_id batch_size false;
converged ← reap_overdue_cancellations locked now request_id batch_size;
(if negb (reaped =? 0) || negb (converged =? 0) || negb (workers_lost =? 0) then
   system_audit None None "system" (lit "execution-recovery-sweeper") "execution.recovery.sweep_completed"
     "execution_recovery" None request_id
     [("leases_reaped"%string, DInt reaped); ("cancellations_converged"%string, DInt converged);
      ("workers_lost"%string, DInt workers_lost); ("worker_leases_fenced"%string, DInt fenced);
      ("batch_size"%string, DInt batch_size)]
 else mret ()) ;;
mret (MkSweep true reaped converged workers_lost fenced).
End ops.
