(* ===== verification/LeaseProtocol.v ===== *)
(** The lease protocol of the execution plane: an abstract transition system over the
    tables of work items, leases, targets and grants, and the proof that its steps
    preserve an invariant and leave finished leases and settled runs alone. *)
From S2P Require Import Prelude PyVal Json PyUuid PyTime QueueProtocol Idempotency Pagination.
From S2P Require Import EventProtocol RunEvents Recovery ExecutionPlane.
(** ** Leases and their sources *)

Definition kind_command (k : work_kind) : option run_command :=
  match k with BUILD => None | RUN_START => Some START | RUN_CANCEL => Some CANCEL end.

(** Work items: the outbox rows of a kind. *)
Abbreviation items := (work_kind → uuid → option Outbox) (only parsing).

Definition set_item (f : items) (k : work_kind) (id : uuid) (o : Outbox) : items :=
  λ k' id', if decide (k' = k ∧ id' = id) then Some o else f k' id'.

Lemma set_item_Some f k id o k' id' o' :
  set_item f k id o k' id' = Some o' ↔
  (k' = k ∧ id' = id ∧ o' = o) ∨ (¬ (k' = k ∧ id' = id) ∧ f k' id' = Some o').
Proof. unfold set_item. case_decide; naive_solver. Qed.

(** What identifies a lease; no operation changes it. *)
Record same_lease (l l' : ExecutionLease) : Prop := {
  sl_worker : l_worker_id l' = l_worker_id l;
  sl_organization : l_organization_id l' = l_organization_id l;
  sl_project : l_project_id l' = l_project_id l;
  sl_kind : l_work_kind l' = l_work_kind l;
  sl_source : l_source_outbox_id l' = l_source_outbox_id l;
  sl_topic : l_source_topic l' = l_source_topic l;
  sl_build : l_build_id l' = l_build_id l;
  sl_run : l_run_id l' = l_run_id l;
  sl_token : l_token_digest l' = l_token_digest l;
  sl_digest : l_payload_digest l' = l_payload_digest l;
  sl_snapshot : l_payload_snapshot l' = l_payload_snapshot l;
  sl_attempt : l_attempt l' = l_attempt l;
  sl_claimed : l_claimed_at l' = l_claimed_at l;
  sl_deadline : l_deadline_at l' = l_deadline_at l }.
#[export] Instance same_lease_preorder : PreOrder same_lease.
Proof. split; [by intros l|]. intros l1 l2 l3 [] []. split; congruence. Qed.

(** What identifies a work item. *)
Record same_item (o o' : Outbox) : Prop := {
  si_organization : ob_organization_id o' = ob_organization_id o;
  si_project : ob_project_id o' = ob_project_id o;
  si_target : ob_target_id o' = ob_target_id o;
  si_command : ob_command o' = ob_command o;
  si_topic : ob_topic o' = ob_topic o;
  si_payload : ob_payload o' = ob_payload o }.
#[export] Instance same_item_preorder : PreOrder same_item.
Proof. split; [by intros l|]. intros l1 l2 l3 [] []. split; congruence. Qed.

Definition lease_target (l : ExecutionLease) : option uuid :=
  if decide (l_work_kind l = BUILD) then l_build_id l else l_run_id l.
Definition active (l : ExecutionLease) : Prop := l_status l = LeaseStatus.ACTIVE.
#[export] Instance active_dec l : Decision (active l).
Proof. unfold active. apply _. Defined.

Section leases.
Context `{Settings}.
Implicit Types (L : gmap uuid ExecutionLease) (f : items).

(** The checks of the lease table. *)
Record lease_ok (l : ExecutionLease) : Prop := {
  lo_attempt : 1 ≤ l_attempt l ≤ worker_max_attempts;
  lo_started : l_claimed_at l < l_expires_at l;
  lo_deadline : l_expires_at l ≤ l_deadline_at l;
  lo_lifetime : l_expires_at l ≤ l_claimed_at l + seconds worker_lease_max_seconds;
  lo_target : match l_work_kind l with
              | BUILD => is_Some (l_build_id l) ∧ l_run_id l = None
              | _ => l_build_id l = None ∧ is_Some (l_run_id l)
              end }.

(** A lease is for the work item it was claimed from; while it is active it is the
  latest attempt, and the item waits for it (or was cancelled under it). *)
Record lease_of (o : Outbox) (l : ExecutionLease) : Prop := {
  lf_target : lease_target l = Some (ob_target_id o);
  lf_organization : l_organization_id l = ob_organization_id o;
  lf_project : l_project_id l = ob_project_id o;
  lf_attempt : l_attempt l ≤ ob_attempts o;
  lf_active : active l → l_attempt l = ob_attempts o ∧
    ob_status o ∈ [SourceStatus.CLAIMED; SourceStatus.CANCELLED] }.

Record item_ok (o : Outbox) : Prop := {
  io_attempts : 0 ≤ ob_attempts o ≤ worker_max_attempts;
  io_pending : ob_status o = SourceStatus.PENDING → ob_attempts o < worker_max_attempts }.

Definition claimed_by L (k : work_kind) (id : uuid) : Prop :=
∃ lid l, L !! lid = Some l ∧ l_work_kind l = k ∧ l_source_outbox_id l = id ∧ active l.

Record lease_inv L f : Prop := {
  li_lease : ∀ lid l, L !! lid = Some l → lease_ok l ∧
    ∃ o, f (l_work_kind l) (l_source_outbox_id l) = Some o ∧ lease_of o l;
  li_unique : ∀ i j l l', L !! i = Some l → L !! j = Some l' → l_work_kind l = l_work_kind l' →
    l_source_outbox_id l = l_source_outbox_id l' → l_attempt l = l_attempt l' → i = j;
  li_item : ∀ k id o, f k id = Some o → item_ok o;
  li_claimed : ∀ k id o, f k id = Some o → ob_status o = SourceStatus.CLAIMED → claimed_by L k id;
  li_target : ∀ k i j o o', f k i = Some o → f k j = Some o' → ob_target_id o = ob_target_id o' → i = j }.

(** At most one lease of a work item is active. *)
Lemma active_unique L f i j l l' :
lease_inv L f → L !! i = Some l → L !! j = Some l' → active l → active l' →
l_work_kind l = l_work_kind l' → l_source_outbox_id l = l_source_outbox_id l' → i = j.
Proof.
intros HI Hl Hl' Ha Ha' Hk Hs. eapply (li_unique _ _ HI); [done..|].
destruct (li_lease _ _ HI _ _ Hl) as (_ & o & Ho & Hlo), (li_lease _ _ HI _ _ Hl') as (_ & o' & Ho' & Hlo').
rewrite Hk, Hs in Ho. simplify_eq. destruct (lf_active _ _ Hlo Ha), (lf_active _ _ Hlo' Ha'). congruence.
Qed.

Section preservation.
Context L f (HI : lease_inv L f).

(** Every lease keeps its identity, and only leaves the active status. *)
Lemma unique_pointwise L' :
(∀ lid l', L' !! lid = Some l' → ∃ l, L !! lid = Some l ∧ same_lease l l') →
∀ i j l l', L' !! i = Some l → L' !! j = Some l' → l_work_kind l = l_work_kind l' →
  l_source_outbox_id l = l_source_outbox_id l' → l_attempt l = l_attempt l' → i = j.
Proof using HI.
intros Hsame i j l l' Hl Hl' Hk Hs Ha.
destruct (Hsame _ _ Hl) as (l0 & Hl0 & []), (Hsame _ _ Hl') as (l1 & Hl1 & []).
eapply (li_unique _ _ HI); [done..| | |]; congruence.
Qed.

Lemma targets_pointwise f' :
(∀ k id o', f' k id = Some o' → ∃ o, f k id = Some o ∧ same_item o o') →
∀ k i j o o', f' k i = Some o → f' k j = Some o' → ob_target_id o = ob_target_id o' → i = j.
Proof using HI.
intros Hsame k i j o o' Ho Ho' Ht.
destruct (Hsame _ _ _ Ho) as (o0 & Ho0 & []), (Hsame _ _ _ Ho') as (o1 & Ho1 & []).
eapply (li_target _ _ HI); [done..|]. congruence.
Qed.

(** A change of rows that keeps identities, seen lease by lease and item by item. *)
Lemma lease_inv_pointwise L' f' :
(∀ lid l', L' !! lid = Some l' → ∃ l, L !! lid = Some l ∧ same_lease l l' ∧ (active l' → active l) ∧
   (lease_ok l → lease_ok l')) →
(∀ k id o', f' k id = Some o' → ∃ o, f k id = Some o ∧ same_item o o' ∧ item_ok o' ∧
   ob_attempts o ≤ ob_attempts o') →
(∀ k id o, f k id = Some o → is_Some (f' k id)) →
(∀ lid l l' o o', L !! lid = Some l → L' !! lid = Some l' → active l' →
   f (l_work_kind l) (l_source_outbox_id l) = Some o → f' (l_work_kind l) (l_source_outbox_id l) = Some o' →
   ob_attempts o' = ob_attempts o ∧ ob_status o' ∈ [SourceStatus.CLAIMED; SourceStatus.CANCELLED]) →
(∀ k id o', f' k id = Some o' → ob_status o' = SourceStatus.CLAIMED → claimed_by L' k id) →
lease_inv L' f'.
Proof using HI.
intros HL Hf Hdom Hact Hcl. split.
- intros lid l' Hl'. destruct (HL _ _ Hl') as (l & Hl & Hs & Ha & Hok).
  destruct (li_lease _ _ HI _ _ Hl) as (Hl_ok & o & Ho & Hlo). split; [auto|].
  rewrite (sl_kind _ _ Hs), (sl_source _ _ Hs). destruct (Hdom _ _ _ Ho) as [o' Ho'].
  exists o'. split; [done|]. destruct (Hf _ _ _ Ho') as (o0 & Ho0 & Hsi & _ & Hatt). simplify_eq.
  destruct Hlo as [H1 H2 H3 H4 H5]. split.
  + unfold lease_target in *. rewrite (sl_kind _ _ Hs), (sl_build _ _ Hs), (sl_run _ _ Hs), H1.
    by rewrite (si_target _ _ Hsi).
  + by rewrite (sl_organization _ _ Hs), (si_organization _ _ Hsi).
  + by rewrite (sl_project _ _ Hs), (si_project _ _ Hsi).
  + rewrite (sl_attempt _ _ Hs). lia.
  + intros Ha'. destruct (H5 (Ha Ha')) as [E _]. rewrite (sl_attempt _ _ Hs), E.
    destruct (Hact _ _ _ _ _ Hl Hl' Ha' Ho Ho') as [-> ?]. done.
- apply unique_pointwise. intros lid l' Hl'. destruct (HL _ _ Hl') as (l & ? & ? & _). by exists l.
- intros k id o' Ho'. by destruct (Hf _ _ _ Ho') as (o & _ & _ & ? & _).
- done.
- apply targets_pointwise. intros k id o' Ho'. destruct (Hf _ _ _ Ho') as (o & ? & ? & _). by exists o.
Qed.

(** A pending item is claimed under a new lease. *)
Lemma lease_inv_claim k sid o o' lid l :
f k sid = Some o → ob_status o = SourceStatus.PENDING → L !! lid = None →
same_item o o' → ob_status o' = SourceStatus.CLAIMED → ob_attempts o' = ob_attempts o + 1 →
l_work_kind l = k → l_source_outbox_id l = sid → active l → l_attempt l = ob_attempts o' →
lease_ok l → lease_of o' l →
lease_inv (<[lid:=l]> L) (set_item f k sid o').
Proof using HI.
intros Ho Hp Hlid Hs Hst Hatt Hk Hsid Ha Hla Hok Hof.
pose proof (li_item _ _ HI _ _ _ Ho) as [Hb Hpend]. specialize (Hpend Hp).
assert (∀ i l0, L !! i = Some l0 → l_work_kind l0 = k → l_source_outbox_id l0 = sid →
  l_attempt l0 < ob_attempts o') as Hold.
{ intros i l0 Hl0 E1 E2. destruct (li_lease _ _ HI _ _ Hl0) as (_ & o0 & Ho0 & Hlf).
  rewrite E1, E2 in Ho0. simplify_eq. pose proof (lf_attempt _ _ Hlf). lia. }
assert (∀ i l0, L !! i = Some l0 → active l0 → ¬ (l_work_kind l0 = k ∧ l_source_outbox_id l0 = sid)) as Hno.
{ intros i l0 Hl0 Ha0 [E1 E2]. destruct (li_lease _ _ HI _ _ Hl0) as (_ & o0 & Ho0 & Hlf).
  rewrite E1, E2 in Ho0. simplify_eq. destruct (lf_active _ _ Hlf Ha0) as [_ Hin].
  rewrite Hp in Hin. set_solver. }
split.
- intros i l0 [(<- & <-)|(Hne & Hl0)]%lookup_insert_Some.
  + split; [done|]. exists o'. split; [|done]. unfold set_item. by rewrite Hk, Hsid, decide_True.
  + destruct (li_lease _ _ HI _ _ Hl0) as (Hok0 & o0 & Ho0 & Hlf). split; [done|].
    unfold set_item. case_decide as E; [|by exists o0]. exists o'. split; [done|].
    destruct E as [E1 E2]. rewrite E1, E2 in Ho0. simplify_eq. destruct Hlf, Hs. split; [congruence..| |].
    * specialize (Hold _ _ Hl0 E1 E2). lia.
    * intros Ha0. by destruct (Hno _ _ Hl0 Ha0).
- intros i j l0 l1 Hi Hj E1 E2 E3.
  apply lookup_insert_Some in Hi as [(<- & <-)|(Hne & Hi)], Hj as [(<- & <-)|(Hne' & Hj)]; [done| | |].
  + pose proof (Hold _ _ Hj ltac:(congruence) ltac:(congruence)). lia.
  + pose proof (Hold _ _ Hi ltac:(congruence) ltac:(congruence)). lia.
  + by eapply (li_unique _ _ HI).
- intros k1 id1 o1 [(-> & -> & ->)|(_ & Ho1)]%set_item_Some; [|by eapply (li_item _ _ HI)].
  split; [lia|]. by rewrite Hst.
- intros k1 id1 o1 [(-> & -> & ->)|(_ & Ho1)]%set_item_Some Hc.
  + exists lid, l. rewrite lookup_insert_eq. done.
  + destruct (li_claimed _ _ HI _ _ _ Ho1 Hc) as (i & l0 & Hl0 & Hrest). exists i, l0.
    split; [|done]. rewrite lookup_insert_ne; [done|]. congruence.
- apply targets_pointwise. intros k1 id1 o1 [(-> & -> & ->)|(_ & Ho1)]%set_item_Some; [by exists o|by exists o1].
Qed.

(** The latest lease of an item is closed and the item moves on. *)
Lemma lease_inv_close lid l l' o o' :
L !! lid = Some l → f (l_work_kind l) (l_source_outbox_id l) = Some o → l_attempt l = ob_attempts o →
same_lease l l' → ¬ active l' → (lease_ok l → lease_ok l') → same_item o o' → item_ok o' →
ob_attempts o' = ob_attempts o → ob_status o' ≠ SourceStatus.CLAIMED →
lease_inv (<[lid:=l']> L) (set_item f (l_work_kind l) (l_source_outbox_id l) o').
Proof using HI.
intros Hl Ho Hla Hs Hna Hok Hsi Hio Hatt Hnc.
apply (lease_inv_pointwise _ _).
- intros i l0 [(<- & <-)|(Hne & Hl0)]%lookup_insert_Some; [exists l|exists l0]; split_and!; done.
- intros k1 id1 o1 [(-> & -> & ->)|(_ & Ho1)]%set_item_Some; [exists o|exists o1]; split_and!; try done; try lia.
  by eapply (li_item _ _ HI).
- intros k1 id1 o1 Ho1. unfold set_item. case_decide; eauto.
- intros i l0 l1 o0 o1 Hl0 Hl1 Ha1 Ho0 Ho1.
  apply lookup_insert_Some in Hl1 as [(<- & <-)|(Hne & Hl1)]; [done|].
  assert (l0 = l1) as -> by congruence. clear Hl0.
  apply set_item_Some in Ho1 as [(E1 & E2 & ->)|(_ & Ho1)].
  + exfalso. apply Hne. eapply (li_unique _ _ HI); [done..|].
    destruct (li_lease _ _ HI _ _ Hl1) as (_ & o2 & Ho2 & Hlf). destruct (lf_active _ _ Hlf Ha1) as [E3 _].
    rewrite E1, E2 in *. simplify_eq. congruence.
  + assert (o1 = o0) as -> by congruence. destruct (li_lease _ _ HI _ _ Hl1) as (_ & o2 & Ho2 & Hlf).
    assert (o2 = o0) as -> by congruence. by destruct (lf_active _ _ Hlf Ha1).
- intros k1 id1 o1 [(-> & -> & ->)|(Hne & Ho1)]%set_item_Some Hc; [done|].
  destruct (li_claimed _ _ HI _ _ _ Ho1 Hc) as (i & l0 & Hl0 & Hk0 & Hs0 & Ha0). exists i, l0.
  split; [|done]. rewrite lookup_insert_ne; [done|]. intros <-. simplify_eq. by apply Hne.
Qed.

(** An active lease changes without changing hands. *)
Lemma lease_inv_touch L' :
(∀ lid l', L' !! lid = Some l' → ∃ l, L !! lid = Some l ∧ same_lease l l' ∧ l_status l' = l_status l ∧
   (lease_ok l → lease_ok l')) →
(∀ lid l, L !! lid = Some l → is_Some (L' !! lid)) →
lease_inv L' f.
Proof using HI.
intros HL Hdom. apply lease_inv_pointwise.
- intros lid l' Hl'. destruct (HL _ _ Hl') as (l & ? & ? & Est & ?). exists l. split_and!; try done.
  unfold active. congruence.
- intros k id o Ho. exists o. split_and!; [done..|by eapply (li_item _ _ HI)|lia].
- eauto.
- intros lid l l' o o' Hl Hl' Ha Ho Ho'. simplify_eq. destruct (HL _ _ Hl') as (l0 & ? & _ & Est & _). simplify_eq.
  destruct (li_lease _ _ HI _ _ Hl) as (_ & o2 & Ho2 & Hlf). simplify_eq.
  destruct (lf_active _ _ Hlf) as [_ ?]; [unfold active in *; congruence|]. done.
- intros k id o Ho Hc. destruct (li_claimed _ _ HI _ _ _ Ho Hc) as (i & l & Hl & Hk & Hs & Ha).
  destruct (Hdom _ _ Hl) as [l' Hl']. destruct (HL _ _ Hl') as (l0 & ? & Hsame & Est & _). simplify_eq.
  exists i, l'. destruct Hsame. unfold active in *. split_and!; congruence.
Qed.

(** A pending item leaves the queue without a lease. *)
Lemma lease_inv_drop k sid o o' :
f k sid = Some o → ob_status o = SourceStatus.PENDING → same_item o o' → item_ok o' →
ob_attempts o ≤ ob_attempts o' → ob_status o' ≠ SourceStatus.CLAIMED →
lease_inv L (set_item f k sid o').
Proof using HI.
intros Ho Hp Hsi Hio Hatt Hnc. apply lease_inv_pointwise.
- intros i l Hl. by exists l.
- intros k1 id1 o1 [(-> & -> & ->)|(_ & Ho1)]%set_item_Some; [exists o|exists o1]; split_and!; try done; try lia.
  by eapply (li_item _ _ HI).
- intros k1 id1 o1 Ho1. unfold set_item. case_decide; eauto.
- intros i l0 l1 o0 o1 Hl0 Hl1 Ha1 Ho0 Ho1. simplify_eq.
  destruct (li_lease _ _ HI _ _ Hl0) as (_ & o2 & Ho2 & Hlf). simplify_eq.
  destruct (lf_active _ _ Hlf Ha1) as [? Hin].
  apply set_item_Some in Ho1 as [(E1 & E2 & ->)|(_ & Ho1)]; [|by simplify_eq].
  rewrite E1, E2 in *. simplify_eq. rewrite Hp in Hin. set_solver.
- intros k1 id1 o1 [(-> & -> & ->)|(Hne & Ho1)]%set_item_Some Hc; [done|]. by apply (li_claimed _ _ HI _ _ o1).
Qed.

(** A new work item. *)
Lemma lease_inv_new k sid o :
f k sid = None → item_ok o → ob_status o ≠ SourceStatus.CLAIMED →
(∀ id o', f k id = Some o' → ob_target_id o' ≠ ob_target_id o) →
lease_inv L (set_item f k sid o).
Proof using HI.
intros Hn Hio Hnc Ht. split.
- intros i l Hl. destruct (li_lease _ _ HI _ _ Hl) as (Hok & o0 & Ho0 & Hlf). split; [done|].
  exists o0. split; [|done]. apply set_item_Some. right. split; [|done]. intros [E1 E2]. congruence.
- apply (li_unique _ _ HI).
- intros k1 id1 o1 [(-> & -> & ->)|(_ & Ho1)]%set_item_Some; [done|by eapply (li_item _ _ HI)].
- intros k1 id1 o1 [(-> & -> & ->)|(_ & Ho1)]%set_item_Some Hc; [done|by apply (li_claimed _ _ HI _ _ o1)].
- intros k1 i j o1 o2 Hi Hj E. apply set_item_Some in Hi as [(-> & -> & ->)|(Hne & Hi)],
    Hj as [(E1 & -> & ->)|(Hne' & Hj)]; [done| | |by eapply (li_target _ _ HI)].
  + by destruct (Ht _ _ Hj).
  + subst k1. by destruct (Ht _ _ Hi).
Qed.
End preservation.
End leases.

(** ** The tables of the protocol *)

Record core := MkCore {
  cB : gmap uuid Build;
  cBO : gmap uuid Outbox;
  cR : gmap uuid Run;
  cRC : gmap uuid Outbox;
  cL : gmap uuid ExecutionLease;
  cG : gmap uuid SecretInjectionGrant;
  cE : list RunEvent }.
#[export] Instance eta_core : Eta core := λ c,
  MkCore (cB c) (cBO c) (cR c) (cRC c) (cL c) (cG c) (cE c).
Definition core_of (s : db) : core :=
  MkCore (builds s) (build_outbox s) (runs s) (run_commands s) (leases s) (grants s) (run_events s).

(** The work items of a state. *)
Definition with_command (c : run_command) (o : Outbox) : option Outbox :=
  if decide (ob_command o = Some c) then Some o else None.
Definition item (BO RC : gmap uuid Outbox) : items := λ k id,
  match k with
  | BUILD => BO !! id
  | RUN_START => RC !! id ≫= with_command START
  | RUN_CANCEL => RC !! id ≫= with_command CANCEL
  end.
Abbreviation src c := (item (cBO c) (cRC c)) (only parsing).

Lemma with_command_Some c o o' : with_command c o = Some o' ↔ o' = o ∧ ob_command o = Some c.
Proof. unfold with_command. case_decide; naive_solver. Qed.

Lemma item_run BO RC k id o :
  k ≠ BUILD → item BO RC k id = Some o ↔ RC !! id = Some o ∧ ob_command o = kind_command k.
Proof.
  intros Hk. destruct k; [done|..]; cbn; rewrite bind_Some; setoid_rewrite with_command_Some; naive_solver.
Qed.

Lemma item_set_build BO RC id o :
  ∀ k i, item (<[id:=o]> BO) RC k i = set_item (item BO RC) BUILD id o k i.
Proof.
  intros k i. unfold set_item. destruct k; cbn.
  - destruct (decide (i = id)) as [->|Hne]; [by rewrite lookup_insert_eq, decide_True|].
    rewrite lookup_insert_ne, decide_False by naive_solver. done.
  - rewrite decide_False by naive_solver. done.
  - rewrite decide_False by naive_solver. done.
Qed.

Lemma item_set_run BO RC k id o :
  k ≠ BUILD → ob_command o = kind_command k →
  (∀ o0, RC !! id = Some o0 → ob_command o0 = kind_command k) →
  ∀ k' i, item BO (<[id:=o]> RC) k' i = set_item (item BO RC) k id o k' i.
Proof.
  intros Hk Ho Hold k' i. unfold set_item. destruct (decide (k' = BUILD)) as [->|Hk'].
  { rewrite decide_False by naive_solver. done. }
  case_decide as E.
  - destruct E as [-> ->]. rewrite item_run by done. by rewrite lookup_insert_eq.
  - apply option_eq. intros o'. rewrite !item_run by done.
    destruct (decide (i = id)) as [->|Hne]; [|by rewrite lookup_insert_ne by done].
    rewrite lookup_insert_eq. split.
    + intros [[= <-] Hc]. exfalso. apply E. split; [|done]. destruct k, k'; cbn in *; congruence.
    + intros [Hr Hc]. exfalso. apply E. split; [|done]. specialize (Hold _ Hr). destruct k, k'; cbn in *; congruence.
Qed.

(** ** Builds, runs and grants *)

(** The state of a build says where its work item is. *)
Definition build_phase (b : BuildStatus.t) (x : SourceStatus.t) : Prop :=
  match x with
  | SourceStatus.PENDING => b = BuildStatus.QUEUED
  | SourceStatus.CLAIMED => b ∈ [BuildStatus.STARTING; BuildStatus.RUNNING]
  | SourceStatus.DELIVERED => b = BuildStatus.SUCCEEDED
  | SourceStatus.FAILED => b ∈ [BuildStatus.FAILED; BuildStatus.TIMED_OUT; BuildStatus.CANCELLED]
  | SourceStatus.CANCELLED => False
  end.

Record build_inv (B : gmap uuid Build) (f : items) : Prop := {
  bi_item : ∀ id o, f BUILD id = Some o → ∃ b, B !! ob_target_id o = Some b ∧
    b_organization_id b = ob_organization_id o ∧ b_project_id b = ob_project_id o ∧
    build_phase (b_status b) (ob_status o);
  bi_build : ∀ bid b, B !! bid = Some b → ∃ id o, f BUILD id = Some o ∧ ob_target_id o = bid }.

(** The state of a run that nobody asked to cancel says where its START command is. *)
Definition start_phase (r : RunStatus.t) (x : SourceStatus.t) : Prop :=
  match x with
  | SourceStatus.PENDING => r = RunStatus.QUEUED
  | SourceStatus.CLAIMED => r ∈ [RunStatus.STARTING; RunStatus.RUNNING]
  | SourceStatus.DELIVERED => r ∈ [RunStatus.SUCCEEDED; RunStatus.ABORTED]
  | SourceStatus.FAILED => r ∈ [RunStatus.FAILED; RunStatus.TIMED_OUT]
  | SourceStatus.CANCELLED => False
  end.

Definition uncancelled (r : Run) : Prop := rn_cancel_requested_at r = None.

(** [ck_runs_cancel_deadline], and a run is aborting only on request. *)
Definition run_ok (r : Run) : Prop :=
  match rn_cancel_requested_at r, rn_cancel_deadline_at r with
  | None, None => rn_status r ≠ RunStatus.ABORTING
  | Some t, Some d => t < d
  | _, _ => False
  end.

(** What a START command and the run it is for say of each other. *)
Definition start_ok (o : Outbox) (r : Run) : Prop :=
  uncancelled r → start_phase (rn_status r) (ob_status o).

Definition same_tenant (o : Outbox) (r : Run) : Prop :=
  rn_organization_id r = ob_organization_id o ∧ rn_project_id r = ob_project_id o.

Record run_inv (R : gmap uuid Run) (f : items) : Prop := {
  ri_start : ∀ id o, f RUN_START id = Some o → ∃ r, R !! ob_target_id o = Some r ∧ same_tenant o r ∧ start_ok o r;
  ri_cancel : ∀ id o, f RUN_CANCEL id = Some o → ∃ r, R !! ob_target_id o = Some r ∧ same_tenant o r ∧
    ¬ uncancelled r;
  ri_run : ∀ rid r, R !! rid = Some r → run_ok r ∧
    (uncancelled r → rn_status r = RunStatus.DRAFT ∨
       ∃ id o, f RUN_START id = Some o ∧ ob_target_id o = rid) }.

(** A grant is usable only under an active lease. *)
Definition grant_inv (L : gmap uuid ExecutionLease) (G : gmap uuid SecretInjectionGrant) : Prop :=
  ∀ gid g, G !! gid = Some g → g_status g = GrantStatus.ISSUED →
  ∃ l, L !! g_lease_id g = Some l ∧ active l.

Record inv `{Settings} (c : core) : Prop := {
  inv_leases : lease_inv (cL c) (src c);
  inv_builds : build_inv (cB c) (src c);
  inv_runs : run_inv (cR c) (src c);
  inv_grants : grant_inv (cL c) (cG c);
  inv_events : gap_free (cE c) }.

(** The invariants see the items of a state only pointwise. *)
Definition items_eq : relation items := pointwise_relation _ (pointwise_relation _ eq).
#[export] Instance lease_inv_proper `{Settings} L : Proper (items_eq ==> iff) (lease_inv L).
Proof.
  assert (∀ f g, items_eq f g → lease_inv L f → lease_inv L g) as Himp.
  { intros f g E HI. assert (∀ k i, g k i = f k i) as E' by (intros; symmetry; apply E).
    split; try setoid_rewrite E'; apply HI. }
  intros f g E. split; [by apply Himp|]. apply Himp. intros k i. symmetry. apply E.
Qed.
#[export] Instance build_inv_proper B : Proper (items_eq ==> iff) (build_inv B).
Proof.
  assert (∀ f g, items_eq f g → build_inv B f → build_inv B g) as Himp.
  { intros f g E HI. assert (∀ k i, g k i = f k i) as E' by (intros; symmetry; apply E).
    split; try setoid_rewrite E'; apply HI. }
  intros f g E. split; [by apply Himp|]. apply Himp. intros k i. symmetry. apply E.
Qed.
#[export] Instance run_inv_proper R : Proper (items_eq ==> iff) (run_inv R).
Proof.
  assert (∀ f g, items_eq f g → run_inv R f → run_inv R g) as Himp.
  { intros f g E HI. assert (∀ k i, g k i = f k i) as E' by (intros; symmetry; apply E).
    split; try setoid_rewrite E'; apply HI. }
  intros f g E. split; [by apply Himp|]. apply Himp. intros k i. symmetry. apply E.
Qed.

Section targets.
Implicit Types (f : items) (B : gmap uuid Build) (R : gmap uuid Run).

(** Items of other kinds do not matter to builds. *)
Lemma build_inv_other B f f' : (∀ id, f' BUILD id = f BUILD id) → build_inv B f → build_inv B f'.
Proof. intros E [H1 H2]. split; setoid_rewrite E; done. Qed.

(** A build and its item move together. *)
Lemma build_inv_update B f id o o' b b' :
build_inv B f → (∀ i j o o', f BUILD i = Some o → f BUILD j = Some o' → ob_target_id o = ob_target_id o' → i = j) →
f BUILD id = Some o → B !! ob_target_id o = Some b → same_item o o' →
b_organization_id b' = b_organization_id b → b_project_id b' = b_project_id b →
build_phase (b_status b') (ob_status o') →
build_inv (<[ob_target_id o:=b']> B) (set_item f BUILD id o').
Proof.
intros [H1 H2] Hu Ho Hb Hs Horg Hpr Hph. destruct (H1 _ _ Ho) as (b0 & Hb0 & E1 & E2 & _). simplify_eq. split.
- intros i o1 [(_ & -> & ->)|(Hne & Ho1)]%set_item_Some.
  + exists b'. rewrite (si_target _ _ Hs), (si_organization _ _ Hs), (si_project _ _ Hs), lookup_insert_eq.
    split_and!; congruence.
  + destruct (H1 _ _ Ho1) as (b1 & Hb1 & Hrest). exists b1. rewrite lookup_insert_ne; [done|].
    intros E. apply Hne. split; [done|]. by eapply Hu.
- intros bid b1 Hb1. assert (is_Some (B !! bid)) as [b2 Hb2].
  { apply lookup_insert_Some in Hb1 as [(<- & _)|(_ & ?)]; by eexists. }
  destruct (H2 _ _ Hb2) as (i & o1 & Ho1 & Ht). unfold set_item. exists i.
  case_decide as E; [|by exists o1]. destruct E as [_ ->]. exists o'. split; [done|].
  rewrite (si_target _ _ Hs). congruence.
Qed.

Lemma build_inv_new B f bid b id o :
build_inv B f → B !! bid = None → f BUILD id = None → ob_target_id o = bid →
b_organization_id b = ob_organization_id o → b_project_id b = ob_project_id o →
build_phase (b_status b) (ob_status o) →
build_inv (<[bid:=b]> B) (set_item f BUILD id o).
Proof.
intros [H1 H2] Hb Hid Ht E1 E2 Hph. split.
- intros i o1 [(_ & -> & ->)|(Hne & Ho1)]%set_item_Some.
  + exists b. rewrite Ht, lookup_insert_eq. done.
  + destruct (H1 _ _ Ho1) as (b1 & Hb1 & Hrest). exists b1. rewrite lookup_insert_ne; [done|]. congruence.
- intros i b1 [(<- & <-)|(Hne & Hb1)]%lookup_insert_Some.
  + exists id, o. split; [|done]. unfold set_item. by rewrite decide_True.
  + destruct (H2 _ _ Hb1) as (j & o1 & Ho1 & Ht1). exists j, o1. split; [|done].
    apply set_item_Some. right. split; [|done]. intros [_ ->]. congruence.
Qed.

(** Runs do not see the items of builds. *)
Lemma run_inv_other R f f' : (∀ k id, k ≠ BUILD → f' k id = f k id) → run_inv R f → run_inv R f'.
Proof.
intros E [H1 H2 H3]. split; intros *; rewrite ?E by done; [apply H1|apply H2|].
intros Hr. destruct (H3 _ _ Hr) as [? Hd]. split; [done|]. intros Hc.
destruct (Hd Hc) as [|(i & o & Ho & Ht)]; [by left|right]. exists i, o. by rewrite E.
Qed.

(** A run and its commands move together; other runs and their commands stay. *)
Lemma run_inv_update R f f' rid r r' :
run_inv R f → R !! rid = Some r →
rn_organization_id r' = rn_organization_id r → rn_project_id r' = rn_project_id r →
(uncancelled r' → uncancelled r) → run_ok r' →
(∀ k id o', k ≠ BUILD → f' k id = Some o' → ∃ o, f k id = Some o ∧ same_item o o' ∧
   (ob_target_id o ≠ rid → o' = o)) →
(∀ k id o, k ≠ BUILD → f k id = Some o → is_Some (f' k id)) →
(∀ id o', f' RUN_START id = Some o' → ob_target_id o' = rid → start_ok o' r') →
(uncancelled r' → rn_status r' = RunStatus.DRAFT ∨ ∃ id o, f RUN_START id = Some o ∧ ob_target_id o = rid) →
run_inv (<[rid:=r']> R) f'.
Proof.
intros [H1 H2 H3] Hr Eo Ep Hc Hok Hf Hdom Hst Hhas.
assert (∀ k id o', k ≠ BUILD → f' k id = Some o' → f k id = Some o' ∧ ob_target_id o' ≠ rid ∨
  (ob_target_id o' = rid ∧ ∃ o, f k id = Some o ∧ same_item o o' ∧ ob_target_id o = rid)) as Hcase.
{ intros k id o' Hk Ho'. destruct (Hf _ _ _ Hk Ho') as (o & Ho & Hs & Heq).
  destruct (decide (ob_target_id o = rid)) as [E|E].
  - right. split; [by rewrite (si_target _ _ Hs)|by exists o].
  - rewrite (Heq E). left. done. }
split.
- intros id o' Ho'. destruct (Hcase RUN_START id o') as [(Ho & Hne)|(E & o & Ho & Hs & Et)]; [done..| |].
  + destruct (H1 _ _ Ho) as (r0 & Hr0 & Hrest). exists r0. rewrite lookup_insert_ne by congruence. done.
  + exists r'. rewrite E, lookup_insert_eq. split_and!; [done| |by eapply Hst].
    destruct (H1 _ _ Ho) as (r0 & Hr0 & [E1 E2] & _). rewrite Et in Hr0. simplify_eq. unfold same_tenant.
    rewrite (si_organization _ _ Hs), (si_project _ _ Hs). split; congruence.
- intros id o' Ho'. destruct (Hcase RUN_CANCEL id o') as [(Ho & Hne)|(E & o & Ho & Hs & Et)]; [done..| |].
  + destruct (H2 _ _ Ho) as (r0 & Hr0 & Hrest). exists r0. rewrite lookup_insert_ne by congruence. done.
  + exists r'. rewrite E, lookup_insert_eq. destruct (H2 _ _ Ho) as (r0 & Hr0 & [E1 E2] & Hu).
    rewrite Et in Hr0. simplify_eq. split_and!; [done| |by auto].
    unfold same_tenant. rewrite (si_organization _ _ Hs), (si_project _ _ Hs). split; congruence.
- assert (∀ id o, f RUN_START id = Some o → ∃ o', f' RUN_START id = Some o' ∧ ob_target_id o' = ob_target_id o) as Hkeep.
  { intros id o Ho. destruct (Hdom RUN_START id o) as [o' Ho']; [done..|]. exists o'. split; [done|].
    destruct (Hf RUN_START id o') as (o0 & Ho0 & Hs & _); [done..|]. simplify_eq. apply Hs. }
  assert (∀ i, (∃ id o, f RUN_START id = Some o ∧ ob_target_id o = i) →
    ∃ id o, f' RUN_START id = Some o ∧ ob_target_id o = i) as Hex.
  { intros i (id & o & Ho & <-). destruct (Hkeep _ _ Ho) as (o' & ? & ?). by exists id, o'. }
  intros i r0 [(<- & <-)|(Hne & Hr0)]%lookup_insert_Some.
  + split; [done|]. intros Hu. destruct (Hhas Hu) as [|Hx]; [by left|right; by apply Hex].
  + destruct (H3 _ _ Hr0) as [? Hd]. split; [done|]. intros Hu.
    destruct (Hd Hu) as [|Hx]; [by left|right; by apply Hex].
Qed.
End targets.

(** ** The protocol *)

Definition same_build (b b' : Build) : Prop :=
  b_organization_id b' = b_organization_id b ∧ b_project_id b' = b_project_id b.
Definition same_run_row (r r' : Run) : Prop :=
  rn_organization_id r' = rn_organization_id r ∧ rn_project_id r' = rn_project_id r.
Definition same_cancellation (r r' : Run) : Prop :=
  rn_cancel_requested_at r' = rn_cancel_requested_at r ∧ rn_cancel_deadline_at r' = rn_cancel_deadline_at r.

(** The grants of a closed lease are withdrawn. *)
Definition withdrawn (lid : uuid) (G G' : gmap uuid SecretInjectionGrant) : Prop :=
  ∃ h, G' = update_where (held lid) h G ∧
  ∀ g, g_lease_id (h g) = g_lease_id g ∧ g_status (h g) ≠ GrantStatus.ISSUED.

(** What a lease may become while it is held: its expiry moves forward only when it
    is live at [t0]. *)
Definition touched `{Settings} (t0 : time) (l l' : ExecutionLease) : Prop :=
  same_lease l l' ∧ active l ∧ active l' ∧ (lease_ok l → lease_ok l') ∧
  (live t0 l = true ∨ l_expires_at l' ≤ l_expires_at l).

(** The effect of the fence of a run on its leases, grants and commands. *)
Record fence (rid : uuid) (keepL keepS : option uuid) (now : time) (locked : gset uuid) (c c' : core) : Prop := {
  fe_leases : cL c' = update_where (fences locked rid keepL) (fenced_lease now) (cL c);
  fe_grants : cG c' = update_where (λ _ g, bool_decide (g_lease_id g ∈
      (select (fences locked rid keepL) (cL c)).*1) && bool_decide (g_status g = GrantStatus.ISSUED)) revoke (cG c);
  fe_commands : cRC c' = update_where (λ id o, bool_decide (ob_target_id o = rid)
      && bool_decide (ob_status o ∈ [SourceStatus.PENDING; SourceStatus.CLAIMED])
      && negb (bool_decide (keepS = Some id))) (fenced_command now) (cRC c);
  fe_others : cB c' = cB c ∧ cBO c' = cBO c ∧ cR c' = cR c ∧ cE c' = cE c }.

(** One step of the protocol at time [t0], claims aside.  [T] bounds the runs whose
    rows, commands, leases or events change, [X] the inactive leases that do. *)
Inductive move `{Settings} (t0 : time) (T X : uuid → Prop) (c : core) : core → Prop :=
| mv_event e : T (re_run_id e) → re_sequence e = last_sequence (re_run_id e) (cE c) + 1 →
    move t0 T X c (c <| cE ::= λ l, l ++ [e] |>)
| mv_grant gid g l : cG c !! gid = None → cL c !! g_lease_id g = Some l → active l →
    move t0 T X c (c <| cG ::= <[gid:=g]> |>)
| mv_touch L' :
    (∀ lid l', L' !! lid = Some l' → ∃ l, cL c !! lid = Some l ∧
       (l' = l ∨ touched t0 l l' ∧ ∀ rid, l_run_id l = Some rid → T rid)) →
    (∀ lid l, cL c !! lid = Some l → is_Some (L' !! lid)) →
    move t0 T X c (c <| cL := L' |>)
| mv_status_build lid l bid b b' : cL c !! lid = Some l → active l → l_work_kind l = BUILD →
    l_build_id l = Some bid → cB c !! bid = Some b → same_build b b' →
    b_status b' ∈ [BuildStatus.STARTING; BuildStatus.RUNNING] →
    move t0 T X c (c <| cB ::= <[bid:=b']> |>)
| mv_status_run lid l rid r r' : cL c !! lid = Some l → active l → l_work_kind l = RUN_START →
    l_run_id l = Some rid → T rid → cR c !! rid = Some r → uncancelled r → same_run_row r r' →
    same_cancellation r r' → rn_status r' ∈ [RunStatus.STARTING; RunStatus.RUNNING] →
    move t0 T X c (c <| cR ::= <[rid:=r']> |>)
| mv_cancelled_run rid r r' : T rid → cR c !! rid = Some r → ¬ uncancelled r → same_run_row r r' →
    same_cancellation r r' →
    move t0 T X c (c <| cR ::= <[rid:=r']> |>)
| mv_close_build lid l l' o o' b b' G' : X lid → cL c !! lid = Some l → l_work_kind l = BUILD →
    src c BUILD (l_source_outbox_id l) = Some o → cB c !! ob_target_id o = Some b →
    l_attempt l = ob_attempts o → same_lease l l' → ¬ active l' → (lease_ok l → lease_ok l') →
    same_item o o' → item_ok o' → ob_attempts o' = ob_attempts o → ob_status o' ≠ SourceStatus.CLAIMED →
    same_build b b' → build_phase (b_status b') (ob_status o') → withdrawn lid (cG c) G' →
    move t0 T X c (c <| cL ::= <[lid:=l']> |> <| cBO ::= <[l_source_outbox_id l:=o']> |>
                     <| cB ::= <[ob_target_id o:=b']> |> <| cG := G' |>)
| mv_close_start lid l l' o o' r r' G' : X lid → cL c !! lid = Some l → l_work_kind l = RUN_START →
    src c RUN_START (l_source_outbox_id l) = Some o → cR c !! ob_target_id o = Some r → T (ob_target_id o) →
    l_attempt l = ob_attempts o → same_lease l l' → ¬ active l' → (lease_ok l → lease_ok l') →
    same_item o o' → item_ok o' → ob_attempts o' = ob_attempts o → ob_status o' ≠ SourceStatus.CLAIMED →
    same_run_row r r' → same_cancellation r r' → rn_status r' ≠ RunStatus.ABORTING → start_ok o' r' →
    withdrawn lid (cG c) G' →
    move t0 T X c (c <| cL ::= <[lid:=l']> |> <| cRC ::= <[l_source_outbox_id l:=o']> |>
                     <| cR ::= <[ob_target_id o:=r']> |> <| cG := G' |>)
| mv_close_cancel lid l l' o o' G' : X lid → cL c !! lid = Some l → l_work_kind l = RUN_CANCEL →
    src c RUN_CANCEL (l_source_outbox_id l) = Some o → T (ob_target_id o) →
    l_attempt l = ob_attempts o → same_lease l l' → ¬ active l' → (lease_ok l → lease_ok l') →
    same_item o o' → item_ok o' → ob_attempts o' = ob_attempts o → ob_status o' ≠ SourceStatus.CLAIMED →
    withdrawn lid (cG c) G' →
    move t0 T X c (c <| cL ::= <[lid:=l']> |> <| cRC ::= <[l_source_outbox_id l:=o']> |> <| cG := G' |>)
| mv_fence rid r keepL keepS now locked c' : T rid → cR c !! rid = Some r → ¬ uncancelled r →
    (∀ k sid lid l, keepS = Some sid → cL c !! lid = Some l → active l → l_work_kind l = k → k ≠ BUILD →
       l_source_outbox_id l = sid → keepL = Some lid) →
    fence rid keepL keepS now locked c c' →
    move t0 T X c c'
| mv_new_build bid b id o : cB c !! bid = None → cBO c !! id = None → ob_target_id o = bid →
    b_organization_id b = ob_organization_id o → b_project_id b = ob_project_id o →
    b_status b = BuildStatus.QUEUED → ob_status o = SourceStatus.PENDING → ob_attempts o = 0 →
    move t0 T X c (c <| cB ::= <[bid:=b]> |> <| cBO ::= <[id:=o]> |>)
| mv_new_draft rid r : cR c !! rid = None → T rid → run_ok r → uncancelled r → rn_status r = RunStatus.DRAFT →
    move t0 T X c (c <| cR ::= <[rid:=r]> |>)
| mv_new_run rid r id o : cR c !! rid = None → T rid → cRC c !! id = None → ob_target_id o = rid →
    same_tenant o r → run_ok r → uncancelled r → rn_status r = RunStatus.QUEUED →
    ob_command o = Some START → ob_status o = SourceStatus.PENDING → ob_attempts o = 0 →
    move t0 T X c (c <| cR ::= <[rid:=r]> |> <| cRC ::= <[id:=o]> |>)
| mv_new_cancel id o r : cRC c !! id = None → cR c !! ob_target_id o = Some r → T (ob_target_id o) →
    same_tenant o r → ¬ uncancelled r → ob_command o = Some CANCEL → ob_status o = SourceStatus.PENDING →
    ob_attempts o = 0 →
    (∀ id o', src c RUN_CANCEL id = Some o' → ob_target_id o' ≠ ob_target_id o) →
    move t0 T X c (c <| cRC ::= <[id:=o]> |>)
| mv_cancel_queued rid r r' now : cR c !! rid = Some r → T rid → uncancelled r → same_run_row r r' →
    run_ok r' → ¬ uncancelled r' → 
    rn_status r ∈ [RunStatus.DRAFT; RunStatus.READY; RunStatus.QUEUED] →
    move t0 T X c (c <| cR ::= <[rid:=r']> |>
      <| cRC ::= update_where (λ id o, is_command rid START id o
           && bool_decide (ob_status o = SourceStatus.PENDING))
           (λ o, o <| ob_status := SourceStatus.CANCELLED |> <| ob_updated_at := now |>) |>)
| mv_cancel_active rid r r' : cR c !! rid = Some r → T rid → uncancelled r → same_run_row r r' →
    run_ok r' → ¬ uncancelled r' → rn_status r ∈ RUN_CANCELLABLE_ACTIVE_STATUSES →
    move t0 T X c (c <| cR ::= <[rid:=r']> |>).

Lemma move_mono `{Settings} t0 (T T' X X' : uuid → Prop) c c' :
  (∀ x, T x → T' x) → (∀ x, X x → X' x) → move t0 T X c c' → move t0 T' X' c c'.
Proof.
  intros HT HX Hm. destruct Hm; try (by econstructor; eauto).
  apply mv_touch; [|done]. intros lid l' Hl'. destruct (H0 _ _ Hl') as (l & Hl & [->|[Ht Hr]]); eauto 10.
Qed.

(** ** The protocol preserves the invariant *)

Lemma item_update_where BO RC p h k id :
  k ≠ BUILD → (∀ o, ob_command (h o) = ob_command o) →
  item BO (update_where p h RC) k id = (λ o, if p id o then h o else o) <$> item BO RC k id.
Proof.
  intros Hk Hh. destruct k; [done|..]; cbn; rewrite lookup_update_where; destruct (RC !! id) as [o|]; cbn; try done;
    unfold with_command; destruct (p id o) eqn:E; rewrite ?Hh; case_decide; cbn; by rewrite ?E.
Qed.

Lemma same_item_command o o' k : same_item o o' → ob_command o = kind_command k → ob_command o' = kind_command k.
Proof. intros [] ?. congruence. Qed.

Section preserve.
Context `{Settings} (c : core) (HI : inv c).

Lemma item_insert_run k id o0 o :
k ≠ BUILD → src c k id = Some o0 → same_item o0 o →
items_eq (item (cBO c) (<[id:=o]> (cRC c))) (set_item (src c) k id o).
Proof.
intros Hk Ho Hs k' i. apply item_run in Ho as [Ho Hc]; [|done]. apply item_set_run; [done| |].
- by eapply same_item_command.
- intros o1 Ho1. by simplify_eq.
Qed.

Lemma build_unique i j o o' :
src c BUILD i = Some o → src c BUILD j = Some o' → ob_target_id o = ob_target_id o' → i = j.
Proof using HI. apply (li_target _ _ (inv_leases _ HI)). Qed.

(** The commands of a run other than one START item. *)
Lemma start_unique i j o o' :
src c RUN_START i = Some o → src c RUN_START j = Some o' → ob_target_id o = ob_target_id o' → i = j.
Proof using HI. apply (li_target _ _ (inv_leases _ HI)). Qed.

Lemma withdrawn_grants lid l' G' :
withdrawn lid (cG c) G' → is_Some (cL c !! lid) → grant_inv (<[lid:=l']> (cL c)) G'.
Proof using HI.
intros (h & -> & Hh) Hl gid g Hg Hi. apply lookup_update_where_Some in Hg as (g0 & Hg0 & ->).
destruct (held lid gid g0) eqn:E; [by destruct (Hh g0)|].
destruct (inv_grants _ HI _ _ Hg0 Hi) as (l & Hl0 & Ha). exists l. split; [|done].
rewrite lookup_insert_ne; [done|]. intros ->. unfold held in E.
by rewrite !bool_decide_eq_true_2 in E.
Qed.

Lemma close_build_inv lid l l' o o' b b' G' :
cL c !! lid = Some l → l_work_kind l = BUILD →
src c BUILD (l_source_outbox_id l) = Some o → cB c !! ob_target_id o = Some b →
l_attempt l = ob_attempts o → same_lease l l' → ¬ active l' → (lease_ok l → lease_ok l') →
same_item o o' → item_ok o' → ob_attempts o' = ob_attempts o → ob_status o' ≠ SourceStatus.CLAIMED →
same_build b b' → build_phase (b_status b') (ob_status o') → withdrawn lid (cG c) G' →
inv (c <| cL ::= <[lid:=l']> |> <| cBO ::= <[l_source_outbox_id l:=o']> |>
       <| cB ::= <[ob_target_id o:=b']> |> <| cG := G' |>).
Proof using HI.
intros Hl Hk Ho Hb Ha Hs Hna Hok Hsi Hio Hatt Hnc [E1 E2] Hph Hw.
assert (items_eq (item (<[l_source_outbox_id l:=o']> (cBO c)) (cRC c))
  (set_item (src c) BUILD (l_source_outbox_id l) o')) as Heq by (intros k i; apply item_set_build).
split; cbn.
- rewrite Heq. rewrite <- Hk at 1. eapply lease_inv_close; try done; [apply HI|by rewrite Hk].
- rewrite Heq. eapply build_inv_update; try done; [apply HI|apply build_unique].
- eapply run_inv_other; [|apply HI]. by intros [] id ?.
- eapply withdrawn_grants; [done|by eexists].
- apply HI.
Qed.

Lemma close_start_inv lid l l' o o' r r' G' :
cL c !! lid = Some l → l_work_kind l = RUN_START →
src c RUN_START (l_source_outbox_id l) = Some o → cR c !! ob_target_id o = Some r →
l_attempt l = ob_attempts o → same_lease l l' → ¬ active l' → (lease_ok l → lease_ok l') →
same_item o o' → item_ok o' → ob_attempts o' = ob_attempts o → ob_status o' ≠ SourceStatus.CLAIMED →
same_run_row r r' → same_cancellation r r' → rn_status r' ≠ RunStatus.ABORTING → start_ok o' r' →
withdrawn lid (cG c) G' →
inv (c <| cL ::= <[lid:=l']> |> <| cRC ::= <[l_source_outbox_id l:=o']> |>
       <| cR ::= <[ob_target_id o:=r']> |> <| cG := G' |>).
Proof using HI.
intros Hl Hk Ho Hr Ha Hs Hna Hok Hsi Hio Hatt Hnc [E1 E2] [Ec1 Ec2] Hnab Hst Hw.
pose proof (item_insert_run RUN_START (l_source_outbox_id l) o o' ltac:(done) Ho Hsi) as Heq.
destruct (ri_run _ _ (inv_runs _ HI) _ _ Hr) as [Hrok Hhas].
split; cbn.
- rewrite Heq. rewrite <- Hk at 1. eapply lease_inv_close; try done; [apply HI|by rewrite Hk].
- eapply build_inv_other; [|apply HI]. done.
- rewrite Heq. apply (run_inv_update _ (src c) _ _ r); try done; [apply HI|..].
  + unfold uncancelled. by rewrite Ec1.
  + unfold run_ok in *. rewrite Ec1, Ec2.
    destruct (rn_cancel_requested_at r), (rn_cancel_deadline_at r); done.
  + intros k id o1 Hkb [(-> & -> & ->)|(_ & Ho1)]%set_item_Some; [|by exists o1]. by exists o.
  + intros k id o1 Hkb Ho1. unfold set_item. case_decide; eauto.
  + intros id o1 [(_ & -> & ->)|(Hne & Ho1)]%set_item_Some Ht; [done|].
    exfalso. apply Hne. split; [done|]. by eapply start_unique.
  + intros _. right. by eexists _, o.
- eapply withdrawn_grants; [done|by eexists].
- apply HI.
Qed.

Lemma close_cancel_inv lid l l' o o' G' :
cL c !! lid = Some l → l_work_kind l = RUN_CANCEL →
src c RUN_CANCEL (l_source_outbox_id l) = Some o →
l_attempt l = ob_attempts o → same_lease l l' → ¬ active l' → (lease_ok l → lease_ok l') →
same_item o o' → item_ok o' → ob_attempts o' = ob_attempts o → ob_status o' ≠ SourceStatus.CLAIMED →
withdrawn lid (cG c) G' →
inv (c <| cL ::= <[lid:=l']> |> <| cRC ::= <[l_source_outbox_id l:=o']> |> <| cG := G' |>).
Proof using HI.
intros Hl Hk Ho Ha Hs Hna Hok Hsi Hio Hatt Hnc Hw.
pose proof (item_insert_run RUN_CANCEL (l_source_outbox_id l) o o' ltac:(done) Ho Hsi) as Heq.
split; cbn.
- rewrite Heq. rewrite <- Hk at 1. eapply lease_inv_close; try done; [apply HI|by rewrite Hk].
- eapply build_inv_other; [|apply HI]. done.
- rewrite Heq. destruct (inv_runs _ HI) as [H1 H2 H3]. split.
  + intros id o1 [(? & _)|(_ & Ho1)]%set_item_Some; [done|by apply (H1 id)].
  + intros id o1 [(_ & -> & ->)|(_ & Ho1)]%set_item_Some; [|by apply (H2 id)].
    destruct (H2 _ _ Ho) as (r & Hr & [T1 T2] & Hu). exists r. destruct Hsi. unfold same_tenant.
    split_and!; congruence.
  + intros rid r Hr. destruct (H3 _ _ Hr) as [? Hd]. split; [done|]. intros Hu.
    destruct (Hd Hu) as [|(id & o1 & Ho1 & Ht)]; [by left|right]. exists id, o1. split; [|done].
    apply set_item_Some. right. split; [|done]. by intros [? _].
- eapply withdrawn_grants; [done|by eexists].
- apply HI.
Qed.

(** A change of a run row alone. *)
Lemma run_row_inv rid r r' :
cR c !! rid = Some r → same_run_row r r' → (uncancelled r' → uncancelled r) → run_ok r' →
(∀ id o, src c RUN_START id = Some o → ob_target_id o = rid → start_ok o r') →
(uncancelled r' → rn_status r' = RunStatus.DRAFT ∨
  ∃ id o, src c RUN_START id = Some o ∧ ob_target_id o = rid) →
inv (c <| cR ::= <[rid:=r']> |>).
Proof using HI.
intros Hr [E1 E2] Hu Hok Hst Hhas. split; cbn; try apply HI.
apply (run_inv_update _ (src c) _ _ r); try done; [apply HI|..].
- intros k id o _ Ho. by exists o.
Qed.

Lemma cancelled_run_inv rid r r' :
cR c !! rid = Some r → ¬ uncancelled r → same_run_row r r' → same_cancellation r r' →
inv (c <| cR ::= <[rid:=r']> |>).
Proof using HI.
intros Hr Hu Hs [Ec1 Ec2]. assert (¬ uncancelled r') as Hu' by (unfold uncancelled in *; congruence).
apply (run_row_inv _ r); try done.
- destruct (ri_run _ _ (inv_runs _ HI) _ _ Hr) as [Hok _]. unfold run_ok, uncancelled in *.
  rewrite Ec1, Ec2. destruct (rn_cancel_requested_at r); [|done]. by destruct (rn_cancel_deadline_at r).
- by intros id o _ _ ?.
Qed.

Lemma status_run_inv lid l rid r r' :
cL c !! lid = Some l → active l → l_work_kind l = RUN_START → l_run_id l = Some rid →
cR c !! rid = Some r → uncancelled r → same_run_row r r' → same_cancellation r r' →
rn_status r' ∈ [RunStatus.STARTING; RunStatus.RUNNING] →
inv (c <| cR ::= <[rid:=r']> |>).
Proof using HI.
intros Hl Ha Hk Hrid Hr Hu Hs [Ec1 Ec2] Hst.
destruct (li_lease _ _ (inv_leases _ HI) _ _ Hl) as (_ & o & Ho & Hlf). rewrite Hk in Ho.
assert (ob_target_id o = rid) as Ht.
{ pose proof (lf_target _ _ Hlf) as E. unfold lease_target in E. rewrite Hk, decide_False in E by done. congruence. }
destruct (ri_start _ _ (inv_runs _ HI) _ _ Ho) as (r0 & Hr0 & _ & Hso).
assert (r0 = r) as -> by congruence.
assert (ob_status o = SourceStatus.CLAIMED) as Hc.
{ destruct (lf_active _ _ Hlf Ha) as [_ Hin]. pose proof (Hso Hu) as Hph.
  apply elem_of_cons in Hin as [?|Hin%list_elem_of_singleton]; [done|]. by rewrite Hin in Hph. }
apply (run_row_inv _ r); try done.
- unfold run_ok. rewrite Ec1, Ec2. destruct (ri_run _ _ (inv_runs _ HI) _ _ Hr) as [Hok _].
  unfold run_ok, uncancelled in *. rewrite Hu in *. destruct (rn_cancel_deadline_at r); [done|].
  intros E. rewrite E in Hst. set_solver.
- intros id o1 Ho1 Ht1. assert (id = l_source_outbox_id l) as -> by (eapply start_unique; [done..|congruence]).
  assert (o1 = o) as -> by congruence. intros _. by rewrite Hc.
- intros _. right. by eexists _, o.
Qed.

Lemma status_build_inv lid l bid b b' :
cL c !! lid = Some l → active l → l_work_kind l = BUILD → l_build_id l = Some bid →
cB c !! bid = Some b → same_build b b' → b_status b' ∈ [BuildStatus.STARTING; BuildStatus.RUNNING] →
inv (c <| cB ::= <[bid:=b']> |>).
Proof using HI.
intros Hl Ha Hk Hbid Hb [E1 E2] Hst.
destruct (li_lease _ _ (inv_leases _ HI) _ _ Hl) as (_ & o & Ho & Hlf). rewrite Hk in Ho.
assert (ob_target_id o = bid) as <-.
{ pose proof (lf_target _ _ Hlf) as E. unfold lease_target in E. rewrite Hk, decide_True in E by done. congruence. }
destruct (bi_item _ _ (inv_builds _ HI) _ _ Ho) as (b0 & Hb0 & _ & _ & Hph). simplify_eq.
assert (ob_status o = SourceStatus.CLAIMED) as Hc.
{ destruct (lf_active _ _ Hlf Ha) as [_ Hin].
  apply elem_of_cons in Hin as [?|Hin%list_elem_of_singleton]; [done|]. by rewrite Hin in Hph. }
split; cbn; try apply HI.
assert (items_eq (set_item (src c) BUILD (l_source_outbox_id l) o) (src c)) as <-.
{ intros k i. unfold set_item. case_decide as E; [|done]. destruct E as [-> ->]. done. }
eapply build_inv_update; try done; [apply HI|apply build_unique|]. by rewrite Hc.
Qed.

Lemma touch_inv L' t0 :
(∀ lid l', L' !! lid = Some l' → ∃ l, cL c !! lid = Some l ∧ (l' = l ∨ touched t0 l l')) →
(∀ lid l, cL c !! lid = Some l → is_Some (L' !! lid)) →
inv (c <| cL := L' |>).
Proof using HI.
intros HL Hdom. split; cbn; try apply HI.
- eapply lease_inv_touch; [apply HI| |done]. intros lid l' Hl'. destruct (HL _ _ Hl') as (l & Hl & Hd).
  exists l. destruct Hd as [->|(Hs & Ha & Ha' & Hok & _)]; [done|]. split_and!; try done.
  unfold active in *. congruence.
- intros gid g Hg Hi. destruct (inv_grants _ HI _ _ Hg Hi) as (l & Hl & Ha).
  destruct (Hdom _ _ Hl) as [l' Hl']. exists l'. split; [done|]. destruct (HL _ _ Hl') as (l0 & ? & Hd).
  simplify_eq. destruct Hd as [->|(_ & _ & ? & _)]; done.
Qed.

(** A lease of a run is for one of its commands. *)
Lemma lease_run lid l rid :
cL c !! lid = Some l → l_run_id l = Some rid → l_work_kind l ≠ BUILD ∧
∃ o, src c (l_work_kind l) (l_source_outbox_id l) = Some o ∧ ob_target_id o = rid ∧ lease_of o l.
Proof using HI.
intros Hl Hr. destruct (li_lease _ _ (inv_leases _ HI) _ _ Hl) as (Hok & o & Ho & Hlf).
assert (l_work_kind l ≠ BUILD) as Hk.
{ intros Hk. pose proof (lo_target _ Hok) as Ht. rewrite Hk in Ht. by destruct Ht as [_ ?]; congruence. }
split; [done|]. exists o. split_and!; [done| |done]. pose proof (lf_target _ _ Hlf) as E.
unfold lease_target in E. rewrite decide_False in E by done. congruence.
Qed.

(** The items after a fence: those of other runs, those already settled and the one
  that is kept stay; the rest are cancelled. *)
Definition fenced_item (rid : uuid) (keepS : option uuid) (now : time) (k : work_kind) (id : uuid)
  (o o' : Outbox) : Prop :=
o' = o ∧ (k = BUILD ∨ ob_target_id o ≠ rid ∨
          ob_status o ∉ [SourceStatus.PENDING; SourceStatus.CLAIMED] ∨ keepS = Some id) ∨
k ≠ BUILD ∧ ob_target_id o = rid ∧ o' = fenced_command now o.

Lemma fence_items rid keepL keepS now locked c' k id :
fence rid keepL keepS now locked c c' →
(∀ o', src c' k id = Some o' → ∃ o, src c k id = Some o ∧ same_item o o' ∧
  ob_attempts o' = ob_attempts o ∧ fenced_item rid keepS now k id o o') ∧
(∀ o, src c k id = Some o → is_Some (src c' k id)).
Proof.
intros [_ _ EC (_ & EBO & _)]. rewrite EBO, EC. destruct (decide (k = BUILD)) as [->|Hk].
{ split; [|eauto]. intros o' Ho'. exists o'. split_and!; try done. left. split; [done|by left]. }
rewrite item_update_where by done. split; [|intros o ->; by eexists].
intros o' (o & Ho & ->)%fmap_Some. exists o. split; [done|].
destruct (_ && _ && _) eqn:E; (split_and!; [done|done|]).
- breflect. by right.
- left. split; [done|]. right. apply andb_false_iff in E as [[E|E]%andb_false_iff|E]; breflect; auto.
Qed.

Lemma fence_leases rid keepL keepS now locked c' :
(∀ k sid lid l, keepS = Some sid → cL c !! lid = Some l → active l → l_work_kind l = k → k ≠ BUILD →
   l_source_outbox_id l = sid → keepL = Some lid) →
fence rid keepL keepS now locked c c' → lease_inv (cL c') (src c').
Proof using HI.
intros Hkeep Hfe. pose proof (λ k id, fence_items _ _ _ _ _ _ k id Hfe) as Hf. pose proof (fe_leases _ _ _ _ _ _ _ Hfe) as EL.
apply (lease_inv_pointwise _ _ (inv_leases _ HI)).
- rewrite EL. intros lid l' (l & Hl & ->)%lookup_update_where_Some. exists l. split; [done|].
  destruct (fences _ _ _ _ _) eqn:E; [|done]. unfold fences in E. breflect. split_and!; try done.
  intros []. by split.
- intros k id o' Ho'. destruct (proj1 (Hf _ _) _ Ho') as (o & Ho & Hs & Ea & Hc). exists o.
  split_and!; try done; [|lia]. destruct (li_item _ _ (inv_leases _ HI) _ _ _ Ho). split; [lia|].
  destruct Hc as [[-> _]|(_ & _ & ->)]; [done|by cbn].
- intros k id. apply Hf.
- intros lid l l' o o' Hl Hl' Ha Ho Ho'. rewrite EL, lookup_update_where, Hl in Hl'. cbn in Hl'.
  destruct (proj1 (Hf _ _) _ Ho') as (o0 & Ho0 & _ & -> & Hc). simplify_eq. split; [done|].
  destruct (fences _ _ _ _ _) eqn:E; [by inversion Ha|].
  destruct (li_lease _ _ (inv_leases _ HI) _ _ Hl) as (_ & o1 & Ho1 & Hlf). simplify_eq.
  destruct (lf_active _ _ Hlf Ha) as [_ Hin]. destruct Hc as [[-> _]|(_ & _ & ->)]; [done|]. cbn. set_solver.
- intros k id o' Ho' Hcl. destruct (proj1 (Hf _ _) _ Ho') as (o & Ho & Hs & _ & Hc).
  destruct Hc as [[-> Hwhy]|(_ & _ & ->)]; [|done].
  destruct (li_claimed _ _ (inv_leases _ HI) _ _ _ Ho Hcl) as (lid & l & Hl & Hk & Hsrc & Ha).
  exists lid, l. split; [|done]. rewrite EL, lookup_update_where, Hl. cbn.
  destruct (fences _ _ _ _ _) eqn:E; [|done]. exfalso. unfold fences in E.
  apply andb_prop in E as [[[E1 _]%andb_prop _]%andb_prop E2]. breflect.
  destruct (lease_run lid l rid Hl E1) as (Hkb & o1 & Ho1 & Ht & _).
  rewrite Hk, Hsrc in Ho1. simplify_eq. destruct Hwhy as [?|[?|[Hno|Hk0]]]; try done.
  { rewrite Hcl in Hno. set_solver. }
  by apply E2, (Hkeep (l_work_kind l) (l_source_outbox_id l) lid l).
Qed.

Lemma fence_inv rid r keepL keepS now locked c' :
cR c !! rid = Some r → ¬ uncancelled r →
(∀ k sid lid l, keepS = Some sid → cL c !! lid = Some l → active l → l_work_kind l = k → k ≠ BUILD →
   l_source_outbox_id l = sid → keepL = Some lid) →
fence rid keepL keepS now locked c c' → inv c'.
Proof using HI.
intros Hr Hu Hkeep Hfe. pose proof (λ k id, fence_items _ _ _ _ _ _ k id Hfe) as Hf.
pose proof (fence_leases _ _ _ _ _ _ Hkeep Hfe) as HL. destruct Hfe as [EL EG EC (EB & EBO & ER & EE)].
split; [done|..].
- rewrite EB. eapply build_inv_other; [|apply HI]. intros id. by rewrite EBO.
- rewrite ER. rewrite <- (insert_id (cR c) rid r) by done.
  apply (run_inv_update _ (src c) _ _ r); try done; [apply HI| | | |].
  + by destruct (ri_run _ _ (inv_runs _ HI) _ _ Hr).
  + intros k id o' _ Ho'. destruct (proj1 (Hf _ _) _ Ho') as (o & Ho & Hs & _ & Hc). exists o.
    split_and!; try done. intros Hne. by destruct Hc as [[-> _]|(_ & ? & _)].
  + intros k id o _. apply Hf.
  + by intros id o' _ _ ?.
- rewrite EL, EG. intros gid g (g0 & Hg0 & ->)%lookup_update_where_Some Hi.
  destruct (_ && _) eqn:E; [done|]. destruct (inv_grants _ HI _ _ Hg0 Hi) as (l & Hl & Ha).
  exists l. split; [|done]. rewrite lookup_update_where, Hl. cbn. destruct (fences _ _ _ _ _) eqn:Ef; [|done].
  exfalso. rewrite (bool_decide_eq_true_2 (g_status g0 = _)), andb_true_r in E by done. breflect. apply E.
  apply list_elem_of_fmap. exists (g_lease_id g0, l). split; [done|]. by apply elem_of_select.
- rewrite EE. apply HI.
Qed.

Lemma refuse_inv sid o o' r r' :
src c RUN_START sid = Some o → ob_status o = SourceStatus.PENDING →
cR c !! ob_target_id o = Some r → same_item o o' → ob_attempts o' = ob_attempts o + 1 →
ob_status o' = SourceStatus.FAILED → same_run_row r r' → same_cancellation r r' →
rn_status r' = RunStatus.FAILED →
inv (c <| cRC ::= <[sid:=o']> |> <| cR ::= <[ob_target_id o:=r']> |>).
Proof using HI.
intros Ho Hp Hr Hsi Hatt Hst [E1 E2] [Ec1 Ec2] Hrs.
pose proof (item_insert_run RUN_START sid o o' ltac:(done) Ho Hsi) as Heq.
destruct (ri_run _ _ (inv_runs _ HI) _ _ Hr) as [Hrok Hhas].
destruct (li_item _ _ (inv_leases _ HI) _ _ _ Ho) as [Hb Hpe]. specialize (Hpe Hp).
split; cbn; try apply HI.
- rewrite Heq. eapply lease_inv_drop; try done; [apply HI| |lia|congruence].
  split; [lia|congruence].
- eapply build_inv_other; [|apply HI]. done.
- rewrite Heq. apply (run_inv_update _ (src c) _ _ r); try done; [apply HI|..].
  + unfold uncancelled. by rewrite Ec1.
  + unfold run_ok in *. rewrite Ec1, Ec2, Hrs. destruct (rn_cancel_requested_at r), (rn_cancel_deadline_at r); done.
  + intros k id o1 Hkb [(-> & -> & ->)|(_ & Ho1)]%set_item_Some; [|by exists o1]. by exists o.
  + intros k id o1 Hkb Ho1. unfold set_item. case_decide; eauto.
  + intros id o1 [(_ & -> & ->)|(Hne & Ho1)]%set_item_Some Ht.
    * intros _. rewrite Hst, Hrs. cbn. set_solver.
    * exfalso. apply Hne. split; [done|]. by eapply start_unique.
  + intros _. right. by eexists _, o.
Qed.

Lemma fresh_item o : ob_attempts o = 0 → ob_status o = SourceStatus.PENDING → 1 ≤ worker_max_attempts → item_ok o.
Proof. intros E _ Hm. split; [lia|]. intros _. lia. Qed.

Lemma new_build_inv bid b id o :
1 ≤ worker_max_attempts →
cB c !! bid = None → cBO c !! id = None → ob_target_id o = bid →
b_organization_id b = ob_organization_id o → b_project_id b = ob_project_id o →
b_status b = BuildStatus.QUEUED → ob_status o = SourceStatus.PENDING → ob_attempts o = 0 →
inv (c <| cB ::= <[bid:=b]> |> <| cBO ::= <[id:=o]> |>).
Proof using HI.
intros Hm Hb Hid Ht E1 E2 Ebs Eos Ea.
assert (items_eq (item (<[id:=o]> (cBO c)) (cRC c)) (set_item (src c) BUILD id o)) as Heq
  by (intros k i; apply item_set_build).
split; cbn; try apply HI.
- rewrite Heq. apply lease_inv_new; [apply HI|done|by apply fresh_item|congruence|].
  intros i o' Ho'. destruct (bi_item _ _ (inv_builds _ HI) _ _ Ho') as (b' & Hb' & _). congruence.
- rewrite Heq. eapply build_inv_new; try done; [apply HI|]. by rewrite Eos.
- eapply run_inv_other; [|apply HI]. by intros [] i ?.
Qed.

Lemma item_new_run k id o :
k ≠ BUILD → cRC c !! id = None → ob_command o = kind_command k →
items_eq (item (cBO c) (<[id:=o]> (cRC c))) (set_item (src c) k id o) ∧ src c k id = None.
Proof.
intros Hk Hid Hc. split.
- intros k' i. apply item_set_run; [done..|]. intros o0. by rewrite Hid.
- destruct (src c k id) as [o1|] eqn:E; [|done]. apply item_run in E as [E _]; [|done]. congruence.
Qed.

Lemma new_run_inv rid r id o :
1 ≤ worker_max_attempts →
cR c !! rid = None → cRC c !! id = None → ob_target_id o = rid → same_tenant o r → run_ok r →
uncancelled r → rn_status r = RunStatus.QUEUED → ob_command o = Some START →
ob_status o = SourceStatus.PENDING → ob_attempts o = 0 →
inv (c <| cR ::= <[rid:=r]> |> <| cRC ::= <[id:=o]> |>).
Proof using HI.
intros Hm Hr Hid Ht Hten Hok Hu Ers Ec Eos Ea.
destruct (item_new_run RUN_START id o) as [Heq Hnone]; [done..|].
destruct (inv_runs _ HI) as [H1 H2 H3]. split; cbn; try apply HI.
- rewrite Heq. apply lease_inv_new; [apply HI|done|by apply fresh_item|congruence|].
  intros i o' Ho'. destruct (H1 _ _ Ho') as (r' & Hr' & _). congruence.
- eapply build_inv_other; [|apply HI]. done.
- rewrite Heq. split.
  + intros i o1 [(_ & -> & ->)|(Hne & Ho1)]%set_item_Some.
    * exists r. rewrite Ht, lookup_insert_eq. split_and!; try done. intros _. by rewrite Eos.
    * destruct (H1 _ _ Ho1) as (r1 & Hr1 & Hrest). exists r1. rewrite lookup_insert_ne; [done|]. congruence.
  + intros i o1 [(? & _)|(Hne & Ho1)]%set_item_Some; [done|].
    destruct (H2 _ _ Ho1) as (r1 & Hr1 & Hrest). exists r1. rewrite lookup_insert_ne; [done|]. congruence.
  + intros i r1 [(<- & <-)|(Hne & Hr1)]%lookup_insert_Some.
    * split; [done|]. intros _. right. exists id, o. split; [|done]. unfold set_item. by rewrite decide_True.
    * destruct (H3 _ _ Hr1) as [? Hd]. split; [done|]. intros Hu1.
      destruct (Hd Hu1) as [|(j & o1 & Ho1 & Ht1)]; [by left|right]. exists j, o1. split; [|done].
      apply set_item_Some. right. split; [|done]. intros [_ ->]. congruence.
Qed.

Lemma new_draft_inv rid r :
cR c !! rid = None → run_ok r → uncancelled r → rn_status r = RunStatus.DRAFT →
inv (c <| cR ::= <[rid:=r]> |>).
Proof using HI.
intros Hr Hok Hu Ers. destruct (inv_runs _ HI) as [H1 H2 H3]. split; cbn; try apply HI. split.
- intros i o1 Ho1. destruct (H1 _ _ Ho1) as (r1 & Hr1 & Hrest). exists r1.
  rewrite lookup_insert_ne; [done|]. congruence.
- intros i o1 Ho1. destruct (H2 _ _ Ho1) as (r1 & Hr1 & Hrest). exists r1.
  rewrite lookup_insert_ne; [done|]. congruence.
- intros i r1 [(<- & <-)|(Hne & Hr1)]%lookup_insert_Some; [split; [done|by left]|by apply H3].
Qed.

Lemma new_cancel_inv id o r :
1 ≤ worker_max_attempts →
cRC c !! id = None → cR c !! ob_target_id o = Some r → same_tenant o r → ¬ uncancelled r →
ob_command o = Some CANCEL → ob_status o = SourceStatus.PENDING → ob_attempts o = 0 →
(∀ id o', src c RUN_CANCEL id = Some o' → ob_target_id o' ≠ ob_target_id o) →
inv (c <| cRC ::= <[id:=o]> |>).
Proof using HI.
intros Hm Hid Hr Hten Hu Ec Eos Ea Hno. destruct (item_new_run RUN_CANCEL id o) as [Heq Hnone]; [done..|].
destruct (inv_runs _ HI) as [H1 H2 H3]. split; cbn; try apply HI.
- rewrite Heq. apply lease_inv_new; [apply HI|done|by apply fresh_item|congruence|done].
- eapply build_inv_other; [|apply HI]. done.
- rewrite Heq. split.
  + intros i o1 [(? & _)|(Hne & Ho1)]%set_item_Some; [done|by apply (H1 i)].
  + intros i o1 [(_ & -> & ->)|(Hne & Ho1)]%set_item_Some; [by exists r|by apply (H2 i)].
  + intros i r1 Hr1. destruct (H3 _ _ Hr1) as [? Hd]. split; [done|]. intros Hu1.
    destruct (Hd Hu1) as [|(j & o1 & Ho1 & Ht1)]; [by left|right]. exists j, o1. split; [|done].
    apply set_item_Some. right. split; [|done]. by intros [? _].
Qed.

Lemma cancel_active_inv rid r r' :
cR c !! rid = Some r → uncancelled r → same_run_row r r' → run_ok r' → ¬ uncancelled r' →
rn_status r ∈ RUN_CANCELLABLE_ACTIVE_STATUSES →
inv (c <| cR ::= <[rid:=r']> |>).
Proof using HI.
intros Hr Hu Hs Hok Hu' Hst. apply (run_row_inv _ r); try done. by intros id o _ _ ?.
Qed.

Definition cancelled_start (rid : uuid) (now : time) : gmap uuid Outbox → gmap uuid Outbox :=
update_where (λ id o, is_command rid START id o && bool_decide (ob_status o = SourceStatus.PENDING))
  (λ o, o <| ob_status := SourceStatus.CANCELLED |> <| ob_updated_at := now |>).

Lemma cancelled_start_items rid now k id :
(∀ o', item (cBO c) (cancelled_start rid now (cRC c)) k id = Some o' → ∃ o, src c k id = Some o ∧
  same_item o o' ∧ ob_attempts o' = ob_attempts o ∧
  (o' = o ∧ (k = RUN_START → ob_target_id o = rid → ob_status o ≠ SourceStatus.PENDING) ∨
   k = RUN_START ∧ ob_target_id o = rid ∧ ob_status o = SourceStatus.PENDING ∧
   ob_status o' = SourceStatus.CANCELLED)) ∧
(∀ o, src c k id = Some o → is_Some (item (cBO c) (cancelled_start rid now (cRC c)) k id)).
Proof.
unfold cancelled_start. destruct (decide (k = BUILD)) as [->|Hk].
{ split; [|eauto]. intros o' Ho'. exists o'. split_and!; try done. by left. }
rewrite item_update_where by done. split; [|intros o ->; by eexists].
intros o' (o & Ho & ->)%fmap_Some. exists o. split; [done|].
apply item_run in Ho as [_ Hcmd]; [|done]. unfold is_command.
destruct (_ && _) eqn:E; (split_and!; [done|done|]).
- breflect. right. destruct k; cbn in *; [done| |congruence]. done.
- left. split; [done|]. intros -> Ht Hp. cbn in Hcmd. by rewrite Ht, Hcmd, Hp, !bool_decide_eq_true_2 in E.
Qed.

Lemma cancel_queued_inv rid r r' now :
cR c !! rid = Some r → uncancelled r → same_run_row r r' → run_ok r' → ¬ uncancelled r' →
inv (c <| cR ::= <[rid:=r']> |> <| cRC ::= cancelled_start rid now |>).
Proof using HI.
intros Hr Hu [E1 E2] Hok Hu'. pose proof (cancelled_start_items rid now) as Hf. split; cbn; try apply HI.
- apply (lease_inv_pointwise _ _ (inv_leases _ HI)).
  + intros lid l Hl. by exists l.
  + intros k id o' Ho'. destruct (proj1 (Hf _ _) _ Ho') as (o & Ho & Hs & Ea & Hc). exists o.
    split_and!; try done; [|lia]. destruct (li_item _ _ (inv_leases _ HI) _ _ _ Ho). split; [lia|].
    destruct Hc as [[-> _]|(_ & _ & _ & ->)]; done.
  + intros k id. apply Hf.
  + intros lid l l' o o' Hl Hl' Ha Ho Ho'. simplify_eq.
    destruct (proj1 (Hf _ _) _ Ho') as (o0 & Ho0 & _ & -> & Hc). simplify_eq. split; [done|].
    destruct (li_lease _ _ (inv_leases _ HI) _ _ Hl) as (_ & o1 & Ho1 & Hlf). simplify_eq.
    destruct (lf_active _ _ Hlf Ha) as [_ Hin]. destruct Hc as [[-> _]|(_ & _ & _ & ->)]; [done|]. set_solver.
  + intros k id o' Ho' Hcl. destruct (proj1 (Hf _ _) _ Ho') as (o & Ho & Hs & _ & Hc).
    destruct Hc as [[-> _]|(_ & _ & _ & Hx)]; [|congruence]. by apply (li_claimed _ _ (inv_leases _ HI) _ _ o).
- eapply build_inv_other; [|apply HI]. done.
- apply (run_inv_update _ (src c) _ _ r); try done; [apply HI| | |].
  + intros k id o' _ Ho'. destruct (proj1 (Hf _ _) _ Ho') as (o & Ho & Hs & _ & Hc). exists o.
    split_and!; try done. intros Hne. by destruct Hc as [[-> _]|(_ & ? & _)].
  + intros k id o _. apply Hf.
  + by intros id o' _ _ ?.
Qed.

(** Every step of the protocol preserves the invariant. *)
Lemma move_inv t0 T X c' : 1 ≤ worker_max_attempts → move t0 T X c c' → inv c'.
Proof using HI.
intros Hm Hmv. destruct Hmv.
- split; cbn; try apply HI. apply gap_free_append; [apply HI|done].
- split; cbn; try apply HI. intros i g0 [(<- & <-)|(_ & Hg)]%lookup_insert_Some Hi; [by exists l|].
  by apply (inv_grants _ HI _ _ Hg).
- apply (touch_inv L' t0); [|done]. intros lid l' Hl'. destruct (H0 _ _ Hl') as (l & Hl & Hd). exists l.
  split; [done|]. destruct Hd as [->|[? _]]; auto.
- by eapply status_build_inv.
- by eapply status_run_inv.
- by eapply cancelled_run_inv.
- by eapply close_build_inv.
- by eapply close_start_inv.
- by eapply close_cancel_inv.
- by eapply fence_inv.
- by apply new_build_inv.
- by apply new_draft_inv.
- by apply new_run_inv.
- by eapply new_cancel_inv.
- by eapply cancel_queued_inv.
- by eapply cancel_active_inv.
Qed.
End preserve.

(** ** Claims *)

(** A pending item, the lease it is claimed under and the item afterwards. *)
Record admits `{Settings} (c : core) (k : work_kind) (sid : uuid) (o o' : Outbox) (lid : uuid)
    (l : ExecutionLease) : Prop := {
  ad_item : src c k sid = Some o;
  ad_pending : ob_status o = SourceStatus.PENDING;
  ad_fresh : cL c !! lid = None;
  ad_same : same_item o o';
  ad_claimed : ob_status o' = SourceStatus.CLAIMED;
  ad_attempts : ob_attempts o' = ob_attempts o + 1;
  ad_kind : l_work_kind l = k;
  ad_source : l_source_outbox_id l = sid;
  ad_active : active l;
  ad_attempt : l_attempt l = ob_attempts o';
  ad_ok : lease_ok l;
  ad_lease : lease_of o' l }.

Inductive claim `{Settings} (c : core) (k : work_kind) (lid : uuid) (l : ExecutionLease) : core → Prop :=
| cl_build sid o o' b b' : k = BUILD → admits c k sid o o' lid l → cB c !! ob_target_id o = Some b →
    same_build b b' → b_status b' = BuildStatus.STARTING →
    claim c k lid l (c <| cBO ::= <[sid:=o']> |> <| cL ::= <[lid:=l]> |> <| cB ::= <[ob_target_id o:=b']> |>)
| cl_start sid o o' r r' : k = RUN_START → admits c k sid o o' lid l → cR c !! ob_target_id o = Some r →
    same_run_row r r' → same_cancellation r r' → rn_status r = RunStatus.QUEUED →
    rn_status r' = RunStatus.STARTING →
    claim c k lid l (c <| cRC ::= <[sid:=o']> |> <| cL ::= <[lid:=l]> |> <| cR ::= <[ob_target_id o:=r']> |>)
| cl_cancel sid o o' r : k = RUN_CANCEL → admits c k sid o o' lid l → cR c !! ob_target_id o = Some r →
    rn_status r = RunStatus.ABORTING →
    claim c k lid l (c <| cRC ::= <[sid:=o']> |> <| cL ::= <[lid:=l]> |>).

(** A pending START command is refused: its run fails without a lease. *)
Inductive refusal (c : core) : core → Prop :=
| refused sid o o' r r' : src c RUN_START sid = Some o → ob_status o = SourceStatus.PENDING →
    cR c !! ob_target_id o = Some r → same_item o o' → ob_attempts o' = ob_attempts o + 1 →
    ob_status o' = SourceStatus.FAILED → same_run_row r r' → same_cancellation r r' →
    rn_status r' = RunStatus.FAILED →
    refusal c (c <| cRC ::= <[sid:=o']> |> <| cR ::= <[ob_target_id o:=r']> |>).

Section claims.
Context `{Settings} (c : core) (HI : inv c).

Lemma refusal_inv c' : refusal c c' → inv c'.
Proof using HI. intros []. by eapply refuse_inv. Qed.

Lemma claim_leases k sid o o' lid l :
admits c k sid o o' lid l → lease_inv (<[lid:=l]> (cL c)) (set_item (src c) k sid o').
Proof using HI. intros []. eapply lease_inv_claim; try done. apply HI. Qed.

Lemma claim_grants lid l : cL c !! lid = None → grant_inv (<[lid:=l]> (cL c)) (cG c).
Proof using HI.
intros Hn gid g Hg Hi. destruct (inv_grants _ HI _ _ Hg Hi) as (l0 & Hl0 & Ha). exists l0.
split; [|done]. rewrite lookup_insert_ne; [done|]. congruence.
Qed.

Lemma claim_inv k lid l c' : claim c k lid l c' → inv c'.
Proof using HI.
intros [sid o o' b b' -> Had Hb [E1 E2] Hst|sid o o' r r' -> Had Hr [E1 E2] [Ec1 Ec2] Hq Hst|sid o o' r -> Had Hr Hab].
- assert (items_eq (item (<[sid:=o']> (cBO c)) (cRC c)) (set_item (src c) BUILD sid o')) as Heq
    by (intros k i; apply item_set_build).
  split; cbn; try apply HI.
  + rewrite Heq. by apply (claim_leases _ _ o).
  + rewrite Heq. destruct Had. eapply build_inv_update; try done; [apply HI|by apply build_unique|].
    rewrite ad_claimed0, Hst. cbn. set_solver.
  + eapply run_inv_other; [|apply HI]. by intros [] i ?.
  + apply claim_grants, Had.
- pose proof (item_insert_run c RUN_START sid o o' ltac:(done) (ad_item _ _ _ _ _ _ _ Had) (ad_same _ _ _ _ _ _ _ Had)) as Heq.
  destruct (ri_run _ _ (inv_runs _ HI) _ _ Hr) as [Hrok Hhas].
  split; cbn; try apply HI.
  + rewrite Heq. by apply (claim_leases _ _ o).
  + eapply build_inv_other; [|apply HI]. done.
  + rewrite Heq. destruct Had. apply (run_inv_update _ (src c) _ _ r); try done; [apply HI|..].
    * unfold uncancelled. by rewrite Ec1.
    * unfold run_ok in *. rewrite Ec1, Ec2, Hst. destruct (rn_cancel_requested_at r), (rn_cancel_deadline_at r); done.
    * intros k id o1 Hkb [(-> & -> & ->)|(_ & Ho1)]%set_item_Some; [by exists o|by exists o1].
    * intros k id o1 Hkb Ho1. unfold set_item. case_decide; eauto.
    * intros id o1 [(_ & -> & ->)|(Hne & Ho1)]%set_item_Some Ht.
      { intros _. rewrite ad_claimed0, Hst. cbn. set_solver. }
      exfalso. apply Hne. split; [done|]. by eapply (start_unique c HI).
    * intros _. right. by eexists _, o.
  + apply claim_grants, Had.
- pose proof (item_insert_run c RUN_CANCEL sid o o' ltac:(done) (ad_item _ _ _ _ _ _ _ Had) (ad_same _ _ _ _ _ _ _ Had)) as Heq.
  destruct (ri_run _ _ (inv_runs _ HI) _ _ Hr) as [Hrok Hhas].
  split; cbn; try apply HI.
  + rewrite Heq. by apply (claim_leases _ _ o).
  + eapply build_inv_other; [|apply HI]. done.
  + rewrite Heq. rewrite <- (insert_id (cR c) (ob_target_id o) r) by done. destruct Had.
    assert (¬ uncancelled r) as Hu.
    { intros Hu. unfold run_ok, uncancelled in *. rewrite Hu in Hrok. by destruct (rn_cancel_deadline_at r). }
    apply (run_inv_update _ (src c) _ _ r); try done; [apply HI|..].
    * intros k id o1 Hkb [(-> & -> & ->)|(_ & Ho1)]%set_item_Some; [by exists o|by exists o1].
    * intros k id o1 Hkb Ho1. unfold set_item. case_decide; eauto.
    * intros id o1 [(? & _)|(Hne & Ho1)]%set_item_Some Ht; [done|].
      destruct (ri_start _ _ (inv_runs _ HI) _ _ Ho1) as (r0 & Hr0 & _ & Hso).
      assert (r0 = r) as -> by congruence. done.
  + apply claim_grants, Had.
Qed.
End claims.

(** ** What a step leaves alone *)

(** How one row of the lease table evolves in a step that is no claim. *)
Definition lease_step (t0 : time) (X : uuid → Prop) (lid : uuid) (x x' : option ExecutionLease) : Prop :=
  match x, x' with
  | Some l, Some l' => same_lease l l' ∧ (¬ X lid → ¬ active l → l' = l) ∧ (active l' → active l) ∧
      (∀ t, t0 ≤ t → live t l' = true → live t0 l = true)
  | None, None => True
  | _, _ => False
  end.

Lemma live_true t l : live t l = true ↔ active l ∧ t < l_expires_at l ∧ t < l_deadline_at l.
Proof. unfold live, active. rewrite !andb_true_iff, bool_decide_eq_true, !Z.ltb_lt. tauto. Qed.

Lemma live_mono t t' l : t ≤ t' → live t' l = true → live t l = true.
Proof. rewrite !live_true. intros ? (? & ? & ?). split_and!; [done|lia..]. Qed.

Lemma lease_step_refl t0 X lid x : lease_step t0 X lid x x.
Proof. destruct x as [l|]; [|done]. split_and!; try done. intros t Ht. by apply live_mono. Qed.

Lemma lease_step_trans t0 X lid x y z :
  lease_step t0 X lid x y → lease_step t0 X lid y z → lease_step t0 X lid x z.
Proof.
  destruct x as [l0|], y as [l1|], z as [l2|]; try done.
  intros (Hs1 & Hf1 & Ha1 & Hl1) (Hs2 & Hf2 & Ha2 & Hl2). split_and!; [by etrans| |by auto|].
  - intros Hx Hn. rewrite (Hf2 Hx), (Hf1 Hx Hn); [done|]. rewrite (Hf1 Hx Hn). done.
  - intros t Ht Hlive. apply (Hl1 t0); [lia|]. by apply (Hl2 t).
Qed.

Lemma lease_step_touched `{Settings} t0 X lid l l' : touched t0 l l' → lease_step t0 X lid (Some l) (Some l').
Proof.
  intros (Hs & Ha & Ha' & _ & Hx). split_and!; [done| |done|]; [by intros _ ?|].
  intros t Ht (_ & He & Hd)%live_true. destruct Hx as [|Hx]; [done|]. apply live_true.
  rewrite (sl_deadline _ _ Hs) in Hd. split_and!; [done|lia..].
Qed.

Lemma lease_step_closed t0 (X : uuid → Prop) lid l l' :
  (X lid ∨ active l) → same_lease l l' → ¬ active l' → lease_step t0 X lid (Some l) (Some l').
Proof.
  intros HX Hs Hn. split_and!; [done| |done|].
  - intros Hnx Hna. by destruct HX.
  - intros t _ (Ha & _)%live_true. done.
Qed.

Lemma lease_step_insert t0 X lid l l' (L : gmap uuid ExecutionLease) i :
  L !! lid = Some l → lease_step t0 X lid (Some l) (Some l') → lease_step t0 X i (L !! i) (<[lid:=l']> L !! i).
Proof.
  intros Hl Hs. destruct (decide (i = lid)) as [->|Hne]; [by rewrite Hl, lookup_insert_eq|].
  rewrite lookup_insert_ne by done. apply lease_step_refl.
Qed.

Lemma move_lease `{Settings} t0 T X c c' lid :
  move t0 T X c c' → lease_step t0 X lid (cL c !! lid) (cL c' !! lid).
Proof.
  intros Hmv. destruct Hmv; cbn; try apply lease_step_refl.
  - destruct (cL c !! lid) as [l|] eqn:Hl.
    + destruct (H1 _ _ Hl) as [l' Hl']. destruct (H0 _ _ Hl') as (l0 & ? & Hd). rewrite Hl'. simplify_eq.
      destruct Hd as [->|[Ht _]]; [apply lease_step_refl|by apply lease_step_touched].
    + destruct (L' !! lid) as [l'|] eqn:Hl'; [|done]. destruct (H0 _ _ Hl') as (l0 & ? & _). congruence.
  - eapply lease_step_insert; [done|]. apply lease_step_closed; auto.
  - eapply lease_step_insert; [done|]. apply lease_step_closed; auto.
  - eapply lease_step_insert; [done|]. apply lease_step_closed; auto.
  - rewrite (fe_leases _ _ _ _ _ _ _ H4), lookup_update_where. destruct (cL c !! lid) as [l|]; [|done].
    cbn [fmap option_fmap option_map].
    destruct (fences _ _ _ _ _) eqn:E; [|apply lease_step_refl]. unfold fences in E. breflect.
    apply lease_step_closed; [by right|done|done].
Qed.

(** Everything recorded about one run: its row, commands, leases and events. *)
Record same_run (rid : uuid) (c c' : core) : Prop := {
  sr_row : cR c' !! rid = cR c !! rid;
  sr_commands : ∀ id o, ob_target_id o = rid → cRC c' !! id = Some o ↔ cRC c !! id = Some o;
  sr_leases : ∀ lid l, l_run_id l = Some rid → cL c' !! lid = Some l ↔ cL c !! lid = Some l;
  sr_events : run_log rid (cE c') = run_log rid (cE c) }.
#[export] Instance same_run_preorder rid : PreOrder (same_run rid).
Proof.
  split; [by split|]. intros c1 c2 c3 [H1 H2 H3 H4] [H5 H6 H7 H8]. split; [congruence|..|congruence].
  - intros id o Ho. by rewrite H6, H2.
  - intros lid l Hl. by rewrite H7, H3.
Qed.

Lemma lookup_insert_iff {A} (P : A → Prop) (m : gmap uuid A) k x x' :
  m !! k = Some x → ¬ P x → ¬ P x' → ∀ i y, P y → <[k:=x']> m !! i = Some y ↔ m !! i = Some y.
Proof.
  intros Hk Hx Hx' i y Hy. destruct (decide (i = k)) as [->|Hne].
  - rewrite lookup_insert_eq, Hk. split; intros [= ->]; done.
  - by rewrite lookup_insert_ne.
Qed.
Lemma lookup_insert_new_iff {A} (P : A → Prop) (m : gmap uuid A) k x' :
  m !! k = None → ¬ P x' → ∀ i y, P y → <[k:=x']> m !! i = Some y ↔ m !! i = Some y.
Proof.
  intros Hk Hx' i y Hy. destruct (decide (i = k)) as [->|Hne].
  - rewrite lookup_insert_eq, Hk. split; [intros [= ->]; done|done].
  - by rewrite lookup_insert_ne.
Qed.
Lemma lookup_update_where_iff {A} (P : A → Prop) (m : gmap uuid A) p f :
  (∀ i x, p i x = true → ¬ P x ∧ ¬ P (f x)) → ∀ i y, P y → update_where p f m !! i = Some y ↔ m !! i = Some y.
Proof.
  intros Hp i y Hy. rewrite lookup_update_where_Some. split.
  - intros (x & Hx & ->). destruct (p i x) eqn:E; [|done]. by destruct (Hp _ _ E).
  - intros Hm. exists y. split; [done|]. destruct (p i y) eqn:E; [|done]. by destruct (Hp _ _ E).
Qed.

Section locality.
Context `{Settings} (c : core) (HI : inv c).

(** The lease of a work item of another run. *)
Lemma lease_other lid l o rid :
cL c !! lid = Some l → src c (l_work_kind l) (l_source_outbox_id l) = Some o → l_work_kind l ≠ BUILD →
ob_target_id o ≠ rid → l_run_id l ≠ Some rid.
Proof using HI.
intros Hl Ho Hk Hne E. destruct (lease_run c HI lid l rid Hl E) as (_ & o0 & Ho0 & Ht & _). congruence.
Qed.

Lemma build_lease_other lid l rid : cL c !! lid = Some l → l_work_kind l = BUILD → l_run_id l ≠ Some rid.
Proof using HI.
intros Hl Hk E. by destruct (lease_run c HI lid l rid Hl E) as (? & _).
Qed.

Lemma commands_update k sid o o' rid :
k ≠ BUILD → src c k sid = Some o → same_item o o' → ob_target_id o ≠ rid →
∀ id o1, ob_target_id o1 = rid → <[sid:=o']> (cRC c) !! id = Some o1 ↔ cRC c !! id = Some o1.
Proof.
intros Hk Ho Hs Hne. apply item_run in Ho as [Ho _]; [|done].
eapply (lookup_insert_iff (λ o1, ob_target_id o1 = rid)); [done..|]. by rewrite (si_target _ _ Hs).
Qed.

Lemma leases_update lid l l' rid :
cL c !! lid = Some l → same_lease l l' → l_run_id l ≠ Some rid →
∀ i l1, l_run_id l1 = Some rid → <[lid:=l']> (cL c) !! i = Some l1 ↔ cL c !! i = Some l1.
Proof.
intros Hl Hs Hne. eapply (lookup_insert_iff (λ l1, l_run_id l1 = Some rid)); [done..|]. by rewrite (sl_run _ _ Hs).
Qed.

Lemma move_same_run t0 T X c' rid : ¬ T rid → move t0 T X c c' → same_run rid c c'.
Proof using HI.
intros HT Hmv.
assert (∀ rid', T rid' → rid' ≠ rid) as Hne by (intros ? ? ->; done).
destruct Hmv; split; cbn; try done; try (rewrite lookup_insert_ne by (by apply Hne); done).
- unfold run_log. rewrite filter_app, filter_cons_False, filter_nil, app_nil_r; [done|]. by apply Hne.
- intros lid l1 Hr1. split.
  + intros Hl'. destruct (H0 _ _ Hl') as (l & Hl & [->|[Ht Hx]]); [done|].
    destruct HT. apply Hx. destruct Ht as (Hs & _). by rewrite <- (sl_run _ _ Hs).
  + intros Hl. destruct (H1 _ _ Hl) as [l' Hl']. destruct (H0 _ _ Hl') as (l & Hl0 & Hd). simplify_eq.
    destruct Hd as [->|[_ Hx]]; [done|]. destruct HT. by apply Hx.
- eapply leases_update; [done..|]. by eapply build_lease_other.
- eapply (commands_update RUN_START); [done..|]. by apply Hne.
- eapply leases_update; [done..|]. eapply lease_other; [done|by rewrite H2|by rewrite H2|]. by apply Hne.
- eapply (commands_update RUN_CANCEL); [done..|]. by apply Hne.
- eapply leases_update; [done..|]. eapply lease_other; [done|by rewrite H2|by rewrite H2|]. by apply Hne.
- by destruct H4 as [_ _ _ (_ & _ & -> & _)].
- rewrite (fe_commands _ _ _ _ _ _ _ H4). apply (lookup_update_where_iff (λ o1, ob_target_id o1 = rid)).
  intros i o E. breflect. split; [intros Ht|cbn; intros Ht]; apply (Hne rid0); congruence.
- rewrite (fe_leases _ _ _ _ _ _ _ H4). apply (lookup_update_where_iff (λ l1, l_run_id l1 = Some rid)).
  intros i l E. unfold fences in E. breflect. split; [intros Ht|cbn; intros Ht]; apply (Hne rid0); congruence.
- by destruct H4 as [_ _ _ (_ & _ & _ & ->)].
- eapply (lookup_insert_new_iff (λ o1, ob_target_id o1 = rid)); [done|]. rewrite H3. by apply Hne.
- eapply (lookup_insert_new_iff (λ o1, ob_target_id o1 = rid)); [done|]. by apply Hne.
- apply (lookup_update_where_iff (λ o1, ob_target_id o1 = rid)).
  intros i o E. unfold is_command in E. breflect. split; [intros Ht|cbn; intros Ht]; apply (Hne rid0); congruence.
Qed.

(** A claim concerns the run whose command was pending. *)
Lemma claim_same_run k lid l c' rid :
claim c k lid l c' →
(∀ k id o, k ≠ BUILD → src c k id = Some o → ob_target_id o = rid → ob_status o ≠ SourceStatus.PENDING) →
same_run rid c c'.
Proof using HI.
intros Hcl Hnp.
assert (∀ k sid o o' lid l, k ≠ BUILD → admits c k sid o o' lid l → ob_target_id o ≠ rid) as Hne.
{ intros k1 sid o o' i l1 Hk [Ho Hp _ _ _ _ _ _ _ _ _ _] Ht.
  by destruct (Hnp _ _ _ Hk Ho Ht). }
assert (∀ k sid o o' lid l, admits c k sid o o' lid l → (k ≠ BUILD → ob_target_id o ≠ rid) →
  l_run_id l ≠ Some rid) as Hrun.
{ intros k1 sid o o' i l1 Had Ht E. pose proof (lo_target _ (ad_ok _ _ _ _ _ _ _ Had)) as Hlt.
  pose proof (lf_target _ _ (ad_lease _ _ _ _ _ _ _ Had)) as Et. unfold lease_target in Et.
  rewrite (si_target _ _ (ad_same _ _ _ _ _ _ _ Had)) in Et. rewrite (ad_kind _ _ _ _ _ _ _ Had) in Hlt, Et.
  destruct k1; [destruct Hlt as [_ Hlt]; congruence|..];
    (rewrite decide_False in Et by done; apply Ht; [done|congruence]). }
destruct Hcl as [sid o o' b b' -> Had|sid o o' r r' -> Had|sid o o' r -> Had]; split; cbn; try done.
- eapply (lookup_insert_new_iff (λ l1, l_run_id l1 = Some rid)); [apply Had|]. by eapply Hrun.
- rewrite lookup_insert_ne; [done|]. by apply (Hne RUN_START sid o o' lid l).
- eapply (commands_update RUN_START); [done|apply Had|apply Had|]. by apply (Hne RUN_START sid o o' lid l).
- eapply (lookup_insert_new_iff (λ l1, l_run_id l1 = Some rid)); [apply Had|]. eapply Hrun; [done|]. intros ?. by eapply Hne.
- eapply (commands_update RUN_CANCEL); [done|apply Had|apply Had|]. by apply (Hne RUN_CANCEL sid o o' lid l).
- eapply (lookup_insert_new_iff (λ l1, l_run_id l1 = Some rid)); [apply Had|]. eapply Hrun; [done|]. intros ?. by eapply Hne.
Qed.

Lemma refusal_same_run c' rid :
refusal c c' →
(∀ k id o, k ≠ BUILD → src c k id = Some o → ob_target_id o = rid → ob_status o ≠ SourceStatus.PENDING) →
same_run rid c c'.
Proof.
intros [sid o o' r r' Ho Hp Hr Hs _ _ _ _ _] Hnp.
assert (ob_target_id o ≠ rid) as Hne.
{ intros Ht. by destruct (Hnp RUN_START _ _ ltac:(done) Ho Ht). }
split; cbn; try done.
- by rewrite lookup_insert_ne.
- by eapply (commands_update RUN_START).
Qed.

(** No step but a claim or a refusal counts an attempt. *)
Lemma move_attempts t0 T X c' k id o :
move t0 T X c c' → src c k id = Some o → ∃ o', src c' k id = Some o' ∧ ob_attempts o' = ob_attempts o.
Proof.
intros Hmv Ho. destruct Hmv; try (by exists o).
- assert (item (<[l_source_outbox_id l:=o']> (cBO c)) (cRC c) k id =
    set_item (src c) BUILD (l_source_outbox_id l) o' k id) as E by apply item_set_build.
  cbn. rewrite E. unfold set_item. case_decide as Ec; [|by exists o]. destruct Ec as [-> ->]. simplify_eq. by exists o'.
- cbn. rewrite (item_insert_run c RUN_START _ o0 o' ltac:(done) H3 H10 k id). unfold set_item.
  case_decide as Ec; [|by exists o]. destruct Ec as [-> ->]. simplify_eq. by exists o'.
- cbn. rewrite (item_insert_run c RUN_CANCEL _ o0 o' ltac:(done) H3 H9 k id). unfold set_item.
  case_decide as Ec; [|by exists o]. destruct Ec as [-> ->]. simplify_eq. by exists o'.
- destruct (fence_items c rid keepL keepS now locked c' k id H4) as [Hf Hdom].
  destruct (Hdom _ Ho) as [o' Ho']. destruct (Hf _ Ho') as (o0 & ? & _ & Ea & _). simplify_eq. by exists o'.
- cbn. rewrite item_set_build. unfold set_item. case_decide as Ec; [|by exists o].
  destruct Ec as [-> ->]. cbn in Ho. congruence.
- destruct (item_new_run c RUN_START id0 o0) as [Heq Hn]; [done..|]. cbn. rewrite (Heq k id).
  unfold set_item. case_decide as Ec; [|by exists o]. destruct Ec as [-> ->]. congruence.
- destruct (item_new_run c RUN_CANCEL id0 o0) as [Heq Hn]; [done..|]. cbn. rewrite (Heq k id).
  unfold set_item. case_decide as Ec; [|by exists o]. destruct Ec as [-> ->]. congruence.
- destruct (cancelled_start_items c rid now k id) as [Hf Hdom].
  destruct (Hdom _ Ho) as [o' Ho']. destruct (Hf _ Ho') as (o0 & ? & _ & Ea & _). simplify_eq. by exists o'.
Qed.

(** A requested cancellation is never changed or withdrawn. *)
Definition run_step (r r' : Run) : Prop :=
same_run_row r r' ∧ (¬ uncancelled r → same_cancellation r r').

Lemma run_step_refl r : run_step r r.
Proof. by split. Qed.
Lemma run_step_uncancelled r r' : run_step r r' → ¬ uncancelled r → ¬ uncancelled r'.
Proof. intros [_ Hc] Hu. destruct (Hc Hu) as [E _]. unfold uncancelled in *. congruence. Qed.
Lemma run_step_trans r1 r2 r3 : run_step r1 r2 → run_step r2 r3 → run_step r1 r3.
Proof.
intros H1 H2. pose proof (run_step_uncancelled _ _ H1) as Hu. destruct H1 as [[] H1], H2 as [[] H2].
split; [split; congruence|]. intros Hr. destruct (H1 Hr), (H2 (Hu Hr)). split; congruence.
Qed.

Lemma move_run t0 T X c' rid r :
move t0 T X c c' → cR c !! rid = Some r → ∃ r', cR c' !! rid = Some r' ∧ run_step r r'.
Proof.
assert (∀ rid' r0 r', cR c !! rid' = Some r0 → run_step r0 r' → cR c !! rid = Some r →
  ∃ r1, <[rid':=r']> (cR c) !! rid = Some r1 ∧ run_step r r1) as Hins.
{ intros rid' r0 r' Hr0 Hs Hr. destruct (decide (rid' = rid)) as [->|Hne].
  - exists r'. rewrite lookup_insert_eq. split; [done|]. congruence.
  - exists r. rewrite lookup_insert_ne by done. split; [done|apply run_step_refl]. }
assert (∀ rid' r', cR c !! rid' = None → cR c !! rid = Some r →
  ∃ r1, <[rid':=r']> (cR c) !! rid = Some r1 ∧ run_step r r1) as Hnew.
{ intros rid' r' Hr0 Hr. exists r. rewrite lookup_insert_ne by congruence. split; [done|apply run_step_refl]. }
intros Hmv Hr. destruct Hmv; try (exists r; split; [done|apply run_step_refl]); cbn;
  try (by eapply Hnew); try (by eapply Hins; [done|by split|]);
  try (by eapply Hins; [done|split; [done|by intros []]|]).
destruct H4 as [_ _ _ (_ & _ & -> & _)]. exists r. split; [done|apply run_step_refl].
Qed.
End locality.
