(* ===== verification/ExecutionSteps.v ===== *)
(** The operations of the execution plane follow the lease protocol: each operation is
    a sequence of its steps, so that its invariant holds in every reachable state. *)

From S2P Require Import Prelude PyVal Json PyUuid PyTime QueueProtocol Idempotency Pagination.
From S2P Require Import EventProtocol RunEvents Recovery ExecutionPlane LeaseProtocol.
(** ** Transactions as steps of the protocol *)

(** A settled run: nothing is left to happen to it. *)
Record quiescent (rid : uuid) (c : core) : Prop := {
  qu_terminal : ∃ r, cR c !! rid = Some r ∧ rn_status r ∈ RUN_TERMINAL_STATUSES;
  qu_leases : ∀ lid l, cL c !! lid = Some l → l_run_id l = Some rid → ¬ active l;
  qu_commands : ∀ k id o, k ≠ BUILD → src c k id = Some o → ob_target_id o = rid → ob_status o ≠ SourceStatus.PENDING }.

Lemma quiescent_same rid c c' : same_run rid c c' → quiescent rid c → quiescent rid c'.
Proof.
  intros [Er Ec El _] [Ht Hl Hc]. split; [by rewrite Er|..].
  - intros lid l Hl' Hr. apply (Hl lid); [|done]. by apply El.
  - intros k id o Hk [Ho' Hcm]%item_run Ht'; [|done]. apply (Hc k id o Hk); [|done]. apply item_run; [done|].
    split; [by apply Ec|done].
Qed.

(** A finished run that nobody asked to cancel is settled. *)
Lemma terminal_quiescent `{Settings} c rid r :
  inv c → cR c !! rid = Some r → rn_status r ∈ RUN_TERMINAL_STATUSES → uncancelled r → quiescent rid c.
Proof.
  intros HI Hr Ht Hu. unfold RUN_TERMINAL_STATUSES in Ht.
  assert (∀ id o, src c RUN_START id = Some o → ob_target_id o = rid →
    ob_status o ∉ [SourceStatus.PENDING; SourceStatus.CLAIMED; SourceStatus.CANCELLED]) as Hstart.
  { intros id o Ho Et. destruct (ri_start _ _ (inv_runs _ HI) _ _ Ho) as (r' & Hr' & _ & Hph). rewrite Et in Hr'.
    assert (r' = r) as -> by congruence. specialize (Hph Hu).
    destruct (rn_status r), (ob_status o); cbn in Hph; try done; try congruence;
      rewrite ?elem_of_cons, ?elem_of_nil in *; naive_solver. }
  assert (∀ id o, src c RUN_CANCEL id = Some o → ob_target_id o ≠ rid) as Hcancel.
  { intros id o Ho Et. destruct (ri_cancel _ _ (inv_runs _ HI) _ _ Ho) as (r' & Hr' & _ & Hn). rewrite Et in Hr'.
    congruence. }
  split; [by exists r|..].
  - intros lid l Hl Hrid Ha. destruct (lease_run c HI lid l rid Hl Hrid) as (Hk & o & Ho & Et & Hlf).
    destruct (lf_active _ _ Hlf Ha) as [_ Hin]. destruct (l_work_kind l); [done|..].
    + apply (Hstart _ _ Ho Et). set_solver.
    + by apply (Hcancel _ _ Ho).
  - intros [] id o Hk Ho Et Hp; [done| |by apply (Hcancel _ _ Ho)].
    apply (Hstart _ _ Ho Et). rewrite Hp. set_solver.
Qed.

Definition busy (c : core) (rid : uuid) : Prop := ¬ quiescent rid c.
Definition held_in (c : core) (lid : uuid) : Prop := ∃ l, cL c !! lid = Some l ∧ active l.

Section work.
Context `{Settings} (t0 : time) (c0 : core) (HI0 : inv c0) (Hset : 1 ≤ worker_max_attempts).

(** [c] is reached from [c0] by steps that touch busy runs and held leases only. *)
Definition work (c : core) : Prop := rtc (move t0 (busy c0) (held_in c0)) c0 c.

Lemma work_refl : work c0.
Proof. apply rtc_refl. Qed.
Lemma work_step c c' : work c → move t0 (busy c0) (held_in c0) c c' → work c'.
Proof. apply rtc_r. Qed.

Lemma work_spec c : work c → inv c ∧
  (∀ lid, lease_step t0 (held_in c0) lid (cL c0 !! lid) (cL c !! lid)) ∧
  (∀ rid, quiescent rid c0 → same_run rid c0 c) ∧
  (∀ k id o, src c0 k id = Some o → ∃ o', src c k id = Some o' ∧ ob_attempts o' = ob_attempts o).
Proof using HI0 Hset.
unfold work. revert c. apply rtc_ind_r.
{ split_and!; [done|intros; apply lease_step_refl|done|eauto]. }
intros c c' Hw Hm (HI & Hl & Hq & Ha). split_and!.
- by eapply move_inv.
- intros lid. eapply lease_step_trans; [apply Hl|]. by eapply move_lease.
- intros rid Hqu. etrans; [by apply Hq|]. eapply move_same_run; [done| |done]. by intros Hb.
- intros k id o Ho. destruct (Ha _ _ _ Ho) as (o1 & Ho1 & E1).
  destruct (move_attempts _ _ _ _ _ _ _ _ Hm Ho1) as (o2 & Ho2 & E2). exists o2. split; [done|congruence].
Qed.

Lemma work_inv c : work c → inv c.
Proof using HI0 Hset. apply work_spec. Qed.

(** What happens at [c] happens to runs and leases that were busy and held. *)
Lemma work_busy c rid : work c → busy c rid → busy c0 rid.
Proof using HI0 Hset.
intros Hw Hb Hq. apply Hb. destruct (work_spec c Hw) as (_ & _ & Hs & _).
eapply quiescent_same; [|done]. by apply Hs.
Qed.
Lemma busy_new c rid : work c → cR c !! rid = None → busy c0 rid.
Proof using HI0 Hset. intros Hw Hn. apply (work_busy c); [done|]. intros [(r & Hr & _) _ _]. congruence. Qed.
Lemma busy_status c rid r : work c → cR c !! rid = Some r → rn_status r ∉ RUN_TERMINAL_STATUSES → busy c0 rid.
Proof using HI0 Hset. intros Hw Hr Hn. apply (work_busy c); [done|]. intros [(r' & Hr' & ?) _ _]. by simplify_eq. Qed.
Lemma busy_lease c lid l rid : work c → cL c !! lid = Some l → active l → l_run_id l = Some rid → busy c0 rid.
Proof using HI0 Hset. intros Hw Hl Ha Hr. apply (work_busy c); [done|]. intros [_ Hq _]. by apply (Hq lid l). Qed.
Lemma busy_command c k id o : work c → k ≠ BUILD → src c k id = Some o → ob_status o = SourceStatus.PENDING → busy c0 (ob_target_id o).
Proof using HI0 Hset. intros Hw Hk Ho Hp. apply (work_busy c); [done|]. intros [_ _ Hq]. by apply (Hq k id o). Qed.
Lemma work_held c lid l : work c → cL c !! lid = Some l → active l → held_in c0 lid.
Proof using HI0 Hset.
intros Hw Hl Ha. destruct (work_spec c Hw) as (_ & Hs & _). specialize (Hs lid). rewrite Hl in Hs.
destruct (cL c0 !! lid) as [l0|] eqn:E; [|done]. destruct Hs as (_ & _ & Hs & _). exists l0. auto.
Qed.

Lemma work_run c rid r :
work c → cR c0 !! rid = Some r → ∃ r', cR c !! rid = Some r' ∧ run_step r r'.
Proof using HI0 Hset.
intros Hw Hr. revert c Hw. apply (rtc_ind_r (λ c, ∃ r', cR c !! rid = Some r' ∧ run_step r r')).
{ exists r. split; [done|apply run_step_refl]. }
intros c c' Hw Hm (r1 & Hr1 & Hs1).
destruct (move_run _ _ _ _ _ _ _ Hm Hr1) as (r2 & Hr2 & Hs2).
exists r2. split; [done|by eapply run_step_trans].
Qed.

(** ** Events *)

Definition logged (rid : uuid) (l l' : list RunEvent) : Prop :=
rtc (λ l l', ∃ e, re_run_id e = rid ∧ re_sequence e = last_sequence rid l + 1 ∧ l' = l ++ [e]) l l'.

Lemma logged_work rid c l' :
work c → busy c0 rid → logged rid (cE c) l' → work (c <| cE := l' |>).
Proof.
intros Hw Hb Hl. remember (cE c) as l eqn:El. revert c Hw El.
induction Hl as [l|l l1 l2 (e & Er & Es & ->) Hl IH]; intros c Hw ->; [by destruct c|].
assert (work (c <| cE ::= λ l, l ++ [e] |>)) as Hw1.
{ eapply work_step; [done|]. constructor; [by rewrite Er|by rewrite Er]. }
exact (IH _ Hw1 eq_refl).
Qed.
End work.

(** Only the event log changes, by events of one run. *)
Definition only_logged (rid : uuid) (c c' : core) : Prop := ∃ l', logged rid (cE c) l' ∧ c' = c <| cE := l' |>.

Lemma only_logged_trans rid c1 c2 c3 : only_logged rid c1 c2 → only_logged rid c2 c3 → only_logged rid c1 c3.
Proof. intros (l1 & H1 & ->) (l2 & H2 & ->). exists l2. split; [unfold logged in *; by etrans|done]. Qed.
Lemma only_logged_refl rid c : only_logged rid c c.
Proof. exists (cE c). split; [apply rtc_refl|by destruct c]. Qed.

(** ** States of a transaction *)

(** What the plane leaves alone: the projects, and the concurrency of each worker. *)
Record framed (s s' : db) : Prop := {
  fr_workers : ∀ wid w, workers s !! wid = Some w → ∃ w', workers s' !! wid = Some w' ∧
    wk_max_concurrency w' = wk_max_concurrency w;
  fr_projects : projects s' = projects s }.
#[export] Instance framed_preorder : PreOrder framed.
Proof.
  split; [intros s; split; eauto|]. intros s1 s2 s3 [H1 E1] [H2 E2]. split; [|congruence].
  intros wid w (w' & Hw' & E)%H1. apply H2 in Hw' as (w'' & ? & ?). exists w''. split; congruence.
Qed.
Lemma framed_same s s' : workers s' = workers s → projects s' = projects s → framed s s'.
Proof. intros Ew Ep. split; [rewrite Ew; eauto|done]. Qed.

Section events.
Context `{CaseFold, PyRepr}.

Lemma wp_log_event rid r ty p s (Q : () → db → Prop) :
(∀ s', only_logged rid (core_of s) (core_of s') → framed s s' → Q () s') →
wp (log_event rid r ty p) Q s.
Proof.
intros HQ. unfold log_event. do 2 wp_step. wp_step. apply wp_lift. intros l' Hl'.
apply append_run_event_inv in Hl' as (q & ->). wp_step. apply HQ; [|by apply framed_same].
eexists. split; [|reflexivity]. apply rtc_once. eexists. split; [|split; [|reflexivity]]; done.
Qed.

Lemma wp_audit org pid at' ai act rt ri rq d s (Q : () → db → Prop) :
(∀ s', core_of s' = core_of s → framed s s' → Q () s') →
wp (system_audit org pid at' ai act rt ri rq d) Q s.
Proof. intros HQ. unfold system_audit. wp_step. apply HQ; [done|by apply framed_same]. Qed.
End events.

Section refine.
Context `{Entropy, Sha256, CaseFold, PyRepr, IsoForms, Settings, HmacSha256, TokenSource}.
Context `{UnicodeDecimal, ClaimSealing, ArtifactChecks}.

Section tracking.
Context (t0 : time) (s0 : db) (HI0 : inv (core_of s0)) (Hset : 1 ≤ worker_max_attempts).
Implicit Types (s : db).
Abbreviation c0 := (core_of s0).
Abbreviation step := (move t0 (busy c0) (held_in c0)).

(** A state the transaction that began in [s0] reaches. *)
Record tracks s : Prop := {
tr_work : work t0 c0 (core_of s);
tr_frame : framed s0 s }.

Lemma tracks_start : tracks s0.
Proof. split; [apply work_refl|done]. Qed.
Lemma tracks_same s s' : tracks s → core_of s' = core_of s → framed s s' → tracks s'.
Proof. intros [Hw Hf] E Hf'. split; [by rewrite E|by etrans]. Qed.
Lemma tracks_step s s' : tracks s → step (core_of s) (core_of s') → framed s s' → tracks s'.
Proof. intros [Hw Hf] Hm Hf'. split; [by eapply work_step|by etrans]. Qed.

(** Steps on the tables with events of a run logged on the way. *)
Lemma tracks_logged s s' c1 rid l' :
tracks s → rtc step (core_of s) c1 → busy c0 rid → logged rid (cE c1) l' →
core_of s' = c1 <| cE := l' |> → framed s s' → tracks s'.
Proof.
intros [Hw Hf] Hm Hb Hl E Hf'. split; [|by etrans]. rewrite E. apply (logged_work t0 c0 rid); [|done..].
unfold work in *. by etrans.
Qed.
Lemma tracks_events s s' rid :
tracks s → busy c0 rid → only_logged rid (core_of s) (core_of s') → framed s s' → tracks s'.
Proof. intros Ht Hb (l' & Hl & E) Hf. by eapply (tracks_logged s s' (core_of s)); [|apply rtc_refl|..]. Qed.

(** A lease held when the transaction began: its row and its work item now. *)
Lemma held_current s lid :
tracks s → held_in c0 lid → ∃ l o, leases s !! lid = Some l ∧
  src (core_of s) (l_work_kind l) (l_source_outbox_id l) = Some o ∧ lease_ok l ∧ lease_of o l ∧
  l_attempt l = ob_attempts o ∧ ∀ rid, l_run_id l = Some rid → busy c0 rid.
Proof using HI0 Hset.
intros [Hw _] (l0 & Hl0 & Ha). destruct (work_spec _ _ HI0 Hset _ Hw) as (HI & Hs & _ & Hat).
specialize (Hs lid). rewrite Hl0 in Hs. destruct (cL (core_of s) !! lid) as [l|] eqn:Hl; [|done].
destruct Hs as (Hsame & _). destruct (li_lease _ _ (inv_leases _ HI) _ _ Hl) as (Hok & o & Ho & Hlf).
exists l, o. split_and!; try done.
- destruct (li_lease _ _ (inv_leases _ HI0) _ _ Hl0) as (_ & o0 & Ho0 & Hlf0).
  destruct (lf_active _ _ Hlf0 Ha) as [E0 _]. destruct (Hat _ _ _ Ho0) as (o1 & Ho1 & E1).
  rewrite <- (sl_kind _ _ Hsame), <- (sl_source _ _ Hsame) in Ho1. rewrite (sl_attempt _ _ Hsame). congruence.
- intros rid Hr. eapply (busy_lease t0 c0 HI0 Hset c0); [apply work_refl|exact Hl0|done|].
  by rewrite <- (sl_run _ _ Hsame).
Qed.

Lemma held_same s s' lid l l' :
tracks s → tracks s' → held_in c0 lid → leases s !! lid = Some l → leases s' !! lid = Some l' → same_lease l l'.
Proof using HI0 Hset.
intros [Hw _] [Hw' _] (l0 & Hl0 & _) Hl Hl'.
destruct (work_spec _ _ HI0 Hset _ Hw) as (_ & Hs & _), (work_spec _ _ HI0 Hset _ Hw') as (_ & Hs' & _).
specialize (Hs lid). specialize (Hs' lid). rewrite Hl0 in Hs, Hs'. cbn in Hs, Hs'. rewrite Hl in Hs. rewrite Hl' in Hs'.
destruct Hs as [[] _], Hs' as [[] _]. split; congruence.
Qed.

(** ** Cancellation *)

Lemma wp_fence locked rid now keepL keepS s (Q : Z → db → Prop) :
(∀ n s', fence rid keepL keepS now locked (core_of s) (core_of s') → framed s s' → Q n s') →
wp (fence_cancelled_run_leases locked rid now keepL keepS) Q s.
Proof.
intros HQ. unfold fence_cancelled_run_leases. wp_steps. apply HQ; [by split|by apply framed_same].
Qed.

(** The commands of a run are settled. *)
Definition settled_commands (rid : uuid) (c : core) : Prop :=
∀ id o, cRC c !! id = Some o → ob_target_id o = rid →
  ob_status o ∉ [SourceStatus.PENDING; SourceStatus.CLAIMED].

Lemma fence_settles rid keepL now locked c c' :
fence rid keepL None now locked c c' → settled_commands rid c'.
Proof.
intros [_ _ EC _] id o'. rewrite EC. intros (o & Ho & ->)%lookup_update_where_Some.
destruct (_ && _ && _) eqn:E; [by cbn; set_solver|]. intros Ht.
rewrite andb_true_r, bool_decide_eq_true_2 in E by done. cbn in E. by breflect.
Qed.

(** Converging a run whose cancellation was requested. *)
Record converged (rid : uuid) (b : bool) s s' : Prop := {
cv_tracks : tracks s';
cv_commands : settled_commands rid (core_of s');
cv_run : ∃ r', runs s' !! rid = Some r' ∧ ¬ uncancelled r' ∧
  (b = true → rn_status r' = RunStatus.ABORTED) ∧ (b = false → rn_status r' ≠ RunStatus.ABORTING) }.

Lemma converge_spec locked rid r now rq reason s :
tracks s → runs s !! rid = Some r → ¬ uncancelled r → busy c0 rid →
wp (converge_cancelled_run locked rid now rq reason) (λ b s', converged rid b s s') s.
Proof using HI0 Hset.
intros Hw Hr Hu Hb. unfold converge_cancelled_run. wp_step. apply wp_fence. intros n s1 Hf Hfr.
pose proof (fe_others _ _ _ _ _ _ _ Hf) as (_ & _ & Er & _). cbn in Er.
assert (tracks s1) as Hw1.
{ eapply tracks_step; [done| |done]. eapply (mv_fence _ _ _ _ rid r None None); done. }
pose proof (fence_settles _ _ _ _ _ _ Hf) as Hsc.
assert (runs s1 !! rid = Some r) as Hr1 by congruence.
do 2 wp_step. rewrite Hr1. rewrite bool_decide_eq_false_2 by done.
case_bool_decide as Ha; [|case_bool_decide as Hab]; cbn [negb]; [wp_step; split; [done..|exists r; naive_solver]| |wp_step; split; [done..|exists r; naive_solver]].
cbv zeta. unfold update_run, log_status. do 2 wp_step. set (s1' := s1 <| runs ::= _ |>) in *.
wp_step. apply wp_log_event. intros s2 Hl2 Hf2.
wp_step. apply wp_log_event. intros s3 Hl3 Hf3. wp_step. apply wp_audit. intros s4 E4 Hf4. wp_step.
assert (tracks s1') as Hw1'.
{ eapply tracks_step; [exact Hw1| |by apply framed_same].
  by apply (mv_cancelled_run _ _ _ (core_of s1) rid r). }
assert (only_logged rid (core_of s1') (core_of s4)) as Hl by (rewrite E4; by eapply only_logged_trans).
assert (framed s1' s4) by (do 2 (etrans; [eassumption|]); done).
split.
- by eapply tracks_events.
- destruct Hl as (l' & _ & ->). exact Hsc.
- exists (aborted_run now r). destruct Hl as (l' & _ & E). change (runs s4) with (cR (core_of s4)).
  rewrite E. cbn. by rewrite lookup_insert_eq.
Qed.

(** ** Recovery of expired leases *)

Lemma sources_item s k id o : src (core_of s) k id = Some o → sources k s !! id = Some o.
Proof. destruct k; cbn; [done|..]; rewrite bind_Some; intros (o' & ? & [-> _]%with_command_Some); done. Qed.

Lemma wp_source l o s (Q : option Outbox → db → Prop) :
src (core_of s) (l_work_kind l) (l_source_outbox_id l) = Some o → Q (Some o) s → wp (source_for_lease l) Q s.
Proof. intros Ho HQ. apply wp_gets. by rewrite (sources_item _ _ _ _ Ho). Qed.
Lemma wp_find_build bid b s (Q : option Build → db → Prop) :
builds s !! bid = Some b → Q (Some b) s → wp (find_build (Some bid)) Q s.
Proof. intros Hb HQ. apply wp_gets. cbn. by rewrite Hb. Qed.
Lemma wp_find_run rid r s (Q : option (uuid * Run) → db → Prop) :
runs s !! rid = Some r → Q (Some (rid, r)) s → wp (find_run (Some rid)) Q s.
Proof. intros Hr HQ. apply wp_gets. cbn. by rewrite Hr. Qed.

Lemma retry_attempt q oc a b : execution_retry_allowed q oc a worker_max_attempts b = true → a < worker_max_attempts.
Proof. unfold execution_retry_allowed. intros Hr. by breflect. Qed.

Lemma item_ok_closed o o' :
item_ok o → ob_attempts o' = ob_attempts o → (ob_status o' = SourceStatus.PENDING → ob_attempts o < worker_max_attempts) →
item_ok o'.
Proof. intros [Hb _] E Hp. split; rewrite E; done. Qed.

Lemma wp_next_attempt retry now a s (Q : option time → db → Prop) :
(∀ next, (retry = true ↔ is_Some next) → Q next s) → wp (next_attempt retry now a) Q s.
Proof.
intros HQ. unfold next_attempt. destruct retry.
- wp_step. apply wp_lift. intros t _. wp_step. by apply HQ.
- wp_step. apply HQ. split; [done|by intros []].
Qed.

(** The rows a lost lease leaves behind. *)
Lemma requeued_same retry next now fc o : same_item o (requeued retry next now fc o).
Proof. by split. Qed.
Lemma expired_same t fc l : same_lease l (expired_lease t fc l).
Proof. by split. Qed.
Lemma expired_inactive t fc l : ¬ active (expired_lease t fc l).
Proof. unfold active, expired_lease. cbn. by case_match. Qed.
Lemma lease_ok_same_window l l' :
same_lease l l' → l_expires_at l' = l_expires_at l → lease_ok l → lease_ok l'.
Proof.
intros Hs Ee [?????]. split; rewrite ?Ee, ?(sl_attempt _ _ Hs), ?(sl_claimed _ _ Hs),
  ?(sl_deadline _ _ Hs), ?(sl_kind _ _ Hs), ?(sl_build _ _ Hs), ?(sl_run _ _ Hs); done.
Qed.
Lemma withdrawn_expired lid G : withdrawn lid G (update_where (held lid) (λ g, g <| g_status := GrantStatus.EXPIRED |>) G).
Proof. eexists. split; [done|]. by intros g. Qed.

Lemma reset_build_spec lid l o b now de fc s :
leases s !! lid = Some l → l_work_kind l = BUILD → src (core_of s) BUILD (l_source_outbox_id l) = Some o →
lease_of o l → builds s !! ob_target_id o = Some b →
wp (reset_expired_build l now de fc) (λ next s', ∃ retry, (retry = true → l_attempt l < worker_max_attempts) ∧
  s' = s <| build_outbox ::= <[l_source_outbox_id l := requeued retry next now fc o]> |>
         <| builds ::= <[ob_target_id o := lost_build retry de now fc b]> |>) s.
Proof.
intros Hl Hk Ho Hlf Hb. pose proof (lf_target _ _ Hlf) as Ht. unfold lease_target in Ht.
rewrite decide_True in Ht by done. unfold reset_expired_build. rewrite Ht.
wp_step. eapply wp_source; [by rewrite Hk|]. wp_step. eapply wp_find_build; [done|]. cbv zeta.
wp_step. apply wp_next_attempt. intros next _. unfold requeue, update_source, update_build. rewrite Hk.
do 2 wp_step. do 2 wp_step. wp_step. eexists. split; [by intros Hr; eapply retry_attempt|]. done.
Qed.

Lemma reset_run_spec l o r now de fc s :
l_work_kind l ≠ BUILD → src (core_of s) (l_work_kind l) (l_source_outbox_id l) = Some o →
runs s !! ob_target_id o = Some r →
wp (reset_expired_run l (Some (ob_target_id o)) now de fc) (λ next s', ∃ retry l',
  (retry = true → l_attempt l < worker_max_attempts) ∧ logged (ob_target_id o) (run_events s) l' ∧ framed s s' ∧
  core_of s' = core_of s <| cRC ::= <[l_source_outbox_id l := requeued retry next now fc o]> |>
    <| cR ::= <[ob_target_id o := lost_run (l_work_kind l) retry de now fc r]> |> <| cE := l' |>) s.
Proof.
intros Hk Ho Hr. unfold reset_expired_run. wp_step. eapply wp_source; [done|]. cbv zeta.
set (rt := execution_retry_allowed _ _ _ _ _). pose proof (retry_attempt _ _ _ _ : rt = true → _) as Hrt.
wp_step. apply wp_next_attempt. intros next _. unfold requeue, update_source, update_run. do 2 wp_step.
assert (∀ o', runs (put_source (l_work_kind l) (l_source_outbox_id l) o' s) = runs s) as Er
  by (intros; by destruct (l_work_kind l)).
wp_step. eapply wp_find_run; [by rewrite Er|]. do 2 wp_step. set (s1 := _ <| runs ::= _ |>).
assert (core_of s1 = core_of s <| cRC ::= <[l_source_outbox_id l := requeued rt next now fc o]> |>
  <| cR ::= <[ob_target_id o := lost_run (l_work_kind l) rt de now fc r]> |>) as E1
  by (unfold s1; destruct (l_work_kind l); done).
assert (framed s s1) as Hf1 by (unfold s1; destruct (l_work_kind l); by apply framed_same).
wp_step. case_bool_decide.
- wp_step. cbv beta. wp_step.
  exists rt, (run_events s). split_and!; [done|apply rtc_refl|done|by rewrite E1].
- apply wp_log_event. intros s2 (l' & Hl' & E2) Hf2. wp_step.
  exists rt, l'. split_and!; [done| |by etrans|by rewrite E2, E1].
  by rewrite E1 in Hl'.
Qed.

Lemma lost_run_same k retry de now fc r :
same_run_row r (lost_run k retry de now fc r) ∧ same_cancellation r (lost_run k retry de now fc r).
Proof. unfold lost_run. destruct (bool_decide _), retry; done. Qed.
Lemma lost_run_status retry de now fc r :
rn_status (lost_run RUN_START retry de now fc r) =
  if retry then RunStatus.QUEUED else if de then RunStatus.TIMED_OUT else RunStatus.FAILED.
Proof. by destruct retry, de. Qed.

(** The end of an expired lease, as a step of the protocol. *)
Lemma expire_build_tracks s s' lid l o b current retry de next now fc :
tracks s → leases s !! lid = Some l → held_in c0 lid → l_work_kind l = BUILD →
src (core_of s) BUILD (l_source_outbox_id l) = Some o → builds s !! ob_target_id o = Some b →
l_attempt l = ob_attempts o → (retry = true → l_attempt l < worker_max_attempts) → framed s s' →
core_of s' = core_of s <| cBO ::= <[l_source_outbox_id l := requeued retry next now fc o]> |>
  <| cB ::= <[ob_target_id o := lost_build retry de now fc b]> |>
  <| cG ::= update_where (held lid) (λ g, g <| g_status := GrantStatus.EXPIRED |>) |>
  <| cL ::= <[lid := expired_lease current fc l]> |> →
tracks s'.
Proof using HI0 Hset.
intros Ht Hl Hh Hk Ho Hb Hat Hre Hf E. pose proof (work_inv _ _ HI0 Hset _ (tr_work _ Ht)) as HI.
eapply tracks_step; [done| |done]. rewrite E.
eapply (mv_close_build _ _ _ (core_of s) lid l (expired_lease current fc l) o _ b _); try done.
- apply expired_inactive.
- by apply lease_ok_same_window.
- eapply item_ok_closed; [by eapply (li_item _ _ (inv_leases _ HI))|done|]. destruct retry; cbn; [|done]. lia.
- by destruct retry.
- destruct retry; cbn; [done|]. destruct de; set_solver.
- apply withdrawn_expired.
Qed.

Lemma expire_start_tracks s s' lid l o r current retry de next now fc l' :
tracks s → leases s !! lid = Some l → held_in c0 lid → l_work_kind l = RUN_START → busy c0 (ob_target_id o) →
src (core_of s) RUN_START (l_source_outbox_id l) = Some o → runs s !! ob_target_id o = Some r →
l_attempt l = ob_attempts o → (retry = true → l_attempt l < worker_max_attempts) → framed s s' →
logged (ob_target_id o) (run_events s) l' →
core_of s' = core_of s <| cRC ::= <[l_source_outbox_id l := requeued retry next now fc o]> |>
  <| cR ::= <[ob_target_id o := lost_run RUN_START retry de now fc r]> |>
  <| cG ::= update_where (held lid) (λ g, g <| g_status := GrantStatus.EXPIRED |>) |>
  <| cL ::= <[lid := expired_lease current fc l]> |> <| cE := l' |> →
tracks s'.
Proof using HI0 Hset.
intros Ht Hl Hh Hk Hb Ho Hr Hat Hre Hf Hlog E. pose proof (work_inv _ _ HI0 Hset _ (tr_work _ Ht)) as HI.
destruct (lost_run_same RUN_START retry de now fc r).
eapply tracks_logged; [done| |exact Hb| |exact E|done]; [apply rtc_once|exact Hlog].
eapply (mv_close_start _ _ _ (core_of s) lid l (expired_lease current fc l) o _ r _); try done.
- apply expired_inactive.
- by apply lease_ok_same_window.
- eapply item_ok_closed; [by eapply (li_item _ _ (inv_leases _ HI))|done|]. destruct retry; cbn; [|done]. lia.
- by destruct retry.
- rewrite lost_run_status. by destruct retry, de.
- intros _. rewrite lost_run_status; destruct retry; cbn; [done|]. destruct de; set_solver.
- apply withdrawn_expired.
Qed.

Lemma expire_cancel_tracks s s' lid l o r current retry de next now fc l' :
tracks s → leases s !! lid = Some l → held_in c0 lid → l_work_kind l = RUN_CANCEL → busy c0 (ob_target_id o) →
src (core_of s) RUN_CANCEL (l_source_outbox_id l) = Some o → runs s !! ob_target_id o = Some r →
¬ uncancelled r →
l_attempt l = ob_attempts o → (retry = true → l_attempt l < worker_max_attempts) → framed s s' →
logged (ob_target_id o) (run_events s) l' →
core_of s' = core_of s <| cRC ::= <[l_source_outbox_id l := requeued retry next now fc o]> |>
  <| cR ::= <[ob_target_id o := lost_run RUN_CANCEL retry de now fc r]> |>
  <| cG ::= update_where (held lid) (λ g, g <| g_status := GrantStatus.EXPIRED |>) |>
  <| cL ::= <[lid := expired_lease current fc l]> |> <| cE := l' |> →
tracks s'.
Proof using HI0 Hset.
intros Ht Hl Hh Hk Hb Ho Hr Hu Hat Hre Hf Hlog E. pose proof (work_inv _ _ HI0 Hset _ (tr_work _ Ht)) as HI.
destruct (lost_run_same RUN_CANCEL retry de now fc r).
eapply tracks_logged; [done| |exact Hb| |exact E|done]; [|exact Hlog].
eapply rtc_l; [eapply (mv_close_cancel _ _ _ (core_of s) lid l (expired_lease current fc l) o
  (requeued retry next now fc o)); try done|].
- apply expired_inactive.
- by apply lease_ok_same_window.
- eapply item_ok_closed; [by eapply (li_item _ _ (inv_leases _ HI))|done|]. destruct retry; cbn; [|done]. lia.
- by destruct retry.
- apply withdrawn_expired.
- apply rtc_once. match goal with |- move _ _ _ ?c _ => set (c' := c) end.
  change (step c' (c' <| cR ::= <[ob_target_id o := lost_run RUN_CANCEL retry de now fc r]> |>)).
  by apply (mv_cancelled_run _ _ _ c' (ob_target_id o) r).
Qed.

(** The run of a lease and what the fence needs to know of it. *)
Lemma lease_target_run s lid l o :
tracks s → leases s !! lid = Some l → src (core_of s) (l_work_kind l) (l_source_outbox_id l) = Some o →
lease_ok l → lease_of o l → l_work_kind l ≠ BUILD →
l_run_id l = Some (ob_target_id o) ∧ ∃ r, runs s !! ob_target_id o = Some r ∧
  (l_work_kind l = RUN_CANCEL → ¬ uncancelled r).
Proof using HI0 Hset.
intros Ht Hl Ho Hok Hlf Hk. pose proof (work_inv _ _ HI0 Hset _ (tr_work _ Ht)) as HI.
pose proof (lf_target _ _ Hlf) as Et. unfold lease_target in Et. rewrite decide_False in Et by done.
split; [done|]. destruct (l_work_kind l) eqn:E; [done|..].
- destruct (ri_start _ _ (inv_runs _ HI) _ _ Ho) as (r & Hr & _). by exists r.
- destruct (ri_cancel _ _ (inv_runs _ HI) _ _ Ho) as (r & Hr & _ & Hu). by exists r.
Qed.

(** The end of [reap_row] on a lease that was not converged. *)
Definition close_expired (current : time) (fc : string) (lid : uuid) : M db () :=
modify (λ s, s <| grants ::= update_where (held lid) (λ g, g <| g_status := GrantStatus.EXPIRED |>) |>) ;;
modify (λ s, s <| leases ::= alter (expired_lease current fc) lid |>).

Lemma close_expired_core current fc lid l s :
leases s !! lid = Some l → core_of (close_expired current fc lid s).2 =
  core_of s <| cG ::= update_where (held lid) (λ g, g <| g_status := GrantStatus.EXPIRED |>) |>
            <| cL ::= <[lid := expired_lease current fc l]> |>.
Proof.
intros Hl. change (core_of (close_expired current fc lid s).2) with
  (core_of s <| cG ::= update_where (held lid) (λ g, g <| g_status := GrantStatus.EXPIRED |>) |>
            <| cL := alter (expired_lease current fc) lid (leases s) |>).
by rewrite (alter_insert _ _ _ _ Hl).
Qed.

Lemma reset_build_tracks s lid l current de fc (Q : option time → db → Prop) :
tracks s → leases s !! lid = Some l → held_in c0 lid → l_work_kind l = BUILD →
(∀ next s1, (∀ s', core_of s' = core_of (close_expired current fc lid s1).2 → framed s1 s' → tracks s') →
   Q next s1) →
wp (reset_expired_build l current de fc) Q s.
Proof using HI0 Hset.
intros Ht Hl Hh Hk Hrest. pose proof (work_inv _ _ HI0 Hset _ (tr_work _ Ht)) as HI.
destruct (held_current _ _ Ht Hh) as (l1 & o & Hl1 & Ho & Hok & Hlf & Hat & _).
assert (l1 = l) as -> by congruence. rewrite Hk in Ho.
destruct (bi_item _ _ (inv_builds _ HI) _ _ Ho) as (b & Hb & _).
eapply wp_mono; [|by eapply reset_build_spec]. intros next s1 (retry & Hre & ->). apply Hrest.
intros s' E Hf. eapply (expire_build_tracks s s' lid l o b); try done.
- etrans; [|exact Hf]. by apply framed_same.
- by rewrite E, (close_expired_core _ _ _ l).
Qed.

Lemma reset_run_tracks s lid l l0 current de fc (Q : option time → db → Prop) :
tracks s → leases s !! lid = Some l → held_in c0 lid → l_work_kind l ≠ BUILD → same_lease l0 l →
(∀ next s1, (∀ s', core_of s' = core_of (close_expired current fc lid s1).2 → framed s1 s' → tracks s') →
   Q next s1) →
wp (reset_expired_run l0 (l_run_id l) current de fc) Q s.
Proof using HI0 Hset.
intros Ht Hl Hh Hk Hsame Hrest.
destruct (held_current _ _ Ht Hh) as (l1 & o & Hl1 & Ho & Hok & Hlf & Hat & Hb).
assert (l1 = l) as -> by congruence.
destruct (lease_target_run _ _ _ _ Ht Hl Ho Hok Hlf Hk) as (Er & r & Hr & Hu).
specialize (Hb _ Er). rewrite Er.
eapply wp_mono; [|eapply (reset_run_spec l0 o r)].
2: { by rewrite <- (sl_kind _ _ Hsame). }
2: { by rewrite <- (sl_kind _ _ Hsame), <- (sl_source _ _ Hsame). }
2: { done. }
intros next s1 (retry & l' & Hre & Hlog & Hf1 & E1). apply Hrest. intros s' E Hf.
rewrite <- (sl_attempt _ _ Hsame) in Hre. rewrite <- (sl_kind _ _ Hsame), <- (sl_source _ _ Hsame) in E1.
assert (cL (core_of s1) !! lid = Some l) as Hl2 by by rewrite E1.
assert (core_of s' = core_of s1 <| cG ::= update_where (held lid) (λ g, g <| g_status := GrantStatus.EXPIRED |>) |>
  <| cL ::= <[lid := expired_lease current fc l]> |>) as E2.
{ by rewrite E, (close_expired_core _ _ _ l). }
rewrite E1 in E2. assert (framed s s') as Hf2 by by etrans.
destruct (l_work_kind l) eqn:Ek; [done|..].
- by apply (expire_start_tracks s s' lid l o r current retry de next current fc l').
- specialize (Hu eq_refl).
  by apply (expire_cancel_tracks s s' lid l o r current retry de next current fc l').
Qed.

(** What [reset_expired_source] leaves [reap_row] to do: nothing when it converged the
  run, and otherwise to close the lease. *)
Definition to_close (current : time) (fc : string) (lid : uuid) (x : option time * bool) s : Prop :=
if x.2 then tracks s
else ∀ s', core_of s' = core_of (close_expired current fc lid s).2 → framed s s' → tracks s'.

Lemma reset_source_tracks locked l current de fc rq lid s :
tracks s → held_in c0 lid → leases s !! lid = Some l →
wp (reset_expired_source locked l current de fc rq) (to_close current fc lid) s.
Proof using HI0 Hset.
intros Ht Hh Hl. destruct (held_current _ _ Ht Hh) as (l1 & o & Hl1 & Ho & Hok & Hlf & _ & Hb).
assert (l1 = l) as -> by congruence. unfold reset_expired_source. case_bool_decide as Hk.
{ wp_step. eapply reset_build_tracks; try done. intros next s1 Hs1. by wp_step. }
destruct (lease_target_run _ _ _ _ Ht Hl Ho Hok Hlf Hk) as (Er & r & Hr & Hu). rewrite Er.
wp_step. eapply wp_find_run; [done|]. wp_step. cbn [fst fmap option_fmap option_map]. case_bool_decide as Hc.
- wp_step. wp_step. rewrite <- Er. eapply reset_run_tracks; try done.
  intros next s1 Hs1. by wp_step.
- eapply wp_mono; [|by eapply converge_spec; [..|apply Hb]]. intros [] s1 [Ht1 _ _]; [by wp_step|].
  wp_step. rewrite <- Er. destruct (held_current _ _ Ht1 Hh) as (l1 & o1 & Hl1' & _).
  pose proof (held_same _ _ _ _ _ Ht Ht1 Hh Hl Hl1') as Hsame.
  rewrite <- (sl_run _ _ Hsame). eapply reset_run_tracks; try done.
  { by rewrite (sl_kind _ _ Hsame). }
  intros next s2 Hs2. by wp_step.
Qed.

Lemma reap_row_tracks locked current rq lid s :
tracks s → held_in c0 lid → wp (reap_row locked current rq lid) (λ _, tracks) s.
Proof using HI0 Hset.
intros Ht Hh. destruct (held_current _ _ Ht Hh) as (l & o & Hl & _).
unfold reap_row. do 2 wp_step. rewrite Hl. cbv zeta. wp_step.
eapply wp_mono; [|by eapply reset_source_tracks]. intros [next []] s1 Hs1; cbn in Hs1.
- apply wp_audit. intros s2 E2 Hf2. by eapply tracks_same.
- do 2 wp_step. cbv beta. do 2 wp_step. cbv beta. apply wp_audit. intros s2 E2 Hf2. apply Hs1; [exact E2|].
  etrans; [|exact Hf2]. by apply framed_same.
Qed.

(** The loop of the reaper. *)
Lemma reap_rows_tracks locked current rq ids s :
tracks s → Forall (held_in c0) ids → wp (for_each (reap_row locked current rq) ids) (λ _, tracks) s.
Proof using HI0 Hset.
intros Ht Hids. revert s Ht. induction Hids as [|lid ids Hl _ IH]; intros s Ht; cbn; [by wp_step|].
wp_step. eapply wp_mono; [|by apply reap_row_tracks]. intros [] s1 Ht1. by apply IH.
Qed.
End tracking.

(** ** Composition: from the state an operation begins in to the one it ends in *)

Section operations.
Context (t0 : time) (Hset : 1 ≤ worker_max_attempts).
Implicit Types (s : db).
Abbreviation tracks := (tracks t0).
Abbreviation good s := (inv (core_of s)) (only parsing).

Lemma tracks_good s s' : good s → tracks s s' → good s'.
Proof using Hset. intros HI [Hw _]. by eapply work_inv. Qed.

Lemma work_trans c1 c2 c3 : inv c1 → work t0 c1 c2 → work t0 c2 c3 → work t0 c1 c3.
Proof using Hset.
intros HI H12 H23. unfold work in H23. revert c3 H23. apply rtc_ind_r; [done|].
intros c c' _ Hm Hw. eapply work_step; [done|]. eapply move_mono; [| |exact Hm].
- intros rid. exact (work_busy t0 c1 HI Hset c2 rid H12).
- intros lid (l & Hl & Ha). exact (work_held t0 c1 HI Hset _ _ _ H12 Hl Ha).
Qed.
Lemma tracks_trans s1 s2 s3 : good s1 → tracks s1 s2 → tracks s2 s3 → tracks s1 s3.
Proof using Hset. intros HI [Hw1 Hf1] [Hw2 Hf2]. split; [by eapply work_trans|by etrans]. Qed.

Lemma tracks_run s s' rid r :
good s → tracks s s' → runs s !! rid = Some r → ∃ r', runs s' !! rid = Some r' ∧ run_step r r'.
Proof using Hset. intros HI [Hw _] Hr. exact (work_run _ _ HI Hset _ _ _ Hw Hr). Qed.

(** An operation that continues one that tracks. *)
Lemma wp_then {A} (m : M db A) s1 s2 :
good s1 → tracks s1 s2 → (good s2 → wp m (λ _, tracks s2) s2) → wp m (λ _, tracks s1) s2.
Proof using Hset.
intros HI Ht Hm. eapply wp_mono; [|apply Hm; by eapply tracks_good]. intros a s3 Ht3. by eapply tracks_trans.
Qed.

Lemma converge_runs_tracks locked now rq ids n s :
good s → Forall (λ rid, ∃ r, runs s !! rid = Some r ∧ ¬ uncancelled r ∧ busy (core_of s) rid) ids →
wp (converge_runs locked now rq ids n) (λ _, tracks s) s.
Proof using Hset.
intros HI Hids. assert (∀ s1, tracks s s1 → wp (converge_runs locked now rq ids n) (λ _, tracks s) s1) as Hgen.
2: { apply Hgen. apply (tracks_start t0). }
revert n. induction Hids as [|rid ids (r & Hr & Hu & Hb) _ IH]; intros n s1 Ht1; cbn; [by wp_step|].
destruct (tracks_run _ _ _ _ HI Ht1 Hr) as (r1 & Hr1 & Hs1). wp_step.
eapply wp_mono; [|by eapply (converge_spec _ s); [..|by eapply run_step_uncancelled|]].
intros b s2 [Ht2 _ _]. by apply IH.
Qed.

Lemma reap_overdue_tracks locked now rq batch s :
good s → wp (reap_overdue_cancellations locked now rq batch) (λ _, tracks s) s.
Proof using Hset.
intros HI. unfold reap_overdue_cancellations. do 4 wp_step. apply converge_runs_tracks; [done|].
apply Forall_forall. intros rid ([rid' r] & -> & Hin)%list_elem_of_fmap.
destruct (batch_rows (by_key overdue_key) (overdue now locked) (runs s) (Z.to_nat batch)) as (Hrows & _).
destruct (Hrows _ _ Hin) as [Hr Ho]. unfold overdue in Ho. breflect. exists r. split_and!; [done..|].
eapply (busy_status t0 _ HI Hset); [apply work_refl|exact Hr|]. assert (rn_status r = RunStatus.ABORTING) as -> by done. set_solver.
Qed.

Lemma reap_expired_tracks locked now rq batch b s :
good s → wp (reap_expired_leases locked now rq batch b) (λ _, tracks s) s.
Proof using Hset.
intros HI. unfold reap_expired_leases. do 5 wp_step.
eapply wp_mono; [|apply (reap_rows_tracks t0 s HI Hset); [apply tracks_start|]].
- intros [] s1 Ht1. wp_step. destruct b.
  + wp_step. eapply wp_mono; [|apply reap_overdue_tracks; by eapply tracks_good].
    intros ? s2 Ht2. do 2 wp_step. by eapply tracks_trans.
  + by do 2 wp_step.
- apply Forall_forall. intros lid ([lid' l] & -> & Hin)%list_elem_of_fmap.
  destruct (batch_rows (by_key expiry_key) (expired now locked) (leases s) (Z.to_nat batch)) as (Hrows & _).
  destruct (Hrows _ _ Hin) as [Hl He]. unfold expired in He. breflect. by exists l.
Qed.
End operations.
End refine.
