(* ===== verification/ExecutionOps.v ===== *)
(** The operations of workers and users on the execution plane, as steps of the lease
    protocol: reports and completions under a lease, cancellations, new work, grants,
    heartbeats, the recovery sweep and claims. *)

From S2P Require Import Prelude PyVal Json PyUuid PyTime QueueProtocol Idempotency Pagination.
From S2P Require Import EventProtocol RunEvents Recovery ExecutionPlane LeaseProtocol.
From S2P Require Import ExecutionSteps.
Lemma and_decide_false P Q `{Decision P, Decision Q} : bool_decide P && bool_decide Q = false → P → ¬ Q.
Proof. intros E HP HQ. by rewrite !bool_decide_eq_true_2 in E. Qed.

Section operations.
Context `{Entropy, Sha256, CaseFold, PyRepr, IsoForms, Settings, HmacSha256, TokenSource}.
Context `{UnicodeDecimal, ClaimSealing, ArtifactChecks}.
Context (t0 : time) (Hset : 1 ≤ worker_max_attempts).
Implicit Types (s : db).
Abbreviation tracks := (tracks t0).
Abbreviation good s := (inv (core_of s)) (only parsing).

(** ** Under a lease *)

Section leased.
Context s (HI : good s) lid l (Hl : leases s !! lid = Some l) (Hlive : live t0 l = true).

Lemma lease_active : active l.
Proof using Hlive. by apply live_true in Hlive as []. Qed.

(** The run of the lease is busy. *)
Lemma leased_busy rid : l_run_id l = Some rid → busy (core_of s) rid.
Proof using HI Hset Hl Hlive.
intros Hr. eapply (busy_lease t0 _ HI Hset); [apply work_refl|exact Hl|apply lease_active|done].
Qed.

(** The lease is renewed or marked as seen. *)
Lemma touch_tracks s1 s2 l' :
tracks s s1 → leases s1 !! lid = Some l → same_lease l l' → active l' → (lease_ok l → lease_ok l') →
core_of s2 = core_of s1 <| cL ::= <[lid := l']> |> → framed s1 s2 → tracks s s2.
Proof using HI Hset Hl Hlive.
intros Ht Hl1 Hsame Ha Hok E Hf. pose proof lease_active. eapply tracks_step; [done| |done]. rewrite E.
apply (mv_touch _ _ _ _ (<[lid := l']> (leases s1))).
- intros i l1 [(<- & <-)|(_ & Hi)]%lookup_insert_Some; [exists l|exists l1; auto]. split; [done|right].
  split; [|apply leased_busy]. split_and!; auto.
- intros i l1 Hi. destruct (decide (i = lid)) as [->|]; [by rewrite lookup_insert_eq|by rewrite lookup_insert_ne].
Qed.

Lemma renew_tracks wid extend_seconds rq :
0 ≤ extend_seconds → wp (renew_lease lid l wid extend_seconds t0 rq) (λ _, tracks s) s.
Proof using HI Hset Hl Hlive.
intros Hx. pose proof (proj1 (li_lease _ _ (inv_leases _ HI) _ _ Hl)) as Hok. pose proof lease_active.
unfold renew_lease. cbv zeta. wp_step. apply wp_lift. intros e (Hm & Hc & ->)%clamp_inr. do 2 wp_step.
unfold update_lease. do 2 wp_step. wp_step. apply wp_audit. intros s1 E1 Hf1. wp_step.
eapply touch_tracks; [by apply tracks_start|done| | | |exact E1|].
- by split.
- done.
- intros []. split; cbn; unfold seconds in *; try done; lia.
- etrans; [|exact Hf1]. by apply framed_same.
Qed.

Lemma lease_build : l_work_kind l = BUILD → ∃ bid b, l_build_id l = Some bid ∧ builds s !! bid = Some b.
Proof using HI Hl.
intros Hk. destruct (li_lease _ _ (inv_leases _ HI) _ _ Hl) as (_ & o & Ho & Hlf). rewrite Hk in Ho.
destruct (bi_item _ _ (inv_builds _ HI) _ _ Ho) as (b & Hb & _).
pose proof (lf_target _ _ Hlf) as Et. unfold lease_target in Et. rewrite decide_True in Et by done. eauto.
Qed.

Lemma lease_target_now : l_work_kind l ≠ BUILD → ∃ o r,
  src (core_of s) (l_work_kind l) (l_source_outbox_id l) = Some o ∧ lease_of o l ∧
  l_run_id l = Some (ob_target_id o) ∧ runs s !! ob_target_id o = Some r ∧
  (l_work_kind l = RUN_CANCEL → ¬ uncancelled r).
Proof using HI Hl Hset t0.
intros Hk. destruct (li_lease _ _ (inv_leases _ HI) _ _ Hl) as (Hok & o & Ho & Hlf).
destruct (lease_target_run t0 s HI Hset s lid l o (tracks_start _ _) Hl Ho Hok Hlf Hk) as (Er & r & Hr & Hu).
by exists o, r.
Qed.

(** The status a worker reports. *)
Lemma status_tracks wid status message rq :
wp (update_lease_status lid l wid status message t0 rq) (λ _, tracks s) s.
Proof using HI Hset Hl Hlive.
pose proof lease_active as Ha. unfold update_lease_status. wp_step.
eapply (wp_mono _ (λ _ s1, tracks s s1 ∧ leases s1 !! lid = Some l)).
- intros ? s1 [Ht1 Hl1]. cbv zeta. unfold update_lease. do 2 wp_step. wp_step. apply wp_audit.
  intros s2 E2 Hf2. wp_step. eapply touch_tracks; [exact Ht1|exact Hl1| | | |exact E2|].
  + by split.
  + done.
  + intros []. by split.
  + etrans; [|exact Hf2]. by apply framed_same.
- case_bool_decide as Hk.
  + destruct (lease_build Hk) as (bid & b & Ebid & Hb). wp_step. wp_step. wp_step. rewrite Ebid.
    eapply wp_find_build; [exact Hb|]. wp_steps. unfold update_build. wp_step. simplify_eq/=. split; [|done].
    eapply (tracks_step t0 s); [apply tracks_start| |by apply framed_same].
    eapply (mv_status_build _ _ _ (core_of s) lid l); [exact Hl|done|done|done|exact Hb|done|]. cbn.
    destruct status; simplify_eq/=; set_solver.
  + destruct (lease_target_now Hk) as (o & r & Ho & Hlf & Er & Hr & Hu). rewrite Er.
    wp_step. eapply wp_find_run; [done|]. wp_step. wp_step. simplify_eq/=. do 2 wp_step. do 2 wp_step. cbv zeta.
    unfold update_run. do 2 wp_step. set (s1 := s <| runs ::= _ |>).
    assert (tracks s s1) as Ht1.
    { eapply (tracks_step t0 s); [apply tracks_start| |by apply framed_same]. pose proof (leased_busy _ Er) as Hb.
      destruct (l_work_kind l) eqn:Ek; [done|..].
      - eapply (mv_status_run _ _ _ (core_of s) lid l _ r); try done; [|destruct status; simplify_eq/=; set_solver].
        eapply dec_stable, and_decide_false; done.
      - apply (mv_cancelled_run _ _ _ (core_of s) _ r); try done. auto. }
    destruct (bool_decide (rn_status r = _)); [wp_step; split; [exact Ht1|exact Hl]|]. apply wp_log_event. intros s2 Hl2 Hf2. split.
    * eapply tracks_events; [exact Ht1|by eapply leased_busy|done..].
    * destruct Hl2 as (l' & _ & E2). change (cL (core_of s2) !! lid = Some l). by rewrite E2.
Qed.

(** The events a worker appends. *)
Lemma events_tracks wid w events rq :
wp (append_worker_events l wid w events rq) (λ _, tracks s) s.
Proof using HI Hset Hl Hlive.
unfold append_worker_events. do 2 wp_step. do 2 wp_step. breflect.
assert (l_work_kind l ≠ BUILD) as Hk by congruence.
destruct (lease_target_now Hk) as (o & r & Ho & Hlf & Er & Hr & Hu). rewrite Er.
wp_step. eapply wp_find_run; [done|]. wp_step. wp_step. simplify_eq/=. wp_step.
eapply wp_mono; [|apply (wp_for_each (tracks s)); [|apply tracks_start]].
- intros ? s1 Ht1. wp_step. apply wp_audit. intros s2 E2 Hf2. wp_step. exact (tracks_same _ _ _ _ Ht1 E2 Hf2).
- intros e s1 Ht1. wp_step. apply wp_lift. intros clean _. apply wp_log_event. intros s2 Hl2 Hf2.
  eapply tracks_events; [done|by eapply leased_busy|done..].
Qed.
End leased.

Lemma wp_fresh_uuid s (Q : uuid → db → Prop) :
Q (uuid4 (rng s)) (s <| rng ::= N.succ |>) → wp fresh_uuid Q s.
Proof. by intros HQ a s' [= <- <-]. Qed.
Lemma wp_fresh_token s (Q : pystr → db → Prop) :
Q (token_urlsafe (rng s)) (s <| rng ::= N.succ |>) → wp fresh_token Q s.
Proof. by intros HQ a s' [= <- <-]. Qed.
Lemma wp_fresh_prefix s (Q : pystr → db → Prop) :
Q (token_prefix (rng s)) (s <| rng ::= N.succ |>) → wp fresh_prefix Q s.
Proof. by intros HQ a s' [= <- <-]. Qed.

Lemma wp_register_artifact lid l w p s (Q : uuid * ExecutionArtifact → db → Prop) :
(∀ a s', core_of s' = core_of s → framed s s' → Q a s') → wp (register_artifact lid l w p) Q s.
Proof.
intros HQ. unfold register_artifact. wp_step. apply wp_lift. intros _ _. wp_steps.
- by apply HQ.
- apply wp_fresh_uuid. wp_steps. apply HQ; [done|by apply framed_same].
Qed.

Lemma wp_register_artifacts lid l w ps s (Q : list (uuid * ExecutionArtifact) → db → Prop) :
(∀ a s', core_of s' = core_of s → framed s s' → Q a s') → wp (register_artifacts lid l w ps) Q s.
Proof.
revert s Q. induction ps as [|p ps IH]; intros s Q HQ; cbn; [wp_step; by apply HQ|].
wp_step. apply wp_register_artifact. intros a s1 E1 Hf1. wp_step. apply IH. intros rest s2 E2 Hf2.
wp_step. apply HQ; [congruence|by etrans].
Qed.

(** ** Completions *)

(** What completing leaves [close_lease] to do. *)
Definition closing (s : db) (lid : uuid) (l' : ExecutionLease) s2 : Prop :=
∀ s', core_of s' = core_of s2 <| cL ::= <[lid := l' <| l_updated_at := t0 |>]> |>
                             <| cG ::= update_where (held lid) revoke |> →
  framed s2 s' → tracks s s'.

Lemma withdrawn_revoked lid G : withdrawn lid G (update_where (held lid) revoke G).
Proof. eexists. split; [done|]. by intros g. Qed.

Lemma close_lease_tracks s s2 lid l' wid q retry next image rq :
closing s lid l' s2 → wp (close_lease lid l' wid q retry next image t0 rq) (λ _, tracks s) s2.
Proof.
intros Hc. unfold close_lease. cbv zeta. unfold update_lease. do 2 wp_step. do 2 wp_step. wp_step.
apply wp_audit. intros s3 E3 Hf3. wp_step. apply Hc; [exact E3|]. etrans; [|exact Hf3]. by apply framed_same.
Qed.

Lemma finished_run_same k q r :
same_run_row r (finished_run k q t0 r) ∧ same_cancellation r (finished_run k q t0 r) ∧
rn_status (finished_run k q t0 r) ∈ [RunStatus.SUCCEEDED; RunStatus.ABORTED; RunStatus.FAILED; RunStatus.TIMED_OUT].
Proof. unfold finished_run. destruct k, (cq_outcome q); (split_and!; [done..|cbn; set_solver]). Qed.

Lemma finished_phase r :
rn_status r ∈ [RunStatus.SUCCEEDED; RunStatus.ABORTED; RunStatus.FAILED; RunStatus.TIMED_OUT] →
start_phase (rn_status r) (if run_succeeded r then SourceStatus.DELIVERED else SourceStatus.FAILED).
Proof. unfold run_succeeded. case_bool_decide; cbn; set_solver. Qed.

Lemma closed_same ok code summary l l0 :
same_lease l0 l → same_lease l0 (closed_lease ok code summary t0 l <| l_updated_at := t0 |>).
Proof. intros Hs. etrans; [exact Hs|]. by split. Qed.
Lemma closed_inactive ok code summary l : ¬ active (closed_lease ok code summary t0 l <| l_updated_at := t0 |>).
Proof. by destruct ok. Qed.
Lemma closed_ok ok code summary l :
lease_ok l → lease_ok (closed_lease ok code summary t0 l <| l_updated_at := t0 |>).
Proof. intros []. by split. Qed.

Section completing.
Context s (HI : good s) lid l (Hl : leases s !! lid = Some l) (Hlive : live t0 l = true).

Lemma leased_held : held_in (core_of s) lid.
Proof using Hl Hlive. exists l. split; [exact Hl|by eapply lease_active]. Qed.
Lemma leased_ok : lease_ok l.
Proof using HI Hl. by destruct (li_lease _ _ (inv_leases _ HI) _ _ Hl). Qed.

(** The row and the work item of the lease later in the transaction. *)
Lemma leased_item s1 : tracks s s1 → good s1 ∧ ∃ l1 o, leases s1 !! lid = Some l1 ∧ same_lease l1 l ∧
  src (core_of s1) (l_work_kind l) (l_source_outbox_id l) = Some o ∧ lease_of o l1 ∧
  l_attempt l = ob_attempts o ∧ item_ok o.
Proof using HI Hset Hl Hlive.
intros Ht1. pose proof (tracks_good _ Hset _ _ HI Ht1) as HI1. split; [done|].
destruct (held_current t0 s HI Hset s1 lid Ht1 leased_held) as (l1 & o & Hl1 & Ho & _ & Hlf & Ha & _).
pose proof (held_same t0 s HI Hset s1 s lid l1 l Ht1 (tracks_start _ _) leased_held Hl1 Hl) as Hs.
rewrite <- (sl_kind _ _ Hs), <- (sl_source _ _ Hs) in Ho. exists l1, o. split_and!; try done.
- by rewrite (sl_attempt _ _ Hs).
- by eapply (li_item _ _ (inv_leases _ HI1)).
Qed.

Lemma close_build s1 s' o o' b b' l' :
tracks s s1 → l_work_kind l = BUILD → src (core_of s1) BUILD (l_source_outbox_id l) = Some o →
builds s1 !! ob_target_id o = Some b → same_lease l l' → ¬ active l' → lease_ok l' → same_item o o' →
ob_attempts o' = ob_attempts o → (ob_status o' = SourceStatus.PENDING → l_attempt l < worker_max_attempts) →
ob_status o' ≠ SourceStatus.CLAIMED → same_build b b' → build_phase (b_status b') (ob_status o') → framed s1 s' →
core_of s' = core_of s1 <| cBO ::= <[l_source_outbox_id l := o']> |> <| cB ::= <[ob_target_id o := b']> |>
  <| cL ::= <[lid := l']> |> <| cG ::= update_where (held lid) revoke |> →
tracks s s'.
Proof using HI Hset Hl Hlive.
intros Ht Hk Ho Hb Hsl Hna Hok Hsi Hat Hp Hnc Hsb Hph Hf E.
destruct (leased_item _ Ht) as (HI1 & l1 & o1 & Hl1 & Hs1 & Ho1 & Hlf & Ha & Hio). rewrite Hk in Ho1.
assert (o1 = o) as -> by congruence. eapply tracks_step; [exact Ht| |done].
rewrite E, (sl_source _ _ Hs1). rewrite (sl_source _ _ Hs1) in Ho.
eapply (mv_close_build _ _ _ (core_of s1) lid l1 l' o o' b b'); try done.
- apply leased_held.
- by rewrite <- (sl_kind _ _ Hs1).
- by rewrite <- (sl_attempt _ _ Hs1).
- by etrans.
- eapply item_ok_closed; [done..|]. by rewrite <- Ha.
- apply withdrawn_revoked.
Qed.

Lemma close_start s1 s' o o' r r' l' lg :
tracks s s1 → l_work_kind l = RUN_START → src (core_of s1) RUN_START (l_source_outbox_id l) = Some o →
runs s1 !! ob_target_id o = Some r → same_lease l l' → ¬ active l' → lease_ok l' → same_item o o' →
ob_attempts o' = ob_attempts o → (ob_status o' = SourceStatus.PENDING → l_attempt l < worker_max_attempts) →
ob_status o' ≠ SourceStatus.CLAIMED → same_run_row r r' → same_cancellation r r' →
rn_status r' ≠ RunStatus.ABORTING → start_ok o' r' → framed s1 s' →
logged (ob_target_id o) (run_events s1) lg →
core_of s' = core_of s1 <| cRC ::= <[l_source_outbox_id l := o']> |> <| cR ::= <[ob_target_id o := r']> |>
  <| cL ::= <[lid := l']> |> <| cG ::= update_where (held lid) revoke |> <| cE := lg |> →
tracks s s'.
Proof using HI Hset Hl Hlive.
intros Ht Hk Ho Hr Hsl Hna Hok Hsi Hat Hp Hnc Hsr Hsc Hab Hph Hf Hlg E.
destruct (leased_item _ Ht) as (HI1 & l1 & o1 & Hl1 & Hs1 & Ho1 & Hlf & Ha & Hio). rewrite Hk in Ho1.
assert (o1 = o) as -> by congruence.
assert (busy (core_of s) (ob_target_id o)) as Hb.
{ eapply leased_busy; [done..|]. rewrite (sl_run _ _ Hs1). pose proof (lf_target _ _ Hlf) as Et.
  unfold lease_target in Et. by rewrite <- (sl_kind _ _ Hs1), Hk, decide_False in Et. }
rewrite (sl_source _ _ Hs1) in Ho, E.
eapply tracks_logged; [exact Ht| |exact Hb| |exact E|done]; [apply rtc_once|exact Hlg].
eapply (mv_close_start _ _ _ (core_of s1) lid l1 l' o o' r r'); try done.
- apply leased_held.
- by rewrite <- (sl_kind _ _ Hs1).
- by rewrite <- (sl_attempt _ _ Hs1).
- by etrans.
- eapply item_ok_closed; [done..|]. by rewrite <- Ha.
- apply withdrawn_revoked.
Qed.

(** The run of a CANCEL lease may change with it. *)
Lemma close_cancel s1 s' o o' r r' l' lg :
tracks s s1 → l_work_kind l = RUN_CANCEL → src (core_of s1) RUN_CANCEL (l_source_outbox_id l) = Some o →
runs s1 !! ob_target_id o = Some r → same_lease l l' → ¬ active l' → lease_ok l' → same_item o o' →
ob_attempts o' = ob_attempts o → (ob_status o' = SourceStatus.PENDING → l_attempt l < worker_max_attempts) →
ob_status o' ≠ SourceStatus.CLAIMED → ¬ uncancelled r → same_run_row r r' → same_cancellation r r' →
framed s1 s' → logged (ob_target_id o) (run_events s1) lg →
core_of s' = core_of s1 <| cRC ::= <[l_source_outbox_id l := o']> |> <| cR ::= <[ob_target_id o := r']> |>
  <| cL ::= <[lid := l']> |> <| cG ::= update_where (held lid) revoke |> <| cE := lg |> →
tracks s s'.
Proof using HI Hset Hl Hlive.
intros Ht Hk Ho Hr Hsl Hna Hok Hsi Hat Hp Hnc Hu Hsr Hsc Hf Hlg E.
destruct (leased_item _ Ht) as (HI1 & l1 & o1 & Hl1 & Hs1 & Ho1 & Hlf & Ha & Hio). rewrite Hk in Ho1.
assert (o1 = o) as -> by congruence.
assert (busy (core_of s) (ob_target_id o)) as Hb.
{ eapply leased_busy; [done..|]. rewrite (sl_run _ _ Hs1). pose proof (lf_target _ _ Hlf) as Et.
  unfold lease_target in Et. by rewrite <- (sl_kind _ _ Hs1), Hk, decide_False in Et. }
rewrite (sl_source _ _ Hs1) in Ho, E.
eapply tracks_logged; [exact Ht| |exact Hb| |exact E|done]; [|exact Hlg].
eapply rtc_l; [eapply (mv_close_cancel _ _ _ (core_of s1) lid l1 l' o o'); try done|].
- apply leased_held.
- by rewrite <- (sl_kind _ _ Hs1).
- by rewrite <- (sl_attempt _ _ Hs1).
- by etrans.
- eapply item_ok_closed; [done..|]. by rewrite <- Ha.
- apply withdrawn_revoked.
- apply rtc_once. match goal with |- move _ _ _ ?c _ => set (c' := c) end.
  change (move t0 (busy (core_of s)) (held_in (core_of s)) c' (c' <| cR ::= <[ob_target_id o := r']> |>)).
  by apply (mv_cancelled_run _ _ _ c' (ob_target_id o) r).
Qed.

(** The run of the lease later in the transaction. *)
Lemma leased_run s1 o : tracks s s1 → l_work_kind l ≠ BUILD →
src (core_of s1) (l_work_kind l) (l_source_outbox_id l) = Some o →
l_run_id l = Some (ob_target_id o) ∧ ∃ r, runs s1 !! ob_target_id o = Some r ∧
  (l_work_kind l = RUN_CANCEL → ¬ uncancelled r).
Proof using HI Hset Hl Hlive.
intros Ht Hk Ho. destruct (leased_item _ Ht) as (HI1 & l1 & o1 & Hl1 & Hs1 & Ho1 & Hlf & _).
assert (o1 = o) as -> by congruence. rewrite (sl_kind _ _ Hs1), (sl_source _ _ Hs1) in Ho1.
destruct (lease_target_run t0 s HI Hset s1 lid l1 o Ht Hl1 Ho1) as (Er & r & Hr & Hu).
- by destruct (li_lease _ _ (inv_leases _ HI1) _ _ Hl1).
- done.
- by rewrite <- (sl_kind _ _ Hs1).
- rewrite (sl_run _ _ Hs1). split; [done|]. exists r. by rewrite (sl_kind _ _ Hs1).
Qed.

Lemma run_row_insert c rid r : cR c !! rid = Some r → c <| cR ::= <[rid := r]> |> = c.
Proof. intros Hr. destruct c. unfold over. cbn in *. by rewrite insert_id. Qed.

Lemma retry_tracks q next s1 : tracks s s1 → l_attempt l < worker_max_attempts →
wp (complete_retry lid l q next t0) (closing s lid) s1.
Proof using HI Hset Hl Hlive.
intros Ht Hlt. destruct (leased_item _ Ht) as (HI1 & l1 & o & Hl1 & Hs1 & Ho & Hlf & Ha & Hio).
unfold complete_retry. cbv zeta. wp_step. eapply wp_source; [exact Ho|]. unfold update_source. wp_steps.
unfold reset_retry_target. set (o' := o <| ob_status := _ |> <| _ := _ |> <| _ := _ |> <| _ := _ |>).
set (l' := closed_lease _ _ _ _ l). change (l_work_kind l') with (l_work_kind l).
change (l_build_id l') with (l_build_id l). change (l_run_id l') with (l_run_id l).
change (l_source_outbox_id l') with (l_source_outbox_id l).
assert (same_lease l (l' <| l_updated_at := t0 |>)) as Hsl by (by apply closed_same).
assert (lease_ok (l' <| l_updated_at := t0 |>)) as Hok by (apply closed_ok, leased_ok).
case_bool_decide as Hk.
- rewrite Hk in Ho |- *. destruct (bi_item _ _ (inv_builds _ HI1) _ _ Ho) as (b & Hb & _).
  pose proof (lf_target _ _ Hlf) as Et. unfold lease_target in Et.
  rewrite (sl_kind _ _ Hs1) in Hk. rewrite decide_True, <- (sl_build _ _ Hs1) in Et by done. rewrite Et.
  wp_step. eapply wp_find_build; [done|]. unfold update_build. wp_step. wp_step. intros s' E Hf.
  eapply (close_build s1 s' o o' b _ _ Ht); [by rewrite <- (sl_kind _ _ Hs1) in Hk|done|done|exact Hsl|done|exact Hok|..|exact E]; try done.
  etrans; [|exact Hf]. by apply framed_same.
- destruct (leased_run s1 o Ht Hk Ho) as (Er & r & Hr & Hu). rewrite Er. 
  wp_step. eapply wp_find_run; [by destruct (l_work_kind l)|]. cbv iota beta. case_bool_decide as Hks.
  + rewrite Hks in Ho |- *. unfold update_run, log_status. do 2 wp_step.
    apply wp_log_event. intros s2 (lg & Hlg & E2) Hf2. wp_step. intros s' E Hf. rewrite E2 in E.
    eapply (close_start s1 s' o o' r _ _ lg Ht Hks Ho Hr Hsl); [done|exact Hok|..|exact E]; try done.
    etrans; [|exact Hf]. etrans; [|exact Hf2]. by apply framed_same.
  + assert (l_work_kind l = RUN_CANCEL) as Hkc by (destruct (l_work_kind l); done). specialize (Hu Hkc).
    rewrite Hkc in Ho |- *. do 2 wp_step. intros s' E Hf.
    eapply (close_cancel s1 s' o o' r r _ (run_events s1) Ht Hkc Ho Hr Hsl); try done.
    * etrans; [|exact Hf]. by apply framed_same.
    * apply rtc_refl.
    * rewrite E. change (core_of (put_source RUN_CANCEL (l_source_outbox_id l) o' s1)) with
        (core_of s1 <| cRC ::= <[l_source_outbox_id l := o']> |>).
      by rewrite <- (run_row_insert (core_of s1) _ r Hr) at 1.
Qed.

Lemma finished_build_inv q image b b' : finished_build q image t0 b = inr b' →
same_build b b' ∧ build_phase (b_status b')
  (if bool_decide (cq_outcome q = SUCCEEDED) then SourceStatus.DELIVERED else SourceStatus.FAILED).
Proof.
unfold finished_build. destruct (cq_outcome q); cbn; [destruct image as [[? a]|]; [destruct (_ && _)|]|..];
  intros [=<-] || intros [=]; (split; [done|]; cbn; first [done|set_solver]).
Qed.

Lemma build_tracks q image s1 : tracks s s1 → l_work_kind l = BUILD →
wp (complete_build lid l q image t0) (closing s lid) s1.
Proof using HI Hset Hl Hlive.
intros Ht Hk. destruct (leased_item _ Ht) as (HI1 & l1 & o & Hl1 & Hs1 & Ho & Hlf & Ha & Hio).
pose proof Ho as Ho'. rewrite Hk in Ho. destruct (bi_item _ _ (inv_builds _ HI1) _ _ Ho) as (b & Hb & _).
pose proof (lf_target _ _ Hlf) as Et. unfold lease_target in Et.
rewrite <- (sl_kind _ _ Hs1), <- (sl_build _ _ Hs1), decide_True in Et by done.
unfold complete_build. rewrite Et. wp_step. eapply wp_find_build; [done|]. do 4 wp_step. simplify_eq/=.
wp_step. apply wp_lift. intros b' (Hsb & Hph)%finished_build_inv.
unfold update_build, settle_source, update_source. do 2 wp_step. cbv zeta. do 2 wp_step. rewrite Hk.
eapply (wp_source l); [rewrite Hk; exact Ho|]. wp_step. wp_step. intros s' E Hf. rewrite Hk in *.
eapply (close_build s1 s' o _ _ b' _ Ht Hk Ho Hb); [by apply closed_same|apply closed_inactive|apply closed_ok, leased_ok|..|exact E];
  try done; cbn.
- by case_bool_decide.
- by case_bool_decide.
- etrans; [|exact Hf]. by apply framed_same.
Qed.

(** Confirming a cancellation fences everything of the run but the lease that confirms. *)
Lemma confirm_tracks locked wid rid r s1 rq : tracks s s1 → l_work_kind l = RUN_CANCEL →
l_run_id l = Some rid → runs s1 !! rid = Some r →
wp (confirm_cancellation locked lid l wid rid r t0 rq) (λ _ s2, tracks s s2 ∧ runs s2 = runs s1) s1.
Proof using HI Hset Hl Hlive.
intros Ht Hk Er Hr. assert (l_work_kind l ≠ BUILD) as Hkb by congruence.
destruct (leased_item _ Ht) as (HI1 & l1 & o & Hl1 & Hs1 & Ho & Hlf & Ha & Hio).
destruct (leased_run s1 o Ht Hkb Ho) as (Er' & r' & Hr' & Hu). simplify_eq. specialize (Hu Hk).
unfold confirm_cancellation. wp_step. eapply wp_source; [exact Ho|]. wp_step.
rewrite bool_decide_eq_true_2 by done. apply wp_fence. intros n s2 Hfe Hf2. apply wp_audit. intros s3 E3 Hf3.
pose proof (fe_others _ _ _ _ _ _ _ Hfe) as (_ & _ & ER & _). split.
2: { change (cR (core_of s3) = runs s1). rewrite E3. exact ER. }
eapply tracks_same; [|exact E3|exact Hf3]. eapply tracks_step; [exact Ht| |exact Hf2].
eapply (mv_fence _ _ _ _ (ob_target_id o) r (Some lid) (Some (l_source_outbox_id l))); [|done..| |exact Hfe].
{ by eapply leased_busy. }
intros k sid lid' l' [= <-] Hl' Ha' Ek' Hk' Es'. f_equal.
destruct (li_lease _ _ (inv_leases _ HI1) _ _ Hl') as (_ & o' & Ho' & Hlf'). rewrite Es', Ek' in Ho'.
assert (k = RUN_CANCEL) as ->.
{ rewrite Hk in Ho. apply item_run in Ho as [Ho Hc]; [|done]. apply item_run in Ho' as [Ho' Hc']; [|done].
  assert (o' = o) as -> by congruence. destruct k; cbn in *; congruence. }
eapply (li_unique _ _ (inv_leases _ HI1) _ _ _ _ Hl1 Hl').
- rewrite <- (sl_kind _ _ Hs1). congruence.
- rewrite <- (sl_source _ _ Hs1). congruence.
- destruct (lf_active _ _ Hlf' Ha') as [-> _]. rewrite <- (sl_attempt _ _ Hs1), Ha. congruence.
Qed.

Lemma framed_put_source k id o s1 : framed s1 (put_source k id o s1).
Proof. by destruct k; apply framed_same. Qed.
Lemma core_put_run k id o s1 : k ≠ BUILD → core_of (put_source k id o s1) = core_of s1 <| cRC ::= <[id := o]> |>.
Proof. by destruct k. Qed.

Lemma finish_run_tracks q s1 r o : tracks s s1 → l_work_kind l ≠ BUILD →
src (core_of s1) (l_work_kind l) (l_source_outbox_id l) = Some o → runs s1 !! ob_target_id o = Some r →
let r' := finished_run (l_work_kind l) q t0 r in
wp (update_run (ob_target_id o) r' ;; log_status (ob_target_id o) r' (rn_status r) ;;
    log_event (ob_target_id o) r' (if run_succeeded r' then "run.completed" else "run.failed")
      [(KStr (lit "status"), status_value (rn_status r'));
       (KStr (lit "failure_code"), opt_string (rn_failure_code r'));
       (KStr (lit "failure_summary"), opt_text (rn_failure_summary r'))] ;;
    settle_source l (run_succeeded r') (rn_failure_code r') t0 ;;
    mret (closed_lease (run_succeeded r') (rn_failure_code r') (rn_failure_summary r') t0 l))
  (closing s lid) s1.
Proof using HI Hset Hl Hlive.
intros Ht Hk Ho Hr r'. destruct (leased_run s1 o Ht Hk Ho) as (Er & r0 & Hr0 & Hu).
assert (r0 = r) as -> by congruence. destruct (finished_run_same (l_work_kind l) q r) as (Hsr & Hsc & Hst).
fold r' in Hsr, Hsc, Hst. pose proof (finished_phase _ Hst) as Hph. clearbody r'.
unfold update_run, log_status, settle_source, update_source. do 2 wp_step.
wp_step. apply wp_log_event. intros s2 Hl2 Hf2. wp_step. apply wp_log_event. intros s3 Hl3 Hf3.
destruct (only_logged_trans _ _ _ _ Hl2 Hl3) as (lg & Hlg & E3).
do 2 wp_step. apply (wp_source l o); [rewrite E3; exact Ho|]. wp_step. wp_step. intros s' E Hf.
assert (framed s1 s') as Hf'.
{ etrans; [|exact Hf]. etrans; [|apply framed_put_source]. etrans; [|exact Hf3]. etrans; [|exact Hf2].
  by apply framed_same. }
rewrite core_put_run, E3 in E by done. destruct (l_work_kind l) eqn:Ek; [done|..].
- eapply (close_start s1 s' o _ r r' _ lg Ht Ek Ho Hr); [by apply closed_same|apply closed_inactive|apply closed_ok, leased_ok|..|exact E]; try done; cbn.
  + by destruct (run_succeeded r').
  + by destruct (run_succeeded r').
  + intros Ea. rewrite Ea in Hst. set_solver.
  + by intros _.
- eapply (close_cancel s1 s' o _ r r' _ lg Ht Ek Ho Hr); [by apply closed_same|apply closed_inactive|apply closed_ok, leased_ok|..|exact E]; try done; cbn.
  + by destruct (run_succeeded r').
  + by destruct (run_succeeded r').
  + auto.
Qed.

Lemma run_tracks locked wid q s1 rq : tracks s s1 → l_work_kind l ≠ BUILD →
wp (complete_run locked lid l wid q t0 rq) (closing s lid) s1.
Proof using HI Hset Hl Hlive.
intros Ht Hk. destruct (leased_item _ Ht) as (HI1 & l1 & o & Hl1 & Hs1 & Ho & Hlf & Ha & Hio).
destruct (leased_run s1 o Ht Hk Ho) as (Er & r & Hr & Hu). unfold complete_run. rewrite Er.
wp_step. eapply wp_find_run; [done|]. wp_step. apply wp_get_or_raise. intros x [= <-]. cbv iota zeta.
wp_step. eapply (wp_mono _ (λ _ s2, tracks s s2 ∧ runs s2 = runs s1)).
2: { destruct (_ && _) eqn:E; [|by wp_step]. breflect. by apply confirm_tracks. }
intros ? s2 [Ht2 Er2]. destruct (leased_item _ Ht2) as (_ & l2 & o2 & _ & _ & Ho2 & _).
destruct (leased_run s2 o2 Ht2 Hk Ho2) as (Ero & _). assert (ob_target_id o2 = ob_target_id o) as Eo by congruence.
rewrite <- Eo. apply finish_run_tracks; [done..|]. congruence.
Qed.

Lemma complete_tracks locked wid w q rq :
wp (complete_lease locked lid l wid w q t0 rq) (λ _, tracks s) s.
Proof using HI Hset Hl Hlive.
unfold complete_lease. wp_step.
eapply (wp_mono _ (λ x s1, s1 = s ∧ (∀ rid r, x = Some (rid, r) → runs s !! rid = Some r ∧ l_run_id l = Some rid))).
2: { apply wp_gets. split; [done|]. intros rid r. case_bool_decide; [|done].
  intros (i & Ei & (r0 & Hr0 & [= <- <-])%bind_Some)%bind_Some. done. }
intros run ? [-> Hrun]. wp_step. eapply (wp_mono _ (λ _ s1, tracks s s1)).
2: { destruct run as [[rid r]|]; [|wp_step; apply tracks_start]. destruct (Hrun _ _ eq_refl) as [Hr Er].
  case_bool_decide; [wp_step; apply tracks_start|]. eapply wp_mono; [|eapply (converge_spec t0 s HI Hset)].
  - by intros b s1 [].
  - apply tracks_start.
  - exact Hr.
  - done.
  - by eapply leased_busy. }
intros [] s1 Ht1.
- wp_step. apply wp_audit. intros s2 E2 Hf2. wp_step. wp_step. wp_step. exact (tracks_same _ _ _ _ Ht1 E2 Hf2).
- destruct (leased_item _ Ht1) as (HI1 & l1 & o & Hl1 & Hs1 & Ho & Hlf & Ha & Hio).
  wp_step. eapply wp_source; [exact Ho|]. cbv zeta. wp_step. apply wp_register_artifacts. intros regs s2 E2 Hf2.
  pose proof (tracks_same _ _ _ _ Ht1 E2 Hf2) as Ht2. wp_step. apply wp_next_attempt. intros next Hnext.
  wp_step. eapply wp_mono; [intros l' s3; apply close_lease_tracks|]. destruct next as [t|].
  + apply retry_tracks; [done|]. eapply retry_attempt, Hnext. eauto.
  + destruct (bool_decide (l_work_kind l = BUILD)) eqn:Hk; breflect; [by apply build_tracks|by apply run_tracks].
Qed.
End completing.

(** ** Cancelling a run *)

Section cancelling.
Context (Hconv : 1 ≤ worker_cancel_convergence_seconds) s (HI : good s).

Lemma set_cancel_ok st r : run_ok (set_cancel t0 st r) ∧ ¬ uncancelled (set_cancel t0 st r).
Proof using Hconv. split; [|done]. unfold run_ok. cbn. unfold seconds. lia. Qed.

Lemma wp_insert_command o s1 (Q : uuid → db → Prop) :
(∀ id s2, run_commands s1 !! id = None →
   (∀ id' o', run_commands s1 !! id' = Some o' → ob_target_id o' = ob_target_id o → ob_command o' ≠ ob_command o) →
   core_of s2 = core_of s1 <| cRC ::= <[id := o]> |> → framed s1 s2 → Q id s2) →
wp (insert_command o) Q s1.
Proof.
intros HQ. unfold insert_command, update_source. wp_step. apply wp_fresh_uuid. do 2 wp_step. do 2 wp_step. do 2 wp_step.
do 2 wp_step. do 2 wp_step. wp_step. breflect. apply HQ.
- by apply eq_None_not_Some.
- intros id' o' Ho' Ht Hc. match goal with H : exists_row _ _ = false |- _ => pose proof (exists_row_false _ _ H _ _ Ho') as Hf end.
  cbn in Hf. by rewrite !bool_decide_eq_true_2 in Hf.
- done.
- by apply framed_same.
Qed.

Lemma ensure_tracks s1 rid r : tracks s s1 → runs s1 !! rid = Some r → ¬ uncancelled r → busy (core_of s) rid →
wp (ensure_cancel_command t0 rid r) (λ _, tracks s) s1.
Proof using HI Hset.
intros Ht Hr Hu Hb. unfold ensure_cancel_command. do 2 wp_step. destruct (exists_row _ _) eqn:Hex; [by wp_step|].
wp_step. apply wp_insert_command. intros id s2 Hid Hno E2 Hf2. wp_step. eapply tracks_step; [exact Ht| |exact Hf2].
rewrite E2. apply (mv_new_cancel _ _ _ (core_of s1) id (cancel_command t0 rid r) r); try done.
intros id' o' Ho' Ht'. apply item_run in Ho' as [Ho' Hc']; [|done]. by eapply Hno.
Qed.

Lemma first_cancellation_uncancelled r : bool_decide (rn_cancel_requested_at r ≠ None) = false → uncancelled r.
Proof. intros Hb. breflect. unfold uncancelled. by apply dec_stable. Qed.

Lemma transition_tracks rid r : runs s !! rid = Some r →
wp (cancel_transition t0 rid r) (λ _, tracks s) s.
Proof using HI Hset Hconv.
intros Hr. pose proof (busy_status t0 _ HI Hset _ rid r (work_refl _ _) Hr) as Hb.
unfold cancel_transition, first_cancellation. case_bool_decide as Hterm; [wp_step; apply tracks_start|].
specialize (Hb Hterm). case_bool_decide as Hq; [|case_bool_decide as Ha; [|case_bool_decide as Hab]].
- do 2 wp_step. pose proof (first_cancellation_uncancelled r ltac:(done)) as Hu.
  destruct (set_cancel_ok RunStatus.ABORTED r) as [Hok Hc]. cbv zeta. unfold update_run, log_status.
  do 2 wp_step. do 2 wp_step. set (s1 := _ <| run_commands ::= _ |>).
  wp_step. apply wp_log_event. intros s2 Hl2 Hf2. wp_step. apply wp_log_event. intros s3 Hl3 Hf3. wp_step.
  eapply (tracks_events _ s s1 s3 rid); [|exact Hb|by eapply only_logged_trans|by etrans].
  eapply (tracks_step t0 s s); [apply tracks_start| |by apply framed_same].
  by apply (mv_cancel_queued _ _ _ (core_of s) rid r _ t0).
- do 2 wp_step. pose proof (first_cancellation_uncancelled r ltac:(done)) as Hu.
  destruct (set_cancel_ok RunStatus.ABORTING r) as [Hok Hc]. cbv zeta. unfold update_run, log_status.
  do 2 wp_step. set (s1 := _ <| runs ::= _ |>).
  assert (tracks s s1) as Ht1.
  { eapply (tracks_step t0 s s); [apply tracks_start| |by apply framed_same].
    by apply (mv_cancel_active _ _ _ (core_of s) rid r). }
  wp_step. eapply wp_mono; [|eapply (ensure_tracks s1); [exact Ht1|apply lookup_insert_eq|done|done]].
  intros ? s2 Ht2. wp_step. apply wp_log_event. intros s3 Hl3 Hf3. wp_step.
  by apply (tracks_events _ s s2 s3 rid).
- assert (¬ uncancelled r) as Hu.
  { intros Hu. destruct (ri_run _ _ (inv_runs _ HI) _ _ Hr) as [Hok _]. unfold run_ok, uncancelled in *.
    rewrite Hu in Hok. by destruct (rn_cancel_deadline_at r). }
  wp_step. eapply wp_mono; [|eapply (ensure_tracks s); [apply tracks_start|exact Hr|done..]].
  intros ? s2 Ht2. by wp_step.
- wp_step.
Qed.

Lemma cancel_tracks rid org pid user key rq : wp (cancel_run rid org pid user key t0 rq) (λ _, tracks s) s.
Proof using HI Hset Hconv.
unfold cancel_run. wp_step. wp_step. wp_step. wp_step. wp_step. wp_step. cbv zeta. do 2 wp_step.
destruct (replay_of _ _ _ _ _ _) as [e|[snap|]]; [wp_step|wp_step; apply tracks_start|].
do 2 wp_step. wp_step. wp_step. do 2 wp_step. wp_step. eapply wp_mono; [|by eapply transition_tracks].
intros r' s1 Ht1. do 2 wp_step. wp_step. apply wp_audit. intros s2 E2 Hf2. wp_step.
eapply tracks_same; [exact Ht1|exact E2|]. etrans; [|exact Hf2]. by apply framed_same.
Qed.
End cancelling.

(** ** New work, grants and workers *)

Section others.
Context s (HI : good s).

Lemma queue_build_tracks org pid aid vid md oid so timeout :
wp (queue_build org pid aid vid md oid so timeout t0) (λ _, tracks s) s.
Proof using HI.
unfold queue_build, update_build, update_source. wp_step. apply wp_fresh_uuid. do 4 wp_step. do 2 wp_step.
wp_step. apply wp_fresh_uuid. do 4 wp_step. do 2 wp_step. wp_step. breflect.
eapply (tracks_step t0 s s); [apply tracks_start| |by apply framed_same].
apply (mv_new_build _ _ _ (core_of s)); try done; by apply eq_None_not_Some.
Qed.

Lemma queue_run_tracks org pid aid vid bid user input runtime receipt_only :
wp (queue_run org pid aid vid bid user input runtime receipt_only t0) (λ _, tracks s) s.
Proof using HI Hset.
unfold queue_run, update_run. wp_step. apply wp_fresh_uuid. do 4 wp_step. breflect.
set (rid := uuid4 (rng s)). assert (runs s !! rid = None) as Hr by by apply eq_None_not_Some.
assert (busy (core_of s) rid) as Hb
  by exact (busy_new t0 _ HI Hset (core_of s) rid (work_refl _ _) Hr).
cbv zeta. do 2 wp_step. set (s1 := _ <| runs ::= _ |>). wp_step.
eapply (wp_mono _ (λ _ s2, tracks s s2)).
- intros ? s2 Ht2. wp_step. apply wp_log_event. intros s3 Hl3 Hf3. wp_step. by apply (tracks_events _ s s2 s3 rid).
- destruct receipt_only.
  + wp_step. eapply (tracks_step t0 s s); [apply tracks_start| |by apply framed_same].
    by apply (mv_new_draft _ _ _ (core_of s) rid).
  + wp_step. apply wp_insert_command. intros id s2 Hid Hno E2 Hf2. wp_step.
    eapply (tracks_step t0 s s); [apply tracks_start| |]; [|etrans; [|exact Hf2]; by apply framed_same].
    rewrite E2. by apply (mv_new_run _ _ _ (core_of s) rid).
Qed.

Lemma grant_tracks lid l wid w q rq : leases s !! lid = Some l → active l →
wp (issue_grant lid l wid w q t0 rq) (λ _, tracks s) s.
Proof using HI.
intros Hl Ha. unfold issue_grant. do 4 wp_step. wp_step. apply wp_gets. wp_step. wp_step. wp_step.
wp_step. apply wp_lift. intros f _. do 2 wp_step. wp_step.
- wp_steps. apply tracks_start.
- wp_step. apply wp_lift. intros e _. cbv zeta. wp_step. apply wp_fresh_uuid. do 2 wp_step. wp_step.
  do 2 wp_step. wp_step. wp_step. apply wp_audit. intros s1 E1 Hf1. wp_step.
  eapply (tracks_same t0 s); [|exact E1|exact Hf1].
  eapply (tracks_step t0 s s); [apply tracks_start| |by apply framed_same].
  breflect. apply (mv_grant _ _ _ (core_of s) _ _ l); try done. by apply eq_None_not_Some.
Qed.

Lemma register_tracks p rq : wp (register_worker p t0 rq) (λ _, tracks s) s.
Proof using HI.
unfold register_worker, update_worker. do 2 wp_step. do 2 wp_step. wp_step. apply wp_fresh_prefix. wp_step.
apply wp_fresh_token. cbv zeta. unfold secret_digest. wp_step. wp_step. wp_step. wp_step. cbv zeta.
wp_step. apply wp_lift. intros w _. wp_step. apply wp_fresh_uuid. do 2 wp_step.
wp_step. wp_step. wp_step. wp_step. wp_step. wp_step. do 2 wp_step. wp_step. apply wp_audit. intros s1 E1 Hf1. wp_step.
eapply (tracks_same t0 s s s1); [apply tracks_start|exact E1|]. etrans; [|exact Hf1]. breflect. split; [|done].
intros i w' Hi. exists w'. split; [|done]. cbn. rewrite lookup_insert_ne; [done|]. intros <-.
match goal with H : ¬ is_Some (workers _ !! _) |- _ => apply H end. by exists w'.
Qed.

Lemma attested_concurrency w a w' :
apply_sandbox_attestation w a t0 = inr w' → wk_max_concurrency w' = wk_max_concurrency w.
Proof. unfold apply_sandbox_attestation. destruct a; [destruct (canonical_fingerprint _)|]; intros [=<-] || intros [=]; done. Qed.

Lemma worker_insert_tracks s1 s2 wid w w' : tracks s s1 → workers s1 !! wid = Some w →
wk_max_concurrency w' = wk_max_concurrency w → s2 = s1 <| workers ::= <[wid := w']> |> → tracks s s2.
Proof.
intros Ht Hw Ew ->. eapply tracks_same; [exact Ht|done|]. split; [|done].
intros i x Hi. cbn. destruct (decide (i = wid)) as [->|Hne].
- exists w'. rewrite lookup_insert_eq. split; [done|]. congruence.
- exists x. by rewrite lookup_insert_ne.
Qed.

Lemma heartbeat_tracks locked wid p rq : wp (heartbeat_worker locked wid p t0 rq) (λ _, tracks s) s.
Proof using HI Hset.
unfold heartbeat_worker. do 2 wp_step. wp_step. apply wp_get_or_raise. intros w Hw.
do 2 wp_step. cbv zeta. do 2 wp_step. wp_step. apply wp_lift. intros w1 Hw1. do 2 wp_step. wp_step.
eapply (wp_mono _ (λ w2 s1, core_of s1 = core_of s ∧ workers s1 = workers s ∧ projects s1 = projects s ∧
  wk_max_concurrency w2 = wk_max_concurrency w)).
- intros w2 s1 (E1 & Ew & Ep & Ec). unfold update_worker. wp_step. wp_step.
  assert (tracks s s1) as Ht1.
  { eapply (tracks_same t0 s s); [apply tracks_start|done|by apply framed_same]. }
  assert (tracks s (s1 <| workers ::= <[wid := if sandbox_execution_enabled then w2
    else w2 <| wk_sandbox_execution_enabled := false |>]> |>)) as Ht2.
  { eapply worker_insert_tracks; [exact Ht1|rewrite Ew; exact Hw| |done].
    by destruct sandbox_execution_enabled. }
  apply (wp_then t0 Hset); [done|exact Ht2|]. intros HI2. wp_step.
  eapply wp_mono; [|by apply (reap_expired_tracks t0 Hset)]. intros ? s3 Ht3. by wp_step.
- apply attested_concurrency in Hw1. cbn in Hw1. destruct (hb_recovery p) as [q|]; [|wp_step; by split_and!].
  wp_step; [wp_step; by split_and!|]. wp_step; [|wp_step; by split_and!].
  wp_step. unfold system_audit. wp_step. wp_step. by split_and!.
Qed.

Lemma lose_tracks s1 lost rq wid : tracks s s1 → wp (lose_worker t0 lost rq wid) (λ _, tracks s) s1.
Proof using HI Hset.
intros Ht1. unfold lose_worker. do 2 wp_step. set (s2 := s1 <| workers ::= _ |>).
assert (tracks s s2) as Ht2.
{ eapply tracks_same; [exact Ht1|done|]. split; [|done]. intros i w Hi. unfold s2. cbn.
  destruct (decide (i = wid)) as [->|Hne]; [rewrite lookup_alter_eq, Hi; by eexists|].
  rewrite lookup_alter_ne by done. by exists w. }
pose proof (tracks_good _ Hset _ _ HI Ht2) as HI2.
do 2 wp_step. do 2 wp_step. do 2 wp_step. wp_step. apply wp_audit. intros s3 E3 Hf3. wp_step.
eapply (tracks_step t0 s s2); [exact Ht2| |etrans; [|exact Hf3]; by apply framed_same].
rewrite E3. apply (mv_touch _ _ _ (core_of s2) (update_where (of_worker t0 wid) (lost_lease t0) (leases s2))).
- intros i l' (l & Hl & ->)%lookup_update_where_Some. exists l. split; [done|].
  destruct (of_worker t0 wid i l) eqn:Eo; [|by left]. right.
  assert (live t0 l = true) as Hlive by (unfold of_worker in Eo; by breflect).
  pose proof (proj1 (live_true _ _) Hlive) as (Ha & _). split.
  + split_and!; [by split|done|done| |by left]. intros []. split; cbn; try done; try lia.
    destruct (Z.ltb_spec (l_claimed_at l) t0); [lia|]. exfalso.
    match goal with H : existsb _ _ = false |- _ => rename H into Hex end.
    apply not_true_iff_false in Hex. apply Hex, existsb_exists. exists (i, l). split; [|cbn; lia].
    apply list_elem_of_In, elem_of_select. done.
  + intros rid Hr. eapply (busy_lease t0 _ HI Hset); [exact (tr_work _ _ _ Ht2)|exact Hl|done|done].
- intros i l Hl. rewrite lookup_update_where. change (leases s2 !! i = Some l) in Hl. rewrite Hl. by eexists.
Qed.

Lemma lose_workers_tracks s1 lost rq ids n : tracks s s1 → wp (lose_workers t0 lost rq ids n) (λ _, tracks s) s1.
Proof using HI Hset.
revert s1 n. induction ids as [|id ids IH]; intros s1 n Ht; cbn; [by wp_step|].
wp_step. eapply wp_mono; [|by apply lose_tracks]. intros k s2 Ht2. by apply IH.
Qed.

Lemma detect_tracks locked lost batch rq : wp (detect_lost_workers locked t0 lost batch rq) (λ _, tracks s) s.
Proof using HI Hset.
unfold detect_lost_workers. do 2 wp_step. do 2 wp_step. do 2 wp_step. wp_step.
eapply wp_mono; [|apply lose_workers_tracks, tracks_start]. intros n s1 Ht. by wp_step.
Qed.

Lemma sweep_tracks acquired locked batch rq :
wp (run_execution_recovery_sweep acquired locked t0 batch rq) (λ _, tracks s) s.
Proof using HI Hset.
unfold run_execution_recovery_sweep. do 2 wp_step. destruct acquired; cbn [negb]; [|wp_step; apply tracks_start].
wp_step. eapply wp_mono; [|apply detect_tracks]. intros [lost fenced] s1 Ht1.
apply (wp_then t0 Hset); [done|exact Ht1|]. intros HI1. wp_step.
eapply wp_mono; [|by apply (reap_expired_tracks t0 Hset)]. intros reaped s2 Ht2.
apply (wp_then t0 Hset); [done|exact Ht2|]. intros HI2. wp_step.
eapply wp_mono; [|by apply (reap_overdue_tracks t0 Hset)]. intros converged s3 Ht3.
wp_step. eapply (wp_mono _ (λ _ s4, tracks s2 s4)); [intros ? s4 Ht4; by wp_step|].
destruct (_ || _); [|by wp_step]. apply wp_audit. intros s4 E4 Hf4. exact (tracks_same t0 s2 s3 s4 Ht3 E4 Hf4).
Qed.
End others.

(** ** Claims *)

(** A new lease is within the limits of its worker and of its project. *)
Record within (c : core) s' (l : ExecutionLease) : Prop := {
wi_claimed : l_claimed_at l = t0;
wi_worker : ∃ w, workers s' !! l_worker_id l = Some w ∧
  countZ (λ l', bool_decide (l_worker_id l' = l_worker_id l) && live t0 l') (cL c) < wk_max_concurrency w;
wi_project : project_slot (l_work_kind l) = true → ∃ p, projects s' !! l_project_id l = Some p ∧
  countZ (holds_slot t0 (l_project_id l)) (cL c) < pr_max_active_leases p }.

(** What a transaction of the plane does: quiet steps, and perhaps a claim or the
  refusal of one at the end. *)
Inductive evolves s s' : Prop :=
| ev_quiet : tracks s s' → evolves s s'
| ev_refused c : work t0 (core_of s) c → refusal c (core_of s') → framed s s' → evolves s s'
| ev_claimed c k lid l : work t0 (core_of s) c → claim c k lid l (core_of s') → framed s s' →
    within c s' l → evolves s s'.

Section claims.
Context s (HI : good s).

(** A claimable row is a pending work item. *)
Lemma claimable_item k locked s1 sid o : claimable k t0 locked s1 sid o = true → sources k s1 !! sid = Some o →
ob_status o = SourceStatus.PENDING ∧ src (core_of s1) k sid = Some o.
Proof.
unfold claimable. intros Hc Ho. destruct k; breflect; (split; [done|]); cbn in *; [done|..];
  (rewrite Ho; cbn; by apply with_command_Some).
Qed.

(** The row a claim inserts, and what the table checked of it. *)
Lemma wp_insert_lease l s1 (Q : uuid → db → Prop) :
(∀ lid, leases s1 !! lid = None → l_claimed_at l < l_expires_at l → l_expires_at l ≤ l_deadline_at l →
   Q lid (s1 <| rng ::= N.succ |> <| leases ::= <[lid := l]> |>)) →
wp (insert_lease l) Q s1.
Proof.
intros HQ. unfold insert_lease, update_lease. wp_step. apply wp_fresh_uuid. do 2 wp_step.
do 8 (wp_step; wp_step). do 2 wp_step. wp_step. breflect. apply HQ; [by apply eq_None_not_Some|lia..].
Qed.

Lemma wp_seal k w payload deadline admission s1 Q :
(∀ x, Q x s1) → wp (seal_payload k w payload deadline admission) Q s1.
Proof.
intros HQ. unfold seal_payload. wp_step. apply wp_lift. intros p _. wp_step. apply wp_lift. intros a _. cbv zeta.
wp_step. apply wp_lift. intros d _. cbv zeta. wp_step. apply wp_lift. intros st _. cbv zeta.
wp_step. apply wp_lift. intros q _. cbv zeta. wp_step. apply HQ.
Qed.

(** Starting the target of a claim. *)
Lemma wp_start_build bid s1 (Q : list (pykey * pyval) → db → Prop) :
(∀ payload b b', builds s1 !! bid = Some b → same_build b b' → b_status b' = BuildStatus.STARTING →
   Q payload (s1 <| builds ::= <[bid := b']> |>)) →
wp (start_target BUILD bid t0) Q s1.
Proof.
intros HQ. unfold start_target, build_claim_payload, start_build, update_build. wp_steps. simplify_eq/=. by eapply HQ.
Qed.

Lemma wp_start_run rid s1 (Q : list (pykey * pyval) → db → Prop) :
(∀ payload r r' s2, runs s1 !! rid = Some r → same_run_row r r' → same_cancellation r r' →
   rn_status r = RunStatus.QUEUED → rn_status r' = RunStatus.STARTING →
   only_logged rid (core_of s1 <| cR ::= <[rid := r']> |>) (core_of s2) → framed s1 s2 → Q payload s2) →
wp (start_target RUN_START rid t0) Q s1.
Proof.
intros HQ. unfold start_target, run_claim_payload, start_run, update_run, log_status. wp_steps. simplify_eq/=. breflect.
apply wp_log_event. intros s2 Hl2 Hf2. wp_step.
eapply (HQ _ _ _ s2); [done| | | | |exact Hl2|]; try done. etrans; [|exact Hf2]. by apply framed_same.
Qed.

Lemma wp_start_cancel rid s1 (Q : list (pykey * pyval) → db → Prop) :
(∀ payload r, runs s1 !! rid = Some r → rn_status r = RunStatus.ABORTING → Q payload s1) →
wp (start_target RUN_CANCEL rid t0) Q s1.
Proof.
intros HQ. unfold start_target, run_claim_payload. wp_steps. simplify_eq/=. breflect. by eapply HQ.
Qed.

Lemma admits_new c k sid o lid wid digest pd expires deadline payload :
inv c → src c k sid = Some o → ob_status o = SourceStatus.PENDING → cL c !! lid = None →
t0 < expires → expires ≤ deadline → expires ≤ t0 + seconds worker_lease_max_seconds →
admits c k sid o (claimed_source t0 o) lid
  (new_lease wid k sid (claimed_source t0 o) digest pd t0 expires deadline <| l_payload_snapshot := payload |>).
Proof.
intros HIc Ho Hp Hlid Hx1 Hx2 Hx3. pose proof (li_item _ _ (inv_leases _ HIc) _ _ _ Ho) as [Hat Hmax]. specialize (Hmax Hp).
split; try done; cbn.
- split; cbn; try done; [lia|]. destruct k; cbn; [|by eauto..]. by eauto.
- split; cbn; try done; [|intros _; split; [done|set_solver]]. unfold lease_target. cbn. by destruct k.
Qed.

Section claiming.
Context s1 (Ht1 : tracks s s1) (wid : uuid) (w : WorkerIdentity) (k : work_kind) (sid : uuid) (o : Outbox).
Context (active_worker : Z) (p : Project) (active_project : Z) (rq : string).
Context (Ho : src (core_of s1) k sid = Some o) (Hp : ob_status o = SourceStatus.PENDING).
Context (Hw : workers s1 !! wid = Some w).
Context (Haw : countZ (λ l', bool_decide (l_worker_id l' = wid) && live t0 l') (leases s1) < wk_max_concurrency w).
Context (Hpr : project_slot k = true → projects s1 !! ob_project_id o = Some p ∧
  countZ (holds_slot t0 (ob_project_id o)) (leases s1) < pr_max_active_leases p).

(** The claim as one step: after the events it logs. *)
Lemma claim_evolves s' c lid l : core_of s1 <| cE := cE c |> = c → work t0 (core_of s) c → claim c k lid l (core_of s') →
framed s1 s' → l_worker_id l = wid → l_work_kind l = k → l_project_id l = ob_project_id o → l_claimed_at l = t0 →
evolves s s'.
Proof using Ht1 Hw Haw Hpr.
intros Ec Hwk Hcl Hf Elw Elk Elp Elc. assert (cL c = leases s1) as EL by by rewrite <- Ec.
eapply ev_claimed; [exact Hwk|exact Hcl|etrans; [apply Ht1|exact Hf]|]. split; [done|..]; rewrite EL.
- destruct (fr_workers _ _ Hf _ _ Hw) as (w' & Hw' & Ew). rewrite Elw. exists w'. split; [done|]. by rewrite Ew.
- rewrite Elk, Elp. intros Hs. destruct (Hpr Hs) as [Hpj Hc]. exists p. split; [|done]. by rewrite (fr_projects _ _ Hf).
Qed.

Lemma relet (c : core) lid l0 l : c <| cL ::= <[lid := l0]> |> <| cL ::= <[lid := l]> |> = c <| cL ::= <[lid := l]> |>.
Proof. destruct c. unfold over. cbn. by rewrite insert_insert_eq. Qed.

Lemma relet_claim c k' lid c2 l0 l : claim c k' lid l (c2 <| cL ::= <[lid := l]> |>) →
claim c k' lid l (c2 <| cL ::= <[lid := l0]> |> <| cL ::= <[lid := l]> |>).
Proof. by rewrite relet. Qed.

(** Starting the target completes the claim, whatever the lease row ends up holding. *)
Definition started (lid : uuid) s4 : Prop := framed s1 s4 ∧ ∃ c, core_of s1 <| cE := cE c |> = c ∧
work t0 (core_of s) c ∧ ∀ l', admits c k sid o (claimed_source t0 o) lid l' →
  claim c k lid l' (core_of s4 <| cL ::= <[lid := l']> |>).

Lemma start_target_started s3 lid l0 :
core_of s3 = core_of (put_source k sid (claimed_source t0 o) s1) <| cL ::= <[lid := l0]> |> → framed s1 s3 →
wp (start_target k (ob_target_id o) t0) (λ _, started lid) s3.
Proof using HI Hset Ht1 Ho Hp Hw Haw Hpr.
intros E3 Hf3. set (o' := claimed_source t0 o) in *. destruct Ht1 as [Hw1 _]. destruct k eqn:Ek.
- apply wp_start_build. intros payload b b' Hb Hsb Hst. split; [etrans; [exact Hf3|by apply framed_same]|].
  exists (core_of s1). split_and!; [by destruct s1|done|]. intros l'. rewrite Ek. intros Had.
  change (cB (core_of s3) !! ob_target_id o = Some b) in Hb. rewrite E3 in Hb.
  change (core_of (s3 <| builds ::= <[ob_target_id o := b']> |>)) with
    (core_of s3 <| cB ::= <[ob_target_id o := b']> |>). rewrite E3.
  refine (relet_claim (core_of s1) _ lid (core_of s1 <| cBO ::= <[sid := o']> |>
    <| cB ::= <[ob_target_id o := b']> |>) l0 l' _).
  exact (cl_build (core_of s1) _ lid l' sid o o' b b' eq_refl Had Hb Hsb Hst).
- apply wp_start_run. intros payload r r' s4 Hr Hsr Hsc Hq Hst (lg & Hlg & E4) Hf4. split; [by etrans|].
  exists (core_of s1 <| cE := lg |>). change (cR (core_of s3) !! ob_target_id o = Some r) in Hr. rewrite E3 in Hr, Hlg, E4.
  split_and!; [done| |].
  { apply (logged_work t0 (core_of s) (ob_target_id o)); [done| |exact Hlg].
    by apply (busy_command t0 _ HI Hset (core_of s1) RUN_START sid). }
  intros l'. rewrite Ek. intros Had. rewrite E4.
  refine (relet_claim (core_of s1 <| cE := lg |>) _ lid (core_of s1 <| cE := lg |> <| cRC ::= <[sid := o']> |>
    <| cR ::= <[ob_target_id o := r']> |>) l0 l' _).
  exact (cl_start (core_of s1 <| cE := lg |>) _ lid l' sid o o' r r' eq_refl Had Hr Hsr Hsc Hq Hst).
- apply wp_start_cancel. intros payload r Hr Hab. split; [done|].
  exists (core_of s1). split_and!; [by destruct s1|done|]. intros l'. rewrite Ek. intros Had.
  change (cR (core_of s3) !! ob_target_id o = Some r) in Hr. rewrite E3 in Hr. rewrite E3.
  refine (relet_claim (core_of s1) _ lid (core_of s1 <| cRC ::= <[sid := o']> |>) l0 l' _).
  exact (cl_cancel (core_of s1) _ lid l' sid o o' r eq_refl Had Hr Hab).
Qed.

Lemma claim_source_evolves : wp (claim_source wid w k sid o active_worker p active_project t0 rq) (λ _, evolves s) s1.
Proof using HI Hset Ht1 Ho Hp Hw Haw Hpr.
unfold claim_source, update_source, secret_digest. cbv zeta. do 2 wp_step. wp_step. apply wp_fresh_token. wp_step. wp_step. wp_step. wp_step.
wp_step. apply wp_lift. intros deadline _. do 2 wp_step. wp_step. apply wp_lift. intros expires (Hm & Hcd & He)%clamp_inr.
do 2 wp_step. wp_step. set (l0 := new_lease _ _ _ _ _ _ _ _ _). apply wp_insert_lease. intros lid Hlid Hx1 Hx2.
pose proof (tracks_good _ Hset _ _ HI Ht1) as HI1.
assert (leases s1 !! lid = None) as Hl1 by by destruct k. cbn in Hx1, Hx2.
wp_step. eapply wp_mono; [|eapply (start_target_started _ lid l0); [by destruct k|by destruct k; apply framed_same]].
intros payload s4 (Hf4 & c & Ec & Hwk & Hcl). wp_step. apply wp_seal. intros [[pl act] en].
wp_step. wp_step. unfold update_lease. do 2 wp_step. wp_step. apply wp_audit. intros s5 E5 Hf5. wp_step.
match type of E5 with core_of s5 = core_of (s4 <| leases ::= <[lid := ?x]> |>) => set (l := x) in * end.
change (core_of s5 = core_of s4 <| cL ::= <[lid := l]> |>) in E5.
eapply (claim_evolves s5 c lid l Ec Hwk); try done.
- rewrite E5. apply Hcl, admits_new; try done; [exact (work_inv t0 _ HI Hset _ Hwk)|rewrite <- Ec; exact Ho|rewrite <- Ec; exact Hl1|lia].
- etrans; [exact Hf4|]. etrans; [|exact Hf5]. by apply framed_same.
Qed.
End claiming.

(** The refusal of a START command whose egress policy binding is stale. *)
Lemma refuse_evolves s1 sid o r rq details : tracks s s1 → src (core_of s1) RUN_START sid = Some o →
ob_status o = SourceStatus.PENDING → runs s1 !! ob_target_id o = Some r →
wp (refuse_binding sid o (ob_target_id o) r t0 rq details) (λ _, evolves s) s1.
Proof using HI Hset.
intros Ht Ho Hp Hr. unfold refuse_binding, update_source, update_run, log_status. cbv zeta.
do 2 wp_step. do 2 wp_step. wp_step. apply wp_log_event. intros s2 Hl2 Hf2. wp_step. apply wp_log_event.
intros s3 Hl3 Hf3. apply wp_audit. intros s4 E4 Hf4.
destruct (only_logged_trans _ _ _ _ Hl2 Hl3) as (lg & Hlg & E3). destruct Ht as [Hw1 Hf1].
eapply (ev_refused s s4 (core_of s1 <| cE := lg |>)).
- apply (logged_work t0 (core_of s) (ob_target_id o)); [done| |exact Hlg].
  by apply (busy_command t0 _ HI Hset (core_of s1) RUN_START sid).
- rewrite E4, E3. match goal with |- refusal _ (core_of (put_source _ _ ?x _ <| runs ::= <[_ := ?y]> |>) <| cE := _ |>) =>
    assert (refusal (core_of s1 <| cE := lg |>) (core_of s1 <| cE := lg |> <| cRC ::= <[sid := x]> |>
      <| cR ::= <[ob_target_id o := y]> |>)) as Hx by (by apply (refused _ sid o x r y)) end.
  exact Hx.
- etrans; [exact Hf1|]. etrans; [|exact Hf4]. etrans; [|exact Hf3]. etrans; [|exact Hf2]. by apply framed_same.
Qed.

Lemma binding_evolves s1 sid o rq : tracks s s1 → src (core_of s1) RUN_START sid = Some o →
ob_status o = SourceStatus.PENDING →
wp (bound_run_egress_policy_is_current sid o t0 rq) (λ b s2, if b then s2 = s1 else evolves s s2) s1.
Proof using HI Hset.
intros Ht Ho Hp. unfold bound_run_egress_policy_is_current. do 2 wp_step.
destruct (runs s1 !! ob_target_id o) as [r|] eqn:Hr; [|by wp_step]. cbv zeta.
destruct (_ && _); [by wp_step|]. destruct (default _ _) as [policy_id revision_id]. do 2 wp_step.
destruct (_ && _); [by wp_step|]. wp_step. eapply wp_mono; [|by eapply refuse_evolves].
intros ? s2 Hev. by wp_step.
Qed.

Lemma claim_kinds_evolves locked wid w active_worker rq kinds s1 : tracks s s1 → workers s1 !! wid = Some w →
countZ (λ l', bool_decide (l_worker_id l' = wid) && live t0 l') (leases s1) < wk_max_concurrency w →
wp (claim_kinds locked wid w active_worker t0 rq kinds) (λ _, evolves s) s1.
Proof using HI Hset.
intros Ht Hw Haw. induction kinds as [|k kinds IH]; cbn; [wp_step; by apply ev_quiet|].
unfold select_source. do 2 wp_step.
destruct (head (order_by (by_key source_key) (select (claimable k t0 locked s1) (sources k s1)))) as [[sid o]|] eqn:Hh; [|done].
assert ((sid, o) ∈ select (claimable k t0 locked s1) (sources k s1)) as [Ho Hc]%elem_of_select.
{ apply (elem_of_order_by (by_key source_key)). destruct (order_by (by_key source_key) _); [done|]. simplify_eq/=. left. }
destruct (claimable_item _ _ _ _ _ Hc Ho) as [Hp Hs]. wp_step.
eapply (wp_mono _ (λ (b : bool) s2, if b then s2 = s1 else evolves s s2)).
2: { case_bool_decide as Hk; [subst k; by apply binding_evolves|by wp_step]. }
intros [] s2 Hs2; cbn [negb]; [subst s2|by wp_step]. unfold lock_project_admission. do 2 wp_step. wp_step. wp_step.
apply wp_get_or_raise. intros p Hpj. do 2 wp_step. do 2 wp_step. do 2 wp_step. wp_step.
wp_step. eapply wp_mono; [|eapply (claim_source_evolves s1 Ht wid w k sid o); try done].
- intros c s2 Hev. by wp_step.
- intros Hslot. split; [done|]. 
  match goal with H : project_slot k && _ = false |- _ => rewrite Hslot in H; cbn in H end. breflect.
  by unfold active_project_leases in *.
Qed.

Lemma claim_work_evolves locked wid kinds rq :
wp (claim_work locked wid kinds t0 rq) (λ _, evolves s) s.
Proof using HI Hset.
unfold claim_work. wp_step. eapply wp_mono; [|by apply (reap_expired_tracks t0 Hset)]. intros ? s1 Ht1.
do 2 wp_step. wp_step. apply wp_get_or_raise. intros w Hw. do 2 wp_step. do 2 wp_step. do 2 wp_step.
do 2 wp_step. do 2 wp_step. breflect. by apply claim_kinds_evolves.
Qed.
End claims.
End operations.
