(* ===== verification/ExecutionSpec.v ===== *)
(** The execution plane as a system: requests of workers and users, the recovery sweep
    and the other components' changes interleave as transactions; what holds in every
    state they reach. *)

From S2P Require Import Prelude PyVal Json PyUuid PyTime Base64 QueueProtocol Idempotency.
From S2P Require Import Pagination EventProtocol RunEvents Recovery ExecutionPlane.
From S2P Require Import LeaseProtocol ExecutionSteps ExecutionOps.
(** ** Requests *)

(** What a worker does under a lease. *)
Inductive lease_op :=
| Renew (extend_seconds : Z)
| Report (status : reported_status) (message : option pystr)
| AppendEvents (events : list (string * list (pykey * pyval)))
| Complete (locked : gset uuid) (q : CompleteLeaseRequest)
| IssueGrant (q : GrantRequest).

Record cancel_request := MkCancel {
  cn_run_id : uuid; cn_organization_id : uuid; cn_project_id : uuid; cn_user_id : uuid; cn_key : pystr }.

(** The requests of the plane.  [race] is a cancellation that another request commits
    between the check of a lease and the operation under it: only the lease row is
    locked in between. *)
Inductive op :=
| Register (p : RegisterWorkerRequest)
| Heartbeat (authorization : option pystr) (locked : gset uuid) (p : WorkerHeartbeatRequest)
| Claim (authorization : option pystr) (locked : gset uuid) (kinds : list work_kind)
| OnLease (authorization : option pystr) (lease_id : uuid) (lease_token : option pystr)
    (race : option cancel_request) (a : lease_op)
| Cancel (q : cancel_request)
| QueueBuild (organization_id project_id agent_id agent_version_id : uuid) (manifest_digest : pystr)
    (source_object_id : uuid) (source : StorageObject) (timeout_seconds : Z)
| QueueRun (organization_id project_id agent_id agent_version_id build_id user_id : uuid)
    (input_reference runtime : list (pykey * pyval)) (receipt_only : bool)
| Sweep (acquired : bool) (locked : gset uuid) (batch_size : Z).

(** The bounds the request schemas put on a renewal. *)
Definition valid_op (o : op) : bool :=
  match o with
  | OnLease _ _ _ _ (Renew n) => (15 <=? n) && (n <=? 300)
  | _ => true
  end.

(** A request that runs to its end inside another one: committed, or rolled back. *)
Definition concurrently {A} (m : M db A) : M db () := λ s,
  match m s with
  | (inr _, s') => (inr (), s')
  | (inl _, _) => (inr (), s)
  end.

Section spec.
Context `{Entropy, Sha256, CaseFold, PyRepr, IsoForms, Settings, HmacSha256, TokenSource}.
Context `{UnicodeDecimal, ClaimSealing, ArtifactChecks}.
Implicit Types (s : db).

Definition run_cancel (q : cancel_request) (now : time) (rq : string) : M db (uuid * Run) :=
cancel_run (cn_run_id q) (cn_organization_id q) (cn_project_id q) (cn_user_id q) (cn_key q) now rq.

Definition run_lease_op (a : lease_op) (wid : uuid) (w : WorkerIdentity) (lid : uuid) (l : ExecutionLease)
  (now : time) (rq : string) : M db () :=
match a with
| Renew n => renew_lease lid l wid n now rq ;; mret ()
| Report st message => update_lease_status lid l wid st message now rq ;; mret ()
| AppendEvents events => append_worker_events l wid w events rq ;; mret ()
| Complete locked q => complete_lease locked lid l wid w q now rq ;; mret ()
| IssueGrant q => issue_grant lid l wid w q now rq ;; mret ()
end.

Definition run_op (o : op) (now : time) (rq : string) : M db () :=
match o with
| Register p => register_worker p now rq ;; mret ()
| Heartbeat auth locked p =>
    '(wid, _) ← resolve_worker_context now auth; heartbeat_worker locked wid p now rq ;; mret ()
| Claim auth locked kinds =>
    '(wid, _) ← resolve_worker_context now auth; claim_work locked wid kinds now rq ;; mret ()
| OnLease auth lid token race a =>
    '(wid, w) ← resolve_worker_context now auth;
    l ← require_lease_access now lid token wid;
    match race with Some q => concurrently (run_cancel q now rq) | None => mret () end ;;
    run_lease_op a wid w lid l now rq
| Cancel q => run_cancel q now rq ;; mret ()
| QueueBuild org pid aid vid md oid so t => queue_build org pid aid vid md oid so t now ;; mret ()
| QueueRun org pid aid vid bid user input runtime receipt_only =>
    queue_run org pid aid vid bid user input runtime receipt_only now ;; mret ()
| Sweep acquired locked batch => run_execution_recovery_sweep acquired locked now batch rq ;; mret ()
end.

(** [get_db]: committed when the handler returns, rolled back when it raises. *)
Definition transaction {A} (m : M db A) s : db :=
match m s with
| (inr _, s') => s'
| (inl _, s') => s <| rng := rng s' |>
end.

(** Other components change the tables the plane only reads; they keep the projects,
  whose lease limits are not lowered. *)
Record external s s' : Prop := {
  ex_core : core_of s' = core_of s;
  ex_workers : workers s' = workers s;
  ex_projects : ∀ pid p, projects s !! pid = Some p → ∃ p', projects s' !! pid = Some p' ∧
    pr_max_active_leases p ≤ pr_max_active_leases p' }.

(** The system: a clock that does not go back, and the database. *)
Inductive step : time * db → time * db → Prop :=
| step_op now now' o rq s : now ≤ now' → valid_op o = true →
    step (now, s) (now', transaction (run_op o now' rq) s)
| step_external now s s' : external s s' → step (now, s) (now, s').

Definition empty_db (ps : gmap uuid Project) : db :=
MkDb ∅ ps ∅ ∅ ∅ ∅ ∅ ∅ ∅ ∅ [] ∅ ∅ ∅ [] [] 0%N.
Definition reachable (x : time * db) : Prop := ∃ now ps, rtc step (now, empty_db ps) x.

(** ** Every transaction is a sequence of steps of the protocol *)

Section proofs.
Context (Hval : valid_worker_settings = true).
Abbreviation good s := (inv (core_of s)) (only parsing).

Lemma attempts_positive : 1 ≤ worker_max_attempts.
Proof using Hval. unfold valid_worker_settings in Hval. breflect. lia. Qed.
Lemma convergence_positive : 1 ≤ worker_cancel_convergence_seconds.
Proof using Hval. unfold valid_worker_settings in Hval. breflect. lia. Qed.

Lemma evolves_trans t s s1 s2 : good s → tracks t s s1 → evolves t s1 s2 → evolves t s s2.
Proof using Hval.
intros HI Ht Hev. destruct Hev as [Ht2|c Hw Hr Hf|c k lid l Hw Hc Hf Hwi].
- apply ev_quiet. exact (tracks_trans t attempts_positive _ _ _ HI Ht Ht2).
- eapply ev_refused; [|exact Hr|etrans; [apply Ht|exact Hf]]. exact (work_trans t attempts_positive _ _ _ HI (tr_work _ _ _ Ht) Hw).
- eapply ev_claimed; [|exact Hc|etrans; [apply Ht|exact Hf]|done]. exact (work_trans t attempts_positive _ _ _ HI (tr_work _ _ _ Ht) Hw).
Qed.

Lemma resolve_tracks now auth s :
wp (resolve_worker_context now auth) (λ _ s', tracks now s s' ∧ core_of s' = core_of s) s.
Proof.
unfold resolve_worker_context, secret_digest, update_worker. wp_steps. split; [|done].
match goal with H : head (select _ _) = Some (?i, ?w) |- _ => apply head_select_Some in H as [H _];
  apply (worker_insert_tracks now s s _ i w (w <| wk_last_seen_at := Some now |>)); [apply tracks_start|exact H|done|done] end.
Qed.

Lemma require_spec now lid token wid s :
wp (require_lease_access now lid token wid) (λ l s', s' = s ∧ leases s !! lid = Some l ∧ live now l = true) s.
Proof.
unfold require_lease_access, secret_digest, find_run. wp_steps. breflect. by split_and!.
Qed.

Lemma wp_concurrently {A} (m : M db A) s (Q : () → db → Prop) :
Q () s → wp m (λ _, Q ()) s → wp (concurrently m) Q s.
Proof.
intros HQ Hm [] s' E. unfold concurrently in E. destruct (m s) as [[e|x] s1] eqn:Em; injection E as <-; [done|].
exact (Hm x s1 Em).
Qed.

(** A cancellation does not touch a lease. *)
Lemma wp_log_leases L rid r ty p s : leases s = L → wp (log_event rid r ty p) (λ _ s', leases s' = L) s.
Proof.
intros E. apply wp_log_event. intros s' (l' & _ & E') _. change (cL (core_of s') = L). by rewrite E'.
Qed.
Lemma ensure_leases L now rid r s : leases s = L → wp (ensure_cancel_command now rid r) (λ _ s', leases s' = L) s.
Proof.
intros E. unfold ensure_cancel_command. do 2 wp_step. wp_step; [by wp_step|]. wp_step. apply wp_insert_command.
intros id s' _ _ E' _. wp_step. change (cL (core_of s') = L). by rewrite E'.
Qed.
Lemma transition_leases now rid r s :
wp (cancel_transition now rid r) (λ _ s', leases s' = leases s) s.
Proof.
unfold cancel_transition, first_cancellation, update_run, log_status. wp_step; [by wp_step|].
wp_step; [|wp_step; [|wp_step; [|wp_step]]].
- do 2 wp_step. cbv zeta. do 2 wp_step. do 2 wp_step. wp_step. eapply wp_mono; [|by apply (wp_log_leases (leases s))].
  intros ? s1 E1. wp_step. eapply wp_mono; [|by apply (wp_log_leases (leases s))]. intros ? s2 E2. by wp_step.
- do 2 wp_step. cbv zeta. do 2 wp_step. wp_step. eapply wp_mono; [|by apply (ensure_leases (leases s))].
  intros ? s1 E1. wp_step. eapply wp_mono; [|by apply (wp_log_leases (leases s))]. intros ? s2 E2. by wp_step.
- wp_step. eapply wp_mono; [|by apply (ensure_leases (leases s))]. intros ? s1 E1. by wp_step.
Qed.
Lemma cancel_leases q now rq s : wp (run_cancel q now rq) (λ _ s', leases s' = leases s) s.
Proof.
unfold run_cancel, cancel_run. wp_step. wp_step. wp_step. wp_step. wp_step. wp_step. cbv zeta. do 2 wp_step.
destruct (replay_of _ _ _ _ _ _) as [e|[snap|]]; [wp_step|by wp_step|].
do 2 wp_step. wp_step. wp_step. do 2 wp_step. wp_step. eapply wp_mono; [|by eapply transition_leases].
intros r' s1 E1. do 2 wp_step. unfold system_audit. wp_step. wp_step. by wp_step.
Qed.

Lemma wp_forget {A} (m : M db A) (Q : db → Prop) s : wp m (λ _, Q) s → wp (m ;; mret ()) (λ _, Q) s.
Proof. intros Hm. wp_step. eapply wp_mono; [|exact Hm]. intros a s' HQ. by wp_step. Qed.

Lemma lease_op_tracks a wid w lid l now rq s :
good s → leases s !! lid = Some l → live now l = true → valid_op (OnLease None lid None None a) = true →
wp (run_lease_op a wid w lid l now rq) (λ _, tracks now s) s.
Proof using Hval.
intros HI Hl Hlive Hv. pose proof attempts_positive as Hset. destruct a; apply wp_forget.
- cbn in Hv. breflect. apply (renew_tracks now Hset s HI lid l Hl Hlive). lia.
- by apply status_tracks.
- by apply (events_tracks now Hset s HI lid l Hl Hlive).
- by apply complete_tracks.
- apply (grant_tracks now s HI); [done|]. by apply live_true in Hlive as [].
Qed.

Lemma race_tracks race now rq s : good s →
wp (match race with Some q => concurrently (run_cancel q now rq) | None => mret () end)
  (λ _ s', tracks now s s' ∧ leases s' = leases s) s.
Proof using Hval.
intros HI. destruct race as [q|]; [|wp_step; split; [apply tracks_start|done]].
apply wp_concurrently; [split; [apply tracks_start|done]|].
apply wp_conj; [|apply cancel_leases]. apply cancel_tracks; [apply attempts_positive|apply convergence_positive|done].
Qed.

Lemma run_op_evolves o now rq s : good s → valid_op o = true → wp (run_op o now rq) (λ _, evolves now s) s.
Proof using Hval.
intros HI Hv. pose proof attempts_positive as Hset. pose proof convergence_positive as Hconv.
destruct o; cbn [run_op]; try apply wp_forget.
- eapply wp_mono; [intros ? s'; apply ev_quiet|]. by apply register_tracks.
- wp_step. eapply wp_mono; [|apply resolve_tracks]. intros [wid w] s1 [Ht1 _].
  pose proof (tracks_good now Hset _ _ HI Ht1) as HI1. apply wp_forget.
  eapply wp_mono; [intros ? s'; apply ev_quiet|]. apply (wp_then now Hset); [done..|]. intros _. by apply heartbeat_tracks.
- wp_step. eapply wp_mono; [|apply resolve_tracks]. intros [wid w] s1 [Ht1 _].
  pose proof (tracks_good now Hset _ _ HI Ht1) as HI1. apply wp_forget.
  eapply wp_mono; [|by apply claim_work_evolves]. intros ? s2. by apply evolves_trans.
- wp_step. eapply wp_mono; [|apply resolve_tracks]. intros [wid w] s1 [Ht1 _].
  pose proof (tracks_good now Hset _ _ HI Ht1) as HI1.
  wp_step. eapply wp_mono; [|apply require_spec]. intros l ? (-> & Hl & Hlive).
  wp_step. eapply wp_mono; [|by apply race_tracks]. intros ? s2 [Ht2 El].
  pose proof (tracks_good now Hset _ _ HI1 Ht2) as HI2. rewrite <- El in Hl.
  eapply wp_mono; [|by eapply lease_op_tracks]. intros ? s3 Ht3. apply ev_quiet.
  eapply (tracks_trans now Hset); [done|exact Ht1|]. by eapply (tracks_trans now Hset).
- eapply wp_mono; [intros ? s'; apply ev_quiet|]. by apply cancel_tracks.
- eapply wp_mono; [intros ? s'; apply ev_quiet|]. by apply queue_build_tracks.
- eapply wp_mono; [intros ? s'; apply ev_quiet|]. by apply queue_run_tracks.
- eapply wp_mono; [intros ? s'; apply ev_quiet|]. by apply sweep_tracks.
Qed.

Lemma transaction_evolves o now rq s : good s → valid_op o = true → evolves now s (transaction (run_op o now rq) s).
Proof using Hval.
intros HI Hv. unfold transaction. destruct (run_op o now rq s) as [[e|x] s'] eqn:E.
- apply ev_quiet. eapply (tracks_same now s s); [apply tracks_start|done|by apply framed_same].
- by eapply run_op_evolves.
Qed.

(** ** What a transaction preserves *)

Lemma evolves_good t s s' : good s → evolves t s s' → good s'.
Proof using Hval.
intros HI [[Hw _]|c Hw Hr _|c k lid l Hw Hc _ _].
- exact (work_inv t _ HI attempts_positive _ Hw).
- eapply refusal_inv; [|exact Hr]. exact (work_inv t _ HI attempts_positive _ Hw).
- eapply claim_inv; [|exact Hc]. exact (work_inv t _ HI attempts_positive _ Hw).
Qed.
Lemma evolves_framed t s s' : evolves t s s' → framed s s'.
Proof. by intros [[]| |]. Qed.

(** A lease row keeps its identity; a lease that is not held stays as it is, and one
  that is not live never becomes live. *)
Record lease_kept (t t' : time) (l l' : ExecutionLease) : Prop := {
lk_same : same_lease l l';
lk_frozen : ¬ active l → l' = l;
lk_active : active l' → active l;
lk_live : ∀ u, t' ≤ u → live u l' = true → live t l = true }.

Lemma lease_kept_refl t t' l : t ≤ t' → lease_kept t t' l l.
Proof. intros Ht. split; [done..|]. intros u Hu. apply live_mono. lia. Qed.
Lemma lease_kept_trans t1 t2 t3 l1 l2 l3 :
t2 ≤ t3 → lease_kept t1 t2 l1 l2 → lease_kept t2 t3 l2 l3 → lease_kept t1 t3 l1 l3.
Proof.
intros Ht [S1 F1 A1 L1] [S2 F2 A2 L2]. split; [by etrans|..].
- intros Hn. rewrite (F2 (λ Ha, Hn (A1 Ha))). auto.
- auto.
- intros u Hu Hl. apply (L1 t2); [lia|]. by apply (L2 u).
Qed.

Lemma work_lease t s c lid l : good s → work t (core_of s) c → leases s !! lid = Some l →
∃ l', cL c !! lid = Some l' ∧ lease_kept t t l l'.
Proof using Hval.
intros HI Hw Hl. destruct (work_spec t _ HI attempts_positive _ Hw) as (_ & Hs & _). specialize (Hs lid).
change (cL (core_of s) !! lid = Some l) in Hl. rewrite Hl in Hs. destruct (cL c !! lid) as [l'|]; [|done].
destruct Hs as (Hsame & Hf & Ha & Hlv). exists l'. split; [done|]. split; try done.
intros Hn. apply Hf; [|done]. intros (l0 & Hl0 & Ha0). congruence.
Qed.

Lemma evolves_lease t s s' lid l : good s → evolves t s s' → leases s !! lid = Some l →
∃ l', leases s' !! lid = Some l' ∧ lease_kept t t l l'.
Proof using Hval.
intros HI Hev Hl. destruct Hev as [[Hw _]|c Hw Hr _|c k lid' l' Hw Hc _ _].
- exact (work_lease _ _ _ _ _ HI Hw Hl).
- destruct (work_lease _ _ _ _ _ HI Hw Hl) as (l1 & Hl1 & Hk). exists l1. split; [|done].
  change (cL (core_of s') !! lid = Some l1). destruct Hr. exact Hl1.
- destruct (work_lease _ _ _ _ _ HI Hw Hl) as (l1 & Hl1 & Hk). exists l1. split; [|done].
  change (cL (core_of s') !! lid = Some l1). assert (cL c !! lid' = None) as Hn by (destruct Hc as [? ? ? ? ? ? []|? ? ? ? ? ? []|? ? ? ? ? []]; done).
  destruct Hc; cbn; by rewrite lookup_insert_ne by congruence.
Qed.

Lemma evolves_quiescent t s s' rid : good s → evolves t s s' → quiescent rid (core_of s) →
same_run rid (core_of s) (core_of s').
Proof using Hval.
intros HI Hev Hq. pose proof attempts_positive as Hset.
assert (∀ c, work t (core_of s) c → same_run rid (core_of s) c ∧ inv c) as Hsame.
{ intros c Hw. destruct (work_spec t _ HI Hset _ Hw) as (? & _ & Hs & _). auto. }
destruct Hev as [[Hw _]|c Hw Hr _|c k lid l Hw Hc _ _]; [by apply Hsame|..]; destruct (Hsame c Hw) as [Hs HIc].
- etrans; [exact Hs|]. eapply refusal_same_run; [exact Hr|]. apply (quiescent_same _ _ _ Hs Hq).
- etrans; [exact Hs|]. eapply claim_same_run; [done|exact Hc|]. apply (quiescent_same _ _ _ Hs Hq).
Qed.

(** ** Concurrency limits *)

(** The live leases that satisfy [P]. *)
Definition live_count (P : ExecutionLease → bool) (t : time) (L : gmap uuid ExecutionLease) : Z :=
countZ (λ l, P l && live t l) L.
Definition of_this_worker (wid : uuid) (l : ExecutionLease) : bool := bool_decide (l_worker_id l = wid).
Definition in_project_slot (pid : uuid) (l : ExecutionLease) : bool :=
bool_decide (l_project_id l = pid) && project_slot (l_work_kind l).

Section counting.
Context (P : ExecutionLease → bool) (HP : ∀ l l', same_lease l l' → P l' = P l).

Lemma live_count_kept t t' (L L' : gmap uuid ExecutionLease) :
(∀ lid l', L' !! lid = Some l' → P l' && live t' l' = true → ∃ l, L !! lid = Some l ∧ P l && live t l = true) →
live_count P t' L' ≤ live_count P t L.
Proof. apply countZ_le. Qed.

Lemma live_count_work t t' s c : good s → t ≤ t' → work t (core_of s) c →
live_count P t' (cL c) ≤ live_count P t (leases s).
Proof using Hval HP.
intros HI Ht Hw. apply live_count_kept. intros lid l' Hl' [Hp Hlv]%andb_true_iff.
destruct (work_spec t _ HI attempts_positive _ Hw) as (_ & Hs & _). specialize (Hs lid). rewrite Hl' in Hs.
destruct (cL (core_of s) !! lid) as [l|] eqn:Hl; [|done]. destruct Hs as (Hsame & _ & _ & Hlive).
exists l. split; [done|]. rewrite <- (HP _ _ Hsame), Hp. by apply (Hlive t').
Qed.

Lemma live_count_claim t t' c k lid l c' : t ≤ t' → claim c k lid l c' →
live_count P t' (cL c') ≤ live_count P t (cL c) + (if P l then 1 else 0).
Proof.
intros Ht Hc. assert (cL c' = <[lid := l]> (cL c) ∧ cL c !! lid = None) as [-> Hn]
  by (destruct Hc as [? ? ? ? ? ? []|? ? ? ? ? ? []|? ? ? ? ? []]; done).
unfold live_count at 1, countZ. rewrite sumZ_insert_new by done.
change (sumZ _ (cL c)) with (live_count P t' (cL c)).
assert (live_count P t' (cL c) ≤ live_count P t (cL c)).
{ apply live_count_kept. intros i l' Hl' [Hp Hlv]%andb_true_iff. exists l'. rewrite Hp. split; [done|].
  by eapply live_mono. }
assert (ind (P l && live t' l) ≤ if P l then 1 else 0); [|lia]. by destruct (P l), (live t' l).
Qed.

(** The live leases never exceed a limit of the state, from [now] on. *)
Definition capped (limit : db → option Z) (now : time) s : Prop :=
∀ t, now ≤ t → 0 < live_count P t (leases s) → ∃ n, limit s = Some n ∧ live_count P t (leases s) ≤ n.

Lemma evolves_capped limit t now s s' : good s → now ≤ t → evolves t s s' → capped limit now s →
(∀ n, limit s = Some n → ∃ n', limit s' = Some n' ∧ n ≤ n') →
(∀ c l, within t c s' l → P l = true → ∃ n, limit s' = Some n ∧ live_count P t (cL c) < n) →
capped limit t s'.
Proof using Hval HP.
intros HI Hnow Hev Hcap Hmono Hwi u Hu Hpos.
assert (live_count P u (leases s') ≤ live_count P t (leases s) →
  ∃ n, limit s' = Some n ∧ live_count P u (leases s') ≤ n) as Hle.
{ intros Hx. destruct (Hcap t Hnow) as (n & Hn & Hb); [lia|]. destruct (Hmono n Hn) as (n' & Hn' & ?).
  exists n'. split; [done|lia]. }
destruct Hev as [[Hw _]|c Hw Hr _|c k lid l Hw Hc _ Hwl].
- apply Hle. exact (live_count_work t u s _ HI Hu Hw).
- apply Hle. change (leases s') with (cL (core_of s')). destruct Hr. exact (live_count_work t u s c HI Hu Hw).
- pose proof (live_count_claim t u _ _ _ _ _ Hu Hc) as Hcl. change (cL (core_of s')) with (leases s') in Hcl.
  pose proof (live_count_work t t s c HI ltac:(done) Hw). destruct (P l) eqn:Hp; [|apply Hle; lia].
  destruct (Hwi c l Hwl Hp) as (n & Hn & Hlt). exists n. split; [done|lia].
Qed.
End counting.

Definition worker_limit (wid : uuid) s : option Z := wk_max_concurrency <$> workers s !! wid.
Definition project_limit (pid : uuid) s : option Z := pr_max_active_leases <$> projects s !! pid.

(** ** The invariant of the system *)

Record sys_inv (x : time * db) : Prop := {
sys_good : good x.2;
sys_workers : ∀ wid, capped (of_this_worker wid) (worker_limit wid) x.1 x.2;
sys_projects : ∀ pid, capped (in_project_slot pid) (project_limit pid) x.1 x.2 }.

Lemma of_worker_same wid l l' : same_lease l l' → of_this_worker wid l' = of_this_worker wid l.
Proof. intros Hs. unfold of_this_worker. by rewrite (sl_worker _ _ Hs). Qed.
Lemma in_slot_same pid l l' : same_lease l l' → in_project_slot pid l' = in_project_slot pid l.
Proof. intros Hs. unfold in_project_slot. by rewrite (sl_project _ _ Hs), (sl_kind _ _ Hs). Qed.

Lemma empty_good ps : good (empty_db ps).
Proof.
assert (∀ k id, src (core_of (empty_db ps)) k id = None) as Hsrc by (by intros [] id).
split; [split|split|split| |].
- by intros lid l Hl.
- by intros i j l l' Hl.
- intros k id o. by rewrite Hsrc.
- intros k id o. by rewrite Hsrc.
- intros k i j o o'. by rewrite Hsrc.
- intros id o. by rewrite Hsrc.
- by intros bid b Hb.
- intros id o. by rewrite Hsrc.
- intros id o. by rewrite Hsrc.
- by intros rid r Hr.
- by intros gid g Hg.
- by intros rid.
Qed.

Lemma capped_empty P limit now ps : capped P limit now (empty_db ps).
Proof. intros t _. unfold live_count, countZ. cbn. rewrite sumZ_empty. lia. Qed.

(** The parts a step keeps, by the kind of the step. *)
Lemma step_cases x y : step x y → good x.2 → x.1 ≤ y.1 ∧ (evolves y.1 x.2 y.2 ∨ external x.2 y.2 ∧ y.1 = x.1).
Proof using Hval.
intros [now now' o rq s Hle Hv|now s s' He] HI; cbn [fst snd] in *; [|split; [lia|by right]].
split; [done|left]. by apply transaction_evolves.
Qed.

Lemma step_inv x y : step x y → sys_inv x → sys_inv y.
Proof using Hval.
intros Hst [HI Hw Hp]. destruct (step_cases _ _ Hst HI) as [Ht [Hev|[[Ec Ew Hpr] Et]]].
- pose proof (evolves_framed _ _ _ Hev) as Hf. split; [exact (evolves_good _ _ _ HI Hev)|..].
  + intros wid. apply (evolves_capped _ (of_worker_same wid) _ _ _ _ _ HI Ht Hev (Hw wid)).
    * intros n (w & Hwk & ->)%fmap_Some. destruct (fr_workers _ _ Hf _ _ Hwk) as (w' & Hw' & Em).
      exists (wk_max_concurrency w'). unfold worker_limit. rewrite Hw'. split; [done|lia].
    * intros c l [_ (w & Hwk & Hlt) _] Hl. apply bool_decide_eq_true in Hl as <-.
      exists (wk_max_concurrency w). unfold worker_limit. by rewrite Hwk.
  + intros pid. apply (evolves_capped _ (in_slot_same pid) _ _ _ _ _ HI Ht Hev (Hp pid)).
    * intros n Hn. exists n. unfold project_limit in *. by rewrite (fr_projects _ _ Hf).
    * intros c l [_ _ Hpj] [<-%bool_decide_eq_true Hsl]%andb_true_iff. destruct (Hpj Hsl) as (p & Hpp & Hlt).
      exists (pr_max_active_leases p). unfold project_limit. by rewrite Hpp.
- assert (leases y.2 = leases x.2) as EL by exact (f_equal cL Ec). split; [by rewrite Ec|..].
  + intros wid t Hu. unfold worker_limit. rewrite EL, Ew. apply Hw. lia.
  + intros pid t Hu Hpos. rewrite EL in *. destruct (Hp pid t) as (n & (p & Hpp & ->)%fmap_Some & Hb); [lia|done|].
    destruct (Hpr _ _ Hpp) as (p' & Hp' & ?). exists (pr_max_active_leases p'). unfold project_limit. rewrite Hp'.
    split; [done|lia].
Qed.

Lemma steps_inv x y : rtc step x y → sys_inv x → sys_inv y.
Proof using Hval. induction 1; eauto using step_inv. Qed.

Lemma reachable_sys_inv x : reachable x → sys_inv x.
Proof using Hval.
intros (now & ps & Hs). eapply steps_inv; [exact Hs|]. split; [apply empty_good|intros ?; apply capped_empty..].
Qed.

(** Along any number of steps. *)
Lemma steps_time x y : rtc step x y → sys_inv x → x.1 ≤ y.1.
Proof using Hval.
induction 1 as [|x y z Hs _ IH]; [lia|]. intros HI. destruct (step_cases _ _ Hs (sys_good _ HI)) as [Ht _].
specialize (IH (step_inv _ _ Hs HI)). lia.
Qed.

Lemma steps_lease x y lid l : rtc step x y → sys_inv x → leases x.2 !! lid = Some l →
∃ l', leases y.2 !! lid = Some l' ∧ lease_kept x.1 y.1 l l'.
Proof using Hval.
intros Hs. revert l. induction Hs as [x|x y z Hs Hss IH]; intros l HI Hl.
{ exists l. split; [done|by apply lease_kept_refl]. }
destruct (step_cases _ _ Hs (sys_good _ HI)) as [Ht Hcase]. pose proof (step_inv _ _ Hs HI) as HIy.
assert (∃ l', leases y.2 !! lid = Some l' ∧ lease_kept x.1 y.1 l l') as (l1 & Hl1 & Hk1).
{ destruct Hcase as [Hev|[He Et]].
  - destruct (evolves_lease _ _ _ _ _ (sys_good _ HI) Hev Hl) as (l1 & Hl1 & [K1 K2 K3 K4]). exists l1.
    split; [done|]. split; try done. intros u Hu Hlv. eapply live_mono; [exact Ht|]. by eapply K4.
  - exists l. rewrite Et. split; [|by apply lease_kept_refl].
    change (cL (core_of y.2) !! lid = Some l). by rewrite (ex_core _ _ He). }
destruct (IH l1 HIy Hl1) as (l2 & Hl2 & Hk2). exists l2. split; [done|].
eapply lease_kept_trans; [|done..]. by eapply steps_time.
Qed.

Lemma steps_quiescent x y rid : rtc step x y → sys_inv x → quiescent rid (core_of x.2) →
same_run rid (core_of x.2) (core_of y.2).
Proof using Hval.
induction 1 as [x|x y z Hs Hss IH]; intros HI Hq; [done|].
assert (same_run rid (core_of x.2) (core_of y.2)) as Hsame.
{ destruct (step_cases _ _ Hs (sys_good _ HI)) as [_ [Hev|[He _]]].
  - by eapply evolves_quiescent; [apply HI|..].
  - by rewrite (ex_core _ _ He). }
etrans; [exact Hsame|]. apply IH; [by eapply step_inv|by eapply quiescent_same].
Qed.

(** ** Properties of reachable states *)

(** A lease that a worker still holds on a work item. *)
Definition held_by_worker (k : work_kind) (sid : uuid) s : Prop :=
∃ lid l, leases s !! lid = Some l ∧ l_work_kind l = k ∧ l_source_outbox_id l = sid ∧ active l.

Lemma claimed_held k sid o s : good s → src (core_of s) k sid = Some o → ob_status o = SourceStatus.CLAIMED →
held_by_worker k sid s.
Proof. intros HI Ho Hc. exact (li_claimed _ _ (inv_leases _ HI) _ _ _ Ho Hc). Qed.

(** C6: work is never lost: in every reachable state a queued build has a pending dispatch
  with attempts left, a starting or running build an active lease, and a finished
  build a settled dispatch; the same holds of every run nobody asked to cancel, with
  its START command, unless the run only records an intent (DRAFT). *)
Theorem no_work_lost x : reachable x →
(∀ bid b, builds x.2 !! bid = Some b → ∃ id o, build_outbox x.2 !! id = Some o ∧ ob_target_id o = bid ∧
   match b_status b with
   | BuildStatus.QUEUED => ob_status o = SourceStatus.PENDING ∧ ob_attempts o < worker_max_attempts
   | BuildStatus.STARTING | BuildStatus.RUNNING => held_by_worker BUILD id x.2
   | BuildStatus.SUCCEEDED => ob_status o = SourceStatus.DELIVERED
   | _ => ob_status o = SourceStatus.FAILED
   end) ∧
(∀ rid r, runs x.2 !! rid = Some r → rn_cancel_requested_at r = None → rn_status r ≠ RunStatus.DRAFT →
   ∃ id o, run_commands x.2 !! id = Some o ∧ ob_target_id o = rid ∧ ob_command o = Some START ∧
   match rn_status r with
   | RunStatus.QUEUED => ob_status o = SourceStatus.PENDING ∧ ob_attempts o < worker_max_attempts
   | RunStatus.STARTING | RunStatus.RUNNING => held_by_worker RUN_START id x.2
   | RunStatus.SUCCEEDED | RunStatus.ABORTED => ob_status o = SourceStatus.DELIVERED
   | RunStatus.FAILED | RunStatus.TIMED_OUT => ob_status o = SourceStatus.FAILED
   | _ => False
   end).
Proof using Hval.
intros Hx. pose proof (sys_good _ (reachable_sys_inv _ Hx)) as HI. destruct x as [now s]. cbn [snd] in *. split.
- intros bid b Hb. destruct (bi_build _ _ (inv_builds _ HI) _ _ Hb) as (id & o & Ho & Ht).
  exists id, o. split; [exact Ho|]. split; [done|].
  destruct (bi_item _ _ (inv_builds _ HI) _ _ Ho) as (b' & Hb' & _ & _ & Hph). rewrite Ht in Hb'.
  change (builds s !! bid = Some b') in Hb'.
  assert (b' = b) as -> by congruence. pose proof (li_item _ _ (inv_leases _ HI) _ _ _ Ho) as [_ Hatt].
  pose proof (claimed_held _ _ _ _ HI Ho) as Hheld.
  destruct (b_status b), (ob_status o); cbn in Hph; try done; try (by auto); set_solver.
- intros rid r Hr Hu Hd. destruct (ri_run _ _ (inv_runs _ HI) _ _ Hr) as [_ Hex].
  destruct (Hex Hu) as [?|(id & o & Ho & Ht)]; [done|]. pose proof Ho as [Hrc Hc]%item_run; [|done].
  exists id, o. split; [exact Hrc|]. split; [done|]. split; [exact Hc|].
  destruct (ri_start _ _ (inv_runs _ HI) _ _ Ho) as (r' & Hr' & _ & Hph). rewrite Ht in Hr'.
  change (runs s !! rid = Some r') in Hr'.
  assert (r' = r) as -> by congruence. specialize (Hph Hu).
  pose proof (li_item _ _ (inv_leases _ HI) _ _ _ Ho) as [_ Hatt]. pose proof (claimed_held _ _ _ _ HI Ho) as Hheld.
  destruct (rn_status r), (ob_status o); cbn in Hph; try done; try (by auto); set_solver.
Qed.

(** C7: a work item is in the hands of one worker at a time: two active leases of an item
  are the same lease, leases of an item count distinct attempts between one and
  [worker_max_attempts], the held lease is the last attempt and belongs to the tenant
  of the item; and a secret grant is usable only under an active lease. *)
Theorem one_active_lease x : reachable x →
(∀ i j l l', leases x.2 !! i = Some l → leases x.2 !! j = Some l' → l_work_kind l = l_work_kind l' →
   l_source_outbox_id l = l_source_outbox_id l' →
   (active l → active l' → i = j) ∧ (l_attempt l = l_attempt l' → i = j)) ∧
(∀ lid l, leases x.2 !! lid = Some l → 1 ≤ l_attempt l ≤ worker_max_attempts ∧
   ∃ o, src (core_of x.2) (l_work_kind l) (l_source_outbox_id l) = Some o ∧
   lease_target l = Some (ob_target_id o) ∧ l_organization_id l = ob_organization_id o ∧
   l_project_id l = ob_project_id o ∧ l_attempt l ≤ ob_attempts o ∧ (active l → l_attempt l = ob_attempts o)) ∧
(∀ gid g, grants x.2 !! gid = Some g → g_status g = GrantStatus.ISSUED →
   ∃ l, leases x.2 !! g_lease_id g = Some l ∧ active l).
Proof using Hval.
intros Hx. pose proof (sys_good _ (reachable_sys_inv _ Hx)) as HI. split_and!.
- intros i j l l' Hl Hl' Hk Hs. split; intros.
  + by eapply (active_unique (cL (core_of x.2)) (src (core_of x.2)) i j l l' (inv_leases _ HI)).
  + by eapply (li_unique _ _ (inv_leases _ HI) i j l l').
- intros lid l Hl. destruct (li_lease _ _ (inv_leases _ HI) _ _ Hl) as (Hok & o & Ho & [Ht Ho1 Hp1 Ha1 Hact]).
  split; [apply Hok|]. exists o. split_and!; try done. intros Ha. by apply Hact.
- apply (inv_grants _ HI).
Qed.

(** Leases are windows in time that only close: a lease expires after it was claimed,
  not later than its deadline nor [worker_lease_max_seconds] after the claim; in every
  later state it is the same lease, unchanged once it is closed, and once it is not
  live it never becomes live again. *)
Theorem lease_window x y lid l : reachable x → rtc step x y → leases x.2 !! lid = Some l →
lease_ok l ∧ ∃ l', leases y.2 !! lid = Some l' ∧ lease_ok l' ∧ same_lease l l' ∧ (¬ active l → l' = l) ∧
  (active l' → active l) ∧ (live x.1 l = false → ∀ t, y.1 ≤ t → live t l' = false).
Proof using Hval.
intros Hx Hs Hl. pose proof (reachable_sys_inv _ Hx) as HIx. pose proof (steps_inv _ _ Hs HIx) as HIy.
split; [apply (li_lease _ _ (inv_leases _ (sys_good _ HIx)) _ _ Hl)|].
destruct (steps_lease _ _ _ _ Hs HIx Hl) as (l' & Hl' & [K1 K2 K3 K4]). exists l'. split_and!; try done.
- apply (li_lease _ _ (inv_leases _ (sys_good _ HIy)) _ _ Hl').
- intros Hn t Ht. apply not_true_iff_false. intros Hlv. rewrite (K4 t Ht Hlv) in Hn. done.
Qed.

(** A settled run is final: once a run is terminal and either nobody asked to cancel
  it, or no lease of it is active and no command pending, its row, its commands, its
  leases and its events never change again. *)
Theorem settled_run_final x y rid r : reachable x → rtc step x y →
runs x.2 !! rid = Some r → rn_status r ∈ RUN_TERMINAL_STATUSES →
(rn_cancel_requested_at r = None ∨
 (∀ lid l, leases x.2 !! lid = Some l → l_run_id l = Some rid → ¬ active l) ∧
 (∀ id o, run_commands x.2 !! id = Some o → ob_target_id o = rid → ob_status o ≠ SourceStatus.PENDING)) →
same_run rid (core_of x.2) (core_of y.2).
Proof using Hval.
intros Hx Hs Hr Ht Hq. pose proof (reachable_sys_inv _ Hx) as HI. apply steps_quiescent; [done..|].
destruct Hq as [Hu|[Hl Hc]]; [by eapply terminal_quiescent; [apply HI|..]|]. split; [by exists r|done|].
intros k id o Hk [Ho _]%item_run Ht'; [|done]. by apply (Hc id).
Qed.

(** C9: concurrency limits hold at every moment: from the time of a reachable state on, the
  live leases of a worker never exceed its [max_concurrency], and the live BUILD and
  RUN_START leases of a project its [max_active_leases]. *)
Theorem concurrency_limits x t : reachable x → x.1 ≤ t →
(∀ wid, 0 < active_worker_lease_count t wid x.2 →
   ∃ w, workers x.2 !! wid = Some w ∧ active_worker_lease_count t wid x.2 ≤ wk_max_concurrency w) ∧
(∀ pid, 0 < active_project_leases t pid x.2 →
   ∃ p, projects x.2 !! pid = Some p ∧ active_project_leases t pid x.2 ≤ pr_max_active_leases p).
Proof using Hval.
intros Hx Ht. pose proof (reachable_sys_inv _ Hx) as [_ Hw Hp]. split; intros i Hpos.
- destruct (Hw i t Ht Hpos) as (n & (w & Hwk & ->)%fmap_Some & Hb). eauto.
- destruct (Hp i t Ht Hpos) as (n & (p & Hpp & ->)%fmap_Some & Hb). eauto.
Qed.

(** C8: a stale worker is fenced: once a lease is not live, every operation a worker
  attempts under it, at any later time and from any later state, is refused and
  changes nothing. *)
Theorem stale_worker_fenced x y lid l t auth token race a rq : reachable x → rtc step x y →
leases x.2 !! lid = Some l → live x.1 l = false → y.1 ≤ t →
(∃ e, (run_op (OnLease auth lid token race a) t rq y.2).1 = inl e) ∧
∃ n, transaction (run_op (OnLease auth lid token race a) t rq) y.2 = y.2 <| rng := n |>.
Proof using Hval.
intros Hx Hs Hl Hn Ht. pose proof (reachable_sys_inv _ Hx) as HIx.
destruct (steps_lease _ _ _ _ Hs HIx Hl) as (l' & Hl' & [_ _ _ K4]).
assert (wp (run_op (OnLease auth lid token race a) t rq) (λ _ _, False) y.2) as Hwp.
{ cbn [run_op]. wp_step. eapply wp_mono; [|apply resolve_tracks]. intros [wid w] s1 [_ E1].
  wp_step. eapply wp_mono; [|apply require_spec]. intros l1 ? (-> & Hl1 & Hlv). exfalso.
  change (cL (core_of s1) !! lid = Some l1) in Hl1. rewrite E1 in Hl1. cbn in Hl1.
  assert (l1 = l') as -> by congruence. rewrite (K4 t Ht Hlv) in Hn. done. }
unfold transaction. destruct (run_op _ _ _ y.2) as [[e|z] s'] eqn:E; [by eauto|]. destruct (Hwp z s' E).
Qed.
End proofs.
End spec.

(** ** A concrete run of the system *)

Module ExecutionScenario.
#[local] Instance counting : Entropy := λ n, (n + 100)%N.
#[local] Instance plain_digest : Sha256 := λ b, b.
#[local] Instance ascii_fold : CaseFold := map (λ c, if ((65 <=? c) && (c <=? 90))%N then (c + 32)%N else c).
#[local] Instance no_repr : PyRepr := λ _, [].
#[local] Instance no_forms : IsoForms := λ _, None.
#[local] Instance no_decimals : UnicodeDecimal := λ _, None.
#[local] Instance stub_hmac : HmacSha256.
Proof.
  refine {| hmac_sha256 key m := take 32 (((λ b, b mod 256)%N <$> m) ++ repeat 0%N 32) |}.
  - intros key m. rewrite length_take, length_app, repeat_length. lia.
  - intros key m. apply Forall_take, Forall_app. split.
    + apply Forall_fmap, Forall_forall. intros b _. unfold is_byte. cbn. apply N.mod_lt. done.
    + apply Forall_forall. intros b Hb%list_elem_of_In%repeat_spec. subst. done.
Defined.
#[local] Instance tokens : TokenSource := {|
  token_prefix n := lit "abcdefg" ++ [(97 + n mod 26)%N];
  token_urlsafe n := lit "t" ++ dec_str n |}.
#[local] Instance settings : Settings := {|
  worker_lease_seconds := 60; worker_lease_max_seconds := 3600; worker_max_attempts := 3;
  worker_retry_base_seconds := 5; worker_retry_max_seconds := 60; worker_cancel_convergence_seconds := 120;
  worker_secret_envelope_seconds := 60; worker_registration_max_concurrency := 4;
  worker_lost_after_seconds := 45; sandbox_max_build_seconds := 900; sandbox_max_run_seconds := 3600;
  sandbox_max_memory_mb := 512; sandbox_max_cpu_millis := 1000; sandbox_max_pids := 64;
  sandbox_max_ephemeral_disk_mb := 1024; sandbox_execution_enabled := false;
  sandbox_activation_mode := "disabled"; sandbox_required_profile := "strict"; canary_worker := [];
  worker_token_pepper := []; lease_token_pepper := [] |}.
#[local] Instance no_sandbox : ClaimSealing := {|
  sandbox_claim_policy _ _ := inr None; canary_activation _ _ _ := inr None;
  dataset_append_capability _ _ _ := inr PNone; key_value_store_capability _ _ _ := inr PNone;
  request_queue_capability _ _ _ := inr PNone; bound_egress_policy _ := true |}.
#[local] Instance any_artifact : ArtifactChecks := λ _ _ _ _, inr ().

Definition project : Project := MkProject "ACTIVE" None 2.
Definition version : AgentVersion := MkAgentVersion [].
Definition s_empty : db := empty_db {[2%N := project]}.
Definition s_version : db := s_empty <| versions := {[4%N := version]} |>.
Definition at_ (t : Z) (o : op) (s : db) : db := transaction (run_op o (seconds t) "rq") s.

Definition registration : RegisterWorkerRequest :=
MkRegister (lit "w1") ["RUN_START"; "RUN_CANCEL"; "EVENT_INGEST"]%string 1 "1" (lit "1.0") None [].
Definition bearer : option pystr := Some (lit "Bearer rdc_worker_abcdefga_t1").
(** Worker 102; run 103 with START command 104. *)
Definition s_worker : db := at_ 0 (Register registration) s_version.
Definition s_queued : db := at_ 1 (QueueRun 1 2 3 4 5 6 [] [(KStr (lit "timeout_seconds"), PInt 300)] false) s_worker.
(** Lease 106, its token drawn before it. *)
Definition s_claimed : db := at_ 2 (Claim bearer ∅ [RUN_START]) s_queued.
Definition lease_token : option pystr := Some (lit "rdc_lease_t5").
Definition s_expired : db := at_ 100 (Sweep true ∅ 100) s_claimed.
(** Lease 108 of the second attempt. *)
Definition s_reclaimed : db := at_ 110 (Claim bearer ∅ [RUN_START]) s_expired.
Definition finished : CompleteLeaseRequest := MkComplete SUCCEEDED false None None [].
Definition second_token : option pystr := Some (lit "rdc_lease_t7").
Definition s_done : db := at_ 120 (OnLease bearer 108 second_token None (Complete ∅ finished)) s_reclaimed.
Definition s_later : db := at_ 130 (Sweep true ∅ 100) s_done.

Lemma settings_valid : valid_worker_settings = true.
Proof. reflexivity. Defined.

Lemma step_at t n o s : t ≤ seconds n → valid_op o = true → step (t, s) (seconds n, at_ n o s).
Proof. apply step_op. Qed.
Lemma reach_at t n o s : reachable (t, s) → t ≤ seconds n → valid_op o = true → reachable (seconds n, at_ n o s).
Proof. intros (u & ps & Hs) Ht Hv. exists u, ps. eapply rtc_r; [exact Hs|by apply step_at]. Qed.

Lemma reach_queued : reachable (seconds 1, s_queued).
Proof.
  apply (reach_at (seconds 0)); [|done..]. apply (reach_at 0); [|done..].
  exists 0, {[2%N := project]}. apply rtc_once, step_external. split; [done..|]. intros pid p Hp. exists p. split; [exact Hp|lia].
Qed.
Lemma reach_lease_claimed : reachable (seconds 2, s_claimed).
Proof. apply (reach_at (seconds 1)); [apply reach_queued|done..]. Qed.
Lemma reach_reclaimed : reachable (seconds 110, s_reclaimed).
Proof. apply (reach_at (seconds 100)); [|done..]. apply (reach_at (seconds 2)); [apply reach_lease_claimed|done..]. Qed.
Lemma reach_done : reachable (seconds 120, s_done).
Proof. apply (reach_at (seconds 110)); [apply reach_reclaimed|done..]. Qed.
Lemma steps_expired : rtc step (seconds 2, s_claimed) (seconds 100, s_expired).
Proof. apply rtc_once, step_at; done. Qed.
Lemma steps_reclaimed : rtc step (seconds 100, s_expired) (seconds 110, s_reclaimed).
Proof. apply rtc_once, step_at; done. Qed.
Lemma reach_expired : reachable (seconds 100, s_expired).
Proof. apply (reach_at (seconds 2)); [apply reach_lease_claimed|done..]. Qed.
Lemma steps_after_done : rtc step (seconds 120, s_done) (seconds 130, s_later).
Proof. apply rtc_once, step_at; done. Qed.

(** A run by its status, and the status of a lease. *)
Definition status_of (rid : uuid) (s : db) : option RunStatus.t := rn_status <$> runs s !! rid.
Definition lease_status (lid : uuid) (s : db) : option LeaseStatus.t := l_status <$> leases s !! lid.

Lemma no_work_lost_witness :
  status_of 103 s_reclaimed = Some RunStatus.STARTING ∧ held_by_worker RUN_START 104 s_reclaimed.
Proof.
  assert (Hst : status_of 103 s_reclaimed = Some RunStatus.STARTING) by (vm_compute; reflexivity).
  assert (Hu : rn_cancel_requested_at <$> runs s_reclaimed !! 103%N = Some None) by (vm_compute; reflexivity).
  split; [exact Hst|]. unfold status_of in Hst. destruct (runs s_reclaimed !! 103%N) as [r|] eqn:Hr; [|discriminate].
  injection Hst as Hst. injection Hu as Hu.
  destruct (no_work_lost settings_valid _ reach_reclaimed) as [_ Hrun].
  destruct (Hrun 103%N r Hr Hu) as (id & o & Ho & Ht & _ & Hheld); [by rewrite Hst|]. rewrite Hst in Hheld.
  assert (dom (run_commands s_reclaimed) = {[104%N]}) as Hd by (vm_compute; reflexivity).
  assert (id = 104%N) as ->; [|exact Hheld].
  apply elem_of_dom_2 in Ho. cbn [snd] in Ho. rewrite Hd in Ho. by apply elem_of_singleton in Ho.
Defined.

Lemma one_active_lease_witness :
  lease_status 106 s_reclaimed = Some LeaseStatus.EXPIRED ∧ lease_status 108 s_reclaimed = Some LeaseStatus.ACTIVE ∧
  ∀ i l, leases s_reclaimed !! i = Some l → l_work_kind l = RUN_START → l_source_outbox_id l = 104%N → active l → i = 108%N.
Proof.
  split; [vm_compute; reflexivity|]. split; [vm_compute; reflexivity|]. intros i l Hl Hk Hs Ha.
  destruct (leases s_reclaimed !! 108%N) as [l0|] eqn:H0; [|exfalso; revert H0; vm_compute; discriminate].
  assert (Hf : (λ l, (l_work_kind l, l_source_outbox_id l, l_status l)) <$> leases s_reclaimed !! 108%N =
    Some (RUN_START, 104%N, LeaseStatus.ACTIVE)) by (vm_compute; reflexivity).
  rewrite H0 in Hf. injection Hf as E1 E2 E3.
  destruct (one_active_lease settings_valid _ reach_reclaimed) as [Hone _].
  destruct (Hone i 108%N l l0 Hl H0) as [Huniq _]; [congruence|congruence|]. exact (Huniq Ha E3).
Defined.

Lemma lease_window_witness :
  lease_status 106 s_claimed = Some LeaseStatus.ACTIVE ∧ lease_status 106 s_expired = Some LeaseStatus.EXPIRED ∧
  ∃ l', leases s_expired !! 106%N = Some l' ∧ lease_ok l'.
Proof.
  split; [vm_compute; reflexivity|]. split; [vm_compute; reflexivity|].
  destruct (leases s_claimed !! 106%N) as [l|] eqn:Hl; [|exfalso; revert Hl; vm_compute; discriminate].
  destruct (lease_window settings_valid _ _ 106%N l reach_lease_claimed steps_expired Hl) as (_ & l' & Hl' & Hok & _).
  exists l'. split; [exact Hl'|exact Hok].
Defined.

Lemma settled_run_final_witness :
  status_of 103 s_done = Some RunStatus.SUCCEEDED ∧ same_run 103 (core_of s_done) (core_of s_later).
Proof.
  assert (Hst : status_of 103 s_done = Some RunStatus.SUCCEEDED) by (vm_compute; reflexivity).
  assert (Hu : rn_cancel_requested_at <$> runs s_done !! 103%N = Some None) by (vm_compute; reflexivity).
  split; [exact Hst|]. unfold status_of in Hst. destruct (runs s_done !! 103%N) as [r|] eqn:Hr; [|discriminate].
  injection Hst as Hst. injection Hu as Hu.
  apply (settled_run_final settings_valid _ _ 103%N r reach_done steps_after_done Hr).
  - rewrite Hst. left.
  - left. exact Hu.
Defined.

Lemma concurrency_limits_witness :
  active_worker_lease_count (seconds 111) 102 s_reclaimed = 1 ∧
  ∃ w, workers s_reclaimed !! 102%N = Some w ∧ 1 ≤ wk_max_concurrency w.
Proof.
  assert (Hc : active_worker_lease_count (seconds 111) 102 s_reclaimed = 1) by (vm_compute; reflexivity).
  split; [exact Hc|].
  destruct (concurrency_limits settings_valid _ (seconds 111) reach_reclaimed ltac:(vm_compute; discriminate)) as [Hw _].
  specialize (Hw 102%N). cbn [snd] in Hw. rewrite Hc in Hw. apply Hw. lia.
Defined.

Lemma stale_worker_fenced_witness :
  lease_status 106 s_reclaimed = Some LeaseStatus.EXPIRED ∧
  ∃ e, (run_op (OnLease bearer 106 lease_token None (Complete ∅ finished)) (seconds 115) "rq" s_reclaimed).1 = inl e.
Proof.
  split; [vm_compute; reflexivity|].
  destruct (leases s_expired !! 106%N) as [l|] eqn:Hl; [|exfalso; revert Hl; vm_compute; discriminate].
  assert (Hn : live (seconds 100) <$> leases s_expired !! 106%N = Some false) by (vm_compute; reflexivity).
  rewrite Hl in Hn. injection Hn as Hn.
  exact (proj1 (stale_worker_fenced settings_valid _ _ 106%N l (seconds 115) bearer lease_token None (Complete ∅ finished) "rq"
    reach_expired steps_reclaimed Hl Hn ltac:(vm_compute; discriminate))).
Defined.
End ExecutionScenario.
