(* ===== verification/CancellationSpec.v ===== *)
(** Cancellations converge: a sweep ends every run whose cancellation is overdue,
    whatever its workers do; and what happens to a run whose cancellation failed. *)

From S2P Require Import Prelude PyVal Json PyUuid PyTime Base64 QueueProtocol Idempotency.
From S2P Require Import Pagination EventProtocol RunEvents Recovery ExecutionPlane.
From S2P Require Import LeaseProtocol ExecutionSteps ExecutionOps ExecutionSpec.
(** ** The events of a convergence can always be recorded *)

Section events.
Context `{CaseFold, PyRepr}.

(** The payload of two constant entries, each redacted or not, is accepted. *)
Definition accepts_two (k1 v1 k2 v2 : string) (b1 b2 : bool) : Prop :=
is_Some (let sanitized := PDict (dict_of
           [(KStr (take 128 (lit k1)), PStr (if b1 then lit "[REDACTED]" else clean_string (lit v1)));
            (KStr (take 128 (lit k2)), PStr (if b2 then lit "[REDACTED]" else clean_string (lit v2)))]) in
         text ← print sanitized;
         if bool_decide (MAX_RUN_EVENT_BYTES < length (flat_map ascii_escape text))%nat then None else Some sanitized).

Lemma sanitize_two k1 v1 k2 v2 : (∀ b1 b2, accepts_two k1 v1 k2 v2 b1 b2) →
∃ v, sanitize_event_payload [(KStr (lit k1), PStr (lit v1)); (KStr (lit k2), PStr (lit v2))] = inr v.
Proof.
intros Hb. unfold sanitize_event_payload. cbn [sanitize_value].
destruct (redacted_key []); [eexists; vm_compute; reflexivity|].
specialize (Hb (redacted_key (lit k1)) (redacted_key (lit k2))). cbn [key_text].
destruct (redacted_key (lit k1)), (redacted_key (lit k2)); destruct Hb as [v Hv]; cbv zeta in Hv;
  (destruct (print _) as [text|]; [|done]); cbn in Hv; (destruct (bool_decide _); [done|]); eexists; reflexivity.
Qed.

Lemma append_ok org pid rid ty p l v : ty ∈ PERSISTED_EVENT_TYPES → sanitize_event_payload p = inr v →
append_run_event org pid rid ty p l = inr (l ++ [MkRunEvent org pid rid (last_sequence rid l + 1) ty v]).
Proof. intros Ht Hv. unfold append_run_event. by rewrite bool_decide_eq_true_2, Hv. Qed.

Lemma log_event_ok rid r ty p s v : ty ∈ PERSISTED_EVENT_TYPES → sanitize_event_payload p = inr v →
∃ l, log_event rid r ty p s = (inr (), s <| run_events := l |>).
Proof.
intros Ht Hv. unfold log_event. rewrite run_gets, (append_ok _ _ _ _ _ _ v) by done. cbn. by eexists.
Qed.

Lemma converge_status_accepted : ∃ v, sanitize_event_payload
[(KStr (lit "previous_status"), status_value RunStatus.ABORTING); (KStr (lit "status"), status_value RunStatus.ABORTED)] = inr v.
Proof. apply (sanitize_two "previous_status" "ABORTING" "status" "ABORTED"). intros [] []; eexists; vm_compute; reflexivity. Qed.
Lemma converge_reason_accepted : ∃ v, sanitize_event_payload
[(KStr (lit "status"), status_value RunStatus.ABORTED); (KStr (lit "reason"), PStr (lit "CANCEL_DEADLINE_EXCEEDED"))] = inr v.
Proof. apply (sanitize_two "status" "ABORTED" "reason" "CANCEL_DEADLINE_EXCEEDED"). intros [] []; eexists; vm_compute; reflexivity. Qed.
End events.

(** ** Convergence terminates and settles the run *)

Section converge.
Context `{Entropy, Sha256, CaseFold, PyRepr, IsoForms, Settings, HmacSha256, TokenSource}.
Context `{UnicodeDecimal, ClaimSealing, ArtifactChecks}.
Implicit Types (s : db).

Definition open_command (rid : uuid) (_ : uuid) (o : Outbox) : bool :=
bool_decide (ob_target_id o = rid) && bool_decide (ob_status o ∈ [SourceStatus.PENDING; SourceStatus.CLAIMED]).

(** Exactly what converging an aborting run changes of runs, leases and commands. *)
Lemma converge_run locked rid r now rq s :
runs s !! rid = Some r → rn_cancel_requested_at r ≠ None → rn_status r = RunStatus.ABORTING →
∃ s', converge_cancelled_run locked rid now rq "CANCEL_DEADLINE_EXCEEDED" s = (inr true, s') ∧
  runs s' = <[rid := aborted_run now r]> (runs s) ∧
  leases s' = update_where (fences locked rid None) (fenced_lease now) (leases s) ∧
  run_commands s' = update_where (open_command rid) (fenced_command now) (run_commands s).
Proof.
intros Hr Hc Hst. unfold converge_cancelled_run.
set (s1 := s <| leases ::= update_where (fences locked rid None) (fenced_lease now) |>
  <| grants ::= update_where (λ _ g, bool_decide (g_lease_id g ∈ (select (fences locked rid None) (leases s)).*1)
       && bool_decide (g_status g = GrantStatus.ISSUED)) revoke |>
  <| run_commands ::= update_where (λ id o, bool_decide (ob_target_id o = rid)
       && bool_decide (ob_status o ∈ [SourceStatus.PENDING; SourceStatus.CLAIMED])
       && negb (bool_decide (None = Some id))) (fenced_command now) |>).
rewrite (run_bind (fence_cancelled_run_leases locked rid now None None) _ s
  (Z.of_nat (length (select (fences locked rid None) (leases s)).*1)) s1 eq_refl).
rewrite run_gets. change (runs s1) with (runs s). rewrite Hr.
rewrite bool_decide_eq_false_2 by done. rewrite Hst. cbv zeta. rewrite (bool_decide_eq_false_2 (_ = RunStatus.ABORTED)) by done.
rewrite bool_decide_eq_true_2 by done. cbn [negb]. unfold update_run. rewrite run_modify. unfold log_status.
destruct converge_status_accepted as [v1 Hv1], converge_reason_accepted as [v2 Hv2].
match goal with |- ∃ _, (log_event ?i ?x ?t ?p ≫= _) ?st = _ ∧ _ =>
  destruct (log_event_ok i x t p st v1) as [l1 Hl1]; [set_solver|exact Hv1|rewrite (run_bind _ _ _ _ _ Hl1)] end.
match goal with |- ∃ _, (log_event ?i ?x ?t ?p ≫= _) ?st = _ ∧ _ =>
  destruct (log_event_ok i x t p st v2) as [l2 Hl2]; [set_solver|exact Hv2|rewrite (run_bind _ _ _ _ _ Hl2)] end.
unfold system_audit, append_audit_event. rewrite run_modify. eexists. split; [reflexivity|]. split; [done|]. split; [done|].
apply map_eq. intros i. cbn. rewrite !lookup_update_where. apply option_fmap_ext. intros o. unfold open_command. by rewrite andb_true_r.
Qed.

(** A run whose cancellation is over: nothing of it can run again, except under leases
  another transaction holds at the moment. *)
Record settled_run (locked : gset uuid) (rid : uuid) s : Prop := {
st_aborted : ∃ r, runs s !! rid = Some r ∧ rn_status r = RunStatus.ABORTED;
st_leases : ∀ lid l, leases s !! lid = Some l → l_run_id l = Some rid → active l → lid ∈ locked;
st_commands : ∀ id o, run_commands s !! id = Some o → ob_target_id o = rid →
  ob_status o ∉ [SourceStatus.PENDING; SourceStatus.CLAIMED] }.

Lemma converge_settles locked rid r now s s' : 
runs s' = <[rid := aborted_run now r]> (runs s) →
leases s' = update_where (fences locked rid None) (fenced_lease now) (leases s) →
run_commands s' = update_where (open_command rid) (fenced_command now) (run_commands s) →
settled_run locked rid s' ∧ ∀ rid', rid' ≠ rid → settled_run locked rid' s → settled_run locked rid' s'.
Proof.
intros ER EL EC. split.
- split.
  + exists (aborted_run now r). by rewrite ER, lookup_insert_eq.
  + intros lid l. rewrite EL. intros (l0 & Hl0 & ->)%lookup_update_where_Some Hrid Ha.
    destruct (decide (lid ∈ locked)) as [|Hn]; [done|]. exfalso. revert Ha Hrid. unfold fences.
    destruct (_ && _) eqn:E; [done|]. intros Ha Hrid. unfold active in Ha.
    rewrite (bool_decide_eq_true_2 (_ = Some rid)), (bool_decide_eq_true_2 (_ = LeaseStatus.ACTIVE)),
      (bool_decide_eq_true_2 (lid ∉ locked)) in E by done. done.
  + intros id o. rewrite EC. intros (o0 & Ho0 & ->)%lookup_update_where_Some. unfold open_command.
    destruct (_ && _) eqn:E; [cbn; set_solver|]. intros Ht. rewrite bool_decide_eq_true_2 in E by done. cbn in E. by breflect.
- intros rid' Hne [(r' & Hr' & Hst) Hl Hc]. split.
  + exists r'. by rewrite ER, lookup_insert_ne.
  + intros lid l. rewrite EL. intros (l0 & Hl0 & ->)%lookup_update_where_Some.
    destruct (fences _ _ _ _ _); [done|]. by apply (Hl lid).
  + intros id o. rewrite EC. intros (o0 & Ho0 & ->)%lookup_update_where_Some.
    destruct (open_command _ _ _); [cbn; set_solver|]. by apply (Hc id).
Qed.

(** The loop over overdue runs. *)
Lemma converge_runs_settle locked now rq ids n s : NoDup ids →
(∀ rid, rid ∈ ids → ∃ r, runs s !! rid = Some r ∧ rn_cancel_requested_at r ≠ None ∧ rn_status r = RunStatus.ABORTING) →
∃ s', converge_runs locked now rq ids n s = (inr (n + Z.of_nat (length ids)), s') ∧
  (∀ rid, rid ∈ ids → settled_run locked rid s') ∧
  (∀ rid, rid ∉ ids → runs s' !! rid = runs s !! rid ∧ (settled_run locked rid s → settled_run locked rid s')).
Proof.
intros Hnd. revert n s. induction Hnd as [|rid ids Hni Hnd IH]; intros n s Hall.
{ exists s. cbn. rewrite Z.add_0_r. split; [done|]. split; [by intros rid ?%elem_of_nil|done]. }
destruct (Hall rid) as (r & Hr & Hc & Hst); [left|].
destruct (converge_run locked rid r now rq s Hr Hc Hst) as (s1 & E1 & ER & EL & EC).
destruct (converge_settles _ _ _ _ _ _ ER EL EC) as [Hs1 Hkeep].
destruct (IH (n + 1) s1) as (s2 & E2 & Hin & Hout).
{ intros i Hi. rewrite ER. rewrite lookup_insert_ne by (by intros ->). apply Hall. by right. }
exists s2. cbn [converge_runs]. rewrite (run_bind _ _ _ _ _ E1), E2. split; [do 2 f_equal; cbn [length]; lia|]. split.
- intros i [->|Hi]%elem_of_cons; [|by apply Hin]. by apply (Hout rid Hni).
- intros i [Hne Hi]%not_elem_of_cons. destruct (Hout i Hi) as [E Hk]. rewrite E, ER, lookup_insert_ne by done.
  split; [done|]. intros Hs. apply Hk. by apply Hkeep.
Qed.

(** C10: cancellation converges: the recovery sweep of overdue cancellations terminates
  normally in every state, and ends every run that is overdue and not held by another
  transaction, up to its batch: the run is ABORTED, no unlocked lease of it stays
  active and no command open; runs that are not overdue keep their row. *)
Theorem cancellation_converges locked now rq batch s (Hb : 1 ≤ batch ≤ 500) :
∃ n s', reap_overdue_cancellations locked now rq batch s = (inr n, s') ∧
  n = Z.min batch (Z.of_nat (length (select (overdue now locked) (runs s)))) ∧
  ∀ rid r, runs s !! rid = Some r →
    (overdue now locked rid r = true → settled_run locked rid s' ∨ n = batch ∧ runs s' !! rid = Some r) ∧
    (overdue now locked rid r = false → runs s' !! rid = Some r).
Proof.
destruct (batch_rows (by_key overdue_key) (overdue now locked) (runs s) (Z.to_nat batch)) as (Hrows & Hnd & Hlen).
set (rows := take (Z.to_nat batch) _) in *.
destruct (converge_runs_settle locked now rq rows.*1 0 s Hnd) as (s' & E & Hin & Hout).
{ intros rid ([i r] & -> & Hi)%list_elem_of_fmap. destruct (Hrows _ _ Hi) as [Hr Ho]. exists r.
  unfold overdue in Ho. by breflect. }
exists (0 + Z.of_nat (length rows.*1)), s'. split; [|split].
- unfold reap_overdue_cancellations. rewrite run_pass by (apply negb_false_iff, andb_true_iff; lia).
  rewrite run_gets. exact E.
- rewrite length_fmap, Hlen. lia.
- intros rid r Hr. split.
  + intros Ho. destruct (decide (rid ∈ rows.*1)) as [Hi|Hi]; [left; by apply Hin|right].
    destruct (Hout rid Hi) as [Er _]. rewrite Er. split; [|done]. rewrite length_fmap, Hlen.
    destruct (decide (length (select (overdue now locked) (runs s)) ≤ Z.to_nat batch)%nat) as [Hle|]; [|lia].
    exfalso. apply Hi, list_elem_of_fmap. exists (rid, r). split; [done|]. unfold rows.
    rewrite take_ge by (unfold order_by; by rewrite merge_sort_Permutation).
    apply elem_of_order_by, elem_of_select. done.
  + intros Ho. destruct (Hout rid) as [Er _]; [|by rewrite Er].
    intros ([i r'] & -> & Hi)%list_elem_of_fmap. destruct (Hrows _ _ Hi) as [Hr' Ho']. cbn [fst] in *.
    assert (r' = r) as -> by congruence. congruence.
Qed.
End converge.

(** ** A cancelled run in the concrete system *)

Module CancellationScenario.
Import ExecutionScenario.
#[local] Existing Instances counting plain_digest ascii_fold no_repr no_forms no_decimals stub_hmac tokens
  settings no_sandbox any_artifact.

(** Run 103 is cancelled while worker 102 holds it; its CANCEL command is 107. *)
Definition cancel (key : string) : op := Cancel (MkCancel 103 1 2 6 (lit key)).
Definition s_cancelled : db := at_ 3 (cancel "key-1234") s_claimed.
Definition overdue_at : time := seconds 200.

Lemma cancellation_converges_witness :
  status_of 103 s_cancelled = Some RunStatus.ABORTING ∧
  ∃ n s', reap_overdue_cancellations ∅ overdue_at "rq" 50 s_cancelled = (inr n, s') ∧ n = 1 ∧
    settled_run ∅ 103 s'.
Proof.
  split; [vm_compute; reflexivity|].
  destruct (cancellation_converges ∅ overdue_at "rq" 50 s_cancelled ltac:(lia)) as (n & s' & E & Hn & Hall).
  assert (Hlen : length (select (overdue overdue_at ∅) (runs s_cancelled)) = 1%nat) by (vm_compute; reflexivity).
  rewrite Hlen in Hn. exists n, s'. split; [exact E|]. split; [exact Hn|].
  assert (Ho : overdue overdue_at ∅ 103 <$> runs s_cancelled !! 103%N = Some true) by (vm_compute; reflexivity).
  destruct (runs s_cancelled !! 103%N) as [r|] eqn:Hr; [|discriminate]. injection Ho as Ho.
  destruct (proj1 (Hall 103%N r Hr) Ho) as [Hs|[Hx _]]; [exact Hs|]. exfalso. rewrite Hn in Hx. discriminate.
Defined.

(** Worker 110 takes the CANCEL command and reports that it failed: the run is FAILED.
  When the START lease expires later, recovery queues the run again; it is claimed
  once more although its cancellation was requested, its worker can do nothing under
  the lease, and a second cancellation violates [run_cancellation_immutable]. *)
Definition second_worker : RegisterWorkerRequest :=
MkRegister (lit "w2") ["RUN_START"; "RUN_CANCEL"]%string 1 "1" (lit "1.0") None [].
Definition bearer2 : option pystr := Some (lit "Bearer rdc_worker_abcdefgi_t9").
Definition s_two : db := at_ 4 (Register second_worker) s_cancelled.
Definition s_cancelling : db := at_ 5 (Claim bearer2 ∅ [RUN_CANCEL]) s_two.
Definition cancel_failed : op :=
OnLease bearer2 112 (Some (lit "rdc_lease_t11")) None (Complete ∅ (MkComplete FAILED false None None [])).
Definition s_failed : db := at_ 6 cancel_failed s_cancelling.
Definition s_back : db := at_ 100 (Sweep true ∅ 100) s_failed.
Definition s_again : db := at_ 110 (Claim bearer ∅ [RUN_START]) s_back.
Definition complete_again : op :=
OnLease bearer 114 (Some (lit "rdc_lease_t13")) None (Complete ∅ finished).

Lemma failed_cancellation_resurrects_run :
  status_of 103 s_failed = Some RunStatus.FAILED ∧ status_of 103 s_back = Some RunStatus.QUEUED ∧
  status_of 103 s_again = Some RunStatus.STARTING ∧
  (run_op complete_again (seconds 111) "rq" s_again).1 = inl lease_invalid ∧
  (run_op (cancel "key-5678") (seconds 101) "rq" s_back).1 = inl (IntegrityError "run_cancellation_immutable").
Proof. vm_compute. repeat split. Qed.

(** Two queued builds: the source object of the first is gone, that of the second is
  there.  No BUILD is ever claimed: every claim selects the first and is refused. *)
Definition source : StorageObject := MkStorageObject 1 2 "AVAILABLE" "PASSED" None (lit "aa") 10 (lit "application/zip").
Definition builder : RegisterWorkerRequest := MkRegister (lit "w1") ["BUILD"]%string 1 "1" (lit "1.0") None [].
Definition s_blocked : db :=
at_ 2 (QueueBuild 1 2 3 4 (lit "d") 8 source 300)
  (at_ 1 (QueueBuild 1 2 3 4 (lit "d") 7 source 300)
     (at_ 0 (Register builder) (s_version <| objects := {[8%N := source]} |>))).

Lemma unavailable_source_blocks_builds :
  (run_op (Claim bearer ∅ [BUILD]) (seconds 10) "rq" s_blocked).1 = inl (ApiError 409 "SOURCE_OBJECT_UNAVAILABLE") ∧
  (run_op (Claim bearer ∅ [BUILD]) (seconds 1000) "rq" (at_ 10 (Claim bearer ∅ [BUILD]) s_blocked)).1 =
    inl (ApiError 409 "SOURCE_OBJECT_UNAVAILABLE").
Proof. vm_compute. by split. Qed.
End CancellationScenario.
