(* ===== verification/PyEq.v ===== *)
(** Equality of Python values ([==]): numbers by value, lists by position, dictionaries as
    maps; and the readers of nested JSON documents the execution plane uses. *)

From S2P Require Import Prelude PyVal Json QueueProtocol Idempotency.

(** A float and an integer are equal. *)
Class FloatCompare := float_int_eq : pyfloat → Z → bool.

Definition int_of_bool (b : bool) : Z := if b then 1 else 0.
Definition float_eq (f g : pyfloat) : bool :=
  match f, g with
  | FFin r, FFin r' => bool_decide (r = r') || (negb (truthy (PFloat f)) && negb (truthy (PFloat g)))
  | FPosInf, FPosInf | FNegInf, FNegInf => true
  | _, _ => false
  end.
Section eq.
Context `{FloatCompare}.

Fixpoint py_eq (a b : pyval) : bool :=
match a, b with
| PNone, PNone => true
| PBool x, PBool y => Bool.eqb x y
| PBool x, PInt z | PInt z, PBool x => z =? int_of_bool x
| PInt x, PInt y => x =? y
| PFloat f, PInt z | PInt z, PFloat f => float_int_eq f z
| PFloat f, PBool x | PBool x, PFloat f => float_int_eq f (int_of_bool x)
| PFloat f, PFloat g => float_eq f g
| PStr x, PStr y => bool_decide (x = y)
| PList l, PList m =>
    (fix go l m := match l, m with
     | [], [] => true
     | x :: l, y :: m => py_eq x y && go l m
     | _, _ => false
     end) l m
| PDict k, PDict m =>
    (length k =? length m)%nat &&
    (fix go k := match k with
     | [] => true
     | (KStr key, x) :: k => match dict_find key m with Some y => py_eq x y | None => false end && go k
     | (KOther, _) :: _ => false
     end) k
| _, _ => false
end.

(** JSON values with distinct keys and without floats. *)
Fixpoint plain (v : pyval) : bool :=
match v with
| PFloat _ | POther => false
| PList l => (fix go l := match l with [] => true | x :: l => plain x && go l end) l
| PDict k => bool_decide (NoDup k.*1) &&
    (fix go k := match k with
     | [] => true
     | (KStr _, x) :: k => plain x && go k
     | (KOther, _) :: _ => false
     end) k
| _ => true
end.

Lemma dict_find_app_skip key (k m : list (pykey * pyval)) : KStr key ∉ k.*1 → dict_find key (k ++ m) = dict_find key m.
Proof.
induction k as [|[k' x] k IH]; cbn; [done|]. intros [Hne Hk]%not_elem_of_cons. rewrite decide_False by congruence. by apply IH.
Qed.

Lemma py_eq_refl v : plain v = true → py_eq v v = true.
Proof.
induction v as [|[]|z|f|s|l IH|kvs IH|] using pyval_ind'; cbn; intros Hp; try done; try lia.
- by apply bool_decide_eq_true_2.
- induction IH as [|x l Hx _ IHl]; [done|]. apply andb_prop in Hp as [Hp1 Hp2]. rewrite Hx by done. cbn. by apply IHl.
- apply andb_prop in Hp as [Hnd Hp]. apply bool_decide_eq_true in Hnd. rewrite Nat.eqb_refl. cbn [andb].
  assert (Hgen : ∀ pre, NoDup (pre ++ kvs).*1 → (fix go k := match k with
     | [] => true
     | (KStr key, x) :: k => match dict_find key (pre ++ kvs) with Some y => py_eq x y | None => false end && go k
     | (KOther, _) :: _ => false end) kvs = true); [|by apply (Hgen [])].
  clear Hnd. induction IH as [|[[key|] x] kvs Hx _ IHk]; intros pre Hnd; [done| |done].
  apply andb_prop in Hp as [Hp1 Hp2]. cbn [snd] in Hx. rewrite dict_find_app_skip.
  2: { rewrite fmap_app in Hnd. apply NoDup_app in Hnd as (_ & Hd & _). intros Hin. apply (Hd _ Hin). left. }
  cbn [dict_find]. rewrite decide_True by done. rewrite Hx by done. cbn [andb].
  specialize (IHk Hp2 (pre ++ [(KStr key, x)])). rewrite <- app_assoc in IHk. cbn [app] in IHk. by apply IHk.
Qed.
End eq.

(** [d[key] = v] with a literal key, and literal documents. *)
Definition entry (key : string) (v : pyval) : pykey * pyval := (KStr (lit key), v).
Definition text (s : string) : pyval := PStr (lit s).
Definition opt_str (s : option pystr) : pyval := match s with Some s => PStr s | None => PNone end.
(** [canonical_fingerprint], with the error of a text that has no UTF-8 encoding. *)
Definition fingerprint `{Sha256} (v : pyval) : exn + pystr :=
  match canonical_fingerprint v with Some d => inr d | None => inl UnicodeEncodeError end.
(** [isinstance(v, dict)], [isinstance(v, str)], [isinstance(v, bool)]. *)
Definition as_dict (v : pyval) : option (list (pykey * pyval)) := match v with PDict k => Some k | _ => None end.
Definition as_str (v : pyval) : option pystr := match v with PStr s => Some s | _ => None end.
Definition as_bool (v : pyval) : option bool := match v with PBool b => Some b | _ => None end.
(** [isinstance(v, int) and not isinstance(v, bool)], and [type(v) is int]. *)
Definition as_int (v : pyval) : option Z := match v with PInt z => Some z | _ => None end.
Definition as_list (v : pyval) : option (list pyval) := match v with PList l => Some l | _ => None end.
(** [all(isinstance(x, str) for x in l)]. *)
Definition as_strs (v : pyval) : option (list pystr) := as_list v ≫= mapM as_str.
Definition has_key (key : string) (d : list (pykey * pyval)) : bool := bool_decide (is_Some (dict_find (lit key) d)).

(** [str(d.get(key, ""))]. *)
Definition field_text `{PyRepr} (key : string) (d : list (pykey * pyval)) : pystr :=
  py_str (default (PStr []) (dict_find (lit key) d)).

Lemma mapM_as_str l ss : mapM as_str l = Some ss ↔ l = PStr <$> ss.
Proof.
  revert ss. induction l as [|v l IH]; intros ss; cbn.
  - destruct ss; split; by intros [=].
  - destruct v; cbn; try (split; [done|by destruct ss]).
    destruct (mapM as_str l) as [ts|] eqn:E; cbn.
    + split; [intros [= <-]; cbn; f_equal; by apply IH|]. destruct ss as [|x ss]; [done|]. intros [= -> Hl]. apply IH in Hl. by injection Hl as ->.
    + split; [done|]. destruct ss as [|x ss]; [done|]. intros [= -> Hl]. by apply IH in Hl.
Qed.

Lemma dict_find_set_eq k v d : dict_find k (dict_set (KStr k) v d) = Some v.
Proof.
  induction d as [|[k' x] d IH]; cbn; [by rewrite decide_True|]. case_decide; cbn; [by rewrite decide_True|].
  by rewrite decide_False.
Qed.
Lemma dict_find_set_ne k k' v d : k ≠ k' → dict_find k (dict_set (KStr k') v d) = dict_find k d.
Proof.
  intros Hne. induction d as [|[k'' x] d IH]; cbn; [by rewrite decide_False by congruence|].
  case_decide; cbn; [subst; by rewrite !decide_False by congruence|]. by rewrite IH.
Qed.

(** What the readers accept. *)
Lemma as_dict_Some v d : as_dict v = Some d → v = PDict d.
Proof. destruct v; cbn; congruence. Qed.
Lemma as_str_Some v s : as_str v = Some s → v = PStr s.
Proof. destruct v; cbn; congruence. Qed.
Lemma as_bool_Some v b : as_bool v = Some b → v = PBool b.
Proof. destruct v; cbn; congruence. Qed.
Lemma as_int_Some v z : as_int v = Some z → v = PInt z.
Proof. destruct v; cbn; congruence. Qed.
Lemma as_strs_Some v l : as_strs v = Some l → v = PList (PStr <$> l).
Proof.
  unfold as_strs. destruct v; cbn; try congruence. intros Hm. by apply mapM_as_str in Hm as ->.
Qed.
