(* ===== verification/SandboxJson.v ===== *)
(** The JSON texts the sandbox worker digests (src/workers/sandbox-runtime): [json.dumps]
    with its default [ensure_ascii=True], where the control plane passes
    [ensure_ascii=False].  Main results: on values whose texts are printable ASCII the two
    digests agree, and they differ for some other values. *)

From S2P Require Import Prelude PyVal Json PyUuid QueueProtocol Idempotency Url PyEq.

(** ** The checks of the sandbox worker *)

(** A check that raises an exception of a class the worker declares. *)
Definition must (class : string) (b : bool) (reason : string) : exn + () := if b then inr () else inl (Fault class reason).
Definition the {A} (class : string) (o : option A) (reason : string) : exn + A :=
  match o with Some a => inr a | None => inl (Fault class reason) end.

Lemma must_bind {A} c b m (k : () → exn + A) x : (must c b m ≫= k) = inr x → b = true ∧ k () = inr x.
Proof. by destruct b. Qed.
Lemma the_bind {A B} c (o : option A) m (k : A → exn + B) x : (the c o m ≫= k) = inr x → ∃ a, o = Some a ∧ k a = inr x.
Proof. destruct o; [eauto|done]. Qed.
Lemma must_inr c b m : must c b m = inr () → b = true.
Proof. by destruct b. Qed.
(** Checks that pass. *)
Lemma must_ok {A} c b m (k : () → exn + A) : b = true → (must c b m ≫= k) = k ().
Proof. by intros ->. Qed.
Lemma the_ok {A B} c (o : option A) a m (k : A → exn + B) : o = Some a → (the c o m ≫= k) = k a.
Proof. by intros ->. Qed.
Lemma sum_bind_ok {A B} (m : exn + A) a (k : A → exn + B) : m = inr a → (m ≫= k) = k a.
Proof. by intros ->. Qed.
(** Inversion of an accepted sequence of checks. *)
Ltac must_step H :=
  lazymatch type of H with
  | (must _ _ _ ≫= _) = inr _ => let E := fresh "E" in apply must_bind in H as (E & H)
  | (the _ _ _ ≫= _) = inr _ => let a := fresh "a" in let E := fresh "E" in apply the_bind in H as (a & E & H)
  | (_ ≫= _) = inr _ => let a := fresh "a" in let E := fresh "E" in apply sum_bind_inr in H as (a & E & H)
  end.
Ltac musts H := repeat (must_step H; cbv beta zeta in H).

(** The exceptions a check can raise: those of some classes. *)
Definition of_class (classes : list string) (e : exn) : bool :=
  match e with Fault c _ => bool_decide (c ∈ classes) | _ => false end.
Definition only {A} (classes : list string) (m : exn + A) : Prop :=
  match m with inl e => of_class classes e = true | inr _ => True end.
Lemma only_bind {A B} cs (m : exn + A) (k : A → exn + B) : only cs m → (∀ a, only cs (k a)) → only cs (m ≫= k).
Proof. destruct m; [done|intros _ Hk; apply Hk]. Qed.
Lemma only_must cs c b m : bool_decide (c ∈ cs) = true → only cs (must c b m).
Proof. by destruct b. Qed.
Lemma only_the {A} cs c (o : option A) m : bool_decide (c ∈ cs) = true → only cs (the c o m).
Proof. by destruct o. Qed.
Lemma only_mapM {A B} cs (f : A → exn + B) l : (∀ a, only cs (f a)) → only cs (mapM f l).
Proof.
intros Hf. induction l as [|x l IH]; [done|]. cbn. apply only_bind; [done|]. intros y. apply only_bind; [exact IH|done].
Qed.
Lemma only_mono {A} cs cs' (m : exn + A) : only cs m → cs ⊆ cs' → only cs' m.
Proof.
destruct m as [[]|]; cbn; try done. intros Hc%bool_decide_eq_true Hs. apply bool_decide_eq_true_2. by apply Hs.
Qed.
(** Checks one by one; the functions they call are in the hints [only]. *)
Create HintDb only.
Ltac only_step :=
  lazymatch goal with
  | |- only _ (must _ _ _) => apply only_must; reflexivity
  | |- only _ (the _ _ _) => apply only_the; reflexivity
  | |- only _ (mapM _ _) => apply only_mapM; intros ?
  | |- only _ (_ ≫= _) => apply only_bind; [|intros ?]
  | |- only _ (inr _) => exact I
  | |- only _ (inl _) => reflexivity
  | |- only _ (if ?b then _ else _) => destruct b
  | |- only _ (match ?x with _ => _ end) => destruct x
  | |- _ => solve [auto with only]
  end.
Ltac only_steps := repeat (cbv beta zeta; only_step).

(** A loop that builds a list and stops at the first error. *)
Lemma mapM_inr {A B} (f : A → exn + B) l k : mapM f l = inr k ↔ Forall2 (λ x y, f x = inr y) l k.
Proof.
revert k. induction l as [|x l IH]; intros k; cbn.
- split; [intros [= <-]; constructor|by intros ->%Forall2_nil_inv_l].
- split.
  + intros (y & Hy & (k' & Hk & [= <-])%sum_bind_inr)%sum_bind_inr. constructor; [done|by apply IH].
  + intros (y & k' & Hy & Hk & ->)%Forall2_cons_inv_l. rewrite Hy. cbn. by rewrite (proj2 (IH k') Hk).
Qed.

(** [[A-Za-z0-9][A-Za-z0-9._-]{0,63}] under [fullmatch]: request and step identifiers. *)
Definition safe_id (s : pystr) : bool :=
  match s with
  | c :: t => is_alnum c && (length t <=? 63)%nat && forallb (λ c, is_alnum c || bool_decide (c ∈ lit "._-")) t
  | [] => false
  end.
(** [[0-9a-f]{64}] under [fullmatch]. *)
Definition sha256_text (d : pystr) : bool :=
  (length d =? 64)%nat && forallb (λ c, is_ascii_digit c || ((97 <=? c) && (c <=? 102))%N) d.

(** ** JSON values *)

(** The messages of one of the worker's copies of [_validate_json_value]. *)
Record json_messages := MkJsonMessages {
  jm_class : string; jm_depth : string; jm_finite : string; jm_keys : string; jm_type : string }.
(** [_validate_json_value(value, depth=depth)]: at most 32 levels, finite floats, string keys;
    the first failure. *)
Fixpoint json_fault (m : json_messages) (v : pyval) (depth : Z) : exn + () :=
  if 32 <? depth then inl (Fault (jm_class m) (jm_depth m))
  else match v with
  | PNone | PBool _ | PInt _ | PStr _ => inr ()
  | PFloat (FFin _) => inr ()
  | PFloat _ => inl (Fault (jm_class m) (jm_finite m))
  | PList l =>
      (fix go l := match l with
       | [] => inr ()
       | x :: l => match json_fault m x (depth + 1) with inl e => inl e | inr _ => go l end
       end) l
  | PDict kvs =>
      (fix go kvs := match kvs with
       | [] => inr ()
       | (KOther, _) :: _ => inl (Fault (jm_class m) (jm_keys m))
       | (KStr _, x) :: kvs => match json_fault m x (depth + 1) with inl e => inl e | inr _ => go kvs end
       end) kvs
  | POther => inl (Fault (jm_class m) (jm_type m))
  end.
Lemma json_fault_only m v depth : only [jm_class m] (json_fault m v depth).
Proof.
assert (Hc : ∀ s, of_class [jm_class m] (Fault (jm_class m) s) = true) by (intros s; apply bool_decide_eq_true_2; left).
revert depth. induction v as [|?|?|[]|?|l IH|kvs IH|] using pyval_ind'; intros depth; cbn [json_fault]; destruct (32 <? depth);
  try exact (Hc _); try exact I.
- induction IH as [|x l Hx _ IHl]; [exact I|]. specialize (Hx (depth + 1)). by destruct (json_fault m x (depth + 1)).
- induction IH as [|[[k|] x] l Hx _ IHl]; [exact I| |exact (Hc _)]. specialize (Hx (depth + 1)). cbn in Hx.
  by destruct (json_fault m x (depth + 1)).
Qed.

(** [d[key]]. *)
Definition item (key : string) (d : list (pykey * pyval)) : exn + pyval := the "KeyError" (dict_find (lit key) d) key.

(** ** The ASCII encoding *)

Definition printable (c : N) : bool := (32 <=? c)%N && (c <=? 126)%N.
Definition hex4_of (n : N) : pystr :=
  [hex_digit (n / 4096 mod 16); hex_digit (n / 256 mod 16); hex_digit (n / 16 mod 16); hex_digit (n mod 16)]%N.
(** [ESCAPE_ASCII] of [json.encoder]: a character outside printable ASCII, as one or two
    UTF-16 units.  Every such character of a JSON text is in a string. *)
Definition ascii_escape (c : N) : pystr :=
  if printable c then [c]
  else if (c <? 65536)%N then [92; 117]%N ++ hex4_of c
  else let n := (c - 65536)%N in
       [92; 117]%N ++ hex4_of (55296 + n / 1024 mod 1024)%N ++ [92; 117]%N ++ hex4_of (56320 + n mod 1024)%N.
(** [json.dumps(v, sort_keys=True, separators=(",", ":"))], on values without NaN or
    infinities. *)
Definition json_dumps_ascii (v : pyval) : option pystr := flat_map ascii_escape <$> json_dumps v.

(** [_canonical_digest] of worker.py, on values [json] renders. *)
Definition canonical_digest `{Sha256} (v : pyval) : option pystr :=
  sha256_hex <$> (json_dumps_ascii v ≫= utf8_encode).

(** ** Where the two encodings agree *)

(** Values whose texts and keys are printable ASCII, without floats. *)
Fixpoint plain_text (v : pyval) : bool :=
match v with
| PFloat _ | POther => false
| PStr s => forallb printable s
| PList l => (fix go l := match l with [] => true | x :: l => plain_text x && go l end) l
| PDict k =>
    (fix go k := match k with
     | [] => true
     | (KStr s, x) :: k => forallb printable s && plain_text x && go k
     | (KOther, _) :: _ => false
     end) k
| _ => true
end.

Definition plain_member (kv : pykey * pyval) : Prop :=
  match kv.1 with KStr s => forallb printable s = true | KOther => False end ∧ plain_text kv.2 = true.

Lemma plain_text_list l : plain_text (PList l) = true ↔ Forall (λ x, plain_text x = true) l.
Proof.
induction l as [|x l IH]; [split; [constructor|done]|]. rewrite Forall_cons, <- IH. cbn. by rewrite andb_true_iff.
Qed.
Lemma plain_text_dict k : plain_text (PDict k) = true ↔ Forall plain_member k.
Proof.
induction k as [|[[s|] x] k IH]; [split; [constructor|done]| |].
- rewrite Forall_cons, <- IH. unfold plain_member at 1. cbn. rewrite !andb_true_iff. done.
- rewrite Forall_cons. unfold plain_member at 1. cbn. naive_solver.
Qed.

Lemma forallb_app_true {A} (p : A → bool) l m : forallb p l = true → forallb p m = true → forallb p (l ++ m) = true.
Proof. rewrite forallb_app. intros -> ->. done. Qed.

Lemma hex_digit_printable n : (n < 16)%N → printable (hex_digit n) = true.
Proof.
intros Hn. unfold printable, hex_digit. destruct (n <? 10)%N eqn:E; rewrite andb_true_iff, !N.leb_le;
  [apply N.ltb_lt in E|apply N.ltb_ge in E]; lia.
Qed.
Lemma escape_printable c : printable c = true → forallb printable (escape_char c) = true.
Proof.
unfold escape_char. intros Hc.
assert (c <? 32 = false)%N as ->.
{ apply andb_prop in Hc as [?%N.leb_le _]. by apply N.ltb_ge. }
repeat (case_match; [done|]). cbn [forallb]. by rewrite Hc.
Qed.
Lemma print_str_printable s : forallb printable s = true → forallb printable (print_str s) = true.
Proof.
intros Hs. unfold print_str. change (forallb printable (flat_map escape_char s ++ [34%N]) = true).
apply forallb_app_true; [|done]. induction s as [|c s IH]; [done|]. cbn [forallb] in Hs. cbn [flat_map].
apply andb_prop in Hs as [Hc Hs]. apply forallb_app_true; [by apply escape_printable|by apply IH].
Qed.
Lemma dec_str_printable n : forallb printable (dec_str n) = true.
Proof.
apply forallb_forall. intros c Hc%list_elem_of_In. pose proof (uint_str_digits (N.to_uint n)) as Hd.
rewrite Forall_forall in Hd. specialize (Hd c Hc). unfold is_digit in Hd. unfold printable.
apply andb_prop in Hd as [?%N.leb_le ?%N.leb_le]. apply andb_true_iff. rewrite !N.leb_le. lia.
Qed.

Lemma print_elems_printable l b :
Forall (λ x, ∀ p, print x = Some p → forallb printable p = true) l → print_elems l = Some b → forallb printable b = true.
Proof.
intros Hl. revert b. induction Hl as [|x l Hx Hl IH]; intros b; [by intros [= <-]|].
destruct l as [|y l]; [exact (Hx b)|]. intros (p & Hp & (q & Hq & [= <-])%bind_Some)%bind_Some.
apply forallb_app_true; [by apply Hx|]. cbn. by apply IH.
Qed.
Lemma print_members_printable k b :
Forall (λ kv, (match kv.1 with KStr s => forallb printable s = true | KOther => False end) ∧
  ∀ p, print kv.2 = Some p → forallb printable p = true) k → print_members k = Some b → forallb printable b = true.
Proof.
intros Hk. revert b. induction Hk as [|[[s|] x] k [Hs Hx] Hk IH]; intros b; [by intros [= <-]| |done].
destruct k as [|y k].
- intros (p & Hp & [= <-])%bind_Some. apply forallb_app_true; [by apply print_str_printable|]. cbn. by apply Hx.
- intros (p & Hp & (q & Hq & [= <-])%bind_Some)%bind_Some.
  apply forallb_app_true; [by apply print_str_printable|]. cbn.
  apply forallb_app_true; [by apply Hx|]. cbn. by apply IH.
Qed.
Lemma print_printable v p : plain_text v = true → print v = Some p → forallb printable p = true.
Proof.
revert p. induction v as [|[]|z|f|s|l IH|k IH|] using pyval_ind'; intros p Hv; try (by intros [= <-]); try done.
- cbn. unfold print_int. case_decide; [|done]. intros [= <-]. destruct (z <? 0); cbn; apply dec_str_printable.
- intros [= <-]. by apply print_str_printable.
- rewrite print_list. intros (b & Hb & [= <-])%bind_Some. cbn. apply forallb_app_true; [|done].
  apply plain_text_list in Hv. eapply print_elems_printable; [|exact Hb].
  rewrite Forall_forall in IH, Hv |- *. intros x Hx q. by apply IH, Hv.
- rewrite print_dict. intros (b & Hb & [= <-])%bind_Some. cbn. apply forallb_app_true; [|done].
  apply plain_text_dict in Hv. eapply print_members_printable; [|exact Hb].
  rewrite Forall_forall in IH, Hv |- *. intros x Hx. destruct (Hv x Hx) as [Hk Hp]. split; [done|]. intros q. by apply IH.
Qed.

Lemma plain_text_canon v : plain_text v = true → plain_text (canon v) = true.
Proof.
induction v as [| | | | |l IH|k IH|] using pyval_ind'; try done.
- rewrite canon_list, !plain_text_list, Forall_fmap, !Forall_forall. rewrite Forall_forall in IH. naive_solver.
- rewrite canon_dict, !plain_text_dict, merge_sort_Permutation, Forall_fmap, !Forall_forall.
  rewrite Forall_forall in IH. intros Hk kv Hin. destruct (Hk kv Hin) as [Hs Hv]. split; [by destruct kv|].
  destruct kv as [key x]. cbn. apply (IH _ Hin), Hv.
Qed.

Lemma ascii_escape_printable s : forallb printable s = true → flat_map ascii_escape s = s.
Proof.
induction s as [|c s IH]; [done|]. cbn [forallb flat_map]. intros [Hc Hs]%andb_prop. unfold ascii_escape at 1. rewrite Hc. cbn [app]. by rewrite IH.
Qed.

(** Without other characters the two encodings, and the two digests, are the same. *)
Lemma json_dumps_ascii_plain v : plain_text v = true → json_dumps_ascii v = json_dumps v.
Proof.
intros Hv. unfold json_dumps_ascii. destruct (json_dumps v) as [p|] eqn:E; [|done]. cbn. f_equal.
apply ascii_escape_printable. eapply print_printable; [by apply plain_text_canon|exact E].
Qed.
Lemma canonical_digest_plain `{Sha256} v : plain_text v = true → canonical_digest v = canonical_fingerprint v.
Proof. intros Hv. unfold canonical_digest, canonical_fingerprint, json_bytes. by rewrite json_dumps_ascii_plain. Qed.

Lemma plain_text_entry key v d : forallb printable (lit key) = true →
plain_text (PDict (entry key v :: d)) = plain_text v && plain_text (PDict d).
Proof. intros Hk. unfold entry. cbn. by rewrite Hk. Qed.

Example ascii_escapes :
  flat_map ascii_escape [233; 128512; 127]%N = lit "\u00e9\ud83d\ude00\u007f".
Proof. vm_compute. reflexivity. Qed.

(** ** Values that always render *)

Lemma little_double_digits d : (Decimal.nb_digits (Decimal.Little.double d) ≤ S (Decimal.nb_digits d))%nat ∧
(Decimal.nb_digits (Decimal.Little.succ_double d) ≤ S (Decimal.nb_digits d))%nat.
Proof. induction d as [|d IH|d IH|d IH|d IH|d IH|d IH|d IH|d IH|d IH|d IH]; cbn; lia. Qed.
Lemma little_digits p : (Decimal.nb_digits (Pos.to_little_uint p) ≤ Pos.size_nat p)%nat.
Proof.
induction p as [p IH|p IH|]; cbn [Pos.to_little_uint Pos.size_nat]; [| |cbn; lia];
  pose proof (little_double_digits (Pos.to_little_uint p)); lia.
Qed.
Lemma length_uint_str d : length (uint_str d) = Decimal.nb_digits d.
Proof. induction d; cbn; congruence. Qed.
Lemma length_dec_str n : (length (dec_str n) ≤ S (N.size_nat n))%nat.
Proof.
unfold dec_str. rewrite length_uint_str. destruct n as [|p]; [cbn; lia|]. cbn [N.to_uint N.size_nat].
unfold Pos.to_uint. rewrite DecimalFacts.nb_digits_rev. pose proof (little_digits p). lia.
Qed.
Lemma size_nat_bound p k : Z.pos p < 2 ^ Z.of_nat k → (Pos.size_nat p ≤ k)%nat.
Proof.
revert k. induction p as [p IH|p IH|]; intros [|k]; cbn [Pos.size_nat]; try lia; rewrite Nat2Z.inj_succ, Z.pow_succ_r by lia;
  intros Hp; apply le_n_S, IH; lia.
Qed.
(** An integer of 64 bits. *)
Definition int64 (z : Z) : bool := (- 2 ^ 63 <=? z) && (z <? 2 ^ 63).
Lemma print_int_small z : int64 z = true → is_Some (print_int z).
Proof.
unfold int64. rewrite andb_true_iff, Z.leb_le, Z.ltb_lt. intros Hz. unfold print_int. rewrite decide_True; [by eexists|].
assert (N.size_nat (Z.abs_N z) ≤ 64)%nat.
{ destruct (Z.abs_N z) as [|p] eqn:E; [cbn; lia|]. cbn [N.size_nat]. apply size_nat_bound. lia. }
pose proof (length_dec_str (Z.abs_N z)). unfold max_int_digits. lia.
Qed.

(** JSON values without floats whose integers have 64 bits. *)
Fixpoint renders (v : pyval) : bool :=
match v with
| PFloat _ | POther => false
| PInt z => int64 z
| PList l => (fix go l := match l with [] => true | x :: l => renders x && go l end) l
| PDict k =>
    (fix go k := match k with
     | [] => true
     | (KStr _, x) :: k => renders x && go k
     | (KOther, _) :: _ => false
     end) k
| _ => true
end.
Definition renders_member (kv : pykey * pyval) : Prop := kv.1 ≠ KOther ∧ renders kv.2 = true.
Lemma renders_list l : renders (PList l) = true ↔ Forall (λ x, renders x = true) l.
Proof.
induction l as [|x l IH]; [split; [constructor|done]|]. rewrite Forall_cons, <- IH. cbn. by rewrite andb_true_iff.
Qed.
Lemma renders_dict k : renders (PDict k) = true ↔ Forall renders_member k.
Proof.
induction k as [|[[s|] x] k IH]; [split; [constructor|done]| |].
- rewrite Forall_cons, <- IH. unfold renders_member at 1. cbn. rewrite !andb_true_iff. naive_solver.
- rewrite Forall_cons. unfold renders_member at 1. cbn. naive_solver.
Qed.
Lemma renders_canon v : renders v = true → renders (canon v) = true.
Proof.
induction v as [| | | | |l IH|k IH|] using pyval_ind'; try done.
- rewrite canon_list, !renders_list, Forall_fmap, !Forall_forall. rewrite Forall_forall in IH. naive_solver.
- rewrite canon_dict, !renders_dict, merge_sort_Permutation, Forall_fmap, !Forall_forall.
  rewrite Forall_forall in IH. intros Hk kv Hin. destruct (Hk kv Hin) as [Hs Hv]. split; [by destruct kv|].
  destruct kv as [key x]. cbn. apply (IH _ Hin), Hv.
Qed.
Lemma renders_print v : renders v = true → is_Some (print v).
Proof.
induction v as [|b|z|f|s|l IH|k IH|] using pyval_ind'; intros Hv; try done; try (by eexists).
- by apply print_int_small.
- apply renders_list in Hv. rewrite print_list. assert (is_Some (print_elems l)) as [p ->]; [|by eexists].
  induction IH as [|x l Hx _ IHl]; [by eexists|]. apply Forall_cons in Hv as [Hv Hvl]. destruct (Hx Hv) as [p Hp], (IHl Hvl) as [q Hq].
  destruct l as [|y l]; cbn [print_elems] in *; rewrite Hp; [by eexists|]. cbn [mbind option_bind]. rewrite Hq. by eexists.
- apply renders_dict in Hv. rewrite print_dict. assert (is_Some (print_members k)) as [p ->]; [|by eexists].
  induction IH as [|[[s|] x] k Hx _ IHk]; [by eexists| |by apply Forall_cons in Hv as [[? _] _]].
  apply Forall_cons in Hv as [[_ Hv] Hvk]. destruct (Hx Hv) as [p Hp], (IHk Hvk) as [q Hq]. cbn [snd] in Hp.
  destruct k as [|y k]; cbn [print_members] in *; rewrite Hp; [by eexists|]. cbn [mbind option_bind]. rewrite Hq. by eexists.
Qed.

(** The ASCII text is printable, so it is its own encoding. *)
Lemma hex4_printable n : forallb printable (hex4_of n) = true.
Proof.
unfold hex4_of. cbn [forallb]. rewrite !hex_digit_printable by (by apply N.mod_lt). done.
Qed.
Lemma ascii_escape_all_printable s : forallb printable (flat_map ascii_escape s) = true.
Proof.
induction s as [|c s IH]; [done|]. cbn [flat_map]. apply forallb_app_true; [|done]. unfold ascii_escape.
destruct (printable c) eqn:Hc; [cbn; by rewrite Hc|]. case_match; [apply forallb_app_true; [done|apply hex4_printable]|].
cbv zeta. repeat (apply forallb_app_true; [done || apply hex4_printable|]). apply hex4_printable.
Qed.
Lemma utf8_printable p : forallb printable p = true → utf8_encode p = Some p.
Proof.
induction p as [|c p IH]; [done|]. cbn [forallb]. intros [Hc Hp]%andb_prop. cbn [utf8_encode].
assert (c <? 128 = true)%N as Hlt.
{ unfold printable in Hc. apply andb_prop in Hc as [_ ?%N.leb_le]. apply N.ltb_lt. lia. }
unfold utf8_char. rewrite Hlt. cbn. by rewrite IH.
Qed.
Lemma renders_digest `{Sha256} v : renders v = true → is_Some (canonical_digest v).
Proof.
intros [p Hp]%renders_canon%renders_print. unfold canonical_digest, json_dumps_ascii, json_dumps. rewrite Hp.
cbn [fmap option_fmap option_map mbind option_bind]. rewrite utf8_printable by apply ascii_escape_all_printable. by eexists.
Qed.
