(* ===== verification/Canary.v ===== *)
(** The canary settings of src/apps/api/app/core/config.py and what
    src/apps/api/app/services/runs.py derives from them: the policies of the sandbox and
    the live-canary tests of an agent version. *)

From S2P Require Import Prelude PyVal Json PyUuid QueueProtocol EventProtocol Idempotency Url.
From S2P Require Import Recovery Pagination RunEvents ExecutionPlane EgressProtocol PyEq.

(** ** Settings *)

(** The [sandbox_canary_*] settings; the agent version and the worker name are stripped. *)
Record canary_settings := MkCanary {
  cs_agent_version_id : pystr;
  cs_max_memory_mb : Z;
  cs_max_cpu_millis : Z;
  cs_max_pids : Z;
  cs_max_ephemeral_disk_mb : Z;
  cs_max_build_seconds : Z;
  cs_max_run_seconds : Z;
  cs_web_egress_enabled : bool;
  cs_allowed_hosts : list pystr;
  cs_web_egress : EgressLimits;
  cs_browser_enabled : bool;
  cs_live_navigation_enabled : bool;
  cs_dataset_writes_enabled : bool;
  cs_key_value_store_enabled : bool;
  cs_request_queue_enabled : bool;
  cs_queue_http_enabled : bool;
  cs_queue_browser_enabled : bool;
  cs_queue_dataset_enabled : bool;
  cs_queue_key_value_store_enabled : bool;
  cs_browser_max_pages : Z;
  cs_browser_max_actions : Z;
  cs_navigation_timeout_seconds : Z;
  cs_browser_max_dom_bytes : Z;
  cs_browser_max_screenshot_bytes : Z;
  (** Not of the canary: [sandbox_max_output_bytes], [sandbox_artifact_max_bytes]. *)
  cs_max_output_bytes : Z;
  cs_artifact_max_bytes : Z }.
#[export] Instance eta_canary : Eta canary_settings := λ c,
  MkCanary (cs_agent_version_id c) (cs_max_memory_mb c) (cs_max_cpu_millis c) (cs_max_pids c)
    (cs_max_ephemeral_disk_mb c) (cs_max_build_seconds c) (cs_max_run_seconds c) (cs_web_egress_enabled c)
    (cs_allowed_hosts c) (cs_web_egress c) (cs_browser_enabled c) (cs_live_navigation_enabled c)
    (cs_dataset_writes_enabled c) (cs_key_value_store_enabled c) (cs_request_queue_enabled c)
    (cs_queue_http_enabled c) (cs_queue_browser_enabled c) (cs_queue_dataset_enabled c)
    (cs_queue_key_value_store_enabled c) (cs_browser_max_pages c) (cs_browser_max_actions c)
    (cs_navigation_timeout_seconds c) (cs_browser_max_dom_bytes c) (cs_browser_max_screenshot_bytes c)
    (cs_max_output_bytes c) (cs_artifact_max_bytes c).
(** The settings the process runs with. *)
Class CanarySettings := canary : canary_settings.

(** An exact hostname of the allowlist: the form of its labels, no address, no wildcard. *)
Definition exact_hostname `{CaseFold, UrlTables, Idna} (bounded : bool) (value : pystr) : option pystr :=
  let candidate := casefold (rstrip (lit ".") (py_strip value)) in
  if bool_decide (candidate = []) || bool_decide (42%N ∈ candidate) then None
  else if bool_decide (is_Some (ip_address candidate)) then None
  else normalized ← idna_encode candidate;
    let labels := split_on 46 normalized in
    if (bounded && (253 <? length normalized)%nat) || (length labels <? 2)%nat || ends_with (lit ".local") normalized
       || negb (forallb label_ok labels)
    then None else Some normalized.

(** [[a-z0-9][a-z0-9._-]+], from 3 to 160 characters. *)
Definition worker_name_ok (name : pystr) : bool :=
  (3 <=? length name)%nat && (length name <=? 160)%nat && lower_alnum (List.hd 0%N name)
  && forallb (λ c, lower_alnum c || bool_decide (c ∈ lit "._-")) name.

Definition between (lo v hi : Z) : bool := (lo <=? v) && (v <=? hi).

(** The sandbox part of [Settings.validate_security_secrets]. *)
Section validate.
Context `{CaseFold, UrlTables, Idna, UnicodeDecimal, Settings}.

Definition canary_mode : bool := sandbox_execution_enabled && bool_decide (sandbox_activation_mode = "canary"%string).

Definition sandbox_ranges_ok (c : canary_settings) : bool :=
bool_decide (sandbox_required_profile = "rdc.sandbox/v1"%string) && between 128 sandbox_max_memory_mb 32768
&& between 100 sandbox_max_cpu_millis 16000 && between 16 sandbox_max_pids 4096
&& between 64 sandbox_max_ephemeral_disk_mb 102400 && between 30 sandbox_max_build_seconds 3600
&& between 1 sandbox_max_run_seconds 86400 && between 1048576 (cs_max_output_bytes c) 268435456
&& between 1048576 (cs_artifact_max_bytes c) 68719476736.
Definition activation_ok (c : canary_settings) : bool :=
negb (bool_decide (sandbox_activation_mode = "canary"%string))
|| (sandbox_execution_enabled && negb (bool_decide (cs_agent_version_id c = []))
    && bool_decide (is_Some (uuid_of_str (cs_agent_version_id c))) && worker_name_ok canary_worker).
Definition canary_limits_ok (c : canary_settings) : bool :=
between 1 (cs_max_memory_mb c) sandbox_max_memory_mb && between 1 (cs_max_cpu_millis c) sandbox_max_cpu_millis
&& between 1 (cs_max_pids c) sandbox_max_pids && between 1 (cs_max_ephemeral_disk_mb c) sandbox_max_ephemeral_disk_mb
&& between 1 (cs_max_build_seconds c) sandbox_max_build_seconds && between 1 (cs_max_run_seconds c) sandbox_max_run_seconds.

(** The checks after the hosts are normalised. *)
Definition web_egress_ok (c : canary_settings) : bool :=
let l := cs_web_egress c in
(length (cs_allowed_hosts c) <=? 32)%nat
&& (negb (cs_web_egress_enabled c) || (canary_mode && negb (bool_decide (cs_allowed_hosts c = []))))
&& between 1 (el_max_requests l) 32 && between 1024 (el_max_response_bytes l) 8388608
&& between (el_max_response_bytes l) (el_max_total_bytes l) 33554432 && between 0 (el_max_redirects l) 5
&& between 1 (el_connect_timeout_seconds l) 15 && between 1 (el_request_timeout_seconds l) 30.
Definition gates_ok (c : canary_settings) : bool :=
let hosts := negb (bool_decide (cs_allowed_hosts c = [])) in
(negb (cs_dataset_writes_enabled c) || canary_mode)
&& (negb (cs_key_value_store_enabled c) || canary_mode)
&& (negb (cs_request_queue_enabled c) || canary_mode)
&& (negb (cs_queue_http_enabled c) || (cs_request_queue_enabled c && cs_web_egress_enabled c && hosts))
&& (negb (cs_queue_browser_enabled c)
    || (cs_request_queue_enabled c && cs_browser_enabled c && cs_live_navigation_enabled c
        && cs_web_egress_enabled c && hosts))
&& (negb (cs_queue_dataset_enabled c) || (cs_request_queue_enabled c && cs_dataset_writes_enabled c))
&& (negb (cs_queue_key_value_store_enabled c) || (cs_request_queue_enabled c && cs_key_value_store_enabled c)).
Definition browser_ok (c : canary_settings) : bool :=
between 1 (cs_browser_max_pages c) 2 && between 1 (cs_browser_max_actions c) 16
&& between 1 (cs_navigation_timeout_seconds c) 30 && between 65536 (cs_browser_max_dom_bytes c) 4194304
&& between 65536 (cs_browser_max_screenshot_bytes c) 4194304
&& (negb (cs_live_navigation_enabled c)
    || (cs_browser_enabled c && (cs_max_memory_mb c <=? 256) && (cs_max_cpu_millis c <=? 500) && (cs_max_pids c <=? 64)
        && (cs_max_ephemeral_disk_mb c <=? 256) && (cs_max_run_seconds c <=? 120)))
&& (negb (cs_browser_enabled c)
    || (canary_mode && cs_web_egress_enabled c && negb (bool_decide (cs_allowed_hosts c = [])))).

Definition validate_canary (c : canary_settings) : exn + canary_settings :=
if negb (sandbox_ranges_ok c) || negb (activation_ok c) || negb (canary_limits_ok c)
then inl (ValueError "sandbox settings")
else match mapM (exact_hostname true) (cs_allowed_hosts c) with
| None => inl (ValueError "Canary web-egress hosts")
| Some normalized =>
    let c := c <| cs_allowed_hosts := sorted_set normalized |> in
    if web_egress_ok c && gates_ok c && browser_ok c then inr c else inl (ValueError "canary settings")
end.
End validate.

(** ** The policies of the canary *)

Section policies.
Context `{CaseFold, UrlTables, Idna, Sha256, Settings, !CanarySettings}.

Definition browser_policy_payload : list (pykey * pyval) :=
[entry "schema_version" (text "rdc.browser-policy/v1"); entry "enabled" (PBool (cs_browser_enabled canary));
 entry "allowed_hosts" (PList (PStr <$> merge_sort str_le (cs_allowed_hosts canary)));
 entry "max_pages" (PInt (cs_browser_max_pages canary)); entry "max_actions" (PInt (cs_browser_max_actions canary));
 entry "navigation_timeout_seconds" (PInt (cs_navigation_timeout_seconds canary));
 entry "max_dom_bytes" (PInt (cs_browser_max_dom_bytes canary));
 entry "max_screenshot_bytes" (PInt (cs_browser_max_screenshot_bytes canary));
 entry "agent_container_network" (text "none"); entry "project_secrets_available" (PBool false);
 entry "persistent_profile" (PBool false); entry "downloads_enabled" (PBool false);
 entry "uploads_enabled" (PBool false); entry "remote_cdp_enabled" (PBool false)].

(** An egress policy in force, and its document. *)
Record runtime_policy := MkRuntime { rp_hosts : list pystr; rp_methods : list pystr; rp_limits : EgressLimits }.
Definition runtime_policy_payload (p : runtime_policy) : list (pykey * pyval) :=
[entry "schema_version" (text "rdc.egress/v1"); entry "mode" (text "brokered");
 entry "allowed_schemes" (PList [text "https"]); entry "allowed_methods" (PList (PStr <$> rp_methods p));
 entry "allowed_hosts" (PList (PStr <$> rp_hosts p)); entry "deny_ip_literals" (PBool true);
 entry "require_global_dns" (PBool true); entry "revalidate_redirects" (PBool true);
 entry "container_network" (text "none"); entry "max_requests" (PInt (el_max_requests (rp_limits p)));
 entry "max_response_bytes" (PInt (el_max_response_bytes (rp_limits p)));
 entry "max_total_bytes" (PInt (el_max_total_bytes (rp_limits p)));
 entry "max_redirects" (PInt (el_max_redirects (rp_limits p)));
 entry "connect_timeout_seconds" (PInt (el_connect_timeout_seconds (rp_limits p)));
 entry "request_timeout_seconds" (PInt (el_request_timeout_seconds (rp_limits p)))].
(** [_web_egress_policy_payload]: what the operator allows. *)
Definition ceiling : runtime_policy := MkRuntime (cs_allowed_hosts canary) ALLOWED_METHODS (cs_web_egress canary).
Definition revision_policy (v : ValidatedEgressPolicy) : runtime_policy :=
MkRuntime (vp_allowed_hosts v) (vp_allowed_methods v) (vp_limits v).

Definition limits_within (l c : EgressLimits) : bool :=
(el_max_requests l <=? el_max_requests c) && (el_max_response_bytes l <=? el_max_response_bytes c)
&& (el_max_total_bytes l <=? el_max_total_bytes c) && (el_max_redirects l <=? el_max_redirects c)
&& (el_connect_timeout_seconds l <=? el_connect_timeout_seconds c)
&& (el_request_timeout_seconds l <=? el_request_timeout_seconds c).
Definition revision_within_canary_ceiling (v : ValidatedEgressPolicy) : bool :=
bool_decide (vp_allowed_hosts v ⊆ ((λ host, casefold (rstrip (lit ".") (py_strip host))) <$> cs_allowed_hosts canary))
&& bool_decide (vp_allowed_methods v ⊆ ALLOWED_METHODS)
&& limits_within (vp_limits v) (cs_web_egress canary).

(** [_browser_egress_policy_payload] of the document of a policy. *)
Definition browser_egress_policy_payload (effective : list (pykey * pyval)) : list (pykey * pyval) :=
[entry "schema_version" (text "rdc.browser-egress-policy/v1"); entry "mode" (text "gateway-live-canary");
 entry "allowed_schemes" (PList [text "https"]); entry "allowed_methods" (dict_get "allowed_methods" effective);
 entry "allowed_resource_types" (PList (text <$> ["document"; "fetch"; "font"; "image"; "script"; "stylesheet"; "xhr"]%string));
 entry "allowed_hosts" (dict_get "allowed_hosts" effective); entry "deny_ip_literals" (PBool true);
 entry "require_global_dns" (PBool true); entry "pin_validated_address" (PBool true);
 entry "revalidate_redirects" (PBool true); entry "revalidate_subresources" (PBool true);
 entry "strip_request_headers" (PList (text <$> ["authorization"; "cookie"; "proxy-authorization"]%string));
 entry "strip_response_headers" (PList [text "set-cookie"]); entry "service_workers_enabled" (PBool false);
 entry "websockets_enabled" (PBool false); entry "webrtc_enabled" (PBool false);
 entry "proxy_override_enabled" (PBool false); entry "persistent_cookies_enabled" (PBool false);
 entry "max_requests" (dict_get "max_requests" effective);
 entry "max_resource_bytes" (dict_get "max_response_bytes" effective);
 entry "max_total_bytes" (dict_get "max_total_bytes" effective); entry "max_redirects" (dict_get "max_redirects" effective);
 entry "connect_timeout_seconds" (dict_get "connect_timeout_seconds" effective);
 entry "request_timeout_seconds" (dict_get "request_timeout_seconds" effective);
 entry "transport_wired" (PBool true); entry "browser_network" (text "none")].

(** ** The live-canary tests of an agent version *)

Definition manifest_invalid : exn := ApiError 409 "AGENT_MANIFEST_INVALID".
(** [version.manifest.get("capabilities")], which must be an object. *)
Definition manifest_capabilities (manifest : list (pykey * pyval)) : exn + list (pykey * pyval) :=
match dict_get "capabilities" manifest with PDict c => inr c | _ => inl manifest_invalid end.
Definition known_network (v : pyval) : option string :=
match v with
| PStr s => if bool_decide (s = lit "none") then Some "none"%string
            else if bool_decide (s = lit "web-egress") then Some "web-egress"%string else None
| _ => None
end.
(** [network not in {...}] raises [TypeError] for a value without a hash. *)
Definition manifest_network (manifest : list (pykey * pyval)) : exn + string :=
c ← manifest_capabilities manifest;
let v := dict_get "network" c in
if hashable v then match known_network v with Some n => inr n | None => inl manifest_invalid end
else inl (TypeError "unhashable type").
Definition manifest_browser (manifest : list (pykey * pyval)) : exn + bool :=
c ← manifest_capabilities manifest;
match dict_get "browser" c with PBool b => inr b | _ => inl manifest_invalid end.
Definition manifest_resource (manifest : list (pykey * pyval)) (key : string) : exn + Z :=
match dict_get "resources" manifest with
| PDict resources => match dict_get key resources with PInt z => inr z | _ => inl manifest_invalid end
| _ => inl manifest_invalid
end.

(** The limits of the canary bound those of the manifest; an invalid manifest has none. *)
Definition within_canary_limits (manifest : list (pykey * pyval)) : bool :=
forallb (λ '(key, limit), match manifest_resource manifest key with inr z => z <=? limit | inl _ => false end)
  [("memoryMb"%string, cs_max_memory_mb canary); ("cpuUnits"%string, cs_max_cpu_millis canary);
   ("maxProcesses"%string, cs_max_pids canary); ("ephemeralDiskMb"%string, cs_max_ephemeral_disk_mb canary);
   ("timeoutSeconds"%string, cs_max_run_seconds canary)].
(** What every live canary requires of the settings and the version. *)
Definition live_canary (vid : uuid) (manifest : list (pykey * pyval)) : bool :=
canary_mode && negb (bool_decide (canary_worker = [])) && bool_decide (str_of_uuid vid = cs_agent_version_id canary)
&& within_canary_limits manifest.
Definition egress_open : bool := cs_web_egress_enabled canary && negb (bool_decide (cs_allowed_hosts canary = [])).

Definition browser_navigation_live_canary_enabled vid manifest : bool :=
egress_open && cs_browser_enabled canary && cs_live_navigation_enabled canary && live_canary vid manifest.
Definition request_queue_http_canary_enabled vid manifest : bool :=
cs_request_queue_enabled canary && cs_queue_http_enabled canary && egress_open && live_canary vid manifest.
Definition request_queue_browser_canary_enabled vid manifest : bool :=
cs_request_queue_enabled canary && cs_queue_browser_enabled canary && egress_open && cs_browser_enabled canary
&& cs_live_navigation_enabled canary && live_canary vid manifest.
Definition request_queue_dataset_canary_enabled vid manifest : bool :=
cs_request_queue_enabled canary && cs_dataset_writes_enabled canary && cs_queue_dataset_enabled canary
&& live_canary vid manifest.
Definition request_queue_key_value_store_canary_enabled vid manifest : bool :=
cs_request_queue_enabled canary && cs_key_value_store_enabled canary && cs_queue_key_value_store_enabled canary
&& live_canary vid manifest.
End policies.
