(* ===== verification/SandboxEgress.v ===== *)
(** The egress policy of the sandbox worker: src/workers/sandbox-runtime/egress_policy.py.
    Main results: a validated target is an allowed host with public addresses; hosts the
    control plane approved are taken as they are; an accepted policy is within the safe
    ranges and its document is the one the control plane seals. *)

From S2P Require Import Prelude PyVal PyUuid QueueProtocol EventProtocol Idempotency Url.
From S2P Require Import EgressProtocol PyEq Canary SandboxJson.

(** [socket.getaddrinfo(host, 443, ...)]: the address of each record that has one, or
    [OSError]. *)
Class Resolver := getaddrinfo : pystr → option (list (option pystr)).
(** [ipaddress.ip_address(value).is_global]. *)
Class GlobalAddress := is_global : pystr → bool.

Record EgressPolicy := MkEgressPolicy {
  ep_allowed_hosts : list pystr;
  ep_allowed_methods : list pystr;
  ep_limits : EgressLimits }.
Record ValidatedTarget := MkTarget { vt_url : pystr; vt_hostname : pystr; vt_addresses : list pystr }.

Definition check_policy : bool → string → exn + () := must "EgressPolicyError".
Definition get_policy {A} : option A → string → exn + A := the "EgressPolicyError".

(** The first check a label of a hostname fails. *)
Definition label_fault (l : pystr) : option string :=
  if bool_decide (l = []) || (63 <? length l)%nat then Some "Egress hostname contains an invalid label."%string
  else if starts_with (lit "-") l || ends_with (lit "-") l
  then Some "Egress hostname label cannot start or end with '-'."%string
  else if negb (forallb (λ c, is_alnum c || (c =? 45)%N) l)
  then Some "Egress hostname contains unsupported characters."%string else None.
Definition labels_fault (labels : list pystr) : option string := List.find (λ _, true) (omap label_fault labels).

(** [f":{port}"], when the URL has a port. *)
Definition port_text (port : option Z) : pystr := match port with Some n => lit ":" ++ dec_str (Z.to_N n) | None => [] end.

Section policy.
Context `{CaseFold, UrlTables, Idna, UpperCase, Sha256, !Resolver, !GlobalAddress}.

Definition normalize_hostname (value : pystr) : exn + pystr :=
let candidate := casefold (rstrip (lit ".") (py_strip value)) in
check_policy (negb (bool_decide (candidate = []))) "Egress hostname cannot be blank." ;;
check_policy (negb (bool_decide (42%N ∈ candidate))) "Wildcard egress hostnames are not allowed." ;;
check_policy (bool_decide (ip_address candidate = None)) "IP-literal egress destinations are not allowed." ;;
normalized ← get_policy (idna_encode candidate) "Egress hostname is not valid IDNA.";
check_policy (length normalized <=? 253)%nat "Egress hostname is too long." ;;
let labels := split_on 46 normalized in
check_policy (2 <=? length labels)%nat "Single-label egress hostnames are not allowed." ;;
check_policy (negb (bool_decide (normalized = lit "localhost")
                    || existsb (λ suffix, ends_with suffix normalized) FORBIDDEN_SUFFIXES))
  "Special-use egress hostnames are not allowed." ;;
match labels_fault labels with Some reason => check_policy false reason | None => inr () end ;;
inr normalized.

(** [_require_global_address] on each usable record. *)
Fixpoint usable_addresses (records : list (option pystr)) : exn + list pystr :=
match records with
| [] => inr []
| None :: records => usable_addresses records
| Some address :: records =>
    check_policy (bool_decide (is_Some (ip_address address))) "DNS resolver returned an invalid IP address." ;;
    check_policy (is_global address) "Egress destination resolved to a non-global network address." ;;
    rest ← usable_addresses records;
    inr (address :: rest)
end.
Definition resolve_public_addresses (hostname : pystr) : exn + list pystr :=
records ← get_policy (getaddrinfo hostname) "Egress hostname DNS resolution failed.";
addresses ← usable_addresses records;
check_policy (negb (bool_decide (addresses = []))) "Egress hostname resolved to no usable addresses." ;;
inr (sorted_set addresses).

(** [EgressPolicy.create]. *)
Definition create (allowed_hosts allowed_methods : list pystr) (l : EgressLimits) : exn + EgressPolicy :=
hosts ← mapM normalize_hostname allowed_hosts;
let normalized := sorted_set hosts in
let methods := sorted_set ((λ m, upper (py_strip m)) <$> allowed_methods) in
check_policy (negb (bool_decide (normalized = []))) "Egress allowlist cannot be empty." ;;
check_policy (length normalized <=? 32)%nat "Egress allowlist cannot exceed 32 hosts." ;;
check_policy (negb (bool_decide (methods = [])) && forallb (λ m, bool_decide (m ∈ ALLOWED_METHODS)) methods)
  "Egress methods must be GET or HEAD." ;;
check_policy (between 1 (el_max_requests l) 32) "Egress request budget is outside the safe range." ;;
check_policy (between 1024 (el_max_response_bytes l) 8388608) "Per-response egress byte limit is outside the safe range." ;;
check_policy (between (el_max_response_bytes l) (el_max_total_bytes l) 33554432)
  "Total egress byte limit must cover one response and stay bounded." ;;
check_policy (between 0 (el_max_redirects l) 5) "Redirect budget is outside the safe range." ;;
check_policy (between 1 (el_connect_timeout_seconds l) 15) "Connect timeout is outside the safe range." ;;
check_policy (between 1 (el_request_timeout_seconds l) 30) "Request timeout is outside the safe range." ;;
inr (MkEgressPolicy normalized methods l).

(** [EgressPolicy.as_dict]. *)
Definition policy_dict (p : EgressPolicy) : list (pykey * pyval) :=
[entry "schema_version" (text "rdc.egress/v1"); entry "mode" (text "brokered");
 entry "allowed_schemes" (PList [text "https"]); entry "allowed_methods" (PList (PStr <$> ep_allowed_methods p));
 entry "allowed_hosts" (PList (PStr <$> ep_allowed_hosts p)); entry "deny_ip_literals" (PBool true);
 entry "require_global_dns" (PBool true); entry "revalidate_redirects" (PBool true);
 entry "container_network" (text "none"); entry "max_requests" (PInt (el_max_requests (ep_limits p)));
 entry "max_response_bytes" (PInt (el_max_response_bytes (ep_limits p)));
 entry "max_total_bytes" (PInt (el_max_total_bytes (ep_limits p)));
 entry "max_redirects" (PInt (el_max_redirects (ep_limits p)));
 entry "connect_timeout_seconds" (PInt (el_connect_timeout_seconds (ep_limits p)));
 entry "request_timeout_seconds" (PInt (el_request_timeout_seconds (ep_limits p)))].
(** [EgressPolicy.digest]; it is taken with [ensure_ascii=False]. *)
Definition digest (p : EgressPolicy) : exn + pystr := fingerprint (PDict (policy_dict p)).

(** [EgressPolicy.validate_target]. *)
Definition validate_target (p : EgressPolicy) (url : pystr) : exn + ValidatedTarget :=
parsed ← get_policy (urlsplit url) "Egress URL is invalid.";
check_policy (bool_decide (casefold (sr_scheme parsed) = lit "https")) "Phase 1J permits HTTPS URLs only." ;;
check_policy (bool_decide ((rpartition 64 (sr_netloc parsed)).1 = None)) "Credentials in egress URLs are not allowed." ;;
hostname ← get_policy (hostname_of (sr_netloc parsed)) "Egress URL is missing a hostname.";
check_policy (negb (bool_decide (hostname = []))) "Egress URL is missing a hostname." ;;
host ← normalize_hostname hostname;
check_policy (bool_decide (host ∈ ep_allowed_hosts p)) "Egress hostname is not operator-allowlisted." ;;
port ← get_policy (port_of (sr_netloc parsed)) "Egress URL contains an invalid port.";
check_policy (bool_decide (port = None) || bool_decide (port = Some 443)) "Phase 1J permits HTTPS port 443 only." ;;
addresses ← resolve_public_addresses host;
let netloc := host ++ port_text port in
inr (MkTarget
  (urlunsplit_https netloc (if bool_decide (sr_path parsed = []) then lit "/" else sr_path parsed) (sr_query parsed))
  host addresses).

(** ** Lemmas *)

Lemma labels_fault_None labels : labels_fault labels = None → Forall (λ l, label_fault l = None) labels.
Proof.
unfold labels_fault. induction labels as [|l labels IH]; [constructor|]. cbn. destruct (label_fault l) eqn:E; [done|].
intros Hl. constructor; [done|by apply IH].
Qed.

(** What the policy lets out: an allowed host, public addresses, HTTPS on port 443, a path,
  no credentials. *)
Record target_ok (p : EgressPolicy) (t : ValidatedTarget) : Prop := {
to_host : vt_hostname t ∈ ep_allowed_hosts p;
to_addresses : vt_addresses t ≠ [];
to_global : Forall (λ a, is_Some (ip_address a) ∧ is_global a = true) (vt_addresses t);
to_url : ∃ port rest, vt_url t = lit "https://" ++ vt_hostname t ++ port ++ lit "/" ++ rest ∧ (port = [] ∨ port = lit ":443");
to_name : ∃ v, normalize_hostname v = inr (vt_hostname t) }.

Lemma usable_addresses_inr records l : usable_addresses records = inr l →
Forall (λ a, is_Some (ip_address a) ∧ is_global a = true) l.
Proof.
revert l. induction records as [|[a|] records IH]; intros l; cbn [usable_addresses]; [intros [= <-]; constructor| |by apply IH].
unfold check_policy. intros Hu. musts Hu. injection Hu as <-. breflect. constructor; [done|by apply IH].
Qed.
Lemma resolve_public_inr host l : resolve_public_addresses host = inr l →
l ≠ [] ∧ Forall (λ a, is_Some (ip_address a) ∧ is_global a = true) l.
Proof.
unfold resolve_public_addresses, get_policy, check_policy. intros Hr. musts Hr. injection Hr as <-.
apply usable_addresses_inr in E0. breflect. split.
- destruct a0 as [|x l]; [done|]. intros He. assert (x ∈ sorted_set (x :: l)) as Hx by (apply elem_of_sorted_set; left).
  rewrite He in Hx. by apply not_elem_of_nil in Hx.
- rewrite Forall_forall in E0 |- *. intros x Hx. by apply E0, elem_of_sorted_set.
Qed.

Lemma dec_443 : dec_str (Z.to_N 443) = lit "443".
Proof. vm_compute. reflexivity. Qed.

Lemma validate_target_inr p url t : validate_target p url = inr t → target_ok p t.
Proof.
unfold validate_target, get_policy, check_policy. intros Hv. musts Hv. injection Hv as <-.
destruct (resolve_public_inr _ _ E8) as [Hne Hg].
assert (port_text a2 = [] ∨ port_text a2 = lit ":443") as Hok.
{ apply orb_prop in E7 as [->%bool_decide_eq_true| ->%bool_decide_eq_true]; [by left|right]. cbn [port_text]. by rewrite dec_443. }
clear E7. breflect. split; cbn [vt_url vt_hostname vt_addresses]; try done; [|by exists a0].
destruct (urlsplit_spec _ _ E) as (_ & _ & _ & _ & _ & Hpath).
assert (sr_netloc a ≠ []) as Hnl by (intros Hn; unfold hostname_of in E2; by rewrite Hn in E2).
specialize (Hpath Hnl). unfold urlunsplit_https. exists (port_text a2). case_bool_decide as Hp.
- eexists. split; [|done]. rewrite <- !app_assoc. reflexivity.
- destruct (sr_path a) as [|c path]; [done|]. subst c. eexists. split; [|done]. rewrite <- !app_assoc. reflexivity.
Qed.

(** ** Its exceptions *)

Definition EGRESS : list string := ["EgressPolicyError"].

Lemma normalize_hostname_only v : only EGRESS (normalize_hostname v).
Proof. unfold normalize_hostname, check_policy, get_policy. only_steps. Qed.
#[local] Hint Resolve normalize_hostname_only : only.
Lemma usable_addresses_only l : only EGRESS (usable_addresses l).
Proof. induction l as [|[a|] l IH]; cbn [usable_addresses]; [done| |exact IH]. unfold check_policy. only_steps. Qed.
#[local] Hint Resolve usable_addresses_only : only.
Lemma validate_target_only p url : only EGRESS (validate_target p url).
Proof. unfold validate_target, resolve_public_addresses, check_policy, get_policy. only_steps. Qed.
Lemma create_only hosts methods l : only EGRESS (create hosts methods l).
Proof. unfold create, check_policy. only_steps. Qed.

(** ** Agreement with the control plane *)

Lemma label_ok_no_fault l : label_ok l = true → label_fault l = None.
Proof.
unfold label_ok, label_fault. rewrite !andb_true_iff, !negb_true_iff. intros ((((Hne & Hlen) & Hs) & He) & Hc).
apply Nat.leb_le in Hlen. by rewrite Hne, (proj2 (Nat.ltb_ge _ _) Hlen), Hs, He, Hc.
Qed.
Lemma labels_no_fault labels : Forall (λ l, label_ok l = true) labels → labels_fault labels = None.
Proof.
unfold labels_fault. induction 1 as [|l labels Hl _ IH]; [done|]. cbn. by rewrite label_ok_no_fault.
Qed.

(** A host in the form the control plane stores is taken as it is. *)
Lemma approved_host `{!HostTables} h : canonical_host h = true → normalize_hostname h = inr h.
Proof.
intros Hc. pose proof Hc as Hcc. unfold canonical_host in Hc. rewrite !andb_true_iff, !negb_true_iff in Hc.
destruct Hc as ((((Hlen & Hl) & Hlab) & Hq) & Hsuf).
assert (Forall (λ c, host_char c = true) h) as Hch by (by apply canonical_host_chars).
assert (∀ c, c ∈ h → c ∉ lit "[]:/@*") as Hno.
{ intros c Hin. rewrite Forall_forall in Hch. by apply host_char_lower, Hch. }
assert (h ≠ []) as Hne by (intros ->; done).
unfold normalize_hostname, check_policy, get_policy. rewrite canonical_folds by done. cbv zeta.
rewrite must_ok by (by rewrite bool_decide_eq_false_2).
rewrite must_ok.
2: { rewrite bool_decide_eq_false_2; [done|]. intros Hin. apply (Hno _ Hin). apply (bool_decide_unpack _). vm_compute. exact I. }
rewrite must_ok.
2: { apply bool_decide_eq_true_2. destruct (ip_address h) eqn:E; [|done].
     destruct (ip_address_form h) as [Hd|Hd]; [by rewrite E|congruence|].
     exfalso. apply (Hno _ Hd). apply (bool_decide_unpack _). vm_compute. exact I. }
rewrite (the_ok _ _ h) by (by apply canonical_idna).
rewrite (must_ok _ (length h <=? 253)%nat) by exact Hlen.
rewrite (must_ok _ (2 <=? _)%nat) by exact Hl. rewrite must_ok.
- rewrite labels_no_fault; [done|]. apply Forall_forall. intros l Hin. rewrite forallb_forall in Hlab.
  apply canonical_label_ok, Hlab. by apply list_elem_of_In.
- rewrite Hsuf, orb_false_r, bool_decide_eq_false_2; [done|]. intros ->. done.
Qed.

Lemma approved_hosts `{!HostTables} hosts : Forall (λ h, canonical_host h = true) hosts →
mapM normalize_hostname hosts = inr hosts.
Proof. intros Hh. apply mapM_inr. induction Hh; constructor; [by apply approved_host|done]. Qed.

(** The ranges the worker accepts. *)
Definition safe_limits (l : EgressLimits) : bool :=
between 1 (el_max_requests l) 32 && between 1024 (el_max_response_bytes l) 8388608
&& between (el_max_response_bytes l) (el_max_total_bytes l) 33554432 && between 0 (el_max_redirects l) 5
&& between 1 (el_connect_timeout_seconds l) 15 && between 1 (el_request_timeout_seconds l) 30.

Lemma method_upper m : m ∈ ALLOWED_METHODS → upper (py_strip m) = m.
Proof.
intros Hm. assert (py_strip m = m ∧ Forall (λ c, (c < 128)%N) m ∧ (ascii_upper <$> m) = m) as (-> & Ha & Hu).
{ revert m Hm. apply Forall_forall. repeat constructor; vm_compute; try done. }
by rewrite upper_ascii.
Qed.

(** A sorted policy of approved hosts within the ranges is accepted as it is. *)
Lemma create_approved `{!HostTables} hosts methods l : Forall (λ h, canonical_host h = true) hosts →
hosts = sorted_set hosts → hosts ≠ [] → (length hosts ≤ 32)%nat →
methods = sorted_set methods → methods ≠ [] → methods ⊆ ALLOWED_METHODS → safe_limits l = true →
create hosts methods l = inr (MkEgressPolicy hosts methods l).
Proof.
intros Hh Hs Hne Hlen Hms Hmne Hm Hl. unfold create, check_policy. rewrite (sum_bind_ok _ hosts) by (by apply approved_hosts).
assert ((λ m, upper (py_strip m)) <$> methods = methods) as ->.
{ apply map_id_Forall, Forall_forall. intros m Hin. by apply method_upper, Hm. }
rewrite <- Hs, <- Hms. unfold safe_limits in Hl. rewrite !andb_true_iff in Hl. destruct Hl as (((((H1' & H2') & H3') & H4') & H5') & H6').
rewrite must_ok by (by rewrite bool_decide_eq_false_2). rewrite must_ok by (by apply Nat.leb_le).
rewrite must_ok.
2: { rewrite bool_decide_eq_false_2 by done. apply forallb_forall. intros m Hin%list_elem_of_In. by apply bool_decide_eq_true_2, Hm. }
by rewrite !must_ok.
Qed.

(** What [create] accepts. *)
Lemma create_inr hosts methods l p : create hosts methods l = inr p →
ep_limits p = l ∧ safe_limits l = true ∧ ep_allowed_hosts p ≠ [] ∧ (length (ep_allowed_hosts p) ≤ 32)%nat ∧
ep_allowed_methods p ≠ [] ∧ ep_allowed_methods p ⊆ ALLOWED_METHODS ∧
ep_allowed_hosts p = sorted_set (ep_allowed_hosts p) ∧ Forall (λ h, ∃ v, normalize_hostname v = inr h) (ep_allowed_hosts p).
Proof.
unfold create, check_policy. intros Hc. musts Hc. injection Hc as <-. apply andb_prop in E2 as [E2 E2'].
unfold safe_limits. rewrite E3, E4, E5, E6, E7, E8. clear E3 E4 E5 E6 E7 E8. breflect. cbn [ep_limits ep_allowed_hosts ep_allowed_methods].
split_and!; try done.
- intros m Hm%list_elem_of_In. rewrite forallb_forall in E2'.
  exact (proj1 (bool_decide_eq_true _) (E2' m Hm)).
- by rewrite sorted_set_idemp.
- apply mapM_inr in E. apply Forall_forall. intros h Hh. apply (proj1 (elem_of_sorted_set _ _)) in Hh. apply list_elem_of_lookup in Hh as [i Hi].
  destruct (Forall2_lookup_r _ _ _ _ _ E Hi) as (v & _ & Hv). by exists v.
Qed.
End policy.
#[export] Hint Resolve normalize_hostname_only validate_target_only create_only : only.
