(* ===== verification/WebFetch.v ===== *)
(** The web-fetch contract of the sandbox worker:
    src/workers/sandbox-runtime/web_fetch_contract.py.  Main results: an accepted envelope
    is its own normal form, and a broker output that answers the requests one by one passes
    the result adapter with the digest of the envelope. *)

From S2P Require Import Prelude PyVal Json PyUuid QueueProtocol EventProtocol Idempotency Url.
From S2P Require Import EgressProtocol PyEq Canary SandboxJson.

Definition FETCH_SCHEMA_VERSION : string := "rdc.web-fetch/v1".
Definition RESULT_SCHEMA_VERSION : string := "rdc.web-fetch-result/v1".
Definition SAFE_HEADERS : list pystr :=
  lit <$> ["content-type"; "content-length"; "etag"; "last-modified"; "cache-control"]%string.
Definition MAX_REQUESTS : nat := 32.
Definition MAX_FETCH_URL : nat := N.to_nat 8192.
Definition MAX_FETCH_BYTES : nat := N.to_nat 65536.

Record WebFetchRequest := MkFetch { wf_request_id : pystr; wf_method : pystr; wf_url : pystr }.
#[export] Instance web_fetch_request_eq_dec : EqDecision WebFetchRequest.
Proof. solve_decision. Defined.

Definition as_broker_request (r : WebFetchRequest) : list (pykey * pyval) :=
  [entry "id" (PStr (wf_request_id r)); entry "method" (PStr (wf_method r)); entry "url" (PStr (wf_url r))].
(** [WebFetchEnvelope]: its requests; [as_dict] and [as_phase1j_broker_input]. *)
Definition envelope_dict (requests : list WebFetchRequest) : list (pykey * pyval) :=
  [entry "schema_version" (text FETCH_SCHEMA_VERSION);
   entry "requests" (PList (PDict ∘ as_broker_request <$> requests))].
Definition broker_input (requests : list WebFetchRequest) : list (pykey * pyval) :=
  [entry "_rdc_web_requests" (PList (PDict ∘ as_broker_request <$> requests))].

Definition contract : bool → string → exn + () := must "WebFetchContractError".
Definition contract_get {A} : option A → string → exn + A := the "WebFetchContractError".

(** [_canonical_bytes]. *)
Definition canonical_bytes (v : pyval) : exn + list N :=
  contract_get (json_bytes v) "Web-fetch value must contain valid JSON.".
(** [WebFetchEnvelope.digest]; the text has [ensure_ascii=False]. *)
Definition envelope_digest `{Sha256} (requests : list WebFetchRequest) : exn + pystr :=
  b ← canonical_bytes (PDict (envelope_dict requests)); inr (sha256_hex b).

Section contract.
Context `{CaseFold, UrlTables, UpperCase, Sha256}.

Definition normalize_request (raw : pyval) : exn + WebFetchRequest :=
d ← contract_get (as_dict raw) "Web-fetch requests require exactly id, method, and url.";
contract (has_exact_keys ["id"; "method"; "url"] d) "Web-fetch requests require exactly id, method, and url." ;;
request_id ← contract_get (as_str (dict_get "id" d)) "Web-fetch request id is invalid.";
contract (safe_id request_id) "Web-fetch request id is invalid." ;;
method ← contract_get (as_str (dict_get "method" d)) "Web-fetch method must be a string.";
let method := upper method in
contract (bool_decide (method ∈ ALLOWED_METHODS)) "Web-fetch method must be GET or HEAD." ;;
url ← contract_get (as_str (dict_get "url" d)) "Web-fetch URL is invalid.";
contract (negb (bool_decide (url = [])) && (length url <=? MAX_FETCH_URL)%nat) "Web-fetch URL is invalid." ;;
contract (starts_with (lit "https://") url) "Web-fetch URL must use lowercase https://." ;;
parsed ← contract_get (urlsplit url) "Web-fetch URL is malformed.";
hostname ← contract_get (hostname_of (sr_netloc parsed)) "Web-fetch URL requires a hostname.";
contract (negb (bool_decide (hostname = []))) "Web-fetch URL requires a hostname." ;;
contract (bool_decide ((rpartition 64 (sr_netloc parsed)).1 = None)) "Web-fetch URL credentials are not allowed." ;;
inr (MkFetch request_id method url).

Definition parse_web_fetch_envelope (raw : pyval) : exn + list WebFetchRequest :=
d ← contract_get (as_dict raw) "Web-fetch envelope requires exactly schema_version and requests.";
contract (has_exact_keys ["schema_version"; "requests"] d)
  "Web-fetch envelope requires exactly schema_version and requests." ;;
contract (bool_decide (dict_get "schema_version" d = text FETCH_SCHEMA_VERSION)) "Unsupported web-fetch schema version." ;;
requests ← contract_get (as_list (dict_get "requests" d)) "Web-fetch requests must be a list.";
contract ((1 <=? length requests) && (length requests <=? MAX_REQUESTS))%nat
  "Web-fetch request count is outside the safe range." ;;
normalized ← mapM normalize_request requests;
contract (bool_decide (NoDup (wf_request_id <$> normalized))) "Web-fetch request ids must be unique." ;;
b ← canonical_bytes (PDict (envelope_dict normalized));
contract (length b <=? MAX_FETCH_BYTES)%nat "Web-fetch envelope cannot exceed 64 KiB." ;;
inr normalized.

(** [phase1j_broker_adapter]. *)
Definition phase1j_broker_adapter (raw : pyval) : exn + list (pykey * pyval) :=
requests ← parse_web_fetch_envelope raw; inr (broker_input requests).

(** ** Results *)

Definition result_body (raw : list (pykey * pyval)) : exn + list (pykey * pyval) :=
size ← contract_get (as_int (dict_get "size_bytes" raw)) "Broker result size is invalid.";
contract (0 <=? size) "Broker result size is invalid." ;;
digest ← contract_get (as_str (dict_get "body_sha256" raw)) "Broker result body digest is invalid.";
contract (sha256_text digest) "Broker result body digest is invalid." ;;
let body encoding value :=
  inr [entry "encoding" (text encoding); entry "value" value; entry "size_bytes" (PInt size); entry "sha256" (PStr digest)] in
match dict_get "body_text" raw, dict_get "body_base64" raw with
| PNone, PNone => body "none"%string PNone
| PNone, encoded => s ← contract_get (as_str encoded) "Broker base64 body is invalid."; body "base64"%string (PStr s)
| txt, PNone => s ← contract_get (as_str txt) "Broker text body is invalid."; body "text"%string (PStr s)
| _, _ => inl (Fault "WebFetchContractError" "Broker result cannot contain text and base64 bodies together.")
end.

Fixpoint safe_headers (headers : list (pykey * pyval)) (safe : list (pykey * pyval)) : exn + list (pykey * pyval) :=
match headers with
| [] => inr safe
| (KStr key, PStr value) :: headers =>
    contract (bool_decide (casefold key ∈ SAFE_HEADERS)) "Broker returned an unsupported response header." ;;
    safe_headers headers (dict_set (KStr (casefold key)) (PStr (take 2048 value)) safe)
| _ :: _ => inl (Fault "WebFetchContractError" "Broker returned an unsupported response header.")
end.

(** One iteration of the loop of [phase1j_broker_result_adapter]. *)
Definition adapt_result (request : WebFetchRequest) (raw : pyval) : exn + list (pykey * pyval) :=
raw ← contract_get (as_dict raw) "Broker result must be an object.";
contract (bool_decide (dict_get "id" raw = PStr (wf_request_id request))) "Broker result id mismatch." ;;
contract (bool_decide (dict_get "method" raw = PStr (wf_method request))) "Broker result method mismatch." ;;
url ← contract_get (as_str (dict_get "url" raw)) "Broker final URL is invalid.";
contract (starts_with (lit "https://") url) "Broker final URL is invalid." ;;
status ← contract_get (as_int (dict_get "status" raw)) "Broker HTTP status is invalid.";
contract (between 100 status 599) "Broker HTTP status is invalid." ;;
headers ← contract_get (as_dict (dict_get "headers" raw)) "Broker headers are invalid.";
safe ← safe_headers headers [];
body ← result_body raw;
inr [entry "id" (PStr (wf_request_id request)); entry "method" (PStr (wf_method request)); entry "url" (PStr url);
     entry "status" (PInt status); entry "headers" (PDict safe); entry "body" (PDict body)].
Fixpoint adapt_results (requests : list WebFetchRequest) (raws : list pyval) : exn + list pyval :=
match requests, raws with
| request :: requests, raw :: raws =>
    r ← adapt_result request raw; rest ← adapt_results requests raws; inr (PDict r :: rest)
| _, _ => inr []
end.

Definition BUDGET_KEYS : list string := ["bytes_received"; "max_requests"; "max_total_bytes"; "requests_used"].
Definition adapt_budget (raw_budget : list (pykey * pyval)) : exn + list (pykey * pyval) :=
contract (has_exact_keys BUDGET_KEYS raw_budget) "Broker budget metadata is invalid." ;;
mapM (λ key, value ← contract_get (as_int (dict_get key raw_budget)) "Broker budget value is invalid.";
             contract (0 <=? value) "Broker budget value is invalid." ;;
             inr (entry key (PInt value))) BUDGET_KEYS.

Definition phase1j_broker_result_adapter (request_envelope : pyval) (broker_output : pyval)
  : exn + list (pykey * pyval) :=
requests ← parse_web_fetch_envelope request_envelope;
output ← contract_get (as_dict broker_output) "Broker output must be an object.";
raws ← contract_get (as_list (dict_get "_rdc_web_results" output)) "Broker output is missing result or budget metadata.";
raw_budget ← contract_get (as_dict (dict_get "_rdc_web_budget" output)) "Broker output is missing result or budget metadata.";
contract (length raws =? length requests)%nat "Broker result count does not match the request envelope." ;;
results ← adapt_results requests raws;
budget ← adapt_budget raw_budget;
digest ← envelope_digest requests;
inr [entry "schema_version" (text RESULT_SCHEMA_VERSION); entry "request_digest" (PStr digest);
     entry "results" (PList results); entry "budget" (PDict budget)].

(** ** Lemmas *)

(** What an accepted request satisfies. *)
Record request_ok (r : WebFetchRequest) : Prop := {
rq_id : safe_id (wf_request_id r) = true;
rq_method : wf_method r ∈ ALLOWED_METHODS;
rq_url : wf_url r ≠ [] ∧ (length (wf_url r) ≤ MAX_FETCH_URL)%nat ∧ starts_with (lit "https://") (wf_url r) = true;
rq_host : ∃ parsed host, urlsplit (wf_url r) = Some parsed ∧ hostname_of (sr_netloc parsed) = Some host ∧ host ≠ [] ∧
  (rpartition 64 (sr_netloc parsed)).1 = None }.

Lemma upper_allowed m : m ∈ ALLOWED_METHODS → upper m = m.
Proof.
intros Hm. assert (Forall (λ c, (c < 128)%N) m ∧ (ascii_upper <$> m) = m) as (Ha & Hu).
{ revert m Hm. apply Forall_forall. repeat constructor; vm_compute; try done. }
by rewrite upper_ascii.
Qed.

Lemma normalize_request_inr raw r : normalize_request raw = inr r → request_ok r.
Proof.
unfold normalize_request, contract, contract_get. intros Hn. musts Hn. injection Hn as <-. apply andb_prop in E6 as [E6 E6'].
breflect. split; cbn; [done|done|done|by eauto 10].
Qed.
Lemma normalize_request_ok r : request_ok r → normalize_request (PDict (as_broker_request r)) = inr r.
Proof.
intros [Hid Hm (Hne & Hlen & Hs) (parsed & host & Hp & Hh & Hhn & Ha)].
unfold normalize_request, contract, contract_get. rewrite (the_ok _ _ (as_broker_request r)) by done.
rewrite must_ok by (apply (bool_decide_unpack _); vm_compute; exact I).
rewrite (the_ok _ _ (wf_request_id r)), must_ok by done. rewrite (the_ok _ _ (wf_method r)) by done. cbv zeta.
rewrite upper_allowed, must_ok by (done || by apply bool_decide_eq_true_2).
rewrite (the_ok _ _ (wf_url r)) by done. rewrite must_ok.
2: { apply andb_true_iff. split; [by rewrite bool_decide_eq_false_2|by apply Nat.leb_le]. }
rewrite must_ok by done. rewrite (the_ok _ _ parsed) by done. rewrite (the_ok _ _ host) by done.
rewrite must_ok by (by rewrite bool_decide_eq_false_2). rewrite must_ok by (by apply bool_decide_eq_true_2). by destruct r.
Qed.

(** What an accepted envelope satisfies. *)
Record envelope_ok (requests : list WebFetchRequest) : Prop := {
en_count : (1 ≤ length requests ≤ MAX_REQUESTS)%nat;
en_requests : Forall request_ok requests;
en_ids : NoDup (wf_request_id <$> requests);
en_bytes : ∃ b, json_bytes (PDict (envelope_dict requests)) = Some b ∧ (length b ≤ MAX_FETCH_BYTES)%nat }.

Lemma parse_inr raw requests : parse_web_fetch_envelope raw = inr requests → envelope_ok requests.
Proof.
unfold parse_web_fetch_envelope, canonical_bytes, contract, contract_get. intros Hp. musts Hp. injection Hp as <-.
apply mapM_inr in E4. pose proof (Forall2_length _ _ _ E4) as Hlen. breflect. split.
- lia.
- clear -E4. induction E4; constructor; [by eapply normalize_request_inr|done].
- done.
- eauto.
Qed.
Lemma parse_ok requests : envelope_ok requests → parse_web_fetch_envelope (PDict (envelope_dict requests)) = inr requests.
Proof.
intros [Hc Hr Hid (b & Hb & Hl)]. unfold parse_web_fetch_envelope, canonical_bytes, contract, contract_get.
rewrite (the_ok _ _ (envelope_dict requests)) by done. rewrite must_ok by (apply (bool_decide_unpack _); vm_compute; exact I).
rewrite must_ok by (by apply bool_decide_eq_true_2). rewrite (the_ok _ _ (PDict ∘ as_broker_request <$> requests)) by done.
rewrite length_fmap. rewrite must_ok by (apply andb_true_iff; split; apply Nat.leb_le; lia).
rewrite (sum_bind_ok _ requests).
2: { apply mapM_inr. clear -Hr. induction Hr; constructor; [by apply normalize_request_ok|done]. }
rewrite must_ok by (by apply bool_decide_eq_true_2). rewrite Hb. cbn [the mbind sum_bind].
rewrite must_ok; [done|by apply Nat.leb_le].
Qed.
End contract.
