(* ===== verification/EgressBroker.v ===== *)
(** The egress broker of the sandbox worker: src/workers/sandbox-runtime/egress_broker.py.
    Every exchange with the network is recorded.  Main results: whatever the origins answer,
    only validated targets are contacted and the budgets hold, the redirect loop ends, and
    the answer to an accepted envelope passes the result adapter. *)

From S2P Require Import Prelude PyVal Json PyUuid QueueProtocol EventProtocol Idempotency Url.
From S2P Require Import KvProtocol EgressProtocol PyEq Canary SandboxJson SandboxEgress WebFetch.

Definition REDIRECT_STATUSES : list Z := [301; 302; 303; 307; 308].
Definition TEXTUAL_TYPES : list pystr :=
  lit <$> ["text/"; "application/json"; "application/xml"; "application/xhtml+xml"; "application/javascript"]%string.

(** A request put on a connection pinned to an address, and what came back: the status, the
    header fields and the body, which cannot always be read to the end. *)
Record http_request := MkHttp {
  hq_address : pystr; hq_host : pystr; hq_method : pystr; hq_path : pystr; hq_authorization : option pystr }.
Record http_response := MkHttpResponse {
  hr_status : Z; hr_headers : list (pystr * pystr); hr_body : option (list N) }.
(** The origins: what answers the last request of a history (the most recent first), or
    [OSError], [SSLError] or [HTTPException]. *)
Class Origins := respond : list http_request → option http_response.
(** [urllib.parse.urljoin]; it raises [ValueError] for some texts. *)
Class UrlJoin := urljoin : pystr → pystr → option pystr.
(** [body.decode(charset, errors="replace")]: the text, [LookupError], or [ValueError]. *)
Inductive decoding := Decoded (s : pystr) | UnknownCharset | DecodeError.
Class CharsetDecoder := decode_replace : pystr → list N → decoding.

Record BrokerResponse := MkBrokerResponse {
  br_request_id : pystr; br_method : pystr; br_url : pystr; br_status : Z; br_headers : list (pykey * pyval);
  br_body_text : option pystr; br_body_base64 : option pystr; br_size_bytes : Z; br_body_sha256 : pystr }.
Definition response_dict (r : BrokerResponse) : list (pykey * pyval) :=
  [entry "id" (PStr (br_request_id r)); entry "method" (PStr (br_method r)); entry "url" (PStr (br_url r));
   entry "status" (PInt (br_status r)); entry "headers" (PDict (br_headers r));
   entry "body_text" (opt_str (br_body_text r)); entry "body_base64" (opt_str (br_body_base64 r));
   entry "size_bytes" (PInt (br_size_bytes r)); entry "body_sha256" (PStr (br_body_sha256 r))].

(** The budget dictionary, and the exchanges so far, the most recent first. *)
Record broker := MkBroker { bk_requests : Z; bk_bytes : Z; bk_log : list http_request }.
#[export] Instance eta_broker : Eta broker := λ b, MkBroker (bk_requests b) (bk_bytes b) (bk_log b).
Definition idle : broker := MkBroker 0 0 [].

Definition deny {St} (b : bool) (reason : string) : M St () := raise_if b (Fault "EgressPolicyError" reason).
Definition obtain {St A} (o : option A) (reason : string) : M St A := get_or_raise o (Fault "EgressPolicyError" reason).

Fixpoint join (sep : pystr) (l : list pystr) : pystr :=
  match l with [] => [] | [x] => x | x :: l => x ++ sep ++ join sep l end.

Section broker.
Context `{CaseFold, UrlTables, Idna, UpperCase, Sha256, PyRepr, !Resolver, !GlobalAddress}.
Context `{!Origins, !UrlJoin, !CharsetDecoder}.

(** [response.getheader(name)]. *)
Definition getheader (name : string) (r : http_response) : option pystr :=
match base.filter (λ kv, py_lower kv.1 = py_lower (lit name)) (hr_headers r) with
| [] => None
| l => Some (join (lit ", ") l.*2)
end.
(** [_safe_headers]. *)
Definition kept_headers (headers : list (pystr * pystr)) : list (pykey * pyval) :=
foldl (λ result kv, if bool_decide (casefold kv.1 ∈ SAFE_HEADERS)
  then dict_set (KStr (casefold kv.1)) (PStr (take 2048 kv.2)) result else result) [] headers.

(** [_decode_body]. *)
Fixpoint charset_of (items : list pystr) : pystr :=
match items with
| [] => lit "utf-8"
| item :: items =>
    match partition 61 (py_strip item) with
    | (name, Some value) =>
        if bool_decide (casefold name = lit "charset") && negb (bool_decide (py_strip value = []))
        then strip [39%N] (strip [34%N] (py_strip value)) else charset_of items
    | _ => charset_of items
    end
end.
Definition decode_body (body : list N) (content_type : pystr) : exn + option pystr * option pystr :=
if existsb (λ prefix, starts_with prefix (casefold content_type)) TEXTUAL_TYPES then
  match decode_replace (charset_of (drop 1 (split_on 59 content_type))) body with
  | Decoded s => inr (Some s, None)
  | UnknownCharset => inl (Fault "EgressPolicyError" "Response declared an unsupported charset.")
  | DecodeError => inl (ValueError "decode")
  end
else inr (None, Some (b64encode body)).

(** What [http.client] refuses before it connects: [InvalidURL] for control characters and
    spaces, [UnicodeEncodeError] outside ASCII. *)
Definition path_clean (path : pystr) : bool := forallb (λ c, negb (c <=? 32)%N && negb (c =? 127)%N) path.
Definition ascii_text (s : pystr) : bool := forallb (λ c, c <? 128)%N s.
Definition latin1 (s : pystr) : bool := forallb (λ c, c <? 256)%N s.
Definition authorization_ok (a : pystr) : bool :=
negb (bool_decide (a = [])) && (length a <=? N.to_nat 8192)%nat && negb (bool_decide (13%N ∈ a)) && negb (bool_decide (10%N ∈ a)).

Section policy.
Context (policy : EgressPolicy) (authorization : option pystr).

(** [_request_once]. *)
Definition request_once (target : ValidatedTarget) (method : pystr)
  : M broker (Z * list (pykey * pyval) * list N * option pystr) :=
parsed ← get_or_raise (urlsplit (vt_url target)) (ValueError "urlsplit");
let path := (if bool_decide (sr_path parsed = []) then lit "/" else sr_path parsed)
            ++ (if bool_decide (sr_query parsed = []) then [] else 63%N :: sr_query parsed) in
deny (negb (from_option authorization_ok true authorization)) "Broker Authorization credential is invalid." ;;
deny (negb (path_clean path)) "Brokered HTTPS request failed." ;;
raise_if (negb (ascii_text path)) UnicodeEncodeError ;;
raise_if (negb (from_option latin1 true authorization)) UnicodeEncodeError ;;
modify (λ s, s <| bk_log ::= cons (MkHttp (List.hd [] (vt_addresses target)) (vt_hostname target) method path authorization) |>) ;;
log ← gets bk_log;
response ← obtain (respond log) "Brokered HTTPS request failed.";
let headers := kept_headers (hr_headers response) in
let encoding := casefold (match getheader "Content-Encoding" response with Some (c :: e) => c :: e | _ => lit "identity" end) in
deny (negb (bool_decide (encoding ∈ [[]; lit "identity"])))
  "Compressed web-egress responses are not accepted in Phase 1J." ;;
if bool_decide (hr_status response ∈ REDIRECT_STATUSES)
then mret (hr_status response, headers, [], getheader "Location" response)
else if bool_decide (method = lit "HEAD") then mret (hr_status response, headers, [], None)
else
  body ← obtain (hr_body response) "Brokered HTTPS request failed.";
  deny (el_max_response_bytes (ep_limits policy) <? Z.of_nat (length body))
    "Web-egress response exceeded the per-response byte limit." ;;
  mret (hr_status response, headers, body, None).

(** The loop of [_fetch]; each round spends a request of the budget. *)
Fixpoint fetch_loop (fuel : nat) (request_id method normalized_method : pystr) (url : pystr) (redirect_count : Z)
  : M broker BrokerResponse :=
match fuel with
| O => raise (Fault "OutOfFuel" "fetch_loop")
| S fuel =>
  requests ← gets bk_requests;
  deny (el_max_requests (ep_limits policy) <=? requests) "Web-egress request budget was exceeded." ;;
  target ← lift (validate_target policy url);
  modify (λ s, s <| bk_requests ::= Z.succ |>) ;;
  r ← request_once target normalized_method;
  let '(status, headers, body, location) := r in
  if bool_decide (status ∈ REDIRECT_STATUSES) then
    location ← obtain (match location with Some (c :: l) => Some (c :: l) | _ => None end)
      "Redirect response did not include Location.";
    deny (el_max_redirects (ep_limits policy) <=? redirect_count) "Web-egress redirect budget was exceeded." ;;
    next ← get_or_raise (urljoin (vt_url target) location) (ValueError "urljoin");
    fetch_loop fuel request_id method normalized_method next (redirect_count + 1)
  else
    modify (λ s, s <| bk_bytes ::= Z.add (Z.of_nat (length body)) |>) ;;
    bytes ← gets bk_bytes;
    deny (el_max_total_bytes (ep_limits policy) <? bytes) "Web-egress total byte budget was exceeded." ;;
    texts ← lift (decode_body body (match dict_get "content-type" headers with PStr t => t | _ => [] end));
    mret (MkBrokerResponse request_id method (vt_url target) status headers texts.1 texts.2
            (Z.of_nat (length body)) (sha256_hex body))
end.
Definition fetch_fuel : nat := S (Z.to_nat (el_max_requests (ep_limits policy))).

(** [_fetch]. *)
Definition fetch (request_id method url : pystr) : M broker BrokerResponse :=
let normalized_method := upper (py_strip method) in
deny (negb (bool_decide (normalized_method ∈ ep_allowed_methods policy)))
  "Broker request method is not allowed by the active policy." ;;
fetch_loop fetch_fuel request_id method normalized_method url 0.

(** The loop of [broker_web_requests]. *)
Definition text_or (key : string) (d : list (pykey * pyval)) (default_text : string) : pystr :=
py_str (default (text default_text) (dict_find (lit key) d)).
Fixpoint fetch_all (raws : list pyval) (seen : list pystr) : M broker (list pyval) :=
match raws with
| [] => mret []
| raw :: raws =>
  raw ← obtain (as_dict raw) "Each web request must be an object.";
  let request_id := text_or "id" raw "" in
  deny (negb (safe_id request_id)) "Web request id is invalid." ;;
  deny (bool_decide (request_id ∈ seen)) "Web request ids must be unique." ;;
  let method := upper (text_or "method" raw "GET") in
  deny (negb (bool_decide (method ∈ ALLOWED_METHODS))) "Phase 1J permits GET and HEAD only." ;;
  let url := text_or "url" raw "" in
  deny (bool_decide (url = [])) "Web request URL cannot be blank." ;;
  response ← fetch request_id method url;
  rest ← fetch_all raws (request_id :: seen);
  mret (PDict (response_dict response) :: rest)
end.

Definition without_key (key : string) (d : list (pykey * pyval)) : list (pykey * pyval) :=
base.filter (λ kv, kv.1 ≠ KStr (lit key)) d.
Definition broker_budget (s : broker) : list (pykey * pyval) :=
[entry "requests_used" (PInt (bk_requests s)); entry "bytes_received" (PInt (bk_bytes s));
 entry "max_requests" (PInt (el_max_requests (ep_limits policy)));
 entry "max_total_bytes" (PInt (el_max_total_bytes (ep_limits policy)))].

(** [broker_web_requests], run from [idle]. *)
Definition broker_web_requests (input_value : list (pykey * pyval)) : M broker (list (pykey * pyval)) :=
raws ← obtain (as_list (default (PList []) (dict_find (lit "_rdc_web_requests") input_value)))
  "_rdc_web_requests must be a list.";
deny (el_max_requests (ep_limits policy) <? Z.of_nat (length raws)) "Requested web fetches exceed the request budget." ;;
responses ← fetch_all raws [];
s ← gets id;
mret (dict_set (KStr (lit "_rdc_web_budget")) (PDict (broker_budget s))
       (dict_set (KStr (lit "_rdc_web_results")) (PList responses) (without_key "_rdc_web_requests" input_value))).
End policy.
End broker.
