(* ===== verification/EgressBrokerSpec.v ===== *)
(** What the egress broker guarantees, whatever origins and resolvers answer. *)

From S2P Require Import Prelude PyVal Json PyUuid QueueProtocol EventProtocol Idempotency Url.
From S2P Require Import KvProtocol EgressProtocol PyEq Canary SandboxJson SandboxEgress WebFetch EgressBroker.

Section spec.
Context `{CaseFold, UrlTables, Idna, UpperCase, Sha256, PyRepr, !Resolver, !GlobalAddress}.
Context `{!Origins, !UrlJoin, !CharsetDecoder}.
Context (policy : EgressPolicy) (authorization : option pystr).

(** An exchange the policy allows: with a public address of an allowed host, by an allowed
  method, with a path that cannot break the request line. *)
Record exchange_ok (q : http_request) : Prop := {
ex_target : ∃ t, target_ok policy t ∧ hq_host q = vt_hostname t ∧ hq_address q ∈ vt_addresses t;
ex_method : hq_method q ∈ ep_allowed_methods policy;
ex_path : path_clean (hq_path q) = true ∧ ascii_text (hq_path q) = true;
ex_authorization : hq_authorization q = authorization }.

Record within (s : broker) : Prop := {
wi_log : Forall exchange_ok (bk_log s);
wi_requests : Z.of_nat (length (bk_log s)) ≤ bk_requests s ≤ el_max_requests (ep_limits policy) }.
Definition not_fuel (e : exn) : Prop := e ≠ Fault "OutOfFuel" "fetch_loop".

(** A response as an origin gave it, within the limit of one response. *)
Record answered (r : BrokerResponse) : Prop := {
an_url : starts_with (lit "https://") (br_url r) = true;
an_status : ∃ log response, respond log = Some response ∧ br_status r = hr_status response;
an_headers : ∃ hs, br_headers r = kept_headers hs;
an_body : br_body_text r = None ∨ br_body_base64 r = None;
an_size : 0 ≤ br_size_bytes r ≤ Z.max 0 (el_max_response_bytes (ep_limits policy));
an_digest : ∃ body, br_body_sha256 r = sha256_hex body ∧ br_size_bytes r = Z.of_nat (length body) }.

Lemma within_log q s : within s → exchange_ok q → Z.of_nat (length (bk_log s)) < bk_requests s →
within (s <| bk_log ::= cons q |>).
Proof. intros [Hl Hr] Hq Hlt. split; cbn; [by constructor|lia]. Qed.

Lemma validate_target_not_fuel url e : validate_target policy url = inl e → not_fuel e.
Proof. intros Hv. pose proof (validate_target_only policy url) as Ho. rewrite Hv in Ho. by intros ->. Qed.
Lemma decode_body_inr body t r : decode_body body t = inr r → r.1 = None ∨ r.2 = None.
Proof.
unfold decode_body. destruct (existsb _ _); [destruct (decode_replace _ _); try done|]; intros [= <-]; [by right|by left].
Qed.
Lemma decode_body_not_fuel body t e : decode_body body t = inl e → not_fuel e.
Proof. unfold decode_body. destruct (existsb _ _); [destruct (decode_replace _ _); try done|done]; by intros [= <-]. Qed.

(** One exchange: it is recorded if it is made. *)
Lemma request_once_ends target method s : within s → target_ok policy target → method ∈ ep_allowed_methods policy →
Z.of_nat (length (bk_log s)) < bk_requests s →
ends (request_once policy authorization target method)
  (λ r s', within s' ∧ bk_requests s' = bk_requests s ∧ bk_bytes s' = bk_bytes s ∧
     (∃ log response, respond log = Some response ∧ r.1.1.1 = hr_status response) ∧
     (∃ hs, r.1.1.2 = kept_headers hs) ∧
     Z.of_nat (length r.1.2) ≤ Z.max 0 (el_max_response_bytes (ep_limits policy)))
  (λ e s', within s' ∧ not_fuel e) s.
Proof.
intros Hw Ht Hm Hlt. unfold request_once, deny, obtain.
ends_step. ends_step; [done|]. cbv zeta.
do 4 (ends_step; ends_step; [done|]). breflect. ends_step. ends_step.
match goal with |- context [hq_path ?q] => idtac | |- context [MkHttp ?a ?h method ?p _] =>
  assert (exchange_ok (MkHttp a h method p authorization)) as Hx end.
{ split; cbn; [|done|done|done]. exists target. split_and!; [done|done|].
  destruct (vt_addresses target) eqn:E; [by destruct (to_addresses _ _ Ht)|left]. }
pose proof (within_log _ _ Hw Hx Hlt) as Hw'.
ends_step. ends_step. ends_step. ends_step; [done|]. cbv zeta. ends_step. ends_step; [done|].
assert (Hfin : 0 ≤ Z.max 0 (el_max_response_bytes (ep_limits policy))) by lia.
ends_step; [ends_step; cbn; eauto 12|]. ends_step; [ends_step; cbn; eauto 12|].
ends_step. ends_step; [done|]. ends_step. ends_step; [done|]. ends_step.
split_and!; [done..| | |]; cbn; eauto. breflect. lia.
Qed.

(** The redirect loop ends: each round spends a request of the budget. *)
Lemma fetch_loop_ends fuel id method normalized url n s : within s → normalized ∈ ep_allowed_methods policy →
el_max_requests (ep_limits policy) - bk_requests s < Z.of_nat fuel →
ends (fetch_loop policy authorization fuel id method normalized url n)
  (λ r s', within s' ∧ answered r ∧ br_request_id r = id ∧ br_method r = method ∧
     bk_bytes s' = bk_bytes s + br_size_bytes r ∧ bk_bytes s' ≤ el_max_total_bytes (ep_limits policy) ∧
     bk_requests s < bk_requests s')
  (λ e s', within s' ∧ not_fuel e) s.
Proof.
revert url n s. induction fuel as [|fuel IH]; intros url n s Hw Hm Hfuel; cbn [fetch_loop].
{ destruct (wi_requests _ Hw). lia. }
unfold deny, obtain. ends_step. ends_step. ends_step. ends_step; [done|]. breflect.
ends_step. ends_step; [split; [done|by eapply validate_target_not_fuel]|].
match goal with Hv : validate_target _ _ = inr ?t |- _ => rename t into target; apply validate_target_inr in Hv as Ht end.
ends_step. ends_step. ends_step.
set (s1 := s <| bk_requests ::= Z.succ |>).
assert (within s1 ∧ bk_requests s1 = bk_requests s + 1 ∧ bk_bytes s1 = bk_bytes s) as (Hw1 & Hr1 & Hb1).
{ destruct Hw as [Hl [??]]. split_and!; [split; [done|cbn; lia]|cbn; lia|done]. }
assert (Z.of_nat (length (bk_log s1)) < bk_requests s1) as Hlt by (destruct Hw; cbn; lia).
clearbody s1. eapply ends_mono; [by apply request_once_ends| |done].
intros [[[status headers] body] location] s2 (Hw2 & Hr2 & Hb2 & Hst & Hh & Hsz). cbn [fst snd] in *. ends_step.
- ends_step. ends_step; [done|]. ends_step. ends_step; [done|]. ends_step. ends_step; [done|].
  eapply ends_mono; [apply IH; [done|done|lia]| |done]. cbn beta.
  intros r s3 (? & ? & ? & ? & ? & ? & ?). split_and!; try done; lia.
- ends_step. ends_step. set (s3 := s2 <| bk_bytes ::= Z.add (Z.of_nat (length body)) |>).
  assert (within s3 ∧ bk_bytes s3 = bk_bytes s + Z.of_nat (length body) ∧ bk_requests s3 = bk_requests s2) as (Hw3 & Hb3 & Hr3).
  { destruct Hw2 as [? ?]. split_and!; [by split|cbn; lia|done]. }
  clearbody s3. ends_step. ends_step. ends_step. ends_step; [done|]. breflect.
  ends_step. ends_step; [split; [done|by eapply decode_body_not_fuel]|]. ends_step.
  match goal with Hd : decode_body _ _ = inr _ |- _ => apply decode_body_inr in Hd as Hbody end.
  split_and!; cbn [br_request_id br_method br_size_bytes]; try done; [|lia].
  split; cbn [br_url br_status br_headers br_body_text br_body_base64 br_size_bytes br_body_sha256]; try done; [|lia|by exists body].
  destruct (to_url _ _ Ht) as (port & rest & -> & _). done.
Qed.

(** A response that answers a request of the input. *)
Definition answers (raw : pyval) (r : BrokerResponse) : Prop :=
∃ d, raw = PDict d ∧ answered r ∧ br_request_id r = text_or "id" d "" ∧ br_method r = upper (text_or "method" d "GET").
Definition total_size (rs : list BrokerResponse) : Z := foldr (λ r n, br_size_bytes r + n) 0 rs.

Lemma fetch_all_ends raws seen s : within s → bk_bytes s ≤ Z.max 0 (el_max_total_bytes (ep_limits policy)) →
ends (fetch_all policy authorization raws seen)
  (λ vs s', within s' ∧ bk_bytes s' ≤ Z.max 0 (el_max_total_bytes (ep_limits policy)) ∧
     ∃ rs, vs = PDict ∘ response_dict <$> rs ∧ Forall2 answers raws rs ∧ bk_bytes s' = bk_bytes s + total_size rs)
  (λ e s', within s' ∧ not_fuel e) s.
Proof.
revert seen s. induction raws as [|raw raws IH]; intros seen s Hw Hb; cbn [fetch_all].
{ ends_step. split_and!; [done|done|]. exists []. split_and!; [done|constructor|cbn; lia]. }
unfold deny, obtain. do 5 (ends_step; ends_step; [done|]; cbv zeta). breflect.
match goal with Hr : as_dict raw = Some ?d |- _ => apply as_dict_Some in Hr as ->; rename d into doc end.
ends_step. unfold fetch, deny. ends_step. ends_step; [done|]. breflect.
eapply ends_mono; [apply fetch_loop_ends; [done|done|]| |done].
{ unfold fetch_fuel. destruct (wi_requests _ Hw). lia. }
cbn beta. intros r s1 (Hw1 & Ha & Hid & Hme & Hb1 & Ht1 & _). ends_step.
eapply ends_mono; [apply IH; [done|lia]| |done]. cbn beta. intros vs s2 (Hw2 & Ht2 & rs & -> & Hrs & Hb2). ends_step.
split_and!; [done|done|]. exists (r :: rs). split_and!; [done| |unfold total_size in *; cbn [foldr]; lia].
constructor; [|done]. exists doc. done.
Qed.
End spec.

(** The document of an accepted input: its results and its budget. *)
Lemma without_key_find key key' d : key ≠ key' → dict_find (lit key) (without_key key' d) = dict_find (lit key) d.
Proof.
intros Hne. induction d as [|[k v] d IH]; [done|]. unfold without_key in *. rewrite filter_cons. cbn [fst].
destruct (decide (k ≠ KStr (lit key'))) as [Hk|Hk]; cbn [dict_find]; rewrite IH; [done|].
rewrite decide_False; [done|]. intros ->. apply Hk. intros [= E%lit_inj]. congruence.
Qed.

Section confined.
Context `{CaseFold, UrlTables, Idna, UpperCase, Sha256, PyRepr, !Resolver, !GlobalAddress}.
Context `{!Origins, !UrlJoin, !CharsetDecoder}.

(** Every outcome of a run of the broker. *)
Lemma broker_ends hosts methods limits policy authorization input : create hosts methods limits = inr policy →
ends (broker_web_requests policy authorization input)
  (λ output s, within policy authorization s ∧ ∃ raws rs,
     default (PList []) (dict_find (lit "_rdc_web_requests") input) = PList raws ∧ Forall2 (answers policy) raws rs ∧
     dict_get "_rdc_web_results" output = PList (PDict ∘ response_dict <$> rs) ∧
     dict_get "_rdc_web_budget" output = PDict (broker_budget policy s) ∧
     bk_bytes s = total_size rs ∧ total_size rs ≤ el_max_total_bytes (ep_limits policy))
  (λ e s, within policy authorization s ∧ not_fuel e) idle.
Proof.
intros (<- & Hsafe & _)%create_inr.
assert (0 ≤ el_max_requests (ep_limits policy) ∧ 0 ≤ el_max_total_bytes (ep_limits policy)) as [Hreq Htot].
{ unfold safe_limits in Hsafe. breflect. unfold between in *. breflect. lia. }
assert (within policy authorization idle) as Hidle by (split; [constructor|cbn; lia]).
unfold broker_web_requests, deny, obtain. do 2 (ends_step; ends_step; [done|]). ends_step.
match goal with Hr : as_list _ = Some ?l |- _ => rename l into raws; rename Hr into Hraws end.
eapply ends_mono; [apply fetch_all_ends; [done|cbn; lia]| |done]. cbn beta.
intros vs s1 (Hw1 & Ht1 & rs & -> & Hrs & Hb1). ends_step. ends_step. ends_step. split; [done|]. exists raws, rs.
cbn in Hb1. split_and!; [|done| | |done|lia].
- by destruct (default _ _); try done; injection Hraws as ->.
- unfold dict_get. rewrite dict_find_set_ne by (apply (bool_decide_unpack _); vm_compute; exact I). by rewrite dict_find_set_eq.
- unfold dict_get. by rewrite dict_find_set_eq.
Qed.

(** C22: the broker is confined by its policy whatever the input, the origins and the resolver
  answer, and also when it fails: every exchange was made with a public address of an
  allowed host, by an allowed method, with a path that cannot break the request line; there
  were at most as many exchanges as the request budget, and the redirect loops end.  When it
  answers, the bytes it counted are the bodies it returns and fit the byte budget. *)
Theorem broker_is_confined hosts methods limits policy authorization input r s :
create hosts methods limits = inr policy →
broker_web_requests policy authorization input idle = (r, s) →
Forall (exchange_ok policy authorization) (bk_log s) ∧
Z.of_nat (length (bk_log s)) ≤ bk_requests s ≤ el_max_requests limits ∧ r ≠ inl (Fault "OutOfFuel" "fetch_loop") ∧
∀ output, r = inr output → ∃ raws rs,
  default (PList []) (dict_find (lit "_rdc_web_requests") input) = PList raws ∧ Forall2 (answers policy) raws rs ∧
  dict_get "_rdc_web_results" output = PList (PDict ∘ response_dict <$> rs) ∧
  dict_get "_rdc_web_budget" output = PDict (broker_budget policy s) ∧
  bk_bytes s = total_size rs ∧ total_size rs ≤ el_max_total_bytes limits.
Proof.
intros Hc Hrun. pose proof (broker_ends _ _ _ _ authorization input Hc) as Hends. apply create_inr in Hc as (<- & _).
unfold ends in Hends. rewrite Hrun in Hends. destruct r as [e|output].
- destruct Hends as [[Hl Hr] He]. split_and!; [done|lia|lia|congruence|done].
- destruct Hends as [[Hl Hr] Hx]. split_and!; [done|lia|lia|done|]. by intros ? [= <-].
Qed.
End confined.

(** ** The answer to an accepted envelope passes the adapter *)

Section adapted.
Context `{CaseFold, UrlTables, !HostTables, Idna, UpperCase, Sha256, PyRepr, !Resolver, !GlobalAddress}.
Context `{!Origins, !UrlJoin, !CharsetDecoder}.

Definition safe_header (kv : pykey * pyval) : Prop := ∃ k v, kv = (KStr k, PStr v) ∧ k ∈ SAFE_HEADERS.

Lemma dict_set_Forall (P : pykey * pyval → Prop) k v d : P (k, v) → Forall P d → Forall P (dict_set k v d).
Proof.
intros Hk. induction 1 as [|[k' v'] d Hx Hd IH]; cbn [dict_set]; [by repeat constructor|].
case_decide; [|by constructor]. subst. by constructor.
Qed.
Lemma kept_headers_safe hs : Forall safe_header (kept_headers hs).
Proof.
unfold kept_headers. assert (∀ d, Forall safe_header d → Forall safe_header (foldl (λ result kv,
  if bool_decide (casefold kv.1 ∈ SAFE_HEADERS) then dict_set (KStr (casefold kv.1)) (PStr (take 2048 kv.2)) result
  else result) d hs)) as Hgen; [|by apply Hgen; constructor].
induction hs as [|[k v] hs IH]; intros d Hd; [done|]. cbn [foldl]. apply IH. case_bool_decide; [|done].
apply dict_set_Forall; [by eexists _, _|done].
Qed.
Lemma casefold_safe k : k ∈ SAFE_HEADERS → casefold k = k.
Proof.
intros Hk. assert (Forall (λ c, (c < 128)%N) k ∧ (ascii_lower <$> k) = k) as (Ha & Hl).
{ revert k Hk. apply Forall_forall. repeat constructor; vm_compute; try done. }
by rewrite casefold_ascii.
Qed.
Lemma safe_headers_accepts d acc : Forall safe_header d → ∃ safe, safe_headers d acc = inr safe.
Proof.
intros Hd. revert acc. induction Hd as [|kv d (k & v & -> & Hk) Hd IH]; intros acc; cbn [safe_headers]; [by eexists|].
unfold contract. rewrite casefold_safe, must_ok by (done || by apply bool_decide_eq_true_2). apply IH.
Qed.

Lemma adapt_result_accepts policy request r : request_ok request → answered policy r →
br_request_id r = wf_request_id request → br_method r = wf_method request →
100 ≤ br_status r ≤ 599 → (∀ b, sha256_text (sha256_hex b) = true) →
∃ doc, adapt_result request (PDict (response_dict r)) = inr doc.
Proof.
intros Hq [Hurl _ (hs & Hhs) Hbody [Hsz _] (body & Hdg & _)] Hid Hm Hst Hsha. unfold adapt_result, contract, contract_get.
rewrite (the_ok _ _ (response_dict r)) by done.
rewrite must_ok by (apply bool_decide_eq_true_2; change (dict_get "id" _) with (PStr (br_request_id r)); by rewrite Hid).
rewrite must_ok by (apply bool_decide_eq_true_2; change (dict_get "method" _) with (PStr (br_method r)); by rewrite Hm).
rewrite (the_ok _ _ (br_url r)), must_ok by done. rewrite (the_ok _ _ (br_status r)) by done.
rewrite must_ok by (unfold between; apply andb_true_iff; lia). rewrite (the_ok _ _ (br_headers r)) by done.
destruct (safe_headers_accepts (br_headers r) []) as [safe Hsafe]; [rewrite Hhs; apply kept_headers_safe|].
rewrite (sum_bind_ok _ safe) by done.
assert (∃ bd, result_body (response_dict r) = inr bd) as [bd Hbd].
{ unfold result_body, contract, contract_get. rewrite (the_ok _ _ (br_size_bytes r)), must_ok by (done || by apply Z.leb_le).
  rewrite (the_ok _ _ (br_body_sha256 r)), must_ok by (done || by rewrite Hdg).
  change (dict_get "body_text" _) with (opt_str (br_body_text r)). change (dict_get "body_base64" _) with (opt_str (br_body_base64 r)).
  destruct (br_body_text r), (br_body_base64 r); try (by destruct Hbody); by eexists. }
rewrite (sum_bind_ok _ bd) by done. by eexists.
Qed.

Lemma adapt_budget_accepts policy s : 0 ≤ bk_requests s → 0 ≤ bk_bytes s → 0 ≤ el_max_requests (ep_limits policy) →
0 ≤ el_max_total_bytes (ep_limits policy) → ∃ doc, adapt_budget (broker_budget policy s) = inr doc.
Proof.
intros H1' H2' H3' H4'. unfold adapt_budget, contract, contract_get.
rewrite must_ok by (apply (bool_decide_unpack _); vm_compute; exact I).
exists [entry "bytes_received" (PInt (bk_bytes s)); entry "max_requests" (PInt (el_max_requests (ep_limits policy)));
  entry "max_total_bytes" (PInt (el_max_total_bytes (ep_limits policy))); entry "requests_used" (PInt (bk_requests s))].
assert (Hkey : ∀ key z, dict_get key (broker_budget policy s) = PInt z → 0 ≤ z →
  (value ← the "WebFetchContractError" (as_int (dict_get key (broker_budget policy s))) "Broker budget value is invalid.";
   must "WebFetchContractError" (0 <=? value) "Broker budget value is invalid." ;; inr (entry key (PInt value)))
  = inr (entry key (PInt z))).
{ intros key z Hz Hge. rewrite (the_ok _ _ z) by (by rewrite Hz). by rewrite must_ok by (by apply Z.leb_le). }
apply mapM_inr. unfold BUDGET_KEYS. repeat (apply Forall2_cons; split; [by apply Hkey|]). constructor.
Qed.

(** Composition of contract and broker: for an accepted web-fetch envelope, what the
  broker answers passes the result adapter, which reports the digest of the envelope and
  one result per request; origins answer with statuses of three digits up to 599. *)
Lemma fetched_envelope_is_adapted hosts methods limits policy authorization raw requests output s :
create hosts methods limits = inr policy → parse_web_fetch_envelope raw = inr requests →
broker_web_requests policy authorization (broker_input requests) idle = (inr output, s) →
(∀ log response, respond log = Some response → 100 ≤ hr_status response ≤ 599) →
(∀ b, sha256_text (sha256_hex b) = true) →
∃ doc digest results, phase1j_broker_result_adapter raw (PDict output) = inr doc ∧ envelope_digest requests = inr digest ∧
  dict_get "schema_version" doc = text RESULT_SCHEMA_VERSION ∧ dict_get "request_digest" doc = PStr digest ∧
  dict_get "results" doc = PList results ∧ length results = length requests.
Proof.
intros Hc Hp Hrun Hst Hsha. pose proof Hp as Hok. apply parse_inr in Hok as [Hcount Hreqs Hids (b & Hb & Hlen)].
pose proof Hc as (Hlim & Hsafe & _)%create_inr.
pose proof (broker_ends _ _ _ _ authorization (broker_input requests) Hc) as Hends. unfold ends in Hends. rewrite Hrun in Hends.
destruct Hends as ([_ [Hn _]] & raws & rs & Hraws & Hans & Hres & Hbud & Hbytes & Htot).
change (default _ _) with (PList (PDict ∘ as_broker_request <$> requests)) in Hraws. injection Hraws as <-.
assert (0 ≤ el_max_requests (ep_limits policy) ∧ 0 ≤ el_max_total_bytes (ep_limits policy)) as [Hreq0 Htot0].
{ rewrite Hlim. unfold safe_limits, between in Hsafe. breflect. lia. }
assert (Hdig : envelope_digest requests = inr (sha256_hex b)) by (unfold envelope_digest, canonical_bytes; by rewrite Hb).
assert (length rs = length requests) as Hlr by (apply Forall2_length in Hans; by rewrite length_fmap in Hans).
assert (∃ results, adapt_results requests (PDict ∘ response_dict <$> rs) = inr results ∧ length results = length requests)
  as (results & Hresults & Hlres).
{ clear Hids Hcount Hb Hlen Hdig Hlr Hres Hrun Hp Hc Hbytes Htot. revert rs Hans. induction Hreqs as [|request requests Hq _ IH]; intros rs Hans.
  - apply Forall2_nil_inv_l in Hans as ->. by exists [].
  - apply Forall2_cons_inv_l in Hans as (r & rs' & (d & Hd & Ha & Hid & Hme) & Hrs & ->). injection Hd as <-.
    change (text_or "id" _ _) with (wf_request_id request) in Hid. change (text_or "method" _ _) with (wf_method request) in Hme.
    rewrite upper_allowed in Hme by apply Hq. destruct (an_status _ _ Ha) as (log & resp & Hresp & Hs).
    destruct (adapt_result_accepts policy request r) as [doc Hdoc]; [done..|rewrite Hs; by eapply Hst|done|].
    destruct (IH rs' Hrs) as (results & Hr & Hl). exists (PDict doc :: results). split; [|cbn; by rewrite Hl].
    cbn [adapt_results fmap list_fmap compose]. rewrite (sum_bind_ok _ _ _ Hdoc), (sum_bind_ok _ _ _ Hr). done. }
destruct (adapt_budget_accepts policy s) as [budget Hbudget]; [lia| |done|done|].
{ rewrite Hbytes. clear -Hans. induction Hans as [|? r ? rs (d & _ & Ha & _) _ IH]; cbn; [lia|]. destruct (an_size _ _ Ha). unfold total_size in IH. lia. }
assert (phase1j_broker_result_adapter raw (PDict output) = inr
  [entry "schema_version" (text RESULT_SCHEMA_VERSION); entry "request_digest" (PStr (sha256_hex b));
   entry "results" (PList results); entry "budget" (PDict budget)]) as Hdoc.
{ unfold phase1j_broker_result_adapter, contract, contract_get. rewrite (sum_bind_ok _ _ _ Hp).
  rewrite (the_ok _ _ output) by done. rewrite Hres, Hbud. rewrite (the_ok _ _ (PDict ∘ response_dict <$> rs)) by done.
  rewrite (the_ok _ _ (broker_budget policy s)) by done. rewrite length_fmap, Hlr, must_ok by apply Nat.eqb_refl.
  rewrite (sum_bind_ok _ _ _ Hresults), (sum_bind_ok _ _ _ Hbudget), (sum_bind_ok _ _ _ Hdig). reflexivity. }
eexists _, _, results. split_and!; [exact Hdoc|exact Hdig|reflexivity|reflexivity|reflexivity|exact Hlres].
Qed.
End adapted.
