(* ===== verification/QueueWorker.v ===== *)
(** Queue claims in the sandbox worker: src/workers/sandbox-runtime/queue_worker_protocol.py.
    Main results: the keys derived from a claim are idempotency keys the control plane
    accepts, one per request and mutation; a claimed URL of printable ASCII makes a fetch
    envelope the web-fetch contract accepts, and its adapted result is accepted back. *)

From S2P Require Import Prelude PyVal Json PyUuid QueueProtocol Idempotency Url.
From S2P Require Import EgressProtocol PyEq Canary SandboxJson.

Definition CLAIM_SCHEMA : string := "rdc.queue-worker-claim/v1".
Definition MAX_USER_DATA : nat := N.to_nat 65536.
Definition boundary : bool → string → exn + () := must "QueueWorkerBoundaryError".
Definition boundary_get {A} : option A → string → exn + A := the "QueueWorkerBoundaryError".

(** [_json_value]. *)
Definition queue_json : pyval → Z → exn + () :=
  json_fault (MkJsonMessages "QueueWorkerBoundaryError" "Queue user data exceeds the maximum nesting depth."
    "Queue user data contains a non-finite number." "Queue user data keys must be strings."
    "Queue user data must be JSON-compatible.").

Section claims.
Context `{UrlTables, Sha256, UnicodeDecimal, PyRepr, FloatCompare}.

(** [_https_url]. *)
Definition worker_https_url (value : pyval) : exn + pystr :=
url ← boundary_get (as_str value) "Queue request URL is invalid.";
boundary ((1 <=? length url) && (length url <=? N.to_nat 2048))%nat "Queue request URL is invalid." ;;
parsed ← boundary_get (urlsplit url) "Queue request URL is invalid.";
port ← boundary_get (port_of (sr_netloc parsed)) "Queue request URL is invalid.";
let hostname := default [] (hostname_of (sr_netloc parsed)) in
boundary (bool_decide (sr_scheme parsed = lit "https") && negb (bool_decide (hostname = []))
          && bool_decide ((rpartition 64 (sr_netloc parsed)).1 = None)
          && (bool_decide (port = None) || bool_decide (port = Some 443))
          && negb (existsb is_space url)) "Queue request URL is invalid." ;;
boundary (bool_decide (ip_address hostname = None)) "Queue request URL cannot use an IP literal." ;;
inr url.

(** [str(UUID(str(v)))]. *)
Definition uuid_text (v : pyval) : option pystr := str_of_uuid <$> uuid_of_str (py_str v).

Definition claim_document (request_id queue_id url : pystr) (user_data : pyval) (attempts : Z) (token : pystr)
  : list (pykey * pyval) :=
[entry "schema_version" (text CLAIM_SCHEMA); entry "request_id" (PStr request_id); entry "queue_id" (PStr queue_id);
 entry "url" (PStr url); entry "user_data" user_data; entry "attempt_count" (PInt attempts);
 entry "claim_token" (PStr token)].

Definition validate_queue_claim_result (value : pyval) (expected_queue_id : pystr) : exn + list (pykey * pyval) :=
d ← boundary_get (as_dict value) "Queue claim result fields are invalid.";
boundary (has_exact_keys ["id"; "queue_id"; "url"; "user_data"; "attempt_count"; "claim_token"] d)
  "Queue claim result fields are invalid." ;;
request_id ← boundary_get (uuid_text (dict_get "id" d)) "Queue claim identifiers are invalid.";
queue_id ← boundary_get (uuid_text (dict_get "queue_id" d)) "Queue claim identifiers are invalid.";
claim_token ← boundary_get (uuid_text (dict_get "claim_token" d)) "Queue claim identifiers are invalid.";
boundary (bool_decide (queue_id = expected_queue_id)) "Queue claim is outside the bound Queue." ;;
attempts ← boundary_get (as_int (dict_get "attempt_count" d)) "Queue claim attempt count is invalid.";
boundary (between 1 attempts 100) "Queue claim attempt count is invalid." ;;
let user_data := dict_get "user_data" d in
queue_json user_data 0 ;;
encoded ← boundary_get (json_bytes user_data) "Queue user data cannot be encoded.";
boundary (length encoded <=? MAX_USER_DATA)%nat "Queue user data exceeds the worker limit." ;;
url ← worker_https_url (dict_get "url" d);
inr (claim_document request_id queue_id url user_data attempts claim_token).

(** [str(claim[key])]. *)
Definition item_text (key : string) (claim : list (pykey * pyval)) : exn + pystr := v ← item key claim; inr (py_str v).
Definition optional_text (handled : bool) (limit : nat) (s : string) : pyval :=
if handled then PNone else PStr (take limit (lit s)).
Definition queue_completion_payload (claim : list (pykey * pyval)) (handled : bool)
  (failure_code failure_summary : string) : exn + list (pykey * pyval) :=
queue_id ← item_text "queue_id" claim;
request_id ← item_text "request_id" claim;
token ← item_text "claim_token" claim;
inr [entry "queue_id" (PStr queue_id); entry "request_id" (PStr request_id); entry "claim_token" (PStr token);
     entry "status" (text (if handled then "HANDLED" else "FAILED"));
     entry "failure_code" (optional_text handled 80 failure_code);
     entry "failure_summary" (optional_text handled (N.to_nat 2000) failure_summary)].

(** The checks every use of a claim repeats: the schema, and an identifier that is a UUID. *)
Definition validated_claim (claim : list (pykey * pyval)) (reason : string) : exn + () :=
boundary (bool_decide (dict_get "schema_version" claim = text CLAIM_SCHEMA)) reason.
Definition claim_uuid (key : string) (claim : list (pykey * pyval)) (reason : string) : exn + pystr :=
let v := field_text key claim in
boundary (bool_decide (is_Some (uuid_of_str v))) reason ;; inr v.

Definition queue_dataset_idempotency_key (claim : list (pykey * pyval)) : exn + pystr :=
validated_claim claim "Queue Dataset persistence requires a validated claim." ;;
request_id ← claim_uuid "request_id" claim "Queue Dataset persistence scope is invalid.";
claim_uuid "queue_id" claim "Queue Dataset persistence scope is invalid." ;;
inr (lit "queue:" ++ request_id).

Definition queue_kv_idempotency_key (claim : list (pykey * pyval)) (mutation_index : Z) : exn + pystr :=
validated_claim claim "Queue KV persistence requires a validated claim." ;;
request_id ← claim_uuid "request_id" claim "Queue KV persistence scope is invalid.";
boundary ((0 <=? mutation_index) && (mutation_index <? 4)) "Queue KV mutation index is invalid." ;;
inr (lit "queue:" ++ request_id ++ lit ":kv:" ++ dec_str (Z.to_N mutation_index)).

(** ** Acquisition over HTTP *)

Definition fetch_envelope (url : pystr) : list (pykey * pyval) :=
[entry "schema_version" (text "rdc.web-fetch/v1");
 entry "requests" (PList [PDict [entry "id" (text "queue-request"); entry "method" (text "GET"); entry "url" (PStr url)]])].
Definition queue_http_fetch_envelope (claim : list (pykey * pyval)) : exn + list (pykey * pyval) :=
validated_claim claim "Queue HTTP acquisition requires a validated claim." ;;
claim_uuid "request_id" claim "Queue HTTP acquisition request id is invalid." ;;
url ← worker_https_url (dict_get "url" claim);
inr (fetch_envelope url).

(** [hashlib.sha256(json.dumps(v, sort_keys=True, separators=(",", ":")).encode("utf-8"))]:
    with [ensure_ascii=True]. *)
Definition ascii_digest (v : pyval) : exn + pystr :=
match canonical_digest v with Some d => inr d | None => inl (ValueError "json") end.

Definition queue_http_agent_result (claim : list (pykey * pyval)) (web_fetch_result : pyval) : exn + list (pykey * pyval) :=
envelope ← queue_http_fetch_envelope claim;
expected_digest ← ascii_digest (PDict envelope);
r ← boundary_get (as_dict web_fetch_result) "Queue HTTP result envelope is invalid.";
boundary (has_exact_keys ["schema_version"; "request_digest"; "results"; "budget"] r
          && bool_decide (dict_get "schema_version" r = text "rdc.web-fetch-result/v1")
          && bool_decide (dict_get "request_digest" r = PStr expected_digest)) "Queue HTTP result envelope is invalid." ;;
match dict_get "results" r, dict_get "budget" r with
| PList [PDict first], PDict budget =>
    boundary (bool_decide (dict_get "id" first = text "queue-request") && bool_decide (dict_get "method" first = text "GET"))
      "Queue HTTP result does not match its claim." ;;
    request_id ← item_text "request_id" claim;
    queue_id ← item_text "queue_id" claim;
    inr [entry "schema_version" (text "rdc.queue-http-result/v1"); entry "request_id" (PStr request_id);
         entry "queue_id" (PStr queue_id); entry "response" (PDict first); entry "budget" (PDict budget)]
| _, _ => inl (Fault "QueueWorkerBoundaryError" "Queue HTTP result does not match its claim.")
end.

(** ** Acquisition by a browser *)

Definition navigation_plan (url : pystr) (max_dom_bytes : Z) : list (pykey * pyval) :=
[entry "schema_version" (text "rdc.browser/v2");
 entry "steps" (PList
   [PDict [entry "id" (text "queue-goto"); entry "type" (text "goto"); entry "url" (PStr url);
           entry "wait_until" (text "domcontentloaded")];
    PDict [entry "id" (text "queue-html"); entry "type" (text "extract_html"); entry "selector" (text "html");
           entry "max_bytes" (PInt max_dom_bytes)]])].
Definition queue_browser_navigation_plan (claim : list (pykey * pyval)) (max_dom_bytes : Z) : exn + list (pykey * pyval) :=
validated_claim claim "Queue browser acquisition requires a validated claim." ;;
claim_uuid "request_id" claim "Queue browser acquisition request id is invalid." ;;
boundary (between 65536 max_dom_bytes 4194304) "Queue browser DOM limit is unsafe." ;;
url ← worker_https_url (dict_get "url" claim);
inr (navigation_plan url max_dom_bytes).

Definition BROWSER_RESULT_FIELDS : list string :=
["schema_version"; "request_digest"; "browser_policy_digest"; "browser_egress_policy_digest"; "browser_network";
 "gateway_transport"; "gateway_live_forwarding"; "final_url"; "steps"; "egress_budget"].
Definition queue_browser_agent_result (claim plan : list (pykey * pyval)) (browser_result : pyval)
  : exn + list (pykey * pyval) :=
max_dom_bytes ← match dict_get "steps" plan with
  | PList [_; PDict extract] => boundary_get (as_int (dict_get "max_bytes" extract)) "Queue browser navigation plan is invalid."
  | _ => inl (Fault "QueueWorkerBoundaryError" "Queue browser navigation plan is invalid.")
  end;
expected ← queue_browser_navigation_plan claim max_dom_bytes;
boundary (py_eq (PDict plan) (PDict expected)) "Queue browser navigation plan does not match its claim." ;;
r ← boundary_get (as_dict browser_result) "Queue browser result does not match its claim-derived plan.";
digest ← ascii_digest (PDict plan);
boundary (has_exact_keys BROWSER_RESULT_FIELDS r
          && bool_decide (dict_get "schema_version" r = text "rdc.browser-navigation-result/v1")
          && bool_decide (dict_get "browser_network" r = text "none")
          && bool_decide (dict_get "gateway_transport" r = text "unix")
          && bool_decide (dict_get "gateway_live_forwarding" r = PBool true)
          && bool_decide (dict_get "request_digest" r = PStr digest))
  "Queue browser result does not match its claim-derived plan." ;;
request_id ← item_text "request_id" claim;
queue_id ← item_text "queue_id" claim;
inr [entry "schema_version" (text "rdc.queue-browser-result/v1"); entry "request_id" (PStr request_id);
     entry "queue_id" (PStr queue_id); entry "navigation" (PDict r)].
End claims.
