(* ===== verification/SandboxAcquisition.v ===== *)
(** The queue protocol of the worker and how it acquires a page for a queue request.  First
    what the protocol guarantees: its idempotency keys, and its composition with the
    web-fetch contract.  Then the HTTP branch of [_run] in
    src/workers/sandbox-runtime/worker.py, which composes the queue protocol, the web-fetch
    contract and the broker.  Main result: when the broker answers, the acquisition
    succeeds, for the URLs the worker can fetch. *)

From S2P Require Import Prelude PyVal Json PyUuid QueueProtocol EventProtocol Idempotency Url.
From S2P Require Import KvProtocol EgressProtocol PyEq Canary SandboxJson SandboxEgress WebFetch EgressBroker EgressBrokerSpec.
From S2P Require Import QueueWorker.

Section claims.
Context `{UrlTables, Sha256, UnicodeDecimal, PyRepr, FloatCompare}.

(** What an accepted claim says. *)
Record accepted_claim (claim : list (pykey * pyval)) (request queue token : uuid) (url : pystr) : Prop := {
ac_document : ∃ user_data n, claim = claim_document (str_of_uuid request) (str_of_uuid queue) url user_data n (str_of_uuid token);
ac_url : worker_https_url (PStr url) = inr url }.

Lemma worker_https_url_inr v url : worker_https_url v = inr url → v = PStr url ∧
(1 ≤ length url ≤ N.to_nat 2048)%nat ∧ ∃ parsed host, urlsplit url = Some parsed ∧ hostname_of (sr_netloc parsed) = Some host ∧
  host ≠ [] ∧ (rpartition 64 (sr_netloc parsed)).1 = None.
Proof.
unfold worker_https_url, boundary, boundary_get. intros Hv. musts Hv. injection Hv as <-. apply as_str_Some in E as ->.
rewrite !andb_true_iff in E3. destruct E3 as ((((_ & Hh) & Ha) & _) & _). breflect. split_and!; [done|lia|lia|].
exists a0. destruct (hostname_of (sr_netloc a0)) as [h|] eqn:Eh; [|done]. by exists h.
Qed.

Lemma validated_claim_inr v expected claim : validate_queue_claim_result v expected = inr claim →
∃ request queue token url, accepted_claim claim request queue token url ∧ str_of_uuid queue = expected.
Proof.
unfold validate_queue_claim_result, uuid_text, boundary, boundary_get. intros Hv. musts Hv. injection Hv as <-.
repeat match goal with E : str_of_uuid <$> _ = Some _ |- _ => apply fmap_Some in E as (? & _ & ->) end.
match goal with Hu : worker_https_url _ = inr ?u |- _ =>
  pose proof (worker_https_url_inr _ _ Hu) as [Hq _]; rewrite Hq in Hu end.
breflect. eexists _, _, _, _. split; [|done]. split; [by eexists _, _|done].
Qed.

(** ** Idempotency keys *)

Definition dataset_key (request : uuid) : pystr := lit "queue:" ++ str_of_uuid request.
Definition mutation_key (request : uuid) (index : Z) : pystr :=
lit "queue:" ++ str_of_uuid request ++ lit ":kv:" ++ dec_str (Z.to_N index).

Lemma uuidc_key c : uuidc c → is_alnum c || bool_decide (c ∈ lit "._:-") = true.
Proof.
intros [Hc| ->]; [|apply orb_true_iff; right; apply bool_decide_eq_true_2, (bool_decide_unpack _); vm_compute; exact I].
unfold is_alnum, is_alpha, is_ascii_digit. rewrite !orb_true_iff, !andb_true_iff, !N.leb_le. unfold hexc in Hc. lia.
Qed.
Lemma uuid_safe u : forallb (λ c, is_alnum c || bool_decide (c ∈ lit "._:-")) (str_of_uuid u) = true.
Proof.
apply forallb_forall. intros c Hc%list_elem_of_In. pose proof (str_of_uuid_chars u) as Hf. rewrite Forall_forall in Hf.
apply uuidc_key, Hf, Hc.
Qed.
Lemma index_text i : 0 ≤ i < 4 → dec_str (Z.to_N i) = [Z.to_N (48 + i)].
Proof. intros Hi. assert (i = 0 ∨ i = 1 ∨ i = 2 ∨ i = 3) as [->|[->|[->| ->]]] by lia; reflexivity. Qed.

Lemma dataset_key_safe u : safe_key 127 (dataset_key u) = true.
Proof.
unfold dataset_key. change (lit "queue:") with (113%N :: lit "ueue:"). cbn [app safe_key].
rewrite length_app, length_str_of_uuid, forallb_app, uuid_safe. reflexivity.
Qed.
Lemma mutation_key_safe u i : 0 ≤ i < 4 → safe_key 127 (mutation_key u i) = true.
Proof.
intros Hi. unfold mutation_key. rewrite index_text by done. change (lit "queue:") with (113%N :: lit "ueue:"). cbn [app safe_key].
rewrite !length_app, length_str_of_uuid, !forallb_app, uuid_safe.
assert (i = 0 ∨ i = 1 ∨ i = 2 ∨ i = 3) as [->|[->|[->| ->]]] by lia; reflexivity.
Qed.
Lemma keys_of claim request queue token url : accepted_claim claim request queue token url →
queue_dataset_idempotency_key claim = inr (dataset_key request) ∧
∀ i, 0 ≤ i < 4 → queue_kv_idempotency_key claim i = inr (mutation_key request i).
Proof.
intros [(user_data & n & ->) _].
destruct (str_of_uuid_parses request) as (u & Hu & _), (str_of_uuid_parses queue) as (q & Hq & _).
assert (∀ reason, claim_uuid "request_id" (claim_document (str_of_uuid request) (str_of_uuid queue) url user_data n (str_of_uuid token)) reason
  = inr (str_of_uuid request)) as Hr.
{ intros reason. unfold claim_uuid, boundary. change (field_text "request_id" _) with (str_of_uuid request).
  rewrite must_ok; [done|]. apply bool_decide_eq_true_2. by eexists. }
assert (∀ reason, claim_uuid "queue_id" (claim_document (str_of_uuid request) (str_of_uuid queue) url user_data n (str_of_uuid token)) reason
  = inr (str_of_uuid queue)) as Hqq.
{ intros reason. unfold claim_uuid, boundary. change (field_text "queue_id" _) with (str_of_uuid queue).
  rewrite must_ok; [done|]. apply bool_decide_eq_true_2. by eexists. }
split.
- unfold queue_dataset_idempotency_key, validated_claim, boundary. rewrite must_ok by (by apply bool_decide_eq_true_2).
  by rewrite (sum_bind_ok _ _ _ (Hr _)), (sum_bind_ok _ _ _ (Hqq _)).
- intros i Hi. unfold queue_kv_idempotency_key, validated_claim, boundary. rewrite must_ok by (by apply bool_decide_eq_true_2).
  rewrite (sum_bind_ok _ _ _ (Hr _)). rewrite must_ok by (apply andb_true_iff; lia). done.
Qed.

Lemma mutation_key_inj u u' i j : 0 ≤ i < 4 → 0 ≤ j < 4 → mutation_key u i = mutation_key u' j → str_of_uuid u = str_of_uuid u' ∧ i = j.
Proof.
intros Hi Hj. unfold mutation_key. rewrite !index_text by done. intros Heq%app_inv_head.
apply app_inj_1 in Heq as [Hu Heq]; [|by rewrite !length_str_of_uuid]. apply app_inv_head in Heq. injection Heq as Heq. split; [done|lia].
Qed.

(** What a run writes for a queue request is keyed by the request: for claims of the
  worker, the keys of the dataset batch and of the four mutations are valid idempotency keys
  of the control plane, do not depend on the attempt or its token, are distinct from each
  other, and two claims share one only when they are claims of the same request.  So a
  retried request cannot append or mutate twice. *)
Theorem queue_keys_identify_requests v v' q q' c c' :
validate_queue_claim_result v q = inr c → validate_queue_claim_result v' q' = inr c' →
∃ request request' : uuid, dict_get "request_id" c = PStr (str_of_uuid request) ∧ dict_get "request_id" c' = PStr (str_of_uuid request') ∧
  queue_dataset_idempotency_key c = inr (dataset_key request) ∧ safe_key 127 (dataset_key request) = true ∧
  (∀ i, 0 ≤ i < 4 → queue_kv_idempotency_key c i = inr (mutation_key request i) ∧ safe_key 127 (mutation_key request i) = true ∧
     mutation_key request i ≠ dataset_key request') ∧
  (queue_dataset_idempotency_key c = queue_dataset_idempotency_key c' ↔ str_of_uuid request = str_of_uuid request') ∧
  (∀ i j, 0 ≤ i < 4 → 0 ≤ j < 4 →
     queue_kv_idempotency_key c i = queue_kv_idempotency_key c' j ↔ str_of_uuid request = str_of_uuid request' ∧ i = j).
Proof.
intros (u & qu & tk & url & Ha & _)%validated_claim_inr (u' & qu' & tk' & url' & Ha' & _)%validated_claim_inr.
destruct (keys_of _ _ _ _ _ Ha) as [Hd Hm], (keys_of _ _ _ _ _ Ha') as [Hd' Hm'].
destruct Ha as [(? & ? & ->) _], Ha' as [(? & ? & ->) _]. exists u, u'.
split_and!; [done|done|done|apply dataset_key_safe|..].
- intros i Hi. split_and!; [by apply Hm|by apply mutation_key_safe|]. intros Heq%(f_equal length).
  unfold mutation_key, dataset_key in Heq. rewrite index_text in Heq by done. rewrite !length_app, !length_str_of_uuid in Heq. done.
- rewrite Hd, Hd'. unfold dataset_key. split; [|by intros ->]. intros Heq%(inj inr). by apply app_inv_head in Heq.
- intros i j Hi Hj. rewrite Hm, Hm' by done. split; [intros Heq%(inj inr); by apply mutation_key_inj|]. unfold mutation_key. by intros [-> ->].
Qed.
End claims.

Section acquisition.
Context `{CaseFold, UrlTables, Idna, UpperCase, Sha256, UnicodeDecimal, PyRepr, FloatCompare}.
Context `{!Resolver, !GlobalAddress, !Origins, !UrlJoin, !CharsetDecoder}.

(** The body of the [try] around the brokered fetch of a queue request. *)
Definition queue_http_acquire (policy : EgressPolicy) (authorization : option pystr) (claim : list (pykey * pyval))
  : M broker (list (pykey * pyval)) :=
queue_fetch ← lift (queue_http_fetch_envelope claim);
broker_input ← lift (phase1j_broker_adapter (PDict queue_fetch));
broker_output ← broker_web_requests policy authorization broker_input;
fetch_result ← lift (phase1j_broker_result_adapter (PDict queue_fetch) (PDict broker_output));
lift (queue_http_agent_result claim (PDict fetch_result)).

(** The body of the [try] around a versioned web fetch. *)
Definition web_fetch_acquire (policy : EgressPolicy) (authorization : option pystr) (web_fetch : pyval)
  : M broker (list (pykey * pyval)) :=
broker_input ← lift (phase1j_broker_adapter web_fetch);
broker_output ← broker_web_requests policy authorization broker_input;
lift (phase1j_broker_result_adapter web_fetch (PDict broker_output)).

(** ** The envelope of a claim *)

Definition queue_fetch_of (url : pystr) : WebFetchRequest := MkFetch (lit "queue-request") (lit "GET") url.
Lemma fetch_envelope_dict url : fetch_envelope url = envelope_dict [queue_fetch_of url].
Proof. reflexivity. Qed.
Lemma plain_fetch_envelope url : forallb printable url = true → plain_text (PDict (fetch_envelope url)) = true.
Proof.
intros Hu. assert (Forall plain_member [entry "id" (text "queue-request"); entry "method" (text "GET"); entry "url" (PStr url)]) as Hr
  by (by repeat constructor).
apply plain_text_dict. unfold fetch_envelope. apply Forall_cons; split; [done|].
apply Forall_cons; split; [|done]. split; [done|]. apply plain_text_list. apply Forall_cons; split; [|done].
by apply plain_text_dict.
Qed.

Definition request_text (url : pystr) : pystr :=
print_str (lit "id") ++ 58%N :: print_str (lit "queue-request") ++ 44%N ::
(print_str (lit "method") ++ 58%N :: print_str (lit "GET") ++ 44%N :: (print_str (lit "url") ++ 58%N :: print_str url)).
Definition envelope_text (url : pystr) : pystr :=
123%N :: (print_str (lit "requests") ++ 58%N :: (91%N :: ((123%N :: (request_text url ++ [125%N])) ++ [93%N]))
  ++ 44%N :: (print_str (lit "schema_version") ++ 58%N :: print_str (lit "rdc.web-fetch/v1"))) ++ [125%N].
Lemma envelope_dumps url : json_dumps (PDict (fetch_envelope url)) = Some (envelope_text url).
Proof.
vm_compute. reflexivity.
Qed.

Lemma print_str_length u : (length (print_str u) ≤ 2 + 6 * length u)%nat.
Proof.
unfold print_str. cbn [length]. rewrite length_app. cbn [length].
assert (length (flat_map escape_char u) ≤ 6 * length u)%nat; [|lia].
induction u as [|c u IH]; [done|]. cbn [flat_map]. rewrite length_app. cbn [length].
assert (length (escape_char c) ≤ 6)%nat; [|lia]. unfold escape_char. repeat (case_match; [cbn; lia|]). cbn. lia.
Qed.
Lemma envelope_bytes url : forallb printable url = true →
json_bytes (PDict (fetch_envelope url)) = Some (envelope_text url) ∧ (length (envelope_text url) ≤ 200 + 6 * length url)%nat.
Proof.
intros Hu. split.
- unfold json_bytes. rewrite envelope_dumps. cbn [mbind option_bind]. apply utf8_printable.
  eapply print_printable; [apply plain_text_canon, plain_fetch_envelope, Hu|]. exact (envelope_dumps url).
- pose proof (print_str_length url). unfold envelope_text, request_text. repeat first [rewrite length_app | progress cbn [length]].
  repeat match goal with |- context [length (print_str (lit ?k))] =>
    let n := eval vm_compute in (length (print_str (lit k))) in change (length (print_str (lit k))) with n end.
  lia.
Qed.

(** A claimed URL the contract takes: printable ASCII, with the scheme in lower case. *)
Definition fetchable (url : pystr) : bool := forallb printable url && starts_with (lit "https://") url.

Lemma fetchable_envelope url : worker_https_url (PStr url) = inr url → fetchable url = true →
envelope_ok [queue_fetch_of url].
Proof.
intros (_ & Hlen & parsed & host & Hp & Hh & Hne & Ha)%worker_https_url_inr [Hpr Hs]%andb_prop.
destruct (envelope_bytes url Hpr) as [Hb Hl]. split.
- cbn. unfold MAX_REQUESTS. lia.
- apply Forall_singleton. split; cbn [wf_request_id wf_method wf_url queue_fetch_of]; [reflexivity|by left| |by eexists _, _].
  split_and!; [by destruct url|unfold MAX_FETCH_URL; lia|done].
- apply NoDup_singleton.
- exists (envelope_text url). split; [exact Hb|]. unfold MAX_FETCH_BYTES. lia.
Qed.
Lemma fetchable_digest url : fetchable url = true → ∃ d, ascii_digest (PDict (fetch_envelope url)) = inr d ∧
envelope_digest [queue_fetch_of url] = inr d.
Proof.
intros [Hpr _]%andb_prop. exists (sha256_hex (envelope_text url)). destruct (envelope_bytes url Hpr) as [Hb _].
unfold ascii_digest, envelope_digest, canonical_bytes. rewrite canonical_digest_plain by (by apply plain_fetch_envelope).
unfold canonical_fingerprint. rewrite <- fetch_envelope_dict, Hb. done.
Qed.

(** What the adapter returns for one request. *)
Lemma adapt_result_inr request raw d : adapt_result request raw = inr d →
dict_get "id" d = PStr (wf_request_id request) ∧ dict_get "method" d = PStr (wf_method request).
Proof. unfold adapt_result, contract, contract_get. intros Hd. musts Hd. injection Hd as <-. done. Qed.
Lemma adapter_shape raw output doc r : phase1j_broker_result_adapter raw output = inr doc → parse_web_fetch_envelope raw = inr [r] →
∃ d first budget, envelope_digest [r] = inr d ∧
  doc = [entry "schema_version" (text RESULT_SCHEMA_VERSION); entry "request_digest" (PStr d);
         entry "results" (PList [PDict first]); entry "budget" (PDict budget)] ∧
  dict_get "id" first = PStr (wf_request_id r) ∧ dict_get "method" first = PStr (wf_method r).
Proof.
unfold phase1j_broker_result_adapter, contract, contract_get. intros Hd Hp. rewrite (sum_bind_ok _ _ _ Hp) in Hd.
musts Hd. injection Hd as <-. destruct a0 as [|raw1 [|? ?]]; try done.
match goal with Hr : adapt_results _ _ = _ |- _ => cbn [adapt_results] in Hr; musts Hr; injection Hr as <- end.
match goal with Hr : inr [] = inr _ |- _ => injection Hr as <- end.
match goal with Hr : adapt_result _ _ = _ |- _ => apply adapt_result_inr in Hr as [Hid Hm] end. by eexists _, _, _.
Qed.

(** The last step of the acquisition. *)
Lemma agent_result_accepts claim request queue token url doc d first budget :
accepted_claim claim request queue token url → ascii_digest (PDict (fetch_envelope url)) = inr d →
doc = [entry "schema_version" (text RESULT_SCHEMA_VERSION); entry "request_digest" (PStr d);
       entry "results" (PList [PDict first]); entry "budget" (PDict budget)] →
dict_get "id" first = text "queue-request" → dict_get "method" first = text "GET" →
queue_http_fetch_envelope claim = inr (fetch_envelope url) ∧
queue_http_agent_result claim (PDict doc) = inr
  [entry "schema_version" (text "rdc.queue-http-result/v1"); entry "request_id" (PStr (str_of_uuid request));
   entry "queue_id" (PStr (str_of_uuid queue)); entry "response" (PDict first); entry "budget" (PDict budget)].
Proof.
intros [(user_data & n & ->) Hurl] Hd Hdoc Hid Hm. destruct (str_of_uuid_parses request) as (u & Hu & _).
assert (queue_http_fetch_envelope (claim_document (str_of_uuid request) (str_of_uuid queue) url user_data n (str_of_uuid token))
  = inr (fetch_envelope url)) as Henv.
{ unfold queue_http_fetch_envelope, validated_claim, boundary. rewrite must_ok by (by apply bool_decide_eq_true_2).
  unfold claim_uuid, boundary. change (field_text "request_id" _) with (str_of_uuid request).
  rewrite must_ok by (apply bool_decide_eq_true_2; by eexists). cbn [mbind sum_bind].
  change (dict_get "url" _) with (PStr url). by rewrite (sum_bind_ok _ _ _ Hurl). }
split; [exact Henv|]. unfold queue_http_agent_result, boundary, boundary_get. rewrite (sum_bind_ok _ _ _ Henv), (sum_bind_ok _ _ _ Hd).
rewrite (the_ok _ _ doc) by done. rewrite must_ok.
2: { rewrite Hdoc, !andb_true_iff. split_and!; [apply (bool_decide_unpack _); vm_compute; exact I|by apply bool_decide_eq_true_2..]. }
rewrite Hdoc. change (dict_get "results" _) with (PList [PDict first]). change (dict_get "budget" _) with (PDict budget). cbv iota.
rewrite Hid, Hm, must_ok by (apply (bool_decide_unpack _); vm_compute; exact I). reflexivity.
Qed.

End acquisition.
