(* ===== verification/KvWorkerProtocol.v ===== *)
(** Read requests of key-value workers: src/apps/api/app/kv_worker_protocol.py. *)

From S2P Require Import Prelude PyVal Json PyUuid QueueProtocol Url PyEq.

Definition READ_SCHEMA_VERSION : string := "rdc.kv-worker-read/v1".
Definition MAX_KEY_LENGTH : nat := 256.
Definition MAX_WORKER_READ_KEYS : nat := 16.
Definition MAX_READ_REQUEST_BYTES : nat := N.to_nat 4096.

Record ValidatedKVReadRequest := MkRead { rd_request : list (pykey * pyval); rd_request_digest : pystr; rd_keys : list pystr }.

(** [[A-Za-z0-9][A-Za-z0-9._:-]{0,255}]. *)
Definition key_start (c : N) : bool := is_alpha c || is_ascii_digit c.
Definition logical_key (k : pystr) : bool :=
  match k with
  | [] => false
  | c :: r => key_start c && (length r <=? 255)%nat && forallb (λ c, key_start c || bool_decide (c ∈ lit "._:-")) r
  end.
Definition read_document (keys : list pystr) : list (pykey * pyval) :=
  [entry "schema_version" (text READ_SCHEMA_VERSION); entry "keys" (PList (PStr <$> keys))].

Section read.
Context `{Sha256, FloatCompare}.
Definition read_fail {A} (message : string) : exn + A := inl (ValueError message).

Definition validate_kv_read_request (value : pyval) : exn + ValidatedKVReadRequest :=
match value with
| PDict d =>
    if negb (has_exact_keys ["schema_version"%string; "keys"%string] d) then read_fail "KV read request fields are invalid."
    else if negb (py_eq (dict_get "schema_version" d) (text READ_SCHEMA_VERSION))
    then read_fail "KV read schema version is unsupported."
    else match dict_get "keys" d with
    | PList raw_keys =>
        if negb ((1 <=? length raw_keys) && (length raw_keys <=? MAX_WORKER_READ_KEYS))%nat
        then read_fail "KV read key count is invalid."
        else match mapM as_str raw_keys with
        | Some keys =>
            if negb (forallb (λ k, (length k <=? MAX_KEY_LENGTH)%nat && logical_key k) keys)
            then read_fail "KV read logical key is invalid."
            else if negb (bool_decide (NoDup keys)) then read_fail "KV read logical keys must be unique."
            else match json_bytes (PDict (read_document keys)) with
            | None => read_fail "KV worker request cannot be canonically JSON encoded."
            | Some encoded =>
                if (MAX_READ_REQUEST_BYTES <? length encoded)%nat then read_fail "KV read request is too large."
                else inr (MkRead (read_document keys) (sha256_hex encoded) keys)
            end
        | None => read_fail "KV read logical key is invalid."
        end
    | _ => read_fail "KV read key count is invalid."
    end
| _ => read_fail "KV read request must be an object."
end.

(** ** Lemmas *)

(** What is accepted names its keys, and its digest depends on them only. *)
Lemma validate_kv_read_request_spec v r : validate_kv_read_request v = inr r →
(∃ d, v = PDict d ∧ dict_get "keys" d = PList (PStr <$> rd_keys r)) ∧
rd_request r = read_document (rd_keys r) ∧ (1 ≤ length (rd_keys r) ≤ MAX_WORKER_READ_KEYS)%nat ∧
NoDup (rd_keys r) ∧ Forall (λ k, logical_key k = true) (rd_keys r) ∧
sha256_hex <$> json_bytes (PDict (rd_request r)) = Some (rd_request_digest r).
Proof.
unfold validate_kv_read_request. destruct v as [| | | | | |d|]; try done.
destruct (negb (has_exact_keys _ _)); [done|]. destruct (negb (py_eq _ _)); [done|].
destruct (dict_get "keys" d) as [| | | | |raw| |] eqn:Ek; try done. destruct (negb _) eqn:En; [done|].
destruct (mapM as_str raw) as [keys|] eqn:Em; [|done]. apply mapM_as_str in Em as ->.
destruct (negb (forallb _ _)) eqn:Ef; [done|]. destruct (negb (bool_decide _)) eqn:Ed; [done|].
destruct (json_bytes _) as [b|] eqn:Eb; [|done]. destruct (_ <? _)%nat; [done|]. intros [= <-]. cbn [rd_keys rd_request rd_request_digest].
breflect. rewrite length_fmap in *. split_and!; try done.
- by exists d.
- apply Forall_forall. intros k Hk%list_elem_of_In. rewrite forallb_forall in Ef. specialize (Ef k Hk). by breflect.
- by rewrite Eb.
Qed.

(** A request that is accepted is accepted again after normalisation, with its digest. *)
Lemma validate_kv_read_request_normal v r : validate_kv_read_request v = inr r →
validate_kv_read_request (PDict (rd_request r)) = inr r.
Proof.
unfold validate_kv_read_request at 1. destruct v as [| | | | | |d|]; try done.
destruct (negb (has_exact_keys _ _)); [done|]. destruct (negb (py_eq _ _)); [done|].
destruct (dict_get "keys" d) as [| | | | |raw| |] eqn:Ek; try done. destruct (negb _) eqn:En; [done|].
destruct (mapM as_str raw) as [keys|] eqn:Em; [|done]. apply mapM_as_str in Em as ->.
destruct (negb (forallb _ _)) eqn:Ef; [done|]. destruct (negb (bool_decide _)) eqn:Ed; [done|].
destruct (json_bytes _) as [b|] eqn:Eb; [|done]. destruct (_ <? _)%nat eqn:El; [done|]. intros [= <-]. cbn [rd_request].
unfold validate_kv_read_request. change (negb (has_exact_keys _ (read_document keys))) with false. cbv iota.
change (dict_get "schema_version" (read_document keys)) with (text READ_SCHEMA_VERSION). rewrite py_eq_refl by done. cbn [negb].
change (dict_get "keys" (read_document keys)) with (PList (PStr <$> keys)). cbv iota. rewrite En.
rewrite (proj2 (mapM_as_str _ keys) eq_refl), Ef, Ed, Eb, El. done.
Qed.
End read.
