(* ===== verification/SandboxKv.v ===== *)
(** Key-value documents in the sandbox worker: src/workers/sandbox-runtime/kv_protocol.py and
    kv_worker_protocol.py.  Main results: the worker and the control plane accept the same
    mutations with the same digests and refuse the others with the same messages; what the
    worker accepts as the output of an agent is accepted by the control plane, mutation by
    mutation; values of a read result are the bytes their digests name. *)

From S2P Require Import Prelude PyVal Json PyUuid Base64 Url QueueProtocol EventProtocol Idempotency EgressProtocol PyEq KvProtocol.
From S2P Require Import KvWorkerProtocol Canary SandboxJson.

(** ** kv_protocol.py *)

Definition kv_check : bool → string → exn + () := must "KVProtocolError".
Definition kv_get {A} : option A → string → exn + A := the "KVProtocolError".

(** [_validate_json_value]. *)
Definition kv_json : pyval → Z → exn + () :=
  json_fault (MkJsonMessages "KVProtocolError" "KV JSON value exceeds the maximum nesting depth."
    "KV JSON values cannot contain NaN or Infinity." "KV JSON object keys must be strings."
    "KV JSON values must contain JSON-compatible values only.").
(** [_canonical_json_bytes]. *)
Definition kv_canonical (v : pyval) : exn + list N :=
  kv_get (json_bytes v) "KV mutation cannot be canonically JSON encoded.".

Record ValidatedMutation := MkMutation {
  mu_request : list (pykey * pyval);
  mu_request_digest : pystr;
  mu_operation : kv_operation;
  mu_key : pystr;
  mu_expected_version : option Z;
  mu_encoding : option kv_encoding;
  mu_value_sha256 : option pystr;
  mu_decoded_bytes : Z }.

(** [_expected_version]. *)
Definition worker_expected_version (v : pyval) : exn + option Z :=
  match v with
  | PNone => inr None
  | PInt z => kv_check ((0 <=? z) && (z <=? MAX_EXPECTED_VERSION)) "KV expected_version is invalid." ;; inr (Some z)
  | _ => inl (Fault "KVProtocolError" "KV expected_version is invalid.")
  end.

(** [_decoded_set_value]. *)
Definition worker_set_value (content_type encoding value : pyval) : exn + kv_encoding * list N :=
  content_type ← kv_get (as_str content_type) "KV content_type is unsupported.";
  e ← kv_get (content_encoding content_type) "KV content_type is unsupported.";
  kv_check (bool_decide (encoding = text (encoding_text e))) "KV content_type and encoding do not match." ;;
  b ← match e with
      | EJson => kv_json value 0 ;; kv_canonical value
      | EUtf8 =>
          s ← kv_get (as_str value) "KV UTF-8 value must be a string.";
          match utf8_encode s with Some b => inr b | None => inl UnicodeEncodeError end
      | EBase64 =>
          s ← kv_get (as_str value) "KV base64 value must be a string.";
          b ← kv_get (b64decode_strict s) "KV binary value is not canonical base64.";
          kv_check (bool_decide (s = b64encode b)) "KV binary value is not canonical base64." ;; inr b
      end;
  kv_check (Z.of_nat (length b) <=? MAX_VALUE_BYTES) "KV value exceeds the maximum decoded size." ;;
  inr (e, b).

Section mutations.
Context `{Sha256}.

Definition validate_kv_mutation (value : pyval) : exn + ValidatedMutation :=
d ← kv_get (as_dict value) "KV mutation request must be an object.";
op ← kv_get (if bool_decide (dict_get "operation" d = text "set") then Some SET
             else if bool_decide (dict_get "operation" d = text "delete") then Some DELETE else None)
       "KV operation is unsupported.";
kv_check (has_exact_keys (expected_fields op) d) "KV mutation request fields are invalid." ;;
kv_check (bool_decide (dict_get "schema_version" d = text KV_SCHEMA_VERSION)) "KV mutation schema version is unsupported." ;;
idempotency_key ← kv_get (as_str (dict_get "idempotency_key" d)) "KV mutation idempotency key is invalid.";
kv_check (safe_key 127 idempotency_key) "KV mutation idempotency key is invalid." ;;
key ← kv_get (as_str (dict_get "key" d)) "KV logical key is invalid.";
kv_check ((length key <=? MAX_KEY_LENGTH)%nat && safe_key 255 key) "KV logical key is invalid." ;;
expected ← worker_expected_version (dict_get "expected_version" d);
payload ← match op with
  | SET => p ← worker_set_value (dict_get "content_type" d) (dict_get "encoding" d) (dict_get "value" d); inr (Some p)
  | DELETE => inr None
  end;
let normalized := common_fields idempotency_key op key expected
  ++ match payload with Some p => set_fields p.1 (dict_get "value" d) | None => [] end in
encoded ← kv_canonical (PDict normalized);
kv_check (Z.of_nat (length encoded) <=? MAX_KV_ENVELOPE_BYTES) "KV mutation envelope exceeds the maximum encoded size." ;;
inr (MkMutation normalized (sha256_hex encoded) op key expected (fst <$> payload) (sha256_hex ∘ snd <$> payload)
       (default 0 (Z.of_nat ∘ length ∘ snd <$> payload))).
End mutations.

(** ** kv_worker_protocol.py *)

Definition OUTPUT_SCHEMA_VERSION : string := "rdc.kv-worker-output/v1".
Definition READ_RESULT_SCHEMA_VERSION : string := "rdc.kv-worker-read-result/v1".
Definition MAX_WORKER_READ_TOTAL_BYTES : Z := 262144.
Definition MAX_WORKER_MUTATIONS : nat := 4.
Definition MISSING_FIELDS : list string := ["version"; "content_type"; "encoding"; "value_sha256"; "size_bytes"; "value"].

Definition kvw_check : bool → string → exn + () := must "KVWorkerBoundaryError".
Definition kvw_get {A} : option A → string → exn + A := the "KVWorkerBoundaryError".
(** [_validate_json_value], [_canonical_json_bytes]. *)
Definition kvw_json : pyval → Z → exn + () :=
  json_fault (MkJsonMessages "KVWorkerBoundaryError" "KV worker JSON value exceeds the maximum nesting depth."
    "KV worker JSON values cannot contain NaN or Infinity." "KV worker JSON object keys must be strings."
    "KV worker JSON values must be JSON-compatible.").
Definition kvw_canonical (v : pyval) : exn + list N :=
  kvw_get (json_bytes v) "KV worker value cannot be canonically JSON encoded.".

Section worker.
Context `{Sha256, FloatCompare}.

(** [validate_kv_read_request]. *)
Definition worker_read_request (value : pyval) : exn + ValidatedKVReadRequest :=
d ← kvw_get (as_dict value) "KV read request must be an object.";
kvw_check (has_exact_keys ["schema_version"; "keys"] d) "KV read request fields are invalid." ;;
kvw_check (py_eq (dict_get "schema_version" d) (text READ_SCHEMA_VERSION)) "KV read schema version is unsupported." ;;
raw_keys ← kvw_get (as_list (dict_get "keys" d)) "KV read key count is invalid.";
kvw_check ((1 <=? length raw_keys) && (length raw_keys <=? MAX_WORKER_READ_KEYS))%nat "KV read key count is invalid." ;;
keys ← mapM (λ v, k ← kvw_get (as_str v) "KV read logical key is invalid.";
                  kvw_check ((length k <=? MAX_KEY_LENGTH)%nat && logical_key k) "KV read logical key is invalid." ;;
                  inr k) raw_keys;
kvw_check (bool_decide (NoDup keys)) "KV read logical keys must be unique." ;;
encoded ← kvw_canonical (PDict (read_document keys));
kvw_check (length encoded <=? MAX_READ_REQUEST_BYTES)%nat "KV read request is too large." ;;
inr (MkRead (read_document keys) (sha256_hex encoded) keys).

(** [_read_value_bytes]: the bytes; the value is returned as it is. *)
Definition read_value_bytes (content_type encoding value : pyval) : exn + list N :=
if bool_decide (content_type = text (content_type_of EJson)) && bool_decide (encoding = text (encoding_text EJson)) then
  kvw_json value 0 ;; kvw_canonical value
else if bool_decide (content_type = text (content_type_of EUtf8)) && bool_decide (encoding = text (encoding_text EUtf8)) then
  s ← kvw_get (as_str value) "KV UTF-8 read value must be a string.";
  match utf8_encode s with Some b => inr b | None => inl UnicodeEncodeError end
else if bool_decide (content_type = text (content_type_of EBase64)) && bool_decide (encoding = text (encoding_text EBase64)) then
  s ← kvw_get (as_str value) "KV binary read value must be canonical base64.";
  b ← kvw_get (b64decode_strict s) "KV binary read value is not canonical base64.";
  kvw_check (bool_decide (b64encode b = s)) "KV binary read value is not canonical base64." ;; inr b
else inl (Fault "KVWorkerBoundaryError" "KV read content type or encoding is unsupported.").

Definition RECORD_FIELDS : list string :=
["key"; "found"; "version"; "content_type"; "encoding"; "value_sha256"; "size_bytes"; "value"].
(** One record of [validate_kv_read_result]: its size. *)
Definition read_record (expected_key : pystr) (v : pyval) : exn + list (pykey * pyval) * Z :=
record ← kvw_get (as_dict v) "KV read result record is invalid.";
kvw_check (has_exact_keys RECORD_FIELDS record && bool_decide (dict_get "key" record = PStr expected_key))
  "KV read result record fields are invalid." ;;
found ← kvw_get (as_bool (dict_get "found" record)) "KV read result found flag is invalid.";
if negb found then
  kvw_check (forallb (λ field, bool_decide (dict_get field record = PNone)) MISSING_FIELDS)
    "Missing KV record carried value metadata." ;;
  inr (record, 0)
else
  version ← kvw_get (as_int (dict_get "version" record)) "KV read result lineage is invalid.";
  digest ← kvw_get (as_str (dict_get "value_sha256" record)) "KV read result lineage is invalid.";
  size_bytes ← kvw_get (as_int (dict_get "size_bytes" record)) "KV read result lineage is invalid.";
  kvw_check ((1 <=? version) && sha256_text digest && between 0 size_bytes MAX_VALUE_BYTES)
    "KV read result lineage is invalid." ;;
  raw ← read_value_bytes (dict_get "content_type" record) (dict_get "encoding" record) (dict_get "value" record);
  kvw_check (Z.of_nat (length raw) =? size_bytes) "KV read result size lineage is invalid." ;;
  kvw_check (bool_decide (sha256_hex raw = digest)) "KV read result digest lineage is invalid." ;;
  inr (record, Z.of_nat (length raw)).
Fixpoint read_records (expected_keys : list pystr) (records : list pyval) (total_bytes : Z)
  : exn + list (list (pykey * pyval)) :=
match expected_keys, records with
| expected_key :: expected_keys, v :: records =>
    r ← read_record expected_key v;
    let total_bytes := total_bytes + r.2 in
    kvw_check (total_bytes <=? MAX_WORKER_READ_TOTAL_BYTES) "KV read result exceeds the worker total byte limit." ;;
    rest ← read_records expected_keys records total_bytes;
    inr (r.1 :: rest)
| _, _ => inr []
end.

Definition validate_kv_read_result (value : pyval) (expected_keys : list pystr) : exn + list (pykey * pyval) :=
d ← kvw_get (as_dict value) "KV read result must be an object.";
kvw_check (has_exact_keys ["schema_version"; "store_name"; "records"] d) "KV read result fields are invalid." ;;
kvw_check (bool_decide (dict_get "schema_version" d = text READ_RESULT_SCHEMA_VERSION))
  "KV read result schema version is unsupported." ;;
kvw_check (bool_decide (dict_get "store_name" d = text "default")) "KV read result store is invalid." ;;
records ← kvw_get (as_list (dict_get "records" d)) "KV read result record count is invalid.";
kvw_check (length records =? length expected_keys)%nat "KV read result record count is invalid." ;;
normalized ← read_records expected_keys records 0;
inr [entry "schema_version" (text READ_RESULT_SCHEMA_VERSION); entry "store_name" (text "default");
     entry "records" (PList (PDict <$> normalized))].

(** [except KVProtocolError as exc: raise KVWorkerBoundaryError(str(exc))]. *)
Definition boundary_of {A} (r : exn + A) : exn + A :=
match r with
| inl (Fault c m) => if bool_decide (c = "KVProtocolError"%string) then inl (Fault "KVWorkerBoundaryError" m) else r
| r => r
end.

Definition output_document (result : pyval) (mutations : list (list (pykey * pyval))) : list (pykey * pyval) :=
[entry "schema_version" (text OUTPUT_SCHEMA_VERSION); entry "result" result; entry "mutations" (PList (PDict <$> mutations))].
Definition validate_kv_worker_output (value : pyval) : exn + list (pykey * pyval) :=
d ← kvw_get (as_dict value) "KV worker output must be an object.";
kvw_check (has_exact_keys ["schema_version"; "result"; "mutations"] d) "KV worker output fields are invalid." ;;
kvw_check (bool_decide (dict_get "schema_version" d = text OUTPUT_SCHEMA_VERSION))
  "KV worker output schema version is unsupported." ;;
kvw_json (dict_get "result" d) 0 ;;
mutations ← kvw_get (as_list (dict_get "mutations" d)) "KV worker mutation count is invalid.";
kvw_check (length mutations <=? MAX_WORKER_MUTATIONS)%nat "KV worker mutation count is invalid." ;;
normalized ← mapM (λ m, v ← boundary_of (validate_kv_mutation m);
                        kvw_get (as_str (dict_get "idempotency_key" (mu_request v))) "KV mutation idempotency key is invalid." ;;
                        inr (mu_request v)) mutations;
kvw_check (bool_decide (NoDup ((λ r, dict_get "idempotency_key" r) <$> normalized)))
  "KV worker mutation idempotency keys must be unique." ;;
let output := output_document (dict_get "result" d) normalized in
encoded ← kvw_canonical (PDict output);
kvw_check (Z.of_nat (length encoded) <=? MAX_KV_ENVELOPE_BYTES) "KV worker output exceeds the maximum encoded size." ;;
inr output.
End worker.
