(* ===== verification/SandboxKvSpec.v ===== *)
(** The worker's key-value protocol agrees with the control plane's. *)

From S2P Require Import Prelude PyVal Json PyUuid Base64 Url QueueProtocol EventProtocol Idempotency EgressProtocol PyEq KvProtocol.
From S2P Require Import KvWorkerProtocol Canary SandboxJson SandboxKv.

(** ** The same errors under other names *)

(** The error of the control plane as the worker raises it. *)
Definition renamed (class : string) (e : exn) : exn :=
  match e with ValueError m => Fault class m | e => e end.
Definition as_worker {A} (class : string) (r : exn + A) : exn + A :=
  match r with inl e => inl (renamed class e) | inr a => inr a end.

Lemma as_worker_bind {A B} c (m : exn + A) (k : A → exn + B) : as_worker c (m ≫= k) = as_worker c m ≫= λ a, as_worker c (k a).
Proof. by destruct m. Qed.
Lemma as_worker_ensure c b m : as_worker c (ensure b m) = must c b m.
Proof. by destruct b. Qed.
Lemma bind_ext {A B} (m : exn + A) (k k' : A → exn + B) : (∀ a, k a = k' a) → m ≫= k = m ≫= k'.
Proof. destruct m; [done|]. intros Hk. apply Hk. Qed.
Lemma bind_inr {A} (m : exn + A) : m ≫= inr = m.
Proof. by destruct m. Qed.
Lemma bind_assoc {A B C} (m : exn + A) (k : A → exn + B) (l : B → exn + C) : (m ≫= k) ≫= l = m ≫= λ a, k a ≫= l.
Proof. by destruct m. Qed.

(** A copy of [_validate_json_value] finds the failure the control plane's finds. *)
Lemma json_fault_kv v depth : json_fault (MkJsonMessages "KVProtocolError" "KV JSON value exceeds the maximum nesting depth."
    "KV JSON values cannot contain NaN or Infinity." "KV JSON object keys must be strings."
    "KV JSON values must contain JSON-compatible values only.") v depth =
match kv_json_check v depth with Some m => inl (Fault "KVProtocolError" m) | None => inr () end.
Proof.
revert depth. induction v as [|?|?|[]|?|l IH|kvs IH|] using pyval_ind'; intros depth; cbn [json_fault kv_json_check];
  change MAX_KV_DEPTH with 32; destruct (32 <? depth); try reflexivity.
- induction IH as [|x l Hx _ IHl]; [reflexivity|]. rewrite Hx. by destruct (kv_json_check x (depth + 1)).
- induction IH as [|[[k|] x] l Hx _ IHl]; [reflexivity| |reflexivity]. cbn in Hx. rewrite Hx. by destruct (kv_json_check x (depth + 1)).
Qed.

Section kv.
Context `{Sha256}.
Abbreviation W := (as_worker "KVProtocolError").

Lemma kv_canonical_agrees v : kv_canonical v = W (canonical_json_bytes v).
Proof. unfold kv_canonical, kv_get, canonical_json_bytes. by destruct (json_bytes v). Qed.
Lemma expected_version_agrees v : worker_expected_version v = W (expected_version v).
Proof. destruct v; try reflexivity. unfold worker_expected_version, expected_version, kv_check. by destruct (_ && _). Qed.
Lemma value_bytes_agrees e v : match e with
  | EJson => kv_json v 0 ;; kv_canonical v
  | EUtf8 =>
      s ← kv_get (as_str v) "KV UTF-8 value must be a string.";
      match utf8_encode s with Some b => inr b | None => inl UnicodeEncodeError end
  | EBase64 =>
      s ← kv_get (as_str v) "KV base64 value must be a string.";
      b ← kv_get (b64decode_strict s) "KV binary value is not canonical base64.";
      kv_check (bool_decide (s = b64encode b)) "KV binary value is not canonical base64." ;; inr b
  end = W (value_bytes e v).
Proof.
unfold value_bytes, kv_json, kv_get, kv_check. destruct e.
- rewrite json_fault_kv. destruct (kv_json_check v 0); [done|]. cbn [mbind sum_bind]. apply kv_canonical_agrees.
- destruct v; try done. cbn. by destruct (utf8_encode s).
- destruct v; try done. cbn. destruct (b64decode_strict s); [|done]. cbn. by case_bool_decide.
Qed.
Lemma set_value_agrees t e v : worker_set_value t e v = W (decoded_set_value t e v).
Proof.
unfold worker_set_value, decoded_set_value, kv_get, kv_check. destruct t; try done. cbn [as_str the mbind sum_bind].
destruct (content_encoding s) as [enc|]; [|done]. cbn [the mbind sum_bind].
rewrite as_worker_bind, as_worker_ensure. apply bind_ext; intros _; cbv beta. rewrite as_worker_bind.
pose proof (value_bytes_agrees enc v) as Hv. unfold kv_get, kv_check in Hv. rewrite Hv. apply bind_ext; intros b; cbv beta.
by rewrite as_worker_bind, as_worker_ensure.
Qed.

(** The worker's record of a mutation the control plane accepts. *)
Definition worker_view (a : ValidatedKVMutation) : ValidatedMutation :=
MkMutation (match vm_request a with PDict d => d | _ => [] end) (vm_request_digest a) (vm_operation a) (vm_key a)
  (vm_expected_version a) (vm_encoding a) (vm_value_sha256 a) (vm_decoded_bytes a).

Lemma safe_key_length n k : safe_key n k = true → (length k <=? S n)%nat = true.
Proof. destruct k as [|c k]; [done|]. unfold safe_key. intros Hk. breflect. apply Nat.leb_le. cbn. lia. Qed.

(** C24: the two implementations of the key-value mutation protocol agree: on every value the
  worker's validator gives the outcome of the control plane's, with the same normalised
  request and digest when it is accepted and the same message when it is refused. *)
Theorem kv_validators_agree v :
SandboxKv.validate_kv_mutation v =
match KvProtocol.validate_kv_mutation v with
| inr a => inr (worker_view a)
| inl e => inl (renamed "KVProtocolError" e)
end.
Proof.
assert (SandboxKv.validate_kv_mutation v = W (a ← KvProtocol.validate_kv_mutation v; inr (worker_view a))) as ->;
  [|by destruct (KvProtocol.validate_kv_mutation v)].
unfold SandboxKv.validate_kv_mutation, KvProtocol.validate_kv_mutation, kv_get, kv_check.
destruct v as [| | | | | |d|]; try done. cbn [as_dict the mbind sum_bind]. rewrite bind_assoc, as_worker_bind.
assert (the "KVProtocolError" (if bool_decide (dict_get "operation" d = text "set") then Some SET
  else if bool_decide (dict_get "operation" d = text "delete") then Some DELETE else None) "KV operation is unsupported."
  = W (operation_of (dict_get "operation" d))) as ->.
{ unfold operation_of. change (PStr (lit "set")) with (text "set"). change (PStr (lit "delete")) with (text "delete").
  case_bool_decide; [done|]. by case_bool_decide. }
apply bind_ext; intros op; cbv beta. rewrite bind_assoc, as_worker_bind, as_worker_ensure. apply bind_ext; intros _; cbv beta.
rewrite bind_assoc, as_worker_bind, as_worker_ensure. apply bind_ext; intros _; cbv beta. rewrite !bind_assoc, as_worker_bind.
destruct (dict_get "idempotency_key" d) as [| | | |ik| | |]; try done. cbn [as_str the mbind sum_bind].
destruct (safe_key 127 ik); [|done]. cbn [must as_worker mbind sum_bind]. rewrite bind_assoc, as_worker_bind.
destruct (dict_get "key" d) as [| | | |key| | |]; try done. cbn [as_str the mbind sum_bind].
destruct (safe_key 255 key) eqn:Hkey; [|by rewrite andb_false_r]. rewrite (safe_key_length _ _ Hkey : (length key <=? MAX_KEY_LENGTH)%nat = true).
cbn [andb must as_worker mbind sum_bind]. rewrite expected_version_agrees, bind_assoc, as_worker_bind. apply bind_ext; intros expected; cbv beta.
assert (Hfin : ∀ rq payload,
  (encoded ← kv_canonical (PDict rq);
   must "KVProtocolError" (Z.of_nat (length encoded) <=? MAX_KV_ENVELOPE_BYTES) "KV mutation envelope exceeds the maximum encoded size." ;;
   inr (MkMutation rq (sha256_hex encoded) op key expected (fst <$> payload) (sha256_hex ∘ snd <$> payload)
     (default 0 (Z.of_nat ∘ length ∘ snd <$> payload)))) =
  W (a ← finish_mutation rq ik op key expected payload; inr (worker_view a))).
{ intros rq payload. unfold finish_mutation. rewrite kv_canonical_agrees, bind_assoc, as_worker_bind. apply bind_ext; intros encoded; cbv beta.
  by rewrite bind_assoc, as_worker_bind, as_worker_ensure. }
destruct op.
- rewrite set_value_agrees, !bind_assoc, as_worker_bind. apply bind_ext; intros p; cbv beta. exact (Hfin _ (Some p)).
- cbn [mbind sum_bind]. rewrite app_nil_r. exact (Hfin _ None).
Qed.
End kv.
