(* ===== verification/Admission.v ===== *)
(** Sandbox admission: which work a worker may execute, under which policy and with which
    capabilities.  [_bound_egress_policy], [_sandbox_claim_policy], [_canary_activation] and
    the capability receipts of src/apps/api/app/services/execution_plane.py,
    services/worker_request_queue.py and services/worker_key_value_store.py.  They read the
    worker, the payload of the claim and the settings, and refuse by returning [None]. *)

From S2P Require Import Prelude PyVal Json PyUuid QueueProtocol EventProtocol Idempotency Url.
From S2P Require Import Recovery Pagination RunEvents ExecutionPlane EgressProtocol PyEq Canary KvWorkerProtocol.

(** [int(v)]: it raises [TypeError], [ValueError] or [OverflowError]. *)
Class PyInt := {
  py_int : pyval → exn + Z;
  py_int_int z : py_int (PInt z) = inr z;
  py_int_bool b : py_int (PBool b) = inr (int_of_bool b) }.

(** A check that refuses. *)
Definition deny_if {A} (b : bool) (k : exn + option A) : exn + option A := if b then inr None else k.
Definition need {A B} (o : option A) (k : A → exn + option B) : exn + option B :=
  match o with Some a => k a | None => inr None end.
Definition opt_digest (o : option pystr) : pyval := opt_str o.

Section admission.
Context `{CaseFold, UrlTables, Idna, UpperCase, Sha256, UnicodeDecimal, PyRepr, FloatCompare, !PyInt}.
Context `{Settings, !CanarySettings}.
Implicit Types (w : WorkerIdentity) (payload ir : list (pykey * pyval)).

(** ** The project policy bound to a run *)

Definition RECEIPT_FIELDS : list string :=
["schema_version"; "policy_id"; "revision_id"; "revision_number"; "policy_digest"; "runtime_policy_digest";
 "credential_configured"; "binding_digest"].
Definition receipt_form_ok (receipt : list (pykey * pyval)) : bool :=
has_exact_keys RECEIPT_FIELDS receipt
&& py_eq (dict_get "schema_version" receipt) (text "rdc.run-egress-policy-receipt/v1")
&& bool_decide (is_Some (as_bool (dict_get "credential_configured" receipt)))
&& match as_int (dict_get "revision_number" receipt) with Some n => 1 <=? n | None => false end
&& bool_decide (is_Some (uuid_of_str (py_str (dict_get "policy_id" receipt))))
&& bool_decide (is_Some (uuid_of_str (py_str (dict_get "revision_id" receipt)))).
Definition without_digest (receipt : list (pykey * pyval)) : list (pykey * pyval) :=
base.filter (λ kv, kv.1 ≠ KStr (lit "binding_digest")) receipt.
Definition envelope_ok (stored : list (pykey * pyval)) : bool :=
forallb (λ '(key, v), py_eq (dict_get key stored) v)
  [("schema_version"%string, text "rdc.egress/v1"); ("mode"%string, text "brokered");
   ("allowed_schemes"%string, PList [text "https"]); ("deny_ip_literals"%string, PBool true);
   ("require_global_dns"%string, PBool true); ("revalidate_redirects"%string, PBool true);
   ("container_network"%string, text "none")].
(** A list of texts that is sorted and has no repetition. *)
Definition sorted_texts (v : pyval) : option (list pystr) :=
l ← as_strs v; if bool_decide (l ≠ []) && bool_decide (l = sorted_set l) then Some l else None.
Definition bounded_int (lo hi : Z) (v : pyval) : option Z :=
z ← as_int v; if between lo z hi then Some z else None.
Definition bounded_limits (stored : list (pykey * pyval)) (c : EgressLimits) : option EgressLimits :=
requests ← bounded_int 1 (el_max_requests c) (dict_get "max_requests" stored);
response ← bounded_int 65536 (el_max_response_bytes c) (dict_get "max_response_bytes" stored);
total ← bounded_int 65536 (el_max_total_bytes c) (dict_get "max_total_bytes" stored);
redirects ← bounded_int 0 (el_max_redirects c) (dict_get "max_redirects" stored);
connect ← bounded_int 1 (el_connect_timeout_seconds c) (dict_get "connect_timeout_seconds" stored);
request ← bounded_int 1 (el_request_timeout_seconds c) (dict_get "request_timeout_seconds" stored);
Some (MkLimits requests response total redirects connect request).

Definition binding_error {A} : exn + A := inl (ValueError "Project egress-policy binding").
Definition ensure {A} (b : bool) (k : exn + A) : exn + A := if b then k else binding_error.
Definition require {A B} (o : option A) (k : A → exn + B) : exn + B :=
match o with Some a => k a | None => binding_error end.

(** [_bound_egress_policy]: the stored document and the digest of its receipt. *)
Definition bound_policy (ir : list (pykey * pyval)) : exn + option (list (pykey * pyval) * pystr) :=
let stored := dict_get "project_egress_policy" ir in
let receipt := dict_get "project_egress_policy_receipt" ir in
if bool_decide (stored = PNone) && bool_decide (receipt = PNone) then inr None
else
require (as_dict stored) $ λ stored, require (as_dict receipt) $ λ receipt,
ensure (receipt_form_ok receipt) $
binding ← fingerprint (PDict (without_digest receipt));
ensure (py_eq (dict_get "binding_digest" receipt) (PStr binding)) $
ensure (envelope_ok stored) $
require (sorted_texts (dict_get "allowed_hosts" stored)) $ λ hosts,
require (sorted_texts (dict_get "allowed_methods" stored)) $ λ methods,
ensure (bool_decide (methods ⊆ ALLOWED_METHODS)) $
ensure (bool_decide (hosts ⊆ rp_hosts ceiling)) $
require (bounded_limits stored (rp_limits ceiling)) $ λ limits,
runtime ← fingerprint (PDict stored);
ensure (py_eq (dict_get "runtime_policy_digest" receipt) (PStr runtime)) $
v ← validate_egress_policy hosts methods limits;
ensure (bool_decide (vp_allowed_hosts v = hosts) && bool_decide (vp_allowed_methods v = methods)
        && py_eq (dict_get "policy_digest" receipt) (PStr (vp_policy_digest v))) $
inr (Some (stored, py_str (dict_get "binding_digest" receipt))).


(** ** Receipts of a run *)

(** [_browser_navigation_canary_receipt_allowed]. *)
Definition navigation_receipt (navigation_digest browser_digest egress_digest : pystr) (enabled : bool) : list (pykey * pyval) :=
[entry "schema_version" (text "rdc.browser-navigation-receipt/v1"); entry "request_schema_version" (text "rdc.browser/v2");
 entry "request_digest" (PStr navigation_digest); entry "browser_policy_digest" (PStr browser_digest);
 entry "browser_egress_policy_digest" (PStr egress_digest); entry "execution_enabled" (PBool enabled);
 entry "dispatch_enabled" (PBool enabled); entry "browser_network" (text "none");
 entry "browser_egress_gateway_required" (PBool true)].
Definition browser_navigation_canary_receipt_allowed ir (effective : list (pykey * pyval)) : exn + bool :=
if negb (cs_live_navigation_enabled canary) then inr false else
match dict_get "browser_navigation" ir, dict_get "browser_navigation_receipt" ir, dict_get "browser_policy" ir,
  dict_get "browser_policy_digest" ir, dict_get "browser_egress_policy" ir, dict_get "browser_egress_policy_digest" ir with
| PDict navigation, PDict receipt, PDict browser, PStr browser_digest, PDict egress, PStr egress_digest =>
    current_browser_digest ← fingerprint (PDict browser_policy_payload);
    current_egress_digest ← fingerprint (PDict (browser_egress_policy_payload effective));
    if negb (py_eq (PDict browser) (PDict browser_policy_payload)) || negb (bool_decide (browser_digest = current_browser_digest))
       || negb (py_eq (PDict egress) (PDict (browser_egress_policy_payload effective)))
       || negb (bool_decide (egress_digest = current_egress_digest))
    then inr false
    else
      navigation_digest ← fingerprint (PDict navigation);
      inr (py_eq (PDict receipt)
             (PDict (navigation_receipt navigation_digest current_browser_digest current_egress_digest true)))
| _, _, _, _, _, _ => inr false
end.

(** The receipts [create_run] writes for a run bound to a queue. *)
Definition closed_access : list (pykey * pyval) :=
[entry "direct_database_access" (PBool false); entry "direct_object_storage_access" (PBool false)].
Definition queue_receipt_browser (binding : pystr) (queue_id version_id : pystr) (browser_digest egress_digest : pystr)
  (dispatch : bool) : list (pykey * pyval) :=
[entry "schema_version" (text "rdc.request-queue-binding-receipt/v3"); entry "binding_digest" (PStr binding);
 entry "queue_id" (PStr queue_id); entry "agent_version_id" (PStr version_id);
 entry "acquisition_mode" (text "controlled-browser"); entry "browser_policy_digest" (PStr browser_digest);
 entry "browser_egress_policy_digest" (PStr egress_digest); entry "dispatch_enabled" (PBool dispatch);
 entry "agent_container_network" (text "none")] ++ closed_access.
Definition queue_receipt_http (binding : pystr) (queue_id version_id : pystr) (egress_digest : pystr) (dispatch : bool)
  : list (pykey * pyval) :=
[entry "schema_version" (text "rdc.request-queue-binding-receipt/v2"); entry "binding_digest" (PStr binding);
 entry "queue_id" (PStr queue_id); entry "agent_version_id" (PStr version_id);
 entry "acquisition_mode" (text "brokered-http"); entry "egress_policy_digest" (PStr egress_digest);
 entry "dispatch_enabled" (PBool dispatch); entry "agent_container_network" (text "none")] ++ closed_access.
Definition queue_receipt_plain (binding : pystr) (queue_id version_id : pystr) : list (pykey * pyval) :=
[entry "schema_version" (text "rdc.request-queue-binding-receipt/v1"); entry "binding_digest" (PStr binding);
 entry "queue_id" (PStr queue_id); entry "agent_version_id" (PStr version_id)] ++ closed_access.
Definition dataset_receipt (queue_id version_id receipt_digest : pystr) (dispatch : bool) : list (pykey * pyval) :=
[entry "schema_version" (text "rdc.request-queue-dataset-receipt/v1"); entry "queue_id" (PStr queue_id);
 entry "agent_version_id" (PStr version_id); entry "queue_binding_receipt_digest" (PStr receipt_digest);
 entry "dataset_name" (text "default"); entry "dispatch_enabled" (PBool dispatch);
 entry "completion_order" (text "dataset-before-queue-handled"); entry "agent_container_network" (text "none")]
++ closed_access.
Definition store_receipt (queue_id version_id receipt_digest : pystr) (read_digest : option pystr) (dispatch : bool)
  : list (pykey * pyval) :=
[entry "schema_version" (text "rdc.request-queue-key-value-store-receipt/v1"); entry "queue_id" (PStr queue_id);
 entry "agent_version_id" (PStr version_id); entry "queue_binding_receipt_digest" (PStr receipt_digest);
 entry "store_name" (text "default"); entry "read_request_digest" (opt_digest read_digest);
 entry "mutation_idempotency_scope" (text "queue-request-index"); entry "dispatch_enabled" (PBool dispatch);
 entry "completion_order" (text "kv-before-queue-handled"); entry "agent_container_network" (text "none")]
++ closed_access.
Definition queue_binding (queue_id : pystr) : list (pykey * pyval) :=
[entry "schema_version" (text "rdc.run-queue/v1"); entry "queue_id" (PStr queue_id)].

(** ** Capabilities *)

Definition version_text payload : pystr := field_text "agent_version_id" payload.
Definition is_run_start payload : bool := bool_decide (field_text "work_kind" payload = lit "RUN_START").
(** The worker and the version are those of the canary, and the worker has a capability. *)
Definition canary_access (capability : string) w payload : bool :=
is_run_start payload && bool_decide (wk_name w = canary_worker) && bool_decide (capability ∈ wk_capabilities w)
&& bool_decide (version_text payload = cs_agent_version_id canary).
(** [validate_kv_read_request] of an optional read request; [None] when it is refused. *)
Definition read_digest (value : pyval) : option (option pystr) :=
match value with
| PNone => Some None
| v => match validate_kv_read_request v with inr r => Some (Some (rd_request_digest r)) | inl _ => None end
end.

Record queue_args := MkQueueArgs {
  qa_enabled : bool;
  qa_http : bool;
  qa_egress_digest : option pystr;
  qa_browser : bool;
  qa_browser_digest : option pystr;
  qa_browser_egress_digest : option pystr;
  qa_dataset : bool;
  qa_key_value_store : bool;
  qa_binding : option pystr }.

(** The receipt a run bound to a queue must carry, by its acquisition mode. *)
Definition expected_queue_receipt (a : queue_args) ir (browser_acquisition http_acquisition : bool)
  (binding queue_id version_id : pystr) : exn + option (list (pykey * pyval)) :=
if browser_acquisition then
  need (as_dict (dict_get "request_queue_browser_policy" ir)) $ λ policy,
  need (as_str (dict_get "request_queue_browser_policy_digest" ir)) $ λ policy_digest,
  need (as_dict (dict_get "request_queue_browser_egress_policy" ir)) $ λ egress,
  need (as_str (dict_get "request_queue_browser_egress_policy_digest" ir)) $ λ egress_digest,
  deny_if (qa_http a || bool_decide (is_Some (qa_egress_digest a)) || negb (qa_browser a)
           || negb (cs_queue_browser_enabled canary) || negb (cs_browser_enabled canary)
           || negb (cs_live_navigation_enabled canary) || negb (cs_web_egress_enabled canary)
           || negb (bool_decide (Some policy_digest = qa_browser_digest a))
           || negb (bool_decide (Some egress_digest = qa_browser_egress_digest a))) $
  d ← fingerprint (PDict policy);
  deny_if (negb (bool_decide (d = policy_digest))) $
  d ← fingerprint (PDict egress);
  deny_if (negb (bool_decide (d = egress_digest))) $
  inr (Some (queue_receipt_browser binding queue_id version_id policy_digest egress_digest true))
else if http_acquisition then
  need (as_dict (dict_get "request_queue_egress_policy" ir)) $ λ policy,
  need (as_str (dict_get "request_queue_egress_policy_digest" ir)) $ λ digest,
  deny_if (qa_browser a || bool_decide (is_Some (qa_browser_digest a))
           || bool_decide (is_Some (qa_browser_egress_digest a)) || negb (qa_http a)
           || negb (cs_queue_http_enabled canary) || negb (cs_web_egress_enabled canary)
           || negb (bool_decide (Some digest = qa_egress_digest a))) $
  d ← fingerprint (PDict policy);
  deny_if (negb (bool_decide (d = digest))) $
  inr (Some (queue_receipt_http binding queue_id version_id digest true))
else
  deny_if (qa_http a || bool_decide (is_Some (qa_egress_digest a)) || qa_browser a
           || bool_decide (is_Some (qa_browser_digest a)) || bool_decide (is_Some (qa_browser_egress_digest a)))
    (inr (Some (queue_receipt_plain binding queue_id version_id))).

(** The receipts of a dataset and of a key-value store used beside the queue. *)
Definition composition_ok (a : queue_args) ir (dataset key_value_store : bool)
  (receipt : list (pykey * pyval)) (queue_id version_id : pystr) : exn + bool :=
dataset_ok ←
  (if dataset then
     d ← fingerprint (PDict receipt);
     inr (qa_dataset a && cs_queue_dataset_enabled canary && cs_dataset_writes_enabled canary
          && py_eq (dict_get "request_queue_dataset_receipt" ir) (PDict (dataset_receipt queue_id version_id d true)))
   else inr (negb (qa_dataset a) && bool_decide (dict_get "request_queue_dataset_receipt" ir = PNone)));
if negb dataset_ok then inr false else
if key_value_store then
  let input := match dict_get "value" ir with PDict v => dict_get "_rdc_kv_read" v | _ => PNone end in
  match read_digest input with
  | None => inr false
  | Some read =>
      d ← fingerprint (PDict receipt);
      inr (qa_key_value_store a && cs_queue_key_value_store_enabled canary && cs_key_value_store_enabled canary
           && py_eq (dict_get "request_queue_key_value_store_receipt" ir)
                (PDict (store_receipt queue_id version_id d read true)))
  end
else inr (negb (qa_key_value_store a)
          && bool_decide (dict_get "request_queue_key_value_store_receipt" ir = PNone)).

Definition queue_capability_version (a : queue_args) (key_value_store dataset browser http : bool) : string :=
if bool_decide (is_Some (qa_binding a)) then "rdc.request-queue-worker-capability/v6"
else if key_value_store then "rdc.request-queue-worker-capability/v5"
else if dataset then "rdc.request-queue-worker-capability/v4"
else if browser then "rdc.request-queue-worker-capability/v3"
else if http then "rdc.request-queue-worker-capability/v2" else "rdc.request-queue-worker-capability/v1".
Definition put_all (l d : list (pykey * pyval)) : list (pykey * pyval) := foldl (λ d kv, dict_set kv.1 kv.2 d) d l.
(** The capability document of a claim. *)
Definition queue_capability (a : queue_args) w payload (queue_id : pystr) (browser http dataset key_value_store : bool)
  : list (pykey * pyval) :=
put_all
  ((match qa_binding a with Some d => [entry "project_egress_policy_binding_digest" (PStr d)] | None => [] end)
   ++ (if browser then
         [entry "acquisition_mode" (text "controlled-browser");
          entry "browser_policy_digest" (opt_digest (qa_browser_digest a));
          entry "browser_egress_policy_digest" (opt_digest (qa_browser_egress_digest a));
          entry "agent_container_network" (text "none")]
       else if http then
         [entry "acquisition_mode" (text "brokered-http"); entry "egress_policy_digest" (opt_digest (qa_egress_digest a));
          entry "agent_container_network" (text "none")]
       else [])
   ++ (if dataset then
         [entry "dataset_write_enabled" (PBool true); entry "dataset_name" (text "default");
          entry "completion_order" (text "dataset-before-queue-handled")] else [])
   ++ (if key_value_store then
         [entry "key_value_store_enabled" (PBool true); entry "store_name" (text "default");
          entry "mutation_idempotency_scope" (text "queue-request-index");
          entry "completion_order" (text "kv-before-queue-handled")] else []))
  ([entry "schema_version" (text (queue_capability_version a key_value_store dataset browser http));
    entry "queue_id" (PStr queue_id); entry "run_id" (PStr (field_text "run_id" payload));
    entry "agent_version_id" (PStr (version_text payload)); entry "worker_name" (PStr (wk_name w));
    entry "max_claims_per_run" (PInt 1); entry "claim_completion_required" (PBool true)]
   ++ closed_access ++ [entry "enabled" (PBool true)]).

Definition is_true (v : pyval) : bool := match v with PBool b => b | _ => false end.
Definition is_false (v : pyval) : bool := match v with PBool b => negb b | _ => false end.

(** [request_queue_capability]. *)
Definition queue_capability_of w payload (a : queue_args) : exn + option pyval :=
deny_if (negb (qa_enabled a) || negb (cs_request_queue_enabled canary)
         || negb (canary_access "REQUEST_QUEUE_ACCESS" w payload)) $
need (as_dict (dict_get "manifest" payload)) $ λ manifest,
need (as_dict (dict_get "input_reference" payload)) $ λ ir,
need (as_dict (dict_get "capabilities" manifest)) $ λ capabilities,
deny_if (negb (is_true (dict_get "requestQueue" capabilities))) $
if negb (hashable (dict_get "network" capabilities)) then inl (TypeError "unhashable type") else
need (known_network (dict_get "network" capabilities)) $ λ network,
need (as_bool (dict_get "browser" capabilities)) $ λ browser,
need (as_bool (dict_get "dataset" capabilities)) $ λ dataset,
need (as_bool (dict_get "keyValueStore" capabilities)) $ λ key_value_store,
need (as_dict (dict_get "request_queue" ir)) $ λ binding,
need (as_dict (dict_get "queue_binding_receipt" ir)) $ λ receipt,
let web := bool_decide (network = "web-egress"%string) in
let browser_acquisition := web && browser in
let http_acquisition := web && negb browser in
let project_receipt := dict_get "project_egress_policy_receipt" ir in
deny_if ((browser && negb browser_acquisition)
         || negb (Bool.eqb key_value_store (qa_key_value_store a)) || (dataset && key_value_store)
         || negb (has_exact_keys ["schema_version"%string; "queue_id"%string] binding)
         || negb (py_eq (dict_get "schema_version" binding) (text "rdc.run-queue/v1"))
         || match qa_binding a with
            | Some d => match project_receipt with
                        | PDict p => negb (py_eq (dict_get "binding_digest" p) (PStr d)) || negb web
                        | _ => true
                        end
            | None => negb (bool_decide (project_receipt = PNone))
            end) $
need (uuid_of_str (py_str (dict_get "queue_id" binding))) $ λ qid,
let queue_id := str_of_uuid qid in
let version_id := version_text payload in
digest ← fingerprint (PDict (queue_binding queue_id));
match expected_queue_receipt a ir browser_acquisition http_acquisition digest queue_id version_id with
| inl e => inl e
| inr None => inr None
| inr (Some expected) =>
    if negb (py_eq (PDict receipt) (PDict expected)) then inr None else
    composed ← composition_ok a ir dataset key_value_store receipt queue_id version_id;
    deny_if (negb composed)
      (inr (Some (PDict (queue_capability a w payload queue_id browser_acquisition http_acquisition dataset key_value_store))))
end.

(** [key_value_store_capability]. *)
Definition store_capability_of w payload (enabled queue_enabled : bool) : exn + option pyval :=
deny_if (negb enabled || negb (cs_key_value_store_enabled canary) || negb (canary_access "KV_ACCESS" w payload)) $
need (as_dict (dict_get "manifest" payload)) $ λ manifest,
need (as_dict (dict_get "capabilities" manifest)) $ λ capabilities,
need (as_bool (dict_get "browser" capabilities)) $ λ browser,
need (as_bool (dict_get "requestQueue" capabilities)) $ λ request_queue,
deny_if (negb (is_true (dict_get "keyValueStore" capabilities)) || negb (is_false (dict_get "dataset" capabilities))
         || negb (Bool.eqb request_queue queue_enabled) || (browser && negb queue_enabled)
         || (queue_enabled && negb (cs_request_queue_enabled canary))
         || (queue_enabled && negb (cs_queue_key_value_store_enabled canary))) $
need (as_str (dict_get "run_id" payload)) $ λ run_id,
need (as_dict (dict_get "input_reference" payload)) $ λ ir,
need (as_dict (dict_get "value" ir)) $ λ input_value,
deny_if (bool_decide (run_id = []) || has_key "_rdc_kv" input_value) $
need (read_digest (dict_get "_rdc_kv_read" input_value)) $ λ read,
let version_id := version_text payload in
let capability :=
  [entry "schema_version" (text (if queue_enabled then "rdc.kv-worker-capability/v2" else "rdc.kv-worker-capability/v1"));
   entry "write_schema_version" (text "rdc.kv-write/v1"); entry "read_schema_version" (text "rdc.kv-worker-read/v1");
   entry "output_schema_version" (text "rdc.kv-worker-output/v1"); entry "run_id" (PStr run_id);
   entry "agent_version_id" (PStr version_id); entry "worker_name" (PStr (wk_name w));
   entry "store_name" (text "default"); entry "read_request_digest" (opt_digest read); entry "max_read_keys" (PInt 16);
   entry "max_read_total_bytes" (PInt 262144); entry "max_mutations" (PInt 4); entry "max_value_bytes" (PInt 1048576);
   entry "post_run_mutations_only" (PBool true)] ++ closed_access ++ [entry "enabled" (PBool true)] in
if negb queue_enabled then inr (Some (PDict capability)) else
need (as_dict (dict_get "request_queue" ir)) $ λ binding,
need (as_str (dict_get "queue_id" binding)) $ λ queue_id,
need (as_dict (dict_get "queue_binding_receipt" ir)) $ λ queue_receipt,
deny_if (negb (py_eq (dict_get "schema_version" binding) (text "rdc.run-queue/v1"))) $
digest ← fingerprint (PDict queue_receipt);
deny_if (negb (py_eq (dict_get "request_queue_key_value_store_receipt" ir)
                 (PDict (store_receipt queue_id version_id digest read true))))
  (inr (Some (PDict (capability ++
     [entry "queue_id" (PStr queue_id); entry "mutation_idempotency_scope" (text "queue-request-index");
      entry "completion_order" (text "kv-before-queue-handled")])))).

(** [_dataset_append_capability]. *)
Definition dataset_capability_of w payload (enabled queue_enabled : bool) : exn + option pyval :=
deny_if (negb enabled || negb (cs_dataset_writes_enabled canary) || negb (canary_access "DATASET_APPEND" w payload)) $
need (as_dict (dict_get "manifest" payload)) $ λ manifest,
need (as_dict (dict_get "capabilities" manifest)) $ λ capabilities,
need (as_bool (dict_get "requestQueue" capabilities)) $ λ request_queue,
deny_if (negb (is_true (dict_get "dataset" capabilities)) || negb (is_false (dict_get "keyValueStore" capabilities))
         || negb (Bool.eqb request_queue queue_enabled)
         || (negb (is_false (dict_get "browser" capabilities)) && negb queue_enabled)
         || (queue_enabled && negb (cs_queue_dataset_enabled canary))) $
need (as_str (dict_get "run_id" payload)) $ λ run_id,
deny_if (bool_decide (run_id = [])) $
let capability :=
  [entry "schema_version" (text (if queue_enabled then "rdc.dataset-worker-capability/v2" else "rdc.dataset-worker-capability/v1"));
   entry "append_schema_version" (text "rdc.dataset-append/v1"); entry "run_id" (PStr run_id);
   entry "agent_version_id" (PStr (version_text payload)); entry "worker_name" (PStr (wk_name w));
   entry "dataset_name" (text "default"); entry "max_items_per_append" (PInt 100); entry "max_item_bytes" (PInt 65536);
   entry "max_batch_bytes" (PInt 262144); entry "max_dataset_items" (PInt 100000);
   entry "max_dataset_bytes" (PInt 268435456); entry "enabled" (PBool true)] in
if negb queue_enabled then inr (Some (PDict capability)) else
need (as_dict (dict_get "input_reference" payload)) $ λ ir,
need (as_dict (dict_get "request_queue" ir)) $ λ binding,
need (as_str (dict_get "queue_id" binding)) $ λ queue_id,
deny_if (negb (py_eq (dict_get "schema_version" binding) (text "rdc.run-queue/v1")))
  (inr (Some (PDict (capability ++
     [entry "queue_id" (PStr queue_id); entry "completion_order" (text "dataset-before-queue-handled")])))).

(** ** Admission *)

(** What a claim asks for, as the payload and the settings say. *)
Record facts := MkFacts {
  fa_manifest : list (pykey * pyval);
  fa_resources : list (pykey * pyval);
  fa_web : bool;
  fa_browser : bool;
  fa_dataset : bool;
  fa_store : bool;
  fa_queue : bool;
  fa_policy : list (pykey * pyval);
  fa_egress_digest : option pystr;
  fa_binding : option pystr;
  fa_browser_digest : option pystr;
  fa_browser_egress_digest : option pystr }.
Definition fa_queue_dataset (f : facts) : bool := fa_queue f && fa_dataset f.
Definition fa_queue_store (f : facts) : bool := fa_queue f && fa_store f.
Definition fa_queue_browser (f : facts) : bool := fa_queue f && fa_web f && fa_browser f.
Definition fa_queue_http (f : facts) : bool := fa_queue f && fa_web f && negb (fa_browser f).

Definition input_reference_of payload : list (pykey * pyval) := default [] (as_dict (dict_get "input_reference" payload)).
Definition optional_fingerprint (b : bool) (d : list (pykey * pyval)) : exn + option pystr :=
if b then d ← fingerprint (PDict d); inr (Some d) else inr None.

(** The part the two admission functions share, up to the egress policy in force. *)
Definition admission_facts payload : exn + option facts :=
need (as_dict (dict_get "manifest" payload)) $ λ manifest,
need (as_dict (dict_get "capabilities" manifest)) $ λ capabilities,
need (as_dict (dict_get "resources" manifest)) $ λ resources,
let network := field_text "network" capabilities in
let web := bool_decide (network = lit "web-egress") in
deny_if (negb (bool_decide (network = lit "none")) && negb web) $
deny_if (web && negb (cs_web_egress_enabled canary)) $
need (as_bool (dict_get "browser" capabilities)) $ λ browser,
need (as_bool (dict_get "dataset" capabilities)) $ λ dataset,
need (as_bool (dict_get "keyValueStore" capabilities)) $ λ key_value_store,
need (as_bool (dict_get "requestQueue" capabilities)) $ λ request_queue,
let store := key_value_store && is_run_start payload in
let queue := request_queue && is_run_start payload in
match bound_policy (input_reference_of payload) with
| inl _ => inr None
| inr bound =>
    deny_if (bool_decide (is_Some bound) && negb web) $
    let effective := match bound with Some (p, _) => p | None => runtime_policy_payload ceiling end in
    egress_digest ← optional_fingerprint web effective;
    deny_if (is_run_start payload && dataset && store) $
    deny_if (is_run_start payload && browser && store && negb (queue && store)) $
    browser_digest ← optional_fingerprint browser browser_policy_payload;
    browser_egress_digest ← optional_fingerprint (queue && web && browser) (browser_egress_policy_payload effective);
    inr (Some (MkFacts manifest resources web browser dataset store queue effective egress_digest (snd <$> bound)
                 browser_digest browser_egress_digest))
end.
Definition queue_args_of (f : facts) : queue_args :=
MkQueueArgs true (fa_queue_http f) (if fa_queue_http f then fa_egress_digest f else None) (fa_queue_browser f)
  (fa_browser_digest f) (fa_browser_egress_digest f) (fa_queue_dataset f) (fa_queue_store f) (fa_binding f).
(** The queue, dataset and key-value store of the claim, which the two functions also share. *)
Definition admission_surfaces w payload (f : facts) : exn + option () :=
queue ←
  (if negb (fa_queue f) then inr (Some ()) else
   deny_if (negb (cs_request_queue_enabled canary)
            || (fa_queue_store f && (negb (cs_key_value_store_enabled canary) || negb (cs_queue_key_value_store_enabled canary)))
            || (fa_queue_dataset f && (negb (cs_dataset_writes_enabled canary) || negb (cs_queue_dataset_enabled canary)))
            || (fa_queue_http f && negb (cs_queue_http_enabled canary))
            || (fa_queue_browser f && negb (cs_queue_browser_enabled canary))) $
   capability ← queue_capability_of w payload (queue_args_of f);
   need capability $ λ _, inr (Some ()));
need queue $ λ _,
deny_if (fa_dataset f && (negb (is_run_start payload) || (fa_browser f && negb (fa_queue_dataset f))
         || negb (cs_dataset_writes_enabled canary) || negb (bool_decide ("DATASET_APPEND"%string ∈ wk_capabilities w)))) $
if negb (fa_store f) then inr (Some ()) else
capability ← store_capability_of w payload true (fa_queue_store f);
need capability $ λ _, inr (Some ()).

(** What a browser run must carry besides: its navigation receipt, or its browser plan. *)
Definition claim_browser_ok payload (f : facts) : exn + bool :=
if negb (fa_browser f) then inr true
else if negb (is_run_start payload) || negb (fa_web f) || negb (cs_browser_enabled canary) then inr false
else match dict_get "input_reference" payload with
| PDict ir =>
    if fa_queue_browser f then inr true
    else if has_key "browser_navigation" ir then browser_navigation_canary_receipt_allowed ir (fa_policy f)
    else inr (match dict_get "browser" ir, dict_get "browser_policy" ir, dict_get "browser_policy_digest" ir with
              | PDict _, PDict _, PStr _ => true
              | _, _, _ => false
              end)
| _ => inr false
end.

Definition resource_int (resources : list (pykey * pyval)) (key : string) (limit : Z) : exn + Z :=
match dict_find (lit key) resources with Some v => py_int v | None => inr limit end.

(** [_sandbox_claim_policy]. *)
Definition claim_policy w payload : exn + option (list (pykey * pyval)) :=
deny_if (negb sandbox_execution_enabled || negb (wk_sandbox_execution_enabled w)) $
need (wk_sandbox_attestation_digest w) $ λ attestation,
f ← admission_facts payload;
need f $ λ f,
surfaces ← admission_surfaces w payload f;
need surfaces $ λ _,
browser ← claim_browser_ok payload f;
deny_if (negb browser) $
memory_mb ← resource_int (fa_resources f) "memoryMb" sandbox_max_memory_mb;
cpu_millis ← resource_int (fa_resources f) "cpuUnits" sandbox_max_cpu_millis;
pids ← resource_int (fa_resources f) "maxProcesses" sandbox_max_pids;
disk_mb ← resource_int (fa_resources f) "ephemeralDiskMb" sandbox_max_ephemeral_disk_mb;
timeout ← resource_int (fa_resources f) "timeoutSeconds" sandbox_max_run_seconds;
deny_if ((sandbox_max_memory_mb <? memory_mb) || (sandbox_max_cpu_millis <? cpu_millis) || (sandbox_max_pids <? pids)
         || (sandbox_max_ephemeral_disk_mb <? disk_mb)
         || (is_run_start payload && bool_decide (dict_get "artifact" payload = PNone))) $
let timeout := Z.min timeout (if bool_decide (field_text "work_kind" payload = lit "BUILD")
                              then sandbox_max_build_seconds else sandbox_max_run_seconds) in
inr (Some [entry "schema_version" (text sandbox_required_profile); entry "attestation_digest" (PStr attestation);
  entry "runtime" (text "containerd-rootless"); entry "builder" (text "buildkit-rootless");
  entry "network_policy" (text "deny-all"); entry "brokered_web_egress" (PBool (fa_web f)); entry "rootless" (PBool true);
  entry "no_host_docker_socket" (PBool true); entry "no_new_privileges" (PBool true);
  entry "read_only_rootfs" (PBool true); entry "drop_all_capabilities" (PBool true);
  entry "seccomp_profile" (text "rdc-default"); entry "memory_mb" (PInt memory_mb); entry "cpu_millis" (PInt cpu_millis);
  entry "pids" (PInt pids); entry "ephemeral_disk_mb" (PInt disk_mb); entry "timeout_seconds" (PInt timeout);
  entry "max_output_bytes" (PInt (cs_max_output_bytes canary))]).

(** ** Activation *)

Definition canary_constraints (f : facts) : list (pykey * pyval) :=
[entry "memory_mb" (PInt (cs_max_memory_mb canary)); entry "cpu_millis" (PInt (cs_max_cpu_millis canary));
 entry "pids" (PInt (cs_max_pids canary)); entry "ephemeral_disk_mb" (PInt (cs_max_ephemeral_disk_mb canary));
 entry "build_timeout_seconds" (PInt (cs_max_build_seconds canary));
 entry "run_timeout_seconds" (PInt (cs_max_run_seconds canary));
 entry "network" (text (if fa_web f then "brokered-web-egress" else "none")); entry "browser" (PBool (fa_browser f));
 entry "dataset" (PBool (fa_dataset f)); entry "key_value_store" (PBool (fa_store f));
 entry "request_queue" (PBool (fa_queue f)); entry "request_queue_http" (PBool (fa_queue_http f));
 entry "request_queue_browser" (PBool (fa_queue_browser f)); entry "request_queue_dataset" (PBool (fa_queue_dataset f));
 entry "request_queue_key_value_store" (PBool (fa_queue_store f)); entry "secrets" (PBool false);
 entry "max_concurrency" (PInt 1)].

(** [SandboxActivation]: its fields; [mode], [no_secrets] and [max_concurrency] are constant. *)
Record SandboxActivation := MkActivationReceipt {
  sa_agent_version_id : uuid;
  sa_worker_name : pystr;
  sa_attestation_digest : pystr;
  sa_sandbox_policy_digest : pystr;
  sa_constraints_digest : pystr;
  sa_capability_profile : string;
  sa_egress_policy_digest : option pystr;
  sa_binding_digest : option pystr;
  sa_browser_policy_digest : option pystr;
  sa_dataset_write_enabled : bool;
  sa_key_value_store_enabled : bool;
  sa_request_queue_enabled : bool;
  sa_queue_http_enabled : bool;
  sa_queue_browser_enabled : bool;
  sa_queue_dataset_enabled : bool;
  sa_queue_key_value_store_enabled : bool }.

(** [[0-9a-f]{64}]. *)
Definition hex64 (d : pystr) : bool :=
(length d =? 64)%nat && forallb (λ c, is_ascii_digit c || ((97 <=? c) && (c <=? 102))%N) d.
Definition hex64_opt (d : option pystr) : bool := match d with Some d => hex64 d | None => true end.
Definition present {A} (o : option A) : bool := bool_decide (is_Some o).
(** The patterns of the fields and [validate_capability_receipt]. *)
Definition activation_valid (a : SandboxActivation) : bool :=
let profile p := bool_decide (sa_capability_profile a = p%string) in
worker_name_ok (sa_worker_name a) && hex64 (sa_attestation_digest a) && hex64 (sa_sandbox_policy_digest a)
&& hex64 (sa_constraints_digest a) && hex64_opt (sa_egress_policy_digest a) && hex64_opt (sa_binding_digest a)
&& hex64_opt (sa_browser_policy_digest a)
&& (negb (profile "brokered-web-egress") || (present (sa_egress_policy_digest a) && negb (present (sa_browser_policy_digest a))))
&& (negb (profile "controlled-browser") || (present (sa_egress_policy_digest a) && present (sa_browser_policy_digest a)))
&& (negb (profile "offline-minimal")
    || (negb (present (sa_egress_policy_digest a)) && negb (present (sa_browser_policy_digest a))
        && negb (present (sa_binding_digest a))))
&& (negb (present (sa_binding_digest a)) || present (sa_egress_policy_digest a))
&& (negb (sa_queue_http_enabled a)
    || (sa_request_queue_enabled a && profile "brokered-web-egress" && present (sa_egress_policy_digest a)))
&& (negb (sa_queue_browser_enabled a)
    || (sa_request_queue_enabled a && profile "controlled-browser" && present (sa_egress_policy_digest a)
        && present (sa_browser_policy_digest a)))
&& negb (sa_queue_http_enabled a && sa_queue_browser_enabled a)
&& (negb (sa_queue_dataset_enabled a) || (sa_request_queue_enabled a && sa_dataset_write_enabled a))
&& (negb (sa_request_queue_enabled a && sa_dataset_write_enabled a) || sa_queue_dataset_enabled a)
&& (negb (sa_queue_key_value_store_enabled a) || (sa_request_queue_enabled a && sa_key_value_store_enabled a))
&& (negb (sa_request_queue_enabled a && sa_key_value_store_enabled a) || sa_queue_key_value_store_enabled a).
(** [activation.model_dump(mode="json")]. *)
Definition activation_dump (a : SandboxActivation) : list (pykey * pyval) :=
[entry "mode" (text "canary"); entry "agent_version_id" (PStr (str_of_uuid (sa_agent_version_id a)));
 entry "worker_name" (PStr (sa_worker_name a)); entry "attestation_digest" (PStr (sa_attestation_digest a));
 entry "sandbox_policy_digest" (PStr (sa_sandbox_policy_digest a));
 entry "constraints_digest" (PStr (sa_constraints_digest a)); entry "no_secrets" (PBool true);
 entry "capability_profile" (text (sa_capability_profile a));
 entry "egress_policy_digest" (opt_digest (sa_egress_policy_digest a));
 entry "project_egress_policy_binding_digest" (opt_digest (sa_binding_digest a));
 entry "browser_policy_digest" (opt_digest (sa_browser_policy_digest a));
 entry "dataset_write_enabled" (PBool (sa_dataset_write_enabled a));
 entry "key_value_store_enabled" (PBool (sa_key_value_store_enabled a));
 entry "request_queue_enabled" (PBool (sa_request_queue_enabled a));
 entry "request_queue_http_enabled" (PBool (sa_queue_http_enabled a));
 entry "request_queue_browser_enabled" (PBool (sa_queue_browser_enabled a));
 entry "request_queue_dataset_enabled" (PBool (sa_queue_dataset_enabled a));
 entry "request_queue_key_value_store_enabled" (PBool (sa_queue_key_value_store_enabled a));
 entry "max_concurrency" (PInt 1)].

(** The policy of the browser an activation is for: a queue's, a navigation's whose receipt
  is in force, or a plan's whose stored policy is the current one; [None] refuses. *)
Definition activation_browser payload (f : facts) : exn + option (option pystr) :=
if negb (fa_browser f) then inr (Some None)
else if negb (is_run_start payload) || negb (fa_web f) || negb (cs_browser_enabled canary) then inr None
else need (as_dict (dict_get "input_reference" payload)) $ λ ir,
if fa_queue_browser f then inr (Some (fa_browser_digest f))
else if has_key "browser_navigation" ir then
  allowed ← browser_navigation_canary_receipt_allowed ir (fa_policy f);
  deny_if (negb allowed) $
  current ← fingerprint (PDict browser_policy_payload);
  inr (Some (Some current))
else
  need (as_dict (dict_get "browser" ir)) $ λ _,
  need (as_dict (dict_get "browser_policy" ir)) $ λ stored,
  need (as_str (dict_get "browser_policy_digest" ir)) $ λ digest,
  current ← fingerprint (PDict browser_policy_payload);
  d ← fingerprint (PDict stored);
  deny_if (negb (bool_decide (d = current)) || negb (bool_decide (digest = current))) $
  inr (Some (Some current)).

(** [int(resources[key])] under [except (KeyError, TypeError, ValueError)]. *)
Definition strict_int (resources : list (pykey * pyval)) (key : string) : exn + option Z :=
need (dict_find (lit key) resources) $ λ v,
match py_int v with
| inr z => inr (Some z)
| inl (TypeError _ | ValueError _ | UnicodeEncodeError) => inr None
| inl e => inl e
end.

Definition known_kind (kind : pystr) : bool := bool_decide (kind ∈ lit <$> ["BUILD"; "RUN_START"; "RUN_CANCEL"]%string).
(** The gates that depend on the worker and the identity of the work only. *)
Definition canary_gate w payload : bool :=
canary_mode && negb (bool_decide (cs_agent_version_id canary = [])) && negb (bool_decide (canary_worker = []))
&& bool_decide (wk_name w = canary_worker) && (wk_max_concurrency w =? 1)
&& bool_decide (version_text payload = cs_agent_version_id canary)
&& known_kind (field_text "work_kind" payload).
Definition no_secrets (manifest : list (pykey * pyval)) : bool :=
match dict_find (lit "secrets") manifest with None | Some (PList []) => true | _ => false end.
Definition capability_profile (f : facts) : string :=
if fa_browser f then "controlled-browser" else if fa_web f then "brokered-web-egress" else "offline-minimal".

(** [_canary_activation]. *)
Definition activate w payload (sandbox_policy : option (list (pykey * pyval))) : exn + option SandboxActivation :=
need sandbox_policy $ λ sandbox_policy,
deny_if (negb (canary_gate w payload)) $
need (as_dict (dict_get "manifest" payload)) $ λ manifest,
deny_if (negb (no_secrets manifest)) $
f ← admission_facts payload;
need f $ λ f,
surfaces ← admission_surfaces w payload f;
need surfaces $ λ _,
browser ← activation_browser payload f;
need browser $ λ browser_policy_digest,
memory_mb ← strict_int (fa_resources f) "memoryMb";
need memory_mb $ λ memory_mb,
cpu_millis ← strict_int (fa_resources f) "cpuUnits";
need cpu_millis $ λ cpu_millis,
pids ← strict_int (fa_resources f) "maxProcesses";
need pids $ λ pids,
disk_mb ← strict_int (fa_resources f) "ephemeralDiskMb";
need disk_mb $ λ disk_mb,
timeout ← strict_int (fa_resources f) "timeoutSeconds";
need timeout $ λ timeout_seconds,
let timeout_ceiling := if bool_decide (field_text "work_kind" payload = lit "BUILD")
                       then cs_max_build_seconds canary else cs_max_run_seconds canary in
deny_if ((cs_max_memory_mb canary <? memory_mb) || (cs_max_cpu_millis canary <? cpu_millis)
         || (cs_max_pids canary <? pids) || (cs_max_ephemeral_disk_mb canary <? disk_mb)
         || (timeout_ceiling <? timeout_seconds)) $
match uuid_of_str (cs_agent_version_id canary) with
| None => inl (ValueError "badly formed hexadecimal UUID string")
| Some vid =>
    policy_digest ← fingerprint (PDict sandbox_policy);
    constraints_digest ← fingerprint (PDict (canary_constraints f));
    let a := MkActivationReceipt vid canary_worker (py_str (dict_get "attestation_digest" sandbox_policy)) policy_digest
      constraints_digest (capability_profile f) (fa_egress_digest f) (fa_binding f) browser_policy_digest
      (fa_dataset f) (fa_store f) (fa_queue f) (fa_queue_http f) (fa_queue_browser f) (fa_queue_dataset f)
      (fa_queue_store f) in
    if activation_valid a then inr (Some a) else inl ValidationError
end.

(** ** What a claim is sealed with *)

Definition flag (key : string) (activation : list (pykey * pyval)) : bool := is_true (dict_get key activation).
Definition optional_text (b : bool) (v : pyval) : option pystr := if b then as_str v else None.
(** The arguments [claim_work] passes for the activation of the claim. *)
Definition sealed_queue_args payload (activation : list (pykey * pyval)) : queue_args :=
let browser := flag "request_queue_browser_enabled" activation in
MkQueueArgs (flag "request_queue_enabled" activation) (flag "request_queue_http_enabled" activation)
  (optional_text (flag "request_queue_http_enabled" activation) (dict_get "egress_policy_digest" activation))
  browser (optional_text browser (dict_get "browser_policy_digest" activation))
  (optional_text browser (dict_get "request_queue_browser_egress_policy_digest" (input_reference_of payload)))
  (flag "request_queue_dataset_enabled" activation) (flag "request_queue_key_value_store_enabled" activation)
  (as_str (dict_get "project_egress_policy_binding_digest" activation)).
Definition dump_of (a : option Activation) : list (pykey * pyval) :=
match a with Some a => default [] (as_dict (ac_dump a)) | None => [] end.
Definition value_of (r : exn + option pyval) : exn + pyval :=
match r with inl e => inl e | inr o => inr (default PNone o) end.
Definition sealed_policy w payload : exn + option pyval :=
match claim_policy w payload with inl e => inl e | inr p => inr (option_map PDict p) end.
Definition sealed_activation w payload (policy : option pyval) : exn + option Activation :=
match activate w payload (policy ≫= as_dict) with
| inl e => inl e
| inr a => inr (option_map (λ a, MkActivation "canary" (sa_agent_version_id a) (PDict (activation_dump a))) a)
end.
#[export] Instance admission_sealing : ClaimSealing := {|
  sandbox_claim_policy := sealed_policy;
  canary_activation := sealed_activation;
  dataset_append_capability w payload a :=
    value_of (dataset_capability_of w payload (flag "dataset_write_enabled" (dump_of a))
                (flag "request_queue_dataset_enabled" (dump_of a)));
  key_value_store_capability w payload a :=
    value_of (store_capability_of w payload (flag "key_value_store_enabled" (dump_of a))
                (flag "request_queue_key_value_store_enabled" (dump_of a)));
  request_queue_capability w payload a := value_of (queue_capability_of w payload (sealed_queue_args payload (dump_of a)));
  bound_egress_policy ir := match bound_policy ir with inr _ => true | inl _ => false end |}.

(** [_enabled] of services/worker_request_queue.py: the capability a lease was sealed with is
  the one the settings still give. *)
Definition worker_queue_access (l : ExecutionLease) w : exn + list (pykey * pyval) :=
let snapshot := l_payload_snapshot l in
let activation := default [] (as_dict (dict_get "activation" snapshot)) in
let a := sealed_queue_args snapshot activation in
let enabled := canary_mode && qa_enabled a in
let refused := inl (ApiError 403 "WORKER_REQUEST_QUEUE_DISABLED") in
expected ← queue_capability_of w snapshot
  (MkQueueArgs enabled (qa_http a) (qa_egress_digest a) (qa_browser a) (qa_browser_digest a)
     (as_str (dict_get "request_queue_browser_egress_policy_digest" (input_reference_of snapshot)))
     (qa_dataset a) (qa_key_value_store a) (qa_binding a));
match expected with
| Some (PDict e) =>
    if bool_decide (l_work_kind l = RUN_START) && py_eq (dict_get "request_queue_capability" snapshot) (PDict e)
    then inr e else refused
| _ => refused
end.
End admission.
