(* ===== verification/AdmissionSpec.v ===== *)
(** What sandbox admission guarantees: nothing outside the operator's ceiling is activated,
    and what a claim is sealed with is what the checks of later requests expect. *)

From S2P Require Import Prelude PyVal Json PyUuid QueueProtocol EventProtocol Idempotency Url.
From S2P Require Import Recovery Pagination RunEvents ExecutionPlane EgressProtocol PyEq Canary KvWorkerProtocol Admission.

(** ** Inversion of checks *)

Lemma need_Some {A B} (o : option A) (k : A → exn + option B) x :
  need o k = inr (Some x) → ∃ a, o = Some a ∧ k a = inr (Some x).
Proof. destruct o; [eauto|done]. Qed.
Lemma deny_if_Some {A} b (k : exn + option A) x : deny_if b k = inr (Some x) → b = false ∧ k = inr (Some x).
Proof. by destruct b. Qed.
Lemma ensure_inr {A} b (k : exn + A) x : ensure b k = inr x → b = true ∧ k = inr x.
Proof. by destruct b. Qed.
Lemma require_inr {A B} (o : option A) (k : A → exn + B) x : require o k = inr x → ∃ a, o = Some a ∧ k a = inr x.
Proof. destruct o; [eauto|done]. Qed.
Ltac check_step H :=
  lazymatch type of H with
  | need _ _ = inr (Some _) => let a := fresh "a" in let E := fresh "E" in apply need_Some in H as (a & E & H)
  | deny_if _ _ = inr (Some _) => let E := fresh "E" in apply deny_if_Some in H as (E & H)
  | ensure _ _ = inr _ => let E := fresh "E" in apply ensure_inr in H as (E & H)
  | require _ _ = inr _ => let a := fresh "a" in let E := fresh "E" in apply require_inr in H as (a & E & H)
  | _ ≫= _ = inr _ => let a := fresh "a" in let E := fresh "E" in apply sum_bind_inr in H as (a & E & H)
  end.
Ltac checks H := repeat (check_step H; cbv beta zeta in H).
Section spec.
Context `{CaseFold, UrlTables, Idna, UpperCase, Sha256, UnicodeDecimal, PyRepr, FloatCompare, !PyInt}.
Context `{Settings, !CanarySettings}.
Implicit Types (w : WorkerIdentity) (payload ir : list (pykey * pyval)).

(** ** Confinement *)

(** A document of an egress policy no broader than what the operator allows. *)
Record confined (d : list (pykey * pyval)) : Prop := {
cf_envelope : envelope_ok d = true;
cf_policy : ∃ p, dict_get "allowed_hosts" d = PList (PStr <$> rp_hosts p) ∧ rp_hosts p ⊆ cs_allowed_hosts canary ∧
  dict_get "allowed_methods" d = PList (PStr <$> rp_methods p) ∧ rp_methods p ⊆ ALLOWED_METHODS ∧
  dict_get "max_requests" d = PInt (el_max_requests (rp_limits p)) ∧
  dict_get "max_response_bytes" d = PInt (el_max_response_bytes (rp_limits p)) ∧
  dict_get "max_total_bytes" d = PInt (el_max_total_bytes (rp_limits p)) ∧
  dict_get "max_redirects" d = PInt (el_max_redirects (rp_limits p)) ∧
  dict_get "connect_timeout_seconds" d = PInt (el_connect_timeout_seconds (rp_limits p)) ∧
  dict_get "request_timeout_seconds" d = PInt (el_request_timeout_seconds (rp_limits p)) ∧
  limits_within (rp_limits p) (cs_web_egress canary) = true }.

Lemma bounded_int_Some lo hi v z : bounded_int lo hi v = Some z → v = PInt z ∧ lo ≤ z ≤ hi.
Proof.
unfold bounded_int. destruct (as_int v) as [n|] eqn:E; cbn; [|done]. apply as_int_Some in E as ->.
destruct (between lo n hi) eqn:Eb; [|done]. intros [= <-]. unfold between in Eb. breflect. done.
Qed.
Lemma bounded_limits_Some d c l : bounded_limits d c = Some l →
dict_get "max_requests" d = PInt (el_max_requests l) ∧ dict_get "max_response_bytes" d = PInt (el_max_response_bytes l) ∧
dict_get "max_total_bytes" d = PInt (el_max_total_bytes l) ∧ dict_get "max_redirects" d = PInt (el_max_redirects l) ∧
dict_get "connect_timeout_seconds" d = PInt (el_connect_timeout_seconds l) ∧
dict_get "request_timeout_seconds" d = PInt (el_request_timeout_seconds l) ∧ limits_within l c = true.
Proof.
unfold bounded_limits. intros Hl. repeat (apply bind_Some in Hl as (? & ?%bounded_int_Some & Hl)).
injection Hl as <-. cbn. destruct_and!. split_and!; try done. unfold limits_within. cbn. rewrite !andb_true_iff, !Z.leb_le. lia.
Qed.
Lemma sorted_texts_Some v l : sorted_texts v = Some l → v = PList (PStr <$> l) ∧ l ≠ [] ∧ l = sorted_set l.
Proof.
unfold sorted_texts. intros (k & Hk & Hl)%bind_Some. destruct (_ && _) eqn:E; [|done]. injection Hl as ->. breflect.
split_and!; [by apply as_strs_Some|done|done].
Qed.

(** What [_bound_egress_policy] accepts: a confined document whose digest, policy digest and
  binding digest its receipt carries. *)
Lemma bound_policy_Some ir stored d : bound_policy ir = inr (Some (stored, d)) →
dict_get "project_egress_policy" ir = PDict stored ∧ confined stored ∧
∃ receipt v, dict_get "project_egress_policy_receipt" ir = PDict receipt ∧
  canonical_fingerprint (PDict (without_digest receipt)) = Some d ∧
  (∃ rd, canonical_fingerprint (PDict stored) = Some rd ∧ dict_get "runtime_policy_digest" receipt = PStr rd) ∧
  validate_egress_policy (vp_allowed_hosts v) (vp_allowed_methods v) (vp_limits v) = inr v ∧
  dict_get "policy_digest" receipt = PStr (vp_policy_digest v).
Proof.
unfold bound_policy. destruct (_ && _); [done|]. cbv zeta. intros Hb. checks Hb. injection Hb as <- <-.
repeat match goal with
| H : as_dict _ = Some _ |- _ => apply as_dict_Some in H
| H : sorted_texts _ = Some _ |- _ => apply sorted_texts_Some in H as (? & ? & ?)
| H : fingerprint _ = inr _ |- _ => unfold fingerprint in H
| H : match canonical_fingerprint ?x with _ => _ end = inr _ |- _ => let E := fresh "Ef" in destruct (canonical_fingerprint x) eqn:E; [|done]
| H : inr _ = inr _ |- _ => injection H as <-
end.
breflect. match goal with H : bounded_limits _ _ = Some _ |- _ => apply bounded_limits_Some in H as (? & ? & ? & ? & ? & ? & ?) end.
assert (Hstr : ∀ v s, py_eq v (PStr s) = true → v = PStr s).
{ intros v s. destruct v; cbn; try done. intros Hs. by apply bool_decide_eq_true in Hs as ->. }
repeat match goal with H : py_eq _ (PStr _) = true |- _ => apply Hstr in H end.
split; [done|]. split.
- split; [done|]. eexists (MkRuntime _ _ _). cbn. split_and!; done.
- match goal with v : ValidatedEgressPolicy |- _ => rename v into vv end.
  match goal with Hp : dict_get "project_egress_policy_receipt" _ = PDict ?r |- _ => exists r, vv end.
  match goal with H : dict_get "binding_digest" _ = PStr _ |- _ => rewrite H in * end. cbn [py_str].
  split_and!; try done; [by eexists|].
  match goal with H : validate_egress_policy _ _ _ = inr _ |- _ => pose proof H as Hv; apply validate_accepted in Hv as [_ _ _ _ _ _ _ Hlim _ _] end.
  rewrite Hlim. by subst.
Qed.

Lemma limits_within_refl l : limits_within l l = true.
Proof. unfold limits_within. rewrite !andb_true_iff, !Z.leb_le. lia. Qed.
Lemma confined_ceiling : confined (runtime_policy_payload ceiling).
Proof. split; [done|]. exists ceiling. split_and!; try done. apply limits_within_refl. Qed.

Lemma fingerprint_inr v d : fingerprint v = inr d → canonical_fingerprint v = Some d.
Proof. unfold fingerprint. destruct (canonical_fingerprint v); [by intros [= <-]|done]. Qed.
Lemma optional_fingerprint_inr b d o : optional_fingerprint b d = inr o →
if b then ∃ x, o = Some x ∧ canonical_fingerprint (PDict d) = Some x else o = None.
Proof.
unfold optional_fingerprint. destruct b; [|by intros [= <-]]. intros (x & Hx%fingerprint_inr & [= <-])%sum_bind_inr. eauto.
Qed.

(** The policy in force of a claim: the operator's, or the one the run is bound to. *)
Record facts_ok payload (f : facts) : Prop := {
fo_manifest : dict_get "manifest" payload = PDict (fa_manifest f);
fo_resources : dict_get "resources" (fa_manifest f) = PDict (fa_resources f);
fo_web : fa_web f = true → cs_web_egress_enabled canary = true;
fo_policy : confined (fa_policy f);
fo_bound : match fa_binding f with
           | Some b => fa_web f = true ∧ bound_policy (input_reference_of payload) = inr (Some (fa_policy f, b))
           | None => fa_policy f = runtime_policy_payload ceiling
           end;
fo_egress : if fa_web f then ∃ d, fa_egress_digest f = Some d ∧ canonical_fingerprint (PDict (fa_policy f)) = Some d
            else fa_egress_digest f = None;
fo_browser : if fa_browser f then ∃ d, fa_browser_digest f = Some d ∧ canonical_fingerprint (PDict browser_policy_payload) = Some d
             else fa_browser_digest f = None;
fo_browser_egress : if fa_queue_browser f
  then ∃ d, fa_browser_egress_digest f = Some d ∧
    canonical_fingerprint (PDict (browser_egress_policy_payload (fa_policy f))) = Some d
  else fa_browser_egress_digest f = None;
fo_run_only : is_run_start payload = false → fa_store f = false ∧ fa_queue f = false }.
Lemma admission_facts_Some payload f : admission_facts payload = inr (Some f) → facts_ok payload f.
Proof.
unfold admission_facts. intros Hf. checks Hf.
destruct (bound_policy (input_reference_of payload)) as [e|bound] eqn:Eb; [done|]. checks Hf. injection Hf as <-.
repeat match goal with
| H : as_dict _ = Some _ |- _ => apply as_dict_Some in H
| H : optional_fingerprint _ _ = inr _ |- _ => apply optional_fingerprint_inr in H
end.
match goal with H : bool_decide ?b && negb (cs_web_egress_enabled canary) = false |- _ =>
  remember (bool_decide b) as web eqn:Ew; rename H into Hopen; clear Ew end.
constructor; cbn; try done.
- intros ->. cbn in Hopen. by breflect.
- destruct bound as [[p b]|]; [by apply bound_policy_Some in Eb as (_ & ? & _)|apply confined_ceiling].
- destruct bound as [[p b]|]; cbn; [split; [|done]|done].
  match goal with H : bool_decide (is_Some _) && negb web = false |- _ => rewrite bool_decide_eq_true_2 in H by eauto; cbn in H end.
  by breflect.
- intros ->. by rewrite !andb_false_r.
Qed.

(** The gates of the surfaces a claim uses are open. *)
Record gates_open payload (f : facts) : Prop := {
go_queue : fa_queue f = true → cs_request_queue_enabled canary = true;
go_queue_http : fa_queue_http f = true → cs_queue_http_enabled canary = true;
go_queue_browser : fa_queue_browser f = true → cs_queue_browser_enabled canary = true;
go_queue_dataset : fa_queue_dataset f = true → cs_queue_dataset_enabled canary = true;
go_queue_store : fa_queue_store f = true → cs_queue_key_value_store_enabled canary = true;
go_dataset : fa_dataset f = true → is_run_start payload = true ∧ cs_dataset_writes_enabled canary = true;
go_store : fa_store f = true → cs_key_value_store_enabled canary = true }.
Lemma admission_surfaces_Some w payload f u : admission_surfaces w payload f = inr (Some u) →
gates_open payload f ∧
(fa_queue f = true → ∃ c, queue_capability_of w payload (queue_args_of f) = inr (Some c)) ∧
(fa_store f = true → ∃ c, store_capability_of w payload true (fa_queue_store f) = inr (Some c)).
Proof.
unfold admission_surfaces. intros Hs. check_step Hs. cbv beta in Hs. check_step Hs. check_step Hs. subst.
assert (Hst : fa_store f = true → cs_key_value_store_enabled canary = true ∧
  ∃ c, store_capability_of w payload true (fa_queue_store f) = inr (Some c)).
{ intros Hf. rewrite Hf in Hs. cbn [negb] in Hs. check_step Hs. cbv beta in Hs. check_step Hs. subst.
  match goal with H : store_capability_of _ _ _ _ = _ |- _ => pose proof H as Hc end. unfold store_capability_of in Hc. check_step Hc. breflect. eauto. }
assert (Hds : fa_dataset f = true → is_run_start payload = true ∧ cs_dataset_writes_enabled canary = true).
{ intros Hf. match goal with H : fa_dataset f && _ = false |- _ => rewrite Hf in H; cbn [andb] in H end. by breflect. }
destruct (fa_queue f) eqn:Hq; cbn [negb] in *.
- match goal with H : deny_if _ _ = _ |- _ => rename H into Hd end. check_step Hd. check_step Hd. cbv beta in Hd. check_step Hd. subst. breflect.
  assert (Hor : ∀ a b : bool, a && negb b = false → a = true → b = true) by (by intros [] []).
  assert (Hor2 : ∀ a b c : bool, a && (negb b || negb c) = false → a = true → c = true) by (by intros [] [] []).
  split; [constructor|split; [intros _; eauto|intros Hf; apply Hst, Hf]].
  + done.
  + by apply Hor.
  + by apply Hor.
  + by eapply Hor2.
  + by eapply Hor2.
  + exact Hds.
  + intros Hf. apply Hst, Hf.
- split; [constructor|split; [done|intros Hf; apply Hst, Hf]];
    unfold fa_queue_http, fa_queue_browser, fa_queue_dataset, fa_queue_store; rewrite ?Hq; try done.
  intros Hf. apply Hst, Hf.
Qed.

Lemma strict_int_Some r key z : strict_int r key = inr (Some z) → ∃ v, dict_find (lit key) r = Some v ∧ py_int v = inr z.
Proof.
unfold strict_int. intros (v & Hv & Hz)%need_Some. exists v. split; [done|]. destruct (py_int v) as [e|n]; [by destruct e|]. by injection Hz as ->.
Qed.

Lemma activation_browser_Some payload f o : facts_ok payload f → activation_browser payload f = inr (Some o) →
(fa_browser f = true → is_run_start payload = true ∧ fa_web f = true ∧ cs_browser_enabled canary = true) ∧
match o with
| Some d => fa_browser f = true ∧ canonical_fingerprint (PDict browser_policy_payload) = Some d
| None => fa_browser f = false
end.
Proof.
intros Hf. unfold activation_browser. destruct (fa_browser f) eqn:Eb; cbn [negb]; [|by intros [= <-]].
destruct (negb (is_run_start payload) || negb (fa_web f) || negb (cs_browser_enabled canary)) eqn:Eg; [done|].
breflect. intros Ho. checks Ho. split; [done|].
destruct (fa_queue_browser f).
{ injection Ho as <-. pose proof (fo_browser _ _ Hf) as Hd. rewrite Eb in Hd. by destruct Hd as (d & -> & ?). }
destruct (has_key "browser_navigation" _).
- checks Ho. injection Ho as <-. split; [done|]. by apply fingerprint_inr.
- checks Ho. injection Ho as <-. split; [done|]. by apply fingerprint_inr.
Qed.

(** The numbers of a manifest are within limits. *)
Definition resources_within (resources : list (pykey * pyval)) (limits : list (string * Z)) : Prop :=
Forall (λ kl, ∃ v z, dict_find (lit kl.1) resources = Some v ∧ py_int v = inr z ∧ z ≤ kl.2) limits.
Definition canary_limits (build : bool) : list (string * Z) :=
[("memoryMb"%string, cs_max_memory_mb canary); ("cpuUnits"%string, cs_max_cpu_millis canary);
 ("maxProcesses"%string, cs_max_pids canary); ("ephemeralDiskMb"%string, cs_max_ephemeral_disk_mb canary);
 ("timeoutSeconds"%string, if build then cs_max_build_seconds canary else cs_max_run_seconds canary)].

Lemma activate_Some w payload policy a : activate w payload policy = inr (Some a) →
canary_gate w payload = true ∧ ∃ f p browser, policy = Some p ∧ no_secrets (fa_manifest f) = true ∧
  admission_facts payload = inr (Some f) ∧ admission_surfaces w payload f = inr (Some ()) ∧
  activation_browser payload f = inr (Some browser) ∧
  resources_within (fa_resources f) (canary_limits (bool_decide (field_text "work_kind" payload = lit "BUILD"))) ∧
  ∃ vid pd cd, uuid_of_str (cs_agent_version_id canary) = Some vid ∧ canonical_fingerprint (PDict p) = Some pd ∧
    a = MkActivationReceipt vid canary_worker (py_str (dict_get "attestation_digest" p)) pd cd
      (capability_profile f) (fa_egress_digest f) (fa_binding f) browser (fa_dataset f) (fa_store f) (fa_queue f)
      (fa_queue_http f) (fa_queue_browser f) (fa_queue_dataset f) (fa_queue_store f) ∧ activation_valid a = true.
Proof.
unfold activate. intros Ha. checks Ha. destruct (uuid_of_str _) as [vid|]; [|done]. checks Ha.
destruct (activation_valid _) eqn:Ev; [|done]. injection Ha as <-. subst.
repeat match goal with
| H : Some _ = Some _ |- _ => injection H as <-
| H : as_dict _ = Some _ |- _ => apply as_dict_Some in H
| H : strict_int _ _ = inr (Some _) |- _ => apply strict_int_Some in H as (? & ? & ?)
| H : fingerprint _ = inr _ |- _ => apply fingerprint_inr in H
| u : () |- _ => destruct u
end.
breflect. split; [done|].
match goal with H : admission_facts _ = inr (Some ?g), Hp : canonical_fingerprint (PDict ?p) = Some ?pd,
  Hc : canonical_fingerprint (PDict (canary_constraints _)) = Some ?cd, Hb : activation_browser _ _ = inr (Some ?br) |- _ =>
  pose proof (fo_manifest _ _ (admission_facts_Some _ _ H)) as Hm; exists g, p, br;
  split_and!; [done| |done|done|done| |exists vid, pd, cd; by split_and!] end.
- match goal with H : dict_get "manifest" payload = PDict ?m, Hn : no_secrets ?m = true |- _ => rewrite Hm in H; injection H as <- end. done.
- unfold resources_within, canary_limits. repeat constructor; cbn; by do 2 eexists.
Qed.


(** ** Sealing *)

(** A capability depends on these fields of the payload only. *)
Definition same_work payload payload' : Prop :=
Forall (λ key, dict_find (lit key) payload' = dict_find (lit key) payload)
  ["manifest"; "input_reference"; "work_kind"; "agent_version_id"; "run_id"]%string.
Lemma same_work_put payload payload' key v : key ∉ ["manifest"; "input_reference"; "work_kind"; "agent_version_id"; "run_id"]%string →
same_work payload payload' → same_work payload (put key v payload').
Proof.
unfold same_work. intros Hk Hs. rewrite Forall_forall in Hs |- *. intros x Hx. rewrite <- (Hs x Hx). unfold put.
apply dict_find_set_ne. intros E%lit_inj. by subst.
Qed.
Lemma queue_capability_same payload payload' w a : same_work payload payload' →
queue_capability_of w payload' a = queue_capability_of w payload a.
Proof.
unfold same_work. rewrite !Forall_cons. intros (E1 & E2 & E3 & E4 & E5 & _).
unfold queue_capability_of, queue_capability, canary_access, version_text, is_run_start, field_text, dict_get. by rewrite E1, E2, E3, E4, E5.
Qed.
Lemma input_reference_same payload payload' : same_work payload payload' → input_reference_of payload' = input_reference_of payload.
Proof. unfold same_work. rewrite !Forall_cons. intros (_ & E & _). unfold input_reference_of, dict_get. by rewrite E. Qed.

Lemma plain_queue_capability a w payload qid browser http dataset store :
plain (PDict (queue_capability a w payload qid browser http dataset store)) = true.
Proof.
unfold queue_capability, queue_capability_version. generalize (field_text "run_id" payload), (version_text payload), (wk_name w).
intros run version name. destruct a as [? ? ed ? bd be ? ? [b|]]; cbn [qa_binding qa_egress_digest qa_browser_digest qa_browser_egress_digest];
  destruct ed, bd, be, browser, http, dataset, store; vm_compute; reflexivity.
Qed.
Lemma queue_capability_Some w payload a c : queue_capability_of w payload a = inr (Some c) →
qa_enabled a = true ∧ is_run_start payload = true ∧ (∃ d, c = PDict d ∧ plain (PDict d) = true) ∧
(qa_browser a = true →
  as_str (dict_get "request_queue_browser_egress_policy_digest" (input_reference_of payload)) = qa_browser_egress_digest a).
Proof.
unfold queue_capability_of. intros Hc. check_step Hc. cbv beta in Hc. check_step Hc. cbv beta in Hc. check_step Hc. cbv beta in Hc.
check_step Hc. cbv beta in Hc. check_step Hc. destruct (negb (hashable _)); [done|]. checks Hc.
destruct (expected_queue_receipt _ _ _ _ _ _ _) as [e|[expected|]] eqn:Ee; [done| |done].
destruct (py_eq (PDict _) (PDict expected)); cbn [negb] in Hc; [|done]. checks Hc. injection Hc as <-. unfold canary_access in *. breflect.
repeat match goal with H : as_dict _ = Some _ |- _ => apply as_dict_Some in H end.
split; [done|]. split; [done|]. split.
- eexists. split; [done|]. apply plain_queue_capability.
- intros Hb. unfold input_reference_of.
  match goal with H : dict_get "input_reference" payload = _ |- _ => rewrite H end. cbn [as_dict default id].
  unfold expected_queue_receipt in Ee. match type of Ee with (if ?b then _ else _) = _ => destruct b end.
  + checks Ee. match goal with H : as_str (dict_get "request_queue_browser_egress_policy_digest" _) = _ |- _ => rewrite H end.
    breflect. done.
  + match type of Ee with (if ?b then _ else _) = _ => destruct b end; [checks Ee|check_step Ee]; breflect; congruence.
Qed.

(** The queue arguments an activation seals are those its admission checked. *)
Lemma sealed_args w payload policy a c f : activate w payload policy = inr (Some a) →
admission_facts payload = inr (Some f) → queue_capability_of w payload (queue_args_of f) = inr (Some c) →
sa_request_queue_enabled a = true → sealed_queue_args payload (activation_dump a) = queue_args_of f.
Proof.
intros (_ & f' & p & browser & -> & _ & Hfa & _ & Hbr & _ & vid & pd & cd & _ & _ & -> & _)%activate_Some Hfa' Hc Hq.
rewrite Hfa in Hfa'. injection Hfa' as ->. cbn in Hq. pose proof (admission_facts_Some _ _ Hfa) as Hf.
destruct (activation_browser_Some _ _ _ Hf Hbr) as [Hg Hd]. destruct (queue_capability_Some _ _ _ _ Hc) as (_ & _ & _ & Hbe).
unfold sealed_queue_args, queue_args_of. cbn [qa_browser qa_browser_egress_digest queue_args_of] in *.
change (flag "request_queue_enabled" _) with (fa_queue f). change (flag "request_queue_http_enabled" _) with (fa_queue_http f).
change (flag "request_queue_browser_enabled" _) with (fa_queue_browser f).
change (flag "request_queue_dataset_enabled" _) with (fa_queue_dataset f).
change (flag "request_queue_key_value_store_enabled" _) with (fa_queue_store f).
change (dict_get "egress_policy_digest" _) with (opt_str (fa_egress_digest f)).
change (dict_get "browser_policy_digest" _) with (opt_str browser).
change (dict_get "project_egress_policy_binding_digest" _) with (opt_str (fa_binding f)).
assert (Hopt : ∀ o, as_str (opt_str o) = o) by (by intros []).
pose proof (fo_browser _ _ Hf) as Hfb. pose proof (fo_browser_egress _ _ Hf) as Hfe.
unfold optional_text. rewrite !Hopt, Hq. f_equal.
- destruct (fa_queue_browser f) eqn:Eqb.
  + destruct browser as [d|]; [destruct Hd as [Hb Hd]; rewrite Hb in Hfb; destruct Hfb as (d' & -> & Hd'); congruence|].
    unfold fa_queue_browser in Eqb. rewrite Hd, andb_false_r in Eqb. done.
  + destruct (fa_browser f) eqn:Eb; [|done]. destruct (Hg eq_refl) as (_ & Hw & _).
    unfold fa_queue_browser in Eqb. by rewrite Hq, Hw, Eb in Eqb.
- destruct (fa_queue_browser f) eqn:Eqb; [by apply Hbe|done].
Qed.
Lemma sealed_args_same payload payload' d : same_work payload payload' → sealed_queue_args payload' d = sealed_queue_args payload d.
Proof. intros Hs. unfold sealed_queue_args. by rewrite (input_reference_same _ _ Hs). Qed.

Lemma lift_bind_inr {St A B} (r : exn + A) (k : A → M St B) s b s' : (lift r ≫= k) s = (inr b, s') → ∃ a, r = inr a ∧ k a s = (inr b, s').
Proof. destruct r as [e|a]; [done|eauto]. Qed.

(** C14: What a claim is sealed with is what the later requests of its worker are checked
  against: when a claim is activated with queue access, its payload carries a queue
  capability, and the check of every later queue request under that lease, under the same
  settings, accepts it.  (A run without browser acquisition carries no digest of a browser
  egress policy.) *)
Theorem sealed_queue_access_is_accepted k w payload deadline adm (s s' : db) payload' act l :
seal_payload k w payload deadline adm s = (inr (payload', Some act, true), s') →
flag "request_queue_enabled" (dump_of (Some act)) = true →
(flag "request_queue_browser_enabled" (dump_of (Some act)) = true ∨
 as_str (dict_get "request_queue_browser_egress_policy_digest" (input_reference_of payload)) = None) →
l_work_kind l = RUN_START → l_payload_snapshot l = payload' →
∃ cap, dict_get "request_queue_capability" payload' = PDict cap ∧ worker_queue_access l w = inr cap.
Proof.
intros Hs Hq Hbr Hk Hl. unfold seal_payload in Hs.
apply lift_bind_inr in Hs as (policy & Hpol & Hs). apply lift_bind_inr in Hs as (activation & Hact & Hs). cbv zeta in Hs.
apply lift_bind_inr in Hs as (dataset & _ & Hs). apply lift_bind_inr in Hs as (store & _ & Hs).
apply lift_bind_inr in Hs as (queue & Hqueue & Hs). injection Hs as Hp -> Hen _.
change (sealed_activation w payload policy = inr (Some act)) in Hact. unfold sealed_activation in Hact.
destruct (activate w payload (policy ≫= as_dict)) as [e|[a|]] eqn:Ea; [done| |done]. cbn in Hact. injection Hact as <-.
cbn [dump_of as_dict ac_dump default] in *. unfold id in *.
match type of Hqueue with request_queue_capability _ ?p _ = _ => set (before := p) in *; assert (Hsame : same_work payload before) end.
{ unfold before. repeat (apply same_work_put; [apply (bool_decide_unpack _); vm_compute; exact I|]). by apply Forall_forall. }
change (value_of (queue_capability_of w before (sealed_queue_args before (activation_dump a))) = inr queue) in Hqueue.
rewrite (queue_capability_same _ _ _ _ Hsame), (sealed_args_same _ _ _ Hsame) in Hqueue.
pose proof Ea as (Hgate & f & p & browser & _ & _ & Hfa & Hsu & _)%activate_Some.
destruct (admission_surfaces_Some _ _ _ _ Hsu) as (_ & Hcap & _).
assert (Hfq : fa_queue f = true /\ sa_request_queue_enabled a = true).
{ pose proof Ea as (_ & f' & ? & ? & _ & _ & Hfa' & _ & _ & _ & ? & ? & ? & _ & _ & -> & _)%activate_Some.
  rewrite Hfa in Hfa'. injection Hfa' as <-. by split. }
destruct Hfq as [Hfq Hsq]. destruct (Hcap Hfq) as [c Hc]. pose proof (sealed_args _ _ _ _ _ _ Ea Hfa Hc Hsq) as Hargs.
rewrite Hargs, Hc in Hqueue. cbn in Hqueue. injection Hqueue as <-.
destruct (queue_capability_Some _ _ _ _ Hc) as (_ & _ & (cap & -> & Hplain) & Hbe). exists cap.
assert (Hget : dict_get "request_queue_capability" payload' = PDict cap).
{ rewrite <- Hp. unfold dict_get, put. by rewrite dict_find_set_eq. }
split; [done|]. unfold worker_queue_access. rewrite Hl. cbv zeta.
assert (Hsame' : same_work payload payload').
{ rewrite <- Hp. apply same_work_put; [apply (bool_decide_unpack _); vm_compute; exact I|done]. }
assert (Hdump : dict_get "activation" payload' = PDict (activation_dump a)).
{ rewrite <- Hp. unfold before, dict_get, put. repeat (rewrite dict_find_set_ne by done). by rewrite dict_find_set_eq. }
rewrite Hdump. cbn [as_dict default]. unfold id. rewrite (sealed_args_same _ _ _ Hsame'), Hargs, (input_reference_same _ _ Hsame').
unfold canary_gate in Hgate. breflect. match goal with H : canary_mode = true |- _ => rewrite H end.
assert (as_str (dict_get "request_queue_browser_egress_policy_digest" (input_reference_of payload))
  = qa_browser_egress_digest (queue_args_of f)) as ->.
{ pose proof (f_equal qa_browser Hargs) as Eb. change (flag "request_queue_browser_enabled" (activation_dump a) = fa_queue_browser f) in Eb.
  destruct (fa_queue_browser f) eqn:Eqb; [by apply Hbe|]. destruct Hbr as [Hbr|Hbr]; [congruence|rewrite Hbr].
  pose proof (fo_browser_egress _ _ (admission_facts_Some _ _ Hfa)) as Hd. rewrite Eqb in Hd. done. }
match goal with |- context [queue_capability_of w payload' ?x] => change x with (queue_args_of f) end.
rewrite (queue_capability_same _ _ _ _ Hsame'), Hc. cbn [mbind sum_bind].
rewrite bool_decide_eq_true_2, Hget, py_eq_refl by done. done.
Qed.

End spec.
