(* ===== verification/RunSchemas.v ===== *)
(** Requests that create a run: src/apps/api/app/run_schemas.py.  The records are what
    pydantic parses (types, literals and defaults); [valid_*] are the constraints of the
    fields and the validators, [*_dump] the renderings of [model_dump(mode="json")]. *)

From S2P Require Import Prelude PyVal Json PyUuid QueueProtocol Url Pagination PyEq.

(** [[A-Za-z0-9][A-Za-z0-9._-]{0,63}]. *)
Definition valid_id (id : pystr) : bool :=
  match id with
  | [] => false
  | c :: r => (is_alpha c || is_ascii_digit c) && (length r <=? 63)%nat
              && forallb (λ c, is_alpha c || is_ascii_digit c || bool_decide (c ∈ lit "._-")) r
  end.
Definition MAX_URL : nat := N.to_nat 8192.
(** [https://], with a host and without credentials. *)
Definition valid_url `{UrlTables} (url : pystr) : bool :=
  (9 <=? length url)%nat && (length url <=? MAX_URL)%nat && starts_with (lit "https://") url
  && match urlsplit url with
     | Some p => bool_decide (is_Some (hostname_of (sr_netloc p))) && negb (bool_decide (64%N ∈ sr_netloc p))
     | None => false
     end.
(** [len(json.dumps(v, allow_nan=False, separators=(",", ":")).encode()) <= 65_536]; [dumps]
    escapes what is not ASCII and raises for NaN, infinities and other objects. *)
Definition MAX_DOCUMENT : nat := N.to_nat 65536.
Definition small_json (v : pyval) : bool :=
  match print v with Some t => (length (flat_map ascii_escape t) <=? MAX_DOCUMENT)%nat | None => false end.

(** ** Web fetches *)

Inductive http_method := GET | HEAD.
Definition method_text (m : http_method) : string := match m with GET => "GET" | HEAD => "HEAD" end.
Record WebFetchRequest := MkWebFetch { wf_id : pystr; wf_method : http_method; wf_url : pystr }.
Definition web_fetch_dump (l : list WebFetchRequest) : list (pykey * pyval) :=
  [entry "schema_version" (text "rdc.web-fetch/v1");
   entry "requests" (PList ((λ r, PDict [entry "id" (PStr (wf_id r)); entry "method" (text (method_text (wf_method r)));
     entry "url" (PStr (wf_url r))]) <$> l))].
Definition valid_web_fetch `{UrlTables} (l : list WebFetchRequest) : bool :=
  (1 <=? length l)%nat && (length l <=? 32)%nat && forallb (λ r, valid_id (wf_id r) && valid_url (wf_url r)) l
  && bool_decide (NoDup (wf_id <$> l)) && small_json (PDict (web_fetch_dump l)).

(** ** Browser sessions *)

Inductive wait_until := DOMCONTENTLOADED | LOAD.
Definition wait_text (w : wait_until) : string := match w with DOMCONTENTLOADED => "domcontentloaded" | LOAD => "load" end.
Record BrowserSession := MkBrowser {
  bs_start_url : pystr; bs_wait_until : wait_until; bs_actions : list (pystr * bool) }.
Definition browser_dump (b : BrowserSession) : list (pykey * pyval) :=
  [entry "schema_version" (text "rdc.browser/v1"); entry "start_url" (PStr (bs_start_url b));
   entry "wait_until" (text (wait_text (bs_wait_until b)));
   entry "actions" (PList ((λ a, PDict [entry "id" (PStr a.1); entry "type" (text "snapshot");
     entry "include_html" (PBool a.2)]) <$> bs_actions b))].
Definition valid_browser `{UrlTables} (b : BrowserSession) : bool :=
  valid_url (bs_start_url b) && (1 <=? length (bs_actions b))%nat && (length (bs_actions b) <=? 16)%nat
  && forallb (λ a, valid_id a.1) (bs_actions b) && bool_decide (NoDup (bs_actions b).*1)
  && small_json (PDict (browser_dump b)).

(** ** Browser navigation *)

Inductive step_kind :=
| Goto (url : pystr) (wait : wait_until)
| WaitForSelector (selector : pystr) (visible : bool) (timeout_ms : Z)
| ExtractText (selector : pystr) (max_chars : Z)
| ExtractHtml (selector : pystr) (max_bytes : Z)
| Screenshot.
Record navigation_step := MkStep { st_id : pystr; st_kind : step_kind }.
Definition step_dump (s : navigation_step) : pyval :=
  PDict (entry "id" (PStr (st_id s)) ::
    match st_kind s with
    | Goto url wait => [entry "type" (text "goto"); entry "url" (PStr url); entry "wait_until" (text (wait_text wait))]
    | WaitForSelector sel visible ms =>
        [entry "type" (text "wait_for_selector"); entry "selector" (PStr sel);
         entry "state" (text (if visible then "visible" else "attached")); entry "timeout_ms" (PInt ms)]
    | ExtractText sel n => [entry "type" (text "extract_text"); entry "selector" (PStr sel); entry "max_chars" (PInt n)]
    | ExtractHtml sel n => [entry "type" (text "extract_html"); entry "selector" (PStr sel); entry "max_bytes" (PInt n)]
    | Screenshot => [entry "type" (text "screenshot"); entry "full_page" (PBool false)]
    end).
Definition navigation_dump (l : list navigation_step) : list (pykey * pyval) :=
  [entry "schema_version" (text "rdc.browser/v2"); entry "steps" (PList (step_dump <$> l))].
(** [_validate_browser_navigation_selector], and the length of a selector. *)
Definition valid_selector (s : pystr) : bool :=
  (1 <=? length s)%nat && (length s <=? 512)%nat && forallb (λ c, negb (bool_decide (c ∈ [0; 13; 10]%N))) s.
Definition valid_step `{UrlTables} (s : navigation_step) : bool :=
  valid_id (st_id s) &&
  match st_kind s with
  | Goto url _ => valid_url url
  | WaitForSelector sel _ ms => valid_selector sel && (100 <=? ms) && (ms <=? 15000)
  | ExtractText sel n => valid_selector sel && (1 <=? n) && (n <=? 131072)
  | ExtractHtml sel n => valid_selector sel && (1 <=? n) && (n <=? 4194304)
  | Screenshot => true
  end.
Definition valid_navigation `{UrlTables} (l : list navigation_step) : bool :=
  (1 <=? length l)%nat && (length l <=? 16)%nat && forallb valid_step l
  && match l with MkStep _ (Goto _ _) :: _ => true | _ => false end
  && bool_decide (NoDup (st_id <$> l)) && small_json (PDict (navigation_dump l)).

(** ** The request *)

Record CreateRunRequest := MkCreateRun {
  cr_build_id : uuid;
  cr_input : list (pykey * pyval);
  cr_web_fetch : option (list WebFetchRequest);
  cr_browser : option BrowserSession;
  cr_browser_navigation : option (list navigation_step);
  cr_request_queue : option uuid;
  cr_egress_policy : option uuid;
  cr_memory_mb : option Z;
  cr_cpu_millis : option Z;
  cr_timeout_seconds : option Z }.
Definition request_queue_dump (queue_id : uuid) : list (pykey * pyval) :=
  [entry "schema_version" (text "rdc.run-queue/v1"); entry "queue_id" (PStr (str_of_uuid queue_id))].

Definition opt_ok {A} (p : A → bool) (o : option A) : bool := match o with Some a => p a | None => true end.
Definition reserved_queue_keys : list string :=
  ["_rdc_queue"; "_rdc_queue_http"; "_rdc_queue_browser"; "_rdc_web_requests"; "_rdc_web_fetch_result"].
Definition surface {A} (o : option A) : nat := match o with Some _ => 1 | None => 0 end.
Definition external_surfaces (r : CreateRunRequest) : nat :=
  surface (cr_web_fetch r) + surface (cr_browser r) + surface (cr_browser_navigation r) + surface (cr_request_queue r).
Definition valid_create_run `{UrlTables} (r : CreateRunRequest) : bool :=
  opt_ok valid_web_fetch (cr_web_fetch r) && opt_ok valid_browser (cr_browser r)
  && opt_ok valid_navigation (cr_browser_navigation r)
  && opt_ok (λ n, (128 <=? n) && (n <=? 32768)) (cr_memory_mb r)
  && opt_ok (λ n, (100 <=? n) && (n <=? 16000)) (cr_cpu_millis r)
  && opt_ok (λ n, (1 <=? n) && (n <=? 86400)) (cr_timeout_seconds r)
  && small_json (PDict (cr_input r)) && (external_surfaces r <=? 1)%nat
  && (negb (bool_decide (is_Some (cr_egress_policy r))) || (external_surfaces r =? 1)%nat)
  && (negb (bool_decide (is_Some (cr_request_queue r)))
      || forallb (λ k, negb (has_key k (cr_input r))) reserved_queue_keys).
