(* ===== verification/RunCreation.v ===== *)
(** Creating a run: [create_run] of src/apps/api/app/services/runs.py.  The build, the limits
    of the manifest, the egress policy, the queue and the browser intent of the request are
    checked; what was decided is written into the run as receipts, and the run is queued
    unless one of its surfaces is not live.

    The state is that of the services the function calls: the execution plane, whose tables
    hold the run, the egress policies, the events and the request queues of the project. *)

From S2P Require Import Prelude PyVal Json PyUuid PyTime QueueProtocol EventProtocol Idempotency Url.
From S2P Require Import Recovery Pagination RunEvents EgressProtocol EgressPolicies Webhooks ExecutionPlane.
From S2P Require Import PyEq KvWorkerProtocol Canary Admission RunSchemas.

(** ** State *)

Record db := MkDb {
  plane : ExecutionPlane.db;
  egress : EgressPolicies.db;
  hooks : Webhooks.db;
  (** [RequestQueue]: the project a queue belongs to. *)
  queues : gmap uuid tenant }.
#[export] Instance eta_db : Eta db := λ s, MkDb (plane s) (egress s) (hooks s) (queues s).

(** A call into one of the services. *)
Definition on_plane {A} (m : Prelude.M ExecutionPlane.db A) : Prelude.M db A := λ s,
  let '(r, p) := m (plane s) in (r, s <| plane := p |>).
Definition on_hooks {A} (m : Prelude.M Webhooks.db A) : Prelude.M db A := λ s,
  let '(r, h) := m (hooks s) in (r, s <| hooks := h |>).

(** The row of the agent version the route has loaded. *)
Record VersionRow := MkVersion {
  vr_organization_id : uuid; vr_project_id : uuid; vr_agent_id : uuid; vr_manifest : list (pykey * pyval) }.

Section ops.
Context `{Entropy, Sha256, CaseFold, PyRepr, FloatCompare, UrlTables, Idna, UpperCase, UnicodeDecimal, PyFloats, UnicodeAlnum}.
Context `{IsoForms, Settings, !CanarySettings, HmacSha256, TokenSource, Tokens}.
Abbreviation M := (Prelude.M db).

(** ** Limits *)

(** [_runtime_configuration]: the limits asked for, at most those of the manifest. *)
Definition runtime_limit (maximum : Z) (requested : option Z) : exn + Z :=
let value := default maximum requested in
if maximum <? value then inl (ApiError 422 "RUNTIME_LIMIT_EXCEEDED") else inr value.
Record runtime_configuration := MkRuntimeConfiguration { rc_memory_mb : Z; rc_cpu_millis : Z; rc_timeout_seconds : Z }.
Definition runtime_of (manifest : list (pykey * pyval)) (q : CreateRunRequest) : exn + runtime_configuration :=
max_memory ← manifest_resource manifest "memoryMb";
max_cpu ← manifest_resource manifest "cpuUnits";
max_timeout ← manifest_resource manifest "timeoutSeconds";
memory ← runtime_limit max_memory (cr_memory_mb q);
cpu ← runtime_limit max_cpu (cr_cpu_millis q);
timeout ← runtime_limit max_timeout (cr_timeout_seconds q);
inr (MkRuntimeConfiguration memory cpu timeout).
Definition runtime_dump (c : runtime_configuration) : list (pykey * pyval) :=
[entry "memory_mb" (PInt (rc_memory_mb c)); entry "cpu_millis" (PInt (rc_cpu_millis c));
 entry "timeout_seconds" (PInt (rc_timeout_seconds c))].

(** ** The project egress policy *)

Definition active_revision_invalid : exn := ApiError 409 "EGRESS_POLICY_ACTIVE_REVISION_INVALID".
Definition binding_receipt (policy_id revision_id : uuid) (r : EgressPolicies.EgressPolicyRevision) (runtime_digest : pystr)
  : list (pykey * pyval) :=
[entry "schema_version" (text "rdc.run-egress-policy-receipt/v1"); entry "policy_id" (PStr (str_of_uuid policy_id));
 entry "revision_id" (PStr (str_of_uuid revision_id)); entry "revision_number" (PInt (gr_revision_number r));
 entry "policy_digest" (PStr (gr_policy_digest r)); entry "runtime_policy_digest" (PStr runtime_digest);
 entry "credential_configured" (PBool (bool_decide (is_Some (gr_credential_secret_id r))))].
(** The policy a run is bound to, its document and its receipt. *)
Record run_policy := MkRunPolicy {
  rpo_policy : runtime_policy; rpo_receipt : list (pykey * pyval); rpo_binding : pystr }.
Definition rpo_document (p : run_policy) : list (pykey * pyval) := runtime_policy_payload (rpo_policy p).

(** [_resolve_run_egress_policy] of the tables. *)
Definition resolve_run_egress_policy (s : EgressPolicies.db) (policy_id organization_id project_id : uuid) : exn + run_policy :=
match EgressPolicies.policies s !! policy_id with
| None => inl not_found
| Some p =>
    if negb (bool_decide (gp_organization_id p = organization_id) && bool_decide (gp_project_id p = project_id)
             && bool_decide (gp_status p = "ACTIVE"%string))
    then inl not_found
    else match gp_active_revision_id p with
    | None => inl not_found
    | Some rid =>
        match EgressPolicies.revisions s !! rid with
        | None => inl active_revision_invalid
        | Some r =>
            if negb (bool_decide (gr_policy_id r = policy_id) && bool_decide (gr_organization_id r = organization_id)
                     && bool_decide (gr_project_id r = project_id))
            then inl active_revision_invalid
            else match validate_egress_policy (gr_allowed_hosts r) (gr_allowed_methods r) (gr_limits r) with
            | inl (ValueError _) => inl active_revision_invalid
            | inl e => inl e
            | inr v =>
                if negb (bool_decide (vp_policy_digest v = gr_policy_digest r)) then inl active_revision_invalid
                else if negb (revision_within_canary_ceiling v)
                then inl (ApiError 409 "EGRESS_POLICY_EXCEEDS_CANARY_CEILING")
                else
                  runtime_digest ← fingerprint (PDict (runtime_policy_payload (revision_policy v)));
                  let receipt := binding_receipt policy_id rid r runtime_digest in
                  binding ← fingerprint (PDict receipt);
                  inr (MkRunPolicy (revision_policy v) (receipt ++ [entry "binding_digest" (PStr binding)]) binding)
            end
        end
    end
end.

(** [_validate_bound_egress_intent]: the methods and hosts of the request are the policy's. *)
Definition intent_methods (q : CreateRunRequest) : list pystr :=
match cr_web_fetch q, cr_browser q, cr_browser_navigation q, cr_request_queue q with
| Some l, _, _, _ => (λ r, lit (method_text (wf_method r))) <$> l
| None, None, None, None => []
| _, _, _, _ => [lit "GET"]
end.
Definition goto_urls (l : list navigation_step) : list pystr :=
omap (λ s, match st_kind s with Goto url _ => Some url | _ => None end) l.
Definition intent_urls (q : CreateRunRequest) : list pystr :=
match cr_web_fetch q, cr_browser q, cr_browser_navigation q with
| Some l, _, _ => wf_url <$> l
| None, Some b, _ => [bs_start_url b]
| None, None, Some l => goto_urls l
| None, None, None => []
end.
Definition target_host (url : pystr) : option pystr :=
p ← urlsplit url;
h ← hostname_of (sr_netloc p);
idna_encode (casefold (rstrip (lit ".") (py_strip h))).
Definition intent_denied : exn := ApiError 422 "EGRESS_POLICY_INTENT_DENIED".
Definition validate_bound_egress_intent (q : CreateRunRequest) (p : runtime_policy) : exn + () :=
match mapM target_host (intent_urls q) with
| None => inl intent_denied
| Some targets =>
    if bool_decide (intent_methods q ⊆ rp_methods p) && bool_decide (targets ⊆ rp_hosts p) then inr () else inl intent_denied
end.
Definition project_policy (s : EgressPolicies.db) (v : VersionRow) (q : CreateRunRequest) : exn + option run_policy :=
match cr_egress_policy q with
| None => inr None
| Some policy_id =>
    network ← manifest_network (vr_manifest v);
    if negb (bool_decide (network = "web-egress"%string)) then inl (ApiError 422 "EGRESS_POLICY_CAPABILITY_REQUIRED") else
    p ← resolve_run_egress_policy s policy_id (vr_organization_id v) (vr_project_id v);
    _ ← validate_bound_egress_intent q (rpo_policy p);
    inr (Some p)
end.

(** ** The queue a run is bound to *)

(** What is decided for a queue-bound run: its receipts, the policies of its acquisition
  mode with their digests, and whether each surface is live. *)
Record queue_intent := MkQueueIntent {
  qi_binding : pystr;
  qi_receipt : list (pykey * pyval);
  qi_egress : option (list (pykey * pyval) * pystr);
  qi_browser : option ((list (pykey * pyval) * pystr) * (list (pykey * pyval) * pystr));
  qi_dataset : option (list (pykey * pyval) * bool);
  qi_store : option (list (pykey * pyval) * bool);
  qi_http_live : bool;
  qi_browser_live : bool }.

Definition queue_capability_required : exn := ApiError 422 "REQUEST_QUEUE_CAPABILITY_REQUIRED".
(** The capabilities of the manifest: network access, browser, dataset, key-value store. *)
Definition queue_capabilities (manifest : list (pykey * pyval)) : exn + (bool * bool * bool * bool) :=
match dict_get "capabilities" manifest with
| PDict c =>
    if negb (is_true (dict_get "requestQueue" c)) then inl queue_capability_required
    else if negb (hashable (dict_get "network" c)) then inl (TypeError "unhashable type")
    else match known_network (dict_get "network" c), dict_get "browser" c, dict_get "dataset" c, dict_get "keyValueStore" c with
    | Some network, PBool browser, PBool dataset, PBool store =>
        let web := bool_decide (network = "web-egress"%string) in
        if (browser && negb web) || (dataset && store) then inl queue_capability_required
        else inr (web, browser, dataset, store)
    | _, _, _, _ => inl queue_capability_required
    end
| _ => inl queue_capability_required
end.
Definition with_digest (d : list (pykey * pyval)) : exn + (list (pykey * pyval) * pystr) :=
digest ← fingerprint (PDict d);
inr (d, digest).
Definition when {A} (b : bool) (m : exn + A) : exn + option A := if b then a ← m; inr (Some a) else inr None.
(** The digest of the read request in the input of a run with a key-value store. *)
Definition input_read_digest (q : CreateRunRequest) : exn + option pystr :=
match read_digest (dict_get "_rdc_kv_read" (cr_input q)) with
| Some d => inr d
| None => inl (ApiError 422 "KV_WORKER_READ_PROTOCOL_INVALID")
end.

Definition queue_intent_of (queues : gmap uuid tenant) (vid : uuid) (v : VersionRow) (q : CreateRunRequest)
  (policy : option run_policy) (queue_id : uuid) : exn + queue_intent :=
match queue_capabilities (vr_manifest v) with
| inl e => inl e
| inr (web, browser, dataset, store) =>
if negb (bool_decide (queues !! queue_id = Some (MkTenant (vr_organization_id v) (vr_project_id v)))) then inl not_found else
let qid := str_of_uuid queue_id in
let version_id := str_of_uuid vid in
let effective := match policy with Some p => rpo_document p | None => runtime_policy_payload ceiling end in
binding ← fingerprint (PDict (request_queue_dump queue_id));
browser_policies ← when browser
  (policy ← with_digest browser_policy_payload;
   egress ← with_digest (browser_egress_policy_payload effective);
   inr (policy, egress));
egress ← when (web && negb browser) (with_digest effective);
let mode_live := if browser then request_queue_browser_canary_enabled vid (vr_manifest v)
                 else request_queue_http_canary_enabled vid (vr_manifest v) in
let receipt live := match browser_policies, egress with
  | Some ((_, bd), (_, ed)), _ => queue_receipt_browser binding qid version_id bd ed live
  | None, Some (_, d) => queue_receipt_http binding qid version_id d live
  | None, None => queue_receipt_plain binding qid version_id
  end in
(** A dataset or a key-value store must be live too. *)
let dataset_live := request_queue_dataset_canary_enabled vid (vr_manifest v) in
let store_live := request_queue_key_value_store_canary_enabled vid (vr_manifest v) in
let live := mode_live && (negb dataset || dataset_live) && (negb store || store_live) in
let receipt := receipt live in
dataset_receipt ← when dataset
  (d ← fingerprint (PDict receipt);
   let dispatch := dataset_live && (negb web || live) in
   inr (dataset_receipt qid version_id d dispatch, dispatch));
store_receipt ← when store
  (read ← input_read_digest q;
   d ← fingerprint (PDict receipt);
   let dispatch := store_live && (negb web || live) in
   inr (store_receipt qid version_id d read dispatch, dispatch));
inr (MkQueueIntent binding receipt egress browser_policies dataset_receipt store_receipt
       (web && negb browser && live) (browser && live))
end.

(** ** The browser *)

(** What is decided for a browser run: its policy; for a navigation also the egress policy of
  the browser, the receipt and whether navigation is live. *)
Record browser_intent := MkBrowserIntent {
  bi_policy : list (pykey * pyval) * pystr;
  bi_navigation : option ((list (pykey * pyval) * pystr) * (list (pykey * pyval) * pystr) * bool) }.

Definition navigation_rejected : exn := ApiError 422 "BROWSER_NAVIGATION_POLICY_REJECTED".
Definition host_rejected : exn := ApiError 422 "BROWSER_NAVIGATION_HOST_REJECTED".
(** [_normalize_browser_navigation_hostname]. *)
Definition navigation_hostname (value : pystr) : exn + pystr :=
match exact_hostname false value with Some h => inr h | None => inl host_rejected end.
Fixpoint navigation_hostnames (l : list pystr) : exn + list pystr :=
match l with
| [] => inr []
| value :: l => h ← navigation_hostname value; hs ← navigation_hostnames l; inr (h :: hs)
end.
Fixpoint check_steps (allowed_hosts : list pystr) (steps : list navigation_step) : exn + () :=
match steps with
| [] => inr ()
| s :: steps =>
    _ ← match st_kind s with
        | Goto url _ =>
            match urlsplit url with
            | None => inl (ValueError "urlsplit")
            | Some p =>
                match hostname_of (sr_netloc p) with
                | None => inl navigation_rejected
                | Some h =>
                    hostname ← navigation_hostname h;
                    if bool_decide (hostname ∈ allowed_hosts) then inr ()
                    else inl (ApiError 422 "BROWSER_NAVIGATION_HOST_NOT_ALLOWED")
                end
            end
        | WaitForSelector _ _ ms =>
            if cs_navigation_timeout_seconds canary * 1000 <? ms then inl navigation_rejected else inr ()
        | ExtractHtml _ n => if cs_browser_max_dom_bytes canary <? n then inl navigation_rejected else inr ()
        | _ => inr ()
        end;
    check_steps allowed_hosts steps
end.
(** [_browser_navigation_receipt]. *)
Definition browser_navigation_receipt (steps : list navigation_step) (policy_digest egress_digest : pystr) (enabled : bool)
  : exn + list (pykey * pyval) :=
if bool_decide (cs_allowed_hosts canary = []) then inl (ApiError 409 "BROWSER_NAVIGATION_POLICY_UNAVAILABLE") else
allowed_hosts ← navigation_hostnames (merge_sort str_le (cs_allowed_hosts canary));
if negb (between 1 (Z.of_nat (length steps)) (cs_browser_max_actions canary)) then inl navigation_rejected else
_ ← check_steps allowed_hosts steps;
if negb (between 1 (Z.of_nat (length (goto_urls steps))) (cs_browser_max_pages canary)) then inl navigation_rejected else
digest ← fingerprint (PDict (navigation_dump steps));
inr (navigation_receipt digest policy_digest egress_digest enabled).

Definition browser_intent_of (vid : uuid) (v : VersionRow) (q : CreateRunRequest) (policy : option run_policy)
  : exn + option browser_intent :=
match cr_browser q, cr_browser_navigation q with
| None, None => inr None
| _, navigation =>
    network ← manifest_network (vr_manifest v);
    if negb (bool_decide (network = "web-egress"%string)) then inl (ApiError 422 "BROWSER_NETWORK_CAPABILITY_REQUIRED") else
    browser ← manifest_browser (vr_manifest v);
    if negb browser then inl (ApiError 422 "BROWSER_CAPABILITY_REQUIRED") else
    browser_policy ← with_digest browser_policy_payload;
    match navigation with
    | None => inr (Some (MkBrowserIntent browser_policy None))
    | Some steps =>
        let live := browser_navigation_live_canary_enabled vid (vr_manifest v) in
        egress ← with_digest (browser_egress_policy_payload
          match policy with Some p => rpo_document p | None => runtime_policy_payload ceiling end);
        receipt ← browser_navigation_receipt steps browser_policy.2 egress.2 live;
        request_digest ← fingerprint (PDict (navigation_dump steps));
        inr (Some (MkBrowserIntent browser_policy (Some (egress, (receipt, request_digest), live))))
    end
end.

(** ** The run *)

(** Everything [create_run] decides before it writes. *)
Record run_plan := MkPlan {
  pl_build_id : uuid;
  pl_runtime : runtime_configuration;
  pl_policy : option run_policy;
  pl_queue : option queue_intent;
  pl_browser : option browser_intent }.

Definition opt_doc (o : option (list (pykey * pyval))) : pyval := match o with Some d => PDict d | None => PNone end.
Definition navigation_of (p : run_plan) := pl_browser p ≫= bi_navigation.
(** The fingerprint of the request: what was asked for and what was decided. *)
Definition plan_document (vid : uuid) (q : CreateRunRequest) (p : run_plan) : pyval :=
PDict [entry "agent_version_id" (PStr (str_of_uuid vid)); entry "build_id" (PStr (str_of_uuid (pl_build_id p)));
  entry "input" (PDict (cr_input q)); entry "web_fetch" (opt_doc (web_fetch_dump <$> cr_web_fetch q));
  entry "browser" (opt_doc (browser_dump <$> cr_browser q));
  entry "browser_navigation" (opt_doc (navigation_dump <$> cr_browser_navigation q));
  entry "browser_navigation_receipt" (opt_doc ((λ n, n.1.2.1) <$> navigation_of p));
  entry "browser_policy_digest" (opt_str ((λ b, (bi_policy b).2) <$> pl_browser p));
  entry "browser_egress_policy_digest" (opt_str ((λ n, n.1.1.2) <$> navigation_of p));
  entry "request_queue" (opt_doc (request_queue_dump <$> cr_request_queue q));
  entry "queue_binding_receipt" (opt_doc (qi_receipt <$> pl_queue p));
  entry "request_queue_egress_policy_digest" (opt_str (snd <$> (pl_queue p ≫= qi_egress)));
  entry "request_queue_browser_policy_digest" (opt_str ((λ b, b.1.2) <$> (pl_queue p ≫= qi_browser)));
  entry "request_queue_browser_egress_policy_digest" (opt_str ((λ b, b.2.2) <$> (pl_queue p ≫= qi_browser)));
  entry "request_queue_dataset_receipt" (opt_doc (fst <$> (pl_queue p ≫= qi_dataset)));
  entry "request_queue_key_value_store_receipt" (opt_doc (fst <$> (pl_queue p ≫= qi_store)));
  entry "project_egress_policy_receipt" (opt_doc (rpo_receipt <$> pl_policy p));
  entry "runtime" (PDict (runtime_dump (pl_runtime p)))].

(** What the run keeps of it. *)
Definition input_reference (q : CreateRunRequest) (p : run_plan) : list (pykey * pyval) :=
[entry "kind" (text "inline"); entry "value" (PDict (cr_input q))]
++ match pl_policy p with
   | Some b => [entry "project_egress_policy" (PDict (rpo_document b));
                entry "project_egress_policy_receipt" (PDict (rpo_receipt b))]
   | None => []
   end
++ match cr_web_fetch q with Some l => [entry "web_fetch" (PDict (web_fetch_dump l))] | None => [] end
++ match cr_browser q, pl_browser p with
   | Some b, Some i => [entry "browser" (PDict (browser_dump b)); entry "browser_policy" (PDict (bi_policy i).1);
                        entry "browser_policy_digest" (PStr (bi_policy i).2)]
   | _, _ => []
   end
++ match cr_browser_navigation q, pl_browser p, navigation_of p with
   | Some l, Some i, Some ((egress, digest), (receipt, _), _) =>
       [entry "browser_navigation" (PDict (navigation_dump l)); entry "browser_navigation_receipt" (PDict receipt);
        entry "browser_policy" (PDict (bi_policy i).1); entry "browser_policy_digest" (PStr (bi_policy i).2);
        entry "browser_egress_policy" (PDict egress); entry "browser_egress_policy_digest" (PStr digest)]
   | _, _, _ => []
   end
++ match cr_request_queue q, pl_queue p with
   | Some id, Some i =>
       [entry "request_queue" (PDict (request_queue_dump id)); entry "queue_binding_receipt" (PDict (qi_receipt i))]
       ++ match qi_dataset i with Some (r, _) => [entry "request_queue_dataset_receipt" (PDict r)] | None => [] end
       ++ match qi_store i with Some (r, _) => [entry "request_queue_key_value_store_receipt" (PDict r)] | None => [] end
       ++ match qi_egress i with
          | Some (d, digest) => [entry "request_queue_egress_policy" (PDict d);
                                 entry "request_queue_egress_policy_digest" (PStr digest)]
          | None => []
          end
       ++ match qi_browser i with
          | Some ((policy, pd), (egress, ed)) =>
              [entry "request_queue_browser_policy" (PDict policy); entry "request_queue_browser_policy_digest" (PStr pd);
               entry "request_queue_browser_egress_policy" (PDict egress);
               entry "request_queue_browser_egress_policy_digest" (PStr ed)]
          | None => []
          end
   | _, _ => []
   end.

(** Surfaces that only record an intent. *)
Definition navigation_receipt_only (p : run_plan) : bool := match navigation_of p with Some n => negb n.2 | None => false end.
Definition queue_http_receipt_only (p : run_plan) : bool :=
match pl_queue p with Some i => bool_decide (is_Some (qi_egress i)) && negb (qi_http_live i) | None => false end.
Definition queue_browser_receipt_only (p : run_plan) : bool :=
match pl_queue p with Some i => bool_decide (is_Some (qi_browser i)) && negb (qi_browser_live i) | None => false end.
Definition queue_dataset_receipt_only (p : run_plan) : bool :=
match pl_queue p ≫= qi_dataset with Some (_, dispatch) => negb dispatch | None => false end.
Definition queue_store_receipt_only (p : run_plan) : bool :=
match pl_queue p ≫= qi_store with Some (_, dispatch) => negb dispatch | None => false end.
Definition receipt_only (p : run_plan) : bool :=
navigation_receipt_only p || queue_http_receipt_only p || queue_browser_receipt_only p || queue_dataset_receipt_only p
|| queue_store_receipt_only p.
Definition audit_action (p : run_plan) : string :=
if navigation_receipt_only p then "run.browser_navigation_intent_recorded"
else if queue_dataset_receipt_only p then "run.request_queue_dataset_intent_recorded"
else if queue_store_receipt_only p then "run.request_queue_key_value_store_intent_recorded"
else if queue_http_receipt_only p then "run.request_queue_http_intent_recorded"
else if queue_browser_receipt_only p then "run.request_queue_browser_intent_recorded"
else "run.queued".

Definition opt_detail (o : option pystr) : detail := match o with Some d => DText d | None => DNone end.
(** The digests of the receipts of the composed surfaces, for the audit row. *)
Definition audit_digests (p : run_plan) : exn + (option pystr * option pystr) :=
dataset ← match pl_queue p ≫= qi_dataset with Some (r, _) => d ← fingerprint (PDict r); inr (Some d) | None => inr None end;
store ← match pl_queue p ≫= qi_store with Some (r, _) => d ← fingerprint (PDict r); inr (Some d) | None => inr None end;
inr (dataset, store).
Definition audit_details (v : VersionRow) (vid : uuid) (q : CreateRunRequest) (p : run_plan) (digests : option pystr * option pystr)
  : list (string * detail) :=
[("agent_id"%string, DUuid (vr_agent_id v)); ("agent_version_id"%string, DUuid vid); ("build_id"%string, DUuid (pl_build_id p));
 ("memory_mb"%string, DInt (rc_memory_mb (pl_runtime p))); ("cpu_millis"%string, DInt (rc_cpu_millis (pl_runtime p)));
 ("timeout_seconds"%string, DInt (rc_timeout_seconds (pl_runtime p)));
 ("browser_navigation_request_digest"%string, opt_detail ((λ n, n.1.2.2) <$> navigation_of p));
 ("browser_navigation_dispatch_enabled"%string, DBool (match navigation_of p with Some n => n.2 | None => false end));
 ("browser_egress_policy_digest"%string, opt_detail ((λ n, n.1.1.2) <$> navigation_of p));
 ("browser_egress_transport_wired"%string, DBool true);
 ("request_queue_id"%string, match cr_request_queue q with Some id => DUuid id | None => DNone end);
 ("request_queue_binding_digest"%string, opt_detail (qi_binding <$> pl_queue p));
 ("request_queue_http_dispatch_enabled"%string, DBool (match pl_queue p with Some i => qi_http_live i | None => false end));
 ("request_queue_browser_dispatch_enabled"%string, DBool (match pl_queue p with Some i => qi_browser_live i | None => false end));
 ("request_queue_dataset_dispatch_enabled"%string, DBool (match pl_queue p ≫= qi_dataset with Some (_, b) => b | None => false end));
 ("request_queue_dataset_receipt_digest"%string, opt_detail digests.1);
 ("request_queue_key_value_store_dispatch_enabled"%string,
   DBool (match pl_queue p ≫= qi_store with Some (_, b) => b | None => false end));
 ("request_queue_key_value_store_receipt_digest"%string, opt_detail digests.2);
 ("request_queue_egress_policy_digest"%string, opt_detail (snd <$> (pl_queue p ≫= qi_egress)));
 ("request_queue_browser_policy_digest"%string, opt_detail ((λ b, b.1.2) <$> (pl_queue p ≫= qi_browser)));
 ("request_queue_browser_egress_policy_digest"%string, opt_detail ((λ b, b.2.2) <$> (pl_queue p ≫= qi_browser)));
 ("project_egress_policy_binding_digest"%string, opt_detail (rpo_binding <$> pl_policy p))].

(** The checks of [create_run], in their order. *)
Definition plan_run (s : db) (vid : uuid) (v : VersionRow) (q : CreateRunRequest) : exn + run_plan :=
match builds (plane s) !! cr_build_id q with
| None => inl not_found
| Some b =>
    if negb (bool_decide (b_organization_id b = vr_organization_id v) && bool_decide (b_project_id b = vr_project_id v)
             && bool_decide (b_agent_id b = vr_agent_id v) && bool_decide (b_agent_version_id b = vid))
    then inl not_found
    else if negb (bool_decide (b_status b = BuildStatus.SUCCEEDED)) || bool_decide (b_artifact_digest b = None)
    then inl (ApiError 409 "BUILD_NOT_READY")
    else
      runtime ← runtime_of (vr_manifest v) q;
      policy ← project_policy (egress s) v q;
      _ ← match cr_web_fetch q with
          | None => inr ()
          | Some _ =>
              network ← manifest_network (vr_manifest v);
              if bool_decide (network = "web-egress"%string) then inr () else inl (ApiError 422 "WEB_FETCH_CAPABILITY_REQUIRED")
          end;
      queue ← match cr_request_queue q with
              | None => inr None
              | Some id => i ← queue_intent_of (queues s) vid v q policy id; inr (Some i)
              end;
      browser ← browser_intent_of vid v q policy;
      inr (MkPlan (cr_build_id q) runtime policy queue browser)
end.

Definition create_run_endpoint : string := "POST:/api/v1/agent-versions/{version_id}/runs".

(** The response is kept as the row it renders. *)
Definition create_run (vid : uuid) (v : VersionRow) (user_id : uuid) (idempotency_key : pystr) (q : CreateRunRequest)
  (request_id actor_type : string) (actor_id : pystr) (now : time) : M (uuid * Run) :=
raise_if (negb (valid_idempotency_key idempotency_key)) (ApiError 400 "INVALID_REQUEST") ;;
s ← gets (λ s, s);
p ← lift (plan_run s vid v q);
request_fingerprint ← lift (fingerprint (plan_document vid q p));
encoded ← get_or_raise (utf8_encode idempotency_key) UnicodeEncodeError;
let key_digest := sha256_hex encoded in
records ← gets (λ s, idempotency (plane s));
existing ← lift (replay_of (vr_organization_id v) (str_of_uuid user_id) create_run_endpoint key_digest request_fingerprint records);
match existing with
| Some snapshot => mret snapshot
| None =>
    rid ← on_plane (queue_run (vr_organization_id v) (vr_project_id v) (vr_agent_id v) vid (pl_build_id p) user_id
            (input_reference q p) (runtime_dump (pl_runtime p)) (receipt_only p) now);
    row ← gets (λ s, runs (plane s) !! rid);
    r ← get_or_raise row not_found;
    on_hooks (emit_event now (vr_organization_id v) (vr_project_id v) "run.created" "run" rid
      [entry "agent_id" (PStr (str_of_uuid (vr_agent_id v))); entry "agent_version_id" (PStr (str_of_uuid vid));
       entry "build_id" (PStr (str_of_uuid (pl_build_id p))); entry "status" (status_value (rn_status r))]
      (lit request_id) false) ;;
    on_plane (modify (λ s, s <| idempotency ::= λ l, l ++
      [MkIdempotency (vr_organization_id v) (str_of_uuid user_id) create_run_endpoint key_digest request_fingerprint
         "run" rid (Some 202) (Some (rid, r)) now (now + seconds (24 * 3600))] |>)) ;;
    digests ← lift (audit_digests p);
    on_plane (append_audit_event (MkAudit (Some (vr_organization_id v)) (Some (vr_project_id v)) actor_type
      (if bool_decide (actor_id = []) then str_of_uuid user_id else actor_id) (audit_action p) "run" (Some rid) request_id
      (audit_details v vid q p digests))) ;;
    mret (rid, r)
end.
End ops.
