(* ===== verification/RunCreationSpec.v ===== *)
(** What creating a run guarantees: a run bound to an egress policy stays within it and
    within the operator's ceiling, and admission accepts the receipts it was given; its limits
    are within the manifest; it is queued exactly when its surfaces are live; the services
    keep their invariants; repeating the request returns the same run. *)

From S2P Require Import Prelude PyVal Json PyUuid PyTime QueueProtocol EventProtocol Idempotency Url.
From S2P Require Import Recovery Pagination RunEvents EgressProtocol EgressPolicies EgressPoliciesSpec.
From S2P Require Import Webhooks WebhooksSpec ExecutionPlane LeaseProtocol ExecutionSteps ExecutionOps ExecutionSpec.
From S2P Require Import PyEq KvWorkerProtocol Canary Admission AdmissionSpec RunSchemas RunCreation.

Section hosts.
Context `{CaseFold, UrlTables, Idna, UnicodeDecimal, Settings, !HostTables}.

Lemma label_ok_char l c : label_ok l = true → c ∈ l → is_alnum c || (c =? 45)%N = true.
Proof.
unfold label_ok. intros Hl Hc. apply andb_prop in Hl as [_ Hl]. rewrite forallb_forall in Hl. apply Hl. by apply list_elem_of_In.
Qed.
(** The hosts of validated settings are their own normal form. *)
Lemma exact_hostname_folds b v h : exact_hostname b v = Some h → casefold (rstrip (lit ".") (py_strip h)) = h.
Proof.
unfold exact_hostname. set (candidate := casefold _). destruct (_ || _); [done|]. case_bool_decide; [done|].
destruct (idna_encode candidate) as [n|] eqn:Ei; cbn; [|done]. destruct (_ || _ || _ || _) eqn:Ec; [done|]. intros [= ->]. breflect.
assert (Hlow : Forall (λ c, (c < 128)%N ∧ ascii_lower c = c) h).
{ unfold idna_encode in Ei. pose proof (casefold_lower (rstrip (lit ".") (py_strip v))) as Hl. fold candidate in Hl.
  destruct (forallb (λ c, c <? 128)%N candidate) eqn:Ea.
  - destruct (_ || _) in Ei; [|done]. injection Ei as <-. rewrite forallb_forall in Ea. rewrite !Forall_forall in *.
    intros c Hc. split; [|by apply Hl]. by apply N.ltb_lt, Ea, list_elem_of_In.
  - by apply (idna_other_ascii candidate). }
match goal with H : forallb label_ok _ = true |- _ => rewrite forallb_forall in H; rename H into Hlab end.
assert (Hch : Forall (λ c, host_char c = true) h).
{ apply Forall_forall. intros c Hc. destruct (decide (c = 46%N)) as [->|Hne]; [done|].
  destruct (elem_of_split 46 h c Hc Hne) as (l & Hl & Hcl). specialize (Hlab l (proj1 (list_elem_of_In _ _) Hl)).
  pose proof (label_ok_char _ _ Hlab Hcl) as Hlc. clear Hlab.
  rewrite Forall_forall in Hlow. destruct (Hlow c Hc) as [_ Hlo]. unfold host_char, EgressProtocol.lower_alnum, is_alnum, is_alpha, ascii_lower in *.
  destruct ((65 <=? c) && (c <=? 90))%N eqn:Eu; [lia|]. cbn in Hlc.
  by repeat (apply orb_prop in Hlc as [Hlc|Hlc]; rewrite ?Hlc, ?orb_true_r). }
pose proof (Forall_host_char _ _ Hch host_char_lower) as Hall.
unfold py_strip. rewrite strip_id by (eapply Forall_impl; [exact Hall|]; naive_solver).
destruct (split_last 46 h) as [p Hp].
assert (Hlast : label_ok (List.last (split_on 46 h) []) = true).
{ apply Hlab, list_elem_of_In, elem_of_last, split_on_nonempty. }
match goal with |- context [rstrip ?d h] => change d with [46%N] end. assert (rstrip [46%N] h = h) as ->.
{ rewrite Hp. apply (rstrip_id _ _ _ 0%N).
  - unfold label_ok in Hlast. apply andb_prop in Hlast as [Hlast _]. repeat apply andb_prop in Hlast as [Hlast _]. by breflect.
  - intros Hdot%list_elem_of_singleton. pose proof (label_ok_char _ 46%N Hlast) as Hbad.
    assert (List.last (split_on 46 h) [] ≠ []) as Hlne by (intros E; by rewrite E in Hdot).
    pose proof (elem_of_last _ 0%N Hlne) as Hin. rewrite Hdot in Hin. by specialize (Hbad Hin). }
rewrite casefold_ascii by (eapply Forall_impl; [exact Hall|]; naive_solver).
apply map_id_Forall. eapply Forall_impl; [exact Hall|]. naive_solver.
Qed.
Lemma validated_hosts raw c h : validate_canary raw = inr c → h ∈ cs_allowed_hosts c → ∃ v, exact_hostname true v = Some h.
Proof.
unfold validate_canary. destruct (_ || _); [done|]. destruct (mapM _ _) as [l|] eqn:Em; [|done].
destruct (_ && _); [|done]. intros [= <-]. cbn. rewrite elem_of_sorted_set. intros Hh.
apply mapM_Some in Em. apply list_elem_of_lookup in Hh as [i Hi].
destruct (Forall2_lookup_r _ _ _ _ _ Em Hi) as (v & _ & Hv). by exists v.
Qed.
End hosts.

Lemma filter_all {A} (P : A → Prop) `{∀ x, Decision (P x)} l : Forall P l → base.filter P l = l.
Proof. induction 1 as [|x l Hx _ IH]; [done|]. rewrite filter_cons_True by done. by rewrite IH. Qed.

Section binding.
Context `{Entropy, Sha256, CaseFold, PyRepr, FloatCompare, UrlTables, Idna, UpperCase, UnicodeDecimal, PyFloats, UnicodeAlnum}.
Context `{IsoForms, Settings, !CanarySettings, HmacSha256, TokenSource, Tokens, !HostTables}.

(** ** The project policy *)

(** A policy as the operator's ceiling allows it, in the form of a stored revision. *)
Record policy_ok (r : EgressPolicies.EgressPolicyRevision) : Prop := {
po_valid : validate_egress_policy (gr_allowed_hosts r) (gr_allowed_methods r) (gr_limits r) = inr (validated_row r);
po_hosts : gr_allowed_hosts r ≠ [] ∧ gr_allowed_hosts r = sorted_set (gr_allowed_hosts r);
po_methods : gr_allowed_methods r ≠ [] ∧ gr_allowed_methods r = sorted_set (gr_allowed_methods r);
po_range : in_range (gr_limits r) = true;
po_number : 1 ≤ gr_revision_number r }.
Lemma revision_policy_ok (s : EgressPolicies.db) i r : egress_inv s → EgressPolicies.revisions s !! i = Some r → policy_ok r.
Proof.
intros Hinv Hi. destruct (ei_revision _ Hinv _ _ Hi) as (((hosts & methods & Ha) & Hg) & _ & Hn).
split; [apply validate_accepted; by apply (accepted_again _ _ _ _ Ha Hg)| | | |done].
- destruct (ap_hosts _ _ _ _ Ha) as (n & _ & Eh). cbn in Eh. split; [apply (ap_host_some _ _ _ _ Ha)|]. by rewrite Eh, sorted_set_idemp.
- pose proof (ap_methods _ _ _ _ Ha) as Em. cbn in Em. split; [apply (ap_method_some _ _ _ _ Ha)|]. by rewrite Em, sorted_set_idemp.
- unfold revision_guard in Hg. by breflect.
Qed.

Lemma resolve_inr s pid org project b : resolve_run_egress_policy s pid org project = inr b →
∃ rid r v digest, EgressPolicies.revisions s !! rid = Some r ∧
  validate_egress_policy (gr_allowed_hosts r) (gr_allowed_methods r) (gr_limits r) = inr v ∧
  revision_within_canary_ceiling v = true ∧
  canonical_fingerprint (PDict (runtime_policy_payload (revision_policy v))) = Some digest ∧
  canonical_fingerprint (PDict (binding_receipt pid rid r digest)) = Some (rpo_binding b) ∧
  rpo_policy b = revision_policy v ∧
  rpo_receipt b = binding_receipt pid rid r digest ++ [entry "binding_digest" (PStr (rpo_binding b))].
Proof.
unfold resolve_run_egress_policy. destruct (EgressPolicies.policies s !! pid) as [p|]; [|done]. destruct (negb _); [done|].
destruct (gp_active_revision_id p) as [rid|]; [|done]. destruct (EgressPolicies.revisions s !! rid) as [r|] eqn:Er; [|done].
destruct (negb _); [done|]. destruct (validate_egress_policy _ _ _) as [[]|v] eqn:Ev; try done.
destruct (negb _); [done|]. destruct (negb (revision_within_canary_ceiling v)) eqn:Ec; [done|]. intros Hb. checks Hb.
injection Hb as <-. repeat match goal with H : fingerprint _ = inr _ |- _ => apply fingerprint_inr in H end. breflect.
exists rid, r, v. eexists. split_and!; try done; cbn; try done.
Qed.

Lemma receipt_form pid rid r rd d : 1 ≤ gr_revision_number r →
receipt_form_ok (binding_receipt pid rid r rd ++ [entry "binding_digest" (PStr d)]) = true.
Proof.
intros Hn. unfold receipt_form_ok. repeat (apply andb_true_intro; split); try done.
- change (dict_get "revision_number" _) with (PInt (gr_revision_number r)). cbn. by apply Z.leb_le.
- change (dict_get "policy_id" _) with (PStr (str_of_uuid pid)). cbn [py_str]. destruct (str_of_uuid_parses pid) as (? & -> & _). done.
- change (dict_get "revision_id" _) with (PStr (str_of_uuid rid)). cbn [py_str]. destruct (str_of_uuid_parses rid) as (? & -> & _). done.
Qed.
Lemma receipt_without_digest pid rid r rd d :
without_digest (binding_receipt pid rid r rd ++ [entry "binding_digest" (PStr d)]) = binding_receipt pid rid r rd.
Proof.
unfold without_digest. rewrite filter_app, filter_all; [|repeat constructor; cbn; intros E; discriminate E].
rewrite filter_cons_False by (intros E; by apply E). by rewrite app_nil_r.
Qed.
Lemma bounded_int_intro lo hi z : lo ≤ z ≤ hi → bounded_int lo hi (PInt z) = Some z.
Proof. intros Hz. unfold bounded_int, between. cbn. rewrite !(proj2 (Z.leb_le _ _)) by lia. done. Qed.
Lemma bounded_limits_intro p c : in_range (rp_limits p) = true → limits_within (rp_limits p) c = true →
bounded_limits (runtime_policy_payload p) c = Some (rp_limits p).
Proof.
unfold in_range, limits_within. intros Hr Hc. breflect. unfold bounded_limits.
change (dict_get "max_requests" _) with (PInt (el_max_requests (rp_limits p))).
change (dict_get "max_response_bytes" _) with (PInt (el_max_response_bytes (rp_limits p))).
change (dict_get "max_total_bytes" _) with (PInt (el_max_total_bytes (rp_limits p))).
change (dict_get "max_redirects" _) with (PInt (el_max_redirects (rp_limits p))).
change (dict_get "connect_timeout_seconds" _) with (PInt (el_connect_timeout_seconds (rp_limits p))).
change (dict_get "request_timeout_seconds" _) with (PInt (el_request_timeout_seconds (rp_limits p))).
rewrite !bounded_int_intro by lia. by destruct (rp_limits p).
Qed.
Lemma sorted_texts_intro l : l ≠ [] → l = sorted_set l → sorted_texts (PList (PStr <$> l)) = Some l.
Proof.
intros Hne Hl. unfold sorted_texts, as_strs. cbn [as_list mbind option_bind]. rewrite (proj2 (mapM_as_str _ l) eq_refl). cbn.
by rewrite !bool_decide_eq_true_2.
Qed.

(** Admission accepts the policy a run was bound to. *)
Lemma resolved_is_bound raw (s : EgressPolicies.db) pid org project b ir : validate_canary raw = inr canary → egress_inv s →
resolve_run_egress_policy s pid org project = inr b →
dict_get "project_egress_policy" ir = PDict (rpo_document b) →
dict_get "project_egress_policy_receipt" ir = PDict (rpo_receipt b) →
bound_policy ir = inr (Some (rpo_document b, rpo_binding b)) ∧ rp_hosts (rpo_policy b) ⊆ cs_allowed_hosts canary.
Proof.
intros Hraw Hinv (rid & r & v & rd & Hr & Hv & Hc & Hrd & Hbd & Hp & Hrc)%resolve_inr Hdoc Hrec.
destruct (revision_policy_ok _ _ _ Hinv Hr) as [Hv' [Hh Hhs] [Hm Hms] Hrg Hn]. rewrite Hv in Hv'. injection Hv' as ->.
unfold revision_within_canary_ceiling in Hc. breflect. cbn [vp_allowed_hosts vp_allowed_methods vp_limits vp_policy_digest validated_row] in *.
assert (Hsub : gr_allowed_hosts r ⊆ cs_allowed_hosts canary).
{ match goal with H : gr_allowed_hosts r ⊆ _ |- _ => intros h (h' & -> & Hin)%H%list_elem_of_fmap end.
  destruct (validated_hosts _ _ _ Hraw Hin) as [u Hu]. by rewrite (exact_hostname_folds _ _ _ Hu). }
split; [|by rewrite Hp]. unfold bound_policy. rewrite Hdoc, Hrec. cbv zeta. rewrite (bool_decide_eq_false_2 (PDict _ = PNone)) by done. cbn [andb as_dict require]. rewrite Hrc.
rewrite receipt_form, receipt_without_digest by done. cbn [ensure]. unfold fingerprint. rewrite Hbd. cbn [mbind sum_bind].
change (dict_get "binding_digest" _) with (PStr (rpo_binding b)). rewrite py_eq_refl by done. cbn [ensure].
unfold rpo_document. rewrite Hp. change (envelope_ok _) with true. cbn [ensure].
change (dict_get "allowed_hosts" _) with (PList (PStr <$> gr_allowed_hosts r)).
change (dict_get "allowed_methods" _) with (PList (PStr <$> gr_allowed_methods r)).
rewrite sorted_texts_intro by done. cbn [require]. rewrite sorted_texts_intro by done. cbn [require].
rewrite !(bool_decide_eq_true_2 (_ ⊆ _)) by done. cbn [ensure].
rewrite bounded_limits_intro by done. cbn [require]. rewrite Hrd. cbn [mbind sum_bind].
change (dict_get "runtime_policy_digest" _) with (PStr rd). rewrite py_eq_refl by done. cbn [ensure].
change (rp_limits (revision_policy (validated_row r))) with (gr_limits r). rewrite Hv. cbn [mbind sum_bind].
change (dict_get "policy_digest" _) with (PStr (gr_policy_digest r)). cbn [vp_allowed_hosts vp_allowed_methods vp_policy_digest validated_row].
rewrite !bool_decide_eq_true_2, py_eq_refl by done. done.
Qed.

(** What the plan of a run is. *)
Record planned s vid v q (p : run_plan) : Prop := {
pn_build : ∃ b, builds (plane s) !! cr_build_id q = Some b ∧ b_organization_id b = vr_organization_id v ∧
  b_project_id b = vr_project_id v ∧ b_agent_id b = vr_agent_id v ∧ b_agent_version_id b = vid ∧
  b_status b = BuildStatus.SUCCEEDED ∧ is_Some (b_artifact_digest b);
pn_build_id : pl_build_id p = cr_build_id q;
pn_runtime : runtime_of (vr_manifest v) q = inr (pl_runtime p);
pn_policy : project_policy (egress s) v q = inr (pl_policy p);
pn_queue : match cr_request_queue q with
           | None => pl_queue p = None
           | Some id => ∃ i, pl_queue p = Some i ∧ queue_intent_of (queues s) vid v q (pl_policy p) id = inr i
           end;
pn_browser : browser_intent_of vid v q (pl_policy p) = inr (pl_browser p) }.
Lemma plan_run_inr s vid v q p : plan_run s vid v q = inr p → planned s vid v q p.
Proof.
unfold plan_run. destruct (builds (plane s) !! cr_build_id q) as [b|] eqn:Eb; [|done].
destruct (negb (_ && _)) eqn:En; [done|]. destruct (_ || _) eqn:Eo; [done|]. intros Hp. checks Hp. injection Hp as <-. breflect.
constructor; cbn; try done.
- exists b. split_and!; try done. by destruct (b_artifact_digest b).
- destruct (cr_request_queue q) as [id|]; [|congruence].
  match goal with H : _ ≫= _ = inr _ |- _ => apply sum_bind_inr in H as (i & Hi & [= <-]) end. by exists i.
Qed.

Lemma policy_fields q p b : pl_policy p = Some b →
dict_get "project_egress_policy" (input_reference q p) = PDict (rpo_document b) ∧
dict_get "project_egress_policy_receipt" (input_reference q p) = PDict (rpo_receipt b).
Proof. intros Hb. unfold input_reference. rewrite Hb. done. Qed.

Lemma intent_within q p u : validate_bound_egress_intent q p = inr u → ∃ targets, mapM target_host (intent_urls q) = Some targets ∧
intent_methods q ⊆ rp_methods p ∧ targets ⊆ rp_hosts p.
Proof.
unfold validate_bound_egress_intent. destruct (mapM _ _) as [targets|]; [|done]. destruct (_ && _) eqn:E; [|done]. intros _.
breflect. by exists targets.
Qed.

Lemma project_policy_inr s v q b : project_policy s v q = inr (Some b) →
∃ pid, resolve_run_egress_policy s pid (vr_organization_id v) (vr_project_id v) = inr b.
Proof.
unfold project_policy. destruct (cr_egress_policy q) as [pid|]; [|done]. intros Hp. checks Hp. destruct (negb _); [done|].
checks Hp. injection Hp as ->. by exists pid.
Qed.

(** C11: A run bound to an egress policy is admitted under exactly that policy.  When run
  creation accepts a request that names a policy, what it asks for is within the policy -
  every method, and the host of every URL - and the policy is within the operator's
  validated settings; and the document and receipt the run stores are accepted by the check
  sandbox admission makes of them, with the binding digest the receipt was given, whatever
  revisions, activations and disablings made the policy. *)
Theorem bound_run_is_admitted raw s vid v q p b : validate_canary raw = inr canary →
EgressPoliciesSpec.reachable (egress s) → plan_run s vid v q = inr p → pl_policy p = Some b →
bound_policy (input_reference q p) = inr (Some (rpo_document b, rpo_binding b)) ∧ confined (rpo_document b) ∧
intent_methods q ⊆ rp_methods (rpo_policy b) ∧
(∃ targets, mapM target_host (intent_urls q) = Some targets ∧ targets ⊆ rp_hosts (rpo_policy b)) ∧
rp_hosts (rpo_policy b) ⊆ cs_allowed_hosts canary.
Proof.
intros Hraw Hr Hp%plan_run_inr Hb. pose proof (pn_policy _ _ _ _ _ Hp) as Hpo. rewrite Hb in Hpo. unfold project_policy in Hpo.
destruct (cr_egress_policy q) as [pid|]; [|done]. checks Hpo. destruct (negb _); [done|]. checks Hpo. injection Hpo as ->.
match goal with H : resolve_run_egress_policy _ _ _ _ = _ |- _ =>
  destruct (policy_fields q p b Hb) as [Hd Hc]; destruct (resolved_is_bound _ _ _ _ _ _ _ Hraw (egress_reachable _ Hr) H Hd Hc) as [Ha Hh] end.
split; [done|]. split; [by apply bound_policy_Some in Ha as (_ & ? & _)|].
match goal with H : validate_bound_egress_intent _ _ = inr _ |- _ => apply intent_within in H as (targets & Ht & Hm & Hs) end.
split; [done|]. split; [by exists targets|done].
Qed.

(** ** The queue of a run *)

Lemma queue_capabilities_inr manifest web browser dataset store :
queue_capabilities manifest = inr (web, browser, dataset, store) → ∃ c network, dict_get "capabilities" manifest = PDict c ∧
  dict_get "requestQueue" c = PBool true ∧ hashable (dict_get "network" c) = true ∧
  known_network (dict_get "network" c) = Some network ∧ web = bool_decide (network = "web-egress"%string) ∧
  dict_get "browser" c = PBool browser ∧ dict_get "dataset" c = PBool dataset ∧ dict_get "keyValueStore" c = PBool store ∧
  (browser = true → web = true) ∧ dataset && store = false.
Proof.
unfold queue_capabilities. destruct (dict_get "capabilities" manifest) as [| | | | | |c|]; try done.
destruct (negb (is_true _)) eqn:Eq; [done|]. destruct (negb (hashable _)) eqn:Eh; [done|].
destruct (known_network _) as [network|] eqn:En; [|done].
destruct (dict_get "browser" c) as [|b| | | | | |] eqn:E1; try done. destruct (dict_get "dataset" c) as [|d| | | | | |] eqn:E2; try done.
destruct (dict_get "keyValueStore" c) as [|k| | | | | |] eqn:E3; try done. cbv zeta.
destruct (_ || _) eqn:Eo; [done|]. intros [= <- <- <- <-]. breflect. exists c, network.
match goal with H : is_true ?v = true |- _ => destruct v as [|[]| | | | | |] eqn:Er; try done end.
split_and!; try done. destruct b; [|done]. intros _. by destruct (bool_decide (network = _)).
Qed.

(** The receipts of a queue-bound run, by the capabilities of its version. *)
Record intended vid v q policy id web browser dataset store (i : queue_intent) : Prop := {
iq_caps : queue_capabilities (vr_manifest v) = inr (web, browser, dataset, store);
iq_binding : canonical_fingerprint (PDict (request_queue_dump id)) = Some (qi_binding i);
iq_mode : let effective := match policy with Some p => rpo_document p | None => runtime_policy_payload ceiling end in
  if browser then ∃ bd ed, qi_browser i = Some ((browser_policy_payload, bd), (browser_egress_policy_payload effective, ed)) ∧
    canonical_fingerprint (PDict browser_policy_payload) = Some bd ∧
    canonical_fingerprint (PDict (browser_egress_policy_payload effective)) = Some ed ∧ qi_egress i = None ∧
    qi_receipt i = queue_receipt_browser (qi_binding i) (str_of_uuid id) (str_of_uuid vid) bd ed (qi_browser_live i) ∧
    (qi_browser_live i = true → request_queue_browser_canary_enabled vid (vr_manifest v) = true)
  else if web then ∃ d, qi_browser i = None ∧ qi_egress i = Some (effective, d) ∧ canonical_fingerprint (PDict effective) = Some d ∧
    qi_receipt i = queue_receipt_http (qi_binding i) (str_of_uuid id) (str_of_uuid vid) d (qi_http_live i) ∧
    (qi_http_live i = true → request_queue_http_canary_enabled vid (vr_manifest v) = true)
  else qi_browser i = None ∧ qi_egress i = None ∧
    qi_receipt i = queue_receipt_plain (qi_binding i) (str_of_uuid id) (str_of_uuid vid);
iq_dataset : if dataset then ∃ d dispatch, canonical_fingerprint (PDict (qi_receipt i)) = Some d ∧
    qi_dataset i = Some (dataset_receipt (str_of_uuid id) (str_of_uuid vid) d dispatch, dispatch) ∧
    (dispatch = true → request_queue_dataset_canary_enabled vid (vr_manifest v) = true)
  else qi_dataset i = None;
iq_store : if store then ∃ d read dispatch, read_digest (dict_get "_rdc_kv_read" (cr_input q)) = Some read ∧
    canonical_fingerprint (PDict (qi_receipt i)) = Some d ∧
    qi_store i = Some (store_receipt (str_of_uuid id) (str_of_uuid vid) d read dispatch, dispatch) ∧
    (dispatch = true → request_queue_key_value_store_canary_enabled vid (vr_manifest v) = true)
  else qi_store i = None }.
Lemma when_inr {A} b (m : exn + A) o : when b m = inr o → if b then ∃ a, m = inr a ∧ o = Some a else o = None.
Proof. unfold when. destruct b; [|by intros [= <-]]. intros (a & Ha & [= <-])%sum_bind_inr. eauto. Qed.
Lemma with_digest_inr d r : with_digest d = inr r → r.1 = d ∧ canonical_fingerprint (PDict d) = Some r.2.
Proof. unfold with_digest. by intros (x & Hx%fingerprint_inr & [= <-])%sum_bind_inr. Qed.
Lemma read_digest_inr q d : input_read_digest q = inr d → read_digest (dict_get "_rdc_kv_read" (cr_input q)) = Some d.
Proof. unfold input_read_digest. destruct (read_digest _); [by intros [= <-]|done]. Qed.
Lemma queue_intent_inr queues vid v q policy id i : queue_intent_of queues vid v q policy id = inr i →
∃ web browser dataset store, intended vid v q policy id web browser dataset store i.
Proof.
unfold queue_intent_of. destruct (queue_capabilities (vr_manifest v)) as [e|[[[web browser] dataset] store]] eqn:Ec; [done|].
destruct (negb _); [done|]. intros Hi. checks Hi. injection Hi as <-. exists web, browser, dataset, store.
destruct (queue_capabilities_inr _ _ _ _ _ Ec) as (c & network & _ & _ & _ & _ & _ & _ & _ & _ & Hbw & _).
repeat match goal with
| H : fingerprint _ = inr _ |- _ => apply fingerprint_inr in H
| H : when _ _ = inr _ |- _ => apply when_inr in H
end.
constructor; cbn [qi_binding qi_receipt qi_egress qi_browser qi_dataset qi_store qi_http_live qi_browser_live]; try done; cbv zeta.
- destruct browser.
  + rewrite andb_false_r in *. destruct E0 as (r & Hd & ->). checks Hd. injection Hd as <-. subst a1.
    repeat match goal with H : with_digest _ = inr ?x |- _ => let d := fresh "d" in destruct x as [? d]; apply with_digest_inr in H as [Hw ?]; cbn in Hw; subst end.
    do 2 eexists. split_and!; try done. cbn. rewrite !andb_true_iff; tauto.
  + subst a0. rewrite andb_true_r in *. destruct web; cbn in E1.
    * destruct E1 as ([e d] & [He Hd]%with_digest_inr & ->). cbn in He, Hd. subst. exists d. split_and!; try done.
      cbn. rewrite !andb_true_iff; tauto.
    * subst a1. done.
- destruct dataset; [|done]. destruct E2 as (r & Hr & ->). checks Hr. injection Hr as <-. do 2 eexists.
  split_and!; [by apply fingerprint_inr|done|]. rewrite !andb_true_iff; tauto.
- destruct store; [|done]. destruct E3 as (r & Hr & ->). checks Hr. injection Hr as <-. do 3 eexists.
  split_and!; [by apply read_digest_inr|by apply fingerprint_inr|done|]. rewrite !andb_true_iff; tauto.
Qed.

(** The fields of the input reference that a queue adds, and those of the project policy. *)
Definition queue_entries (id : uuid) (i : queue_intent) : list (pykey * pyval) :=
[entry "request_queue" (PDict (request_queue_dump id)); entry "queue_binding_receipt" (PDict (qi_receipt i))]
++ match qi_dataset i with Some (r, _) => [entry "request_queue_dataset_receipt" (PDict r)] | None => [] end
++ match qi_store i with Some (r, _) => [entry "request_queue_key_value_store_receipt" (PDict r)] | None => [] end
++ match qi_egress i with
   | Some (d, digest) => [entry "request_queue_egress_policy" (PDict d); entry "request_queue_egress_policy_digest" (PStr digest)]
   | None => []
   end
++ match qi_browser i with
   | Some ((policy, pd), (egress, ed)) =>
       [entry "request_queue_browser_policy" (PDict policy); entry "request_queue_browser_policy_digest" (PStr pd);
        entry "request_queue_browser_egress_policy" (PDict egress); entry "request_queue_browser_egress_policy_digest" (PStr ed)]
   | None => []
   end.
Ltac skip_part := rewrite dict_find_app_skip; [|repeat case_match; apply (bool_decide_unpack _); vm_compute; exact I].
Lemma queue_field q p id i key : cr_request_queue q = Some id → pl_queue p = Some i →
key ∈ ["request_queue"; "queue_binding_receipt"; "request_queue_dataset_receipt"; "request_queue_key_value_store_receipt";
       "request_queue_egress_policy"; "request_queue_egress_policy_digest"; "request_queue_browser_policy";
       "request_queue_browser_policy_digest"; "request_queue_browser_egress_policy";
       "request_queue_browser_egress_policy_digest"]%string →
dict_get key (input_reference q p) = dict_get key (queue_entries id i).
Proof.
intros Hq Hi Hk. unfold dict_get, input_reference. rewrite Hq, Hi. fold (queue_entries id i).
repeat (apply elem_of_cons in Hk as [->|Hk]; [do 5 skip_part; done|]). by apply not_elem_of_nil in Hk.
Qed.
(** The fields of the acquisition mode. *)
Definition acquisition_entries (i : queue_intent) : list (pykey * pyval) :=
match qi_egress i with
| Some (d, digest) => [entry "request_queue_egress_policy" (PDict d); entry "request_queue_egress_policy_digest" (PStr digest)]
| None => []
end
++ match qi_browser i with
   | Some ((policy, pd), (egress, ed)) =>
       [entry "request_queue_browser_policy" (PDict policy); entry "request_queue_browser_policy_digest" (PStr pd);
        entry "request_queue_browser_egress_policy" (PDict egress); entry "request_queue_browser_egress_policy_digest" (PStr ed)]
   | None => []
   end.
Lemma acquisition_field q p id i key : cr_request_queue q = Some id → pl_queue p = Some i →
key ∈ ["request_queue_egress_policy"; "request_queue_egress_policy_digest"; "request_queue_browser_policy";
       "request_queue_browser_policy_digest"; "request_queue_browser_egress_policy";
       "request_queue_browser_egress_policy_digest"]%string →
dict_get key (input_reference q p) = dict_get key (acquisition_entries i).
Proof.
intros Hq Hi Hk. rewrite (queue_field q p id i) by (try done; do 4 right; done).
unfold dict_get, queue_entries. fold (acquisition_entries i).
repeat (apply elem_of_cons in Hk as [->|Hk]; [do 3 skip_part; done|]). by apply not_elem_of_nil in Hk.
Qed.
Lemma dict_find_absent key d : KStr (lit key) ∉ d.*1 → dict_find (lit key) d = None.
Proof. intros Hk. rewrite <- (app_nil_r d). by rewrite dict_find_app_skip. Qed.
Lemma no_policy_fields q p : pl_policy p = None →
dict_get "project_egress_policy" (input_reference q p) = PNone ∧ dict_get "project_egress_policy_receipt" (input_reference q p) = PNone.
Proof.
intros Hp. unfold dict_get, input_reference. rewrite Hp.
split; do 5 skip_part; rewrite dict_find_absent; try done; repeat case_match; apply (bool_decide_unpack _); vm_compute; exact I.
Qed.

(** What admission reads of a claim, in terms of the manifest. *)
Context `{!PyInt}.
Lemma field_text_get key d x : dict_get key d = PStr x → field_text key d = x.
Proof. unfold dict_get, field_text. destruct (dict_find (lit key) d); cbn; [by intros ->|done]. Qed.
Lemma known_network_text x n : known_network x = Some n → x = PStr (lit n).
Proof.
destruct x; cbn; try done. case_bool_decide as E1; [by intros [= <-]; subst|]. case_bool_decide as E2; [by intros [= <-]; subst|done].
Qed.
Lemma facts_capabilities payload f web browser dataset store : admission_facts payload = inr (Some f) →
queue_capabilities (fa_manifest f) = inr (web, browser, dataset, store) → is_run_start payload = true →
fa_web f = web ∧ fa_browser f = browser ∧ fa_dataset f = dataset ∧ fa_store f = store ∧ fa_queue f = true ∧
∃ bound, bound_policy (input_reference_of payload) = inr bound ∧ fa_binding f = snd <$> bound ∧
  fa_policy f = match bound with Some (p, _) => p | None => runtime_policy_payload ceiling end.
Proof.
unfold admission_facts. intros Hf (c & network & Hc & Hq & _ & Hn%known_network_text & -> & Hb & Hd & Hk & _ & _)%queue_capabilities_inr Hrun.
checks Hf. destruct (bound_policy (input_reference_of payload)) as [e|bound] eqn:Eb; [done|]. checks Hf. injection Hf as <-. cbn [fa_manifest] in Hc.
repeat match goal with
| H : as_dict _ = Some _ |- _ => apply as_dict_Some in H
| H : as_bool _ = Some _ |- _ => apply as_bool_Some in H
end.
match goal with H : dict_get "capabilities" ?m = PDict ?x, H' : dict_get "capabilities" ?m = PDict c |- _ =>
  assert (x = c) as -> by congruence; clear H end.
pose proof (field_text_get _ _ _ Hn) as Ht.
cbn [fa_web fa_browser fa_dataset fa_store fa_queue fa_binding fa_policy]. rewrite Hrun, !andb_true_r, ?Ht. split_and!; try congruence; [|by exists bound].
apply bool_decide_ext. split; [intros ?%lit_inj; done|by intros ->].
Qed.

(** The policy in force at admission is the one run creation used. *)
Lemma same_policy_in_force raw s vid v q p payload f web browser dataset store : validate_canary raw = inr canary →
EgressPoliciesSpec.reachable (egress s) → planned s vid v q p → input_reference_of payload = input_reference q p →
admission_facts payload = inr (Some f) → queue_capabilities (fa_manifest f) = inr (web, browser, dataset, store) →
is_run_start payload = true →
fa_binding f = rpo_binding <$> pl_policy p ∧
fa_policy f = match pl_policy p with Some b => rpo_document b | None => runtime_policy_payload ceiling end.
Proof.
intros Hraw Hr Hp Hir Hf Hc Hrun. destruct (facts_capabilities _ _ _ _ _ _ Hf Hc Hrun) as (_ & _ & _ & _ & _ & bound & Hb & -> & ->).
rewrite Hir in Hb. destruct (pl_policy p) as [b|] eqn:Ep.
- pose proof (pn_policy _ _ _ _ _ Hp) as Hpo. rewrite Ep in Hpo. apply project_policy_inr in Hpo as (pid & Hpo).
  destruct (policy_fields q p b Ep) as [Hd Hrc]. destruct (resolved_is_bound _ _ _ _ _ _ _ Hraw (egress_reachable _ Hr) Hpo Hd Hrc) as [Ha _].
  rewrite Ha in Hb. by injection Hb as <-.
- destruct (no_policy_fields q p Ep) as [H1' H2']. unfold bound_policy in Hb. rewrite H1', H2' in Hb. by injection Hb as <-.
Qed.
(** No surface of a queue-bound run only records an intent: each is live. *)
Lemma queue_live p i : pl_queue p = Some i → receipt_only p = false →
(is_Some (qi_egress i) → qi_http_live i = true) ∧ (is_Some (qi_browser i) → qi_browser_live i = true) ∧
(∀ r b, qi_dataset i = Some (r, b) → b = true) ∧ (∀ r b, qi_store i = Some (r, b) → b = true).
Proof.
unfold receipt_only, queue_http_receipt_only, queue_browser_receipt_only, queue_dataset_receipt_only, queue_store_receipt_only.
intros -> Hro. cbn in Hro. breflect. split_and!.
- intros Hs. rewrite bool_decide_eq_true_2 in * by done. cbn in *. by breflect.
- intros Hs. match goal with H : bool_decide (is_Some (qi_browser i)) && _ = false |- _ => rewrite bool_decide_eq_true_2 in H by done; cbn in H end. by breflect.
- intros r b E. rewrite E in *. by breflect.
- intros r b E. rewrite E in *. by breflect.
Qed.

(** A claim of a queue-bound run, and the facts admission reads of it. *)
Section claim.
Context (raw : canary_settings) (s : db) (vid id : uuid) (v : VersionRow) (q : CreateRunRequest) (p : run_plan).
Context (w : WorkerIdentity) (payload : list (pykey * pyval)) (f : facts) (web browser dataset store : bool) (i : queue_intent).
Context (Hraw : validate_canary raw = inr canary) (Hreach : EgressPoliciesSpec.reachable (egress s)).
Context (Hplan : plan_run s vid v q = inr p) (Hqueue : cr_request_queue q = Some id) (Hlive : receipt_only p = false).
Context (Hreference : dict_get "input_reference" payload = PDict (input_reference q p)).
Context (Hmanifest : dict_get "manifest" payload = PDict (vr_manifest v)) (Hversion : version_text payload = str_of_uuid vid).
Context (Haccess : canary_access "REQUEST_QUEUE_ACCESS" w payload = true) (Hfacts : admission_facts payload = inr (Some f)).
Context (Hintent : pl_queue p = Some i) (Hi : intended vid v q (pl_policy p) id web browser dataset store i).

Lemma claim_facts : facts_ok payload f ∧ is_run_start payload = true ∧ fa_web f = web ∧ fa_browser f = browser ∧
fa_dataset f = dataset ∧ fa_store f = store ∧ fa_queue f = true ∧ fa_binding f = rpo_binding <$> pl_policy p ∧
fa_policy f = match pl_policy p with Some b => rpo_document b | None => runtime_policy_payload ceiling end.
Proof.
pose proof (admission_facts_Some _ _ Hfacts) as Hf. split; [done|].
assert (Hrun : is_run_start payload = true) by (unfold canary_access in Haccess; by breflect). split; [done|].
assert (Hcaps : queue_capabilities (fa_manifest f) = inr (web, browser, dataset, store)).
{ pose proof (fo_manifest _ _ Hf) as Hm. rewrite Hmanifest in Hm. injection Hm as <-. by apply Hi. }
assert (Hir : input_reference_of payload = input_reference q p) by (unfold input_reference_of; by rewrite Hreference).
destruct (facts_capabilities _ _ _ _ _ _ Hfacts Hcaps Hrun) as (-> & -> & -> & -> & -> & _).
destruct (same_policy_in_force _ _ _ _ _ _ _ _ _ _ _ _ Hraw Hreach (plan_run_inr _ _ _ _ _ Hplan) Hir Hfacts Hcaps Hrun) as [-> ->].
done.
Qed.
Lemma expected_receipt : expected_queue_receipt (queue_args_of f) (input_reference q p) (web && browser) (web && negb browser)
  (qi_binding i) (str_of_uuid id) (str_of_uuid vid) = inr (Some (qi_receipt i)).
Proof.
destruct claim_facts as (Hf & _ & Ew & Eb & _ & _ & Eq & _ & Epol). destruct (queue_live _ _ Hintent Hlive) as (Hh & Hb & _ & _).
pose proof (iq_mode _ _ _ _ _ _ _ _ _ _ Hi) as Hmode. cbv zeta in Hmode. rewrite <- Epol in Hmode.
destruct (queue_capabilities_inr _ _ _ _ _ (iq_caps _ _ _ _ _ _ _ _ _ _ Hi)) as (c & network & _ & _ & _ & _ & _ & _ & _ & _ & Hbw & _).
pose proof (fo_egress _ _ Hf) as Fe. pose proof (fo_browser _ _ Hf) as Fb. pose proof (fo_browser_egress _ _ Hf) as Fx.
pose proof (fo_web _ _ Hf) as Fw.
unfold expected_queue_receipt, queue_args_of, fa_queue_http, fa_queue_browser in *. cbn [qa_http qa_egress_digest qa_browser qa_browser_digest qa_browser_egress_digest].
rewrite Ew, Eb, Eq in *. destruct browser; [rewrite Hbw in * by done|destruct web]; cbn [andb negb] in *.
- destruct Hmode as (bd & ed & Hbr & Hbd & Hed & Heg & Hrc & Hen). destruct Fb as (bd' & Ebd & Hbd'). destruct Fx as (ed' & Eed & Hed').
  rewrite Hbd in Hbd'. injection Hbd' as <-. rewrite Hed in Hed'. injection Hed' as <-. rewrite Ebd, Eed, Hrc, Hb by (by rewrite Hbr).
  rewrite !(acquisition_field q p id i) by (try done; apply (bool_decide_unpack _); vm_compute; exact I).
  unfold acquisition_entries. rewrite Hbr, Heg.
  change (dict_get "request_queue_browser_policy" _) with (PDict browser_policy_payload).
  change (dict_get "request_queue_browser_policy_digest" _) with (PStr bd).
  change (dict_get "request_queue_browser_egress_policy" _) with (PDict (browser_egress_policy_payload (fa_policy f))).
  change (dict_get "request_queue_browser_egress_policy_digest" _) with (PStr ed).
  cbn [need as_dict as_str]. specialize (Hen (Hb ltac:(rewrite Hbr; done))).
  unfold deny_if, fingerprint, request_queue_browser_canary_enabled, egress_open in *. breflect.
  repeat match goal with H : ?b canary = true |- _ => rewrite H; clear H end.
  rewrite !(bool_decide_eq_true_2 (Some _ = Some _)), (bool_decide_eq_false_2 (is_Some None)) by (try done; apply is_Some_None).
  rewrite Hbd, Hed. cbn. by rewrite !bool_decide_eq_true_2.
- destruct Hmode as (d & Hbr & Heg & Hd & Hrc & Hen). destruct Fe as (d' & Ed & Hd').
  rewrite Hd in Hd'. injection Hd' as <-. rewrite Fb, Fx, Ed, Hrc, Hh by (by rewrite Heg).
  rewrite !(acquisition_field q p id i) by (try done; apply (bool_decide_unpack _); vm_compute; exact I).
  unfold acquisition_entries. rewrite Hbr, Heg.
  change (dict_get "request_queue_egress_policy" _) with (PDict (fa_policy f)).
  change (dict_get "request_queue_egress_policy_digest" _) with (PStr d).
  cbn [need as_dict as_str]. specialize (Hen (Hh ltac:(rewrite Heg; done))). unfold deny_if, fingerprint, request_queue_http_canary_enabled, egress_open in *. breflect.
  repeat match goal with H : ?b canary = true |- _ => rewrite H; clear H end.
  rewrite !(bool_decide_eq_true_2 (Some _ = Some _)), !(bool_decide_eq_false_2 (is_Some None)) by (try done; apply is_Some_None).
  rewrite Hd. cbn. by rewrite !bool_decide_eq_true_2.
- destruct Hmode as (Hbr & Heg & Hrc). rewrite Fb, Fx, Hrc. unfold deny_if.
  rewrite !(bool_decide_eq_false_2 (is_Some None)) by apply is_Some_None. done.
Qed.
Lemma composition_accepted : composition_ok (queue_args_of f) (input_reference q p) dataset store (qi_receipt i)
  (str_of_uuid id) (str_of_uuid vid) = inr true.
Proof.
destruct claim_facts as (_ & _ & _ & _ & Ed & Es & Eq & _ & _). destruct (queue_live _ _ Hintent Hlive) as (_ & _ & Hd & Hs).
pose proof (iq_dataset _ _ _ _ _ _ _ _ _ _ Hi) as Hds. pose proof (iq_store _ _ _ _ _ _ _ _ _ _ Hi) as Hst.
unfold composition_ok. change (qa_dataset (queue_args_of f)) with (fa_queue f && fa_dataset f).
change (qa_key_value_store (queue_args_of f)) with (fa_queue f && fa_store f). rewrite Eq, Ed, Es.
change (dict_get "value" (input_reference q p)) with (PDict (cr_input q)).
rewrite !(queue_field q p id i) by (try done; apply (bool_decide_unpack _); vm_compute; exact I).
assert (dict_get "request_queue_dataset_receipt" (queue_entries id i) = opt_doc (fst <$> qi_dataset i)) as ->.
{ unfold queue_entries, dict_get. destruct (qi_dataset i) as [[r b]|]; [done|].
  rewrite dict_find_absent; [done|]. repeat case_match; apply (bool_decide_unpack _); vm_compute; exact I. }
assert (dict_get "request_queue_key_value_store_receipt" (queue_entries id i) = opt_doc (fst <$> qi_store i)) as ->.
{ unfold queue_entries, dict_get. do 2 skip_part. destruct (qi_store i) as [[r b]|]; [done|].
  rewrite dict_find_absent; [done|]. repeat case_match; apply (bool_decide_unpack _); vm_compute; exact I. }
assert (plain_receipt : ∀ x y d r b, plain (PDict (dataset_receipt x y d b)) = true ∧ plain (PDict (store_receipt x y d r b)) = true).
{ intros x y d [r|] b; split; vm_compute; reflexivity. }
destruct dataset.
- destruct Hds as (d & b & Hfp & E & Hen). rewrite E in *. assert (b = true) as -> by by eapply Hd. specialize (Hen eq_refl).
  unfold request_queue_dataset_canary_enabled in Hen. breflect. unfold fingerprint. rewrite Hfp. cbn [mbind sum_bind fst fmap option_fmap option_map opt_doc].
  repeat match goal with H : ?g canary = true |- _ => rewrite H; clear H end.
  rewrite py_eq_refl by by apply (plain_receipt _ _ _ None). cbn.
  destruct store; [|by rewrite Hst].
  destruct (queue_capabilities_inr _ _ _ _ _ (iq_caps _ _ _ _ _ _ _ _ _ _ Hi)) as (_ & _ & _ & _ & _ & _ & _ & _ & _ & _ & _ & Hno). done.
- rewrite Hds. cbn [fmap option_fmap option_map opt_doc andb negb mbind sum_bind]. rewrite bool_decide_eq_true_2 by done. cbn [andb negb].
  destruct store; [|by rewrite Hst]. destruct Hst as (d & read & b & Hread & Hfp & E & Hen). rewrite Hread.
  rewrite E in *. assert (b = true) as -> by by eapply Hs. specialize (Hen eq_refl). unfold request_queue_key_value_store_canary_enabled in Hen.
  breflect. unfold fingerprint. rewrite Hfp. cbn [mbind sum_bind fst fmap option_fmap option_map opt_doc].
  repeat match goal with H : ?g canary = true |- _ => rewrite H; clear H end. rewrite py_eq_refl by apply plain_receipt. done.
Qed.
Lemma plain_queue_receipt : plain (PDict (qi_receipt i)) = true.
Proof.
pose proof (iq_mode _ _ _ _ _ _ _ _ _ _ Hi) as Hmode. cbv zeta in Hmode. destruct browser; [|destruct web].
- destruct Hmode as (? & ? & _ & _ & _ & _ & -> & _). vm_compute. reflexivity.
- destruct Hmode as (? & _ & _ & _ & -> & _). vm_compute. reflexivity.
- destruct Hmode as (_ & _ & ->). vm_compute. reflexivity.
Qed.
Lemma capability_given : cs_request_queue_enabled canary = true →
∃ c, queue_capability_of w payload (queue_args_of f) = inr (Some (PDict c)).
Proof.
intros Hen. destruct claim_facts as (Hf & _ & Efw & _ & _ & Es & Eq & Ebind & _).
destruct (queue_capabilities_inr _ _ _ _ _ (iq_caps _ _ _ _ _ _ _ _ _ _ Hi)) as (c & network & Hc & Hrq & Hh & Hn & Ew & Hb & Hd & Hk & Hbw & Hno).
eexists. unfold queue_capability_of. change (qa_enabled (queue_args_of f)) with true. rewrite Hen, Haccess. cbn [negb orb deny_if].
rewrite Hmanifest, Hreference. cbn [as_dict need]. rewrite Hc. cbn [as_dict need]. rewrite Hrq. cbn [is_true negb deny_if]. rewrite Hh. cbn [negb].
rewrite Hn, Hb, Hd, Hk. cbn [need as_bool].
rewrite !(queue_field q p id i) by (try done; apply (bool_decide_unpack _); vm_compute; exact I).
change (dict_get "request_queue" _) with (PDict (request_queue_dump id)). change (dict_get "queue_binding_receipt" _) with (PDict (qi_receipt i)).
cbn [as_dict need]. rewrite <- Ew. cbv zeta.
change (qa_key_value_store (queue_args_of f)) with (fa_queue f && fa_store f). change (qa_binding (queue_args_of f)) with (fa_binding f).
destruct (str_of_uuid_parses id) as (qid & Hqid & Etext).
change (dict_get "queue_id" (request_queue_dump id)) with (PStr (str_of_uuid id)). cbn [py_str]. rewrite Hqid. cbn [need].
rewrite Etext, Hversion. change (queue_binding (str_of_uuid id)) with (request_queue_dump id).
unfold fingerprint at 1. rewrite (iq_binding _ _ _ _ _ _ _ _ _ _ Hi). cbn [mbind sum_bind].
rewrite expected_receipt, (py_eq_refl (PDict (qi_receipt i))), composition_accepted by apply plain_queue_receipt. cbn [negb mbind sum_bind deny_if].
match goal with |- deny_if ?b _ = _ => assert (b = false) as -> end; [|done].
change (has_exact_keys _ _) with true. change (py_eq _ (text "rdc.run-queue/v1")) with true.
rewrite Eq, Es, Hno, eqb_reflx. cbn [andb negb orb]. rewrite !orb_false_r.
assert (browser && negb (web && browser) = false) as -> by (destruct browser; [by rewrite Hbw|done]). cbn [orb].
rewrite Ebind. destruct (pl_policy p) as [b|] eqn:Ep; cbn [fmap option_fmap option_map].
- rewrite (proj2 (policy_fields q p b Ep)).
  pose proof (pn_policy _ _ _ _ _ (plan_run_inr _ _ _ _ _ Hplan)) as Hpo. rewrite Ep in Hpo. apply project_policy_inr in Hpo as (pid & Hpo).
  apply resolve_inr in Hpo as (rid & r & v' & digest & _ & _ & _ & _ & _ & _ & ->).
  change (dict_get "binding_digest" _) with (PStr (rpo_binding b)). rewrite py_eq_refl by done.
  pose proof (fo_bound _ _ Hf) as Hbound. rewrite Ebind in Hbound. destruct Hbound as [Hweb _].
  by rewrite <- Efw, Hweb.
- rewrite (proj2 (no_policy_fields q p Ep)). done.
Qed.
(** Nothing else holds the claim back, unless it also uses a key-value store. *)
Lemma surfaces_open : cs_request_queue_enabled canary = true → store = false →
(dataset = true → "DATASET_APPEND"%string ∈ wk_capabilities w) → admission_surfaces w payload f = inr (Some ()).
Proof.
intros Hen Hns Hds. destruct (capability_given Hen) as [cap Hcap].
destruct claim_facts as (Hf & Hrun & Ew & Eb & Ed & Es & Eq & _). destruct (queue_live _ _ Hintent Hlive) as (Hh & Hb & Hd & _).
pose proof (iq_mode _ _ _ _ _ _ _ _ _ _ Hi) as Hmode. cbv zeta in Hmode. pose proof (iq_dataset _ _ _ _ _ _ _ _ _ _ Hi) as Hdset.
unfold admission_surfaces, fa_queue_store, fa_queue_dataset, fa_queue_http, fa_queue_browser. rewrite Hcap, Hen, Hrun, Ew, Eb, Ed, Es, Eq, Hns.
assert (Hgate : dataset = true → cs_dataset_writes_enabled canary = true ∧ cs_queue_dataset_enabled canary = true).
{ intros ->. destruct Hdset as (d & b & _ & E & Hlv). rewrite (Hd _ _ E) in Hlv. specialize (Hlv eq_refl).
  unfold request_queue_dataset_canary_enabled in Hlv. by breflect. }
assert (Hhttp : web && negb browser = true → cs_queue_http_enabled canary = true).
{ intros [-> ->%negb_true_iff]%andb_prop. destruct Hmode as (d & _ & E & _ & _ & Hlv). rewrite E in Hh. specialize (Hlv (Hh ltac:(done))).
  unfold request_queue_http_canary_enabled in Hlv. by breflect. }
assert (Hbro : web && browser = true → cs_queue_browser_enabled canary = true).
{ intros [-> ->]%andb_prop. destruct Hmode as (bd & ed & E & _ & _ & _ & _ & Hlv). rewrite E in Hb. specialize (Hlv (Hb ltac:(done))).
  unfold request_queue_browser_canary_enabled in Hlv. by breflect. }
cbn [negb andb orb]. destruct (web && negb browser); [rewrite Hhttp by done|]; destruct (web && browser); rewrite ?Hbro by done;
  (destruct dataset; [destruct Hgate as [-> ->]; [done|]|]; cbn [negb andb orb deny_if need mbind sum_bind]; rewrite ?andb_false_r;
   rewrite ?(bool_decide_eq_true_2 (_ ∈ wk_capabilities w)) by auto; done).
Qed.
End claim.


(** A run whose input has the key [_rdc_kv] is never activated with its key-value store:
  run creation does not look at that key, the capability check at the claim refuses it. *)
Lemma reserved_input_refused w payload policy a q p : dict_get "input_reference" payload = PDict (input_reference q p) →
has_key "_rdc_kv" (cr_input q) = true → activate w payload policy = inr (Some a) → sa_key_value_store_enabled a = false.
Proof.
intros Href Hkey (_ & f & p0 & br & _ & _ & _ & Hsu & _ & _ & vid & pd & cd & _ & _ & -> & _)%activate_Some. cbn.
destruct (fa_store f) eqn:Es; [|done]. exfalso. unfold admission_surfaces in Hsu. apply sum_bind_inr in Hsu as (queue & _ & Hsu).
check_step Hsu. cbv beta in Hsu. check_step Hsu. rewrite Es in Hsu. cbn [negb] in Hsu. apply sum_bind_inr in Hsu as (cap & Hcap & Hsu).
destruct cap as [cap|]; [|done]. unfold store_capability_of in Hcap. checks Hcap.
repeat match goal with H : as_dict _ = Some _ |- _ => apply as_dict_Some in H end.
match goal with H : dict_get "input_reference" payload = PDict ?ir |- _ => rewrite Href in H; injection H as <- end.
match goal with H : dict_get "value" _ = PDict ?iv |- _ => change (PDict (cr_input q) = PDict iv) in H; injection H as <- end.
match goal with H : _ || has_key _ _ = false |- _ => rewrite Hkey, orb_true_r in H; discriminate H end.
Qed.
End binding.
