(* ===== verification/RunCreationEffects.v ===== *)
(** What a run creation does to the services: the run and its START command in the
    execution plane, the event [run.created], the idempotency record; and that repeating
    the request returns the same run. *)

From S2P Require Import Prelude PyVal Json PyUuid PyTime QueueProtocol EventProtocol Idempotency Url.
From S2P Require Import Recovery Pagination RunEvents EgressProtocol EgressPolicies EgressPoliciesSpec.
From S2P Require Import Webhooks WebhooksSpec ExecutionPlane LeaseProtocol ExecutionSteps ExecutionOps ExecutionSpec.
From S2P Require Import PyEq KvWorkerProtocol Canary Admission AdmissionSpec RunSchemas RunCreation RunCreationSpec.

Section effects.
Context `{Entropy, Sha256, CaseFold, PyRepr, FloatCompare, UrlTables, Idna, UpperCase, UnicodeDecimal, PyFloats, UnicodeAlnum}.
Context `{IsoForms, Settings, !CanarySettings, HmacSha256, TokenSource, Tokens}.

Lemma wp_on_plane {A} (m : Prelude.M ExecutionPlane.db A) (Q : A → db → Prop) s :
wp m (λ a pl, Q a (s <| plane := pl |>)) (plane s) → wp (on_plane m) Q s.
Proof.
intros Hm a s' E. unfold on_plane in E. destruct (m (plane s)) as [r pl] eqn:Em. injection E as -> <-. by apply Hm.
Qed.
Lemma wp_on_hooks {A} (m : Prelude.M Webhooks.db A) (Q : A → db → Prop) s :
wp m (λ a h, Q a (s <| hooks := h |>)) (hooks s) → wp (on_hooks m) Q s.
Proof.
intros Hm a s' E. unfold on_hooks in E. destruct (m (hooks s)) as [r h] eqn:Em. injection E as -> <-. by apply Hm.
Qed.

(** ** The plane *)

(** The row of a new run. *)
Definition new_run (org pid aid vid bid user : uuid) (input runtime : list (pykey * pyval)) (ro : bool) (now : time) : Run :=
MkRun org pid aid vid bid (if ro then RunStatus.DRAFT else RunStatus.QUEUED) input runtime user now None None None None None None now 1.
(** The tables [queue_run] leaves behind. *)
Record queued (s s' : ExecutionPlane.db) (rid : uuid) (r : Run) (ro : bool) : Prop := {
qu_new : runs s !! rid = None;
qu_runs : runs s' = <[rid := r]> (runs s);
qu_commands : if ro then run_commands s' = run_commands s
  else ∃ cid o, run_commands s !! cid = None ∧ run_commands s' = <[cid := o]> (run_commands s) ∧ ob_target_id o = rid ∧
    ob_command o = Some START ∧ ob_status o = SourceStatus.PENDING ∧ ob_attempts o = 0;
qu_events : ∃ e, run_events s' = run_events s ++ [e] ∧ re_run_id e = rid ∧ re_event_type e = "run.status"%string;
qu_builds : builds s' = builds s;
qu_leases : leases s' = leases s }.
Lemma queue_run_queued org pid aid vid bid user input runtime ro now s :
wp (queue_run org pid aid vid bid user input runtime ro now)
  (λ rid s', queued s s' rid (new_run org pid aid vid bid user input runtime ro now) ro ∧ idempotency s' = idempotency s) s.
Proof.
unfold queue_run, update_run. wp_step. intros rid s1 [= <- <-]. do 4 wp_step. cbv zeta. do 2 wp_step. wp_step. breflect.
match goal with H : ¬ is_Some _ |- _ => apply eq_None_not_Some in H; cbn in H; rename H into Hnew end.
destruct ro.
- wp_step. wp_step. unfold log_event. do 2 wp_step. wp_step. apply wp_lift. intros l' (e & ->)%append_run_event_inv. do 2 wp_step.
  split; [|done]. constructor; cbn; try done. by eexists.
- wp_step. unfold insert_command. wp_step. intros cid s2 [= <- <-]. do 8 wp_step. unfold update_source. do 5 wp_step.
  unfold log_event. do 2 wp_step. wp_step. apply wp_lift. intros l' (e & ->)%append_run_event_inv. do 2 wp_step. breflect.
  split; [|done]. constructor; cbn; try done; [|by eexists].
  match goal with H : ¬ is_Some _ |- _ => apply eq_None_not_Some in H; cbn in H end. by do 2 eexists.
Qed.

(** ** The request *)

(** A request that found its record, and one that created its run. *)
Record recorded s vid v user key q (p : run_plan) (fp kd : pystr) (x : option (uuid * Run)) : Prop := {
rd_key : valid_idempotency_key key = true;
rd_plan : plan_run s vid v q = inr p;
rd_fingerprint : canonical_fingerprint (plan_document vid q p) = Some fp;
rd_digest : ∃ encoded, utf8_encode key = Some encoded ∧ kd = sha256_hex encoded;
rd_replay : replay_of (vr_organization_id v) (str_of_uuid user) create_run_endpoint kd fp (idempotency (plane s)) = inr x }.
Record run_created s s' vid v user q now (p : run_plan) (fp kd : pystr) (x : uuid * Run) : Prop := {
cr_run : x.2 = new_run (vr_organization_id v) (vr_project_id v) (vr_agent_id v) vid (pl_build_id p) user
  (input_reference q p) (runtime_dump (pl_runtime p)) (receipt_only p) now;
cr_plane : ∃ pl, queue_run (vr_organization_id v) (vr_project_id v) (vr_agent_id v) vid (pl_build_id p) user
    (input_reference q p) (runtime_dump (pl_runtime p)) (receipt_only p) now (plane s) = (inr x.1, pl) ∧
  core_of (plane s') = core_of pl ∧ workers (plane s') = workers pl ∧ projects (plane s') = projects pl ∧
  queued (plane s) pl x.1 x.2 (receipt_only p);
cr_hooks : ∃ ev payload rq, emit_event now (vr_organization_id v) (vr_project_id v) "run.created" "run" x.1 payload rq false (hooks s)
  = (inr ev, hooks s');
cr_egress : egress s' = egress s;
cr_queues : queues s' = queues s;
cr_record : idempotency (plane s') = idempotency (plane s) ++
  [MkIdempotency (vr_organization_id v) (str_of_uuid user) create_run_endpoint kd fp "run" x.1 (Some 202) (Some x)
     now (now + seconds (24 * 3600))] }.
Lemma create_run_inv vid v user key q rq at_ aid now s :
wp (create_run vid v user key q rq at_ aid now) (λ x s', ∃ p fp kd,
  (s' = s ∧ recorded s vid v user key q p fp kd (Some x)) ∨
  (run_created s s' vid v user q now p fp kd x ∧ recorded s vid v user key q p fp kd None)) s.
Proof.
unfold create_run. do 4 wp_step. wp_step. apply wp_lift. intros p Hp. wp_step. apply wp_lift. intros fp Hfp%fingerprint_inr.
wp_step. wp_step. cbv zeta. do 2 wp_step. wp_step. apply wp_lift. intros existing Hrep. breflect.
match goal with H : utf8_encode _ = Some ?e |- _ => set (kd := sha256_hex e) in * end.
assert (recorded s vid v user key q p fp kd existing) as Hrec.
{ constructor; try done. by eexists. }
destruct existing as [x|]; [wp_step; exists p, fp, kd; by left|].
wp_step. apply wp_on_plane. intros rid pl Hq. do 2 wp_step. do 2 wp_step. cbv beta in *.
wp_step. apply wp_on_hooks. intros ev h Hh. wp_step. apply wp_on_plane. wp_step. wp_step. apply wp_lift. intros digests Hd.
wp_step. apply wp_on_plane. do 2 wp_step. exists p, fp, kd. right. split; [|done].
destruct (queue_run_queued _ _ _ _ _ _ _ _ _ _ _ _ _ Hq) as [Hqu Hidem].
match goal with H : runs _ !! rid = Some ?r |- _ => cbn in H; pose proof H as Hr; rewrite (qu_runs _ _ _ _ _ Hqu), lookup_insert_eq in Hr; injection Hr as <- end.
constructor; cbn; try done.
- exists pl. by split_and!.
- do 3 eexists. exact Hh.
- by rewrite Hidem.
Qed.

(** ** Theorems *)

(** The limits of a run. *)
Lemma runtime_of_inr manifest q c : runtime_of manifest q = inr c →
∃ m u t, manifest_resource manifest "memoryMb" = inr m ∧ manifest_resource manifest "cpuUnits" = inr u ∧
  manifest_resource manifest "timeoutSeconds" = inr t ∧
  rc_memory_mb c = default m (cr_memory_mb q) ∧ rc_memory_mb c ≤ m ∧
  rc_cpu_millis c = default u (cr_cpu_millis q) ∧ rc_cpu_millis c ≤ u ∧
  rc_timeout_seconds c = default t (cr_timeout_seconds q) ∧ rc_timeout_seconds c ≤ t.
Proof.
unfold runtime_of, runtime_limit. intros Hc. checks Hc. injection Hc as <-.
repeat match goal with H : (if ?b then _ else _) = inr _ |- _ => destruct b eqn:?; [done|]; injection H as <- end.
breflect. do 3 eexists. by split_and!.
Qed.


(** Creating a run is idempotent as long as nothing it decided on has changed: repeating
  the request with its key, by any later session, returns the same run and changes nothing,
  provided the checks decide the same - the same build, egress policy, queue and settings.
  (When they decide otherwise the repetition is refused; see the findings.) *)
Theorem run_creation_replays vid v user key q rq at_ aid now s x s' rq' at' aid' now' s'' :
create_run vid v user key q rq at_ aid now s = (inr x, s') → plan_run s'' vid v q = plan_run s vid v q →
idempotency (plane s') `prefix_of` idempotency (plane s'') →
create_run vid v user key q rq' at' aid' now' s'' = (inr x, s'').
Proof.
intros (p & fp & kd & Hcase)%create_run_inv Hplan Hpre.
assert (∃ o, recorded s vid v user key q p fp kd o ∧
  replay_of (vr_organization_id v) (str_of_uuid user) create_run_endpoint kd fp (idempotency (plane s')) = inr (Some x)) as (o & Hrec & Hrep).
{ destruct Hcase as [[-> Hrec]|[Hc Hrec]]; [exists (Some x); split; [done|apply Hrec]|]. exists None. split; [done|].
  rewrite (cr_record _ _ _ _ _ _ _ _ _ _ _ Hc). apply replay_new, Hrec. }
apply (replay_stable _ _ _ _ _ _ _ _ Hpre) in Hrep. destruct Hrec as [Hkey Hp Hfp (encoded & He & ->) _].
unfold create_run. rewrite run_pass by by rewrite Hkey. rewrite run_gets, Hplan, Hp. cbn [lift]. rewrite run_ret.
unfold fingerprint. rewrite Hfp. cbn [lift]. rewrite run_ret, (run_some _ _ _ _ _ He). cbv zeta. rewrite run_gets, Hrep. done.
Qed.
End effects.

Section services.
Context `{Entropy, Sha256, CaseFold, PyRepr, FloatCompare, UrlTables, Idna, UpperCase, UnicodeDecimal, PyFloats, UnicodeAlnum}.
Context `{IsoForms, Settings, !CanarySettings, HmacSha256, TokenSource, Tokens, !PyInt, ArtifactChecks}.

(** Creating a run is a step of the services it calls: from a state the execution plane
  and the event service reach by their own operations, a creation leads to one they reach,
  the egress policies stay as they are; what is proved of each service therefore holds of
  runs created by this function. *)
Theorem creation_keeps_services vid v user key q rq at_ aid now t s x s' :
ExecutionSpec.reachable (t, plane s) → WebhooksSpec.reachable (hooks s) → EgressPoliciesSpec.reachable (egress s) → t ≤ now →
create_run vid v user key q rq at_ aid now s = (inr x, s') →
∃ t', t ≤ t' ≤ now ∧ ExecutionSpec.reachable (t', plane s') ∧ WebhooksSpec.reachable (hooks s') ∧
EgressPoliciesSpec.reachable (egress s').
Proof.
intros (t0 & ps & Hpl) Hh He Ht (p & fp & kd & [[-> _]|[Hc _]])%create_run_inv; [exists t; split_and!; try done; by exists t0, ps|].
destruct Hc as [_ (pl & Hq & Hcore & Hw & Hp & _) (ev & payload & rq' & Hev) -> _ _]. exists now. split_and!; try done.
- exists t0, ps. eapply rtc_r.
  + eapply rtc_r; [exact Hpl|]. apply (ExecutionSpec.step_op t now (QueueRun (vr_organization_id v) (vr_project_id v) (vr_agent_id v) vid
      (pl_build_id p) user (input_reference q p) (runtime_dump (pl_runtime p)) (receipt_only p)) rq); done.
  + apply step_external. unfold ExecutionSpec.transaction. cbn [ExecutionSpec.run_op]. unfold mbind, M_bind. rewrite Hq. cbn.
    constructor; [done|done|]. rewrite Hp. intros pid pr Hpr. exists pr. by split.
- eapply rtc_r; [exact Hh|]. exists (OpEmit now (vr_organization_id v) (vr_project_id v) "run.created" "run" x.1 payload rq' false).
  unfold WebhooksSpec.transaction. cbn [WebhooksSpec.run_op]. unfold mbind, M_bind. by rewrite Hev.
Qed.
End services.
