(* ===== verification/RunScenario.v ===== *)
(** A run from its request to its activation, on concrete services: the hypotheses of the
    theorems of RunCreationSpec.v, RunCreationEffects.v and AdmissionSpec.v hold in it. *)

From S2P Require Import Prelude PyVal Json PyUuid PyTime QueueProtocol EventProtocol Idempotency Url.
From S2P Require Import Recovery Pagination RunEvents EgressProtocol EgressPolicies EgressPoliciesSpec EgressScenario.
From S2P Require Import Webhooks WebhooksSpec ExecutionPlane LeaseProtocol ExecutionSteps ExecutionOps ExecutionSpec.
From S2P Require Import PyEq KvWorkerProtocol Canary Admission AdmissionSpec RunSchemas RunCreation RunCreationSpec RunCreationEffects.

Module RunScenario.
#[local] Existing Instances EgressScenario.fold_ascii EgressScenario.tables EgressScenario.no_idna EgressScenario.upper_letters.
#[local] Existing Instances EgressScenario.host_tables ExecutionScenario.stub_hmac ExecutionScenario.tokens.
#[local] Existing Instances ExecutionScenario.no_repr ExecutionScenario.no_forms ExecutionScenario.no_decimals.
#[local] Existing Instances ExecutionScenario.counting ExecutionScenario.any_artifact.
(** 64 hexadecimal digits that depend on every byte. *)
#[local] Instance short_digest : Sha256 := λ b, to_hex 64 (fold_left (λ n c, (n * 257 + c + 1) mod 2 ^ 61)%N b 7%N).
#[local] Instance no_fractions : FloatCompare := λ _ _, false.
#[local] Instance plain_floats : PyFloats := λ r, FFin r.
#[local] Instance ascii_alnum : UnicodeAlnum := λ _, false.
#[local] Instance hex_tokens : Tokens := λ n, dec_str n.
#[local] Instance int_only : PyInt.
Proof. by refine {| py_int v := match v with PInt z => inr z | PBool b => inr (int_of_bool b) | _ => inl (TypeError "int") end |}. Defined.

(** The operator's settings: a canary of version 4 on worker [canary-worker]. *)
#[local] Instance settings : Settings := {|
  worker_lease_seconds := 60; worker_lease_max_seconds := 3600; worker_max_attempts := 3;
  worker_retry_base_seconds := 5; worker_retry_max_seconds := 60; worker_cancel_convergence_seconds := 120;
  worker_secret_envelope_seconds := 60; worker_registration_max_concurrency := 4;
  worker_lost_after_seconds := 45; sandbox_max_build_seconds := 900; sandbox_max_run_seconds := 3600;
  sandbox_max_memory_mb := 512; sandbox_max_cpu_millis := 1000; sandbox_max_pids := 64;
  sandbox_max_ephemeral_disk_mb := 1024; sandbox_execution_enabled := true;
  sandbox_activation_mode := "canary"; sandbox_required_profile := "rdc.sandbox/v1"; canary_worker := lit "canary-worker";
  worker_token_pepper := []; lease_token_pepper := [] |}.
Definition raw_canary : canary_settings :=
MkCanary (str_of_uuid 4) 256 500 32 256 300 120 true [lit "Example.com."; lit "api.example.com"] (MkLimits 16 131072 262144 3 5 20)
  false false true false true true false true false 1 4 10 65536 65536 1048576 1048576.
Definition canary_of : canary_settings := match validate_canary raw_canary with inr c => c | inl _ => raw_canary end.
#[local] Instance canary_instance : CanarySettings := canary_of.
Lemma settings_validated : validate_canary raw_canary = inr canary.
Proof. vm_compute. reflexivity. Defined.

(** ** The services *)

Definition alice : actor := MkActor 7 "user" (str_of_uuid 7) "rq".
Definition spec : EgressPolicySpec := MkSpec [lit "EXAMPLE.com"] [lit "get"] (MkLimits 8 65536 131072 2 5 10) None.
(** Project 2 of organisation 1; policy 100 with its active revision 101. *)
Definition e0 : EgressPolicies.db := EgressPoliciesSpec.init <| EgressPolicies.projects := {[2%N := MkProjectScope 1 None]} |> <| secrets := ∅ |>.
Definition creation : EgressPoliciesSpec.op := Create 2 1 alice (lit "some-key") (MkCreatePolicy (lit "web") spec).
Definition e1 : EgressPolicies.db := EgressPoliciesSpec.transaction (EgressPoliciesSpec.run_op creation 5) e0.
Definition loaded : EgressPolicies.EgressPolicy :=
default (EgressPolicies.MkPolicy 0 0 [] "" None None None 0 0 0 0) (EgressPolicies.policies e1 !! 100%N).
Definition activation : EgressPoliciesSpec.op := Activate 100 loaded 101 1 alice.
Definition e2 : EgressPolicies.db := EgressPoliciesSpec.transaction (EgressPoliciesSpec.run_op activation 6) e1.
Lemma reachable_e0 : EgressPoliciesSpec.reachable e0.
Proof. eapply rtc_once, (step_other EgressPoliciesSpec.init). intros i r sid Hr. cbn in Hr. by rewrite lookup_empty in Hr. Qed.
Lemma reachable_e1 : EgressPoliciesSpec.reachable e1.
Proof. eapply rtc_r; [apply reachable_e0|]. apply (EgressPoliciesSpec.step_op _ creation 5). Qed.
Lemma reachable_e2 : EgressPoliciesSpec.reachable e2.
Proof. eapply rtc_r; [apply reachable_e1|]. apply (EgressPoliciesSpec.step_op _ activation 6). Qed.

Definition pairs (l : list (string * pyval)) : pyval := PDict ((λ kv, entry kv.1 kv.2) <$> l).
Definition manifest : list (pykey * pyval) :=
[entry "capabilities" (pairs [("network"%string, text "web-egress"); ("browser"%string, PBool false); ("dataset"%string, PBool true);
   ("keyValueStore"%string, PBool false); ("requestQueue"%string, PBool true)]);
 entry "resources" (pairs [("memoryMb"%string, PInt 128); ("cpuUnits"%string, PInt 250); ("maxProcesses"%string, PInt 16);
   ("ephemeralDiskMb"%string, PInt 128); ("timeoutSeconds"%string, PInt 60)]);
 entry "secrets" (PList [])].
Definition version : VersionRow := MkVersion 1 2 3 manifest.

(** The execution plane: worker 102 builds version 4 as build 103. *)
Definition source : StorageObject := MkStorageObject 1 2 "AVAILABLE" "PASSED" None (lit "digest") 10 (lit "application/zip").
Definition registration : RegisterWorkerRequest := MkRegister (lit "builder") ["BUILD"%string] 1 "1" (lit "1.0") None [].
Definition bearer : option pystr := Some (lit "Bearer rdc_worker_abcdefga_t1").
Definition image : ArtifactRegistration :=
MkRegistration "CONTAINER_IMAGE" "sha256" (lit "00") (lit "key") (lit "application/oci") 10 "AVAILABLE" "PASSED" [].
Definition at_ (t : Z) (o : ExecutionSpec.op) (s : ExecutionPlane.db) : ExecutionPlane.db :=
ExecutionSpec.transaction (ExecutionSpec.run_op o (seconds t) "rq") s.
Definition p0 : ExecutionPlane.db := empty_db {[2%N := MkProject "ACTIVE" None 2]}
  <| versions := {[4%N := MkAgentVersion manifest]} |> <| objects := {[8%N := source]} |>.
Definition p1 : ExecutionPlane.db := at_ 0 (Register registration) p0.
Definition p2 : ExecutionPlane.db := at_ 1 (QueueBuild 1 2 3 4 (lit "md") 8 source 60) p1.
Definition p3 : ExecutionPlane.db := at_ 2 (Claim bearer ∅ [BUILD]) p2.
Definition built : CompleteLeaseRequest := MkComplete Recovery.SUCCEEDED false None None [image].
Definition p4 : ExecutionPlane.db := at_ 3 (OnLease bearer 106 (Some (lit "rdc_lease_t5")) None (Complete ∅ built)) p3.

(** Queue 9 of the project; build 103. *)
Definition s0 : RunCreation.db := RunCreation.MkDb p4 e2 WebhooksSpec.empty_db {[9%N := MkTenant 1 2]}.
Definition request : CreateRunRequest :=
MkCreateRun 103 [] None None None (Some 9%N) (Some 100%N) (Some 128) None (Some 30).
Definition result {A} (d : A) (r : exn + A) : A := match r with inr x => x | inl _ => d end.
Definition blank_plan : run_plan := MkPlan 0 (MkRuntimeConfiguration 0 0 0) None None None.
Definition the_plan : run_plan := result blank_plan (plan_run s0 4 version request).
Abbreviation create now s := (create_run 4 version 6 (lit "run-key-1") request "rq-1" "user" (lit "6") now s).
Definition blank_run : Run := new_run 0 0 0 0 0 0 [] [] false 0.
Definition made : uuid * Run := result (0%N, blank_run) (create (seconds 4) s0).1.
Definition s1 : RunCreation.db := (create (seconds 4) s0).2.

(** The claim of the run by the canary worker. *)
Definition worker : WorkerIdentity :=
MkWorker (lit "canary-worker") [] [] ["RUN_START"; "REQUEST_QUEUE_ACCESS"; "DATASET_APPEND"]%string 1 WorkerStatus.ACTIVE "1" (lit "1") []
  (Some "rdc.sandbox/v1"%string) (Some (to_hex 64 1)) true (Some 0) 0 None None None None 0 None None.
Definition payload : list (pykey * pyval) :=
[entry "work_kind" (text "RUN_START"); entry "run_id" (PStr (str_of_uuid made.1)); entry "agent_version_id" (PStr (str_of_uuid 4));
 entry "manifest" (PDict manifest); entry "input_reference" (PDict (rn_input_reference made.2)); entry "artifact" (PDict [])].
Definition blank_facts : facts := MkFacts [] [] false false false false false [] None None None None.
Definition facts_of : facts := default blank_facts (result None (admission_facts payload)).
Definition sandbox_policy : option (list (pykey * pyval)) := result None (claim_policy worker payload).
Definition blank_activation : SandboxActivation :=
MkActivationReceipt 0 [] [] [] [] "" None None None false false false false false false false.
Definition activated : SandboxActivation := default blank_activation (result None (activate worker payload sandbox_policy)).

(** ** Witnesses *)

Lemma planned_run : plan_run s0 4 version request = inr the_plan.
Proof. vm_compute. reflexivity. Defined.
Lemma bound_run_is_admitted_witness : ∃ b, pl_policy the_plan = Some b ∧
bound_policy (input_reference request the_plan) = inr (Some (rpo_document b, rpo_binding b)) ∧ confined (rpo_document b).
Proof.
destruct (pl_policy the_plan) as [b|] eqn:Eb; [|exfalso; revert Eb; vm_compute; discriminate]. exists b. split; [reflexivity|].
destruct (bound_run_is_admitted raw_canary s0 4 version request the_plan b settings_validated reachable_e2 planned_run Eb) as (Ha & Hc & _).
split; [exact Ha|exact Hc].
Defined.
Lemma run_creation_replays_witness : create (seconds 9) s1 = (inr made, s1).
Proof.
apply (run_creation_replays 4 version 6 (lit "run-key-1") request "rq-1" "user" (lit "6") (seconds 4) s0 made s1);
  [vm_compute; reflexivity|vm_compute; reflexivity|reflexivity].
Defined.
Lemma run_reach_at t n o s : ExecutionSpec.reachable (t, s) → t ≤ seconds n → valid_op o = true → ExecutionSpec.reachable (seconds n, at_ n o s).
Proof. intros (u & ps & Hs) Ht Hv. exists u, ps. eapply rtc_r; [exact Hs|by apply ExecutionSpec.step_op]. Qed.
Lemma reach_p0 : ExecutionSpec.reachable (0, p0).
Proof.
exists 0, {[2%N := MkProject "ACTIVE" None 2]}. apply rtc_once, step_external.
split; [reflexivity|reflexivity|]. intros pid p Hp. exists p. split; [exact Hp|lia].
Qed.
Lemma reach_p4 : ExecutionSpec.reachable (seconds 3, p4).
Proof.
apply (run_reach_at (seconds 2)); [|done|reflexivity]. apply (run_reach_at (seconds 1)); [|done|reflexivity].
apply (run_reach_at (seconds 0)); [|done|reflexivity]. apply (run_reach_at 0); [exact reach_p0|done|reflexivity].
Qed.
Lemma creation_keeps_services_witness : create (seconds 4) s0 = (inr made, s1) ∧ WebhooksSpec.reachable (hooks s1).
Proof.
assert (Hc : create (seconds 4) s0 = (inr made, s1)) by (vm_compute; reflexivity). split; [exact Hc|].
destruct (creation_keeps_services 4 version 6 (lit "run-key-1") request "rq-1" "user" (lit "6") (seconds 4) (seconds 3) s0 made s1
  reach_p4 (rtc_refl _ _) reachable_e2 ltac:(vm_compute; discriminate) Hc) as (_ & _ & _ & Hh & _). exact Hh.
Defined.
Definition sealed : list (pykey * pyval) * option Activation * bool :=
result ([], None, false) (seal_payload RUN_START worker payload 0 PNone p4).1.
Definition sealing_activation : Activation := default (MkActivation "" 0 PNone) sealed.1.2.
Definition lease : ExecutionLease :=
MkLease 102 1 2 RUN_START 109 "rdc.run.requested.v1" None (Some made.1) [] [] sealed.1.1 LeaseStatus.ACTIVE 1 0 60 120 None None None None 0.
Lemma sealed_queue_access_is_accepted_witness : flag "request_queue_enabled" (dump_of sealed.1.2) = true ∧
∃ cap, dict_get "request_queue_capability" sealed.1.1 = PDict cap ∧ worker_queue_access lease worker = inr cap.
Proof.
split; [vm_compute; reflexivity|].
assert (Hs : seal_payload RUN_START worker payload 0 PNone p4 = (inr (sealed.1.1, Some sealing_activation, true), p4)) by (vm_compute; reflexivity).
assert (Hq : flag "request_queue_enabled" (dump_of (Some sealing_activation)) = true) by (vm_compute; reflexivity).
assert (Hb : as_str (dict_get "request_queue_browser_egress_policy_digest" (input_reference_of payload)) = None) by (vm_compute; reflexivity).
exact (sealed_queue_access_is_accepted RUN_START worker payload 0 PNone p4 p4 sealed.1.1 sealing_activation lease Hs Hq (or_intror Hb) eq_refl eq_refl).
Defined.

(** The repetition of a creation fails once the policy of the run is disabled: the checks
  come before the look-up of the record. *)
Definition active_policy : EgressPolicies.EgressPolicy :=
default (EgressPolicies.MkPolicy 0 0 [] "" None None None 0 0 0 0) (EgressPolicies.policies e2 !! 100%N).
Definition e3 : EgressPolicies.db :=
EgressPoliciesSpec.transaction (EgressPoliciesSpec.run_op (Disable 100 active_policy 2 alice) 7) e2.
Example repetition_refused_after_disabling :
(create (seconds 9) s1).1 = inr made ∧ (create (seconds 9) (s1 <| egress := e3 |>)).1 = inl not_found.
Proof. split; vm_compute; reflexivity. Qed.
End RunScenario.
