(* ===== verification/BrowserPolicy.v ===== *)
(** Browser policies of the sandbox worker: src/workers/sandbox-runtime/browser_policy.py
    and browser_egress_policy.py.  Main results: an accepted snapshot plan stays on the
    allowlist and within the limits; a resource the gateway lets through has a validated
    target; for hosts the control plane stores the documents are its own. *)

From S2P Require Import Prelude PyVal Json PyUuid QueueProtocol EventProtocol Idempotency Url.
From S2P Require Import EgressProtocol PyEq Canary SandboxJson SandboxEgress QueueWorker.

(** ** browser_policy.py *)

Record BrowserPolicy := MkBrowserPolicy {
  bp_enabled : bool;
  bp_allowed_hosts : list pystr;
  bp_max_pages : Z;
  bp_max_actions : Z;
  bp_navigation_timeout_seconds : Z;
  bp_max_dom_bytes : Z;
  bp_max_screenshot_bytes : Z }.

Definition browser_check : bool → string → exn + () := must "BrowserPolicyError".
Definition browser_get {A} : option A → string → exn + A := the "BrowserPolicyError".

(** [BrowserPolicy.as_dict]. *)
Definition browser_dict (p : BrowserPolicy) : list (pykey * pyval) :=
  [entry "schema_version" (text "rdc.browser-policy/v1"); entry "enabled" (PBool (bp_enabled p));
   entry "allowed_hosts" (PList (PStr <$> bp_allowed_hosts p)); entry "max_pages" (PInt (bp_max_pages p));
   entry "max_actions" (PInt (bp_max_actions p));
   entry "navigation_timeout_seconds" (PInt (bp_navigation_timeout_seconds p));
   entry "max_dom_bytes" (PInt (bp_max_dom_bytes p)); entry "max_screenshot_bytes" (PInt (bp_max_screenshot_bytes p));
   entry "agent_container_network" (text "none"); entry "project_secrets_available" (PBool false);
   entry "persistent_profile" (PBool false); entry "downloads_enabled" (PBool false);
   entry "uploads_enabled" (PBool false); entry "remote_cdp_enabled" (PBool false)].

Section policy.
Context `{CaseFold, UrlTables, Idna, UpperCase, Sha256}.

(** [BrowserPolicy.digest]. *)
Definition browser_digest (p : BrowserPolicy) : exn + pystr := ascii_digest (PDict (browser_dict p)).

(** [normalize_hostname]; [UnicodeError] of the codec is not handled. *)
Definition browser_hostname (value : pystr) : exn + pystr :=
let candidate := casefold (rstrip (lit ".") (py_strip value)) in
browser_check (negb (bool_decide (candidate = [])) && negb (bool_decide (42%N ∈ candidate))) "Browser host must be exact." ;;
browser_check (bool_decide (ip_address candidate = None)) "Browser host cannot be an IP literal." ;;
normalized ← match idna_encode candidate with Some n => inr n | None => inl UnicodeEncodeError end;
let labels := split_on 46 normalized in
browser_check ((2 <=? length labels)%nat && negb (ends_with (lit ".local") normalized) && forallb label_ok labels)
  "Browser host is unsafe." ;;
inr normalized.

(** [BrowserPolicy.create]. *)
Definition create_browser (enabled : bool) (allowed_hosts : list pystr)
  (max_pages max_actions navigation_timeout_seconds max_dom_bytes max_screenshot_bytes : Z) : exn + BrowserPolicy :=
hosts ← mapM browser_hostname allowed_hosts;
let normalized_hosts := sorted_set hosts in
browser_check (negb (enabled && bool_decide (normalized_hosts = []))) "Enabled browser policy requires an operator allowlist." ;;
browser_check (between 1 max_pages 2) "Browser page limit is unsafe." ;;
browser_check (between 1 max_actions 16) "Browser action limit is unsafe." ;;
browser_check (between 1 navigation_timeout_seconds 30) "Browser navigation timeout is unsafe." ;;
browser_check (between 65536 max_dom_bytes 4194304) "Browser DOM limit is unsafe." ;;
browser_check (between 65536 max_screenshot_bytes 4194304) "Browser screenshot limit is unsafe." ;;
inr (MkBrowserPolicy enabled normalized_hosts max_pages max_actions navigation_timeout_seconds max_dom_bytes max_screenshot_bytes).

(** [value not in {...}] for a set of texts: [TypeError] for a value without a hash. *)
Definition one_of (class : string) (allowed : list string) (value : pyval) (reason : string) : exn + pystr :=
if hashable value
then s ← the class (as_str value) reason; must class (bool_decide (s ∈ lit <$> allowed)) reason ;; inr s
else inl (TypeError "unhashable type").

(** The loop over the actions of a plan. *)
Fixpoint snapshot_actions (actions : list pyval) (seen : list pystr) : exn + list pyval :=
match actions with
| [] => inr []
| action :: actions =>
    d ← browser_get (as_dict action) "Browser snapshot fields are invalid.";
    browser_check (has_exact_keys ["id"; "type"; "include_html"] d) "Browser snapshot fields are invalid." ;;
    action_id ← browser_get (as_str (dict_get "id" d)) "Browser action id is invalid.";
    browser_check (safe_id action_id) "Browser action id is invalid." ;;
    browser_check (negb (bool_decide (action_id ∈ seen))) "Browser action ids must be unique." ;;
    browser_check (bool_decide (dict_get "type" d = text "snapshot")) "Phase 1L permits snapshot actions only." ;;
    include_html ← browser_get (as_bool (dict_get "include_html" d)) "include_html must be boolean.";
    rest ← snapshot_actions actions (action_id :: seen);
    inr (PDict [entry "id" (PStr action_id); entry "type" (text "snapshot"); entry "include_html" (PBool include_html)] :: rest)
end.

(** [validate_browser_plan]; [urlsplit] may raise [ValueError]. *)
Definition validate_browser_plan (raw : pyval) (policy : BrowserPolicy) : exn + list (pykey * pyval) :=
browser_check (bp_enabled policy) "Browser execution is disabled." ;;
d ← browser_get (as_dict raw) "Browser plan must be an object.";
browser_check (has_exact_keys ["schema_version"; "start_url"; "wait_until"; "actions"] d) "Browser plan fields are invalid." ;;
browser_check (bool_decide (dict_get "schema_version" d = text "rdc.browser/v1")) "Unsupported browser protocol." ;;
url ← browser_get (as_str (dict_get "start_url" d)) "Browser navigation requires HTTPS.";
browser_check (starts_with (lit "https://") url && (length url <=? N.to_nat 8192)%nat) "Browser navigation requires HTTPS." ;;
parsed ← match urlsplit url with Some r => inr r | None => inl (ValueError "urlsplit") end;
hostname ← browser_get (hostname_of (sr_netloc parsed)) "Browser URL requires a hostname.";
browser_check (negb (bool_decide (hostname = []))) "Browser URL requires a hostname." ;;
browser_check (bool_decide ((rpartition 64 (sr_netloc parsed)).1 = None)) "Browser URL credentials are prohibited." ;;
host ← browser_hostname hostname;
browser_check (bool_decide (host ∈ bp_allowed_hosts policy)) "Browser hostname is not operator-allowlisted." ;;
wait_until ← one_of "BrowserPolicyError" ["domcontentloaded"; "load"] (dict_get "wait_until" d) "Browser wait mode is unsupported.";
actions ← browser_get (as_list (dict_get "actions" d)) "Browser action count exceeds policy.";
browser_check ((1 <=? Z.of_nat (length actions)) && (Z.of_nat (length actions) <=? bp_max_actions policy))
  "Browser action count exceeds policy." ;;
normalized_actions ← snapshot_actions actions [];
policy_digest ← browser_digest policy;
inr [entry "schema_version" (text "rdc.browser/v1"); entry "start_url" (PStr url); entry "hostname" (PStr host);
     entry "wait_until" (PStr wait_until); entry "actions" (PList normalized_actions); entry "policy_digest" (PStr policy_digest)].
End policy.

(** ** browser_egress_policy.py *)

(** [BrowserEgressPolicy]: its base; [create]. *)
Definition create_browser_egress (base : EgressPolicy) : exn + EgressPolicy :=
  must "BrowserEgressPolicyError" (negb (bool_decide (ep_allowed_hosts base = [])))
    "Browser egress requires a non-empty operator allowlist." ;;
  inr base.

Definition RESOURCE_TYPES : list string := ["document"; "fetch"; "font"; "image"; "script"; "stylesheet"; "xhr"].
(** [BrowserEgressPolicy.as_dict]. *)
Definition browser_egress_dict (base : EgressPolicy) : list (pykey * pyval) :=
  let l := ep_limits base in
  [entry "schema_version" (text "rdc.browser-egress-policy/v1"); entry "mode" (text "gateway-live-canary");
   entry "allowed_schemes" (PList [text "https"]); entry "allowed_methods" (PList (PStr <$> ep_allowed_methods base));
   entry "allowed_resource_types" (PList (text <$> RESOURCE_TYPES));
   entry "allowed_hosts" (PList (PStr <$> ep_allowed_hosts base)); entry "deny_ip_literals" (PBool true);
   entry "require_global_dns" (PBool true); entry "pin_validated_address" (PBool true);
   entry "revalidate_redirects" (PBool true); entry "revalidate_subresources" (PBool true);
   entry "strip_request_headers" (PList (text <$> ["authorization"; "cookie"; "proxy-authorization"]%string));
   entry "strip_response_headers" (PList [text "set-cookie"]); entry "service_workers_enabled" (PBool false);
   entry "websockets_enabled" (PBool false); entry "webrtc_enabled" (PBool false);
   entry "proxy_override_enabled" (PBool false); entry "persistent_cookies_enabled" (PBool false);
   entry "max_requests" (PInt (el_max_requests l)); entry "max_resource_bytes" (PInt (el_max_response_bytes l));
   entry "max_total_bytes" (PInt (el_max_total_bytes l)); entry "max_redirects" (PInt (el_max_redirects l));
   entry "connect_timeout_seconds" (PInt (el_connect_timeout_seconds l));
   entry "request_timeout_seconds" (PInt (el_request_timeout_seconds l));
   entry "transport_wired" (PBool true); entry "browser_network" (text "none")].

Record BrowserValidatedResource := MkResource { re_type : pystr; re_method : pystr; re_target : ValidatedTarget }.
Definition resource_dict (r : BrowserValidatedResource) : list (pykey * pyval) :=
  [entry "resource_type" (PStr (re_type r)); entry "method" (PStr (re_method r)); entry "url" (PStr (vt_url (re_target r)));
   entry "hostname" (PStr (vt_hostname (re_target r))); entry "addresses" (PList (PStr <$> vt_addresses (re_target r)));
   entry "address_pin_required" (PBool true)].

Section egress.
Context `{CaseFold, UrlTables, Idna, UpperCase, Sha256, !Resolver, !GlobalAddress}.

(** [BrowserEgressPolicy.digest]. *)
Definition browser_egress_digest (base : EgressPolicy) : exn + pystr := ascii_digest (PDict (browser_egress_dict base)).

(** [validate_resource], and [validate_redirect], which is the same. *)
Definition validate_resource (base : EgressPolicy) (resource_type method url : pystr) : exn + BrowserValidatedResource :=
let normalized_type := casefold (py_strip resource_type) in
must "BrowserEgressPolicyError" (bool_decide (normalized_type ∈ lit <$> RESOURCE_TYPES))
  "Browser resource type is not allowed by gateway policy." ;;
let normalized_method := upper (py_strip method) in
must "BrowserEgressPolicyError" (bool_decide (normalized_method ∈ ALLOWED_METHODS)
  && bool_decide (normalized_method ∈ ep_allowed_methods base)) "Browser gateway permits GET and HEAD only." ;;
match validate_target base url with
| inr target => inr (MkResource normalized_type normalized_method target)
| inl (Fault "EgressPolicyError" _) => inl (Fault "BrowserEgressPolicyError" "Browser resource target failed egress policy.")
| inl e => inl e
end.
End egress.
