(* ===== verification/BrowserNavigation.v ===== *)
(** Browser navigation in the sandbox worker:
    src/workers/sandbox-runtime/browser_navigation_contract.py and
    browser_navigation_result.py.  Main results: an accepted plan is its own normal form,
    so its digest is the digest of what runs; an accepted result answers the plan step by
    step, within its limits, and was obtained through the gateway. *)

From S2P Require Import Prelude PyVal Json PyUuid Base64 QueueProtocol EventProtocol Idempotency Url.
From S2P Require Import KvProtocol EgressProtocol PyEq Canary SandboxJson SandboxEgress QueueWorker BrowserPolicy.

(** ** browser_navigation_contract.py *)

Definition MAX_SELECTOR_CHARS : nat := 512.
Definition MAX_TEXT_CHARS : Z := 131072.
Definition MAX_WAIT_MS : Z := 15000.

Definition nav_check : bool → string → exn + () := must "BrowserNavigationContractError".
Definition nav_get {A} : option A → string → exn + A := the "BrowserNavigationContractError".

(** [_action_id]; the identifiers seen so far. *)
Definition action_id (v : pyval) (seen : list pystr) : exn + pystr :=
  s ← nav_get (as_str v) "Browser step id is invalid.";
  nav_check (safe_id s) "Browser step id is invalid." ;;
  nav_check (negb (bool_decide (s ∈ seen))) "Browser step ids must be unique." ;;
  inr s.
(** [_selector]. *)
Definition selector (v : pyval) : exn + pystr :=
  s ← nav_get (as_str v) "Browser selector is invalid.";
  nav_check (negb (bool_decide (s = [])) && (length s <=? MAX_SELECTOR_CHARS)%nat && negb (bool_decide (0%N ∈ s))
             && negb (bool_decide (13%N ∈ s)) && negb (bool_decide (10%N ∈ s))) "Browser selector is invalid." ;;
  inr s.
(** An [int] that is no [bool], within limits. *)
Definition bounded (class : string) (lo hi : Z) (v : pyval) (reason : string) : exn + Z :=
  z ← the class (as_int v) reason; must class (between lo z hi) reason ;; inr z.

Section contract.
Context `{CaseFold, UrlTables, Idna, UpperCase, Sha256}.

(** [_https_url]: the URL and its host. *)
Definition navigation_url (v : pyval) (policy : BrowserPolicy) : exn + pystr * pystr :=
url ← nav_get (as_str v) "Browser navigation requires lowercase HTTPS.";
nav_check (starts_with (lit "https://") url) "Browser navigation requires lowercase HTTPS." ;;
nav_check (length url <=? N.to_nat 8192)%nat "Browser navigation URL is too long." ;;
parsed ← nav_get (urlsplit url) "Browser navigation URL is malformed.";
hostname ← nav_get (hostname_of (sr_netloc parsed)) "Browser navigation URL requires a hostname.";
nav_check (negb (bool_decide (hostname = []))) "Browser navigation URL requires a hostname." ;;
nav_check (bool_decide ((rpartition 64 (sr_netloc parsed)).1 = None)) "Browser navigation URL credentials are prohibited." ;;
host ← match browser_hostname hostname with
       | inl (Fault "BrowserPolicyError" _) => inl (Fault "BrowserNavigationContractError" "Browser navigation hostname is unsafe.")
       | r => r
       end;
nav_check (bool_decide (host ∈ bp_allowed_hosts policy)) "Browser navigation hostname is not operator-allowlisted." ;;
inr (url, host).

(** [canonical_browser_navigation_digest]. *)
Definition navigation_digest (v : pyval) : exn + pystr :=
nav_get (canonical_digest v) "Browser navigation envelope must contain valid JSON values.".

(** A step other than [goto], normalised. *)
Definition other_step (policy : BrowserPolicy) (step_id : pystr) (d : list (pykey * pyval)) : exn + list (pykey * pyval) :=
let type := dict_get "type" d in
if bool_decide (type = text "wait_for_selector") then
  nav_check (has_exact_keys ["id"; "type"; "selector"; "state"; "timeout_ms"] d) "Browser wait step fields are invalid." ;;
  sel ← selector (dict_get "selector" d);
  state ← one_of "BrowserNavigationContractError" ["attached"; "visible"] (dict_get "state" d)
            "Browser selector wait state is unsupported.";
  timeout_ms ← bounded "BrowserNavigationContractError" 100 (Z.min MAX_WAIT_MS (bp_navigation_timeout_seconds policy * 1000))
                 (dict_get "timeout_ms" d) "Browser selector wait timeout is unsafe.";
  inr [entry "id" (PStr step_id); entry "type" (text "wait_for_selector"); entry "selector" (PStr sel);
       entry "state" (PStr state); entry "timeout_ms" (PInt timeout_ms)]
else if bool_decide (type = text "extract_text") then
  nav_check (has_exact_keys ["id"; "type"; "selector"; "max_chars"] d) "Browser text extraction step fields are invalid." ;;
  sel ← selector (dict_get "selector" d);
  max_chars ← bounded "BrowserNavigationContractError" 1 MAX_TEXT_CHARS (dict_get "max_chars" d)
                "Browser text extraction limit is unsafe.";
  inr [entry "id" (PStr step_id); entry "type" (text "extract_text"); entry "selector" (PStr sel);
       entry "max_chars" (PInt max_chars)]
else if bool_decide (type = text "extract_html") then
  nav_check (has_exact_keys ["id"; "type"; "selector"; "max_bytes"] d) "Browser HTML extraction step fields are invalid." ;;
  sel ← selector (dict_get "selector" d);
  max_bytes ← bounded "BrowserNavigationContractError" 1 (bp_max_dom_bytes policy) (dict_get "max_bytes" d)
                "Browser HTML extraction limit is unsafe.";
  inr [entry "id" (PStr step_id); entry "type" (text "extract_html"); entry "selector" (PStr sel);
       entry "max_bytes" (PInt max_bytes)]
else if bool_decide (type = text "screenshot") then
  nav_check (has_exact_keys ["id"; "type"; "full_page"] d) "Browser screenshot step fields are invalid." ;;
  nav_check (bool_decide (dict_get "full_page" d = PBool false)) "Phase 1M foundation permits viewport screenshots only." ;;
  inr [entry "id" (PStr step_id); entry "type" (text "screenshot"); entry "full_page" (PBool false)]
else inl (Fault "BrowserNavigationContractError" "Browser navigation step type is unsupported.").

(** The loop over the steps: [first] at index 0; the normalised steps and the hosts of the
  [goto] steps, of which [pages] came before. *)
Fixpoint navigation_steps (policy : BrowserPolicy) (first : bool) (seen : list pystr) (pages : Z) (steps : list pyval)
  : exn + list pyval * list pystr :=
match steps with
| [] => inr ([], [])
| step :: steps =>
    d ← nav_get (as_dict step) "Browser navigation step must be an object.";
    step_id ← action_id (dict_get "id" d) seen;
    if bool_decide (dict_get "type" d = text "goto") then
      nav_check (has_exact_keys ["id"; "type"; "url"; "wait_until"] d) "Browser goto step fields are invalid." ;;
      target ← navigation_url (dict_get "url" d) policy;
      wait ← one_of "BrowserNavigationContractError" ["domcontentloaded"; "load"] (dict_get "wait_until" d)
               "Browser navigation wait mode is unsupported.";
      nav_check (pages + 1 <=? bp_max_pages policy) "Browser navigation page count exceeds policy." ;;
      rest ← navigation_steps policy false (step_id :: seen) (pages + 1) steps;
      inr (PDict [entry "id" (PStr step_id); entry "type" (text "goto"); entry "url" (PStr target.1);
                  entry "wait_until" (PStr wait)] :: rest.1, target.2 :: rest.2)
    else
      nav_check (negb first) "The first browser navigation step must be goto." ;;
      n ← other_step policy step_id d;
      rest ← navigation_steps policy false (step_id :: seen) pages steps;
      inr (PDict n :: rest.1, rest.2)
end.

Definition plan_document (steps : list pyval) : list (pykey * pyval) :=
[entry "schema_version" (text "rdc.browser/v2"); entry "steps" (PList steps)].
Definition normalized_plan (steps : list pyval) (hostnames : list pystr) (policy_digest request_digest : pystr)
  : list (pykey * pyval) :=
plan_document steps ++
[entry "hostnames" (PList (PStr <$> hostnames)); entry "policy_digest" (PStr policy_digest);
 entry "request_digest" (PStr request_digest); entry "execution_enabled" (PBool false); entry "browser_network" (text "none")].

(** [validate_browser_navigation_plan]. *)
Definition validate_browser_navigation_plan (raw : pyval) (policy : BrowserPolicy) : exn + list (pykey * pyval) :=
nav_check (bp_enabled policy) "Browser execution is disabled." ;;
d ← nav_get (as_dict raw) "Browser navigation plan must be an object.";
nav_check (has_exact_keys ["schema_version"; "steps"] d) "Browser navigation plan fields are invalid." ;;
nav_check (bool_decide (dict_get "schema_version" d = text "rdc.browser/v2")) "Unsupported browser navigation protocol." ;;
steps ← nav_get (as_list (dict_get "steps" d)) "Browser navigation step count exceeds policy.";
nav_check ((1 <=? Z.of_nat (length steps)) && (Z.of_nat (length steps) <=? bp_max_actions policy))
  "Browser navigation step count exceeds policy." ;;
normalized ← navigation_steps policy true [] 0 steps;
nav_check (negb (bool_decide (normalized.2 = []))) "Browser navigation requires at least one goto step." ;;
policy_digest ← browser_digest policy;
request_digest ← navigation_digest (PDict (plan_document normalized.1));
inr (normalized_plan normalized.1 normalized.2 policy_digest request_digest).
End contract.

(** ** browser_navigation_result.py *)

Definition MAX_RESULT_BYTES : Z := 16777216.
Definition result_check : bool → string → exn + () := must "BrowserNavigationResultError".
Definition result_get {A} : option A → string → exn + A := the "BrowserNavigationResultError".

Section result.
Context `{Sha256}.

(** The text of a step and its limit, in the unit [measure] counts. *)
Definition extracted (key limit : string) (fields : list string) (measure : pystr → exn + Z) (kind : string)
  (plan raw : list (pykey * pyval)) : exn + () :=
result_check (has_exact_keys fields raw) ("Browser " ++ kind ++ " result fields are invalid.") ;;
s ← result_get (as_str (dict_get key raw)) ("Browser " ++ kind ++ " result values are invalid.");
result_get (as_bool (dict_get "truncated" raw)) ("Browser " ++ kind ++ " result values are invalid.") ;;
maximum ← result_get (as_int (dict_get limit plan)) ("Browser " ++ kind ++ " result exceeded the plan limit.");
n ← measure s;
result_check (n <=? maximum) ("Browser " ++ kind ++ " result exceeded the plan limit.").
Definition count_chars (s : pystr) : exn + Z := inr (Z.of_nat (length s)).
Definition count_bytes (s : pystr) : exn + Z :=
match utf8_encode s with Some b => inr (Z.of_nat (length b)) | None => inl UnicodeEncodeError end.

Definition screenshot_result (max_screenshot_bytes : Z) (plan raw : list (pykey * pyval)) : exn + () :=
result_check (has_exact_keys ["id"; "type"; "media_type"; "image_base64"; "size_bytes"; "sha256"] raw)
  "Browser screenshot result fields are invalid." ;;
result_check (bool_decide (dict_get "full_page" plan = PBool false)) "Browser screenshot result plan is unsafe." ;;
result_check (bool_decide (dict_get "media_type" raw = text "image/png")) "Browser screenshot media type is invalid." ;;
image_base64 ← result_get (as_str (dict_get "image_base64" raw)) "Browser screenshot result values are invalid.";
size_bytes ← bounded "BrowserNavigationResultError" 0 max_screenshot_bytes (dict_get "size_bytes" raw)
               "Browser screenshot result values are invalid.";
digest ← result_get (as_str (dict_get "sha256" raw)) "Browser screenshot result values are invalid.";
result_check (sha256_text digest) "Browser screenshot result values are invalid." ;;
image ← result_get (b64decode_strict image_base64) "Browser screenshot base64 is invalid.";
result_check (Z.of_nat (length image) =? size_bytes) "Browser screenshot size does not match." ;;
result_check (bool_decide (sha256_hex image = digest)) "Browser screenshot digest does not match.".

(** The checks that depend on the type of a step. *)
Definition step_result (max_screenshot_bytes : Z) (type : pystr) (plan raw : list (pykey * pyval)) : exn + () :=
if bool_decide (type = lit "goto") then
  result_check (has_exact_keys ["id"; "type"; "url"] raw) "Browser goto result fields are invalid." ;;
  url ← result_get (as_str (dict_get "url" raw)) "Browser goto result URL is invalid.";
  result_check (starts_with (lit "https://") url) "Browser goto result URL is invalid."
else if bool_decide (type = lit "wait_for_selector") then
  result_check (has_exact_keys ["id"; "type"; "matched"] raw) "Browser wait result fields are invalid." ;;
  result_check (bool_decide (dict_get "matched" raw = PBool true)) "Browser wait result is not matched."
else if bool_decide (type = lit "extract_text") then
  extracted "text" "max_chars" ["id"; "type"; "text"; "truncated"] count_chars "text" plan raw
else if bool_decide (type = lit "extract_html") then
  extracted "html" "max_bytes" ["id"; "type"; "html"; "truncated"] count_bytes "HTML" plan raw
else if bool_decide (type = lit "screenshot") then screenshot_result max_screenshot_bytes plan raw
else inl (Fault "BrowserNavigationResultError" "Browser navigation result step type is unsupported.").

(** The loop over the steps of plan and result. *)
Fixpoint step_results (max_screenshot_bytes : Z) (seen : list pystr) (plan_steps raw_steps : list pyval) : exn + list pyval :=
match plan_steps, raw_steps with
| plan_step :: plan_steps, raw :: raw_steps =>
    plan ← result_get (as_dict plan_step) "Browser navigation result step is invalid.";
    raw ← result_get (as_dict raw) "Browser navigation result step is invalid.";
    step_id ← result_get (as_str (dict_get "id" raw)) "Browser navigation result step identity is invalid.";
    result_check (safe_id step_id && negb (bool_decide (step_id ∈ seen))) "Browser navigation result step identity is invalid." ;;
    type ← result_get (as_str (dict_get "type" raw)) "Browser navigation result step identity is invalid.";
    result_check (bool_decide (dict_get "id" plan = PStr step_id) && bool_decide (dict_get "type" plan = PStr type))
      "Browser navigation result step does not match the plan." ;;
    step_result max_screenshot_bytes type plan raw ;;
    rest ← step_results max_screenshot_bytes (step_id :: seen) plan_steps raw_steps;
    inr (PDict raw :: rest)
| _, _ => inr []
end.

Definition RESULT_BUDGET : list string :=
["requests_used"; "bytes_received"; "redirects_used"; "max_requests"; "max_total_bytes"; "max_redirects"].
Definition budget_value (d : list (pykey * pyval)) (key : string) : exn + Z :=
z ← result_get (as_int (dict_get key d)) "Browser navigation result budget value is invalid.";
result_check (0 <=? z) "Browser navigation result budget value is invalid." ;;
inr z.
(** The budget, whose members are read in some order and give the same error. *)
Definition result_budget (v : pyval) : exn + list (pykey * pyval) :=
d ← result_get (as_dict v) "Browser navigation result egress budget is invalid.";
result_check (has_exact_keys RESULT_BUDGET d) "Browser navigation result egress budget is invalid." ;;
requests_used ← budget_value d "requests_used";
bytes_received ← budget_value d "bytes_received";
redirects_used ← budget_value d "redirects_used";
max_requests ← budget_value d "max_requests";
max_total_bytes ← budget_value d "max_total_bytes";
max_redirects ← budget_value d "max_redirects";
result_check (requests_used <=? max_requests) "Browser navigation result request budget was exceeded." ;;
result_check (bytes_received <=? max_total_bytes) "Browser navigation result byte budget was exceeded." ;;
result_check (redirects_used <=? max_redirects) "Browser navigation result redirect budget was exceeded." ;;
inr [entry "requests_used" (PInt requests_used); entry "bytes_received" (PInt bytes_received);
     entry "redirects_used" (PInt redirects_used); entry "max_requests" (PInt max_requests);
     entry "max_total_bytes" (PInt max_total_bytes); entry "max_redirects" (PInt max_redirects)].

(** The plan a result is checked against. *)
Definition result_plan (request_digest : pystr) (navigation_plan : pyval) : exn + list pyval :=
p ← result_get (as_dict navigation_plan) "Browser navigation result plan is invalid.";
result_check (has_exact_keys ["schema_version"; "steps"] p
              && bool_decide (dict_get "schema_version" p = text "rdc.browser/v2")) "Browser navigation result plan is invalid." ;;
plan_steps ← result_get (as_list (dict_get "steps" p)) "Browser navigation result plan step count is invalid.";
result_check ((1 <=? length plan_steps) && (length plan_steps <=? 16))%nat
  "Browser navigation result plan step count is invalid." ;;
digest ← result_get (canonical_digest navigation_plan) "Browser navigation plan contains invalid JSON values.";
result_check (bool_decide (digest = request_digest)) "Browser navigation result plan digest mismatch." ;;
inr plan_steps.

(** [validate_browser_navigation_result]. *)
Definition validate_browser_navigation_result (v : pyval)
  (request_digest browser_policy_digest browser_egress_policy_digest : pystr) (navigation_plan : pyval)
  (max_screenshot_bytes : Z) : exn + list (pykey * pyval) :=
result_check (sha256_text request_digest && sha256_text browser_policy_digest && sha256_text browser_egress_policy_digest)
  "Browser navigation result expected digest is invalid." ;;
result_check (between 65536 max_screenshot_bytes 4194304) "Browser navigation result screenshot limit is unsafe." ;;
plan_steps ← result_plan request_digest navigation_plan;
d ← result_get (as_dict v) "Browser navigation result fields are invalid.";
result_check (has_exact_keys BROWSER_RESULT_FIELDS d) "Browser navigation result fields are invalid." ;;
result_check (bool_decide (dict_get "schema_version" d = text "rdc.browser-navigation-result/v1"))
  "Browser navigation result version is unsupported." ;;
result_check (bool_decide (dict_get "request_digest" d = PStr request_digest))
  "Browser navigation result request digest mismatch." ;;
result_check (bool_decide (dict_get "browser_policy_digest" d = PStr browser_policy_digest))
  "Browser navigation result browser-policy digest mismatch." ;;
result_check (bool_decide (dict_get "browser_egress_policy_digest" d = PStr browser_egress_policy_digest))
  "Browser navigation result egress-policy digest mismatch." ;;
result_check (bool_decide (dict_get "browser_network" d = text "none")) "Browser navigation result network boundary changed." ;;
result_check (bool_decide (dict_get "gateway_transport" d = text "unix")) "Browser navigation result gateway transport changed." ;;
result_check (bool_decide (dict_get "gateway_live_forwarding" d = PBool true))
  "Browser navigation result did not use the gateway." ;;
final_url ← result_get (as_str (dict_get "final_url" d)) "Browser navigation result final URL is invalid.";
result_check (starts_with (lit "https://") final_url) "Browser navigation result final URL is invalid." ;;
raw_steps ← result_get (as_list (dict_get "steps" d)) "Browser navigation result step count does not match the plan.";
result_check (length raw_steps =? length plan_steps)%nat "Browser navigation result step count does not match the plan." ;;
normalized_steps ← step_results max_screenshot_bytes [] plan_steps raw_steps;
budget ← result_budget (dict_get "egress_budget" d);
encoded ← match json_dumps_ascii v with Some t => inr t | None => inl (ValueError "json") end;
result_check (Z.of_nat (length encoded) <=? MAX_RESULT_BYTES) "Browser navigation result envelope is too large." ;;
inr (dict_set (KStr (lit "egress_budget")) (PDict budget) (dict_set (KStr (lit "steps")) (PList normalized_steps) d)).
End result.
