(* ===== verification/BrowserNavigationSpec.v ===== *)
(** What browser navigation guarantees: the digest of an accepted plan is the digest of the
    plan that runs, and the navigations the control plane accepts are accepted. *)

From S2P Require Import Prelude PyVal Json PyUuid Base64 QueueProtocol EventProtocol Idempotency Url.
From S2P Require Import Recovery Pagination RunEvents ExecutionPlane EgressProtocol PyEq Canary Admission RunSchemas RunCreation.
From S2P Require Import SandboxJson SandboxEgress QueueWorker BrowserPolicy BrowserNavigation.

(** ** Documents with exact keys *)

Lemma entry_inj k k' v v' : entry k v = entry k' v' → k = k'.
Proof. intros [= Hk%lit_inj _]. done. Qed.
Lemma exact_entries ks d : NoDup ks → NoDup d.*1 → has_exact_keys ks d = true →
d ≡ₚ (λ k, entry k (dict_get k d)) <$> ks.
Proof.
intros Hks Hd [Hin Hall]%andb_prop. rewrite forallb_forall in Hin. rewrite forallb_forall in Hall.
assert (Hget : ∀ k v, (KStr (lit k), v) ∈ d → dict_get k d = v).
{ intros k v Hv%elem_of_dict_find; [|done]. unfold dict_get. by rewrite Hv. }
apply NoDup_Permutation; [by apply NoDup_fmap_1 in Hd| |].
- apply NoDup_fmap_2_strong; [|done]. intros k k' _ _. apply entry_inj.
- intros [key v]. rewrite list_elem_of_fmap. split.
  + intros Hv. specialize (Hin _ (proj1 (list_elem_of_In _ _) Hv)). apply existsb_exists in Hin as (k & Hk & Heq).
    apply bool_decide_eq_true in Heq. cbn in Heq. subst key. exists k. split; [|by apply list_elem_of_In].
    unfold entry. by rewrite (Hget _ _ Hv).
  + intros (k & Heq & Hk). specialize (Hall _ (proj1 (list_elem_of_In _ _) Hk)). apply existsb_exists in Hall as ([key' v'] & Hv & Hkey).
    apply bool_decide_eq_true in Hkey. cbn in Hkey. subst key'. apply list_elem_of_In in Hv. injection Heq as -> ->.
    by rewrite (Hget _ _ Hv).
Qed.
(** The canonical form depends on the fields only. *)
Lemma canon_exact ks vs d : NoDup ks → NoDup d.*1 → has_exact_keys ks d = true →
Forall2 (λ k v, canon (dict_get k d) = canon v) ks vs → canon (PDict d) = canon (PDict (zip_with entry ks vs)).
Proof.
intros Hks Hd He Hv. rewrite !canon_dict. f_equal. pose proof (exact_entries ks d Hks Hd He) as Hp.
apply merge_sort_items; [by rewrite fst_prod_map| |].
- unfold str_keys. rewrite Forall_fmap, Hp, Forall_fmap. by apply Forall_forall.
- rewrite Hp at 1. rewrite <- list_fmap_compose.
  assert (prod_map id canon ∘ (λ k, entry k (dict_get k d)) <$> ks = prod_map id canon <$> zip_with entry ks vs) as ->; [|done].
  clear -Hv. induction Hv as [|k v ks vs Hkv _ IH]; [done|]. cbn. rewrite IH. unfold prod_map at 1. cbn. by rewrite Hkv.
Qed.

(** ** Plans *)

Section contract.
Context `{CaseFold, UrlTables, Idna, UpperCase, Sha256, PyFloats}.

Lemma as_list_Some v l : as_list v = Some l → v = PList l.
Proof. destruct v; try done. by intros [= ->]. Qed.
Lemma action_id_inr v seen s : action_id v seen = inr s → v = PStr s.
Proof. unfold action_id, nav_check, nav_get. intros Ha. musts Ha. injection Ha as <-. by apply as_str_Some. Qed.
Lemma selector_inr v s : selector v = inr s → v = PStr s.
Proof. unfold selector, nav_check, nav_get. intros Ha. musts Ha. injection Ha as <-. by apply as_str_Some. Qed.
Lemma bounded_inr c lo hi v r z : bounded c lo hi v r = inr z → v = PInt z ∧ lo ≤ z ≤ hi.
Proof.
unfold bounded. intros Ha. musts Ha. injection Ha as <-. apply as_int_Some in E as ->. unfold between in E0. breflect. done.
Qed.
Lemma one_of_inr c allowed v r s : one_of c allowed v r = inr s → v = PStr s ∧ s ∈ lit <$> allowed.
Proof.
unfold one_of. destruct (hashable v); [|done]. intros Ha. musts Ha. injection Ha as <-. apply as_str_Some in E as ->. by breflect.
Qed.
Lemma navigation_url_inr v policy t : navigation_url v policy = inr t → v = PStr t.1 ∧ t.2 ∈ bp_allowed_hosts policy.
Proof.
unfold navigation_url, nav_check, nav_get. intros Ha. musts Ha. injection Ha as <-. apply as_str_Some in E as ->. by breflect.
Qed.

Lemma other_step_canon policy id d n : wf_json (PDict d) → dict_get "id" d = PStr id → other_step policy id d = inr n →
canon (PDict d) = canon (PDict n).
Proof.
intros [Hnd _]%wf_dict Hid. unfold other_step, nav_check, nav_get. cbv zeta.
repeat (match goal with |- context [bool_decide (dict_get "type" d = ?t)] => destruct (bool_decide_reflect (dict_get "type" d = t)) as [Ht|_] end;
  [intros Ho; musts Ho; injection Ho as <-|]); [..|done].
all: repeat match goal with
  | E : selector _ = inr _ |- _ => apply selector_inr in E
  | E : one_of _ _ _ _ = inr _ |- _ => apply one_of_inr in E as [E _]
  | E : bounded _ _ _ _ _ = inr _ |- _ => apply bounded_inr in E as [E _]
  | E : bool_decide (_ = PBool false) = true |- _ => apply (proj1 (bool_decide_eq_true _)) in E
  end.
- apply (canon_exact ["id"; "type"; "selector"; "state"; "timeout_ms"]
    [PStr id; text "wait_for_selector"; PStr a; PStr a0; PInt a1]); [by compute_done|done..|].
  repeat (apply Forall2_cons; split; [by f_equal|]). constructor.
- apply (canon_exact ["id"; "type"; "selector"; "max_chars"] [PStr id; text "extract_text"; PStr a; PInt a0]); [by compute_done|done..|].
  repeat (apply Forall2_cons; split; [by f_equal|]). constructor.
- apply (canon_exact ["id"; "type"; "selector"; "max_bytes"] [PStr id; text "extract_html"; PStr a; PInt a0]); [by compute_done|done..|].
  repeat (apply Forall2_cons; split; [by f_equal|]). constructor.
- apply (canon_exact ["id"; "type"; "full_page"] [PStr id; text "screenshot"; PBool false]); [by compute_done|done..|].
  repeat (apply Forall2_cons; split; [by f_equal|]). constructor.
Qed.

(** Normalising the steps keeps them, and their hosts are allowed. *)
Lemma navigation_steps_canon policy first seen pages steps r : Forall wf_json steps →
navigation_steps policy first seen pages steps = inr r →
canon <$> r.1 = canon <$> steps ∧ Forall (λ h, h ∈ bp_allowed_hosts policy) r.2 ∧
(pages ≤ bp_max_pages policy → pages + Z.of_nat (length r.2) ≤ bp_max_pages policy).
Proof.
intros Hw. revert first seen pages r. induction Hw as [|step steps Hs Hw IH]; intros first seen pages r; cbn [navigation_steps].
{ intros [= <-]. split_and!; [done|constructor|cbn; lia]. }
unfold nav_get, nav_check. intros Hn. must_step Hn. apply as_dict_Some in E as ->. must_step Hn. pose proof (action_id_inr _ _ _ E) as Hid.
destruct (bool_decide_reflect (dict_get "type" a = text "goto")) as [Ht|_].
- musts Hn. injection Hn as <-. apply wf_dict in Hs as [Hnd _].
  match goal with Hr : navigation_steps _ _ _ _ _ = inr _ |- _ => destruct (IH _ _ _ _ Hr) as (Hc & Hh & Hl) end.
  match goal with Hr : navigation_url _ _ = inr _ |- _ => apply navigation_url_inr in Hr as [Hurl Hhost] end.
  match goal with Hr : one_of _ _ _ _ = inr _ |- _ => apply one_of_inr in Hr as [Hwait _] end. breflect.
  cbn [fst snd]. rewrite !fmap_cons. split_and!; [f_equal; [|done]|by constructor|cbn [length]; lia].
  symmetry. match goal with |- canon (PDict ?d) = canon (PDict [_; _; entry _ ?u; entry _ ?w]) =>
    apply (canon_exact ["id"; "type"; "url"; "wait_until"] [PStr a0; text "goto"; u; w] d) end; [by compute_done|done..|].
  repeat (apply Forall2_cons; split; [by f_equal|]). constructor.
- musts Hn. injection Hn as <-.
  match goal with Hr : navigation_steps _ _ _ _ _ = inr _ |- _ => destruct (IH _ _ _ _ Hr) as (Hc & Hh & Hl) end.
  match goal with Hr : other_step _ _ _ = inr _ |- _ => apply other_step_canon in Hr; [|done..] end.
  cbn [fst snd]. rewrite !fmap_cons. split_and!; [f_equal; [|done]|done|done]. done.
Qed.

End contract.

(** ** Agreement with the control plane *)

Section agreement.
Context `{CaseFold, UrlTables, Idna, UpperCase, Sha256, UnicodeDecimal, PyRepr, Settings, !CanarySettings}.

Lemma exact_browser_hostname v h : exact_hostname false v = Some h → browser_hostname v = inr h.
Proof.
unfold exact_hostname, browser_hostname, browser_check. set (candidate := casefold _).
destruct (_ || _) eqn:Hb; [done|]. apply orb_false_iff in Hb as [-> ->]. cbn [negb andb must mbind sum_bind].
case_bool_decide as Hip; [done|]. rewrite must_ok by (apply bool_decide_eq_true_2; by destruct (ip_address candidate); [destruct Hip|]).
destruct (idna_encode candidate) as [n|]; [|done]. cbn [mbind option_bind sum_bind andb orb].
destruct (_ || negb _) eqn:Hc; [done|]. intros [= <-]. rewrite !orb_false_iff in Hc. destruct Hc as [[Hl Hs] Hlab].
apply negb_false_iff in Hlab. apply Nat.ltb_ge in Hl. rewrite Hs, Hlab, (proj2 (Nat.leb_le _ _) Hl). done.
Qed.
Lemma exact_hostname_nonempty `{!HostTables} b h v : exact_hostname b v = Some h → v ≠ [].
Proof. unfold exact_hostname. intros He ->. by rewrite casefold_ascii in He by constructor. Qed.
Lemma navigation_hostnames_inr l hosts : navigation_hostnames l = inr hosts →
mapM browser_hostname l = inr hosts.
Proof.
revert hosts. induction l as [|v l IH]; intros hosts; cbn [navigation_hostnames mapM]; [done|]. unfold navigation_hostname.
destruct (exact_hostname false v) as [h|] eqn:E; [|done]. cbn [mbind sum_bind]. intros (hs & Hhs & [= <-])%sum_bind_inr.
by rewrite (exact_browser_hostname _ _ E), (IH _ Hhs).
Qed.

Lemma navigation_url_accepts `{!HostTables} policy url p h host : valid_url url = true → urlsplit url = Some p →
hostname_of (sr_netloc p) = Some h → exact_hostname false h = Some host → host ∈ bp_allowed_hosts policy →
navigation_url (PStr url) policy = inr (url, host).
Proof.
unfold valid_url. rewrite !andb_true_iff. intros (((_ & Hl) & Hs) & Hu) Hp Hh Hx Hin. rewrite Hp, andb_true_iff, negb_true_iff in Hu.
destruct Hu as [_ Hat]. apply bool_decide_eq_false in Hat. unfold navigation_url, nav_get, nav_check. rewrite (the_ok _ _ url), must_ok by done.
rewrite must_ok by exact Hl. rewrite (the_ok _ _ p), (the_ok _ _ h) by done.
rewrite must_ok by (rewrite bool_decide_eq_false_2; [done|by eapply exact_hostname_nonempty]).
rewrite must_ok.
2: { apply bool_decide_eq_true_2. unfold rpartition. destruct (partition 64 (reverse (sr_netloc p))) as [a [b|]] eqn:E; [|done].
     exfalso. apply Hat. apply partition_spec in E as [_ E]. apply elem_of_reverse. rewrite E. apply elem_of_app. right. left. }
rewrite (exact_browser_hostname _ _ Hx). cbn [mbind sum_bind]. rewrite must_ok by (by apply bool_decide_eq_true_2). done.
Qed.
Lemma selector_accepts sel : valid_selector sel = true → selector (PStr sel) = inr sel.
Proof.
unfold valid_selector. rewrite !andb_true_iff. intros ((H1' & H2') & Hc). rewrite forallb_forall in Hc. unfold selector, nav_check, nav_get.
assert (∀ c, c ∈ [0; 13; 10]%N → c ∉ sel) as Hno.
{ intros c Hin Hs%list_elem_of_In. specialize (Hc c Hs). apply negb_true_iff, bool_decide_eq_false in Hc. done. }
change MAX_SELECTOR_CHARS with 512%nat. rewrite (the_ok _ _ sel), must_ok; [done| |done]. rewrite !bool_decide_eq_false_2; [by rewrite H2'|..];
  [apply Hno, (bool_decide_unpack _); vm_compute; exact I..|by intros ->].
Qed.
Lemma bounded_accepts c lo hi z r : lo ≤ z ≤ hi → bounded c lo hi (PInt z) r = inr z.
Proof. intros Hz. unfold bounded. rewrite (the_ok _ _ z), must_ok; [done|unfold between; lia|done]. Qed.

(** The policy has the limits of the settings. *)
Record canary_browser (policy : BrowserPolicy) : Prop := {
cb_pages : bp_max_pages policy = cs_browser_max_pages canary;
cb_actions : bp_max_actions policy = cs_browser_max_actions canary;
cb_timeout : bp_navigation_timeout_seconds policy = cs_navigation_timeout_seconds canary;
cb_dom : bp_max_dom_bytes policy = cs_browser_max_dom_bytes canary }.

Lemma other_step_accepts policy id k : canary_browser policy → valid_step (MkStep id k) = true → check_steps [] [MkStep id k] = inr () →
match k with Goto _ _ => True | _ => ∃ n, other_step policy id (default [] (as_dict (step_dump (MkStep id k)))) = inr n ∧
  PDict n = step_dump (MkStep id k) end.
Proof.
intros [_ _ Ht Hd]. unfold valid_step. cbn [st_id st_kind check_steps]. intros [_ Hv]%andb_prop Hc.
destruct k as [| sel visible ms|sel n|sel n|]; [done|..]; eexists; (split; [|reflexivity]); unfold other_step, nav_check; cbv zeta.
- rewrite !andb_true_iff, !Z.leb_le in Hv. destruct Hv as [[Hs Hlo] Hhi]. destruct (_ <? ms) eqn:E in Hc; [done|]. apply Z.ltb_ge in E.
  rewrite bool_decide_eq_true_2 by done. rewrite must_ok by (apply (bool_decide_unpack _); vm_compute; exact I).
  change (dict_get "selector" _) with (PStr sel). change (dict_get "timeout_ms" _) with (PInt ms).
  change (dict_get "state" _) with (text (if visible then "visible" else "attached")).
  rewrite (sum_bind_ok _ _ _ (selector_accepts _ Hs)). rewrite (sum_bind_ok _ (lit (if visible then "visible" else "attached"))) by (by destruct visible).
  rewrite (sum_bind_ok _ ms); [done|]. apply bounded_accepts. unfold MAX_WAIT_MS. rewrite Ht. lia.
- rewrite !andb_true_iff, !Z.leb_le in Hv. destruct Hv as [[Hs Hlo] Hhi].
  rewrite bool_decide_eq_false_2 by done. rewrite bool_decide_eq_true_2 by done.
  rewrite must_ok by (apply (bool_decide_unpack _); vm_compute; exact I).
  change (dict_get "selector" _) with (PStr sel). change (dict_get "max_chars" _) with (PInt n).
  rewrite (sum_bind_ok _ _ _ (selector_accepts _ Hs)), (sum_bind_ok _ n); [done|]. apply bounded_accepts. unfold MAX_TEXT_CHARS. lia.
- rewrite !andb_true_iff, !Z.leb_le in Hv. destruct Hv as [[Hs Hlo] Hhi]. destruct (_ <? n) eqn:E in Hc; [done|]. apply Z.ltb_ge in E.
  do 2 rewrite bool_decide_eq_false_2 by done. rewrite bool_decide_eq_true_2 by done.
  rewrite must_ok by (apply (bool_decide_unpack _); vm_compute; exact I).
  change (dict_get "selector" _) with (PStr sel). change (dict_get "max_bytes" _) with (PInt n).
  rewrite (sum_bind_ok _ _ _ (selector_accepts _ Hs)), (sum_bind_ok _ n); [done|]. apply bounded_accepts. rewrite Hd. lia.
- do 3 rewrite bool_decide_eq_false_2 by done. rewrite bool_decide_eq_true_2 by done.
  rewrite must_ok by (apply (bool_decide_unpack _); vm_compute; exact I). by rewrite must_ok by (by apply bool_decide_eq_true_2).
Qed.

Lemma action_id_accepts id seen : valid_id id = true → id ∉ seen → action_id (PStr id) seen = inr id.
Proof.
intros Hv Hn. unfold action_id, nav_check, nav_get. rewrite (the_ok _ _ id) by done. rewrite must_ok by exact Hv.
rewrite must_ok by (by rewrite bool_decide_eq_false_2). done.
Qed.
Lemma check_steps_cons allowed s steps : check_steps allowed (s :: steps) = inr () →
check_steps allowed [s] = inr () ∧ check_steps allowed steps = inr ().
Proof. cbn [check_steps]. intros (u & Hu & Hs)%sum_bind_inr. rewrite Hu. done. Qed.

(** The steps are accepted as they are. *)
Lemma navigation_steps_accept `{!HostTables} policy allowed steps : canary_browser policy → allowed ⊆ bp_allowed_hosts policy →
Forall (λ s, valid_step s = true) steps → NoDup (st_id <$> steps) → check_steps allowed steps = inr () →
∀ (first : bool) seen pages, (if first then ∃ id url w steps', steps = MkStep id (Goto url w) :: steps' else True) →
(∀ s, s ∈ steps → st_id s ∉ seen) → pages + Z.of_nat (length (goto_urls steps)) ≤ bp_max_pages policy →
∃ hs, navigation_steps policy first seen pages (step_dump <$> steps) = inr (step_dump <$> steps, hs) ∧
  length hs = length (goto_urls steps).
Proof.
intros Hcb Hall Hv. induction Hv as [|s steps Hs Hv IH]; intros Hnd Hc first seen pages Hfirst Hseen Hpages.
{ by exists []. }
apply check_steps_cons in Hc as [Hc1 Hc]. rewrite fmap_cons in Hnd. apply NoDup_cons in Hnd as [Hid Hnd].
assert (∀ s', s' ∈ steps → st_id s' ∉ st_id s :: seen) as Hseen'.
{ intros s' Hs' [Heq|Hin]%elem_of_cons; [|by apply (Hseen s'); [right|]]. apply Hid. rewrite <- Heq. by apply list_elem_of_fmap_2. }
assert (valid_id (st_id s) = true ∧ st_id s ∉ seen) as [Hvid Hns] by (split; [by apply andb_prop in Hs as [? _]|apply Hseen; left]).
rewrite fmap_cons. cbn [navigation_steps]. unfold nav_get, nav_check.
destruct s as [id k]. cbn [st_id] in *.
assert ((∃ url w, k = Goto url w) ∨ ¬ ∃ url w, k = Goto url w) as [(url & w & ->)|Hng]; [|clear Hfirst|].
{ destruct k; [left; by eexists _, _|right; by intros (? & ? & ?)..]. }
- destruct (IH Hnd Hc false (id :: seen) (pages + 1) I Hseen') as (hs & Hhs & Hlen).
  { unfold goto_urls in *. cbn [omap list_omap st_kind length] in Hpages. lia. }
  cbn [check_steps st_kind] in Hc1. destruct (urlsplit url) as [p|] eqn:Hp; [|done]. destruct (hostname_of (sr_netloc p)) as [h|] eqn:Hh; [|done].
  unfold navigation_hostname in Hc1. destruct (exact_hostname false h) as [host|] eqn:Hx; [|done]. cbn [mbind sum_bind] in Hc1.
  destruct (bool_decide_reflect (host ∈ allowed)) as [Hin|]; [|done].
  assert (valid_url url = true) as Hvu by (by apply andb_prop in Hs as [_ ?]). exists (host :: hs).
  rewrite (the_ok _ _ (default [] (as_dict (step_dump (MkStep id (Goto url w)))))) by done.
  change (dict_get "id" _) with (PStr id). rewrite (sum_bind_ok _ _ _ (action_id_accepts _ _ Hvid Hns)).
  rewrite bool_decide_eq_true_2 by done. rewrite must_ok by (apply (bool_decide_unpack _); vm_compute; exact I).
  change (dict_get "url" _) with (PStr url). rewrite (sum_bind_ok _ _ _ (navigation_url_accepts _ _ _ _ _ Hvu Hp Hh Hx (Hall _ Hin))).
  change (dict_get "wait_until" _) with (text (wait_text w)). rewrite (sum_bind_ok _ (lit (wait_text w))) by (by destruct w).
  rewrite must_ok by (apply Z.leb_le; unfold goto_urls in Hpages; cbn [omap list_omap st_kind length] in Hpages; lia).
  rewrite (sum_bind_ok _ _ _ Hhs). split; [done|]. unfold goto_urls in *. cbn [omap list_omap st_kind length]. by rewrite Hlen.
- destruct first; [exfalso; destruct Hfirst as (? & url & w & ? & [= -> -> ->]); apply Hng; by exists url, w|].
  assert (goto_urls (MkStep id k :: steps) = goto_urls steps) as Hg by (destruct k; [destruct Hng; by eexists _, _|done..]).
  rewrite Hg in Hpages |- *. destruct (IH Hnd Hc false (id :: seen) pages I Hseen' Hpages) as (hs & Hhs & Hlen).
  assert (check_steps [] [MkStep id k] = inr ()) as Hc0 by (destruct k; [destruct Hng; by eexists _, _|done..]).
  assert (∃ n, other_step policy id (default [] (as_dict (step_dump (MkStep id k)))) = inr n ∧ PDict n = step_dump (MkStep id k)) as (n & Hn & Hdump).
  { pose proof (other_step_accepts policy id k Hcb Hs Hc0). destruct k; [destruct Hng; by eexists _, _|done..]. }
  exists hs. split; [|done]. rewrite (the_ok _ _ (default [] (as_dict (step_dump (MkStep id k))))) by done.
  assert (dict_get "id" (default [] (as_dict (step_dump (MkStep id k)))) = PStr id) as -> by done.
  rewrite (sum_bind_ok _ _ _ (action_id_accepts _ _ Hvid Hns)).
  rewrite bool_decide_eq_false_2 by (destruct k; [destruct Hng; by eexists _, _|done..]).
  cbn [negb]. rewrite must_ok by done. rewrite (sum_bind_ok _ _ _ Hn), (sum_bind_ok _ _ _ Hhs), Hdump. done.
Qed.

Lemma browser_dict_renders policy : int64 (bp_max_pages policy) = true → int64 (bp_max_actions policy) = true →
int64 (bp_navigation_timeout_seconds policy) = true → int64 (bp_max_dom_bytes policy) = true →
int64 (bp_max_screenshot_bytes policy) = true → renders (PDict (browser_dict policy)) = true.
Proof.
intros Hp Ha Ht Hd Hs. apply renders_dict. unfold browser_dict.
repeat (apply Forall_cons; split; [split; [done|]|]); try done.
apply renders_list, Forall_fmap, Forall_forall. done.
Qed.
Lemma int64_between lo z hi : between lo z hi = true → - 2 ^ 63 ≤ lo → hi < 2 ^ 63 → int64 z = true.
Proof. unfold between, int64. intros Hb Hl Hh. breflect. apply andb_true_iff. rewrite Z.leb_le, Z.ltb_lt. lia. Qed.

(** C25: a navigation the control plane accepts is accepted by the worker that runs it: under
  a worker policy made of the same hosts and limits, the plan the run keeps passes the
  worker's own validation, and when its texts are printable ASCII the worker computes the
  digest the receipt names. *)
Theorem accepted_navigation_runs `{!HostTables} steps policy_digest egress_digest enabled receipt screenshot_bytes policy :
valid_navigation steps = true → browser_navigation_receipt steps policy_digest egress_digest enabled = inr receipt →
create_browser true (cs_allowed_hosts canary) (cs_browser_max_pages canary) (cs_browser_max_actions canary)
  (cs_navigation_timeout_seconds canary) (cs_browser_max_dom_bytes canary) screenshot_bytes = inr policy →
∃ d digest, validate_browser_navigation_plan (PDict (navigation_dump steps)) policy = inr d ∧
  dict_get "steps" d = PList (step_dump <$> steps) ∧ canonical_digest (PDict (navigation_dump steps)) = Some digest ∧
  dict_get "request_digest" d = PStr digest ∧
  (plain_text (PDict (navigation_dump steps)) = true → dict_get "request_digest" receipt = PStr digest).
Proof.
unfold valid_navigation. rewrite !andb_true_iff, !Nat.leb_le, forallb_forall.
intros (((((Hlo & Hhi) & Hvs) & Hfirst) & Hnd) & _) Hr Hcreate. apply bool_decide_eq_true in Hnd.
assert (Forall (λ s, valid_step s = true) steps) as Hv by (apply Forall_forall; intros s Hs%list_elem_of_In; by apply Hvs).
unfold browser_navigation_receipt in Hr. destruct (bool_decide (cs_allowed_hosts canary = [])); [done|].
apply sum_bind_inr in Hr as (allowed & Hallowed & Hr). destruct (between 1 _ _) eqn:Hcount in Hr; [|done]. cbn [negb] in Hr.
apply sum_bind_inr in Hr as ([] & Hcheck & Hr). destruct (between 1 _ _) eqn:Hpages in Hr; [|done]. cbn [negb] in Hr.
apply sum_bind_inr in Hr as (api & Hapi & [= <-]).
unfold create_browser, browser_check in Hcreate. musts Hcreate. injection Hcreate as <-.
match goal with Hm : mapM _ _ = inr ?hs |- _ => rename hs into hosts; rename Hm into Hhosts end.
set (policy := MkBrowserPolicy true _ _ _ _ _ _).
assert (allowed ⊆ bp_allowed_hosts policy) as Hsub.
{ intros h Hh. apply navigation_hostnames_inr, mapM_inr in Hallowed. apply mapM_inr in Hhosts.
  apply list_elem_of_lookup in Hh as [i Hi]. destruct (Forall2_lookup_r _ _ _ _ _ Hallowed Hi) as (v & Hvi & Hvh).
  apply list_elem_of_lookup_2 in Hvi. rewrite merge_sort_Permutation in Hvi. apply list_elem_of_lookup in Hvi as [j Hj].
  destruct (Forall2_lookup_l _ _ _ _ _ Hhosts Hj) as (h' & Hh' & Heq). rewrite Hvh in Heq. injection Heq as <-.
  apply (proj2 (elem_of_sorted_set _ _)). by eapply list_elem_of_lookup_2. }
unfold between in Hcount, Hpages. apply andb_prop in Hcount as [Hc1 Hc2], Hpages as [Hp1 Hp2].
apply Z.leb_le in Hc1, Hc2, Hp1, Hp2.
destruct (navigation_steps_accept policy allowed steps) with (first := true) (seen := @nil pystr) (pages := 0) as (hs & Hhs & Hlen);
  [by split|done..| | |by cbn [bp_max_pages policy]; lia|].
{ destruct steps as [|[id []] steps]; try done. by eexists _, _, _, _. }
{ intros s _ Hin. by apply not_elem_of_nil in Hin. }
assert (is_Some (canonical_digest (PDict (browser_dict policy)))) as [pd Hpd].
{ apply renders_digest, browser_dict_renders; cbn [policy bp_max_pages bp_max_actions bp_navigation_timeout_seconds bp_max_dom_bytes bp_max_screenshot_bytes];
    eapply int64_between; [eassumption|lia|lia|eassumption|lia|lia|eassumption|lia|lia|eassumption|lia|lia|eassumption|lia|lia]. }
assert (renders (PDict (navigation_dump steps)) = true) as Hren.
{ apply renders_dict. unfold navigation_dump. repeat (apply Forall_cons; split; [split; [done|]|]); [done| |done].
  apply renders_list, Forall_fmap. eapply Forall_impl; [exact Hv|]. intros [id k] Hs. unfold valid_step in Hs. cbn in Hs.
  apply andb_prop in Hs as [_ Hs]. apply renders_dict. apply Forall_cons. split; [done|]. destruct k; cbn [st_kind];
    repeat (apply Forall_cons; split; [split; [done|]|]); try done; rewrite !andb_true_iff, !Z.leb_le in Hs; cbn [renders snd entry];
    unfold int64; apply andb_true_iff; rewrite Z.leb_le, Z.ltb_lt; lia. }
destruct (renders_digest _ Hren) as [digest Hdigest].
exists (normalized_plan (step_dump <$> steps) hs pd digest), digest.
split_and!; [|done|done|done|].
- unfold validate_browser_navigation_plan, nav_check, nav_get. rewrite must_ok by done.
  rewrite (the_ok _ _ (navigation_dump steps)) by done. rewrite must_ok by (apply (bool_decide_unpack _); vm_compute; exact I).
  rewrite must_ok by (by apply bool_decide_eq_true_2). rewrite (the_ok _ _ (step_dump <$> steps)) by done.
  rewrite must_ok by (rewrite length_fmap; cbn [policy bp_max_actions]; apply andb_true_iff; rewrite !Z.leb_le; lia).
  rewrite (sum_bind_ok _ _ _ Hhs). cbn [fst snd]. rewrite must_ok.
  2: { rewrite bool_decide_eq_false_2; [done|]. intros ->. cbn in Hlen. lia. }
  unfold browser_digest, ascii_digest, navigation_digest, nav_get. rewrite Hpd. cbn [mbind sum_bind].
  change (plan_document (step_dump <$> steps)) with (navigation_dump steps). rewrite Hdigest. done.
- intros Hplain. change (dict_get "request_digest" _) with (PStr api). f_equal.
  unfold fingerprint in Hapi. rewrite <- canonical_digest_plain, Hdigest in Hapi by done. by injection Hapi.
Qed.
End agreement.
