(* ===== verification/SandboxDataset.v ===== *)
(** Dataset appends in the sandbox worker: src/workers/sandbox-runtime/dataset_protocol.py,
    and its agreement with the control plane's copy (DatasetProtocol.v): the worker sends
    exactly the batches the control plane accepts. *)

From S2P Require Import Prelude PyVal Json PyUuid Base64 Url QueueProtocol EventProtocol Idempotency EgressProtocol PyEq DatasetProtocol.
From S2P Require Import Canary SandboxJson SandboxKv SandboxKvSpec.

Definition dataset_check : bool → string → exn + () := must "DatasetProtocolError".
Definition dataset_get {A} : option A → string → exn + A := the "DatasetProtocolError".

(** [_validate_json_value]. *)
Definition dataset_json : pyval → Z → exn + () :=
  json_fault (MkJsonMessages "DatasetProtocolError" "Dataset item exceeds the maximum JSON nesting depth."
    "Dataset items cannot contain NaN or Infinity." "Dataset object keys must be strings."
    "Dataset items must contain JSON-compatible values only.").
(** [_canonical_bytes]. *)
Definition dataset_bytes (v : pyval) : exn + list N :=
  dataset_get (json_bytes v) "Dataset request cannot be canonically encoded.".

(** The normalised request, its digest and its size; the flags are constant. *)
Record WorkerAppend := MkWorkerAppend {
  wa_request : list (pykey * pyval);
  wa_request_digest : pystr;
  wa_item_count : Z;
  wa_encoded_bytes : Z }.

(** One iteration of the loop over the items. *)
Definition worker_item (raw_item : pyval) : exn + pyval :=
  d ← dataset_get (as_dict raw_item) "Each Dataset item must be a JSON object.";
  dataset_json raw_item 0 ;;
  item_bytes ← dataset_bytes raw_item;
  dataset_check (Z.of_nat (length item_bytes) <=? MAX_ITEM_BYTES) "Dataset item exceeds the maximum encoded size." ;;
  inr (PDict d).

Definition append_document (idempotency_key : pystr) (items : list pyval) : list (pykey * pyval) :=
  [entry "schema_version" (text "rdc.dataset-append/v1"); entry "idempotency_key" (PStr idempotency_key);
   entry "items" (PList items)].

Section dataset.
Context `{Sha256}.

(** [validate_dataset_append]. *)
Definition worker_dataset_append (value : pyval) : exn + WorkerAppend :=
d ← dataset_get (as_dict value) "Dataset append request must be an object.";
dataset_check (has_exact_keys ["schema_version"; "idempotency_key"; "items"] d) "Dataset append request fields are invalid." ;;
dataset_check (bool_decide (dict_get "schema_version" d = text "rdc.dataset-append/v1"))
  "Dataset append schema version is unsupported." ;;
idempotency_key ← dataset_get (as_str (dict_get "idempotency_key" d)) "Dataset append idempotency key is invalid.";
dataset_check (safe_key 127 idempotency_key) "Dataset append idempotency key is invalid." ;;
raw_items ← dataset_get (as_list (dict_get "items" d)) "Dataset append item count is outside the safe limit.";
dataset_check ((1 <=? Z.of_nat (length raw_items)) && (Z.of_nat (length raw_items) <=? MAX_ITEMS))
  "Dataset append item count is outside the safe limit." ;;
normalized_items ← mapM worker_item raw_items;
let normalized := append_document idempotency_key normalized_items in
encoded ← dataset_bytes (PDict normalized);
dataset_check (Z.of_nat (length encoded) <=? MAX_BATCH_BYTES) "Dataset append batch exceeds the maximum encoded size." ;;
inr (MkWorkerAppend normalized (sha256_hex encoded) (Z.of_nat (length normalized_items)) (Z.of_nat (length encoded))).

(** ** Agreement *)

(** The worker's record of a batch the control plane accepts. *)
Definition worker_append_of (a : ValidatedDatasetAppend) : WorkerAppend :=
MkWorkerAppend (append_document (va_idempotency_key a) (va_items a)) (va_request_digest a) (va_item_count a) (va_encoded_bytes a).

Abbreviation W := (as_worker "DatasetProtocolError").

Lemma dataset_json_agrees v depth : dataset_json v depth =
match item_check v depth with Some m => inl (Fault "DatasetProtocolError" m) | None => inr () end.
Proof.
unfold dataset_json.
revert depth. induction v as [|?|?|[]|?|l IH|kvs IH|] using pyval_ind'; intros depth; cbn [json_fault item_check];
  change MAX_ITEM_DEPTH with 32; destruct (32 <? depth); try reflexivity.
- induction IH as [|x l Hx _ IHl]; [reflexivity|]. rewrite Hx. by destruct (item_check x (depth + 1)).
- induction IH as [|[[k|] x] l Hx _ IHl]; [reflexivity| |reflexivity]. cbn in Hx. rewrite Hx. by destruct (item_check x (depth + 1)).
Qed.
Lemma members_agree kvs : item_check (PDict kvs) 0 = members_check kvs.
Proof.
cbn [item_check]. change (MAX_ITEM_DEPTH <? 0) with false. cbv iota. change (0 + 1) with 1.
induction kvs as [|[[k|] x] kvs IH]; [done| |done]. cbn [members_check]. by destruct (item_check x 1).
Qed.
Lemma dataset_bytes_agrees v : dataset_bytes v = W (canonical_json_bytes v).
Proof. unfold dataset_bytes, dataset_get, canonical_json_bytes. by destruct (json_bytes v). Qed.
Lemma worker_item_agrees v : worker_item v = W (normalize_item v).
Proof.
unfold worker_item, normalize_item, dataset_get, dataset_check. destruct v as [| | | | | |d|]; try done.
cbn [as_dict the mbind sum_bind]. rewrite dataset_json_agrees, members_agree, as_worker_bind. destruct (members_check d); [done|].
cbn [as_worker mbind sum_bind]. rewrite dataset_bytes_agrees, as_worker_bind. apply bind_ext; intros b; cbv beta.
by rewrite as_worker_bind, as_worker_ensure.
Qed.
Lemma worker_items_agree l : mapM worker_item l = W (normalize_items l).
Proof.
induction l as [|v l IH]; [done|]. cbn [mapM normalize_items]. rewrite worker_item_agrees, IH, as_worker_bind.
apply bind_ext; intros w; cbv beta. by rewrite as_worker_bind.
Qed.

(** C27: the two implementations of the append protocol agree: the same outcome on every value,
  with the same request and digest or the same message. *)
Theorem dataset_validators_agree v :
worker_dataset_append v =
match validate_dataset_append v with
| inr a => inr (worker_append_of a)
| inl e => inl (renamed "DatasetProtocolError" e)
end.
Proof.
assert (worker_dataset_append v = W (a ← validate_dataset_append v; inr (worker_append_of a))) as ->;
  [|by destruct (validate_dataset_append v)].
unfold worker_dataset_append, validate_dataset_append, dataset_get, dataset_check.
destruct v as [| | | | | |d|]; try done. cbn [as_dict the mbind sum_bind].
rewrite bind_assoc, as_worker_bind, as_worker_ensure. apply bind_ext; intros _; cbv beta.
rewrite bind_assoc, as_worker_bind, as_worker_ensure. apply bind_ext; intros _; cbv beta.
rewrite !bind_assoc, as_worker_bind. destruct (dict_get "idempotency_key" d) as [| | | |ik| | |]; try done.
cbn [as_str the mbind sum_bind]. destruct (safe_key 127 ik); [|done]. cbn [must as_worker mbind sum_bind].
rewrite bind_assoc, as_worker_bind. destruct (dict_get "items" d) as [| | | | |l| |]; try done. cbn [as_list the mbind sum_bind].
destruct (_ && _); [|done]. cbn [must as_worker mbind sum_bind]. rewrite bind_assoc, as_worker_bind, worker_items_agree.
apply bind_ext; intros items; cbv beta. rewrite bind_assoc, as_worker_bind, dataset_bytes_agrees.
apply bind_ext; intros b; cbv beta. by rewrite bind_assoc, as_worker_bind, as_worker_ensure.
Qed.
End dataset.
