(* ===== verification/SandboxActivation.v ===== *)
(** Activation in the sandbox worker: the checks of src/workers/sandbox-runtime/worker.py a
    claim passes before anything runs ([_effective_worker_egress_policy],
    [_worker_browser_policy], [_require_live_browser_navigation_receipt],
    [_require_canary_activation]).  The worker trusts none of what the control plane
    decided: it recomputes every receipt, digest and capability.  The documents both sides
    write down are those of Admission.v. *)

From S2P Require Import Prelude PyVal Json PyUuid Base64 QueueProtocol EventProtocol Idempotency Url.
From S2P Require Import Recovery Pagination RunEvents ExecutionPlane EgressProtocol KvProtocol PyEq KvWorkerProtocol Canary Admission.
From S2P Require Import SandboxJson SandboxEgress QueueWorker SandboxKv BrowserPolicy BrowserNavigation.

Definition sandbox_check : bool → string → exn + () := must "SandboxPolicyError".
Definition sandbox_get {A} : option A → string → exn + A := the "SandboxPolicyError".
(** [except Class as exc: raise SandboxPolicyError(reason) from exc]. *)
Definition recast {A} (class reason : string) (r : exn + A) : exn + A :=
  match r with
  | inl (Fault c m) => if bool_decide (c = class) then inl (Fault "SandboxPolicyError" reason) else r
  | r => r
  end.

(** [allow_nan=True]: NaN and the infinities render as literals. *)
Fixpoint allow_nan (v : pyval) : pyval :=
match v with
| PFloat FNaN => PFloat (FFin (lit "NaN"))
| PFloat FPosInf => PFloat (FFin (lit "Infinity"))
| PFloat FNegInf => PFloat (FFin (lit "-Infinity"))
| PList l => PList ((fix go l := match l with [] => [] | x :: l => allow_nan x :: go l end) l)
| PDict k => PDict ((fix go k := match k with [] => [] | (key, x) :: k => (key, allow_nan x) :: go k end) k)
| v => v
end.

(** The settings of the worker these checks read. *)
Record worker_config := MkWorkerConfig {
  wc_web_egress_enabled : bool;
  wc_allowed_hosts : list pystr;
  wc_web_egress : EgressLimits;
  wc_browser_enabled : bool;
  wc_live_navigation_enabled : bool;
  wc_dataset_writes_enabled : bool;
  wc_key_value_store_enabled : bool;
  wc_request_queue_enabled : bool;
  wc_queue_http_enabled : bool;
  wc_queue_browser_enabled : bool;
  wc_queue_dataset_enabled : bool;
  wc_queue_key_value_store_enabled : bool;
  wc_browser_max_pages : Z;
  wc_browser_max_actions : Z;
  wc_navigation_timeout_seconds : Z;
  wc_browser_max_dom_bytes : Z;
  wc_browser_max_screenshot_bytes : Z;
  wc_browser_image : pystr }.

Section activation.
Context `{CaseFold, UrlTables, Idna, UpperCase, Sha256, UnicodeDecimal, PyRepr, FloatCompare}.
Context (config : worker_config).
Implicit Types (payload ir activation : list (pykey * pyval)).

(** [_canonical_digest]. *)
Definition worker_digest (d : list (pykey * pyval)) : exn + pystr := ascii_digest (allow_nan (PDict d)).

(** [_worker_egress_policy], [_worker_browser_policy]. *)
Definition worker_egress_policy : exn + option EgressPolicy :=
if negb (wc_web_egress_enabled config) then inr None
else p ← SandboxEgress.create (wc_allowed_hosts config) ALLOWED_METHODS (wc_web_egress config); inr (Some p).
Definition worker_browser_policy : exn + option BrowserPolicy :=
if negb (wc_browser_enabled config) then inr None
else p ← create_browser true (wc_allowed_hosts config) (wc_browser_max_pages config) (wc_browser_max_actions config)
       (wc_navigation_timeout_seconds config) (wc_browser_max_dom_bytes config) (wc_browser_max_screenshot_bytes config);
  inr (Some p).

(** ** The egress policy of a project *)

Definition RUNTIME_ENVELOPE : list (string * pyval) :=
[("schema_version", text "rdc.egress/v1"); ("mode", text "brokered"); ("allowed_schemes", PList [text "https"]);
 ("deny_ip_literals", PBool true); ("require_global_dns", PBool true); ("revalidate_redirects", PBool true);
 ("container_network", text "none")]%string.
(** The checks of the receipt that do not look at the policy. *)
Definition check_receipt (receipt : list (pykey * pyval)) : exn + () :=
sandbox_check (has_exact_keys RECEIPT_FIELDS receipt) "Project egress-policy receipt has unknown fields." ;;
sandbox_check (bool_decide (is_Some (uuid_of_str (py_str (dict_get "policy_id" receipt))))
               && bool_decide (is_Some (uuid_of_str (py_str (dict_get "revision_id" receipt)))))
  "Project egress-policy receipt is invalid." ;;
revision_number ← sandbox_get (as_int (dict_get "revision_number" receipt)) "Project egress-policy receipt is invalid.";
sandbox_check (bool_decide (dict_get "schema_version" receipt = text "rdc.run-egress-policy-receipt/v1")
               && bool_decide (is_Some (as_bool (dict_get "credential_configured" receipt))) && (1 <=? revision_number))
  "Project egress-policy receipt is unsafe." ;;
binding ← worker_digest (without_digest receipt);
sandbox_check (bool_decide (dict_get "binding_digest" receipt = PStr binding)) "Project egress-policy binding digest mismatch.".

(** The policy a stored document describes. *)
Definition stored_policy (stored : list (pykey * pyval)) : exn + EgressPolicy :=
sandbox_check (forallb (λ kv, py_eq (dict_get kv.1 stored) kv.2) RUNTIME_ENVELOPE) "Project egress runtime envelope is unsafe." ;;
hosts ← sandbox_get (as_strs (dict_get "allowed_hosts" stored)) "Project egress-policy values are invalid.";
methods ← sandbox_get (as_strs (dict_get "allowed_methods" stored)) "Project egress-policy values are invalid.";
let number key := sandbox_get (as_int (dict_get key stored)) "Project egress policy failed independent worker validation." in
max_requests ← number "max_requests"%string;
max_response_bytes ← number "max_response_bytes"%string;
max_total_bytes ← number "max_total_bytes"%string;
max_redirects ← number "max_redirects"%string;
connect_timeout_seconds ← number "connect_timeout_seconds"%string;
request_timeout_seconds ← number "request_timeout_seconds"%string;
effective ← recast "EgressPolicyError" "Project egress policy failed independent worker validation."
  (SandboxEgress.create hosts methods
     (MkLimits max_requests max_response_bytes max_total_bytes max_redirects connect_timeout_seconds request_timeout_seconds));
sandbox_check (py_eq (PDict (policy_dict effective)) (PDict stored)) "Project egress policy is not canonical." ;;
inr effective.

Definition within_ceiling (p ceiling : EgressPolicy) : bool :=
bool_decide (ep_allowed_hosts p ⊆ ep_allowed_hosts ceiling) && bool_decide (ep_allowed_methods p ⊆ ep_allowed_methods ceiling)
&& limits_within (ep_limits p) (ep_limits ceiling).
(** The document the digest of a revision is of. *)
Definition foundation (p : EgressPolicy) : list (pykey * pyval) :=
[entry "allowed_hosts" (PList (PStr <$> ep_allowed_hosts p)); entry "allowed_methods" (PList (PStr <$> ep_allowed_methods p));
 entry "connect_timeout_seconds" (PInt (el_connect_timeout_seconds (ep_limits p)));
 entry "max_redirects" (PInt (el_max_redirects (ep_limits p))); entry "max_requests" (PInt (el_max_requests (ep_limits p)));
 entry "max_response_bytes" (PInt (el_max_response_bytes (ep_limits p)));
 entry "max_total_bytes" (PInt (el_max_total_bytes (ep_limits p)));
 entry "request_timeout_seconds" (PInt (el_request_timeout_seconds (ep_limits p)));
 entry "schema_version" (text "rdc.egress-policy/v1")].

(** The policy bound to a run, within the ceiling of the worker. *)
Definition bound_worker_policy (ceiling : option EgressPolicy) (stored receipt : pyval) : exn + option EgressPolicy :=
ceiling ← sandbox_get ceiling "Project egress-policy binding is incomplete.";
stored ← sandbox_get (as_dict stored) "Project egress-policy binding is incomplete.";
receipt ← sandbox_get (as_dict receipt) "Project egress-policy binding is incomplete.";
check_receipt receipt ;;
effective ← stored_policy stored;
sandbox_check (within_ceiling effective ceiling) "Project egress policy exceeds the worker ceiling." ;;
runtime ← digest effective;
sandbox_check (bool_decide (dict_get "runtime_policy_digest" receipt = PStr runtime)) "Project runtime-policy digest mismatch." ;;
revision ← worker_digest (foundation effective);
sandbox_check (bool_decide (dict_get "policy_digest" receipt = PStr revision)) "Project policy-revision digest mismatch." ;;
inr (Some effective).

(** [_effective_worker_egress_policy]. *)
Definition effective_egress_policy payload (ceiling : option EgressPolicy) : exn + option EgressPolicy :=
match dict_get "input_reference" payload with
| PDict ir =>
    let stored := dict_get "project_egress_policy" ir in
    let receipt := dict_get "project_egress_policy_receipt" ir in
    if bool_decide (stored = PNone) && bool_decide (receipt = PNone) then inr ceiling
    else bound_worker_policy ceiling stored receipt
| _ => inr ceiling
end.

(** ** The receipt of a live navigation *)

(** [_require_live_browser_navigation_receipt]. *)
Definition live_navigation_receipt ir (egress : EgressPolicy) (browser : BrowserPolicy) : exn + () :=
sandbox_check (wc_live_navigation_enabled config) "Worker live browser navigation gate is disabled." ;;
let immutable {A} (o : option A) := sandbox_get o "Phase 1M browser navigation claim lacks immutable receipts." in
navigation ← immutable (as_dict (dict_get "browser_navigation" ir));
receipt ← immutable (as_dict (dict_get "browser_navigation_receipt" ir));
stored_browser ← immutable (as_dict (dict_get "browser_policy" ir));
stored_browser_digest ← immutable (as_str (dict_get "browser_policy_digest" ir));
stored_egress ← immutable (as_dict (dict_get "browser_egress_policy" ir));
stored_egress_digest ← immutable (as_str (dict_get "browser_egress_policy_digest" ir));
browser_digest ← browser_digest browser;
stored ← worker_digest stored_browser;
sandbox_check (bool_decide (stored = browser_digest)) "Phase 1M stored browser policy does not match worker policy." ;;
sandbox_check (bool_decide (stored_browser_digest = browser_digest)) "Phase 1M browser policy digest does not match worker policy." ;;
browser_egress ← create_browser_egress egress;
sandbox_check (py_eq (PDict stored_egress) (PDict (browser_egress_dict browser_egress)))
  "Phase 1M stored browser egress policy does not match worker policy." ;;
egress_digest ← browser_egress_digest browser_egress;
sandbox_check (bool_decide (stored_egress_digest = egress_digest))
  "Phase 1M browser egress policy digest does not match worker policy." ;;
normalized ← recast "BrowserNavigationContractError" "Phase 1M navigation failed independent worker validation."
  (validate_browser_navigation_plan (PDict navigation) browser);
request_digest ← sandbox_get (as_str (dict_get "request_digest" normalized)) "request_digest";
sandbox_check (py_eq (PDict receipt) (PDict (navigation_receipt request_digest browser_digest egress_digest true)))
  "Phase 1M browser navigation receipt does not match the Run intent.".

(** ** Identity and manifest *)

(** The checks of the activation against the worker, the version and the sandbox policy. *)
Definition check_identity payload activation (sandbox : list (pykey * pyval)) (worker_name : pystr) : exn + () :=
sandbox_check (bool_decide (dict_get "mode" activation = text "canary")) "Only canary activation is accepted." ;;
sandbox_check (bool_decide (dict_get "worker_name" activation = PStr worker_name))
  "Canary activation is bound to a different worker identity." ;;
sandbox_check (py_eq (dict_get "agent_version_id" activation) (dict_get "agent_version_id" payload))
  "Canary activation does not match the immutable Agent version." ;;
sandbox_check (py_eq (dict_get "max_concurrency" activation) (PInt 1)) "Canary activation requires single-concurrency execution." ;;
sandbox_check (bool_decide (dict_get "no_secrets" activation = PBool true)) "Canary execution cannot inject project secrets." ;;
sandbox_check (py_eq (dict_get "attestation_digest" activation) (dict_get "attestation_digest" sandbox))
  "Canary activation does not match the sandbox attestation." ;;
policy_digest ← worker_digest sandbox;
sandbox_check (bool_decide (dict_get "sandbox_policy_digest" activation = PStr policy_digest))
  "Canary activation does not match the sandbox policy digest.".

(** What the manifest asks for, at run time. *)
Record runtime_facts := MkRuntimeFacts {
  rf_start : bool;
  rf_browser : bool;
  rf_dataset : bool;
  rf_store : bool;
  rf_queue : bool;
  rf_network : pyval }.
Definition rf_queue_dataset (f : runtime_facts) : bool := rf_queue f && rf_dataset f.
Definition rf_queue_store (f : runtime_facts) : bool := rf_queue f && rf_store f.
Definition rf_web (f : runtime_facts) : bool := bool_decide (rf_network f = text "web-egress").
Definition rf_queue_browser (f : runtime_facts) : bool := rf_queue f && rf_web f && rf_browser f.
Definition rf_queue_http (f : runtime_facts) : bool := rf_queue f && rf_web f && negb (rf_browser f).

Definition manifest_facts payload : exn + runtime_facts :=
manifest ← sandbox_get (as_dict (dict_get "manifest" payload)) "Canary claim is missing the Agent manifest.";
sandbox_check (negb (truthy (dict_get "secrets" manifest))) "Canary Agent manifests cannot declare secrets." ;;
capabilities ← sandbox_get (as_dict (dict_get "capabilities" manifest)) "Canary Agent capabilities are missing.";
browser ← sandbox_get (as_bool (dict_get "browser" capabilities)) "Canary Agent browser capability is invalid.";
dataset ← sandbox_get (as_bool (dict_get "dataset" capabilities)) "Canary Agent Dataset capability is invalid.";
key_value_store ← sandbox_get (as_bool (dict_get "keyValueStore" capabilities)) "Canary Agent Key-Value Store capability is invalid.";
request_queue ← sandbox_get (as_bool (dict_get "requestQueue" capabilities)) "Canary Agent Request Queue capability is invalid.";
let start := bool_decide (dict_get "work_kind" payload = text "RUN_START") in
inr (MkRuntimeFacts start browser dataset (key_value_store && start) (request_queue && start) (dict_get "network" capabilities)).

(** [activation.get(key) is value]. *)
Definition flag_is (key : string) (value : bool) activation : bool := bool_decide (dict_get key activation = PBool value).

(** Which surfaces may be combined, and the gates of the combinations. *)
Definition check_combinations activation (f : runtime_facts) : exn + () :=
sandbox_check (negb (rf_dataset f && rf_store f)) "Canary Dataset and Key-Value Store cannot be combined." ;;
sandbox_check (negb (rf_browser f && rf_store f && negb (rf_queue_store f))) "Canary browser and Key-Value Store cannot be combined." ;;
sandbox_check (negb (rf_queue_store f) || wc_queue_key_value_store_enabled config)
  "Worker Queue Key-Value Store composition gate is disabled." ;;
sandbox_check (flag_is "request_queue_key_value_store_enabled" (rf_queue_store f) activation)
  "Queue Key-Value Store activation does not match the manifest." ;;
sandbox_check (negb (rf_queue_dataset f) || wc_queue_dataset_enabled config) "Worker Queue Dataset composition gate is disabled." ;;
sandbox_check (flag_is "request_queue_dataset_enabled" (rf_queue_dataset f) activation)
  "Queue Dataset activation does not match the manifest.".

(** ** Capabilities *)

(** The queue a run is bound to, as the capabilities read it. *)
Definition bound_queue (v : pyval) (reason : string) : exn + pystr :=
binding ← sandbox_get (as_dict (dict_get "request_queue" (default [] (as_dict v)))) reason;
sandbox_get (as_str (dict_get "queue_id" binding)) reason.

Definition dataset_capability payload (worker_name : pystr) (queue : option pystr) : list (pykey * pyval) :=
[entry "schema_version" (text (if queue then "rdc.dataset-worker-capability/v2" else "rdc.dataset-worker-capability/v1"));
 entry "append_schema_version" (text "rdc.dataset-append/v1"); entry "run_id" (PStr (field_text "run_id" payload));
 entry "agent_version_id" (PStr (version_text payload)); entry "worker_name" (PStr worker_name);
 entry "dataset_name" (text "default"); entry "max_items_per_append" (PInt 100); entry "max_item_bytes" (PInt 65536);
 entry "max_batch_bytes" (PInt 262144); entry "max_dataset_items" (PInt 100000); entry "max_dataset_bytes" (PInt 268435456);
 entry "enabled" (PBool true)]
++ match queue with
   | Some queue_id => [entry "queue_id" (PStr queue_id); entry "completion_order" (text "dataset-before-queue-handled")]
   | None => []
   end.
Definition check_dataset payload activation (worker_name : pystr) (f : runtime_facts) : exn + () :=
sandbox_check (flag_is "dataset_write_enabled" (rf_dataset f) activation)
  "Canary Dataset activation receipt does not match manifest." ;;
if rf_dataset f then
  sandbox_check (rf_start f && negb (rf_browser f && negb (rf_queue_dataset f)) && wc_dataset_writes_enabled config)
    "Canary Dataset writes are not enabled for this Run." ;;
  queue ← (if rf_queue_dataset f
           then q ← bound_queue (dict_get "input_reference" payload) "Queue Dataset binding is invalid."; inr (Some q)
           else inr None);
  sandbox_check (py_eq (dict_get "dataset_append_capability" payload) (PDict (dataset_capability payload worker_name queue)))
    "Canary Dataset capability receipt is invalid."
else sandbox_check (bool_decide (dict_get "dataset_append_capability" payload = PNone))
  "Dataset-disabled Run cannot carry a Dataset capability.".

(** The digest of the read request of a run, if there is one. *)
Definition read_request_digest (v : pyval) (reason : string) : exn + option pystr :=
match v with
| PNone => inr None
| v => r ← recast "KVWorkerBoundaryError" reason (worker_read_request v); inr (Some (rd_request_digest r))
end.
Definition store_capability payload (worker_name : pystr) (read_digest queue : option pystr) : list (pykey * pyval) :=
[entry "schema_version" (text (if queue then "rdc.kv-worker-capability/v2" else "rdc.kv-worker-capability/v1"));
 entry "write_schema_version" (text "rdc.kv-write/v1"); entry "read_schema_version" (text "rdc.kv-worker-read/v1");
 entry "output_schema_version" (text "rdc.kv-worker-output/v1"); entry "run_id" (PStr (field_text "run_id" payload));
 entry "agent_version_id" (PStr (version_text payload)); entry "worker_name" (PStr worker_name);
 entry "store_name" (text "default"); entry "read_request_digest" (opt_digest read_digest); entry "max_read_keys" (PInt 16);
 entry "max_read_total_bytes" (PInt 262144); entry "max_mutations" (PInt 4); entry "max_value_bytes" (PInt 1048576);
 entry "post_run_mutations_only" (PBool true)] ++ closed_access ++ [entry "enabled" (PBool true)]
++ match queue with
   | Some queue_id => [entry "queue_id" (PStr queue_id); entry "mutation_idempotency_scope" (text "queue-request-index");
                       entry "completion_order" (text "kv-before-queue-handled")]
   | None => []
   end.
Definition check_store payload activation (worker_name : pystr) (f : runtime_facts) : exn + () :=
sandbox_check (flag_is "key_value_store_enabled" (rf_store f) activation)
  "Canary Key-Value Store activation does not match manifest." ;;
if rf_store f then
  sandbox_check (wc_key_value_store_enabled config) "Worker Key-Value Store gate is disabled." ;;
  ir ← sandbox_get (as_dict (dict_get "input_reference" payload)) "KV Run lacks input reference.";
  input_value ← sandbox_get (as_dict (dict_get "value" ir)) "KV Run input is invalid.";
  sandbox_check (negb (has_key "_rdc_kv" input_value)) "KV Run input is invalid." ;;
  read_digest ← read_request_digest (dict_get "_rdc_kv_read" input_value) "KV read request is invalid.";
  queue ← (if rf_queue_store f
           then q ← bound_queue (PDict ir) "Queue KV binding is invalid."; inr (Some q) else inr None);
  sandbox_check (py_eq (dict_get "key_value_store_capability" payload) (PDict (store_capability payload worker_name read_digest queue)))
    "Canary Key-Value Store capability receipt is invalid."
else sandbox_check (bool_decide (dict_get "key_value_store_capability" payload = PNone))
  "KV-disabled work cannot carry a Key-Value Store capability.".

(** ** Request queues *)

(** The binding of a run to a queue. *)
Definition queue_of_binding (v : pyval) : exn + pystr :=
binding ← sandbox_get (as_dict v) "Queue-bound Run binding is invalid.";
sandbox_check (has_exact_keys ["schema_version"; "queue_id"] binding
               && bool_decide (dict_get "schema_version" binding = text "rdc.run-queue/v1")) "Queue-bound Run binding is invalid." ;;
sandbox_get (as_str (dict_get "queue_id" binding)) "Queue-bound Run binding is invalid.".

(** The receipt a binding must have, and what it adds to the capability. *)
Definition queue_acquisition payload ir (egress : option EgressPolicy) (browser : option BrowserPolicy) (f : runtime_facts)
  (queue_id binding : pystr) : exn + list (pykey * pyval) * list (pykey * pyval) :=
if rf_queue_browser f then
  egress ← sandbox_get egress "Queue browser policy is unavailable.";
  browser ← sandbox_get browser "Queue browser policy is unavailable.";
  browser_egress ← create_browser_egress egress;
  bd ← browser_digest browser;
  ed ← browser_egress_digest browser_egress;
  sandbox_check (py_eq (dict_get "request_queue_browser_policy" ir) (PDict (browser_dict browser))
      && bool_decide (dict_get "request_queue_browser_policy_digest" ir = PStr bd)
      && py_eq (dict_get "request_queue_browser_egress_policy" ir) (PDict (browser_egress_dict browser_egress))
      && bool_decide (dict_get "request_queue_browser_egress_policy_digest" ir = PStr ed))
    "Queue browser receipt does not match worker policy." ;;
  inr (queue_receipt_browser binding queue_id (version_text payload) bd ed true,
       [entry "acquisition_mode" (text "controlled-browser"); entry "browser_policy_digest" (PStr bd);
        entry "browser_egress_policy_digest" (PStr ed); entry "agent_container_network" (text "none")])
else if rf_queue_http f then
  egress ← sandbox_get egress "Queue HTTP egress receipt does not match worker policy.";
  d ← digest egress;
  sandbox_check (bool_decide (is_Some (as_dict (dict_get "request_queue_egress_policy" ir)))
      && py_eq (dict_get "request_queue_egress_policy" ir) (PDict (policy_dict egress))
      && bool_decide (dict_get "request_queue_egress_policy_digest" ir = PStr d))
    "Queue HTTP egress receipt does not match worker policy." ;;
  inr (queue_receipt_http binding queue_id (version_text payload) d true,
       [entry "acquisition_mode" (text "brokered-http"); entry "egress_policy_digest" (PStr d);
        entry "agent_container_network" (text "none")])
else inr (queue_receipt_plain binding queue_id (version_text payload), []).

(** The receipts of a queue combined with a dataset and with a key-value store. *)
Definition check_queue_dataset payload ir (f : runtime_facts) (queue_id : pystr) (receipt : list (pykey * pyval)) : exn + () :=
if rf_queue_dataset f then
  d ← worker_digest receipt;
  sandbox_check (py_eq (dict_get "request_queue_dataset_receipt" ir)
      (PDict (dataset_receipt queue_id (version_text payload) d true))) "Queue Dataset composition receipt is invalid."
else sandbox_check (bool_decide (dict_get "request_queue_dataset_receipt" ir = PNone))
  "Dataset-disabled Queue work cannot carry a composition receipt.".
Definition check_queue_store payload ir (f : runtime_facts) (queue_id : pystr) (receipt : list (pykey * pyval)) : exn + () :=
if rf_queue_store f then
  let read_request := match dict_get "value" ir with PDict input => dict_get "_rdc_kv_read" input | _ => PNone end in
  read_digest ← read_request_digest read_request "Queue KV read request is invalid.";
  d ← worker_digest receipt;
  sandbox_check (py_eq (dict_get "request_queue_key_value_store_receipt" ir)
      (PDict (store_receipt queue_id (version_text payload) d read_digest true)))
    "Queue Key-Value Store composition receipt is invalid."
else sandbox_check (bool_decide (dict_get "request_queue_key_value_store_receipt" ir = PNone))
  "KV-disabled Queue work cannot carry a composition receipt.".

Definition capability_version activation (f : runtime_facts) : string :=
if negb (bool_decide (dict_get "project_egress_policy_binding_digest" activation = PNone)) then "rdc.request-queue-worker-capability/v6"
else if rf_queue_store f then "rdc.request-queue-worker-capability/v5"
else if rf_queue_dataset f then "rdc.request-queue-worker-capability/v4"
else if rf_queue_browser f then "rdc.request-queue-worker-capability/v3"
else if rf_queue_http f then "rdc.request-queue-worker-capability/v2" else "rdc.request-queue-worker-capability/v1".
Definition expected_queue_capability payload activation (worker_name : pystr) (f : runtime_facts) (queue_id : pystr)
  (acquisition : list (pykey * pyval)) : list (pykey * pyval) :=
put_all
  (match dict_get "project_egress_policy_binding_digest" activation with
   | PNone => []
   | binding => [entry "project_egress_policy_binding_digest" binding]
   end ++ acquisition
   ++ (if rf_queue_dataset f then
         [entry "dataset_write_enabled" (PBool true); entry "dataset_name" (text "default");
          entry "completion_order" (text "dataset-before-queue-handled")] else [])
   ++ (if rf_queue_store f then
         [entry "key_value_store_enabled" (PBool true); entry "store_name" (text "default");
          entry "mutation_idempotency_scope" (text "queue-request-index");
          entry "completion_order" (text "kv-before-queue-handled")] else []))
  ([entry "schema_version" (text (capability_version activation f)); entry "queue_id" (PStr queue_id);
    entry "run_id" (PStr (field_text "run_id" payload)); entry "agent_version_id" (PStr (version_text payload));
    entry "worker_name" (PStr worker_name); entry "max_claims_per_run" (PInt 1); entry "claim_completion_required" (PBool true)]
   ++ closed_access ++ [entry "enabled" (PBool true)]).

Definition check_queue payload activation (worker_name : pystr) (egress : option EgressPolicy) (browser : option BrowserPolicy)
  (f : runtime_facts) : exn + () :=
sandbox_check (flag_is "request_queue_enabled" (rf_queue f) activation) "Canary Request Queue activation does not match manifest." ;;
sandbox_check (flag_is "request_queue_http_enabled" (rf_queue_http f) activation) "Queue HTTP activation does not match the manifest." ;;
sandbox_check (flag_is "request_queue_browser_enabled" (rf_queue_browser f) activation)
  "Queue browser activation does not match the manifest." ;;
if rf_queue f then
  sandbox_check (wc_request_queue_enabled config) "Worker Request Queue gate is disabled." ;;
  sandbox_check (negb (rf_queue_http f) || wc_queue_http_enabled config) "Worker Queue HTTP acquisition gate is disabled." ;;
  sandbox_check (negb (rf_queue_browser f) || wc_queue_browser_enabled config) "Worker Queue browser acquisition gate is disabled." ;;
  ir ← sandbox_get (as_dict (dict_get "input_reference" payload)) "Queue-bound Run lacks input reference.";
  queue_id ← queue_of_binding (dict_get "request_queue" ir);
  binding ← worker_digest (queue_binding queue_id);
  expected ← queue_acquisition payload ir egress browser f queue_id binding;
  sandbox_check (py_eq (dict_get "queue_binding_receipt" ir) (PDict expected.1)) "Queue-bound Run binding receipt is invalid." ;;
  let receipt := default [] (as_dict (dict_get "queue_binding_receipt" ir)) in
  check_queue_dataset payload ir f queue_id receipt ;;
  check_queue_store payload ir f queue_id receipt ;;
  sandbox_check (py_eq (dict_get "request_queue_capability" payload)
      (PDict (expected_queue_capability payload activation worker_name f queue_id expected.2)))
    "Canary Request Queue capability receipt is invalid."
else sandbox_check (bool_decide (dict_get "request_queue_capability" payload = PNone))
  "Queue-disabled work cannot carry a Request Queue capability.".

(** ** Profiles *)

Definition check_binding payload activation (egress : option EgressPolicy) : exn + () :=
let receipt := match dict_get "input_reference" payload with
               | PDict ir => dict_get "project_egress_policy_receipt" ir | _ => PNone end in
match dict_get "project_egress_policy_binding_digest" activation with
| PNone => sandbox_check (bool_decide (receipt = PNone)) "Project egress-policy receipt lacks activation binding."
| PStr binding =>
    sandbox_check (match receipt with PDict r => bool_decide (dict_get "binding_digest" r = PStr binding) | _ => false end
                   && bool_decide (is_Some egress)) "Activation Project egress-policy binding mismatch."
| _ => inl (Fault "SandboxPolicyError" "Activation Project egress-policy binding mismatch.")
end.

Definition check_offline activation (f : runtime_facts) : exn + () :=
sandbox_check (bool_decide (rf_network f = text "none")) "Offline-minimal activation requires network=none." ;;
sandbox_check (bool_decide (dict_get "egress_policy_digest" activation = PNone))
  "Offline-minimal activation cannot carry an egress digest." ;;
sandbox_check (negb (rf_queue_http f)) "Queue HTTP acquisition cannot use the offline profile.".
Definition check_brokered activation (egress : option EgressPolicy) (f : runtime_facts) : exn + () :=
sandbox_check (negb (rf_browser f)) "Brokered web-egress activation cannot enable browser." ;;
sandbox_check (rf_web f) "Brokered web-egress activation requires network=web-egress." ;;
egress ← sandbox_get egress "Worker web-egress policy is disabled or unavailable.";
d ← digest egress;
sandbox_check (bool_decide (dict_get "egress_policy_digest" activation = PStr d))
  "Canary activation egress-policy digest does not match the worker policy." ;;
sandbox_check (bool_decide (dict_get "browser_policy_digest" activation = PNone))
  "Brokered web-egress activation cannot carry browser policy." ;;
sandbox_check (negb (rf_queue f && negb (rf_queue_http f))) "Brokered Queue Runs require Queue HTTP acquisition.".
Definition check_browser payload activation (egress : option EgressPolicy) (browser : option BrowserPolicy) (f : runtime_facts)
  : exn + () :=
sandbox_check (rf_start f) "Controlled-browser activation is valid only for RUN_START." ;;
sandbox_check (rf_browser f && rf_web f) "Controlled browser requires browser=true and web-egress." ;;
egress ← sandbox_get egress "Worker browser or web-egress policy is unavailable.";
browser ← sandbox_get browser "Worker browser or web-egress policy is unavailable.";
ed ← digest egress;
sandbox_check (bool_decide (dict_get "egress_policy_digest" activation = PStr ed)) "Controlled-browser egress-policy digest mismatch." ;;
bd ← browser_digest browser;
sandbox_check (bool_decide (dict_get "browser_policy_digest" activation = PStr bd)) "Controlled-browser policy digest mismatch." ;;
ir ← sandbox_get (as_dict (dict_get "input_reference" payload)) "Controlled-browser claim lacks an input reference.";
if rf_queue_browser f then inr ()
else if has_key "browser_navigation" ir then live_navigation_receipt ir egress browser
else
  stored ← sandbox_get (as_dict (dict_get "browser_policy" ir)) "Controlled-browser claim lacks a policy receipt.";
  stored_digest ← worker_digest stored;
  sandbox_check (bool_decide (stored_digest = bd)) "Stored browser policy receipt does not match worker policy." ;;
  sandbox_check (bool_decide (dict_get "browser_policy_digest" ir = PStr bd)) "Stored browser policy digest does not match worker policy." ;;
  recast "BrowserPolicyError" "Browser plan failed independent worker validation."
    (validate_browser_plan (dict_get "browser" ir) browser) ;;
  inr ().

Definition check_profile payload activation (egress : option EgressPolicy) (browser : option BrowserPolicy) (f : runtime_facts)
  : exn + () :=
let profile := dict_get "capability_profile" activation in
if bool_decide (profile = text "offline-minimal") then check_offline activation f
else if bool_decide (profile = text "brokered-web-egress") then check_brokered activation egress f
else if bool_decide (profile = text "controlled-browser") then check_browser payload activation egress browser f
else inl (Fault "SandboxPolicyError" "Canary activation capability profile is unsupported.").

(** [_require_canary_activation]: the activation. *)
Definition require_canary_activation payload (worker_name : pystr) (egress : option EgressPolicy) (browser : option BrowserPolicy)
  : exn + list (pykey * pyval) :=
activation ← sandbox_get (as_dict (dict_get "activation" payload)) "The control plane did not provide a canary activation receipt.";
sandbox ← sandbox_get (as_dict (dict_get "sandbox" payload)) "The control plane did not provide a canary activation receipt.";
check_identity payload activation sandbox worker_name ;;
f ← manifest_facts payload;
check_combinations activation f ;;
check_dataset payload activation worker_name f ;;
check_store payload activation worker_name f ;;
check_queue payload activation worker_name egress browser f ;;
check_binding payload activation egress ;;
check_profile payload activation egress browser f ;;
inr activation.

(** What [_build] and [_run] do first: the policies and the activation. *)
Definition activate_claim payload (worker_name : pystr)
  : exn + option EgressPolicy * option BrowserPolicy * list (pykey * pyval) :=
ceiling ← worker_egress_policy;
egress ← effective_egress_policy payload ceiling;
browser ← worker_browser_policy;
activation ← require_canary_activation payload worker_name egress browser;
inr (egress, browser, activation).
End activation.
