(* ===== verification/SandboxActivationSpec.v ===== *)
(** What the activation checks of the sandbox worker guarantee, whatever the control plane
    sends: a claim that passes stays within the worker's own settings. *)

From S2P Require Import Prelude PyVal Json PyUuid Base64 QueueProtocol EventProtocol Idempotency Url.
From S2P Require Import Recovery Pagination RunEvents ExecutionPlane EgressProtocol KvProtocol PyEq KvWorkerProtocol Canary Admission.
From S2P Require Import SandboxJson SandboxEgress QueueWorker SandboxKv BrowserPolicy BrowserNavigation SandboxActivation.

Section activation.
Context `{CaseFold, UrlTables, Idna, UpperCase, Sha256, UnicodeDecimal, PyRepr, FloatCompare}.
Context (config : worker_config).
Implicit Types (payload ir activation : list (pykey * pyval)).

(** ** Policies *)

Lemma recast_inr {A} class reason (r : exn + A) x : recast class reason r = inr x → r = inr x.
Proof. destruct r as [[]|]; cbn; try done. by case_bool_decide. Qed.

(** A policy the worker may apply: one [create] accepts, within that of its settings. *)
Definition own_policy (p : EgressPolicy) : Prop :=
wc_web_egress_enabled config = true ∧
∃ own, SandboxEgress.create (wc_allowed_hosts config) ALLOWED_METHODS (wc_web_egress config) = inr own ∧
  within_ceiling p own = true ∧ ∃ hosts methods limits, SandboxEgress.create hosts methods limits = inr p.

Lemma within_ceiling_refl p : within_ceiling p p = true.
Proof. unfold within_ceiling, limits_within. rewrite !bool_decide_eq_true_2 by done. cbn [andb]. rewrite !andb_true_iff, !Z.leb_le. lia. Qed.
Lemma worker_egress_policy_Some p : worker_egress_policy config = inr (Some p) →
wc_web_egress_enabled config = true ∧ SandboxEgress.create (wc_allowed_hosts config) ALLOWED_METHODS (wc_web_egress config) = inr p.
Proof. unfold worker_egress_policy. destruct (wc_web_egress_enabled config); [|done]. cbn [negb]. intros Hp. musts Hp. by injection Hp as <-. Qed.
Lemma stored_policy_inr stored p : stored_policy stored = inr p → ∃ hosts methods limits, SandboxEgress.create hosts methods limits = inr p.
Proof.
unfold stored_policy. intros Hp. musts Hp. injection Hp as <-.
match goal with Hr : recast _ _ _ = inr _ |- _ => apply recast_inr in Hr; by eexists _, _, _ end.
Qed.
Lemma effective_egress_policy_Some payload ceiling p : worker_egress_policy config = inr ceiling →
effective_egress_policy payload ceiling = inr (Some p) → own_policy p.
Proof.
intros Hc. assert (∀ q, ceiling = Some q → own_policy q) as Hown.
{ intros q ->. apply worker_egress_policy_Some in Hc as [Hg Hc]. split; [done|]. exists q. split_and!; [done|apply within_ceiling_refl|by eexists _, _, _]. }
unfold effective_egress_policy. destruct (dict_get "input_reference" payload); try (intros [= He]; by apply Hown).
cbv zeta. destruct (_ && _); [intros [= He]; by apply Hown|]. unfold bound_worker_policy, sandbox_get, sandbox_check. intros He. musts He. injection He as <-.
match goal with Ho : ceiling = Some ?q |- _ => rename q into own; rewrite Ho in Hc end.
apply worker_egress_policy_Some in Hc as [Hg Hc]. split; [done|]. exists own.
match goal with Hs : stored_policy _ = inr _ |- _ => apply stored_policy_inr in Hs end. split_and!; done.
Qed.
Lemma worker_browser_policy_Some b : worker_browser_policy config = inr (Some b) → wc_browser_enabled config = true ∧ bp_enabled b = true.
Proof.
unfold worker_browser_policy. destruct (wc_browser_enabled config); [|done]. cbn [negb]. intros Hb. musts Hb. injection Hb as <-.
match goal with Hc : create_browser _ _ _ _ _ _ _ = inr _ |- _ => unfold create_browser in Hc; musts Hc; injection Hc as <- end. done.
Qed.

(** ** Surfaces *)

(** A run navigates by a plan the worker itself accepts. *)
Definition plan_accepted ir (b : BrowserPolicy) : Prop :=
(wc_live_navigation_enabled config = true ∧
 ∃ plan d, dict_get "browser_navigation" ir = PDict plan ∧ validate_browser_navigation_plan (PDict plan) b = inr d) ∨
(∃ d, validate_browser_plan (dict_get "browser" ir) b = inr d).

(** What a run may reach. *)
Definition network_confined payload activation (egress : option EgressPolicy) (browser : option BrowserPolicy) (f : runtime_facts) : Prop :=
(rf_network f = text "none" ∧ dict_get "egress_policy_digest" activation = PNone) ∨
(rf_network f = text "web-egress" ∧ ∃ p d, egress = Some p ∧ own_policy p ∧ digest p = inr d ∧
   dict_get "egress_policy_digest" activation = PStr d ∧
   (rf_browser f = true → rf_start f = true ∧ wc_browser_enabled config = true ∧
      ∃ b ir bd, browser = Some b ∧ browser_digest b = inr bd ∧ dict_get "browser_policy_digest" activation = PStr bd ∧
        dict_get "input_reference" payload = PDict ir ∧ (rf_queue f = false → plan_accepted ir b))).

Record confined_claim payload (worker_name : pystr) (egress : option EgressPolicy) (browser : option BrowserPolicy)
  activation (f : runtime_facts) : Prop := {
cc_identity : dict_get "mode" activation = text "canary" ∧ dict_get "worker_name" activation = PStr worker_name ∧
  dict_get "no_secrets" activation = PBool true;
cc_dataset : if rf_dataset f then rf_start f = true ∧ rf_store f = false ∧ wc_dataset_writes_enabled config = true
             else dict_get "dataset_append_capability" payload = PNone;
cc_store : if rf_store f then wc_key_value_store_enabled config = true
           else dict_get "key_value_store_capability" payload = PNone;
cc_queue : if rf_queue f then wc_request_queue_enabled config = true ∧
             (rf_queue_http f = true → wc_queue_http_enabled config = true) ∧
             (rf_queue_browser f = true → wc_queue_browser_enabled config = true) ∧
             (rf_dataset f = true → wc_queue_dataset_enabled config = true) ∧
             (rf_store f = true → wc_queue_key_value_store_enabled config = true)
           else dict_get "request_queue_capability" payload = PNone;
cc_network : network_confined payload activation egress browser f }.

Lemma check_dataset_ok payload activation name f : check_dataset config payload activation name f = inr () →
if rf_dataset f then rf_start f = true ∧ wc_dataset_writes_enabled config = true
else dict_get "dataset_append_capability" payload = PNone.
Proof.
unfold check_dataset, sandbox_check. intros Hd. must_step Hd. destruct (rf_dataset f).
- musts Hd. breflect. done.
- apply must_inr in Hd. by breflect.
Qed.
Lemma check_store_ok payload activation name f : check_store config payload activation name f = inr () →
if rf_store f then wc_key_value_store_enabled config = true else dict_get "key_value_store_capability" payload = PNone.
Proof.
unfold check_store, sandbox_check. intros Hd. must_step Hd. destruct (rf_store f).
- by must_step Hd.
- apply must_inr in Hd. by breflect.
Qed.
Lemma check_queue_ok payload activation name egress browser f : check_queue config payload activation name egress browser f = inr () →
if rf_queue f then wc_request_queue_enabled config = true ∧
  (rf_queue_http f = true → wc_queue_http_enabled config = true) ∧
  (rf_queue_browser f = true → wc_queue_browser_enabled config = true)
else dict_get "request_queue_capability" payload = PNone.
Proof.
unfold check_queue, sandbox_check. intros Hd. do 3 must_step Hd. destruct (rf_queue f).
- do 3 must_step Hd. split_and!; [done|..]; intros Hf; match goal with Hg : negb _ || _ = true |- _ => rewrite Hf in Hg; done end.
- apply must_inr in Hd. by breflect.
Qed.

Lemma check_combinations_ok activation f : check_combinations config activation f = inr () →
negb (rf_dataset f && rf_store f) = true ∧ (rf_queue_store f = true → wc_queue_key_value_store_enabled config = true) ∧
(rf_queue_dataset f = true → wc_queue_dataset_enabled config = true).
Proof.
unfold check_combinations, sandbox_check. intros Hd. musts Hd. split_and!; [done|..]; intros Hf; by rewrite Hf in *.
Qed.
Lemma live_navigation_receipt_ok ir egress b : live_navigation_receipt config ir egress b = inr () → plan_accepted ir b.
Proof.
unfold live_navigation_receipt, sandbox_check, sandbox_get. cbv zeta. intros Hl. musts Hl. left. split; [done|].
match goal with Hn : as_dict (dict_get "browser_navigation" _) = Some ?n |- _ => exists n; apply as_dict_Some in Hn end.
match goal with Hr : recast _ _ _ = inr ?d |- _ => exists d; apply recast_inr in Hr end. done.
Qed.
Lemma check_offline_ok activation f : check_offline activation f = inr () →
rf_network f = text "none" ∧ dict_get "egress_policy_digest" activation = PNone.
Proof. unfold check_offline, sandbox_check. intros Hd. musts Hd. by breflect. Qed.
Lemma check_brokered_ok activation egress f : check_brokered activation egress f = inr () →
rf_browser f = false ∧ rf_network f = text "web-egress" ∧ ∃ p d, egress = Some p ∧ digest p = inr d ∧
  dict_get "egress_policy_digest" activation = PStr d.
Proof.
unfold check_brokered, sandbox_check, sandbox_get, rf_web. intros Hd. musts Hd. breflect. split_and!; [done|done|].
by eexists _, _.
Qed.
Lemma check_browser_ok payload activation egress browser f : check_browser config payload activation egress browser f = inr () →
rf_start f = true ∧ rf_network f = text "web-egress" ∧ ∃ p d b bd ir, egress = Some p ∧ browser = Some b ∧
  digest p = inr d ∧ dict_get "egress_policy_digest" activation = PStr d ∧ browser_digest b = inr bd ∧
  dict_get "browser_policy_digest" activation = PStr bd ∧ dict_get "input_reference" payload = PDict ir ∧
  (rf_queue f = false → plan_accepted ir b).
Proof.
unfold check_browser, sandbox_check, sandbox_get. intros Hd. do 9 must_step Hd. breflect. unfold rf_web in *. breflect.
split_and!; [done..|]. do 5 eexists. split_and!; try done; [by apply as_dict_Some|].
intros Hq. unfold rf_queue_browser in Hd. rewrite Hq in Hd. cbn [andb] in Hd.
destruct (has_key _ _) in Hd; [by apply live_navigation_receipt_ok in Hd|]. musts Hd. right.
match goal with Hr : recast _ _ _ = inr ?d |- _ => exists d; by apply recast_inr in Hr end.
Qed.

Lemma check_identity_ok payload activation sandbox name : check_identity payload activation sandbox name = inr () →
dict_get "mode" activation = text "canary" ∧ dict_get "worker_name" activation = PStr name ∧ dict_get "no_secrets" activation = PBool true.
Proof. unfold check_identity, sandbox_check. intros Hi. musts Hi. by breflect. Qed.
Lemma check_profile_ok payload activation egress browser f : (∀ p, egress = Some p → own_policy p) →
(∀ b, browser = Some b → wc_browser_enabled config = true) →
check_profile config payload activation egress browser f = inr () → network_confined payload activation egress browser f.
Proof.
unfold check_profile. cbv zeta. intros Hown Hgate Hp. destruct (bool_decide (dict_get "capability_profile" activation = text "offline-minimal")).
{ left. by apply check_offline_ok in Hp. }
destruct (bool_decide (dict_get "capability_profile" activation = text "brokered-web-egress")).
{ apply check_brokered_ok in Hp as (Hb & Hn & p & d & -> & Hd & Ha). right. split; [done|]. exists p, d. split_and!; [done|by apply Hown|done|done|].
  by rewrite Hb. }
destruct (bool_decide (dict_get "capability_profile" activation = text "controlled-browser")); [|done].
apply check_browser_ok in Hp as (Hs & Hn & p & d & b & bd & ir & -> & -> & Hd & Ha & Hb & Hba & Hir & Hplan).
right. split; [done|]. exists p, d. split_and!; [done|by apply Hown|done|done|]. intros _. split_and!; [done|by eapply Hgate|].
by exists b, ir, bd.
Qed.

(** C18: whatever the control plane sends, a claim the worker activates is for this worker,
  carries no secret, and stays within the worker's own settings: every surface it uses has
  its gate open and no other carries a capability; it runs without a network, or with an
  egress policy within the worker's ceiling whose digest the activation names; and a browser
  runs only plans the worker has validated itself. *)
Theorem worker_activation_is_confined payload worker_name egress browser activation :
activate_claim config payload worker_name = inr (egress, browser, activation) →
∃ f, manifest_facts payload = inr f ∧ confined_claim payload worker_name egress browser activation f.
Proof.
unfold activate_claim, require_canary_activation, sandbox_get. intros Ha. musts Ha. injection Ha as <- <- <-.
match goal with Hr : _ = inr ?act |- _ => musts Hr; injection Hr as <- end.
repeat match goal with u : () |- _ => destruct u end.
match goal with Hf : manifest_facts payload = inr ?f |- _ => exists f; split; [done|]; rename f into f end.
match goal with Hi : check_identity _ _ _ _ = inr () |- _ => apply check_identity_ok in Hi end.
match goal with Hi : check_combinations _ _ _ = inr () |- _ => apply check_combinations_ok in Hi as (Hx & Hqs & Hqd) end.
match goal with Hi : check_dataset _ _ _ _ _ = inr () |- _ => apply check_dataset_ok in Hi as Hdataset end.
match goal with Hi : check_store _ _ _ _ _ = inr () |- _ => apply check_store_ok in Hi as Hstore end.
match goal with Hi : check_queue _ _ _ _ _ _ _ = inr () |- _ => apply check_queue_ok in Hi as Hqueue end.
split; [done| |done| |].
- destruct (rf_dataset _); [|done]. destruct Hdataset. by destruct (rf_store _).
- unfold rf_queue_store, rf_queue_dataset in *. destruct (rf_queue _); [|done]. destruct_and!. by split_and!.
- assert (∀ p, a0 = Some p → own_policy p) as Hown by (intros p ->; by eapply effective_egress_policy_Some).
  assert (∀ b, a1 = Some b → wc_browser_enabled config = true) as Hgate by (intros b ->; by eapply worker_browser_policy_Some).
  by eapply check_profile_ok.
Qed.
End activation.
