(* ===== verification/ActivationScenario.v ===== *)
(** The activation of a claim by the sandbox worker, on the claim of RunScenario.v: what the
    control plane sealed is accepted, and the theorems of SandboxActivationSpec.v and
    BrowserNavigationSpec.v apply; a navigation outside ASCII is accepted on both sides
    under different digests. *)

From S2P Require Import Prelude PyVal Json PyUuid PyTime QueueProtocol EventProtocol Idempotency Url.
From S2P Require Import Recovery Pagination RunEvents EgressProtocol EgressScenario ExecutionPlane ExecutionSpec.
From S2P Require Import PyEq KvWorkerProtocol Canary Admission RunSchemas RunCreation RunScenario.
From S2P Require Import SandboxJson SandboxEgress QueueWorker SandboxKv BrowserPolicy BrowserNavigation BrowserNavigationSpec.
From S2P Require Import SandboxActivation SandboxActivationSpec.

Module ActivationScenario.
#[local] Existing Instances EgressScenario.fold_ascii EgressScenario.tables EgressScenario.no_idna EgressScenario.upper_letters.
#[local] Existing Instances EgressScenario.host_tables ExecutionScenario.no_repr ExecutionScenario.no_decimals.
#[local] Existing Instances RunScenario.short_digest RunScenario.no_fractions RunScenario.plain_floats RunScenario.settings.

(** ** A sealed claim *)

(** A worker with the limits of the canary. *)
Definition config : worker_config :=
MkWorkerConfig true [lit "Example.com."; lit "api.example.com"] (MkLimits 16 131072 262144 3 5 20)
  false false true false true true false true false 1 4 10 65536 65536 (lit "browser").
Definition claim : list (pykey * pyval) := RunScenario.sealed.1.1.
Definition outcome := activate_claim config claim (lit "canary-worker").
Definition the_facts : exn + runtime_facts := manifest_facts claim.

Definition is_ok {A} (r : exn + A) : bool := match r with inr _ => true | inl _ => false end.
Definition facts_ok : bool := match the_facts with inr f => rf_queue_http f && rf_dataset f | inl _ => false end.
Lemma is_ok_inr {A} (r : exn + A) : is_ok r = true → ∃ a, r = inr a.
Proof. destruct r as [|a]; [discriminate|by exists a]. Defined.

Lemma worker_activation_is_confined_witness : ∃ egress browser activation f, outcome = inr (egress, browser, activation) ∧
the_facts = inr f ∧ facts_ok = true ∧ confined_claim config claim (lit "canary-worker") egress browser activation f.
Proof.
assert (Hok : is_ok outcome = true) by (vm_compute; reflexivity).
assert (Hf : facts_ok = true) by (vm_compute; reflexivity).
destruct (is_ok_inr outcome Hok) as (((egress & browser) & activation) & Ha).
destruct (worker_activation_is_confined config claim (lit "canary-worker") egress browser activation Ha) as (f & Hfacts & Hc).
exists egress, browser, activation, f. split; [exact Ha|]. split; [exact Hfacts|]. split; [exact Hf|exact Hc].
Defined.
(** With a gate closed the same claim is refused. *)
Definition without_datasets : worker_config :=
MkWorkerConfig true [lit "Example.com."; lit "api.example.com"] (MkLimits 16 131072 262144 3 5 20)
  false false false false true true false true false 1 4 10 65536 65536 (lit "browser").
Example dataset_gate_closed : activate_claim without_datasets claim (lit "canary-worker")
= inl (Fault "SandboxPolicyError" "Canary Dataset writes are not enabled for this Run.").
Proof. vm_compute. reflexivity. Qed.

(** ** Navigations *)

#[local] Existing Instance RunScenario.canary_instance.
Definition steps_with (selector : pystr) : list navigation_step :=
[MkStep (lit "open") (Goto (lit "https://example.com/page") LOAD); MkStep (lit "title") (ExtractText selector 100);
 MkStep (lit "shot") Screenshot].
Definition steps : list navigation_step := steps_with (lit "h1.title").
Definition plan : pyval := PDict (navigation_dump steps).
Definition blank_policy : BrowserPolicy := MkBrowserPolicy false [] 0 0 0 0 0.
Definition browser : BrowserPolicy := RunScenario.result blank_policy
  (create_browser true (cs_allowed_hosts canary) (cs_browser_max_pages canary) (cs_browser_max_actions canary)
     (cs_navigation_timeout_seconds canary) (cs_browser_max_dom_bytes canary) 65536).
Definition receipt_of (selector : pystr) : list (pykey * pyval) := RunScenario.result []
  (browser_navigation_receipt (steps_with selector) (to_hex 64 1) (to_hex 64 2) true).
Definition worker_request_digest (selector : pystr) : pyval :=
dict_get "request_digest" (RunScenario.result [] (validate_browser_navigation_plan (PDict (navigation_dump (steps_with selector))) browser)).

Lemma browser_created : create_browser true (cs_allowed_hosts canary) (cs_browser_max_pages canary) (cs_browser_max_actions canary)
  (cs_navigation_timeout_seconds canary) (cs_browser_max_dom_bytes canary) 65536 = inr browser.
Proof. vm_compute. reflexivity. Defined.
Lemma accepted_navigation_runs_witness : worker_request_digest (lit "h1.title") = dict_get "request_digest" (receipt_of (lit "h1.title")).
Proof.
assert (Hr : browser_navigation_receipt steps (to_hex 64 1) (to_hex 64 2) true = inr (receipt_of (lit "h1.title"))) by (vm_compute; reflexivity).
destruct (accepted_navigation_runs steps (to_hex 64 1) (to_hex 64 2) true (receipt_of (lit "h1.title")) 65536 browser) as
  (d & digest & Hd & _ & _ & Hw & Ha); [vm_compute; reflexivity|exact Hr|exact browser_created|].
unfold worker_request_digest. change (PDict (navigation_dump (steps_with (lit "h1.title")))) with (PDict (navigation_dump steps)).
rewrite Hd. unfold RunScenario.result at 1. rewrite Hw, Ha; [reflexivity|vm_compute; reflexivity].
Defined.
Lemma wf_plan : wf_json plan.
Proof.
repeat match goal with |- NoDup _ => apply (bool_decide_unpack _); vm_compute; exact I | _ => split end.
Qed.

(** A selector outside ASCII: both sides accept the navigation, but the receipt the control
  plane writes does not carry the digest the worker requires of it. *)
Definition accented : pystr := lit "h1.caf" ++ [233%N].
Example accented_navigation_is_refused :
bool_decide (receipt_of accented = []) = false ∧ bool_decide (worker_request_digest accented = PNone) = false ∧
bool_decide (worker_request_digest accented = dict_get "request_digest" (receipt_of accented)) = false.
Proof. vm_compute. done. Qed.
End ActivationScenario.
