(* ===== verification/WorkerClient.v ===== *)
(** The effects of the sandbox worker and its client of the control plane:
    src/workers/sandbox-runtime/rdc_worker_client.py.  What the control plane, the
    containers and the files answer is a parameter, [Host]; a computation leaves a trace of
    what it did and what was answered. *)

From S2P Require Import Prelude PyVal Json PyUuid QueueProtocol EventProtocol Idempotency Url.
From S2P Require Import KvProtocol EgressProtocol PyEq Canary Admission SandboxJson SandboxEgress WebFetch EgressBroker.

(** ** Exceptions *)

(** The class of an exception. *)
Definition class_of (e : exn) : string :=
  match e with
  | Fault class _ => class
  | ApiError _ _ => "HTTPException"
  | ValueError _ => "ValueError"
  | TypeError _ => "TypeError"
  | RuntimeError _ => "RuntimeError"
  | OverflowError _ => "OverflowError"
  | AttributeError _ => "AttributeError"
  | UnicodeEncodeError => "UnicodeEncodeError"
  | ValidationError => "ValidationError"
  | IntegrityError _ => "IntegrityError"
  end.
(** The classes above a class, of those the handlers name; an operating-system error is an
  [OSError] of its own class or of one of the classes the standard library derives. *)
Definition bases (class : string) : list string :=
  if bool_decide (class ∈ ["UnicodeEncodeError"; "UnicodeDecodeError"]%string) then ["UnicodeError"; "ValueError"]%string
  else if bool_decide (class ∈ ["JSONDecodeError"; "UnicodeError"; "BrowserNavigationContractError"; "BrowserNavigationResultError";
                                "BrowserPolicyError"; "DatasetProtocolError"; "KVProtocolError"; "KVWorkerBoundaryError";
                                "QueueWorkerBoundaryError"; "WebFetchContractError"; "ValidationError"]%string)
  then ["ValueError"]%string
  else if bool_decide (class ∈ ["BrowserRuntimeError"]%string) then ["SandboxPolicyError"; "RuntimeError"]%string
  else if bool_decide (class ∈ ["URLError"; "HTTPError"; "TimeoutError"; "ConnectionError"; "ConnectionResetError";
                                "ConnectionRefusedError"; "ConnectionAbortedError"; "BrokenPipeError"; "RemoteDisconnected";
                                "FileNotFoundError"; "FileExistsError"; "PermissionError"; "IsADirectoryError";
                                "NotADirectoryError"; "InterruptedError"; "BlockingIOError"; "ChildProcessError"; "SSLError"]%string)
  then ["OSError"]%string
  else [].
(** [except (C1, C2, ...)]. *)
Definition caught (classes : list string) (e : exn) : bool :=
  bool_decide (class_of e ∈ classes) || existsb (λ b, bool_decide (b ∈ classes)) (bases (class_of e)).
(** [except Exception]: the other exceptions stop the process; [WorkerShutdown] is one. *)
Definition is_exception (e : exn) : bool :=
  negb (bool_decide (class_of e ∈ ["WorkerShutdown"; "KeyboardInterrupt"; "SystemExit"; "GeneratorExit"]%string)).
(** [str(exc)]: the argument of an exception the worker raises. *)
Class ExcText := exc_text : exn → pystr.

(** ** Effects *)

(** The files of a workspace; [Built] ones are the build's. *)
Inductive file :=
| SourceZip | ImageTar | OutputFile | LogFile | BrowserOutput | BrowserLog
| Built (path : pystr).

Inductive endpoint :=
| WorkerMe | LeaseStatus | SourceDownload | ArtifactUpload | ArtifactDownload | DatasetAppend | KvRead | KvMutate
| QueueClaim | QueueComplete | Complete | SecretEnvelope | EgressCredentialEnvelope.
(** The method and path of a request. *)
Definition endpoint_name (e : endpoint) : string :=
  match e with
  | WorkerMe => "me" | LeaseStatus => "status" | SourceDownload => "source-download" | ArtifactUpload => "artifact-upload"
  | ArtifactDownload => "artifact-download" | DatasetAppend => "dataset-append" | KvRead => "kv-read" | KvMutate => "kv-mutate"
  | QueueClaim => "queue-claim" | QueueComplete => "queue-complete" | Complete => "complete" | SecretEnvelope => "secret-envelope"
  | EgressCredentialEnvelope => "egress-credential-envelope"
  end.
Definition endpoint_method (e : endpoint) : string := match e with WorkerMe => "GET" | _ => "POST" end.
Definition endpoint_path (e : endpoint) (lease_id : pystr) : pystr :=
  match e with
  | WorkerMe => lit "/internal/v1/workers/me"
  | e => lit "/internal/v1/leases/" ++ lease_id ++ lit "/" ++ lit (endpoint_name e)
  end.
(** A lease and its token. *)
Record lease := MkLease { le_id : pystr; le_token : pystr }.

(** The arguments of [run_agent], [run_browser_live_navigation] and [build_agent]. *)
Record agent_call := MkAgentCall {
  ag_run_id : pystr; ag_image_ref : pystr; ag_entrypoint : list pystr; ag_input : list (pykey * pyval);
  ag_secrets : list (pykey * pyval); ag_policy : list (pykey * pyval) }.
Record navigation_call := MkNavigationCall {
  nc_run_id : pystr; nc_plan : list (pykey * pyval); nc_browser_policy_digest : pystr; nc_egress : EgressPolicy;
  nc_request_digest : pystr; nc_max_screenshot_bytes : Z; nc_navigation_timeout_seconds : Z; nc_runtime_timeout_seconds : Z }.
Record build_call := MkBuildCall {
  bc_build_id : pystr; bc_agent_version_id : pystr; bc_source_sha256 : pystr; bc_activation : list (pykey * pyval);
  bc_timeout_seconds : Z }.
(** [LocalArtifact]. *)
Record LocalArtifact := MkArtifact {
  la_kind : pystr; la_path : file; la_media_type : pystr; la_digest : pystr; la_size_bytes : Z; la_scan_status : pystr;
  la_provenance : list (pykey * pyval) }.

(** What the worker asks of the world.  [Api] is [_request], which answers [None] for 204. *)
Inductive effect : Type → Type :=
| Api (e : endpoint) (l : lease) (payload : option (list (pykey * pyval))) : effect (option pyval)
| MakeWorkspace (prefix : string) : effect ()
| CleanupTree : effect ()
| MakeSourceDir : effect ()
| DownloadFile (url : pystr) (f : file) (max_bytes : Z) : effect ()
| UploadFile (url : pystr) (headers : list (pykey * pyval)) (f : file) : effect ()
| Sha256File (f : file) : effect (pystr * Z)
| ExtractZip : effect ()
| IsFile (f : file) : effect bool
| FileSize (f : file) : effect Z
| ReadJson (f : file) : effect pyval
| WriteBytes (f : file) (b : list N) : effect ()
| BuildAgent (b : build_call) : effect (list LocalArtifact)
| LoadImage : effect ()
| CancelRun (run_id : pystr) : effect ()
| RunAgent (a : agent_call) : effect Z
| RunNavigation (n : navigation_call) : effect ()
| RunSelfTest (run_id : pystr) : effect ()
| GenerateKeyPair : effect pystr
| DecryptSecrets (envelope : pyval) (l : lease) (worker_id run_id : pystr) : effect (list (pykey * pyval))
| DecryptCredential (envelope : pyval) (l : lease) (worker_id run_id binding_digest : pystr) : effect pystr.

(** An effect with its answer, or the exchanges of a broker. *)
Inductive event :=
| Did {A} (e : effect A) (answer : exn + A)
| Brokered (b : broker).
(** Latest first. *)
Definition trace : Type := list event.

(** The world: it answers any effect, whatever happened before, or raises anything. *)
Class Host := answer : ∀ A, effect A → trace → exn + A.

Definition perform `{Host} {A} (e : effect A) : M trace A := λ tr, let r := answer A e tr in (r, Did e r :: tr).
Definition brokered {A} (m : M broker A) : M trace A := λ tr, let '(r, b) := m idle in (r, Brokered b :: tr).

(** [try: m except classes: h]. *)
Definition except {A} (classes : list string) (m h : M trace A) : M trace A :=
  try_catch m (λ e, if caught classes e then h else raise e).
(** [try: m finally: c]. *)
Definition finally {A} (m : M trace A) (c : M trace ()) : M trace A := λ tr,
  let '(r, tr) := m tr in
  match c tr with
  | (inl e, tr) => (inl e, tr)
  | (inr _, tr) => (r, tr)
  end.

(** ** The client *)

Section client.
Context `{Host}.
Implicit Types (l : lease) (payload : list (pykey * pyval)).

Definition call (e : endpoint) l (payload : option (list (pykey * pyval))) (empty : string) : M trace pyval :=
response ← perform (Api e l payload);
get_or_raise response (Fault "WorkerProtocolError" empty).

Definition client_worker l : M trace pyval := call WorkerMe l None "Worker metadata response was empty.".
Definition client_status l (status : string) : M trace pyval :=
call LeaseStatus l (Some [entry "status" (text status); entry "message" PNone]) "Lease status response was empty.".
Definition client_source_download l : M trace pyval := call SourceDownload l None "Source-download response was empty.".
Definition client_artifact_upload l payload : M trace pyval := call ArtifactUpload l (Some payload) "Artifact-upload response was empty.".
Definition client_artifact_download l : M trace pyval := call ArtifactDownload l None "Artifact-download response was empty.".
Definition client_dataset_append l payload : M trace pyval := call DatasetAppend l (Some payload) "Dataset-append response was empty.".
Definition client_kv_read l payload : M trace pyval := call KvRead l (Some payload) "KV-read response was empty.".
Definition client_kv_mutate l payload : M trace pyval := call KvMutate l (Some payload) "KV-mutate response was empty.".
Definition client_queue_claim l (queue_id : pystr) : M trace (option pyval) :=
perform (Api QueueClaim l (Some [entry "queue_id" (PStr queue_id)])).
Definition client_queue_complete l payload : M trace pyval := call QueueComplete l (Some payload) "Queue-complete response was empty.".
Definition client_complete l payload : M trace pyval := call Complete l (Some payload) "Lease completion response was empty.".
Definition client_request_secret_envelope l (names : list pystr) (environment : string) (public_key : pystr) : M trace pyval :=
call SecretEnvelope l (Some [entry "names" (PList (PStr <$> names)); entry "environment" (text environment);
  entry "worker_public_key_b64" (PStr public_key)]) "Secret-envelope response was empty.".
Definition client_request_egress_credential_envelope l (policy_binding_digest public_key : pystr) : M trace pyval :=
call EgressCredentialEnvelope l (Some [entry "policy_binding_digest" (PStr policy_binding_digest);
  entry "worker_public_key_b64" (PStr public_key)]) "Egress credential-envelope response was empty.".
End client.
