(* ===== verification/WorkerRun.v ===== *)
(** The run of a claimed lease: [_run], [_queue_browser_acquire] and [_upload_artifacts] of
    src/workers/sandbox-runtime/worker.py, from the claim to the completion of the lease,
    over the effects of WorkerClient.v. *)

From S2P Require Import Prelude PyVal Json PyUuid Base64 QueueProtocol EventProtocol Idempotency Url.
From S2P Require Import KvProtocol EgressProtocol PyEq KvWorkerProtocol Canary Admission SandboxJson SandboxEgress WebFetch EgressBroker.
From S2P Require Import QueueWorker SandboxAcquisition SandboxKv SandboxDataset BrowserPolicy BrowserNavigation SandboxActivation WorkerClient.

(** ** Conversions *)

Definition type_error {A} (reason : string) : exn + A := inl (TypeError reason).
(** [dict(v)] of a value; a key that is no text is [KOther]. *)
Definition as_key (v : pyval) : exn + pykey :=
  match v with PStr s => inr (KStr s) | v => if hashable v then inr KOther else type_error "unhashable type" end.
Definition key_value (k : pykey) : pyval := match k with KStr s => PStr s | KOther => POther end.
Definition as_pair (v : pyval) : exn + pykey * pyval :=
  match v with
  | PList [k; x] => key ← as_key k; inr (key, x)
  | PStr [a; b] => inr (KStr [a], PStr [b])
  | PDict [(k, _); (k', _)] => inr (k, key_value k')
  | PList _ | PStr _ | PDict _ => inl (ValueError "dictionary update sequence element")
  | _ => type_error "cannot convert dictionary update sequence element"
  end.
Definition py_dict (v : pyval) : exn + list (pykey * pyval) :=
  match v with
  | PDict d => inr d
  | PList l => kvs ← mapM as_pair l; inr (dict_of kvs)
  | PStr [] => inr []
  | PStr _ => inl (ValueError "dictionary update sequence element")
  | _ => type_error "object is not iterable"
  end.
(** [dict(v or {})]. *)
Definition py_dict_or (v : pyval) : exn + list (pykey * pyval) := if truthy v then py_dict v else inr [].
(** The elements [for x in v] visits. *)
Definition py_iter (v : pyval) : exn + list pyval :=
  match v with
  | PList l => inr l
  | PStr s => inr ((λ c, PStr [c]) <$> s)
  | PDict d => inr (key_value ∘ fst <$> d)
  | _ => type_error "object is not iterable"
  end.

(** [_data]. *)
Definition data (response : pyval) : exn + list (pykey * pyval) :=
  match response with
  | PDict d => sandbox_get (as_dict (dict_get "data" d)) "Worker protocol response is missing data."
  | _ => inl (AttributeError "get")
  end.

(** ** Early returns *)

(** What a part of [_run] does: it returns the outcome of the run, or goes on. *)
Inductive flow (A : Type) := Done (outcome : string) | Go (a : A).
Arguments Done {A} _.
Arguments Go {A} _.
Definition continue {A B} (m : M trace (flow A)) (k : A → M trace (flow B)) : M trace (flow B) :=
  r ← m; match r with Done outcome => mret (Done outcome) | Go a => k a end.
Notation "x ⇐ m ; k" := (continue m (λ x, k)) (at level 20, m at level 100, k at level 200).

Section run.
Context `{CaseFold, UrlTables, Idna, UpperCase, Sha256, UnicodeDecimal, PyRepr, FloatCompare, !PyInt}.
Context `{!Resolver, !GlobalAddress, !Origins, !UrlJoin, !CharsetDecoder, !Host, !ExcText}.
Context (config : worker_config).
Implicit Types (l : lease) (payload activation claim input : list (pykey * pyval)).

(** ** Completions of the lease *)

Definition failure (code summary : string) : list (pykey * pyval) :=
[entry "outcome" (text "FAILED"); entry "retryable" (PBool false); entry "error_code" (text code);
 entry "error_summary" (text summary)].
Definition success (artifacts : list pyval) : list (pykey * pyval) :=
[entry "outcome" (text "SUCCEEDED"); entry "retryable" (PBool false); entry "artifacts" (PList artifacts)].
Definition failed {A} l (code summary : string) : M trace (flow A) :=
client_complete l (failure code summary) ;; mret (Done "failed").

(** The end of a failed part of a run: the claimed request, if any, is reported failed, then
  the lease. *)
Definition failed_claim {A} l (claim : option (list (pykey * pyval))) (code claim_summary completion_summary summary : string)
  : M trace (flow A) :=
_ ⇐ match claim with
    | Some claim =>
        except ["WorkerProtocolError"%string]
          (p ← lift (queue_completion_payload claim false code claim_summary); client_queue_complete l p ;; mret (Go ()))
          (failed l "REQUEST_QUEUE_COMPLETION_FAILED" completion_summary)
    | None => mret (Go ())
    end;
failed l code summary.

(** ** [_upload_artifacts] *)

Definition upload_artifact l (a : LocalArtifact) : M trace pyval :=
response ← client_artifact_upload l
  [entry "kind" (PStr (la_kind a)); entry "digest_algorithm" (text "sha256"); entry "digest" (PStr (la_digest a));
   entry "media_type" (PStr (la_media_type a)); entry "size_bytes" (PInt (la_size_bytes a))];
grant ← lift (data response);
url ← lift (item "url" grant);
headers ← lift (v ← item "headers" grant; py_dict v);
perform (UploadFile (py_str url) headers (la_path a)) ;;
object_key ← lift (item "object_key" grant);
mret (PDict [entry "kind" (PStr (la_kind a)); entry "digest_algorithm" (text "sha256"); entry "digest" (PStr (la_digest a));
  entry "object_key" object_key; entry "media_type" (PStr (la_media_type a)); entry "size_bytes" (PInt (la_size_bytes a));
  entry "status" (text "AVAILABLE"); entry "scan_status" (PStr (la_scan_status a)); entry "provenance" (PDict (la_provenance a))]).
Fixpoint upload_artifacts l (artifacts : list LocalArtifact) : M trace (list pyval) :=
match artifacts with
| [] => mret []
| a :: artifacts => r ← upload_artifact l a; rest ← upload_artifacts l artifacts; mret (r :: rest)
end.

(** An artifact of a run: the digest and size of a file of the workspace. *)
Definition run_artifact (kind : string) (f : file) (media_type : string) (provenance : list (pykey * pyval)) : M trace LocalArtifact :=
ds ← perform (Sha256File f);
mret (MkArtifact (lit kind) f (lit media_type) ds.1 ds.2 (lit "NOT_REQUIRED") provenance).

(** [int(payload["sandbox"]["timeout_seconds"])], [str(payload["run_id"])]. *)
Definition sandbox_timeout payload : exn + Z :=
sandbox ← (v ← item "sandbox" payload; py_dict v); v ← item "timeout_seconds" sandbox; py_int v.
Definition run_id_of payload : exn + pystr := v ← item "run_id" payload; inr (py_str v).

(** ** Credentials *)

Definition profile_is (profile : string) activation : bool := bool_decide (dict_get "capability_profile" activation = text profile).

Definition egress_authorization l payload activation : M trace (option pystr) :=
let receipt := match dict_get "input_reference" payload with
               | PDict ir => dict_get "project_egress_policy_receipt" ir | _ => PNone end in
match receipt with
| PDict receipt =>
    if flag_is "credential_configured" true receipt then
      lift (sandbox_check (negb (profile_is "controlled-browser" activation || flag_is "request_queue_browser_enabled" true activation))
        "Credential-bound egress is unavailable to browser execution.") ;;
      lift (sandbox_check (profile_is "brokered-web-egress" activation || flag_is "request_queue_http_enabled" true activation)
        "Credential-bound egress requires the trusted HTTP broker.") ;;
      binding_digest ← lift (sandbox_get (as_str (dict_get "binding_digest" receipt))
        "Credential-bound egress lacks a binding digest.");
      public_key ← perform GenerateKeyPair;
      envelope ← client_request_egress_credential_envelope l binding_digest public_key;
      response ← client_worker l;
      worker ← lift (data response);
      worker_id ← lift (item "id" worker);
      run_id ← lift (run_id_of payload);
      authorization ← perform (DecryptCredential envelope l (py_str worker_id) run_id binding_digest);
      mret (Some authorization)
    else mret None
| _ => mret None
end.

(** ** Browser runs *)

Definition navigation_provenance activation (run_id request_digest browser_digest egress_digest : pystr) : list (pykey * pyval) :=
[entry "activation" (PDict activation); entry "run_id" (PStr run_id);
 entry "browser_runtime_mode" (text "bounded-unix-gateway-navigation");
 entry "browser_runtime_image_ref" (PStr (wc_browser_image config)); entry "request_digest" (PStr request_digest);
 entry "browser_policy_digest" (PStr browser_digest); entry "browser_egress_policy_digest" (PStr egress_digest);
 entry "browser_network" (text "none"); entry "gateway_transport" (text "unix"); entry "direct_browser_internet" (PBool false);
 entry "external_navigation" (PBool true)].
Definition self_test_provenance activation (run_id : pystr) : list (pykey * pyval) :=
[entry "activation" (PDict activation); entry "run_id" (PStr run_id); entry "browser_runtime_mode" (text "about-blank-self-test");
 entry "browser_runtime_image_ref" (PStr (wc_browser_image config)); entry "browser_network" (text "none");
 entry "direct_browser_internet" (PBool false); entry "external_navigation" (PBool false)].

Definition live_navigation l payload activation (ir : list (pykey * pyval)) (navigation : pyval)
  (egress : option EgressPolicy) (browser : option BrowserPolicy) : M trace (list (pykey * pyval)) :=
let validated {A} (o : option A) := lift (sandbox_get o "Live browser Run lacks validated policy.") in
plan ← validated (as_dict navigation);
egress ← validated egress;
browser ← validated browser;
browser_egress ← lift (create_browser_egress egress);
receipt ← lift (sandbox_get (as_dict (dict_get "browser_navigation_receipt" ir)) "Live browser Run lacks receipt.");
request_digest ← lift (sandbox_get (as_str (dict_get "request_digest" receipt)) "Live browser Run request digest is invalid.");
run_id ← lift (run_id_of payload);
browser_digest ← lift (browser_digest browser);
timeout ← lift (sandbox_timeout payload);
perform (RunNavigation (MkNavigationCall run_id plan browser_digest browser_egress request_digest
  (bp_max_screenshot_bytes browser) (bp_navigation_timeout_seconds browser) timeout)) ;;
egress_digest ← lift (browser_egress_digest browser_egress);
mret (navigation_provenance activation run_id request_digest browser_digest egress_digest).

(** The branch of a run that only browses. *)
Definition browser_run {A} l payload activation (egress : option EgressPolicy) (browser : option BrowserPolicy) : M trace (flow A) :=
ir ← lift (sandbox_get (as_dict (dict_get "input_reference" payload)) "Controlled-browser Run lacks input reference.");
let navigation := dict_get "browser_navigation" ir in
provenance ⇐
  except ["BrowserRuntimeError"; "SandboxPolicyError"]%string
    (client_status l "RUNNING" ;;
     p ← (if bool_decide (navigation = PNone) then
            run_id ← lift (run_id_of payload);
            perform (RunSelfTest run_id) ;;
            mret (self_test_provenance activation run_id)
          else live_navigation l payload activation ir navigation egress browser);
     mret (Go p))
    (failed l "BROWSER_RUNTIME_FAILED" "Controlled browser execution failed closed.");
output ← run_artifact "RUN_OUTPUT" BrowserOutput "application/json" provenance;
log ← run_artifact "LOG_BUNDLE" BrowserLog "text/plain" provenance;
registrations ← upload_artifacts l [output; log];
client_complete l (success registrations) ;;
mret (Done "succeeded").

(** ** The image *)

Record image := MkImage { im_grant : list (pykey * pyval); im_ref : pystr }.
Definition load_run_image l : M trace image :=
response ← client_artifact_download l;
grant ← lift (data response);
url ← lift (item "url" grant);
size_bytes ← lift (v ← item "size_bytes" grant; py_int v);
perform (DownloadFile (py_str url) ImageTar size_bytes) ;;
ds ← perform (Sha256File ImageTar);
expected ← lift (item "digest" grant);
lift (sandbox_check (bool_decide (expected = PStr ds.1) && (ds.2 =? size_bytes))
  "Downloaded image artifact failed digest verification.") ;;
perform LoadImage ;;
provenance ← lift (py_dict_or (dict_get "provenance" grant));
let image_ref := field_text "image_ref" provenance in
lift (sandbox_check (starts_with (lit "rdc.local/agent:") image_ref)
  "Container artifact provenance lacks a safe image reference.") ;;
mret (MkImage grant image_ref).

(** ** Request queues *)

(** [input[key] = value]. *)
Definition set_key (key : string) (v : pyval) input : list (pykey * pyval) := dict_set (KStr (lit key)) v input.

Definition claim_request l payload input : M trace (flow (list (pykey * pyval) * list (pykey * pyval))) :=
capability ← lift (sandbox_get (as_dict (dict_get "request_queue_capability" payload))
  "Queue-bound Run lacks a capability receipt.");
queue_id ← lift (sandbox_get (as_str (dict_get "queue_id" capability)) "Queue-bound Run capability is invalid.");
except ["QueueWorkerBoundaryError"; "WorkerProtocolError"]%string
  (claimed ← client_queue_claim l queue_id;
   match claimed with
   | None => client_complete l (success []) ;; mret (Done "succeeded")
   | Some response =>
       d ← lift (data response);
       claim ← lift (validate_queue_claim_result (PDict d) queue_id);
       lift (boundary (negb (has_key "_rdc_queue" input || has_key "_rdc_queue_http" input || has_key "_rdc_queue_browser" input))
         "Run input cannot populate Queue runtime keys.") ;;
       mret (Go (claim, set_key "_rdc_queue" (PDict (without_key "claim_token" claim)) input))
   end)
  (failed l "REQUEST_QUEUE_CLAIM_FAILED" "Controlled Request Queue claim failed closed.").

(** [_queue_browser_acquire]: the document for the agent and its provenance. *)
Definition browser_acquisition_provenance (request_digest browser_digest egress_digest : pystr) : list (pykey * pyval) :=
[entry "acquisition_mode" (text "controlled-browser"); entry "request_digest" (PStr request_digest);
 entry "browser_policy_digest" (PStr browser_digest); entry "browser_egress_policy_digest" (PStr egress_digest);
 entry "browser_network" (text "none"); entry "gateway_transport" (text "unix"); entry "agent_container_network" (text "none")].
Definition queue_browser_acquire payload claim (egress : EgressPolicy) (browser : BrowserPolicy)
  : M trace (list (pykey * pyval) * list (pykey * pyval)) :=
navigation_plan ← lift (queue_browser_navigation_plan claim (bp_max_dom_bytes browser));
normalized ← lift (validate_browser_navigation_plan (PDict navigation_plan) browser);
request_digest ← lift (boundary_get (as_str (dict_get "request_digest" normalized)) "Queue browser request digest is invalid.");
browser_egress ← lift (create_browser_egress egress);
run_id ← lift (run_id_of payload);
browser_digest ← lift (browser_digest browser);
timeout ← lift (sandbox_timeout payload);
perform (RunNavigation (MkNavigationCall run_id navigation_plan browser_digest browser_egress request_digest
  (bp_max_screenshot_bytes browser) (bp_navigation_timeout_seconds browser) timeout)) ;;
exists_ ← perform (IsFile BrowserOutput);
size ← (if (exists_ : bool) then perform (FileSize BrowserOutput) else mret 0);
lift (boundary (exists_ && (size <=? 16777216)) "Queue browser result is outside the worker limit.") ;;
decoded ← perform (ReadJson BrowserOutput);
agent_result ← lift (queue_browser_agent_result claim navigation_plan decoded);
egress_digest ← lift (browser_egress_digest browser_egress);
mret (agent_result, browser_acquisition_provenance request_digest browser_digest egress_digest).

(** The page of a claimed request, through the browser or the broker. *)
Definition acquire_by_browser l payload claim input (egress : option EgressPolicy) (browser : option BrowserPolicy)
  : M trace (flow (list (pykey * pyval) * option (list (pykey * pyval)))) :=
egress ← lift (sandbox_get egress "Queue browser acquisition lacks worker policy.");
browser ← lift (sandbox_get browser "Queue browser acquisition lacks worker policy.");
except ["BrowserNavigationContractError"; "BrowserRuntimeError"; "QueueWorkerBoundaryError"; "JSONDecodeError"; "OSError";
        "UnicodeError"]%string
  (r ← queue_browser_acquire payload claim egress browser;
   mret (Go (set_key "_rdc_queue_browser" (PDict r.1) input, Some r.2)))
  (failed_claim l (Some claim) "QUEUE_BROWSER_NAVIGATION_FAILED" "Controlled Queue browser acquisition failed."
    "Queue browser failure completion failed closed." "Controlled Queue browser acquisition failed closed.").
Definition acquire_by_http l claim input (egress : option EgressPolicy) (authorization : option pystr)
  : M trace (flow (list (pykey * pyval))) :=
egress ← lift (sandbox_get egress "Queue HTTP acquisition lacks worker egress policy.");
except ["QueueWorkerBoundaryError"; "WebFetchContractError"; "EgressPolicyError"]%string
  (r ← brokered (queue_http_acquire egress authorization claim);
   mret (Go (set_key "_rdc_queue_http" (PDict r) input)))
  (failed_claim l (Some claim) "QUEUE_HTTP_FETCH_FAILED" "Brokered Queue HTTP acquisition failed."
    "Queue HTTP failure completion failed closed." "Brokered Queue HTTP acquisition failed closed.").

(** ** Key-value stores, before the run *)

Definition read_store l (claim : option (list (pykey * pyval))) input : M trace (flow (list (pykey * pyval))) :=
except ["KVWorkerBoundaryError"; "WorkerProtocolError"]%string
  (lift (kvw_check (negb (has_key "_rdc_kv" input)) "Run input cannot populate reserved _rdc_kv.") ;;
   let read_request := dict_get "_rdc_kv_read" input in
   let input := without_key "_rdc_kv_read" input in
   if bool_decide (read_request = PNone) then mret (Go input)
   else
     validated_read ← lift (worker_read_request read_request);
     response ← client_kv_read l (rd_request validated_read);
     read_response ← lift (data response);
     records ← lift (validate_kv_read_result (PDict read_response) (rd_keys validated_read));
     mret (Go (set_key "_rdc_kv" (PDict records) input)))
  (failed_claim l claim "KV_READ_FAILED" "Queue-bound Key-Value Store read failed."
    "Queue KV read failure completion failed closed." "Controlled Key-Value Store read failed closed.").

(** ** Web fetches *)

Definition fetch_web l activation input (web_fetch : pyval) (queue_http : bool) (egress : option EgressPolicy)
  (authorization : option pystr) : M trace (flow (list (pykey * pyval))) :=
lift (sandbox_check (bool_decide (web_fetch = PNone) || profile_is "brokered-web-egress" activation)
  "Web-fetch intent requires brokered-web-egress activation.") ;;
if profile_is "brokered-web-egress" activation then
  egress ← lift (sandbox_get egress "Brokered web-egress activation lacks worker policy.");
  if queue_http then
    lift (sandbox_check (bool_decide (web_fetch = PNone) && negb (has_key "_rdc_web_requests" input))
      "Queue HTTP acquisition cannot carry another web intent.") ;;
    mret (Go input)
  else if negb (bool_decide (web_fetch = PNone)) then
    lift (sandbox_check (negb (has_key "_rdc_web_requests" input))
      "Versioned web fetch cannot be mixed with the legacy Phase 1J request key.") ;;
    result ⇐ try_catch
      (r ← brokered (web_fetch_acquire egress authorization web_fetch); mret (Go r))
      (λ e, if caught ["WebFetchContractError"%string] e
            then failed l "WEB_FETCH_CONTRACT_INVALID" "The versioned web-fetch contract was invalid."
            else if caught ["EgressPolicyError"%string] e
            then failed l "WEB_FETCH_POLICY_DENIED" "Brokered web fetch was denied or failed within the operator policy."
            else raise e);
    mret (Go (set_key "_rdc_web_fetch_result" (PDict result) input))
  else
    r ← brokered (broker_web_requests egress authorization input);
    mret (Go r)
else mret (Go input).

(** ** The agent *)

Definition secrets_of l payload (manifest : list (pykey * pyval)) : M trace (list (pykey * pyval)) :=
values ← lift (py_iter (default (PList []) (dict_find (lit "secrets") manifest)));
let names := py_str <$> values in
match names with
| [] => mret []
| _ =>
    public_key ← perform GenerateKeyPair;
    envelope ← client_request_secret_envelope l names "production" public_key;
    response ← client_worker l;
    worker ← lift (data response);
    worker_id ← lift (item "id" worker);
    run_id ← lift (run_id_of payload);
    perform (DecryptSecrets envelope l (py_str worker_id) run_id)
end.

(** ** What the agent wrote *)

(** The mutations of an output, under the keys of the claim if there is one. *)
Definition persisted_mutation (claim : option (list (pykey * pyval))) (index : nat) (mutation : list (pykey * pyval))
  : exn + list (pykey * pyval) :=
match claim with
| Some claim => k ← queue_kv_idempotency_key claim (Z.of_nat index); inr (set_key "idempotency_key" (PStr k) mutation)
| None => inr mutation
end.
Fixpoint persist_mutations l (claim : option (list (pykey * pyval))) (index : nat) (mutations : list pyval) : M trace () :=
match mutations with
| [] => mret ()
| mutation :: mutations =>
    d ← lift (kvw_get (as_dict mutation) "KV mutation is invalid.");
    p ← lift (persisted_mutation claim index d);
    client_kv_mutate l p ;;
    persist_mutations l claim (S index) mutations
end.
(** [json.dumps(v, ensure_ascii=False, allow_nan=False, ...).encode("utf-8")]. *)
Definition plain_dumps (v : pyval) : exn + list N :=
match print v with
| None => inl (ValueError "Out of range float values are not JSON compliant")
| Some s => match utf8_encode s with Some b => inr b | None => inl UnicodeEncodeError end
end.
(** The output file, read when it exists and is small enough. *)
Definition read_output (limit : Z) (check : bool → string → exn + ()) (missing large : string) : M trace pyval :=
exists_ ← perform (IsFile OutputFile);
lift (check exists_ missing) ;;
size ← perform (FileSize OutputFile);
lift (check (size <=? limit) large) ;;
perform (ReadJson OutputFile).

Definition mutate_store l (claim : option (list (pykey * pyval))) : M trace (flow ()) :=
except ["KVWorkerBoundaryError"; "WorkerProtocolError"; "JSONDecodeError"; "OSError"; "UnicodeError"; "TypeError"; "ValueError"]%string
  (decoded ← read_output 1572864 kvw_check "KV-enabled Run did not produce output." "KV worker output exceeds the read limit.";
   normalized ← lift (validate_kv_worker_output decoded);
   mutations ← lift (kvw_get (as_list (dict_get "mutations" normalized)) "KV mutations are invalid.");
   persist_mutations l claim 0 mutations ;;
   b ← lift (plain_dumps (dict_get "result" normalized));
   perform (WriteBytes OutputFile b) ;;
   mret (Go ()))
  (failed_claim l claim "KV_MUTATION_FAILED" "Queue-bound Key-Value Store mutation failed."
    "Queue KV mutation failure completion failed closed." "Controlled Key-Value Store mutation failed closed.").

(** The batch of an output, under the key of the claim if there is one. *)
Definition dataset_payload (claim : option (list (pykey * pyval))) (d : list (pykey * pyval)) : exn + list (pykey * pyval) :=
match claim with
| Some claim => k ← queue_dataset_idempotency_key claim; inr (set_key "idempotency_key" (PStr k) d)
| None => inr d
end.
Definition append_dataset l (claim : option (list (pykey * pyval))) : M trace (flow ()) :=
except ["DatasetProtocolError"; "WorkerProtocolError"; "JSONDecodeError"; "OSError"; "UnicodeError"]%string
  (decoded ← read_output 262144 dataset_check "Dataset-enabled Run did not produce an output envelope."
     "Dataset output envelope exceeds the worker read limit.";
   d ← lift (dataset_get (as_dict decoded) "Dataset output envelope must be an object.");
   p ← lift (dataset_payload claim d);
   lift (worker_dataset_append (PDict p)) ;;
   client_dataset_append l p ;;
   mret (Go ()))
  (failed_claim l claim "DATASET_APPEND_FAILED" "Queue-bound Dataset persistence failed."
    "Queue Dataset failure completion failed closed." "Controlled Dataset append failed closed.").

(** The report of the claimed request. *)
Definition report_claim l (claim : option (list (pykey * pyval))) (code : Z) : M trace (flow ()) :=
match claim with
| None => mret (Go ())
| Some claim =>
    except ["WorkerProtocolError"%string]
      (p ← lift (queue_completion_payload claim (code =? 0) "AGENT_EXIT_NONZERO" "Queue-bound Agent execution failed.");
       client_queue_complete l p ;; mret (Go ()))
      (failed l "REQUEST_QUEUE_COMPLETION_FAILED" "Controlled Request Queue completion failed closed.")
end.

(** ** Publication *)

Definition run_provenance payload activation (im : image) (acquisition : option (list (pykey * pyval)))
  : exn + list (pykey * pyval) :=
algorithm ← item "digest_algorithm" (im_grant im);
digest ← item "digest" (im_grant im);
run_id ← run_id_of payload;
inr ([entry "activation" (PDict activation); entry "run_id" (PStr run_id);
      entry "image_digest" (PStr (py_str algorithm ++ lit ":" ++ py_str digest))]
     ++ match acquisition with Some p => [entry "queue_browser" (PDict p)] | None => [] end).
Definition optional_artifact (kind : string) (f : file) (media_type : string) (provenance : list (pykey * pyval))
  : M trace (list LocalArtifact) :=
exists_ ← perform (IsFile f);
if (exists_ : bool) then a ← run_artifact kind f media_type provenance; mret [a] else mret [].
Definition exit_summary (code : Z) : pyval := PStr (lit "Agent exited with status " ++ py_str (PInt code) ++ lit ".").
Definition publish l payload activation (im : image) (acquisition : option (list (pykey * pyval))) (code : Z)
  : M trace (flow ()) :=
provenance ← lift (run_provenance payload activation im acquisition);
output ← optional_artifact "RUN_OUTPUT" OutputFile "application/json" provenance;
log ← optional_artifact "LOG_BUNDLE" LogFile "text/plain" provenance;
registrations ← upload_artifacts l (output ++ log);
client_complete l
  [entry "outcome" (text (if (code =? 0)%Z then "SUCCEEDED" else "FAILED")); entry "retryable" (PBool false);
   entry "error_code" (if code =? 0 then PNone else text "AGENT_EXIT_NONZERO");
   entry "error_summary" (if code =? 0 then PNone else exit_summary code); entry "artifacts" (PList registrations)] ;;
mret (Done (if (code =? 0)%Z then "succeeded" else "failed")%string).

(** ** [_run] *)

(** Whether the manifest has the dataset capability. *)
Definition dataset_enabled (manifest : list (pykey * pyval)) : bool :=
match dict_get "capabilities" manifest with PDict c => flag_is "dataset" true c | _ => false end.

(** What the run of an agent prepares: the claimed request, the input and the provenance of
  the acquisition. *)
Definition prepare l payload activation input (egress : option EgressPolicy) (browser : option BrowserPolicy)
  (authorization : option pystr) (web_fetch : pyval)
  : M trace (flow (option (list (pykey * pyval)) * list (pykey * pyval) * option (list (pykey * pyval)))) :=
let queue := flag_is "request_queue_enabled" true activation in
let queue_http := flag_is "request_queue_http_enabled" true activation in
let queue_browser := flag_is "request_queue_browser_enabled" true activation in
lift (sandbox_check (negb ((queue_http || queue_browser) && negb queue)) "Queue acquisition requires Queue access.") ;;
claimed ⇐ (if queue then c ⇐ claim_request l payload input; mret (Go (Some c.1, c.2)) else mret (Go (None, input)));
let claim := claimed.1 in
browsed ⇐ match claim with
          | Some c => if queue_browser then acquire_by_browser l payload c claimed.2 egress browser else mret (Go (claimed.2, None))
          | None => mret (Go (claimed.2, None))
          end;
input ⇐ match claim with
        | Some c => if queue_http then acquire_by_http l c browsed.1 egress authorization else mret (Go browsed.1)
        | None => mret (Go browsed.1)
        end;
input ⇐ (if flag_is "key_value_store_enabled" true activation then read_store l claim input else mret (Go input));
input ⇐ fetch_web l activation input web_fetch queue_http egress authorization;
mret (Go (claim, input, browsed.2)).

(** The container run, from the image to the completion. *)
Definition agent_run l payload activation (egress : option EgressPolicy) (browser : option BrowserPolicy)
  (authorization : option pystr) : M trace (flow ()) :=
im ← load_run_image l;
manifest ← lift (v ← item "manifest" payload; py_dict v);
runtime ← lift (v ← item "runtime" manifest; py_dict v);
entrypoint ← lift (v ← item "entrypoint" runtime; py_iter v);
input_ref ← lift (v ← item "input_reference" payload; py_dict v);
input ← lift (py_dict_or (dict_get "value" input_ref));
prepared ⇐ prepare l payload activation input egress browser authorization (dict_get "web_fetch" input_ref);
let '(claim, input, acquisition) := prepared in
secrets ← secrets_of l payload manifest;
client_status l "RUNNING" ;;
run_id ← lift (run_id_of payload);
sandbox ← lift (v ← item "sandbox" payload; py_dict v);
code ← perform (RunAgent (MkAgentCall run_id (im_ref im) (py_str <$> entrypoint) input secrets sandbox));
_ ⇐ (if flag_is "key_value_store_enabled" true activation && (code =? 0) then mutate_store l claim else mret (Go ()));
_ ⇐ (if dataset_enabled manifest && (code =? 0) then append_dataset l claim else mret (Go ()));
_ ⇐ report_claim l claim code;
publish l payload activation im acquisition code.

Definition active_run l payload (worker_name : pystr) : M trace (flow ()) :=
a ← lift (activate_claim config payload worker_name);
let '(egress, browser, activation) := a in
authorization ← egress_authorization l payload activation;
if profile_is "controlled-browser" activation && negb (flag_is "request_queue_browser_enabled" true activation)
then browser_run l payload activation egress browser
else agent_run l payload activation egress browser authorization.

(** [except Exception as exc: client.complete(...); return "failed"]. *)
Definition crashed {A} l (code : string) (e : exn) : M trace (flow A) :=
if is_exception e then
  client_complete l [entry "outcome" (text "FAILED"); entry "retryable" (PBool false); entry "error_code" (text code);
                     entry "error_summary" (PStr (take (N.to_nat 2000) (exc_text e)))] ;;
  mret (Done "failed")
else raise e.

(** The lease and the payload of a claim. *)
Definition claimed_lease (claim : pyval) : exn + lease * list (pykey * pyval) :=
d ← data claim;
payload ← (v ← item "payload" d; py_dict v);
lease_id ← item "id" d;
token ← item "lease_token" d;
inr (MkLease (py_str lease_id) (py_str token), payload).
(** What follows a run: a part that goes on has nothing left to do. *)
Definition outcome_of (f : flow ()) : string := match f with Done s => s | Go _ => "" end.

Definition run (claim : pyval) (worker_name : pystr) : M trace string :=
lp ← lift (claimed_lease claim);
let '(l, payload) := lp in
if bool_decide (dict_get "work_kind" payload = text "RUN_CANCEL") then
  run_id ← lift (run_id_of payload);
  perform (CancelRun run_id) ;;
  client_complete l [entry "outcome" (text "ABORTED"); entry "retryable" (PBool false)] ;;
  mret "aborted"%string
else if negb (flag_is "execution_enabled" true payload) || negb (bool_decide (is_Some (as_dict (dict_get "sandbox" payload)))) then
  client_complete l (failure "SANDBOX_POLICY_DENIED" "The control plane did not authorize sandbox execution.") ;;
  mret "failed"%string
else
  perform (MakeWorkspace "run-") ;;
  f ← finally (try_catch (active_run l payload worker_name) (crashed l "SANDBOX_RUN_FAILED")) (perform CleanupTree);
  mret (outcome_of f).

(** ** [_build] *)

Definition source_of payload : exn + list (pykey * pyval) := v ← item "source" payload; py_dict v.
(** The source archive, when it is the one of the claim. *)
Definition fetch_source l payload : M trace (pystr * Z) :=
perform MakeSourceDir ;;
response ← client_source_download l;
grant ← lift (data response);
source_meta ← lift (source_of payload);
url ← lift (item "url" grant);
size_bytes ← lift (v ← item "size_bytes" source_meta; py_int v);
perform (DownloadFile (py_str url) SourceZip size_bytes) ;;
ds ← perform (Sha256File SourceZip);
expected ← lift (item "sha256_digest" source_meta);
lift (sandbox_check (bool_decide (expected = PStr ds.1) && (ds.2 =? size_bytes))
  "Downloaded source digest or size does not match the claim.") ;;
perform ExtractZip ;;
mret ds.
Definition active_build l payload (worker_name : pystr) : M trace (flow ()) :=
a ← lift (activate_claim config payload worker_name);
source ← fetch_source l payload;
client_status l "RUNNING" ;;
build_id ← lift (v ← item "build_id" payload; inr (py_str v));
agent_version_id ← lift (v ← item "agent_version_id" payload; inr (py_str v));
timeout_seconds ← lift (sandbox_timeout payload);
artifacts ← perform (BuildAgent (MkBuildCall build_id agent_version_id source.1 a.2 timeout_seconds));
registrations ← upload_artifacts l artifacts;
client_complete l (success registrations) ;;
mret (Done "succeeded").
Definition build (claim : pyval) (worker_name : pystr) : M trace string :=
lp ← lift (claimed_lease claim);
let '(l, payload) := lp in
if negb (flag_is "execution_enabled" true payload) || negb (bool_decide (is_Some (as_dict (dict_get "sandbox" payload)))) then
  client_complete l (failure "SANDBOX_POLICY_DENIED" "The control plane did not authorize sandbox execution.") ;;
  mret "failed"%string
else
  perform (MakeWorkspace "build-") ;;
  f ← finally (try_catch (active_build l payload worker_name) (crashed l "SANDBOX_BUILD_FAILED")) (perform CleanupTree);
  mret (outcome_of f).
End run.
