(* ===== verification/WorkerRunSpec.v ===== *)
(** What a run of the sandbox worker does, whatever the control plane, the containers, the
    files and the network answer or raise: the order of its effects; and what a build does:
    it builds the source of the claim, and reports success only when the build returned. *)

From S2P Require Import Prelude PyVal Json PyUuid Base64 QueueProtocol EventProtocol Idempotency Url.
From S2P Require Import KvProtocol EgressProtocol PyEq KvWorkerProtocol Canary Admission SandboxJson SandboxEgress WebFetch EgressBroker.
From S2P Require Import QueueWorker SandboxAcquisition SandboxKv SandboxDataset BrowserPolicy BrowserNavigation SandboxActivation WorkerClient WorkerRun.

(** ** Ledgers *)

#[export] Instance endpoint_eq_dec : EqDecision endpoint.
Proof. solve_decision. Defined.

Abbreviation document := (list (pykey * pyval)).
(** A request with whether it was answered. *)
Abbreviation sent := (document * bool)%type.
(** What a trace says of a run, latest first. *)
Record ledger := MkLedger {
  lg_claims : list sent;             (* claims of a queue request *)
  lg_granted : list document;        (* the requests claimed *)
  lg_exits : list (exn + Z);         (* runs of the agent *)
  lg_outputs : list pyval;           (* the output as it was read *)
  lg_mutations : list sent;
  lg_appends : list sent;
  lg_reports : list sent }.          (* completions of the request *)
#[export] Instance eta_ledger : Eta ledger := λ s,
MkLedger (lg_claims s) (lg_granted s) (lg_exits s) (lg_outputs s) (lg_mutations s) (lg_appends s) (lg_reports s).
Definition blank : ledger := MkLedger [] [] [] [] [] [] [].

Section run.
Context `{CaseFold, UrlTables, Idna, UpperCase, Sha256, UnicodeDecimal, PyRepr, FloatCompare, !PyInt}.
Context `{!Resolver, !GlobalAddress, !Origins, !UrlJoin, !CharsetDecoder, !Host, !ExcText}.
Context (config : worker_config).
Implicit Types (l : lease) (payload activation claim : document) (tr : trace) (L : ledger).

Definition acknowledged (r : exn + option pyval) : bool := match r with inr (Some _) => true | _ => false end.
Definition entry_of (p : option document) (r : exn + option pyval) : sent := (default [] p, acknowledged r).
(** The claim an answer grants. *)
Definition granted (p : option document) (r : exn + option pyval) : list document :=
match r with
| inr (Some response) =>
    match d ← data response; validate_queue_claim_result (PDict d) (default [] (as_str (dict_get "queue_id" (default [] p)))) with
    | inr claim => [claim]
    | inl _ => []
    end
| _ => []
end.
Definition note {A} (e : effect A) : (exn + A) → ledger → ledger :=
match e with
| Api QueueClaim _ p => λ r L, L <| lg_claims ::= cons (entry_of p r) |> <| lg_granted ::= app (granted p r) |>
| Api QueueComplete _ p => λ r L, L <| lg_reports ::= cons (entry_of p r) |>
| Api KvMutate _ p => λ r L, L <| lg_mutations ::= cons (entry_of p r) |>
| Api DatasetAppend _ p => λ r L, L <| lg_appends ::= cons (entry_of p r) |>
| RunAgent _ => λ r L, L <| lg_exits ::= cons r |>
| ReadJson OutputFile => λ r L, match r with inr v => L <| lg_outputs ::= cons v |> | inl _ => L end
| _ => λ _ L, L
end.
Definition note_event (ev : event) (L : ledger) : ledger := match ev with Did e r => note e r L | Brokered _ => L end.
Definition ledger_of tr : ledger := foldr note_event blank tr.

(** ** The order of effects *)

(** The mutations of an output that was read have all been acknowledged, in order, under the
  keys of the claim. *)
Definition store_written L claim : Prop := ∃ output normalized mutations ps,
output ∈ lg_outputs L ∧ validate_kv_worker_output output = inr normalized ∧
dict_get "mutations" normalized = PList (PDict <$> mutations) ∧
mapM id (imap (persisted_mutation (Some claim)) mutations) = inr ps ∧
lg_mutations L = reverse ((λ p, (p, true)) <$> ps).
(** A batch has been acknowledged under the key of the claim. *)
Definition dataset_written L claim : Prop := ∃ d p, PDict d ∈ lg_outputs L ∧ dataset_payload (Some claim) d = inr p ∧
is_Some (match worker_dataset_append (PDict p) with inr a => Some a | inl _ => None end) ∧ lg_appends L = [(p, true)].

(** A claimed request is reported handled after the agent succeeded and its writes were
  acknowledged; it may be reported failed at any time; it is reported once. *)
Definition report_permitted (dataset store : bool) L (p : document) : Prop :=
lg_reports L = [] ∧ ∃ claim, lg_granted L = [claim] ∧
((∃ code summary, queue_completion_payload claim false code summary = inr p) ∨
 ((∃ code summary, queue_completion_payload claim true code summary = inr p) ∧ lg_exits L = [inr 0] ∧
  (dataset = true → dataset_written L claim) ∧ (store = true → store_written L claim))).
Definition handled (r : sent) : Prop := dict_get "status" r.1 = text "HANDLED" ∧ r.2 = true.
Definition permitted (dataset store : bool) {A} (e : effect A) L : Prop :=
match e with
| Api QueueClaim _ _ => lg_claims L = [] ∧ lg_exits L = []
| Api QueueComplete _ p => report_permitted dataset store L (default [] p)
| Api KvMutate _ _ | Api DatasetAppend _ _ => lg_exits L = [inr 0] ∧ lg_reports L = []
| RunAgent _ => lg_exits L = [] ∧ lg_reports L = []
| Api Complete _ p => dict_get "outcome" (default [] p) = text "SUCCEEDED" → lg_granted L ≠ [] →
    ∃ report, lg_reports L = [report] ∧ handled report
| _ => True
end.
Definition permitted_event (dataset store : bool) (ev : event) L : Prop :=
match ev with Did e _ => permitted dataset store e L | Brokered _ => True end.
Fixpoint lawful (dataset store : bool) tr : Prop :=
match tr with
| [] => True
| ev :: tr => permitted_event dataset store ev (ledger_of tr) ∧ lawful dataset store tr
end.

(** The outcome of a run was acknowledged, last. *)
Definition outcome_text (s : string) : string :=
if bool_decide (s = "succeeded"%string) then "SUCCEEDED" else if bool_decide (s = "aborted"%string) then "ABORTED" else "FAILED".
Definition reported l (s : string) tr : Prop := ∃ p v tr', tr = Did (Api Complete l (Some p)) (inr (Some v)) :: tr' ∧
dict_get "outcome" p = text (outcome_text s).

(** ** Effects that do not matter for the order *)

Definition quiet_event (ev : event) : Prop :=
match ev with
| Did e _ =>
    match e with
    | Api (QueueClaim | QueueComplete | KvMutate | DatasetAppend | Complete) _ _ | RunAgent _ | ReadJson OutputFile => False
    | _ => True
    end
| Brokered _ => True
end.
Definition quietly : relation trace := λ tr tr', ∃ evs, tr' = evs ++ tr ∧ Forall quiet_event evs.
#[local] Instance quietly_preorder : PreOrder quietly.
Proof.
split.
- intros tr. by exists [].
- intros tr tr' tr'' (evs & -> & He) (evs' & -> & He'). exists (evs' ++ evs). rewrite app_assoc. split; [done|]. by apply Forall_app.
Qed.
Definition quiet {A} (m : M trace A) : Prop := frames quietly m.

Variables dataset store : bool.
Abbreviation lawful' := (lawful dataset store).
Lemma quiet_event_note ev L : quiet_event ev → note_event ev L = L ∧ permitted_event dataset store ev L.
Proof. destruct ev as [A e r|b]; [|done]. destruct e as [[] ? ?| | | | | | | | | |[]| | | | | | | | | |]; try done. Qed.
Lemma quietly_ledger tr tr' : quietly tr tr' → ledger_of tr' = ledger_of tr ∧ (lawful' tr → lawful' tr').
Proof.
intros (evs & -> & He). induction He as [|ev evs Hev _ [IHl IHt]]; [done|].
destruct (quiet_event_note ev (ledger_of (evs ++ tr)) Hev) as [Hn Hp]. split.
- cbn [app ledger_of foldr]. fold (ledger_of (evs ++ tr)). by rewrite Hn.
- intros Ht. cbn [app lawful]. auto.
Qed.

Lemma quiet_perform {A} (e : effect A) : quiet_event (Did e (inl UnicodeEncodeError)) → quiet (perform e).
Proof. intros He tr. exists [Did e (answer A e tr)]. split; [done|]. apply Forall_singleton. exact He. Qed.
Lemma quiet_brokered {A} (m : M broker A) : quiet (brokered m).
Proof. intros tr. unfold brokered. destruct (m idle) as [r b]. exists [Brokered b]. split; [done|]. by apply Forall_singleton. Qed.
Lemma quiet_lift {A} (r : exn + A) : quiet (lift r).
Proof. intros tr. destruct r; by exists []. Qed.
Lemma quiet_call e l p m : quiet_event (Did (Api e l p) (inl UnicodeEncodeError)) → quiet (call e l p m).
Proof. intros He. apply frames_bind; [apply _|by apply quiet_perform|]. intros r. apply frames_get_or_raise. apply _. Qed.
Lemma quiet_bind {A B} (m : M trace A) (k : A → M trace B) : quiet m → (∀ a, quiet (k a)) → quiet (m ≫= k).
Proof. apply frames_bind. apply _. Qed.
Lemma quiet_ret {A} (a : A) : quiet (mret a).
Proof. apply frames_ret. apply _. Qed.
Ltac quiets := repeat lazymatch goal with
| |- quiet (_ ≫= _) => apply quiet_bind; [|intros ?]
| |- quiet (mret _) => apply quiet_ret
| |- quiet (lift _) => apply quiet_lift
| |- quiet (perform _) => apply quiet_perform; exact I
| |- quiet (brokered _) => apply quiet_brokered
| |- quiet (call _ _ _ _) => apply quiet_call; exact I
| |- quiet (if ?b then _ else _) => destruct b
| |- quiet (match ?x with _ => _ end) => destruct x
| |- quiet (let _ := _ in _) => cbv zeta
end.
Lemma quiet_upload_artifacts l artifacts : quiet (upload_artifacts l artifacts).
Proof.
induction artifacts as [|a artifacts IH]; cbn [upload_artifacts]; [apply quiet_ret|].
unfold upload_artifact, client_artifact_upload. quiets. exact IH.
Qed.
Lemma quiet_egress_authorization l payload activation : quiet (egress_authorization l payload activation).
Proof. unfold egress_authorization, client_request_egress_credential_envelope, client_worker. quiets. Qed.
Lemma quiet_live_navigation l payload activation ir v egress browser : quiet (live_navigation config l payload activation ir v egress browser).
Proof. unfold live_navigation. quiets. Qed.
Lemma quiet_load_run_image l : quiet (load_run_image l).
Proof. unfold load_run_image, client_artifact_download. quiets. Qed.
Lemma quiet_secrets_of l payload manifest : quiet (secrets_of l payload manifest).
Proof. unfold secrets_of, client_request_secret_envelope, client_worker. quiets. Qed.
Lemma quiet_queue_browser_acquire payload claim egress browser : quiet (queue_browser_acquire payload claim egress browser).
Proof. unfold queue_browser_acquire. quiets. Qed.
Lemma quiet_run_artifact kind f media p : quiet (run_artifact kind f media p).
Proof. unfold run_artifact. quiets. Qed.
Lemma quiet_optional_artifact kind f media p : quiet (optional_artifact kind f media p).
Proof. unfold optional_artifact. quiets. apply quiet_run_artifact. Qed.

(** ** Proving the order *)

(** After a part of a run: the trace is lawful, and the outcome was reported or the ledger
  satisfies what the next part needs. *)
Definition goes {A} l (Q : A → ledger → Prop) (f : flow A) tr : Prop :=
lawful' tr ∧ match f with Done s => reported l s tr | Go a => Q a (ledger_of tr) end.

Lemma ends_quiet {A} (m : M trace A) (Q : A → trace → Prop) E tr : quiet m → lawful' tr →
(∀ a tr', ledger_of tr' = ledger_of tr → lawful' tr' → Q a tr') →
(∀ e tr', ledger_of tr' = ledger_of tr → lawful' tr' → E e tr') → ends m Q E tr.
Proof.
intros Hm Ht HQ HE. unfold ends. specialize (Hm tr). destruct (m tr) as [[e|a] tr'];
  apply quietly_ledger in Hm as [Hl Hw]; auto.
Qed.
Lemma ends_perform {A} (e : effect A) (Q : A → trace → Prop) E tr :
(∀ a, Q a (Did e (inr a) :: tr)) → (∀ x, E x (Did e (inl x) :: tr)) → ends (perform e) Q E tr.
Proof. intros HQ HE. unfold ends, perform. destruct (answer A e tr); auto. Qed.
Lemma ends_call e l p m (Q : pyval → trace → Prop) E tr :
(∀ v, Q v (Did (Api e l p) (inr (Some v)) :: tr)) →
(∀ x r, acknowledged r = false → E x (Did (Api e l p) r :: tr)) → ends (call e l p m) Q E tr.
Proof.
intros HQ HE. apply ends_bind, ends_perform; [|by intros x; apply HE]. intros [v|]; [by apply HQ|]. cbn. by apply HE.
Qed.
Lemma ends_except {A} classes (m h : M trace A) Q E E' tr : ends m Q E' tr →
(∀ e tr', E' e tr' → ends h Q E tr') → (∀ e tr', E' e tr' → E e tr') → ends (except classes m h) Q E tr.
Proof.
intros Hm Hh HE. apply ends_try_catch. eapply ends_mono; [exact Hm|done|]. intros e tr' He. cbv beta.
destruct (caught classes e); [by eapply Hh|]. apply ends_raise. by apply HE.
Qed.
Lemma goes_continue {A B} l (m : M trace (flow A)) (k : A → M trace (flow B)) R Q E tr : ends m (goes l R) E tr →
(∀ a tr', lawful' tr' → R a (ledger_of tr') → ends (k a) (goes l Q) E tr') → ends (continue m k) (goes l Q) E tr.
Proof.
intros Hm Hk. apply ends_bind. eapply ends_mono; [exact Hm| |done]. intros [s|a] tr' [Hl Hr]; [|by apply Hk].
apply ends_ret. by split.
Qed.
Lemma goes_go {A} l (a : A) (Q : A → ledger → Prop) E tr : lawful' tr → Q a (ledger_of tr) → ends (mret (Go a)) (goes l Q) E tr.
Proof. intros Hl HQ. apply ends_ret. by split. Qed.

(** ** Failures *)

Abbreviation stays := (λ (_ : exn) tr, lawful' tr).
Lemma ends_complete l p (Q : pyval → trace → Prop) tr : lawful' tr → permitted dataset store (Api Complete l (Some p)) (ledger_of tr) →
(∀ v, lawful' (Did (Api Complete l (Some p)) (inr (Some v)) :: tr) → Q v (Did (Api Complete l (Some p)) (inr (Some v)) :: tr)) →
ends (client_complete l p) Q stays tr.
Proof. intros Ht Hp HQ. apply ends_call; [intros v; apply HQ|intros x r _]; by split. Qed.
Lemma ends_done {A} l p s (Q : A → ledger → Prop) tr : lawful' tr → permitted dataset store (Api Complete l (Some p)) (ledger_of tr) →
dict_get "outcome" p = text (outcome_text s) → ends (client_complete l p ;; mret (Done s)) (goes l Q) stays tr.
Proof.
intros Ht Hp Ho. apply ends_bind, ends_complete; [done..|]. intros v Hl. apply ends_ret. split; [done|]. by exists p, v, tr.
Qed.
Lemma failed_is_permitted l p L : dict_get "outcome" p = text "FAILED" → permitted dataset store (Api Complete l (Some p)) L.
Proof. intros Hp Hs. change (dict_get "outcome" p = text "SUCCEEDED") in Hs. rewrite Hp in Hs. revert Hs. intros Hd%(f_equal (λ v, bool_decide (v = text "FAILED"))). vm_compute in Hd. done. Qed.
Lemma failed_goes {A} l code summary (Q : A → ledger → Prop) tr : lawful' tr → ends (failed l code summary) (goes l Q) stays tr.
Proof. intros Ht. apply ends_done; [done| |done]. by apply failed_is_permitted. Qed.

(** The claim of a run, before it is reported. *)
Definition unreported (claimed : option document) L : Prop := lg_granted L = option_list claimed ∧ lg_reports L = [].
Lemma failed_claim_goes {A} l claimed code s1 s2 s3 (Q : A → ledger → Prop) tr : lawful' tr → unreported claimed (ledger_of tr) →
ends (failed_claim l claimed code s1 s2 s3) (goes l Q) stays tr.
Proof.
intros Ht [Hg Hr]. unfold failed_claim. apply (goes_continue l _ _ (λ _ _, True)); [|intros _ tr' Ht' _; by apply failed_goes].
destruct claimed as [claim|]; [|by apply goes_go]. apply (ends_except _ _ _ _ _ stays); [|intros _ tr' Ht'; by apply failed_goes|done].
apply ends_bind, ends_lift; [done|]. intros p Hp. apply ends_bind.
assert (permitted dataset store (Api QueueComplete l (Some p)) (ledger_of tr)) as Hperm.
{ split; [done|]. exists claim. split; [done|]. left. by eexists _, _. }
apply ends_call; [intros v; apply goes_go; [by split|done]|intros x r _; by split].
Qed.
(** A part whose failures are reported for the claim. *)
Abbreviation stays_unreported claimed := (λ (_ : exn) tr, lawful' tr ∧ unreported claimed (ledger_of tr)).
Lemma guarded_goes {A} l classes (m : M trace (flow A)) claimed code s1 s2 s3 (Q : A → ledger → Prop) tr :
ends m (goes l Q) (stays_unreported claimed) tr →
ends (except classes m (failed_claim l claimed code s1 s2 s3)) (goes l Q) stays tr.
Proof. intros Hm. apply (ends_except _ _ _ _ _ _ _ Hm); [intros _ tr' [Ht Hu]; by apply failed_claim_goes|by intros _ tr' [Ht _]]. Qed.

(** ** Before the agent *)

(** Nothing has happened but the claim. *)
Definition fresh (claimed : option document) L : Prop :=
unreported claimed L ∧ lg_exits L = [] ∧ lg_outputs L = [] ∧ lg_mutations L = [] ∧ lg_appends L = [].

Lemma claim_request_goes l payload input tr : lawful' tr → ledger_of tr = blank →
ends (claim_request l payload input) (goes l (λ c, fresh (Some c.1))) stays tr.
Proof.
intros Ht Hb. unfold claim_request, client_queue_claim.
apply ends_bind, ends_lift; [done|]. intros capability _. apply ends_bind, ends_lift; [done|]. intros queue_id _.
apply (ends_except _ _ _ _ _ stays); [|intros _ tr' Ht'; by apply failed_goes|done].
set (e := Api QueueClaim l (Some [entry "queue_id" (PStr queue_id)])).
assert (∀ r, lawful' (Did e r :: tr)) as Hl by (intros r; split; [by rewrite Hb|done]).
apply ends_bind, ends_perform; [|intros x; apply Hl]. intros [response|].
- apply ends_bind, ends_lift; [intros; apply Hl|]. intros d Hd. apply ends_bind, ends_lift; [intros; apply Hl|]. intros claim Hc.
  apply ends_bind, ends_lift; [intros; apply Hl|]. intros [] _. apply goes_go; [apply Hl|].
  assert (ledger_of (Did e (inr (Some response)) :: tr) = blank <| lg_claims ::= cons ([entry "queue_id" (PStr queue_id)], true) |> <| lg_granted := [claim] |>) as ->; [|done].
  change (ledger_of (Did e (inr (Some response)) :: tr)) with (note e (inr (Some response)) (ledger_of tr)). rewrite Hb. cbn [note e].
  assert (granted (Some [entry "queue_id" (PStr queue_id)]) (inr (Some response)) = [claim]) as ->; [|done].
  unfold granted. rewrite Hd. change (match validate_queue_claim_result (PDict d) queue_id with inr c => [c] | inl _ => [] end = [claim]).
  by rewrite Hc.
- apply ends_done; [apply Hl| |done]. change (ledger_of (Did e (inr None) :: tr)) with (note e (inr None) (ledger_of tr)).
  rewrite Hb. intros _ Hg. by destruct Hg.
Qed.
Lemma acquire_by_browser_goes l payload claim input egress browser tr : lawful' tr → fresh (Some claim) (ledger_of tr) →
ends (acquire_by_browser l payload claim input egress browser) (goes l (λ _, fresh (Some claim))) stays tr.
Proof.
intros Ht Hf. unfold acquire_by_browser. apply ends_bind, ends_lift; [done|]. intros p _. apply ends_bind, ends_lift; [done|]. intros b _.
apply guarded_goes, ends_bind, ends_quiet; [apply quiet_queue_browser_acquire|done| |].
- intros r tr' Hl Ht'. apply goes_go; [done|by rewrite Hl].
- intros e tr' Hl Ht'. rewrite Hl. split; [done|apply Hf].
Qed.
Lemma acquire_by_http_goes l claim input egress authorization tr : lawful' tr → fresh (Some claim) (ledger_of tr) →
ends (acquire_by_http l claim input egress authorization) (goes l (λ _, fresh (Some claim))) stays tr.
Proof.
intros Ht Hf. unfold acquire_by_http. apply ends_bind, ends_lift; [done|]. intros p _.
apply guarded_goes, ends_bind, ends_quiet; [apply quiet_brokered|done| |].
- intros r tr' Hl Ht'. apply goes_go; [done|by rewrite Hl].
- intros e tr' Hl Ht'. rewrite Hl. split; [done|apply Hf].
Qed.
Lemma quiet_kv_read l p : quiet (client_kv_read l p).
Proof. by apply quiet_call. Qed.
Lemma read_store_goes l claimed input tr : lawful' tr → fresh claimed (ledger_of tr) →
ends (read_store l claimed input) (goes l (λ _, fresh claimed)) stays tr.
Proof.
intros Ht Hf. unfold read_store. apply guarded_goes. assert (unreported claimed (ledger_of tr)) as Hu by apply Hf.
apply ends_bind, ends_lift; [by split|]. intros [] _. cbv zeta. case_bool_decide; [by apply goes_go|].
apply ends_bind, ends_lift; [by split|]. intros r _.
apply ends_bind, ends_quiet; [apply quiet_kv_read|done| |intros e tr' Hl Ht'; by rewrite Hl].
intros response tr' Hl Ht'. apply ends_bind, ends_lift; [intros; by rewrite Hl|]. intros d _.
apply ends_bind, ends_lift; [intros; by rewrite Hl|]. intros records _. apply goes_go; [done|by rewrite Hl].
Qed.
Lemma fetch_web_goes l activation input v http egress authorization claimed tr : lawful' tr → fresh claimed (ledger_of tr) →
ends (fetch_web l activation input v http egress authorization) (goes l (λ _, fresh claimed)) stays tr.
Proof.
intros Ht Hf. unfold fetch_web. apply ends_bind, ends_lift; [done|]. intros _ _. destruct (profile_is _ _); [|by apply goes_go].
apply ends_bind, ends_lift; [done|]. intros p _. destruct http.
{ apply ends_bind, ends_lift; [done|]. intros _ _. by apply goes_go. }
destruct (negb (bool_decide (v = PNone))).
- apply ends_bind, ends_lift; [done|]. intros _ _. apply (goes_continue l _ _ (λ _, fresh claimed)).
  + apply ends_try_catch, ends_bind, ends_quiet; [apply quiet_brokered|done|intros r tr' Hl Ht'; apply goes_go; [done|by rewrite Hl]|].
    intros e tr' Hl Ht'. destruct (caught _ e); [by apply failed_goes|]. destruct (caught _ e); [by apply failed_goes|]. by apply ends_raise.
  + intros r tr' Ht' Hf'. by apply goes_go.
- apply ends_bind, ends_quiet; [apply quiet_brokered|done|intros r tr' Hl Ht'; apply goes_go; [done|by rewrite Hl]|done].
Qed.
Lemma prepare_goes l payload activation input egress browser authorization v tr : lawful' tr → ledger_of tr = blank →
ends (prepare l payload activation input egress browser authorization v) (goes l (λ c, fresh c.1.1)) stays tr.
Proof.
intros Ht Hb. unfold prepare. cbv zeta. apply ends_bind, ends_lift; [done|]. intros _ _.
apply (goes_continue l _ _ (λ c, fresh c.1)).
{ destruct (flag_is _ _ _); [|by apply goes_go; [|rewrite Hb]]. eapply goes_continue; [by apply claim_request_goes|].
  intros c tr' Ht' Hf. by apply goes_go. }
intros [claimed input1] tr1 Ht1 Hf1. cbn [fst snd] in *. apply (goes_continue l _ _ (λ _, fresh claimed)).
{ destruct claimed as [claim|]; [|by apply goes_go]. destruct (flag_is _ _ _); [|by apply goes_go]. by apply acquire_by_browser_goes. }
intros browsed tr2 Ht2 Hf2. apply (goes_continue l _ _ (λ _, fresh claimed)).
{ destruct claimed as [claim|]; [|by apply goes_go]. destruct (flag_is _ _ _); [|by apply goes_go]. by apply acquire_by_http_goes. }
intros input3 tr3 Ht3 Hf3. apply (goes_continue l _ _ (λ _, fresh claimed)).
{ destruct (flag_is _ _ _); [|by apply goes_go]. by apply read_store_goes. }
intros input4 tr4 Ht4 Hf4. eapply goes_continue; [by apply fetch_web_goes|]. intros input5 tr5 Ht5 Hf5. by apply goes_go.
Qed.

(** ** After the agent *)

(** The agent has exited with [code]; the claim is not reported; [R] of the writes. *)
Definition exited (claimed : option document) (code : Z) (R : ledger → Prop) L : Prop :=
unreported claimed L ∧ lg_exits L = [inr code] ∧ R L.
Definition unwritten L : Prop := lg_mutations L = [] ∧ lg_appends L = [].

Lemma read_output_ends limit check m1 m2 tr (Q : pyval → trace → Prop) E : lawful' tr →
(∀ v tr', lawful' tr' → ledger_of tr' = ledger_of tr <| lg_outputs ::= cons v |> → Q v tr') →
(∀ e tr', lawful' tr' → ledger_of tr' = ledger_of tr → E e tr') → ends (read_output limit check m1 m2) Q E tr.
Proof.
intros Ht HQ HE. unfold read_output. apply ends_bind, ends_quiet; [by apply quiet_perform|done| |by intros; apply HE].
intros b tr1 Hl1 Ht1. apply ends_bind, ends_lift; [intros; by apply HE|]. intros _ _.
apply ends_bind, ends_quiet; [by apply quiet_perform|done| |by intros e tr2 Hl2; rewrite Hl1 in Hl2; intros; apply HE].
intros size tr2 Hl2 Ht2. rewrite Hl1 in Hl2. apply ends_bind, ends_lift; [intros; by apply HE|]. intros _ _.
apply ends_perform.
- intros v. apply HQ; [by split|]. change (ledger_of (Did (ReadJson OutputFile) (inr v) :: tr2)) with (ledger_of tr2 <| lg_outputs ::= cons v |>).
  by rewrite Hl2.
- intros x. apply HE; [by split|]. exact Hl2.
Qed.

Lemma mutations_app L (r : sent) rs : L <| lg_mutations ::= cons r |> <| lg_mutations ::= app rs |> = L <| lg_mutations ::= app (rs ++ [r]) |>.
Proof.
destruct L as [c g e o m a q]. change (MkLedger c g e o (rs ++ r :: m) a q = MkLedger c g e o ((rs ++ [r]) ++ m) a q).
by rewrite <- app_assoc.
Qed.
(** The mutations sent so far, latest first. *)
Lemma persist_mutations_ends l claimed i mutations tr : lawful' tr → unreported claimed (ledger_of tr) → lg_exits (ledger_of tr) = [inr 0] →
ends (persist_mutations l claimed i mutations)
  (λ _ tr', lawful' tr' ∧ ∃ ds ps, mutations = PDict <$> ds ∧
     mapM id (imap (λ j, persisted_mutation claimed (i + j)) ds) = inr ps ∧
     ledger_of tr' = ledger_of tr <| lg_mutations ::= app (reverse ((λ p, (p, true)) <$> ps)) |>)
  (stays_unreported claimed) tr.
Proof.
intros Ht Hu He. revert i tr Ht Hu He. induction mutations as [|m mutations IH]; intros i tr Ht Hu He; cbn [persist_mutations].
{ apply ends_ret. split; [done|]. exists [], []. split_and!; [done..|]. by destruct (ledger_of tr). }
apply ends_bind, ends_lift; [done|]. intros d Hd. apply ends_bind, ends_lift; [done|]. intros p Hp. apply ends_bind.
assert (permitted dataset store (Api KvMutate l (Some p)) (ledger_of tr)) as Hperm by (split; [done|apply Hu]).
apply ends_call; [|by intros x r _; split; [split|]]. intros v. set (ev := Did _ (inr (Some v))).
assert (ledger_of (ev :: tr) = ledger_of tr <| lg_mutations ::= cons (p, true) |>) as Hev by done.
eapply ends_mono; [apply IH; rewrite ?Hev; [by split|done..]| |done].
intros _ tr' (Ht' & ds & ps & -> & Hps & Hl). split; [done|]. exists (d :: ds), (p :: ps). split_and!.
- cbn [fmap list_fmap]. f_equal. unfold kvw_get in Hd. destruct m; try done. by injection Hd as <-.
- cbn [imap mapM]. rewrite Nat.add_0_r, Hp. cbn [id mbind sum_bind].
  assert (imap ((λ j, persisted_mutation claimed (i + j)) ∘ S) ds = imap (λ j, persisted_mutation claimed (S i + j)) ds) as ->;
    [apply imap_ext; intros j x _; cbn; by rewrite Nat.add_succ_r|]. by rewrite Hps.
- rewrite Hl, Hev. cbn [fmap list_fmap]. rewrite reverse_cons. by rewrite mutations_app.
Qed.

Definition store_done (claimed : option document) L : Prop := ∀ claim, claimed = Some claim → store_written L claim.
Definition dataset_done (claimed : option document) L : Prop := ∀ claim, claimed = Some claim → dataset_written L claim.

Lemma mutate_store_goes l claimed tr : lawful' tr → exited claimed 0 unwritten (ledger_of tr) →
ends (mutate_store l claimed) (goes l (λ _, exited claimed 0 (λ L, lg_appends L = [] ∧ store_done claimed L))) stays tr.
Proof.
intros Ht (Hu & He & Hm & Ha). unfold mutate_store. apply guarded_goes, ends_bind.
apply read_output_ends; [done| |by intros e tr' Ht' ->]. intros v tr1 Ht1 Hl1.
assert (unreported claimed (ledger_of tr1)) as Hu1 by (rewrite Hl1; exact Hu).
apply ends_bind, ends_lift; [done|]. intros n Hn. apply ends_bind, ends_lift; [done|]. intros ms Hms. apply ends_bind.
eapply ends_mono; [apply persist_mutations_ends; [done..|by rewrite Hl1]| |done].
intros _ tr2 (Ht2 & ds & ps & -> & Hps & Hl2). rewrite Hl1 in Hl2.
assert (unreported claimed (ledger_of tr2)) as Hu2 by (rewrite Hl2; exact Hu).
apply ends_bind, ends_lift; [done|]. intros b _.
apply ends_bind, ends_quiet; [by apply quiet_perform|done| |by intros e tr3 -> Ht3].
intros _ tr3 Hl3 Ht3. apply goes_go; [done|]. rewrite Hl3, Hl2. split_and!; [exact Hu|exact He|exact Ha|].
intros claim ->. exists v, n, ds, ps. split_and!; [left|done| |exact Hps|].
- unfold kvw_get in Hms. destruct (dict_get "mutations" n); try done. by injection Hms as ->.
- destruct (ledger_of tr). cbn in Hm |- *. by rewrite Hm, app_nil_r.
Qed.
Lemma store_written_more L L' claim : lg_mutations L' = lg_mutations L → lg_outputs L ⊆ lg_outputs L' → store_written L claim → store_written L' claim.
Proof. intros Hm Ho (v & n & ms & ps & Hv & Hrest). exists v, n, ms, ps. rewrite Hm. split; [by apply Ho|exact Hrest]. Qed.

Lemma append_dataset_goes l claimed P tr : lawful' tr → exited claimed 0 (λ L, lg_appends L = [] ∧ (P → store_done claimed L)) (ledger_of tr) →
ends (append_dataset l claimed)
  (goes l (λ _, exited claimed 0 (λ L, dataset_done claimed L ∧ (P → store_done claimed L)))) stays tr.
Proof.
intros Ht (Hu & He & Ha & Hs). unfold append_dataset. apply guarded_goes, ends_bind.
apply read_output_ends; [done| |by intros e tr' Ht' ->]. intros v tr1 Ht1 Hl1.
assert (unreported claimed (ledger_of tr1)) as Hu1 by (rewrite Hl1; exact Hu).
apply ends_bind, ends_lift; [done|]. intros d Hd. apply ends_bind, ends_lift; [done|]. intros p Hp.
apply ends_bind, ends_lift; [done|]. intros a Hw. apply ends_bind.
assert (permitted dataset store (Api DatasetAppend l (Some p)) (ledger_of tr1)) as Hperm by (rewrite Hl1; split; [exact He|apply Hu]).
apply ends_call; [|by intros x r _; split; [split|]]. intros w. set (ev := Did _ (inr (Some w))).
assert (ledger_of (ev :: tr1) = ledger_of tr1 <| lg_appends ::= cons (p, true) |>) as Hev by done.
apply goes_go; [by split|]. rewrite Hev, Hl1. split_and!; [exact Hu|exact He|..].
- intros claim ->. exists d, p. split_and!; [|exact Hp|by rewrite Hw|].
  + unfold dataset_get in Hd. destruct v; try done. injection Hd as ->. left.
  + destruct (ledger_of tr). cbn in Ha |- *. by rewrite Ha.
- intros HP claim Hc. eapply store_written_more; [..|by apply Hs]; [done|]. intros x Hx. by right.
Qed.

(** The claim has been reported, and as handled when the agent succeeded. *)
Definition claim_reported (claimed : option document) (code : Z) L : Prop :=
lg_granted L = option_list claimed ∧ ∀ claim, claimed = Some claim → ∃ report, lg_reports L = [report] ∧ (code = 0 → handled report).
Definition written (claimed : option document) (code : Z) L : Prop :=
code = 0 → (dataset = true → dataset_done claimed L) ∧ (store = true → store_done claimed L).

Lemma completion_status claim b code summary p : queue_completion_payload claim b code summary = inr p →
dict_get "status" p = text (if b then "HANDLED" else "FAILED").
Proof. unfold queue_completion_payload. intros Hp. musts Hp. by injection Hp as <-. Qed.
Lemma report_claim_goes l claimed code tr : lawful' tr → exited claimed code (written claimed code) (ledger_of tr) →
ends (report_claim l claimed code) (goes l (λ _, claim_reported claimed code)) stays tr.
Proof.
intros Ht ((Hg & Hr) & He & Hw). unfold report_claim. destruct claimed as [claim|]; [|by apply goes_go].
apply (ends_except _ _ _ _ _ stays); [|intros _ tr' Ht'; by apply failed_goes|done].
apply ends_bind, ends_lift; [done|]. intros p Hp. apply ends_bind.
assert (permitted dataset store (Api QueueComplete l (Some p)) (ledger_of tr)) as Hperm.
{ split; [done|]. exists claim. split; [done|]. destruct (Z.eqb_spec code 0) as [->|]; [right|left; by eexists _, _].
  split; [by eexists _, _|]. destruct (Hw eq_refl) as [Hd Hs]. split_and!; [done|intros; by apply Hd|intros; by apply Hs]. }
apply ends_call; [|intros x r _; by split]. intros v. apply goes_go; [by split|]. split; [exact Hg|].
intros c [= <-]. exists (p, true). split.
- change (lg_reports (ledger_of (Did (Api QueueComplete l (Some p)) (inr (Some v)) :: tr))) with ((p, true) :: lg_reports (ledger_of tr)).
  by rewrite Hr.
- intros ->. split; [|done]. by apply completion_status in Hp.
Qed.
Lemma publish_goes l payload activation im acquisition claimed code (Q : () → ledger → Prop) tr : lawful' tr →
claim_reported claimed code (ledger_of tr) → ends (publish l payload activation im acquisition code) (goes l Q) stays tr.
Proof.
intros Ht Hc. unfold publish. apply ends_bind, ends_lift; [done|]. intros p _.
apply ends_bind, ends_quiet; [apply quiet_optional_artifact|done| |done]. intros a1 tr1 Hl1 Ht1. rewrite <- Hl1 in Hc.
apply ends_bind, ends_quiet; [apply quiet_optional_artifact|done| |done]. intros a2 tr2 Hl2 Ht2. rewrite <- Hl2 in Hc.
apply ends_bind, ends_quiet; [apply quiet_upload_artifacts|done| |done]. intros rs tr3 Hl3 Ht3. rewrite <- Hl3 in Hc.
apply ends_done; [done| |by destruct (code =? 0)]. destruct (Z.eqb_spec code 0) as [->|]; [|by apply failed_is_permitted].
intros _ Hg. destruct Hc as [Hcl Hr]. destruct claimed as [claim|]; [|by rewrite Hcl in Hg].
destruct (Hr claim eq_refl) as (report & Hrep & Hh). exists report. split; [done|by apply Hh].
Qed.

Lemma agent_run_goes l payload activation egress browser authorization (Q : () → ledger → Prop) tr :
(∀ m, (v ← item "manifest" payload; py_dict v) = inr m → dataset = dataset_enabled m) →
store = flag_is "key_value_store_enabled" true activation → lawful' tr → ledger_of tr = blank →
ends (agent_run l payload activation egress browser authorization) (goes l Q) stays tr.
Proof.
intros Hds Hst Ht Hb. unfold agent_run.
apply ends_bind, ends_quiet; [apply quiet_load_run_image|done| |done]. intros im tr1 Hl1 Ht1. rewrite Hb in Hl1.
apply ends_bind, ends_lift; [done|]. intros manifest Hm. apply Hds in Hm.
do 4 (apply ends_bind, ends_lift; [done|]; intros ? _).
eapply goes_continue; [by apply prepare_goes|]. intros [[claimed input] acquisition] tr2 Ht2 Hf. cbn [fst snd] in Hf.
apply ends_bind, ends_quiet; [apply quiet_secrets_of|done| |done]. intros secrets tr3 Hl3 Ht3. rewrite <- Hl3 in Hf.
apply ends_bind, ends_quiet; [by apply quiet_call|done| |done]. intros ? tr4 Hl4 Ht4. rewrite <- Hl4 in Hf.
apply ends_bind, ends_lift; [done|]. intros run_id _. apply ends_bind, ends_lift; [done|]. intros sandbox _. apply ends_bind.
destruct Hf as (Hu & He & Ho & Hmu & Ha). set (call := RunAgent _).
assert (permitted dataset store call (ledger_of tr4)) as Hperm by (split; [done|apply Hu]).
apply ends_perform; [|by split]. intros code. set (tr5 := Did call (inr code) :: tr4).
assert (ledger_of tr5 = ledger_of tr4 <| lg_exits ::= cons (inr code) |>) as Hl5 by done.
assert (lawful' tr5) as Ht5 by (by split).
assert (exited claimed code unwritten (ledger_of tr5)) as Hx5.
{ rewrite Hl5. refine (conj Hu (conj _ (conj Hmu Ha))). cbn. by rewrite He. }
clearbody tr5. clear Hl5 Hperm Hu He Ho Hmu Ha.
apply (goes_continue l _ _ (λ _, exited claimed code (λ L, code = 0 → lg_appends L = [] ∧ (store = true → store_done claimed L)))).
{ destruct (flag_is _ _ _) eqn:Hflag; cbn [andb].
  - destruct (Z.eqb_spec code 0) as [->|Hne].
    + eapply ends_mono; [by apply mutate_store_goes| |done]. intros f tr6 [Ht6 Hf]. split; [done|]. destruct f as [|[]]; [done|].
      destruct Hf as (Hu & He & Ha & Hs). by refine (conj Hu (conj He _)).
    + apply goes_go; [done|]. destruct Hx5 as (Hu & He & _). by refine (conj Hu (conj He _)).
  - apply goes_go; [done|]. destruct Hx5 as (Hu & He & _ & Ha). refine (conj Hu (conj He _)). intros _. split; [done|congruence]. }
intros [] tr6 Ht6 Hx6.
apply (goes_continue l _ _ (λ _, exited claimed code (written claimed code))).
{ destruct (dataset_enabled manifest) eqn:Hd; cbn [andb].
  - destruct (Z.eqb_spec code 0) as [->|Hne].
    + destruct Hx6 as (Hu & He & Hw). destruct (Hw eq_refl) as [Ha Hs].
      eapply ends_mono; [apply (append_dataset_goes _ _ (store = true)); [done|by refine (conj Hu (conj He (conj Ha Hs)))]| |done].
      intros f tr7 [Ht7 Hf]. split; [done|]. destruct f as [|[]]; [done|]. destruct Hf as (Hu' & He' & Hdd & Hs').
      refine (conj Hu' (conj He' _)). by split.
    + apply goes_go; [done|]. destruct Hx6 as (Hu & He & _). by refine (conj Hu (conj He _)).
  - apply goes_go; [done|]. destruct Hx6 as (Hu & He & Hw). refine (conj Hu (conj He _)). intros Hc. split; [congruence|by apply Hw]. }
intros [] tr7 Ht7 Hx7. eapply goes_continue; [by apply report_claim_goes|]. intros [] tr8 Ht8 Hc. by eapply publish_goes.
Qed.

Lemma browser_run_goes {A} l payload activation egress browser (Q : A → ledger → Prop) tr : lawful' tr → ledger_of tr = blank →
ends (browser_run config l payload activation egress browser) (goes l Q) stays tr.
Proof.
intros Ht Hb. unfold browser_run. apply ends_bind, ends_lift; [done|]. intros ir _. cbv zeta.
apply (goes_continue l _ _ (λ _ L, L = blank)).
- apply (ends_except _ _ _ _ _ stays); [|intros _ tr' Ht'; by apply failed_goes|done].
  apply ends_bind, ends_quiet; [by apply quiet_call|done| |done]. intros ? tr1 Hl1 Ht1.
  apply ends_bind, ends_quiet; [|done| |done].
  + case_bool_decide; [quiets|apply quiet_live_navigation].
  + intros p tr2 Hl2 Ht2. apply goes_go; [done|]. by rewrite Hl2, Hl1.
- intros p tr1 Ht1 Hl1. apply ends_bind, ends_quiet; [apply quiet_run_artifact|done| |done]. intros a1 tr2 Hl2 Ht2.
  apply ends_bind, ends_quiet; [apply quiet_run_artifact|done| |done]. intros a2 tr3 Hl3 Ht3.
  apply ends_bind, ends_quiet; [apply quiet_upload_artifacts|done| |done]. intros rs tr4 Hl4 Ht4.
  apply ends_done; [done| |done]. rewrite Hl4, Hl3, Hl2, Hl1. intros _ Hg. by destruct Hg.
Qed.

Lemma active_run_goes l payload worker_name (Q : () → ledger → Prop) tr :
(∀ m, (v ← item "manifest" payload; py_dict v) = inr m → dataset = dataset_enabled m) →
(∀ a, dict_get "activation" payload = PDict a → store = flag_is "key_value_store_enabled" true a) →
lawful' tr → ledger_of tr = blank → ends (active_run config l payload worker_name) (goes l Q) stays tr.
Proof.
intros Hds Hst Ht Hb. unfold active_run. apply ends_bind, ends_lift; [done|]. intros [[egress browser] activation] Ha.
assert (dict_get "activation" payload = PDict activation) as Hact.
{ unfold activate_claim, require_canary_activation, sandbox_get in Ha. musts Ha. injection Ha as <- <- <-.
  match goal with Hr : _ = inr ?act |- _ = PDict ?act => musts Hr; injection Hr as <- end. by apply as_dict_Some. }
apply ends_bind, ends_quiet; [apply quiet_egress_authorization|done| |done]. intros authorization tr1 Hl1 Ht1. rewrite Hb in Hl1.
destruct (_ && _); [by apply browser_run_goes|]. apply agent_run_goes; auto.
Qed.
End run.

(** ** Every run *)

Section theorems.
Context `{CaseFold, UrlTables, Idna, UpperCase, Sha256, UnicodeDecimal, PyRepr, FloatCompare, !PyInt}.
Context `{!Resolver, !GlobalAddress, !Origins, !UrlJoin, !CharsetDecoder, !Host, !ExcText}.
Context (config : worker_config).

(** The capabilities a claim gives to its run. *)
Definition claims_dataset (claim : pyval) : bool :=
match lp ← claimed_lease claim; v ← item "manifest" lp.2; py_dict v with inr m => dataset_enabled m | inl _ => false end.
Definition claims_store (claim : pyval) : bool :=
match lp ← claimed_lease claim; inr (dict_get "activation" lp.2) with
| inr (PDict a) => flag_is "key_value_store_enabled" true a
| _ => false
end.
Definition makes_workspace (ev : event) : bool := match ev with Did (MakeWorkspace _) (inr _) => true | _ => false end.
Definition cleaned_up (tr : trace) : Prop := existsb makes_workspace tr = true → ∃ a tr', tr = Did CleanupTree a :: tr'.
(** A run that returns an outcome reported it to the control plane, and did nothing after but
  clean up. *)
Definition ended (claim : pyval) (r : exn + string) (tr : trace) : Prop :=
match r with
| inl _ => True
| inr s => ∃ l payload tr', claimed_lease claim = inr (l, payload) ∧ reported l s tr' ∧
    (tr = tr' ∨ tr = Did CleanupTree (inr ()) :: tr')
end.

Lemma ends_finally {A} (m : M trace A) e (Q : A → trace → Prop) E tr :
ends m (λ a tr', Q a (Did e (inr ()) :: tr') ∧ ∀ x, E x (Did e (inl x) :: tr'))
  (λ x tr', E x (Did e (inr ()) :: tr') ∧ ∀ x, E x (Did e (inl x) :: tr')) tr →
ends (finally m (perform e)) Q E tr.
Proof.
unfold ends, finally, perform. destruct (m tr) as [[x|a] tr']; intros [Hq Hq']; destruct (answer () e tr') as [y|[]]; auto.
Qed.
Lemma crashed_goes l code e (Q : () → ledger → Prop) dataset store tr : lawful dataset store tr →
ends (crashed l code e) (goes dataset store l Q) (λ _ tr', lawful dataset store tr') tr.
Proof.
intros Ht. unfold crashed. destruct (is_exception e); [|by apply ends_raise].
apply ends_done; [done| |done]. by apply failed_is_permitted.
Qed.

(** What holds at the end of a run, however it ends. *)
Definition run_ok (claim : pyval) (r : exn + string) (tr : trace) : Prop :=
lawful (claims_dataset claim) (claims_store claim) tr ∧ cleaned_up tr ∧ ended claim r tr.
Lemma run_ends claim worker_name :
ends (run config claim worker_name) (λ s, run_ok claim (inr s)) (λ e, run_ok claim (inl e)) [].
Proof.
unfold run. apply ends_bind, ends_lift; [done|]. intros [l payload] Hc.
set (dataset := claims_dataset claim). set (store := claims_store claim).
assert (∀ p (tr : trace), existsb makes_workspace tr = false → lawful dataset store tr → dict_get "outcome" p ≠ text "SUCCEEDED" →
  ∀ s, dict_get "outcome" p = text (outcome_text s) →
  ends (client_complete l p ;; mret s) (λ s, run_ok claim (inr s)) (λ e, run_ok claim (inl e)) tr) as Hend.
{ intros p tr Hw Hl Hn s Hs. assert (∀ r, lawful dataset store (Did (Api Complete l (Some p)) r :: tr)) as Hl' by (intros r; split; [intros Hd; by destruct (Hn Hd)|done]).
  apply ends_bind, ends_call.
  - intros v. apply ends_ret. split; [apply Hl'|]. split; [unfold cleaned_up; cbn [existsb makes_workspace orb]; by rewrite Hw|].
    exists l, payload. eexists. split; [done|]. split; [|by left]. by exists p, v, tr.
  - intros x r _. split; [apply Hl'|]. split; [unfold cleaned_up; cbn [existsb makes_workspace orb]; by rewrite Hw|done]. }
case_bool_decide.
{ apply ends_bind, ends_lift; [done|]. intros run_id _. apply ends_bind, ends_perform; [|done]. intros []. by apply Hend. }
destruct (_ || _); [by apply Hend|]. clear Hend.
apply ends_bind, ends_perform; [|done]. intros []. set (tr0 := [Did (MakeWorkspace "run-") (inr ())]).
assert (∀ tr a r, lawful dataset store tr → (∀ s, r = inr s → ∃ l' p', claimed_lease claim = inr (l', p') ∧ reported l' s tr ∧ a = inr ()) →
  run_ok claim r (Did CleanupTree a :: tr)) as Hok.
{ intros tr a r Hl Hr. split; [by split|]. split; [intros _; by eexists _, _|]. destruct r as [|s]; [done|].
  destruct (Hr s eq_refl) as (l' & p' & Hc' & Hrep & ->). exists l', p', tr. split_and!; [done..|by right]. }
apply ends_bind, ends_finally. eapply ends_mono.
- apply ends_try_catch. eapply ends_mono;
    [apply (active_run_goes config dataset store l payload worker_name (λ _ _, False))|..].
  + intros m Hm. unfold dataset, claims_dataset. rewrite Hc. cbn [mbind sum_bind snd] in Hm |- *. by rewrite Hm.
  + intros a Ha. unfold store, claims_store. rewrite Hc. cbn [mbind sum_bind snd]. by rewrite Ha.
  + by split.
  + done.
  + intros f tr Hf. exact Hf.
  + intros e tr Htr. by apply crashed_goes.
- intros [s|[]] tr [Hl Hr]; [|done]. split; [|intros x; by apply Hok]. apply ends_ret, Hok; [done|]. intros s' [= <-]. by exists l, payload.
- intros e tr Hl. split; [|intros x]; by apply Hok.
Qed.

(** C19: whatever the control plane, the containers, the files and the network answer or
  raise, a run does its effects in order: a queue request is claimed and reported at most
  once and the agent runs at most once, in this order; writes follow a successful exit and
  precede the report; the request is reported handled only when the agent succeeded and
  every write it asked for was acknowledged under the keys of the claim; and a lease with a
  claimed request is completed as succeeded only after that report was acknowledged. *)
Theorem run_is_ordered claim worker_name :
lawful (claims_dataset claim) (claims_store claim) (run config claim worker_name []).2.
Proof.
pose proof (run_ends claim worker_name) as Hr. unfold ends in Hr. destruct (run _ _ _ []) as [[e|s] tr]; apply Hr.
Qed.

(** C20: a run that returns an outcome reported exactly that outcome to the control plane,
  which acknowledged it, and did nothing after it but clean up; and a run that made a
  workspace ends by removing it, also when it raises. *)
Theorem run_reports_its_outcome claim worker_name :
let '(r, tr) := run config claim worker_name [] in cleaned_up tr ∧ ended claim r tr.
Proof.
pose proof (run_ends claim worker_name) as Hr. unfold ends in Hr. destruct (run _ _ _ []) as [[e|s] tr]; apply Hr.
Qed.
End theorems.

(** ** Builds *)

Section build.
Context `{CaseFold, UrlTables, Idna, UpperCase, Sha256, UnicodeDecimal, PyRepr, FloatCompare, !PyInt}.
Context `{!Host, !ExcText}.
Context (config : worker_config).
Implicit Types (l : lease) (payload : document) (tr : trace).

(** The last digest of the source archive, and the builds that returned. *)
Definition source_digest (ev : event) : option (pystr * Z) :=
match ev with
| Did e r => match e in effect A return exn + A → option (pystr * Z) with
             | Sha256File SourceZip => λ r, match r with inr ds => Some ds | inl _ => None end
             | _ => λ _, None
             end r
| Brokered _ => None
end.
Definition source_read tr : option (pystr * Z) := head (omap source_digest tr).
Definition build_returned (ev : event) : bool := match ev with Did (BuildAgent _) (inr _) => true | _ => false end.

(** The source is the one the claim names. *)
Definition source_verified payload (b : build_call) tr : Prop := ∃ source digest size,
source_of payload = inr source ∧ source_read tr = Some (digest, size) ∧ bc_source_sha256 b = digest ∧
dict_find (lit "sha256_digest") source = Some (PStr digest) ∧
(v ← item "size_bytes" source; py_int v) = inr size.
Definition build_permitted payload (ev : event) tr : Prop :=
match ev with
| Did (BuildAgent b) _ => source_verified payload b tr ∧
    (∃ name egress browser, activate_claim config payload name = inr (egress, browser, bc_activation b))
| Did (Api Complete _ p) _ => dict_get "outcome" (default [] p) = text "SUCCEEDED" → existsb build_returned tr = true
| _ => True
end.
Fixpoint build_lawful payload tr : Prop :=
match tr with [] => True | ev :: tr => build_permitted payload ev tr ∧ build_lawful payload tr end.

(** Effects without a condition, that keep what was built. *)
Definition plain_event (ev : event) : Prop :=
match ev with Did (BuildAgent _) _ | Did (Api Complete _ _) _ => False | _ => True end.
Definition plainly : relation trace := λ tr tr', ∃ evs, tr' = evs ++ tr ∧ Forall plain_event evs.
#[local] Instance plainly_preorder : PreOrder plainly.
Proof.
split.
- intros tr. by exists [].
- intros tr tr' tr'' (evs & -> & He) (evs' & -> & He'). exists (evs' ++ evs). rewrite app_assoc. split; [done|]. by apply Forall_app.
Qed.
Lemma plainly_lawful payload tr tr' : plainly tr tr' → build_lawful payload tr →
build_lawful payload tr' ∧ (existsb build_returned tr = true → existsb build_returned tr' = true).
Proof.
intros (evs & -> & He) Ht. induction He as [|ev evs Hev _ [IH IHb]]; [done|]. split.
- cbn [app build_lawful]. split; [|done]. destruct ev as [A [[] ? ?| | | | | | | | | | | | | | | | | | | |] r|b]; done.
- intros Hb. cbn [app existsb]. rewrite IHb by done. apply orb_true_r.
Qed.
Lemma plain_perform {A} (e : effect A) : plain_event (Did e (inl UnicodeEncodeError)) → frames plainly (perform e).
Proof. intros He tr. exists [Did e (answer A e tr)]. split; [done|]. by apply Forall_singleton. Qed.
Lemma plain_call e l p m : plain_event (Did (Api e l p) (inl UnicodeEncodeError)) → frames plainly (call e l p m).
Proof. intros He. apply frames_bind; [apply _|by apply plain_perform|]. intros r. apply frames_get_or_raise. apply _. Qed.
Lemma plain_lift {A} (r : exn + A) : frames plainly (lift r).
Proof. intros tr. destruct r; by exists []. Qed.
Lemma plain_upload_artifacts l artifacts : frames plainly (upload_artifacts l artifacts).
Proof.
induction artifacts as [|a artifacts IH]; cbn [upload_artifacts]; [apply frames_ret; apply _|]. unfold upload_artifact.
repeat lazymatch goal with
| |- frames _ (_ ≫= _) => apply frames_bind; [apply _| |intros ?]
| |- frames _ (mret _) => apply frames_ret; apply _
| |- frames _ (lift _) => apply plain_lift
| |- frames _ (perform _) => apply plain_perform; exact I
| |- frames _ (client_artifact_upload _ _) => apply plain_call; exact I
end. exact IH.
Qed.
Lemma ends_plain {A} payload (m : M trace A) (Q : A → trace → Prop) E tr : frames plainly m → build_lawful payload tr →
(∀ a tr', build_lawful payload tr' → (existsb build_returned tr = true → existsb build_returned tr' = true) → Q a tr') →
(∀ e tr', build_lawful payload tr' → E e tr') → ends m Q E tr.
Proof.
intros Hm Ht HQ HE. unfold ends. specialize (Hm tr). destruct (m tr) as [[e|a] tr'];
  destruct (plainly_lawful payload _ _ Hm Ht) as [Hl Hb]; auto.
Qed.
Abbreviation kept payload := (λ (_ : exn) tr, build_lawful payload tr).

Lemma fetch_source_ends l payload tr : build_lawful payload tr →
ends (fetch_source l payload) (λ ds tr', build_lawful payload tr' ∧ ∀ b, bc_source_sha256 b = ds.1 → source_verified payload b tr')
  (kept payload) tr.
Proof.
intros Ht. unfold fetch_source.
apply ends_bind, (ends_plain payload); [by apply plain_perform|done| |done]. intros _ tr1 Ht1 _.
apply ends_bind, (ends_plain payload); [by apply plain_call|done| |done]. intros response tr2 Ht2 _.
apply ends_bind, ends_lift; [done|]. intros grant _. apply ends_bind, ends_lift; [done|]. intros source Hs.
apply ends_bind, ends_lift; [done|]. intros url _. apply ends_bind, ends_lift; [done|]. intros size Hsize.
apply ends_bind, (ends_plain payload); [by apply plain_perform|done| |done]. intros _ tr3 Ht3 _.
apply ends_bind, ends_perform; [|by split]. intros [digest n].
apply ends_bind, ends_lift; [by split|]. intros expected Hx. apply ends_bind, ends_lift; [by split|]. intros [] Hc.
apply must_inr in Hc. cbn [fst snd] in Hc. breflect. subst.
apply ends_bind, ends_perform; [|by split]. intros []. apply ends_ret. split; [by split|].
intros b Hb. exists source, digest, size. split_and!; [done|done|done| |done].
unfold item in Hx. destruct (dict_find _ source) as [v|]; [|done]. cbn in Hx. by injection Hx as ->.
Qed.
Lemma active_build_ends l payload name tr : build_lawful payload tr →
ends (active_build config l payload name) (λ _ tr', build_lawful payload tr') (kept payload) tr.
Proof.
intros Ht. unfold active_build. apply ends_bind, ends_lift; [done|]. intros [[egress browser] activation] Ha.
apply ends_bind. eapply ends_mono; [by apply fetch_source_ends| |done]. intros ds tr1 [Ht1 Hv].
apply ends_bind. unfold client_status. apply ends_call; [|by split].
intros v. set (tr2 := _ :: tr1). assert (build_lawful payload tr2) as Ht2 by (by split).
do 3 (apply ends_bind, ends_lift; [done|]; intros ? _). apply ends_bind.
match goal with |- ends (perform (BuildAgent ?b0)) _ _ _ => set (b := b0) end.
assert (build_permitted payload (Did (BuildAgent b) (inl UnicodeEncodeError)) tr2) as Hp.
{ split; [|by exists name, egress, browser]. destruct (Hv b eq_refl) as (source & digest & n & Hrest). by exists source, digest, n. }
apply ends_perform; [|by split]. intros artifacts. set (tr3 := Did (BuildAgent b) (inr artifacts) :: tr2).
assert (build_lawful payload tr3) as Ht3 by (by split).
apply ends_bind, (ends_plain payload); [apply plain_upload_artifacts|done| |done]. intros rs tr4 Ht4 Hb.
specialize (Hb eq_refl). apply ends_bind. apply ends_call; [intros w; apply ends_ret|intros x r _]; (split; [intros _; exact Hb|exact Ht4]).
Qed.

(** C21: whatever the control plane, the builder and the files answer or raise, a worker
  builds only under an activation it has accepted and only the source archive whose digest
  and size are those of the claim, and reports success only after the build returned. *)
Theorem build_is_of_the_claimed_source claim worker_name :
match claimed_lease claim with
| inr (_, payload) => build_lawful payload (build config claim worker_name []).2
| inl e => build config claim worker_name [] = (inl e, [])
end.
Proof.
unfold build. destruct (claimed_lease claim) as [e|[l payload]]; [done|].
assert (∀ m : M trace string, ends m (λ _ tr, build_lawful payload tr) (kept payload) [] → build_lawful payload (m []).2) as Hends.
{ intros m Hm. unfold ends in Hm. by destruct (m []) as [[]]. }
apply Hends. clear Hends. apply ends_bind, ends_ret. destruct (_ || _).
{ apply ends_bind. apply ends_call; [intros v; apply ends_ret|intros x r _]; by split. }
apply ends_bind, ends_perform; [|done]. intros []. apply ends_bind, ends_finally. eapply ends_mono.
- apply ends_try_catch. eapply ends_mono; [apply active_build_ends; by split|intros f tr Hf; exact Hf|].
  intros e tr Htr. unfold crashed. destruct (is_exception e); [|by apply ends_raise].
  apply ends_bind, ends_call; [intros v; apply ends_ret|intros x r _]; by split.
- intros f tr Htr. split; [|by split]. apply ends_ret. by split.
- intros e tr Htr. split; [by split|]. by split.
Qed.
End build.
