(* ===== verification/SandboxScenario.v ===== *)
(** The sandbox worker on concrete services.  First its parts: the hypotheses of the theorems
    of EgressBrokerSpec.v and SandboxAcquisition.v hold, and a claim of a URL outside ASCII
    passes the queue protocol and cannot be fetched.  Then its runs, on the claim of
    RunScenario.v: a queue request is fetched, the agent appends to its dataset and the
    request is handled; when the append or the agent fails, it is reported failed. *)

From S2P Require Import Prelude PyVal Json PyUuid PyTime QueueProtocol EventProtocol Idempotency Url.
From S2P Require Import Recovery Pagination RunEvents KvProtocol EgressProtocol EgressScenario ExecutionPlane ExecutionSpec.
From S2P Require Import PyEq KvWorkerProtocol Canary Admission RunSchemas RunCreation RunScenario SandboxJson SandboxEgress WebFetch EgressBroker EgressBrokerSpec.
From S2P Require Import QueueWorker SandboxAcquisition SandboxKv SandboxDataset BrowserPolicy BrowserNavigation SandboxActivation ActivationScenario.
From S2P Require Import WorkerClient WorkerRun WorkerRunSpec.

Module SandboxScenario.
#[local] Existing Instances EgressScenario.fold_ascii EgressScenario.tables EgressScenario.no_idna EgressScenario.upper_letters.
#[local] Existing Instances EgressScenario.host_tables.
#[local] Instance short_digest : Sha256 := λ b, to_hex 64 (fold_left (λ n c, (n * 257 + c + 1) mod 2 ^ 61)%N b 7%N).
#[local] Instance no_decimals : UnicodeDecimal := λ _, None.
#[local] Instance no_repr : PyRepr := λ _, [].
#[local] Instance no_fractions : FloatCompare := λ _ _, false.
(** One resolver for every name, with one public address; origins that redirect the first
    request to another path and then answer a text; joining of absolute paths. *)
Definition public_address : pystr := lit "93.184.216.34".
#[local] Instance one_address : Resolver := λ _, Some [None; Some public_address].
#[local] Instance all_global : GlobalAddress := λ _, true.
#[local] Instance redirecting : Origins := λ log,
match log with
| [_] => Some (MkHttpResponse 302 [(lit "Location", lit "/next")] (Some []))
| _ => Some (MkHttpResponse 200 [(lit "Content-Type", lit "text/plain; charset=utf-8"); (lit "Server", lit "x")] (Some (lit "hello")))
end.
#[local] Instance same_host : UrlJoin := λ base location, Some (lit "https://a.example.com" ++ location).
#[local] Instance ascii_decoder : CharsetDecoder := λ _ body, Decoded body.

Lemma short_digest_text b : sha256_text (sha256_hex b) = true.
Proof.
unfold sha256_hex, short_digest, sha256_text. rewrite length_to_hex. cbn [Nat.eqb andb]. apply forallb_forall. intros c Hc%list_elem_of_In.
match type of Hc with _ ∈ to_hex ?k ?n => pose proof (to_hex_hexc k n) as Hf end. rewrite Forall_forall in Hf. specialize (Hf c Hc).
unfold hexc in Hf. unfold is_ascii_digit. rewrite orb_true_iff, !andb_true_iff, !N.leb_le. lia.
Qed.

Definition limits : EgressLimits := MkLimits 4 1024 4096 2 5 10.
Definition policy : EgressPolicy := MkEgressPolicy [lit "a.example.com"] [lit "GET"; lit "HEAD"] limits.
Lemma created : create [lit "A.example.com."] [lit "head"; lit "GET"] limits = inr policy.
Proof. vm_compute. reflexivity. Defined.

Definition claimed (url : pystr) : pyval := PDict
[entry "id" (PStr (str_of_uuid 11)); entry "queue_id" (PStr (str_of_uuid 12)); entry "url" (PStr url);
 entry "user_data" (PDict []); entry "attempt_count" (PInt 1); entry "claim_token" (PStr (str_of_uuid 13))].
Definition url : pystr := lit "https://a.example.com/page?q=1".
Definition claim_of (url : pystr) : list (pykey * pyval) :=
claim_document (str_of_uuid 11) (str_of_uuid 12) url (PDict []) 1 (str_of_uuid 13).
Lemma claim_accepted : validate_queue_claim_result (claimed url) (str_of_uuid 12) = inr (claim_of url).
Proof. vm_compute. reflexivity. Defined.

(** A run with a redirect: two exchanges, the second answers. *)
Definition run := broker_web_requests policy None (broker_input [queue_fetch_of url]) idle.
Lemma broker_is_confined_witness :
Forall (exchange_ok policy None) (bk_log run.2) ∧ length (bk_log run.2) = 2%nat.
Proof.
split; [|vm_compute; reflexivity].
exact (proj1 (broker_is_confined [lit "A.example.com."] [lit "head"; lit "GET"] limits policy None
  (broker_input [queue_fetch_of url]) run.1 run.2 created (surjective_pairing run))).
Defined.


Lemma queue_keys_identify_requests_witness :
queue_dataset_idempotency_key (claim_of url) = inr (lit "queue:" ++ str_of_uuid 11) ∧
∃ request request' : uuid, dict_get "request_id" (claim_of url) = PStr (str_of_uuid request) ∧
  (queue_dataset_idempotency_key (claim_of url) = queue_dataset_idempotency_key (claim_of url) ↔ str_of_uuid request = str_of_uuid request').
Proof.
split; [vm_compute; reflexivity|].
destruct (queue_keys_identify_requests _ _ _ _ _ _ claim_accepted claim_accepted) as (u & u' & Hu & _ & _ & _ & _ & Hk & _).
by exists u, u'.
Defined.

(** ** A URL outside ASCII *)

Definition accented : pystr := lit "https://a.example.com/" ++ [233%N].
(** The claim is accepted; fetching its URL raises an exception that is not one of the
    worker's own. *)
Example accented_url_cannot_be_fetched :
validate_queue_claim_result (claimed accented) (str_of_uuid 12) = inr (claim_of accented) ∧
(queue_http_acquire policy None (claim_of accented) idle).1 = inl UnicodeEncodeError.
Proof. split; vm_compute; reflexivity. Qed.
(** The digests of its envelope under the two encodings differ. *)
Example accented_digests_differ :
bool_decide (ascii_digest (PDict (fetch_envelope accented)) = envelope_digest [queue_fetch_of accented]) = false.
Proof. vm_compute. reflexivity. Qed.
End SandboxScenario.

Module WorkerScenario.
#[local] Existing Instances EgressScenario.fold_ascii EgressScenario.tables EgressScenario.no_idna EgressScenario.upper_letters.
#[local] Existing Instances EgressScenario.host_tables ExecutionScenario.no_repr ExecutionScenario.no_decimals.
#[local] Existing Instances RunScenario.short_digest RunScenario.no_fractions RunScenario.plain_floats RunScenario.int_only.
#[local] Instance one_address : Resolver := λ _, Some [Some (lit "93.184.216.34")].
#[local] Instance all_global : GlobalAddress := λ _, true.
#[local] Instance one_page : Origins := λ _,
Some (MkHttpResponse 200 [(lit "Content-Type", lit "text/plain; charset=utf-8")] (Some (lit "hello"))).
#[local] Instance no_join : UrlJoin := λ _ _, None.
#[local] Instance plain_decoder : CharsetDecoder := λ _ body, Decoded body.
#[local] Instance reason_text : ExcText := λ e, match e with Fault _ reason => lit reason | _ => [] end.

(** A response of the control plane. *)
Definition ok (fields : list (string * pyval)) : exn + option pyval := inr (Some (PDict [entry "data" (RunScenario.pairs fields)])).
Definition grant : exn + option pyval := ok
[("url"%string, text "https://storage/image"); ("size_bytes"%string, PInt 10); ("digest"%string, text "aa");
 ("digest_algorithm"%string, text "sha256"); ("provenance"%string, RunScenario.pairs [("image_ref"%string, text "rdc.local/agent:1")])].
Definition upload : exn + option pyval := ok
[("url"%string, text "https://storage/output"); ("headers"%string, PDict []); ("object_key"%string, text "key")].
Definition request : exn + option pyval := ok
[("id"%string, PStr (str_of_uuid 11)); ("queue_id"%string, PStr (str_of_uuid 9)); ("url"%string, text "https://example.com/page");
 ("user_data"%string, PDict []); ("attempt_count"%string, PInt 1); ("claim_token"%string, PStr (str_of_uuid 13))].
(** What the agent wrote: a batch of one item. *)
Definition output : pyval := RunScenario.pairs
[("schema_version"%string, text "rdc.dataset-append/v1"); ("idempotency_key"%string, text "mine");
 ("items"%string, PList [RunScenario.pairs [("price"%string, PInt 5)]])].

(** A world in which the dataset answers [appended] and the agent exits with [code]. *)
Definition world (appended : exn + option pyval) (code : Z) : Host := λ A e _,
match e in effect A return exn + A with
| Api ArtifactDownload _ _ => grant
| Api ArtifactUpload _ _ => upload
| Api QueueClaim _ _ => request
| Api DatasetAppend _ _ => appended
| Api _ _ _ => inr (Some (PDict []))
| Sha256File _ => inr (lit "aa", 10)
| IsFile f => inr (match f with OutputFile => true | _ => false end)
| FileSize _ => inr 100
| ReadJson _ => inr output
| RunAgent _ => inr code
| BuildAgent _ => inr []
| GenerateKeyPair => inr (lit "key")
| DecryptSecrets _ _ _ _ => inr []
| DecryptCredential _ _ _ _ _ => inr (lit "Bearer x")
| MakeWorkspace _ | CleanupTree | MakeSourceDir | DownloadFile _ _ _ | UploadFile _ _ _ | ExtractZip | WriteBytes _ _
| LoadImage | CancelRun _ | RunNavigation _ | RunSelfTest _ => inr ()
end.

(** The lease of the sealed claim, with a runtime in its manifest. *)
Definition manifest : list (pykey * pyval) := RunScenario.manifest ++
[entry "runtime" (RunScenario.pairs [("entrypoint"%string, PList [text "python"; text "main.py"])])].
Definition claim : pyval := PDict [entry "data" (RunScenario.pairs
[("id"%string, PStr (str_of_uuid 102)); ("lease_token"%string, text "rdc_lease_t5");
 ("payload"%string, PDict (set_key "manifest" (PDict manifest) RunScenario.sealed.1.1))])].

Definition run_in (appended : exn + option pyval) (code : Z) : (exn + string) * trace :=
@run _ _ _ _ _ _ _ _ _ _ _ _ _ _ (world appended code) _ ActivationScenario.config claim (lit "canary-worker") [].
Definition books (appended : exn + option pyval) (code : Z) : ledger := ledger_of (run_in appended code).2.
(** The status and failure code of the reports, and whether they were acknowledged. *)
Definition reports (L : ledger) : list (pyval * pyval * bool) :=
(λ r, (dict_get "status" r.1, dict_get "failure_code" r.1, r.2)) <$> lg_reports L.

(** All goes well: the batch is appended under the key of the request. *)
Example request_handled :
(run_in (ok []) 0).1 = inr "succeeded"%string ∧ claims_dataset claim = true ∧
reports (books (ok []) 0) = [(text "HANDLED", PNone, true)] ∧
(λ r, (dict_get "idempotency_key" r.1, r.2)) <$> lg_appends (books (ok []) 0) = [(PStr (lit "queue:" ++ str_of_uuid 11), true)].
Proof. split_and!; vm_compute; reflexivity. Qed.
(** The control plane refuses the batch: the request is reported failed, and so is the lease. *)
Example append_refused :
let refused := inl (Fault "WorkerProtocolError" "Worker protocol returned HTTP 409") in
(run_in refused 0).1 = inr "failed"%string ∧ reports (books refused 0) = [(text "FAILED", text "DATASET_APPEND_FAILED", true)].
Proof. split; vm_compute; reflexivity. Qed.
(** The agent fails: nothing is appended. *)
Example agent_fails :
(run_in (ok []) 3).1 = inr "failed"%string ∧ lg_appends (books (ok []) 3) = [] ∧
reports (books (ok []) 3) = [(text "FAILED", text "AGENT_EXIT_NONZERO", true)].
Proof. split_and!; vm_compute; reflexivity. Qed.
End WorkerScenario.
